(* ===== verification/_CoqProject ===== *)
-Q . S2P
Prelude.v
Crc32.v
HammerDisk.v
Layout.v
HammerCrc.v
CMonad.v
WpStop.v
Ondisk.v
CacheInv.v
Buffers.v
Lookup.v
Flush.v
Blockmap.v
AllocSpec.v
Demo.v
CacheProps.v
AllocProps.v
Blocks.v
ByteOrder.v
Sha2.v
Sha2Props.v
Xxhash.v
XxhashProps.v
Newfs.v
NewfsProps.v
Mirror.v
MirrorStream.v
MirrorHist.v
MirrorProps.v
Cycle.v
Dedup.v
DedupInv.v
DedupRun.v
DedupSafe.v
DedupSim.v
DedupProps.v
Softprune.v
SoftpruneSpec.v
SoftpruneSafe.v
SoftpruneRun.v
SoftpruneProps.v
Dmsg.v
DmsgInv.v
DmsgEnd.v
DmsgProtocol.v
DmsgProps.v
DmsgFrame.v
DmsgFifo.v
DmsgRef.v
DmsgRead.v
DmsgStream.v
DmsgWrite.v
DmsgFlush.v
DmsgLink.v
DmsgLinkProps.v
H2Disk.v
H2Volumes.v
H2Mkfs.v
H2Header.v
H2Verify.v
H2Accept.v
H2Inode.v
H2Format.v
H2Newfs.v
H2Reopen.v
H2Roundtrip.v
H2Fsck.v
H2FsckRead.v
H2FsckTree.v
H2FsckVerify.v
H2FsckNew.v
H2FsckTest.v
H2Open.v
H2FsckSound.v
H2Agree.v
H2Demo.v
H2Props.v
H2FsckProps.v
