(* ===== verification/Prelude.v ===== *)
(** * A verification of the HAMMER userland

    The repository holds the userland of DragonFly's HAMMER and HAMMER2 file systems,
    made to build on Linux: hammer(8) and hammer2(8), newfs_hammer(8) and
    newfs_hammer2(8), fsck_hammer2(8), the mount helpers, and the libraries they use,
    among them the cluster message library libdmsg.  This development models the parts
    that carry the logic of their own, and proves what makes them correct.  All paths
    below are relative to src/src/.

    ** The program's parts and the files that model them

    - Prelude (this file): integers of C at their width ([uwrap], [swrap], [bnot]),
      little-endian byte images, updates of byte lists, and lemmas shared by all files.
    - CMonad: the effects of the C code.  A function on a state [S] is a [prog S A]; it
      returns ([Ok]) or ends the process ([Stop]: exit, failed assertion, undefined
      behaviour, deadlock, and [OutOfFuel] and [Watched], which are the model's own: a bound
      was reached, or an observer that a theorem has put beside the program ended the run).  [wp] is total
      correctness, so a specification in terms of [wp] includes termination.  WpStop adds
      [wps], which also says in which ways a program may stop.
    - Crc32: sys/libkern/crc32.c and icrc32.c, with all tables.
    - HammerDisk: the offsets, zones and freemap addressing of sys/vfs/hammer/hammer_disk.h.
    - Layout: the on-disk structures as byte images.
    - HammerCrc: sys/vfs/hammer/hammer_crc.h, the checksums embedded in those structures and
      in the FIFO and mirror records.
    - Ondisk: the volumes and the buffer cache of sbin/hammer/ondisk.c and cache.c
      ([get_buffer], [get_buffer_data], [rel_buffer], read-ahead, [hammer_cache_flush],
      [flush_all_volumes]) and the blockmap lookup of blockmap.c.  The state is the global
      state of the C code: the volume list, the files, a heap of buffers with their hash
      chains, and the LRU list.
    - Blockmap: [alloc_blockmap] and the other allocators of blockmap.c, and the
      formatting of freemap, zones and UNDO FIFO of ondisk.c.
    - CacheInv, Buffers, Lookup, Flush, AllocSpec: the invariant of the cache ([wf]), the
      specification of each operation over the visible content of the volumes ([view]),
      and the allocator's.  Demo: a small volume for the examples.  CacheProps and
      AllocProps: the theorems.
    - Newfs, NewfsProps: options, sizes and volume layout of newfs_hammer, and the checks it
      makes before it formats anything.
    - Sha2, Sha2Props: sys/crypto/sha2/sha2.c.  Xxhash, XxhashProps:
      sys/vfs/hammer2/xxhash/xxhash.c.  Blocks and ByteOrder are what the two share.
    - Mirror: from sbin/hammer/cmd_mirror.c, the record stream of mirror-read and
      mirror-write, the histogram of a bulk transfer, the bandwidth limit and the restricted
      target.  MirrorStream and MirrorHist: the readers against a list of records, the
      histogram against the list of what it counts.  MirrorProps: the theorems.
    - Cycle: sbin/hammer/cycle.c, over any state that has a cycle file ([CycleFile]).
    - Dedup: sbin/hammer/cmd_dedup.c: the scan of the records, the tree of CRCs
      with its subtrees of hashes, pass 2, the memory limit and the totals, over a kernel
      that is a parameter (its answers to the ioctls).  DedupInv: the invariant of the
      trees and what one record does to it.  DedupRun: a whole run; DedupSafe: an invariant
      of every run; DedupSim: dedup-simulate against a grouping of the records.
      DedupProps: the theorems.
    - Softprune: sbin/hammer/cmd_softprune.c: the snapshots of softlinks and meta-data, and
      the array of ranges for the kernel.  SoftpruneSpec: the array and its loops against
      lists, and the reference [prune_ranges]; SoftpruneSafe: what the ranges leave alone;
      SoftpruneRun: the whole command.  SoftpruneProps: the theorems.
    - Dmsg: the transactions of lib/libdmsg/msg.c.  DmsgInv and DmsgEnd: the invariant of
      one end of a connection and the effect of each operation on it.  DmsgProtocol: the
      life of a transaction as the two ends and the messages under way see it.
      DmsgProps: two connected ends as a transition system, and the theorems.
    - DmsgFrame: the bytes on the link: the FIFOs, the states of [dmsg_ioq_read], the
      transmit queue of [dmsg_iocom_flush1] and [dmsg_iocom_flush2], the errors and the
      loop of [dmsg_iocom_core], over [iocom] of Dmsg; a socket is a list of events, each
      the outcome of one system call.  DmsgFifo, DmsgRead: the receive FIFO as a list of
      bytes and one pass of the state machine.  DmsgRef: the reference for one frame;
      DmsgStream: for a stream of frames.  DmsgWrite, DmsgFlush: the messages as they are
      written, and what is left to be sent.  DmsgLink: both sides together, and links
      that have failed; DmsgLinkProps: the theorems.
    - H2Disk: the structures and constants of sys/vfs/hammer2/hammer2_disk.h, and the
      directory hash of sbin/hammer2/subs.c.
    - H2Volumes: sbin/hammer2/ondisk.c, [check_volume] of subs.c and
      lib/libc/gen/getdevpath.c: how the HAMMER2 utilities open, verify and address the
      volumes of a file system.  The operating system's paths, nodes and descriptors are part
      of the state [h2state].
    - H2Mkfs: newfs_hammer2(8), sbin/newfs_hammer2/mkfs_hammer2.c and newfs_hammer2.c.
    - H2Header, H2Verify, H2Accept, H2Open: the choice of a header, what
      [hammer2_verify_volumes] accepts, that it accepts what it should, and that the table of
      volumes stays well-formed.  H2Agree: that the table is what the headers say.
    - H2Inode, H2Format, H2Newfs: what newfs_hammer2 writes, from the inodes to the whole
      run.  H2Reopen, H2Roundtrip: opening what it wrote.
    - H2Fsck: fsck_hammer2(8), sbin/fsck_hammer2/test.c and fsck_hammer2.c.
    - H2FsckRead, H2FsckTree, H2FsckVerify, H2FsckTest: reading a block, the reference
      definition of a sound tree with its totals ([tree_delta]), that the recursion with its
      cache computes it, and the tests over the zones.  H2FsckNew: the trees of a new file
      system.  H2FsckSound: what it means that the tests pass.
    - H2Demo: two small volumes for the examples.  H2Props and H2FsckProps: the theorems.

    The parts build on each other the way the code does: the buffer cache on the on-disk
    images and the freemap addressing, the lookup and the allocator on the buffer cache
    and the checksums, the checksums on the CRC.  Clients use the specification of a
    layer, not its definitions: CacheInv and Buffers give the interface ([acquired],
    [moved], [shows]) against which Lookup, Flush and AllocSpec are proved.  On-disk
    structures are instances of the class [OnDisk], those with a checksum of
    [Checksummed], and the properties are proved once for the class.  The SHA-2 functions
    are one definition over a record of parameters ([variant]) and a class of bit counters
    ([BitCounter]).  newfs_hammer2 and fsck_hammer2 share H2Volumes, and meet in the headers
    and inodes: H2Newfs gives the contents of the files after newfs_hammer2 ([formatted]), from
    which H2Roundtrip and H2FsckNew derive what the other utilities find.

    ** What the theorems show

    - CRC: the table-driven and sliced loops compute the bit-serial definition for every
      alignment and length; checksums continue over concatenations and detect bursts.
    - Layout and checksums: structures have their C sizes, images read back; set followed
      by test succeeds; damage is detected.
    - Cache: every operation keeps the invariant, returns the current content of the
      block whatever was cached or evicted, and exchanges exactly its references; eviction
      ends, loses no content and touches no referenced buffer; flushing makes the files
      equal to what the cache shows.  The lookup implements a pure specification.
    - Allocator: an allocation passes foreign big-blocks, takes the first free offset and
      changes exactly the two freemap entries, the zone's next offset and the header.
    - newfs_hammer: whatever options are accepted, the areas of the volume are ordered,
      aligned and disjoint, or the volume is rejected, for the reasons the manual gives.
    - Hashes: streaming equals one-shot equals the standard's definition; byte order and
      alignment do not matter; the canonical form reads back.
    - Mirror stream: what is written is read back record by record, however the pipe cuts
      it, also when single and batched reads are mixed; the histogram cuts a transfer
      as its samples say; the bandwidth limit holds; a restricted user stays below the target.
    - hammer dedup: with enough memory every listed record is counted exactly once,
      whatever the kernel answers; in every run, also one that does not return, only
      candidates are offered to the kernel; the memory stays near its limit as long as the
      range of CRCs is not empty; dedup-simulate computes the totals of the groups.
    - hammer prune: the request is exactly the reference's; its ranges contain no snapshot,
      spare what is within the retention time, and cover everything below the newest old
      snapshot if there are two old ones.
    - Transactions: two connected ends never fail an assertion, deliver exactly what was
      sent, keep exact reference counts (the root's with its leaks), and forget every
      finished transaction.  All of this is proved for both kinds of mutex; with the kind
      that is the default on Linux the completion of a received message blocks its thread,
      and the theorems say so.
    - HAMMER2 volumes: after any successful opening the table holds what the best headers of
      distinct files say, the headers agree, the volumes form one address space, offsets are translated exactly, the best header is chosen.
    - newfs_hammer2: it runs to the end on large enough files; what it makes can be opened in
      any order, and fsck_hammer2 accepts it with exactly the expected totals, if no old
      header lies where it writes none ([no_stale]).
    - fsck_hammer2: what it accepts is sound (readable blocks, no cycles, and the check codes
      of the three algorithms it verifies, which SHA-192 is not among); its
      recursion computes the reference definition whatever the cache holds.
    - Failures are stated as theorems, too: the divergence of a damaged translation, the
      assertion in an allocation that crosses a buffer, negative sizes with -f, the lost
      byte after a failed read of the mirror stream, the deadlock and the two abort races of
      msg.c, the abort on a damaged header, the wrapped size, the endless decryption and the
      loop that does not end of the framing, the endless recursion of fsck_hammer2 on a cycle and its read past a window, the
      overflow when a volume is missing, block devices that are refused, the aux area of
      1 GB, and the records that hammer dedup counts twice.

    - The framing of libdmsg: a pass of the receiver has the verdict of the reference on
      all bytes that arrived, however they arrived; reading a stream delivers what the
      transaction layer delivers for its frames; a flush sends a prefix of what is queued;
      so that queued messages arrive unchanged and in order.

    ** Bounds and fuel

    Loops that the code ends by a condition have a bound in the model, and the theorems
    show that it is not reached: [LOOKUP_DEPTH] (16) for the mutual recursion of
    [get_buffer_data] and the lookup, which takes two levels on any volume whose freemap
    is not damaged; [ALLOC_TURNS] (37, that is 2^37 turns) for the search of the allocator,
    more than there are big-blocks; the length of the LRU list plus one for the eviction;
    64 for the halving of a 64-bit size and for the window of [read_media]; 2^14 blocks for the
    areas that newfs_hammer2 clears.  The fuel of fsck_hammer2 is the depth of the C stack:
    the depth of the tree is enough, and on a cycle no fuel is.  The fuel of
    [hammer2_init_volumes] is the depth of lists inside devtab entries.  In Dmsg fuel is used only by the simulated
    failure of a whole circuit, which the protocol theorems, having no failures, hold
    for at any fuel; in DmsgFrame one unit for each frame and each piece of input is enough.  In Dedup the fuel
    is the number of passes, the number of pages of a scan, and 34 turns of the loop that
    halves the range of CRCs; in Softprune the number of answers with which the kernel lists
    its snapshots.  Reference counts and the number of bytes of the cache are unbounded integers; those of Dmsg
    are 32-bit, and the theorems assume them far from wrapping ([bounded]).

    ** Choices

    The machine is little-endian and 64-bit except in Xxhash, where the byte order is a
    parameter.  Addresses that [malloc] returns are arguments, required to be fresh.
    Red-black trees are finite maps and tail queues are lists.  Whether a thread can lock
    a mutex it already holds is a parameter ([mutex_kind]) of the transition system.  The
    observer of Dedup ([k_watch]) exists for one theorem about runs that do not return.  Output to the terminal is left out.

    ** Not modelled

    The other command drivers of hammer(8) and hammer2(8), which are ioctls of a kernel that is
    not part of the sources and printing; the key exchange, the relays, the spanning tree
    (msg_lnk.c) and the service threads of libdmsg; probing of devices by newfs_hammer; the
    mount helpers; destroy.c and reconstruct.c of fsck_hammer2, which are not part of the
    program; the container macros of sys/sys/tree.h and queue.h. *)

From stdpp Require Export prelude list gmap.
From Stdlib Require Export ZArith Lia Btauto.
#[export] Set Warnings "-clear-no-such-hyp".

Declare Scope c_scope.
Delimit Scope c_scope with c.

#[global] Open Scope Z_scope.

(** ** Fixed-width integers

    A C integer is a [Z] kept in the range of its type.  [uwrap w] is the
    conversion to the unsigned type of width [w], [swrap w] the conversion to the
    two's-complement signed one. *)

Definition uwrap (w z : Z) : Z := z mod 2 ^ w.
Definition swrap (w z : Z) : Z := (z + 2 ^ (w - 1)) mod 2 ^ w - 2 ^ (w - 1).

Abbreviation u8 := (uwrap 8).
Abbreviation u16 := (uwrap 16).
Abbreviation u32 := (uwrap 32).
Abbreviation u64 := (uwrap 64).
Abbreviation s32 := (swrap 32).
Abbreviation s64 := (swrap 64).

(** [in_u w z]: [z] is a value of the unsigned type of width [w]. *)
Definition in_u (w z : Z) : Prop := 0 <= z < 2 ^ w.
Definition in_s (w z : Z) : Prop := - 2 ^ (w - 1) <= z < 2 ^ (w - 1).

#[global] Instance in_u_dec w z : Decision (in_u w z).
Proof. unfold in_u. apply _. Defined.
#[global] Instance in_s_dec w z : Decision (in_s w z).
Proof. unfold in_s. apply _. Defined.

(** C bitwise operators at width [w]; [&], [|], [^] and [>>] stay in range on
    in-range unsigned operands, [~] and [<<] are cut to the width. *)
Infix ".&" := Z.land (at level 40, left associativity) : c_scope.
Infix ".|" := Z.lor (at level 45, left associativity) : c_scope.
Infix ".^" := Z.lxor (at level 43, left associativity) : c_scope.
Infix ".>>" := Z.shiftr (at level 38, left associativity) : c_scope.
Infix ".<<" := Z.shiftl (at level 38, left associativity) : c_scope.
#[global] Open Scope c_scope.

Definition bnot (w z : Z) : Z := Z.lxor z (Z.ones w).

(** ** Hint databases of the development *)
Create HintDb c_int discriminated.
Create Rewrite HintDb c_bits.

(** ** Generic lemmas on [Z] *)

Lemma in_u_uwrap w z : 0 <= w -> in_u w (uwrap w z).
Proof. intros. apply Z.mod_pos_bound. lia. Qed.

Lemma uwrap_small w z : in_u w z -> uwrap w z = z.
Proof. apply Z.mod_small. Qed.

Lemma uwrap_idemp w z : uwrap w (uwrap w z) = uwrap w z.
Proof. apply Zmod_mod. Qed.

(** A value of width [w] is one whose bits from [w] up are clear. *)
Lemma in_u_bits w z :
  0 <= w -> in_u w z <-> (forall i, w <= i -> Z.testbit z i = false).
Proof.
  intros Hw. split.
  - intros Hz i Hi. rewrite <- (Z.mod_small z (2 ^ w)) by exact Hz.
    by apply Z.mod_pow2_bits_high.
  - intros Hb. assert (z mod 2 ^ w = z) as <-; [|apply Z.mod_pos_bound; lia].
    apply Z.bits_inj'. intros i Hi. destruct (decide (i < w)).
    + by apply Z.mod_pow2_bits_low.
    + rewrite Z.mod_pow2_bits_high, Hb by lia. done.
Qed.

Lemma in_u_testbit w z i : 0 <= w -> in_u w z -> w <= i -> Z.testbit z i = false.
Proof. intros ? Hz ?. by apply (proj1 (in_u_bits w z ltac:(done)) Hz). Qed.

#[export] Hint Rewrite Z.lxor_spec Z.land_spec Z.lor_spec Z.ldiff_spec : c_bits.
#[export] Hint Rewrite Z.shiftr_spec Z.shiftl_spec Z.lnot_spec using lia : c_bits.
#[export] Hint Rewrite Z.bits_0 : c_bits.

(** [bits_ext] reduces an equation on [Z] to its bits, [bits_simpl] computes
    them. *)
Ltac bits_simpl :=
  autorewrite with c_bits;
  repeat match goal with
         | |- context [Z.testbit (Z.ones ?n) ?i] =>
             first [rewrite (Z.ones_spec_low n i) by lia | rewrite (Z.ones_spec_high n i) by lia]
         | |- context [Z.testbit ?a ?i] => rewrite (Z.testbit_neg_r a i) by lia
         end.
Ltac bits_ext := apply Z.bits_inj'; let i := fresh "i" in intros i ?; bits_simpl.

Lemma in_u_lxor w a b : 0 <= w -> in_u w a -> in_u w b -> in_u w (Z.lxor a b).
Proof.
  intros Hw Ha Hb. apply in_u_bits; [done|]. intros i Hi. bits_simpl.
  by rewrite !(in_u_testbit w) by done.
Qed.

Lemma in_u_land_r w a b : 0 <= w -> in_u w b -> in_u w (Z.land a b).
Proof.
  intros Hw Hb. apply in_u_bits; [done|]. intros i Hi. bits_simpl.
  rewrite (in_u_testbit w b) by done. by rewrite andb_false_r.
Qed.

Lemma in_u_land_l w a b : 0 <= w -> in_u w a -> in_u w (Z.land a b).
Proof. rewrite Z.land_comm. apply in_u_land_r. Qed.

Lemma in_u_lor w a b : 0 <= w -> in_u w a -> in_u w b -> in_u w (Z.lor a b).
Proof.
  intros Hw Ha Hb. apply in_u_bits; [done|]. intros i Hi. bits_simpl.
  by rewrite !(in_u_testbit w) by done.
Qed.

Lemma in_u_shiftr w a n : 0 <= w -> 0 <= n -> in_u w a -> in_u w (Z.shiftr a n).
Proof.
  intros Hw Hn Ha. apply in_u_bits; [done|]. intros i Hi. bits_simpl.
  by apply (in_u_testbit w); [done..|lia].
Qed.

Lemma in_u_ones w : 0 <= w -> in_u w (Z.ones w).
Proof. intros. rewrite Z.ones_equiv. unfold in_u. pose proof (Z.pow_pos_nonneg 2 w). lia. Qed.

Lemma in_u_mono w w' z : w <= w' -> in_u w z -> in_u w' z.
Proof. unfold in_u. intros ? [? ?]. pose proof (Z.pow_le_mono_r 2 w w'). lia. Qed.

Lemma in_u_bnot w z : 0 <= w -> in_u w z -> in_u w (bnot w z).
Proof. intros. unfold bnot. eauto using in_u_lxor, in_u_ones. Qed.

Lemma bnot_bnot w z : bnot w (bnot w z) = z.
Proof. unfold bnot. by rewrite Z.lxor_assoc, Z.lxor_nilpotent, Z.lxor_0_r. Qed.

Lemma in_u_nonneg w z : in_u w z -> 0 <= z.
Proof. unfold in_u. lia. Qed.

Ltac solve_range := solve [unfold in_u, in_s in *; simpl; lia].

#[export] Hint Resolve in_u_lxor in_u_land_r in_u_land_l in_u_lor in_u_shiftr in_u_ones
  in_u_bnot in_u_uwrap in_u_nonneg : c_int.
#[export] Hint Extern 3 (0 <= _) => lia : c_int.
#[export] Hint Extern 5 (in_u _ _) => solve_range : c_int.

(** [lia] with the division and remainder by constants spelled out. *)
Ltac dlia := unfold in_u, in_s in *; Z.to_euclidean_division_equations; lia.

(** Masks, shifts and disjoint [|] as arithmetic. *)
Lemma land_ones_mod x k : 0 <= k -> x .& Z.ones k = x mod 2 ^ k.
Proof. apply Z.land_ones. Qed.

Lemma land_bnot_ones w x k :
  0 <= k <= w -> in_u w x -> x .& bnot w (Z.ones k) = x - x mod 2 ^ k.
Proof.
  intros Hk Hx. rewrite <- Z.land_ones, Z.sub_nocarry_ldiff by
    (try lia; bits_ext; btauto).
  unfold bnot. bits_ext. destruct (decide (i < k)), (decide (i < w)); bits_simpl;
    rewrite ?(in_u_testbit w x) by (done || lia); try btauto.
Qed.

Lemma lor_shiftl_add a b k : 0 <= k -> in_u k b -> (a .<< k) .| b = a * 2 ^ k + b.
Proof.
  intros Hk Hb. rewrite <- Z.shiftl_mul_pow2 by done.
  rewrite Z.add_nocarry_lxor, Z.lxor_lor; [done| |];
    bits_ext; destruct (decide (i < k)); bits_simpl;
    rewrite ?(in_u_testbit k b) by (done || lia); btauto.
Qed.

(** ** Byte strings

    Memory is a list of bytes, each a [Z] in [0 .. 255]. *)
Abbreviation bytes := (list Z).
Definition bytes_ok (bs : bytes) : Prop := Forall (in_u 8) bs.

(** Little-endian image of an [n]-byte integer, and the integer stored in a byte
    string. *)
Definition le_bytes (n : nat) (z : Z) : bytes := Z_to_little_endian (Z.of_nat n) 8 z.
Definition of_le (bs : bytes) : Z := little_endian_to_Z 8 bs.

Lemma le_bytes_length n z : length (le_bytes n z) = n.
Proof.
  apply Nat2Z.inj. unfold le_bytes. rewrite length_Z_to_little_endian; lia.
Qed.

Lemma le_bytes_ok n z : bytes_ok (le_bytes n z).
Proof. apply Z_to_little_endian_bound; lia. Qed.

Lemma of_le_le_bytes n z : in_u (8 * Z.of_nat n) z -> of_le (le_bytes n z) = z.
Proof.
  intros Hz. unfold of_le, le_bytes.
  rewrite little_endian_to_Z_to_little_endian by lia.
  apply Z.mod_small. by rewrite Z.mul_comm.
Qed.

Lemma le_bytes_of_le n bs : length bs = n -> bytes_ok bs -> le_bytes n (of_le bs) = bs.
Proof. intros <- Hb. apply Z_to_little_endian_to_Z; [lia..|done]. Qed.

Lemma of_le_bound bs : bytes_ok bs -> in_u (8 * Z.of_nat (length bs)) (of_le bs).
Proof.
  intros Hb. unfold in_u. rewrite Z.mul_comm.
  apply little_endian_to_Z_bound; [lia|done].
Qed.

(** [memcpy] of [xs] to offset [off] of a buffer. *)
Definition splice (bs : bytes) (off : nat) (xs : bytes) : bytes :=
  take off bs ++ xs ++ drop (off + length xs) bs.

Lemma length_splice bs off xs :
  (off + length xs <= length bs)%nat -> length (splice bs off xs) = length bs.
Proof. intros. unfold splice. rewrite !length_app, length_take, length_drop. lia. Qed.

Lemma drop_splice bs off xs :
  (off + length xs <= length bs)%nat ->
  drop off (splice bs off xs) = xs ++ drop (off + length xs) bs.
Proof. intros. unfold splice. rewrite drop_app_length'; [done|]. rewrite length_take. lia. Qed.

(** Bytes outside the written range keep their value. *)
Lemma lookup_splice_ne bs off xs i :
  (off + length xs <= length bs)%nat -> (i < off \/ off + length xs <= i)%nat ->
  splice bs off xs !! i = bs !! i.
Proof.
  intros Hl [Hi|Hi]; unfold splice.
  - rewrite lookup_app_l, lookup_take_lt by (rewrite ?length_take; lia). done.
  - rewrite !lookup_app_r by (rewrite ?length_take; lia).
    rewrite lookup_drop, length_take. f_equal. lia.
Qed.

Lemma splice_ok bs off xs : bytes_ok bs -> bytes_ok xs -> bytes_ok (splice bs off xs).
Proof.
  intros Hb Hx. unfold splice, bytes_ok. rewrite !Forall_app.
  eauto using Forall_take, Forall_drop.
Qed.
