(* ===== verification/HammerDisk.v ===== *)
(** * HammerDisk: the on-disk address space of HAMMER (src/sys/vfs/hammer/hammer_disk.h)

    The 64-bit [hammer_off_t] packs a zone, a volume number and a byte offset; a zone-2
    offset is split again into a layer-1 index, a layer-2 index and an offset inside an
    8 MB big-block.  This file holds the constants and the encoding, decoding,
    translation and alignment macros, and shows that they are the arithmetic they are
    meant to be: encoding and decoding are inverse, and the two-level freemap addresses
    every big-block of the 60-bit space exactly once. *)

From S2P Require Import Prelude.

(** ** Constants *)

Definition HAMMER_BUFSIZE : Z := 16384.
Definition HAMMER_BUFMASK : Z := HAMMER_BUFSIZE - 1.
Definition HAMMER_BUFMASK64 : Z := HAMMER_BUFMASK.
Definition HAMMER_OFF_ZONE_MASK : Z := 0xF000000000000000.
Definition HAMMER_OFF_SHORT_MASK : Z := 0x000FFFFFFFFFFFFF.
Definition HAMMER_OFF_LONG_MASK : Z := 0x0FFFFFFFFFFFFFFF.
Definition HAMMER_OFF_BAD : Z := u64 (-1).
Definition HAMMER_MAX_VOLUMES : Z := 256.

Definition HAMMER_ZONE_RAW_VOLUME : Z := 0x1000000000000000.
Definition HAMMER_ZONE_RAW_BUFFER : Z := 0x2000000000000000.
Definition HAMMER_ZONE_UNDO : Z := 0x3000000000000000.
Definition HAMMER_ZONE_RAW_VOLUME_INDEX : Z := 1.
Definition HAMMER_ZONE_RAW_BUFFER_INDEX : Z := 2.
Definition HAMMER_ZONE_UNDO_INDEX : Z := 3.
Definition HAMMER_ZONE_FREEMAP_INDEX : Z := 4.
Definition HAMMER_ZONE_BTREE_INDEX : Z := 8.
Definition HAMMER_ZONE_META_INDEX : Z := 9.
Definition HAMMER_ZONE_LARGE_DATA_INDEX : Z := 10.
Definition HAMMER_ZONE_SMALL_DATA_INDEX : Z := 11.
Definition HAMMER_ZONE_UNAVAIL_INDEX : Z := 15.
Definition HAMMER_MAX_ZONES : Z := 16.
Definition HAMMER_ROOT_VOLNO : Z := 0.

Definition HAMMER_BIGBLOCK_SIZE : Z := 8192 * 1024.
Definition HAMMER_BIGBLOCK_MASK : Z := HAMMER_BIGBLOCK_SIZE - 1.
Definition HAMMER_BIGBLOCK_MASK64 : Z := HAMMER_BIGBLOCK_SIZE - 1.
Definition HAMMER_BLOCKMAP_UNAVAIL : Z := u64 (-1).

(** [sizeof] the two freemap entries; [Layout] shows these are the sizes of the
    structures. *)
Definition sizeof_layer1 : Z := 32.
Definition sizeof_layer2 : Z := 16.

Definition HAMMER_BLOCKMAP_RADIX1 : Z := HAMMER_BIGBLOCK_SIZE / sizeof_layer1.
Definition HAMMER_BLOCKMAP_RADIX2 : Z := HAMMER_BIGBLOCK_SIZE / sizeof_layer2.
Definition HAMMER_BLOCKMAP_LAYER2 : Z := HAMMER_BLOCKMAP_RADIX2 * HAMMER_BIGBLOCK_SIZE.
Definition HAMMER_BLOCKMAP_LAYER1 : Z := HAMMER_BLOCKMAP_RADIX1 * HAMMER_BLOCKMAP_LAYER2.
Definition HAMMER_BLOCKMAP_LAYER1_MASK : Z := HAMMER_BLOCKMAP_LAYER1 - 1.
Definition HAMMER_BLOCKMAP_LAYER2_MASK : Z := HAMMER_BLOCKMAP_LAYER2 - 1.

Definition HAMMER_MIN_UNDO_BIGBLOCKS : Z := 64.
Definition HAMMER_MAX_UNDO_BIGBLOCKS : Z := 128.

(** ** Zones *)

Definition HAMMER_ZONE (offset : Z) : Z := offset .& HAMMER_OFF_ZONE_MASK.
Definition hammer_is_zone_raw_buffer (offset : Z) : bool :=
  bool_decide (HAMMER_ZONE offset = HAMMER_ZONE_RAW_BUFFER).
Definition hammer_is_zone_undo (offset : Z) : bool :=
  bool_decide (HAMMER_ZONE offset = HAMMER_ZONE_UNDO).

Definition hammer_is_index_record (zone : Z) : bool :=
  bool_decide (HAMMER_ZONE_BTREE_INDEX <= zone) && bool_decide (zone < HAMMER_MAX_ZONES).
Definition hammer_is_index_direct_xlated (zone : Z) : bool :=
  bool_decide (zone = HAMMER_ZONE_RAW_BUFFER_INDEX)
  || bool_decide (zone = HAMMER_ZONE_FREEMAP_INDEX)
  || hammer_is_index_record zone.

Definition HAMMER_ZONE_ENCODE (zone ham_off : Z) : Z := u64 (u64 zone .<< 60) .| ham_off.
Definition HAMMER_ZONE_DECODE (ham_off : Z) : Z := s32 (ham_off .>> 60).
Definition HAMMER_VOL_ENCODE (vol_no : Z) : Z := u64 ((vol_no .& 255) .<< 52).
Definition HAMMER_VOL_DECODE (ham_off : Z) : Z := s32 ((ham_off .>> 52) .& 255).
Definition HAMMER_OFF_SHORT_ENCODE (offset : Z) : Z := u64 offset .& HAMMER_OFF_SHORT_MASK.
Definition HAMMER_OFF_LONG_ENCODE (offset : Z) : Z := u64 offset .& HAMMER_OFF_LONG_MASK.
Definition HAMMER_ENCODE (zone vol_no offset : Z) : Z :=
  u64 (u64 zone .<< 60) .| HAMMER_VOL_ENCODE vol_no .| HAMMER_OFF_SHORT_ENCODE offset.
Definition HAMMER_ENCODE_RAW_BUFFER (vol_no offset : Z) : Z :=
  HAMMER_ENCODE HAMMER_ZONE_RAW_BUFFER_INDEX vol_no offset.
Definition HAMMER_ENCODE_UNDO (offset : Z) : Z :=
  HAMMER_ENCODE HAMMER_ZONE_UNDO_INDEX HAMMER_ROOT_VOLNO offset.

Definition hammer_is_zone_record (offset : Z) : bool :=
  hammer_is_index_record (HAMMER_ZONE_DECODE offset).
Definition hammer_is_zone_direct_xlated (offset : Z) : bool :=
  hammer_is_index_direct_xlated (HAMMER_ZONE_DECODE offset).

(** ** Translations *)

Definition hammer_xlate_to_zoneX (zone offset : Z) : Z :=
  HAMMER_ZONE_ENCODE zone (offset .& bnot 64 HAMMER_OFF_ZONE_MASK).
Definition hammer_xlate_to_zone2 (offset : Z) : Z :=
  hammer_xlate_to_zoneX HAMMER_ZONE_RAW_BUFFER_INDEX offset.
Definition hammer_data_zone_index (data_len : Z) : Z :=
  if bool_decide (HAMMER_BUFSIZE <= data_len)
  then HAMMER_ZONE_LARGE_DATA_INDEX else HAMMER_ZONE_SMALL_DATA_INDEX.

(** ** Freemap geometry *)

Definition HAMMER_BLOCKMAP_LAYER1_INDEX (zone2_offset : Z) : Z :=
  s32 ((zone2_offset .& HAMMER_BLOCKMAP_LAYER1_MASK) / HAMMER_BLOCKMAP_LAYER2).
Definition HAMMER_BLOCKMAP_LAYER2_INDEX (zone2_offset : Z) : Z :=
  s32 ((zone2_offset .& HAMMER_BLOCKMAP_LAYER2_MASK) / HAMMER_BIGBLOCK_SIZE).
Definition HAMMER_BLOCKMAP_LAYER1_OFFSET (zone2_offset : Z) : Z :=
  u64 (u64 (HAMMER_BLOCKMAP_LAYER1_INDEX zone2_offset) * sizeof_layer1).
Definition HAMMER_BLOCKMAP_LAYER2_OFFSET (zone2_offset : Z) : Z :=
  u64 (u64 (HAMMER_BLOCKMAP_LAYER2_INDEX zone2_offset) * sizeof_layer2).

(** ** Alignment *)

Definition HAMMER_BUFSIZE_DOALIGN (offset : Z) : Z :=
  (offset + HAMMER_BUFMASK) .& Z.lnot HAMMER_BUFMASK.
Definition HAMMER_BIGBLOCK_DOALIGN (offset : Z) : Z :=
  u64 (offset + HAMMER_BIGBLOCK_MASK64) .& bnot 64 HAMMER_BIGBLOCK_MASK64.
Definition HAMMER_BLOCKMAP_LAYER2_DOALIGN (offset : Z) : Z :=
  u64 (offset + HAMMER_BLOCKMAP_LAYER2_MASK) .& bnot 64 HAMMER_BLOCKMAP_LAYER2_MASK.
Definition HAMMER_ZONE_LAYER1_NEXT_OFFSET (offset : Z) : Z :=
  u64 (offset + HAMMER_BLOCKMAP_LAYER2) .& bnot 64 HAMMER_BLOCKMAP_LAYER2_MASK.
Definition HAMMER_ZONE_LAYER2_NEXT_OFFSET (offset : Z) : Z :=
  u64 (offset + HAMMER_BIGBLOCK_SIZE) .& bnot 64 HAMMER_BIGBLOCK_MASK64.
(** on an [int] *)
Definition HAMMER_DATA_DOALIGN (offset : Z) : Z := (offset + 15) .& Z.lnot 15.

(** ** The macros as arithmetic *)

Lemma swrap_small w z : in_s w z -> 0 < w -> swrap w z = z.
Proof.
  intros Hz Hw. unfold swrap, in_s in *.
  assert (2 ^ w = 2 * 2 ^ (w - 1)) by (rewrite <- Z.pow_succ_r by lia; f_equal; lia).
  rewrite Z.mod_small by lia. lia.
Qed.

Lemma zone_decode_div x : in_u 64 x -> HAMMER_ZONE_DECODE x = x / 2 ^ 60.
Proof.
  intros Hx. unfold HAMMER_ZONE_DECODE. rewrite Z.shiftr_div_pow2 by done.
  apply swrap_small; [|done]. dlia.
Qed.

Lemma vol_decode_div x : in_u 64 x -> HAMMER_VOL_DECODE x = x / 2 ^ 52 mod 2 ^ 8.
Proof.
  intros Hx. unfold HAMMER_VOL_DECODE. rewrite Z.shiftr_div_pow2 by done.
  change 255 with (Z.ones 8). rewrite Z.land_ones by done.
  apply swrap_small; [|done]. dlia.
Qed.

Lemma short_encode_mod x : HAMMER_OFF_SHORT_ENCODE x = x mod 2 ^ 52.
Proof.
  unfold HAMMER_OFF_SHORT_ENCODE. change HAMMER_OFF_SHORT_MASK with (Z.ones 52).
  rewrite Z.land_ones by done. unfold uwrap. dlia.
Qed.

Lemma long_encode_mod x : HAMMER_OFF_LONG_ENCODE x = x mod 2 ^ 60.
Proof.
  unfold HAMMER_OFF_LONG_ENCODE. change HAMMER_OFF_LONG_MASK with (Z.ones 60).
  rewrite Z.land_ones by done. unfold uwrap. dlia.
Qed.

Lemma zone_encode_add zone off :
  0 <= zone < 16 -> in_u 60 off -> HAMMER_ZONE_ENCODE zone off = zone * 2 ^ 60 + off.
Proof.
  intros Hz Hoff. unfold HAMMER_ZONE_ENCODE. rewrite (uwrap_small 64 zone) by dlia.
  rewrite uwrap_small by (rewrite Z.shiftl_mul_pow2 by done; dlia).
  by apply lor_shiftl_add.
Qed.

Lemma encode_add zone vol off :
  0 <= zone < 16 -> 0 <= vol < 256 -> in_u 52 off ->
  HAMMER_ENCODE zone vol off = zone * 2 ^ 60 + vol * 2 ^ 52 + off.
Proof.
  intros Hz Hv Hoff. unfold HAMMER_ENCODE, HAMMER_VOL_ENCODE.
  rewrite short_encode_mod, (Z.mod_small off) by done.
  change 255 with (Z.ones 8). rewrite Z.land_ones, (Z.mod_small vol) by dlia.
  rewrite (uwrap_small 64 zone) by dlia.
  rewrite !(uwrap_small 64) by (rewrite Z.shiftl_mul_pow2 by done; dlia).
  rewrite <- Z.lor_assoc, (lor_shiftl_add vol) by done.
  rewrite lor_shiftl_add by dlia. lia.
Qed.

Lemma layer1_index_div x : in_u 64 x -> HAMMER_BLOCKMAP_LAYER1_INDEX x = x mod 2 ^ 60 / 2 ^ 42.
Proof.
  intros Hx. unfold HAMMER_BLOCKMAP_LAYER1_INDEX.
  change HAMMER_BLOCKMAP_LAYER1_MASK with (Z.ones 60).
  change HAMMER_BLOCKMAP_LAYER2 with (2 ^ 42).
  rewrite Z.land_ones by done. apply swrap_small; [|done]. dlia.
Qed.

Lemma layer2_index_div x : in_u 64 x -> HAMMER_BLOCKMAP_LAYER2_INDEX x = x mod 2 ^ 42 / 2 ^ 23.
Proof.
  intros Hx. unfold HAMMER_BLOCKMAP_LAYER2_INDEX.
  change HAMMER_BLOCKMAP_LAYER2_MASK with (Z.ones 42).
  change HAMMER_BIGBLOCK_SIZE with (2 ^ 23).
  rewrite Z.land_ones by done. apply swrap_small; [|done]. dlia.
Qed.

Lemma layer1_offset_mul x : in_u 64 x -> HAMMER_BLOCKMAP_LAYER1_OFFSET x = x mod 2 ^ 60 / 2 ^ 42 * 32.
Proof.
  intros Hx. unfold HAMMER_BLOCKMAP_LAYER1_OFFSET, sizeof_layer1.
  rewrite layer1_index_div by done.
  rewrite (uwrap_small 64 (_ / _)), uwrap_small; [done|dlia..].
Qed.

Lemma layer2_offset_mul x : in_u 64 x -> HAMMER_BLOCKMAP_LAYER2_OFFSET x = x mod 2 ^ 42 / 2 ^ 23 * 16.
Proof.
  intros Hx. unfold HAMMER_BLOCKMAP_LAYER2_OFFSET, sizeof_layer2.
  rewrite layer2_index_div by done.
  rewrite (uwrap_small 64 (_ / _)), uwrap_small; [done|dlia..].
Qed.

Lemma zone_of_div x : in_u 64 x -> HAMMER_ZONE x = x / 2 ^ 60 * 2 ^ 60.
Proof.
  intros Hx. unfold HAMMER_ZONE. change HAMMER_OFF_ZONE_MASK with (bnot 64 (Z.ones 60)).
  rewrite land_bnot_ones by done. dlia.
Qed.

Lemma is_raw_buffer_div x : in_u 64 x -> hammer_is_zone_raw_buffer x = true <-> x / 2 ^ 60 = 2.
Proof.
  intros Hx. unfold hammer_is_zone_raw_buffer. rewrite bool_decide_eq_true, zone_of_div by done.
  unfold HAMMER_ZONE_RAW_BUFFER. lia.
Qed.

Lemma is_undo_div x : in_u 64 x -> hammer_is_zone_undo x = true <-> x / 2 ^ 60 = 3.
Proof.
  intros Hx. unfold hammer_is_zone_undo. rewrite bool_decide_eq_true, zone_of_div by done.
  unfold HAMMER_ZONE_UNDO. lia.
Qed.

Lemma xlate_to_zone2_add x : in_u 64 x -> hammer_xlate_to_zone2 x = 2 * 2 ^ 60 + x mod 2 ^ 60.
Proof.
  intros Hx. unfold hammer_xlate_to_zone2, hammer_xlate_to_zoneX.
  change (bnot 64 HAMMER_OFF_ZONE_MASK) with (Z.ones 60). rewrite Z.land_ones by done.
  rewrite zone_encode_add; [done..|]. dlia.
Qed.

Lemma layer2_next_offset_eq x :
  0 <= x < 2 ^ 64 - 2 ^ 23 -> HAMMER_ZONE_LAYER2_NEXT_OFFSET x = (x / 2 ^ 23 + 1) * 2 ^ 23.
Proof.
  intros Hx. unfold HAMMER_ZONE_LAYER2_NEXT_OFFSET.
  change HAMMER_BIGBLOCK_MASK64 with (Z.ones 23). change HAMMER_BIGBLOCK_SIZE with (2 ^ 23).
  rewrite uwrap_small, land_bnot_ones by dlia. dlia.
Qed.

Lemma bigblock_doalign_eq x :
  0 <= x <= 2 ^ 64 - 2 ^ 23 -> HAMMER_BIGBLOCK_DOALIGN x = (x + 2 ^ 23 - 1) / 2 ^ 23 * 2 ^ 23.
Proof.
  intros Hx. unfold HAMMER_BIGBLOCK_DOALIGN.
  change HAMMER_BIGBLOCK_MASK64 with (Z.ones 23). rewrite Z.ones_equiv at 1.
  rewrite uwrap_small, land_bnot_ones by dlia. dlia.
Qed.

Lemma layer2_doalign_eq x :
  0 <= x <= 2 ^ 64 - 2 ^ 42 ->
  HAMMER_BLOCKMAP_LAYER2_DOALIGN x = (x + 2 ^ 42 - 1) / 2 ^ 42 * 2 ^ 42.
Proof.
  intros Hx. unfold HAMMER_BLOCKMAP_LAYER2_DOALIGN.
  change HAMMER_BLOCKMAP_LAYER2_MASK with (Z.ones 42). rewrite Z.ones_equiv at 1.
  rewrite uwrap_small, land_bnot_ones by dlia. dlia.
Qed.

Lemma data_doalign_eq x : HAMMER_DATA_DOALIGN x = (x + 15) / 16 * 16.
Proof.
  unfold HAMMER_DATA_DOALIGN. change (Z.lnot 15) with (Z.lnot (Z.ones 4)).
  rewrite <- Z.ldiff_land, Z.ldiff_ones_r, Z.shiftr_div_pow2, Z.shiftl_mul_pow2 by done. done.
Qed.

(** ** Properties *)

(** a [hammer_off_t] is its zone, volume and offset: encoding three in-range parts
    and decoding gives them back, and re-encoding the parts of any 64-bit offset gives
    the offset back. *)
Theorem hammer_off_roundtrip (zone vol off x : Z) :
  0 <= zone < 16 -> 0 <= vol < 256 -> in_u 52 off -> in_u 64 x ->
  in_u 64 (HAMMER_ENCODE zone vol off) /\
  HAMMER_ZONE_DECODE (HAMMER_ENCODE zone vol off) = zone /\
  HAMMER_VOL_DECODE (HAMMER_ENCODE zone vol off) = vol /\
  HAMMER_OFF_SHORT_ENCODE (HAMMER_ENCODE zone vol off) = off /\
  HAMMER_ENCODE (HAMMER_ZONE_DECODE x) (HAMMER_VOL_DECODE x) (HAMMER_OFF_SHORT_ENCODE x) = x.
Proof.
  intros Hz Hv Hoff Hx.
  assert (in_u 64 (HAMMER_ENCODE zone vol off)) as Hr by (rewrite encode_add by done; dlia).
  rewrite !zone_decode_div, !vol_decode_div, !short_encode_mod, (encode_add zone) by done.
  rewrite encode_add by dlia. repeat split; dlia.
Qed.

Lemma hammer_off_roundtrip_witness :
  HAMMER_VOL_DECODE (HAMMER_ENCODE 8 3 0x12345) = 3 /\
  HAMMER_ENCODE 10 17 0xABCDEF = 0xA110000000ABCDEF.
Proof.
  split; [|reflexivity].
  apply (hammer_off_roundtrip 8 3 0x12345 0); unfold in_u; lia.
Defined.

(** the two freemap layers address the 60-bit space exactly: both indices stay
    inside one big-block of entries, the entry offsets never straddle it, the three
    parts rebuild the offset, and two offsets share their layer-1 and layer-2 entries
    exactly when they lie in the same big-block. *)
Theorem blockmap_layers_exact (x y : Z) :
  in_u 64 x -> in_u 64 y ->
  0 <= HAMMER_BLOCKMAP_LAYER1_INDEX x < HAMMER_BLOCKMAP_RADIX1 /\
  0 <= HAMMER_BLOCKMAP_LAYER2_INDEX x < HAMMER_BLOCKMAP_RADIX2 /\
  HAMMER_BLOCKMAP_LAYER1_OFFSET x + sizeof_layer1 <= HAMMER_BIGBLOCK_SIZE /\
  HAMMER_BLOCKMAP_LAYER2_OFFSET x + sizeof_layer2 <= HAMMER_BIGBLOCK_SIZE /\
  HAMMER_OFF_LONG_ENCODE x =
    HAMMER_BLOCKMAP_LAYER1_INDEX x * HAMMER_BLOCKMAP_LAYER2
    + HAMMER_BLOCKMAP_LAYER2_INDEX x * HAMMER_BIGBLOCK_SIZE
    + x .& HAMMER_BIGBLOCK_MASK64 /\
  (HAMMER_BLOCKMAP_LAYER1_OFFSET x = HAMMER_BLOCKMAP_LAYER1_OFFSET y /\
   HAMMER_BLOCKMAP_LAYER2_OFFSET x = HAMMER_BLOCKMAP_LAYER2_OFFSET y <->
   HAMMER_OFF_LONG_ENCODE x / HAMMER_BIGBLOCK_SIZE
   = HAMMER_OFF_LONG_ENCODE y / HAMMER_BIGBLOCK_SIZE).
Proof.
  intros Hx Hy.
  rewrite !layer1_offset_mul, !layer2_offset_mul, !layer1_index_div, !layer2_index_div,
    !long_encode_mod by done.
  change HAMMER_BLOCKMAP_RADIX1 with (2 ^ 18). change HAMMER_BLOCKMAP_RADIX2 with (2 ^ 19).
  change HAMMER_BLOCKMAP_LAYER2 with (2 ^ 42). change HAMMER_BIGBLOCK_SIZE with (2 ^ 23).
  change HAMMER_BIGBLOCK_MASK64 with (Z.ones 23). rewrite Z.land_ones by done.
  unfold sizeof_layer1, sizeof_layer2. split_and!; dlia.
Qed.

Lemma blockmap_layers_exact_witness :
  HAMMER_BLOCKMAP_LAYER1_INDEX 0x2010040000812345 < HAMMER_BLOCKMAP_RADIX1 /\
  HAMMER_BLOCKMAP_LAYER1_INDEX 0x2010040000812345 = 1025 /\
  HAMMER_BLOCKMAP_LAYER2_INDEX 0x2010040000812345 = 1.
Proof.
  split; [|split; reflexivity].
  apply (blockmap_layers_exact 0x2010040000812345 0); split; done.
Defined.

(** skipping to the next big-block lands on the first big-block boundary strictly
    after the offset, and the [DOALIGN] macros round up to the boundary at or after it,
    for every offset that leaves room below 2^64. *)
Theorem bigblock_alignment (x : Z) :
  0 <= x < 2 ^ 64 - 2 ^ 42 ->
  let next := HAMMER_ZONE_LAYER2_NEXT_OFFSET x in
  let big := HAMMER_BIGBLOCK_DOALIGN x in
  let l2 := HAMMER_BLOCKMAP_LAYER2_DOALIGN x in
  (x < next <= x + HAMMER_BIGBLOCK_SIZE /\ next mod HAMMER_BIGBLOCK_SIZE = 0) /\
  (x <= big < x + HAMMER_BIGBLOCK_SIZE /\ big mod HAMMER_BIGBLOCK_SIZE = 0) /\
  (x <= l2 < x + HAMMER_BLOCKMAP_LAYER2 /\ l2 mod HAMMER_BLOCKMAP_LAYER2 = 0).
Proof.
  intros Hx. cbv zeta. rewrite layer2_next_offset_eq, bigblock_doalign_eq, layer2_doalign_eq by dlia.
  change HAMMER_BLOCKMAP_LAYER2 with (2 ^ 42). change HAMMER_BIGBLOCK_SIZE with (2 ^ 23).
  rewrite !Z.mod_mul by done. dlia.
Qed.

Lemma bigblock_alignment_witness :
  HAMMER_ZONE_LAYER2_NEXT_OFFSET 0x8000000000800000 = 0x8000000001000000 /\
  HAMMER_ZONE_LAYER2_NEXT_OFFSET 0x8000000000800000 mod HAMMER_BIGBLOCK_SIZE = 0.
Proof.
  split; [reflexivity|].
  refine (proj2 (proj1 (bigblock_alignment 0x8000000000800000 _))). lia.
Defined.
