(* ===== verification/Layout.v ===== *)
(** * Layout: the on-disk structures of HAMMER as byte images

    Each structure of hammer_disk.h and hammer_btree.h that the utilities read or write is
    a record, and an instance of [OnDisk]: the widths of its fields in declaration order,
    the byte image of each field and the way back.  All structures are naturally aligned
    (or packed), so the image is the concatenation of the fields; integers are little
    endian.  The generic theorem [decode_encode] and the sizes follow for every
    instance. *)

From S2P Require Import Prelude HammerDisk.

(** ** The interface *)

Class OnDisk (A : Type) := {
  widths : list nat;
  chunks : A -> list bytes;
  of_chunks : list bytes -> A;
  valid : A -> Prop;
  chunks_widths : forall a, valid a -> length <$> chunks a = widths;
  chunks_ok : forall a, valid a -> Forall bytes_ok (chunks a);
  of_chunks_chunks : forall a, valid a -> of_chunks (chunks a) = a;
}.

#[global] Hint Mode OnDisk ! : typeclass_instances.
Arguments widths A {_}.

Fixpoint split_widths (ws : list nat) (bs : bytes) : list bytes :=
  match ws with
  | [] => []
  | w :: ws => take w bs :: split_widths ws (drop w bs)
  end.

Section ondisk.
Context {A : Type} `{OnDisk A}.

Definition sizeof : nat := sum_list (widths A).
Definition encode (a : A) : bytes := concat (chunks a).
Definition decode (bs : bytes) : A := of_chunks (split_widths (widths A) bs).

Lemma split_widths_concat (cs : list bytes) rest :
  split_widths (length <$> cs) (concat cs ++ rest) = cs.
Proof.
  induction cs as [|c cs IH]; [done|]. rewrite fmap_cons. cbn [split_widths concat].
  rewrite <- app_assoc, take_app_length, drop_app_length. by f_equal.
Qed.

Lemma length_concat_sum (cs : list bytes) : length (concat cs) = sum_list (length <$> cs).
Proof. induction cs as [|c cs IH]; [done|]. simpl. by rewrite length_app, IH. Qed.

Lemma length_encode (a : A) : valid a -> length (encode a) = sizeof.
Proof. intros Ha. unfold encode, sizeof. by rewrite length_concat_sum, chunks_widths. Qed.

Lemma encode_ok (a : A) : valid a -> bytes_ok (encode a).
Proof. intros Ha. unfold bytes_ok, encode. by apply Forall_concat, chunks_ok. Qed.

Lemma decode_encode_app (a : A) rest : valid a -> decode (encode a ++ rest) = a.
Proof.
  intros Ha. unfold decode, encode.
  rewrite <- (chunks_widths a) by done. rewrite split_widths_concat. by apply of_chunks_chunks.
Qed.

Lemma decode_encode (a : A) : valid a -> decode (encode a) = a.
Proof. intros Ha. rewrite <- (app_nil_r (encode a)). by apply decode_encode_app. Qed.
End ondisk.
Arguments sizeof A {_}.
#[global] Arguments valid : simpl never.
#[global] Arguments encode : simpl never.
#[global] Arguments decode : simpl never.

(** A structure at byte offset [off] of a buffer, read and written in place. *)
Definition read_at (A : Type) `{OnDisk A} (bs : bytes) (off : nat) : A := decode (drop off bs).
Definition write_at {A : Type} `{OnDisk A} (bs : bytes) (off : nat) (a : A) : bytes :=
  splice bs off (encode a).

(** Signed fields and byte arrays. *)
Definition of_le_s (n : nat) (bs : bytes) : Z := swrap (8 * Z.of_nat n) (of_le bs).
Definition raw (n : nat) (bs : bytes) : Prop := length bs = n /\ bytes_ok bs.

Lemma of_le_s_le_bytes n z :
  (0 < n)%nat -> in_s (8 * Z.of_nat n) z -> of_le_s n (le_bytes n z) = z.
Proof.
  intros Hn Hz. unfold of_le_s, of_le, le_bytes.
  rewrite little_endian_to_Z_to_little_endian, (Z.mul_comm _ 8) by lia.
  rewrite <- (swrap_small (8 * Z.of_nat n) z) at 2 by (done || lia).
  unfold swrap. by rewrite Zplus_mod_idemp_l.
Qed.

(** Solves the three laws of an instance whose chunks are [le_bytes] images, raw bytes
    and nested images. *)
Ltac ondisk_solve :=
  let a := fresh in let H := fresh in
  intros a H; destruct a; simpl in *; destruct_and?;
  repeat match goal with H : raw _ _ |- _ => destruct H as [? ?] end;
  first
    [ solve [rewrite ?of_le_le_bytes, ?of_le_s_le_bytes by (done || lia); reflexivity]
    | solve [repeat (constructor; [auto using le_bytes_ok, encode_ok|]); constructor]
    | solve [rewrite ?le_bytes_length, ?length_encode by done; simplify_eq/=; congruence] ].

(** ** Structures *)

Record hammer_blockmap := {
  bm_phys_offset : Z;   (** zone-2 offset only used by zone-4 *)
  bm_first_offset : Z;  (** zone-X offset only used by zone-3 *)
  bm_next_offset : Z;   (** zone-X offset for allocation *)
  bm_alloc_offset : Z;  (** zone-X offset only used by zone-3 *)
  bm_reserved01 : Z;
  bm_entry_crc : Z;
}.

#[export, refine] Instance hammer_blockmap_ondisk : OnDisk hammer_blockmap := {
  widths := [8; 8; 8; 8; 4; 4]%nat;
  chunks b := [le_bytes 8 (bm_phys_offset b); le_bytes 8 (bm_first_offset b);
               le_bytes 8 (bm_next_offset b); le_bytes 8 (bm_alloc_offset b);
               le_bytes 4 (bm_reserved01 b); le_bytes 4 (bm_entry_crc b)];
  of_chunks cs := match cs with
    | [a; b; c; d; e; f] => {| bm_phys_offset := of_le a; bm_first_offset := of_le b;
        bm_next_offset := of_le c; bm_alloc_offset := of_le d; bm_reserved01 := of_le e;
        bm_entry_crc := of_le f |}
    | _ => Build_hammer_blockmap 0 0 0 0 0 0
    end;
  valid b := in_u 64 (bm_phys_offset b) /\ in_u 64 (bm_first_offset b) /\
    in_u 64 (bm_next_offset b) /\ in_u 64 (bm_alloc_offset b) /\
    in_u 32 (bm_reserved01 b) /\ in_u 32 (bm_entry_crc b);
}.
Proof. all: ondisk_solve. Defined.

Record hammer_blockmap_layer1 := {
  l1_blocks_free : Z;   (** big-blocks free *)
  l1_phys_offset : Z;   (** UNAVAIL or zone-2 *)
  l1_reserved01 : Z;
  l1_layer2_crc : Z;
  l1_layer1_crc : Z;
}.

#[export, refine] Instance hammer_blockmap_layer1_ondisk : OnDisk hammer_blockmap_layer1 := {
  widths := [8; 8; 8; 4; 4]%nat;
  chunks l := [le_bytes 8 (l1_blocks_free l); le_bytes 8 (l1_phys_offset l);
               le_bytes 8 (l1_reserved01 l); le_bytes 4 (l1_layer2_crc l);
               le_bytes 4 (l1_layer1_crc l)];
  of_chunks cs := match cs with
    | [a; b; c; d; e] => {| l1_blocks_free := of_le a; l1_phys_offset := of_le b;
        l1_reserved01 := of_le c; l1_layer2_crc := of_le d; l1_layer1_crc := of_le e |}
    | _ => Build_hammer_blockmap_layer1 0 0 0 0 0
    end;
  valid l := in_u 64 (l1_blocks_free l) /\ in_u 64 (l1_phys_offset l) /\
    in_u 64 (l1_reserved01 l) /\ in_u 32 (l1_layer2_crc l) /\ in_u 32 (l1_layer1_crc l);
}.
Proof. all: ondisk_solve. Defined.

Record hammer_blockmap_layer2 := {
  l2_zone : Z;          (** typed allocation zone *)
  l2_reserved01 : Z;
  l2_reserved02 : Z;
  l2_append_off : Z;    (** allocatable space index *)
  l2_bytes_free : Z;    (** signed: bytes free within this big-block *)
  l2_entry_crc : Z;
}.

#[export, refine] Instance hammer_blockmap_layer2_ondisk : OnDisk hammer_blockmap_layer2 := {
  widths := [1; 1; 2; 4; 4; 4]%nat;
  chunks l := [le_bytes 1 (l2_zone l); le_bytes 1 (l2_reserved01 l);
               le_bytes 2 (l2_reserved02 l); le_bytes 4 (l2_append_off l);
               le_bytes 4 (l2_bytes_free l); le_bytes 4 (l2_entry_crc l)];
  of_chunks cs := match cs with
    | [a; b; c; d; e; f] => {| l2_zone := of_le a; l2_reserved01 := of_le b;
        l2_reserved02 := of_le c; l2_append_off := of_le d; l2_bytes_free := of_le_s 4 e;
        l2_entry_crc := of_le f |}
    | _ => Build_hammer_blockmap_layer2 0 0 0 0 0 0
    end;
  valid l := in_u 8 (l2_zone l) /\ in_u 8 (l2_reserved01 l) /\ in_u 16 (l2_reserved02 l) /\
    in_u 32 (l2_append_off l) /\ in_s 32 (l2_bytes_free l) /\ in_u 32 (l2_entry_crc l);
}.
Proof. all: ondisk_solve. Defined.

(** ** Arrays *)

Section arrays.
Context {A : Type} `{OnDisk A}.

Definition enc_array (xs : list A) : bytes := xs ≫= encode.
Definition dec_array (n : nat) (bs : bytes) : list A :=
  decode <$> split_widths (replicate n (sizeof A)) bs.
Definition valid_array (n : nat) (xs : list A) : Prop := length xs = n /\ Forall valid xs.

Lemma length_enc_array n xs : valid_array n xs -> length (enc_array xs) = (n * sizeof A)%nat.
Proof.
  intros [<- Hv]. unfold enc_array. induction Hv as [|x xs Hx _ IH]; [done|].
  by rewrite bind_cons, length_app, length_encode, IH.
Qed.

Lemma dec_enc_array n xs : valid_array n xs -> dec_array n (enc_array xs) = xs.
Proof.
  intros [<- Hv]. unfold dec_array, enc_array. induction Hv as [|x xs Hx _ IH]; [done|].
  rewrite bind_cons. cbn [length replicate split_widths]. rewrite fmap_cons.
  pose proof (length_encode x Hx) as Hl.
  rewrite <- Hl, take_app_length, drop_app_length, Hl. f_equal; [|done].
  rewrite <- (app_nil_r (encode x)). by apply decode_encode_app.
Qed.

Lemma enc_array_ok n xs : valid_array n xs -> bytes_ok (enc_array xs).
Proof.
  intros [_ Hv]. unfold bytes_ok, enc_array. induction Hv; [done|].
  apply Forall_app. split; [by apply encode_ok|done].
Qed.
End arrays.

Definition enc_ints (w : nat) (xs : list Z) : bytes := xs ≫= le_bytes w.
Definition dec_ints (w n : nat) (bs : bytes) : list Z := of_le <$> split_widths (replicate n w) bs.
Definition valid_ints (w n : nat) (xs : list Z) : Prop :=
  length xs = n /\ Forall (in_u (8 * Z.of_nat w)) xs.

Lemma length_enc_ints w n xs : valid_ints w n xs -> length (enc_ints w xs) = (n * w)%nat.
Proof.
  intros [<- _]. unfold enc_ints. induction xs as [|x xs IH]; [done|].
  by rewrite bind_cons, length_app, le_bytes_length, IH.
Qed.

Lemma dec_enc_ints w n xs : valid_ints w n xs -> dec_ints w n (enc_ints w xs) = xs.
Proof.
  intros [<- Hv]. unfold dec_ints, enc_ints. induction Hv as [|x xs Hx _ IH]; [done|].
  rewrite bind_cons. cbn [length replicate split_widths]. rewrite fmap_cons.
  rewrite take_app_length', drop_app_length' by (by rewrite le_bytes_length).
  f_equal; [by apply of_le_le_bytes|done].
Qed.

Lemma enc_ints_ok w n xs : valid_ints w n xs -> bytes_ok (enc_ints w xs).
Proof.
  intros _. unfold bytes_ok, enc_ints. induction xs; [done|].
  apply Forall_app. split; [apply le_bytes_ok|done].
Qed.

(** The solver for structures with nested structures and arrays. *)
Ltac ondisk_solve ::=
  let a := fresh in let H := fresh in
  intros a H; destruct a; simpl in *; destruct_and?;
  repeat match goal with H : raw _ _ |- _ => destruct H as [? ?] end;
  first
    [ solve [rewrite ?of_le_le_bytes, ?of_le_s_le_bytes, ?dec_enc_array, ?dec_enc_ints,
               ?decode_encode by (done || lia); reflexivity]
    | solve [repeat (constructor; [eauto using le_bytes_ok, encode_ok, enc_array_ok, enc_ints_ok|]);
             constructor]
    | solve [rewrite ?le_bytes_length, ?length_encode by done;
             repeat erewrite length_enc_array by eassumption;
             repeat erewrite length_enc_ints by eassumption; simplify_eq/=; congruence] ].

Record hammer_fifo_head := {
  hdr_signature : Z;
  hdr_type : Z;
  hdr_size : Z;
  hdr_seq : Z;
  hdr_crc : Z;
}.

#[export, refine] Instance hammer_fifo_head_ondisk : OnDisk hammer_fifo_head := {
  widths := [2; 2; 4; 4; 4]%nat;
  chunks x := [
    le_bytes 2 (hdr_signature x); le_bytes 2 (hdr_type x); le_bytes 4 (hdr_size x);
    le_bytes 4 (hdr_seq x); le_bytes 4 (hdr_crc x)];
  of_chunks cs := match cs with
    | [c0; c1; c2; c3; c4] =>
        {|hdr_signature := of_le c0; hdr_type := of_le c1; hdr_size := of_le c2;
           hdr_seq := of_le c3; hdr_crc := of_le c4 |}
    | _ => Build_hammer_fifo_head 0 0 0 0 0
    end;
  valid x :=
    in_u 16 (hdr_signature x) /\ in_u 16 (hdr_type x) /\ in_u 32 (hdr_size x) /\
    in_u 32 (hdr_seq x) /\ in_u 32 (hdr_crc x);
}.
Proof. all: ondisk_solve. Defined.

Record hammer_fifo_tail := {
  tail_signature : Z;
  tail_type : Z;
  tail_size : Z;
}.

#[export, refine] Instance hammer_fifo_tail_ondisk : OnDisk hammer_fifo_tail := {
  widths := [2; 2; 4]%nat;
  chunks x := [
    le_bytes 2 (tail_signature x); le_bytes 2 (tail_type x); le_bytes 4 (tail_size x)];
  of_chunks cs := match cs with
    | [c0; c1; c2] =>
        {|tail_signature := of_le c0; tail_type := of_le c1; tail_size := of_le c2 |}
    | _ => Build_hammer_fifo_tail 0 0 0
    end;
  valid x :=
    in_u 16 (tail_signature x) /\ in_u 16 (tail_type x) /\ in_u 32 (tail_size x);
}.
Proof. all: ondisk_solve. Defined.

Record hammer_volume_ondisk := {
  vol_signature : Z;
  vol_bot_beg : Z;
  vol_mem_beg : Z;
  vol_buf_beg : Z;
  vol_buf_end : Z;
  vol_reserved01 : Z;
  vol_fsid : bytes;
  vol_fstype : bytes;
  vol_label : bytes;
  vol_no : Z;
  vol_count : Z;
  vol_version : Z;
  vol_crc : Z;
  vol_flags : Z;
  vol_rootvol : Z;
  vol_reserved : list Z;
  vol0_stat_bigblocks : Z;
  vol0_stat_freebigblocks : Z;
  vol0_reserved01 : Z;
  vol0_stat_inodes : Z;
  vol0_reserved02 : Z;
  vol0_btree_root : Z;
  vol0_next_tid : Z;
  vol0_reserved03 : Z;
  vol0_blockmap : list hammer_blockmap;
  vol0_undo_array : list Z;
}.

#[export, refine] Instance hammer_volume_ondisk_ondisk : OnDisk hammer_volume_ondisk := {
  widths := [8; 8; 8; 8; 8; 8; 16; 16; 64; 4; 4; 4; 4; 4; 4; 8 * 4; 8; 8; 8; 8; 8; 8; 8; 8;
    16 * sizeof hammer_blockmap; 128 * 8]%nat;
  chunks x := [
    le_bytes 8 (vol_signature x); le_bytes 8 (vol_bot_beg x); le_bytes 8 (vol_mem_beg x);
    le_bytes 8 (vol_buf_beg x); le_bytes 8 (vol_buf_end x); le_bytes 8 (vol_reserved01 x);
    vol_fsid x; vol_fstype x; vol_label x; le_bytes 4 (vol_no x); le_bytes 4 (vol_count x);
    le_bytes 4 (vol_version x); le_bytes 4 (vol_crc x); le_bytes 4 (vol_flags x);
    le_bytes 4 (vol_rootvol x); enc_ints 4 (vol_reserved x);
    le_bytes 8 (vol0_stat_bigblocks x); le_bytes 8 (vol0_stat_freebigblocks x);
    le_bytes 8 (vol0_reserved01 x); le_bytes 8 (vol0_stat_inodes x);
    le_bytes 8 (vol0_reserved02 x); le_bytes 8 (vol0_btree_root x);
    le_bytes 8 (vol0_next_tid x); le_bytes 8 (vol0_reserved03 x);
    enc_array (vol0_blockmap x); enc_ints 8 (vol0_undo_array x)];
  of_chunks cs := match cs with
    | [c0; c1; c2; c3; c4; c5; c6; c7; c8; c9; c10; c11; c12; c13; c14; c15; c16; c17; c18;
       c19; c20; c21; c22; c23; c24; c25] =>
        {|vol_signature := of_le c0; vol_bot_beg := of_le_s 8 c1;
           vol_mem_beg := of_le_s 8 c2; vol_buf_beg := of_le_s 8 c3;
           vol_buf_end := of_le_s 8 c4; vol_reserved01 := of_le_s 8 c5; vol_fsid := c6;
           vol_fstype := c7; vol_label := c8; vol_no := of_le_s 4 c9;
           vol_count := of_le_s 4 c10; vol_version := of_le c11; vol_crc := of_le c12;
           vol_flags := of_le c13; vol_rootvol := of_le c14;
           vol_reserved := dec_ints 4 8 c15; vol0_stat_bigblocks := of_le_s 8 c16;
           vol0_stat_freebigblocks := of_le_s 8 c17; vol0_reserved01 := of_le_s 8 c18;
           vol0_stat_inodes := of_le_s 8 c19; vol0_reserved02 := of_le_s 8 c20;
           vol0_btree_root := of_le c21; vol0_next_tid := of_le c22;
           vol0_reserved03 := of_le c23; vol0_blockmap := dec_array 16 c24;
           vol0_undo_array := dec_ints 8 128 c25 |}
    | _ => Build_hammer_volume_ondisk 0 0 0 0 0 0 [] [] [] 0 0 0 0 0 0 [] 0 0 0 0 0 0 0 0 [] []
    end;
  valid x :=
    in_u 64 (vol_signature x) /\ in_s 64 (vol_bot_beg x) /\ in_s 64 (vol_mem_beg x) /\
    in_s 64 (vol_buf_beg x) /\ in_s 64 (vol_buf_end x) /\ in_s 64 (vol_reserved01 x) /\
    raw 16 (vol_fsid x) /\ raw 16 (vol_fstype x) /\ raw 64 (vol_label x) /\
    in_s 32 (vol_no x) /\ in_s 32 (vol_count x) /\ in_u 32 (vol_version x) /\
    in_u 32 (vol_crc x) /\ in_u 32 (vol_flags x) /\ in_u 32 (vol_rootvol x) /\
    valid_ints 4 8 (vol_reserved x) /\ in_s 64 (vol0_stat_bigblocks x) /\
    in_s 64 (vol0_stat_freebigblocks x) /\ in_s 64 (vol0_reserved01 x) /\
    in_s 64 (vol0_stat_inodes x) /\ in_s 64 (vol0_reserved02 x) /\
    in_u 64 (vol0_btree_root x) /\ in_u 64 (vol0_next_tid x) /\
    in_u 64 (vol0_reserved03 x) /\ valid_array 16 (vol0_blockmap x) /\
    valid_ints 8 128 (vol0_undo_array x);
}.
Proof. all: ondisk_solve. Defined.

Record hammer_inode_data := {
  ino_version : Z;
  ino_mode : Z;
  ino_uflags : Z;
  ino_rmajor : Z;
  ino_rminor : Z;
  ino_ctime : Z;
  ino_parent_obj_id : Z;
  ino_uid : bytes;
  ino_gid : bytes;
  ino_obj_type : Z;
  ino_cap_flags : Z;
  ino_reserved01 : Z;
  ino_reserved02 : Z;
  ino_nlinks : Z;
  ino_size : Z;
  ino_symlink : bytes;
  ino_mtime : Z;
  ino_atime : Z;
}.

#[export, refine] Instance hammer_inode_data_ondisk : OnDisk hammer_inode_data := {
  widths := [2; 2; 4; 4; 4; 8; 8; 16; 16; 1; 1; 2; 4; 8; 8; 24; 8; 8]%nat;
  chunks x := [
    le_bytes 2 (ino_version x); le_bytes 2 (ino_mode x); le_bytes 4 (ino_uflags x);
    le_bytes 4 (ino_rmajor x); le_bytes 4 (ino_rminor x); le_bytes 8 (ino_ctime x);
    le_bytes 8 (ino_parent_obj_id x); ino_uid x; ino_gid x; le_bytes 1 (ino_obj_type x);
    le_bytes 1 (ino_cap_flags x); le_bytes 2 (ino_reserved01 x);
    le_bytes 4 (ino_reserved02 x); le_bytes 8 (ino_nlinks x); le_bytes 8 (ino_size x);
    ino_symlink x; le_bytes 8 (ino_mtime x); le_bytes 8 (ino_atime x)];
  of_chunks cs := match cs with
    | [c0; c1; c2; c3; c4; c5; c6; c7; c8; c9; c10; c11; c12; c13; c14; c15; c16; c17] =>
        {|ino_version := of_le c0; ino_mode := of_le c1; ino_uflags := of_le c2;
           ino_rmajor := of_le c3; ino_rminor := of_le c4; ino_ctime := of_le c5;
           ino_parent_obj_id := of_le_s 8 c6; ino_uid := c7; ino_gid := c8;
           ino_obj_type := of_le c9; ino_cap_flags := of_le c10;
           ino_reserved01 := of_le c11; ino_reserved02 := of_le c12;
           ino_nlinks := of_le c13; ino_size := of_le c14; ino_symlink := c15;
           ino_mtime := of_le c16; ino_atime := of_le c17 |}
    | _ => Build_hammer_inode_data 0 0 0 0 0 0 0 [] [] 0 0 0 0 0 0 [] 0 0
    end;
  valid x :=
    in_u 16 (ino_version x) /\ in_u 16 (ino_mode x) /\ in_u 32 (ino_uflags x) /\
    in_u 32 (ino_rmajor x) /\ in_u 32 (ino_rminor x) /\ in_u 64 (ino_ctime x) /\
    in_s 64 (ino_parent_obj_id x) /\ raw 16 (ino_uid x) /\ raw 16 (ino_gid x) /\
    in_u 8 (ino_obj_type x) /\ in_u 8 (ino_cap_flags x) /\ in_u 16 (ino_reserved01 x) /\
    in_u 32 (ino_reserved02 x) /\ in_u 64 (ino_nlinks x) /\ in_u 64 (ino_size x) /\
    raw 24 (ino_symlink x) /\ in_u 64 (ino_mtime x) /\ in_u 64 (ino_atime x);
}.
Proof. all: ondisk_solve. Defined.

Record hammer_pseudofs_data := {
  pfs_sync_low_tid : Z;
  pfs_sync_beg_tid : Z;
  pfs_sync_end_tid : Z;
  pfs_sync_beg_ts : Z;
  pfs_sync_end_ts : Z;
  pfs_shared_uuid : bytes;
  pfs_unique_uuid : bytes;
  pfs_reserved01 : Z;
  pfs_mirror_flags : Z;
  pfs_label : bytes;
  pfs_snapshots : bytes;
  pfs_reserved02 : Z;
  pfs_reserved03 : Z;
  pfs_reserved04 : Z;
  pfs_prune_min : Z;
  pfs_prune_max : Z;
  pfs_reserved : list Z;
}.

#[export, refine] Instance hammer_pseudofs_data_ondisk : OnDisk hammer_pseudofs_data := {
  widths := [8; 8; 8; 8; 8; 16; 16; 4; 4; 64; 64; 4; 4; 4; 4; 4; 16 * 4]%nat;
  chunks x := [
    le_bytes 8 (pfs_sync_low_tid x); le_bytes 8 (pfs_sync_beg_tid x);
    le_bytes 8 (pfs_sync_end_tid x); le_bytes 8 (pfs_sync_beg_ts x);
    le_bytes 8 (pfs_sync_end_ts x); pfs_shared_uuid x; pfs_unique_uuid x;
    le_bytes 4 (pfs_reserved01 x); le_bytes 4 (pfs_mirror_flags x); pfs_label x;
    pfs_snapshots x; le_bytes 4 (pfs_reserved02 x); le_bytes 4 (pfs_reserved03 x);
    le_bytes 4 (pfs_reserved04 x); le_bytes 4 (pfs_prune_min x);
    le_bytes 4 (pfs_prune_max x); enc_ints 4 (pfs_reserved x)];
  of_chunks cs := match cs with
    | [c0; c1; c2; c3; c4; c5; c6; c7; c8; c9; c10; c11; c12; c13; c14; c15; c16] =>
        {|pfs_sync_low_tid := of_le c0; pfs_sync_beg_tid := of_le c1;
           pfs_sync_end_tid := of_le c2; pfs_sync_beg_ts := of_le c3;
           pfs_sync_end_ts := of_le c4; pfs_shared_uuid := c5; pfs_unique_uuid := c6;
           pfs_reserved01 := of_le_s 4 c7; pfs_mirror_flags := of_le_s 4 c8;
           pfs_label := c9; pfs_snapshots := c10; pfs_reserved02 := of_le_s 4 c11;
           pfs_reserved03 := of_le_s 4 c12; pfs_reserved04 := of_le_s 4 c13;
           pfs_prune_min := of_le_s 4 c14; pfs_prune_max := of_le_s 4 c15;
           pfs_reserved := dec_ints 4 16 c16 |}
    | _ => Build_hammer_pseudofs_data 0 0 0 0 0 [] [] 0 0 [] [] 0 0 0 0 0 []
    end;
  valid x :=
    in_u 64 (pfs_sync_low_tid x) /\ in_u 64 (pfs_sync_beg_tid x) /\
    in_u 64 (pfs_sync_end_tid x) /\ in_u 64 (pfs_sync_beg_ts x) /\
    in_u 64 (pfs_sync_end_ts x) /\ raw 16 (pfs_shared_uuid x) /\
    raw 16 (pfs_unique_uuid x) /\ in_s 32 (pfs_reserved01 x) /\
    in_s 32 (pfs_mirror_flags x) /\ raw 64 (pfs_label x) /\ raw 64 (pfs_snapshots x) /\
    in_s 32 (pfs_reserved02 x) /\ in_s 32 (pfs_reserved03 x) /\
    in_s 32 (pfs_reserved04 x) /\ in_s 32 (pfs_prune_min x) /\ in_s 32 (pfs_prune_max x) /\
    valid_ints 4 16 (pfs_reserved x);
}.
Proof. all: ondisk_solve. Defined.

Record hammer_base_elm := {
  be_obj_id : Z;
  be_key : Z;
  be_create_tid : Z;
  be_delete_tid : Z;
  be_rec_type : Z;
  be_obj_type : Z;
  be_btype : Z;
  be_localization : Z;
}.

#[export, refine] Instance hammer_base_elm_ondisk : OnDisk hammer_base_elm := {
  widths := [8; 8; 8; 8; 2; 1; 1; 4]%nat;
  chunks x := [
    le_bytes 8 (be_obj_id x); le_bytes 8 (be_key x); le_bytes 8 (be_create_tid x);
    le_bytes 8 (be_delete_tid x); le_bytes 2 (be_rec_type x); le_bytes 1 (be_obj_type x);
    le_bytes 1 (be_btype x); le_bytes 4 (be_localization x)];
  of_chunks cs := match cs with
    | [c0; c1; c2; c3; c4; c5; c6; c7] =>
        {|be_obj_id := of_le_s 8 c0; be_key := of_le_s 8 c1; be_create_tid := of_le c2;
           be_delete_tid := of_le c3; be_rec_type := of_le c4; be_obj_type := of_le c5;
           be_btype := of_le c6; be_localization := of_le c7 |}
    | _ => Build_hammer_base_elm 0 0 0 0 0 0 0 0
    end;
  valid x :=
    in_s 64 (be_obj_id x) /\ in_s 64 (be_key x) /\ in_u 64 (be_create_tid x) /\
    in_u 64 (be_delete_tid x) /\ in_u 16 (be_rec_type x) /\ in_u 8 (be_obj_type x) /\
    in_u 8 (be_btype x) /\ in_u 32 (be_localization x);
}.
Proof. all: ondisk_solve. Defined.

Record hammer_btree_internal_elm := {
  int_base : hammer_base_elm;
  int_mirror_tid : Z;
  int_subtree_offset : Z;
  int_reserved01 : Z;
  int_reserved02 : Z;
}.

#[export, refine] Instance hammer_btree_internal_elm_ondisk : OnDisk hammer_btree_internal_elm := {
  widths := [sizeof hammer_base_elm; 8; 8; 4; 4]%nat;
  chunks x := [
    encode (int_base x); le_bytes 8 (int_mirror_tid x); le_bytes 8 (int_subtree_offset x);
    le_bytes 4 (int_reserved01 x); le_bytes 4 (int_reserved02 x)];
  of_chunks cs := match cs with
    | [c0; c1; c2; c3; c4] =>
        {|int_base := decode c0; int_mirror_tid := of_le c1;
           int_subtree_offset := of_le c2; int_reserved01 := of_le_s 4 c3;
           int_reserved02 := of_le_s 4 c4 |}
    | _ => Build_hammer_btree_internal_elm (decode []) 0 0 0 0
    end;
  valid x :=
    valid (int_base x) /\ in_u 64 (int_mirror_tid x) /\ in_u 64 (int_subtree_offset x) /\
    in_s 32 (int_reserved01 x) /\ in_s 32 (int_reserved02 x);
}.
Proof. all: ondisk_solve. Defined.

Record hammer_btree_leaf_elm := {
  leaf_base : hammer_base_elm;
  leaf_create_ts : Z;
  leaf_delete_ts : Z;
  leaf_data_offset : Z;
  leaf_data_len : Z;
  leaf_data_crc : Z;
}.

#[export, refine] Instance hammer_btree_leaf_elm_ondisk : OnDisk hammer_btree_leaf_elm := {
  widths := [sizeof hammer_base_elm; 4; 4; 8; 4; 4]%nat;
  chunks x := [
    encode (leaf_base x); le_bytes 4 (leaf_create_ts x); le_bytes 4 (leaf_delete_ts x);
    le_bytes 8 (leaf_data_offset x); le_bytes 4 (leaf_data_len x);
    le_bytes 4 (leaf_data_crc x)];
  of_chunks cs := match cs with
    | [c0; c1; c2; c3; c4; c5] =>
        {|leaf_base := decode c0; leaf_create_ts := of_le c1; leaf_delete_ts := of_le c2;
           leaf_data_offset := of_le c3; leaf_data_len := of_le_s 4 c4;
           leaf_data_crc := of_le c5 |}
    | _ => Build_hammer_btree_leaf_elm (decode []) 0 0 0 0 0
    end;
  valid x :=
    valid (leaf_base x) /\ in_u 32 (leaf_create_ts x) /\ in_u 32 (leaf_delete_ts x) /\
    in_u 64 (leaf_data_offset x) /\ in_s 32 (leaf_data_len x) /\ in_u 32 (leaf_data_crc x);
}.
Proof. all: ondisk_solve. Defined.

(** [node_elms] is the array of 63 unions of 64 bytes, read with [read_at] as leaf or
    internal elements. *)
Record hammer_node_ondisk := {
  node_crc : Z;
  node_reserved01 : Z;
  node_parent : Z;
  node_count : Z;
  node_type : Z;
  node_reserved02 : Z;
  node_reserved03 : Z;
  node_reserved04 : Z;
  node_reserved05 : Z;
  node_reserved06 : Z;
  node_reserved07 : Z;
  node_mirror_tid : Z;
  node_elms : bytes;
}.

#[export, refine] Instance hammer_node_ondisk_ondisk : OnDisk hammer_node_ondisk := {
  widths := [4; 4; 8; 4; 1; 1; 2; 8; 8; 8; 8; 8; 4032]%nat;
  chunks x := [
    le_bytes 4 (node_crc x); le_bytes 4 (node_reserved01 x); le_bytes 8 (node_parent x);
    le_bytes 4 (node_count x); le_bytes 1 (node_type x); le_bytes 1 (node_reserved02 x);
    le_bytes 2 (node_reserved03 x); le_bytes 8 (node_reserved04 x);
    le_bytes 8 (node_reserved05 x); le_bytes 8 (node_reserved06 x);
    le_bytes 8 (node_reserved07 x); le_bytes 8 (node_mirror_tid x); node_elms x];
  of_chunks cs := match cs with
    | [c0; c1; c2; c3; c4; c5; c6; c7; c8; c9; c10; c11; c12] =>
        {|node_crc := of_le c0; node_reserved01 := of_le c1; node_parent := of_le c2;
           node_count := of_le_s 4 c3; node_type := of_le c4; node_reserved02 := of_le c5;
           node_reserved03 := of_le c6; node_reserved04 := of_le c7;
           node_reserved05 := of_le c8; node_reserved06 := of_le c9;
           node_reserved07 := of_le c10; node_mirror_tid := of_le c11; node_elms := c12 |}
    | _ => Build_hammer_node_ondisk 0 0 0 0 0 0 0 0 0 0 0 0 []
    end;
  valid x :=
    in_u 32 (node_crc x) /\ in_u 32 (node_reserved01 x) /\ in_u 64 (node_parent x) /\
    in_s 32 (node_count x) /\ in_u 8 (node_type x) /\ in_u 8 (node_reserved02 x) /\
    in_u 16 (node_reserved03 x) /\ in_u 64 (node_reserved04 x) /\
    in_u 64 (node_reserved05 x) /\ in_u 64 (node_reserved06 x) /\
    in_u 64 (node_reserved07 x) /\ in_u 64 (node_mirror_tid x) /\ raw 4032 (node_elms x);
}.
Proof. all: ondisk_solve. Defined.

(** [offsetof (struct A, field i)] *)
Definition offsetof (A : Type) `{OnDisk A} (i : nat) : nat := sum_list (take i (widths A)).

(** ** Structures in a buffer *)

Section buffers.
Context {A : Type} `{OnDisk A}.

Lemma read_write_at (bs : bytes) off (a : A) :
  valid a -> (off + sizeof A <= length bs)%nat -> read_at A (write_at bs off a) off = a.
Proof.
  intros Ha Hl. unfold read_at, write_at. rewrite drop_splice; [by apply decode_encode_app|].
  by rewrite length_encode.
Qed.

Lemma length_write_at (bs : bytes) off (a : A) :
  valid a -> (off + sizeof A <= length bs)%nat -> length (write_at bs off a) = length bs.
Proof. intros Ha Hl. apply length_splice. by rewrite length_encode. Qed.

(** Reading depends only on the bytes of the structure. *)
Lemma split_widths_take ws bs : split_widths ws (take (sum_list ws) bs) = split_widths ws bs.
Proof.
  revert bs. induction ws as [|w ws IH]; intros bs; [done|]. cbn [split_widths].
  change (sum_list (w :: ws)) with (w + sum_list ws)%nat.
  rewrite take_take, Nat.min_l, skipn_firstn_comm, Nat.add_comm, Nat.add_sub, IH by lia. done.
Qed.

Lemma read_at_take (bs bs' : bytes) off :
  take (sizeof A) (drop off bs) = take (sizeof A) (drop off bs') ->
  read_at A bs off = read_at A bs' off.
Proof.
  intros Heq. unfold read_at, decode. f_equal.
  rewrite <- (split_widths_take _ (drop off bs)), <- (split_widths_take _ (drop off bs')).
  unfold sizeof in Heq. by rewrite Heq.
Qed.
End buffers.

(** Sizes of the structures in this build. *)
Lemma sizeof_eqs :
  sizeof hammer_blockmap = 40%nat /\ sizeof hammer_blockmap_layer1 = 32%nat /\
  sizeof hammer_blockmap_layer2 = 16%nat /\ sizeof hammer_volume_ondisk = 1928%nat /\
  sizeof hammer_btree_leaf_elm = 64%nat /\ sizeof hammer_inode_data = 128%nat /\
  sizeof hammer_node_ondisk = 4096%nat.
Proof. split_and!; vm_compute; reflexivity. Qed.

(** A structure cleared by [bzero] or [calloc]. *)
Definition zeroed (A : Type) `{OnDisk A} : A := decode (replicate (sizeof A) 0).

Ltac valid_zeroed :=
  hnf; split_and?;
  match goal with
  | |- in_u _ ?x => replace x with 0 by (vm_compute; reflexivity); split; done
  | |- in_s _ ?x => replace x with 0 by (vm_compute; reflexivity); split; done
  | |- raw ?n ?x =>
      replace x with (replicate n 0) by (vm_compute; reflexivity);
      split; [apply length_replicate|by apply Forall_replicate]
  | |- valid_ints _ ?n ?x =>
      replace x with (replicate n 0) by (vm_compute; reflexivity);
      split; [apply length_replicate|by apply Forall_replicate]
  | |- valid_array ?n ?x =>
      replace x with (replicate n (zeroed hammer_blockmap)) by (vm_compute; reflexivity);
      split; [apply length_replicate|apply Forall_replicate]
  end.

Lemma valid_zeroed_blockmap : valid (zeroed hammer_blockmap).
Proof. valid_zeroed. Qed.
Lemma valid_zeroed_layer1 : valid (zeroed hammer_blockmap_layer1).
Proof. valid_zeroed. Qed.
Lemma valid_zeroed_layer2 : valid (zeroed hammer_blockmap_layer2).
Proof. valid_zeroed. Qed.
Lemma valid_zeroed_volume : valid (zeroed hammer_volume_ondisk).
Proof. valid_zeroed. apply valid_zeroed_blockmap. Qed.
Lemma valid_zeroed_node : valid (zeroed hammer_node_ondisk).
Proof. valid_zeroed. Qed.

(** the byte images of the freemap entries, the volume header and the B-Tree node
    have the sizes the C structures have (and the comments of hammer_disk.h and the
    assertions of newfs_hammer state), and reading back an image, wherever it was stored
    in a buffer, gives the structure. *)
Theorem ondisk_structs_roundtrip (bs : bytes) (off : nat) (l1 : hammer_blockmap_layer1)
    (l2 : hammer_blockmap_layer2) (v : hammer_volume_ondisk) (n : hammer_node_ondisk) :
  valid l1 -> valid l2 -> valid v -> valid n -> (off + 4096 <= length bs)%nat ->
  (sizeof hammer_blockmap, sizeof hammer_blockmap_layer1, sizeof hammer_blockmap_layer2,
   sizeof hammer_volume_ondisk, sizeof hammer_btree_leaf_elm, sizeof hammer_inode_data,
   sizeof hammer_node_ondisk) = (40, 32, 16, 1928, 64, 128, 4096)%nat /\
  read_at hammer_blockmap_layer1 (write_at bs off l1) off = l1 /\
  read_at hammer_blockmap_layer2 (write_at bs off l2) off = l2 /\
  read_at hammer_volume_ondisk (write_at bs off v) off = v /\
  read_at hammer_node_ondisk (write_at bs off n) off = n.
Proof.
  intros Hl1 Hl2 Hv Hn Hoff. pose proof sizeof_eqs as Hs.
  split_and!; [vm_compute; reflexivity|apply read_write_at; [done|lia]..].
Qed.

Lemma ondisk_structs_roundtrip_witness :
  read_at hammer_volume_ondisk
    (write_at (replicate 5000 7) 100 (zeroed hammer_volume_ondisk)) 100
  = zeroed hammer_volume_ondisk.
Proof.
  apply (ondisk_structs_roundtrip (replicate 5000 7) 100 (zeroed _) (zeroed _) (zeroed _) (zeroed _)).
  - apply valid_zeroed_layer1.
  - apply valid_zeroed_layer2.
  - apply valid_zeroed_volume.
  - apply valid_zeroed_node.
  - rewrite length_replicate. lia.
Defined.
