(* ===== verification/HammerCrc.v ===== *)
(** * HammerCrc: the checksums of the on-disk structures (src/sys/vfs/hammer/hammer_crc.h)

    Volumes of version 7 and later use the iSCSI CRC, older ones the plain CRC-32; the
    test functions of a version-7 volume also accept the old checksum, because upgraded
    file systems keep it until the structure is rewritten.  A structure with an embedded
    checksum is an instance of [Checksummed]: how its checksum is computed ([crc_get]),
    where it is stored, and that the computation does not look at that field.  The
    set and test functions of the header are written once over the interface; the theorems
    say that setting makes the test succeed, also after an upgrade to version 7, and that
    a structure damaged inside a four-byte window fails it. *)

From S2P Require Import Prelude Crc32 HammerDisk Layout.

Definition HAMMER_VOL_VERSION_SIX : Z := 6.
Definition HAMMER_VOL_VERSION_SEVEN : Z := 7.

(** [addr] is the address of [buf]. *)
Definition hammer_datacrc (vol_version addr : Z) (buf : bytes) (size : Z) : option Z :=
  if bool_decide (HAMMER_VOL_VERSION_SEVEN <= vol_version)
  then iscsi_crc32 addr buf size else crc32 buf size.

Definition hammer_datacrc_ext (vol_version addr : Z) (buf : bytes) (size ocrc : Z) : option Z :=
  if bool_decide (HAMMER_VOL_VERSION_SEVEN <= vol_version)
  then iscsi_crc32_ext addr buf size ocrc else crc32_ext buf size ocrc.

(** ** Structures with an embedded checksum *)

Class Checksummed (A : Type) `{OnDisk A} := {
  crc_get : Z -> Z -> A -> option Z;
  crc_field : A -> Z;
  set_crc_field : A -> Z -> A;
  crc_get_some : forall v addr a, valid a -> exists c, crc_get v addr a = Some c /\ in_u 32 c;
  crc_get_addr : forall v addr addr' a, valid a -> crc_get v addr a = crc_get v addr' a;
  crc_get_set : forall v addr a c, valid a -> in_u 32 c ->
    crc_get v addr (set_crc_field a c) = crc_get v addr a;
  crc_field_set : forall a c, crc_field (set_crc_field a c) = c;
  set_crc_valid : forall a c, valid a -> in_u 32 c -> valid (set_crc_field a c);
  crc_get_old : forall v v' addr a, v < HAMMER_VOL_VERSION_SEVEN ->
    v' < HAMMER_VOL_VERSION_SEVEN -> crc_get v addr a = crc_get v' addr a;
}.

(** [x->crc = hammer_crc_get_X(vol_version, x)] *)
Definition crc_set {A} `{Checksummed A} (vol_version addr : Z) (a : A) : option A :=
  c ← crc_get vol_version addr a; Some (set_crc_field a c).

(** [hammer_crc_test_X]: the checksum of the volume's version, then the old one. *)
Definition crc_test {A} `{Checksummed A} (vol_version addr : Z) (a : A) : option bool :=
  c ← crc_get vol_version addr a;
  if bool_decide (crc_field a = c) then Some true
  else if bool_decide (HAMMER_VOL_VERSION_SEVEN <= vol_version)
  then
    c6 ← crc_get HAMMER_VOL_VERSION_SIX addr a;
    Some (bool_decide (crc_field a = c6))
  else Some false.

(** ** The structures of the header *)

Definition HAMMER_BLOCKMAP_CRCSIZE : Z := Z.of_nat (offsetof hammer_blockmap 5).
Definition HAMMER_LAYER1_CRCSIZE : Z := Z.of_nat (offsetof hammer_blockmap_layer1 4).
Definition HAMMER_LAYER2_CRCSIZE : Z := Z.of_nat (offsetof hammer_blockmap_layer2 5).
Definition HAMMER_VOL_CRCSIZE1 : Z := Z.of_nat (offsetof hammer_volume_ondisk 12).
Definition HAMMER_VOL_CRCSIZE2 : Z :=
  Z.of_nat (sizeof hammer_volume_ondisk) - HAMMER_VOL_CRCSIZE1 - 4.
Definition HAMMER_BTREE_CRCSIZE : Z := Z.of_nat (sizeof hammer_node_ondisk) - 4.
Definition HAMMER_FIFO_HEAD_CRCOFF : Z := Z.of_nat (offsetof hammer_fifo_head 4).

Definition hammer_crc_get_blockmap (vol_version addr : Z) (blockmap : hammer_blockmap) : option Z :=
  hammer_datacrc vol_version addr (encode blockmap) HAMMER_BLOCKMAP_CRCSIZE.
Definition hammer_crc_get_layer1 (vol_version addr : Z) (layer1 : hammer_blockmap_layer1) : option Z :=
  hammer_datacrc vol_version addr (encode layer1) HAMMER_LAYER1_CRCSIZE.
Definition hammer_crc_get_layer2 (vol_version addr : Z) (layer2 : hammer_blockmap_layer2) : option Z :=
  hammer_datacrc vol_version addr (encode layer2) HAMMER_LAYER2_CRCSIZE.
Definition hammer_crc_get_volume (vol_version addr : Z) (ondisk : hammer_volume_ondisk) : option Z :=
  c1 ← hammer_datacrc vol_version addr (encode ondisk) HAMMER_VOL_CRCSIZE1;
  c2 ← hammer_datacrc vol_version (addr + HAMMER_VOL_CRCSIZE1 + 4)
         (drop (Z.to_nat HAMMER_VOL_CRCSIZE1 + 4) (encode ondisk)) HAMMER_VOL_CRCSIZE2;
  Some (c1 .^ c2).
Definition hammer_crc_get_btree (vol_version addr : Z) (node : hammer_node_ondisk) : option Z :=
  hammer_datacrc vol_version (addr + 4) (drop 4 (encode node)) HAMMER_BTREE_CRCSIZE.

(** The FIFO head covers [bytes] bytes of memory, the head itself included. *)
Definition hammer_crc_get_fifo_head (vol_version addr : Z) (mem : bytes) (nbytes : Z) : option Z :=
  c1 ← hammer_datacrc vol_version addr mem HAMMER_FIFO_HEAD_CRCOFF;
  c2 ← hammer_datacrc vol_version (addr + Z.of_nat (sizeof hammer_fifo_head))
         (drop (sizeof hammer_fifo_head) mem) (nbytes - Z.of_nat (sizeof hammer_fifo_head));
  Some (c1 .^ c2).

(** [hammer_crc_get_leaf]: inode data is not covered past [ctime .. ext]. *)
Definition HAMMER_RECTYPE_INODE : Z := 1.
Definition HAMMER_INODE_CRCSIZE : Z := Z.of_nat (offsetof hammer_inode_data 16).
Definition hammer_crc_get_leaf (vol_version addr : Z) (data : bytes) (leaf : hammer_btree_leaf_elm)
    : option Z :=
  if bool_decide (leaf_data_len leaf = 0) then Some 0
  else if bool_decide (be_rec_type (leaf_base leaf) = HAMMER_RECTYPE_INODE) then
    if bool_decide (leaf_data_len leaf = Z.of_nat (sizeof hammer_inode_data))
    then hammer_datacrc vol_version addr data HAMMER_INODE_CRCSIZE
    else Some 0
  else hammer_datacrc vol_version addr data (u64 (leaf_data_len leaf)).

(** ** The checksum of a byte string, as a function *)

Definition datacrc_spec (v : Z) (bs : bytes) : Z :=
  if bool_decide (HAMMER_VOL_VERSION_SEVEN <= v) then crc32c_spec bs else crc32_spec bs.

Lemma hammer_datacrc_app v addr bs rest :
  bytes_ok bs -> in_u 32 (Z.of_nat (length bs)) ->
  hammer_datacrc v addr (bs ++ rest) (Z.of_nat (length bs)) = Some (datacrc_spec v bs).
Proof.
  intros. unfold hammer_datacrc, datacrc_spec. case_bool_decide;
    [by apply iscsi_crc32_ref_eq|by apply crc32_ref_eq].
Qed.

Lemma datacrc_spec_range v bs : bytes_ok bs -> in_u 32 (datacrc_spec v bs).
Proof.
  intros. destruct poly_crc32_ok, poly_crc32c_ok. unfold datacrc_spec. case_bool_decide;
    apply in_u_bnot, crc_ref_range; done.
Qed.

Lemma datacrc_spec_old v v' bs :
  v < HAMMER_VOL_VERSION_SEVEN -> v' < HAMMER_VOL_VERSION_SEVEN ->
  datacrc_spec v bs = datacrc_spec v' bs.
Proof. intros. unfold datacrc_spec. by rewrite !bool_decide_eq_false_2 by lia. Qed.

(** ** Checksums over the fields before and after field [i] *)

Section regions.
Context {A : Type} `{OnDisk A}.

Definition before (i : nat) (a : A) : bytes := concat (take i (chunks a)).
Definition after (i : nat) (a : A) : bytes := concat (drop (S i) (chunks a)).

Lemma encode_before i a : encode a = before i a ++ concat (drop i (chunks a)).
Proof. unfold encode, before. by rewrite <- concat_app, take_drop. Qed.

Lemma length_before i a : valid a -> length (before i a) = offsetof A i.
Proof.
  intros Ha. unfold before, offsetof. rewrite <- (chunks_widths a) by done.
  by rewrite length_concat_sum, fmap_take.
Qed.

Lemma before_ok i a : valid a -> bytes_ok (before i a).
Proof. intros Ha. by apply Forall_concat, Forall_take, chunks_ok. Qed.

Lemma after_ok i a : valid a -> bytes_ok (after i a).
Proof. intros Ha. by apply Forall_concat, Forall_drop, chunks_ok. Qed.

Lemma length_after i a : valid a -> length (after i a) = (sizeof A - offsetof A (S i))%nat.
Proof.
  intros Ha. rewrite <- (length_encode a), (encode_before (S i) a) by done.
  rewrite length_app, length_before by done. unfold after. lia.
Qed.

Lemma drop_encode i a : valid a -> drop (offsetof A (S i)) (encode a) = after i a.
Proof.
  intros Ha. rewrite (encode_before (S i)), drop_app_length'; [done|].
  by rewrite length_before.
Qed.

Lemma datacrc_before v addr i a n :
  valid a -> n = Z.of_nat (offsetof A i) -> in_u 32 n ->
  hammer_datacrc v addr (encode a) n = Some (datacrc_spec v (before i a)).
Proof.
  intros Ha -> Hn. rewrite (encode_before i), <- (length_before i a) by done.
  apply hammer_datacrc_app; [by apply before_ok|]. by rewrite length_before.
Qed.

Lemma datacrc_after v addr i a k n :
  valid a -> k = offsetof A (S i) -> n = Z.of_nat (sizeof A - offsetof A (S i)) -> in_u 32 n ->
  hammer_datacrc v addr (drop k (encode a)) n = Some (datacrc_spec v (after i a)).
Proof.
  intros Ha -> -> Hn. rewrite drop_encode, <- (length_after i a) by done.
  rewrite <- (app_nil_r (after i a)) at 1.
  apply hammer_datacrc_app; [by apply after_ok|]. by rewrite length_after.
Qed.
End regions.

Lemma hammer_crc_get_blockmap_eq v addr b :
  valid b -> hammer_crc_get_blockmap v addr b = Some (datacrc_spec v (before 5 b)).
Proof. intros. by apply datacrc_before. Qed.

Lemma hammer_crc_get_layer1_eq v addr l :
  valid l -> hammer_crc_get_layer1 v addr l = Some (datacrc_spec v (before 4 l)).
Proof. intros. by apply datacrc_before. Qed.

Lemma hammer_crc_get_layer2_eq v addr l :
  valid l -> hammer_crc_get_layer2 v addr l = Some (datacrc_spec v (before 5 l)).
Proof. intros. by apply datacrc_before. Qed.

Lemma hammer_crc_get_volume_eq v addr o :
  valid o -> hammer_crc_get_volume v addr o
             = Some (datacrc_spec v (before 12 o) .^ datacrc_spec v (after 12 o)).
Proof.
  intros. unfold hammer_crc_get_volume. rewrite (datacrc_before _ _ 12) by done.
  cbn [mbind option_bind]. by rewrite (datacrc_after _ _ 12) by done.
Qed.

Lemma hammer_crc_get_btree_eq v addr n :
  valid n -> hammer_crc_get_btree v addr n = Some (datacrc_spec v (after 0 n)).
Proof.
  intros. unfold hammer_crc_get_btree. apply datacrc_after; [done|done| |].
  - vm_compute. reflexivity.
  - split; vm_compute; done.
Qed.

Definition set_bm_entry_crc (b : hammer_blockmap) (c : Z) : hammer_blockmap :=
  {| bm_phys_offset := bm_phys_offset b; bm_first_offset := bm_first_offset b;
     bm_next_offset := bm_next_offset b; bm_alloc_offset := bm_alloc_offset b;
     bm_reserved01 := bm_reserved01 b; bm_entry_crc := c |}.
Definition set_l1_layer1_crc (l : hammer_blockmap_layer1) (c : Z) : hammer_blockmap_layer1 :=
  {| l1_blocks_free := l1_blocks_free l; l1_phys_offset := l1_phys_offset l;
     l1_reserved01 := l1_reserved01 l; l1_layer2_crc := l1_layer2_crc l; l1_layer1_crc := c |}.
Definition set_l2_entry_crc (l : hammer_blockmap_layer2) (c : Z) : hammer_blockmap_layer2 :=
  {| l2_zone := l2_zone l; l2_reserved01 := l2_reserved01 l; l2_reserved02 := l2_reserved02 l;
     l2_append_off := l2_append_off l; l2_bytes_free := l2_bytes_free l; l2_entry_crc := c |}.
Definition set_vol_crc (o : hammer_volume_ondisk) (c : Z) : hammer_volume_ondisk :=
  {| vol_signature := vol_signature o; vol_bot_beg := vol_bot_beg o; vol_mem_beg := vol_mem_beg o;
     vol_buf_beg := vol_buf_beg o; vol_buf_end := vol_buf_end o; vol_reserved01 := vol_reserved01 o;
     vol_fsid := vol_fsid o; vol_fstype := vol_fstype o; vol_label := vol_label o;
     vol_no := vol_no o; vol_count := vol_count o; vol_version := vol_version o; vol_crc := c;
     vol_flags := vol_flags o; vol_rootvol := vol_rootvol o; vol_reserved := vol_reserved o;
     vol0_stat_bigblocks := vol0_stat_bigblocks o;
     vol0_stat_freebigblocks := vol0_stat_freebigblocks o; vol0_reserved01 := vol0_reserved01 o;
     vol0_stat_inodes := vol0_stat_inodes o; vol0_reserved02 := vol0_reserved02 o;
     vol0_btree_root := vol0_btree_root o; vol0_next_tid := vol0_next_tid o;
     vol0_reserved03 := vol0_reserved03 o; vol0_blockmap := vol0_blockmap o;
     vol0_undo_array := vol0_undo_array o |}.
Definition set_node_crc (n : hammer_node_ondisk) (c : Z) : hammer_node_ondisk :=
  {| node_crc := c; node_reserved01 := node_reserved01 n; node_parent := node_parent n;
     node_count := node_count n; node_type := node_type n; node_reserved02 := node_reserved02 n;
     node_reserved03 := node_reserved03 n; node_reserved04 := node_reserved04 n;
     node_reserved05 := node_reserved05 n; node_reserved06 := node_reserved06 n;
     node_reserved07 := node_reserved07 n; node_mirror_tid := node_mirror_tid n;
     node_elms := node_elms n |}.

Lemma hammer_datacrc_old v v' addr bs n :
  v < HAMMER_VOL_VERSION_SEVEN -> v' < HAMMER_VOL_VERSION_SEVEN ->
  hammer_datacrc v addr bs n = hammer_datacrc v' addr bs n.
Proof. intros. unfold hammer_datacrc. by rewrite !bool_decide_eq_false_2 by lia. Qed.

Lemma set_l1_crc_valid l c : valid l -> in_u 32 c -> valid (set_l1_layer1_crc l c).
Proof. intros Hl Hc. hnf in Hl. hnf. simpl. tauto. Qed.
Lemma set_l2_crc_valid l c : valid l -> in_u 32 c -> valid (set_l2_entry_crc l c).
Proof. intros Hl Hc. hnf in Hl. hnf. simpl. tauto. Qed.
Lemma set_bm_crc_valid l c : valid l -> in_u 32 c -> valid (set_bm_entry_crc l c).
Proof. intros Hl Hc. hnf in Hl. hnf. simpl. tauto. Qed.
Lemma set_vol_crc_valid o c : valid o -> in_u 32 c -> valid (set_vol_crc o c).
Proof. intros Ho Hc. hnf in Ho. hnf. simpl. tauto. Qed.
Lemma set_node_crc_valid n c : valid n -> in_u 32 c -> valid (set_node_crc n c).
Proof. intros Hn Hc. hnf in Hn. hnf. simpl. tauto. Qed.

(** The laws of an instance, from the equation [eq] of its [crc_get] and the validity
    [val] of the update. *)
Ltac checksummed_solve get eq val :=
  first
    [ exact val
    | solve [intros v addr a Ha; rewrite eq by done; eexists; split; [done|];
             repeat apply in_u_lxor; try done; apply datacrc_spec_range;
             auto using before_ok, after_ok]
    | solve [intros v addr a c Ha Hc; rewrite !eq by auto using val; done]
    | solve [intros; rewrite !eq by done; done]
    | solve [intros v v' addr a Hv Hv'; unfold get; repeat (case_match; try done);
             by rewrite !(hammer_datacrc_old v v')]
    | done ].

#[export, refine] Instance blockmap_checksummed : Checksummed hammer_blockmap := {
  crc_get := hammer_crc_get_blockmap;
  crc_field := bm_entry_crc;
  set_crc_field := set_bm_entry_crc;
}.
Proof. all: checksummed_solve hammer_crc_get_blockmap hammer_crc_get_blockmap_eq set_bm_crc_valid. Defined.

#[export, refine] Instance layer1_checksummed : Checksummed hammer_blockmap_layer1 := {
  crc_get := hammer_crc_get_layer1;
  crc_field := l1_layer1_crc;
  set_crc_field := set_l1_layer1_crc;
}.
Proof. all: checksummed_solve hammer_crc_get_layer1 hammer_crc_get_layer1_eq set_l1_crc_valid. Defined.

#[export, refine] Instance layer2_checksummed : Checksummed hammer_blockmap_layer2 := {
  crc_get := hammer_crc_get_layer2;
  crc_field := l2_entry_crc;
  set_crc_field := set_l2_entry_crc;
}.
Proof. all: checksummed_solve hammer_crc_get_layer2 hammer_crc_get_layer2_eq set_l2_crc_valid. Defined.

#[export, refine] Instance volume_checksummed : Checksummed hammer_volume_ondisk := {
  crc_get := hammer_crc_get_volume;
  crc_field := vol_crc;
  set_crc_field := set_vol_crc;
}.
Proof. all: checksummed_solve hammer_crc_get_volume hammer_crc_get_volume_eq set_vol_crc_valid. Defined.

#[export, refine] Instance btree_checksummed : Checksummed hammer_node_ondisk := {
  crc_get := hammer_crc_get_btree;
  crc_field := node_crc;
  set_crc_field := set_node_crc;
}.
Proof. all: checksummed_solve hammer_crc_get_btree hammer_crc_get_btree_eq set_node_crc_valid. Defined.

(** ** The set and test functions of the header *)

Definition hammer_crc_set_blockmap (v addr : Z) (b : hammer_blockmap) := crc_set v addr b.
Definition hammer_crc_test_blockmap (v addr : Z) (b : hammer_blockmap) := crc_test v addr b.
Definition hammer_crc_set_layer1 (v addr : Z) (l : hammer_blockmap_layer1) := crc_set v addr l.
Definition hammer_crc_test_layer1 (v addr : Z) (l : hammer_blockmap_layer1) := crc_test v addr l.
Definition hammer_crc_set_layer2 (v addr : Z) (l : hammer_blockmap_layer2) := crc_set v addr l.
Definition hammer_crc_test_layer2 (v addr : Z) (l : hammer_blockmap_layer2) := crc_test v addr l.
Definition hammer_crc_set_volume (v addr : Z) (o : hammer_volume_ondisk) := crc_set v addr o.
Definition hammer_crc_test_volume (v addr : Z) (o : hammer_volume_ondisk) := crc_test v addr o.
Definition hammer_crc_set_btree (v addr : Z) (n : hammer_node_ondisk) := crc_set v addr n.
Definition hammer_crc_test_btree (v addr : Z) (n : hammer_node_ondisk) := crc_test v addr n.

(** The FIFO head is updated in the memory image it heads. *)
Definition hammer_crc_set_fifo_head (v addr : Z) (mem : bytes) (nbytes : Z) : option bytes :=
  c ← hammer_crc_get_fifo_head v addr mem nbytes;
  Some (splice mem (Z.to_nat HAMMER_FIFO_HEAD_CRCOFF) (le_bytes 4 c)).
Definition hammer_crc_test_fifo_head (v addr : Z) (mem : bytes) (nbytes : Z) : option bool :=
  let hdr := read_at hammer_fifo_head mem 0 in
  c ← hammer_crc_get_fifo_head v addr mem nbytes;
  if bool_decide (hdr_crc hdr = c) then Some true
  else if bool_decide (HAMMER_VOL_VERSION_SEVEN <= v)
  then
    c6 ← hammer_crc_get_fifo_head HAMMER_VOL_VERSION_SIX addr mem nbytes;
    Some (bool_decide (hdr_crc hdr = c6))
  else Some false.

Definition set_leaf_data_crc (l : hammer_btree_leaf_elm) (c : Z) : hammer_btree_leaf_elm :=
  {| leaf_base := leaf_base l; leaf_create_ts := leaf_create_ts l;
     leaf_delete_ts := leaf_delete_ts l; leaf_data_offset := leaf_data_offset l;
     leaf_data_len := leaf_data_len l; leaf_data_crc := c |}.
Definition hammer_crc_set_leaf (v addr : Z) (data : bytes) (leaf : hammer_btree_leaf_elm)
    : option hammer_btree_leaf_elm :=
  c ← hammer_crc_get_leaf v addr data leaf; Some (set_leaf_data_crc leaf c).
Definition hammer_crc_test_leaf (v addr : Z) (data : bytes) (leaf : hammer_btree_leaf_elm)
    : option bool :=
  c ← hammer_crc_get_leaf v addr data leaf;
  if bool_decide (leaf_data_crc leaf = c) then Some true
  else if bool_decide (HAMMER_VOL_VERSION_SEVEN <= v)
  then
    c6 ← hammer_crc_get_leaf HAMMER_VOL_VERSION_SIX addr data leaf;
    Some (bool_decide (leaf_data_crc leaf = c6))
  else Some false.

(** ** Mirror records *)

Definition HAMMER_MREC_CRCOFF : Z := 8.

(** [struct hammer_ioc_mrecord_head] *)
Record mrec_head := { mh_signature : Z; mh_rec_crc : Z; mh_rec_size : Z; mh_type : Z }.

#[export, refine] Instance mrec_head_ondisk : OnDisk mrec_head := {
  widths := [4; 4; 4; 4]%nat;
  chunks x := [le_bytes 4 (mh_signature x); le_bytes 4 (mh_rec_crc x); le_bytes 4 (mh_rec_size x); le_bytes 4 (mh_type x)];
  of_chunks cs := match cs with
    | [c0; c1; c2; c3] =>
        {| mh_signature := of_le c0; mh_rec_crc := of_le c1; mh_rec_size := of_le c2; mh_type := of_le c3 |}
    | _ => Build_mrec_head 0 0 0 0
    end;
  valid x := in_u 32 (mh_signature x) /\ in_u 32 (mh_rec_crc x) /\ in_u 32 (mh_rec_size x) /\ in_u 32 (mh_type x);
}.
Proof. all: ondisk_solve. Defined.

(** The record in memory at [mem]; [nbytes] is an [int]. *)
Definition hammer_crc_get_mrec_head (mem : bytes) (nbytes : Z) : option Z :=
  crc32 (drop 8 mem) (u64 (nbytes - HAMMER_MREC_CRCOFF)).
Definition hammer_crc_set_mrec_head (mem : bytes) (nbytes : Z) : option bytes :=
  c ← hammer_crc_get_mrec_head mem nbytes; Some (splice mem 4 (le_bytes 4 c)).
Definition hammer_crc_test_mrec_head (mem : bytes) (nbytes : Z) : option bool :=
  c ← hammer_crc_get_mrec_head mem nbytes; Some (bool_decide (mh_rec_crc (read_at mrec_head mem 0) = c)).

(** ** Properties *)

Section checksummed.
Context {A : Type} `{Checksummed A}.

Lemma crc_set_some v addr (a : A) :
  valid a -> exists c, crc_set v addr a = Some (set_crc_field a c) /\ in_u 32 c /\
                       crc_get v addr a = Some c.
Proof.
  intros Ha. destruct (crc_get_some v addr a Ha) as (c & Hc & Hr).
  exists c. unfold crc_set. by rewrite Hc.
Qed.

(** The test only asks whether the stored checksum is one of the two. *)
Lemma crc_test_true v addr (a : A) c c6 :
  crc_get v addr a = Some c -> crc_get HAMMER_VOL_VERSION_SIX addr a = Some c6 ->
  crc_test v addr a = Some true <->
  crc_field a = c \/ (HAMMER_VOL_VERSION_SEVEN <= v /\ crc_field a = c6).
Proof.
  intros Hc H6. unfold crc_test. rewrite Hc. cbn [mbind option_bind].
  case_bool_decide as Hf; [tauto|]. case_bool_decide as Hv.
  - rewrite H6. cbn [mbind option_bind]. case_bool_decide as Hf6; [tauto|].
    split; [done|tauto].
  - split; [done|tauto].
Qed.
End checksummed.

(** The structures of the class. *)
Lemma struct_set_then_test {A : Type} `{Checksummed A} (v addr addr' : Z) (a : A) :
  valid a ->
  exists a', crc_set v addr a = Some a' /\ valid a' /\
    crc_test v addr' a' = Some true /\
    (v < HAMMER_VOL_VERSION_SEVEN -> forall v', crc_test v' addr' a' = Some true).
Proof.
  intros Ha. destruct (crc_set_some v addr a Ha) as (c & Hset & Hr & Hc).
  set (a' := set_crc_field a c). assert (Ha' : valid a') by (by apply set_crc_valid).
  assert (Hget : crc_get v addr' a' = Some c).
  { unfold a'. by rewrite crc_get_set, (crc_get_addr v addr' addr) by done. }
  exists a'. split_and!; [done|done| |].
  - destruct (crc_get_some HAMMER_VOL_VERSION_SIX addr' a' Ha') as (c6 & H6 & _).
    apply (crc_test_true _ _ _ _ _ Hget H6). left. apply crc_field_set.
  - intros Hv v'. destruct (crc_get_some v' addr' a' Ha') as (c' & Hc' & _).
    assert (H6 : crc_get HAMMER_VOL_VERSION_SIX addr' a' = Some c)
      by (rewrite <- Hget; by apply crc_get_old).
    apply (crc_test_true _ _ _ _ _ Hc' H6). unfold a'. rewrite crc_field_set.
    destruct (decide (v' < HAMMER_VOL_VERSION_SEVEN)); [left|right; split; [lia|done]].
    rewrite (crc_get_old v' v) in Hc' by done. congruence.
Qed.

(** Damage inside a window of the checksummed prefix. *)
Lemma before_window {A} `{OnDisk A} i (a a' : A) pre xs ys post :
  valid a -> valid a' ->
  encode a = pre ++ xs ++ post -> encode a' = pre ++ ys ++ post ->
  length xs = length ys -> (length pre + length xs <= offsetof A i)%nat ->
  exists k, before i a = pre ++ xs ++ take k post /\ before i a' = pre ++ ys ++ take k post.
Proof.
  intros Ha Ha' He He' Hl Hle. exists (offsetof A i - length pre - length xs)%nat.
  assert (Hb : forall b : A, valid b -> before i b = take (offsetof A i) (encode b)).
  { intros b Hb. rewrite (encode_before i b), take_app_length'; [done|].
    by rewrite length_before. }
  rewrite !Hb, He, He' by done. rewrite !take_app.
  rewrite !(take_ge pre), (take_ge xs), (take_ge ys) by lia. by rewrite Hl.
Qed.

Lemma datacrc_spec_window v pre xs ys post :
  bytes_ok (pre ++ xs ++ post) -> bytes_ok (pre ++ ys ++ post) ->
  length xs = length ys -> (length xs <= 4)%nat -> xs <> ys ->
  datacrc_spec v (pre ++ xs ++ post) <> datacrc_spec v (pre ++ ys ++ post).
Proof.
  unfold bytes_ok. rewrite !Forall_app. intros (Hp & Hx & Hq) (_ & Hy & _) Hl H4 Hne.
  destruct poly_crc32_ok, poly_crc32c_ok.
  assert (Hinj : forall x y, bnot 32 x = bnot 32 y -> x = y).
  { intros x y Heq. by rewrite <- (bnot_bnot 32 x), Heq, bnot_bnot. }
  unfold datacrc_spec, crc32c_spec, crc32_spec.
  case_bool_decide; intros Heq%Hinj; revert Heq; by apply crc_ref_burst.
Qed.

(** a freemap layer-1 entry that passes its test no longer does when its image is
    damaged inside a window of at most four bytes before the checksum field: on volumes
    older than version 7 the test fails, on newer ones it can only succeed if the stored
    value happens to be the old-style checksum of the damaged entry. *)
Theorem layer1_damage_detected (v addr : Z) (l l' : hammer_blockmap_layer1)
    (pre xs ys post : bytes) :
  valid l -> valid l' ->
  encode l = pre ++ xs ++ post -> encode l' = pre ++ ys ++ post ->
  length xs = length ys -> (length xs <= 4)%nat -> xs <> ys ->
  Z.of_nat (length pre + length xs) <= HAMMER_LAYER1_CRCSIZE ->
  l1_layer1_crc l' = l1_layer1_crc l ->
  hammer_crc_get_layer1 v addr l = Some (l1_layer1_crc l) ->
  hammer_crc_test_layer1 v addr l' =
    if bool_decide (HAMMER_VOL_VERSION_SEVEN <= v)
    then Some (bool_decide (hammer_crc_get_layer1 HAMMER_VOL_VERSION_SIX addr l'
                            = Some (l1_layer1_crc l')))
    else Some false.
Proof.
  intros Hl Hl' He He' Hlen H4 Hne Hle Hcrc Hget.
  destruct (before_window 4 l l' pre xs ys post) as (k & Hb & Hb');
    [done..|unfold HAMMER_LAYER1_CRCSIZE in Hle; lia|].
  rewrite hammer_crc_get_layer1_eq in Hget by done. injection Hget as Hget.
  unfold hammer_crc_test_layer1, crc_test. cbn [crc_get crc_field layer1_checksummed].
  rewrite !hammer_crc_get_layer1_eq by done. cbn [mbind option_bind].
  rewrite Hcrc, <- Hget, (bool_decide_eq_false_2 (_ = _)).
  - case_bool_decide; [|done]. f_equal. apply bool_decide_ext. split; congruence.
  - rewrite Hb, Hb'. apply datacrc_spec_window; try done.
    + rewrite <- Hb. by apply before_ok.
    + rewrite <- Hb'. by apply before_ok.
Qed.

Definition damage_good : hammer_blockmap_layer1 :=
  {| l1_blocks_free := 0; l1_phys_offset := 0; l1_reserved01 := 0; l1_layer2_crc := 0;
     l1_layer1_crc := datacrc_spec 6 (replicate 28 0) |}.
Definition damage_bad : hammer_blockmap_layer1 :=
  {| l1_blocks_free := 1; l1_phys_offset := 0; l1_reserved01 := 0; l1_layer2_crc := 0;
     l1_layer1_crc := datacrc_spec 6 (replicate 28 0) |}.

Lemma damage_valid : valid damage_good /\ valid damage_bad.
Proof.
  assert (in_u 32 (datacrc_spec 6 (replicate 28 0)))
    by (apply datacrc_spec_range; by apply Forall_replicate).
  split; (hnf; split_and!; try done; split; done).
Qed.

Lemma layer1_damage_detected_witness : hammer_crc_test_layer1 6 0 damage_bad = Some false.
Proof.
  apply (layer1_damage_detected 6 0 damage_good damage_bad [] [0] [1] (drop 1 (encode damage_good))).
  - apply damage_valid.
  - apply damage_valid.
  - vm_compute; reflexivity.
  - vm_compute; reflexivity.
  - reflexivity.
  - simpl; lia.
  - discriminate.
  - vm_compute; discriminate.
  - reflexivity.
  - vm_compute; reflexivity.
Defined.

(** ** FIFO heads *)

Lemma fifo_hdr_crc mem : hdr_crc (read_at hammer_fifo_head mem 0) = of_le (take 4 (drop 12 mem)).
Proof. unfold read_at, decode. simpl. by rewrite !drop_drop. Qed.

Lemma hammer_crc_get_fifo_head_eq v addr hd crc body rest :
  length hd = 12%nat -> length crc = 4%nat -> bytes_ok hd -> bytes_ok body ->
  in_u 32 (Z.of_nat (length body)) ->
  hammer_crc_get_fifo_head v addr (hd ++ crc ++ body ++ rest) (16 + Z.of_nat (length body))
  = Some (datacrc_spec v hd .^ datacrc_spec v body).
Proof.
  intros Hh Hc Hho Hbo Hl. unfold hammer_crc_get_fifo_head.
  replace HAMMER_FIFO_HEAD_CRCOFF with (Z.of_nat (length hd)) by (rewrite Hh; reflexivity).
  rewrite hammer_datacrc_app by (try done; by rewrite Hh). cbn [mbind option_bind].
  change (sizeof hammer_fifo_head) with 16%nat. change (Z.of_nat 16) with 16.
  rewrite app_assoc, drop_app_length' by (rewrite length_app; lia).
  replace (16 + Z.of_nat (length body) - 16) with (Z.of_nat (length body)) by lia.
  by rewrite hammer_datacrc_app.
Qed.

(** setting the checksum of an UNDO/REDO FIFO record of [nbytes] bytes (the head, the
    payload and the tail) changes only the checksum field of the head, and the record then
    passes its test, at any address and, when the version is old, on every version. *)
Lemma fifo_head_set_then_test (v addr addr' nbytes : Z) (mem : bytes) :
  bytes_ok mem -> 16 <= nbytes <= Z.of_nat (length mem) -> in_u 32 nbytes ->
  exists c, in_u 32 c /\
    hammer_crc_set_fifo_head v addr mem nbytes = Some (splice mem 12 (le_bytes 4 c)) /\
    hammer_crc_test_fifo_head v addr' (splice mem 12 (le_bytes 4 c)) nbytes = Some true /\
    (v < HAMMER_VOL_VERSION_SEVEN -> forall v', hammer_crc_test_fifo_head v' addr' (splice mem 12 (le_bytes 4 c)) nbytes = Some true).
Proof.
  intros Hm Hn Hr. set (hd := take 12 mem). set (body := take (Z.to_nat nbytes - 16) (drop 16 mem)).
  set (rest := drop (Z.to_nat nbytes) mem). set (old := take 4 (drop 12 mem)).
  assert (Hmem : mem = hd ++ old ++ body ++ rest).
  { unfold hd, old, body, rest. rewrite <- (take_drop 12 mem) at 1. f_equal.
    rewrite <- (take_drop 4 (drop 12 mem)) at 1. f_equal. rewrite drop_drop. change (12 + 4)%nat with 16%nat.
    rewrite <- (take_drop (Z.to_nat nbytes - 16) (drop 16 mem)) at 1. f_equal.
    rewrite drop_drop. f_equal. lia. }
  assert (length hd = 12%nat) by (unfold hd; rewrite length_take; lia).
  assert (length old = 4%nat) by (unfold old; rewrite length_take, length_drop; lia).
  assert (Hlb : nbytes = 16 + Z.of_nat (length body))
    by (unfold body; rewrite length_take, length_drop; lia).
  assert (bytes_ok hd) by (by apply Forall_take).
  assert (bytes_ok body) by (by apply Forall_take, Forall_drop).
  assert (in_u 32 (Z.of_nat (length body))) by dlia.
  clearbody hd old body rest. subst mem.
  set (c := datacrc_spec v hd .^ datacrc_spec v body).
  assert (Hc : in_u 32 c) by (apply in_u_lxor; [done|by apply datacrc_spec_range..]).
  assert (Hsp : splice (hd ++ old ++ body ++ rest) 12 (le_bytes 4 c)
                = hd ++ le_bytes 4 c ++ body ++ rest).
  { unfold splice. rewrite le_bytes_length, take_app_length' by done. do 2 f_equal.
    rewrite app_assoc, drop_app_length'; [done|]. rewrite length_app. lia. }
  exists c. split; [done|].
  assert (Hget : forall v a x, length x = 4%nat ->
    hammer_crc_get_fifo_head v a (hd ++ x ++ body ++ rest) nbytes
    = Some (datacrc_spec v hd .^ datacrc_spec v body)).
  { intros. rewrite Hlb. by apply hammer_crc_get_fifo_head_eq. }
  assert (Hfield : hdr_crc (read_at hammer_fifo_head (splice (hd ++ old ++ body ++ rest) 12 (le_bytes 4 c)) 0) = c).
  { rewrite fifo_hdr_crc, Hsp, drop_app_length', take_app_length' by (by rewrite ?le_bytes_length).
    by apply of_le_le_bytes. }
  split_and!.
  - unfold hammer_crc_set_fifo_head. by rewrite Hget.
  - unfold hammer_crc_test_fifo_head. rewrite Hfield, Hsp, !Hget by apply le_bytes_length.
    cbn [mbind option_bind]. by rewrite bool_decide_eq_true_2.
  - intros Hv v'. unfold hammer_crc_test_fifo_head. rewrite Hfield, Hsp, !Hget by apply le_bytes_length.
    cbn [mbind option_bind]. case_bool_decide as Hne; [done|].
    assert (datacrc_spec HAMMER_VOL_VERSION_SIX hd .^ datacrc_spec HAMMER_VOL_VERSION_SIX body = c) as ->
      by (unfold c; by rewrite !(datacrc_spec_old HAMMER_VOL_VERSION_SIX v)).
    destruct (decide (v' < HAMMER_VOL_VERSION_SEVEN)).
    + exfalso. apply Hne. unfold c. by rewrite !(datacrc_spec_old v v').
    + rewrite !bool_decide_eq_true_2 by (done || lia). done.
Qed.

(** ** Mirror records *)

(** The checksum of the header, wherever the record is in memory. *)
Lemma mrec_crc_get mem size :
  bytes_ok mem -> 8 <= size < 2 ^ 31 -> size <= Z.of_nat (length mem) ->
  hammer_crc_get_mrec_head mem size = Some (crc32_spec (take (Z.to_nat (size - HAMMER_MREC_CRCOFF)) (drop 8 mem))).
Proof.
  unfold HAMMER_MREC_CRCOFF. intros Hok Hs Hl. unfold hammer_crc_get_mrec_head, HAMMER_MREC_CRCOFF.
  rewrite uwrap_small by (unfold in_u; lia).
  pose proof (crc32_ref_eq (take (Z.to_nat (size - 8)) (drop 8 mem)) (drop (Z.to_nat (size - 8)) (drop 8 mem))) as E.
  rewrite take_drop, length_take, length_drop in E. replace (Z.of_nat _) with (size - 8) in E by lia.
  apply E. by apply Forall_take, Forall_drop.
Qed.

Lemma mrec_field_crc mem : mh_rec_crc (read_at mrec_head mem 0) = of_le (take 4 (drop 4 mem)).
Proof. unfold read_at, decode. simpl. by rewrite !drop_drop. Qed.

Lemma mrec_head_set_then_test (nbytes : Z) (mem : bytes) :
  bytes_ok mem -> HAMMER_MREC_CRCOFF <= nbytes <= Z.of_nat (length mem) -> nbytes < 2 ^ 31 ->
  exists c, in_u 32 c /\
    hammer_crc_set_mrec_head mem nbytes = Some (splice mem 4 (le_bytes 4 c)) /\
    hammer_crc_test_mrec_head (splice mem 4 (le_bytes 4 c)) nbytes = Some true.
Proof.
  unfold HAMMER_MREC_CRCOFF. intros Hm Hn Hr.
  set (c := crc32_spec (take (Z.to_nat (nbytes - HAMMER_MREC_CRCOFF)) (drop 8 mem))).
  assert (in_u 32 c) as Hc.
  { destruct poly_crc32_ok. apply in_u_bnot, crc_ref_range; try done. by apply Forall_take, Forall_drop. }
  assert (bytes_ok (splice mem 4 (le_bytes 4 c))) as Hok.
  { unfold splice, bytes_ok. rewrite !Forall_app. split; [by apply Forall_take|]. split; [apply le_bytes_ok|by apply Forall_drop]. }
  assert (length (splice mem 4 (le_bytes 4 c)) = length mem) as Hlen by (apply length_splice; rewrite le_bytes_length; lia).
  assert (drop 8 (splice mem 4 (le_bytes 4 c)) = drop 8 mem) as Hd.
  { unfold splice. rewrite le_bytes_length, app_assoc, drop_app_length'; [done|]. rewrite length_app, length_take, le_bytes_length. lia. }
  assert (of_le (take 4 (drop 4 (splice mem 4 (le_bytes 4 c)))) = c) as Hf.
  { unfold splice. rewrite drop_app_length', take_app_length' by (rewrite ?length_take, ?le_bytes_length; lia). by apply of_le_le_bytes. }
  exists c. split; [done|]. split.
  - unfold hammer_crc_set_mrec_head. by rewrite mrec_crc_get by (done || lia).
  - unfold hammer_crc_test_mrec_head. rewrite mrec_crc_get by (rewrite ?Hlen; done || lia). cbn [mbind option_bind].
    by rewrite mrec_field_crc, Hd, Hf, bool_decide_true.
Qed.

(** ** The data of a record *)

(** The checksum of the first [n] bytes, 0 when there are none. *)
Definition prefix_crc (v : Z) (n : nat) (data : bytes) : Z := if bool_decide (n = O) then 0 else datacrc_spec v (take n data).

Lemma leaf_get_some v addr data leaf :
  bytes_ok data -> 0 <= leaf_data_len leaf <= Z.of_nat (length data) -> leaf_data_len leaf < 2 ^ 31 ->
  exists n, hammer_crc_get_leaf v addr data leaf =
    Some (prefix_crc v n data) /\
    forall v addr, hammer_crc_get_leaf v addr data leaf = Some (prefix_crc v n data).
Proof.
  intros Hd Hl H31.
  assert (forall n, 0 < n <= Z.of_nat (length data) -> n < 2 ^ 31 -> forall v addr,
    hammer_datacrc v addr data n = Some (prefix_crc v (Z.to_nat n) data)) as Hcrc.
  { intros n Hn Hn31 v' addr'. unfold prefix_crc. rewrite bool_decide_false by lia.
    assert (n = Z.of_nat (length (take (Z.to_nat n) data))) as Hlen by (rewrite length_take; lia).
    pose proof (hammer_datacrc_app v' addr' (take (Z.to_nat n) data) (drop (Z.to_nat n) data)) as E.
    rewrite take_drop, <- Hlen in E. apply E; [by apply Forall_take|unfold in_u; lia]. }
  assert (exists n, forall v addr, hammer_crc_get_leaf v addr data leaf =
    Some (prefix_crc v n data)) as [n Hn]; [|by exists n].
  unfold hammer_crc_get_leaf. case_bool_decide; [by exists O|]. case_bool_decide.
  - case_bool_decide as Hs; [|by exists O]. exists (Z.to_nat HAMMER_INODE_CRCSIZE). apply Hcrc; [|done].
    rewrite Hs in Hl. change (Z.of_nat (sizeof hammer_inode_data)) with 128 in Hl. change HAMMER_INODE_CRCSIZE with 112. lia.
  - rewrite uwrap_small by (unfold in_u; lia). exists (Z.to_nat (leaf_data_len leaf)). apply Hcrc; lia.
Qed.

Lemma leaf_set_then_test v addr addr' data leaf :
  bytes_ok data -> 0 <= leaf_data_len leaf <= Z.of_nat (length data) -> leaf_data_len leaf < 2 ^ 31 ->
  exists c, hammer_crc_set_leaf v addr data leaf = Some (set_leaf_data_crc leaf c) /\
    hammer_crc_test_leaf v addr' data (set_leaf_data_crc leaf c) = Some true /\
    (v < HAMMER_VOL_VERSION_SEVEN -> forall v', hammer_crc_test_leaf v' addr' data (set_leaf_data_crc leaf c) = Some true).
Proof.
  intros Hd Hl H31. destruct (leaf_get_some v addr data leaf Hd Hl H31) as (n & Hs & Hn).
  set (c := prefix_crc v n data) in *.
  assert (forall v a, hammer_crc_get_leaf v a data (set_leaf_data_crc leaf c) =
    Some (prefix_crc v n data)) as Hn' by (intros w a; exact (Hn w a)).
  exists c. split; [unfold hammer_crc_set_leaf; by rewrite Hs|]. unfold hammer_crc_test_leaf. split.
  - rewrite (Hn' v). cbn [mbind option_bind]. case_bool_decide as Hx; [done|]. by destruct Hx.
  - intros Hv v'. rewrite !Hn'. cbn [mbind option_bind set_leaf_data_crc leaf_data_crc]. case_bool_decide as Hne; [done|].
    assert (forall w, w < HAMMER_VOL_VERSION_SEVEN -> prefix_crc w n data = c) as Hold.
    { intros w Hw. unfold c, prefix_crc. by rewrite (datacrc_spec_old w v). }
    destruct (decide (v' < HAMMER_VOL_VERSION_SEVEN)); [by rewrite Hold in Hne|].
    rewrite (Hold HAMMER_VOL_VERSION_SIX) by done. rewrite !bool_decide_eq_true_2 by (done || lia). done.
Qed.

(** ** The claim *)

(** C24: for every set function of hammer_crc.h, setting makes the test function succeed.
    The structures with an embedded checksum (a freemap entry of either layer, a blockmap
    entry, the volume header, a B-Tree node): the set function succeeds, keeps the
    structure well formed, and the test of the same version succeeds at any address; one
    written by an old version (< 7) passes the test of every version, so an upgraded volume
    accepts it.  The same holds of the UNDO/REDO FIFO record at [mem] of [nbytes] bytes, of
    which only the checksum field changes, and of the checksum that a B-Tree leaf element
    keeps of its data (with at least the [data_len] bytes there).  The head of a mirror
    record, whose checksum has no versions, passes its test too. *)
Theorem crc_set_then_test (v addr addr' : Z) :
  (forall (A : Type) (D : OnDisk A) (C : Checksummed A) (a : A), valid a ->
     exists a', crc_set v addr a = Some a' /\ valid a' /\ crc_test v addr' a' = Some true /\
       (v < HAMMER_VOL_VERSION_SEVEN -> forall v', crc_test v' addr' a' = Some true)) /\
  (forall mem nbytes, bytes_ok mem -> 16 <= nbytes <= Z.of_nat (length mem) -> in_u 32 nbytes ->
     exists c, hammer_crc_set_fifo_head v addr mem nbytes = Some (splice mem 12 (le_bytes 4 c)) /\
       hammer_crc_test_fifo_head v addr' (splice mem 12 (le_bytes 4 c)) nbytes = Some true /\
       (v < HAMMER_VOL_VERSION_SEVEN -> forall v', hammer_crc_test_fifo_head v' addr' (splice mem 12 (le_bytes 4 c)) nbytes = Some true)) /\
  (forall data leaf, bytes_ok data -> 0 <= leaf_data_len leaf <= Z.of_nat (length data) -> leaf_data_len leaf < 2 ^ 31 ->
     exists c, hammer_crc_set_leaf v addr data leaf = Some (set_leaf_data_crc leaf c) /\
       hammer_crc_test_leaf v addr' data (set_leaf_data_crc leaf c) = Some true /\
       (v < HAMMER_VOL_VERSION_SEVEN -> forall v', hammer_crc_test_leaf v' addr' data (set_leaf_data_crc leaf c) = Some true)) /\
  (forall mem nbytes, bytes_ok mem -> HAMMER_MREC_CRCOFF <= nbytes <= Z.of_nat (length mem) -> nbytes < 2 ^ 31 ->
     exists c, hammer_crc_set_mrec_head mem nbytes = Some (splice mem 4 (le_bytes 4 c)) /\
       hammer_crc_test_mrec_head (splice mem 4 (le_bytes 4 c)) nbytes = Some true).
Proof.
  split; [intros A D C a; apply struct_set_then_test|]. split; [|split].
  - intros mem nbytes H1 H2 H3. destruct (fifo_head_set_then_test v addr addr' nbytes mem H1 H2 H3) as (c & _ & H). eauto.
  - intros data leaf. apply leaf_set_then_test.
  - intros mem nbytes H1 H2 H3. destruct (mrec_head_set_then_test nbytes mem H1 H2 H3) as (c & _ & H). eauto.
Qed.

Lemma crc_set_then_test_witness :
  (exists l', hammer_crc_set_layer1 6 16 (zeroed hammer_blockmap_layer1) = Some l' /\ hammer_crc_test_layer1 7 64 l' = Some true) /\
  (exists c, hammer_crc_set_fifo_head 6 16 (replicate 32 5) 24 = Some (splice (replicate 32 5) 12 (le_bytes 4 c)) /\
     hammer_crc_test_fifo_head 7 64 (splice (replicate 32 5) 12 (le_bytes 4 c)) 24 = Some true).
Proof.
  destruct (crc_set_then_test 6 16 64) as (H1 & H2 & _). split.
  - destruct (H1 _ _ _ (zeroed hammer_blockmap_layer1) valid_zeroed_layer1) as (l' & Hs & _ & _ & Ht).
    exists l'. split; [exact Hs|]. apply Ht. reflexivity.
  - destruct (H2 (replicate 32 5) 24) as (c & Hs & _ & Ht).
    + by apply Forall_replicate.
    + rewrite length_replicate. lia.
    + done.
    + exists c. split; [exact Hs|]. apply Ht. reflexivity.
Defined.
