(* ===== verification/CMonad.v ===== *)
(** * CMonad: the effects of the C code

    A C function that works on the global state is a [prog S A]: from a state it either
    returns a value and a new state, or ends the process.  The ways to end it are kept
    apart: [err]/[errx] ([Exit]), a failed [assert] ([AssertFail]), undefined behaviour
    such as a NULL or dangling pointer ([Undef]), a thread that waits for a lock it holds
    itself ([Deadlock]), and, for loops and recursions that are
    given a bound, running out of it ([OutOfFuel], not a behaviour of the C code; the
    theorems show that enough fuel never ends there).  [Watched] is the end of a run by an
    observer that a theorem puts beside the program, when it sees what must not happen;
    the programs themselves have none.

    [wp m s Q] is total correctness: [m] started in [s] returns, and its result satisfies
    [Q]. *)

From S2P Require Import Prelude.

Inductive stop : Type :=
  | Exit (code : Z)
  | AssertFail
  | Undef
  | Deadlock
  | OutOfFuel
  | Watched.

Inductive res (S A : Type) : Type :=
  | Ok (a : A) (s : S)
  | Stop (e : stop).
Arguments Ok {_ _} _ _.
Arguments Stop {_ _} _.

Definition prog (S A : Type) : Type := S -> res S A.

#[export] Instance prog_ret S : MRet (prog S) := λ _ a s, Ok a s.
#[export] Instance prog_bind S : MBind (prog S) := λ _ _ k m s,
  match m s with
  | Ok a s' => k a s'
  | Stop e => Stop e
  end.

Definition stop_with {S A} (e : stop) : prog S A := λ _, Stop e.
Definition get_state {S} : prog S S := λ s, Ok s s.
Definition put_state {S} (s : S) : prog S () := λ _, Ok () s.
Definition modify {S} (f : S -> S) : prog S () := λ s, Ok () (f s).
(** [assert(b)] *)
Definition assertp {S} (b : bool) : prog S () := if b then mret () else stop_with AssertFail.
(** The value of a pointer or array element that must exist. *)
Definition deref {S A} (o : option A) : prog S A :=
  match o with Some a => mret a | None => stop_with Undef end.
Definition when {S} (b : bool) (m : prog S ()) : prog S () := if b then m else mret ().

(** A loop of at most [2 ^ n] turns: a turn gives the next loop state or the result. *)
Fixpoint iterate {S X A} (body : X -> prog S (X + A)) (n : nat) (x : X) : prog S (X + A) :=
  match n with
  | O => body x
  | Datatypes.S n =>
      r ← iterate body n x;
      match r with
      | inl x' => iterate body n x'
      | inr a => mret (inr a)
      end
  end.
Definition loop {S X A} (body : X -> prog S (X + A)) (n : nat) (x : X) : prog S A :=
  r ← iterate body n x;
  match r with
  | inl _ => stop_with OutOfFuel
  | inr a => mret a
  end.

(** ** Total correctness *)

Definition wp {S A} (m : prog S A) (s : S) (Q : A -> S -> Prop) : Prop :=
  match m s with
  | Ok a s' => Q a s'
  | Stop _ => False
  end.

Section wp.
Context {S : Type}.

Lemma wp_ret {A} (a : A) (s : S) (Q : A -> S -> Prop) : Q a s -> wp (mret a) s Q.
Proof. done. Qed.

Lemma wp_bind {A B} (m : prog S A) (k : A -> prog S B) s Q :
  wp m s (λ a s', wp (k a) s' Q) -> wp (m ≫= k) s Q.
Proof. unfold wp, mbind, prog_bind. by destruct (m s). Qed.

Lemma wp_mono {A} (m : prog S A) s (P Q : A -> S -> Prop) :
  wp m s P -> (forall a s', P a s' -> Q a s') -> wp m s Q.
Proof. unfold wp. destruct (m s); auto. Qed.

Lemma wp_get (s : S) (Q : S -> S -> Prop) : Q s s -> wp get_state s Q.
Proof. done. Qed.

Lemma wp_modify f (s : S) (Q : () -> S -> Prop) : Q () (f s) -> wp (modify f) s Q.
Proof. done. Qed.

Lemma wp_assertp b (s : S) (Q : () -> S -> Prop) : b = true -> Q () s -> wp (assertp b) s Q.
Proof. by intros ->. Qed.

Lemma wp_deref {A} (o : option A) a (s : S) (Q : A -> S -> Prop) :
  o = Some a -> Q a s -> wp (deref o) s Q.
Proof. by intros ->. Qed.

Lemma wp_when_true m (s : S) (Q : () -> S -> Prop) : wp m s Q -> wp (when true m) s Q.
Proof. done. Qed.

Lemma wp_when (b : bool) m (s : S) (Q : () -> S -> Prop) :
  (b = true -> wp m s Q) -> (b = false -> Q () s) -> wp (when b m) s Q.
Proof. destruct b; intros Ht Hf; [by apply Ht|by apply wp_ret, Hf]. Qed.

(** A loop whose turns decrease a measure [m >= 1]. *)
Lemma wp_iterate {X A} (body : X -> prog S (X + A)) (I : nat -> X -> S -> Prop) (Q : A -> S -> Prop) n :
  (forall m x s, I m x s -> wp (body x) s (λ r s',
    match r with inl y => exists m', (1 <= m' < m)%nat /\ I m' y s' | inr a => Q a s' end)) ->
  forall m x s, I m x s -> wp (iterate body n x) s (λ r s',
    match r with inl y => exists m', (1 <= m')%nat /\ (m' + 2 ^ n <= m)%nat /\ I m' y s' | inr a => Q a s' end).
Proof.
  intros Hbody. induction n as [|n IH]; intros m x s HI; cbn [iterate].
  - eapply wp_mono; [by eapply Hbody|]. intros [y|a] s'; [|done]. intros (m' & Hm & HI'). exists m'. cbn. auto with lia.
  - apply wp_bind. eapply wp_mono; [by apply IH|]. intros [y|a] s' Hr; [|by apply wp_ret].
    destruct Hr as (m' & Hm1 & Hm & HI'). eapply wp_mono; [by apply IH|]. intros [z|a] s''; [|done].
    intros (m'' & Hm1' & Hm' & HI''). exists m''. cbn [Nat.pow]. split_and!; [done|lia|done].
Qed.

Lemma wp_loop {X A} (body : X -> prog S (X + A)) (I : nat -> X -> S -> Prop) (Q : A -> S -> Prop) n m x s :
  (forall m x s, I m x s -> wp (body x) s (λ r s',
    match r with inl y => exists m', (1 <= m' < m)%nat /\ I m' y s' | inr a => Q a s' end)) ->
  I m x s -> (m <= 2 ^ n)%nat -> wp (loop body n x) s Q.
Proof.
  intros Hbody HI Hm. unfold loop. apply wp_bind. eapply wp_mono; [by eapply wp_iterate|].
  intros [y|a] s' Hr; [|by apply wp_ret]. destruct Hr as (m' & ? & ? & _). lia.
Qed.

(** A returning program, as an equation. *)
Lemma wp_inv {A} (m : prog S A) s Q : wp m s Q -> exists a s', m s = Ok a s' /\ Q a s'.
Proof. unfold wp. destruct (m s) as [a s'|]; [eauto|done]. Qed.
End wp.

(** Running a program step by step. *)
Lemma bind_Ok {S A B} (m : prog S A) (k : A -> prog S B) s a s' :
  m s = Ok a s' -> (m ≫= k) s = k a s'.
Proof. unfold mbind, prog_bind. by intros ->. Qed.

Lemma bind_bind {S A B C} (m : prog S A) (k : A -> prog S B) (l : B -> prog S C) s :
  ((m ≫= k) ≫= l) s = (m ≫= λ a, k a ≫= l) s.
Proof. unfold mbind, prog_bind. by destruct (m s). Qed.

Lemma bind_Stop {S A B} (m : prog S A) (k : A -> prog S B) s e :
  m s = Stop e -> (m ≫= k) s = Stop e.
Proof. unfold mbind, prog_bind. by intros ->. Qed.

(** What a bind that returned did. *)
Lemma bind_Ok_inv {S A B} (m : prog S A) (k : A -> prog S B) s b s' :
  (m ≫= k) s = Ok b s' -> exists a s1, m s = Ok a s1 /\ k a s1 = Ok b s'.
Proof. unfold mbind, prog_bind. destruct (m s) as [a s1|]; [eauto|done]. Qed.

Lemma iterate_stop {S X A} (body : X -> prog S (X + A)) n x s e :
  body x s = Stop e -> iterate body n x s = Stop e.
Proof. intros Hb. induction n as [|n IH]; [done|]. cbn [iterate]. by apply bind_Stop. Qed.

Lemma loop_stop {S X A} (body : X -> prog S (X + A)) n x s e :
  body x s = Stop e -> loop body n x s = Stop e.
Proof. intros Hb. by apply bind_Stop, iterate_stop. Qed.

Lemma wp_Ok {S A} (m : prog S A) s a s' (Q : A -> S -> Prop) : m s = Ok a s' -> Q a s' -> wp m s Q.
Proof. unfold wp. by intros ->. Qed.

(** One step of the weakest precondition. *)
Ltac wp_step :=
  match goal with
  | |- wp (mret _) _ _ => apply wp_ret
  | |- wp (_ ≫= _) _ _ => apply wp_bind
  | |- wp get_state _ _ => apply wp_get
  | |- wp (modify _) _ _ => apply wp_modify
  | |- wp (assertp _) _ _ => apply wp_assertp
  end.
