(* ===== verification/WpStop.v ===== *)
(** * WpStop: programs that may stop

    [wps m s E R] extends the total correctness of CMonad by the ways in which a program
    is allowed to stop: [m] started in [s] returns with [R], or stops with [E]. *)

From S2P Require Import Prelude CMonad.

Definition wps {S A} (m : prog S A) (s : S) (E : stop -> Prop) (R : A -> S -> Prop) : Prop :=
  match m s with
  | Ok a s' => R a s'
  | Stop e => E e
  end.

Section wps.
Context {S : Type} (E : stop -> Prop).

Lemma wps_ret {A} (a : A) (s : S) (R : A -> S -> Prop) : R a s -> wps (mret a) s E R.
Proof. done. Qed.

Lemma wps_bind {A B} (m : prog S A) (k : A -> prog S B) s R :
  wps m s E (λ a s', wps (k a) s' E R) -> wps (m ≫= k) s E R.
Proof. unfold wps, mbind, prog_bind. by destruct (m s). Qed.

Lemma wps_mono {A} (m : prog S A) s (P R : A -> S -> Prop) :
  wps m s E P -> (forall a s', P a s' -> R a s') -> wps m s E R.
Proof. unfold wps. destruct (m s); auto. Qed.

Lemma wps_weaken {A} (m : prog S A) s (E' : stop -> Prop) (P R : A -> S -> Prop) :
  wps m s E' P -> (forall e, E' e -> E e) -> (forall a s', P a s' -> R a s') -> wps m s E R.
Proof. unfold wps. destruct (m s); auto. Qed.

Lemma wps_eq {A} (m m' : prog S A) s (R : A -> S -> Prop) : m s = m' s -> wps m' s E R -> wps m s E R.
Proof. unfold wps. by intros ->. Qed.

Lemma wps_get (s : S) (R : S -> S -> Prop) : R s s -> wps get_state s E R.
Proof. done. Qed.

Lemma wps_modify f (s : S) (R : () -> S -> Prop) : R () (f s) -> wps (modify f) s E R.
Proof. done. Qed.

Lemma wps_assertp b (s : S) (R : () -> S -> Prop) : b = true -> R () s -> wps (assertp b) s E R.
Proof. by intros ->. Qed.

Lemma wps_deref {A} (o : option A) a (s : S) (R : A -> S -> Prop) : o = Some a -> R a s -> wps (deref o) s E R.
Proof. by intros ->. Qed.

Lemma wps_when (b : bool) m (s : S) (R : () -> S -> Prop) :
  (b = true -> wps m s E R) -> (b = false -> R () s) -> wps (when b m) s E R.
Proof. destruct b; intros Ht Hf; [by apply Ht|by apply wps_ret, Hf]. Qed.
End wps.

(** No stop: total correctness. *)
Definition never (e : stop) : Prop := False.

Lemma wps_wp {S A} (m : prog S A) s R : wps m s never R <-> wp m s R.
Proof. unfold wps, wp. by destruct (m s). Qed.

(** One step. *)
Ltac stop_step :=
  lazymatch goal with
  | |- wps (mret _) _ _ _ => apply wps_ret
  | |- wps (_ ≫= _) _ _ _ => apply wps_bind
  | |- wps get_state _ _ _ => apply wps_get
  | |- wps (modify _) _ _ _ => apply wps_modify
  | |- wps (assertp _) _ _ _ => apply wps_assertp
  end; cbv beta.
