(* ===== verification/Ondisk.v ===== *)
(** * Ondisk: volumes, the buffer cache and address translation

    The state and operations of src/sbin/hammer/ondisk.c and cache.c, and the address
    look-up of blockmap.c, on which newfs_hammer(8) and the off-line commands of hammer(8)
    are built.  A volume is a file with a header; 16 KB blocks of it, addressed by zone-2
    offsets, are cached in reference-counted buffers kept on a per-volume hash list and on
    one global least-recently-used list.  Zone-3 and zone-8..15 offsets are translated
    through the UNDO array and the freemap, which are read through the same cache; this
    recursion carries fuel.

    Pointers: a buffer is named by a [positive] key of the heap, a volume by its index in
    [VolList] (volumes are never freed).  A freed buffer is not in the heap, so using it is
    [Undef]. *)

From S2P Require Import Prelude HammerDisk Layout CMonad.

(** ** State *)

Record volume_info := {
  v_name : Z;             (** the file name, only ever printed; here its identity *)
  v_regfile : bool;       (** [type] is "REGFILE" *)
  v_vol_no : Z;
  v_rdonly : bool;
  v_fd : Z;
  v_size : Z;
  v_device_offset : Z;
  v_vol_free_off : Z;
  v_vol_free_end : Z;
  v_ondisk : hammer_volume_ondisk;
  v_ondisk_rest : bytes;  (** the rest of the 16 KB [ondisk] allocation *)
  v_buffer_lists : list (list positive);
}.

Record buffer_info := {
  b_refs : Z;
  b_modified : bool;
  b_delete : bool;
  b_zone2_offset : Z;
  b_raw_offset : Z;
  b_volume : nat;
  b_ondisk : bytes;
}.

(** A file of the operating system: [f_data] gives its bytes below [f_size]. *)
Record file := {
  f_size : Z;
  f_growable : bool;      (** a regular file, not a block device *)
  f_data : Z -> Z;
}.

Record state := {
  VolList : list volume_info;
  heap : gmap positive buffer_info;
  next_ptr : positive;
  CacheList : list positive;
  CacheUse : Z;
  CacheMax : Z;
  UseReadBehind : Z;
  UseReadAhead : Z;
  HammerVersion : Z;
  files : gmap Z file;
}.

Abbreviation M := (prog state).

(** ** Field updates *)

Definition set_heap (f : gmap positive buffer_info -> gmap positive buffer_info) (s : state) : state :=
  {| VolList := VolList s; heap := f (heap s); next_ptr := next_ptr s; CacheList := CacheList s;
     CacheUse := CacheUse s; CacheMax := CacheMax s; UseReadBehind := UseReadBehind s;
     UseReadAhead := UseReadAhead s; HammerVersion := HammerVersion s; files := files s |}.
Definition set_vols (f : list volume_info -> list volume_info) (s : state) : state :=
  {| VolList := f (VolList s); heap := heap s; next_ptr := next_ptr s; CacheList := CacheList s;
     CacheUse := CacheUse s; CacheMax := CacheMax s; UseReadBehind := UseReadBehind s;
     UseReadAhead := UseReadAhead s; HammerVersion := HammerVersion s; files := files s |}.
Definition set_next_ptr (p : positive) (s : state) : state :=
  {| VolList := VolList s; heap := heap s; next_ptr := p; CacheList := CacheList s;
     CacheUse := CacheUse s; CacheMax := CacheMax s; UseReadBehind := UseReadBehind s;
     UseReadAhead := UseReadAhead s; HammerVersion := HammerVersion s; files := files s |}.
Definition set_cache (l : list positive) (use max : Z) (s : state) : state :=
  {| VolList := VolList s; heap := heap s; next_ptr := next_ptr s; CacheList := l;
     CacheUse := use; CacheMax := max; UseReadBehind := UseReadBehind s;
     UseReadAhead := UseReadAhead s; HammerVersion := HammerVersion s; files := files s |}.
Definition set_files (f : gmap Z file -> gmap Z file) (s : state) : state :=
  {| VolList := VolList s; heap := heap s; next_ptr := next_ptr s; CacheList := CacheList s;
     CacheUse := CacheUse s; CacheMax := CacheMax s; UseReadBehind := UseReadBehind s;
     UseReadAhead := UseReadAhead s; HammerVersion := HammerVersion s; files := f (files s) |}.

Definition set_refs (r : Z) (b : buffer_info) : buffer_info :=
  {| b_refs := r; b_modified := b_modified b; b_delete := b_delete b;
     b_zone2_offset := b_zone2_offset b; b_raw_offset := b_raw_offset b;
     b_volume := b_volume b; b_ondisk := b_ondisk b |}.
Definition set_modified (m : bool) (b : buffer_info) : buffer_info :=
  {| b_refs := b_refs b; b_modified := m; b_delete := b_delete b;
     b_zone2_offset := b_zone2_offset b; b_raw_offset := b_raw_offset b;
     b_volume := b_volume b; b_ondisk := b_ondisk b |}.
Definition set_delete (d : bool) (b : buffer_info) : buffer_info :=
  {| b_refs := b_refs b; b_modified := b_modified b; b_delete := d;
     b_zone2_offset := b_zone2_offset b; b_raw_offset := b_raw_offset b;
     b_volume := b_volume b; b_ondisk := b_ondisk b |}.
Definition set_data (bs : bytes) (b : buffer_info) : buffer_info :=
  {| b_refs := b_refs b; b_modified := b_modified b; b_delete := b_delete b;
     b_zone2_offset := b_zone2_offset b; b_raw_offset := b_raw_offset b;
     b_volume := b_volume b; b_ondisk := bs |}.
Definition set_buffer_lists (l : list (list positive)) (v : volume_info) : volume_info :=
  {| v_name := v_name v; v_regfile := v_regfile v; v_vol_no := v_vol_no v; v_rdonly := v_rdonly v;
     v_fd := v_fd v; v_size := v_size v; v_device_offset := v_device_offset v;
     v_vol_free_off := v_vol_free_off v; v_vol_free_end := v_vol_free_end v;
     v_ondisk := v_ondisk v; v_ondisk_rest := v_ondisk_rest v; v_buffer_lists := l |}.

(** Fields of updated states and buffers. *)
Ltac st_simpl :=
  cbn [VolList heap next_ptr CacheList CacheUse CacheMax UseReadBehind UseReadAhead HammerVersion
       files set_heap set_vols set_next_ptr set_cache set_files
       b_refs b_modified b_delete b_zone2_offset b_raw_offset b_volume b_ondisk
       set_refs set_modified set_delete set_data fst snd] in *.

(** Access through a pointer; [NULL] and freed objects are [Undef]. *)
Definition load_buffer (p : positive) : M buffer_info := s ← get_state; deref (heap s !! p).
Definition update_buffer (f : buffer_info -> buffer_info) (p : positive) : M () :=
  b ← load_buffer p; modify (set_heap <[p := f b]>).
Definition load_volume_ptr (v : nat) : M volume_info := s ← get_state; deref (VolList s !! v).
Definition update_volume (f : volume_info -> volume_info) (v : nat) : M () :=
  vol ← load_volume_ptr v; modify (set_vols <[v := f vol]>).

(** TAILQ operations on a list of elements (see [Queue]). *)
Definition tailq_remove (p : positive) (l : list positive) : list positive := filter (λ q, q ≠ p) l.
Definition tailq_insert_head (p : positive) (l : list positive) : list positive := p :: l.
Definition tailq_insert_tail (p : positive) (l : list positive) : list positive := l ++ [p].

(** ** Volumes *)

Definition find_index (P : volume_info -> bool) : list volume_info -> option nat :=
  fix go l := match l with
              | [] => None
              | v :: l => if P v then Some O else S <$> go l
              end.

Definition get_volume (vol_no : Z) : M (option nat) :=
  s ← get_state; mret (find_index (λ v, bool_decide (v_vol_no v = vol_no)) (VolList s)).
Definition get_root_volume : M (option nat) := get_volume HAMMER_ROOT_VOLNO.

Definition hammer_xlate_to_phys (ondisk : hammer_volume_ondisk) (zone2_offset : Z) : Z :=
  u64 (vol_buf_beg ondisk + HAMMER_OFF_SHORT_ENCODE zone2_offset).
Definition HAMMER_UNDO_INDEX (zone3_offset : Z) : Z :=
  HAMMER_OFF_SHORT_ENCODE zone3_offset / HAMMER_BIGBLOCK_SIZE.
(** [None]: the index is past the array. *)
Definition hammer_xlate_to_undo (ondisk : hammer_volume_ondisk) (zone3_offset : Z) : option Z :=
  base ← vol0_undo_array ondisk !! Z.to_nat (HAMMER_UNDO_INDEX zone3_offset);
  Some (u64 (base + (zone3_offset .& HAMMER_BIGBLOCK_MASK64))).
Definition HAMMER_VOL_BUF_SIZE (ondisk : hammer_volume_ondisk) : Z :=
  vol_buf_end ondisk - vol_buf_beg ondisk.

(** ** Core I/O *)

(** [pread]: the bytes that exist in the range; [pwrite]: how many bytes were stored. *)
Fixpoint file_read (f : file) (offset : Z) (n : nat) : bytes :=
  match n with
  | O => []
  | S n => f_data f offset :: file_read f (offset + 1) n
  end.
Definition pread (f : file) (size : nat) (offset : Z) : option bytes :=
  if bool_decide (offset < 0) then None
  else Some (file_read f offset (Z.to_nat (Z.min (Z.of_nat size) (f_size f - offset)))).
Definition file_write (f : file) (offset : Z) (data : bytes) : file :=
  {| f_size := Z.max (f_size f) (offset + Z.of_nat (length data)); f_growable := f_growable f;
     f_data := λ o, if bool_decide (offset <= o < offset + Z.of_nat (length data))
                    then nth (Z.to_nat (o - offset)) data 0 else f_data f o |}.
Definition pwrite (f : file) (data : bytes) (offset : Z) : option (nat * file) :=
  if bool_decide (offset < 0) then None
  else
    let n := if f_growable f then length data
             else Z.to_nat (Z.min (Z.of_nat (length data)) (f_size f - offset)) in
    Some (n, file_write f offset (take n data)).

(** [__read]: the data, or [None] for -1. *)
Definition __read (v : nat) (offset : Z) (size : nat) : M (option bytes) :=
  vol ← load_volume_ptr v;
  s ← get_state;
  f ← deref (files s !! v_fd vol);
  mret (match pread f size offset with
        | Some data => if bool_decide (length data = size) then Some data else None
        | None => None
        end).

(** [__write]: 0 or -1. *)
Definition __write (v : nat) (data : bytes) (offset : Z) : M Z :=
  vol ← load_volume_ptr v;
  if v_rdonly vol then mret 0
  else
    s ← get_state;
    f ← deref (files s !! v_fd vol);
    match pwrite f data offset with
    | Some (n, f') =>
        modify (set_files <[v_fd vol := f']>);;
        mret (if bool_decide (n = length data) then 0 else -1)
    | None => mret (-1)
    end.

Definition readhammerbuf (v : nat) (raw_offset : Z) : M (option bytes) :=
  __read v raw_offset (Z.to_nat HAMMER_BUFSIZE).
Definition writehammervol (v : nat) : M Z :=
  vol ← load_volume_ptr v;
  __write v (encode (v_ondisk vol) ++ v_ondisk_rest vol) 0.
Definition writehammerbuf (p : positive) : M Z :=
  b ← load_buffer p; __write (b_volume b) (b_ondisk b) (b_raw_offset b).

Definition flush_buffer (p : positive) : M () :=
  r ← writehammerbuf p;
  if bool_decide (r = -1) then stop_with (Exit 1)
  else update_buffer (set_modified false) p.

(** ** The cache list (cache.c)

    [CacheUse] and [CacheMax] are an [int] there; here they have no bound: 2^31 bytes are
    131072 buffers, and [hammer_cache_flush] keeps the list far below that unless as many
    are referenced at a time. *)

Definition hammer_cache_add (p : positive) : M () :=
  modify (λ s, set_cache (tailq_insert_head p (CacheList s)) (CacheUse s + HAMMER_BUFSIZE) (CacheMax s) s).
Definition hammer_cache_del (p : positive) : M () :=
  modify (λ s, set_cache (tailq_remove p (CacheList s)) (CacheUse s - HAMMER_BUFSIZE) (CacheMax s) s).
Definition hammer_cache_used (p : positive) : M () :=
  modify (λ s, set_cache (tailq_insert_tail p (tailq_remove p (CacheList s))) (CacheUse s) (CacheMax s) s).

Definition HAMMER_BUFLISTS : Z := 64.
Definition HAMMER_BUFLISTMASK : Z := HAMMER_BUFLISTS - 1.
Definition buffer_hash (zone2_offset : Z) : Z :=
  s32 (zone2_offset / HAMMER_BUFSIZE) .& HAMMER_BUFLISTMASK.

(** Replace the list of bucket [hi] of volume [v]. *)
Definition update_bucket (f : list positive -> list positive) (v : nat) (hi : Z) : M () :=
  update_volume (λ vol, set_buffer_lists (alter f (Z.to_nat hi) (v_buffer_lists vol)) vol) v.

Definition rel_buffer (buffer : option positive) : M () :=
  match buffer with
  | None => mret ()
  | Some p =>
      b ← load_buffer p;
      assertp (bool_decide (0 < b_refs b));;
      update_buffer (set_refs (b_refs b - 1)) p;;
      when (bool_decide (b_refs b - 1 = 0) && b_delete b)
        (let hi := buffer_hash (b_zone2_offset b) in
         when (b_modified b) (flush_buffer p);;
         update_bucket (tailq_remove p) (b_volume b) hi;;
         hammer_cache_del p;;
         modify (set_heap (delete p)))
  end.

(** The [while] loop of [hammer_cache_flush]; [first] is the first referenced buffer
    seen. *)
Fixpoint cache_flush_loop (fuel : nat) (first : option positive) (count : Z) : M () :=
  match fuel with
  | O => stop_with OutOfFuel
  | S fuel =>
      s ← get_state;
      match CacheList s with
      | [] => mret ()
      | cache :: _ =>
          if bool_decide (first = Some cache) then mret ()
          else
            b ← load_buffer cache;
            if bool_decide (b_refs b ≠ 0) then
              hammer_cache_used cache;;
              cache_flush_loop fuel (match first with None => Some cache | _ => first end) (count + 1)
            else
              let grow := bool_decide (CacheUse s / HAMMER_BUFSIZE <= count) in
              when grow (modify (λ s, set_cache (CacheList s) (CacheUse s)
                                        (CacheMax s + HAMMER_BUFSIZE * 512) s));;
              update_buffer (λ b, set_delete true (set_refs 1 b)) cache;;
              rel_buffer (Some cache);;
              s ← get_state;
              if bool_decide (CacheUse s < CacheMax s / 2) then mret ()
              else cache_flush_loop fuel first (if grow then 0 else count)
      end
  end.

(** Each turn removes a buffer from the list or rotates it past [first], so one more turn
    than there are buffers is enough (see [hammer_cache_flush_spec]). *)
Definition hammer_cache_flush : M () :=
  s ← get_state;
  when (bool_decide (CacheMax s <= CacheUse s))
    (cache_flush_loop (S (length (CacheList s))) None 0).

(** ** Buffers *)

(** [assert(p)] for a pointer that is then used. *)
Definition assert_ptr {A} (o : option A) : M A :=
  match o with Some a => mret a | None => stop_with AssertFail end.

Fixpoint find_in_bucket (zone2_offset : Z) (l : list positive) : M (option positive) :=
  match l with
  | [] => mret None
  | p :: l =>
      b ← load_buffer p;
      if bool_decide (b_zone2_offset b = zone2_offset) then mret (Some p)
      else find_in_bucket zone2_offset l
  end.

Definition find_buffer (zone2_offset : Z) : M (option positive) :=
  volume ← get_volume (HAMMER_VOL_DECODE zone2_offset);
  v ← assert_ptr volume;
  vol ← load_volume_ptr v;
  bucket ← deref (v_buffer_lists vol !! Z.to_nat (buffer_hash zone2_offset));
  find_in_bucket zone2_offset bucket.

(** [calloc] of a buffer: a pointer that was never used. *)
Definition new_buffer (b : buffer_info) : M positive :=
  s ← get_state;
  modify (set_next_ptr (Pos.succ (next_ptr s)));;
  modify (set_heap <[next_ptr s := b]>);;
  mret (next_ptr s).

Definition zero_block : bytes := replicate (Z.to_nat HAMMER_BUFSIZE) 0.

Definition __alloc_buffer (zone2_offset isnew : Z) : M positive :=
  volume ← get_volume (HAMMER_VOL_DECODE zone2_offset);
  v ← assert_ptr volume;
  vol ← load_volume_ptr v;
  let raw_offset := s64 (hammer_xlate_to_phys (v_ondisk vol) zone2_offset) in
  ondisk ← (if bool_decide (isnew <= 0) then
              r ← readhammerbuf v raw_offset;
              match r with
              | None => stop_with (Exit 1)
              | Some data => mret data
              end
            else mret zero_block);
  p ← new_buffer {| b_refs := 0; b_modified := false; b_delete := false;
                    b_zone2_offset := zone2_offset; b_raw_offset := raw_offset;
                    b_volume := v; b_ondisk := ondisk |};
  update_bucket (tailq_insert_tail p) v (buffer_hash zone2_offset);;
  hammer_cache_add p;;
  mret p.

(** The part of [get_buffer] after the translation, down to the read-ahead: the buffer and
    whether to read ahead ([dora]). *)
Definition get_buffer_zone2 (zone2_offset isnew : Z) : M (positive * bool) :=
  let zone2_offset := zone2_offset .& bnot 64 HAMMER_BUFMASK64 in
  found ← find_buffer zone2_offset;
  pd ← (match found with
        | None => p ← __alloc_buffer zone2_offset isnew; mret (p, bool_decide (isnew = 0))
        | Some p => assertp (bool_decide (isnew ≠ -1));; hammer_cache_used p;; mret (p, false)
        end);
  let p := fst pd in
  update_buffer (λ b, set_refs (b_refs b + 1) b) p;;
  hammer_cache_flush;;
  when (bool_decide (0 < isnew))
    (b ← load_buffer p;
     assertp (negb (b_modified b));;
     update_buffer (λ b, set_modified true (set_data zero_block b)) p);;
  mret pd.

(** The loop of [get_buffer_readahead] from index [ri], of which [n] are left.  The
    nested [get_buffer] is called with a zone-2 offset, which needs no translation, and
    with -1, which does not read ahead again. *)
Fixpoint readahead_loop (n : nat) (v : nat) (ri raw_offset : Z) : M () :=
  match n with
  | O => mret ()
  | S n =>
      vol ← load_volume_ptr v;
      if bool_decide (vol_buf_end (v_ondisk vol) <= raw_offset) then mret ()
      else if bool_decide (raw_offset < vol_buf_beg (v_ondisk vol)) || bool_decide (ri = 0) then
        readahead_loop n v (ri + 1) (raw_offset + HAMMER_BUFSIZE)
      else
        let zone2_offset :=
          HAMMER_ENCODE_RAW_BUFFER (v_vol_no vol) (raw_offset - vol_buf_beg (v_ondisk vol)) in
        found ← find_buffer zone2_offset;
        (match found with
         | None => pd ← get_buffer_zone2 zone2_offset (-1); rel_buffer (Some (fst pd))
         | Some _ => mret ()
         end);;
        readahead_loop n v (ri + 1) (raw_offset + HAMMER_BUFSIZE)
  end.

Definition get_buffer_readahead (base : positive) : M () :=
  s ← get_state;
  b ← load_buffer base;
  readahead_loop (Z.to_nat (UseReadAhead s - UseReadBehind s)) (b_volume b)
    (UseReadBehind s) (b_raw_offset b + UseReadBehind s * HAMMER_BUFSIZE).

(** A pointer into a buffer's data and the buffer it was loaded into ([bufferp] after the
    call); [None] when both are NULL. *)
Abbreviation data_ptr := (positive * Z)%type.

(** The structure a data pointer points to; past the 16 KB is undefined. *)
Definition load_struct (A : Type) `{OnDisk A} (d : data_ptr) : M A :=
  b ← load_buffer (fst d);
  if bool_decide (0 <= snd d) && bool_decide (snd d + Z.of_nat (sizeof A) <= Z.of_nat (length (b_ondisk b)))
  then mret (read_at A (b_ondisk b) (Z.to_nat (snd d))) else stop_with Undef.
(** Stores to raw memory, [bzero] among them. *)
Definition store_bytes (d : data_ptr) (bs : bytes) : M () :=
  b ← load_buffer (fst d);
  if bool_decide (0 <= snd d) && bool_decide (snd d + Z.of_nat (length bs) <= Z.of_nat (length (b_ondisk b)))
  then update_buffer (set_data (splice (b_ondisk b) (Z.to_nat (snd d)) bs)) (fst d)
  else stop_with Undef.
Definition bzero (d : data_ptr) (n : Z) : M () := store_bytes d (replicate (Z.to_nat n) 0).
Definition store_struct {A : Type} `{OnDisk A} (d : data_ptr) (a : A) : M () := store_bytes d (encode a).

(** The results of [blockmap_lookup_save]: the offset, [*errorp], [*save_layer1] and
    [*save_layer2]. *)
Record lookup_result := {
  lr_offset : Z;
  lr_error : Z;
  lr_layer1 : hammer_blockmap_layer1;
  lr_layer2 : hammer_blockmap_layer2;
}.

Section lookup.
(** [get_buffer_data], which the lookup calls and which calls it. *)
Context (get_buffer_data : Z -> option positive -> Z -> M (option data_ptr)).

(** From "Dive layer 1" on; [done:] releases both buffers. *)
Definition lookup_layers (zone result_offset : Z) (ondisk : hammer_volume_ondisk) : M lookup_result :=
  let z1 := zeroed hammer_blockmap_layer1 in
  let z2 := zeroed hammer_blockmap_layer2 in
  freemap ← deref (vol0_blockmap ondisk !! Z.to_nat HAMMER_ZONE_FREEMAP_INDEX);
  d1 ← get_buffer_data (u64 (bm_phys_offset freemap + HAMMER_BLOCKMAP_LAYER1_OFFSET result_offset)) None 0;
  match d1 with
  | None => mret (Build_lookup_result result_offset (-5) z1 z2)
  | Some p1 =>
      layer1 ← load_struct hammer_blockmap_layer1 p1;
      if bool_decide (l1_phys_offset layer1 = HAMMER_BLOCKMAP_UNAVAIL) then
        rel_buffer (Some (fst p1));;
        mret (Build_lookup_result result_offset (-6) z1 z2)
      else
        d2 ← get_buffer_data (u64 (l1_phys_offset layer1 + HAMMER_BLOCKMAP_LAYER2_OFFSET result_offset)) None 0;
        match d2 with
        | None =>
            rel_buffer (Some (fst p1));;
            mret (Build_lookup_result result_offset (-7) layer1 z2)
        | Some p2 =>
            layer2 ← load_struct hammer_blockmap_layer2 p2;
            rel_buffer (Some (fst p1));;
            rel_buffer (Some (fst p2));;
            mret (if bool_decide (l2_zone layer2 ≠ zone)
                  then Build_lookup_result result_offset (-8) layer1 z2
                  else Build_lookup_result result_offset 0 layer1 layer2)
        end
  end.

Definition blockmap_lookup_save (zone_offset : Z) : M lookup_result :=
  let fail result error := mret (Build_lookup_result result error (zeroed _) (zeroed _)) in
  let zone := HAMMER_ZONE_DECODE zone_offset in
  if bool_decide (zone <= HAMMER_ZONE_RAW_VOLUME_INDEX) then fail HAMMER_OFF_BAD (-1)
  else if bool_decide (HAMMER_MAX_ZONES <= zone) then fail HAMMER_OFF_BAD (-2)
  else
    root_volume ← get_root_volume;
    v ← deref root_volume;
    vol ← load_volume_ptr v;
    let ondisk := v_ondisk vol in
    blockmap ← deref (vol0_blockmap ondisk !! Z.to_nat zone);
    if hammer_is_index_record zone then
      let result_offset := hammer_xlate_to_zone2 zone_offset in
      if bool_decide (HAMMER_ZONE_DECODE (bm_alloc_offset blockmap) ≠ zone)
      then fail result_offset (-4)
      else lookup_layers zone result_offset ondisk
    else if bool_decide (zone = HAMMER_ZONE_UNDO_INDEX) then
      if bool_decide (bm_alloc_offset blockmap <= zone_offset) then fail HAMMER_OFF_BAD (-3)
      else
        result_offset ← deref (hammer_xlate_to_undo ondisk zone_offset);
        lookup_layers zone result_offset ondisk
    else lookup_layers zone zone_offset ondisk.

(** The offset and [*errorp]. *)
Definition blockmap_lookup (zone_offset : Z) : M (Z * Z) :=
  r ← blockmap_lookup_save zone_offset; mret (lr_offset r, lr_error r).

Definition __blockmap_xlate_to_zone2 (buf_offset : Z) : M Z :=
  re ← (if hammer_is_zone_raw_buffer buf_offset then mret (buf_offset, 0)
        else blockmap_lookup buf_offset);
  if bool_decide (snd re ≠ 0) then mret HAMMER_OFF_BAD
  else assertp (hammer_is_zone_raw_buffer (fst re));; mret (fst re).

Definition get_buffer (buf_offset isnew : Z) : M (option positive) :=
  zone2_offset ← __blockmap_xlate_to_zone2 buf_offset;
  if bool_decide (zone2_offset = HAMMER_OFF_BAD) then mret None
  else
    pd ← get_buffer_zone2 zone2_offset isnew;
    when (snd pd) (get_buffer_readahead (fst pd));;
    mret (Some (fst pd)).

(** The difference between an offset and the buffer at hand, above the buffer mask: not
    zero when the buffer does not hold the offset. *)
Definition buffer_xor (buf_offset : Z) (p : positive) : M Z :=
  b ← load_buffer p;
  if hammer_is_zone_undo buf_offset then
    vol ← load_volume_ptr (b_volume b);
    off ← deref (hammer_xlate_to_undo (v_ondisk vol) buf_offset);
    mret (off .^ b_zone2_offset b)
  else if hammer_is_zone_direct_xlated buf_offset then
    mret (HAMMER_OFF_LONG_ENCODE buf_offset .^ HAMMER_OFF_LONG_ENCODE (b_zone2_offset b))
  else stop_with AssertFail.

Definition get_buffer_data_body (buf_offset : Z) (bufferp : option positive) (isnew : Z) : M (option data_ptr) :=
  kept ← (match bufferp with
          | None => mret None
          | Some p =>
              x ← buffer_xor buf_offset p;
              if bool_decide (0 < isnew) || bool_decide (x .& bnot 64 HAMMER_BUFMASK64 ≠ 0) then
                rel_buffer (Some p);; mret None
              else hammer_cache_used p;; mret (Some p)
          end);
  p ← (match kept with
       | None => get_buffer buf_offset isnew
       | Some p => mret (Some p)
       end);
  mret (p' ← p; Some (p', s32 buf_offset .& HAMMER_BUFMASK)).
End lookup.

(** [get_buffer_data]; the fuel is the depth of nested translations. *)
Fixpoint get_buffer_data_n (fuel : nat) (buf_offset : Z) (bufferp : option positive) (isnew : Z)
    : M (option data_ptr) :=
  match fuel with
  | O => stop_with OutOfFuel
  | S fuel => get_buffer_data_body (get_buffer_data_n fuel) buf_offset bufferp isnew
  end.

(** A translation reads layer 1 and layer 2; on a sound volume both are zone-2 offsets,
    which are not translated again, so the depth is two.  On a damaged volume, where
    layer 1 entries lead to zone-8 offsets, it may be deeper or endless. *)
Definition LOOKUP_DEPTH : nat := 16.
Definition get_buffer_data : Z -> option positive -> Z -> M (option data_ptr) :=
  get_buffer_data_n LOOKUP_DEPTH.

(** ** Flushing *)

Fixpoint mapM_ {A} (f : A -> M ()) (l : list A) : M () :=
  match l with
  | [] => mret ()
  | a :: l => f a;; mapM_ f l
  end.

Definition flush_volume (v : nat) : M () :=
  vol ← load_volume_ptr v;
  mapM_ (mapM_ flush_buffer) (v_buffer_lists vol);;
  r ← writehammervol v;
  if bool_decide (r = -1) then stop_with (Exit 1) else mret ().

Definition flush_all_volumes : M () :=
  s ← get_state; mapM_ flush_volume (seq 0 (length (VolList s))).

Definition assert_free_range {St} (vol_free_off vol_free_end : Z) : prog St () :=
  assertp (hammer_is_zone_raw_buffer vol_free_off);;
  assertp (hammer_is_zone_raw_buffer vol_free_end);;
  if bool_decide (vol_free_end <= vol_free_off) then stop_with (Exit 1)
  else mret ().
Definition assert_volume_offset (volume : volume_info) : M () :=
  assert_free_range (v_vol_free_off volume) (v_vol_free_end volume).
