(* ===== verification/CacheInv.v ===== *)
(** * CacheInv: the invariant of the buffer cache, and eviction

    What a user of the cache relies on: every aligned 16 KB block of a volume has one
    content ([view]), which is that of its buffer if it has one and else that of the file.
    The invariant [wf] ties the five places a buffer is known from (the heap, its hash
    bucket, the LRU list, the use counter, the file) together.  [ext] is the preorder in
    which the state may move without a holder of references noticing: same geometry, same
    view, held buffers stay.  The main result is [hammer_cache_flush_spec]: eviction
    terminates, keeps [wf] and moves in [ext]. *)

From S2P Require Import Prelude HammerDisk Layout CMonad Ondisk.

(** ** Geometry *)

Definition strip (v : volume_info) : volume_info := set_buffer_lists [] v.
(** The volumes without their buffer lists: nothing here changes it. *)
Definition geo (s : state) : list volume_info := strip <$> VolList s.

Definition raw_of (vol : volume_info) (z2 : Z) : Z := s64 (hammer_xlate_to_phys (v_ondisk vol) z2).

(** [z2] is the address of a whole block of [vol]. *)
Definition on_volume (vol : volume_info) (z2 : Z) : Prop :=
  in_u 64 z2 /\ z2 / 2 ^ 60 = 2 /\ z2 mod HAMMER_BUFSIZE = 0 /\ HAMMER_VOL_DECODE z2 = v_vol_no vol /\
  z2 mod 2 ^ 52 + HAMMER_BUFSIZE <= HAMMER_VOL_BUF_SIZE (v_ondisk vol).

Definition file_block (fs : gmap Z file) (vol : volume_info) (z2 : Z) : bytes :=
  match fs !! v_fd vol with
  | Some f => file_read f (raw_of vol z2) (Z.to_nat HAMMER_BUFSIZE)
  | None => []
  end.

Definition vol_ok (fs : gmap Z file) (vol : volume_info) : Prop :=
  in_u 8 (v_vol_no vol) /\
  HAMMER_BUFSIZE <= vol_buf_beg (v_ondisk vol) /\
  HAMMER_VOL_BUF_SIZE (v_ondisk vol) mod HAMMER_BUFSIZE = 0 /\
  0 <= HAMMER_VOL_BUF_SIZE (v_ondisk vol) <= 2 ^ 52 /\
  exists f, fs !! v_fd vol = Some f /\ (forall o, in_u 8 (f_data f o)) /\
    vol_buf_end (v_ondisk vol) <= f_size f < 2 ^ 63.

(** ** The view *)

Definition cached (s : state) (z2 : Z) : option buffer_info :=
  snd <$> head (filter (λ pb, b_zone2_offset (snd pb) = z2) (map_to_list (heap s))).
Definition volume_at (s : state) (z2 : Z) : option volume_info :=
  i ← find_index (λ v, bool_decide (v_vol_no v = HAMMER_VOL_DECODE z2)) (geo s); geo s !! i.
Definition view (s : state) (z2 : Z) : bytes :=
  match cached s z2, volume_at s z2 with
  | Some b, _ => b_ondisk b
  | None, Some vol => file_block (files s) vol z2
  | None, None => []
  end.

Definition valid_block (s : state) (z2 : Z) : Prop :=
  exists i vol, geo s !! i = Some vol /\ on_volume vol z2.

(** ** The invariant *)

Definition buf_ok (s : state) (b : buffer_info) : Prop :=
  0 <= b_refs b /\ b_delete b = false /\
  length (b_ondisk b) = Z.to_nat HAMMER_BUFSIZE /\ bytes_ok (b_ondisk b) /\
  exists vol, geo s !! b_volume b = Some vol /\ on_volume vol (b_zone2_offset b) /\
    b_raw_offset b = raw_of vol (b_zone2_offset b) /\
    (b_modified b = true -> v_rdonly vol = false) /\
    (b_modified b = false -> b_refs b = 0 -> b_ondisk b = file_block (files s) vol (b_zone2_offset b)).

Definition bucket_of (b : buffer_info) : nat := Z.to_nat (buffer_hash (b_zone2_offset b)).

Record wf (s : state) : Prop := {
  wf_volno : NoDup (v_vol_no <$> geo s);
  wf_fd : NoDup (v_fd <$> geo s);
  wf_vol : forall i vol, geo s !! i = Some vol -> vol_ok (files s) vol;
  wf_lists : forall i vol, VolList s !! i = Some vol -> length (v_buffer_lists vol) = 64%nat;
  wf_buf : forall p b, heap s !! p = Some b -> buf_ok s b;
  wf_bucket : forall i vol h l, VolList s !! i = Some vol -> v_buffer_lists vol !! h = Some l ->
    NoDup l /\ forall p, p ∈ l <-> exists b, heap s !! p = Some b /\ b_volume b = i /\ bucket_of b = h;
  wf_uniq : forall p q b c, heap s !! p = Some b -> heap s !! q = Some c ->
    b_zone2_offset b = b_zone2_offset c -> p = q;
  wf_nodup : NoDup (CacheList s);
  wf_dom : forall p, p ∈ CacheList s <-> is_Some (heap s !! p);
  wf_use : CacheUse s = HAMMER_BUFSIZE * Z.of_nat (length (CacheList s));
  wf_ptr : forall p, is_Some (heap s !! p) -> (p < next_ptr s)%positive;
}.

(** ** The preorder of unnoticeable steps *)

Definition refs (s : state) (p : positive) : Z :=
  match heap s !! p with Some b => b_refs b | None => 0 end.

(** The blocks in [W] may get another content; a pointer never comes to stand for another
    block. *)
Record ext (W : Z -> Prop) (s s' : state) : Prop := {
  ext_geo : geo s' = geo s;
  ext_version : HammerVersion s' = HammerVersion s;
  ext_behind : UseReadBehind s' = UseReadBehind s;
  ext_ahead : UseReadAhead s' = UseReadAhead s;
  ext_view : forall z2, valid_block s z2 -> ~ W z2 -> view s' z2 = view s z2;
  ext_next : (next_ptr s <= next_ptr s')%positive;
  ext_stable : forall p b', heap s' !! p = Some b' ->
    (next_ptr s <= p)%positive \/
    exists b, heap s !! p = Some b /\ b_zone2_offset b' = b_zone2_offset b;
}.

(** A buffer that is not flagged [modified] agrees with the file. *)
Definition settled (s : state) (p : positive) : Prop :=
  forall b vol, heap s !! p = Some b -> geo s !! b_volume b = Some vol -> b_modified b = false ->
    b_ondisk b = file_block (files s) vol (b_zone2_offset b).

(** Buffer [p] is still there; only its count may differ. *)
Definition kept (s s' : state) (p : positive) : Prop :=
  (forall b, heap s !! p = Some b -> exists r, heap s' !! p = Some (set_refs r b)) /\
  (settled s p -> settled s' p).

(** A step in [ext] that takes [d p] references of [p], and leaves the buffers that are
    held before and after. *)
Record moved (W : Z -> Prop) (d : positive -> Z) (s s' : state) : Prop := {
  moved_ext : ext W s s';
  moved_refs : forall p, refs s' p = refs s p + d p;
  moved_kept : forall p, 0 < refs s p -> 0 < refs s' p ->
    (forall b, heap s !! p = Some b -> ~ W (b_zone2_offset b)) -> kept s s' p;
}.

Definition no_refs : positive -> Z := λ _, 0.
Definition one_ref (p : positive) : positive -> Z := λ q, if decide (q = p) then 1 else 0.
Definition no_block : Z -> Prop := λ _, False.
Abbreviation quiet := (moved no_block no_refs).

(** ** Addresses *)

Lemma raw_of_eq fs vol z2 :
  vol_ok fs vol -> on_volume vol z2 -> raw_of vol z2 = vol_buf_beg (v_ondisk vol) + z2 mod 2 ^ 52.
Proof.
  intros (_ & Hbeg & _ & Hsz & f & _ & _ & Hend) (_ & _ & _ & _ & Hr).
  unfold raw_of, hammer_xlate_to_phys, HAMMER_VOL_BUF_SIZE, HAMMER_BUFSIZE in *. rewrite short_encode_mod.
  pose proof (Z.mod_pos_bound z2 (2 ^ 52)).
  rewrite uwrap_small by (unfold in_u; lia). apply swrap_small; unfold in_s; lia.
Qed.

Lemma on_volume_inj vol z2 z2' :
  on_volume vol z2 -> on_volume vol z2' -> z2 mod 2 ^ 52 = z2' mod 2 ^ 52 -> z2 = z2'.
Proof.
  intros (Hu & Hz & _ & Hv & _) (Hu' & Hz' & _ & Hv' & _) Hm.
  rewrite vol_decode_div in Hv, Hv' by done. unfold in_u in *. dlia.
Qed.

(** Blocks of one volume do not overlap. *)
Lemma blocks_apart fs vol z2 z2' :
  vol_ok fs vol -> on_volume vol z2 -> on_volume vol z2' -> z2 ≠ z2' ->
  HAMMER_BUFSIZE <= Z.abs (raw_of vol z2 - raw_of vol z2').
Proof.
  intros Hok H H' Hne. rewrite !(raw_of_eq fs) by done.
  assert (z2 mod 2 ^ 52 <> z2' mod 2 ^ 52) by (intros ?; by apply Hne, (on_volume_inj vol)).
  destruct H as (_ & _ & Ha & _), H' as (_ & _ & Ha' & _). unfold HAMMER_BUFSIZE in *. dlia.
Qed.

(** ** Files *)

Lemma length_file_read f o n : length (file_read f o n) = n.
Proof. revert o. induction n as [|n IH]; intros o; [done|]. cbn. by rewrite IH. Qed.

Lemma lookup_file_read f o n i : (i < n)%nat -> file_read f o n !! i = Some (f_data f (o + Z.of_nat i)).
Proof.
  revert o i. induction n as [|n IH]; intros o i Hi; [lia|]. destruct i as [|i]; cbn.
  - by rewrite Z.add_0_r.
  - rewrite IH by lia. do 2 f_equal. lia.
Qed.

Lemma file_read_ok f o n : (forall i, in_u 8 (f_data f i)) -> bytes_ok (file_read f o n).
Proof. intros Hf. revert o. induction n as [|n IH]; intros o; constructor; [apply Hf|apply IH]. Qed.

Lemma file_read_write_same f o data : file_read (file_write f o data) o (length data) = data.
Proof.
  apply list_eq_same_length with (length data); [done|by rewrite length_file_read|].
  intros i x y Hi Hx Hy. rewrite lookup_file_read in Hx by done. simplify_eq/=.
  rewrite bool_decide_eq_true_2 by lia.
  replace (Z.to_nat (o + Z.of_nat i - o)) with i by lia.
  by apply nth_lookup_Some.
Qed.

Lemma file_read_write_apart f o data o' n :
  o' + Z.of_nat n <= o \/ o + Z.of_nat (length data) <= o' ->
  file_read (file_write f o data) o' n = file_read f o' n.
Proof.
  intros Ho. apply list_eq_same_length with n; [by rewrite length_file_read..|].
  intros i x y Hi Hx Hy. rewrite lookup_file_read in Hx, Hy by done. simplify_eq/=.
  by rewrite bool_decide_eq_false_2 by lia.
Qed.

Lemma file_write_ok f o data :
  bytes_ok data -> (forall i, in_u 8 (f_data f i)) -> forall i, in_u 8 (f_data (file_write f o data) i).
Proof.
  intros Hd Hf i. cbn [f_data file_write]. case_bool_decide; [|done].
  apply Forall_nth; [done|lia].
Qed.

Lemma pwrite_full f data o :
  0 <= o -> o + Z.of_nat (length data) <= f_size f ->
  pwrite f data o = Some (length data, file_write f o data).
Proof.
  intros Ho Hs. unfold pwrite. rewrite bool_decide_eq_false_2 by lia.
  replace (if f_growable f then _ else _) with (length data); [by rewrite firstn_all|].
  destruct (f_growable f); lia.
Qed.

Lemma pread_full f o n :
  0 <= o -> o + Z.of_nat n <= f_size f -> pread f n o = Some (file_read f o n).
Proof.
  intros Ho Hs. unfold pread. rewrite bool_decide_eq_false_2 by lia.
  by rewrite Z.min_l, Nat2Z.id by lia.
Qed.

(** ** The view, under the invariant *)

Lemma find_index_unique (P : volume_info -> bool) l i v :
  l !! i = Some v -> P v = true -> (forall j w, l !! j = Some w -> P w = true -> j = i) ->
  find_index P l = Some i.
Proof.
  revert i. induction l as [|x l IH]; intros i Hi Hp Hu; [done|]. cbn [find_index].
  destruct (P x) eqn:E; [by rewrite (Hu O x)|].
  destruct i as [|i]; [simplify_eq/=; congruence|].
  rewrite (IH i); [done..|]. intros j w Hj Hw. specialize (Hu (S j) w Hj Hw). lia.
Qed.

Lemma nodup_fmap_inj {A B} (f : A -> B) (l : list A) i j x y :
  NoDup (f <$> l) -> l !! i = Some x -> l !! j = Some y -> f x = f y -> i = j.
Proof.
  intros Hn Hi Hj Hf. eapply (NoDup_lookup (f <$> l)); [done|..].
  - rewrite list_lookup_fmap, Hi. done.
  - rewrite list_lookup_fmap, Hj. cbn. congruence.
Qed.

Lemma geo_lookup s i : geo s !! i = strip <$> VolList s !! i.
Proof. apply list_lookup_fmap. Qed.

Lemma get_volume_eq s n : find_index (λ v, bool_decide (v_vol_no v = n)) (VolList s) =
  find_index (λ v, bool_decide (v_vol_no v = n)) (geo s).
Proof.
  unfold geo. induction (VolList s) as [|v l IH]; [done|]. rewrite fmap_cons. cbn [find_index].
  destruct v; cbn. case_bool_decide; [done|]. by rewrite IH.
Qed.

Lemma find_volume s i vol :
  wf s -> geo s !! i = Some vol ->
  find_index (λ v, bool_decide (v_vol_no v = v_vol_no vol)) (geo s) = Some i.
Proof.
  intros Hwf Hi. eapply find_index_unique; [done|by apply bool_decide_eq_true_2|].
  intros j w Hj Hw%bool_decide_eq_true. by eapply (nodup_fmap_inj v_vol_no); [apply wf_volno| | |].
Qed.

Lemma volume_at_eq s i vol z2 :
  wf s -> geo s !! i = Some vol -> HAMMER_VOL_DECODE z2 = v_vol_no vol -> volume_at s z2 = Some vol.
Proof. intros Hwf Hi Hv. unfold volume_at. rewrite Hv, (find_volume s i) by done. done. Qed.

Lemma cached_None s z2 :
  (forall p b, heap s !! p = Some b -> b_zone2_offset b ≠ z2) -> cached s z2 = None.
Proof.
  intros H. unfold cached. destruct (filter _ _) as [|[p b] l] eqn:E; [done|].
  assert ((p, b) ∈ (p, b) :: l) as Hin by left. rewrite <- E in Hin.
  apply list_elem_of_filter in Hin as [Hz Hin%elem_of_map_to_list]. by destruct (H p b Hin).
Qed.

Lemma cached_Some s p b :
  (forall q c, heap s !! q = Some c -> b_zone2_offset c = b_zone2_offset b -> q = p) ->
  heap s !! p = Some b -> cached s (b_zone2_offset b) = Some b.
Proof.
  intros Hu Hp. unfold cached. destruct (filter _ _) as [|[q c] l] eqn:E.
  - assert ((p, b) ∈ filter (λ pb : positive * buffer_info, b_zone2_offset pb.2 = b_zone2_offset b)
      (map_to_list (heap s))) as Hin by (apply list_elem_of_filter; split; [done|by apply elem_of_map_to_list]).
    rewrite E in Hin. by apply not_elem_of_nil in Hin.
  - assert ((q, c) ∈ (q, c) :: l) as Hin by left. rewrite <- E in Hin.
    apply list_elem_of_filter in Hin as [Hz Hin%elem_of_map_to_list]. cbn in *.
    rewrite (Hu q c Hin Hz) in Hin. congruence.
Qed.

Lemma view_cached s p b : wf s -> heap s !! p = Some b -> view s (b_zone2_offset b) = b_ondisk b.
Proof.
  intros Hwf Hp. unfold view. rewrite (cached_Some s p b); [done| |done].
  intros q c Hq Hz. by eapply wf_uniq.
Qed.

Lemma view_file s i vol z2 :
  wf s -> (forall p b, heap s !! p = Some b -> b_zone2_offset b ≠ z2) ->
  geo s !! i = Some vol -> HAMMER_VOL_DECODE z2 = v_vol_no vol -> view s z2 = file_block (files s) vol z2.
Proof. intros Hwf Hn Hi Hv. unfold view. by rewrite cached_None, (volume_at_eq s i vol). Qed.

Lemma view_cases s i vol z2 :
  wf s -> geo s !! i = Some vol -> HAMMER_VOL_DECODE z2 = v_vol_no vol ->
  (exists p b, heap s !! p = Some b /\ b_zone2_offset b = z2 /\ view s z2 = b_ondisk b) \/
  ((forall p b, heap s !! p = Some b -> b_zone2_offset b ≠ z2) /\
   view s z2 = file_block (files s) vol z2).
Proof.
  intros Hwf Hi Hv.
  destruct (decide (map_Exists (λ _ b, b_zone2_offset b = z2) (heap s))) as [(p & b & Hp & Hz)|Hn].
  - left. exists p, b. split_and!; [done..|]. rewrite <- Hz. by eapply view_cached.
  - assert (forall p b, heap s !! p = Some b -> b_zone2_offset b ≠ z2) as Hn'.
    { intros p b Hp Hz. apply Hn. by exists p, b. }
    right. split; [done|]. by eapply view_file.
Qed.

(** ** Writing a buffer out *)

Definition write_out (fs : gmap Z file) (vol : volume_info) (b : buffer_info) : gmap Z file :=
  if v_rdonly vol then fs
  else match fs !! v_fd vol with
       | Some f => <[v_fd vol := file_write f (b_raw_offset b) (b_ondisk b)]> fs
       | None => fs
       end.

Definition flushed (p : positive) (b : buffer_info) (vol : volume_info) (s : state) : state :=
  set_heap <[p := set_modified false b]> (set_files (λ fs, write_out fs vol b) s).

(** Volume, geometry and file behind a buffer of a sound state. *)
Lemma buf_volume s p b :
  wf s -> heap s !! p = Some b ->
  exists vol f, VolList s !! b_volume b = Some vol /\ geo s !! b_volume b = Some (strip vol) /\
    vol_ok (files s) (strip vol) /\ on_volume (strip vol) (b_zone2_offset b) /\
    b_raw_offset b = raw_of vol (b_zone2_offset b) /\ files s !! v_fd vol = Some f /\
    0 <= b_raw_offset b /\ b_raw_offset b + Z.of_nat (length (b_ondisk b)) <= f_size f.
Proof.
  intros Hwf Hp. destruct (wf_buf s Hwf p b Hp) as (_ & _ & Hl & _ & vol & Hg & Ho & Hr & _).
  pose proof (wf_vol s Hwf _ _ Hg) as Hv. rewrite geo_lookup in Hg.
  destruct (VolList s !! b_volume b) as [vol'|] eqn:Hvol; [|done]. simplify_eq/=.
  pose proof Hv as (_ & Hb & _ & _ & f & Hf & _ & Hs). exists vol', f.
  rewrite geo_lookup, Hvol. split_and!; [done..| |].
  - rewrite Hr. erewrite raw_of_eq by done. unfold HAMMER_BUFSIZE in *. dlia.
  - rewrite Hr, Hl. erewrite raw_of_eq by done. destruct Ho as (_ & _ & _ & _ & Ho).
    unfold HAMMER_VOL_BUF_SIZE, HAMMER_BUFSIZE in *. lia.
Qed.

Lemma set_files_id s f : f (files s) = files s -> set_files f s = s.
Proof. destruct s. unfold set_files. cbn. by intros ->. Qed.

Lemma flush_buffer_eq s p b vol f :
  heap s !! p = Some b -> VolList s !! b_volume b = Some vol -> files s !! v_fd vol = Some f ->
  0 <= b_raw_offset b -> b_raw_offset b + Z.of_nat (length (b_ondisk b)) <= f_size f ->
  flush_buffer p s = Ok () (flushed p b vol s).
Proof.
  intros Hp Hv Hf Hr Hs.
  unfold flush_buffer, writehammerbuf, __write, load_volume_ptr, update_buffer, load_buffer, deref,
    get_state, modify, flushed, write_out, mbind, prog_bind, mret, prog_ret.
  rewrite Hp, Hv. destruct (v_rdonly vol); cbn [VolList].
  - rewrite bool_decide_eq_false_2, Hp, set_files_id by done. done.
  - rewrite Hf, pwrite_full by done.
    rewrite (bool_decide_eq_true_2 (length _ = length _)) by done.
    rewrite bool_decide_eq_false_2 by done. cbn [heap set_files]. rewrite Hp.
    do 2 f_equal. unfold set_files. by rewrite Hf.
Qed.

Section write_out.
Context (s : state) (Hwf : wf s) (p : positive) (b : buffer_info) (Hp : heap s !! p = Some b).
Context (vol : volume_info) (Hvol : VolList s !! b_volume b = Some vol).

(** Only the buffer's own block changes. *)
Lemma file_block_write_out i vol' z2 :
  geo s !! i = Some vol' -> on_volume vol' z2 ->
  file_block (write_out (files s) vol b) vol' z2 =
  if bool_decide (z2 = b_zone2_offset b /\ v_rdonly vol = false) then b_ondisk b
  else file_block (files s) vol' z2.
Proof.
  intros Hi Ho. destruct (buf_volume s p b Hwf Hp) as (vol0 & f & Hv0 & Hg & Hok & Hob & Hr & Hf & _ & _).
  rewrite Hvol in Hv0. simplify_eq.
  unfold write_out. destruct (v_rdonly vol0) eqn:Hro; [by rewrite bool_decide_eq_false_2 by (by intros [_ ?])|].
  rewrite Hf. unfold file_block. destruct (decide (v_fd vol' = v_fd vol0)) as [Hfd|Hfd].
  - assert (i = b_volume b) as -> by (by eapply (nodup_fmap_inj v_fd); [apply wf_fd| | |]).
    assert (vol' = strip vol0) as -> by congruence.
    cbn [v_fd strip set_buffer_lists]. rewrite lookup_insert_eq, Hf, Hr.
    destruct (wf_buf s Hwf p b Hp) as (_ & _ & Hl & _).
    destruct (decide (z2 = b_zone2_offset b)) as [->|Hz].
    + rewrite bool_decide_eq_true_2 by done. rewrite <- Hl. apply file_read_write_same.
    + rewrite bool_decide_eq_false_2 by (by intros [? _]). apply file_read_write_apart.
      pose proof (blocks_apart _ _ _ _ Hok Ho Hob Hz) as Ha. rewrite Hl.
      change (raw_of (strip vol0)) with (raw_of vol0) in *. unfold HAMMER_BUFSIZE in *. lia.
  - rewrite lookup_insert_ne by done. rewrite bool_decide_eq_false_2; [done|].
    intros [-> _]. apply Hfd. assert (i = b_volume b) as ->; [|rewrite Hg in Hi; by simplify_eq].
    eapply (nodup_fmap_inj v_vol_no); [by apply wf_volno|done..|].
    destruct Ho as (_ & _ & _ & <- & _), Hob as (_ & _ & _ & <- & _). done.
Qed.

Lemma vol_ok_write_out i vol' :
  geo s !! i = Some vol' -> vol_ok (write_out (files s) vol b) vol'.
Proof.
  intros Hi. destruct (wf_vol s Hwf i vol' Hi) as (Hn & Hb & Hm & Hz & f & Hf & Hok & Hs).
  do 4 (split; [done|]). unfold write_out. destruct (v_rdonly vol); [by exists f|].
  destruct (files s !! v_fd vol) as [g|] eqn:Hg; [|by exists f].
  destruct (decide (v_fd vol' = v_fd vol)) as [Hfd|Hfd].
  - rewrite Hfd, lookup_insert_eq. eexists. split; [done|].
    assert (f = g) as -> by congruence.
    destruct (buf_volume s p b Hwf Hp) as (vol0 & f & Hv0 & _ & _ & _ & _ & Hf' & _ & Hw).
    assert (f = g) as -> by congruence. split.
    + apply file_write_ok; [|done]. by destruct (wf_buf s Hwf p b Hp) as (_ & _ & _ & ? & _).
    + cbn [f_size file_write]. lia.
  - rewrite lookup_insert_ne by done. by exists f.
Qed.
End write_out.

(** ** Evicting a buffer *)

Definition drop_from_bucket (p : positive) (b : buffer_info) (vol : volume_info) : volume_info :=
  set_buffer_lists (alter (tailq_remove p) (bucket_of b) (v_buffer_lists vol)) vol.

Definition evicted (p : positive) (b : buffer_info) (vol : volume_info) (s : state) : state :=
  {| VolList := <[b_volume b := drop_from_bucket p b vol]> (VolList s);
     heap := delete p (heap s); next_ptr := next_ptr s;
     CacheList := tailq_remove p (CacheList s); CacheUse := CacheUse s - HAMMER_BUFSIZE;
     CacheMax := CacheMax s; UseReadBehind := UseReadBehind s; UseReadAhead := UseReadAhead s;
     HammerVersion := HammerVersion s;
     files := if b_modified b then write_out (files s) vol b else files s |}.

Lemma load_buffer_eq s p b : heap s !! p = Some b -> load_buffer p s = Ok b s.
Proof. intros Hp. unfold load_buffer. rewrite (bind_Ok _ _ _ s s) by done. by rewrite Hp. Qed.

Lemma update_buffer_eq f s p b :
  heap s !! p = Some b -> update_buffer f p s = Ok () (set_heap <[p := f b]> s).
Proof. intros Hp. unfold update_buffer. by rewrite (bind_Ok _ _ _ b s) by by apply load_buffer_eq. Qed.

Lemma load_volume_ptr_eq s v vol : VolList s !! v = Some vol -> load_volume_ptr v s = Ok vol s.
Proof. intros Hv. unfold load_volume_ptr. rewrite (bind_Ok _ _ _ s s) by done. by rewrite Hv. Qed.

Lemma update_bucket_eq f s v vol h :
  VolList s !! v = Some vol ->
  update_bucket f v h s =
  Ok () (set_vols <[v := set_buffer_lists (alter f (Z.to_nat h) (v_buffer_lists vol)) vol]> s).
Proof.
  intros Hv. unfold update_bucket, update_volume.
  by rewrite (bind_Ok _ _ _ vol s) by by apply load_volume_ptr_eq.
Qed.

(** Dropping the last reference of a buffer marked [delete]. *)
Lemma rel_buffer_delete_eq s p b vol :
  wf s -> heap s !! p = Some b -> VolList s !! b_volume b = Some vol ->
  let s1 := set_heap <[p := set_delete true (set_refs 1 b)]> s in
  rel_buffer (Some p) s1 = Ok () (evicted p b vol s).
Proof.
  intros Hwf Hp Hvol s1.
  destruct (buf_volume s p b Hwf Hp) as (vol0 & f & Hv0 & _ & _ & _ & _ & Hf & Hr & Hs).
  assert (vol0 = vol) as -> by congruence.
  assert (heap s1 !! p = Some (set_delete true (set_refs 1 b))) as Hp1 by apply lookup_insert_eq.
  unfold rel_buffer. rewrite (bind_Ok _ _ _ _ _ (load_buffer_eq _ _ _ Hp1)).
  rewrite (bind_Ok _ _ _ () s1) by done. rewrite (bind_Ok _ _ _ _ _ (update_buffer_eq _ _ _ _ Hp1)).
  st_simpl. change (1 - 1) with 0. rewrite bool_decide_eq_true_2 by done. cbn [andb when].
  set (s2 := set_heap _ s1). set (b2 := set_refs _ _) in s2.
  assert (heap s2 !! p = Some b2) as Hp2 by apply lookup_insert_eq.
  assert (forall s3, VolList s3 = VolList s -> delete p (heap s3) = delete p (heap s) ->
    CacheList s3 = CacheList s -> CacheUse s3 = CacheUse s -> CacheMax s3 = CacheMax s ->
    UseReadBehind s3 = UseReadBehind s -> UseReadAhead s3 = UseReadAhead s ->
    HammerVersion s3 = HammerVersion s -> next_ptr s3 = next_ptr s ->
    files s3 = (if b_modified b then write_out (files s) vol b else files s) ->
    (update_bucket (tailq_remove p) (b_volume b) (buffer_hash (b_zone2_offset b));;
     hammer_cache_del p;; modify (set_heap (delete p))) s3 = Ok () (evicted p b vol s)) as Hlast.
  { intros s3 H1 H2 H3 H4 H5 H6 H7 H8 H9 H10.
    erewrite bind_Ok by (apply update_bucket_eq; by rewrite H1).
    unfold hammer_cache_del, modify, evicted, mbind, prog_bind.
    unfold set_heap. st_simpl. by rewrite H1, H2, H3, H4, H5, H6, H7, H8, H9, H10. }
  destruct (b_modified b) eqn:Hm.
  - rewrite (bind_Ok _ _ _ () (flushed p b2 vol s2)) by by eapply flush_buffer_eq.
    apply Hlast; try done. unfold flushed, s2, s1. st_simpl.
    by rewrite !delete_insert_eq.
  - rewrite (bind_Ok _ _ _ () s2) by done.
    apply Hlast; try done. unfold s2, s1. st_simpl. by rewrite !delete_insert_eq.
Qed.

Lemma elem_tailq_remove p q l : q ∈ tailq_remove p l <-> q ≠ p /\ q ∈ l.
Proof. unfold tailq_remove. by rewrite list_elem_of_filter. Qed.

Lemma nodup_tailq_remove p l : NoDup l -> NoDup (tailq_remove p l).
Proof. apply NoDup_filter. Qed.

Lemma tailq_remove_notin p l : p ∉ l -> tailq_remove p l = l.
Proof.
  induction l as [|q l IH]; intros Hp; [done|]. apply not_elem_of_cons in Hp as [Hq Hp].
  unfold tailq_remove in *. rewrite filter_cons_True by auto. by rewrite IH.
Qed.

Lemma tailq_remove_app p l k : tailq_remove p (l ++ k) = tailq_remove p l ++ tailq_remove p k.
Proof. apply filter_app. Qed.

Lemma length_tailq_remove p l : NoDup l -> p ∈ l -> S (length (tailq_remove p l)) = length l.
Proof.
  intros Hn Hp. apply list_elem_of_split in Hp as (l1 & l2 & ->).
  apply NoDup_app in Hn as (_ & Hd & Hn). apply NoDup_cons in Hn as [Hn _].
  change (p :: l2) with ([p] ++ l2). rewrite !tailq_remove_app.
  rewrite (tailq_remove_notin p l1), (tailq_remove_notin p l2); [|done|].
  - assert (tailq_remove p [p] = []) as -> by (unfold tailq_remove; by rewrite filter_cons_False by auto).
    rewrite !length_app. cbn. lia.
  - intros Hp. apply (Hd p Hp). left.
Qed.

Lemma geo_insert s i vol vol' :
  VolList s !! i = Some vol -> strip vol' = strip vol -> strip <$> <[i := vol']> (VolList s) = geo s.
Proof.
  intros Hi He. unfold geo. rewrite list_fmap_insert, He. apply list_insert_id.
  by rewrite list_lookup_fmap, Hi.
Qed.

Lemma buf_ok_transfer s s' b :
  buf_ok s b -> geo s' = geo s ->
  (forall vol, geo s !! b_volume b = Some vol -> on_volume vol (b_zone2_offset b) ->
    file_block (files s') vol (b_zone2_offset b) = file_block (files s) vol (b_zone2_offset b)) ->
  buf_ok s' b.
Proof.
  intros (Hr & Hd & Hl & Hb & vol & Hg & Ho & Hraw & Hm & Hc) Hgeo Hf.
  do 4 (split; [done|]). exists vol. rewrite Hgeo, Hf by done. done.
Qed.

Section evicted.
Context (s : state) (Hwf : wf s) (p : positive) (b : buffer_info) (Hp : heap s !! p = Some b).
Context (vol : volume_info) (Hvol : VolList s !! b_volume b = Some vol) (Href : b_refs b = 0).
Local Abbreviation s' := (evicted p b vol s).

Lemma geo_evicted : geo s' = geo s.
Proof. by apply (geo_insert s _ vol). Qed.

(** After eviction the file holds the block. *)
Lemma file_block_evicted i vol' z2 :
  geo s !! i = Some vol' -> on_volume vol' z2 ->
  file_block (files s') vol' z2 =
  if bool_decide (z2 = b_zone2_offset b) then b_ondisk b else file_block (files s) vol' z2.
Proof.
  intros Hi Ho. destruct (wf_buf s Hwf p b Hp) as (_ & _ & _ & _ & vol0 & Hg & Hob & _ & Hm & Hc).
  assert (vol0 = strip vol) as -> by (rewrite geo_lookup, Hvol in Hg; cbn in Hg; congruence).
  st_simpl. cbn [files evicted]. destruct (b_modified b) eqn:Hmod.
  - rewrite (file_block_write_out s Hwf p b Hp vol Hvol i) by done.
    specialize (Hm eq_refl). cbn in Hm. rewrite Hm.
    destruct (decide (z2 = b_zone2_offset b)) as [Hz|Hz];
      [by rewrite !bool_decide_eq_true_2|by rewrite !bool_decide_eq_false_2 by (by intros [? _] || done)].
  - case_bool_decide as Hz; [|done]. subst z2. rewrite (Hc eq_refl Href).
    assert (i = b_volume b) as ->; [|congruence].
    eapply (nodup_fmap_inj v_vol_no); [by apply wf_volno|done..|].
    destruct Ho as (_ & _ & _ & <- & _), Hob as (_ & _ & _ & <- & _). done.
Qed.

Lemma vol_ok_evicted i vol' : geo s !! i = Some vol' -> vol_ok (files s') vol'.
Proof.
  intros Hi. cbn [files evicted]. destruct (b_modified b).
  - by eapply vol_ok_write_out.
  - by eapply wf_vol.
Qed.

Lemma wf_evicted : wf s'.
Proof.
  split.
  - rewrite geo_evicted. by apply wf_volno.
  - rewrite geo_evicted. by apply wf_fd.
  - intros i vol'. rewrite geo_evicted. apply vol_ok_evicted.
  - intros i vol'. cbn [VolList evicted]. rewrite list_lookup_insert_Some.
    intros [(<- & <- & _)|(_ & Hi)]; [|by eapply wf_lists].
    cbn. rewrite length_alter. by eapply wf_lists.
  - intros q c Hq. cbn [heap evicted] in Hq. apply lookup_delete_Some in Hq as [Hne Hq].
    apply (buf_ok_transfer s); [by eapply wf_buf|apply geo_evicted|].
    intros vol' Hg Ho. rewrite (file_block_evicted _ vol') by done.
    rewrite bool_decide_eq_false_2; [done|]. intros Hz. apply Hne. by eapply wf_uniq.
  - intros i vol' h l. cbn [VolList heap evicted]. rewrite list_lookup_insert_Some.
    intros [(<- & <- & Hlt)|(Hne & Hi)] Hl.
    + cbn in Hl. destruct (decide (h = bucket_of b)) as [->|Hh].
      * rewrite list_lookup_alter_eq in Hl. apply fmap_Some in Hl as (l0 & Hl & ->).
        destruct (wf_bucket s Hwf _ _ _ _ Hvol Hl) as [Hn Hi]. split; [by apply nodup_tailq_remove|].
        intros q. rewrite elem_tailq_remove, Hi. setoid_rewrite lookup_delete_Some. naive_solver.
      * rewrite list_lookup_alter_ne in Hl by done.
        destruct (wf_bucket s Hwf _ _ _ _ Hvol Hl) as [Hn Hi]. split; [done|].
        intros q. rewrite Hi. setoid_rewrite lookup_delete_Some.
        split; intros (c & Hc); exists c; [|naive_solver]. split_and!; [|naive_solver..].
        intros <-. naive_solver.
    + destruct (wf_bucket s Hwf _ _ _ _ Hi Hl) as [Hn Hb]. split; [done|].
      intros q. rewrite Hb. setoid_rewrite lookup_delete_Some.
      split; intros (c & Hc); exists c; [|naive_solver]. split_and!; [|naive_solver..].
      intros <-. naive_solver.
  - intros q r c d. cbn [heap evicted]. rewrite !lookup_delete_Some. intros [_ ?] [_ ?]. by eapply wf_uniq.
  - by apply nodup_tailq_remove, wf_nodup.
  - intros q. cbn [heap CacheList evicted]. rewrite elem_tailq_remove, (wf_dom s Hwf), lookup_delete_is_Some.
    naive_solver.
  - cbn [CacheUse CacheList evicted]. rewrite (wf_use s Hwf).
    rewrite <- (length_tailq_remove p (CacheList s)); [lia|by apply wf_nodup|]. apply (wf_dom s Hwf). eauto.
  - intros q. cbn [heap next_ptr evicted]. rewrite lookup_delete_is_Some. intros [_ Hq]. by apply wf_ptr.
Qed.

Lemma quiet_evicted : quiet s s'.
Proof.
  split; [split|..]; try done.
  - apply geo_evicted.
  - intros z2 (i & vol' & Hi & Ho) _. pose proof (file_block_evicted i vol' z2 Hi Ho) as Hfb.
    pose proof Ho as (_ & _ & _ & Hv & _).
    destruct (view_cases s i vol' z2 Hwf Hi Hv) as [(q & c & Hq & Hz & Hview)|[Hn Hview]];
      rewrite Hview.
    + destruct (decide (q = p)) as [->|Hne].
      * assert (c = b) as -> by congruence.
        rewrite (view_file s' i vol'); [|by apply wf_evicted| |by rewrite geo_evicted|done].
        { rewrite Hfb, bool_decide_eq_true_2; done. }
        intros r d Hd. cbn [heap evicted] in Hd. apply lookup_delete_Some in Hd as [Hr Hd] .
        intros He. apply Hr. eapply wf_uniq; [done..|]. congruence.
      * rewrite <- Hz. apply (view_cached s' q); [by apply wf_evicted|].
        cbn [heap evicted]. by rewrite lookup_delete_ne.
    + rewrite (view_file s' i vol'); [|by apply wf_evicted| |by rewrite geo_evicted|done].
      * rewrite Hfb, bool_decide_eq_false_2; [done|]. intros ->. by apply (Hn p b).
      * intros r d Hd. cbn [heap evicted] in Hd. apply lookup_delete_Some in Hd as [Hr Hd]. by apply (Hn r).
  - intros q c Hq. right. exists c. cbn [heap evicted] in Hq. by apply lookup_delete_Some in Hq as [_ Hq].
  - intros q. unfold refs, no_refs. cbn [heap evicted]. destruct (decide (q = p)) as [->|Hne].
    + rewrite lookup_delete_eq, Hp. lia.
    + rewrite lookup_delete_ne by done. lia.
  - intros q _ Hr' _. assert (q ≠ p) as Hne.
    { intros ->. unfold refs in Hr'. cbn [heap evicted] in Hr'. by rewrite lookup_delete_eq in Hr'. }
    split; [intros c Hq; exists (b_refs c); cbn [heap evicted]; rewrite lookup_delete_ne, Hq by done;
      by destruct c|].
    intros Hs c vol' Hq. rewrite geo_evicted. cbn [heap evicted] in Hq. rewrite lookup_delete_ne in Hq by done.
    intros Hg Hm. rewrite (Hs c vol') by done.
    destruct (wf_buf s Hwf q c Hq) as (_ & _ & _ & _ & vol1 & Hg1 & Ho & _).
    rewrite (file_block_evicted (b_volume c) vol'), bool_decide_eq_false_2; [done| |done|congruence].
    intros Hz. apply Hne. by eapply wf_uniq.
Qed.
End evicted.

(** ** Composing steps *)

Lemma valid_block_geo s s' z2 : geo s' = geo s -> valid_block s' z2 <-> valid_block s z2.
Proof. unfold valid_block. by intros ->. Qed.

#[export] Instance ext_preorder W : PreOrder (ext W).
Proof.
  split.
  - intros s. split; try done. eauto.
  - intros s1 s2 s3 [G12 V12 B12 A12 W12 N12 I12] [G23 V23 B23 A23 W23 N23 I23]. split; [congruence..| |lia|].
    + intros z2 Hz Hw. rewrite W23, W12; [done..| |done]. by apply (valid_block_geo s1 s2).
    + intros p b3 Hp. destruct (I23 p b3 Hp) as [|(b2 & Hb2 & ->)]; [left; lia|]. by apply I12.
Qed.

Lemma ext_mono (W W' : Z -> Prop) s s' : (forall z2, W z2 -> W' z2) -> ext W s s' -> ext W' s s'.
Proof. intros HW [G V B A View N I]. split; [done..| |done|done]. intros z2 Hz Hw. apply View; [done|]. auto. Qed.

Lemma kept_refl s p : kept s s p.
Proof. split; [|done]. intros b Hb. exists (b_refs b). rewrite Hb. by destruct b. Qed.

Lemma moved_trans W d e s1 s2 s3 :
  moved W d s1 s2 -> moved W e s2 s3 ->
  (forall p, 0 < refs s1 p -> 0 < refs s3 p -> 0 < refs s2 p) ->
  moved W (λ p, d p + e p) s1 s3.
Proof.
  intros [E12 R12 K12] [E23 R23 K23] Hmid. split.
  - by trans s2.
  - intros p. rewrite R23, R12. lia.
  - intros p H1 H3 Hw. pose proof (Hmid p H1 H3) as H2.
    destruct (K12 p H1 H2 Hw) as [Hk12 Hs12]. destruct (K23 p H2 H3) as [Hk23 Hs23].
    { intros c Hc. destruct (heap s1 !! p) as [b|] eqn:Hb; [|unfold refs in H1; by rewrite Hb in H1].
      destruct (Hk12 b eq_refl) as [r Hr]. rewrite Hr in Hc. simplify_eq. by apply (Hw b). }
    split; [|auto]. intros b Hb. destruct (Hk12 b Hb) as [r Hr]. destruct (Hk23 _ Hr) as [r' Hr'].
    exists r'. rewrite Hr'. by destruct b.
Qed.

Lemma moved_proper (W W' : Z -> Prop) d e s s' :
  (forall z2, W z2 -> W' z2) -> (forall p, d p = e p) -> moved W d s s' -> moved W' e s s'.
Proof.
  intros HW He [E R K]. split; [by eapply ext_mono| |].
  - intros p. by rewrite R, He.
  - intros p H1 H2 Hw. apply K; [done..|]. intros b Hb HWb. by apply (Hw b Hb), HW.
Qed.

#[export] Instance quiet_preorder : PreOrder quiet.
Proof.
  split.
  - intros s. split; [done|intros p; unfold no_refs; lia|]. intros p _ _ _. apply kept_refl.
  - intros s1 s2 s3 H12 H23. apply (moved_proper no_block _ (λ p, no_refs p + no_refs p)); [done..|].
    eapply moved_trans; [done..|]. intros p H1 H3. rewrite (moved_refs _ _ _ _ H12). unfold no_refs. lia.
Qed.

(** Only the order of the LRU list, and the limit. *)
Lemma wf_set_cache s l m :
  wf s -> l ≡ₚ CacheList s -> wf (set_cache l (CacheUse s) m s).
Proof.
  intros Hwf Hl. destruct Hwf. split; st_simpl; try done.
  - by rewrite Hl.
  - intros p. by rewrite Hl.
  - by rewrite Hl.
Qed.

Lemma quiet_set_cache s l u m : quiet s (set_cache l u m s).
Proof.
  split; [by split; eauto|intros p; unfold refs, no_refs; st_simpl; lia|].
  intros p _ _ _. apply (kept_refl s).
Qed.

Lemma tailq_used_perm p l : NoDup l -> p ∈ l -> tailq_insert_tail p (tailq_remove p l) ≡ₚ l.
Proof.
  intros Hn Hp. apply NoDup_Permutation; [|done|].
  - apply NoDup_app. split_and!; [by apply nodup_tailq_remove| |apply NoDup_singleton].
    intros q [Hq _]%elem_tailq_remove ->%list_elem_of_singleton. done.
  - intros q. unfold tailq_insert_tail. rewrite elem_of_app, elem_tailq_remove, list_elem_of_singleton.
    destruct (decide (q = p)); naive_solver.
Qed.

(** The state after [hammer_cache_used p]. *)
Definition used (p : positive) (s : state) : state :=
  set_cache (tailq_insert_tail p (tailq_remove p (CacheList s))) (CacheUse s) (CacheMax s) s.

Lemma used_spec s p : wf s -> is_Some (heap s !! p) -> wf (used p s) /\ quiet s (used p s).
Proof.
  intros Hwf Hp. split; [|apply quiet_set_cache]. apply wf_set_cache; [done|].
  apply tailq_used_perm; [by apply wf_nodup|by apply wf_dom].
Qed.

(** ** hammer_cache_flush *)

Lemma refs_lookup s p b : heap s !! p = Some b -> refs s p = b_refs b.
Proof. unfold refs. by intros ->. Qed.

Lemma tailq_remove_cons p l : NoDup (p :: l) -> tailq_remove p (p :: l) = l.
Proof.
  intros [Hp _]%NoDup_cons. unfold tailq_remove. rewrite filter_cons_False by auto.
  by apply tailq_remove_notin.
Qed.

(** What the loop knows of [first] and [count]: the list is what is left to look at, then
    [first] and the referenced buffers rotated behind it. *)
Definition flush_inv (fuel : nat) (first : option positive) (count : Z) (s : state) : Prop :=
  match first with
  | None => count = 0 /\ (length (CacheList s) < fuel)%nat
  | Some f => exists pre rot, CacheList s = pre ++ f :: rot /\ count = 1 + Z.of_nat (length rot) /\
      (length pre < fuel)%nat /\ Forall (λ q, 0 < refs s q) (f :: rot)
  end.

(** What is left of the cache afterwards. *)
Definition flush_done (s : state) : Prop :=
  CacheUse s < CacheMax s / 2 \/ forall q, q ∈ CacheList s -> 0 < refs s q.

Lemma flush_inv_end s f count fuel l :
  flush_inv fuel (Some f) count s -> NoDup (CacheList s) -> CacheList s = f :: l -> flush_done s.
Proof.
  intros (pre & rot & Hl & _ & _ & Hall) Hn Hc. right. intros q Hq.
  destruct pre as [|x pre]; [by rewrite Hl in Hq; eapply Forall_forall in Hall|].
  rewrite Hc in Hl. simplify_eq/=. rewrite Hc in Hn. apply NoDup_cons in Hn as [Hn _].
  destruct Hn. apply elem_of_app. right. left.
Qed.

Lemma flush_inv_used s fuel first count c l :
  wf s -> flush_inv (S fuel) first count s -> first ≠ Some c -> CacheList s = c :: l -> 0 < refs s c ->
  flush_inv fuel (match first with None => Some c | _ => first end) (count + 1) (used c s).
Proof.
  intros Hwf Hinv Hf Hl Hr. pose proof (wf_nodup s Hwf) as Hn. rewrite Hl in Hn.
  unfold flush_inv, used, tailq_insert_tail in *. st_simpl. rewrite Hl, tailq_remove_cons by done.
  destruct first as [f|].
  - destruct Hinv as (pre & rot & Hc & Hcount & Hlen & Hall). rewrite Hl in Hc.
    destruct pre as [|x pre]; simplify_eq/=. exists pre, (rot ++ [x]).
    split_and!; [by rewrite <- app_assoc|rewrite length_app; cbn; lia|lia|].
    rewrite app_comm_cons. apply Forall_app. split; [done|]. by apply Forall_singleton.
  - destruct Hinv as [-> Hlen]. rewrite Hl in Hlen. cbn in Hlen. exists l, [].
    split_and!; [done..|lia|]. by apply Forall_singleton.
Qed.

Lemma flush_inv_evicted s fuel first count c b vol l :
  wf s -> flush_inv (S fuel) first count s -> heap s !! c = Some b -> b_refs b = 0 ->
  VolList s !! b_volume b = Some vol -> first ≠ Some c -> CacheList s = c :: l ->
  count < CacheUse s / HAMMER_BUFSIZE /\ flush_inv fuel first count (evicted c b vol s).
Proof.
  intros Hwf Hinv Hb Hr Hvol Hf Hl. pose proof (wf_nodup s Hwf) as Hn. rewrite Hl in Hn.
  assert (CacheUse s / HAMMER_BUFSIZE = Z.of_nat (length (CacheList s))) as ->.
  { rewrite (wf_use s Hwf), Z.mul_comm. by apply Z.div_mul. }
  assert (forall q, refs (evicted c b vol s) q = refs s q) as Hrefs.
  { intros q. rewrite (moved_refs _ _ _ _ (quiet_evicted s Hwf c b Hb vol Hvol Hr)). unfold no_refs. lia. }
  unfold flush_inv in *. destruct first as [f|].
  - destruct Hinv as (pre & rot & Hc & -> & Hlen & Hall). rewrite Hl in Hc |- *.
    destruct pre as [|x pre]; simplify_eq/=. rewrite length_app. cbn [length]. split; [lia|].
    exists pre, rot. cbn [CacheList evicted]. rewrite Hl, tailq_remove_cons by done.
    split_and!; [done..|lia|]. by setoid_rewrite Hrefs.
  - destruct Hinv as [-> Hlen]. cbn [CacheList evicted]. rewrite Hl, tailq_remove_cons by done.
    rewrite Hl in Hlen. cbn in Hlen |- *. lia.
Qed.

Lemma cache_flush_loop_spec fuel s first count :
  wf s -> flush_inv fuel first count s ->
  wp (cache_flush_loop fuel first count) s
     (λ _ s', wf s' /\ quiet s s' /\ flush_done s' /\ CacheMax s' = CacheMax s).
Proof.
  revert s first count. induction fuel as [|fuel IH]; intros s first count Hwf Hinv.
  { destruct first; [destruct Hinv as (? & ? & _ & _ & ? & _)|destruct Hinv as [_ ?]]; lia. }
  cbn [cache_flush_loop]. apply wp_bind, wp_get.
  destruct (CacheList s) as [|c l] eqn:Hl.
  { apply wp_ret. split_and!; [done..| |done]. right. rewrite Hl. by intros q ?%not_elem_of_nil. }
  case_bool_decide as Hf.
  { apply wp_ret. subst first. split_and!; [done..| |done].
    eapply flush_inv_end; [done|by apply wf_nodup|done]. }
  assert (is_Some (heap s !! c)) as [b Hb] by (apply (wf_dom s Hwf); rewrite Hl; left).
  pose proof (wf_buf s Hwf c b Hb) as (Hrefs & _). pose proof (refs_lookup s c b Hb) as Hr.
  apply wp_bind. eapply wp_Ok; [by apply load_buffer_eq|]. case_bool_decide as H0.
  - apply wp_bind, wp_modify. fold (used c s).
    destruct (used_spec s c Hwf) as [Hwf' Hq]; [eauto|].
    eapply wp_mono; [apply IH; [done|]|].
    + eapply flush_inv_used; [done..|lia].
    + intros [] s' (? & ? & ? & ?). split_and!; [done|by trans (used c s)|done..].
  - destruct (buf_volume s c b Hwf Hb) as (vol & _ & Hvol & _).
    assert (b_refs b = 0) as H00 by lia.
    destruct (flush_inv_evicted s fuel first count c b vol l) as [Hgrow Hinv']; [done..|].
    rewrite bool_decide_eq_false_2 by lia. cbn [when].
    apply wp_bind, wp_ret, wp_bind. eapply wp_Ok; [by apply update_buffer_eq|].
    apply wp_bind. eapply wp_Ok; [by apply (rel_buffer_delete_eq s c b vol)|].
    pose proof (wf_evicted s Hwf c b Hb vol Hvol H00) as Hwf'.
    pose proof (quiet_evicted s Hwf c b Hb vol Hvol H00) as Hq.
    apply wp_bind, wp_get. case_bool_decide as Huse.
    + apply wp_ret. split_and!; [done..|by left|done].
    + eapply wp_mono; [by apply IH|]. intros [] s' (? & ? & ? & ?).
      split_and!; [done|by trans (evicted c b vol s)|done..].
Qed.

Lemma hammer_cache_flush_lemma s :
  wf s -> wp hammer_cache_flush s (λ _ s', wf s' /\ quiet s s' /\ CacheMax s' = CacheMax s /\
    (CacheMax s <= CacheUse s -> flush_done s')).
Proof.
  intros Hwf. unfold hammer_cache_flush. apply wp_bind, wp_get, wp_when.
  - intros _. eapply wp_mono; [apply cache_flush_loop_spec; [done|by split; [|lia]]|].
    intros [] s' (? & ? & ? & ?). done.
  - intros H%bool_decide_eq_false. split_and!; [done..|lia].
Qed.
