(* ===== verification/Buffers.v ===== *)
(** * Buffers: acquiring and releasing buffers

    The contracts of [find_buffer], [__alloc_buffer], [get_buffer], [rel_buffer],
    [get_buffer_data] and the read-ahead over the invariant of [CacheInv]: a caller gets a
    referenced buffer that shows the block's content, nobody else notices, and references
    balance. *)

From S2P Require Import Prelude HammerDisk Layout CMonad Ondisk CacheInv.

(** ** Changing a buffer in place *)

Section update.
Context (s : state) (Hwf : wf s) (p : positive) (b b' : buffer_info) (Hp : heap s !! p = Some b).
Context (Hz : b_zone2_offset b' = b_zone2_offset b) (Hv : b_volume b' = b_volume b).
Local Abbreviation s' := (set_heap <[p := b']> s).

(** The heap has the same blocks before and after. *)
Lemma update_lookup q c :
  heap s' !! q = Some c -> exists c0, heap s !! q = Some c0 /\
    b_zone2_offset c = b_zone2_offset c0 /\ b_volume c = b_volume c0 /\ (q ≠ p -> c = c0).
Proof.
  st_simpl. intros [[<- <-]|[Hne Hq]]%lookup_insert_Some; [by exists b|by exists c].
Qed.

Lemma update_lookup_inv q c0 :
  heap s !! q = Some c0 -> exists c, heap s' !! q = Some c /\
    b_zone2_offset c = b_zone2_offset c0 /\ b_volume c = b_volume c0.
Proof.
  intros Hq. st_simpl. destruct (decide (q = p)) as [->|Hne].
  - rewrite lookup_insert_eq. exists b'. naive_solver.
  - rewrite lookup_insert_ne by done. by exists c0.
Qed.

Lemma wf_update : buf_ok s b' -> wf s'.
Proof.
  intros Hok. pose proof Hwf as [H1 H2 H3 H4 H5 H6 H7 H8 H9 H10 H11]. split; try done.
  - intros q c. st_simpl. intros [[<- <-]|[Hne Hq]]%lookup_insert_Some; [done|by apply H5 in Hq].
  - intros i vol h l Hi Hl. destruct (H6 i vol h l Hi Hl) as [Hn Hb]. split; [done|].
    intros q. rewrite Hb. unfold bucket_of. split.
    + intros (c & Hc & Hci & Hch). destruct (update_lookup_inv q c Hc) as (c' & Hc' & Hcz & Hcv).
      exists c'. by rewrite Hcz, Hcv.
    + intros (c & Hc & Hci & Hch). destruct (update_lookup q c Hc) as (c' & Hc' & Hcz & Hcv & _).
      exists c'. by rewrite <- Hcz, <- Hcv.
  - intros q r c d Hc Hd Hcd. destruct (update_lookup q c Hc) as (c' & Hc' & Hcz & _).
    destruct (update_lookup r d Hd) as (d' & Hd' & Hdz & _). eapply H7; [done..|congruence].
  - intros q. rewrite (H9 q). st_simpl. destruct (decide (q = p)) as [->|Hne].
    + rewrite lookup_insert_eq, Hp. naive_solver.
    + by rewrite lookup_insert_ne.
  - intros q [c Hc]. destruct (update_lookup q c Hc) as (c' & Hc' & _). by apply H11.
Qed.

Lemma view_update z2 :
  wf s' -> valid_block s z2 ->
  view s' z2 = if bool_decide (z2 = b_zone2_offset b) then b_ondisk b' else view s z2.
Proof.
  intros Hwf' (i & vol & Hi & Ho). pose proof Ho as (_ & _ & _ & Hd & _).
  case_bool_decide as Hzb.
  - rewrite Hzb, <- Hz. eapply view_cached; [done|]. st_simpl. apply lookup_insert_eq.
  - destruct (view_cases s i vol z2 Hwf Hi Hd) as [(q & c & Hq & Hcz & ->)|[Hn ->]].
    + rewrite <- Hcz. apply (view_cached s' q); [done|]. st_simpl. rewrite lookup_insert_ne; [done|]. congruence.
    + apply (view_file s' i vol); [done| |done..].
      intros q c Hq. destruct (update_lookup q c Hq) as (c' & Hc' & -> & _). by eapply Hn.
Qed.

Lemma moved_update :
  wf s' ->
  moved (λ z2, z2 = b_zone2_offset b) (λ q, if decide (q = p) then b_refs b' - b_refs b else 0) s s'.
Proof.
  intros Hwf'. split.
  - split; try done.
    + intros z2 Hval Hne. rewrite view_update, bool_decide_eq_false_2; done.
    + intros q c Hq. right. destruct (update_lookup q c Hq) as (c0 & Hc0 & Hcz & _). eauto.
  - intros q. unfold refs. st_simpl. destruct (decide (q = p)) as [->|Hne].
    + rewrite lookup_insert_eq, Hp. lia.
    + rewrite lookup_insert_ne by done. lia.
  - intros q Hr _ Hne. destruct (decide (q = p)) as [->|Hqp]; [by destruct (Hne b)|].
    split; intros Hs.
    + intros Hb. exists (b_refs Hs). st_simpl. rewrite lookup_insert_ne, Hb by done. by destruct Hs.
    + unfold settled. st_simpl. intros c vol. rewrite lookup_insert_ne by done. apply Hs.
Qed.

(** Only the count changes. *)
Lemma moved_update_refs :
  wf s' -> b' = set_refs (b_refs b') b ->
  moved no_block (λ q, if decide (q = p) then b_refs b' - b_refs b else 0) s s'.
Proof.
  intros Hwf' Hb'. destruct (moved_update Hwf') as [[G V B A W N I] R K]. split; [split; try done|done|].
  - intros z2 Hval _. rewrite view_update by done. case_bool_decide as Hzz; [|done].
    rewrite Hzz, (view_cached s p b) by done. by rewrite Hb'.
  - intros q Hr Hr' _. destruct (decide (q = p)) as [->|Hqp].
    + split; [intros c Hc; exists (b_refs b'); st_simpl; rewrite lookup_insert_eq; congruence|].
      intros Hs c vol. st_simpl. rewrite lookup_insert_eq. intros [= <-]. rewrite Hb'. by apply (Hs b).
    + apply K; [done..|]. intros c Hc Hcz. apply Hqp. by apply (wf_uniq s Hwf q p c b).
Qed.
End update.

(** ** rel_buffer *)

Lemma buf_ok_set_refs s p b r :
  wf s -> heap s !! p = Some b -> 0 <= r -> (r = 0 -> settled s p) -> buf_ok s (set_refs r b).
Proof.
  intros Hwf Hp Hr Hs. destruct (wf_buf s Hwf p b Hp) as (_ & Hd & Hl & Hb & vol & Hg & Ho & Hraw & Hm & _).
  do 4 (split; [done|]). exists vol. do 4 (split; [done|]). st_simpl. intros Hmod H0. by apply (Hs H0).
Qed.

Definition minus_ref (p : positive) : positive -> Z := λ q, if decide (q = p) then -1 else 0.

Lemma rel_buffer_spec s p :
  wf s -> 0 < refs s p -> (refs s p = 1 -> settled s p) ->
  wp (rel_buffer (Some p)) s (λ _ s', wf s' /\ moved no_block (minus_ref p) s s').
Proof.
  intros Hwf Hr Hs. unfold refs in Hr, Hs. destruct (heap s !! p) as [b|] eqn:Hp; [|lia].
  unfold rel_buffer. apply wp_bind. eapply wp_Ok; [by apply load_buffer_eq|].
  apply wp_bind, wp_assertp; [by apply bool_decide_eq_true_2|].
  apply wp_bind. eapply wp_Ok; [by apply update_buffer_eq|].
  destruct (wf_buf s Hwf p b Hp) as (_ & Hd & _). rewrite Hd, andb_false_r. apply wp_ret.
  assert (wf (set_heap <[p:=set_refs (b_refs b - 1) b]> s)) as Hwf'.
  { apply (wf_update s Hwf p b); [done..|]. eapply buf_ok_set_refs; [done..|lia|]. intros H0. apply Hs. lia. }
  split; [done|]. eapply moved_proper; [| |by apply (moved_update_refs s Hwf p b)]; [done|].
  intros q. unfold minus_ref. st_simpl. destruct (decide (q = p)); lia.
Qed.

(** ** find_buffer *)

Lemma buffer_hash_range z2 : 0 <= buffer_hash z2 < 64.
Proof.
  unfold buffer_hash, HAMMER_BUFLISTMASK, HAMMER_BUFLISTS. change (64 - 1) with (Z.ones 6).
  rewrite land_ones_mod by done. by apply Z.mod_pos_bound.
Qed.

(** The volume of a block. *)
Lemma get_volume_block s i vol z2 :
  wf s -> VolList s !! i = Some vol -> HAMMER_VOL_DECODE z2 = v_vol_no vol ->
  get_volume (HAMMER_VOL_DECODE z2) s = Ok (Some i) s.
Proof.
  intros Hwf Hi Hd. unfold get_volume. rewrite (bind_Ok _ _ _ s s) by done.
  rewrite get_volume_eq, Hd. change (v_vol_no vol) with (v_vol_no (strip vol)).
  rewrite (find_volume s i); [done..|]. by rewrite geo_lookup, Hi.
Qed.

Lemma bucket_lookup s i vol z2 :
  wf s -> VolList s !! i = Some vol ->
  exists l, v_buffer_lists vol !! Z.to_nat (buffer_hash z2) = Some l.
Proof.
  intros Hwf Hi. apply lookup_lt_is_Some. rewrite (wf_lists s Hwf i vol Hi).
  pose proof (buffer_hash_range z2). lia.
Qed.

Lemma find_in_bucket_spec s z2 l :
  (forall p, p ∈ l -> is_Some (heap s !! p)) ->
  wp (find_in_bucket z2 l) s (λ r s', s' = s /\
    match r with
    | Some p => p ∈ l /\ exists b, heap s !! p = Some b /\ b_zone2_offset b = z2
    | None => forall p b, p ∈ l -> heap s !! p = Some b -> b_zone2_offset b ≠ z2
    end).
Proof.
  induction l as [|q l IH]; intros Hl; cbn [find_in_bucket].
  { apply wp_ret. split; [done|]. by intros p b ?%not_elem_of_nil. }
  destruct (Hl q) as [b Hb]; [left|]. apply wp_bind. eapply wp_Ok; [by apply load_buffer_eq|].
  case_bool_decide as Hz.
  - apply wp_ret. split; [done|]. split; [left|eauto].
  - eapply wp_mono; [apply IH; intros; apply Hl; by right|]. intros [p|] s' [-> Hr]; (split; [done|]).
    + destruct Hr. split; [by right|done].
    + intros p c [->|Hp]%elem_of_cons Hc; [congruence|eauto].
Qed.

Lemma find_buffer_spec s i vol z2 :
  wf s -> VolList s !! i = Some vol -> on_volume (strip vol) z2 ->
  wp (find_buffer z2) s (λ r s', s' = s /\
    match r with
    | Some p => exists b, heap s !! p = Some b /\ b_zone2_offset b = z2
    | None => forall p b, heap s !! p = Some b -> b_zone2_offset b ≠ z2
    end).
Proof.
  intros Hwf Hi Ho. pose proof Ho as (_ & _ & _ & Hd & _). unfold find_buffer.
  apply wp_bind. eapply wp_Ok; [by eapply get_volume_block|].
  apply wp_bind, wp_ret, wp_bind. eapply wp_Ok; [by apply load_volume_ptr_eq|].
  destruct (bucket_lookup s i vol z2 Hwf Hi) as [l Hl].
  destruct (wf_bucket s Hwf i vol _ l Hi Hl) as [_ Hb].
  apply wp_bind. eapply wp_deref; [done|]. eapply wp_mono; [apply find_in_bucket_spec|].
  { intros p (b & Hp & _)%Hb. eauto. }
  intros [p|] s' [-> Hr]; (split; [done|]); [by destruct Hr|].
  intros p b Hp Hz. apply (Hr p b); [|done..]. apply Hb. exists b. split; [done|].
  unfold bucket_of. rewrite Hz. split; [|done].
  destruct (wf_buf s Hwf p b Hp) as (_ & _ & _ & _ & vol' & Hg & (_ & _ & _ & Hd' & _) & _).
  eapply (nodup_fmap_inj v_vol_no (geo s)); [by apply wf_volno|done|by rewrite geo_lookup, Hi|].
  by rewrite <- Hd', <- Hd, Hz.
Qed.

(** ** __alloc_buffer *)

Definition alloc_buf (r : Z) (i : nat) (vol : volume_info) (z2 : Z) (data : bytes) : buffer_info :=
  {| b_refs := r; b_modified := false; b_delete := false; b_zone2_offset := z2;
     b_raw_offset := raw_of vol z2; b_volume := i; b_ondisk := data |}.

(** The state with a new buffer of [r] references. *)
Definition allocated (r : Z) (i : nat) (vol : volume_info) (z2 : Z) (data : bytes) (s : state) : state :=
  {| VolList := <[i := set_buffer_lists (alter (tailq_insert_tail (next_ptr s))
                         (Z.to_nat (buffer_hash z2)) (v_buffer_lists vol)) vol]> (VolList s);
     heap := <[next_ptr s := alloc_buf r i vol z2 data]> (heap s);
     next_ptr := Pos.succ (next_ptr s);
     CacheList := next_ptr s :: CacheList s; CacheUse := CacheUse s + HAMMER_BUFSIZE;
     CacheMax := CacheMax s; UseReadBehind := UseReadBehind s; UseReadAhead := UseReadAhead s;
     HammerVersion := HammerVersion s; files := files s |}.

Definition alloc_data (isnew : Z) (s : state) (vol : volume_info) (z2 : Z) : bytes :=
  if bool_decide (isnew <= 0) then file_block (files s) vol z2 else zero_block.

Lemma alloc_buffer_eq s i vol z2 isnew :
  wf s -> VolList s !! i = Some vol -> on_volume (strip vol) z2 ->
  __alloc_buffer z2 isnew s =
  Ok (next_ptr s) (allocated 0 i vol z2 (alloc_data isnew s vol z2) s).
Proof.
  intros Hwf Hi Ho. pose proof Ho as (_ & _ & _ & Hd & Hsz). unfold __alloc_buffer.
  rewrite (bind_Ok _ _ _ (Some i) s) by by eapply get_volume_block.
  rewrite (bind_Ok _ _ _ i s) by done. rewrite (bind_Ok _ _ _ vol s) by by apply load_volume_ptr_eq.
  assert (vol_ok (files s) (strip vol)) as Hok.
  { eapply (wf_vol s Hwf i). by rewrite geo_lookup, Hi. }
  rewrite (bind_Ok _ _ _ (alloc_data isnew s vol z2) s).
  2:{ unfold alloc_data. case_bool_decide; [|done]. unfold readhammerbuf, __read, file_block.
    pose proof (raw_of_eq _ _ _ Hok Ho) as Hraw. change (raw_of (strip vol) z2) with (raw_of vol z2) in Hraw.
    destruct Hok as (_ & Hb & _ & _ & f & Hf & _ & Hs).
    change (v_fd (strip vol)) with (v_fd vol) in Hf. change (v_ondisk (strip vol)) with (v_ondisk vol) in *.
    rewrite (bind_Ok _ _ _ (Some (file_read f (raw_of vol z2) (Z.to_nat HAMMER_BUFSIZE))) s);
      [by rewrite Hf|].
    rewrite (bind_Ok _ _ _ vol s) by by apply load_volume_ptr_eq. rewrite (bind_Ok _ _ _ s s) by done.
    rewrite Hf. unfold deref. rewrite (bind_Ok _ _ _ f s) by done. fold (raw_of vol z2).
    rewrite pread_full.
    - by rewrite length_file_read, bool_decide_eq_true_2.
    - unfold HAMMER_BUFSIZE in *. dlia.
    - unfold HAMMER_VOL_BUF_SIZE, HAMMER_BUFSIZE in *. dlia. }
  unfold new_buffer, hammer_cache_add. fold (raw_of vol z2).
  erewrite bind_Ok by done. erewrite bind_Ok by (apply update_bucket_eq; done).
  erewrite bind_Ok by done. done.
Qed.

Section allocated.
Context (s : state) (Hwf : wf s) (i : nat) (vol : volume_info) (Hi : VolList s !! i = Some vol).
Context (z2 : Z) (Ho : on_volume (strip vol) z2) (data : bytes).
Context (Hlen : length data = Z.to_nat HAMMER_BUFSIZE) (Hdata : bytes_ok data).
Context (Hnew : forall p b, heap s !! p = Some b -> b_zone2_offset b ≠ z2).
Local Abbreviation s' := (allocated 1 i vol z2 data s).

Lemma geo_allocated : geo s' = geo s.
Proof. by apply (geo_insert s _ vol). Qed.

Lemma fresh_ptr : heap s !! next_ptr s = None.
Proof.
  destruct (heap s !! next_ptr s) eqn:E; [|done].
  pose proof (wf_ptr s Hwf (next_ptr s) ltac:(eauto)). lia.
Qed.

Lemma wf_allocated : wf s'.
Proof.
  pose proof fresh_ptr as Hfresh.
  assert (geo s !! i = Some (strip vol)) as Hg by by rewrite geo_lookup, Hi.
  split; try rewrite geo_allocated; try by apply Hwf.
  - intros j vol'. cbn [VolList allocated]. rewrite list_lookup_insert_Some.
    intros [(<- & <- & _)|(_ & Hj)]; [|by eapply wf_lists].
    cbn. rewrite length_alter. by eapply wf_lists.
  - intros q c Hq. cbn [heap allocated] in Hq. apply lookup_insert_Some in Hq as [[<- <-]|[Hne Hq]].
    + do 4 (split; [done|]). exists (strip vol). rewrite geo_allocated. st_simpl. by split_and!.
    + apply (buf_ok_transfer s); [by eapply wf_buf|apply geo_allocated|done].
  - intros j vol' h l. cbn [VolList heap allocated]. rewrite list_lookup_insert_Some.
    intros [(<- & <- & Hlt)|(Hne & Hj)] Hl.
    + cbn in Hl. destruct (decide (h = Z.to_nat (buffer_hash z2))) as [->|Hh].
      * rewrite list_lookup_alter_eq in Hl. apply fmap_Some in Hl as (l0 & Hl & ->).
        destruct (wf_bucket s Hwf _ _ _ _ Hi Hl) as [Hn Hin]. unfold tailq_insert_tail. split.
        { apply NoDup_app. split_and!; [done| |apply NoDup_singleton].
          intros q (c & Hc & _)%Hin ->%list_elem_of_singleton. congruence. }
        intros q. rewrite elem_of_app, list_elem_of_singleton, Hin. setoid_rewrite lookup_insert_Some.
        split; [intros [(c & Hc)| ->]|intros (c & [[<- <-]|[Hne Hc]] & Hcc)].
        { exists c. split_and!; [|naive_solver..]. right. split; [|naive_solver]. intros <-. naive_solver. }
        { eexists. split; [by left|done]. }
        { by right. }
        { left. eauto. }
      * rewrite list_lookup_alter_ne in Hl by done.
        destruct (wf_bucket s Hwf _ _ _ _ Hi Hl) as [Hn Hin]. split; [done|].
        intros q. rewrite Hin. setoid_rewrite lookup_insert_Some.
        split; [intros (c & Hc)|intros (c & [[<- <-]|[Hne Hc]] & Hcc)]; [|naive_solver|eauto].
        exists c. split_and!; [|naive_solver..]. right. split; [|naive_solver]. intros <-. naive_solver.
    + destruct (wf_bucket s Hwf _ _ _ _ Hj Hl) as [Hn Hin]. split; [done|].
      intros q. rewrite Hin. setoid_rewrite lookup_insert_Some.
      split; [intros (c & Hc)|intros (c & [[<- <-]|[Hne' Hc]] & Hcc)]; [|naive_solver|eauto].
      exists c. split_and!; [|naive_solver..]. right. split; [|naive_solver]. intros <-. naive_solver.
  - intros q r c d. cbn [heap allocated]. rewrite !lookup_insert_Some.
    intros [[<- <-]|[Hq Hc]] [[<- <-]|[Hr Hd]] Hz; [done| | |by eapply wf_uniq].
    + st_simpl. by destruct (Hnew r d).
    + by destruct (Hnew q c).
  - cbn [CacheList allocated]. apply NoDup_cons. split; [|by apply wf_nodup].
    intros Hin%(wf_dom s Hwf). rewrite Hfresh in Hin. by destruct Hin.
  - intros q. cbn [CacheList heap allocated]. rewrite elem_of_cons, (wf_dom s Hwf), lookup_insert_is_Some.
    destruct (decide (q = next_ptr s)); naive_solver.
  - cbn [CacheUse CacheList allocated length]. rewrite (wf_use s Hwf). lia.
  - intros q. cbn [heap next_ptr allocated]. rewrite lookup_insert_is_Some.
    intros [<-|[_ Hq]]; [lia|]. pose proof (wf_ptr s Hwf q Hq). lia.
Qed.
Lemma view_allocated z :
  valid_block s z -> view s' z = if bool_decide (z = z2) then data else view s z.
Proof.
  intros (j & vol' & Hj & Hoj). pose proof Hoj as (_ & _ & _ & Hd & _). pose proof wf_allocated as Hwf'.
  case_bool_decide as Hz.
  - subst z. apply (view_cached s' (next_ptr s) (alloc_buf 1 i vol z2 data)); [done|]. apply lookup_insert_eq.
  - destruct (view_cases s j vol' z Hwf Hj Hd) as [(q & c & Hq & Hcz & ->)|[Hn ->]].
    + rewrite <- Hcz. apply (view_cached s' q); [done|]. cbn [heap allocated].
      rewrite lookup_insert_ne; [done|]. intros <-. by rewrite fresh_ptr in Hq.
    + apply (view_file s' j vol'); [done| |by rewrite geo_allocated|done].
      intros q c. cbn [heap allocated]. intros [[<- <-]|[_ Hc]]%lookup_insert_Some; [done|by eapply Hn].
Qed.

Lemma moved_allocated : moved (λ z, z = z2) (one_ref (next_ptr s)) s s'.
Proof.
  split.
  - split; [apply geo_allocated|done..| | |].
    + intros z Hv Hz. by rewrite view_allocated, bool_decide_eq_false_2.
    + cbn [next_ptr allocated]. lia.
    + intros q c. cbn [heap allocated]. intros [[<- <-]|[_ Hc]]%lookup_insert_Some; [by left|right; eauto].
  - intros q. unfold refs, one_ref. cbn [heap allocated]. destruct (decide (q = next_ptr s)) as [->|Hne].
    + by rewrite lookup_insert_eq, fresh_ptr.
    + rewrite lookup_insert_ne by done. lia.
  - intros q Hr _ _. assert (q ≠ next_ptr s) as Hne.
    { intros ->. unfold refs in Hr. by rewrite fresh_ptr in Hr. }
    split.
    + intros c Hc. exists (b_refs c). cbn [heap allocated]. rewrite lookup_insert_ne, Hc by done. by destruct c.
    + intros Hs c vol'. rewrite geo_allocated. cbn [heap allocated files]. rewrite lookup_insert_ne by done.
      apply Hs.
Qed.

(** Reading the block in changes no content. *)
Lemma moved_allocated_read :
  data = file_block (files s) vol z2 ->
  moved no_block (one_ref (next_ptr s)) s s' /\ settled s' (next_ptr s).
Proof.
  assert (geo s !! i = Some (strip vol)) as Hg by by rewrite geo_lookup, Hi.
  pose proof Ho as (_ & _ & _ & Hd & _). intros Hread.
  destruct moved_allocated as [[G V B A W N I] R K]. split; [split; [split; try done|done|]|].
  - intros z Hz _. rewrite view_allocated by done. case_bool_decide as Hzz; [|done].
    by rewrite Hzz, Hread, (view_file s i (strip vol)).
  - intros q Hr Hr' _. apply K; [done..|]. intros c Hc. by apply (Hnew q).
  - intros c vol'. rewrite geo_allocated. cbn [heap allocated files]. rewrite lookup_insert_eq.
    intros [= <-]. cbn [b_volume alloc_buf]. rewrite Hg. by intros [= <-] _.
Qed.
End allocated.

(** ** get_buffer *)

Lemma zero_block_ok : length zero_block = Z.to_nat HAMMER_BUFSIZE /\ bytes_ok zero_block.
Proof. split; [apply length_replicate|]. apply Forall_replicate. done. Qed.

Lemma file_block_ok fs vol z2 :
  vol_ok fs vol -> length (file_block fs vol z2) = Z.to_nat HAMMER_BUFSIZE /\ bytes_ok (file_block fs vol z2).
Proof.
  intros (_ & _ & _ & _ & f & Hf & Hok & _). unfold file_block. rewrite Hf. split.
  - apply length_file_read.
  - by apply file_read_ok.
Qed.

(** A block and the volume it is on. *)
Lemma valid_block_volume s z2 :
  valid_block s z2 -> exists i vol, VolList s !! i = Some vol /\ on_volume (strip vol) z2.
Proof.
  intros (i & vol' & Hg & Ho). rewrite geo_lookup in Hg.
  destruct (VolList s !! i) as [vol|] eqn:Hi; [|done]. simplify_eq/=. eauto.
Qed.

Definition block_base (off : Z) : Z := off .& bnot 64 HAMMER_BUFMASK64.

Lemma block_base_eq off : in_u 64 off -> block_base off = off - off mod HAMMER_BUFSIZE.
Proof.
  intros Ho. unfold block_base. change HAMMER_BUFMASK64 with (Z.ones 14).
  rewrite land_bnot_ones by done. unfold HAMMER_BUFSIZE. dlia.
Qed.

Lemma block_base_valid s z2 : valid_block s z2 -> block_base z2 = z2.
Proof. intros (i & vol & _ & Hu & _ & Ha & _). rewrite block_base_eq, Ha by done. lia. Qed.

(** The buffer [p] a caller got: its block, its content, and that it is held. *)
Definition shows (s : state) (p : positive) (z2 : Z) : Prop :=
  exists b, heap s !! p = Some b /\ b_zone2_offset b = z2 /\ 0 < b_refs b.

Lemma shows_refs s p z2 : shows s p z2 -> 0 < refs s p.
Proof. intros (b & Hb & _ & Hr). unfold refs. by rewrite Hb. Qed.

Lemma shows_view s p z2 :
  wf s -> shows s p z2 -> exists b, heap s !! p = Some b /\ b_ondisk b = view s z2.
Proof. intros Hwf (b & Hb & <- & _). exists b. by rewrite (view_cached s p b). Qed.

Lemma shows_moved W d s s' p z2 :
  moved W d s s' -> shows s p z2 -> 0 < refs s' p -> ~ W z2 -> shows s' p z2.
Proof.
  intros Hm Hs Hr' Hw. pose proof (shows_refs _ _ _ Hs) as Hr. destruct Hs as (b & Hb & Hz & Hrb).
  destruct (moved_kept _ _ _ _ Hm p Hr Hr') as [Hk _]; [naive_solver|].
  destruct (Hk b Hb) as [r Hr2]. exists (set_refs r b). split_and!; [done..|].
  unfold refs in Hr'. rewrite Hr2 in Hr'. done.
Qed.

Lemma settled_moved W d s s' p :
  moved W d s s' -> settled s p -> 0 < refs s p -> 0 < refs s' p ->
  (forall b, heap s !! p = Some b -> ~ W (b_zone2_offset b)) -> settled s' p.
Proof. intros Hm Hs Hr Hr' Hw. by apply (moved_kept _ _ _ _ Hm p Hr Hr' Hw). Qed.

(** What [get_buffer] promises: a reference to a buffer of block [z2]. *)
Definition acquired (W : Z -> Prop) (z2 : Z) (s : state) (p : positive) (s' : state) : Prop :=
  wf s' /\ moved W (one_ref p) s s' /\ shows s' p z2 /\
  (refs s p = 0 \/ settled s p -> settled s' p).

Lemma acquired_quiet W z2 s p s1 s2 :
  acquired W z2 s p s1 -> wf s2 -> quiet s1 s2 -> acquired W z2 s p s2.
Proof.
  intros (Hwf1 & Hm & Hs & Hset) Hwf2 Hq.
  assert (forall q, refs s2 q = refs s1 q) as Hr.
  { intros q. rewrite (moved_refs _ _ _ _ Hq). unfold no_refs. lia. }
  pose proof (shows_refs _ _ _ Hs) as Hp. split_and!; [done|..].
  - eapply (moved_proper W W (λ q, one_ref p q + no_refs q)); [done|intros q; unfold no_refs; lia|].
    eapply moved_trans; [done|by eapply moved_proper; [| |exact Hq]|].
    intros q _. by rewrite Hr.
  - eapply shows_moved; [done..|by rewrite Hr|]. by intros [].
  - intros H. apply (settled_moved _ _ _ _ _ Hq); [auto|done|by rewrite Hr|]. by intros b _ [].
Qed.

Lemma settled_idle s p b :
  wf s -> heap s !! p = Some b -> refs s p = 0 \/ settled s p -> settled s p.
Proof.
  intros Hwf Hp [H0|]; [|done]. intros c vol Hc Hg Hm. assert (c = b) as -> by congruence.
  destruct (wf_buf s Hwf p b Hp) as (_ & _ & _ & _ & vol' & Hg' & _ & _ & _ & Hcl).
  unfold refs in H0. rewrite Hp in H0. rewrite Hg in Hg'. simplify_eq. auto.
Qed.

(** A buffer found in the cache. *)
Lemma acquired_found s p b :
  wf s -> heap s !! p = Some b ->
  acquired no_block (b_zone2_offset b) s p (set_heap <[p := set_refs (b_refs b + 1) b]> (used p s)).
Proof.
  intros Hwf Hb. destruct (used_spec s p Hwf) as [Hwf1 Hq1]; [eauto|].
  destruct (wf_buf s Hwf p b Hb) as (Hr & _).
  assert (wf (set_heap <[p:=set_refs (b_refs b + 1) b]> (used p s))) as Hwf2.
  { apply (wf_update (used p s) Hwf1 p b); [done..|]. eapply buf_ok_set_refs; [done..|lia|lia]. }
  pose proof (moved_update_refs (used p s) Hwf1 p b (set_refs (b_refs b + 1) b) Hb eq_refl eq_refl Hwf2 eq_refl) as Hm.
  split_and!; [done|..].
  - eapply moved_proper; [| |eapply moved_trans; [exact Hq1|exact Hm|]]; [done|..].
    + intros q. unfold no_refs, one_ref. st_simpl. destruct (decide (q = p)); lia.
    + intros q H1 _. rewrite (moved_refs _ _ _ _ Hq1). unfold no_refs. lia.
  - exists (set_refs (b_refs b + 1) b). st_simpl. rewrite lookup_insert_eq. split_and!; [done..|lia].
  - intros Hs%(settled_idle s p b); [|done..]. intros c vol. st_simpl. rewrite lookup_insert_eq.
    intros [= <-]. by apply (Hs b).
Qed.

Lemma allocated_ref i vol z2 data s :
  set_heap <[next_ptr s := set_refs 1 (alloc_buf 0 i vol z2 data)]> (allocated 0 i vol z2 data s) =
  allocated 1 i vol z2 data s.
Proof. unfold set_heap, allocated. st_simpl. by rewrite insert_insert_eq. Qed.

(** A buffer read in. *)
Lemma acquired_new s i vol z2 :
  wf s -> VolList s !! i = Some vol -> on_volume (strip vol) z2 ->
  (forall p b, heap s !! p = Some b -> b_zone2_offset b ≠ z2) ->
  acquired no_block z2 s (next_ptr s) (allocated 1 i vol z2 (file_block (files s) vol z2) s).
Proof.
  intros Hwf Hi Ho Hnew. assert (geo s !! i = Some (strip vol)) as Hg by by rewrite geo_lookup, Hi.
  destruct (file_block_ok (files s) (strip vol) z2) as [Hl Hd]; [by eapply wf_vol|].
  destruct (moved_allocated_read s Hwf i vol Hi z2 Ho _ Hl Hd Hnew eq_refl) as [Hm Hs].
  split_and!; [by apply wf_allocated|done| |done].
  eexists. cbn [heap allocated]. by rewrite lookup_insert_eq.
Qed.

Lemma get_buffer_zone2_read s off isnew :
  wf s -> isnew <= 0 -> valid_block s (block_base off) ->
  (isnew = -1 -> forall p b, heap s !! p = Some b -> b_zone2_offset b ≠ block_base off) ->
  wp (get_buffer_zone2 off isnew) s (λ pd s',
    acquired no_block (block_base off) s (fst pd) s' /\ (snd pd = true -> isnew = 0)).
Proof.
  intros Hwf Hnew Hval Hm1. destruct (valid_block_volume _ _ Hval) as (i & vol & Hi & Ho).
  unfold get_buffer_zone2. fold (block_base off). set (z2 := block_base off) in *.
  apply wp_bind. eapply wp_mono; [by eapply find_buffer_spec|]. intros found s0 [-> Hfound].
  assert (forall pd s1, acquired no_block z2 s (fst pd) s1 -> (snd pd = true -> isnew = 0) ->
    wp (hammer_cache_flush;; when (bool_decide (0 < isnew))
         (b ← load_buffer (fst pd); assertp (negb (b_modified b));;
          update_buffer (λ b, set_modified true (set_data zero_block b)) (fst pd));; mret pd) s1
       (λ pd s', acquired no_block z2 s (fst pd) s' /\ (snd pd = true -> isnew = 0))) as Hrest.
  { intros pd s1 Hacq Hd. apply wp_bind. pose proof Hacq as (Hwf1 & _).
    eapply wp_mono; [by apply hammer_cache_flush_lemma|]. intros [] s2 (Hwf2 & Hq & _).
    rewrite bool_decide_eq_false_2 by lia. apply wp_bind, wp_ret, wp_ret. split; [|done].
    by eapply acquired_quiet. }
  apply wp_bind. destruct found as [p|].
  - destruct Hfound as (b & Hb & Hz). apply wp_bind, wp_assertp.
    { apply bool_decide_eq_true_2. intros He. by apply (Hm1 He p b). }
    apply wp_bind, wp_modify, wp_ret, wp_bind. fold (used p s).
    eapply wp_Ok; [by apply update_buffer_eq|]. apply Hrest; [|done].
    rewrite <- Hz. by apply acquired_found.
  - apply wp_bind. eapply wp_Ok; [by eapply alloc_buffer_eq|]. apply wp_ret, wp_bind.
    eapply wp_Ok; [eapply update_buffer_eq, lookup_insert_eq|]. cbn [b_refs alloc_buf Z.add fst].
    rewrite allocated_ref. apply Hrest; [|intros H%bool_decide_eq_true; done].
    unfold alloc_data. rewrite (bool_decide_eq_true_2 (isnew <= 0)) by done. by apply acquired_new.
Qed.

Lemma acquired_rel z2 s p s1 :
  wf s -> acquired no_block z2 s p s1 -> wp (rel_buffer (Some p)) s1 (λ _ s2, wf s2 /\ quiet s s2).
Proof.
  intros Hwf (Hwf1 & Hm & Hs & Hset). pose proof (shows_refs _ _ _ Hs) as Hr.
  eapply wp_mono; [apply rel_buffer_spec; [done..|]|].
  { rewrite (moved_refs _ _ _ _ Hm). unfold one_ref. rewrite decide_True by done. intros H1. apply Hset. left. lia. } intros [] s2 [Hwf2 Hm2]. split; [done|].
  eapply moved_proper; [| |eapply moved_trans; [exact Hm|exact Hm2|]]; [done|..].
  - intros q. unfold one_ref, minus_ref, no_refs. destruct (decide (q = p)); lia.
  - intros q H1 _. rewrite (moved_refs _ _ _ _ Hm). unfold one_ref. destruct (decide (q = p)); lia.
Qed.

Lemma refs_nonneg s p : wf s -> 0 <= refs s p.
Proof.
  intros Hwf. unfold refs. destruct (heap s !! p) as [b|] eqn:Hb; [|done].
  by destruct (wf_buf s Hwf p b Hb).
Qed.

(** A buffer that shows [z2] later showed it before, or is new. *)
Lemma ext_ident W s s' p b z2 :
  ext W s s' -> wf s -> heap s !! p = Some b -> shows s' p z2 -> b_zone2_offset b = z2.
Proof.
  intros He Hwf Hb (b' & Hb' & <- & _). destruct (ext_stable _ _ _ He p b' Hb') as [Hn|(c & Hc & ->)].
  - pose proof (wf_ptr s Hwf p ltac:(eauto)). lia.
  - congruence.
Qed.

Lemma geo_volume s i vol : geo s !! i = Some vol -> exists vol', VolList s !! i = Some vol' /\ strip vol' = vol.
Proof. rewrite geo_lookup. intros (vol' & Hi & ->)%fmap_Some. eauto. Qed.

Lemma encode_raw_buffer_on_volume fs vol off :
  vol_ok fs vol -> 0 <= off < HAMMER_VOL_BUF_SIZE (v_ondisk vol) -> off mod HAMMER_BUFSIZE = 0 ->
  on_volume vol (HAMMER_ENCODE_RAW_BUFFER (v_vol_no vol) off).
Proof.
  intros (Hn & _ & Hm & Hsz & _) Ho Ha. unfold HAMMER_ENCODE_RAW_BUFFER.
  assert (in_u 52 off) by (unfold in_u; lia).
  rewrite encode_add by (done || (unfold in_u; lia)). unfold HAMMER_ZONE_RAW_BUFFER_INDEX, in_u in *.
  assert (in_u 64 (2 * 2 ^ 60 + v_vol_no vol * 2 ^ 52 + off)) by (unfold in_u; lia).
  split; [done|]. rewrite vol_decode_div by done. unfold HAMMER_BUFSIZE in *. split_and!; dlia.
Qed.

Lemma readahead_loop_spec n s v vol ri raw :
  wf s -> geo s !! v = Some vol -> (raw - vol_buf_beg (v_ondisk vol)) mod HAMMER_BUFSIZE = 0 ->
  wp (readahead_loop n v ri raw) s (λ _ s', wf s' /\ quiet s s').
Proof.
  revert s ri raw. induction n as [|n IH]; intros s ri raw Hwf Hv Ha; cbn [readahead_loop]; [by apply wp_ret|].
  destruct (geo_volume _ _ _ Hv) as (vol' & Hvol & Hst).
  apply wp_bind. eapply wp_Ok; [by apply load_volume_ptr_eq|].
  assert (v_ondisk vol' = v_ondisk vol) as -> by (subst; done).
  assert (v_vol_no vol' = v_vol_no vol) as -> by (subst; done).
  case_bool_decide as Hend; [by apply wp_ret|].
  assert ((raw + HAMMER_BUFSIZE - vol_buf_beg (v_ondisk vol)) mod HAMMER_BUFSIZE = 0) as Ha'.
  { unfold HAMMER_BUFSIZE in *. dlia. }
  case_bool_decide as Hbeg; cbn [orb]; [by apply IH|].
  case_bool_decide as Hri; [by apply IH|]. set (z2 := HAMMER_ENCODE_RAW_BUFFER _ _).
  assert (on_volume vol z2) as Hz.
  { eapply encode_raw_buffer_on_volume; [by eapply wf_vol|unfold HAMMER_VOL_BUF_SIZE; lia|done]. }
  assert (valid_block s z2) as Hval by (by exists v, vol).
  apply wp_bind. eapply wp_mono; [eapply find_buffer_spec; [done..|by subst vol]|]. intros found s0 [-> Hf].
  assert (forall s1, wf s1 -> quiet s s1 ->
    wp (readahead_loop n v (ri + 1) (raw + HAMMER_BUFSIZE)) s1 (λ _ s', wf s' /\ quiet s s')) as Hnext.
  { intros s1 Hwf1 Hq. eapply wp_mono; [apply IH; [done|by rewrite (ext_geo _ _ _ (moved_ext _ _ _ _ Hq))|done]|].
    intros [] s2 [? ?]. split; [done|]. by trans s1. }
  apply wp_bind. destruct found as [p|]; [by apply wp_ret, Hnext|].
  pose proof (block_base_valid s z2 Hval) as Hbase.
  apply wp_bind. eapply wp_mono; [apply get_buffer_zone2_read; rewrite ?Hbase; done|].
  rewrite Hbase. intros [p d] s1 [Hacq _]. cbn [fst] in *.
  eapply wp_mono; [by eapply acquired_rel|by intros [] s2 [? ?]; auto].
Qed.

Lemma get_buffer_readahead_spec s p :
  wf s -> is_Some (heap s !! p) -> wp (get_buffer_readahead p) s (λ _ s', wf s' /\ quiet s s').
Proof.
  intros Hwf [b Hb]. unfold get_buffer_readahead. apply wp_bind, wp_get, wp_bind.
  eapply wp_Ok; [by apply load_buffer_eq|].
  destruct (buf_volume s p b Hwf Hb) as (vol & f & Hv & Hg & Hok & Ho & Hraw & _).
  eapply readahead_loop_spec; [done..|]. rewrite Hraw. change (raw_of vol) with (raw_of (strip vol)).
  rewrite (raw_of_eq (files s)) by done. destruct Ho as (_ & _ & Ha & _). unfold HAMMER_BUFSIZE in *. dlia.
Qed.

Lemma quiet_acquired W z2 s s1 p s2 :
  wf s -> wf s1 -> quiet s s1 -> acquired W z2 s1 p s2 -> acquired W z2 s p s2.
Proof.
  intros Hwf Hwf1 Hq (Hwf2 & Hm & Hs & Hset).
  assert (forall q, refs s1 q = refs s q) as Hr.
  { intros q. rewrite (moved_refs _ _ _ _ Hq). unfold no_refs. lia. }
  split_and!; [done| |done|].
  - eapply (moved_proper W W (λ q, no_refs q + one_ref p q)); [done|intros q; unfold no_refs; lia|].
    eapply moved_trans; [by eapply moved_proper; [| |exact Hq]|done|].
    intros q Hq1 _. by rewrite Hr.
  - intros H. apply Hset. rewrite Hr. destruct (decide (refs s p = 0)) as [|Hne]; [by left|right].
    pose proof (refs_nonneg s p Hwf). destruct H as [|H]; [done|].
    apply (settled_moved _ _ _ _ _ Hq); [done|lia|rewrite Hr; lia|by intros b _ []].
Qed.

(** The translation of [off] gives the zone-2 offset [z], in [s] and whatever follows it. *)
Definition xlates (gbd : Z -> option positive -> Z -> M (option data_ptr)) (s : state) (off z : Z) : Prop :=
  z ≠ HAMMER_OFF_BAD /\ valid_block s (block_base z) /\
  forall s1, wf s1 -> ext no_block s s1 ->
    wp (__blockmap_xlate_to_zone2 gbd off) s1 (λ r s', r = z /\ wf s' /\ quiet s1 s').

Lemma get_buffer_read gbd s s1 off z :
  xlates gbd s off z -> wf s1 -> ext no_block s s1 ->
  wp (get_buffer gbd off 0) s1 (λ r s', exists p, r = Some p /\ acquired no_block (block_base z) s1 p s').
Proof.
  intros (Hbad & Hval & Hx) Hwf1 Hext. unfold get_buffer.
  apply wp_bind. eapply wp_mono; [by apply Hx|]. intros r s2 (-> & Hwf2 & Hq).
  rewrite bool_decide_eq_false_2 by done. apply wp_bind.
  eapply wp_mono; [apply get_buffer_zone2_read; [done..| |done]|].
  { apply (valid_block_geo s1 s2); [by apply Hq|]. by apply (valid_block_geo s s1); [apply Hext|]. }
  intros [p d] s3 [Hacq _]. cbn [fst snd] in *.
  apply (quiet_acquired _ _ _ _ _ _ Hwf1 Hwf2 Hq) in Hacq. pose proof Hacq as (Hwf3 & _ & (b & Hb & _) & _).
  apply wp_bind, wp_when; intros _.
  - eapply wp_mono; [apply get_buffer_readahead_spec; eauto|]. intros [] s4 [Hwf4 Hq4].
    apply wp_ret. exists p. split; [done|]. by eapply acquired_quiet.
  - apply wp_ret. by exists p.
Qed.

Definition opt_ref (o : option positive) : positive -> Z :=
  match o with Some p => one_ref p | None => no_refs end.

(** What [get_buffer_data] promises: [p] in place of [bufferp], showing block [z2]. *)
Definition delivered (bufferp : option positive) (z2 : Z) (s : state) (p : positive) (s' : state) : Prop :=
  wf s' /\ moved no_block (λ q, one_ref p q - opt_ref bufferp q) s s' /\ shows s' p z2 /\
  (refs s p = 0 \/ settled s p -> settled s' p).

Lemma get_buffer_data_body_read gbd s off bufferp z :
  wf s -> xlates gbd s off z ->
  (forall p0, bufferp = Some p0 -> (refs s p0 = 1 -> settled s p0) /\ exists z0, shows s p0 z0 /\
    wp (buffer_xor off p0) s (λ x s', s' = s /\ (x .& bnot 64 HAMMER_BUFMASK64 = 0 <-> z0 = block_base z))) ->
  wp (get_buffer_data_body gbd off bufferp 0) s (λ r s', exists p,
    r = Some (p, s32 off .& HAMMER_BUFMASK) /\ delivered bufferp (block_base z) s p s').
Proof.
  intros Hwf Hx Hb. unfold get_buffer_data_body. destruct bufferp as [p0|].
  - destruct (Hb p0 eq_refl) as (Hset & z0 & Hs & Hxor). pose proof (shows_refs _ _ _ Hs) as Hr.
    apply wp_bind, wp_bind. eapply wp_mono; [exact Hxor|]. intros x s0 [-> Hiff]. cbn [orb bool_decide].
    rewrite bool_decide_eq_false_2 by done. cbn [orb]. case_bool_decide as Hne.
    + apply wp_bind. eapply wp_mono; [by apply rel_buffer_spec|]. intros [] s1 [Hwf1 Hm].
      apply wp_ret, wp_bind. eapply wp_mono; [by eapply get_buffer_read; [|done|apply Hm]|].
      intros r s2 (p & -> & (Hwf2 & Hm2 & Hs2 & Hset2)). apply wp_ret. exists p. split; [done|].
      assert (p ≠ p0) as Hpp.
      { intros ->. destruct Hs as (b & Hb0 & Hz & _). apply Hne, Hiff. rewrite <- Hz.
        apply (ext_ident no_block s s2 p0 b); [|done..]. trans s1; [apply Hm|apply Hm2]. }
      assert (refs s1 p = refs s p) as Hrp.
      { rewrite (moved_refs _ _ _ _ Hm). unfold minus_ref. rewrite decide_False by done. lia. }
      split_and!; [done| |done|].
      * eapply moved_proper; [| |eapply moved_trans; [exact Hm|exact Hm2|]]; [done|..].
        -- intros q. unfold minus_ref, one_ref, opt_ref. unfold one_ref. repeat case_decide; lia.
        -- intros q H1 H3. rewrite (moved_refs _ _ _ _ Hm2) in H3. unfold one_ref in H3.
           case_decide as Hqp; [|lia]. subst q. by rewrite Hrp.
      * intros [H0|Hsp]; apply Hset2; [left; lia|].
        destruct (decide (refs s p = 0)); [left; lia|right]. pose proof (refs_nonneg s p Hwf).
        apply (settled_moved _ _ _ _ _ Hm); [done|lia..|by intros b _ []].
    + assert (z0 = block_base z) as -> by (apply Hiff; by destruct (decide (x .& bnot 64 HAMMER_BUFMASK64 = 0))).
      apply wp_bind, wp_modify, wp_ret, wp_bind, wp_ret, wp_ret. exists p0. split; [done|]. fold (used p0 s).
      destruct (used_spec s p0 Hwf) as [Hwf1 Hq]; [destruct Hs as (b & Hb0 & _); eauto|].
      split_and!; [done|..].
      * eapply moved_proper; [| |exact Hq]; [done|]. intros q. unfold no_refs, opt_ref. lia.
      * destruct Hs as (b & Hb0 & Hz & Hrb). by exists b.
      * intros [H0|Hsp]; [lia|done].
  - apply wp_bind, wp_ret, wp_bind. eapply wp_mono; [by eapply get_buffer_read|].
    intros r s1 (p & -> & (Hwf1 & Hm & Hs & Hset)). apply wp_ret. exists p. split; [done|]. split_and!; try done.
    eapply moved_proper; [| |exact Hm]; [done|]. intros q. cbn. unfold no_refs. lia.
Qed.
