(* ===== verification/Lookup.v ===== *)
(** * Lookup: address translation against a pure specification

    [lookup_spec] is what blockmap_lookup_save of blockmap.c computes, written as a pure
    function of the volume header and of the view of the blocks, with every error code.
    The theorems show that the code, which reads the freemap through the buffer cache,
    returns exactly this, gives back every reference on every path, and changes no
    content. *)

From S2P Require Import Prelude HammerDisk Layout CMonad Ondisk CacheInv Buffers.

(** ** Specification *)

(** The structure at a zone-2 offset. *)
Definition view_struct (A : Type) `{OnDisk A} (s : state) (off : Z) : A :=
  read_at A (view s (block_base off)) (Z.to_nat (off mod HAMMER_BUFSIZE)).

(** A zone-2 offset at which an [A] can be read. *)
Definition meta_ok (A : Type) `{OnDisk A} (s : state) (off : Z) : Prop :=
  in_u 64 off /\ off / 2 ^ 60 = 2 /\ valid_block s (block_base off) /\
  off mod HAMMER_BUFSIZE + Z.of_nat (sizeof A) <= HAMMER_BUFSIZE.

Definition layer1_offset (freemap : hammer_blockmap) (r : Z) : Z :=
  u64 (bm_phys_offset freemap + HAMMER_BLOCKMAP_LAYER1_OFFSET r).
Definition layer2_offset (l1 : hammer_blockmap_layer1) (r : Z) : Z :=
  u64 (l1_phys_offset l1 + HAMMER_BLOCKMAP_LAYER2_OFFSET r).

Definition layers_spec (s : state) (freemap : hammer_blockmap) (zone r : Z) : lookup_result :=
  let z1 := zeroed hammer_blockmap_layer1 in
  let z2 := zeroed hammer_blockmap_layer2 in
  let o1 := layer1_offset freemap r in
  if bool_decide (o1 / 2 ^ 60 <= 1) then Build_lookup_result r (-5) z1 z2
  else
    let l1 := view_struct hammer_blockmap_layer1 s o1 in
    if bool_decide (l1_phys_offset l1 = HAMMER_BLOCKMAP_UNAVAIL) then Build_lookup_result r (-6) z1 z2
    else
      let o2 := layer2_offset l1 r in
      if bool_decide (o2 / 2 ^ 60 <= 1) then Build_lookup_result r (-7) l1 z2
      else
        let l2 := view_struct hammer_blockmap_layer2 s o2 in
        if bool_decide (l2_zone l2 ≠ zone) then Build_lookup_result r (-8) l1 z2
        else Build_lookup_result r 0 l1 l2.

(** The zone-2 offset behind an offset, or the error found before the freemap is read. *)
Definition resolve (ondisk : hammer_volume_ondisk) (off : Z) : option (Z * Z) :=
  let zone := off / 2 ^ 60 in
  if bool_decide (zone <= 1) then Some (HAMMER_OFF_BAD, -1)
  else
    bm ← vol0_blockmap ondisk !! Z.to_nat zone;
    if bool_decide (8 <= zone) then
      Some (hammer_xlate_to_zone2 off,
            if bool_decide (bm_alloc_offset bm / 2 ^ 60 = zone) then 0 else -4)
    else if bool_decide (zone = 3) then
      if bool_decide (bm_alloc_offset bm <= off) then Some (HAMMER_OFF_BAD, -3)
      else r ← hammer_xlate_to_undo ondisk off; Some (r, 0)
    else Some (off, 0).

Definition lookup_spec (s : state) (ondisk : hammer_volume_ondisk) (off : Z) : option lookup_result :=
  re ← resolve ondisk off;
  if bool_decide (snd re ≠ 0) then Some (Build_lookup_result (fst re) (snd re) (zeroed _) (zeroed _))
  else
    freemap ← vol0_blockmap ondisk !! Z.to_nat HAMMER_ZONE_FREEMAP_INDEX;
    Some (layers_spec s freemap (off / 2 ^ 60) (fst re)).

(** The part of the freemap that decides about [r] can be read directly, or is reached
    through an address that is refused. *)
Definition layers_ok (s : state) (freemap : hammer_blockmap) (r : Z) : Prop :=
  let o1 := layer1_offset freemap r in
  let l1 := view_struct hammer_blockmap_layer1 s o1 in
  let o2 := layer2_offset l1 r in
  (1 < o1 / 2 ^ 60 -> meta_ok hammer_blockmap_layer1 s o1 /\
    (l1_phys_offset l1 ≠ HAMMER_BLOCKMAP_UNAVAIL -> 1 < o2 / 2 ^ 60 ->
     meta_ok hammer_blockmap_layer2 s o2)).

Definition lookup_ok (s : state) (ondisk : hammer_volume_ondisk) (off : Z) : Prop :=
  exists r e freemap, resolve ondisk off = Some (r, e) /\
    Forall (λ bm, in_u 64 (bm_alloc_offset bm)) (vol0_blockmap ondisk) /\
    vol0_blockmap ondisk !! Z.to_nat HAMMER_ZONE_FREEMAP_INDEX = Some freemap /\
    (e = 0 -> layers_ok s freemap r).

(** ** Reading structures through the cache *)

Lemma s32_bufmask off : s32 off .& HAMMER_BUFMASK = off mod HAMMER_BUFSIZE.
Proof.
  change HAMMER_BUFMASK with (Z.ones 14). rewrite land_ones_mod by done. unfold swrap, HAMMER_BUFSIZE. dlia.
Qed.

Lemma is_undo_raw off : in_u 64 off -> off / 2 ^ 60 ≠ 3 -> hammer_is_zone_undo off = false.
Proof. intros Ho Hz. apply not_true_is_false. by rewrite is_undo_div. Qed.

Lemma xor_blocks a b : (a .^ b) .& bnot 64 HAMMER_BUFMASK64 = 0 <-> block_base a = block_base b.
Proof.
  unfold block_base. set (m := bnot 64 HAMMER_BUFMASK64).
  rewrite <- (Z.lxor_eq_0_iff (a .& m) (b .& m)).
  replace (Z.lxor (a .& m) (b .& m)) with ((a .^ b) .& m); [done|].
  apply Z.bits_inj'. intros i Hi. rewrite !Z.lxor_spec, !Z.land_spec, Z.lxor_spec. btauto.
Qed.

(** The test of [get_buffer_data] for the directly translated zones. *)
Lemma buffer_xor_direct s p0 z0 off :
  wf s -> shows s p0 z0 -> in_u 64 off -> off / 2 ^ 60 = 2 \/ 8 <= off / 2 ^ 60 ->
  wp (buffer_xor off p0) s (λ x s', s' = s /\
    (x .& bnot 64 HAMMER_BUFMASK64 = 0 <-> z0 = block_base (2 * 2 ^ 60 + off mod 2 ^ 60))).
Proof.
  intros Hwf (b & Hb & <- & _) Ho Hz. unfold buffer_xor. apply wp_bind.
  eapply wp_Ok; [by apply load_buffer_eq|]. rewrite is_undo_raw by (done || lia).
  assert (hammer_is_zone_direct_xlated off = true) as ->.
  { unfold hammer_is_zone_direct_xlated, hammer_is_index_direct_xlated, hammer_is_index_record.
    rewrite zone_decode_div by done. unfold HAMMER_ZONE_RAW_BUFFER_INDEX, HAMMER_ZONE_BTREE_INDEX, HAMMER_MAX_ZONES.
    destruct Hz as [->|Hz]; [done|]. rewrite !(bool_decide_eq_true_2 (_ <= _)) by done.
    rewrite (bool_decide_eq_true_2 (_ < _)) by dlia. by rewrite !orb_true_r. }
  apply wp_ret. split; [done|].
  destruct (buf_volume s p0 b Hwf Hb) as (vol & _ & _ & _ & _ & (Hu & Hz2 & Ha & _) & _).
  rewrite xor_blocks, !long_encode_mod.
  rewrite !block_base_eq by dlia. unfold HAMMER_BUFSIZE in *. dlia.
Qed.

Lemma xlates_raw gbd s off :
  in_u 64 off -> off / 2 ^ 60 = 2 -> valid_block s (block_base off) -> xlates gbd s off off.
Proof.
  intros Ho Hz Hv. split; [intros ->; by vm_compute in Hz|]. split; [done|]. intros s1 Hwf1 _.
  pose proof (proj2 (is_raw_buffer_div off Ho) Hz) as Hraw.
  unfold __blockmap_xlate_to_zone2. rewrite Hraw. apply wp_bind, wp_ret. cbn [fst snd].
  rewrite bool_decide_eq_false_2 by (intros Hne; by apply Hne). by apply wp_bind, wp_assertp, wp_ret.
Qed.

(** [bufferp] is NULL or holds a buffer that may be given back. *)
Definition held_settled (s : state) (bufferp : option positive) : Prop :=
  forall p0, bufferp = Some p0 -> (refs s p0 = 1 -> settled s p0) /\ exists z0, shows s p0 z0.

Lemma get_buffer_data_raw n s off bufferp :
  wf s -> in_u 64 off -> off / 2 ^ 60 = 2 -> valid_block s (block_base off) -> held_settled s bufferp ->
  wp (get_buffer_data_n (S n) off bufferp 0) s (λ r s', exists p,
    r = Some (p, off mod HAMMER_BUFSIZE) /\ delivered bufferp (block_base off) s p s').
Proof.
  intros Hwf Ho Hz Hv Hb. cbn [get_buffer_data_n]. rewrite <- s32_bufmask.
  apply get_buffer_data_body_read; [done|by apply xlates_raw|]. intros p0 [Hs [z0 Hsh]]%Hb.
  split; [done|]. exists z0. split; [done|]. eapply wp_mono; [by eapply (buffer_xor_direct s p0 z0 off); auto|].
  cbn beta. replace (2 * 2 ^ 60 + off mod 2 ^ 60) with off by dlia. done.
Qed.

(** ** The layers *)

Lemma load_struct_view (A : Type) `{OnDisk A} s p off :
  wf s -> shows s p (block_base off) -> off mod HAMMER_BUFSIZE + Z.of_nat (sizeof A) <= HAMMER_BUFSIZE ->
  load_struct A (p, off mod HAMMER_BUFSIZE) s = Ok (view_struct A s off) s.
Proof.
  intros Hwf Hs Hsz. destruct (shows_view s p _ Hwf Hs) as (b & Hb & Hv).
  destruct (wf_buf s Hwf p b Hb) as (_ & _ & Hl & _).
  unfold load_struct. cbn [fst snd]. rewrite (bind_Ok _ _ _ b s) by by apply load_buffer_eq.
  pose proof (Z.mod_pos_bound off HAMMER_BUFSIZE ltac:(done)).
  rewrite !bool_decide_eq_true_2 by (rewrite ?Hl; lia). cbn [andb]. unfold view_struct. by rewrite <- Hv.
Qed.

Lemma view_struct_ext (A : Type) `{OnDisk A} s s' off :
  ext no_block s s' -> valid_block s (block_base off) -> view_struct A s' off = view_struct A s off.
Proof. intros He Hv. unfold view_struct. by rewrite (ext_view _ _ _ He) by (done || by intros []). Qed.

Lemma meta_ok_ext (A : Type) `{OnDisk A} s s' off :
  ext no_block s s' -> meta_ok A s off -> meta_ok A s' off.
Proof.
  intros He (? & ? & ? & ?). do 2 (split; [done|]). split; [|done].
  by apply (valid_block_geo s s'); [apply He|].
Qed.

(** Zones 0 and 1 are refused. *)
Lemma get_buffer_data_refused n s off :
  in_u 64 off -> off / 2 ^ 60 <= 1 -> get_buffer_data_n (S n) off None 0 s = Ok None s.
Proof.
  intros Ho Hz. cbn [get_buffer_data_n]. unfold get_buffer_data_body, get_buffer, __blockmap_xlate_to_zone2.
  assert (hammer_is_zone_raw_buffer off = false) as ->.
  { apply not_true_is_false. rewrite is_raw_buffer_div by done. lia. }
  unfold blockmap_lookup, blockmap_lookup_save. rewrite zone_decode_div by done.
  unfold HAMMER_ZONE_RAW_VOLUME_INDEX. by rewrite bool_decide_eq_true_2.
Qed.

(** Taking two references and giving them back, in the order taken. *)
Lemma delivered_acquired z2 s p s' : delivered None z2 s p s' -> acquired no_block z2 s p s'.
Proof.
  intros (Hwf & Hm & Hs & Hset). split_and!; [done| |done..].
  eapply moved_proper; [| |exact Hm]; [done|]. intros q. unfold opt_ref, no_refs. lia.
Qed.

Lemma acquired_two_rel z z' s p1 s1 p2 s2 :
  wf s -> acquired no_block z s p1 s1 -> acquired no_block z' s1 p2 s2 ->
  wp (rel_buffer (Some p1);; rel_buffer (Some p2)) s2 (λ _ s', wf s' /\ quiet s s').
Proof.
  intros Hwf (Hwf1 & Hm1 & Hs1 & Hset1) (Hwf2 & Hm2 & Hs2 & Hset2).
  pose proof (shows_refs _ _ _ Hs1) as Hr1. pose proof (shows_refs _ _ _ Hs2) as Hr2.
  assert (forall q, refs s2 q = refs s1 q + one_ref p2 q) as Hrefs2 by apply Hm2.
  assert (forall q, refs s1 q = refs s q + one_ref p1 q) as Hrefs1 by apply Hm1.
  pose proof (λ q, refs_nonneg s q Hwf) as Hpos.
  assert (0 < refs s2 p1) as Hr12 by (rewrite Hrefs2; unfold one_ref; case_decide; lia).
  assert (refs s p1 = 0 -> settled s2 p1) as Hst1.
  { intros H0. apply (settled_moved _ _ _ _ _ Hm2); [auto..|by intros b _ []]. }
  assert (refs s p2 = 0 -> settled s2 p2) as Hst2.
  { intros H0. destruct (decide (p2 = p1)) as [->|Hpp]; [auto|]. apply Hset2. left.
    rewrite Hrefs1. unfold one_ref. rewrite decide_False by done. lia. }
  apply wp_bind. eapply wp_mono; [apply rel_buffer_spec; [done..|]|].
  { rewrite Hrefs2, Hrefs1. pose proof (Hpos p1). unfold one_ref. rewrite (decide_True _ _ (eq_refl p1)).
    case_decide; [lia|]. intros Hone. apply Hst1. lia. }
  intros [] s3 [Hwf3 Hm3].
  assert (forall q, refs s3 q = refs s2 q + minus_ref p1 q) as Hrefs3 by apply Hm3.
  assert (0 < refs s3 p2) as Hr3.
  { rewrite Hrefs3, Hrefs2, Hrefs1. unfold one_ref, minus_ref. pose proof (Hpos p2). repeat case_decide; lia. }
  eapply wp_mono; [apply rel_buffer_spec; [done..|]|].
  { intros Hone. apply (settled_moved _ _ _ _ _ Hm3); [apply Hst2|done..|by intros b _ []].
    rewrite Hrefs3, Hrefs2, Hrefs1 in Hone. unfold one_ref, minus_ref in Hone. pose proof (Hpos p2).
    rewrite (decide_True _ _ (eq_refl p2)) in Hone. repeat case_decide; lia. }
  intros [] s4 [Hwf4 Hm4]. split; [done|].
  assert (forall q, refs s4 q = refs s3 q + minus_ref p2 q) as Hrefs4 by apply Hm4.
  eapply moved_proper; [| |eapply moved_trans; [exact Hm1|eapply moved_trans; [exact Hm2|
    eapply moved_trans; [exact Hm3|exact Hm4|]|]|]]; [done|..].
  - intros q. unfold one_ref, minus_ref, no_refs. repeat case_decide; lia.
  - intros q H2 H4. rewrite Hrefs4 in H4. unfold minus_ref in H4. case_decide; lia.
  - intros q H1 H4. rewrite Hrefs2. unfold one_ref. case_decide; lia.
  - intros q H1 H4. rewrite Hrefs1. unfold one_ref. case_decide; lia.
Qed.

Lemma lookup_layers_spec n s ondisk freemap zone r :
  wf s -> vol0_blockmap ondisk !! Z.to_nat HAMMER_ZONE_FREEMAP_INDEX = Some freemap ->
  layers_ok s freemap r ->
  wp (lookup_layers (get_buffer_data_n (S n)) zone r ondisk) s
     (λ res s', res = layers_spec s freemap zone r /\ wf s' /\ quiet s s').
Proof.
  intros Hwf Hf Hok. unfold lookup_layers, layers_spec. rewrite Hf. apply wp_bind, wp_ret, wp_bind.
  fold (layer1_offset freemap r). unfold layers_ok in Hok. set (o1 := layer1_offset freemap r) in *.
  assert (in_u 64 o1) as Ho1 by by apply in_u_uwrap.
  case_bool_decide as Hz1.
  { eapply wp_Ok; [by apply get_buffer_data_refused|]. apply wp_ret. by split_and!. }
  destruct Hok as [(_ & Hz & Hv1 & Hs1) Hok2]; [lia|].
  eapply wp_mono; [by apply (get_buffer_data_raw n s o1 None)|].
  intros d1 s1 (p1 & -> & Hd1%delivered_acquired). pose proof Hd1 as (Hwf1 & Hm1 & Hsh1 & _).
  pose proof (moved_ext _ _ _ _ Hm1) as He1.
  apply wp_bind. eapply wp_Ok; [by apply load_struct_view|]. rewrite (view_struct_ext _ s) by done.
  set (l1 := view_struct hammer_blockmap_layer1 s o1) in *. cbn [fst].
  case_bool_decide as Hun.
  { apply wp_bind. eapply wp_mono; [by eapply (acquired_rel _ s)|]. intros [] s2 [? ?]. apply wp_ret. by split_and!. }
  fold (layer2_offset l1 r). set (o2 := layer2_offset l1 r) in *.
  assert (in_u 64 o2) as Ho2 by by apply in_u_uwrap. apply wp_bind. case_bool_decide as Hz2.
  { eapply wp_Ok; [by apply get_buffer_data_refused|].
    apply wp_bind. eapply wp_mono; [by eapply (acquired_rel _ s)|]. intros [] s2 [? ?]. apply wp_ret. by split_and!. }
  destruct Hok2 as (_ & Hzz & Hv2 & Hs2); [done|lia|].
  assert (valid_block s1 (block_base o2)) as Hv2' by by (apply (valid_block_geo s s1); [apply He1|]).
  eapply wp_mono; [by apply (get_buffer_data_raw n s1 o2 None)|].
  intros d2 s2 (p2 & -> & Hd2%delivered_acquired). pose proof Hd2 as (Hwf2 & Hm2 & Hsh2 & _).
  apply wp_bind. eapply wp_Ok; [by apply (load_struct_view hammer_blockmap_layer2 s2 p2 o2)|]. cbn [fst].
  rewrite (view_struct_ext _ s); [|by trans s1; [|apply Hm2]|done].
  set (l2 := view_struct hammer_blockmap_layer2 s o2).
  pose proof (acquired_two_rel _ _ _ _ _ _ _ Hwf Hd1 Hd2) as Hrel.
  apply wp_inv in Hrel as ([] & s3 & Hrun & Hwf3 & Hq). unfold mbind, prog_bind in Hrun.
  apply wp_bind. destruct (rel_buffer (Some p1) s2) as [[] s2'|] eqn:E1; [|done].
  eapply wp_Ok; [done|]. apply wp_bind. eapply wp_Ok; [done|]. apply wp_ret.
  split_and!; [|done..]. by case_bool_decide.
Qed.

(** The volume with the freemap and the blockmaps. *)
Definition root_volume (s : state) (i : nat) (vol : volume_info) : Prop :=
  geo s !! i = Some vol /\ v_vol_no vol = HAMMER_ROOT_VOLNO.

Lemma get_root_volume_eq s i vol : wf s -> root_volume s i vol -> get_root_volume s = Ok (Some i) s.
Proof.
  intros Hwf [Hi Hn]. unfold get_root_volume, get_volume. rewrite (bind_Ok _ _ _ s s) by done.
  by rewrite get_volume_eq, <- Hn, (find_volume s i).
Qed.

Lemma blockmap_lookup_save_spec n s i vol off :
  wf s -> root_volume s i vol -> in_u 64 off -> lookup_ok s (v_ondisk vol) off ->
  wp (blockmap_lookup_save (get_buffer_data_n (S n)) off) s
     (λ res s', lookup_spec s (v_ondisk vol) off = Some res /\ wf s' /\ quiet s s').
Proof.
  intros Hwf Hroot Ho (r & e & freemap & Hres & Hall & Hf & Hlay).
  pose proof (get_root_volume_eq s i vol Hwf Hroot) as Hget. destruct Hroot as [Hi Hn].
  destruct (geo_volume _ _ _ Hi) as (vol' & Hvol & Hst).
  assert (v_ondisk vol' = v_ondisk vol) as Hod by (subst; done).
  unfold lookup_spec, blockmap_lookup_save. rewrite Hres. cbn [mbind option_bind fst snd]. rewrite Hf.
  match goal with |- wp _ _ ?P => set (Q := P) end.
  rewrite zone_decode_div by done. unfold resolve in Hres.
  change HAMMER_ZONE_RAW_VOLUME_INDEX with 1. case_bool_decide as H1.
  { simplify_eq. apply wp_ret. by split_and!. }
  rewrite bool_decide_eq_false_2 by (unfold HAMMER_MAX_ZONES; dlia).
  apply wp_bind. eapply wp_Ok; [done|]. apply wp_bind, wp_ret, wp_bind.
  eapply wp_Ok; [by apply load_volume_ptr_eq|]. rewrite Hod.
  destruct (vol0_blockmap (v_ondisk vol) !! Z.to_nat (off / 2 ^ 60)) as [bm|] eqn:Hbm; [|done].
  assert (in_u 64 (bm_alloc_offset bm)) as Halloc by exact (Forall_lookup_1 _ _ _ _ Hall Hbm).
  cbn [mbind option_bind] in Hres. apply wp_bind, wp_ret.
  unfold hammer_is_index_record, HAMMER_ZONE_BTREE_INDEX, HAMMER_MAX_ZONES.
  rewrite (bool_decide_eq_true_2 (off / 2 ^ 60 < 16)), andb_true_r by dlia.
  assert (forall rr, rr = r -> e = 0 ->
    wp (lookup_layers (get_buffer_data_n (S n)) (off / 2 ^ 60) rr (v_ondisk vol)) s Q) as Hlast.
  { intros rr -> He. subst Q. rewrite bool_decide_eq_false_2 by auto.
    eapply wp_mono; [by apply lookup_layers_spec; auto|]. intros res s' (-> & ? & ?). done. }
  case_bool_decide as H8.
  - rewrite zone_decode_div by done. destruct (decide (bm_alloc_offset bm / 2 ^ 60 = off / 2 ^ 60)) as [Hz|Hz].
    + rewrite (bool_decide_eq_true_2 _ Hz) in Hres. rewrite bool_decide_eq_false_2 by (intros Hn'; by apply Hn').
      simplify_eq. by apply Hlast.
    + rewrite (bool_decide_eq_false_2 _ Hz) in Hres. rewrite bool_decide_eq_true_2 by done.
      simplify_eq. apply wp_ret. by split_and!.
  - unfold HAMMER_ZONE_UNDO_INDEX. case_bool_decide as H3.
    + case_bool_decide as Hlim.
      * simplify_eq. apply wp_ret. by split_and!.
      * destruct (hammer_xlate_to_undo (v_ondisk vol) off) as [rr|]; [|done]. simplify_eq/=.
        apply wp_bind, wp_ret. by apply Hlast.
    + simplify_eq. by apply Hlast.
Qed.

(** ** get_buffer_data *)

Lemma layers_spec_ext s s' freemap zone r :
  ext no_block s s' -> layers_ok s freemap r ->
  layers_spec s' freemap zone r = layers_spec s freemap zone r /\ layers_ok s' freemap r.
Proof.
  intros He Hok. unfold layers_spec, layers_ok in *. case_bool_decide as Hz1; [split; [done|lia]|].
  destruct Hok as [Hm1 Hok2]; [lia|].
  rewrite !(view_struct_ext hammer_blockmap_layer1 s s' _ He) by apply Hm1.
  case_bool_decide as Hun; [split; [done|]; intros _; split; [by eapply meta_ok_ext|done]|].
  case_bool_decide as Hz2; [split; [done|]; intros _; split; [by eapply meta_ok_ext|lia]|].
  rewrite (view_struct_ext hammer_blockmap_layer2 s s' _ He) by (apply Hok2; [done|lia]).
  split; [done|]. intros _. split; [by eapply meta_ok_ext|]. intros _ _. eapply meta_ok_ext; [done|]. apply Hok2; [done|lia].
Qed.

Lemma lookup_spec_ext s s' ondisk off :
  ext no_block s s' -> lookup_ok s ondisk off ->
  lookup_spec s' ondisk off = lookup_spec s ondisk off /\ lookup_ok s' ondisk off.
Proof.
  intros He (r & e & freemap & Hres & Hall & Hf & Hlay). unfold lookup_spec. rewrite Hres.
  cbn [mbind option_bind fst snd]. rewrite Hf. cbn [mbind option_bind].
  destruct (decide (e = 0)) as [->|Hne].
  - destruct (layers_spec_ext s s' freemap (off / 2 ^ 60) r He (Hlay eq_refl)) as [Heq Hok'].
    rewrite Heq. split; [done|]. exists r, 0, freemap. by split_and!.
  - rewrite bool_decide_eq_true_2 by done. split; [done|]. exists r, e, freemap. by split_and!.
Qed.

Lemma root_volume_ext W s s' i vol : ext W s s' -> root_volume s i vol -> root_volume s' i vol.
Proof. intros He [Hi Hn]. split; [|done]. by rewrite (ext_geo _ _ _ He). Qed.

Lemma xlates_lookup n s i vol off res :
  root_volume s i vol -> in_u 64 off -> off / 2 ^ 60 ≠ 2 -> lookup_ok s (v_ondisk vol) off ->
  lookup_spec s (v_ondisk vol) off = Some res -> lr_error res = 0 ->
  in_u 64 (lr_offset res) -> lr_offset res / 2 ^ 60 = 2 -> valid_block s (block_base (lr_offset res)) ->
  xlates (get_buffer_data_n (S n)) s off (lr_offset res).
Proof.
  intros Hroot Ho Hz Hok Hspec Herr Hu Hz2 Hv.
  split; [intros Hbad; by rewrite Hbad in Hz2|]. split; [done|]. intros s1 Hwf1 Hext.
  destruct (lookup_spec_ext s s1 _ _ Hext Hok) as [Heq Hok1]. rewrite Hspec in Heq.
  unfold __blockmap_xlate_to_zone2, blockmap_lookup.
  assert (hammer_is_zone_raw_buffer off = false) as ->.
  { apply not_true_is_false. by rewrite is_raw_buffer_div. }
  apply wp_bind, wp_bind. eapply wp_mono; [eapply blockmap_lookup_save_spec; [done|by eapply root_volume_ext|done..]|].
  intros res' s' (Hr & Hwf' & Hq). assert (res' = res) as -> by congruence.
  apply wp_ret. cbn [fst snd]. rewrite bool_decide_eq_false_2 by auto.
  apply wp_bind, wp_assertp; [by apply is_raw_buffer_div|]. by apply wp_ret.
Qed.

(** [off] stands for the zone-2 offset [z]. *)
Definition translates (s : state) (ondisk : hammer_volume_ondisk) (off z : Z) : Prop :=
  in_u 64 off /\ in_u 64 z /\ z / 2 ^ 60 = 2 /\ valid_block s (block_base z) /\
  if bool_decide (off / 2 ^ 60 = 2) then z = off
  else lookup_ok s ondisk off /\ exists res,
    lookup_spec s ondisk off = Some res /\ lr_error res = 0 /\ lr_offset res = z.

Lemma resolve_offset ondisk off r e :
  in_u 64 off -> resolve ondisk off = Some (r, e) -> e = 0 ->
  (8 <= off / 2 ^ 60 -> r = 2 * 2 ^ 60 + off mod 2 ^ 60) /\
  (off / 2 ^ 60 = 3 -> hammer_xlate_to_undo ondisk off = Some r).
Proof.
  intros Ho. unfold resolve. case_bool_decide as H1; [by intros [= <- <-]|].
  destruct (vol0_blockmap ondisk !! _) as [bm|]; [|done]. cbn [mbind option_bind].
  case_bool_decide as H8; [intros [= <- _] _; split; [intros _; by apply xlate_to_zone2_add|lia]|].
  case_bool_decide as H3; [|intros [= <- <-] _; lia].
  case_bool_decide; [by intros [= <- <-]|].
  destruct (hammer_xlate_to_undo ondisk off) as [r'|]; [|done]. intros [= <- <-] _. split; [lia|done].
Qed.

Lemma lookup_offset s ondisk off res :
  lookup_spec s ondisk off = Some res -> lr_error res = 0 -> resolve ondisk off = Some (lr_offset res, 0).
Proof.
  unfold lookup_spec. destruct (resolve ondisk off) as [[r e]|]; [|done]. cbn [mbind option_bind fst snd].
  case_bool_decide as He; [intros [= <-]; done|]. assert (e = 0) as -> by lia.
  destruct (vol0_blockmap ondisk !! _) as [freemap|]; [|done]. cbn [mbind option_bind]. intros [= <-] _.
  unfold layers_spec. repeat case_bool_decide; done.
Qed.

(** [bufferp] may be given back, and for zone 3 lies on the root volume, whose UNDO array
    the test uses. *)
Definition bufferp_ok (s : state) (i : nat) (off : Z) (bufferp : option positive) : Prop :=
  forall p0, bufferp = Some p0 -> (refs s p0 = 1 -> settled s p0) /\ exists z0, shows s p0 z0 /\
    (off / 2 ^ 60 = 2 \/ 8 <= off / 2 ^ 60 \/
     off / 2 ^ 60 = 3 /\ forall b, heap s !! p0 = Some b -> b_volume b = i).

Lemma get_buffer_data_lemma n s i vol off bufferp z :
  wf s -> root_volume s i vol -> translates s (v_ondisk vol) off z -> bufferp_ok s i off bufferp ->
  wp (get_buffer_data_n (S (S n)) off bufferp 0) s (λ r s', exists p,
    r = Some (p, off mod HAMMER_BUFSIZE) /\ delivered bufferp (block_base z) s p s').
Proof.
  intros Hwf Hroot (Ho & Hu & Hz & Hv & Hx) Hb. cbn [get_buffer_data_n]. rewrite <- s32_bufmask.
  apply get_buffer_data_body_read; [done|..].
  - case_bool_decide as H2; [subst; by apply xlates_raw|]. destruct Hx as (Hok & res & Hs & He & <-).
    by eapply xlates_lookup.
  - intros p0 (Hset & z0 & Hs & Hzone)%Hb. split; [done|]. exists z0. split; [done|].
    assert (off / 2 ^ 60 ≠ 2 -> resolve (v_ondisk vol) off = Some (z, 0)) as Hres'.
    { intros Hne. rewrite bool_decide_eq_false_2 in Hx by done. destruct Hx as (_ & res & Hsp & He & <-).
      by eapply lookup_offset. }
    destruct Hzone as [H2|[H8|[H3 Hvol]]].
    + rewrite bool_decide_eq_true_2 in Hx by done. subst z.
      eapply wp_mono; [by eapply (buffer_xor_direct s p0 z0 off); auto|]. cbn beta.
      replace (2 * 2 ^ 60 + off mod 2 ^ 60) with off by dlia. done.
    + eapply wp_mono; [by eapply (buffer_xor_direct s p0 z0 off); auto|]. cbn beta.
      destruct (resolve_offset _ off z 0 Ho (Hres' ltac:(lia)) eq_refl) as [-> _]; [done|]. done.
    + destruct (resolve_offset _ off z 0 Ho (Hres' ltac:(lia)) eq_refl) as [_ Hundo].
      destruct Hs as (b & Hb0 & <- & _). unfold buffer_xor. apply wp_bind.
      eapply wp_Ok; [by apply load_buffer_eq|]. rewrite (proj2 (is_undo_div off Ho) H3).
      destruct Hroot as [Hi _]. destruct (geo_volume _ _ _ Hi) as (vol' & Hvol' & Hst).
      rewrite (Hvol b Hb0). apply wp_bind. eapply wp_Ok; [by apply load_volume_ptr_eq|].
      assert (v_ondisk vol' = v_ondisk vol) as -> by (subst; done). rewrite (Hundo H3).
      apply wp_bind, wp_ret, wp_ret. split; [done|]. rewrite xor_blocks.
      destruct (buf_volume s p0 b Hwf Hb0) as (_ & _ & _ & _ & _ & (Hub & _ & Ha & _) & _).
      rewrite (block_base_eq (b_zone2_offset b)), Ha by done. rewrite Z.sub_0_r. naive_solver.
Qed.
