(* ===== verification/Flush.v ===== *)
(** * Flush: writing volumes out

    [flush_volume] and [flush_all_volumes] of ondisk.c: after them the files hold what the
    cache showed, and the header of every volume. *)

From S2P Require Import Prelude HammerDisk Layout CMonad Ondisk CacheInv Buffers.

(** A loop over a list keeps an invariant of the elements done so far. *)
Lemma wp_mapM {A} (f : A -> M ()) (I : list A -> state -> Prop) l s :
  I [] s ->
  (forall pre x post s, l = pre ++ x :: post -> I pre s -> wp (f x) s (λ _ s', I (pre ++ [x]) s')) ->
  wp (mapM_ f l) s (λ _ s', I l s').
Proof.
  assert (forall post pre s, l = pre ++ post -> I pre s ->
    (forall pre x post s, l = pre ++ x :: post -> I pre s -> wp (f x) s (λ _ s', I (pre ++ [x]) s')) ->
    wp (mapM_ f post) s (λ _ s', I l s')) as H; [|intros; by apply (H l [])].
  induction post as [|x post IH]; intros pre s0 Hl HI Hstep; cbn [mapM_].
  - apply wp_ret. by rewrite Hl, app_nil_r.
  - apply wp_bind. eapply wp_mono; [by eapply Hstep|]. intros [] s1 HI1.
    apply (IH (pre ++ [x])); [by rewrite <- app_assoc|done..].
Qed.

(** ** Progress of a flush *)

(** Only flags and file contents differ. *)
Record flushing (s s' : state) : Prop := {
  fl_wf : wf s';
  fl_vols : VolList s' = VolList s;
  fl_ext : ext no_block s s';
  fl_heap : forall p b, heap s !! p = Some b -> exists m, heap s' !! p = Some (set_modified m b);
  fl_dom : forall p, is_Some (heap s' !! p) -> is_Some (heap s !! p);
}.

(** The file has the buffer's data. *)
Definition saved (s : state) (p : positive) : Prop :=
  forall b vol, heap s !! p = Some b -> VolList s !! b_volume b = Some vol -> v_rdonly vol = false ->
    file_block (files s) vol (b_zone2_offset b) = b_ondisk b.

Lemma flushing_refl s : wf s -> flushing s s.
Proof. intros Hwf. split; [done..| |done]. intros p b Hp. exists (b_modified b). rewrite Hp. by destruct b. Qed.

Section flushed.
Context (s : state) (Hwf : wf s) (p : positive) (b : buffer_info) (Hp : heap s !! p = Some b).
Context (vol : volume_info) (Hvol : VolList s !! b_volume b = Some vol).
Local Abbreviation s1 := (set_files (λ fs, write_out fs vol b) s).

Lemma geo_vol : geo s !! b_volume b = Some (strip vol).
Proof. by rewrite geo_lookup, Hvol. Qed.

(** The file of the buffer's block after the write. *)
Lemma file_block_written :
  v_rdonly vol = false -> file_block (files s1) vol (b_zone2_offset b) = b_ondisk b.
Proof.
  intros Hro. destruct (wf_buf s Hwf p b Hp) as (_ & _ & _ & _ & vol' & Hg & Ho & _).
  rewrite geo_vol in Hg. simplify_eq. change (file_block ?fs vol) with (file_block fs (strip vol)).
  st_simpl. rewrite (file_block_write_out s Hwf p b Hp vol Hvol _ _ _ geo_vol Ho).
  by rewrite bool_decide_eq_true_2.
Qed.

Lemma file_block_others i vol' z2 :
  geo s !! i = Some vol' -> on_volume vol' z2 -> z2 ≠ b_zone2_offset b ->
  file_block (files s1) vol' z2 = file_block (files s) vol' z2.
Proof.
  intros Hi Ho Hne. st_simpl. rewrite (file_block_write_out s Hwf p b Hp vol Hvol i) by done.
  rewrite bool_decide_eq_false_2; [done|]. by intros [? _].
Qed.

Lemma wf_written : wf s1.
Proof.
  pose proof Hwf as [H1 H2 H3 H4 H5 H6 H7 H8 H9 H10 H11]. split; try done.
  - intros i vol' Hi. by apply (vol_ok_write_out s Hwf p b Hp vol Hvol i).
  - intros q c Hq. change (heap s1) with (heap s) in Hq.
    destruct (wf_buf s Hwf q c Hq) as (_ & _ & _ & _ & vol0 & Hg0 & Ho0 & _ & Hro & Hcl).
    destruct (decide (b_zone2_offset c = b_zone2_offset b)) as [Hz|Hz].
    + assert (q = p) as -> by by eapply wf_uniq. assert (c = b) as -> by congruence.
      rewrite geo_vol in Hg0. simplify_eq.
      destruct (wf_buf s Hwf p b Hp) as (Hr & Hd & Hl & Hb & vol1 & Hg & Ho & Hraw & Hm & Hc).
      do 4 (split; [done|]). exists vol1. do 4 (split; [done|]). intros Hmod H0.
      rewrite geo_vol in Hg. simplify_eq. destruct (v_rdonly vol) eqn:Hrd.
      * st_simpl. unfold write_out. rewrite Hrd. by apply Hc.
      * symmetry. by apply file_block_written.
    + apply (buf_ok_transfer s); [by eapply wf_buf|done|]. intros vol' Hg Ho. by eapply file_block_others.
Qed.

Lemma view_written z2 : valid_block s z2 -> view s1 z2 = view s z2.
Proof.
  intros (i & vol' & Hi & Ho). pose proof Ho as (_ & _ & _ & Hd & _). pose proof wf_written as Hwf1.
  destruct (view_cases s i vol' z2 Hwf Hi Hd) as [(q & c & Hq & <- & ->)|[Hn ->]].
  - by apply (view_cached s1 q).
  - rewrite (view_file s1 i vol') by done. eapply file_block_others; [done..|]. intros ->. by apply (Hn p b).
Qed.

Lemma flushed_step : flushing s (flushed p b vol s).
Proof.
  pose proof wf_written as Hwf1.
  assert (wf (flushed p b vol s)) as Hwf2.
  { apply (wf_update s1 Hwf1 p b); [done..|].
    destruct (wf_buf s1 Hwf1 p b Hp) as (Hr & Hd & Hl & Hb & vol1 & Hg & Ho & Hraw & Hm & Hc).
    do 4 (split; [done|]). exists vol1. do 4 (split; [done|]). intros _ H0. st_simpl.
    change (geo s1) with (geo s) in Hg. rewrite geo_vol in Hg. simplify_eq.
    destruct (v_rdonly vol) eqn:Hrd; [|symmetry; by apply file_block_written].
    apply Hc; [|done]. destruct (b_modified b); [|done]. specialize (Hm eq_refl). cbn in Hm. congruence. }
  split; [done..| | |].
  - split; try done.
    + intros z2 Hv _. rewrite (view_update s1 Hwf1 p b (set_modified false b)) by done.
      case_bool_decide as Hz; [|by apply view_written]. subst z2. st_simpl.
      by rewrite (view_cached s p b).
    + intros q c Hq. right. unfold flushed in Hq. st_simpl.
      apply lookup_insert_Some in Hq as [[<- <-]|[_ Hq]]; [by exists b|by exists c].
  - intros q c Hq. unfold flushed. st_simpl. destruct (decide (q = p)) as [->|Hne].
    + rewrite lookup_insert_eq. exists false. congruence.
    + rewrite lookup_insert_ne by done. exists (b_modified c). rewrite Hq. by destruct c.
  - intros q. unfold flushed. st_simpl. rewrite lookup_insert_is_Some. intros [<-|[_ Hq]]; eauto.
Qed.

Lemma saved_flushed : saved (flushed p b vol s) p.
Proof.
  intros c vol'. unfold flushed. st_simpl. rewrite lookup_insert_eq. intros [= <-]. st_simpl.
  rewrite Hvol. intros [= <-] Hro. by apply file_block_written.
Qed.

Lemma saved_kept q : saved s q -> saved (flushed p b vol s) q.
Proof.
  destruct (decide (q = p)) as [->|Hne]; [intros _; apply saved_flushed|].
  intros Hs c vol'. unfold flushed. st_simpl. rewrite lookup_insert_ne by done. intros Hq Hv Hro.
  rewrite <- (Hs c vol') by done. destruct (wf_buf s Hwf q c Hq) as (_ & _ & _ & _ & vol0 & Hg & Ho & _).
  rewrite geo_lookup, Hv in Hg. cbn in Hg. simplify_eq.
  change (file_block ?fs vol') with (file_block fs (strip vol')).
  eapply file_block_others; [by rewrite geo_lookup, Hv|done|]. intros Hz. apply Hne. by eapply wf_uniq.
Qed.
End flushed.

Lemma flushing_trans s1 s2 s3 : flushing s1 s2 -> flushing s2 s3 -> flushing s1 s3.
Proof.
  intros [W12 V12 E12 H12 D12] [W23 V23 E23 H23 D23]. split; [done|congruence|by trans s2| |auto].
  intros p b (m & Hm)%H12. destruct (H23 _ _ Hm) as [m' Hm']. exists m'. by destruct b.
Qed.

(** ** Headers *)

Definition header (vol : volume_info) : bytes := encode (v_ondisk vol) ++ v_ondisk_rest vol.
Definition header_ok (vol : volume_info) : Prop :=
  valid (v_ondisk vol) /\ bytes_ok (v_ondisk_rest vol) /\
  (sizeof hammer_volume_ondisk + length (v_ondisk_rest vol))%nat = Z.to_nat HAMMER_BUFSIZE.

(** The first block of the volume's file. *)
Definition file_header (fs : gmap Z file) (vol : volume_info) : bytes :=
  match fs !! v_fd vol with
  | Some f => file_read f 0 (Z.to_nat HAMMER_BUFSIZE)
  | None => []
  end.

Lemma header_length vol : header_ok vol -> length (header vol) = Z.to_nat HAMMER_BUFSIZE /\ bytes_ok (header vol).
Proof.
  intros (Hv & Hb & Hl). unfold header. rewrite length_app, length_encode by done. split; [done|].
  apply Forall_app. split; [by apply encode_ok|done].
Qed.

(** Writing a buffer leaves all headers alone. *)
Lemma file_header_write_out s p b vol i vol' :
  wf s -> heap s !! p = Some b -> VolList s !! b_volume b = Some vol -> geo s !! i = Some vol' ->
  file_header (write_out (files s) vol b) vol' = file_header (files s) vol'.
Proof.
  intros Hwf Hp Hvol Hi. destruct (buf_volume s p b Hwf Hp) as (vol0 & f & Hv0 & Hg & Hok & Hob & Hr & Hf & _).
  assert (vol0 = vol) as -> by congruence. unfold write_out, file_header. destruct (v_rdonly vol); [done|].
  rewrite Hf. destruct (decide (v_fd vol' = v_fd vol)) as [Hfd|Hfd]; [|by rewrite lookup_insert_ne].
  rewrite Hfd, lookup_insert_eq, Hf. apply file_read_write_apart.
  left. rewrite Hr. change (raw_of vol) with (raw_of (strip vol)). rewrite (raw_of_eq (files s)) by done.
  destruct Hok as (_ & Hb & _). pose proof (Z.mod_pos_bound (b_zone2_offset b) (2 ^ 52)).
  unfold HAMMER_BUFSIZE in *. lia.
Qed.

Section header.
Context (s : state) (Hwf : wf s) (v : nat) (vol : volume_info).
Context (Hvol : VolList s !! v = Some vol) (Hh : header_ok vol).

Definition write_header (fs : gmap Z file) : gmap Z file :=
  if v_rdonly vol then fs
  else match fs !! v_fd vol with
       | Some f => <[v_fd vol := file_write f 0 (header vol)]> fs
       | None => fs
       end.
Local Abbreviation s1 := (set_files write_header s).

Lemma header_file :
  exists f, files s !! v_fd vol = Some f /\ (forall o, in_u 8 (f_data f o)) /\
    HAMMER_BUFSIZE <= f_size f.
Proof.
  destruct (wf_vol s Hwf v (strip vol)) as (_ & Hb & _ & Hsz & f & Hf & Hd & Hs).
  { by rewrite geo_lookup, Hvol. }
  exists f. split_and!; [done..|]. unfold HAMMER_VOL_BUF_SIZE in Hsz. cbn [v_ondisk strip set_buffer_lists] in *. lia.
Qed.

Lemma writehammervol_eq : writehammervol v s = Ok 0 s1.
Proof.
  destruct header_file as (f & Hf & _ & Hs). destruct (header_length vol Hh) as [Hl _].
  unfold writehammervol. rewrite (bind_Ok _ _ _ vol s) by by apply load_volume_ptr_eq.
  fold (header vol). unfold __write. rewrite (bind_Ok _ _ _ vol s) by by apply load_volume_ptr_eq.
  unfold write_header. destruct (v_rdonly vol); [by rewrite set_files_id|].
  rewrite (bind_Ok _ _ _ s s) by done. rewrite Hf. rewrite (bind_Ok _ _ _ f s) by done.
  rewrite pwrite_full by (rewrite ?Hl; unfold HAMMER_BUFSIZE in *; lia).
  rewrite (bind_Ok _ _ _ () (set_files <[v_fd vol:=file_write f 0 (header vol)]> s)) by done.
  rewrite bool_decide_eq_true_2 by done. unfold set_files. by rewrite Hf.
Qed.

Lemma file_block_header i vol' z2 :
  geo s !! i = Some vol' -> on_volume vol' z2 ->
  file_block (files s1) vol' z2 = file_block (files s) vol' z2.
Proof.
  intros Hi Ho. destruct header_file as (f & Hf & _). st_simpl. unfold write_header, file_block.
  destruct (v_rdonly vol); [done|]. rewrite Hf.
  destruct (decide (v_fd vol' = v_fd vol)) as [Hfd|Hfd]; [|by rewrite lookup_insert_ne].
  rewrite Hfd, lookup_insert_eq, Hf. apply file_read_write_apart. right.
  destruct (header_length vol Hh) as [-> _]. pose proof (wf_vol s Hwf i vol' Hi) as Hok.
  rewrite (raw_of_eq (files s)) by done. destruct Hok as (_ & Hb & _).
  pose proof (Z.mod_pos_bound z2 (2 ^ 52)). unfold HAMMER_BUFSIZE in *. lia.
Qed.

Lemma vol_ok_header i vol' : geo s !! i = Some vol' -> vol_ok (files s1) vol'.
Proof.
  intros Hi. destruct (wf_vol s Hwf i vol' Hi) as (Hn & Hb & Hm & Hz & f & Hf & Hok & Hs).
  destruct header_file as (g & Hg & _ & Hgs). destruct (header_length vol Hh) as [Hl Hbytes].
  do 4 (split; [done|]). st_simpl. unfold write_header. destruct (v_rdonly vol); [by exists f|]. rewrite Hg.
  destruct (decide (v_fd vol' = v_fd vol)) as [Hfd|Hfd].
  - rewrite Hfd, lookup_insert_eq. eexists. split; [done|]. assert (f = g) as -> by congruence.
    split; [by apply file_write_ok|]. cbn [f_size file_write]. rewrite Hl. unfold HAMMER_BUFSIZE in *. lia.
  - rewrite lookup_insert_ne by done. by exists f.
Qed.

Lemma header_step : flushing s s1.
Proof.
  assert (wf s1) as Hwf1.
  { pose proof Hwf as [H1 H2 H3 H4 H5 H6 H7 H8 H9 H10 H11]. split; try done.
    - intros i vol' Hi. by eapply vol_ok_header.
    - intros q c Hq. apply (buf_ok_transfer s); [by eapply wf_buf|done|].
      intros vol' Hg Ho. by eapply file_block_header. }
  split; [done..| | |done].
  - split; try done; [|intros q c Hq; right; by exists c].
    intros z2 (i & vol' & Hi & Ho) _. pose proof Ho as (_ & _ & _ & Hd & _).
    destruct (view_cases s i vol' z2 Hwf Hi Hd) as [(q & c & Hq & <- & ->)|[Hn ->]].
    + by apply (view_cached s1 q).
    + rewrite (view_file s1 i vol') by done. by eapply file_block_header.
  - intros q c Hq. exists (b_modified c). st_simpl. rewrite Hq. by destruct c.
Qed.

Lemma saved_header q : saved s q -> saved s1 q.
Proof.
  intros Hs c vol'. change (heap s1) with (heap s). change (VolList s1) with (VolList s). intros Hq Hv Hro.
  rewrite <- (Hs c vol') by done. destruct (wf_buf s Hwf q c Hq) as (_ & _ & _ & _ & vol0 & Hg & Ho & _).
  rewrite geo_lookup, Hv in Hg. cbn in Hg. simplify_eq.
  change (file_block ?fs vol') with (file_block fs (strip vol')).
  eapply file_block_header; [by rewrite geo_lookup, Hv|done].
Qed.

Lemma file_header_written i vol' :
  VolList s !! i = Some vol' ->
  file_header (files s1) vol' =
  if bool_decide (i = v /\ v_rdonly vol = false) then header vol else file_header (files s) vol'.
Proof.
  intros Hi. destruct header_file as (f & Hf & _). destruct (header_length vol Hh) as [Hl _].
  st_simpl. unfold write_header, file_header. destruct (v_rdonly vol) eqn:Hro.
  { rewrite bool_decide_eq_false_2; [done|]. by intros [_ ?]. }
  rewrite Hf. destruct (decide (i = v)) as [->|Hne].
  - assert (vol' = vol) as -> by congruence.
    rewrite bool_decide_eq_true_2, lookup_insert_eq, <- Hl by done. apply file_read_write_same.
  - rewrite bool_decide_eq_false_2 by (by intros [? _]). rewrite lookup_insert_ne; [done|]. intros Hfd.
    apply Hne. eapply (nodup_fmap_inj (v_fd) (geo s)); [by apply wf_fd|by rewrite geo_lookup, Hi|by rewrite geo_lookup, Hvol|done].
Qed.
End header.

(** ** Volumes *)

Definition header_saved (s : state) (v : nat) : Prop :=
  forall vol, VolList s !! v = Some vol -> v_rdonly vol = false -> file_header (files s) vol = header vol.

(** A flush that keeps what is saved. *)
Definition carries (s s' : state) : Prop :=
  flushing s s' /\ (forall q, saved s q -> saved s' q) /\ (forall w, header_saved s w -> header_saved s' w).

Lemma carries_trans s1 s2 s3 : carries s1 s2 -> carries s2 s3 -> carries s1 s3.
Proof. intros (F1 & S1 & H1) (F2 & S2 & H2). split_and!; eauto using flushing_trans. Qed.

Lemma flush_buffer_carries s p :
  wf s -> is_Some (heap s !! p) -> wp (flush_buffer p) s (λ _ s', carries s s' /\ saved s' p).
Proof.
  intros Hwf [b Hp].
  destruct (buf_volume s p b Hwf Hp) as (vol & f & Hvol & _ & _ & _ & _ & Hf & Hr & Hs).
  eapply wp_Ok; [by eapply flush_buffer_eq|].
  split; [|by apply saved_flushed]. split_and!; [by apply flushed_step|intros q; by apply saved_kept|].
  intros w Hw vol' Hv Hro. change (VolList (flushed p b vol s)) with (VolList s) in Hv.
  rewrite <- (Hw vol') by done. change (file_header ?fs vol') with (file_header fs (strip vol')).
  unfold flushed. st_simpl. eapply file_header_write_out; [done..|by rewrite geo_lookup, Hv].
Qed.

Lemma flushing_is_Some s s' p : flushing s s' -> is_Some (heap s !! p) -> is_Some (heap s' !! p).
Proof. intros [_ _ _ H _] [b Hb]. destruct (H p b Hb). eauto. Qed.

Lemma flush_list s l :
  wf s -> (forall p, p ∈ l -> is_Some (heap s !! p)) ->
  wp (mapM_ flush_buffer l) s (λ _ s', (s' = s \/ carries s s') /\ wf s' /\ forall p, p ∈ l -> saved s' p).
Proof.
  intros Hwf Hl. apply (wp_mapM _ (λ l s', (s' = s \/ carries s s') /\ wf s' /\ forall p, p ∈ l -> saved s' p)).
  - split_and!; [by left|done|]. by intros p ?%not_elem_of_nil.
  - intros pre x post s1 -> (Hc & Hwf1 & Hs).
    assert (is_Some (heap s1 !! x)) as Hx.
    { assert (is_Some (heap s !! x)) by (apply Hl, elem_of_app; right; left).
      destruct Hc as [->|(Hf & _)]; [done|]. by eapply flushing_is_Some. }
    eapply wp_mono; [by apply flush_buffer_carries|]. intros [] s2 [Hc2 Hs2].
    split_and!; [right|apply Hc2|].
    + destruct Hc as [->|Hc]; [done|]. by eapply carries_trans.
    + intros p [Hp| ->%list_elem_of_singleton]%elem_of_app; [|done]. destruct Hc2 as (_ & Hk & _). auto.
Qed.

Lemma flush_buckets s ls :
  wf s -> (forall l p, l ∈ ls -> p ∈ l -> is_Some (heap s !! p)) ->
  wp (mapM_ (mapM_ flush_buffer) ls) s (λ _ s', (s' = s \/ carries s s') /\ wf s' /\
    forall l p, l ∈ ls -> p ∈ l -> saved s' p).
Proof.
  intros Hwf Hl. apply (wp_mapM _ (λ ls s', (s' = s \/ carries s s') /\ wf s' /\
    forall l p, l ∈ ls -> p ∈ l -> saved s' p)).
  - split_and!; [by left|done|]. by intros l p ?%not_elem_of_nil.
  - intros pre x post s1 -> (Hc & Hwf1 & Hs). eapply wp_mono; [apply flush_list; [done|]|].
    { intros p Hp. assert (is_Some (heap s !! p)).
      { eapply Hl; [|done]. apply elem_of_app. right. left. }
      destruct Hc as [->|(Hf & _)]; [done|]. by eapply flushing_is_Some. }
    intros [] s2 (Hc2 & Hwf2 & Hs2). split_and!; [|done|].
    + destruct Hc2 as [->|Hc2]; [done|]. right. destruct Hc as [->|Hc]; [done|]. by eapply carries_trans.
    + intros l p [Hin| ->%list_elem_of_singleton]%elem_of_app Hp; [|auto].
      specialize (Hs l p Hin Hp). destruct Hc2 as [->|(_ & Hk & _)]; auto.
Qed.

Lemma flush_volume_spec s v vol :
  wf s -> VolList s !! v = Some vol -> header_ok vol ->
  wp (flush_volume v) s (λ _ s', carries s s' /\ header_saved s' v /\
    forall p b, heap s' !! p = Some b -> b_volume b = v -> saved s' p).
Proof.
  intros Hwf Hv Hh. unfold flush_volume. apply wp_bind. eapply wp_Ok; [by apply load_volume_ptr_eq|].
  apply wp_bind. eapply wp_mono; [apply flush_buckets; [done|]|].
  { intros l p [h Hl]%list_elem_of_lookup Hp. destruct (wf_bucket s Hwf v vol h l Hv Hl) as [_ Hb].
    apply Hb in Hp as (b & Hb' & _). eauto. }
  intros [] s1 (Hc & Hwf1 & Hs1).
  assert (VolList s1 !! v = Some vol) as Hv1 by (destruct Hc as [->|[[_ -> _ _ _] _]]; done).
  apply wp_bind. eapply wp_Ok; [by eapply writehammervol_eq|]. rewrite bool_decide_eq_false_2 by done.
  apply wp_ret. assert (carries s1 (set_files (write_header vol) s1)) as Hc1.
  { split_and!; [by eapply header_step|intros q; by eapply saved_header|].
    intros w Hw vol' Hvol' Hro. change (VolList (set_files (write_header vol) s1)) with (VolList s1) in Hvol'.
    rewrite (file_header_written s1 Hwf1 v vol Hv1 Hh w vol' Hvol'). case_bool_decide as Hcase; [|auto].
    destruct Hcase as [-> _]. congruence. }
  split_and!.
  - destruct Hc as [->|Hc]; [done|]. by eapply carries_trans.
  - intros vol' Hvol' Hro. change (VolList (set_files (write_header vol) s1)) with (VolList s1) in Hvol'.
    assert (vol' = vol) as -> by congruence.
    rewrite (file_header_written s1 Hwf1 v vol Hv1 Hh v vol Hvol'). by rewrite bool_decide_eq_true_2.
  - intros p b Hp Hbv. change (heap (set_files (write_header vol) s1)) with (heap s1) in Hp.
    apply Hc1.
    destruct (bucket_lookup s1 v vol (b_zone2_offset b) Hwf1 Hv1) as [l Hl].
    destruct (wf_bucket s1 Hwf1 v vol _ l Hv1 Hl) as [_ Hb].
    eapply (Hs1 l); [by eapply list_elem_of_lookup_2|]. apply Hb. by exists b.
Qed.

Lemma flush_all_volumes_lemma s :
  wf s -> (forall v vol, VolList s !! v = Some vol -> header_ok vol) ->
  wp flush_all_volumes s (λ _ s', flushing s s' /\ (forall p, saved s' p) /\ forall v, header_saved s' v).
Proof.
  intros Hwf Hh. unfold flush_all_volumes. apply wp_bind, wp_get.
  eapply wp_mono; [apply (wp_mapM _ (λ l s', flushing s s' /\ forall v, v ∈ l -> header_saved s' v /\
    forall p b, heap s' !! p = Some b -> b_volume b = v -> saved s' p))|].
  - split; [by apply flushing_refl|]. by intros v ?%not_elem_of_nil.
  - intros pre v post s1 Hl [Hf Hs].
    assert (v < length (VolList s))%nat as Hlt.
    { assert (v ∈ seq 0 (length (VolList s))) as Hin by (rewrite Hl; apply elem_of_app; right; left).
      apply elem_of_seq in Hin. lia. }
    apply lookup_lt_is_Some in Hlt as [vol Hvol].
    assert (VolList s1 !! v = Some vol) as Hvol1 by by rewrite (fl_vols _ _ Hf).
    eapply wp_mono; [eapply flush_volume_spec; [apply Hf|done|by eapply Hh]|].
    intros [] s2 ((Hf2 & Hs2 & Hh2) & Hhv & Hbv). split; [by eapply flushing_trans|].
    intros w [[Hw1 Hw2]%Hs| ->%list_elem_of_singleton]%elem_of_app; [|done]. split; [auto|].
    intros p b Hp Hb. destruct (fl_dom _ _ Hf2 p) as [c Hc]; [eauto|].
    apply Hs2, (Hw2 p c Hc). destruct (fl_heap _ _ Hf2 p c Hc) as [m Hm]. rewrite Hp in Hm. by simplify_eq.
  - intros [] s' [Hf Hs].
    assert (forall v, is_Some (VolList s' !! v) -> v ∈ seq 0 (length (VolList s))) as Hin.
    { intros v Hv%lookup_lt_is_Some. rewrite (fl_vols _ _ Hf) in Hv. apply elem_of_seq. lia. }
    split_and!; [done|..].
    + intros p b vol Hb Hvol Hro. destruct (Hs (b_volume b)) as [_ Hsv]; [eauto|].
      by apply (Hsv p b Hb eq_refl b vol).
    + intros v vol Hvol Hro. destruct (Hs v) as [Hh1 _]; eauto.
Qed.
