(* ===== verification/Blockmap.v ===== *)
(** * Blockmap: allocating big-blocks and elements

    The allocator of src/sbin/hammer/blockmap.c and the element allocators and formatting
    routines of ondisk.c: [bootstrap_bigblock], [alloc_undo_bigblock], [alloc_blockmap],
    [alloc_btree_node], [alloc_meta_element], [format_blockmap], [format_freemap],
    [initialize_freemap], [count_freemap] and [format_undomap].  Structures inside a buffer
    are read and stored through data pointers; a field assignment followed by the CRC
    update is one store of the final structure. *)

From S2P Require Import Prelude HammerDisk Layout HammerCrc CMonad Ondisk.

(** ** Field updates *)

Definition set_bm_next_offset (v : Z) (b : hammer_blockmap) : hammer_blockmap :=
  {| bm_phys_offset := bm_phys_offset b; bm_first_offset := bm_first_offset b;
     bm_next_offset := v; bm_alloc_offset := bm_alloc_offset b; bm_reserved01 := bm_reserved01 b;
     bm_entry_crc := bm_entry_crc b |}.

Definition set_l1_blocks_free (v : Z) (l : hammer_blockmap_layer1) : hammer_blockmap_layer1 :=
  {| l1_blocks_free := v; l1_phys_offset := l1_phys_offset l; l1_reserved01 := l1_reserved01 l;
     l1_layer2_crc := l1_layer2_crc l; l1_layer1_crc := l1_layer1_crc l |}.

Definition set_l1_phys_offset (v : Z) (l : hammer_blockmap_layer1) : hammer_blockmap_layer1 :=
  {| l1_blocks_free := l1_blocks_free l; l1_phys_offset := v; l1_reserved01 := l1_reserved01 l;
     l1_layer2_crc := l1_layer2_crc l; l1_layer1_crc := l1_layer1_crc l |}.

Definition set_l2_zone (v : Z) (l : hammer_blockmap_layer2) : hammer_blockmap_layer2 :=
  {| l2_zone := v; l2_reserved01 := l2_reserved01 l; l2_reserved02 := l2_reserved02 l;
     l2_append_off := l2_append_off l; l2_bytes_free := l2_bytes_free l;
     l2_entry_crc := l2_entry_crc l |}.

Definition set_l2_append_off (v : Z) (l : hammer_blockmap_layer2) : hammer_blockmap_layer2 :=
  {| l2_zone := l2_zone l; l2_reserved01 := l2_reserved01 l; l2_reserved02 := l2_reserved02 l;
     l2_append_off := v; l2_bytes_free := l2_bytes_free l; l2_entry_crc := l2_entry_crc l |}.

Definition set_l2_bytes_free (v : Z) (l : hammer_blockmap_layer2) : hammer_blockmap_layer2 :=
  {| l2_zone := l2_zone l; l2_reserved01 := l2_reserved01 l; l2_reserved02 := l2_reserved02 l;
     l2_append_off := l2_append_off l; l2_bytes_free := v; l2_entry_crc := l2_entry_crc l |}.

Definition set_vol0_stat_freebigblocks (v : Z) (o : hammer_volume_ondisk) : hammer_volume_ondisk :=
  {| vol_signature := vol_signature o; vol_bot_beg := vol_bot_beg o;
     vol_mem_beg := vol_mem_beg o; vol_buf_beg := vol_buf_beg o; vol_buf_end := vol_buf_end o;
     vol_reserved01 := vol_reserved01 o; vol_fsid := vol_fsid o; vol_fstype := vol_fstype o;
     vol_label := vol_label o; vol_no := vol_no o; vol_count := vol_count o;
     vol_version := vol_version o; vol_crc := vol_crc o; vol_flags := vol_flags o;
     vol_rootvol := vol_rootvol o; vol_reserved := vol_reserved o;
     vol0_stat_bigblocks := vol0_stat_bigblocks o; vol0_stat_freebigblocks := v;
     vol0_reserved01 := vol0_reserved01 o; vol0_stat_inodes := vol0_stat_inodes o;
     vol0_reserved02 := vol0_reserved02 o; vol0_btree_root := vol0_btree_root o;
     vol0_next_tid := vol0_next_tid o; vol0_reserved03 := vol0_reserved03 o;
     vol0_blockmap := vol0_blockmap o; vol0_undo_array := vol0_undo_array o |}.

Definition set_vol0_blockmap (v : list hammer_blockmap) (o : hammer_volume_ondisk) : hammer_volume_ondisk :=
  {| vol_signature := vol_signature o; vol_bot_beg := vol_bot_beg o;
     vol_mem_beg := vol_mem_beg o; vol_buf_beg := vol_buf_beg o; vol_buf_end := vol_buf_end o;
     vol_reserved01 := vol_reserved01 o; vol_fsid := vol_fsid o; vol_fstype := vol_fstype o;
     vol_label := vol_label o; vol_no := vol_no o; vol_count := vol_count o;
     vol_version := vol_version o; vol_crc := vol_crc o; vol_flags := vol_flags o;
     vol_rootvol := vol_rootvol o; vol_reserved := vol_reserved o;
     vol0_stat_bigblocks := vol0_stat_bigblocks o;
     vol0_stat_freebigblocks := vol0_stat_freebigblocks o; vol0_reserved01 := vol0_reserved01 o;
     vol0_stat_inodes := vol0_stat_inodes o; vol0_reserved02 := vol0_reserved02 o;
     vol0_btree_root := vol0_btree_root o; vol0_next_tid := vol0_next_tid o;
     vol0_reserved03 := vol0_reserved03 o; vol0_blockmap := v;
     vol0_undo_array := vol0_undo_array o |}.

Definition set_vol0_undo_array (v : list Z) (o : hammer_volume_ondisk) : hammer_volume_ondisk :=
  {| vol_signature := vol_signature o; vol_bot_beg := vol_bot_beg o;
     vol_mem_beg := vol_mem_beg o; vol_buf_beg := vol_buf_beg o; vol_buf_end := vol_buf_end o;
     vol_reserved01 := vol_reserved01 o; vol_fsid := vol_fsid o; vol_fstype := vol_fstype o;
     vol_label := vol_label o; vol_no := vol_no o; vol_count := vol_count o;
     vol_version := vol_version o; vol_crc := vol_crc o; vol_flags := vol_flags o;
     vol_rootvol := vol_rootvol o; vol_reserved := vol_reserved o;
     vol0_stat_bigblocks := vol0_stat_bigblocks o;
     vol0_stat_freebigblocks := vol0_stat_freebigblocks o; vol0_reserved01 := vol0_reserved01 o;
     vol0_stat_inodes := vol0_stat_inodes o; vol0_reserved02 := vol0_reserved02 o;
     vol0_btree_root := vol0_btree_root o; vol0_next_tid := vol0_next_tid o;
     vol0_reserved03 := vol0_reserved03 o; vol0_blockmap := vol0_blockmap o;
     vol0_undo_array := v |}.

Definition set_v_ondisk (o : hammer_volume_ondisk) (v : volume_info) : volume_info :=
  {| v_name := v_name v; v_regfile := v_regfile v; v_vol_no := v_vol_no v; v_rdonly := v_rdonly v;
     v_fd := v_fd v; v_size := v_size v; v_device_offset := v_device_offset v;
     v_vol_free_off := v_vol_free_off v; v_vol_free_end := v_vol_free_end v;
     v_ondisk := o; v_ondisk_rest := v_ondisk_rest v; v_buffer_lists := v_buffer_lists v |}.
Definition set_v_vol_free_off (x : Z) (v : volume_info) : volume_info :=
  {| v_name := v_name v; v_regfile := v_regfile v; v_vol_no := v_vol_no v; v_rdonly := v_rdonly v;
     v_fd := v_fd v; v_size := v_size v; v_device_offset := v_device_offset v;
     v_vol_free_off := x; v_vol_free_end := v_vol_free_end v;
     v_ondisk := v_ondisk v; v_ondisk_rest := v_ondisk_rest v; v_buffer_lists := v_buffer_lists v |}.

(** [volume->ondisk->... = ...] *)
Definition update_ondisk (f : hammer_volume_ondisk -> hammer_volume_ondisk) (v : nat) : M () :=
  update_volume (λ vol, set_v_ondisk (f (v_ondisk vol)) vol) v.
(** [blockmap = &volume->ondisk->vol0_blockmap[zone]] *)
Definition load_blockmap (v : nat) (zone : Z) : M hammer_blockmap :=
  vol ← load_volume_ptr v; deref (vol0_blockmap (v_ondisk vol) !! Z.to_nat zone).
Definition store_blockmap (v : nat) (zone : Z) (b : hammer_blockmap) : M () :=
  update_ondisk (λ o, set_vol0_blockmap (<[Z.to_nat zone := b]> (vol0_blockmap o)) o) v.
(** [buffer->cache.modified = 1] *)
Definition mark_modified (p : positive) : M () := update_buffer (set_modified true) p.
(** A call that returns a pointer which is then used. *)
Definition get_data (buf_offset : Z) (bufferp : option positive) (isnew : Z) : M data_ptr :=
  d ← get_buffer_data buf_offset bufferp isnew; deref d.
(** Store a layer entry with its CRC. *)
Definition put_layer1 (d : data_ptr) (l : hammer_blockmap_layer1) : M () :=
  s ← get_state; l' ← deref (hammer_crc_set_layer1 (HammerVersion s) (snd d) l); store_struct d l'.
Definition put_layer2 (d : data_ptr) (l : hammer_blockmap_layer2) : M () :=
  s ← get_state; l' ← deref (hammer_crc_set_layer2 (HammerVersion s) (snd d) l); store_struct d l'.

(** ** blockmap.c *)

Definition bootstrap_bigblock (v : nat) : M Z :=
  volume ← load_volume_ptr v;
  assert_volume_offset volume;;
  update_volume (set_v_vol_free_off (u64 (v_vol_free_off volume + HAMMER_BIGBLOCK_SIZE))) v;;
  mret (v_vol_free_off volume).

Definition alloc_undo_bigblock (v : nat) : M Z :=
  volume ← load_volume_ptr v;
  assertp (bool_decide (v_vol_no volume = HAMMER_ROOT_VOLNO));;
  result_offset ← bootstrap_bigblock v;
  freemap ← load_blockmap v HAMMER_ZONE_FREEMAP_INDEX;
  (* Dive layer 1. *)
  d1 ← get_data (u64 (bm_phys_offset freemap + HAMMER_BLOCKMAP_LAYER1_OFFSET result_offset)) None 0;
  layer1 ← load_struct hammer_blockmap_layer1 d1;
  assertp (bool_decide (l1_phys_offset layer1 ≠ HAMMER_BLOCKMAP_UNAVAIL));;
  put_layer1 d1 (set_l1_blocks_free (u64 (l1_blocks_free layer1 - 1)) layer1);;
  mark_modified (fst d1);;
  (* Dive layer 2, each entry represents a big-block. *)
  d2 ← get_data (u64 (l1_phys_offset layer1 + HAMMER_BLOCKMAP_LAYER2_OFFSET result_offset)) None 0;
  layer2 ← load_struct hammer_blockmap_layer2 d2;
  assertp (bool_decide (l2_zone layer2 = 0));;
  put_layer2 d2 (set_l2_bytes_free 0 (set_l2_append_off HAMMER_BIGBLOCK_SIZE
                   (set_l2_zone HAMMER_ZONE_UNDO_INDEX layer2)));;
  mark_modified (fst d2);;
  update_ondisk (λ o, set_vol0_stat_freebigblocks (s64 (vol0_stat_freebigblocks o - 1)) o) v;;
  rel_buffer (Some (fst d1));;
  rel_buffer (Some (fst d2));;
  mret result_offset.

(** What [alloc_blockmap] finds for the next offset: the offset, after the skip to the next
    buffer, and the two layer entries. *)
Record dive := {
  dv_next : Z;
  dv_d1 : data_ptr;
  dv_layer1 : hammer_blockmap_layer1;
  dv_d2 : data_ptr;
  dv_layer2 : hammer_blockmap_layer2;
}.

(** From [again:] to the look at layer 2. *)
Definition alloc_dive (v : nat) (zone bytes : Z) (buffers : option positive * option positive) : M dive :=
  blockmap ← load_blockmap v zone;
  let next := bm_next_offset blockmap in
  assertp (bool_decide (next ≠ HAMMER_ZONE_ENCODE (zone + 1) 0));;
  let tmp_offset := u64 (next + bytes - 1) in
  let next := if bool_decide ((next .^ tmp_offset) .& bnot 64 HAMMER_BUFMASK64 ≠ 0)
              then tmp_offset .& bnot 64 HAMMER_BUFMASK64 else next in
  store_blockmap v zone (set_bm_next_offset next blockmap);;
  (* Dive layer 1. *)
  freemap ← load_blockmap v HAMMER_ZONE_FREEMAP_INDEX;
  d1 ← get_data (u64 (bm_phys_offset freemap + HAMMER_BLOCKMAP_LAYER1_OFFSET next)) (fst buffers) 0;
  layer1 ← load_struct hammer_blockmap_layer1 d1;
  assertp (bool_decide (l1_phys_offset layer1 ≠ HAMMER_BLOCKMAP_UNAVAIL));;
  assertp (negb (bool_decide (next .& HAMMER_BIGBLOCK_MASK = 0)
                 && bool_decide (l1_blocks_free layer1 = 0)));;
  (* Dive layer 2, each entry represents a big-block. *)
  d2 ← get_data (u64 (l1_phys_offset layer1 + HAMMER_BLOCKMAP_LAYER2_OFFSET next)) (snd buffers) 0;
  layer2 ← load_struct hammer_blockmap_layer2 d2;
  mret {| dv_next := next; dv_d1 := d1; dv_layer1 := layer1; dv_d2 := d2; dv_layer2 := layer2 |}.

(** "If we are entering a new big-block assign ownership to our zone": the new layer 2
    entry. *)
Definition alloc_enter (v : nat) (zone : Z) (dv : dive) : M hammer_blockmap_layer2 :=
  if bool_decide (l2_zone (dv_layer2 dv) = 0) then
    put_layer1 (dv_d1 dv)
      (set_l1_blocks_free (u64 (l1_blocks_free (dv_layer1 dv) - 1)) (dv_layer1 dv));;
    let layer2 := set_l2_zone (u8 zone) (dv_layer2 dv) in
    store_struct (dv_d2 dv) layer2;;
    update_ondisk (λ o, set_vol0_stat_freebigblocks (s64 (vol0_stat_freebigblocks o - 1)) o) v;;
    assertp (bool_decide (l2_bytes_free layer2 = HAMMER_BIGBLOCK_SIZE));;
    assertp (bool_decide (l2_append_off layer2 = 0));;
    mret layer2
  else mret (dv_layer2 dv).

(** From the ownership of the big-block to the update of layer 2; a big-block of another
    zone is skipped.  The result is that of [alloc_again]. *)
Definition alloc_claim (v : nat) (zone bytes : Z) (dv : dive)
    : M ((option positive * option positive) + (Z * positive * positive)) :=
  layer2 ← alloc_enter v zone dv;
  blockmap ← load_blockmap v zone;
  if bool_decide (l2_zone layer2 ≠ zone) then
    store_blockmap v zone (set_bm_next_offset (HAMMER_ZONE_LAYER2_NEXT_OFFSET (dv_next dv)) blockmap);;
    mret (inl (Some (fst (dv_d1 dv)), Some (fst (dv_d2 dv))))
  else
    assertp (bool_decide (l2_append_off layer2 = dv_next dv .& HAMMER_BIGBLOCK_MASK));;
    let next' := u64 (dv_next dv + bytes) in
    store_blockmap v zone (set_bm_next_offset next' blockmap);;
    put_layer2 (dv_d2 dv)
      (set_l2_append_off (s32 next' .& HAMMER_BIGBLOCK_MASK)
         (set_l2_bytes_free (s32 (l2_bytes_free layer2 - bytes)) layer2));;
    mret (inr (dv_next dv, fst (dv_d1 dv), fst (dv_d2 dv))).

(** One turn from [again:]: the buffers for the next turn, or the offset and the two layer
    buffers once layer 2 is updated.  [bytes] is already aligned. *)
Definition alloc_again (v : nat) (zone bytes : Z) (buffers : option positive * option positive)
    : M ((option positive * option positive) + (Z * positive * positive)) :=
  dv ← alloc_dive v zone bytes buffers;
  if bool_decide (l2_zone (dv_layer2 dv) = HAMMER_ZONE_UNAVAIL_INDEX) then stop_with (Exit 1)
  else alloc_claim v zone bytes dv.

(** Each turn moves on to the next big-block, of which a zone has [2 ^ 37]. *)
Definition ALLOC_TURNS : nat := 37.

(** The offset and the data pointer; [*bufferp] is its buffer. *)
Definition alloc_blockmap (zone bytes : Z) (bufferp : option positive) : M (Z * data_ptr) :=
  root ← get_root_volume;
  v ← deref root;
  blockmap ← load_blockmap v zone;
  assertp (bool_decide (HAMMER_ZONE_DECODE (bm_next_offset blockmap) = zone));;
  let bytes := HAMMER_DATA_DOALIGN bytes in
  assertp (bool_decide (0 < bytes) && bool_decide (bytes <= HAMMER_BUFSIZE));;
  assertp (hammer_is_index_record zone);;
  r ← loop (alloc_again v zone bytes) ALLOC_TURNS (None, None);
  let '(result_off, buffer1, buffer2) := r in
  ptr ← get_data result_off bufferp 0;
  mark_modified (fst ptr);;
  mark_modified buffer1;;
  mark_modified buffer2;;
  rel_buffer (Some buffer1);;
  rel_buffer (Some buffer2);;
  mret (result_off, ptr).

(** ** Elements (ondisk.c) *)

Definition alloc_btree_node (data_bufferp : option positive) : M (Z * data_ptr) :=
  r ← alloc_blockmap HAMMER_ZONE_BTREE_INDEX (Z.of_nat (sizeof hammer_node_ondisk)) data_bufferp;
  bzero (snd r) (Z.of_nat (sizeof hammer_node_ondisk));;
  mret r.

Definition alloc_meta_element (data_len : Z) (data_bufferp : option positive) : M (Z * data_ptr) :=
  r ← alloc_blockmap HAMMER_ZONE_META_INDEX data_len data_bufferp;
  bzero (snd r) data_len;;
  mret r.

(** ** Formatting (ondisk.c) *)

(** A freshly cleared blockmap with its offsets and CRC. *)
Definition fresh_blockmap (version phys first next alloc : Z) : option hammer_blockmap :=
  hammer_crc_set_blockmap version 0
    {| bm_phys_offset := phys; bm_first_offset := first; bm_next_offset := next;
       bm_alloc_offset := alloc; bm_reserved01 := 0; bm_entry_crc := 0 |}.

Definition format_blockmap (root_vol : nat) (zone offset : Z) : M () :=
  vol ← load_volume_ptr root_vol;
  assertp (bool_decide (v_vol_no vol = HAMMER_ROOT_VOLNO));;
  assertp (hammer_is_index_record zone);;
  s ← get_state;
  let zone_base := HAMMER_ZONE_ENCODE zone offset in
  b ← deref (fresh_blockmap (HammerVersion s) 0 zone_base zone_base (HAMMER_ENCODE zone 255 (-1)));
  store_blockmap root_vol zone b.

(** The [for] loop of [format_freemap] over the [n] entries from byte [i] on. *)
Fixpoint format_layer1_loop (n : nat) (layer1_offset i : Z) (buffer : option positive) : M (option positive) :=
  match n with
  | O => mret buffer
  | S n =>
      let isnew := if bool_decide (i mod HAMMER_BUFSIZE = 0) then 1 else 0 in
      d ← get_data (u64 (layer1_offset + i)) buffer isnew;
      put_layer1 d (set_l1_phys_offset HAMMER_BLOCKMAP_UNAVAIL (zeroed hammer_blockmap_layer1));;
      format_layer1_loop n layer1_offset (i + sizeof_layer1) (Some (fst d))
  end.

Definition format_freemap (root_vol : nat) : M () :=
  vol ← load_volume_ptr root_vol;
  assertp (bool_decide (v_vol_no vol = HAMMER_ROOT_VOLNO));;
  layer1_offset ← bootstrap_bigblock root_vol;
  buffer ← format_layer1_loop (Z.to_nat HAMMER_BLOCKMAP_RADIX1) layer1_offset 0 None;
  rel_buffer buffer;;
  s ← get_state;
  b ← deref (fresh_blockmap (HammerVersion s) layer1_offset 0 (HAMMER_ENCODE_RAW_BUFFER 0 0)
               (HAMMER_ENCODE_RAW_BUFFER 255 (-1)));
  store_blockmap root_vol HAMMER_ZONE_FREEMAP_INDEX b.

(** The number of turns of [for (x = beg; x < end; x += step)]. *)
Definition turns (beg end_ step : Z) : nat := Z.to_nat ((end_ - beg + step - 1) / step).

(** First loop of [initialize_freemap]: a layer 2 big-block for every layer 1 entry. *)
Fixpoint prealloc_layer2_loop (n : nat) (v root : nat) (phys_offset : Z) (buffer1 : option positive)
    : M (option positive) :=
  match n with
  | O => mret buffer1
  | S n =>
      freemap ← load_blockmap root HAMMER_ZONE_FREEMAP_INDEX;
      d ← get_data (u64 (bm_phys_offset freemap + HAMMER_BLOCKMAP_LAYER1_OFFSET phys_offset)) buffer1 0;
      layer1 ← load_struct hammer_blockmap_layer1 d;
      when (bool_decide (l1_phys_offset layer1 = HAMMER_BLOCKMAP_UNAVAIL))
        (b ← bootstrap_bigblock v;
         mark_modified (fst d);;
         put_layer1 d (set_l1_blocks_free 0 (set_l1_phys_offset b layer1)));;
      prealloc_layer2_loop n v root (phys_offset + HAMMER_BLOCKMAP_LAYER2) (Some (fst d))
  end.

(** The layer 2 entry of the big-block at [off] of a volume. *)
Definition initial_layer2 (off vol_free_off vol_free_end : Z) : hammer_blockmap_layer2 :=
  let z := zeroed hammer_blockmap_layer2 in
  if bool_decide (off < vol_free_off) then
    set_l2_bytes_free 0 (set_l2_append_off HAMMER_BIGBLOCK_SIZE (set_l2_zone HAMMER_ZONE_FREEMAP_INDEX z))
  else if bool_decide (off < vol_free_end) then
    set_l2_bytes_free HAMMER_BIGBLOCK_SIZE (set_l2_append_off 0 (set_l2_zone 0 z))
  else
    set_l2_bytes_free 0 (set_l2_append_off HAMMER_BIGBLOCK_SIZE (set_l2_zone HAMMER_ZONE_UNAVAIL_INDEX z)).
Definition is_free_bigblock (off vol_free_off vol_free_end : Z) : bool :=
  negb (bool_decide (off < vol_free_off)) && bool_decide (off < vol_free_end).

(** Inner loop: [n] layer 2 entries from [block_offset] on; [count] are the free ones. *)
Fixpoint fill_layer2_loop (n : nat) (v : nat) (l1_phys phys_offset block_offset count : Z)
    (buffer2 : option positive) : M (Z * option positive) :=
  match n with
  | O => mret (count, buffer2)
  | S n =>
      vol ← load_volume_ptr v;
      d ← get_data (u64 (l1_phys + HAMMER_BLOCKMAP_LAYER2_OFFSET block_offset)) buffer2 0;
      let off := u64 (phys_offset + block_offset) in
      put_layer2 d (initial_layer2 off (v_vol_free_off vol) (v_vol_free_end vol));;
      mark_modified (fst d);;
      fill_layer2_loop n v l1_phys phys_offset (block_offset + HAMMER_BIGBLOCK_SIZE)
        (if is_free_bigblock off (v_vol_free_off vol) (v_vol_free_end vol) then count + 1 else count)
        (Some (fst d))
  end.

(** Second loop; [layer1] is written back with the free big-blocks of its range. *)
Fixpoint fill_layer1_loop (n : nat) (v root : nat) (phys_offset count : Z)
    (buffer1 buffer2 : option positive) : M (Z * option positive * option positive) :=
  match n with
  | O => mret (count, buffer1, buffer2)
  | S n =>
      freemap ← load_blockmap root HAMMER_ZONE_FREEMAP_INDEX;
      d ← get_data (u64 (bm_phys_offset freemap + HAMMER_BLOCKMAP_LAYER1_OFFSET phys_offset)) buffer1 0;
      layer1 ← load_struct hammer_blockmap_layer1 d;
      assertp (bool_decide (l1_phys_offset layer1 ≠ HAMMER_BLOCKMAP_UNAVAIL));;
      r ← fill_layer2_loop (Z.to_nat HAMMER_BLOCKMAP_RADIX2) v (l1_phys_offset layer1) phys_offset 0 0 buffer2;
      layer1 ← load_struct hammer_blockmap_layer1 d;
      put_layer1 d (set_l1_blocks_free (u64 (l1_blocks_free layer1 + fst r)) layer1);;
      mark_modified (fst d);;
      fill_layer1_loop n v root (phys_offset + HAMMER_BLOCKMAP_LAYER2) (count + fst r) (Some (fst d)) (snd r)
  end.

Definition initialize_freemap (v : nat) : M Z :=
  root_vol ← get_root_volume;
  root ← deref root_vol;
  volume ← load_volume_ptr v;
  assert_volume_offset volume;;
  let aligned_vol_free_end := HAMMER_BLOCKMAP_LAYER2_DOALIGN (v_vol_free_end volume) in
  let beg := HAMMER_ENCODE_RAW_BUFFER (v_vol_no volume) 0 in
  let n := turns beg aligned_vol_free_end HAMMER_BLOCKMAP_LAYER2 in
  buffer1 ← prealloc_layer2_loop n v root beg None;
  r ← fill_layer1_loop n v root beg 0 buffer1 None;
  let '(count, buffer1, buffer2) := r in
  rel_buffer buffer1;;
  rel_buffer buffer2;;
  mret count.

(** The last loop of [count_freemap], over big-blocks from [phys_offset] on. *)
Fixpoint count_loop (n : nat) (phys_offset vol_free_off vol_free_end count : Z) : Z :=
  match n with
  | O => count
  | S n => count_loop n (phys_offset + HAMMER_BIGBLOCK_SIZE) vol_free_off vol_free_end
             (if bool_decide (phys_offset < vol_free_off) then count
              else if bool_decide (phys_offset < vol_free_end) then count + 1 else count)
  end.

(** The count of [count_freemap] for a volume whose free area ends at [vol_free_end]. *)
Definition count_free_bigblocks (vol_no vol_free_end : Z) : Z :=
  let beg := HAMMER_ENCODE_RAW_BUFFER vol_no 0 in
  let aligned_vol_free_end := HAMMER_BLOCKMAP_LAYER2_DOALIGN vol_free_end in
  let vol_free_off := if bool_decide (vol_no = HAMMER_ROOT_VOLNO) then beg + HAMMER_BIGBLOCK_SIZE else beg in
  let vol_free_off :=
    u64 (vol_free_off + HAMMER_BIGBLOCK_SIZE *
           Z.of_nat (turns beg aligned_vol_free_end HAMMER_BLOCKMAP_LAYER2)) in
  count_loop (turns beg aligned_vol_free_end HAMMER_BIGBLOCK_SIZE) beg vol_free_off vol_free_end 0.
Definition count_freemap (volume : volume_info) : M Z :=
  assert_volume_offset volume;;
  mret (count_free_bigblocks (v_vol_no volume) (v_vol_free_end volume)).

(** ** The UNDO FIFO *)

Definition HAMMER_UNDO_ALIGN : Z := 512.
Definition HAMMER_HEAD_SIGNATURE : Z := 0xC84E.
Definition HAMMER_TAIL_SIGNATURE : Z := 0xC74F.
Definition HAMMER_HEAD_TYPE_DUMMY : Z := 0x0041.

(** The size of the FIFO: the request, or 0.1% of the volume, within its limits. *)
Definition undo_limit_of (undo_buffer_size vol_buf_size : Z) : Z :=
  let undo_limit := u64 undo_buffer_size in
  let undo_limit :=
    if bool_decide (undo_limit = 0) then
      let l := u64 (Z.quot vol_buf_size 1000) in
      if bool_decide (l < HAMMER_BIGBLOCK_SIZE * HAMMER_MIN_UNDO_BIGBLOCKS)
      then HAMMER_BIGBLOCK_SIZE * HAMMER_MIN_UNDO_BIGBLOCKS else l
    else undo_limit in
  let undo_limit := HAMMER_BIGBLOCK_DOALIGN undo_limit in
  let undo_limit := if bool_decide (undo_limit < HAMMER_BIGBLOCK_SIZE) then HAMMER_BIGBLOCK_SIZE else undo_limit in
  if bool_decide (HAMMER_BIGBLOCK_SIZE * HAMMER_MAX_UNDO_BIGBLOCKS < undo_limit)
  then HAMMER_BIGBLOCK_SIZE * HAMMER_MAX_UNDO_BIGBLOCKS else undo_limit.

Fixpoint alloc_undo_loop (k : nat) (n : nat) (root_vol : nat) : M () :=
  match k with
  | O => mret ()
  | S k =>
      b ← alloc_undo_bigblock root_vol;
      update_ondisk (λ o, set_vol0_undo_array (<[n := b]> (vol0_undo_array o)) o) root_vol;;
      alloc_undo_loop k (S n) root_vol
  end.

Definition unavail_undo_tail (n : nat) (l : list Z) : list Z :=
  take n l ++ replicate (length l - n) HAMMER_BLOCKMAP_UNAVAIL.

(** The 512 bytes of a pre-initialised UNDO block. *)
Definition dummy_undo (seqno : Z) : bytes :=
  let head := {| hdr_signature := HAMMER_HEAD_SIGNATURE; hdr_type := HAMMER_HEAD_TYPE_DUMMY;
                 hdr_size := HAMMER_UNDO_ALIGN; hdr_seq := seqno; hdr_crc := 0 |} in
  let tail := {| tail_signature := HAMMER_TAIL_SIGNATURE; tail_type := HAMMER_HEAD_TYPE_DUMMY;
                 tail_size := HAMMER_UNDO_ALIGN |} in
  write_at (write_at (replicate (Z.to_nat HAMMER_UNDO_ALIGN) 0) 0 head)
    (Z.to_nat HAMMER_UNDO_ALIGN - sizeof hammer_fifo_tail) tail.

Fixpoint init_undo_loop (n : nat) (scan seqno : Z) (buffer : option positive) : M (option positive) :=
  match n with
  | O => mret buffer
  | S n =>
      let isnew := if bool_decide (scan .& HAMMER_BUFMASK64 = 0) then 1 else 0 in
      d ← get_data scan buffer isnew;
      mark_modified (fst d);;
      s ← get_state;
      mem ← deref (hammer_crc_set_fifo_head (HammerVersion s) (snd d) (dummy_undo seqno) HAMMER_UNDO_ALIGN);
      store_bytes d mem;;
      init_undo_loop n (u64 (scan + HAMMER_UNDO_ALIGN)) (u32 (seqno + 1)) (Some (fst d))
  end.

(** Returns the new [*undo_buffer_size]. *)
Definition format_undomap (root_vol : nat) (undo_buffer_size : Z) : M Z :=
  vol ← load_volume_ptr root_vol;
  assertp (bool_decide (v_vol_no vol = HAMMER_ROOT_VOLNO));;
  let undo_limit := undo_limit_of undo_buffer_size (HAMMER_VOL_BUF_SIZE (v_ondisk vol)) in
  s ← get_state;
  b ← deref (fresh_blockmap (HammerVersion s) HAMMER_BLOCKMAP_UNAVAIL (HAMMER_ENCODE_UNDO 0)
               (HAMMER_ENCODE_UNDO 0) (HAMMER_ENCODE_UNDO undo_limit));
  store_blockmap root_vol HAMMER_ZONE_UNDO_INDEX b;;
  let limit_index := undo_limit / HAMMER_BIGBLOCK_SIZE in
  assertp (bool_decide (limit_index <= HAMMER_MAX_UNDO_BIGBLOCKS));;
  alloc_undo_loop (Z.to_nat limit_index) 0 root_vol;;
  update_ondisk (λ o, set_vol0_undo_array (unavail_undo_tail (Z.to_nat limit_index) (vol0_undo_array o)) o)
    root_vol;;
  buffer ← init_undo_loop (turns (bm_first_offset b) (bm_alloc_offset b) HAMMER_UNDO_ALIGN)
             (bm_first_offset b) 0 None;
  rel_buffer buffer;;
  mret undo_limit.
