(* ===== verification/AllocSpec.v ===== *)
(** * AllocSpec: the allocator against the freemap

    What [alloc_blockmap] of blockmap.c does to the freemap, the blockmap and the cache.
    The steps of the allocator are of three kinds: buffer operations (the contracts of
    [Buffers]), stores into held buffers and updates of the volume header; [client]
    collects what a holder of references sees of any sequence of them. *)

From S2P Require Import Prelude HammerDisk Layout HammerCrc CMonad Ondisk CacheInv Buffers Lookup Blockmap.

(** ** Header updates *)

(** The header of volume [v] becomes [o]. *)
Definition with_ondisk (v : nat) (vol : volume_info) (o : hammer_volume_ondisk) (s : state) : state :=
  set_vols <[v := set_v_ondisk o vol]> s.

Definition same_area (o o' : hammer_volume_ondisk) : Prop :=
  vol_buf_beg o' = vol_buf_beg o /\ vol_buf_end o' = vol_buf_end o.

Lemma update_ondisk_eq f s v vol :
  VolList s !! v = Some vol -> update_ondisk f v s = Ok () (with_ondisk v vol (f (v_ondisk vol)) s).
Proof.
  intros Hv. unfold update_ondisk, update_volume. by rewrite (bind_Ok _ _ _ vol s) by by apply load_volume_ptr_eq.
Qed.

Lemma load_blockmap_eq s v vol zone b :
  VolList s !! v = Some vol -> vol0_blockmap (v_ondisk vol) !! Z.to_nat zone = Some b ->
  load_blockmap v zone s = Ok b s.
Proof.
  intros Hv Hb. unfold load_blockmap. rewrite (bind_Ok _ _ _ vol s) by by apply load_volume_ptr_eq. by rewrite Hb.
Qed.

Section with_ondisk.
Context (s : state) (Hwf : wf s) (v : nat) (vol : volume_info) (Hv : VolList s !! v = Some vol).
Context (o : hammer_volume_ondisk) (Ho : same_area (v_ondisk vol) o).
Local Abbreviation s' := (with_ondisk v vol o s).

Lemma geo_with_ondisk i w' :
  geo s' !! i = Some w' -> exists w, geo s !! i = Some w /\ v_vol_no w' = v_vol_no w /\
    v_rdonly w' = v_rdonly w /\ v_fd w' = v_fd w /\ same_area (v_ondisk w) (v_ondisk w') /\ (i ≠ v -> w' = w).
Proof.
  unfold geo, with_ondisk. st_simpl. rewrite list_fmap_insert, list_lookup_insert_Some, !list_lookup_fmap.
  intros [(<- & <- & _)|(Hne & Hi)].
  - rewrite Hv. by eexists.
  - exists w'. by split_and!.
Qed.

Lemma geo_with_ondisk_inv i w :
  geo s !! i = Some w -> exists w', geo s' !! i = Some w' /\ v_vol_no w' = v_vol_no w /\
    v_rdonly w' = v_rdonly w /\ v_fd w' = v_fd w /\ same_area (v_ondisk w) (v_ondisk w') /\ (i ≠ v -> w' = w).
Proof.
  unfold geo, with_ondisk. st_simpl. rewrite list_fmap_insert. destruct (decide (i = v)) as [->|Hne].
  - rewrite list_lookup_fmap, Hv. intros [= <-]. eexists. split.
    + rewrite list_lookup_insert_eq; [done|]. rewrite length_fmap. by eapply lookup_lt_Some.
    + by split_and!.
  - intros Hw. exists w. rewrite list_lookup_insert_ne by done. by split_and!.
Qed.

Lemma on_volume_same w w' z2 :
  v_vol_no w' = v_vol_no w -> same_area (v_ondisk w) (v_ondisk w') -> on_volume w' z2 <-> on_volume w z2.
Proof. intros Hn [Hb He]. unfold on_volume, HAMMER_VOL_BUF_SIZE. by rewrite Hn, Hb, He. Qed.

Lemma file_block_same fs w w' z2 :
  v_fd w' = v_fd w -> same_area (v_ondisk w) (v_ondisk w') -> file_block fs w' z2 = file_block fs w z2.
Proof. intros Hf [Hb He]. unfold file_block, raw_of, hammer_xlate_to_phys. by rewrite Hf, Hb. Qed.

Lemma fmap_with_ondisk {B} (f : volume_info -> B) :
  (forall w o, f (set_v_ondisk o w) = f w) -> (forall w, f (strip w) = f w) -> f <$> geo s' = f <$> geo s.
Proof.
  intros H1 H2. unfold geo, with_ondisk. st_simpl. rewrite list_fmap_insert, list_fmap_insert.
  apply list_insert_id. rewrite !list_lookup_fmap, Hv. cbn. by rewrite !H2, H1.
Qed.

Lemma wf_with_ondisk : wf s'.
Proof.
  pose proof Hwf as [H1 H2 H3 H4 H5 H6 H7 H8 H9 H10 H11]. split; try done.
  - by rewrite (fmap_with_ondisk v_vol_no).
  - by rewrite (fmap_with_ondisk v_fd).
  - intros i w' (w & Hw & Hn & Hr & Hf & [Hb He] & _)%geo_with_ondisk.
    destruct (H3 i w Hw) as (Ha1 & Ha2 & Ha3 & Ha4 & f & Hf' & Hd & Hs).
    unfold vol_ok, HAMMER_VOL_BUF_SIZE in *. rewrite Hn, Hb, He, Hf. do 4 (split; [done|]). by exists f.
  - intros i w. unfold with_ondisk. st_simpl. rewrite list_lookup_insert_Some.
    intros [(<- & <- & _)|(_ & Hi)]; [exact (H4 v vol Hv)|by eapply H4].
  - intros p b Hp. destruct (H5 p b Hp) as (Ha & Hd & Hl & Hb & w & Hw & Hon & Hraw & Hm & Hc).
    destruct (geo_with_ondisk_inv _ _ Hw) as (w' & Hw' & Hn & Hr & Hf & Hsame & _).
    do 4 (split; [done|]). exists w'. split; [done|]. split; [by apply (on_volume_same w w')|]. split.
    { rewrite Hraw. unfold raw_of, hammer_xlate_to_phys. destruct Hsame as [Hbeg _]. by rewrite Hbeg. }
    rewrite Hr, (file_block_same _ w w') by done. done.
  - intros i w h l. unfold with_ondisk. st_simpl. rewrite list_lookup_insert_Some.
    intros [(<- & <- & _)|(_ & Hi)]; [by apply (H6 v vol h l Hv)|by apply (H6 i w h l)].
Qed.

Lemma view_with_ondisk z2 : valid_block s z2 -> view s' z2 = view s z2.
Proof.
  intros (i & w & Hi & Hon). pose proof Hon as (_ & _ & _ & Hd & _). pose proof wf_with_ondisk as Hwf'.
  destruct (geo_with_ondisk_inv _ _ Hi) as (w' & Hw' & Hn & _ & Hf & Hsame & _).
  destruct (view_cases s i w z2 Hwf Hi Hd) as [(q & c & Hq & <- & ->)|[Hne ->]].
  - by apply (view_cached s' q).
  - rewrite (view_file s' i w'); [|done..|congruence]. by apply file_block_same.
Qed.

Lemma valid_block_with_ondisk z2 : valid_block s' z2 <-> valid_block s z2.
Proof.
  split.
  - intros (i & w' & (w & Hw & Hn & _ & _ & Hsame & _)%geo_with_ondisk & Hon).
    exists i, w. split; [done|]. by apply (on_volume_same w w').
  - intros (i & w & (w' & Hw & Hn & _ & _ & Hsame & _)%geo_with_ondisk_inv & Hon).
    exists i, w'. split; [done|]. by apply (on_volume_same w w').
Qed.

Lemma settled_with_ondisk p : settled s p -> settled s' p.
Proof.
  intros Hs b w' Hb (w & Hw & _ & _ & Hf & Hsame & _)%geo_with_ondisk Hm.
  rewrite (Hs b w Hb Hw Hm). symmetry. by apply file_block_same.
Qed.

Lemma root_with_ondisk i w :
  root_volume s i w -> exists w', root_volume s' i w' /\ (i ≠ v -> w' = w) /\ (i = v -> v_ondisk w' = o).
Proof.
  intros [Hi Hn]. destruct (geo_with_ondisk_inv _ _ Hi) as (w' & Hw' & Hn' & _ & _ & _ & Hne).
  exists w'. split; [split; [done|congruence]|]. split; [done|]. intros ->. revert Hw'.
  unfold geo, with_ondisk. st_simpl. rewrite list_fmap_insert, list_lookup_insert_eq; [by intros [= <-]|].
  rewrite length_fmap. by eapply lookup_lt_Some.
Qed.
End with_ondisk.

(** ** What a holder of references sees *)

Definition writable (s : state) : Prop := forall i vol, geo s !! i = Some vol -> v_rdonly vol = false.

(** Blocks in [W] may change content, buffers in [K] may change; [d] counts references. *)
Record client (W : Z -> Prop) (K : positive -> Prop) (d : positive -> Z) (s s' : state) : Prop := {
  cl_wf : wf s';
  cl_version : HammerVersion s' = HammerVersion s;
  cl_writable : writable s -> writable s';
  cl_valid : forall z2, valid_block s' z2 <-> valid_block s z2;
  cl_view : forall z2, valid_block s z2 -> ~ W z2 -> view s' z2 = view s z2;
  cl_next : (next_ptr s <= next_ptr s')%positive;
  cl_stable : forall p b', heap s' !! p = Some b' -> (next_ptr s <= p)%positive \/
    exists b, heap s !! p = Some b /\ b_zone2_offset b' = b_zone2_offset b;
  cl_refs : forall p, refs s' p = refs s p + d p;
  cl_kept : forall p, ~ K p -> 0 < refs s p -> 0 < refs s' p -> kept s s' p;
}.

Lemma client_moved W d s s' :
  wf s' -> moved W d s s' ->
  client W (λ p, exists b, heap s !! p = Some b /\ W (b_zone2_offset b)) d s s'.
Proof.
  intros Hwf' [[G V B A View N I] R K]. split; try done.
  - intros Hw i vol. rewrite G. apply Hw.
  - intros z2. by apply valid_block_geo.
  - intros p Hk H1 H2. apply K; [done..|]. intros b Hb HW. apply Hk. eauto.
Qed.

Lemma client_trans W K d e s1 s2 s3 :
  client W K d s1 s2 -> client W K e s2 s3 ->
  (forall p, 0 < refs s1 p -> 0 < refs s3 p -> 0 < refs s2 p) ->
  client W K (λ p, d p + e p) s1 s3.
Proof.
  intros [W1 V1 R1 B1 View1 N1 I1 F1 K1] [W2 V2 R2 B2 View2 N2 I2 F2 K2] Hmid. split.
  - done.
  - congruence.
  - auto.
  - intros z2. by rewrite B2, B1.
  - intros z2 Hz Hw. rewrite View2, View1; [done..| |done]. by apply B1.
  - lia.
  - intros p b3 Hp. destruct (I2 p b3 Hp) as [|(b2 & Hb2 & ->)]; [left; lia|]. by apply I1.
  - intros p. rewrite F2, F1. lia.
  - intros p Hk H1 H3. pose proof (Hmid p H1 H3) as H2.
    destruct (K1 p Hk H1 H2) as [Ha Hb]. destruct (K2 p Hk H2 H3) as [Hc Hd].
    split; [|auto]. intros b [r Hr]%Ha. destruct (Hc _ Hr) as [r' Hr']. exists r'. rewrite Hr'. by destruct b.
Qed.

Lemma client_weaken (W W' : Z -> Prop) (K K' : positive -> Prop) d e s s' :
  (forall z2, W z2 -> W' z2) -> (forall p, K p -> K' p) -> (forall p, d p = e p) ->
  client W K d s s' -> client W' K' e s s'.
Proof.
  intros HW HK He [Wf V R B View N I F Ke]. split; try done; auto.
  - intros p. by rewrite F, He.
Qed.

Lemma client_shows W K d s s' p z2 :
  wf s -> client W K d s s' -> shows s p z2 -> 0 < refs s' p -> shows s' p z2.
Proof.
  intros Hwf Hc (b & Hb & <- & _) Hr. unfold refs in Hr. destruct (heap s' !! p) as [b'|] eqn:Hb'; [|lia].
  exists b'. split_and!; [done| |done]. destruct (cl_stable _ _ _ _ _ Hc p b' Hb') as [Hn|(c & Hc' & ->)].
  - pose proof (wf_ptr s Hwf p ltac:(eauto)). lia.
  - congruence.
Qed.

Definition no_buffer : positive -> Prop := λ _, False.

(** A header update. *)
Lemma client_with_ondisk s v vol o :
  wf s -> VolList s !! v = Some vol -> same_area (v_ondisk vol) o ->
  client no_block no_buffer no_refs s (with_ondisk v vol o s).
Proof.
  intros Hwf Hv Ho. split; try done.
  - by apply wf_with_ondisk.
  - intros Hw i w' (w & Hw' & _ & -> & _)%geo_with_ondisk; [|done..]. by eapply Hw.
  - intros z2. by apply valid_block_with_ondisk.
  - intros z2 Hz _. by apply view_with_ondisk.
  - intros p b Hb. right. by exists b.
  - intros p. unfold refs, no_refs. st_simpl. cbn [heap with_ondisk set_vols]. lia.
  - intros p _ _ _. split; [apply (kept_refl s)|]. by apply settled_with_ondisk.
Qed.

(** A store into a held buffer. *)
Lemma store_bytes_spec s p z2 off bs :
  wf s -> shows s p z2 -> 0 <= off -> off + Z.of_nat (length bs) <= HAMMER_BUFSIZE -> bytes_ok bs ->
  valid_block s z2 ->
  wp (store_bytes (p, off) bs) s (λ _ s',
    client (λ z, z = z2) (λ q, q = p) no_refs s s' /\ geo s' = geo s /\
    view s' z2 = splice (view s z2) (Z.to_nat off) bs).
Proof.
  intros Hwf (b & Hb & Hz & Hr) H0 Hlen Hok Hval. unfold store_bytes. cbn [fst snd].
  destruct (wf_buf s Hwf p b Hb) as (Hr0 & Hd & Hl & Hbok & vol & Hg & Ho & Hraw & Hm & Hc).
  apply wp_bind. eapply wp_Ok; [by apply load_buffer_eq|].
  rewrite !bool_decide_eq_true_2 by (rewrite ?Hl; lia). cbn [andb].
  eapply wp_Ok; [by apply update_buffer_eq|]. set (data := splice _ _ _).
  assert (wf (set_heap <[p:=set_data data b]> s)) as Hwf'.
  { apply (wf_update s Hwf p b); [done..|]. split; [done|]. split; [done|]. split; [|split].
    - st_simpl. unfold data. rewrite length_splice; [done|]. rewrite Hl. lia.
    - st_simpl. by apply splice_ok.
    - exists vol. do 4 (split; [done|]). st_simpl. lia. }
  pose proof (moved_update s Hwf p b (set_data data b) Hb eq_refl eq_refl Hwf') as Hmv.
  split_and!; [|done|].
  - eapply client_weaken; [| | |by apply client_moved].
    + intros z. by rewrite Hz.
    + intros q (c & Hq & Hcz). by apply (wf_uniq s Hwf q p c b).
    + intros q. st_simpl. unfold no_refs. case_decide; lia.
  - rewrite (view_update s Hwf p b (set_data data b)) by done. rewrite bool_decide_eq_true_2 by done.
    st_simpl. unfold data. by rewrite <- Hz, (view_cached s p b).
Qed.

Lemma store_struct_spec {A} `{OnDisk A} s p off (a : A) :
  wf s -> shows s p (block_base off) -> meta_ok A s off -> valid a ->
  wp (store_struct (p, off mod HAMMER_BUFSIZE) a) s (λ _ s',
    client (λ z, z = block_base off) (λ q, q = p) no_refs s s' /\ geo s' = geo s /\
    view_struct A s' off = a).
Proof.
  intros Hwf Hs (Hu & Hz & Hv & Hsz) Ha. unfold store_struct.
  pose proof (length_encode a Ha) as Hlen. pose proof (Z.mod_pos_bound off HAMMER_BUFSIZE ltac:(done)) as Hm.
  eapply wp_mono; [apply store_bytes_spec; [done..| | | |done]|].
  - lia.
  - by rewrite Hlen.
  - by apply encode_ok.
  - intros [] s' (Hc & Hg & Hview). split_and!; [done..|]. unfold view_struct. rewrite Hview.
    destruct (shows_view s p _ Hwf Hs) as (b & Hb & <-). destruct (wf_buf s Hwf p b Hb) as (_ & _ & Hl & _).
    fold (write_at (b_ondisk b) (Z.to_nat (off mod HAMMER_BUFSIZE)) a). apply read_write_at; [done|]. rewrite Hl. lia.
Qed.

(** [modified = 1] makes a buffer fit to be given back. *)
Lemma mark_modified_spec s p z2 :
  wf s -> shows s p z2 -> writable s ->
  wp (mark_modified p) s (λ _ s', client no_block (λ q, q = p) no_refs s s' /\ geo s' = geo s /\ settled s' p).
Proof.
  intros Hwf (b & Hb & Hz & Hr) Hw. destruct (wf_buf s Hwf p b Hb) as (Hr0 & Hd & Hl & Hbok & vol & Hg & Ho & Hraw & Hm & Hc).
  eapply wp_Ok; [by apply update_buffer_eq|]. set (b' := set_modified true b).
  assert (wf (set_heap <[p:=b']> s)) as Hwf'.
  { apply (wf_update s Hwf p b); [done..|]. do 4 (split; [done|]). exists vol. do 3 (split; [done|]).
    split; [intros _; by eapply Hw|done]. }
  pose proof (moved_update s Hwf p b b' Hb eq_refl eq_refl Hwf') as Hmv.
  split_and!; [|done|].
  - destruct (client_moved _ _ _ _ Hwf' Hmv) as [? V R B View N I F K]. split; try done.
    + intros z Hv _. rewrite (view_update s Hwf p b b') by done. case_bool_decide as Hzz; [|done].
      rewrite Hzz, (view_cached s p b) by done. done.
    + intros q. rewrite F. unfold no_refs, b'. st_simpl. case_decide; lia.
    + intros q Hq H1 H2. apply K; [|done..]. intros (c & Hcq & Hcz). apply Hq. by apply (wf_uniq s Hwf q p c b).
  - intros c w. st_simpl. rewrite lookup_insert_eq. intros [= <-]. done.
Qed.

(** ** Entries with their CRC *)

Definition sealed {A} `{Checksummed A} (v : Z) (a : A) : A :=
  set_crc_field a (default 0 (crc_get v 0 a)).

Lemma crc_set_sealed {A} `{Checksummed A} v addr (a : A) :
  valid a -> crc_set v addr a = Some (sealed v a) /\ valid (sealed v a) /\ crc_test v addr (sealed v a) = Some true.
Proof.
  intros Ha. destruct (crc_get_some v 0 a Ha) as (c & Hc & Hr).
  assert (forall addr, crc_get v addr a = Some c) as Hget by (intros addr'; by rewrite (crc_get_addr v addr' 0)).
  assert (sealed v a = set_crc_field a c) as -> by (unfold sealed; by rewrite Hc).
  split; [unfold crc_set; by rewrite Hget|]. split; [by apply set_crc_valid|]. unfold crc_test.
  rewrite (crc_get_set v addr a c), Hget by done. cbn [mbind option_bind].
  by rewrite crc_field_set, bool_decide_eq_true_2.
Qed.

Section put.
Context (s : state) (p : positive) (off : Z) (Hwf : wf s) (Hs : shows s p (block_base off)).

Lemma put_layer1_spec l :
  meta_ok hammer_blockmap_layer1 s off -> valid l ->
  wp (put_layer1 (p, off mod HAMMER_BUFSIZE) l) s (λ _ s',
    client (λ z, z = block_base off) (λ q, q = p) no_refs s s' /\ geo s' = geo s /\
    view_struct hammer_blockmap_layer1 s' off = sealed (HammerVersion s) l).
Proof.
  intros Hm Hl. unfold put_layer1. apply wp_bind, wp_get, wp_bind.
  destruct (crc_set_sealed (HammerVersion s) (off mod HAMMER_BUFSIZE) l Hl) as (Hset & Hv & _).
  eapply wp_deref; [done|]. by apply store_struct_spec.
Qed.

Lemma put_layer2_spec l :
  meta_ok hammer_blockmap_layer2 s off -> valid l ->
  wp (put_layer2 (p, off mod HAMMER_BUFSIZE) l) s (λ _ s',
    client (λ z, z = block_base off) (λ q, q = p) no_refs s s' /\ geo s' = geo s /\
    view_struct hammer_blockmap_layer2 s' off = sealed (HammerVersion s) l).
Proof.
  intros Hm Hl. unfold put_layer2. apply wp_bind, wp_get, wp_bind.
  destruct (crc_set_sealed (HammerVersion s) (off mod HAMMER_BUFSIZE) l Hl) as (Hset & Hv & _).
  eapply wp_deref; [done|]. by apply store_struct_spec.
Qed.
End put.

(** ** Buffer operations, as a client sees them *)

(** Buffers outside [K] are flagged or agree with the file. *)
Definition settled_but (K : positive -> Prop) (s : state) : Prop := forall p, ~ K p -> settled s p.

Definition bufferp_held (K : positive -> Prop) (s : state) (bufferp : option positive) : Prop :=
  forall p0, bufferp = Some p0 -> ~ K p0 /\ exists z0, shows s p0 z0.

Lemma client_quiet d s s' : wf s' -> moved no_block d s s' -> client no_block no_buffer d s s'.
Proof.
  intros Hwf Hm. eapply client_weaken; [| | |by apply client_moved]; [done| |done].
  intros p (b & _ & []).
Qed.

(** The header of volume [v]. *)
Definition ondisk_of (s : state) (v : nat) : option hammer_volume_ondisk := v_ondisk <$> VolList s !! v.

Lemma ondisk_of_geo s s' v : geo s' = geo s -> ondisk_of s' v = ondisk_of s v.
Proof.
  intros Hg. unfold ondisk_of. assert (geo s' !! v = geo s !! v) as He by by rewrite Hg.
  rewrite !geo_lookup in He. apply (f_equal (fmap v_ondisk)) in He.
  rewrite <- !option_fmap_compose in He. exact He.
Qed.

Lemma get_data_spec K s i vol off bufferp z :
  wf s -> root_volume s i vol -> translates s (v_ondisk vol) off z -> off / 2 ^ 60 = 2 \/ 8 <= off / 2 ^ 60 ->
  settled_but K s -> (forall p, K p -> 0 < refs s p /\ ~ shows s p (block_base z)) -> bufferp_held K s bufferp ->
  wp (get_data off bufferp 0) s (λ d s', exists p, d = (p, off mod HAMMER_BUFSIZE) /\
    client no_block no_buffer (λ q, one_ref p q - opt_ref bufferp q) s s' /\ geo s' = geo s /\
    shows s' p (block_base z) /\ settled_but K s' /\ ~ K p).
Proof.
  intros Hwf Hroot Htr Hz Hset HK Hb. unfold get_data, get_buffer_data. change LOOKUP_DEPTH with (S (S 14)).
  apply wp_bind. eapply wp_mono; [eapply get_buffer_data_lemma; [done..|]|].
  { intros p0 [Hk [z0 Hs]]%Hb. split; [auto|]. exists z0. split; [done|]. tauto. }
  intros r s' (p & -> & Hwf' & Hm & Hs & Hsp). apply wp_ret. exists p. split; [done|].
  pose proof (moved_ext _ _ _ _ Hm) as He.
  assert (~ K p) as Hkp.
  { intros Hk. destruct (HK p Hk) as [Hr Hns]. unfold refs in Hr. destruct (heap s !! p) as [b|] eqn:Hb0; [|lia].
    apply Hns. exists b. split_and!; [done| |done]. by apply (ext_ident no_block s s' p b). }
  split_and!; [by apply client_quiet|apply He|done| |done].
  intros q Hq. destruct (decide (refs s' q = 0)) as [H0|H0].
  { destruct (heap s' !! q) as [c|] eqn:Hc; [|intros c w Hc'; congruence].
    eapply settled_idle; [done..|by left]. }
  pose proof (refs_nonneg s' q Hwf') as Hp'. pose proof (refs_nonneg s q Hwf) as Hp.
  destruct (decide (refs s q = 0)) as [H1|H1].
  - assert (q = p) as ->; [|by apply Hsp; left].
    rewrite (moved_refs _ _ _ _ Hm), H1 in H0, Hp'. unfold one_ref in *. case_decide; [done|].
    exfalso. unfold opt_ref in *. destruct bufferp as [p0|]; unfold one_ref, no_refs in *; [case_decide; lia|lia].
  - apply (settled_moved _ _ _ _ _ Hm); [by apply Hset|lia|lia|by intros b _ []].
Qed.

(** The last reference is given back by one who left the buffer settled. *)
Lemma rel_buffer_client K s p :
  wf s -> settled_but K s -> ~ K p -> 0 < refs s p ->
  wp (rel_buffer (Some p)) s (λ _ s', client no_block no_buffer (minus_ref p) s s' /\ geo s' = geo s /\
    settled_but K s').
Proof.
  intros Hwf Hset Hk Hr. eapply wp_mono; [apply rel_buffer_spec; [done..|intros _; by apply Hset]|].
  intros [] s' [Hwf' Hm]. split_and!; [by apply client_quiet|apply Hm|].
  intros q Hq. destruct (decide (refs s' q = 0)) as [H0|H0].
  { destruct (heap s' !! q) as [c|] eqn:Hc; [|intros c w Hc'; congruence].
    eapply settled_idle; [done..|by left]. }
  pose proof (refs_nonneg s' q Hwf'). apply (settled_moved _ _ _ _ _ Hm); [by apply Hset| |lia|by intros b _ []].
  rewrite (moved_refs _ _ _ _ Hm) in *. unfold minus_ref in *. case_decide; lia.
Qed.

(** Stores and flags, for the buffers left alone. *)
Lemma client_settled W K d s s' :
  wf s -> client W K d s s' -> (forall p, d p = 0) -> settled_but K s -> settled_but K s'.
Proof.
  intros Hwf Hc Hd Hset q Hq. pose proof (cl_wf _ _ _ _ _ Hc) as Hwf'.
  destruct (decide (refs s' q = 0)) as [H0|H0].
  { destruct (heap s' !! q) as [c|] eqn:Hc'; [|intros c w Hc''; congruence].
    eapply settled_idle; [done..|by left]. }
  pose proof (refs_nonneg s' q Hwf'). pose proof (cl_refs _ _ _ _ _ Hc q) as Hr. rewrite Hd in Hr.
  apply (cl_kept _ _ _ _ _ Hc q); [done|lia..|]. by apply Hset.
Qed.

Lemma settled_but_mono (K K' : positive -> Prop) s : (forall p, K p -> K' p) -> settled_but K s -> settled_but K' s.
Proof. intros HK Hs p Hp. apply Hs. auto. Qed.

(** ** The root volume and its header *)

Definition rootv (s : state) (v : nat) (o : hammer_volume_ondisk) : Prop :=
  exists vol, root_volume s v vol /\ v_ondisk vol = o.

Lemma rootv_geo s s' v o : geo s' = geo s -> rootv s v o -> rootv s' v o.
Proof. intros Hg (vol & [Hv Hn] & Ho). exists vol. split; [|done]. split; [by rewrite Hg|done]. Qed.

Lemma rootv_lookup s v o : rootv s v o -> exists vol, VolList s !! v = Some vol /\ v_ondisk vol = o.
Proof. intros (vol & [Hv _] & <-). destruct (geo_volume _ _ _ Hv) as (vol' & Hv' & <-). by exists vol'. Qed.

Lemma load_blockmap_spec s v o zone b :
  rootv s v o -> vol0_blockmap o !! Z.to_nat zone = Some b -> load_blockmap v zone s = Ok b s.
Proof. intros (vol & Hv & <-)%rootv_lookup Hb. by eapply load_blockmap_eq. Qed.

Lemma update_ondisk_spec K f s v o :
  wf s -> rootv s v o -> same_area o (f o) -> settled_but K s ->
  wp (update_ondisk f v) s (λ _ s', client no_block no_buffer no_refs s s' /\ rootv s' v (f o) /\
    heap s' = heap s /\ settled_but K s').
Proof.
  intros Hwf Hr Ha Hset. destruct (rootv_lookup _ _ _ Hr) as (vol & Hv & Hvo).
  eapply wp_Ok; [by apply update_ondisk_eq|]. rewrite Hvo.
  assert (same_area (v_ondisk vol) (f o)) as Ha' by by rewrite Hvo.
  split_and!; [by apply client_with_ondisk| |done|intros q Hq; by apply settled_with_ondisk; [..|apply Hset]].
  destruct Hr as (w & Hw & _). destruct (root_with_ondisk s v vol Hv (f o) Ha' v w Hw) as (w' & Hw' & _ & Ho).
  exists w'. split; [done|]. by apply Ho.
Qed.

(** The blockmap of [zone], loaded as [b], gets next offset [n]. *)
Definition set_next (zone n : Z) (b : hammer_blockmap) (o : hammer_volume_ondisk) : hammer_volume_ondisk :=
  set_vol0_blockmap (<[Z.to_nat zone := set_bm_next_offset n b]> (vol0_blockmap o)) o.

Lemma set_next_lookup zone n b b' o :
  vol0_blockmap o !! Z.to_nat zone = Some b' ->
  vol0_blockmap (set_next zone n b o) !! Z.to_nat zone = Some (set_bm_next_offset n b).
Proof. intros Hb. cbn. apply list_lookup_insert_eq. by eapply lookup_lt_Some. Qed.

Lemma set_next_freemap zone n b o :
  8 <= zone -> vol0_blockmap (set_next zone n b o) !! Z.to_nat HAMMER_ZONE_FREEMAP_INDEX =
  vol0_blockmap o !! Z.to_nat HAMMER_ZONE_FREEMAP_INDEX.
Proof. intros Hz. cbn. apply list_lookup_insert_ne. unfold HAMMER_ZONE_FREEMAP_INDEX. lia. Qed.

(** ** One dive *)

(** Skipping to the next buffer. *)
Definition skip (next bytes : Z) : Z :=
  let tmp_offset := u64 (next + bytes - 1) in
  if bool_decide ((next .^ tmp_offset) .& bnot 64 HAMMER_BUFMASK64 ≠ 0)
  then tmp_offset .& bnot 64 HAMMER_BUFMASK64 else next.

(** The freemap entries for offset [n] of a zone can be read. *)
Record readable (s : state) (freemap : hammer_blockmap) (n : Z) : Prop := {
  rd_o1 : meta_ok hammer_blockmap_layer1 s (layer1_offset freemap n);
  rd_phys : l1_phys_offset (view_struct hammer_blockmap_layer1 s (layer1_offset freemap n))
            ≠ HAMMER_BLOCKMAP_UNAVAIL;
  rd_o2 : meta_ok hammer_blockmap_layer2 s
            (layer2_offset (view_struct hammer_blockmap_layer1 s (layer1_offset freemap n)) n);
}.
Definition l1_of (s : state) (freemap : hammer_blockmap) (n : Z) : hammer_blockmap_layer1 :=
  view_struct hammer_blockmap_layer1 s (layer1_offset freemap n).
Definition o2_of (s : state) (freemap : hammer_blockmap) (n : Z) : Z :=
  layer2_offset (l1_of s freemap n) n.
Definition l2_of (s : state) (freemap : hammer_blockmap) (n : Z) : hammer_blockmap_layer2 :=
  view_struct hammer_blockmap_layer2 s (o2_of s freemap n).

Lemma view_struct_client (A : Type) `{OnDisk A} W K d s s' off :
  client W K d s s' -> valid_block s (block_base off) -> ~ W (block_base off) ->
  view_struct A s' off = view_struct A s off.
Proof. intros Hc Hv HW. unfold view_struct. by rewrite (cl_view _ _ _ _ _ Hc). Qed.

Lemma meta_ok_client (A : Type) `{OnDisk A} W K d s s' off :
  client W K d s s' -> meta_ok A s off -> meta_ok A s' off.
Proof. intros Hc (Hu & Hz & Hv & Hs). do 2 (split; [done|]). split; [|done]. by apply (cl_valid _ _ _ _ _ Hc). Qed.

Lemma readable_client K d s s' freemap n :
  client no_block K d s s' -> readable s freemap n ->
  readable s' freemap n /\ l1_of s' freemap n = l1_of s freemap n /\
  o2_of s' freemap n = o2_of s freemap n /\ l2_of s' freemap n = l2_of s freemap n.
Proof.
  intros Hc [H1 Hp H2].
  assert (view_struct hammer_blockmap_layer1 s' (layer1_offset freemap n) =
          view_struct hammer_blockmap_layer1 s (layer1_offset freemap n)) as He.
  { eapply view_struct_client; [done|apply H1|by intros []]. }
  unfold o2_of, l2_of, l1_of, o2_of, l1_of. split; [split|]; rewrite ?He.
  - by eapply meta_ok_client.
  - done.
  - by eapply meta_ok_client.
  - split_and!; [done..|]. eapply view_struct_client; [done|apply H2|by intros []].
Qed.

Lemma translates_raw s o off : meta_ok hammer_blockmap_layer1 s off \/ meta_ok hammer_blockmap_layer2 s off ->
  translates s o off off.
Proof.
  intros [(Hu & Hz & Hv & _)|(Hu & Hz & Hv & _)]; do 4 (split; [done|]); by rewrite bool_decide_eq_true_2.
Qed.

(** The client steps of an operation that takes part of its state along. *)
Lemma client_seq d e f s1 s2 s3 :
  client no_block no_buffer d s1 s2 -> client no_block no_buffer e s2 s3 -> (forall p, d p + e p = f p) ->
  (forall p, 0 < refs s1 p -> 0 < refs s3 p -> 0 < refs s2 p) -> client no_block no_buffer f s1 s3.
Proof.
  intros H12 H23 Hf Hm. eapply client_weaken; [| | |eapply client_trans; [exact H12|exact H23|exact Hm]]; done.
Qed.

Lemma load_struct_spec (A : Type) `{OnDisk A} s p off :
  wf s -> shows s p (block_base off) -> meta_ok A s off ->
  load_struct A (p, off mod HAMMER_BUFSIZE) s = Ok (view_struct A s off) s.
Proof. intros Hwf Hs (_ & _ & _ & Hsz). by apply load_struct_view. Qed.

(** A pointer shows one block only. *)
Definition same_ptrs (s s' : state) : Prop :=
  (next_ptr s <= next_ptr s')%positive /\
  forall p b', heap s' !! p = Some b' -> (next_ptr s <= p)%positive \/
    exists b, heap s !! p = Some b /\ b_zone2_offset b' = b_zone2_offset b.

Lemma client_same_ptrs W K d s s' : client W K d s s' -> same_ptrs s s'.
Proof. intros Hc. split; [apply Hc|]. apply (cl_stable _ _ _ _ _ Hc). Qed.

#[export] Instance same_ptrs_preorder : PreOrder same_ptrs.
Proof.
  split.
  - intros s. split; [done|]. eauto.
  - intros s1 s2 s3 [N1 I1] [N2 I2]. split; [lia|]. intros p b3 Hp.
    destruct (I2 p b3 Hp) as [|(b2 & Hb2 & ->)]; [left; lia|]. by apply I1.
Qed.

Lemma shows_ident s s' p z z' : wf s -> same_ptrs s s' -> shows s p z -> shows s' p z' -> z = z'.
Proof.
  intros Hwf [_ Hs] (b & Hb & <- & _) (b' & Hb' & <- & _). destruct (Hs p b' Hb') as [Hn|(c & Hc & ->)].
  - pose proof (wf_ptr s Hwf p ltac:(eauto)). lia.
  - congruence.
Qed.

Definition held2 (s : state) (b1 b2 : option positive) : Prop :=
  match b1, b2 with
  | None, None => True
  | Some p1, Some p2 => p1 ≠ p2 /\ (exists z, shows s p1 z) /\ exists z, shows s p2 z
  | _, _ => False
  end.

Lemma opt_ref_cases (b : option positive) q : opt_ref b q = 0 \/ b = Some q /\ opt_ref b q = 1.
Proof. destruct b as [p|]; cbn; unfold one_ref, no_refs; [case_decide; naive_solver|by left]. Qed.

Lemma held2_refs s b1 b2 q :
  wf s -> held2 s b1 b2 -> opt_ref b1 q + opt_ref b2 q <= refs s q.
Proof.
  intros Hwf Hh. pose proof (refs_nonneg s q Hwf).
  destruct b1 as [p1|], b2 as [p2|]; cbn in *; try done; unfold one_ref, no_refs.
  destruct Hh as (Hne & [z1 H1%shows_refs] & [z2 H2%shows_refs]). repeat case_decide; simplify_eq; lia.
Qed.

Lemma alloc_dive_spec s v o zone bytes b1 b2 bm freemap :
  wf s -> rootv s v o -> 8 <= zone -> settled_but no_buffer s -> held2 s b1 b2 ->
  vol0_blockmap o !! Z.to_nat zone = Some bm ->
  vol0_blockmap o !! Z.to_nat HAMMER_ZONE_FREEMAP_INDEX = Some freemap ->
  bm_next_offset bm ≠ HAMMER_ZONE_ENCODE (zone + 1) 0 ->
  let n := skip (bm_next_offset bm) bytes in
  readable s freemap n ->
  ~ (n .& HAMMER_BIGBLOCK_MASK = 0 /\ l1_blocks_free (l1_of s freemap n) = 0) ->
  let o1 := layer1_offset freemap n in
  let o2 := o2_of s freemap n in
  block_base o1 ≠ block_base o2 -> (forall p, b1 = Some p -> ~ shows s p (block_base o2)) ->
  wp (alloc_dive v zone bytes (b1, b2)) s (λ dv s', exists p1 p2,
    dv = {| dv_next := n; dv_d1 := (p1, o1 mod HAMMER_BUFSIZE); dv_layer1 := l1_of s freemap n;
            dv_d2 := (p2, o2 mod HAMMER_BUFSIZE); dv_layer2 := l2_of s freemap n |} /\
    client no_block no_buffer (λ q, one_ref p1 q + one_ref p2 q - opt_ref b1 q - opt_ref b2 q) s s' /\
    rootv s' v (set_next zone n bm o) /\ settled_but no_buffer s' /\ p1 ≠ p2 /\
    shows s' p1 (block_base o1) /\ shows s' p2 (block_base o2)).
Proof.
  intros Hwf Hr Hz Hset Hh Hbm Hfm Hend n Hrd Hfree o1 o2 Hne Hb1. unfold alloc_dive. cbn [fst snd].
  apply wp_bind. eapply wp_Ok; [by eapply load_blockmap_spec|].
  apply wp_bind, wp_assertp; [by apply bool_decide_eq_true_2|]. fold (skip (bm_next_offset bm) bytes). fold n.
  apply wp_bind. unfold store_blockmap.
  eapply wp_mono; [by eapply (update_ondisk_spec no_buffer); [..|done]|].
  intros [] s1 (Hc1 & Hr1 & Hheap1 & Hset1). fold (set_next zone n bm o) in Hr1.
  pose proof (cl_wf _ _ _ _ _ Hc1) as Hwf1.
  destruct (readable_client _ _ _ _ _ _ Hc1 Hrd) as (Hrd1 & Hl1 & Ho2 & Hl2).
  apply wp_bind. eapply wp_Ok; [eapply load_blockmap_spec; [done|]; by rewrite set_next_freemap|].
  fold (layer1_offset freemap n) in *. fold o1.
  assert (held2 s1 b1 b2) as Hh1.
  { unfold held2, shows in *. rewrite Hheap1. exact Hh. }
  destruct Hr1 as (vol1 & Hroot1 & Hvo1).
  apply wp_bind. eapply wp_mono; [eapply (get_data_spec no_buffer); [done..| | |done|by intros ? []|]|].
  { apply translates_raw. left. apply Hrd1. }
  { left. apply Hrd1. }
  { intros p0 ->. split; [by intros []|]. destruct b2; [apply Hh1|done]. }
  intros d s2 (p1 & -> & Hc2 & Hg2 & Hs1 & Hset2 & _). pose proof (cl_wf _ _ _ _ _ Hc2) as Hwf2.
  destruct (readable_client _ _ _ _ _ _ Hc2 Hrd1) as (Hrd2 & Hl12 & Ho22 & Hl22).
  apply wp_bind. eapply wp_Ok; [apply load_struct_spec; [done..|apply Hrd2]|].
  change (view_struct hammer_blockmap_layer1 s2 o1) with (l1_of s2 freemap n). rewrite Hl12, Hl1.
  apply wp_bind, wp_assertp; [apply bool_decide_eq_true_2; rewrite <- Hl1; apply Hrd1|].
  apply wp_bind, wp_assertp.
  { rewrite <- bool_decide_and, <- bool_decide_not. by apply bool_decide_eq_true_2. }
  fold (layer2_offset (l1_of s freemap n) n). fold (o2_of s freemap n). fold o2.
  assert (o2_of s2 freemap n = o2) as Heq2 by by rewrite Ho22, Ho2.
  assert (forall q, b2 = Some q -> q ≠ p1 \/ 1 < refs s2 q) as Hb2.
  { intros q ->. destruct (decide (q = p1)) as [->|]; [right|by left]. rewrite (cl_refs _ _ _ _ _ Hc2).
    pose proof (held2_refs s1 b1 (Some p1) p1 Hwf1 Hh1) as Hle. cbn [opt_ref] in Hle.
    unfold one_ref in *. rewrite decide_True in * by done. lia. }
  assert (forall q, opt_ref b1 q + opt_ref b2 q <= refs s1 q) as Hrefs1 by (intros q; by apply held2_refs).
  apply wp_bind. eapply wp_mono; [eapply (get_data_spec no_buffer s2 v vol1); [done| | | |done|by intros ? []|]|].
  { destruct Hroot1 as [Hga Hgb]. split; [by rewrite Hg2|done]. }
  { apply translates_raw. right. rewrite <- Heq2. apply Hrd2. }
  { left. rewrite <- Heq2. apply Hrd2. }
  { intros p0 ->. split; [by intros []|]. destruct b1 as [q1|]; [|done]. cbn in Hh1.
    destruct Hh1 as (Hqq & _ & [z2 Hz2]). exists z2. eapply client_shows; [| |done|]; [done..|].
    rewrite (cl_refs _ _ _ _ _ Hc2). pose proof (shows_refs _ _ _ Hz2). cbn. unfold one_ref.
    rewrite (decide_False (P := p0 = q1)) by done. case_decide; lia. }
  intros d s3 (p2 & -> & Hc3 & Hg3 & Hs2 & Hset3 & _). pose proof (cl_wf _ _ _ _ _ Hc3) as Hwf3.
  destruct (readable_client _ _ _ _ _ _ Hc3 Hrd2) as (Hrd3 & Hl13 & Ho23 & Hl23).
  assert (forall q, refs s3 q = refs s q + (one_ref p1 q + one_ref p2 q - opt_ref b1 q - opt_ref b2 q)) as Hrefs.
  { intros q. rewrite (cl_refs _ _ _ _ _ Hc3), (cl_refs _ _ _ _ _ Hc2), (cl_refs _ _ _ _ _ Hc1).
    unfold no_refs. lia. }
  assert (refs s1 = refs s) as Hrs by (unfold refs; by rewrite Hheap1).
  assert (shows s3 p1 (block_base o1)) as Hs13.
  { eapply client_shows; [| |done|]; [done..|]. rewrite Hrefs, <- Hrs. specialize (Hrefs1 p1).
    unfold one_ref. rewrite (decide_True (P := p1 = p1)) by done. case_decide; lia. }
  assert (p1 ≠ p2) as Hpp.
  { intros <-. destruct Hs13 as (c & Hc & Hzc & _), Hs2 as (c' & Hc' & Hz' & _). congruence. }
  assert (forall q, b1 = Some q -> q ≠ p2) as Hnb1.
  { intros q Hq ->. apply (Hb1 p2 Hq). destruct b2 as [q2|]; [|by subst b1]. subst b1. cbn in Hh.
    destruct Hh as (_ & [z Hz0] & _). assert (z = block_base o2) as <-; [|done].
    apply (shows_ident s s3 p2); [done| |done..].
    trans s1; [by eapply client_same_ptrs|]. trans s2; by eapply client_same_ptrs. }
  apply wp_bind. rewrite <- Heq2, <- Ho23 in Hs2 |- *.
  eapply wp_Ok; [apply load_struct_spec; [done..|apply Hrd3]|]. apply wp_ret.
  exists p1, p2. fold (l2_of s3 freemap n). split_and!; [|..|done|done|done|done].
  - rewrite Ho23, Heq2, Hl23, Hl22, Hl2. done.
  - eapply client_seq; [exact Hc1|eapply client_seq; [exact Hc2|exact Hc3|done|]|..].
    + intros q H1 H3. rewrite (cl_refs _ _ _ _ _ Hc2). specialize (Hrefs1 q). rewrite Hrefs, <- Hrs in H3.
      unfold one_ref in *. destruct (opt_ref_cases b2 q) as [Hq2|[_ Hq2]]; [|repeat case_decide; lia].
      destruct (opt_ref_cases b1 q) as [Hq1|[Hq1 Hq1']]; [repeat case_decide; lia|].
      assert (q ≠ p2) as Hqp2 by (intros ->; by apply (Hnb1 p2)). repeat case_decide; lia.
    + intros q. unfold no_refs. cbn. lia.
    + intros q H1 _. by rewrite Hrs.
  - apply (rootv_geo s2 s3); [done|]. apply (rootv_geo s1 s2); [done|]. by exists vol1.
Qed.

(** ** Entries read from a block are well formed *)

Lemma bytes_ok_take n bs : bytes_ok bs -> bytes_ok (take n bs).
Proof. apply Forall_take. Qed.
Lemma bytes_ok_drop n bs : bytes_ok bs -> bytes_ok (drop n bs).
Proof. apply Forall_drop. Qed.

Lemma of_le_take_range w n bs :
  bytes_ok bs -> (n <= length bs)%nat -> w = 8 * Z.of_nat n -> in_u w (of_le (take n bs)).
Proof.
  intros Hb Hl ->. pose proof (of_le_bound (take n bs) (bytes_ok_take n bs Hb)) as H.
  by rewrite length_take_le in H.
Qed.

Lemma in_s_swrap w z : 0 < w -> in_s w (swrap w z).
Proof.
  intros Hw. unfold in_s, swrap. pose proof (Z.mod_pos_bound (z + 2 ^ (w - 1)) (2 ^ w)).
  assert (2 ^ w = 2 * 2 ^ (w - 1)) as He by (rewrite <- Z.pow_succ_r by lia; f_equal; lia). lia.
Qed.

Ltac decode_field :=
  first [ by apply in_s_swrap
        | apply of_le_take_range; [by repeat apply bytes_ok_drop|rewrite ?length_drop; lia|done] ].

Lemma valid_decode_layer1 bs :
  bytes_ok bs -> (sizeof hammer_blockmap_layer1 <= length bs)%nat -> valid (decode (A := hammer_blockmap_layer1) bs).
Proof.
  intros Hb Hl. change (sizeof hammer_blockmap_layer1) with 32%nat in Hl.
  split_and!; cbn [l1_blocks_free l1_phys_offset l1_reserved01 l1_layer2_crc l1_layer1_crc decode of_chunks
    hammer_blockmap_layer1_ondisk widths split_widths]; decode_field.
Qed.

Lemma valid_decode_layer2 bs :
  bytes_ok bs -> (sizeof hammer_blockmap_layer2 <= length bs)%nat -> valid (decode (A := hammer_blockmap_layer2) bs).
Proof.
  intros Hb Hl. change (sizeof hammer_blockmap_layer2) with 16%nat in Hl.
  split_and!; cbn [l2_zone l2_reserved01 l2_reserved02 l2_append_off l2_bytes_free l2_entry_crc decode of_chunks
    hammer_blockmap_layer2_ondisk widths split_widths]; decode_field.
Qed.

Lemma view_bytes s z2 :
  wf s -> valid_block s z2 -> length (view s z2) = Z.to_nat HAMMER_BUFSIZE /\ bytes_ok (view s z2).
Proof.
  intros Hwf (i & vol & Hi & Ho). pose proof Ho as (_ & _ & _ & Hd & _).
  destruct (view_cases s i vol z2 Hwf Hi Hd) as [(p & b & Hp & _ & ->)|[_ ->]].
  - by destruct (wf_buf s Hwf p b Hp) as (_ & _ & ? & ? & _).
  - apply file_block_ok. by eapply wf_vol.
Qed.

Lemma view_drop (A : Type) `{OnDisk A} s off :
  wf s -> meta_ok A s off ->
  bytes_ok (drop (Z.to_nat (off mod HAMMER_BUFSIZE)) (view s (block_base off))) /\
  (sizeof A <= length (drop (Z.to_nat (off mod HAMMER_BUFSIZE)) (view s (block_base off))))%nat.
Proof.
  intros Hwf (_ & _ & Hv & Hs). destruct (view_bytes s _ Hwf Hv) as [Hl Hb].
  split; [by apply bytes_ok_drop|]. rewrite length_drop, Hl. pose proof (Z.mod_pos_bound off HAMMER_BUFSIZE ltac:(done)).
  lia.
Qed.

Lemma valid_l1_of s freemap n : wf s -> readable s freemap n -> valid (l1_of s freemap n).
Proof. intros Hwf [H _ _]. destruct (view_drop _ _ _ Hwf H). by apply valid_decode_layer1. Qed.
Lemma valid_l2_of s freemap n : wf s -> readable s freemap n -> valid (l2_of s freemap n).
Proof. intros Hwf [_ _ H]. destruct (view_drop _ _ _ Hwf H). by apply valid_decode_layer2. Qed.

Lemma valid_set_blocks_free x l : valid l -> in_u 64 x -> valid (set_l1_blocks_free x l).
Proof. intros (? & ? & ? & ? & ?) Hx. by split_and!. Qed.
Lemma valid_set_zone x l : valid l -> in_u 8 x -> valid (set_l2_zone x l).
Proof. intros (? & ? & ? & ? & ? & ?) Hx. by split_and!. Qed.
Lemma valid_claim a f l : valid l -> in_u 32 a -> in_s 32 f -> valid (set_l2_append_off a (set_l2_bytes_free f l)).
Proof. intros (? & ? & ? & ? & ? & ?) Ha Hf. by split_and!. Qed.

(** ** Entering a free big-block *)

Definition stat_down (o : hammer_volume_ondisk) : hammer_volume_ondisk :=
  set_vol0_stat_freebigblocks (s64 (vol0_stat_freebigblocks o - 1)) o.

(** Two stores in different blocks, as one step. *)
Definition in2 {A} (x y : A) : A -> Prop := λ z, z = x \/ z = y.

Section enter.
Context (s : state) (v : nat) (o : hammer_volume_ondisk) (zone : Z) (p1 p2 : positive) (o1 o2 : Z).
Context (n : Z) (l1 : hammer_blockmap_layer1) (l2 : hammer_blockmap_layer2).
Context (Hwf : wf s) (Hr : rootv s v o) (Hset : settled_but (in2 p1 p2) s) (Hz : 8 <= zone < 16).
Context (Hs1 : shows s p1 (block_base o1)) (Hs2 : shows s p2 (block_base o2)).
Context (Hm1 : meta_ok hammer_blockmap_layer1 s o1) (Hm2 : meta_ok hammer_blockmap_layer2 s o2).
Context (Hv1 : valid l1) (Hv2 : valid l2).
Context (Hl1 : view_struct hammer_blockmap_layer1 s o1 = l1) (Hl2 : view_struct hammer_blockmap_layer2 s o2 = l2).
Context (Hne : block_base o1 ≠ block_base o2).
Local Abbreviation dv := {| dv_next := n; dv_d1 := (p1, o1 mod HAMMER_BUFSIZE); dv_layer1 := l1;
  dv_d2 := (p2, o2 mod HAMMER_BUFSIZE); dv_layer2 := l2 |}.

Lemma alloc_enter_new :
  l2_zone l2 = 0 -> l2_bytes_free l2 = HAMMER_BIGBLOCK_SIZE -> l2_append_off l2 = 0 ->
  wp (alloc_enter v zone dv) s (λ l2' s', l2' = set_l2_zone zone l2 /\
    client (in2 (block_base o1) (block_base o2)) (in2 p1 p2) no_refs s s' /\
    rootv s' v (stat_down o) /\ settled_but (in2 p1 p2) s' /\
    view_struct hammer_blockmap_layer1 s' o1 =
      sealed (HammerVersion s) (set_l1_blocks_free (u64 (l1_blocks_free l1 - 1)) l1) /\
    view_struct hammer_blockmap_layer2 s' o2 = set_l2_zone zone l2).
Proof.
  intros H0 Hbf Hap. unfold alloc_enter. cbn [dv_layer2 dv_layer1 dv_d1 dv_d2].
  assert (u8 zone = zone) as Hu8 by (apply uwrap_small; unfold in_u; lia).
  rewrite H0, bool_decide_eq_true_2 by done. rewrite Hu8.
  apply wp_bind. eapply wp_mono; [apply put_layer1_spec; [done..|]|].
  { apply valid_set_blocks_free; [done|by apply in_u_uwrap]. }
  intros [] s1 (Hc1 & Hg1 & Hview1). pose proof (cl_wf _ _ _ _ _ Hc1) as Hwf1.
  apply wp_bind. eapply wp_mono; [apply store_struct_spec; [done| | |]|].
  { eapply client_shows; [exact Hwf|exact Hc1|done|]. rewrite (cl_refs _ _ _ _ _ Hc1).
    pose proof (shows_refs _ _ _ Hs2). unfold no_refs. lia. }
  { by eapply meta_ok_client. }
  { apply valid_set_zone; [done|unfold in_u; lia]. }
  intros [] s2 (Hc2 & Hg2 & Hview2). pose proof (cl_wf _ _ _ _ _ Hc2) as Hwf2.
  assert (client (in2 (block_base o1) (block_base o2)) (in2 p1 p2) no_refs s s2) as Hc12.
  { apply (client_weaken (in2 (block_base o1) (block_base o2)) _ (in2 p1 p2) _ (λ q, no_refs q + no_refs q)); [done..|].
    eapply client_trans.
    - eapply client_weaken; [| | |exact Hc1]; [by left|by left|done].
    - eapply client_weaken; [| | |exact Hc2]; [by right|by right|done].
    - intros q Hq _. rewrite (cl_refs _ _ _ _ _ Hc1). unfold no_refs. lia. }
  apply wp_bind. eapply wp_mono; [eapply (update_ondisk_spec (in2 p1 p2) _ s2 v o); [done| |done|]|].
  { apply (rootv_geo s1 s2); [done|]. by apply (rootv_geo s s1). }
  { by apply (client_settled _ _ _ _ _ Hwf Hc12). }
  intros [] s3 (Hc3 & Hr3 & _ & Hset3).
  apply wp_bind, wp_assertp; [by apply bool_decide_eq_true_2|].
  apply wp_bind, wp_assertp; [by apply bool_decide_eq_true_2|]. apply wp_ret.
  split_and!; [done|..|done|done| |].
  - eapply (client_weaken _ _ _ _ (λ q, no_refs q + no_refs q)); [done..|eapply client_trans; [exact Hc12| |]].
    + eapply client_weaken; [| | |exact Hc3]; [by intros ? []|by intros ? []|done].
    + intros q Hq _. rewrite (cl_refs _ _ _ _ _ Hc12). unfold no_refs. lia.
  - rewrite (view_struct_client _ _ _ _ s2 s3 o1 Hc3); [|apply (cl_valid _ _ _ _ _ Hc12), Hm1|by intros []].
    rewrite (view_struct_client _ _ _ _ s1 s2 o1 Hc2); [done|apply (cl_valid _ _ _ _ _ Hc1), Hm1|done].
  - rewrite (view_struct_client _ _ _ _ s2 s3 o2 Hc3); [done|apply (cl_valid _ _ _ _ _ Hc12), Hm2|by intros []].
Qed.
End enter.

(** ** One turn of the allocator *)

(** The freemap entries for [n] can be read, and layer 2 does not lie in layer 1's
    big-block. *)
Definition site (s : state) (freemap : hammer_blockmap) (n : Z) : Prop :=
  readable s freemap n /\
  (forall m, block_base (layer1_offset freemap m) ≠ block_base (o2_of s freemap n)) /\
  ~ (n .& HAMMER_BIGBLOCK_MASK = 0 /\ l1_blocks_free (l1_of s freemap n) = 0).

(** The big-block of [n] is free, or belongs to [zone] and is filled up to [n]. *)
Definition fresh (s : state) (freemap : hammer_blockmap) (n : Z) : bool :=
  bool_decide (l2_zone (l2_of s freemap n) = 0).
Definition ready (s : state) (freemap : hammer_blockmap) (zone n : Z) : Prop :=
  let l2 := l2_of s freemap n in
  l2_append_off l2 = n .& HAMMER_BIGBLOCK_MASK /\
  (l2_zone l2 = zone \/ l2_zone l2 = 0 /\ l2_bytes_free l2 = HAMMER_BIGBLOCK_SIZE /\ l2_append_off l2 = 0).
(** It belongs to another zone. *)
Definition foreign (s : state) (freemap : hammer_blockmap) (zone n : Z) : Prop :=
  let z := l2_zone (l2_of s freemap n) in
  z ≠ 0 /\ z ≠ zone /\ z ≠ HAMMER_ZONE_UNAVAIL_INDEX.

(** The entries after the allocation. *)
Definition l1_after (s : state) (freemap : hammer_blockmap) (n : Z) : hammer_blockmap_layer1 :=
  let l1 := l1_of s freemap n in
  if fresh s freemap n then sealed (HammerVersion s) (set_l1_blocks_free (u64 (l1_blocks_free l1 - 1)) l1) else l1.
Definition l2_after (s : state) (freemap : hammer_blockmap) (zone bytes n : Z) : hammer_blockmap_layer2 :=
  let l2 := l2_of s freemap n in
  sealed (HammerVersion s)
    (set_l2_append_off (s32 (u64 (n + bytes)) .& HAMMER_BIGBLOCK_MASK)
       (set_l2_bytes_free (s32 (l2_bytes_free l2 - bytes)) (set_l2_zone zone l2))).
Definition header_after (s : state) (freemap : hammer_blockmap) (zone bytes n : Z) (bm : hammer_blockmap)
    (o : hammer_volume_ondisk) : hammer_volume_ondisk :=
  let o := set_next zone (u64 (n + bytes)) bm o in
  if fresh s freemap n then stat_down o else o.

Lemma set_l2_zone_id zone l : l2_zone l = zone -> set_l2_zone zone l = l.
Proof. intros <-. by destruct l. Qed.

Lemma set_next_twice zone n n' bm o :
  set_next zone n' (set_bm_next_offset n bm) (set_next zone n bm o) = set_next zone n' bm o.
Proof. unfold set_next. cbn. by rewrite list_insert_insert_eq. Qed.

Lemma set_next_stat zone n n' bm o :
  set_next zone n' (set_bm_next_offset n bm) (stat_down (set_next zone n bm o)) =
  stat_down (set_next zone n' bm o).
Proof. unfold set_next, stat_down. cbn. by rewrite list_insert_insert_eq. Qed.

Section claim.
Context (s : state) (v : nat) (o : hammer_volume_ondisk) (zone bytes : Z) (bm freemap : hammer_blockmap).
Context (Hwf : wf s) (Hr : rootv s v o) (Hset : settled_but no_buffer s) (Hz : 8 <= zone < 15).
Context (Hbm : vol0_blockmap o !! Z.to_nat zone = Some bm).
Context (n : Z) (Hsite : site s freemap n).
Local Abbreviation o1 := (layer1_offset freemap n).
Local Abbreviation o2 := (o2_of s freemap n).
Context (p1 p2 : positive) (Hpp : p1 ≠ p2).
Local Abbreviation dv := {| dv_next := n; dv_d1 := (p1, o1 mod HAMMER_BUFSIZE); dv_layer1 := l1_of s freemap n;
  dv_d2 := (p2, o2 mod HAMMER_BUFSIZE); dv_layer2 := l2_of s freemap n |}.
(** [s1] is the state after the dive. *)
Context (s1 : state) (d : positive -> Z) (Hc1 : client no_block no_buffer d s s1).
Context (Hr1 : rootv s1 v (set_next zone n bm o)) (Hset1 : settled_but no_buffer s1).
Context (Hs1 : shows s1 p1 (block_base o1)) (Hs2 : shows s1 p2 (block_base o2)).

(** The state after "assign ownership". *)
Lemma alloc_enter_spec :
  ready s freemap zone n ->
  wp (alloc_enter v zone dv) s1 (λ l2' s', l2' = set_l2_zone zone (l2_of s freemap n) /\
    client (in2 (block_base o1) (block_base o2)) (in2 p1 p2) no_refs s1 s' /\
    rootv s' v (if fresh s freemap n then stat_down (set_next zone n bm o) else set_next zone n bm o) /\
    settled_but (in2 p1 p2) s' /\ view_struct hammer_blockmap_layer1 s' o1 = l1_after s freemap n /\
    view_struct hammer_blockmap_layer2 s' o2 = set_l2_zone zone (l2_of s freemap n)).
Proof.
  intros [Hap Hcase]. destruct Hsite as (Hrd & Hne & _).
  destruct (readable_client _ _ _ _ _ _ Hc1 Hrd) as (Hrd1 & Hl1 & Ho2 & Hl2).
  pose proof (cl_wf _ _ _ _ _ Hc1) as Hwf1. unfold l1_after, fresh.
  destruct Hcase as [Hown|(H0 & Hbf & Ha0)].
  - rewrite bool_decide_eq_false_2 by lia. unfold alloc_enter. cbn [dv_layer2].
    rewrite bool_decide_eq_false_2 by lia. apply wp_ret. rewrite set_l2_zone_id by done.
    split_and!; [done| |done| |done|].
    + split; try done. { intros p c Hp. right. by exists c. } { intros q. unfold no_refs. lia. }
      intros q _ _ _. apply kept_refl.
    + eapply settled_but_mono; [|done]. by intros q [].
    + rewrite <- Hl2. unfold l2_of. by rewrite Ho2.
  - rewrite bool_decide_eq_true_2 by done.
    eapply wp_mono; [eapply (alloc_enter_new s1 v (set_next zone n bm o) zone p1 p2 o1 o2 n); try done|].
    + eapply settled_but_mono; [|done]. by intros q [].
    + lia.
    + apply Hrd1.
    + rewrite <- Ho2. apply Hrd1.
    + by apply valid_l1_of.
    + by apply valid_l2_of.
    + cbn beta. intros l2' s' (-> & Hc' & Hr' & Hset' & Hv1 & Hv2).
      rewrite (cl_version _ _ _ _ _ Hc1) in Hv1. by split_and!.
Qed.
(** The rest of a turn that allocates. *)
Lemma alloc_claim_ready :
  0 < bytes <= HAMMER_BUFSIZE -> ready s freemap zone n ->
  wp (alloc_claim v zone bytes dv) s1 (λ r s', r = inr (n, p1, p2) /\
    client (in2 (block_base o1) (block_base o2)) (in2 p1 p2) no_refs s1 s' /\
    rootv s' v (header_after s freemap zone bytes n bm o) /\ settled_but (in2 p1 p2) s' /\
    view_struct hammer_blockmap_layer1 s' o1 = l1_after s freemap n /\
    view_struct hammer_blockmap_layer2 s' o2 = l2_after s freemap zone bytes n).
Proof.
  intros Hbytes Hready. pose proof Hready as [Hap _]. destruct Hsite as (Hrd & Hne & _).
  pose proof (cl_wf _ _ _ _ _ Hc1) as Hwf1.
  unfold alloc_claim. cbn [dv_next dv_d1 dv_d2 fst].
  apply wp_bind. eapply wp_mono; [by apply alloc_enter_spec|].
  intros l2' s2 (-> & Hc2 & Hr2 & Hset2 & Hv1 & Hv2). pose proof (cl_wf _ _ _ _ _ Hc2) as Hwf2.
  set (o' := if fresh s freemap n then _ else _) in Hr2.
  assert (vol0_blockmap o' !! Z.to_nat zone = Some (set_bm_next_offset n bm)) as Hbm2.
  { unfold o'. destruct (fresh s freemap n); [cbn|]; by eapply set_next_lookup. }
  apply wp_bind. eapply wp_Ok; [by eapply load_blockmap_spec|]. cbn [l2_zone l2_append_off l2_bytes_free set_l2_zone].
  rewrite bool_decide_eq_false_2 by auto. apply wp_bind, wp_assertp; [by apply bool_decide_eq_true_2|].
  apply wp_bind. unfold store_blockmap.
  eapply wp_mono; [by eapply (update_ondisk_spec (in2 p1 p2)); [..|done]|].
  intros [] s3 (Hc3 & Hr3 & Hheap3 & Hset3). pose proof (cl_wf _ _ _ _ _ Hc3) as Hwf3.
  assert (rootv s3 v (header_after s freemap zone bytes n bm o)) as Hr3'.
  { replace (header_after s freemap zone bytes n bm o) with (set_next zone (u64 (n + bytes)) (set_bm_next_offset n bm) o'); [done|].
    unfold header_after, o'. destruct (fresh s freemap n); [apply set_next_stat|apply set_next_twice]. }
  assert (client (in2 (block_base o1) (block_base o2)) (in2 p1 p2) no_refs s1 s3) as Hc13.
  { eapply (client_weaken _ _ _ _ (λ q, no_refs q + no_refs q)); [done..|eapply client_trans; [exact Hc2| |]].
    - eapply client_weaken; [| | |exact Hc3]; [by intros ? []|by intros ? []|done].
    - intros q Hq _. rewrite (cl_refs _ _ _ _ _ Hc2). unfold no_refs. lia. }
  destruct (readable_client _ _ _ _ _ _ Hc1 Hrd) as (Hrd1 & _ & Ho2 & _).
  assert (meta_ok hammer_blockmap_layer2 s3 o2) as Hm3 by (eapply meta_ok_client; [exact Hc13|]; rewrite <- Ho2; apply Hrd1).
  apply wp_bind. eapply wp_mono; [eapply put_layer2_spec; [done| |done|]|].
  { eapply client_shows; [exact Hwf1|exact Hc13|done|]. rewrite (cl_refs _ _ _ _ _ Hc13).
    pose proof (shows_refs _ _ _ Hs2). unfold no_refs. lia. }
  { apply valid_claim.
    - apply valid_set_zone; [by apply valid_l2_of|unfold in_u; lia].
    - apply in_u_land_r; [done|]. done.
    - by apply in_s_swrap. }
  intros [] s4 (Hc4 & Hg4 & Hv4). apply wp_ret.
  assert (HammerVersion s3 = HammerVersion s) as Hver.
  { by rewrite (cl_version _ _ _ _ _ Hc13), (cl_version _ _ _ _ _ Hc1). }
  rewrite Hver in Hv4.
  split_and!; [done|..].
  - eapply (client_weaken _ _ _ _ (λ q, no_refs q + no_refs q)); [done..|eapply client_trans; [exact Hc13| |]].
    + eapply client_weaken; [| | |exact Hc4]; [by right|by right|done].
    + intros q Hq _. rewrite (cl_refs _ _ _ _ _ Hc13). unfold no_refs. lia.
  - by apply (rootv_geo s3 s4).
  - apply (client_settled (in2 (block_base o1) (block_base o2)) (in2 p1 p2) no_refs s3 s4); [done| |done|done].
    eapply client_weaken; [| | |exact Hc4]; [by right|by right|done].
  - assert (valid_block s1 (block_base o1)) as Hvb1 by apply Hrd1.
    rewrite (view_struct_client _ _ _ _ s3 s4 o1 Hc4); [|by apply (cl_valid _ _ _ _ _ Hc13)|apply Hne].
    rewrite (view_struct_client _ _ _ _ s2 s3 o1 Hc3); [done|by apply (cl_valid _ _ _ _ _ Hc2)|by intros []].
  - done.
Qed.

(** The rest of a turn that skips the big-block. *)
Lemma alloc_claim_foreign :
  foreign s freemap zone n ->
  wp (alloc_claim v zone bytes dv) s1 (λ r s', r = inl (Some p1, Some p2) /\
    client no_block no_buffer no_refs s1 s' /\ heap s' = heap s1 /\
    rootv s' v (set_next zone (HAMMER_ZONE_LAYER2_NEXT_OFFSET n) bm o) /\ settled_but no_buffer s').
Proof.
  intros (H0 & Hzz & _). pose proof (cl_wf _ _ _ _ _ Hc1) as Hwf1.
  unfold alloc_claim, alloc_enter. cbn [dv_next dv_d1 dv_d2 dv_layer2 fst].
  apply wp_bind. rewrite bool_decide_eq_false_2 by done. apply wp_ret.
  apply wp_bind. eapply wp_Ok; [eapply load_blockmap_spec; [done|]; by eapply set_next_lookup|].
  rewrite bool_decide_eq_true_2 by done. apply wp_bind. unfold store_blockmap.
  eapply wp_mono; [by eapply (update_ondisk_spec no_buffer); [..|done]|].
  intros [] s2 (Hc2 & Hr2 & Hheap & Hset2). apply wp_ret. split_and!; try done.
  by rewrite <- (set_next_twice zone n).
Qed.
End claim.

(** ** The loop *)

(** From next offset [n] the allocator passes [k] big-blocks of other zones and then
    allocates at [r]. *)
Inductive alloc_path (s : state) (freemap : hammer_blockmap) (zone bytes : Z) : Z -> nat -> Z -> Prop :=
  | path_here n :
      n ≠ HAMMER_ZONE_ENCODE (zone + 1) 0 -> site s freemap (skip n bytes) ->
      ready s freemap zone (skip n bytes) -> alloc_path s freemap zone bytes n 0 (skip n bytes)
  | path_skip n k r :
      n ≠ HAMMER_ZONE_ENCODE (zone + 1) 0 -> site s freemap (skip n bytes) ->
      foreign s freemap zone (skip n bytes) ->
      alloc_path s freemap zone bytes (HAMMER_ZONE_LAYER2_NEXT_OFFSET (skip n bytes)) k r ->
      alloc_path s freemap zone bytes n (S k) r.

Section unchanged.
Context (K : positive -> Prop) (d : positive -> Z) (s s' : state) (Hc : client no_block K d s s').
Context (freemap : hammer_blockmap) (n : Z).

Lemma site_client : site s freemap n -> site s' freemap n.
Proof.
  intros (Hrd & Hne & Hf). destruct (readable_client _ _ _ _ _ _ Hc Hrd) as (Hrd' & Hl1 & Ho2 & Hl2).
  split; [done|]. by rewrite Ho2, Hl1.
Qed.

Lemma ready_client zone : readable s freemap n -> ready s freemap zone n -> ready s' freemap zone n.
Proof.
  intros Hrd. destruct (readable_client _ _ _ _ _ _ Hc Hrd) as (Hrd' & Hl1 & Ho2 & Hl2). unfold ready. by rewrite Hl2.
Qed.

Lemma foreign_client zone : readable s freemap n -> foreign s freemap zone n -> foreign s' freemap zone n.
Proof.
  intros Hrd. destruct (readable_client _ _ _ _ _ _ Hc Hrd) as (Hrd' & Hl1 & Ho2 & Hl2). unfold foreign. by rewrite Hl2.
Qed.

Lemma after_client zone bytes bm o :
  readable s freemap n ->
  l1_after s' freemap n = l1_after s freemap n /\
  l2_after s' freemap zone bytes n = l2_after s freemap zone bytes n /\
  header_after s' freemap zone bytes n bm o = header_after s freemap zone bytes n bm o /\
  o2_of s' freemap n = o2_of s freemap n.
Proof.
  intros Hrd. destruct (readable_client _ _ _ _ _ _ Hc Hrd) as (Hrd' & Hl1 & Ho2 & Hl2).
  unfold l1_after, l2_after, header_after, fresh. by rewrite Hl1, Hl2, (cl_version _ _ _ _ _ Hc).
Qed.
End unchanged.

(** What the allocator leaves behind, before the data buffer is taken. *)
Record claimed (s : state) (v : nat) (o : hammer_volume_ondisk) (zone bytes : Z) (bm freemap : hammer_blockmap)
    (r : Z) (p1 p2 : positive) (s' : state) : Prop := {
  cm_client : client (in2 (block_base (layer1_offset freemap r)) (block_base (o2_of s freemap r))) (in2 p1 p2)
                (λ q, one_ref p1 q + one_ref p2 q) s s';
  cm_root : rootv s' v (header_after s freemap zone bytes r bm o);
  cm_settled : settled_but (in2 p1 p2) s';
  cm_ne : p1 ≠ p2;
  cm_shows1 : shows s' p1 (block_base (layer1_offset freemap r));
  cm_shows2 : shows s' p2 (block_base (o2_of s freemap r));
  cm_l1 : view_struct hammer_blockmap_layer1 s' (layer1_offset freemap r) = l1_after s freemap r;
  cm_l2 : view_struct hammer_blockmap_layer2 s' (o2_of s freemap r) = l2_after s freemap zone bytes r;
}.

(** The state of the loop between turns: [nn] is the next offset, [b1] holds a layer 1
    buffer. *)
Record turning (s : state) (v : nat) (o : hammer_volume_ondisk) (zone : Z) (bm freemap : hammer_blockmap)
    (nn : Z) (b1 b2 : option positive) (s' : state) : Prop := {
  tn_client : client no_block no_buffer (λ q, opt_ref b1 q + opt_ref b2 q) s s';
  tn_root : rootv s' v (set_next zone nn bm o);
  tn_settled : settled_but no_buffer s';
  tn_held : held2 s' b1 b2;
  tn_layer1 : forall p, b1 = Some p -> exists m, shows s' p (block_base (layer1_offset freemap m));
}.

Section turn.
Context (s : state) (v : nat) (o : hammer_volume_ondisk) (zone bytes : Z) (bm freemap : hammer_blockmap).
Context (Hwf : wf s) (Hz : 8 <= zone < 15) (Hbytes : 0 < bytes <= HAMMER_BUFSIZE).
Context (Hbm : vol0_blockmap o !! Z.to_nat zone = Some bm).
Context (Hfm : vol0_blockmap o !! Z.to_nat HAMMER_ZONE_FREEMAP_INDEX = Some freemap).

(** The dive of any turn. *)
Lemma turn_dive nn b1 b2 s1 :
  turning s v o zone bm freemap nn b1 b2 s1 ->
  nn ≠ HAMMER_ZONE_ENCODE (zone + 1) 0 -> let n := skip nn bytes in site s freemap n ->
  wp (alloc_dive v zone bytes (b1, b2)) s1 (λ dv s2, exists p1 p2,
    dv = {| dv_next := n; dv_d1 := (p1, layer1_offset freemap n mod HAMMER_BUFSIZE);
            dv_layer1 := l1_of s1 freemap n; dv_d2 := (p2, o2_of s1 freemap n mod HAMMER_BUFSIZE);
            dv_layer2 := l2_of s1 freemap n |} /\
    client no_block no_buffer (λ q, one_ref p1 q + one_ref p2 q - opt_ref b1 q - opt_ref b2 q) s1 s2 /\
    client no_block no_buffer (λ q, one_ref p1 q + one_ref p2 q) s s2 /\
    rootv s2 v (set_next zone n bm o) /\ settled_but no_buffer s2 /\ p1 ≠ p2 /\
    shows s2 p1 (block_base (layer1_offset freemap n)) /\ shows s2 p2 (block_base (o2_of s1 freemap n))).
Proof.
  intros [Hc1 Hr1 Hset1 Hh1 Hb1] Hend n Hsite. pose proof (cl_wf _ _ _ _ _ Hc1) as Hwf1.
  destruct (site_client _ _ _ _ Hc1 _ _ Hsite) as (Hrd1 & Hne1 & Hfree1).
  eapply wp_mono; [apply (alloc_dive_spec s1 v (set_next zone nn bm o) zone bytes b1 b2
    (set_bm_next_offset nn bm) freemap); try done|].
  - lia.
  - by eapply set_next_lookup.
  - rewrite set_next_freemap by lia. done.
  - intros p Hp Hs. destruct (Hb1 p Hp) as [m Hm]. apply (Hne1 m).
    by apply (shows_ident s1 s1 p).
  - cbn beta. intros dv s2 (p1 & p2 & -> & Hc2 & Hr2 & Hset2 & Hpp & Hs1 & Hs2). exists p1, p2.
    rewrite set_next_twice in Hr2. split_and!; [done..| |done|done|done|done|done].
    eapply client_seq; [exact Hc1|exact Hc2|intros q; cbn; lia|].
    intros q Hq _. rewrite (cl_refs _ _ _ _ _ Hc1). pose proof (refs_nonneg s q Hwf).
    destruct (opt_ref_cases b1 q) as [|[_ ?]], (opt_ref_cases b2 q) as [|[_ ?]]; lia.
Qed.
Lemma turn_ready nn b1 b2 s1 :
  turning s v o zone bm freemap nn b1 b2 s1 ->
  nn ≠ HAMMER_ZONE_ENCODE (zone + 1) 0 -> site s freemap (skip nn bytes) -> ready s freemap zone (skip nn bytes) ->
  wp (alloc_again v zone bytes (b1, b2)) s1 (λ r s', exists p1 p2, r = inr (skip nn bytes, p1, p2) /\
    claimed s v o zone bytes bm freemap (skip nn bytes) p1 p2 s').
Proof.
  intros Ht Hend Hsite Hready. unfold alloc_again. apply wp_bind.
  eapply wp_mono; [by apply (turn_dive nn b1 b2 s1)|].
  intros dv s2 (p1 & p2 & -> & Hc12 & Hc2 & Hr2 & Hset2 & Hpp & Hs1 & Hs2). cbn [dv_layer2].
  set (n := skip nn bytes) in *. pose proof Ht as [Hc1 Hr1 Hset1 Hh1 Hb1].
  pose proof (cl_wf _ _ _ _ _ Hc1) as Hwf1. pose proof (cl_wf _ _ _ _ _ Hc2) as Hwf2.
  pose proof Hsite as (Hrd & _).
  destruct (after_client _ _ _ _ Hc1 freemap n zone bytes bm o Hrd) as (Ha1 & Ha2 & Ha3 & Ho2).
  pose proof (ready_client _ _ _ _ Hc1 freemap n zone Hrd Hready) as Hready1.
  rewrite bool_decide_eq_false_2.
  2:{ destruct Hready1 as [_ [->|(-> & _)]]; unfold HAMMER_ZONE_UNAVAIL_INDEX; lia. }
  eapply wp_mono; [eapply (alloc_claim_ready s1 v o zone bytes bm freemap); try done; by eapply site_client|].
  cbn beta. intros r s3 (-> & Hc3 & Hr3 & Hset3 & Hv1 & Hv2). exists p1, p2. split; [done|].
  rewrite Ha3 in Hr3. rewrite Ho2 in *. split; try done.
  - eapply (client_weaken _ _ _ _ (λ q, (one_ref p1 q + one_ref p2 q) + no_refs q)); [done..| |].
    { intros q. unfold no_refs. lia. }
    eapply client_trans; [|exact Hc3|].
    + eapply client_weaken; [| | |exact Hc2]; [by intros ? []|by intros ? []|done].
    + intros q Hq _. rewrite (cl_refs _ _ _ _ _ Hc2). unfold one_ref. repeat case_decide; lia.
  - eapply client_shows; [exact Hwf2|exact Hc3|done|]. rewrite (cl_refs _ _ _ _ _ Hc3).
    pose proof (shows_refs _ _ _ Hs1). unfold no_refs. lia.
  - eapply client_shows; [exact Hwf2|exact Hc3|done|]. rewrite (cl_refs _ _ _ _ _ Hc3).
    pose proof (shows_refs _ _ _ Hs2). unfold no_refs. lia.
  - by rewrite Hv1.
  - by rewrite Hv2.
Qed.

Lemma turn_foreign nn b1 b2 s1 :
  turning s v o zone bm freemap nn b1 b2 s1 ->
  nn ≠ HAMMER_ZONE_ENCODE (zone + 1) 0 -> site s freemap (skip nn bytes) -> foreign s freemap zone (skip nn bytes) ->
  wp (alloc_again v zone bytes (b1, b2)) s1 (λ r s', exists p1 p2, r = inl (Some p1, Some p2) /\
    turning s v o zone bm freemap (HAMMER_ZONE_LAYER2_NEXT_OFFSET (skip nn bytes)) (Some p1) (Some p2) s').
Proof.
  intros Ht Hend Hsite Hfor. unfold alloc_again. apply wp_bind.
  eapply wp_mono; [by apply (turn_dive nn b1 b2 s1)|].
  intros dv s2 (p1 & p2 & -> & Hc12 & Hc2 & Hr2 & Hset2 & Hpp & Hs1 & Hs2). cbn [dv_layer2].
  set (n := skip nn bytes) in *. pose proof Ht as [Hc1 Hr1 Hset1 Hh1 Hb1].
  pose proof (cl_wf _ _ _ _ _ Hc1) as Hwf1. pose proof (cl_wf _ _ _ _ _ Hc2) as Hwf2.
  pose proof Hsite as (Hrd & _).
  pose proof (foreign_client _ _ _ _ Hc1 freemap n zone Hrd Hfor) as Hfor1.
  rewrite bool_decide_eq_false_2 by apply Hfor1.
  eapply wp_mono; [eapply (alloc_claim_foreign s1 v o zone bytes bm freemap); try done|].
  cbn beta. intros r s3 (-> & Hc3 & Hheap & Hr3 & Hset3). exists p1, p2. split; [done|].
  assert (forall p z, shows s2 p z -> shows s3 p z) as Hsh by (intros p z; unfold shows; by rewrite Hheap).
  split; [|done|done| |].
  - eapply client_seq; [exact Hc2|exact Hc3| |].
    + intros q. unfold no_refs. cbn. lia.
    + intros q Hq _. rewrite (cl_refs _ _ _ _ _ Hc2). unfold one_ref. repeat case_decide; lia.
  - split; [done|]. split; eauto.
  - intros p [= <-]. eauto.
Qed.

Lemma turning_start :
  rootv s v o -> settled_but no_buffer s -> turning s v o zone bm freemap (bm_next_offset bm) None None s.
Proof.
  intros Hr Hset. assert (set_next zone (bm_next_offset bm) bm o = o) as He.
  { unfold set_next, set_vol0_blockmap. rewrite list_insert_id; [by destruct o|]. rewrite Hbm. by destruct bm. }
  split; try done.
  - split; try done; [eauto|intros q; unfold opt_ref, no_refs; lia|]. intros q _ _ _. apply kept_refl.
  - by rewrite He.
Qed.

Lemma alloc_loop_spec k r :
  rootv s v o -> settled_but no_buffer s -> alloc_path s freemap zone bytes (bm_next_offset bm) k r ->
  Z.of_nat k < 2 ^ 37 ->
  wp (loop (alloc_again v zone bytes) ALLOC_TURNS (None, None)) s (λ res s', exists p1 p2,
    res = (r, p1, p2) /\ claimed s v o zone bytes bm freemap r p1 p2 s').
Proof.
  intros Hr Hset Hpath Hk.
  eapply (wp_loop (alloc_again v zone bytes) (λ m b s', exists nn, alloc_path s freemap zone bytes nn (m - 1) r /\
    turning s v o zone bm freemap nn (fst b) (snd b) s')) with (m := S k).
  - intros m [b1 b2] s1 (nn & Hp & Ht). cbn [fst snd] in Ht. inversion Hp as [n He Hs Hrdy|n k' r' He Hs Hf Hp']; subst.
    + eapply wp_mono; [by apply (turn_ready nn)|]. cbn beta. intros res s' (p1 & p2 & -> & Hcl). eauto.
    + eapply wp_mono; [by apply (turn_foreign nn)|]. cbn beta. intros res s' (p1 & p2 & -> & Ht').
      exists (m - 1)%nat. split; [lia|]. eexists. cbn [fst snd].
      replace (m - 1 - 1)%nat with k' by lia. done.
  - exists (bm_next_offset bm). cbn [Nat.sub fst snd]. rewrite Nat.sub_0_r. split; [done|].
    by apply turning_start.
  - unfold ALLOC_TURNS. assert (Z.of_nat (S k) <= Z.of_nat (2 ^ 37)) as H; [|lia].
    rewrite Nat2Z.inj_pow. change (Z.of_nat 2 ^ Z.of_nat 37) with (2 ^ 37). lia.
Qed.
End turn.

(** ** The whole allocation *)

(** The zone-2 offset behind an offset of zones 8 to 15. *)
Definition zone2_of (r : Z) : Z := 2 * 2 ^ 60 + r mod 2 ^ 60.

Lemma zone2_of_eqs r :
  in_u 64 r -> in_u 64 (zone2_of r) /\ zone2_of r / 2 ^ 60 = 2 /\ hammer_xlate_to_zone2 r = zone2_of r /\
  (forall fm, layer1_offset fm (zone2_of r) = layer1_offset fm r) /\
  (forall l1, layer2_offset l1 (zone2_of r) = layer2_offset l1 r).
Proof.
  intros Hu. assert (in_u 64 (zone2_of r)) as Hz by (unfold zone2_of; dlia). split; [done|].
  split; [unfold zone2_of; dlia|]. split; [by apply xlate_to_zone2_add|]. split.
  - intros fm. unfold layer1_offset. rewrite !layer1_offset_mul by done. do 4 f_equal. unfold zone2_of. dlia.
  - intros l1. unfold layer2_offset. rewrite !layer2_offset_mul by done. do 4 f_equal. unfold zone2_of. dlia.
Qed.

Lemma l1_after_phys s freemap n : l1_phys_offset (l1_after s freemap n) = l1_phys_offset (l1_of s freemap n).
Proof. unfold l1_after. by destruct (fresh s freemap n). Qed.
Lemma l2_after_zone s freemap zone bytes n : l2_zone (l2_after s freemap zone bytes n) = zone.
Proof. done. Qed.

Lemma header_after_blockmap s freemap zone bytes n bm o :
  vol0_blockmap (header_after s freemap zone bytes n bm o) =
  <[Z.to_nat zone := set_bm_next_offset (u64 (n + bytes)) bm]> (vol0_blockmap o).
Proof. unfold header_after. by destruct (fresh s freemap n). Qed.

Section finish.
Context (s : state) (v : nat) (o : hammer_volume_ondisk) (zone bytes : Z) (bm freemap : hammer_blockmap).
Context (Hwf : wf s) (Hz : 8 <= zone < 15).
Context (Hbm : vol0_blockmap o !! Z.to_nat zone = Some bm) (Halloc : bm_alloc_offset bm / 2 ^ 60 = zone).
Context (Hall : Forall (λ bm, in_u 64 (bm_alloc_offset bm)) (vol0_blockmap o)).
Context (Hfm : vol0_blockmap o !! Z.to_nat HAMMER_ZONE_FREEMAP_INDEX = Some freemap).
Context (r : Z) (Hr : in_u 64 r) (Hrz : r / 2 ^ 60 = zone) (Hsite : site s freemap r).
Context (Hval : valid_block s (block_base (zone2_of r))).
Local Abbreviation o1 := (layer1_offset freemap r).
Local Abbreviation o2 := (o2_of s freemap r).
Local Abbreviation o' := (header_after s freemap zone bytes r bm o).
Context (p1 p2 : positive) (s1 : state) (Hcl : claimed s v o zone bytes bm freemap r p1 p2 s1).

(** The new entry makes the allocated offset translate. *)
Lemma claimed_translates : translates s1 o' r (zone2_of r).
Proof.
  destruct (zone2_of_eqs r Hr) as (Hu & Hz2 & Hx & Hlo1 & Hlo2). destruct Hcl as [Hc _ _ _ _ _ Hl1 Hl2].
  destruct Hsite as ([Hm1 Hph Hm2] & _).
  do 3 (split; [done|]). split; [by apply (cl_valid _ _ _ _ _ Hc)|]. rewrite bool_decide_eq_false_2 by lia.
  assert (resolve o' r = Some (zone2_of r, 0)) as Hres.
  { unfold resolve. rewrite Hrz, bool_decide_eq_false_2, header_after_blockmap, list_lookup_insert_eq by
      (lia || by eapply lookup_lt_Some). cbn [mbind option_bind bm_alloc_offset set_bm_next_offset].
    rewrite Halloc, !bool_decide_eq_true_2, Hx by (done || lia). done. }
  assert (vol0_blockmap o' !! Z.to_nat HAMMER_ZONE_FREEMAP_INDEX = Some freemap) as Hfm'.
  { rewrite header_after_blockmap, list_lookup_insert_ne; [done|]. unfold HAMMER_ZONE_FREEMAP_INDEX. lia. }
  assert (layer2_offset (l1_after s freemap r) r = o2) as Ho2.
  { unfold o2_of, layer2_offset. by rewrite l1_after_phys. }
  pose proof (meta_ok_client _ _ _ _ _ _ _ Hc Hm1) as Hm1'.
  assert (meta_ok hammer_blockmap_layer2 s1 o2) as Hm2' by exact (meta_ok_client _ _ _ _ _ _ _ Hc Hm2).
  split.
  - exists (zone2_of r), 0, freemap. split_and!; [done| |done|].
    + rewrite header_after_blockmap. apply Forall_insert; [done|]. cbn.
      exact (Forall_lookup_1 _ _ _ _ Hall Hbm).
    + intros _. unfold layers_ok. rewrite Hlo1, Hlo2, Hl1, Ho2. by intros _.
  - exists (Build_lookup_result (zone2_of r) 0 (l1_after s freemap r) (l2_after s freemap zone bytes r)).
    split_and!; [|done|done]. unfold lookup_spec. rewrite Hres. cbn [mbind option_bind fst snd].
    rewrite bool_decide_eq_false_2 by (intros Hn; by apply Hn). rewrite Hfm'. cbn [mbind option_bind].
    unfold layers_spec. rewrite Hlo1, Hlo2, Hl1, Ho2, Hl2, l1_after_phys, l2_after_zone.
    destruct Hm1' as (_ & -> & _), Hm2' as (_ & -> & _).
    rewrite !(bool_decide_eq_false_2 (2 <= 1)) by lia. rewrite (bool_decide_eq_false_2 (_ = HAMMER_BLOCKMAP_UNAVAIL)) by done.
    rewrite bool_decide_eq_false_2 by (intros Hn; apply Hn; lia). done.
Qed.
End finish.

(** Flagging a buffer, for the others. *)
Lemma mark_modified_client K s p z2 :
  wf s -> shows s p z2 -> writable s -> settled_but K s ->
  wp (mark_modified p) s (λ _ s', client no_block (λ q, q = p) no_refs s s' /\ geo s' = geo s /\
    settled_but (λ q, K q /\ q ≠ p) s').
Proof.
  intros Hwf Hs Hw Hset. eapply wp_mono; [by eapply mark_modified_spec|]. intros [] s' (Hc & Hg & Hsp).
  split_and!; [done..|]. intros q Hq. destruct (decide (q = p)) as [->|Hne]; [done|].
  assert (settled_but (λ q, K q \/ q = p) s') as Hset'; [|apply Hset'; tauto].
  apply (client_settled no_block _ no_refs s s' Hwf); [|done|eapply settled_but_mono; [|done]; auto].
  eapply client_weaken; [| | |exact Hc]; [done|by right|done].
Qed.

Lemma client_shows0 W K s s' p z2 : wf s -> client W K no_refs s s' -> shows s p z2 -> shows s' p z2.
Proof.
  intros Hwf Hc Hs. eapply client_shows; [done..|]. rewrite (cl_refs _ _ _ _ _ Hc).
  pose proof (shows_refs _ _ _ Hs). unfold no_refs. lia.
Qed.

(** The end of [alloc_blockmap]: flag the three buffers, give the two layers back. *)
Lemma alloc_release {A} (x : A) s p1 p2 p3 z1 z2 z3 :
  wf s -> writable s -> settled_but (in2 p1 p2) s -> p1 ≠ p2 -> p3 ≠ p1 -> p3 ≠ p2 ->
  shows s p1 z1 -> shows s p2 z2 -> shows s p3 z3 ->
  wp (mark_modified p3;; mark_modified p1;; mark_modified p2;;
      rel_buffer (Some p1);; rel_buffer (Some p2);; mret x) s (λ y s', y = x /\
    client no_block (λ q, q = p1 \/ q = p2 \/ q = p3) (λ q, minus_ref p1 q + minus_ref p2 q) s s' /\
    geo s' = geo s /\ settled_but no_buffer s' /\ shows s' p3 z3).
Proof.
  intros Hwf Hw Hset H12 H31 H32 Hs1 Hs2 Hs3. set (K := λ q, q = p1 \/ q = p2 \/ q = p3).
  apply wp_bind. eapply wp_mono; [by eapply mark_modified_client|]. intros [] sa (Hca & Hga & Hseta).
  pose proof (cl_wf _ _ _ _ _ Hca) as Hwfa.
  pose proof (client_shows0 _ _ _ _ _ _ Hwf Hca Hs1) as Hs1a. pose proof (client_shows0 _ _ _ _ _ _ Hwf Hca Hs2) as Hs2a.
  pose proof (client_shows0 _ _ _ _ _ _ Hwf Hca Hs3) as Hs3a.
  apply wp_bind. eapply wp_mono; [eapply mark_modified_client; [done..|by apply (cl_writable _ _ _ _ _ Hca)|done]|].
  intros [] sb (Hcb & Hgb & Hsetb). pose proof (cl_wf _ _ _ _ _ Hcb) as Hwfb.
  pose proof (client_shows0 _ _ _ _ _ _ Hwfa Hcb Hs1a) as Hs1b. pose proof (client_shows0 _ _ _ _ _ _ Hwfa Hcb Hs2a) as Hs2b.
  pose proof (client_shows0 _ _ _ _ _ _ Hwfa Hcb Hs3a) as Hs3b.
  apply wp_bind. eapply wp_mono; [eapply mark_modified_client; [done..| |done]|].
  { by apply (cl_writable _ _ _ _ _ Hcb), (cl_writable _ _ _ _ _ Hca). }
  intros [] sc (Hcc & Hgc & Hsetc). pose proof (cl_wf _ _ _ _ _ Hcc) as Hwfc.
  pose proof (client_shows0 _ _ _ _ _ _ Hwfb Hcc Hs1b) as Hs1c. pose proof (client_shows0 _ _ _ _ _ _ Hwfb Hcc Hs2b) as Hs2c.
  pose proof (client_shows0 _ _ _ _ _ _ Hwfb Hcc Hs3b) as Hs3c.
  assert (settled_but no_buffer sc) as Hset0.
  { eapply settled_but_mono; [|done]. unfold in2. intros q. cbn. tauto. }
  assert (client no_block K no_refs s sc) as Hcs.
  { apply (client_weaken no_block _ K _ (λ q, no_refs q + (no_refs q + no_refs q))); [done..|].
    eapply client_trans; [eapply client_weaken; [| | |exact Hca]; unfold K; auto|eapply client_trans;
      [eapply client_weaken; [| | |exact Hcb]; unfold K; auto|eapply client_weaken; [| | |exact Hcc]; unfold K; auto|]|].
    - intros q Hq _. rewrite (cl_refs _ _ _ _ _ Hcb). unfold no_refs. lia.
    - intros q Hq _. rewrite (cl_refs _ _ _ _ _ Hca). unfold no_refs. lia. }
  apply wp_bind. eapply wp_mono; [eapply (rel_buffer_client no_buffer); [done..|by intros []|by eapply shows_refs]|].
  intros [] sd (Hcd & Hgd & Hsetd). pose proof (cl_wf _ _ _ _ _ Hcd) as Hwfd.
  assert (0 < refs sd p2) as Hr2.
  { rewrite (cl_refs _ _ _ _ _ Hcd). unfold minus_ref. rewrite decide_False by done. pose proof (shows_refs _ _ _ Hs2c). lia. }
  apply wp_bind. eapply wp_mono; [eapply (rel_buffer_client no_buffer); [done..|by intros []|done]|].
  intros [] se (Hce & Hge & Hsete). apply wp_ret.
  assert (client no_block K (λ q, minus_ref p1 q + minus_ref p2 q) s se) as Hcse.
  { apply (client_weaken no_block _ K _ (λ q, no_refs q + (minus_ref p1 q + minus_ref p2 q))); [done..| |].
    { intros q. unfold no_refs. lia. }
    eapply client_trans; [exact Hcs|eapply client_trans|].
    - eapply client_weaken; [| | |exact Hcd]; [done|by intros ? []|done].
    - eapply client_weaken; [| | |exact Hce]; [done|by intros ? []|done].
    - intros q _ Hq. rewrite (cl_refs _ _ _ _ _ Hce) in Hq. unfold minus_ref in Hq. case_decide; lia.
    - intros q Hq _. rewrite (cl_refs _ _ _ _ _ Hcs). unfold no_refs. lia. }
  split_and!; [done|done|congruence|done|]. eapply client_shows; [exact Hwf|exact Hcse|done|].
  rewrite (cl_refs _ _ _ _ _ Hcse). unfold minus_ref. rewrite !decide_False by done. pose proof (shows_refs _ _ _ Hs3). lia.
Qed.

(** The hypotheses on the freemap and the header under which [size] bytes of [zone] can be
    allocated at [r], [k] big-blocks of other zones further on. *)
Record can_alloc (s : state) (v : nat) (o : hammer_volume_ondisk) (zone size : Z) (bm freemap : hammer_blockmap)
    (k : nat) (r : Z) : Prop := {
  ca_root : rootv s v o;
  ca_zone : 8 <= zone < 15;
  ca_size : 0 < size <= HAMMER_BUFSIZE;
  ca_blockmap : vol0_blockmap o !! Z.to_nat zone = Some bm;
  ca_freemap : vol0_blockmap o !! Z.to_nat HAMMER_ZONE_FREEMAP_INDEX = Some freemap;
  ca_offsets : Forall (λ bm, in_u 64 (bm_alloc_offset bm)) (vol0_blockmap o);
  ca_next : in_u 64 (bm_next_offset bm) /\ bm_next_offset bm / 2 ^ 60 = zone;
  ca_alloc : bm_alloc_offset bm / 2 ^ 60 = zone;
  ca_path : alloc_path s freemap zone (HAMMER_DATA_DOALIGN size) (bm_next_offset bm) k r;
  ca_turns : Z.of_nat k < 2 ^ 37;
  ca_result : in_u 64 r /\ r / 2 ^ 60 = zone;
  ca_data : valid_block s (block_base (zone2_of r));
  ca_apart : block_base (zone2_of r) ≠ block_base (layer1_offset freemap r) /\
             block_base (zone2_of r) ≠ block_base (o2_of s freemap r);
}.

Lemma alloc_path_site s freemap zone bytes n k r : alloc_path s freemap zone bytes n k r -> site s freemap r.
Proof. by induction 1. Qed.

Lemma doalign_range size : 0 < size <= HAMMER_BUFSIZE -> 0 < HAMMER_DATA_DOALIGN size <= HAMMER_BUFSIZE.
Proof. rewrite data_doalign_eq. unfold HAMMER_BUFSIZE. intros. dlia. Qed.

Lemma alloc_blockmap_lemma s v o zone size bm freemap k r bufferp :
  wf s -> writable s -> settled_but no_buffer s -> can_alloc s v o zone size bm freemap k r ->
  (forall p0, bufferp = Some p0 -> exists z0, shows s p0 z0 /\ z0 ≠ block_base (layer1_offset freemap r) /\
     z0 ≠ block_base (o2_of s freemap r)) ->
  let bytes := HAMMER_DATA_DOALIGN size in
  wp (alloc_blockmap zone size bufferp) s (λ res s', exists p, res = (r, (p, r mod HAMMER_BUFSIZE)) /\
    shows s' p (block_base (zone2_of r)) /\
    view_struct hammer_blockmap_layer1 s' (layer1_offset freemap r) = l1_after s freemap r /\
    view_struct hammer_blockmap_layer2 s' (o2_of s freemap r) = l2_after s freemap zone bytes r /\
    rootv s' v (header_after s freemap zone bytes r bm o) /\ settled_but no_buffer s' /\ wf s' /\
    (forall q, refs s' q = refs s q + one_ref p q - opt_ref bufferp q) /\
    forall z2, valid_block s z2 -> z2 ≠ block_base (layer1_offset freemap r) ->
      z2 ≠ block_base (o2_of s freemap r) -> view s' z2 = view s z2).
Proof.
  intros Hwf Hw Hset [Hr Hz Hsz Hbm Hfm Hoff [Hnu Hnz] Halloc Hpath Hk [Hru Hrz] Hdata [Hap1 Hap2]] Hbuf bytes.
  pose proof (doalign_range size Hsz) as Hbytes. fold bytes in Hbytes, Hpath.
  pose proof (alloc_path_site _ _ _ _ _ _ _ Hpath) as Hsite. pose proof Hsite as ([Hm1 Hph Hm2] & Hne & _).
  unfold alloc_blockmap. destruct Hr as (vol & Hroot & Hvo).
  apply wp_bind. eapply wp_Ok; [by eapply get_root_volume_eq|]. apply wp_bind, wp_ret.
  assert (rootv s v o) as Hr by (by exists vol).
  apply wp_bind. eapply wp_Ok; [by eapply load_blockmap_spec|].
  apply wp_bind, wp_assertp; [rewrite zone_decode_div by done; by apply bool_decide_eq_true_2|]. fold bytes.
  apply wp_bind, wp_assertp; [by rewrite !bool_decide_eq_true_2 by lia|].
  apply wp_bind, wp_assertp.
  { unfold hammer_is_index_record, HAMMER_ZONE_BTREE_INDEX, HAMMER_MAX_ZONES. by rewrite !bool_decide_eq_true_2 by lia. }
  apply wp_bind. eapply wp_mono; [by eapply (alloc_loop_spec s v o zone bytes bm freemap)|].
  intros res s1 (p1 & p2 & -> & Hcl). cbn beta iota.
  pose proof (claimed_translates s v o zone bytes bm freemap Hz Hbm Halloc Hoff Hfm r Hru Hrz Hsite Hdata p1 p2 s1 Hcl) as Htr.
  destruct Hcl as [Hc1 Hr1 Hset1 Hpp Hs1 Hs2 Hl1 Hl2]. pose proof (cl_wf _ _ _ _ _ Hc1) as Hwf1.
  destruct Hr1 as (vol1 & Hroot1 & Hvo1). rewrite <- Hvo1 in Htr.
  assert (forall p0, bufferp = Some p0 -> ~ in2 p1 p2 p0) as Hb12.
  { intros p0 (z0 & Hs0 & H01 & H02)%Hbuf. pose proof (client_same_ptrs _ _ _ _ _ Hc1) as Hsp.
    intros [->| ->]; [apply H01; by apply (shows_ident s s1 p1)|apply H02; by apply (shows_ident s s1 p2)]. }
  apply wp_bind. eapply wp_mono; [eapply (get_data_spec (in2 p1 p2) s1 v vol1); [done..|right; lia|done| |]|].
  { intros q [->| ->]; (split; [by eapply shows_refs|]).
    - intros Hs. apply Hap1. symmetry. by apply (shows_ident s1 s1 p1).
    - intros Hs. apply Hap2. symmetry. by apply (shows_ident s1 s1 p2). }
  { intros p0 Hp0. split; [by apply Hb12|]. destruct (Hbuf p0 Hp0) as (z0 & Hs0 & _). exists z0.
    eapply client_shows; [exact Hwf|exact Hc1|done|]. rewrite (cl_refs _ _ _ _ _ Hc1).
    pose proof (shows_refs _ _ _ Hs0). unfold one_ref. repeat case_decide; lia. }
  intros d s2 (p & -> & Hc2 & Hg2 & Hs & Hset2 & Hkp). pose proof (cl_wf _ _ _ _ _ Hc2) as Hwf2.
  assert (forall q, refs s q = refs s2 q - one_ref p1 q - one_ref p2 q - one_ref p q + opt_ref bufferp q) as Hrefs2.
  { intros q. rewrite (cl_refs _ _ _ _ _ Hc2), (cl_refs _ _ _ _ _ Hc1). lia. }
  assert (shows s2 p1 (block_base (layer1_offset freemap r)) /\ shows s2 p2 (block_base (o2_of s freemap r))) as [Hs12 Hs22].
  { assert (forall q, in2 p1 p2 q -> opt_ref bufferp q = 0) as Hopt.
    { intros q Hq. destruct (opt_ref_cases bufferp q) as [|[Hb _]]; [done|]. by destruct (Hb12 q Hb). }
    pose proof (shows_refs _ _ _ Hs1) as Hr1. pose proof (shows_refs _ _ _ Hs2) as Hr2.
    split; (eapply client_shows; [exact Hwf1|exact Hc2|done|]); rewrite (cl_refs _ _ _ _ _ Hc2), Hopt by (first [by left | by right]);
      unfold one_ref; case_decide; lia. }
  cbn [fst]. eapply wp_mono; [eapply (alloc_release (r, (p, r mod HAMMER_BUFSIZE)) s2 p1 p2 p); try done|].
  { by apply (cl_writable _ _ _ _ _ Hc2), (cl_writable _ _ _ _ _ Hc1). }
  { intros ->. apply Hkp. by left. }
  { intros ->. apply Hkp. by right. }
  cbn beta. intros y s3 (-> & Hc3 & Hg3 & Hset3 & Hs3). exists p.
  pose proof (cl_wf _ _ _ _ _ Hc3) as Hwf3.
  split_and!; [done|done|..].
  - rewrite (view_struct_client _ _ _ _ _ _ _ Hc3), (view_struct_client _ _ _ _ _ _ _ Hc2); [done|..].
    all: try by intros [].
    all: rewrite ?(cl_valid _ _ _ _ _ Hc2); apply (cl_valid _ _ _ _ _ Hc1), Hm1.
  - rewrite (view_struct_client _ _ _ _ _ _ _ Hc3), (view_struct_client _ _ _ _ _ _ _ Hc2); [done|..].
    all: try by intros [].
    all: rewrite ?(cl_valid _ _ _ _ _ Hc2); apply (cl_valid _ _ _ _ _ Hc1), Hm2.
  - apply (rootv_geo s2 s3); [done|]. apply (rootv_geo s1 s2); [done|]. by exists vol1.
  - done.
  - done.
  - intros q. rewrite (cl_refs _ _ _ _ _ Hc3), Hrefs2. unfold minus_ref, one_ref. repeat case_decide; lia.
  - intros z Hzv H1 H2. rewrite (cl_view _ _ _ _ _ Hc3), (cl_view _ _ _ _ _ Hc2), (cl_view _ _ _ _ _ Hc1); try done.
    all: try by intros [].
    all: rewrite ?(cl_valid _ _ _ _ _ Hc2); by apply (cl_valid _ _ _ _ _ Hc1).
Qed.
