(* ===== verification/Demo.v ===== *)
(** * Demo: a small volume

    A concrete root volume of five big-blocks, as newfs leaves it: big-block 0 holds
    layer 1, big-block 1 layer 2, big-block 2 belongs to zone 8 and is filled up to 4096
    bytes, the others are free.  The theorems about the cache, the look-up and the
    allocator are instantiated with it. *)

From S2P Require Import Prelude HammerDisk Layout HammerCrc CMonad Ondisk CacheInv Buffers Lookup Flush Blockmap.

(** ** The volume *)

Definition demo_blockmap (phys next alloc : Z) : hammer_blockmap :=
  {| bm_phys_offset := phys; bm_first_offset := 0; bm_next_offset := next; bm_alloc_offset := alloc;
     bm_reserved01 := 0; bm_entry_crc := 0 |}.

Definition demo_buf_beg : Z := HAMMER_BUFSIZE.
Definition demo_buf_end : Z := HAMMER_BUFSIZE + 5 * HAMMER_BIGBLOCK_SIZE.

Definition demo_ondisk : hammer_volume_ondisk :=
  {| vol_signature := 0; vol_bot_beg := 0; vol_mem_beg := 0; vol_buf_beg := demo_buf_beg;
     vol_buf_end := demo_buf_end; vol_reserved01 := 0; vol_fsid := replicate 16 0;
     vol_fstype := replicate 16 0; vol_label := replicate 64 0; vol_no := 0; vol_count := 1;
     vol_version := 7; vol_crc := 0; vol_flags := 0; vol_rootvol := 0;
     vol_reserved := replicate 8 0; vol0_stat_bigblocks := 5; vol0_stat_freebigblocks := 2;
     vol0_reserved01 := 0; vol0_stat_inodes := 0; vol0_reserved02 := 0; vol0_btree_root := 0;
     vol0_next_tid := 0; vol0_reserved03 := 0;
     vol0_blockmap :=
       replicate 4 (demo_blockmap 0 0 0) ++
       [demo_blockmap 0x2000000000000000 0 0] ++ replicate 3 (demo_blockmap 0 0 0) ++
       [demo_blockmap 0 0x8000000001001000 0x8FFFFFFFFFFFFFFF;
        demo_blockmap 0 0x9000000001000000 0x9FFFFFFFFFFFFFFF] ++ replicate 6 (demo_blockmap 0 0 0);
     vol0_undo_array := replicate 128 0 |}.

Definition demo_layer2 (zone append_off bytes_free : Z) : hammer_blockmap_layer2 :=
  {| l2_zone := zone; l2_reserved01 := 0; l2_reserved02 := 0; l2_append_off := append_off;
     l2_bytes_free := bytes_free; l2_entry_crc := 0 |}.

(** The bytes of the file that are not 0. *)
Definition demo_file : file :=
  let zero := {| f_size := demo_buf_end; f_growable := false; f_data := λ _, 0 |} in
  let layer1 := {| l1_blocks_free := 2; l1_phys_offset := 0x2000000000800000; l1_reserved01 := 0;
                   l1_layer2_crc := 0; l1_layer1_crc := 0 |} in
  file_write (file_write zero demo_buf_beg (encode layer1))
    (demo_buf_beg + HAMMER_BIGBLOCK_SIZE)
    (enc_array [demo_layer2 4 HAMMER_BIGBLOCK_SIZE 0; demo_layer2 4 HAMMER_BIGBLOCK_SIZE 0;
                demo_layer2 8 4096 (HAMMER_BIGBLOCK_SIZE - 4096);
                demo_layer2 0 0 HAMMER_BIGBLOCK_SIZE; demo_layer2 0 0 HAMMER_BIGBLOCK_SIZE]).

Definition demo_volume : volume_info :=
  {| v_name := 0; v_regfile := false; v_vol_no := 0; v_rdonly := false; v_fd := 3;
     v_size := demo_buf_end; v_device_offset := 0; v_vol_free_off := 0; v_vol_free_end := 0;
     v_ondisk := demo_ondisk; v_ondisk_rest := replicate (Z.to_nat HAMMER_BUFSIZE - sizeof hammer_volume_ondisk) 0;
     v_buffer_lists := replicate 64 [] |}.

(** An empty cache that may hold [max] bytes. *)
Definition demo_state (max : Z) : state :=
  {| VolList := [demo_volume]; heap := ∅; next_ptr := 1; CacheList := []; CacheUse := 0;
     CacheMax := max; UseReadBehind := -1; UseReadAhead := 2; HammerVersion := 7;
     files := {[ 3 := demo_file ]} |}.

(** ** It is sound *)

Lemma demo_file_ok o : in_u 8 (f_data demo_file o).
Proof.
  apply file_write_ok; [|apply file_write_ok; [|done]].
  - eapply (enc_array_ok 5). split; [done|]. repeat constructor; done.
  - apply encode_ok. repeat split; done.
Qed.

Lemma demo_file_size : f_size demo_file = demo_buf_end.
Proof. done. Qed.

Lemma demo_geo max : geo (demo_state max) = [strip demo_volume].
Proof. done. Qed.

Lemma demo_vol_ok max : vol_ok (files (demo_state max)) (strip demo_volume).
Proof.
  split; [done|]. split; [done|]. split; [done|]. split; [done|].
  exists demo_file. split; [apply lookup_insert_eq|]. split; [apply demo_file_ok|].
  rewrite demo_file_size. done.
Qed.

Lemma demo_heap max p : heap (demo_state max) !! p = None.
Proof. apply lookup_empty. Qed.

Lemma demo_wf max : wf (demo_state max).
Proof.
  split.
  - apply NoDup_singleton.
  - apply NoDup_singleton.
  - intros i vol. rewrite demo_geo. intros [_ <-]%list_lookup_singleton_Some. apply demo_vol_ok.
  - intros i vol [_ <-]%list_lookup_singleton_Some. done.
  - intros p b H. by rewrite demo_heap in H.
  - intros i vol h l [_ <-]%list_lookup_singleton_Some Hl.
    apply lookup_replicate in Hl as [-> _]. split; [apply NoDup_nil_2|]. intros p. split.
    + by intros ?%not_elem_of_nil.
    + intros (b & Hb & _). by rewrite demo_heap in Hb.
  - intros p q b c H. by rewrite demo_heap in H.
  - apply NoDup_nil_2.
  - intros p. split; [by intros ?%not_elem_of_nil|]. intros [b Hb]. by rewrite demo_heap in Hb.
  - done.
  - intros p [b Hb]. by rewrite demo_heap in Hb.
Qed.

Lemma demo_root max : root_volume (demo_state max) 0 (strip demo_volume).
Proof. done. Qed.

Lemma demo_header_ok : header_ok demo_volume.
Proof.
  split; [|split].
  - repeat split; try done; try (apply Forall_replicate; done); try (repeat constructor; done).
  - by apply Forall_replicate.
  - done.
Qed.

(** Blocks of the volume: zone-2 offsets below 5 big-blocks. *)
Lemma demo_block max z2 :
  in_u 64 z2 -> z2 / 2 ^ 52 = 512 -> z2 mod HAMMER_BUFSIZE = 0 ->
  z2 mod 2 ^ 52 + HAMMER_BUFSIZE <= 5 * HAMMER_BIGBLOCK_SIZE -> valid_block (demo_state max) z2.
Proof.
  intros Hu Hz Ha Hs. exists 0%nat, (strip demo_volume). split; [done|].
  split; [done|]. rewrite vol_decode_div by done. split; [dlia|]. split; [done|]. split; [cbn; dlia|].
  unfold HAMMER_VOL_BUF_SIZE. cbn [v_ondisk strip set_buffer_lists demo_volume vol_buf_end vol_buf_beg demo_ondisk].
  unfold demo_buf_end, demo_buf_beg. lia.
Qed.
