(* ===== verification/CacheProps.v ===== *)
(** * CacheProps: what the buffer cache and the look-up guarantee

    The properties of cache.c, of the buffer and flush operations of ondisk.c and of
    blockmap_lookup_save of blockmap.c, with instances on the demo volume. *)

From S2P Require Import Prelude HammerDisk Layout HammerCrc CMonad Ondisk CacheInv Buffers Lookup Flush Blockmap AllocSpec Demo.

(** ** Eviction *)

Lemma quiet_held s s' p b :
  quiet s s' -> heap s !! p = Some b -> 0 < b_refs b -> heap s' !! p = Some b.
Proof.
  intros Hq Hp Hr. pose proof (moved_refs _ _ _ _ Hq p) as He. unfold no_refs in He.
  rewrite (refs_lookup s p b Hp) in He. destruct (moved_kept _ _ _ _ Hq p) as [Hk _].
  - by rewrite (refs_lookup s p b Hp).
  - lia.
  - by intros c _ [].
  - destruct (Hk b Hp) as [r Hr']. rewrite Hr'. rewrite (refs_lookup s' p _ Hr') in He.
    cbn in He. f_equal. rewrite He, Z.add_0_r. by destruct b.
Qed.

(** C10: [hammer_cache_flush] always ends, within one turn more than there are buffers,
    and never by a failed write of a sound state.  Afterwards the invariant holds, every
    block of every volume has the content it had, buffers with references are untouched,
    the limit is the same (the code that raises it is never reached), and when the cache
    was full it is now less than half full or only referenced buffers are left. *)
Theorem hammer_cache_flush_correct (s : state) :
  wf s ->
  exists s', hammer_cache_flush s = Ok () s' /\ wf s' /\
    (forall z2, valid_block s z2 -> view s' z2 = view s z2) /\
    (forall p b, heap s !! p = Some b -> 0 < b_refs b -> heap s' !! p = Some b) /\
    CacheMax s' = CacheMax s /\
    (CacheMax s <= CacheUse s ->
     CacheUse s' < CacheMax s' / 2 \/ forall p b, heap s' !! p = Some b -> 0 < b_refs b).
Proof.
  intros Hwf. destruct (wp_inv _ _ _ (hammer_cache_flush_lemma s Hwf)) as ([] & s' & Hrun & Hwf' & Hq & Hmax & Hdone).
  exists s'. split_and!; [done..| | |done|].
  - intros z2 Hz. apply (ext_view _ _ _ (moved_ext _ _ _ _ Hq)); [done|]. by intros [].
  - intros p b. by apply quiet_held.
  - intros [|Hall]%Hdone; [by left|right]. intros p b Hp. rewrite <- (refs_lookup s' p b Hp).
    apply Hall, (wf_dom s' Hwf'). eauto.
Qed.

(** A full cache: five blocks were read, one is still held. *)
Definition demo_read : state :=
  match get_buffer_data 0x2000000000800000 None 0 (demo_state (2 ^ 20)) with
  | Ok _ s => set_cache (CacheList s) (CacheUse s) (2 * HAMMER_BUFSIZE) s
  | Stop _ => demo_state 0
  end.

Lemma demo_read_wf : wf demo_read /\ CacheMax demo_read <= CacheUse demo_read.
Proof.
  split; [|by vm_compute]. unfold demo_read.
  destruct (wp_inv _ _ _ (get_buffer_data_lemma 14 (demo_state (2 ^ 20)) 0 (strip demo_volume)
    0x2000000000800000 None 0x2000000000800000 (demo_wf _) (demo_root _)
    ltac:(do 3 (split; [done|]); split; [by apply demo_block|done]) ltac:(done))) as (a & s & Hrun & p & _ & Hd).
  unfold get_buffer_data. change LOOKUP_DEPTH with (S (S 14)). rewrite Hrun. apply wf_set_cache; [apply Hd|done].
Qed.

Lemma hammer_cache_flush_correct_witness :
  exists s', hammer_cache_flush demo_read = Ok () s' /\
    (CacheUse s' < CacheMax s' / 2 \/ forall p b, heap s' !! p = Some b -> 0 < b_refs b).
Proof.
  destruct demo_read_wf as [Hwf Hfull].
  destruct (hammer_cache_flush_correct demo_read Hwf) as (s' & Hrun & _ & _ & _ & _ & Hdone).
  exists s'. auto.
Defined.

(** ** Reading through the cache *)

(** C2: [get_buffer_data] for an offset of zone 2, 3 or 8 to 15 that translates returns a
    pointer to the right byte of a buffer that is referenced and holds the block as it was
    before the call, whatever was cached, evicted or read ahead; the reference of
    [*bufferp] is exchanged for one of the new buffer, no other count changes, no content
    changes, and the invariant holds. *)
Theorem get_buffer_data_correct (s : state) (i : nat) (vol : volume_info) (off z : Z) (bufferp : option positive) :
  wf s -> root_volume s i vol -> translates s (v_ondisk vol) off z -> bufferp_ok s i off bufferp ->
  exists p b s', get_buffer_data off bufferp 0 s = Ok (Some (p, off mod HAMMER_BUFSIZE)) s' /\ wf s' /\
    heap s' !! p = Some b /\ b_ondisk b = view s (block_base z) /\ 0 < b_refs b /\
    (forall q, refs s' q = refs s q + one_ref p q - opt_ref bufferp q) /\
    forall z2, valid_block s z2 -> view s' z2 = view s z2.
Proof.
  intros Hwf Hroot Htr Hb. pose proof Htr as (_ & _ & _ & Hval & _).
  destruct (wp_inv _ _ _ (get_buffer_data_lemma 14 s i vol off bufferp z Hwf Hroot Htr Hb))
    as (r & s' & Hrun & p & -> & Hwf' & Hm & Hs & _).
  assert (forall z2, valid_block s z2 -> view s' z2 = view s z2) as Hview.
  { intros z2 Hz. apply (ext_view _ _ _ (moved_ext _ _ _ _ Hm)); [done|]. by intros []. }
  destruct (shows_view _ _ _ Hwf' Hs) as (b & Hb' & Hd). exists p, b, s'. split_and!; try done.
  - by rewrite Hd, Hview.
  - rewrite <- (refs_lookup s' p b Hb'). by eapply shows_refs.
  - intros q. rewrite (moved_refs _ _ _ _ Hm). lia.
Qed.

(** The big-block of the zone-8 offset is found through layers 1 and 2 of the demo
    volume. *)
Lemma demo_layer1_ok : meta_ok hammer_blockmap_layer1 (demo_state (2 ^ 20)) 0x2000000000000000.
Proof. split; [done|]. split; [done|]. split; [by apply demo_block|done]. Qed.

Lemma demo_layer2_ok k : 0 <= k < 5 -> meta_ok hammer_blockmap_layer2 (demo_state (2 ^ 20)) (0x2000000000800000 + 16 * k).
Proof.
  intros Hk. assert (in_u 64 (0x2000000000800000 + 16 * k)) as Hu by (unfold in_u; lia).
  assert ((0x2000000000800000 + 16 * k) mod HAMMER_BUFSIZE = 16 * k) as Hm by (unfold HAMMER_BUFSIZE; dlia).
  split; [done|]. split; [dlia|]. split; [|rewrite Hm; change (sizeof hammer_blockmap_layer2) with 16%nat; unfold HAMMER_BUFSIZE; lia].
  rewrite block_base_eq, Hm by done. apply demo_block; unfold HAMMER_BUFSIZE, HAMMER_BIGBLOCK_SIZE in *; dlia.
Qed.

Lemma demo_lookup_ok : lookup_ok (demo_state (2 ^ 20)) demo_ondisk 0x8000000001000000.
Proof.
  exists 0x2000000001000000, 0, (demo_blockmap 0x2000000000000000 0 0).
  split; [by vm_compute|]. split; [repeat constructor; done|]. split; [done|].
  intros _ _. split; [exact demo_layer1_ok|]. intros _ _.
  assert (layer2_offset (view_struct hammer_blockmap_layer1 (demo_state (2 ^ 20))
    (layer1_offset (demo_blockmap 0x2000000000000000 0 0) 0x2000000001000000)) 0x2000000001000000
    = 0x2000000000800000 + 16 * 2) as -> by by vm_compute.
  by apply demo_layer2_ok.
Qed.

Lemma demo_translates : translates (demo_state (2 ^ 20)) demo_ondisk 0x8000000001000000 0x2000000001000000.
Proof.
  do 3 (split; [done|]). split; [by apply demo_block|].
  rewrite bool_decide_eq_false_2 by done. split; [exact demo_lookup_ok|].
  destruct (lookup_spec (demo_state (2 ^ 20)) demo_ondisk 0x8000000001000000) as [res|] eqn:E; [|by vm_compute in E].
  exists res. split; [done|]. vm_compute in E. by injection E as <-.
Qed.

Lemma get_buffer_data_correct_witness :
  exists p b s', get_buffer_data 0x8000000001000000 None 0 (demo_state (2 ^ 20)) = Ok (Some (p, 0)) s' /\
    heap s' !! p = Some b /\ b_ondisk b = view (demo_state (2 ^ 20)) 0x2000000001000000.
Proof.
  destruct (get_buffer_data_correct (demo_state (2 ^ 20)) 0 (strip demo_volume) 0x8000000001000000
    0x2000000001000000 None (demo_wf _) (demo_root _) demo_translates ltac:(done))
    as (p & b & s' & Hrun & _ & Hb & Hd & _).
  exists p, b, s'. split; [exact Hrun|]. split; [exact Hb|]. exact Hd.
Defined.

(** ** Translation *)

(** C9: [blockmap_lookup_save] refines its pure specification: for every offset whose
    freemap entries can be read, it returns the offset, the error code (-1, -3, -4, -5,
    -6, -7, -8 or 0) and the saved layer entries that [lookup_spec] computes from the
    header and the blocks, gives back every buffer it took on every path, and changes
    nothing a holder of references can see. *)
Theorem blockmap_lookup_save_correct (s : state) (i : nat) (vol : volume_info) (off : Z) :
  wf s -> root_volume s i vol -> in_u 64 off -> lookup_ok s (v_ondisk vol) off ->
  exists res s', blockmap_lookup_save get_buffer_data off s = Ok res s' /\
    lookup_spec s (v_ondisk vol) off = Some res /\ wf s' /\ (forall q, refs s' q = refs s q) /\
    (forall p b, heap s !! p = Some b -> 0 < b_refs b -> heap s' !! p = Some b) /\
    forall z2, valid_block s z2 -> view s' z2 = view s z2.
Proof.
  intros Hwf Hroot Ho Hok.
  destruct (wp_inv _ _ _ (blockmap_lookup_save_spec 15 s i vol off Hwf Hroot Ho Hok))
    as (res & s' & Hrun & Hspec & Hwf' & Hq).
  exists res, s'. split_and!; [done..| | |].
  - intros q. rewrite (moved_refs _ _ _ _ Hq). unfold no_refs. lia.
  - intros p b. by apply quiet_held.
  - intros z2 Hz. apply (ext_view _ _ _ (moved_ext _ _ _ _ Hq)); [done|]. by intros [].
Qed.

Lemma blockmap_lookup_save_correct_witness :
  exists res s', blockmap_lookup_save get_buffer_data 0x8000000001000000 (demo_state (2 ^ 20)) = Ok res s' /\
    lr_error res = 0 /\ lr_offset res = 0x2000000001000000.
Proof.
  destruct (blockmap_lookup_save_correct (demo_state (2 ^ 20)) 0 (strip demo_volume) 0x8000000001000000
    (demo_wf _) (demo_root _) ltac:(done) demo_lookup_ok) as (res & s' & Hrun & Hspec & _).
  exists res, s'. split; [exact Hrun|]. clear Hrun. vm_compute in Hspec. injection Hspec as <-.
  split; reflexivity.
Defined.

(** ** Flushing *)

(** C11: after [flush_all_volumes] every writable file holds exactly what the cache
    showed: each block of the volume, and in its first 16 KB the in-memory header, which
    reads back as the same structure; the flush itself cannot fail on a sound state and
    changes no content. *)
Theorem flush_all_volumes_correct (s : state) :
  wf s -> (forall v vol, VolList s !! v = Some vol -> header_ok vol) ->
  exists s', flush_all_volumes s = Ok () s' /\ wf s' /\
    (forall z2, valid_block s z2 -> view s' z2 = view s z2) /\
    forall v vol, VolList s !! v = Some vol -> v_rdonly vol = false ->
      decode (file_header (files s') vol) = v_ondisk vol /\
      forall z2, on_volume (strip vol) z2 -> file_block (files s') vol z2 = view s z2.
Proof.
  intros Hwf Hh. destruct (wp_inv _ _ _ (flush_all_volumes_lemma s Hwf Hh)) as ([] & s' & Hrun & Hf & Hsave & Hhead).
  pose proof (fl_wf _ _ Hf) as Hwf'.
  assert (forall z2, valid_block s z2 -> view s' z2 = view s z2) as Hview.
  { intros z2 Hz. apply (ext_view _ _ _ (fl_ext _ _ Hf)); [done|]. by intros []. }
  exists s'. split_and!; [done..|]. intros v vol Hv Hro.
  assert (VolList s' !! v = Some vol) as Hv' by by rewrite (fl_vols _ _ Hf).
  assert (geo s' !! v = Some (strip vol)) as Hg' by by rewrite geo_lookup, Hv'. split.
  - rewrite (Hhead v vol) by done. apply decode_encode_app. by apply (Hh v).
  - intros z2 Ho. pose proof Ho as (_ & _ & _ & Hd & _).
    rewrite <- Hview by (exists v, (strip vol); by rewrite geo_lookup, Hv).
    destruct (view_cases s' v (strip vol) z2 Hwf' Hg' Hd) as [(p & b & Hp & Hz & ->)|[_ ->]]; [|done].
    rewrite <- Hz. destruct (buf_volume s' p b Hwf' Hp) as (vol0 & _ & Hv0 & Hg0 & _ & (_ & _ & _ & Hd0 & _) & _).
    assert (b_volume b = v) as Hbv.
    { eapply (nodup_fmap_inj v_vol_no (geo s')); [by apply wf_volno|done..|]. rewrite <- Hd0, Hz, Hd. done. }
    apply (Hsave p b vol); [done| |done]. by rewrite Hbv.
Qed.

(** A block of the held buffer is changed in memory before the flush. *)
Definition demo_dirty : state :=
  match get_buffer_data 0x2000000001000000 None 0 (demo_state (2 ^ 20)) with
  | Ok (Some (p, _)) s =>
      set_heap (alter (λ b, set_modified true (set_data (1 :: tail (b_ondisk b)) b)) p) s
  | _ => demo_state 0
  end.

Lemma alter_update s p b f :
  heap s !! p = Some b -> set_heap (alter f p) s = set_heap <[p := f b]> s.
Proof.
  intros Hp. unfold set_heap. f_equal. apply map_eq. intros q. destruct (decide (q = p)) as [->|Hne].
  - by rewrite lookup_alter_eq, Hp, lookup_insert_eq.
  - by rewrite lookup_alter_ne, lookup_insert_ne.
Qed.

Lemma demo_dirty_ok : wf demo_dirty /\ geo demo_dirty = [strip demo_volume].
Proof.
  unfold demo_dirty, get_buffer_data. change LOOKUP_DEPTH with (S (S 14)).
  destruct (wp_inv _ _ _ (get_buffer_data_lemma 14 (demo_state (2 ^ 20)) 0 (strip demo_volume)
    0x2000000001000000 None 0x2000000001000000 (demo_wf _) (demo_root _)
    ltac:(do 3 (split; [done|]); split; [by apply demo_block|done]) ltac:(done)))
    as (a & s & Hrun & p & -> & Hwf & Hm & (b & Hb & _ & Hr) & _).
  rewrite Hrun. clear Hrun. rewrite (alter_update _ _ b) by done.
  pose proof (ext_geo _ _ _ (moved_ext _ _ _ _ Hm)) as Hg. split; [|exact Hg].
  apply (wf_update s Hwf p b); [done..|].
  destruct (wf_buf s Hwf p b Hb) as (Hr0 & Hd & Hl & Hok & vol & Hgv & Ho & Hraw & Hmod & _).
  destruct (b_ondisk b) as [|x data] eqn:Hdata; [done|]. apply Forall_cons in Hok as [_ Hok].
  split; [done|]. split; [done|]. split; [done|]. split; [by constructor|]. exists vol. do 3 (split; [done|]).
  split; [|done]. intros _. rewrite Hg in Hgv. by apply list_lookup_singleton_Some in Hgv as [_ <-].
Qed.

Lemma demo_dirty_header v vol : VolList demo_dirty !! v = Some vol -> header_ok vol.
Proof.
  intros Hv. assert (geo demo_dirty !! v = Some (strip vol)) as Hg by by rewrite geo_lookup, Hv.
  destruct demo_dirty_ok as [_ Hgeo]. rewrite Hgeo in Hg. apply list_lookup_singleton_Some in Hg as [_ Hs].
  change (header_ok (strip vol)). rewrite <- Hs. exact demo_header_ok.
Qed.

Lemma flush_all_volumes_correct_witness :
  exists s', flush_all_volumes demo_dirty = Ok () s' /\ wf s'.
Proof.
  destruct (flush_all_volumes_correct demo_dirty (proj1 demo_dirty_ok) demo_dirty_header) as (s' & Hrun & Hwf & _).
  exists s'. split; [exact Hrun|exact Hwf].
Defined.

(** ** A damaged header *)

(** C32: when the freemap's [phys_offset] in the volume header is damaged so that it names
    a zone whose blockmap looks sound, the translation of any offset of zones 8 to 15
    calls itself for ever: whatever depth of recursion is allowed, [get_buffer_data] does
    not return (the C code overflows its stack instead of reporting an error). *)
Theorem get_buffer_data_diverges (fuel : nat) (s : state) (i : nat) (vol : volume_info) (off : Z) (bm freemap fm : hammer_blockmap) :
  wf s -> root_volume s i vol -> in_u 64 off -> 8 <= off / 2 ^ 60 ->
  vol0_blockmap (v_ondisk vol) !! Z.to_nat (off / 2 ^ 60) = Some bm ->
  in_u 64 (bm_alloc_offset bm) -> bm_alloc_offset bm / 2 ^ 60 = off / 2 ^ 60 ->
  vol0_blockmap (v_ondisk vol) !! Z.to_nat HAMMER_ZONE_FREEMAP_INDEX = Some freemap ->
  in_u 64 (bm_phys_offset freemap) -> 8 <= bm_phys_offset freemap / 2 ^ 60 ->
  bm_phys_offset freemap mod 2 ^ 60 + HAMMER_BIGBLOCK_SIZE <= 2 ^ 60 ->
  vol0_blockmap (v_ondisk vol) !! Z.to_nat (bm_phys_offset freemap / 2 ^ 60) = Some fm ->
  in_u 64 (bm_alloc_offset fm) -> bm_alloc_offset fm / 2 ^ 60 = bm_phys_offset freemap / 2 ^ 60 ->
  get_buffer_data_n fuel off None 0 s = Stop OutOfFuel.
Proof.
  intros Hwf Hroot Ho Hz Hbm Ha Haz Hfm Hp Hpz Hroom Hfmz Hfa Hfz. revert off bm Ho Hz Hbm Ha Haz.
  induction fuel as [|fuel IH]; intros off bm Ho Hz Hbm Ha Haz; [done|].
  pose proof (get_root_volume_eq s i vol Hwf Hroot) as Hget. destruct Hroot as [Hi Hn].
  destruct (geo_volume _ _ _ Hi) as (vol' & Hvol & Hst).
  assert (v_ondisk vol' = v_ondisk vol) as Hod by (subst; done).
  cbn [get_buffer_data_n]. unfold get_buffer_data_body.
  rewrite (bind_Ok _ _ _ None s) by done. unfold get_buffer, __blockmap_xlate_to_zone2, blockmap_lookup.
  assert (hammer_is_zone_raw_buffer off = false) as ->.
  { apply not_true_is_false. rewrite is_raw_buffer_div by done. lia. }
  unfold blockmap_lookup_save. rewrite zone_decode_div by done.
  rewrite (bool_decide_eq_false_2 (_ <= HAMMER_ZONE_RAW_VOLUME_INDEX)) by (unfold HAMMER_ZONE_RAW_VOLUME_INDEX; lia).
  rewrite (bool_decide_eq_false_2 (HAMMER_MAX_ZONES <= _)) by (unfold HAMMER_MAX_ZONES; dlia).
  assert (hammer_is_index_record (off / 2 ^ 60) = true) as Hrec.
  { unfold hammer_is_index_record, HAMMER_ZONE_BTREE_INDEX, HAMMER_MAX_ZONES. rewrite !bool_decide_eq_true_2 by dlia. done. }
  do 4 apply bind_Stop. rewrite (bind_Ok _ _ _ _ _ Hget), (bind_Ok _ _ _ i s) by done.
  rewrite (bind_Ok _ _ _ vol' s) by by apply load_volume_ptr_eq. rewrite Hod, Hbm, (bind_Ok _ _ _ bm s), Hrec by done.
  rewrite zone_decode_div, (bool_decide_eq_false_2 (_ ≠ _)) by (done || (intros Hne; by apply Hne)).
  unfold lookup_layers. rewrite Hfm, (bind_Ok _ _ _ freemap s) by done. apply bind_Stop.
  set (r := hammer_xlate_to_zone2 off).
  assert (0 <= HAMMER_BLOCKMAP_LAYER1_OFFSET r < HAMMER_BIGBLOCK_SIZE) as Hl1.
  { assert (in_u 64 r) as Hr by (unfold r; rewrite xlate_to_zone2_add by done; dlia).
    rewrite layer1_offset_mul by done. unfold HAMMER_BIGBLOCK_SIZE. dlia. }
  assert (u64 (bm_phys_offset freemap + HAMMER_BLOCKMAP_LAYER1_OFFSET r) =
          bm_phys_offset freemap + HAMMER_BLOCKMAP_LAYER1_OFFSET r) as ->.
  { apply uwrap_small. unfold HAMMER_BIGBLOCK_SIZE in *. dlia. }
  assert ((bm_phys_offset freemap + HAMMER_BLOCKMAP_LAYER1_OFFSET r) / 2 ^ 60 = bm_phys_offset freemap / 2 ^ 60) as Hsame.
  { unfold HAMMER_BIGBLOCK_SIZE in *. dlia. }
  apply (IH _ fm); rewrite ?Hsame; try done. unfold HAMMER_BIGBLOCK_SIZE in *. dlia.
Qed.

(** The demo volume with the freemap in zone 8. *)
Definition demo_damaged : state :=
  with_ondisk 0 demo_volume
    (set_vol0_blockmap (<[4%nat := demo_blockmap 0x8000000000000000 0 0]> (vol0_blockmap demo_ondisk)) demo_ondisk)
    (demo_state (2 ^ 20)).

Lemma get_buffer_data_diverges_witness :
  get_buffer_data_n 1000 0x8000000001000000 None 0 demo_damaged = Stop OutOfFuel.
Proof.
  apply (get_buffer_data_diverges 1000 demo_damaged 0
    (strip (set_v_ondisk (set_vol0_blockmap (<[4%nat := demo_blockmap 0x8000000000000000 0 0]>
      (vol0_blockmap demo_ondisk)) demo_ondisk) demo_volume)) 0x8000000001000000
    (demo_blockmap 0 0x8000000001001000 0x8FFFFFFFFFFFFFFF) (demo_blockmap 0x8000000000000000 0 0)
    (demo_blockmap 0 0x8000000001001000 0x8FFFFFFFFFFFFFFF)).
  1: by apply wf_with_ondisk; [apply demo_wf|..].
  all: done.
Defined.
