(* ===== verification/AllocProps.v ===== *)
(** * AllocProps: what the allocator guarantees

    The properties of [alloc_blockmap] of blockmap.c, with instances on the demo
    volume. *)

From S2P Require Import Prelude HammerDisk Layout HammerCrc CMonad Ondisk CacheInv Buffers Lookup Flush Blockmap AllocSpec Demo CacheProps.

(** ** Allocation *)

Lemma append_off_mod x : s32 x .& HAMMER_BIGBLOCK_MASK = x mod HAMMER_BIGBLOCK_SIZE.
Proof.
  change HAMMER_BIGBLOCK_MASK with (Z.ones 23). rewrite land_ones_mod by done. unfold swrap, HAMMER_BIGBLOCK_SIZE. dlia.
Qed.

Lemma crc_field_sealed_layer2 v l : valid l -> hammer_crc_test_layer2 v 0 (sealed v l) = Some true.
Proof. intros Hl. by destruct (crc_set_sealed v 0 l Hl) as (_ & _ & Ht). Qed.

(** C1: [alloc_blockmap], called where the freemap allows it, passes the big-blocks of
    other zones, allocates at the first offset [r] of a big-block that is free or its
    own, and returns a pointer to it in a referenced buffer.  The next allocation starts
    right behind (so allocations never overlap), the layer 2 entry belongs to the zone,
    counts the bytes, ends where the allocation ends and has a valid CRC, a newly entered
    big-block leaves the free counts of layer 1 and of the header, every other block of
    the filesystem keeps its content, and all buffers taken on the way are given back
    flagged for write-out. *)
Theorem alloc_blockmap_correct (s : state) (v : nat) (o : hammer_volume_ondisk) (zone size : Z)
    (bm freemap : hammer_blockmap) (k : nat) (r : Z) (bufferp : option positive) :
  wf s -> writable s -> settled_but no_buffer s -> can_alloc s v o zone size bm freemap k r ->
  (forall p0, bufferp = Some p0 -> exists z0, shows s p0 z0 /\ z0 ≠ block_base (layer1_offset freemap r) /\
     z0 ≠ block_base (o2_of s freemap r)) ->
  let bytes := (size + 15) / 16 * 16 in
  exists p s', alloc_blockmap zone size bufferp s = Ok (r, (p, r mod HAMMER_BUFSIZE)) s' /\
    wf s' /\ shows s' p (block_base (zone2_of r)) /\
    rootv s' v (header_after s freemap zone bytes r bm o) /\
    (let l2 := l2_of s freemap r in
     let l2' := view_struct hammer_blockmap_layer2 s' (o2_of s freemap r) in
     hammer_crc_test_layer2 (HammerVersion s) 0 l2' = Some true /\ l2_zone l2' = zone /\
     l2_append_off l2' = (r + bytes) mod HAMMER_BIGBLOCK_SIZE /\
     l2_bytes_free l2' = s32 (l2_bytes_free l2 - bytes)) /\
    view_struct hammer_blockmap_layer1 s' (layer1_offset freemap r) = l1_after s freemap r /\
    (forall z2, valid_block s z2 -> z2 ≠ block_base (layer1_offset freemap r) ->
       z2 ≠ block_base (o2_of s freemap r) -> view s' z2 = view s z2) /\
    (forall q, refs s' q = refs s q + one_ref p q - opt_ref bufferp q) /\ settled_but no_buffer s'.
Proof.
  intros Hwf Hw Hset Hca Hb bytes.
  assert (bytes = HAMMER_DATA_DOALIGN size) as Hbytes by by rewrite data_doalign_eq.
  destruct (wp_inv _ _ _ (alloc_blockmap_lemma s v o zone size bm freemap k r bufferp Hwf Hw Hset Hca Hb))
    as (res & s' & Hrun & p & -> & Hs & Hl1 & Hl2 & Hr & Hset' & Hwf' & Hrefs & Hview).
  rewrite <- Hbytes in *. exists p, s'. split_and!; try done. rewrite Hl2. split_and!; try done.
  - apply crc_field_sealed_layer2, valid_claim; [|apply in_u_land_r; done|by apply in_s_swrap].
    pose proof (alloc_path_site _ _ _ _ _ _ _ (ca_path _ _ _ _ _ _ _ _ _ Hca)) as (Hrd & _).
    apply valid_set_zone; [by apply valid_l2_of|]. pose proof (ca_zone _ _ _ _ _ _ _ _ _ Hca). unfold in_u. lia.
  - unfold l2_after, sealed. cbn [l2_append_off set_crc_field layer2_checksummed set_l2_entry_crc set_l2_append_off].
    rewrite append_off_mod. unfold uwrap, HAMMER_BIGBLOCK_SIZE. dlia.
Qed.

(** The demo volume: zone 9 passes big-block 2, which is zone 8's, and enters big-block 3. *)
Local Abbreviation d0 := (demo_state (2 ^ 20)).
Local Abbreviation demo_fm := (demo_blockmap 0x2000000000000000 0 0).

Lemma layer1_offset_range m : 0x2000000000000000 <= layer1_offset demo_fm m < 0x2000000000800000.
Proof.
  unfold layer1_offset, HAMMER_BLOCKMAP_LAYER1_OFFSET, HAMMER_BLOCKMAP_LAYER1_INDEX. cbn [bm_phys_offset demo_blockmap].
  change HAMMER_BLOCKMAP_LAYER1_MASK with (Z.ones 60). rewrite land_ones_mod by done.
  change HAMMER_BLOCKMAP_LAYER2 with (2 ^ 42). set (x := m mod 2 ^ 60 / 2 ^ 42).
  assert (0 <= x < 2 ^ 18) as Hx by (unfold x; dlia).
  rewrite swrap_small by (unfold in_s; lia). unfold sizeof_layer1.
  rewrite (uwrap_small 64 x), (uwrap_small 64 (x * 32)), uwrap_small by (unfold in_u; lia). lia.
Qed.

Lemma demo_site n k :
  0 <= k < 5 -> layer1_offset demo_fm n = 0x2000000000000000 -> o2_of d0 demo_fm n = 0x2000000000800000 + 16 * k ->
  l1_blocks_free (l1_of d0 demo_fm n) = 2 -> l1_phys_offset (l1_of d0 demo_fm n) = 0x2000000000800000 ->
  site d0 demo_fm n.
Proof.
  intros Hk Ho1 Ho2 Hbf Hph. split; [split|split].
  - rewrite Ho1. exact demo_layer1_ok.
  - change (view_struct hammer_blockmap_layer1 d0 (layer1_offset demo_fm n)) with (l1_of d0 demo_fm n). by rewrite Hph.
  - change (layer2_offset (view_struct hammer_blockmap_layer1 d0 (layer1_offset demo_fm n)) n) with (o2_of d0 demo_fm n).
    rewrite Ho2. by apply demo_layer2_ok.
  - intros m. rewrite Ho2. pose proof (layer1_offset_range m) as Hm. rewrite !block_base_eq by (unfold in_u; lia).
    unfold HAMMER_BUFSIZE. dlia.
  - rewrite Hbf. by intros [_ ?].
Qed.

Lemma demo_can_alloc :
  can_alloc d0 0 demo_ondisk 9 100 (demo_blockmap 0 0x9000000001000000 0x9FFFFFFFFFFFFFFF) demo_fm 1 0x9000000001800000.
Proof.
  assert (alloc_path d0 demo_fm 9 (HAMMER_DATA_DOALIGN 100) 0x9000000001000000 1 0x9000000001800000) as Hpath.
  { apply (path_skip _ _ _ _ 0x9000000001000000 0 0x9000000001800000); [done| | |].
    - change (skip 0x9000000001000000 (HAMMER_DATA_DOALIGN 100)) with 0x9000000001000000.
      apply (demo_site _ 2); [lia|by vm_compute..].
    - split_and!; by vm_compute.
    - apply (path_here d0 demo_fm 9 (HAMMER_DATA_DOALIGN 100) 0x9000000001800000); [done| |].
      + change (skip 0x9000000001800000 (HAMMER_DATA_DOALIGN 100)) with 0x9000000001800000.
        apply (demo_site _ 3); [lia|by vm_compute..].
      + split; [by vm_compute|]. right. split_and!; by vm_compute. }
  split; [exists (strip demo_volume); split; [exact (demo_root _)|done]|lia|unfold HAMMER_BUFSIZE; lia|done|done
         |repeat constructor; done|split; done|done|exact Hpath|done|split; done|by apply demo_block|split; by vm_compute].
Qed.

Lemma demo_quiescent : writable d0 /\ settled_but no_buffer d0.
Proof.
  split; [intros i vol Hi; by apply list_lookup_singleton_Some in Hi as [_ <-]|].
  intros p _ b vol Hb. by rewrite demo_heap in Hb.
Qed.

Lemma alloc_blockmap_correct_witness :
  exists p s', alloc_blockmap 9 100 None d0 = Ok (0x9000000001800000, (p, 0x9000000001800000 mod HAMMER_BUFSIZE)) s' /\ wf s'.
Proof.
  destruct (alloc_blockmap_correct d0 0 demo_ondisk 9 100 (demo_blockmap 0 0x9000000001000000 0x9FFFFFFFFFFFFFFF)
    demo_fm 1 0x9000000001800000 None (demo_wf _) (proj1 demo_quiescent) (proj2 demo_quiescent) demo_can_alloc
    ltac:(intros ? [=])) as (p & s' & Hrun & Hwf & _).
  exists p, s'. split; [exact Hrun|exact Hwf].
Defined.

(** ** Crossing a buffer *)

Lemma skip_crossing n bytes :
  in_u 64 n -> 0 < bytes <= HAMMER_BUFSIZE -> HAMMER_BUFSIZE < n mod HAMMER_BUFSIZE + bytes ->
  n mod HAMMER_BIGBLOCK_SIZE + bytes <= HAMMER_BIGBLOCK_SIZE -> n + bytes <= 2 ^ 64 ->
  skip n bytes .& HAMMER_BIGBLOCK_MASK ≠ n mod HAMMER_BIGBLOCK_SIZE.
Proof.
  intros Hn Hb Hcross Hin Hov. unfold skip. rewrite uwrap_small by (unfold in_u in *; lia).
  fold (block_base (n + bytes - 1)).
  rewrite bool_decide_eq_true_2.
  - change HAMMER_BIGBLOCK_MASK with (Z.ones 23). rewrite land_ones_mod by done.
    rewrite block_base_eq by (unfold in_u in *; lia). unfold HAMMER_BUFSIZE, HAMMER_BIGBLOCK_SIZE in *. dlia.
  - rewrite xor_blocks, !block_base_eq by (unfold in_u in *; lia). unfold HAMMER_BUFSIZE in *. dlia.
Qed.

(** C33: the comment in [alloc_blockmap] says that an allocation which would cross a
    buffer boundary skips to the next buffer.  Inside a big-block of its own that is
    filled up to the next offset, the skip is followed by an assertion that the big-block
    is filled up to the offset after the skip, so every such allocation aborts. *)
Theorem alloc_blockmap_crossing_aborts (s : state) (v : nat) (o : hammer_volume_ondisk) (zone size : Z)
    (bm freemap : hammer_blockmap) (bufferp : option positive) :
  wf s -> settled_but no_buffer s -> rootv s v o -> 8 <= zone < 15 -> 0 < size <= HAMMER_BUFSIZE ->
  vol0_blockmap o !! Z.to_nat zone = Some bm ->
  vol0_blockmap o !! Z.to_nat HAMMER_ZONE_FREEMAP_INDEX = Some freemap ->
  let n := bm_next_offset bm in
  let bytes := HAMMER_DATA_DOALIGN size in
  in_u 64 n -> n / 2 ^ 60 = zone -> n + bytes <= 2 ^ 64 -> n ≠ HAMMER_ZONE_ENCODE (zone + 1) 0 ->
  HAMMER_BUFSIZE < n mod HAMMER_BUFSIZE + bytes ->
  n mod HAMMER_BIGBLOCK_SIZE + bytes <= HAMMER_BIGBLOCK_SIZE ->
  site s freemap (skip n bytes) ->
  l2_zone (l2_of s freemap (skip n bytes)) = zone ->
  l2_append_off (l2_of s freemap (skip n bytes)) = n mod HAMMER_BIGBLOCK_SIZE ->
  alloc_blockmap zone size bufferp s = Stop AssertFail.
Proof.
  intros Hwf Hset Hr Hz Hsz Hbm Hfm n bytes Hn Hnz Hov Hend Hcross Hin Hsite Hown Happ.
  pose proof (doalign_range size Hsz) as Hbytes. fold bytes in Hbytes.
  pose proof Hr as (vol & Hroot & Hvo).
  destruct (wp_inv _ _ _ (turn_dive s v o zone bytes bm freemap Hwf Hz Hbm Hfm n None None s
    (turning_start s v o zone bm freemap Hwf Hbm Hfm Hr Hset) Hend Hsite))
    as (dv & s2 & Hdive & p1 & p2 & -> & _ & _ & Hr2 & _).
  assert (alloc_again v zone bytes (None, None) s = Stop AssertFail) as Hturn.
  { unfold alloc_again. rewrite (bind_Ok _ _ _ _ _ Hdive). cbn [dv_layer2]. rewrite Hown.
    rewrite bool_decide_eq_false_2 by (unfold HAMMER_ZONE_UNAVAIL_INDEX; lia).
    unfold alloc_claim, alloc_enter. cbn [dv_next dv_layer2 dv_d1 dv_d2 fst]. rewrite Hown.
    rewrite (bool_decide_eq_false_2 (zone = 0)) by lia.
    rewrite (bind_Ok _ _ _ (l2_of s freemap (skip n bytes)) s2) by done.
    erewrite bind_Ok by (eapply load_blockmap_spec; [exact Hr2|]; by eapply set_next_lookup).
    rewrite Hown, bool_decide_eq_false_2 by auto. apply bind_Stop.
    rewrite Happ, bool_decide_eq_false_2; [done|]. intros He. by apply (skip_crossing n bytes). }
  unfold alloc_blockmap. rewrite (bind_Ok _ _ _ (Some v) s) by by eapply get_root_volume_eq.
  rewrite (bind_Ok _ _ _ v s) by done. rewrite (bind_Ok _ _ _ bm s) by by eapply load_blockmap_spec.
  rewrite zone_decode_div by done. rewrite (bool_decide_eq_true_2 (_ = zone)) by done.
  rewrite (bind_Ok _ _ _ () s) by done. fold bytes.
  rewrite !(bool_decide_eq_true_2 (0 < bytes)), !(bool_decide_eq_true_2 (bytes <= HAMMER_BUFSIZE)) by lia.
  rewrite (bind_Ok _ _ _ () s) by done.
  assert (hammer_is_index_record zone = true) as ->.
  { unfold hammer_is_index_record, HAMMER_ZONE_BTREE_INDEX, HAMMER_MAX_ZONES. by rewrite !bool_decide_eq_true_2 by lia. }
  rewrite (bind_Ok _ _ _ () s) by done. by apply bind_Stop, loop_stop.
Qed.

(** Zone 8 has filled 4096 bytes of big-block 2: a whole buffer crosses. *)
Lemma alloc_blockmap_crossing_aborts_witness : alloc_blockmap 8 HAMMER_BUFSIZE None d0 = Stop AssertFail.
Proof.
  apply (alloc_blockmap_crossing_aborts d0 0 demo_ondisk 8 HAMMER_BUFSIZE
    (demo_blockmap 0 0x8000000001001000 0x8FFFFFFFFFFFFFFF) demo_fm None (demo_wf _) (proj2 demo_quiescent));
    [exists (strip demo_volume); split; [exact (demo_root _)|done]|lia|unfold HAMMER_BUFSIZE; lia|done|done
    |split; done|done|done|done|done|done| |by vm_compute|by vm_compute].
  change (skip 0x8000000001001000 (HAMMER_DATA_DOALIGN HAMMER_BUFSIZE)) with 0x8000000001004000.
  apply (demo_site _ 2); [lia|by vm_compute..].
Defined.
