(* ===== verification/Blocks.v ===== *)
(** * Blocks: messages cut into blocks

    The digests and the streaming hashes consume a message block by block and keep the
    bytes of an incomplete block in a buffer.  [whole] folds a function over the complete
    blocks of a message, [tail_of] are the bytes after them, and the lemmas say how the two
    change when bytes are appended; [holds] says what a buffer contains. *)

From S2P Require Import Prelude.

(** ** Buffers *)

(** The buffer starts with [p]. *)
Definition holds (b p : bytes) : Prop := take (length p) b = p.

Lemma holds_splice b p x :
  (length p + length x <= length b)%nat -> holds b p -> holds (splice b (length p) x) (p ++ x).
Proof.
  intros Hl Hp. unfold holds, splice. rewrite Hp, app_assoc. by rewrite take_app_length.
Qed.

Lemma holds_all b p : holds b p -> length b = length p -> b = p.
Proof. unfold holds. intros Hp Hl. rewrite <- Hp. by rewrite take_ge by lia. Qed.

Lemma holds_take b p k : holds b p -> holds b (take k p).
Proof. unfold holds. intros Hp. rewrite <- Hp at 2. rewrite take_take, length_take. f_equal. Qed.

Lemma holds_nil b : holds b [].
Proof. done. Qed.

(** ** Folding over blocks *)

Fixpoint fold_blocks {A} (f : A -> bytes -> A) (B n : nat) (st : A) (m : bytes) : A :=
  match n with
  | O => st
  | S n => fold_blocks f B n (f st (take B m)) (drop B m)
  end.

Section blocks.
Context {A : Type} (f : A -> bytes -> A) (B : nat) (HB : (0 < B)%nat).

Definition whole (st : A) (m : bytes) : A := fold_blocks f B (length m / B) st m.
Definition tail_of (m : bytes) : bytes := drop (length m / B * B) m.

Lemma fold_blocks_app k st m x :
  (k * B <= length m)%nat -> fold_blocks f B k st (m ++ x) = fold_blocks f B k st m.
Proof.
  revert st m. induction k as [|k IH]; intros st m Hl; [done|]. cbn [fold_blocks].
  rewrite take_app_le, drop_app_le by lia. apply IH. rewrite length_drop. lia.
Qed.

Lemma fold_blocks_add a b st m :
  fold_blocks f B (a + b) st m = fold_blocks f B b (fold_blocks f B a st m) (drop (a * B) m).
Proof.
  revert st m. induction a as [|a IH]; intros st m; [by rewrite drop_0|]. cbn [Nat.add fold_blocks].
  by rewrite IH, drop_drop.
Qed.

Lemma tail_of_length m : length (tail_of m) = (length m mod B)%nat.
Proof. unfold tail_of. rewrite length_drop. pose proof (Nat.div_mod_eq (length m) B). lia. Qed.

Lemma tail_of_lt m : (length (tail_of m) < B)%nat.
Proof. rewrite tail_of_length. apply Nat.mod_upper_bound. lia. Qed.

Lemma whole_le (m : bytes) : (length m / B * B <= length m)%nat.
Proof. rewrite Nat.mul_comm. apply Nat.Div0.mul_div_le. Qed.

Lemma div_app_lt m x :
  (length (tail_of m) + length x < B)%nat -> (length (m ++ x) / B = length m / B)%nat.
Proof.
  rewrite tail_of_length, length_app. intros Hl.
  pose proof (Nat.div_mod_eq (length m) B). symmetry. apply (Nat.div_unique _ _ _ (length m mod B + length x)); lia.
Qed.

Lemma div_app_full m x :
  (length (tail_of m) + length x = B)%nat -> (length (m ++ x) / B = length m / B + 1)%nat.
Proof.
  rewrite tail_of_length, length_app. intros Hl.
  pose proof (Nat.div_mod_eq (length m) B). symmetry. apply (Nat.div_unique _ _ _ 0); lia.
Qed.

(** Bytes that do not complete a block. *)
Lemma whole_part st m x : (length (tail_of m) + length x < B)%nat -> whole st (m ++ x) = whole st m.
Proof. intros Hl. unfold whole. by rewrite div_app_lt, fold_blocks_app by (done || apply whole_le). Qed.

Lemma tail_part m x : (length (tail_of m) + length x < B)%nat -> tail_of (m ++ x) = tail_of m ++ x.
Proof. intros Hl. unfold tail_of. by rewrite div_app_lt, drop_app_le by (done || apply whole_le). Qed.

(** Bytes that complete it. *)
Lemma whole_full st m x :
  (length (tail_of m) + length x = B)%nat -> whole st (m ++ x) = f (whole st m) (tail_of m ++ x).
Proof.
  intros Hl. unfold whole. rewrite div_app_full, fold_blocks_add by done. cbn [fold_blocks].
  rewrite drop_app_le, (fold_blocks_app _ _ m x) by apply whole_le. fold (tail_of m).
  by rewrite (take_ge (tail_of m ++ x)) by (rewrite length_app; lia).
Qed.

Lemma tail_full m x : (length (tail_of m) + length x = B)%nat -> tail_of (m ++ x) = [].
Proof.
  intros Hl. apply nil_length_inv. rewrite tail_of_length, length_app. rewrite tail_of_length in Hl.
  pose proof (Nat.div_mod_eq (length m) B). symmetry. apply (Nat.mod_unique _ _ (length m / B + 1)); lia.
Qed.

(** Complete blocks after complete blocks. *)
Lemma whole_blocks st m k x :
  tail_of m = [] -> length x = (k * B)%nat -> whole st (m ++ x) = fold_blocks f B k (whole st m) x.
Proof.
  intros Ht Hx. apply (f_equal length) in Ht. rewrite tail_of_length in Ht. cbn in Ht.
  pose proof (Nat.div_mod_eq (length m) B) as Hm. unfold whole. rewrite length_app, Hx, Nat.div_add by lia.
  rewrite fold_blocks_add, fold_blocks_app by apply whole_le. f_equal.
  rewrite drop_app_length'; [done|]. lia.
Qed.

Lemma tail_blocks m k x : tail_of m = [] -> length x = (k * B)%nat -> tail_of (m ++ x) = [].
Proof.
  intros Ht Hx. apply (f_equal length) in Ht. rewrite tail_of_length in Ht. cbn in Ht.
  apply nil_length_inv. rewrite tail_of_length, length_app, Hx. rewrite Nat.Div0.mod_add. done.
Qed.

Lemma take_whole_tail m : take (length m / B * B) m ++ tail_of m = m.
Proof. apply take_drop. Qed.

Lemma whole_nil st : whole st [] = st.
Proof. unfold whole. cbn [length]. by rewrite Nat.Div0.div_0_l. Qed.
Lemma tail_nil : tail_of [] = [].
Proof. apply drop_nil. Qed.
End blocks.
