(* ===== verification/ByteOrder.v ===== *)
(** * ByteOrder: big-endian words and byte swaps

    A word whose bytes are stored in the other order, and what it takes to show that a
    sequence of shifts and masks reverses the bytes of a word: the digests and the hashes
    each have their own. *)

From S2P Require Import Prelude.

Definition of_be (bs : bytes) : Z := of_le (rev bs).
Definition be_bytes (n : nat) (z : Z) : bytes := rev (le_bytes n z).

(** The bits of an explicit reversal of a word of [w] bits, one by one. *)
Ltac reverse_bits w H :=
  repeat (apply List.Forall_cons; [|]); [..|apply List.Forall_nil];
  unfold uwrap;
  repeat match goal with
         | |- context [Z.testbit (_ mod 2 ^ ?n) ?i] =>
             first [rewrite (Z.mod_pow2_bits_low _ n i) by lia | rewrite (Z.mod_pow2_bits_high _ n i) by lia]
         | |- context [Z.testbit (_ .>> _) _] => rewrite Z.shiftr_spec by lia
         | |- context [Z.testbit (_ .<< _) _] => rewrite Z.shiftl_spec by lia
         | _ => rewrite Z.lor_spec || rewrite Z.land_spec
         end;
  repeat match goal with
         | |- context [Z.testbit (Z.pos ?m) ?i] => let b := eval vm_compute in (Z.testbit (Z.pos m) i) in
             change (Z.testbit (Z.pos m) i) with b
         end;
  rewrite ?andb_false_r, ?andb_true_r, ?orb_false_r, ?orb_false_l;
  repeat match goal with
         | |- context [Z.testbit ?x ?i] => rewrite (in_u_testbit w x i ltac:(lia) H) by lia
         | |- context [Z.testbit ?x ?i] => rewrite (Z.testbit_neg_r x i) by lia
         end;
  rewrite ?orb_false_r, ?orb_false_l; reflexivity.

Lemma of_le_bits bs b i :
  bytes_ok bs -> 0 <= i -> bs !! Z.to_nat (i / 8) = Some b -> Z.testbit (of_le bs) i = Z.testbit b (i mod 8).
Proof. intros Hb Hi Hl. apply (little_endian_to_Z_spec 8 bs i b); [lia|lia|done|done]. Qed.

Lemma bytes_ok_rev bs : bytes_ok bs -> bytes_ok (rev bs).
Proof. apply List.Forall_rev. Qed.

(** Reversing the bytes of a little-endian word reads it as big endian. *)
Lemma reverse_word n f :
  (forall x, in_u (8 * Z.of_nat n) x -> in_u (8 * Z.of_nat n) (f x)) ->
  (forall x i, in_u (8 * Z.of_nat n) x -> 0 <= i < 8 * Z.of_nat n ->
     Z.testbit (f x) i = Z.testbit x (8 * (Z.of_nat n - 1 - i / 8) + i mod 8)) ->
  forall bs, length bs = n -> bytes_ok bs -> f (of_le bs) = of_be bs.
Proof.
  intros Hrange Hbits bs Hl Hb.
  pose proof (of_le_bound bs Hb) as Hr. rewrite Hl in Hr.
  assert (in_u (8 * Z.of_nat n) (of_be bs)) as Hr'.
  { unfold of_be. rewrite <- Hl, <- length_rev. by apply of_le_bound, bytes_ok_rev. }
  apply Z.bits_inj'. intros i Hi. destruct (decide (i < 8 * Z.of_nat n)).
  2: { by rewrite !(in_u_testbit (8 * Z.of_nat n)) by (auto || lia). }
  rewrite Hbits by (done || lia).
  destruct (lookup_lt_is_Some_2 bs (n - 1 - Z.to_nat (i / 8))%nat) as [b Hb']; [dlia|].
  rewrite (of_le_bits bs b) by (try done; try dlia; rewrite <- Hb'; f_equal; dlia).
  unfold of_be. rewrite (of_le_bits (rev bs) b); [f_equal; dlia|by apply bytes_ok_rev|done|].
  rewrite rev_alt. change (rev_append bs []) with (reverse bs). rewrite reverse_lookup by dlia. rewrite <- Hb'. f_equal. dlia.
Qed.

(** Storing a reversed word stores it big endian. *)
Lemma reverse_store n f x :
  (forall bs, length bs = n -> bytes_ok bs -> f (of_le bs) = of_be bs) -> in_u (8 * Z.of_nat n) x ->
  le_bytes n (f x) = be_bytes n x.
Proof.
  intros Hf Hx. rewrite <- (of_le_le_bytes n x) at 1 by done.
  rewrite Hf by (apply le_bytes_length || apply le_bytes_ok). unfold of_be, be_bytes.
  apply le_bytes_of_le; [by rewrite length_rev, le_bytes_length|apply bytes_ok_rev, le_bytes_ok].
Qed.

Lemma le_bytes_add a b z : le_bytes (a + b) z = le_bytes a z ++ le_bytes b (z .>> (8 * Z.of_nat a)).
Proof.
  revert z. induction a as [|a IH]; intros z; [cbn; by rewrite Z.shiftr_0_r|].
  unfold le_bytes in *. cbn [Nat.add]. rewrite !Nat2Z.inj_succ, !Z_to_little_endian_succ by lia.
  rewrite IH, Z.shiftr_shiftr by lia. cbn [app].
  by replace (8 + 8 * Z.of_nat a) with (8 * Z.succ (Z.of_nat a)) by lia.
Qed.

Lemma le_bytes_mod n z : le_bytes n z = le_bytes n (z mod 2 ^ (8 * Z.of_nat n)).
Proof.
  rewrite <- (le_bytes_of_le n (le_bytes n z)) at 1 by (apply le_bytes_length || apply le_bytes_ok).
  unfold of_le. unfold le_bytes at 2. rewrite little_endian_to_Z_to_little_endian by lia. do 3 f_equal. lia.
Qed.
