(* ===== verification/Sha2.v ===== *)
(** * Sha2: the SHA-256, SHA-384 and SHA-512 message digests

    The digest code of src/sys/crypto/sha2/sha2.c, with which hammer(8) finds duplicate
    blocks and hammer2(8) checks them.  A context is the intermediate hash, the number of
    bits seen and one block of memory.  That block holds the bytes not yet processed and is
    also the 16-word message schedule of the transform, so a transform of buffered bytes
    reads and overwrites the same memory; the model keeps this aliasing.  The machine is
    little endian.  The code for 32-bit and for 64-bit words has the same shape: it is
    written here once, over a [variant].

    The second part is the reference: the digests as the Secure Hash Standard defines
    them, on whole messages. *)

From S2P Require Import Prelude Blocks ByteOrder.

(** ** Words *)

Definition REVERSE32 (w : Z) : Z :=
  let tmp := (w .>> 16) .| u32 (w .<< 16) in
  u32 (((tmp .& 0xff00ff00) .>> 8) .| ((tmp .& 0x00ff00ff) .<< 8)).
Definition REVERSE64 (w : Z) : Z :=
  let tmp := (w .>> 32) .| u64 (w .<< 32) in
  let tmp := ((tmp .& 0xff00ff00ff00ff00) .>> 8) .| u64 ((tmp .& 0x00ff00ff00ff00ff) .<< 8) in
  ((tmp .& 0xffff0000ffff0000) .>> 16) .| u64 ((tmp .& 0x0000ffff0000ffff) .<< 16).

(** A 128-bit counter as two words, low word first. *)
Definition ADDINC128 (w : Z * Z) (n : Z) : Z * Z :=
  let w0 := u64 (w.1 + n) in
  (w0, if bool_decide (w0 < n) then u64 (w.2 + 1) else w.2).

Definition R (b x : Z) : Z := x .>> b.
Definition S32 (b x : Z) : Z := (x .>> b) .| u32 (x .<< (32 - b)).
Definition S64 (b x : Z) : Z := (x .>> b) .| u64 (x .<< (64 - b)).
Definition Ch (w x y z : Z) : Z := (x .& y) .^ (bnot w x .& z).
Definition Maj (x y z : Z) : Z := (x .& y) .^ (x .& z) .^ (y .& z).

Definition Sigma0_256 (x : Z) : Z := S32 2 x .^ S32 13 x .^ S32 22 x.
Definition Sigma1_256 (x : Z) : Z := S32 6 x .^ S32 11 x .^ S32 25 x.
Definition sigma0_256 (x : Z) : Z := S32 7 x .^ S32 18 x .^ R 3 x.
Definition sigma1_256 (x : Z) : Z := S32 17 x .^ S32 19 x .^ R 10 x.
Definition Sigma0_512 (x : Z) : Z := S64 28 x .^ S64 34 x .^ S64 39 x.
Definition Sigma1_512 (x : Z) : Z := S64 14 x .^ S64 18 x .^ S64 41 x.
Definition sigma0_512 (x : Z) : Z := S64 1 x .^ S64 8 x .^ R 7 x.
Definition sigma1_512 (x : Z) : Z := S64 19 x .^ S64 61 x .^ R 6 x.

(** ** Constants *)

Definition K256 : list Z :=
  [0x428a2f98; 0x71374491; 0xb5c0fbcf; 0xe9b5dba5] ++
  [0x3956c25b; 0x59f111f1; 0x923f82a4; 0xab1c5ed5] ++
  [0xd807aa98; 0x12835b01; 0x243185be; 0x550c7dc3] ++
  [0x72be5d74; 0x80deb1fe; 0x9bdc06a7; 0xc19bf174] ++
  [0xe49b69c1; 0xefbe4786; 0x0fc19dc6; 0x240ca1cc] ++
  [0x2de92c6f; 0x4a7484aa; 0x5cb0a9dc; 0x76f988da] ++
  [0x983e5152; 0xa831c66d; 0xb00327c8; 0xbf597fc7] ++
  [0xc6e00bf3; 0xd5a79147; 0x06ca6351; 0x14292967] ++
  [0x27b70a85; 0x2e1b2138; 0x4d2c6dfc; 0x53380d13] ++
  [0x650a7354; 0x766a0abb; 0x81c2c92e; 0x92722c85] ++
  [0xa2bfe8a1; 0xa81a664b; 0xc24b8b70; 0xc76c51a3] ++
  [0xd192e819; 0xd6990624; 0xf40e3585; 0x106aa070] ++
  [0x19a4c116; 0x1e376c08; 0x2748774c; 0x34b0bcb5] ++
  [0x391c0cb3; 0x4ed8aa4a; 0x5b9cca4f; 0x682e6ff3] ++
  [0x748f82ee; 0x78a5636f; 0x84c87814; 0x8cc70208] ++
  [0x90befffa; 0xa4506ceb; 0xbef9a3f7; 0xc67178f2].

Definition sha256_initial_hash_value : list Z :=
  [0x6a09e667; 0xbb67ae85; 0x3c6ef372; 0xa54ff53a; 0x510e527f; 0x9b05688c; 0x1f83d9ab; 0x5be0cd19].

Definition K512 : list Z :=
  [0x428a2f98d728ae22; 0x7137449123ef65cd; 0xb5c0fbcfec4d3b2f; 0xe9b5dba58189dbbc] ++
  [0x3956c25bf348b538; 0x59f111f1b605d019; 0x923f82a4af194f9b; 0xab1c5ed5da6d8118] ++
  [0xd807aa98a3030242; 0x12835b0145706fbe; 0x243185be4ee4b28c; 0x550c7dc3d5ffb4e2] ++
  [0x72be5d74f27b896f; 0x80deb1fe3b1696b1; 0x9bdc06a725c71235; 0xc19bf174cf692694] ++
  [0xe49b69c19ef14ad2; 0xefbe4786384f25e3; 0x0fc19dc68b8cd5b5; 0x240ca1cc77ac9c65] ++
  [0x2de92c6f592b0275; 0x4a7484aa6ea6e483; 0x5cb0a9dcbd41fbd4; 0x76f988da831153b5] ++
  [0x983e5152ee66dfab; 0xa831c66d2db43210; 0xb00327c898fb213f; 0xbf597fc7beef0ee4] ++
  [0xc6e00bf33da88fc2; 0xd5a79147930aa725; 0x06ca6351e003826f; 0x142929670a0e6e70] ++
  [0x27b70a8546d22ffc; 0x2e1b21385c26c926; 0x4d2c6dfc5ac42aed; 0x53380d139d95b3df] ++
  [0x650a73548baf63de; 0x766a0abb3c77b2a8; 0x81c2c92e47edaee6; 0x92722c851482353b] ++
  [0xa2bfe8a14cf10364; 0xa81a664bbc423001; 0xc24b8b70d0f89791; 0xc76c51a30654be30] ++
  [0xd192e819d6ef5218; 0xd69906245565a910; 0xf40e35855771202a; 0x106aa07032bbd1b8] ++
  [0x19a4c116b8d2d0c8; 0x1e376c085141ab53; 0x2748774cdf8eeb99; 0x34b0bcb5e19b48a8] ++
  [0x391c0cb3c5c95a63; 0x4ed8aa4ae3418acb; 0x5b9cca4f7763e373; 0x682e6ff3d6b2b8a3] ++
  [0x748f82ee5defb2fc; 0x78a5636f43172f60; 0x84c87814a1f0ab72; 0x8cc702081a6439ec] ++
  [0x90befffa23631e28; 0xa4506cebde82bde9; 0xbef9a3f7b2c67915; 0xc67178f2e372532b] ++
  [0xca273eceea26619c; 0xd186b8c721c0c207; 0xeada7dd6cde0eb1e; 0xf57d4f7fee6ed178] ++
  [0x06f067aa72176fba; 0x0a637dc5a2c898a6; 0x113f9804bef90dae; 0x1b710b35131c471b] ++
  [0x28db77f523047d84; 0x32caab7b40c72493; 0x3c9ebe0a15c9bebc; 0x431d67c49c100d4c] ++
  [0x4cc5d4becb3e42b6; 0x597f299cfc657e2a; 0x5fcb6fab3ad6faec; 0x6c44198c4a475817].

Definition sha384_initial_hash_value : list Z :=
  [0xcbbb9d5dc1059ed8; 0x629a292a367cd507; 0x9159015a3070dd17; 0x152fecd8f70e5939;
   0x67332667ffc00b31; 0x8eb44a8768581511; 0xdb0c2e0d64f98fa7; 0x47b5481dbefa4fa4].

Definition sha512_initial_hash_value : list Z :=
  [0x6a09e667f3bcc908; 0xbb67ae8584caa73b; 0x3c6ef372fe94f82b; 0xa54ff53a5f1d36f1;
   0x510e527fade682d1; 0x9b05688c2b3e6c1f; 0x1f83d9abfb41bd6b; 0x5be0cd19137e2179].

(** ** The transform *)

(** What differs between the two copies of the code. *)
Record variant := {
  width : Z;            (** bits of a word *)
  wbytes : nat;         (** bytes of a word *)
  nrounds : nat;
  Kw : list Z;
  Sigma0 : Z -> Z;
  Sigma1 : Z -> Z;
  sigma0 : Z -> Z;
  sigma1 : Z -> Z;
  REVERSE : Z -> Z;
}.

Definition V256 : variant :=
  {| width := 32; wbytes := 4; nrounds := 64; Kw := K256; Sigma0 := Sigma0_256; Sigma1 := Sigma1_256;
     sigma0 := sigma0_256; sigma1 := sigma1_256; REVERSE := REVERSE32 |}.
Definition V512 : variant :=
  {| width := 64; wbytes := 8; nrounds := 80; Kw := K512; Sigma0 := Sigma0_512; Sigma1 := Sigma1_512;
     sigma0 := sigma0_512; sigma1 := sigma1_512; REVERSE := REVERSE64 |}.

(** [SHA256_BLOCK_LENGTH], [SHA512_BLOCK_LENGTH] *)
Definition block_length (V : variant) : nat := 16 * wbytes V.

(** The local variables [a] to [h]. *)
Record regs := { ra : Z; rb : Z; rc : Z; rd : Z; re : Z; rf : Z; rg : Z; rh : Z }.

Definition regs_of (st : list Z) : regs :=
  {| ra := nth 0 st 0; rb := nth 1 st 0; rc := nth 2 st 0; rd := nth 3 st 0;
     re := nth 4 st 0; rf := nth 5 st 0; rg := nth 6 st 0; rh := nth 7 st 0 |}.
Definition list_of (r : regs) : list Z := [ra r; rb r; rc r; rd r; re r; rf r; rg r; rh r].

(** The bytes of [k] words and the words of a byte string. *)
Fixpoint words_of (n k : nat) (bs : bytes) : list Z :=
  match k with
  | O => []
  | S k => of_le (take n bs) :: words_of n k (drop n bs)
  end.
Definition bytes_of (n : nat) (ws : list Z) : bytes := concat (le_bytes n <$> ws).

Section transform.
Context (V : variant).
Local Abbreviation wrap := (uwrap (width V)).

(** One round with the word [wt] and the constant [k]. *)
Definition T1 (r : regs) (k wt : Z) : Z :=
  wrap (rh r + Sigma1 V (re r) + Ch (width V) (re r) (rf r) (rg r) + k + wt).
Definition T2 (r : regs) : Z := wrap (Sigma0 V (ra r) + Maj (ra r) (rb r) (rc r)).
Definition round (r : regs) (k wt : Z) : regs :=
  let t1 := T1 r k wt in
  {| ra := wrap (t1 + T2 r); rb := ra r; rc := rb r; rd := rc r;
     re := wrap (rd r + t1); rf := re r; rg := rf r; rh := rg r |}.

(** The first [do] loop, [n] turns from [j] on; [data] is [None] when it points to the
    schedule itself. *)
Fixpoint load_rounds (n j : nat) (data : option (list Z)) (W : list Z) (r : regs) : list Z * regs :=
  match n with
  | O => (W, r)
  | S n =>
      let W := <[j := REVERSE V (nth j (default W data) 0)]> W in
      load_rounds n (S j) data W (round r (nth j (Kw V) 0) (nth j W 0))
  end.

(** [W256[j&0x0f] += s1 + W256[(j+9)&0x0f] + s0] *)
Definition expand (j : nat) (W : list Z) : list Z :=
  let s0 := sigma0 V (nth ((j + 1) mod 16) W 0) in
  let s1 := sigma1 V (nth ((j + 14) mod 16) W 0) in
  <[(j mod 16)%nat := wrap (nth (j mod 16) W 0 + (s1 + nth ((j + 9) mod 16) W 0 + s0))]> W.

(** The second [do] loop. *)
Fixpoint expand_rounds (n j : nat) (W : list Z) (r : regs) : list Z * regs :=
  match n with
  | O => (W, r)
  | S n =>
      let W := expand j W in
      expand_rounds n (S j) W (round r (nth j (Kw V) 0) (nth (j mod 16) W 0))
  end.

Definition add_state (st : list Z) (r : regs) : list Z := zip_with (λ x y, wrap (x + y)) st (list_of r).

(** [data] is [None] for [context->buffer]. *)
Definition Transform (data : option bytes) (st : list Z) (buffer : bytes) : list Z * bytes :=
  let W := words_of (wbytes V) 16 buffer in
  let '(W, r) := load_rounds 16 0 (words_of (wbytes V) 16 <$> data) W (regs_of st) in
  let '(W, r) := expand_rounds (nrounds V - 16) 16 W r in
  (add_state st r, bytes_of (wbytes V) W).

(** *** The unrolled transform ([SHA2_UNROLL_TRANSFORM])

    The registers stay in place and the round macro is called with its arguments rotated:
    [shift] gives the macro's view of the variables. *)
Definition ROUND (r : regs) (k wt : Z) : regs :=
  let t1 := T1 r k wt in
  {| ra := ra r; rb := rb r; rc := rc r; rd := wrap (rd r + t1); re := re r; rf := rf r; rg := rg r;
     rh := wrap (t1 + Sigma0 V (ra r) + Maj (ra r) (rb r) (rc r)) |}.
Definition shift (r : regs) : regs :=
  {| ra := rh r; rb := ra r; rc := rb r; rd := rc r; re := rd r; rf := re r; rg := rf r; rh := rg r |}.
Definition unshift (r : regs) : regs :=
  {| ra := rb r; rb := rc r; rc := rd r; rd := re r; re := rf r; rf := rg r; rg := rh r; rh := ra r |}.
(** The [j]-th macro call of a loop. *)
Definition ROUND_at (j : nat) (r : regs) (k wt : Z) : regs :=
  Nat.iter (j mod 8) unshift (ROUND (Nat.iter (j mod 8) shift r) k wt).

Fixpoint unrolled_load_rounds (n j : nat) (data : option (list Z)) (W : list Z) (r : regs) : list Z * regs :=
  match n with
  | O => (W, r)
  | S n =>
      let W := <[j := REVERSE V (nth j (default W data) 0)]> W in
      unrolled_load_rounds n (S j) data W (ROUND_at j r (nth j (Kw V) 0) (nth j W 0))
  end.
Fixpoint unrolled_expand_rounds (n j : nat) (W : list Z) (r : regs) : list Z * regs :=
  match n with
  | O => (W, r)
  | S n =>
      let W := expand j W in
      unrolled_expand_rounds n (S j) W (ROUND_at j r (nth j (Kw V) 0) (nth (j mod 16) W 0))
  end.
Definition unrolled_Transform (data : option bytes) (st : list Z) (buffer : bytes) : list Z * bytes :=
  let W := words_of (wbytes V) 16 buffer in
  let '(W, r) := unrolled_load_rounds 16 0 (words_of (wbytes V) 16 <$> data) W (regs_of st) in
  let '(W, r) := unrolled_expand_rounds (nrounds V - 16) 16 W r in
  (add_state st r, bytes_of (wbytes V) W).
End transform.

(** ** Contexts *)

(** [SHA256_CTX] counts bits in one word, [SHA512_CTX] in two. *)
Record context (C : Type) := { c_state : list Z; c_bitcount : C; c_buffer : bytes }.
Arguments Build_context {_} _ _ _.
Arguments c_state {_} _.
Arguments c_bitcount {_} _.
Arguments c_buffer {_} _.
Definition SHA256_CTX : Type := context Z.
Definition SHA512_CTX : Type := context (Z * Z).

Section update.
Context (V : variant) {C : Type} (add : C -> Z -> C) (low : C -> Z).
Local Abbreviation B := (block_length V).

Definition ctx_transform (data : option bytes) (c : context C) : context C :=
  let '(st, buffer) := Transform V data (c_state c) (c_buffer c) in Build_context st (c_bitcount c) buffer.
Definition ctx_count (n : nat) (c : context C) : context C :=
  Build_context (c_state c) (add (c_bitcount c) (Z.of_nat n .<< 3)) (c_buffer c).
(** [bcopy(data, &context->buffer[off], n)] *)
Definition ctx_copy (off : nat) (data : bytes) (c : context C) : context C :=
  Build_context (c_state c) (c_bitcount c) (splice (c_buffer c) off data).
Definition usedspace (c : context C) : nat := Z.to_nat ((low (c_bitcount c) .>> 3) mod Z.of_nat B).

(** The [while] loop, which runs [n] times, and the left-over bytes. *)
Fixpoint update_blocks (n : nat) (data : bytes) (c : context C) : context C :=
  match n with
  | O => if bool_decide (0 < length data)%nat then ctx_count (length data) (ctx_copy 0 data c) else c
  | S n => update_blocks n (drop B data) (ctx_count B (ctx_transform (Some data) c))
  end.

Definition Update (c : context C) (data : bytes) : context C :=
  if bool_decide (length data = 0%nat) then c
  else
    let used := usedspace c in
    if bool_decide (0 < used)%nat then
      let freespace := (B - used)%nat in
      if bool_decide (freespace <= length data)%nat then
        let c := ctx_count freespace (ctx_copy used (take freespace data) c) in
        let data := drop freespace data in
        update_blocks (length data / B) data (ctx_transform None c)
      else ctx_count (length data) (ctx_copy used data c)
    else update_blocks (length data / B) data c.

(** [bzero(&context->buffer[off], n)] *)
Definition ctx_zero (off n : nat) (c : context C) : context C := ctx_copy off (replicate n 0) c.

(** The padding of [SHA256_Final] and of [SHA512_Last]: [short] bytes precede the bit
    count [len]; [wipe] are cleared after a second-to-last transform. *)
Definition finish (short wipe : nat) (len : bytes) (c : context C) : context C :=
  let used := usedspace c in
  let c :=
    if bool_decide (0 < used)%nat then
      let c := ctx_copy used [0x80] c in
      let used := S used in
      if bool_decide (used <= short)%nat then ctx_zero used (short - used) c
      else
        let c := if bool_decide (used < B)%nat then ctx_zero used (B - used) c else c in
        ctx_zero 0 wipe (ctx_transform None c)
    else ctx_copy 0 [0x80] (ctx_zero 0 short c) in
  ctx_transform None (ctx_copy short len c).

(** [bzero(context, sizeof( *context))] *)
Definition ctx_clear (z : C) : context C := Build_context (replicate 8 0) z (replicate B 0).
End update.

(** *** SHA-256 *)

Definition SHA256_SHORT_BLOCK_LENGTH : nat := block_length V256 - 8.
Definition SHA256_Init : SHA256_CTX :=
  Build_context sha256_initial_hash_value 0 (replicate (block_length V256) 0).
Definition SHA256_Transform : SHA256_CTX -> option bytes -> SHA256_CTX := λ c data, ctx_transform V256 data c.
Definition SHA256_Update : SHA256_CTX -> bytes -> SHA256_CTX := Update V256 (λ b n, u64 (b + n)) id.
(** The digest, when the caller passed a buffer for it, and the cleared context. *)
Definition SHA256_Final (digest : bool) (c : SHA256_CTX) : option bytes * SHA256_CTX :=
  (if digest then
     let c := finish V256 id SHA256_SHORT_BLOCK_LENGTH SHA256_SHORT_BLOCK_LENGTH
                (le_bytes 8 (REVERSE64 (c_bitcount c))) c in
     Some (bytes_of 4 (REVERSE32 <$> c_state c))
   else None, ctx_clear V256 0).

(** *** SHA-512 and SHA-384 *)

Definition SHA512_SHORT_BLOCK_LENGTH : nat := block_length V512 - 16.
Definition SHA512_Init : SHA512_CTX :=
  Build_context sha512_initial_hash_value (0, 0) (replicate (block_length V512) 0).
Definition SHA512_Transform : SHA512_CTX -> option bytes -> SHA512_CTX := λ c data, ctx_transform V512 data c.
Definition SHA512_Update : SHA512_CTX -> bytes -> SHA512_CTX := Update V512 ADDINC128 fst.
Definition SHA512_Last (c : SHA512_CTX) : SHA512_CTX :=
  finish V512 fst SHA512_SHORT_BLOCK_LENGTH (block_length V512 - 2)
    (le_bytes 8 (REVERSE64 (c_bitcount c).2) ++ le_bytes 8 (REVERSE64 (c_bitcount c).1)) c.
Definition SHA512_Final (digest : bool) (c : SHA512_CTX) : option bytes * SHA512_CTX :=
  (if digest then Some (bytes_of 8 (REVERSE64 <$> c_state (SHA512_Last c))) else None, ctx_clear V512 (0, 0)).

Definition SHA384_Init : SHA512_CTX :=
  Build_context sha384_initial_hash_value (0, 0) (replicate (block_length V512) 0).
Definition SHA384_Update : SHA512_CTX -> bytes -> SHA512_CTX := SHA512_Update.
Definition SHA384_Final (digest : bool) (c : SHA512_CTX) : option bytes * SHA512_CTX :=
  (if digest then Some (bytes_of 8 (take 6 (REVERSE64 <$> c_state (SHA512_Last c)))) else None,
   ctx_clear V512 (0, 0)).

(** *** Digests as text *)

(** ASCII codes of "0123456789abcdef" *)
Definition sha2_hex_digits : bytes :=
  [48; 49; 50; 51; 52; 53; 54; 55; 56; 57; 97; 98; 99; 100; 101; 102].
Definition hex_digit (x : Z) : Z := nth (Z.to_nat x) sha2_hex_digits 0.
Definition hex_byte (d : Z) : bytes := [hex_digit ((d .& 0xf0) .>> 4); hex_digit (d .& 0x0f)].
(** The terminated string written to [buffer], and the offset in it of the pointer
    returned. *)
Definition hex_string (digest : bytes) : bytes * nat :=
  let text := concat (hex_byte <$> digest) in (text ++ [0], length text).

Definition SHA256_End (buffer : bool) (c : SHA256_CTX) : option (bytes * nat) * SHA256_CTX :=
  if buffer then let '(digest, c) := SHA256_Final true c in (hex_string <$> digest, c)
  else (None, ctx_clear V256 0).
Definition SHA512_End (buffer : bool) (c : SHA512_CTX) : option (bytes * nat) * SHA512_CTX :=
  if buffer then let '(digest, c) := SHA512_Final true c in (hex_string <$> digest, c)
  else (None, ctx_clear V512 (0, 0)).
Definition SHA384_End (buffer : bool) (c : SHA512_CTX) : option (bytes * nat) * SHA512_CTX :=
  if buffer then let '(digest, c) := SHA384_Final true c in (hex_string <$> digest, c)
  else (None, ctx_clear V512 (0, 0)).
Definition SHA256_Data (data : bytes) : option (bytes * nat) :=
  fst (SHA256_End true (SHA256_Update SHA256_Init data)).
Definition SHA512_Data (data : bytes) : option (bytes * nat) :=
  fst (SHA512_End true (SHA512_Update SHA512_Init data)).
Definition SHA384_Data (data : bytes) : option (bytes * nat) :=
  fst (SHA384_End true (SHA384_Update SHA384_Init data)).

(** ** Reference: the Secure Hash Standard *)

Module Fips.
Section fips.
Context (V : variant).
Local Abbreviation B := (block_length V).

(** The first 16 words of the message schedule. *)
Fixpoint block_words (k : nat) (blk : bytes) : list Z :=
  match k with
  | O => []
  | S k => of_be (take (wbytes V) blk) :: block_words k (drop (wbytes V) blk)
  end.
(** The next word: W(t) = s1 W(t-2) + W(t-7) + s0 W(t-15) + W(t-16). *)
Definition next_word (W : list Z) : Z :=
  let w k := nth (length W - k) W 0 in
  uwrap (width V) (sigma1 V (w 2%nat) + w 7%nat + sigma0 V (w 15%nat) + w 16%nat).
Fixpoint schedule (n : nat) (W : list Z) : list Z :=
  match n with
  | O => W
  | S n => let W := schedule n W in W ++ [next_word W]
  end.
Definition compress (st : list Z) (blk : bytes) : list Z :=
  let W := schedule (nrounds V - 16) (block_words 16 blk) in
  add_state V st (foldl (λ r kw, round V r kw.1 kw.2) (regs_of st) (zip (Kw V) W)).
(** A message is followed by a 1 bit, zeros and its length in bits ([2 * wbytes] bytes),
    up to a multiple of the block length. *)
Definition pad (m : bytes) : bytes :=
  let l := (2 * wbytes V)%nat in
  m ++ [0x80] ++ replicate (Z.to_nat (- Z.of_nat (length m + 1 + l) mod Z.of_nat B)) 0 ++
  be_bytes l (8 * Z.of_nat (length m)).
Definition hash (H : list Z) (m : bytes) : bytes :=
  concat (be_bytes (wbytes V) <$> whole compress B H (pad m)).
End fips.

Definition sha256 (m : bytes) : bytes := hash V256 sha256_initial_hash_value m.
Definition sha512 (m : bytes) : bytes := hash V512 sha512_initial_hash_value m.
Definition sha384 (m : bytes) : bytes := take 48 (hash V512 sha384_initial_hash_value m).
End Fips.
