(* ===== verification/Sha2Props.v ===== *)
(** * Sha2Props: the digests are the standard's

    The transform computes the compression function of the standard although it keeps only
    16 words of the message schedule, in the memory of the block it reads ([Transform_spec]);
    the unrolled transform computes the same ([unrolled_Transform_eq]).  A context that has
    absorbed a message by any sequence of updates represents it ([represents]), and
    finishing it pads the message as the standard prescribes.  The bit counters of the two
    context types are used through the interface [BitCounter]. *)

From S2P Require Import Prelude Blocks ByteOrder Sha2.
Import Fips.

(** ** Byte order *)

Lemma REVERSE32_bits_all x :
  in_u 32 x -> Forall (λ i, Z.testbit (REVERSE32 x) i = Z.testbit x (8 * (3 - i / 8) + i mod 8)) (seqZ 0 32).
Proof.
  intros H. unfold REVERSE32, REVERSE64, seqZ. cbn [fmap list_fmap seq Z.to_nat Pos.to_nat Pos.iter_op Nat.add]. reverse_bits 32 H.
Qed.

Lemma REVERSE64_bits_all x :
  in_u 64 x -> Forall (λ i, Z.testbit (REVERSE64 x) i = Z.testbit x (8 * (7 - i / 8) + i mod 8)) (seqZ 0 64).
Proof.
  intros H. unfold REVERSE32, REVERSE64, seqZ. cbn [fmap list_fmap seq Z.to_nat Pos.to_nat Pos.iter_op Nat.add]. reverse_bits 64 H.
Qed.

Lemma REVERSE32_range x : in_u 32 (REVERSE32 x).
Proof. by apply in_u_uwrap. Qed.
Lemma REVERSE64_range x : in_u 64 x -> in_u 64 (REVERSE64 x).
Proof. intros Hx. unfold REVERSE64. auto 10 with c_int. Qed.

Lemma REVERSE32_be bs : length bs = 4%nat -> bytes_ok bs -> REVERSE32 (of_le bs) = of_be bs.
Proof.
  apply reverse_word; [intros; apply REVERSE32_range|]. intros x i Hx Hi.
  apply (proj1 (Forall_forall _ _) (REVERSE32_bits_all x Hx)). apply elem_of_seqZ. lia.
Qed.
Lemma REVERSE64_be bs : length bs = 8%nat -> bytes_ok bs -> REVERSE64 (of_le bs) = of_be bs.
Proof.
  apply reverse_word; [apply REVERSE64_range|]. intros x i Hx Hi.
  apply (proj1 (Forall_forall _ _) (REVERSE64_bits_all x Hx)). apply elem_of_seqZ. lia.
Qed.

(** What the two variants share. *)
Record sound (V : variant) : Prop := {
  sd_width : width V = 8 * Z.of_nat (wbytes V);
  sd_bytes : wbytes V = 4%nat \/ wbytes V = 8%nat;
  sd_rounds : (16 <= nrounds V)%nat;
  sd_K : length (Kw V) = nrounds V;
  sd_reverse : forall bs, length bs = wbytes V -> bytes_ok bs -> REVERSE V (of_le bs) = of_be bs;
}.

Lemma sound_256 : sound V256.
Proof. split; [done|by left|cbn; lia|done|apply REVERSE32_be]. Qed.
Lemma sound_512 : sound V512.
Proof. split; [done|by right|cbn; lia|done|apply REVERSE64_be]. Qed.

(** ** The transform is the standard's compression function *)

Section transform.
Context (V : variant) (HV : sound V).
Local Abbreviation n := (wbytes V).
Local Abbreviation B := (block_length V).

Lemma words_of_length w k bs : length (words_of w k bs) = k.
Proof. revert bs. induction k as [|k IH]; intros bs; cbn; [done|]. by rewrite IH. Qed.

Lemma block_words_eq k bs :
  (k * n <= length bs)%nat -> bytes_ok bs -> block_words V k bs = REVERSE V <$> words_of n k bs.
Proof.
  revert bs. induction k as [|k IH]; intros bs Hl Hb; [done|]. cbn [block_words words_of].
  rewrite fmap_cons, IH by (rewrite ?length_drop; first [lia|by apply Forall_drop]).
  rewrite (sd_reverse V HV); [done|rewrite length_take; lia|by apply Forall_take].
Qed.

Lemma block_words_take k m bs : (k * n <= m)%nat -> block_words V k (take m bs) = block_words V k bs.
Proof.
  revert m bs. induction k as [|k IH]; intros m bs Hm; [done|]. cbn [block_words].
  rewrite take_take, Nat.min_l by lia. f_equal. rewrite skipn_firstn_comm. apply IH. lia.
Qed.

Lemma block_words_length k bs : length (block_words V k bs) = k.
Proof. revert bs. induction k as [|k IH]; intros bs; cbn; [done|]. by rewrite IH. Qed.

Lemma schedule_length m W : length (schedule V m W) = (m + length W)%nat.
Proof. induction m as [|m IH]; [done|]. cbn [schedule]. rewrite length_app, IH. cbn. lia. Qed.

Lemma nth_schedule_low m W t : (t < length W)%nat -> nth t (schedule V m W) 0 = nth t W 0.
Proof.
  intros Ht. induction m as [|m IH]; [done|]. cbn [schedule]. rewrite app_nth1; [done|]. rewrite schedule_length. lia.
Qed.

(** The recurrence of the message schedule. *)
Lemma nth_schedule m W t :
  length W = 16%nat -> (16 <= t < m + 16)%nat ->
  let w := schedule V m W in
  nth t w 0 = uwrap (width V)
    (sigma1 V (nth (t - 2) w 0) + nth (t - 7) w 0 + sigma0 V (nth (t - 15) w 0) + nth (t - 16) w 0).
Proof.
  intros HW Ht. induction m as [|m IH]; [lia|]. cbn zeta in *. cbn [schedule].
  destruct (decide (t = m + 16)%nat) as [->|].
  - rewrite (app_nth2 _ _ _ (n := m + 16)) by (rewrite schedule_length; lia).
    rewrite schedule_length, HW, Nat.sub_diag. cbn [nth]. unfold next_word. rewrite schedule_length, HW.
    rewrite !app_nth1 by (rewrite schedule_length; lia). done.
  - rewrite !app_nth1 by (rewrite schedule_length; lia). apply IH. lia.
Qed.

(** [m] rounds from round [j] on, with the words of a whole schedule. *)
Fixpoint run_rounds (m j : nat) (W : list Z) (r : regs) : regs :=
  match m with
  | O => r
  | S m => run_rounds m (S j) W (round V r (nth j (Kw V) 0) (nth j W 0))
  end.

Lemma run_rounds_add a b j W r : run_rounds (a + b) j W r = run_rounds b (a + j) W (run_rounds a j W r).
Proof.
  revert j r. induction a as [|a IH]; intros j r; [done|]. cbn [Nat.add run_rounds]. rewrite IH. f_equal. lia.
Qed.

Lemma run_rounds_zip W r :
  length W = length (Kw V) -> foldl (λ r kw, round V r kw.1 kw.2) r (zip (Kw V) W) = run_rounds (length W) 0 W r.
Proof.
  intros HW. change (zip (Kw V) W) with (zip (drop 0 (Kw V)) (drop 0 W)).
  remember 0%nat as j eqn:Hj. replace (length W) with (length W - j)%nat by lia. clear Hj.
  remember (length W - j)%nat as m eqn:Hm. revert j r Hm.
  induction m as [|m IH]; intros j r Hm.
  - rewrite (drop_ge W) by lia. by destruct (drop j (Kw V)).
  - destruct (nth_lookup_or_length W j 0) as [HWj|]; [|lia].
    destruct (nth_lookup_or_length (Kw V) j 0) as [HKj|]; [|lia].
    rewrite (drop_S W _ _ HWj), (drop_S (Kw V) _ _ HKj). cbn [zip zip_with foldl run_rounds fst snd]. apply IH. lia.
Qed.

Lemma nth_insert_eq (W : list Z) j x : (j < length W)%nat -> nth j (<[j := x]> W) 0 = x.
Proof. intros Hj. apply nth_lookup_Some. by apply list_lookup_insert_eq. Qed.
Lemma nth_insert_ne (W : list Z) j k x : j ≠ k -> nth k (<[j := x]> W) 0 = nth k W 0.
Proof. intros Hj. by rewrite !nth_lookup, list_lookup_insert_ne by done. Qed.
Lemma nth_fmap_in (f : Z -> Z) l j : (j < length l)%nat -> nth j (f <$> l) 0 = f (nth j l 0).
Proof.
  intros Hj. destruct (nth_lookup_or_length l j 0) as [He|]; [|lia].
  apply nth_lookup_Some. by rewrite list_lookup_fmap, He.
Qed.

(** The first loop replaces the words of the schedule by the reversed words of the block,
    also when the block is the schedule's own memory. *)
Lemma load_rounds_spec src data Wf m :
  length src = 16%nat -> (forall t, (t < 16)%nat -> nth t Wf 0 = REVERSE V (nth t src 0)) ->
  forall j W r, (m + j = 16)%nat -> length W = 16%nat ->
  (forall t, (t < j)%nat -> nth t W 0 = nth t Wf 0) ->
  (forall t, (j <= t < 16)%nat -> nth t (default W data) 0 = nth t src 0) ->
  exists W', load_rounds V m j data W r = (W', run_rounds m j Wf r) /\ length W' = 16%nat /\
    forall t, (t < 16)%nat -> nth t W' 0 = nth t Wf 0.
Proof.
  intros Hsrc HWf. induction m as [|m IH]; intros j W r Hj HW Hlow Hhigh; cbn [load_rounds run_rounds].
  - exists W. split; [done|]. split; [done|]. intros t Ht. apply Hlow. lia.
  - rewrite nth_insert_eq by lia. rewrite Hhigh, <- HWf by lia. apply IH; [lia|by rewrite length_insert| |].
    + intros t Ht. destruct (decide (t = j)) as [->|]; [by rewrite nth_insert_eq by lia|].
      rewrite nth_insert_ne by done. apply Hlow. lia.
    + intros t Ht. destruct data as [d|]; cbn [default from_option id] in *; [apply Hhigh; lia|].
      rewrite nth_insert_ne by lia. apply Hhigh. lia.
Qed.

(** The second loop keeps the last 16 words of the schedule, word [k] at index [k mod 16]. *)
Lemma expand_rounds_spec N blk m :
  length blk = 16%nat ->
  forall j W r, (16 <= j)%nat -> (m + j = N + 16)%nat -> length W = 16%nat ->
  (forall t, (j - 16 <= t < j)%nat -> nth (t mod 16) W 0 = nth t (schedule V N blk) 0) ->
  exists W', expand_rounds V m j W r = (W', run_rounds m j (schedule V N blk) r) /\ length W' = 16%nat.
Proof.
  intros Hblk. induction m as [|m IH]; intros j W r Hj Hm HW Hinv; cbn [expand_rounds run_rounds]; [by exists W|].
  assert (j mod 16 < 16)%nat as Hjm by (apply Nat.mod_upper_bound; lia).
  assert (nth (j mod 16) (expand V j W) 0 = nth j (schedule V N blk) 0) as Hw.
  { unfold expand. rewrite nth_insert_eq by lia. rewrite (nth_schedule N blk j) by lia.
    rewrite <- !Hinv by lia.
    replace ((j + 14) mod 16)%nat with ((j - 2) mod 16)%nat by (apply Nat2Z.inj; rewrite !Nat2Z.inj_mod; dlia).
    replace ((j + 9) mod 16)%nat with ((j - 7) mod 16)%nat by (apply Nat2Z.inj; rewrite !Nat2Z.inj_mod; dlia).
    replace ((j + 1) mod 16)%nat with ((j - 15) mod 16)%nat by (apply Nat2Z.inj; rewrite !Nat2Z.inj_mod; dlia).
    replace ((j - 16) mod 16)%nat with (j mod 16)%nat by (apply Nat2Z.inj; rewrite !Nat2Z.inj_mod; dlia).
    f_equal. lia. }
  rewrite Hw. apply IH; [lia|lia|by unfold expand; rewrite length_insert|].
  intros t Ht. destruct (decide (t = j)) as [->|]; [done|].
  unfold expand. rewrite nth_insert_ne; [apply Hinv; lia|].
  intros He%(f_equal Z.of_nat). rewrite !Nat2Z.inj_mod in He. dlia.
Qed.

Lemma bytes_of_length ws : length (bytes_of n ws) = (length ws * n)%nat.
Proof.
  unfold bytes_of. induction ws as [|w ws IH]; [done|]. rewrite fmap_cons. cbn [concat length].
  rewrite length_app, le_bytes_length, IH. lia.
Qed.

Lemma block_length_pos : (0 < B)%nat.
Proof. unfold block_length. destruct (sd_bytes V HV) as [-> | ->]; lia. Qed.

Lemma Transform_spec data st buffer :
  let src := default buffer data in
  length buffer = B -> (B <= length src)%nat -> bytes_ok (take B src) ->
  exists buffer', Transform V data st buffer = (compress V st (take B src), buffer') /\ length buffer' = B.
Proof.
  intros src Hbuf Hsrc Hok. unfold Transform.
  set (blk := block_words V 16 (take B src)).
  assert (blk = REVERSE V <$> words_of n 16 src) as Hblk.
  { unfold blk. rewrite block_words_eq; [|rewrite length_take; unfold block_length in *; lia|done].
    f_equal. clear. unfold block_length. remember 16%nat as k eqn:Hk. clear Hk.
    generalize dependent src. intros src. clear. revert src. induction k as [|k IH]; intros bs; [done|]. cbn [words_of].
    rewrite take_take, Nat.min_l by lia. f_equal. rewrite skipn_firstn_comm.
    replace (S k * n - n)%nat with (k * n)%nat by lia. apply IH. }
  assert (length blk = 16%nat) as Hl16 by apply block_words_length.
  set (Wf := schedule V (nrounds V - 16) blk).
  destruct (load_rounds_spec (words_of n 16 src) (words_of n 16 <$> data) Wf 16 (words_of_length _ _ _)) with
    (j := 0%nat) (W := words_of n 16 buffer) (r := regs_of st) as (W1 & -> & HW1 & Hn1).
  { intros t Ht. unfold Wf. rewrite nth_schedule_low, Hblk, nth_fmap_in by (rewrite ?words_of_length; lia). done. }
  { done. }
  { apply words_of_length. }
  { lia. }
  { intros t Ht. unfold src. by destruct data. }
  destruct (expand_rounds_spec (nrounds V - 16) blk (nrounds V - 16) Hl16 16 W1 (run_rounds 16 0 Wf (regs_of st)))
    as (W2 & -> & HW2); [lia|done|done| |].
  { intros t Ht. rewrite Nat.mod_small by lia. apply Hn1. lia. }
  exists (bytes_of n W2). split; [|by rewrite bytes_of_length, HW2].
  f_equal. unfold compress. fold blk Wf. f_equal.
  pose proof (sd_rounds V HV). pose proof (sd_K V HV).
  assert (length Wf = nrounds V) as HWf by (unfold Wf; rewrite schedule_length; lia).
  rewrite run_rounds_zip by lia. rewrite HWf. symmetry.
  rewrite <- (Nat.sub_add 16 (nrounds V)) at 1 by lia. by rewrite Nat.add_comm, run_rounds_add.
Qed.

(** *** The unrolled transform *)

Lemma iter_unshift_shift k r : Nat.iter k shift (Nat.iter k unshift r) = r.
Proof.
  induction k as [|k IH]; [done|]. rewrite (Nat.iter_succ_r k regs shift), (Nat.iter_succ k regs unshift).
  assert (forall x, shift (unshift x) = x) as -> by by intros []. done.
Qed.

Lemma round_shift r k w : round V r k w = shift (ROUND V r k w).
Proof.
  unfold round, shift, ROUND, T2, uwrap. cbn. f_equal. rewrite Zplus_mod_idemp_r. f_equal. lia.
Qed.

Lemma iter_shift_mod j r : Nat.iter (S j mod 8) shift r = Nat.iter (S (j mod 8)) shift r.
Proof.
  assert (j mod 8 < 8)%nat by (apply Nat.mod_upper_bound; lia).
  destruct (decide (j mod 8 = 7)%nat) as [He|].
  - replace (S j mod 8)%nat with 0%nat; [rewrite He; by destruct r|].
    apply Nat2Z.inj. apply (f_equal Z.of_nat) in He. rewrite !Nat2Z.inj_mod in *. dlia.
  - f_equal. assert (Z.of_nat (j mod 8) <> 7) by lia. apply Nat2Z.inj. rewrite Nat2Z.inj_succ.
    rewrite !Nat2Z.inj_mod in *. dlia.
Qed.

Lemma ROUND_at_shift j r k w :
  Nat.iter (S j mod 8) shift (ROUND_at V j r k w) = round V (Nat.iter (j mod 8) shift r) k w.
Proof. rewrite iter_shift_mod, round_shift. cbn [Nat.iter nat_rect]. f_equal. apply iter_unshift_shift. Qed.

Lemma unrolled_load_eq m data j W r :
  load_rounds V m j data W (Nat.iter (j mod 8) shift r) =
  prod_map id (Nat.iter ((m + j) mod 8) shift) (unrolled_load_rounds V m j data W r).
Proof.
  revert j W r. induction m as [|m IH]; intros j W r; [done|]. cbn [load_rounds unrolled_load_rounds].
  rewrite <- ROUND_at_shift, IH. by rewrite Nat.add_succ_r.
Qed.

Lemma unrolled_expand_eq m j W r :
  expand_rounds V m j W (Nat.iter (j mod 8) shift r) =
  prod_map id (Nat.iter ((m + j) mod 8) shift) (unrolled_expand_rounds V m j W r).
Proof.
  revert j W r. induction m as [|m IH]; intros j W r; [done|]. cbn [expand_rounds unrolled_expand_rounds].
  rewrite <- ROUND_at_shift, IH. by rewrite Nat.add_succ_r.
Qed.

Lemma unrolled_Transform_eq data st buffer :
  (nrounds V mod 8 = 0)%nat -> unrolled_Transform V data st buffer = Transform V data st buffer.
Proof.
  intros H8. unfold unrolled_Transform, Transform.
  pose proof (unrolled_load_eq 16 (words_of n 16 <$> data) 0 (words_of n 16 buffer) (regs_of st)) as E1.
  change (0 mod 8)%nat with 0%nat in E1. change ((16 + 0) mod 8)%nat with 0%nat in E1.
  cbn [Nat.iter nat_rect] in E1. rewrite E1. clear E1.
  destruct (unrolled_load_rounds V 16 0 _ _ _) as [W r]. cbn [prod_map id fst snd]. cbv beta iota.
  pose proof (unrolled_expand_eq (nrounds V - 16) 16 W r) as E2.
  pose proof (sd_rounds V HV). rewrite Nat.sub_add, H8 in E2 by done. change (16 mod 8)%nat with 0%nat in E2.
  cbn [Nat.iter nat_rect] in E2. change (Nat.iter 0 shift r) with r. rewrite E2. clear E2. by destruct (unrolled_expand_rounds V _ _ _ _).
Qed.
End transform.

(** ** Bit counters *)

Class BitCounter {C : Type} (add : C -> Z -> C) (low : C -> Z) := {
  bits : C -> Z;
  counter_ok : C -> Prop;
  capacity : Z;
  capacity_words : exists k, capacity = 2 ^ 64 * k /\ 0 < k;
  add_ok c n : counter_ok c -> in_u 64 n -> counter_ok (add c n);
  bits_add c n : counter_ok c -> in_u 64 n -> bits (add c n) = (bits c + n) mod capacity;
  low_bits c : counter_ok c -> low c = bits c mod 2 ^ 64;
}.

#[export, refine] Instance counter_256 : BitCounter (λ b n, u64 (b + n)) id := {
  bits c := c; counter_ok := in_u 64; capacity := 2 ^ 64;
}.
Proof.
  - by exists 1.
  - intros. by apply in_u_uwrap.
  - done.
  - intros c Hc. by rewrite Z.mod_small.
Defined.

#[export, refine] Instance counter_512 : BitCounter ADDINC128 fst := {
  bits c := c.1 + 2 ^ 64 * c.2; counter_ok c := in_u 64 c.1 /\ in_u 64 c.2; capacity := 2 ^ 128;
}.
Proof.
  - by exists (2 ^ 64).
  - intros [w0 w1] n [H0 H1] Hn. unfold ADDINC128. cbn. split; [by apply in_u_uwrap|].
    case_bool_decide; [by apply in_u_uwrap|done].
  - intros [w0 w1] n [H0 H1] Hn. unfold ADDINC128, uwrap, in_u in *. cbn [fst snd] in *.
    change (2 ^ 128) with (2 ^ 64 * 2 ^ 64). case_bool_decide; dlia.
  - intros [w0 w1] [H0 H1]. cbn [fst snd] in *. dlia.
Defined.

(** ** Absorbing a message *)

Section update.
Context (V : variant) (HV : sound V) {C : Type} (add : C -> Z -> C) (low : C -> Z) `{!BitCounter add low}.
Context (H : list Z).
Local Abbreviation B := (block_length V).

Local Abbreviation tail_of := (tail_of B).
Local Abbreviation whole := (whole (compress V) B).
Local Abbreviation HB := (block_length_pos V HV).

(** A context that has absorbed the message [m]. *)
Record represents (m : bytes) (c : context C) : Prop := {
  rep_state : c_state c = whole H m;
  rep_counter : counter_ok (c_bitcount c);
  rep_count : bits (c_bitcount c) = 8 * Z.of_nat (length m) mod capacity;
  rep_length : length (c_buffer c) = B;
  rep_buffer : holds (c_buffer c) (tail_of m);
}.

Lemma usedspace_spec m c : represents m c -> usedspace V low c = length (tail_of m).
Proof.
  intros Hr. rewrite tail_of_length by apply HB. unfold usedspace. rewrite (low_bits (c_bitcount c)), (rep_count _ _ Hr) by apply Hr.
  destruct capacity_words as (k & -> & Hk).
  assert ((8 * Z.of_nat (length m)) mod (2 ^ 64 * k) mod 2 ^ 64 = (8 * Z.of_nat (length m)) mod 2 ^ 64) as ->.
  { rewrite Z.rem_mul_r by lia. rewrite (Z.mul_comm (2 ^ 64) (_ mod k)), Z_mod_plus_full. apply Zmod_mod. }
  rewrite Z.shiftr_div_pow2 by done. apply Nat2Z.inj. rewrite Nat2Z.inj_mod.
  pose proof HB. rewrite Z2Nat.id by (apply Z.mod_pos_bound; lia).
  unfold block_length. destruct (sd_bytes V HV) as [-> | ->]; dlia.
Qed.

Lemma rep_count_step m c x :
  represents m c -> (length x <= B)%nat ->
  counter_ok (add (c_bitcount c) (Z.of_nat (length x) .<< 3)) /\
  bits (add (c_bitcount c) (Z.of_nat (length x) .<< 3)) = 8 * Z.of_nat (length (m ++ x)) mod capacity.
Proof.
  intros Hr Hx. assert (in_u 64 (Z.of_nat (length x) .<< 3)) as Hn.
  { rewrite Z.shiftl_mul_pow2 by done. unfold in_u, block_length in *. destruct (sd_bytes V HV) as [E|E]; rewrite E in *; lia. }
  split; [apply add_ok; [apply Hr|done]|]. rewrite (bits_add (c_bitcount c)) by (done || apply Hr). rewrite (rep_count _ _ Hr).
  rewrite Zplus_mod_idemp_l, Z.shiftl_mul_pow2, length_app by done. f_equal. lia.
Qed.

(** Bytes that do not fill the block. *)
Lemma append_part m c x :
  represents m c -> (length (tail_of m) + length x < B)%nat ->
  represents (m ++ x) (ctx_count add (length x) (ctx_copy (length (tail_of m)) x c)).
Proof.
  intros Hr Hl. destruct (rep_count_step m c x Hr) as [Hc Hb]; [lia|].
  split; cbn [c_state c_bitcount c_buffer ctx_count ctx_copy]; [|done|done| |].
  - rewrite whole_part by (done || apply HB). apply Hr.
  - rewrite length_splice; [apply Hr|]. rewrite (rep_length _ _ Hr). lia.
  - rewrite tail_part by (done || apply HB). apply holds_splice; [rewrite (rep_length _ _ Hr); lia|apply Hr].
Qed.

(** A transform of a block that completes the message to [m ++ x]. *)
Lemma transform_full m x c data :
  let blk := take B (default (c_buffer c) data) in
  (length (tail_of m) + length x = B)%nat -> blk = tail_of m ++ x -> bytes_ok (m ++ x) ->
  c_state c = whole H m -> length (c_buffer c) = B ->
  counter_ok (c_bitcount c) ->
  exists c', ctx_transform V data c = c' /\ c_state c' = whole H (m ++ x) /\
    c_bitcount c' = c_bitcount c /\ length (c_buffer c') = B.
Proof.
  intros blk Hl Hblk Hok Hst Hbuf Hc.
  destruct (Transform_spec V HV data (c_state c) (c_buffer c)) as (buf & HT & Hlen); [done| | |].
  - assert (length blk = B) as Hb by (rewrite Hblk, length_app; lia). unfold blk in Hb. rewrite length_take in Hb. lia.
  - fold blk. rewrite Hblk. unfold bytes_ok, Blocks.tail_of in *. rewrite Forall_app in *. destruct Hok.
    split; [by apply Forall_drop|done].
  - eexists. split; [done|]. unfold ctx_transform. rewrite HT. cbn [c_state c_bitcount c_buffer].
    split; [|done]. fold blk. rewrite Hblk, Hst. symmetry. by apply whole_full; [apply HB|].
Qed.

(** Bytes that complete the buffered block. *)
Lemma append_full m c x :
  represents m c -> (length (tail_of m) + length x = B)%nat -> bytes_ok (m ++ x) ->
  represents (m ++ x) (ctx_transform V None (ctx_count add (length x) (ctx_copy (length (tail_of m)) x c))).
Proof.
  intros Hr Hl Hok. destruct (rep_count_step m c x Hr) as [Hc Hb]; [lia|].
  assert (length (splice (c_buffer c) (length (tail_of m)) x) = B) as Hlen.
  { rewrite length_splice; rewrite (rep_length _ _ Hr); lia. }
  destruct (transform_full m x (ctx_count add (length x) (ctx_copy (length (tail_of m)) x c)) None)
    as (c' & -> & Hst & Hcnt & Hbuf); cbn [c_state c_bitcount c_buffer ctx_count ctx_copy default from_option id] in *; try done.
  - rewrite take_ge by lia. apply holds_all; [|rewrite length_app; lia].
    apply holds_splice; [rewrite (rep_length _ _ Hr); lia|apply Hr].
  - apply Hr.
  - split; rewrite ?Hcnt; try done. by rewrite tail_full by (done || apply HB).
Qed.

(** A block taken from the data itself. *)
Lemma append_block m c data :
  represents m c -> tail_of m = [] -> (B <= length data)%nat -> bytes_ok (m ++ data) ->
  represents (m ++ take B data) (ctx_count add B (ctx_transform V (Some data) c)).
Proof.
  intros Hr Ht Hl Hok. assert (length (take B data) = B) as Hlen by (rewrite length_take; lia).
  destruct (rep_count_step m c (take B data) Hr) as [Hc Hb]; [lia|]. rewrite Hlen in Hc, Hb.
  destruct (transform_full m (take B data) c (Some data)) as (c' & -> & Hst & Hcnt & Hbuf).
  - rewrite Ht. done.
  - by rewrite Ht.
  - unfold bytes_ok in *. rewrite Forall_app in *. destruct Hok. split; [done|by apply Forall_take].
  - apply Hr.
  - apply Hr.
  - apply Hr.
  - split; cbn [c_state c_bitcount c_buffer ctx_count]; rewrite ?Hcnt; try done.
    by rewrite tail_full by (rewrite ?Ht; done || apply HB).
Qed.

Lemma update_blocks_spec k m c data :
  represents m c -> tail_of m = [] -> bytes_ok (m ++ data) -> (length data / B = k)%nat ->
  represents (m ++ data) (update_blocks V add k data c).
Proof.
  pose proof HB as HB'.
  revert m c data. induction k as [|k IH]; intros m c data Hr Ht Hok Hk; cbn [update_blocks].
  - apply Nat.div_small_iff in Hk; [|lia]. case_bool_decide as Hd.
    + replace 0%nat with (length (tail_of m)) by by rewrite Ht. apply append_part; [done|]. by rewrite Ht.
    + destruct data; [by rewrite app_nil_r|cbn in Hd; lia].
  - assert (B <= length data)%nat as Hl. { destruct (decide (B <= length data)%nat); [done|]. rewrite Nat.div_small in Hk; lia. }
    rewrite <- (take_drop B data) at 1. rewrite app_assoc. apply IH.
    + by apply append_block.
    + apply tail_full; [done|]. rewrite Ht, length_take. cbn [length]. lia.
    + by rewrite <- app_assoc, take_drop.
    + rewrite length_drop. replace (length data) with (length data - B + 1 * B)%nat in Hk by lia.
      rewrite Nat.div_add in Hk by lia. lia.
Qed.

Lemma Update_spec m c data :
  represents m c -> bytes_ok (m ++ data) -> represents (m ++ data) (Update V add low c data).
Proof.
  intros Hr Hok. unfold Update. case_bool_decide as H0; [apply nil_length_inv in H0 as ->; by rewrite app_nil_r|].
  rewrite (usedspace_spec m c Hr). pose proof (tail_of_lt B HB m) as Htl.
  case_bool_decide as Hu; [|apply update_blocks_spec; [done| |done|done]; apply nil_length_inv; lia].
  case_bool_decide as Hf; [|apply append_part; [done|lia]].
  set (k := (B - length (tail_of m))%nat) in *. cbv zeta.
  assert (length (take k data) = k) as Hk by (rewrite length_take; lia).
  rewrite <- (take_drop k data) at 1. rewrite app_assoc. apply update_blocks_spec.
  - pose proof (append_full m c (take k data) Hr) as Hfull. rewrite Hk in Hfull. apply Hfull; [lia|]. rewrite <- (take_drop k data), app_assoc in Hok.
    by apply Forall_app in Hok as [? _].
  - apply tail_full; [apply HB|lia].
  - by rewrite <- app_assoc, take_drop.
  - done.
Qed.

(** *** Padding *)

Lemma padding_zeros (L l : nat) (u : nat) :
  (u = L mod B)%nat -> (0 < l < B)%nat ->
  Z.to_nat (- Z.of_nat (L + 1 + l) mod Z.of_nat B) =
    if decide (u + 1 + l <= B)%nat then (B - (u + 1 + l))%nat else (2 * B - (u + 1 + l))%nat.
Proof.
  intros Hu Hl. pose proof HB as HB'. pose proof (Nat.div_mod_eq L B) as HL.
  assert (u < B)%nat by (subst u; apply Nat.mod_upper_bound; lia).
  apply Nat2Z.inj. rewrite Z2Nat.id by (apply Z.mod_pos_bound; lia). symmetry. case_decide.
  - apply (Z.mod_unique_pos _ _ (- Z.of_nat (L / B) - 1)); nia.
  - apply (Z.mod_unique_pos _ _ (- Z.of_nat (L / B) - 2)); nia.
Qed.

Lemma transform_buffer (c : context C) blk :
  length blk = B -> holds (c_buffer c) blk -> length (c_buffer c) = B -> bytes_ok blk ->
  c_state (ctx_transform V None c) = compress V (c_state c) blk /\
  length (c_buffer (ctx_transform V None c)) = B.
Proof.
  intros Hl Hh Hbuf Hok. assert (c_buffer c = blk) as He by (apply holds_all; congruence).
  unfold ctx_transform. destruct (Transform_spec V HV None (c_state c) (c_buffer c)) as (buf & -> & Hb);
    cbn [default from_option id c_state c_buffer] in *; rewrite ?(take_ge (c_buffer c)) by lia; rewrite ?He; try done.
  lia.
Qed.

Section finish.
Context (wipe : nat) (m : bytes) (c : context C) (Hr : represents m c) (Hok : bytes_ok m).
Local Abbreviation l := (2 * wbytes V)%nat.
Local Abbreviation short := (B - l)%nat.
Context (Hwipe : (short <= wipe <= B)%nat).
Local Abbreviation zeros := (Z.to_nat (- Z.of_nat (length m + 1 + l) mod Z.of_nat B)).
Local Abbreviation msg := (tail_of m ++ [0x80] ++ replicate zeros 0).

(** The context before the length is stored: whole blocks [blks] have been compressed and
    the buffer holds the [short] bytes [p] that follow. *)
Definition prepared (c1 : context C) : Prop :=
  exists k blks p, msg = blks ++ p /\ length blks = (k * B)%nat /\ length p = short /\
    c_state c1 = fold_blocks (compress V) B k (c_state c) blks /\ length (c_buffer c1) = B /\ holds (c_buffer c1) p.

Lemma bytes_ok_msg : bytes_ok msg.
Proof.
  unfold bytes_ok in *. rewrite !Forall_app. split; [by apply Forall_drop|]. split; [by repeat constructor|by apply Forall_replicate].
Qed.

Lemma sizes : (0 < l < B)%nat /\ (length (tail_of m) < B)%nat.
Proof. pose proof HB. split; [unfold block_length in *; lia|apply tail_of_lt, HB]. Qed.

(** The marker fits before the length. *)
Lemma prepared_short :
  (S (length (tail_of m)) <= short)%nat ->
  prepared (ctx_zero (S (length (tail_of m))) (short - S (length (tail_of m))) (ctx_copy (length (tail_of m)) [0x80] c)).
Proof.
  intros Hs. destruct sizes as [Hl Ht]. set (u := length (tail_of m)) in *.
  assert (zeros = (short - S u)%nat) as Hz.
  { rewrite (padding_zeros _ _ u) by (done || (apply tail_of_length, HB)). rewrite decide_True by lia. lia. }
  assert (length (c_buffer c) = B) as HBc by apply Hr.
  exists 0%nat, [], msg. split; [done|]. split; [done|].
  split; [rewrite !length_app, length_replicate, Hz; cbn [length]; fold u; lia|]. split; [done|].
  unfold ctx_zero, ctx_copy. cbn [c_buffer]. rewrite Hz, app_assoc.
  assert (length (splice (c_buffer c) u [0x80]) = B) as HB1 by (rewrite length_splice; cbn [length]; lia).
  split; [rewrite length_splice; rewrite ?length_replicate; lia|].
  replace (S u) with (length (tail_of m ++ [0x80])) at 1 by (rewrite length_app; cbn [length]; fold u; lia).
  apply holds_splice; [rewrite length_app, length_replicate; cbn [length]; fold u; lia|].
  apply holds_splice; [cbn [length]; fold u; lia|apply Hr].
Qed.

(** It does not: one more block is compressed. *)
Lemma prepared_long :
  let u := length (tail_of m) in
  let c0 := ctx_copy u [0x80] c in
  (short < S u)%nat ->
  prepared (ctx_zero 0 wipe (ctx_transform V None
    (if bool_decide (S u < B)%nat then ctx_zero (S u) (B - S u) c0 else c0))).
Proof.
  intros u c0 Hs. destruct sizes as [Hl Ht]. fold u in Ht.
  assert (zeros = (B - S u) + short)%nat as Hz.
  { rewrite (padding_zeros _ _ u) by (done || (apply tail_of_length, HB)). rewrite decide_False by lia. lia. }
  assert (length (c_buffer c) = B) as HBc by apply Hr.
  set (blk := tail_of m ++ [0x80] ++ replicate (B - S u) 0).
  assert (length blk = B) as Hblk.
  { unfold blk. rewrite !length_app, length_replicate. cbn [length]. fold u. lia. }
  assert (msg = blk ++ replicate short 0) as Hmsg.
  { unfold blk. by rewrite Hz, replicate_add, !app_assoc. }
  assert (holds (c_buffer c0) (tail_of m ++ [0x80])) as Hh0.
  { apply holds_splice; [cbn [length]; fold u; lia|apply Hr]. }
  assert (length (c_buffer c0) = B) as HB0.
  { unfold c0, ctx_copy. cbn [c_buffer]. rewrite length_splice; cbn [length]; lia. }
  set (c2 := if bool_decide _ then _ else _).
  assert (c_state c2 = c_state c /\ holds (c_buffer c2) blk /\ length (c_buffer c2) = B) as (Hst & Hh & Hb).
  { unfold c2. case_bool_decide as Hu.
    - unfold ctx_zero, ctx_copy. cbn [c_state c_buffer]. split; [done|]. unfold blk. rewrite app_assoc.
      split; [|rewrite length_splice; rewrite ?length_replicate; lia].
      replace (S u) with (length (tail_of m ++ [0x80])) at 1 by (rewrite length_app; cbn [length]; fold u; lia).
      apply holds_splice; [rewrite length_app, length_replicate; cbn [length]; fold u; lia|done].
    - unfold blk. replace (B - S u)%nat with 0%nat by lia. cbn [replicate]. by rewrite app_nil_r. }
  destruct (transform_buffer c2 blk) as [Hst2 Hb2]; [done|done|done| |].
  { pose proof bytes_ok_msg as Hm. rewrite Hmsg in Hm. by apply Forall_app in Hm as [? _]. }
  exists 1%nat, blk, (replicate short 0). split; [done|]. split; [lia|]. split; [apply length_replicate|].
  unfold ctx_zero, ctx_copy. cbn [c_state c_buffer fold_blocks]. rewrite Hst2, Hst, take_ge by lia. split; [done|].
  split; [rewrite length_splice; rewrite ?length_replicate; lia|].
  assert (holds (splice (c_buffer (ctx_transform V None c2)) 0 (replicate wipe 0)) (replicate wipe 0)) as Hw.
  { apply (holds_splice _ []); [rewrite length_replicate; cbn [length]; lia|done]. }
  apply (holds_take _ _ short) in Hw. by rewrite take_replicate, Nat.min_l in Hw by lia.
Qed.

(** Nothing is buffered. *)
Lemma prepared_empty : tail_of m = [] -> prepared (ctx_copy 0 [0x80] (ctx_zero 0 short c)).
Proof.
  intros Ht. destruct sizes as [Hl _]. assert (length (c_buffer c) = B) as HBc by apply Hr.
  assert (0 < short)%nat as Hs by (unfold block_length in *; lia).
  assert (zeros = short - 1)%nat as Hz.
  { rewrite (padding_zeros _ _ 0) by (rewrite <- ?(tail_of_length B HB), ?Ht; done). rewrite decide_True by lia. lia. }
  exists 0%nat, [], msg. split; [done|]. split; [done|]. rewrite Ht, Hz.
  split; [cbn [length app]; rewrite length_replicate; lia|]. split; [done|].
  unfold ctx_zero, ctx_copy. cbn [c_buffer].
  assert (length (splice (c_buffer c) 0 (replicate short 0)) = B) as HB1 by (rewrite length_splice; rewrite ?length_replicate; lia).
  split; [rewrite length_splice; cbn [length]; lia|].
  unfold holds, splice. rewrite !take_0, !app_nil_l, !length_replicate. cbn [length app Nat.add].
  rewrite length_replicate. destruct short as [|k]; [lia|]. cbn [replicate app drop]. replace (S k - 1)%nat with k by lia.
  cbn [take]. by rewrite drop_0, take_app_length' by by rewrite length_replicate.
Qed.

Lemma finish_spec len :
  len = be_bytes l (8 * Z.of_nat (length m)) ->
  c_state (finish V low short wipe len c) = whole H (pad V m).
Proof.
  intros Hlen. destruct sizes as [Hl _]. unfold finish. rewrite (usedspace_spec m c Hr).
  set (c1 := if bool_decide (0 < _)%nat then _ else _).
  assert (prepared c1) as (k & blks & p & Hmsg & Hbl & Hp & Hst & Hb & Hh).
  { unfold c1. case_bool_decide as Hu; [|apply prepared_empty, nil_length_inv; lia].
    cbv zeta. case_bool_decide; [by apply prepared_short|apply prepared_long; lia]. }
  assert (length len = l) as Hll by (subst len; unfold be_bytes; by rewrite length_rev, le_bytes_length).
  pose proof bytes_ok_msg as Hm. rewrite Hmsg in Hm. apply Forall_app in Hm as [_ Hpok].
  destruct (transform_buffer (ctx_copy short len c1) (p ++ len)) as [-> _].
  - rewrite length_app. lia.
  - rewrite <- Hp. apply holds_splice; [lia|done].
  - cbn [ctx_copy c_buffer]. rewrite length_splice; lia.
  - apply Forall_app. split; [done|]. subst len. apply bytes_ok_rev, le_bytes_ok.
  - cbn [ctx_copy c_state]. rewrite Hst.
    assert (pad V m = (take (length m / B * B) m ++ blks) ++ p ++ len) as ->.
    { unfold pad. rewrite <- app_assoc, (app_assoc blks p), <- Hmsg, Hlen.
      rewrite <- (take_whole_tail B m) at 1. by rewrite <- !app_assoc. }
    assert (tail_of (take (length m / B * B) m) = []) as Ht0.
    { apply nil_length_inv. rewrite tail_of_length, length_take, Nat.min_l by (apply HB || apply whole_le).
      apply Nat.Div0.mod_mul. }
    rewrite (whole_blocks _ _ HB _ _ 1) by (try (by eapply tail_blocks; [apply HB|..]); rewrite length_app; lia).
    rewrite (whole_blocks _ _ HB _ _ k) by done. cbn [fold_blocks].
    rewrite (take_ge (p ++ len)) by (rewrite length_app; lia). do 2 f_equal.
    rewrite (rep_state _ _ Hr). rewrite <- (take_whole_tail B m) at 1.
    destruct (decide (tail_of m = [])) as [->|]; [by rewrite app_nil_r|].
    apply whole_part; [apply HB|]. rewrite Ht0. apply tail_of_lt, HB.
Qed.
End finish.
End update.

(** ** Digests *)

Section digest.
Context (V : variant) (HV : sound V).

Lemma compress_range st blk : Forall (in_u (width V)) (compress V st blk).
Proof.
  unfold compress, add_state.
  generalize (list_of (foldl (λ r kw, round V r kw.1 kw.2) (regs_of st)
    (zip (Kw V) (schedule V (nrounds V - 16) (block_words V 16 blk))))).
  revert st. assert (0 <= width V) by (rewrite (sd_width V HV); lia).
  intros st l. revert l. induction st as [|x st IH]; intros [|y l]; cbn; auto using in_u_uwrap.
Qed.

Lemma fold_blocks_range k st m :
  (0 < k)%nat -> Forall (in_u (width V)) (fold_blocks (compress V) (block_length V) k st m).
Proof.
  revert st m. induction k as [|[|k] IH]; intros st m Hk; [lia|apply compress_range|]. cbn [fold_blocks] in *. apply IH. lia.
Qed.

Lemma pad_blocks m : (0 < length (pad V m) / block_length V)%nat.
Proof.
  pose proof (block_length_pos V HV) as HB. unfold pad. apply Nat.div_str_pos.
  split; [done|]. rewrite !length_app, length_replicate. unfold be_bytes. rewrite length_rev, le_bytes_length. cbn [length].
  set (x := (length m + 1 + 2 * wbytes V)%nat).
  pose proof (Z.div_mod (- Z.of_nat x) (Z.of_nat (block_length V)) ltac:(lia)) as Hd.
  pose proof (Z.mod_pos_bound (- Z.of_nat x) (Z.of_nat (block_length V)) ltac:(lia)) as Hm.
  set (q := - Z.of_nat x / Z.of_nat (block_length V)) in *.
  assert (q < 0) as Hq by (apply Z.div_lt_upper_bound; lia). nia.
Qed.

(** The digest stored by [SHA256_Final] and [SHA512_Final]. *)
Lemma digest_bytes ws :
  Forall (in_u (width V)) ws -> bytes_of (wbytes V) (REVERSE V <$> ws) = concat (be_bytes (wbytes V) <$> ws).
Proof.
  unfold bytes_of. induction 1 as [|w ws Hw _ IH]; [done|]. rewrite !fmap_cons. cbn [concat]. f_equal; [|done].
  apply reverse_store; [apply HV|]. by rewrite <- (sd_width V HV).
Qed.

Lemma hash_eq st H m :
  st = whole (compress V) (block_length V) H (pad V m) ->
  bytes_of (wbytes V) (REVERSE V <$> st) = hash V H m.
Proof. intros ->. rewrite digest_bytes by apply fold_blocks_range, pad_blocks. done. Qed.

Lemma represents_init {C} (add : C -> Z -> C) (low : C -> Z) `{!BitCounter add low} H z :
  counter_ok z -> bits z = 0 -> represents V add low H [] (Build_context H z (replicate (block_length V) 0)).
Proof.
  intros Hz Hb. pose proof (block_length_pos V HV). split; cbn [c_state c_bitcount c_buffer length].
  - by rewrite whole_nil.
  - done.
  - by rewrite Hb, Z.mod_0_l by (destruct (capacity_words (add := add) (low := low)) as (k & -> & ?); lia).
  - apply length_replicate.
  - by rewrite tail_nil.
Qed.

Lemma represents_updates {C} (add : C -> Z -> C) (low : C -> Z) `{!BitCounter add low} H chunks m c :
  represents V add low H m c -> bytes_ok m -> Forall bytes_ok chunks ->
  represents V add low H (m ++ concat chunks) (foldl (Update V add low) c chunks).
Proof.
  intros Hr Hm Hc. revert m c Hr Hm. induction Hc as [|x chunks Hx _ IH]; intros m c Hr Hm; cbn [concat foldl].
  - by rewrite app_nil_r.
  - rewrite app_assoc. apply IH; [apply Update_spec; [done|done|]|]; by apply Forall_app.
Qed.
End digest.

Lemma final_256 m c :
  represents V256 (λ b n, u64 (b + n)) id sha256_initial_hash_value m c -> bytes_ok m ->
  8 * Z.of_nat (length m) < 2 ^ 64 -> SHA256_Final true c = (Some (sha256 m), ctx_clear V256 0).
Proof.
  intros Hr Hm Hl. unfold SHA256_Final. f_equal. f_equal. apply (hash_eq V256 sound_256).
  assert (c_bitcount c = 8 * Z.of_nat (length m)) as Hb.
  { pose proof (rep_count _ _ _ _ _ _ Hr) as Hc. cbn [bits capacity counter_256] in Hc. rewrite Hc. apply Z.mod_small. lia. }
  change SHA256_SHORT_BLOCK_LENGTH with (block_length V256 - 2 * wbytes V256)%nat.
  apply (finish_spec V256 sound_256 _ _ _ _ m c Hr Hm); [cbn; lia|].
  rewrite Hb. apply reverse_store; [apply REVERSE64_be|]. unfold in_u. cbn. lia.
Qed.

Lemma last_512 H m c :
  represents V512 ADDINC128 fst H m c -> bytes_ok m -> 8 * Z.of_nat (length m) < 2 ^ 128 ->
  c_state (SHA512_Last c) = whole (compress V512) (block_length V512) H (pad V512 m).
Proof.
  intros Hr Hm Hl. unfold SHA512_Last.
  pose proof (rep_count _ _ _ _ _ _ Hr) as Hc. cbn [bits capacity counter_512] in Hc.
  rewrite Z.mod_small in Hc by lia. destruct (rep_counter _ _ _ _ _ _ Hr) as [H0 H1].
  change SHA512_SHORT_BLOCK_LENGTH with (block_length V512 - 2 * wbytes V512)%nat.
  apply (finish_spec V512 sound_512 _ _ _ _ m c Hr Hm); [cbn; lia|].
  rewrite !(reverse_store 8 REVERSE64) by (apply REVERSE64_be || done).
  change (2 * wbytes V512)%nat with (8 + 8)%nat. unfold be_bytes. rewrite le_bytes_add, rev_app_distr, <- Hc.
  f_equal; f_equal.
  - f_equal. rewrite Z.shiftr_div_pow2 by done. cbn [Z.of_nat]. dlia.
  - rewrite (le_bytes_mod 8 (_ + _)). f_equal. cbn [Z.of_nat]. dlia.
Qed.

Lemma bytes_of_take n k ws : bytes_of n (take k ws) = take (k * n) (bytes_of n ws).
Proof.
  unfold bytes_of. revert ws. induction k as [|k IH]; intros ws; [done|].
  destruct ws as [|w ws]; [cbn [take fmap list_fmap concat]; by rewrite take_nil|].
  cbn [take]. rewrite !fmap_cons. cbn [concat]. rewrite IH. change (S k * n)%nat with (n + k * n)%nat.
  pose proof (take_app_add (le_bytes n w) (concat (le_bytes n <$> ws)) (k * n)) as Ht.
  rewrite le_bytes_length in Ht. by rewrite Ht.
Qed.

(** C13: SHA-256.  However a message is cut into the pieces given to [SHA256_Update], the
    digest stored by [SHA256_Final] is the one the Secure Hash Standard defines for the
    whole message, and the context is cleared; [SHA256_Data] gives its text. *)
Theorem SHA256_correct (chunks : list bytes) :
  Forall bytes_ok chunks -> 8 * Z.of_nat (length (concat chunks)) < 2 ^ 64 ->
  SHA256_Final true (foldl SHA256_Update SHA256_Init chunks) = (Some (sha256 (concat chunks)), ctx_clear V256 0) /\
  SHA256_Data (concat chunks) = Some (hex_string (sha256 (concat chunks))).
Proof.
  intros Hok Hl.
  assert (represents V256 (λ b n, u64 (b + n)) id sha256_initial_hash_value [] SHA256_Init) as Hinit
    by (apply (represents_init V256 sound_256); [split|]; done).
  assert (bytes_ok (concat chunks)) as Hm by by apply Forall_concat.
  split.
  - apply final_256; [|done|done].
    apply (represents_updates V256 sound_256 _ _ _ chunks []); [exact Hinit|constructor|exact Hok].
  - unfold SHA256_Data, SHA256_End. rewrite (final_256 (concat chunks)); [done| |done|done].
    apply (Update_spec V256 sound_256 _ _ _ []); [exact Hinit|exact Hm].
Qed.

Lemma SHA256_correct_witness :
  SHA256_Final true (foldl SHA256_Update SHA256_Init [replicate 60 97; [98; 99]; replicate 70 100]) =
  (Some (sha256 (concat [replicate 60 97; [98; 99]; replicate 70 100])), ctx_clear V256 0).
Proof.
  apply (SHA256_correct [replicate 60 97; [98; 99]; replicate 70 100]); [|done].
  repeat constructor; try done; by apply Forall_replicate.
Defined.

(** SHA-512 and SHA-384.  The same for the 64-bit digests, whose bit count spans two
    words; SHA-384 is the first 48 bytes of the digest from its own initial value. *)
Theorem SHA512_correct (chunks : list bytes) :
  Forall bytes_ok chunks -> 8 * Z.of_nat (length (concat chunks)) < 2 ^ 128 ->
  SHA512_Final true (foldl SHA512_Update SHA512_Init chunks) =
    (Some (sha512 (concat chunks)), ctx_clear V512 (0, 0)) /\
  SHA384_Final true (foldl SHA384_Update SHA384_Init chunks) =
    (Some (sha384 (concat chunks)), ctx_clear V512 (0, 0)).
Proof.
  intros Hok Hl. assert (bytes_ok (concat chunks)) as Hm by by apply Forall_concat.
  assert (forall H, represents V512 ADDINC128 fst H (concat chunks)
    (foldl SHA512_Update (Build_context H (0, 0) (replicate (block_length V512) 0)) chunks)) as Hr.
  { intros H. apply (represents_updates V512 sound_512 _ _ _ chunks []); [|constructor|exact Hok].
    apply (represents_init V512 sound_512); [split; split|]; done. }
  split.
  - unfold SHA512_Final. f_equal. f_equal. apply (hash_eq V512 sound_512). by apply last_512.
  - unfold SHA384_Final, sha384. f_equal. f_equal.
    rewrite <- (hash_eq V512 sound_512 _ _ _ (last_512 _ _ _ (Hr sha384_initial_hash_value) Hm Hl)).
    change 48%nat with (6 * wbytes V512)%nat. by rewrite <- bytes_of_take.
Qed.

Lemma SHA512_correct_witness :
  SHA384_Final true (foldl SHA384_Update SHA384_Init [replicate 100 97; replicate 50 98]) =
  (Some (sha384 (concat [replicate 100 97; replicate 50 98])), ctx_clear V512 (0, 0)).
Proof.
  apply (SHA512_correct [replicate 100 97; replicate 50 98]); [|done].
  repeat constructor; try done; by apply Forall_replicate.
Defined.

(** the unrolled transforms, which leave the eight working variables in place and
    rotate the arguments of the round macro, compute the same state and leave the same
    bytes in the buffer as the plain ones. *)
Theorem unrolled_transforms_agree (V : variant) (data : option bytes) (st : list Z) (buffer : bytes) :
  V = V256 \/ V = V512 -> unrolled_Transform V data st buffer = Transform V data st buffer.
Proof.
  intros [-> | ->]; apply unrolled_Transform_eq; (apply sound_256 || apply sound_512 || done).
Qed.

Lemma unrolled_transforms_agree_witness :
  unrolled_Transform V256 None sha256_initial_hash_value (replicate 64 97) =
  Transform V256 None sha256_initial_hash_value (replicate 64 97).
Proof. apply unrolled_transforms_agree. by left. Defined.

(** The reference on the test messages of the standard. *)
Example sha256_abc :
  take 8 (sha256 [97; 98; 99]) = [0xba; 0x78; 0x16; 0xbf; 0x8f; 0x01; 0xcf; 0xea].
Proof. by vm_compute. Qed.
Example sha512_abc :
  take 8 (sha512 [97; 98; 99]) = [0xdd; 0xaf; 0x35; 0xa1; 0x93; 0x61; 0x7a; 0xba].
Proof. by vm_compute. Qed.
Example sha384_abc :
  take 8 (sha384 [97; 98; 99]) = [0xcb; 0x00; 0x75; 0x3f; 0x45; 0xa3; 0x5e; 0x8b].
Proof. by vm_compute. Qed.
