(* ===== verification/Xxhash.v ===== *)
(** * Xxhash: the xxHash checksums

    The hash of src/sys/vfs/hammer2/xxhash/xxhash.c (version 0.6.0), with which HAMMER2
    blocks are checked: the one-shot functions [XXH32] and [XXH64], the streaming interface
    ([reset], [update], [digest]) and the canonical representation.  The byte order of the
    processor is a parameter, since the code promises the same hash on both; memory reads
    of the aligned and the unaligned variant give the same value.  The 32-bit and the 64-bit
    code have the same shape up to the final mixing: what they share is written once, over a
    [lane] width. *)

From S2P Require Import Prelude ByteOrder Blocks.

(** ** Memory reads *)

Inductive XXH_endianess := XXH_bigEndian | XXH_littleEndian.
Inductive XXH_alignment := XXH_aligned | XXH_unaligned.
#[export] Instance XXH_endianess_eq_dec : EqDecision XXH_endianess.
Proof. solve_decision. Defined.

(** An integer in memory, as the processor loads it. *)
Definition load (cpu : XXH_endianess) (n : nat) (p : bytes) : Z :=
  match cpu with
  | XXH_littleEndian => of_le (take n p)
  | XXH_bigEndian => of_be (take n p)
  end.
Definition XXH_read32 (cpu : XXH_endianess) (p : bytes) : Z := load cpu 4 p.
Definition XXH_read64 (cpu : XXH_endianess) (p : bytes) : Z := load cpu 8 p.

Definition XXH_rotl32 (x r : Z) : Z := u32 (x .<< r) .| (x .>> (32 - r)).
Definition XXH_rotl64 (x r : Z) : Z := u64 (x .<< r) .| (x .>> (64 - r)).

Definition XXH_swap32 (x : Z) : Z :=
  (u32 (x .<< 24) .& 0xff000000) .| (u32 (x .<< 8) .& 0x00ff0000) .|
  ((x .>> 8) .& 0x0000ff00) .| ((x .>> 24) .& 0x000000ff).
Definition XXH_swap64 (x : Z) : Z :=
  (u64 (x .<< 56) .& 0xff00000000000000) .| (u64 (x .<< 40) .& 0x00ff000000000000) .|
  (u64 (x .<< 24) .& 0x0000ff0000000000) .| (u64 (x .<< 8) .& 0x000000ff00000000) .|
  ((x .>> 8) .& 0x00000000ff000000) .| ((x .>> 24) .& 0x0000000000ff0000) .|
  ((x .>> 40) .& 0x000000000000ff00) .| ((x .>> 56) .& 0x00000000000000ff).

(** [XXH_CPU_LITTLE_ENDIAN] *)
Definition XXH_CPU_LITTLE_ENDIAN (cpu : XXH_endianess) : bool := bool_decide (cpu = XXH_littleEndian).

(** [endian] is the order the caller detected, [cpu] the one loads really use. *)
Definition XXH_readLE32_align (cpu endian : XXH_endianess) (align : XXH_alignment) (p : bytes) : Z :=
  match align with
  | XXH_unaligned => if bool_decide (endian = XXH_littleEndian) then XXH_read32 cpu p else XXH_swap32 (XXH_read32 cpu p)
  | XXH_aligned => if bool_decide (endian = XXH_littleEndian) then load cpu 4 p else XXH_swap32 (load cpu 4 p)
  end.
Definition XXH_readLE64_align (cpu endian : XXH_endianess) (align : XXH_alignment) (p : bytes) : Z :=
  match align with
  | XXH_unaligned => if bool_decide (endian = XXH_littleEndian) then XXH_read64 cpu p else XXH_swap64 (XXH_read64 cpu p)
  | XXH_aligned => if bool_decide (endian = XXH_littleEndian) then load cpu 8 p else XXH_swap64 (load cpu 8 p)
  end.
Definition XXH_readLE32 (cpu endian : XXH_endianess) (p : bytes) : Z := XXH_readLE32_align cpu endian XXH_unaligned p.
Definition XXH_readLE64 (cpu endian : XXH_endianess) (p : bytes) : Z := XXH_readLE64_align cpu endian XXH_unaligned p.
Definition XXH_readBE32 (cpu : XXH_endianess) (p : bytes) : Z :=
  if XXH_CPU_LITTLE_ENDIAN cpu then XXH_swap32 (XXH_read32 cpu p) else XXH_read32 cpu p.
Definition XXH_readBE64 (cpu : XXH_endianess) (p : bytes) : Z :=
  if XXH_CPU_LITTLE_ENDIAN cpu then XXH_swap64 (XXH_read64 cpu p) else XXH_read64 cpu p.

(** ** Constants *)

Definition PRIME32_1 : Z := 2654435761.
Definition PRIME32_2 : Z := 2246822519.
Definition PRIME32_3 : Z := 3266489917.
Definition PRIME32_4 : Z := 668265263.
Definition PRIME32_5 : Z := 374761393.
Definition PRIME64_1 : Z := 11400714785074694791.
Definition PRIME64_2 : Z := 14029467366897019727.
Definition PRIME64_3 : Z := 1609587929392839161.
Definition PRIME64_4 : Z := 9650029242287828579.
Definition PRIME64_5 : Z := 2870177450012600261.

(** ** Rounds *)

Definition XXH32_round (seed input : Z) : Z :=
  u32 (XXH_rotl32 (u32 (seed + input * PRIME32_2)) 13 * PRIME32_1).
Definition XXH64_round (acc input : Z) : Z :=
  u64 (XXH_rotl64 (u64 (acc + input * PRIME64_2)) 31 * PRIME64_1).
Definition XXH64_mergeRound (acc val : Z) : Z :=
  u64 ((acc .^ XXH64_round 0 val) * PRIME64_1 + PRIME64_4).

(** The four accumulators. *)
Record lanes := { v1 : Z; v2 : Z; v3 : Z; v4 : Z }.

(** [v1 = seed + P1 + P2], ... *)
Definition init_lanes (w prime1 prime2 seed : Z) : lanes :=
  {| v1 := uwrap w (seed + prime1 + prime2); v2 := uwrap w (seed + prime2); v3 := uwrap w (seed + 0);
     v4 := uwrap w (seed - prime1) |}.

Section stripes.
(** [n]: bytes of a lane, [rd]: reads one, [rnd]: the round. *)
Context (n : nat) (rd : bytes -> Z) (rnd : Z -> Z -> Z).

(** One turn of the main loop. *)
Definition stripe (v : lanes) (p : bytes) : lanes :=
  {| v1 := rnd (v1 v) (rd p); v2 := rnd (v2 v) (rd (drop n p));
     v3 := rnd (v3 v) (rd (drop (2 * n) p)); v4 := rnd (v4 v) (rd (drop (3 * n) p)) |}.

(** [do ... while (p <= limit)], which runs [k] times: the accumulators and [p]. *)
Fixpoint stripes (k : nat) (v : lanes) (p : bytes) : lanes * bytes :=
  match k with
  | O => (v, p)
  | S k => stripes k (stripe v p) (drop (4 * n) p)
  end.
End stripes.

(** ** Final mixing *)

Section finalize32.
Context (rd : bytes -> Z).
(** [while (p+4<=bEnd)], [k] turns. *)
Fixpoint words32 (k : nat) (h : Z) (p : bytes) : Z * bytes :=
  match k with
  | O => (h, p)
  | S k => words32 k (u32 (XXH_rotl32 (u32 (h + rd p * PRIME32_3)) 17 * PRIME32_4)) (drop 4 p)
  end.
(** [while (p<bEnd)] *)
Fixpoint bytes32 (h : Z) (p : bytes) : Z :=
  match p with
  | [] => h
  | b :: p => bytes32 (u32 (XXH_rotl32 (u32 (h + b * PRIME32_5)) 11 * PRIME32_1)) p
  end.
Definition avalanche32 (h : Z) : Z :=
  let h := h .^ (h .>> 15) in
  let h := u32 (h * PRIME32_2) in
  let h := h .^ (h .>> 13) in
  let h := u32 (h * PRIME32_3) in
  h .^ (h .>> 16).
Definition finish32 (h : Z) (p : bytes) : Z :=
  let '(h, p) := words32 (length p / 4) h p in avalanche32 (bytes32 h p).
End finalize32.

Definition merge32 (v : lanes) : Z :=
  u32 (XXH_rotl32 (v1 v) 1 + XXH_rotl32 (v2 v) 7 + XXH_rotl32 (v3 v) 12 + XXH_rotl32 (v4 v) 18).

Section finalize64.
Context (rd32 rd64 : bytes -> Z).
Fixpoint words64 (k : nat) (h : Z) (p : bytes) : Z * bytes :=
  match k with
  | O => (h, p)
  | S k => words64 k (u64 (XXH_rotl64 (h .^ XXH64_round 0 (rd64 p)) 27 * PRIME64_1 + PRIME64_4)) (drop 8 p)
  end.
(** [if (p+4<=bEnd)] *)
Definition half64 (h : Z) (p : bytes) : Z * bytes :=
  if bool_decide (4 <= length p)%nat then
    (u64 (XXH_rotl64 (h .^ u64 (rd32 p * PRIME64_1)) 23 * PRIME64_2 + PRIME64_3), drop 4 p)
  else (h, p).
Fixpoint bytes64 (h : Z) (p : bytes) : Z :=
  match p with
  | [] => h
  | b :: p => bytes64 (u64 (XXH_rotl64 (h .^ u64 (b * PRIME64_5)) 11 * PRIME64_1)) p
  end.
Definition avalanche64 (h : Z) : Z :=
  let h := h .^ (h .>> 33) in
  let h := u64 (h * PRIME64_2) in
  let h := h .^ (h .>> 29) in
  let h := u64 (h * PRIME64_3) in
  h .^ (h .>> 32).
Definition finish64 (h : Z) (p : bytes) : Z :=
  let '(h, p) := words64 (length p / 8) h p in
  let '(h, p) := half64 h p in
  avalanche64 (bytes64 h p).
End finalize64.

Definition merge64 (v : lanes) : Z :=
  let h := u64 (XXH_rotl64 (v1 v) 1 + XXH_rotl64 (v2 v) 7 + XXH_rotl64 (v3 v) 12 + XXH_rotl64 (v4 v) 18) in
  XXH64_mergeRound (XXH64_mergeRound (XXH64_mergeRound (XXH64_mergeRound h (v1 v)) (v2 v)) (v3 v)) (v4 v).

(** ** One-shot hashes *)

Section oneshot.
Context (cpu : XXH_endianess).

Definition XXH32_endian_align (input : bytes) (seed : Z) (endian : XXH_endianess) (align : XXH_alignment) : Z :=
  let rd := XXH_readLE32_align cpu endian align in
  let len := length input in
  let '(h, p) :=
    if bool_decide (16 <= len)%nat then
      let '(v, p) := stripes 4 rd XXH32_round (len / 16) (init_lanes 32 PRIME32_1 PRIME32_2 seed) input in
      (merge32 v, p)
    else (u32 (seed + PRIME32_5), input) in
  finish32 rd (u32 (h + u32 (Z.of_nat len))) p.

Definition XXH64_endian_align (input : bytes) (seed : Z) (endian : XXH_endianess) (align : XXH_alignment) : Z :=
  let rd := XXH_readLE64_align cpu endian align in
  let len := length input in
  let '(h, p) :=
    if bool_decide (32 <= len)%nat then
      let '(v, p) := stripes 8 rd XXH64_round (len / 32) (init_lanes 64 PRIME64_1 PRIME64_2 seed) input in
      (merge64 v, p)
    else (u64 (seed + PRIME64_5), input) in
  finish64 (XXH_readLE32_align cpu endian align) rd (u64 (h + u64 (Z.of_nat len))) p.

(** [XXH_FORCE_ALIGN_CHECK] ([check]) is 0 on x86; [addr] is the address of the input.
    [XXH_FORCE_NATIVE_FORMAT] is 0. *)
Definition XXH32 (check : bool) (addr : Z) (input : bytes) (seed : Z) : Z :=
  let endian := if XXH_CPU_LITTLE_ENDIAN cpu then XXH_littleEndian else XXH_bigEndian in
  if check && bool_decide (addr .& 3 = 0) then XXH32_endian_align input seed endian XXH_aligned
  else XXH32_endian_align input seed endian XXH_unaligned.
Definition XXH64 (check : bool) (addr : Z) (input : bytes) (seed : Z) : Z :=
  let endian := if XXH_CPU_LITTLE_ENDIAN cpu then XXH_littleEndian else XXH_bigEndian in
  if check && bool_decide (addr .& 7 = 0) then XXH64_endian_align input seed endian XXH_aligned
  else XXH64_endian_align input seed endian XXH_unaligned.
End oneshot.

(** ** Streaming *)

(** [XXH32_state_s] and [XXH64_state_s]: the fields have the same names, at the width of
    the hash; [x_mem] is [mem32] or [mem64]. *)
Record xxh_state := {
  x_total_len : Z;
  x_seed : Z;
  x_v : lanes;
  x_mem : bytes;
  x_memsize : nat;
}.

Definition XXH32_reset (seed : Z) : xxh_state :=
  {| x_total_len := 0; x_seed := seed; x_v := init_lanes 32 PRIME32_1 PRIME32_2 seed;
     x_mem := replicate 16 0; x_memsize := 0 |}.
Definition XXH64_reset (seed : Z) : xxh_state :=
  {| x_total_len := 0; x_seed := seed; x_v := init_lanes 64 PRIME64_1 PRIME64_2 seed;
     x_mem := replicate 32 0; x_memsize := 0 |}.

Section update.
Context (n : nat) (rd : bytes -> Z) (rnd : Z -> Z -> Z).
Local Abbreviation B := (4 * n)%nat.

(** The second and third step of an update, from the position [p] on, with no bytes
    left in [mem]. *)
Definition update_rest (st : xxh_state) (p : bytes) : xxh_state :=
  let '(v, p) := if bool_decide (B <= length p)%nat then stripes n rd rnd (length p / B) (x_v st) p else (x_v st, p) in
  if bool_decide (0 < length p)%nat then
    {| x_total_len := x_total_len st; x_seed := x_seed st; x_v := v; x_mem := splice (x_mem st) 0 p;
       x_memsize := length p |}
  else {| x_total_len := x_total_len st; x_seed := x_seed st; x_v := v; x_mem := x_mem st; x_memsize := x_memsize st |}.

Definition update_endian (st : xxh_state) (input : bytes) : xxh_state :=
  let total := u64 (x_total_len st + Z.of_nat (length input)) in
  if bool_decide (x_memsize st + length input < B)%nat then
    {| x_total_len := total; x_seed := x_seed st; x_v := x_v st;
       x_mem := splice (x_mem st) (x_memsize st) input; x_memsize := x_memsize st + length input |}
  else if bool_decide (0 < x_memsize st)%nat then
    let k := (B - x_memsize st)%nat in
    let mem := splice (x_mem st) (x_memsize st) (take k input) in
    update_rest {| x_total_len := total; x_seed := x_seed st; x_v := stripe n rd rnd (x_v st) mem;
                   x_mem := mem; x_memsize := 0 |} (drop k input)
  else
    update_rest {| x_total_len := total; x_seed := x_seed st; x_v := x_v st; x_mem := x_mem st;
                   x_memsize := x_memsize st |} input.
End update.

Section streaming.
Context (cpu : XXH_endianess).
Local Abbreviation endian := (if XXH_CPU_LITTLE_ENDIAN cpu then XXH_littleEndian else XXH_bigEndian).

Definition XXH32_update (st : xxh_state) (input : bytes) : xxh_state :=
  update_endian 4 (XXH_readLE32 cpu endian) XXH32_round st input.
Definition XXH64_update (st : xxh_state) (input : bytes) : xxh_state :=
  update_endian 8 (XXH_readLE64 cpu endian) XXH64_round st input.

Definition XXH32_digest (st : xxh_state) : Z :=
  let h := if bool_decide (16 <= x_total_len st) then merge32 (x_v st) else u32 (x_seed st + PRIME32_5) in
  finish32 (XXH_readLE32 cpu endian) (u32 (h + u32 (x_total_len st))) (take (x_memsize st) (x_mem st)).
Definition XXH64_digest (st : xxh_state) : Z :=
  let h := if bool_decide (32 <= x_total_len st) then merge64 (x_v st) else u64 (x_seed st + PRIME64_5) in
  finish64 (XXH_readLE32 cpu endian) (XXH_readLE64 cpu endian) (u64 (h + x_total_len st))
    (take (x_memsize st) (x_mem st)).

(** ** Canonical representation *)

Definition store (n : nat) (x : Z) : bytes :=
  match cpu with XXH_littleEndian => le_bytes n x | XXH_bigEndian => be_bytes n x end.
Definition XXH32_canonicalFromHash (hash : Z) : bytes :=
  store 4 (if XXH_CPU_LITTLE_ENDIAN cpu then XXH_swap32 hash else hash).
Definition XXH64_canonicalFromHash (hash : Z) : bytes :=
  store 8 (if XXH_CPU_LITTLE_ENDIAN cpu then XXH_swap64 hash else hash).
Definition XXH32_hashFromCanonical (src : bytes) : Z := XXH_readBE32 cpu src.
Definition XXH64_hashFromCanonical (src : bytes) : Z := XXH_readBE64 cpu src.
End streaming.
