(* ===== verification/XxhashProps.v ===== *)
(** * XxhashProps: streaming, byte order and canonical form

    A streaming state that has consumed a message in any pieces represents it ([streamed]),
    and its digest is the one-shot hash of the message.  Reads in the detected byte order
    give the little-endian value on every processor ([readLE32_value], [readLE64_value]), so
    the hash does not depend on it. *)

From S2P Require Import Prelude ByteOrder Blocks Xxhash.

(** ** Byte swaps *)

Lemma swap32_bits_all x :
  in_u 32 x -> Forall (λ i, Z.testbit (XXH_swap32 x) i = Z.testbit x (8 * (3 - i / 8) + i mod 8)) (seqZ 0 32).
Proof.
  intros H. unfold XXH_swap32, seqZ. cbn [fmap list_fmap seq Z.to_nat Pos.to_nat Pos.iter_op Nat.add].
  reverse_bits 32 H.
Qed.
Lemma swap64_bits_all x :
  in_u 64 x -> Forall (λ i, Z.testbit (XXH_swap64 x) i = Z.testbit x (8 * (7 - i / 8) + i mod 8)) (seqZ 0 64).
Proof.
  intros H. unfold XXH_swap64, seqZ. cbn [fmap list_fmap seq Z.to_nat Pos.to_nat Pos.iter_op Nat.add].
  reverse_bits 64 H.
Qed.

Lemma swap32_range x : in_u 32 (XXH_swap32 x).
Proof. unfold XXH_swap32. auto 10 with c_int. Qed.
Lemma swap64_range x : in_u 64 (XXH_swap64 x).
Proof. unfold XXH_swap64. auto 12 with c_int. Qed.

Lemma swap32_be bs : length bs = 4%nat -> bytes_ok bs -> XXH_swap32 (of_le bs) = of_be bs.
Proof.
  apply reverse_word; [intros; apply swap32_range|]. intros x i Hx Hi.
  apply (proj1 (Forall_forall _ _) (swap32_bits_all x Hx)). apply elem_of_seqZ. lia.
Qed.
Lemma swap64_be bs : length bs = 8%nat -> bytes_ok bs -> XXH_swap64 (of_le bs) = of_be bs.
Proof.
  apply reverse_word; [intros; apply swap64_range|]. intros x i Hx Hi.
  apply (proj1 (Forall_forall _ _) (swap64_bits_all x Hx)). apply elem_of_seqZ. lia.
Qed.

Lemma of_be_rev bs : of_be (rev bs) = of_le bs.
Proof. unfold of_be. by rewrite rev_involutive. Qed.

(** ** Reads *)

Local Abbreviation detected cpu := (if XXH_CPU_LITTLE_ENDIAN cpu then XXH_littleEndian else XXH_bigEndian).

(** [n] bytes can be read at [p]. *)
Definition readable (n : nat) (p : bytes) : Prop := (n <= length p)%nat /\ bytes_ok p.

Lemma readLE32_value cpu align p :
  readable 4 p -> XXH_readLE32_align cpu (detected cpu) align p = of_le (take 4 p).
Proof.
  intros [Hl Hp]. assert (XXH_swap32 (of_be (take 4 p)) = of_le (take 4 p)) as Hs.
  { rewrite <- of_be_rev. apply swap32_be; [rewrite length_rev, length_take; lia|by apply bytes_ok_rev, Forall_take]. }
  by destruct cpu, align.
Qed.
Lemma readLE64_value cpu align p :
  readable 8 p -> XXH_readLE64_align cpu (detected cpu) align p = of_le (take 8 p).
Proof.
  intros [Hl Hp]. assert (XXH_swap64 (of_be (take 8 p)) = of_le (take 8 p)) as Hs.
  { rewrite <- of_be_rev. apply swap64_be; [rewrite length_rev, length_take; lia|by apply bytes_ok_rev, Forall_take]. }
  by destruct cpu, align.
Qed.

(** ** The main loop *)

Section stripes.
Context (n : nat) (Hn : (0 < n)%nat) (rd : bytes -> Z) (rnd : Z -> Z -> Z).
Context (Hrd : forall p q, take n p = take n q -> rd p = rd q).
Local Abbreviation B := (4 * n)%nat.
Local Abbreviation step := (stripe n rd rnd).

Lemma take_drop_take k (p : bytes) : (k + n <= B)%nat -> take n (drop k (take B p)) = take n (drop k p).
Proof. intros Hk. rewrite skipn_firstn_comm, take_take. f_equal. lia. Qed.

Lemma stripe_take v p : step v (take B p) = step v p.
Proof.
  unfold stripe. f_equal; f_equal; apply Hrd; try apply take_drop_take; try lia.
  rewrite take_take. f_equal. lia.
Qed.

Lemma stripes_spec k v p : stripes n rd rnd k v p = (fold_blocks step B k v p, drop (k * B) p).
Proof.
  revert v p. induction k as [|k IH]; intros v p; [by rewrite drop_0|]. cbn [stripes fold_blocks].
  rewrite IH, stripe_take, drop_drop. do 2 f_equal; lia.
Qed.

Lemma stripes_whole v p :
  stripes n rd rnd (length p / B) v p = (whole step B v p, tail_of B p).
Proof. apply stripes_spec. Qed.

Lemma HB : (0 < B)%nat.
Proof. lia. Qed.

(** ** The streaming state *)

Context (init : lanes).

(** The state has consumed the message [m]. *)
Record streamed (seed : Z) (m : bytes) (st : xxh_state) : Prop := {
  sm_total : x_total_len st = u64 (Z.of_nat (length m));
  sm_seed : x_seed st = seed;
  sm_v : x_v st = whole step B init m;
  sm_mem : length (x_mem st) = B;
  sm_memsize : x_memsize st = length (tail_of B m);
  sm_tail : holds (x_mem st) (tail_of B m);
}.

Lemma total_app (m x : bytes) :
  u64 (u64 (Z.of_nat (length m)) + Z.of_nat (length x)) = u64 (Z.of_nat (length (m ++ x))).
Proof. unfold uwrap. rewrite Zplus_mod_idemp_l, length_app. f_equal. lia. Qed.

(** Appending to complete blocks. *)
Lemma split_blocks (p : bytes) :
  exists k pre, p = pre ++ tail_of B p /\ length pre = (k * B)%nat /\ tail_of B pre = [].
Proof.
  exists (length p / B)%nat, (take (length p / B * B) p). split; [by rewrite take_whole_tail|].
  assert (length (take (length p / B * B) p) = length p / B * B)%nat as Hk
    by (rewrite length_take; pose proof (whole_le B p); lia).
  split; [done|]. apply (tail_blocks B HB [] (length p / B)); [apply tail_nil|done].
Qed.

Lemma whole_after v m p : tail_of B m = [] -> whole step B (whole step B v m) p = whole step B v (m ++ p).
Proof.
  intros Ht. pose proof (tail_of_lt B HB p) as Hlt. destruct (split_blocks p) as (k & pre & Hp & Hk & Htp).
  revert Hp Hlt. generalize (tail_of B p). intros tl -> Hlt.
  rewrite app_assoc, (whole_part _ _ HB _ pre tl) by by rewrite Htp.
  rewrite (whole_part _ _ HB _ (m ++ pre) tl) by by rewrite (tail_blocks B HB m k).
  rewrite (whole_blocks _ _ HB _ _ k) by done. unfold whole at 1. by rewrite Hk, Nat.div_mul by lia.
Qed.

Lemma tail_after m p : tail_of B m = [] -> tail_of B (m ++ p) = tail_of B p.
Proof.
  intros Ht. pose proof (tail_of_lt B HB p) as Hlt. destruct (split_blocks p) as (k & pre & Hp & Hk & Htp).
  rewrite Hp at 1. rewrite app_assoc, tail_part; rewrite ?(tail_blocks B HB m k) by done; [done|apply HB|done].
Qed.

(** The last two steps of an update, on a message whose blocks are complete. *)
Lemma update_rest_spec seed m st p :
  tail_of B m = [] -> x_v st = whole step B init m -> x_seed st = seed -> length (x_mem st) = B ->
  x_memsize st = 0%nat -> x_total_len st = u64 (Z.of_nat (length (m ++ p))) ->
  streamed seed (m ++ p) (update_rest n rd rnd st p).
Proof.
  intros Ht Hv Hs Hm Hz Htot. unfold update_rest.
  assert ((if bool_decide (B <= length p)%nat then stripes n rd rnd (length p / B) (x_v st) p else (x_v st, p)) =
    (whole step B (x_v st) p, tail_of B p)) as ->.
  { case_bool_decide as Hl; [apply stripes_whole|]. unfold whole, tail_of.
    by rewrite Nat.div_small, drop_0 by lia. }
  assert (whole step B (x_v st) p = whole step B init (m ++ p)) as ->.
  { rewrite Hv. by apply whole_after. }
  assert (tail_of B (m ++ p) = tail_of B p) as Htp.
  { by apply tail_after. }
  pose proof (tail_of_lt B HB p) as Hlt.
  case_bool_decide as Hl; split; cbn [x_total_len x_seed x_v x_mem x_memsize]; rewrite ?Htp; try done.
  - rewrite length_splice; lia.
  - apply (holds_splice (x_mem st) [] (tail_of B p)); [cbn [length]; lia|done].
  - lia.
  - destruct (tail_of B p); [done|cbn in Hl; lia].
Qed.

Lemma update_endian_spec seed m st x :
  streamed seed m st -> streamed seed (m ++ x) (update_endian n rd rnd st x).
Proof.
  intros [Htot Hs Hv Hm Hz Hh]. unfold update_endian. rewrite Hz, Htot, total_app.
  pose proof (tail_of_lt B HB m) as Hlt. case_bool_decide as Hl.
  - split; cbn [x_total_len x_seed x_v x_mem x_memsize]; try done.
    + rewrite whole_part by (done || apply HB). done.
    + rewrite length_splice; lia.
    + rewrite tail_part, length_app by (done || apply HB). done.
    + rewrite tail_part by (done || apply HB). apply holds_splice; [lia|done].
  - case_bool_decide as Hu.
    2: { apply update_rest_spec; cbn [x_total_len x_seed x_v x_mem x_memsize]; try done; [|lia].
         apply nil_length_inv. lia. }
    set (k := (B - length (tail_of B m))%nat).
    assert (length (take k x) = k) as Hk by (rewrite length_take; lia).
    assert (length (tail_of B m) + length (take k x) = B)%nat as Hfull by lia.
    rewrite <- (take_drop k x) at 1. rewrite app_assoc.
    assert (splice (x_mem st) (length (tail_of B m)) (take k x) = tail_of B m ++ take k x) as ->.
    { apply holds_all; [apply holds_splice; [lia|done]|]. rewrite length_splice, length_app; lia. }
    apply update_rest_spec; cbn [x_total_len x_seed x_v x_mem x_memsize]; try done.
    + apply tail_full; [apply HB|done].
    + rewrite Hv. symmetry. apply whole_full; [apply HB|done].
    + rewrite length_app. lia.
    + by rewrite <- app_assoc, take_drop.
Qed.

Lemma streamed_reset seed :
  streamed seed [] {| x_total_len := 0; x_seed := seed; x_v := init; x_mem := replicate B 0; x_memsize := 0 |}.
Proof.
  split; cbn [x_total_len x_seed x_v x_mem x_memsize length]; rewrite ?tail_nil, ?whole_nil; try done.
  apply length_replicate.
Qed.

Lemma streamed_updates seed chunks m st :
  streamed seed m st -> streamed seed (m ++ concat chunks) (foldl (update_endian n rd rnd) st chunks).
Proof.
  revert m st. induction chunks as [|x chunks IH]; intros m st Hst; cbn [concat foldl].
  - by rewrite app_nil_r.
  - rewrite app_assoc. by apply IH, update_endian_spec.
Qed.
End stripes.

(** ** Readers that agree *)

Section ext.
Context (n : nat) (Hn : (0 < n)%nat) (rd rd' : bytes -> Z) (Hext : forall p, readable n p -> rd p = rd' p).

Lemma readable_drop k p : (k + n <= length p)%nat -> bytes_ok p -> readable n (drop k p).
Proof. intros Hl Hp. split; [rewrite length_drop; lia|by apply Forall_drop]. Qed.

Lemma stripes_ext rnd k v p :
  bytes_ok p -> (k * (4 * n) <= length p)%nat -> stripes n rd rnd k v p = stripes n rd' rnd k v p.
Proof.
  revert v p. induction k as [|k IH]; intros v p Hp Hl; [done|]. cbn [stripes].
  assert (stripe n rd rnd v p = stripe n rd' rnd v p) as ->.
  { unfold stripe. rewrite !(Hext (drop _ p)) by (apply readable_drop; [lia|done]).
    rewrite (Hext p) by (split; [lia|done]). done. }
  apply IH; [by apply Forall_drop|rewrite length_drop; lia].
Qed.
End ext.

Lemma words32_ext rd rd' k h p :
  (forall p, readable 4 p -> rd p = rd' p) -> bytes_ok p -> (k * 4 <= length p)%nat ->
  words32 rd k h p = words32 rd' k h p.
Proof.
  intros Hext. revert h p. induction k as [|k IH]; intros h p Hp Hl; [done|]. cbn [words32].
  rewrite (Hext p) by (split; [lia|done]). apply IH; [by apply Forall_drop|rewrite length_drop; lia].
Qed.
Lemma finish32_ext rd rd' h p :
  (forall p, readable 4 p -> rd p = rd' p) -> bytes_ok p -> finish32 rd h p = finish32 rd' h p.
Proof. intros Hext Hp. unfold finish32. by rewrite (words32_ext rd rd') by (done || apply (whole_le 4)). Qed.

Lemma words64_spec rd rd' k h p :
  (forall p, readable 8 p -> rd p = rd' p) -> bytes_ok p -> (k * 8 <= length p)%nat ->
  words64 rd k h p = words64 rd' k h p /\ bytes_ok (words64 rd' k h p).2.
Proof.
  intros Hext. revert h p. induction k as [|k IH]; intros h p Hp Hl; [done|]. cbn [words64].
  rewrite (Hext p) by (split; [lia|done]). apply IH; [by apply Forall_drop|rewrite length_drop; lia].
Qed.
Lemma finish64_ext rd32 rd32' rd64 rd64' h p :
  (forall p, readable 4 p -> rd32 p = rd32' p) -> (forall p, readable 8 p -> rd64 p = rd64' p) -> bytes_ok p ->
  finish64 rd32 rd64 h p = finish64 rd32' rd64' h p.
Proof.
  intros H32 H64 Hp. unfold finish64.
  destruct (words64_spec rd64 rd64' (length p / 8) h p H64 Hp) as [-> Hok]; [apply (whole_le 8)|].
  destruct (words64 rd64' (length p / 8) h p) as [h' p']. unfold half64. cbn [snd] in Hok.
  case_bool_decide; [|done]. by rewrite (H32 p').
Qed.

(** A one-shot hash in terms of the blocks of the message. *)
Lemma XXH32_endian_align_ext cpu cpu' align align' input seed :
  bytes_ok input ->
  XXH32_endian_align cpu input seed (detected cpu) align = XXH32_endian_align cpu' input seed (detected cpu') align'.
Proof.
  intros Hok. unfold XXH32_endian_align.
  assert (forall p, readable 4 p -> XXH_readLE32_align cpu (detected cpu) align p =
    XXH_readLE32_align cpu' (detected cpu') align' p) as Hext by (intros p Hp; by rewrite !readLE32_value).
  case_bool_decide as Hl; [|by apply finish32_ext].
  rewrite (stripes_ext 4 ltac:(lia) _ _ Hext) by (done || apply (whole_le 16)).
  rewrite stripes_spec; [|lia|intros p q Hpq; unfold XXH_readLE32_align, XXH_read32, load; by destruct align', cpu'; rewrite Hpq].
  apply finish32_ext; [done|by apply Forall_drop].
Qed.
Lemma XXH64_endian_align_ext cpu cpu' align align' input seed :
  bytes_ok input ->
  XXH64_endian_align cpu input seed (detected cpu) align = XXH64_endian_align cpu' input seed (detected cpu') align'.
Proof.
  intros Hok. unfold XXH64_endian_align.
  assert (forall p, readable 4 p -> XXH_readLE32_align cpu (detected cpu) align p =
    XXH_readLE32_align cpu' (detected cpu') align' p) as Hext4 by (intros p Hp; by rewrite !readLE32_value).
  assert (forall p, readable 8 p -> XXH_readLE64_align cpu (detected cpu) align p =
    XXH_readLE64_align cpu' (detected cpu') align' p) as Hext by (intros p Hp; by rewrite !readLE64_value).
  case_bool_decide as Hl; [|by apply finish64_ext].
  rewrite (stripes_ext 8 ltac:(lia) _ _ Hext) by (done || apply (whole_le 32)).
  rewrite stripes_spec; [|lia|intros p q Hpq; unfold XXH_readLE64_align, XXH_read64, load; by destruct align', cpu'; rewrite Hpq].
  apply finish64_ext; [done|done|by apply Forall_drop].
Qed.

(** ** Properties *)

(** Reads look only at the bytes they return. *)
Lemma readLE32_local cpu e p q : take 4 p = take 4 q -> XXH_readLE32 cpu e p = XXH_readLE32 cpu e q.
Proof. intros Hpq. unfold XXH_readLE32, XXH_readLE32_align, XXH_read32, load. by destruct cpu; rewrite Hpq. Qed.
Lemma readLE64_local cpu e p q : take 8 p = take 8 q -> XXH_readLE64 cpu e p = XXH_readLE64 cpu e q.
Proof. intros Hpq. unfold XXH_readLE64, XXH_readLE64_align, XXH_read64, load. by destruct cpu; rewrite Hpq. Qed.

(** The last part of the message, in both interfaces. *)
Lemma total_small (m : bytes) : Z.of_nat (length m) < 2 ^ 64 -> u64 (Z.of_nat (length m)) = Z.of_nat (length m).
Proof. intros Hl. apply uwrap_small. unfold in_u. lia. Qed.

(** C14: streaming.  A hash state fed with any sequence of pieces has, at any time, the
    digest that the one-shot function computes for the whole message, for [XXH64] and
    [XXH32], at every address and whether or not the one-shot function checks the
    alignment. *)
Theorem xxh_streaming_correct (cpu : XXH_endianess) (check : bool) (addr seed : Z) (chunks : list bytes) :
  Z.of_nat (length (concat chunks)) < 2 ^ 64 ->
  XXH64_digest cpu (foldl (XXH64_update cpu) (XXH64_reset seed) chunks) = XXH64 cpu check addr (concat chunks) seed /\
  XXH32_digest cpu (foldl (XXH32_update cpu) (XXH32_reset seed) chunks) = XXH32 cpu check addr (concat chunks) seed.
Proof.
  intros Hl. set (m := concat chunks) in *. split.
  - pose proof (streamed_updates 8 ltac:(lia) (XXH_readLE64 cpu (detected cpu)) XXH64_round
      (readLE64_local cpu _) (init_lanes 64 PRIME64_1 PRIME64_2 seed) seed chunks [] (XXH64_reset seed)
      (streamed_reset 8 _ _ _ seed)) as Hst. cbn [app] in Hst. fold m in Hst.
    change (update_endian 8 _ _) with (XXH64_update cpu) in Hst. destruct Hst as [Htot Hs Hv Hm Hz Hh].
    unfold XXH64_digest. rewrite Htot, Hs, Hv, Hz, Hh, total_small by done.
    assert (XXH64 cpu check addr m seed = XXH64_endian_align cpu m seed (detected cpu) XXH_unaligned) as ->
      by (unfold XXH64; by destruct (check && _)).
    unfold XXH64_endian_align. rewrite total_small by done.
    change (XXH_readLE64_align cpu (detected cpu) XXH_unaligned) with (XXH_readLE64 cpu (detected cpu)).
    destruct (decide (32 <= length m)%nat) as [H32|H32].
    + rewrite !bool_decide_eq_true_2 by lia. change 32%nat with (4 * 8)%nat.
      by rewrite stripes_whole by (lia || apply readLE64_local).
    + rewrite !bool_decide_eq_false_2 by lia. unfold tail_of. by rewrite Nat.div_small, drop_0 by lia.
  - pose proof (streamed_updates 4 ltac:(lia) (XXH_readLE32 cpu (detected cpu)) XXH32_round
      (readLE32_local cpu _) (init_lanes 32 PRIME32_1 PRIME32_2 seed) seed chunks [] (XXH32_reset seed)
      (streamed_reset 4 _ _ _ seed)) as Hst. cbn [app] in Hst. fold m in Hst.
    change (update_endian 4 _ _) with (XXH32_update cpu) in Hst. destruct Hst as [Htot Hs Hv Hm Hz Hh].
    unfold XXH32_digest. rewrite Htot, Hs, Hv, Hz, Hh, total_small by done.
    assert (XXH32 cpu check addr m seed = XXH32_endian_align cpu m seed (detected cpu) XXH_unaligned) as ->
      by (unfold XXH32; by destruct (check && _)).
    unfold XXH32_endian_align.
    change (XXH_readLE32_align cpu (detected cpu) XXH_unaligned) with (XXH_readLE32 cpu (detected cpu)).
    destruct (decide (16 <= length m)%nat) as [H16|H16].
    + rewrite !bool_decide_eq_true_2 by lia. change 16%nat with (4 * 4)%nat.
      by rewrite stripes_whole by (lia || apply readLE32_local).
    + rewrite !bool_decide_eq_false_2 by lia. unfold tail_of. by rewrite Nat.div_small, drop_0 by lia.
Qed.

Lemma xxh_streaming_correct_witness :
  XXH64_digest XXH_littleEndian (foldl (XXH64_update XXH_littleEndian) (XXH64_reset 7) [replicate 20 1; replicate 50 2]) =
  XXH64 XXH_littleEndian false 0 (concat [replicate 20 1; replicate 50 2]) 7.
Proof. apply (xxh_streaming_correct XXH_littleEndian false 0 7 [replicate 20 1; replicate 50 2]). done. Defined.

(** the same hash on little-endian and big-endian processors, from aligned and
    unaligned input. *)
Theorem xxh_endian_independent (cpu : XXH_endianess) (check : bool) (addr seed : Z) (input : bytes) :
  bytes_ok input ->
  XXH64 cpu check addr input seed = XXH64 XXH_littleEndian false 0 input seed /\
  XXH32 cpu check addr input seed = XXH32 XXH_littleEndian false 0 input seed.
Proof.
  intros Hok. unfold XXH64, XXH32. cbn [andb].
  destruct (check && bool_decide (addr .& 7 = 0)), (check && bool_decide (addr .& 3 = 0));
    (split; [by apply XXH64_endian_align_ext|by apply XXH32_endian_align_ext]).
Qed.

Lemma xxh_endian_independent_witness :
  XXH64 XXH_bigEndian true 8 (replicate 77 97) 5 = XXH64 XXH_littleEndian false 0 (replicate 77 97) 5.
Proof. apply (xxh_endian_independent XXH_bigEndian true 8 5 (replicate 77 97)). by apply Forall_replicate. Defined.

(** a hash stored in canonical form is its big-endian image on every processor, and
    reading it back on any processor gives the hash. *)
Theorem xxh_canonical_roundtrip (cpu cpu' : XXH_endianess) (h32 h64 : Z) :
  in_u 32 h32 -> in_u 64 h64 ->
  XXH64_canonicalFromHash cpu h64 = be_bytes 8 h64 /\ XXH32_canonicalFromHash cpu h32 = be_bytes 4 h32 /\
  XXH64_hashFromCanonical cpu' (XXH64_canonicalFromHash cpu h64) = h64 /\
  XXH32_hashFromCanonical cpu' (XXH32_canonicalFromHash cpu h32) = h32.
Proof.
  intros H32 H64.
  assert (XXH64_canonicalFromHash cpu h64 = be_bytes 8 h64) as E64.
  { unfold XXH64_canonicalFromHash, store. destruct cpu; [done|]. apply reverse_store; [apply swap64_be|done]. }
  assert (XXH32_canonicalFromHash cpu h32 = be_bytes 4 h32) as E32.
  { unfold XXH32_canonicalFromHash, store. destruct cpu; [done|]. apply reverse_store; [apply swap32_be|done]. }
  assert (forall n z, in_u (8 * Z.of_nat n) z -> length (be_bytes n z) = n /\ bytes_ok (be_bytes n z) /\
    take n (be_bytes n z) = be_bytes n z /\ of_be (be_bytes n z) = z) as Hbe.
  { intros n z Hz. assert (length (be_bytes n z) = n) as Hn by (unfold be_bytes; by rewrite length_rev, le_bytes_length).
    split; [done|]. split; [apply bytes_ok_rev, le_bytes_ok|]. split; [by rewrite take_ge by lia|].
    unfold be_bytes. by rewrite of_be_rev, of_le_le_bytes. }
  split; [done|]. split; [done|]. rewrite E64, E32.
  destruct (Hbe 8%nat h64 H64) as (Hl8 & Ho8 & Ht8 & He8), (Hbe 4%nat h32 H32) as (Hl4 & Ho4 & Ht4 & He4).
  unfold XXH64_hashFromCanonical, XXH32_hashFromCanonical, XXH_readBE64, XXH_readBE32, XXH_read64, XXH_read32, load.
  rewrite Ht8, Ht4. destruct cpu'; [done|]. cbn -[XXH_swap64 XXH_swap32 be_bytes].
  by rewrite swap64_be, swap32_be.
Qed.

Lemma xxh_canonical_roundtrip_witness :
  XXH64_hashFromCanonical XXH_bigEndian (XXH64_canonicalFromHash XXH_littleEndian 0x1234) = 0x1234.
Proof. apply (xxh_canonical_roundtrip XXH_littleEndian XXH_bigEndian 0 0x1234); done. Defined.

(** Published values of the hash. *)
Example xxh64_abc : XXH64 XXH_littleEndian false 0 [97; 98; 99] 0 = 0x44bc2cf5ad770999.
Proof. by vm_compute. Qed.
Example xxh32_abc : XXH32 XXH_littleEndian false 0 [97; 98; 99] 0 = 0x32d153ff.
Proof. by vm_compute. Qed.
