(* ===== verification/Newfs.v ===== *)
(** * Newfs: the options of newfs_hammer(8) and the layout of a volume

    From src/sbin/newfs_hammer/newfs_hammer.c: the parsing and checking of sizes, the
    option loop and the default sizes of [main], and of [format_volume] the layout of a
    volume and the checks made before anything is formatted; from ondisk.c the default sizes [init_boot_area_size] and
    [init_memory_log_size]; from cache.c [hammer_parse_cache_size].  Strings are lists of
    character codes.  Signed overflow is [Undef]. *)

From S2P Require Import Prelude HammerDisk Layout CMonad Ondisk Blockmap.

(** ** Constants *)

Definition HAMMER_MIN_VOL_JUNK : Z := HAMMER_BUFSIZE * 16.
Definition HAMMER_MAX_VOL_JUNK : Z := HAMMER_MIN_VOL_JUNK.
Definition HAMMER_VOL_JUNK_SIZE : Z := HAMMER_MIN_VOL_JUNK.
Definition HAMMER_BOOT_MINBYTES : Z := 32 * 1024.
Definition HAMMER_BOOT_NOMBYTES : Z := 64 * 1024 * 1024.
Definition HAMMER_BOOT_MAXBYTES : Z := 256 * 1024 * 1024.
Definition HAMMER_MEM_MINBYTES : Z := 256 * 1024.
Definition HAMMER_MEM_NOMBYTES : Z := 1 * 1024 * 1024 * 1024.
Definition HAMMER_MEM_MAXBYTES : Z := 64 * 1024 * 1024 * 1024.
Definition HAMMER_VOL_VERSION_MIN : Z := 1.
Definition HAMMER_VOL_VERSION_WIP : Z := 8.

(** ** Numbers in strings *)

(** The value of a digit in any base up to 16. *)
Definition digit_of (c : Z) : option Z :=
  if bool_decide (48 <= c <= 57) then Some (c - 48)
  else if bool_decide (97 <= c <= 102) then Some (c - 87)
  else if bool_decide (65 <= c <= 70) then Some (c - 55)
  else None.
Fixpoint digits (base acc : Z) (s : bytes) : Z * bytes :=
  match s with
  | c :: s' =>
      match digit_of c with
      | Some d => if bool_decide (d < base) then digits base (acc * base + d) s' else (acc, s)
      | None => (acc, s)
      end
  | [] => (acc, s)
  end.
Definition is_space (c : Z) : bool := bool_decide (c = 32) || bool_decide (9 <= c <= 13).
Fixpoint skip_spaces (s : bytes) : bytes :=
  match s with
  | c :: s' => if is_space c then skip_spaces s' else s
  | [] => []
  end.
Definition starts_digit (base : Z) (s : bytes) : bool :=
  match s with
  | c :: _ => match digit_of c with Some d => bool_decide (d < base) | None => false end
  | [] => false
  end.
Definition sign_of (s : bytes) : bool * bytes :=
  match s with
  | 45 :: b => (true, b)
  | 43 :: b => (false, b)
  | _ => (false, s)
  end.
(** Base 16 after 0x, 8 after 0, else 10; [s] is the whole string, left when there is no
    number. *)
Definition number_of (s body : bytes) : Z * bytes :=
  match body with
  | 48 :: x :: b =>
      if (bool_decide (x = 120) || bool_decide (x = 88)) && starts_digit 16 b then digits 16 0 b
      else digits 8 0 body
  | _ => if starts_digit 10 body then digits (match body with 48 :: _ => 8 | _ => 10 end) 0 body else (0, s)
  end.
(** [strtoll(s, &ptr, 0)] (and [strtol], on a machine with 64-bit [long]): the value,
    held to the range of the type, and the rest of the string. *)
Definition strtoll (s : bytes) : Z * bytes :=
  let '(neg, body) := sign_of (skip_spaces s) in
  let '(v, rest) := number_of s body in
  let v := if neg then - v else v in
  (Z.max (- 2 ^ 63) (Z.min (2 ^ 63 - 1) v), rest).

(** The character at the front, 0 at the end of the string. *)
Definition front (s : bytes) : Z := match s with c :: _ => c | [] => 0 end.

(** ** Options *)

(** The options and the globals of newfs_hammer, and the cache settings of cache.c. *)
Record newfs := {
  ForceOpt : bool;
  HeaderJunkSize : Z;
  BootAreaSize : Z;
  MemoryLogSize : Z;
  UndoBufferSize : Z;
  nf_version : Z;          (** [HammerVersion] *)
  nf_eflag : bool;
  nf_label : option bytes;
  nf_CacheMax : Z;
  nf_ReadAhead : Z;        (** [UseReadAhead] *)
  nf_ReadBehind : Z;       (** [UseReadBehind] *)
}.
Abbreviation N := (prog newfs).

Definition newfs_init : newfs :=
  {| ForceOpt := false; HeaderJunkSize := -1; BootAreaSize := -1; MemoryLogSize := -1; UndoBufferSize := 0;
     nf_version := 2 ^ 32 - 1; nf_eflag := false; nf_label := None; nf_CacheMax := HAMMER_BUFSIZE * 1024;
     nf_ReadAhead := 4; nf_ReadBehind := -4 |}.

(** Field updates. *)
Definition set_ForceOpt (v : bool) (s : newfs) : newfs :=
  {| ForceOpt := v; HeaderJunkSize := HeaderJunkSize s; BootAreaSize := BootAreaSize s;
     MemoryLogSize := MemoryLogSize s; UndoBufferSize := UndoBufferSize s;
     nf_version := nf_version s; nf_eflag := nf_eflag s; nf_label := nf_label s;
     nf_CacheMax := nf_CacheMax s; nf_ReadAhead := nf_ReadAhead s; nf_ReadBehind := nf_ReadBehind s |}.
Definition set_HeaderJunkSize (v : Z) (s : newfs) : newfs :=
  {| ForceOpt := ForceOpt s; HeaderJunkSize := v; BootAreaSize := BootAreaSize s;
     MemoryLogSize := MemoryLogSize s; UndoBufferSize := UndoBufferSize s;
     nf_version := nf_version s; nf_eflag := nf_eflag s; nf_label := nf_label s;
     nf_CacheMax := nf_CacheMax s; nf_ReadAhead := nf_ReadAhead s; nf_ReadBehind := nf_ReadBehind s |}.
Definition set_BootAreaSize (v : Z) (s : newfs) : newfs :=
  {| ForceOpt := ForceOpt s; HeaderJunkSize := HeaderJunkSize s; BootAreaSize := v;
     MemoryLogSize := MemoryLogSize s; UndoBufferSize := UndoBufferSize s;
     nf_version := nf_version s; nf_eflag := nf_eflag s; nf_label := nf_label s;
     nf_CacheMax := nf_CacheMax s; nf_ReadAhead := nf_ReadAhead s; nf_ReadBehind := nf_ReadBehind s |}.
Definition set_MemoryLogSize (v : Z) (s : newfs) : newfs :=
  {| ForceOpt := ForceOpt s; HeaderJunkSize := HeaderJunkSize s; BootAreaSize := BootAreaSize s;
     MemoryLogSize := v; UndoBufferSize := UndoBufferSize s; nf_version := nf_version s;
     nf_eflag := nf_eflag s; nf_label := nf_label s; nf_CacheMax := nf_CacheMax s;
     nf_ReadAhead := nf_ReadAhead s; nf_ReadBehind := nf_ReadBehind s |}.
Definition set_UndoBufferSize (v : Z) (s : newfs) : newfs :=
  {| ForceOpt := ForceOpt s; HeaderJunkSize := HeaderJunkSize s; BootAreaSize := BootAreaSize s;
     MemoryLogSize := MemoryLogSize s; UndoBufferSize := v; nf_version := nf_version s;
     nf_eflag := nf_eflag s; nf_label := nf_label s; nf_CacheMax := nf_CacheMax s;
     nf_ReadAhead := nf_ReadAhead s; nf_ReadBehind := nf_ReadBehind s |}.
Definition set_nf_version (v : Z) (s : newfs) : newfs :=
  {| ForceOpt := ForceOpt s; HeaderJunkSize := HeaderJunkSize s; BootAreaSize := BootAreaSize s;
     MemoryLogSize := MemoryLogSize s; UndoBufferSize := UndoBufferSize s; nf_version := v;
     nf_eflag := nf_eflag s; nf_label := nf_label s; nf_CacheMax := nf_CacheMax s;
     nf_ReadAhead := nf_ReadAhead s; nf_ReadBehind := nf_ReadBehind s |}.
Definition set_nf_eflag (v : bool) (s : newfs) : newfs :=
  {| ForceOpt := ForceOpt s; HeaderJunkSize := HeaderJunkSize s; BootAreaSize := BootAreaSize s;
     MemoryLogSize := MemoryLogSize s; UndoBufferSize := UndoBufferSize s;
     nf_version := nf_version s; nf_eflag := v; nf_label := nf_label s; nf_CacheMax := nf_CacheMax s;
     nf_ReadAhead := nf_ReadAhead s; nf_ReadBehind := nf_ReadBehind s |}.
Definition set_nf_label (v : option bytes) (s : newfs) : newfs :=
  {| ForceOpt := ForceOpt s; HeaderJunkSize := HeaderJunkSize s; BootAreaSize := BootAreaSize s;
     MemoryLogSize := MemoryLogSize s; UndoBufferSize := UndoBufferSize s;
     nf_version := nf_version s; nf_eflag := nf_eflag s; nf_label := v; nf_CacheMax := nf_CacheMax s;
     nf_ReadAhead := nf_ReadAhead s; nf_ReadBehind := nf_ReadBehind s |}.
Definition set_nf_CacheMax (v : Z) (s : newfs) : newfs :=
  {| ForceOpt := ForceOpt s; HeaderJunkSize := HeaderJunkSize s; BootAreaSize := BootAreaSize s;
     MemoryLogSize := MemoryLogSize s; UndoBufferSize := UndoBufferSize s;
     nf_version := nf_version s; nf_eflag := nf_eflag s; nf_label := nf_label s; nf_CacheMax := v;
     nf_ReadAhead := nf_ReadAhead s; nf_ReadBehind := nf_ReadBehind s |}.
(** [UseReadAhead = v; UseReadBehind = -UseReadAhead] *)
Definition set_nf_ReadAhead (v : Z) (s : newfs) : newfs :=
  {| ForceOpt := ForceOpt s; HeaderJunkSize := HeaderJunkSize s; BootAreaSize := BootAreaSize s;
     MemoryLogSize := MemoryLogSize s; UndoBufferSize := UndoBufferSize s;
     nf_version := nf_version s; nf_eflag := nf_eflag s; nf_label := nf_label s;
     nf_CacheMax := nf_CacheMax s; nf_ReadAhead := v; nf_ReadBehind := - v |}.

(** [a * b] of 64-bit and of 32-bit signed integers. *)
Definition mul64 {S} (a b : Z) : prog S Z := if bool_decide (in_s 64 (a * b)) then mret (a * b) else stop_with Undef.
Definition mul32 (a b : Z) : N Z := if bool_decide (in_s 32 (a * b)) then mret (a * b) else stop_with Undef.

(** How often the switch of [getsize] multiplies by 1024, by suffix. *)
Definition suffix_of (c : Z) : option nat :=
  if bool_decide (c = 116) || bool_decide (c = 84) then Some 4%nat
  else if bool_decide (c = 103) || bool_decide (c = 71) then Some 3%nat
  else if bool_decide (c = 109) || bool_decide (c = 77) then Some 2%nat
  else if bool_decide (c = 107) || bool_decide (c = 75) then Some 1%nat
  else None.
Fixpoint mul1024 {St} (n : nat) (val : Z) : prog St Z :=
  match n with
  | O => mret val
  | S n => val ← mul64 val 1024; mul1024 n val
  end.

Definition getsize (str : bytes) (powerof2 : Z) : N Z :=
  let '(val, ptr) := strtoll str in
  match suffix_of (front ptr) with
  | None => stop_with (Exit 1)
  | Some n =>
      val ← mul1024 n val;
      if bool_decide (front (tail ptr) ≠ 0) then stop_with (Exit 1)
      else if bool_decide (powerof2 .& 1 ≠ 0) && bool_decide (val .^ (val - 1) ≠ s64 (val .<< 1) - 1)
      then stop_with (Exit 1)
      else if bool_decide (powerof2 .& 2 ≠ 0) && bool_decide (val .& HAMMER_BUFMASK ≠ 0)
      then stop_with (Exit 1)
      else mret val
  end.

(** The four [test_*_size] functions: below the minimum is an error unless [-f] was given
    before, above the maximum always is. *)
Definition test_size (min max size : Z) : N () :=
  s ← get_state;
  if bool_decide (size < min) then (if ForceOpt s then mret () else stop_with (Exit 1))
  else if bool_decide (max < size) then stop_with (Exit 1)
  else mret ().
Definition test_header_junk_size : Z -> N () := test_size HAMMER_MIN_VOL_JUNK HAMMER_MAX_VOL_JUNK.
Definition test_boot_area_size : Z -> N () := test_size HAMMER_BOOT_MINBYTES HAMMER_BOOT_MAXBYTES.
Definition test_memory_log_size : Z -> N () := test_size HAMMER_MEM_MINBYTES HAMMER_MEM_MAXBYTES.
Definition test_undo_buffer_size : Z -> N () :=
  test_size (HAMMER_BIGBLOCK_SIZE * HAMMER_MIN_UNDO_BIGBLOCKS) (HAMMER_BIGBLOCK_SIZE * HAMMER_MAX_UNDO_BIGBLOCKS).

(** 0 or -1. *)
Definition hammer_parse_cache_size (arg : bytes) : N Z :=
  let '(v, ptr) := strtoll arg in
  let size := s32 v in
  let c := front ptr in
  let mega := bool_decide (c = 109) || bool_decide (c = 77) in
  let kilo := bool_decide (c = 107) || bool_decide (c = 75) in
  if mega || kilo || bool_decide (c = 0) || bool_decide (c = 58) then
    size ← (if mega then mul32 size 1024 else mret size);
    size ← (if mega || kilo then mul32 size 1024 else mret size);
    let ptr := if mega || kilo then tail ptr else ptr in
    when (bool_decide (front ptr = 58))
      (let ra := s32 (fst (strtoll (tail ptr))) in
       if bool_decide (ra = - 2 ^ 31) then stop_with Undef else modify (set_nf_ReadAhead ra));;
    let size := if bool_decide (size < 1024 * 1024) then 1024 * 1024 else size in
    s ← get_state;
    if bool_decide (nf_ReadAhead s < 0) then mret (-1)
    else
      t ← mul32 (nf_ReadAhead s) HAMMER_BUFSIZE;
      when (bool_decide (Z.quot (Z.quot t size) 16 ≠ 0))
        (modify (set_nf_ReadAhead (Z.quot (Z.quot size 16) HAMMER_BUFSIZE)));;
      modify (set_nf_CacheMax size);;
      mret 0
  else mret (-1).

(** An option as [getopt] delivers it. *)
Inductive newfs_opt :=
  | Opt_d | Opt_f | Opt_E
  | Opt_L (arg : bytes)
  | Opt_j (arg : bytes)
  | Opt_b (arg : bytes)
  | Opt_m (arg : bytes)
  | Opt_u (arg : bytes)
  | Opt_h
  | Opt_C (arg : bytes)
  | Opt_V (arg : bytes)
  | Opt_other.

(** One turn of the option loop of [main]. *)
Definition parse_option (o : newfs_opt) : N () :=
  match o with
  | Opt_d => mret ()
  | Opt_f => modify (set_ForceOpt true)
  | Opt_E => modify (set_nf_eflag true)
  | Opt_L arg => modify (set_nf_label (Some arg))
  | Opt_j arg => v ← getsize arg 2; modify (set_HeaderJunkSize v);; test_header_junk_size v
  | Opt_b arg => v ← getsize arg 2; modify (set_BootAreaSize v);; test_boot_area_size v
  | Opt_m arg => v ← getsize arg 2; modify (set_MemoryLogSize v);; test_memory_log_size v
  | Opt_u arg => v ← getsize arg 2; modify (set_UndoBufferSize v);; test_undo_buffer_size v
  | Opt_h => stop_with (Exit 0)
  | Opt_C arg => r ← hammer_parse_cache_size arg; if bool_decide (r = -1) then stop_with (Exit 1) else mret ()
  | Opt_V arg =>
      let v := uwrap 32 (fst (strtoll arg)) in
      modify (set_nf_version v);;
      if bool_decide (v < HAMMER_VOL_VERSION_MIN) || bool_decide (HAMMER_VOL_VERSION_WIP <= v)
      then stop_with (Exit 1) else mret ()
  | Opt_other => stop_with (Exit 1)
  end.
Fixpoint parse_options (os : list newfs_opt) : N () :=
  match os with
  | [] => mret ()
  | o :: os => parse_option o;; parse_options os
  end.

(** ** Default sizes (ondisk.c) *)

(** [while (value > avg_vol_size / HAMMER_MAX_VOLUMES) value >>= 1]; [None] is out of
    turns. *)
Fixpoint halve (fuel : nat) (value limit : Z) : option Z :=
  if bool_decide (limit < value) then
    match fuel with
    | O => None
    | S fuel => halve fuel (value .>> 1) limit
    end
  else Some value.
Definition clamp (lo hi v : Z) : Z :=
  if bool_decide (v < lo) then lo else if bool_decide (hi < v) then hi else v.
(** A positive value that is halved 64 times is 0, so 64 turns are enough. *)
Definition init_boot_area_size (value avg_vol_size : Z) : option Z :=
  v ← (if bool_decide (value = 0)
       then halve 64 HAMMER_BOOT_NOMBYTES (Z.quot avg_vol_size HAMMER_MAX_VOLUMES) else Some value);
  Some (clamp HAMMER_BOOT_MINBYTES HAMMER_BOOT_MAXBYTES v).
Definition init_memory_log_size (value avg_vol_size : Z) : option Z :=
  v ← (if bool_decide (value = 0)
       then halve 64 HAMMER_MEM_NOMBYTES (Z.quot avg_vol_size HAMMER_MAX_VOLUMES) else Some value);
  Some (clamp HAMMER_MEM_MINBYTES HAMMER_MEM_MAXBYTES v).

(** The sizes [main] settles after the options, for [nvols] volumes of [total] bytes. *)
Definition default_sizes (total nvols : Z) : N () :=
  s ← get_state;
  let junk := if bool_decide (HeaderJunkSize s = -1) then HAMMER_VOL_JUNK_SIZE
              else if bool_decide (HeaderJunkSize s < Z.of_nat (sizeof hammer_volume_ondisk))
              then Z.of_nat (sizeof hammer_volume_ondisk) else HeaderJunkSize s in
  modify (set_HeaderJunkSize (HAMMER_BUFSIZE_DOALIGN junk));;
  let avg_vol_size := Z.quot total nvols in
  s ← get_state;
  when (bool_decide (BootAreaSize s = -1))
    (match init_boot_area_size (BootAreaSize s) avg_vol_size with
     | Some v => modify (set_BootAreaSize v)
     | None => stop_with OutOfFuel
     end);;
  s ← get_state;
  when (bool_decide (MemoryLogSize s = -1))
    (match init_memory_log_size (MemoryLogSize s) avg_vol_size with
     | Some v => modify (set_MemoryLogSize v)
     | None => stop_with OutOfFuel
     end).

(** ** The layout of a volume ([format_volume]) *)

Record layout := {
  ly_bot_beg : Z;
  ly_mem_beg : Z;
  ly_buf_beg : Z;
  ly_buf_end : Z;
  ly_free_off : Z;   (** [vol_free_off], zone-2 *)
  ly_free_end : Z;
}.

Definition GIG : Z := 1024 * 1024 * 1024.

(** The checks of the free area: the root volume has its free big-blocks counted and needs
    10 GB of them unless [-f] was given; [initialize_freemap], which formats the freemap of
    every other volume, begins with [assert_volume_offset]. *)
Definition check_free (vol_no vol_free_off vol_free_end : Z) : N () :=
  s ← get_state;
  assert_free_range vol_free_off vol_free_end;;
  if bool_decide (vol_no = HAMMER_ROOT_VOLNO) then
    let freebytes := count_free_bigblocks vol_no vol_free_end * HAMMER_BIGBLOCK_SIZE in
    if bool_decide (freebytes < 10 * GIG) && negb (ForceOpt s) then stop_with (Exit 1) else mret ()
  else mret ().

(** [vol_alloc] is unsigned, the header fields it is stored to are signed. *)
Definition volume_layout (vol_no size : Z) : N layout :=
  s ← get_state;
  let a0 := u64 (HeaderJunkSize s) in
  let a1 := u64 (a0 + u64 (BootAreaSize s)) in
  let a2 := u64 (a1 + u64 (MemoryLogSize s)) in
  let buf_end := size .& Z.lnot HAMMER_BUFMASK in
  let vol_buf_size := buf_end - s64 a2 in
  if negb (bool_decide (in_s 64 vol_buf_size)) then stop_with Undef
  else if bool_decide (vol_buf_size < Z.of_nat (sizeof hammer_volume_ondisk)) then stop_with (Exit 1)
  else if bool_decide (u64 vol_buf_size .& bnot 64 HAMMER_OFF_SHORT_MASK ≠ 0) then stop_with (Exit 1)
  else
    let vol_free_off := HAMMER_ENCODE_RAW_BUFFER vol_no 0 in
    let vol_free_end := HAMMER_ENCODE_RAW_BUFFER vol_no (u64 vol_buf_size .& bnot 64 HAMMER_BIGBLOCK_MASK64) in
    check_free vol_no vol_free_off vol_free_end;;
    mret {| ly_bot_beg := s64 a0; ly_mem_beg := s64 a1; ly_buf_beg := s64 a2; ly_buf_end := buf_end;
            ly_free_off := vol_free_off; ly_free_end := vol_free_end |}.

(** [createtid], with its static variable. *)
Definition createtid (lasttid : Z) : Z * Z :=
  let lasttid := if bool_decide (lasttid = 0) then 0x100000000 else lasttid in
  (lasttid, u64 (lasttid + 1)).
