(* ===== verification/NewfsProps.v ===== *)
(** * NewfsProps: sizes and layout

    What the size arithmetic of newfs_hammer guarantees: the default sizes, the values
    [getsize] accepts, the regions of a volume laid out from accepted options, and the size
    of the UNDO FIFO. *)

From S2P Require Import Prelude HammerDisk Layout CMonad Ondisk Blockmap Newfs.

(** ** Default sizes *)

(** [halve] stops at the first halving that fits. *)
Lemma halve_spec fuel value limit :
  0 <= limit -> 0 < value < 2 ^ Z.of_nat fuel ->
  exists k, 0 <= k /\ halve fuel value limit = Some (value / 2 ^ k) /\ value / 2 ^ k <= limit /\
    (0 < k -> limit < value / 2 ^ (k - 1)).
Proof.
  intros Hl. revert value. induction fuel as [|fuel IH]; intros value Hv; [cbn in Hv; lia|]. cbn [halve].
  case_bool_decide as Hlt; [|exists 0; rewrite Z.pow_0_r, Z.div_1_r; split_and!; [lia|done|lia|lia]].
  rewrite Z.shiftr_div_pow2 by done. change (2 ^ 1) with 2.
  destruct (decide (value = 1)) as [->|H1].
  - exists 1. change (1 / 2) with 0. replace (halve fuel 0 limit) with (Some 0).
    + split_and!; [lia|done|done|]. intros _. by change (1 / 2 ^ (1 - 1)) with 1.
    + destruct fuel; cbn; by rewrite bool_decide_eq_false_2 by lia.
  - destruct (IH (value / 2)) as (k & Hk & -> & Hle & Hgt).
    + rewrite Nat2Z.inj_succ, Z.pow_succ_r in Hv by lia. split; [apply Z.div_str_pos; lia|apply Z.div_lt_upper_bound; lia].
    + rewrite Z.div_div in * by lia. rewrite <- Z.pow_succ_r in * by done.
      exists (Z.succ k). split_and!; [lia|done|done|]. intros _.
      destruct (decide (k = 0)) as [->|]; [change (2 ^ (Z.succ 0 - 1)) with 1; rewrite Z.div_1_r; lia|].
      rewrite Z.div_div in Hgt by lia. rewrite <- Z.pow_succ_r in Hgt by lia.
      replace (Z.succ k - 1) with (Z.succ (k - 1)) by lia. apply Hgt. lia.
Qed.

Lemma clamp_range lo hi v : lo <= hi -> lo <= clamp lo hi v <= hi.
Proof. intros H. unfold clamp. repeat case_bool_decide; lia. Qed.

(** The default for an area with nominal size [nom]. *)
Definition default_area (min nom avg r : Z) : Prop :=
  min <= r <= nom /\
  (r = min \/ r <= avg / HAMMER_MAX_VOLUMES) /\
  exists k, 0 <= k /\ r = Z.max min (nom / 2 ^ k) /\ (0 < k -> avg / HAMMER_MAX_VOLUMES < nom / 2 ^ (k - 1)).

Lemma default_area_spec min nom max avg :
  0 < min <= nom -> nom <= max -> nom < 2 ^ 64 -> 0 <= avg ->
  exists v, halve 64 nom (Z.quot avg HAMMER_MAX_VOLUMES) = Some v /\ default_area min nom avg (clamp min max v).
Proof.
  intros Hmin Hmax Hnom Havg. rewrite Z.quot_div_nonneg by (unfold HAMMER_MAX_VOLUMES; lia).
  destruct (halve_spec 64 nom (avg / HAMMER_MAX_VOLUMES)) as (k & Hk & -> & Hle & Hgt).
  { apply Z.div_pos; [lia|done]. }
  { change (Z.of_nat 64) with 64. lia. }
  assert (nom / 2 ^ k <= nom) as Hn by (apply Z.div_le_upper_bound; nia).
  exists (nom / 2 ^ k). split; [done|]. unfold default_area, clamp.
  repeat case_bool_decide; (split; [lia|split; [lia|]]); exists k; split_and!; try done; lia.
Qed.

(** the default size of the boot area and of the memory log of a volume (value 0) is
    the nominal size, halved until it fits in 1/256 of the average volume, but at least the
    minimum; the halving loop always ends. *)
Theorem default_area_sizes (avg : Z) :
  0 <= avg ->
  (exists r, init_boot_area_size 0 avg = Some r /\ default_area HAMMER_BOOT_MINBYTES HAMMER_BOOT_NOMBYTES avg r) /\
  (exists r, init_memory_log_size 0 avg = Some r /\ default_area HAMMER_MEM_MINBYTES HAMMER_MEM_NOMBYTES avg r).
Proof.
  intros Havg. split.
  - destruct (default_area_spec HAMMER_BOOT_MINBYTES HAMMER_BOOT_NOMBYTES HAMMER_BOOT_MAXBYTES avg)
      as (v & Hv & Ha); [done|done|done|done|]. eexists. split; [|exact Ha].
    unfold init_boot_area_size. rewrite bool_decide_eq_true_2 by done. by rewrite Hv.
  - destruct (default_area_spec HAMMER_MEM_MINBYTES HAMMER_MEM_NOMBYTES HAMMER_MEM_MAXBYTES avg)
      as (v & Hv & Ha); [done|done|done|done|]. eexists. split; [|exact Ha].
    unfold init_memory_log_size. rewrite bool_decide_eq_true_2 by done. by rewrite Hv.
Qed.

Lemma default_area_sizes_witness :
  exists r, init_boot_area_size 0 (2 ^ 33) = Some r /\ default_area HAMMER_BOOT_MINBYTES HAMMER_BOOT_NOMBYTES (2 ^ 33) r.
Proof. apply (default_area_sizes (2 ^ 33)). done. Defined.

(** newfs_hammer does not get those defaults.  It passes -1, not 0, for an area the
    user did not size, so its boot area and memory log are the minimum for every volume,
    also where the default for the same volume is the nominal size. *)
Theorem newfs_areas_are_minimal (s : newfs) (total nvols : Z) :
  BootAreaSize s = -1 -> MemoryLogSize s = -1 ->
  (exists s', default_sizes total nvols s = Ok () s' /\
    BootAreaSize s' = HAMMER_BOOT_MINBYTES /\ MemoryLogSize s' = HAMMER_MEM_MINBYTES) /\
  (forall avg, HAMMER_MAX_VOLUMES * HAMMER_MEM_NOMBYTES <= avg ->
    init_boot_area_size 0 avg = Some HAMMER_BOOT_NOMBYTES /\ init_memory_log_size 0 avg = Some HAMMER_MEM_NOMBYTES).
Proof.
  intros Hb Hm. split.
  - unfold default_sizes. eexists. split.
    + rewrite (bind_Ok _ _ _ s s) by done. erewrite bind_Ok by done. erewrite bind_Ok by done.
      erewrite bind_Ok; [|cbn [BootAreaSize set_HeaderJunkSize]; rewrite Hb; done].
      erewrite bind_Ok by done. cbn [MemoryLogSize set_BootAreaSize set_HeaderJunkSize]. rewrite Hm. done.
    + done.
  - intros avg Havg. unfold init_boot_area_size, init_memory_log_size.
    rewrite !(bool_decide_eq_true_2 (0 = 0)) by done. unfold halve.
    assert (HAMMER_MEM_NOMBYTES <= Z.quot avg HAMMER_MAX_VOLUMES) as Hq.
    { rewrite Z.quot_div_nonneg by (unfold HAMMER_MAX_VOLUMES, HAMMER_MEM_NOMBYTES in *; lia).
      apply Z.div_le_lower_bound; [done|exact Havg]. }
    rewrite !bool_decide_eq_false_2 by (unfold HAMMER_BOOT_NOMBYTES, HAMMER_MEM_NOMBYTES in *; lia). done.
Qed.

Lemma newfs_areas_are_minimal_witness :
  exists s', default_sizes (2 ^ 42) 1 newfs_init = Ok () s' /\ BootAreaSize s' = HAMMER_BOOT_MINBYTES.
Proof.
  destruct (newfs_areas_are_minimal newfs_init (2 ^ 42) 1 eq_refl eq_refl) as [(s' & Hs & Hb & _) _].
  exists s'. split; [exact Hs|exact Hb].
Defined.

(** ** Sizes in options *)

(** [inv_bind H] opens a bind that returned. *)
Ltac inv_bind H :=
  let a := fresh "a" in let s := fresh "s" in let H1 := fresh "H" in
  apply bind_Ok_inv in H as (a & s & H1 & H).

Lemma mul1024_inv {St} n val v (s s' : St) :
  in_s 64 val -> mul1024 n val s = Ok v s' -> s' = s /\ v = val * 1024 ^ Z.of_nat n /\ in_s 64 v.
Proof.
  revert val. induction n as [|n IH]; intros val Hv H; cbn [mul1024] in H.
  - injection H as <- <-. rewrite Z.mul_1_r. done.
  - inv_bind H. unfold mul64 in H0. case_bool_decide as Hr; [|done]. injection H0 as <- <-.
    apply IH in H as (-> & -> & Hin); [|done]. split; [done|]. split; [|done].
    rewrite Nat2Z.inj_succ, Z.pow_succ_r by lia. lia.
Qed.

Lemma strtoll_range str : in_s 64 (fst (strtoll str)).
Proof.
  unfold strtoll. destruct (sign_of (skip_spaces str)) as [neg body].
  destruct (number_of str body) as [v rest]. cbn [fst]. unfold in_s. lia.
Qed.

Lemma getsize_inv str v s s' :
  getsize str 2 s = Ok v s' ->
  s' = s /\ exists n, suffix_of (front (snd (strtoll str))) = Some n /\
    v = fst (strtoll str) * 1024 ^ Z.of_nat n /\ in_s 64 v /\ v mod HAMMER_BUFSIZE = 0 /\
    front (tail (snd (strtoll str))) = 0.
Proof.
  intros H. unfold getsize in H. pose proof (strtoll_range str) as Hr. destruct (strtoll str) as [val ptr].
  cbn [fst snd] in *. destruct (suffix_of (front ptr)) as [n|]; [|done]. inv_bind H.
  apply mul1024_inv in H0 as (-> & -> & Hin); [|done].
  case_bool_decide as Hend; [done|]. cbn [andb] in H.
  rewrite (bool_decide_eq_false_2 (2 .& 1 ≠ 0)) in H by (intros Hc; by apply Hc). cbn [andb] in H.
  rewrite (bool_decide_eq_true_2 (2 .& 2 ≠ 0)) in H by done. cbn [andb] in H.
  case_bool_decide as Hal; [done|]. injection H as <- <-. split; [done|]. exists n.
  split_and!; try done.
  change HAMMER_BUFMASK with (Z.ones 14) in Hal. rewrite land_ones_mod in Hal by done.
  change HAMMER_BUFSIZE with (2 ^ 14). by destruct (decide (val * 1024 ^ Z.of_nat n mod 2 ^ 14 = 0)).
Qed.

(** A size given by an option, or the value that means none. *)
Definition size_ok (min max none v : Z) : Prop := v = none \/ min <= v <= max /\ v mod HAMMER_BUFSIZE = 0.

(** The settings after options that did not include [-f]. *)
Record accepted (s : newfs) : Prop := {
  ac_force : ForceOpt s = false;
  ac_junk : size_ok HAMMER_MIN_VOL_JUNK HAMMER_MAX_VOL_JUNK (-1) (HeaderJunkSize s);
  ac_boot : size_ok HAMMER_BOOT_MINBYTES HAMMER_BOOT_MAXBYTES (-1) (BootAreaSize s);
  ac_mem : size_ok HAMMER_MEM_MINBYTES HAMMER_MEM_MAXBYTES (-1) (MemoryLogSize s);
  ac_undo : size_ok (HAMMER_BIGBLOCK_SIZE * HAMMER_MIN_UNDO_BIGBLOCKS)
              (HAMMER_BIGBLOCK_SIZE * HAMMER_MAX_UNDO_BIGBLOCKS) 0 (UndoBufferSize s);
}.

Lemma test_size_inv min max v s s' :
  test_size min max v s = Ok () s' -> ForceOpt s = false -> s' = s /\ min <= v <= max.
Proof.
  intros H Hf. unfold test_size in H. rewrite (bind_Ok _ _ _ s s) in H by done. rewrite Hf in H.
  repeat case_bool_decide; try done. injection H as <-. split; [done|lia].
Qed.

(** An option that sets a size with [upd] and tests it. *)
Lemma size_option_inv (upd : Z -> newfs -> newfs) min max arg s s' :
  (forall v s, ForceOpt (upd v s) = ForceOpt s) ->
  (v ← getsize arg 2; modify (upd v);; test_size min max v) s = Ok () s' -> ForceOpt s = false ->
  exists v, s' = upd v s /\ min <= v <= max /\ v mod HAMMER_BUFSIZE = 0.
Proof.
  intros Hupd H Hf. inv_bind H. apply getsize_inv in H0 as (-> & n & _ & _ & _ & Hal & _).
  inv_bind H. injection H0 as <- <-. apply test_size_inv in H as [-> Hr]; [|by rewrite Hupd]. eauto.
Qed.

(** Cache options leave the sizes alone. *)
Definition same_sizes (s s' : newfs) : Prop :=
  ForceOpt s' = ForceOpt s /\ HeaderJunkSize s' = HeaderJunkSize s /\ BootAreaSize s' = BootAreaSize s /\
  MemoryLogSize s' = MemoryLogSize s /\ UndoBufferSize s' = UndoBufferSize s.

Lemma same_sizes_refl s : same_sizes s s.
Proof. split_and!; done. Qed.

Lemma accepted_same s s' : same_sizes s s' -> accepted s -> accepted s'.
Proof. intros (Hf & Hj & Hb & Hm & Hu) [? ? ? ? ?]. split; congruence. Qed.

Lemma mul32_inv a b v s s' : mul32 a b s = Ok v s' -> s' = s /\ v = a * b.
Proof. unfold mul32. case_bool_decide; [|done]. by intros [= <- <-]. Qed.

(** What [hammer_parse_cache_size] leaves when it succeeds. *)
Definition cache_ok (s : newfs) : Prop :=
  1024 * 1024 <= nf_CacheMax s /\ 0 <= nf_ReadAhead s /\ nf_ReadAhead s * HAMMER_BUFSIZE < 16 * nf_CacheMax s.

Lemma parse_cache_size_inv arg r s s' :
  hammer_parse_cache_size arg s = Ok r s' -> same_sizes s s' /\ (r = 0 /\ cache_ok s' \/ r = -1).
Proof.
  intros H. unfold hammer_parse_cache_size in H. destruct (strtoll arg) as [v ptr].
  set (mega := bool_decide (front ptr = 109) || bool_decide (front ptr = 77)) in *.
  set (kilo := bool_decide (front ptr = 107) || bool_decide (front ptr = 75)) in *.
  destruct (_ || bool_decide (front ptr = 58)); [|injection H as <- <-; split; [apply same_sizes_refl|by right]].
  inv_bind H. assert (s0 = s) as -> by (destruct mega; [by apply mul32_inv in H0 as [-> _]|by injection H0 as <-]).
  clear H0. inv_bind H.
  assert (s0 = s) as -> by (destruct (mega || kilo); [by apply mul32_inv in H0 as [-> _]|by injection H0 as <-]).
  clear H0. inv_bind H.
  assert (same_sizes s s0) as Hsame.
  { unfold when in H0. destruct (bool_decide (_ = 58)); [|injection H0 as <- <-; apply same_sizes_refl].
    destruct (bool_decide (_ = - 2 ^ 31)); [done|]. injection H0 as <- <-. split_and!; done. }
  clear H0. inv_bind H. injection H0 as <- <-. case_bool_decide as Hneg; [injection H as <- <-; split; [done|by right]|].
  set (size := if bool_decide (a0 < 1024 * 1024) then 1024 * 1024 else a0) in *.
  assert (1024 * 1024 <= size) as Hsize by (unfold size; case_bool_decide; lia).
  inv_bind H. apply mul32_inv in H0 as [-> ->]. inv_bind H. inv_bind H. injection H1 as <- <-. injection H as <- <-.
  assert (forall x y z, 0 <= x -> 0 < y -> 0 < z -> Z.quot (Z.quot x y) z = x / y / z) as Hq.
  { intros x y z Hx Hy Hz. rewrite (Z.quot_div_nonneg x) by done. apply Z.quot_div_nonneg; [by apply Z.div_pos|done]. }
  rewrite !Hq in H0 by (done || unfold HAMMER_BUFSIZE; lia). clear Hq.
  unfold when in H0. case_bool_decide as Hbig.
  - injection H0 as <- <-. split; [exact Hsame|]. left. split; [done|]. unfold cache_ok. cbn.
    unfold HAMMER_BUFSIZE. split; [lia|]. dlia.
  - injection H0 as <- <-. split; [exact Hsame|]. left. split; [done|]. unfold cache_ok. cbn.
    split; [lia|]. split; [lia|]. assert (nf_ReadAhead s0 * HAMMER_BUFSIZE / size / 16 = 0) as Hz by (destruct (decide (nf_ReadAhead s0 * HAMMER_BUFSIZE / size / 16 = 0)); tauto).
    rewrite Z.div_div in Hz by lia. apply Z.div_small_iff in Hz; lia.
Qed.

Lemma parse_option_accepted o s s' :
  o ≠ Opt_f -> parse_option o s = Ok () s' -> accepted s -> accepted s'.
Proof.
  intros Ho H Ha. destruct o; cbn [parse_option] in H; try done.
  - by injection H as <-.
  - injection H as <-. by apply (accepted_same s).
  - injection H as <-. by apply (accepted_same s).
  - apply (size_option_inv set_HeaderJunkSize) in H as (v & -> & Hr & Hal); [|done|apply Ha].
    destruct Ha. split; try done. by right.
  - apply (size_option_inv set_BootAreaSize) in H as (v & -> & Hr & Hal); [|done|apply Ha].
    destruct Ha. split; try done. by right.
  - apply (size_option_inv set_MemoryLogSize) in H as (v & -> & Hr & Hal); [|done|apply Ha].
    destruct Ha. split; try done. by right.
  - apply (size_option_inv set_UndoBufferSize) in H as (v & -> & Hr & Hal); [|done|apply Ha].
    destruct Ha. split; try done. by right.
  - inv_bind H. apply parse_cache_size_inv in H0 as [Hs _]. case_bool_decide; [done|]. injection H as <-.
    by apply (accepted_same s).
  - inv_bind H. injection H0 as <- <-. destruct (_ || _); [done|]. injection H as <-. by apply (accepted_same s).
Qed.

Lemma parse_options_accepted os s s' :
  Opt_f ∉ os -> parse_options os s = Ok () s' -> accepted s -> accepted s'.
Proof.
  revert s. induction os as [|o os IH]; intros s Hf H Ha; cbn [parse_options] in H; [by injection H as <-|].
  inv_bind H. destruct a. apply not_elem_of_cons in Hf as [Ho Hf].
  eapply IH; [done|exact H|]. by eapply parse_option_accepted.
Qed.

Lemma accepted_init : accepted newfs_init.
Proof. split; [done|by left..]. Qed.

(** ** The layout of a volume *)

(** Sizes with which volumes are laid out. *)
Record settled_sizes (s : newfs) : Prop := {
  ss_force : ForceOpt s = false;
  ss_junk : HeaderJunkSize s = HAMMER_VOL_JUNK_SIZE;
  ss_boot : HAMMER_BOOT_MINBYTES <= BootAreaSize s <= HAMMER_BOOT_MAXBYTES /\ BootAreaSize s mod HAMMER_BUFSIZE = 0;
  ss_mem : HAMMER_MEM_MINBYTES <= MemoryLogSize s <= HAMMER_MEM_MAXBYTES /\ MemoryLogSize s mod HAMMER_BUFSIZE = 0;
}.

Lemma default_sizes_settled s total nvols :
  accepted s -> exists s', default_sizes total nvols s = Ok () s' /\ settled_sizes s'.
Proof.
  intros [Hf Hj Hb Hm _].
  set (s1 := set_HeaderJunkSize HAMMER_VOL_JUNK_SIZE s).
  set (s2 := if bool_decide (BootAreaSize s = -1) then set_BootAreaSize HAMMER_BOOT_MINBYTES s1 else s1).
  set (s3 := if bool_decide (MemoryLogSize s = -1) then set_MemoryLogSize HAMMER_MEM_MINBYTES s2 else s2).
  exists s3. split.
  - unfold default_sizes. rewrite (bind_Ok _ _ _ s s) by done. rewrite (bind_Ok _ _ _ () s1).
    2: { unfold modify, s1. do 2 f_equal. destruct Hj as [Hj|[Hj _]].
         - rewrite Hj. done.
         - assert (HeaderJunkSize s = HAMMER_VOL_JUNK_SIZE) as -> by (unfold HAMMER_MAX_VOL_JUNK, HAMMER_VOL_JUNK_SIZE in *; lia).
           by vm_compute. }
    rewrite (bind_Ok _ _ _ s1 s1) by done. change (BootAreaSize s1) with (BootAreaSize s).
    rewrite (bind_Ok _ _ _ () s2).
    2: { unfold s2, when. case_bool_decide as He; [|done]. by rewrite He. }
    rewrite (bind_Ok _ _ _ s2 s2) by done.
    assert (MemoryLogSize s2 = MemoryLogSize s) as -> by (unfold s2; by destruct (bool_decide _)).
    unfold s3, when. case_bool_decide as He; [|done]. by rewrite He.
  - split; unfold s3, s2.
    + by destruct (bool_decide (MemoryLogSize s = -1)), (bool_decide (BootAreaSize s = -1)).
    + by destruct (bool_decide (MemoryLogSize s = -1)), (bool_decide (BootAreaSize s = -1)).
    + destruct Hb as [Hb|Hb].
      * rewrite (bool_decide_eq_true_2 _ Hb). destruct (bool_decide (MemoryLogSize s = -1)); (split; [|by vm_compute]);
          cbn; unfold HAMMER_BOOT_MINBYTES, HAMMER_BOOT_MAXBYTES; lia.
      * rewrite (bool_decide_eq_false_2 (BootAreaSize s = -1)) by (unfold HAMMER_BOOT_MINBYTES in *; lia).
        by destruct (bool_decide (MemoryLogSize s = -1)).
    + destruct Hm as [Hm|Hm].
      * rewrite (bool_decide_eq_true_2 _ Hm). destruct (bool_decide (BootAreaSize s = -1)); (split; [|by vm_compute]);
          cbn; unfold HAMMER_MEM_MINBYTES, HAMMER_MEM_MAXBYTES; lia.
      * rewrite (bool_decide_eq_false_2 (MemoryLogSize s = -1)) by (unfold HAMMER_MEM_MINBYTES in *; lia).
        by destruct (bool_decide (BootAreaSize s = -1)).
Qed.

(** The regions of a volume of [size] bytes: header junk, boot area, memory log and
    buffers, in this order, each of whole buffers and of a size within its limits; the free
    area is the whole big-blocks of the buffer region. *)
Record layout_ok (s : newfs) (vol_no size : Z) (ly : layout) : Prop := {
  lo_header : Z.of_nat (sizeof hammer_volume_ondisk) <= ly_bot_beg ly;
  lo_boot : ly_mem_beg ly - ly_bot_beg ly = BootAreaSize s;
  lo_mem : ly_buf_beg ly - ly_mem_beg ly = MemoryLogSize s;
  lo_aligned : ly_bot_beg ly mod HAMMER_BUFSIZE = 0 /\ ly_mem_beg ly mod HAMMER_BUFSIZE = 0 /\
    ly_buf_beg ly mod HAMMER_BUFSIZE = 0 /\ ly_buf_end ly mod HAMMER_BUFSIZE = 0;
  lo_end : ly_buf_end ly <= size < ly_buf_end ly + HAMMER_BUFSIZE;
  lo_size : 0 < ly_buf_end ly - ly_buf_beg ly < 2 ^ 52;
  lo_free : ly_free_off ly = 2 * 2 ^ 60 + vol_no * 2 ^ 52 /\
    ly_free_end ly = ly_free_off ly + (ly_buf_end ly - ly_buf_beg ly) / HAMMER_BIGBLOCK_SIZE * HAMMER_BIGBLOCK_SIZE;
}.

Lemma land_lnot_ones x k : 0 <= k -> x .& Z.lnot (Z.ones k) = x / 2 ^ k * 2 ^ k.
Proof. intros Hk. by rewrite <- Z.ldiff_land, Z.ldiff_ones_r, Z.shiftr_div_pow2, Z.shiftl_mul_pow2. Qed.

(** The big-blocks the second loop of [count_freemap] counts, for offsets that are whole
    big-blocks from [base] on. *)
Lemma count_loop_eq n base i a e c :
  count_loop n (base + i * HAMMER_BIGBLOCK_SIZE) (base + a * HAMMER_BIGBLOCK_SIZE) (base + e * HAMMER_BIGBLOCK_SIZE) c =
    c + Z.max 0 (Z.min e (i + Z.of_nat n) - Z.max a i).
Proof.
  unfold HAMMER_BIGBLOCK_SIZE. revert i c. induction n as [|n IH]; intros i c; cbn [count_loop]; [lia|].
  unfold HAMMER_BIGBLOCK_SIZE.
  replace (base + i * (8192 * 1024) + 8192 * 1024) with (base + (i + 1) * (8192 * 1024)) by lia. rewrite IH.
  repeat case_bool_decide; lia.
Qed.

(** The big-blocks the freemap of a volume of [big] big-blocks takes: one for layer 1, on
    the root volume, and one of layer 2 for every 4 TB begun. *)
Definition freemap_bigblocks (vol_no big : Z) : Z :=
  (if bool_decide (vol_no = HAMMER_ROOT_VOLNO) then 1 else 0) +
  (big * HAMMER_BIGBLOCK_SIZE + HAMMER_BLOCKMAP_LAYER2 - 1) / HAMMER_BLOCKMAP_LAYER2.

Lemma count_free_bigblocks_eq vol_no big :
  0 <= vol_no < 256 -> 0 <= big < 2 ^ 29 ->
  count_free_bigblocks vol_no (2 * 2 ^ 60 + vol_no * 2 ^ 52 + big * HAMMER_BIGBLOCK_SIZE) =
    Z.max 0 (big - freemap_bigblocks vol_no big).
Proof.
  intros Hv Hb. unfold count_free_bigblocks, freemap_bigblocks, HAMMER_ENCODE_RAW_BUFFER, HAMMER_ZONE_RAW_BUFFER_INDEX.
  rewrite encode_add by (unfold in_u; lia).
  set (base := 2 * 2 ^ 60 + vol_no * 2 ^ 52 + 0). set (r := if bool_decide (vol_no = HAMMER_ROOT_VOLNO) then 1 else 0).
  change HAMMER_BLOCKMAP_LAYER2 with (2 ^ 42). change HAMMER_BIGBLOCK_SIZE with (2 ^ 23).
  set (l2 := (big * 2 ^ 23 + 2 ^ 42 - 1) / 2 ^ 42).
  rewrite layer2_doalign_eq by lia.
  assert ((2 * 2 ^ 60 + vol_no * 2 ^ 52 + big * 2 ^ 23 + 2 ^ 42 - 1) / 2 ^ 42 * 2 ^ 42 = base + l2 * 2 ^ 42) as ->
    by (unfold base, l2; dlia).
  unfold turns. replace (base + l2 * 2 ^ 42 - base) with (l2 * 2 ^ 42) by lia.
  assert (0 <= l2 <= 2 ^ 10 /\ big <= l2 * 2 ^ 19) as [Hl2 Hbig] by (unfold l2; dlia).
  replace ((l2 * 2 ^ 42 + 2 ^ 42 - 1) / 2 ^ 42) with l2 by dlia.
  replace ((l2 * 2 ^ 42 + 2 ^ 23 - 1) / 2 ^ 23) with (l2 * 2 ^ 19) by dlia.
  rewrite Z2Nat.id by lia.
  replace (u64 _) with (base + (r + l2) * 2 ^ 23).
  2: { unfold r. rewrite uwrap_small; [|unfold in_u]; case_bool_decide; unfold base; lia. }
  replace (2 * 2 ^ 60 + vol_no * 2 ^ 52 + big * 2 ^ 23) with (base + big * 2 ^ 23) by (unfold base; lia).
  pose proof (count_loop_eq (Z.to_nat (l2 * 2 ^ 19)) base 0 (r + l2) big 0) as H.
  change HAMMER_BIGBLOCK_SIZE with (2 ^ 23) in H. rewrite Z.mul_0_l, Z.add_0_r in H. rewrite H.
  rewrite Z2Nat.id by lia. assert (0 <= r) by (unfold r; case_bool_decide; lia). lia.
Qed.

(** Whether a volume with a buffer area of [room] bytes is laid out without [-f]: the area
    holds a volume header, is within reach of an offset and has a big-block, and on the
    root volume 10 GB are left beside the freemap. *)
Definition room_ok (vol_no room : Z) : Prop :=
  Z.of_nat (sizeof hammer_volume_ondisk) <= room < 2 ^ 52 /\
  let big := room / HAMMER_BIGBLOCK_SIZE in
  0 < big /\ (vol_no = HAMMER_ROOT_VOLNO -> 10 * GIG <= (big - freemap_bigblocks vol_no big) * HAMMER_BIGBLOCK_SIZE).
#[export] Instance room_ok_dec vol_no room : Decision (room_ok vol_no room).
Proof. unfold room_ok. apply _. Defined.

Lemma check_free_spec s vol_no big :
  ForceOpt s = false -> 0 <= vol_no < 256 -> 0 <= big < 2 ^ 29 ->
  check_free vol_no (2 * 2 ^ 60 + vol_no * 2 ^ 52) (2 * 2 ^ 60 + vol_no * 2 ^ 52 + big * HAMMER_BIGBLOCK_SIZE) s =
    if decide (0 < big /\ (vol_no = HAMMER_ROOT_VOLNO ->
         10 * GIG <= (big - freemap_bigblocks vol_no big) * HAMMER_BIGBLOCK_SIZE))
    then Ok () s else Stop (Exit 1).
Proof.
  intros Hf Hv Hb. unfold check_free, assert_free_range, assertp. rewrite (bind_Ok _ _ _ s s) by done.
  rewrite count_free_bigblocks_eq by done. unfold GIG, HAMMER_BIGBLOCK_SIZE, HAMMER_ROOT_VOLNO in *.
  assert (forall off, 0 <= off < 2 ^ 52 -> hammer_is_zone_raw_buffer (2 * 2 ^ 60 + vol_no * 2 ^ 52 + off) = true) as Hz.
  { intros off Ho. apply is_raw_buffer_div; [unfold in_u; lia|]. dlia. }
  pose proof (Hz 0 ltac:(lia)) as Hz0. rewrite Z.add_0_r in Hz0. rewrite Hz0, Hz by lia.
  unfold mbind, prog_bind. cbn. rewrite Hf. cbn.
  destruct (decide _) as [[H0 H10]|Hn]; repeat case_bool_decide; cbn; try done; try (exfalso; lia).
Qed.

Lemma volume_layout_spec s vol_no size :
  settled_sizes s -> 0 <= vol_no < 256 -> 0 <= size < 2 ^ 63 ->
  let room := size / HAMMER_BUFSIZE * HAMMER_BUFSIZE - (HeaderJunkSize s + BootAreaSize s + MemoryLogSize s) in
  if decide (room_ok vol_no room)
  then exists ly, volume_layout vol_no size s = Ok ly s /\ layout_ok s vol_no size ly
  else volume_layout vol_no size s = Stop (Exit 1).
Proof.
  intros [Hf Hj [Hb Hba] [Hm Hma]] Hv Hs. unfold volume_layout. rewrite (bind_Ok _ _ _ s s) by done. rewrite Hj.
  set (room := size / HAMMER_BUFSIZE * HAMMER_BUFSIZE - (HAMMER_VOL_JUNK_SIZE + BootAreaSize s + MemoryLogSize s)).
  assert (0 <= BootAreaSize s <= 2 ^ 28) as Hb' by (unfold HAMMER_BOOT_MINBYTES, HAMMER_BOOT_MAXBYTES in *; lia).
  assert (0 <= MemoryLogSize s <= 2 ^ 36) as Hm' by (unfold HAMMER_MEM_MINBYTES, HAMMER_MEM_MAXBYTES in *; lia).
  change (u64 HAMMER_VOL_JUNK_SIZE) with HAMMER_VOL_JUNK_SIZE.
  rewrite (uwrap_small 64 (BootAreaSize s)), (uwrap_small 64 (MemoryLogSize s)) by (unfold in_u; lia).
  rewrite !(uwrap_small 64 (HAMMER_VOL_JUNK_SIZE + _)) by (unfold in_u, HAMMER_VOL_JUNK_SIZE, HAMMER_MIN_VOL_JUNK, HAMMER_BUFSIZE; lia).
  rewrite !(uwrap_small 64 (HAMMER_VOL_JUNK_SIZE + _ + _)) by (unfold in_u, HAMMER_VOL_JUNK_SIZE, HAMMER_MIN_VOL_JUNK, HAMMER_BUFSIZE; lia).
  rewrite !swrap_small by (unfold in_s, HAMMER_VOL_JUNK_SIZE, HAMMER_MIN_VOL_JUNK, HAMMER_BUFSIZE; lia).
  change HAMMER_BUFMASK with (Z.ones 14). rewrite land_lnot_ones by done. change (2 ^ 14) with HAMMER_BUFSIZE.
  fold room.
  assert (room < 2 ^ 63) as Hr63 by (unfold room, HAMMER_VOL_JUNK_SIZE, HAMMER_MIN_VOL_JUNK, HAMMER_BUFSIZE in *; dlia).
  rewrite (bool_decide_true (in_s 64 room)) by
    (unfold in_s, room, HAMMER_VOL_JUNK_SIZE, HAMMER_MIN_VOL_JUNK, HAMMER_BUFSIZE in *; dlia).
  unfold room_ok. change (Z.of_nat (sizeof hammer_volume_ondisk)) with 1928. cbn [negb].
  case_bool_decide as Hsmall; [rewrite decide_False; [done|]; intros [? _]; lia|].
  rewrite (uwrap_small 64 room) by (unfold in_u; lia).
  change HAMMER_OFF_SHORT_MASK with (Z.ones 52). rewrite land_bnot_ones by (unfold in_u; lia).
  case_bool_decide as Hbig;
    [rewrite decide_False; [done|]; intros [[_ Hlt] _]; apply Hbig; rewrite Z.mod_small by lia; lia|].
  assert (room < 2 ^ 52) as Hlt by (assert (room mod 2 ^ 52 = room) by lia; dlia).
  unfold HAMMER_ENCODE_RAW_BUFFER, HAMMER_ZONE_RAW_BUFFER_INDEX.
  change HAMMER_BIGBLOCK_MASK64 with (Z.ones 23). rewrite land_bnot_ones by (unfold in_u; lia).
  rewrite !encode_add by (unfold in_u; dlia). rewrite Z.add_0_r.
  assert (room - room mod 2 ^ 23 = room / HAMMER_BIGBLOCK_SIZE * HAMMER_BIGBLOCK_SIZE) as ->
    by (change HAMMER_BIGBLOCK_SIZE with (2 ^ 23); dlia).
  assert (0 <= room / HAMMER_BIGBLOCK_SIZE < 2 ^ 29) as Hbr by (change HAMMER_BIGBLOCK_SIZE with (2 ^ 23); dlia).
  pose proof (check_free_spec s vol_no (room / HAMMER_BIGBLOCK_SIZE) Hf Hv Hbr) as Hchk.
  destruct (decide (0 < _ /\ _)) as [Hok|Hno] in Hchk;
    [rewrite decide_True by (split; [lia|exact Hok])|rewrite decide_False by (intros [_ ?]; done)].
  2: { unfold mbind, prog_bind. by rewrite Hchk. }
  eexists. split; [by rewrite (bind_Ok _ _ _ _ _ Hchk)|].
  split; cbn [ly_bot_beg ly_mem_beg ly_buf_beg ly_buf_end ly_free_off ly_free_end].
  - done.
  - lia.
  - lia.
  - unfold HAMMER_VOL_JUNK_SIZE, HAMMER_MIN_VOL_JUNK, HAMMER_BUFSIZE in *. dlia.
  - unfold HAMMER_BUFSIZE. dlia.
  - lia.
  - fold room. unfold HAMMER_BIGBLOCK_SIZE. dlia.
Qed.

(** C15: from any options without [-f] that newfs_hammer accepts, and for every volume, the
    sizes are settled and the volume is either laid out in ordered, aligned, disjoint
    regions within their limits, or rejected before anything is formatted, and it is
    rejected exactly when the buffer area is smaller than a volume header, larger than an
    offset can address or less than one big-block, or when it is the root volume and what
    its freemap (a big-block, and one for every 4 TB begun) leaves is less than 10 GB. *)
Theorem newfs_layout_sound (os : list newfs_opt) (total nvols vol_no size : Z) (s1 : newfs) :
  Opt_f ∉ os -> parse_options os newfs_init = Ok () s1 -> 0 <= vol_no < 256 -> 0 <= size < 2 ^ 63 ->
  exists s, default_sizes total nvols s1 = Ok () s /\ settled_sizes s /\
    let room := size / HAMMER_BUFSIZE * HAMMER_BUFSIZE - (HeaderJunkSize s + BootAreaSize s + MemoryLogSize s) in
    if decide (room_ok vol_no room)
    then exists ly, volume_layout vol_no size s = Ok ly s /\ layout_ok s vol_no size ly
    else volume_layout vol_no size s = Stop (Exit 1).
Proof.
  intros Hf Hp Hv Hs. pose proof (parse_options_accepted _ _ _ Hf Hp accepted_init) as Ha.
  destruct (default_sizes_settled s1 total nvols Ha) as (s & Hd & Hss). exists s. split; [done|]. split; [done|].
  by apply volume_layout_spec.
Qed.

(** [-b 64k -u 512m] on one volume of 100 GB. *)
Lemma newfs_layout_sound_witness :
  exists s1 s, parse_options [Opt_b [54; 52; 107]; Opt_u [53; 49; 50; 109]] newfs_init = Ok () s1 /\
    default_sizes 100000000000 1 s1 = Ok () s /\ settled_sizes s.
Proof.
  eexists. destruct (newfs_layout_sound [Opt_b [54; 52; 107]; Opt_u [53; 49; 50; 109]] 100000000000 1 0 100000000000
    (set_UndoBufferSize (512 * 2 ^ 20) (set_BootAreaSize 65536 newfs_init))) as (s & Hd & Hs & _);
    [set_solver|by vm_compute|done|done|]. exists s. split; [by vm_compute|]. split; [exact Hd|exact Hs].
Defined.

(** with [-f] before it, a negative size passes all checks, and the memory log then
    begins before the boot area.  [-f -b -16k] on a volume of 100 GB. *)
Theorem newfs_forced_negative_size :
  exists s1 s ly, parse_options [Opt_f; Opt_b [45; 49; 54; 107]] newfs_init = Ok () s1 /\
    default_sizes 100000000000 1 s1 = Ok () s /\ volume_layout 0 100000000000 s = Ok ly s /\
    ly_mem_beg ly < ly_bot_beg ly.
Proof.
  set (s1 := set_BootAreaSize (-16384) (set_ForceOpt true newfs_init)).
  set (s := set_MemoryLogSize 262144 (set_HeaderJunkSize 262144 s1)).
  exists s1, s, {| ly_bot_beg := 262144; ly_mem_beg := 245760; ly_buf_beg := 507904; ly_buf_end := 99999989760;
    ly_free_off := 2305843009213693952; ly_free_end := 2305843109205901312 |}.
  split; [by vm_compute|]. split; [by vm_compute|]. split; [by vm_compute|done].
Qed.

(** a size option is accepted only as a number with a single suffix [k], [m], [g] or
    [t], which does not overflow, is a multiple of 16 KB and is the number times the
    suffix's unit; the settings are not changed by reading it. *)
Theorem getsize_correct (str : bytes) (v : Z) (s s' : newfs) :
  getsize str 2 s = Ok v s' ->
  s' = s /\ exists n, suffix_of (front (snd (strtoll str))) = Some n /\
    v = fst (strtoll str) * 1024 ^ Z.of_nat n /\ in_s 64 v /\ v mod HAMMER_BUFSIZE = 0 /\
    front (tail (snd (strtoll str))) = 0.
Proof. apply getsize_inv. Qed.

Lemma getsize_correct_witness : 32 * 2 ^ 20 mod HAMMER_BUFSIZE = 0.
Proof. by destruct (getsize_correct [51; 50; 77] (32 * 2 ^ 20) newfs_init newfs_init ltac:(by vm_compute)) as (_ & n & _ & _ & _ & H & _). Defined.

(** a cache size that is accepted gives a cache of at least 1 MB, and a read-ahead that
    is not negative and below 16 times the cache.  The limit the code sets when it finds the
    read-ahead too large is 1/16 of the cache; a read-ahead of 15 times the cache is not
    found too large. *)
Theorem parse_cache_size_limits (arg : bytes) (r : Z) (s s' : newfs) :
  hammer_parse_cache_size arg s = Ok r s' ->
  (r = 0 /\ cache_ok s' \/ r = -1) /\
  (exists s2, hammer_parse_cache_size [49; 109; 58; 49; 48; 48; 48] newfs_init = Ok 0 s2 /\
     15 * nf_CacheMax s2 < nf_ReadAhead s2 * HAMMER_BUFSIZE).
Proof.
  intros H. split; [by apply parse_cache_size_inv in H as [_ ?]|]. eexists. split; by vm_compute.
Qed.

Lemma parse_cache_size_limits_witness : exists s', hammer_parse_cache_size [56; 77; 58; 50] newfs_init = Ok 0 s' /\ cache_ok s'.
Proof.
  eexists. destruct (parse_cache_size_limits [56; 77; 58; 50] 0 newfs_init
    (set_nf_CacheMax (8 * 2 ^ 20) (set_nf_ReadAhead 2 newfs_init)) ltac:(by vm_compute)) as [[[_ H]|H] _]; [|done].
  split; [by vm_compute|exact H].
Defined.

(** ** The UNDO FIFO *)

(** the size of the UNDO FIFO that [format_undomap] chooses is a positive number of
    big-blocks, at most 128 (1 GB); without a request it is at least 64 big-blocks (512 MB)
    and, between the two limits, 0.1% of the volume rounded up; a request within the limits
    is rounded up to whole big-blocks. *)
Theorem undo_limit_bounds (request vol_buf_size : Z) :
  0 <= request < 2 ^ 63 -> 0 <= vol_buf_size < 2 ^ 52 ->
  let r := undo_limit_of request vol_buf_size in
  let max := HAMMER_BIGBLOCK_SIZE * HAMMER_MAX_UNDO_BIGBLOCKS in
  r mod HAMMER_BIGBLOCK_SIZE = 0 /\ HAMMER_BIGBLOCK_SIZE <= r <= max /\
  (request = 0 -> HAMMER_BIGBLOCK_SIZE * HAMMER_MIN_UNDO_BIGBLOCKS <= r /\
     (r < max -> vol_buf_size / 1000 <= r)) /\
  (0 < request <= max -> request <= r < request + HAMMER_BIGBLOCK_SIZE).
Proof.
  intros Hreq Hvol r max. unfold r, undo_limit_of.
  rewrite (uwrap_small 64 request) by (unfold in_u; lia). rewrite Z.quot_div_nonneg by lia.
  assert (0 <= vol_buf_size / 1000 < 2 ^ 52) as Hq by dlia.
  rewrite (uwrap_small 64 (vol_buf_size / 1000)) by (unfold in_u; lia).
  assert (forall x, 0 <= x < 2 ^ 63 -> HAMMER_BIGBLOCK_DOALIGN x = (x + 2 ^ 23 - 1) / 2 ^ 23 * 2 ^ 23) as Hal
    by (intros x Hx; apply bigblock_doalign_eq; lia).
  set (base := if bool_decide (request = 0) then _ else request).
  assert (0 <= base < 2 ^ 63 /\ (request = 0 -> 2 ^ 29 <= base /\ vol_buf_size / 1000 <= base) /\
    (request ≠ 0 -> base = request)) as (Hb & Hb0 & Hb1).
  { unfold base, HAMMER_MIN_UNDO_BIGBLOCKS, HAMMER_BIGBLOCK_SIZE.
    destruct (bool_decide_reflect (request = 0)), (bool_decide_reflect (vol_buf_size / 1000 < 8192 * 1024 * 64));
      cbv iota; lia. }
  clearbody base. rewrite Hal by done. unfold max, HAMMER_MIN_UNDO_BIGBLOCKS, HAMMER_MAX_UNDO_BIGBLOCKS, HAMMER_BIGBLOCK_SIZE in *.
  set (a := (base + 2 ^ 23 - 1) / 2 ^ 23 * 2 ^ 23).
  assert (base <= a < base + 2 ^ 23 /\ a mod 2 ^ 23 = 0) as [Ha Ham] by (unfold a; dlia). clearbody a.
  change (8192 * 1024) with (2 ^ 23). clear Hal.
  destruct (bool_decide_reflect (a < 2 ^ 23)); [rewrite bool_decide_eq_false_2 by lia|case_bool_decide]; split_and!; try done; lia.
Qed.

Lemma undo_limit_bounds_witness : undo_limit_of 0 (2 ^ 42) mod HAMMER_BIGBLOCK_SIZE = 0.
Proof. apply (undo_limit_bounds 0 (2 ^ 42)); done. Defined.
