(* ===== verification/Mirror.v ===== *)
(** * Mirror: the record stream of mirror-read and mirror-write

    From src/sbin/hammer/cmd_mirror.c: the records that travel between a mirroring source
    and its target ([write_mrecord], [read_mrecord], [read_mrecords]), the histogram that
    splits a bulk transfer into ranges of transaction ids ([generate_histogram]), the
    bandwidth-limited write, and the check of a restricted target.

    The descriptors are explicit.  The input is the bytes that the other side has written
    before it closes the pipe, and what each [read] returns: at most so many bytes, or an
    error; reads past the list return all they can.  Warnings on stderr and the score
    board are left out. *)

From S2P Require Import Prelude CMonad Crc32 HammerDisk Layout HammerCrc.

(** ** Constants *)

Definition HAMMER_MREC_TYPE_REC : Z := 1.
Definition HAMMER_MREC_TYPE_PFSD : Z := 2.
Definition HAMMER_MREC_TYPE_UPDATE : Z := 3.
Definition HAMMER_MREC_TYPE_SYNC : Z := 4.
Definition HAMMER_MREC_TYPE_SKIP : Z := 5.
Definition HAMMER_MREC_TYPE_PASS : Z := 6.
Definition HAMMER_MREC_TYPE_TERM : Z := 7.
Definition HAMMER_MREC_TYPE_IDLE : Z := 8.
Definition HAMMER_MRECF_TYPE_LOMASK : Z := 0x000000FF.
Definition HAMMER_MRECF_TYPE_MASK : Z := 0x800000FF.
Definition HAMMER_MRECF_NODATA : Z := 0x10000000.
Definition HAMMER_MREC_TYPE_REC_NODATA : Z := HAMMER_MREC_TYPE_REC .| HAMMER_MRECF_NODATA.
Definition HAMMER_IOC_MIRROR_SIGNATURE : Z := 0x4dd97272.
Definition HAMMER_MREC_HEADSIZE : Z := 16.
Definition HAMMER_XBUFSIZE : Z := 65536.
Definition SERIALBUF_SIZE : Z := 512 * 1024.
(** [sizeof(struct hammer_ioc_mrecord_rec)], [_pfs], [_update] and the union of all. *)
Definition sizeof_mrec_rec : Z := 80.
Definition sizeof_mrec_pfs : Z := 316.
Definition sizeof_mrec_update : Z := 24.
Definition sizeof_mrec_any : Z := 320.

Definition HAMMER_HEAD_ALIGN : Z := 8.
Definition HAMMER_HEAD_ALIGN_MASK : Z := HAMMER_HEAD_ALIGN - 1.
(** [HAMMER_HEAD_DOALIGN] of a [uint32_t]. *)
Definition HAMMER_HEAD_DOALIGN (n : Z) : Z := u32 (n + HAMMER_HEAD_ALIGN_MASK) .& bnot 32 HAMMER_HEAD_ALIGN_MASK.

(** [pickup.signature = 0; pickup.type = 0] *)
Definition forget (pickup : mrec_head) : mrec_head :=
  {| mh_signature := 0; mh_rec_crc := mh_rec_crc pickup; mh_rec_size := mh_rec_size pickup; mh_type := 0 |}.

(** ** The descriptors *)

(** What one [read] or [write] does: at most [n + 1] bytes, or -1. *)
Inductive outcome := Chunk (n : nat) | Error.

Record pipes := {
  in_data : bytes;
  in_cuts : list outcome;
  out_data : bytes;
  out_cuts : list outcome;
}.
Abbreviation P := (prog pipes).

Definition set_in (data : bytes) (cuts : list outcome) (io : pipes) : pipes :=
  {| in_data := data; in_cuts := cuts; out_data := out_data io; out_cuts := out_cuts io |}.

(** [read(fd, p, want)]: what it returns, as a [size_t], and the bytes. *)
Definition read_fd (want : Z) : P (Z * bytes) :=
  io ← get_state;
  match in_cuts io with
  | Error :: cuts => put_state (set_in (in_data io) cuts io);; mret (u64 (-1), [])
  | Chunk k :: cuts =>
      let n := Nat.min (S k) (Z.to_nat want) in
      put_state (set_in (drop n (in_data io)) cuts io);;
      mret (Z.of_nat (length (take n (in_data io))), take n (in_data io))
  | [] =>
      let n := Z.to_nat want in
      put_state (set_in (drop n (in_data io)) [] io);;
      mret (Z.of_nat (length (take n (in_data io))), take n (in_data io))
  end.

(** [for (; n < bytes; n += i) { i = read(fd, buf + off + n, bytes - n); if (i <= 0) break; }]
    with [size_t n, i]. *)
Fixpoint read_loop (fuel : nat) (buf : bytes) (off : nat) (n nbytes : Z) : P (Z * bytes) :=
  match fuel with
  | O => stop_with OutOfFuel
  | S fuel =>
      if bool_decide (n < nbytes) then
        r ← read_fd (nbytes - n);
        if bool_decide (fst r <= 0) then mret (n, buf)
        else read_loop fuel (splice buf (off + Z.to_nat n) (snd r)) off (u64 (n + fst r)) nbytes
      else mret (n, buf)
  end.
Definition read_all (buf : bytes) (off : nat) (n nbytes : Z) : P (Z * bytes) :=
  io ← get_state; read_loop (length (in_cuts io) + 3) buf off n nbytes.

(** [write(fd, p, n)]: how much was written, or -1. *)
Definition write_raw (data : bytes) : P Z :=
  io ← get_state;
  let put n cuts :=
    put_state {| in_data := in_data io; in_cuts := in_cuts io; out_data := out_data io ++ take n data; out_cuts := cuts |};;
    mret (M := P) (Z.of_nat (length (take n data))) in
  match out_cuts io with
  | Error :: cuts =>
      put_state {| in_data := in_data io; in_cuts := in_cuts io; out_data := out_data io; out_cuts := cuts |};; mret (-1)
  | Chunk k :: cuts => put (S k) cuts
  | [] => put (length data) []
  end.
(** [if (write(fd, p, n) != n) err(1, ...)] *)
Definition write_fd (data : bytes) : P () :=
  r ← write_raw data; if bool_decide (r ≠ Z.of_nat (length data)) then stop_with (Exit 1) else mret ().

(** ** Records *)

(** The record is built in place: the new content of [mrec] is returned. *)
Definition write_mrecord (type : Z) (mrec : bytes) (nbytes : Z) : P bytes :=
  let pad := ((nbytes + HAMMER_HEAD_ALIGN_MASK) .& Z.lnot HAMMER_HEAD_ALIGN_MASK) - nbytes in
  assertp (bool_decide (HAMMER_MREC_HEADSIZE <= nbytes));;
  let head := {| mh_signature := HAMMER_IOC_MIRROR_SIGNATURE; mh_rec_crc := 0; mh_rec_size := nbytes; mh_type := type |} in
  mrec ← deref (hammer_crc_set_mrec_head (write_at mrec 0 head) nbytes);
  write_fd (take (Z.to_nat nbytes) mrec);;
  when (bool_decide (pad ≠ 0)) (write_fd (replicate (Z.to_nat pad) 0));;
  mret mrec.

Definition EINVAL : Z := 22.
Definition EPIPE : Z := 32.

(** The second half of [read_mrecord], from the signature on; [n] bytes have been read. *)
Definition read_mrecord_body (mrechd : mrec_head) : P (option bytes * Z) :=
  if bool_decide (mh_signature mrechd ≠ HAMMER_IOC_MIRROR_SIGNATURE) then mret (None, EINVAL)
  else
    let nbytes := HAMMER_HEAD_DOALIGN (mh_rec_size mrechd) in
    assertp (bool_decide (HAMMER_MREC_HEADSIZE <= nbytes));;
    let mrec := write_at (replicate (Z.to_nat nbytes) 0) 0 mrechd in
    r ← read_all mrec 0 HAMMER_MREC_HEADSIZE nbytes;
    if bool_decide (fst r ≠ nbytes) then mret (None, EPIPE)
    else
      ok ← deref (hammer_crc_test_mrec_head (snd r) (s32 (mh_rec_size mrechd)));
      if (ok : bool) then mret (Some (snd r), 0) else mret (None, EINVAL).

(** The record or [NULL], [*errorp], and [*pickup], which may be [NULL]. *)
Definition read_mrecord (pickup : option mrec_head) : P (option bytes * Z * option mrec_head) :=
  let picked := match pickup with
                | Some pk => if bool_decide (mh_type pk ≠ 0) then Some pk else None
                | None => None
                end in
  match picked with
  | Some pk => r ← read_mrecord_body pk; mret (M := P) (r, Some (forget pk))
  | None =>
      r ← read_all (replicate 16 0) 0 0 HAMMER_MREC_HEADSIZE;
      if bool_decide (fst r = 0) then mret (None, 0, pickup)
      else if bool_decide (fst r ≠ HAMMER_MREC_HEADSIZE) then mret (None, EPIPE, pickup)
      else r ← read_mrecord_body (decode (snd r)); mret (M := P) (r, pickup)
  end.

(** The header of the next record: the one that was picked up before, or the next one of
    the pipe ([None] at its end). *)
Definition pick_up (pickup : mrec_head) : P (bool * mrec_head) :=
  if bool_decide (mh_signature pickup = 0) then
    r ← read_all (encode pickup) 0 0 HAMMER_MREC_HEADSIZE;
    if bool_decide (fst r = 0) then mret (false, decode (snd r))
    else if bool_decide (fst r ≠ HAMMER_MREC_HEADSIZE) then stop_with (Exit 1)
    else if bool_decide (mh_signature (decode (A := mrec_head) (snd r)) ≠ HAMMER_IOC_MIRROR_SIGNATURE) then stop_with (Exit 1)
    else mret (true, decode (snd r))
  else mret (true, pickup).

(** The types that the ioctl supports, as far as this test goes. *)
Definition for_ioctl (type : Z) : bool :=
  let type := type .& HAMMER_MRECF_TYPE_LOMASK in
  bool_decide (type = HAMMER_MREC_TYPE_PFSD) || bool_decide (type = HAMMER_MREC_TYPE_REC)
  || bool_decide (type = HAMMER_MREC_TYPE_SKIP) || bool_decide (type = HAMMER_MREC_TYPE_PASS).

Section mrecords.
(** The volume version of the checksums, and the address of the buffer. *)
Context (HammerVersion addr : Z).

(** "If its a B-Tree record validate the data crc": only the length is enforced. *)
Definition check_rec (buf : bytes) (count : Z) : P () :=
  let at_ := Z.to_nat count in
  let head := read_at mrec_head buf at_ in
  when (bool_decide (mh_type head .& HAMMER_MRECF_TYPE_MASK = HAMMER_MREC_TYPE_REC))
    (if bool_decide (at_ + 80 <= length buf)%nat then
       let leaf := read_at hammer_btree_leaf_elm buf (at_ + 16) in
       if bool_decide (mh_rec_size head < u64 (sizeof_mrec_rec + leaf_data_len leaf)) then stop_with (Exit 1)
       else
         when (bool_decide (leaf_data_len leaf ≠ 0) && bool_decide (leaf_data_offset leaf ≠ 0))
           (deref (hammer_crc_test_leaf HammerVersion (addr + count + sizeof_mrec_rec) (drop (at_ + 80) buf) leaf);; mret ())
     else stop_with Undef).

(** The buffer, how much of it is filled, and the header that was picked up. *)
Fixpoint read_mrecords_loop (fuel : nat) (buf : bytes) (size count : Z) (pickup : mrec_head) : P (Z * bytes * mrec_head) :=
  match fuel with
  | O => stop_with OutOfFuel
  | S fuel =>
      if bool_decide (HAMMER_MREC_HEADSIZE <= u32 (size - count)) then
        r ← pick_up pickup;
        let '(more, pickup) := r in
        if negb more then mret (M := P) (count, buf, pickup)
        else if bool_decide (mh_rec_size pickup < HAMMER_MREC_HEADSIZE)
                || bool_decide (sizeof_mrec_any + HAMMER_XBUFSIZE < mh_rec_size pickup) then stop_with (Exit 1)
        else
          let nbytes := HAMMER_HEAD_DOALIGN (mh_rec_size pickup) in
          if bool_decide (u32 (size - count) < nbytes) then mret (M := P) (count, buf, pickup)
          else if negb (for_ioctl (mh_type pickup)) then mret (M := P) (count, buf, pickup)
          else
            r ← read_all buf (Z.to_nat count) HAMMER_MREC_HEADSIZE nbytes;
            if bool_decide (fst r ≠ nbytes) then stop_with (Exit 1)
            else
              let buf := write_at (snd r) (Z.to_nat count) pickup in
              ok ← deref (hammer_crc_test_mrec_head (drop (Z.to_nat count) buf) (s32 (mh_rec_size pickup)));
              if negb ok then stop_with (Exit 1)
              else
                check_rec buf count;;
                read_mrecords_loop fuel buf size (u32 (count + nbytes)) (forget pickup)
      else mret (M := P) (count, buf, pickup)
  end.

(** Each turn but the last fills at least the size of a header. *)
Definition read_mrecords (buf : bytes) (size : Z) (pickup : mrec_head) : P (Z * bytes * mrec_head) :=
  read_mrecords_loop (S (Z.to_nat (size / HAMMER_MREC_HEADSIZE))) buf size 0 pickup.
End mrecords.

(** ** Bandwidth limit *)

(** What [writebw] did last: a write of so many bytes, or the end of a window (sleep out
    the second, take the time anew). *)
Inductive bw_event := Wrote (n : Z) | Window.

Section bandwidth.
Context (BandwidthOpt : Z).

(** The loop: [a] bytes have been written, [r] is the result of the last [write]; the
    windows end where they do.  Each turn that goes on has written something. *)
Fixpoint writebw_loop (fuel : nat) (buf : bytes) (a r bwcount : Z) (log : list bw_event)
    : P (Z * Z * list bw_event) :=
  let nbytes := Z.of_nat (length buf) in
  if bool_decide (nbytes = 0) then mret (M := P) (if bool_decide (a ≠ 0) then a else r, bwcount, log)
  else
    match fuel with
    | O => stop_with OutOfFuel
    | S fuel =>
        let n := if bool_decide (BandwidthOpt < u64 (bwcount + nbytes)) then u64 (BandwidthOpt - bwcount) else nbytes in
        r ← (if bool_decide (n ≠ 0) then write_raw (take (Z.to_nat n) buf) else mret r);
        let a := if bool_decide (0 <= r) then a + r else a in
        let buf := if bool_decide (0 <= r) then drop (Z.to_nat r) buf else buf in
        let log := if bool_decide (n ≠ 0) then log ++ [Wrote r] else log in
        if bool_decide (u64 r ≠ n) then mret (M := P) (if bool_decide (a ≠ 0) then a else r, bwcount, log)
        else
          let bwcount := u64 (bwcount + n) in
          if bool_decide (BandwidthOpt <= bwcount)
          then writebw_loop fuel buf a r (bwcount - BandwidthOpt) (log ++ [Window])
          else writebw_loop fuel buf a r bwcount log
    end.
Definition writebw (buf : bytes) (bwcount : Z) : P (Z * Z * list bw_event) :=
  writebw_loop (length buf) buf 0 0 bwcount [].
End bandwidth.

(** ** The restricted target of a remote user *)

Definition slash : Z := 47.
Definition dot : Z := 46.

Fixpoint restrict_loop (atslash : bool) (path : bytes) : option () :=
  match path with
  | [] => Some ()
  | c :: rest =>
      if atslash && bool_decide (c = dot) && bool_decide (head rest = Some dot) then None
      else restrict_loop (bool_decide (c = slash)) rest
  end.

(** [None] is the exit with an error; [strncmp] compares the length of the target. *)
Definition hammer_check_restrict (RestrictTarget : option bytes) (filesystem : bytes) : option () :=
  match RestrictTarget with
  | None => Some ()
  | Some target =>
      if bool_decide (take (length target) filesystem ≠ target) then None
      else restrict_loop true (drop (length target) filesystem)
  end.

(** ** The histogram of a bulk transfer *)

Definition HIST_COUNT : Z := 1024 * 1024.

(** [tid_beg + i * (tid_end - tid_beg) / HIST_COUNT], with [int i] *)
Definition hist_tid (tid_beg tid_end i : Z) : Z :=
  u64 (tid_beg + u64 (u64 i * u64 (tid_end - tid_beg)) / HIST_COUNT).

(** The entry of a transaction id. *)
Definition hist_index (tid_beg tid_end tid : Z) : Z :=
  let i := s32 (u64 (u64 (tid - tid_beg) * HIST_COUNT) / u64 (tid_end - tid_beg)) in
  let tidx := hist_tid tid_beg tid_end i in
  if bool_decide (tid = tidx) && bool_decide (i ≠ 0) then i - 1 else i.

(** [tid_bytes], which is cleared at the start. *)
Abbreviation histogram := (gmap Z Z).
Definition hist_get (h : histogram) (i : Z) : Z := default 0 (h !! i).

Section histogram.
Context (tid_beg tid_end : Z).

(** [None] is a failed assertion. *)
Definition hist_add (tid len : Z) (h : histogram) : option histogram :=
  if bool_decide (tid ≠ 0) && bool_decide (tid_beg <= tid) && bool_decide (tid <= tid_end) then
    let i := hist_index tid_beg tid_end tid in
    if bool_decide (0 <= i < HIST_COUNT) then Some (<[i := u64 (hist_get h i + u64 len)]> h) else None
  else Some h.

(** [HAMMER_HEAD_DOALIGN] of an [int]. *)
Definition doalign_int (n : Z) : Z := (n + HAMMER_HEAD_ALIGN_MASK) .& Z.lnot HAMMER_HEAD_ALIGN_MASK.

(** "We only care about general RECs and PASS records." *)
Definition counted_type (head : mrec_head) : bool :=
  let type := mh_type head .& HAMMER_MRECF_TYPE_LOMASK in
  bool_decide (type = HAMMER_MREC_TYPE_REC) || bool_decide (type = HAMMER_MREC_TYPE_PASS).

(** One record of the scan. *)
Definition hist_record (head : mrec_head) (leaf : hammer_btree_leaf_elm) (h : histogram) : option histogram :=
  if counted_type head then
    let len := s32 (HAMMER_HEAD_DOALIGN (mh_rec_size head)) in
    let dlen := if bool_decide (mh_type head = HAMMER_MREC_TYPE_REC) then len - doalign_int (leaf_data_len leaf) else len in
    let clen := if bool_decide (mh_type head = HAMMER_MREC_TYPE_REC_NODATA) then len + doalign_int (leaf_data_len leaf) else len in
    let dtid := be_delete_tid (leaf_base leaf) in
    let counted := bool_decide (dtid ≠ 0) && bool_decide (tid_beg <= dtid) && bool_decide (dtid <= tid_end) in
    if counted && bool_decide (mh_type head = HAMMER_MREC_TYPE_REC) && bool_decide (dlen <= 0) then None
    else h ← hist_add dtid dlen h; hist_add (be_create_tid (leaf_base leaf)) clen h
  else Some h.

(** The records of one buffer of the scan, [count] bytes long. *)
Fixpoint hist_buffer (fuel : nat) (ubuf : bytes) (count off : Z) (h : histogram) : prog () histogram :=
  match fuel with
  | O => stop_with OutOfFuel
  | S fuel =>
      if bool_decide (off < count) then
        let head := read_at mrec_head ubuf (Z.to_nat off) in
        if bool_decide (Z.to_nat off + (if counted_type head then 80 else 16) <= length ubuf)%nat then
          match hist_record head (read_at hammer_btree_leaf_elm ubuf (Z.to_nat off + 16)) h with
          | Some h => hist_buffer fuel ubuf count (s32 (off + HAMMER_HEAD_DOALIGN (mh_rec_size head))) h
          | None => stop_with AssertFail
          end
        else stop_with Undef
      else mret h
  end.

(** "Reduce to SplitupOpt chunks": the entries that are complete, and the last one. *)
Context (SplitupOpt : Z) (h : histogram).
Fixpoint hist_reduce (n : nat) (i : Z) (done : list (Z * Z)) (cur : Z * Z) : list (Z * Z) :=
  match n with
  | O => done ++ [cur; (tid_end, u64 (-1))]
  | S n =>
      if bool_decide (SplitupOpt <= snd cur)
      then hist_reduce n (i + 1) (done ++ [cur]) (hist_tid tid_beg tid_end i, u64 (0 + hist_get h i))
      else hist_reduce n (i + 1) done (fst cur, u64 (snd cur + hist_get h i))
  end.
Definition hist_chunks : list (Z * Z) := hist_reduce (Z.to_nat (HIST_COUNT - 1)) 1 [] (tid_beg, hist_get h 0).
End histogram.

(** [generate_histogram]: the buffers are what the ioctl returns, scan by scan, until one
    is empty. *)
Fixpoint hist_scan (tid_beg tid_end : Z) (scan : list (bytes * Z)) (h : histogram) : prog () histogram :=
  match scan with
  | [] => mret h
  | (ubuf, count) :: scan =>
      h ← hist_buffer tid_beg tid_end (S (Z.to_nat count)) ubuf count 0 h;
      if bool_decide (count = 0) then mret h else hist_scan tid_beg tid_end scan h
  end.
Definition generate_histogram (SplitupOpt tid_beg tid_end : Z) (scan : list (bytes * Z)) : prog () (list (Z * Z) * Z) :=
  if bool_decide (tid_end <= tid_beg) then mret ([], 0)
  else
    h ← hist_scan tid_beg tid_end scan ∅;
    let chunks := hist_chunks tid_beg tid_end SplitupOpt h in
    let res := Z.of_nat (length chunks) - 1 in
    assertp (bool_decide (res <= HIST_COUNT));;
    mret (M := prog ()) (chunks, res).
