(* ===== verification/MirrorStream.v ===== *)
(** * MirrorStream: reading and writing records

    However the pipe cuts the bytes, the read loops deliver them; records that are well
    formed ([sealed]) are read back whole, one by one or in batches, and [write_mrecord]
    writes such records. *)

From S2P Require Import Prelude CMonad Crc32 HammerDisk Layout HammerCrc Mirror.

(** ** Byte strings *)

Lemma splice_nil bs off : splice bs off [] = bs.
Proof. unfold splice. cbn. by rewrite Nat.add_0_r, take_drop. Qed.

Lemma splice_app bs off xs ys :
  (off + length xs + length ys <= length bs)%nat ->
  splice (splice bs off xs) (off + length xs) ys = splice bs off (xs ++ ys).
Proof.
  intros Hl. unfold splice. rewrite !length_app.
  rewrite (app_assoc (take off bs) xs), take_app_length' by (rewrite length_app, length_take; lia).
  rewrite drop_app_ge by (rewrite length_app, length_take; lia). rewrite length_app, length_take, drop_drop, <- !app_assoc.
  do 4 f_equal. lia.
Qed.

Lemma splice_all bs xs : length xs = length bs -> splice bs 0 xs = xs.
Proof. intros Hl. unfold splice. by rewrite take_0, Hl, drop_ge, app_nil_r by lia. Qed.

Lemma splice_tail bs off xs :
  (off + length xs = length bs)%nat -> splice bs off xs = take off bs ++ xs.
Proof. intros Hl. unfold splice. by rewrite drop_ge, app_nil_r by lia. Qed.

(** ** Reads without errors *)

Definition no_error (cuts : list outcome) : Prop := Forall (λ o, o ≠ Error) cuts.
Abbreviation pp data cuts out oc := {| in_data := data; in_cuts := cuts; out_data := out; out_cuts := oc |}.

Lemma read_fd_nil want data out oc :
  read_fd want (pp data [] out oc) =
    Ok (Z.of_nat (length (take (Z.to_nat want) data)), take (Z.to_nat want) data) (pp (drop (Z.to_nat want) data) [] out oc).
Proof. done. Qed.
Lemma read_fd_chunk want k cuts data out oc :
  let m := Nat.min (S k) (Z.to_nat want) in
  read_fd want (pp data (Chunk k :: cuts) out oc) =
    Ok (Z.of_nat (length (take m data)), take m data) (pp (drop m data) cuts out oc).
Proof. done. Qed.

Lemma read_loop_spec fuel cuts buf off n nbytes data rest out oc :
  no_error cuts -> (length cuts + 2 <= fuel)%nat -> 0 <= n <= nbytes -> nbytes < 2 ^ 64 ->
  Z.of_nat (length data) = nbytes - n -> (off + Z.to_nat nbytes <= length buf)%nat ->
  exists cuts', no_error cuts' /\
    read_loop fuel buf off n nbytes (pp (data ++ rest) cuts out oc) =
      Ok (nbytes, splice buf (off + Z.to_nat n) data) (pp rest cuts' out oc).
Proof.
  revert fuel buf n data. induction cuts as [|o cuts IH]; intros fuel buf n data Hc Hf Hn Hb Hd Hl.
  - destruct fuel as [|[|fuel]]; [cbn in Hf; lia..|]. exists []. split; [done|]. cbn [read_loop].
    case_bool_decide as Hlt.
    + rewrite (bind_Ok _ _ _ _ _ (read_fd_nil _ _ out oc)). rewrite !take_app_length', drop_app_length' by lia.
      cbn [fst snd]. rewrite bool_decide_false by lia.
      rewrite uwrap_small by (unfold in_u; lia). rewrite bool_decide_false by lia. cbn. do 2 f_equal. lia.
    + assert (data = []) as -> by (apply length_zero_iff_nil; lia). rewrite splice_nil. cbn. do 2 f_equal. lia.
  - apply Forall_cons in Hc as [Ho Hc]. destruct o as [k|]; [|done]. destruct fuel as [|fuel]; [lia|].
    cbn [read_loop]. case_bool_decide as Hlt.
    + set (m := Nat.min (S k) (Z.to_nat (nbytes - n))).
      assert (1 <= m <= length data)%nat as Hm by (unfold m; lia).
      destruct (IH fuel (splice buf (off + Z.to_nat n) (take m data)) (n + Z.of_nat m) (drop m data)) as (cuts' & Hc' & E).
      { done. } { cbn in Hf. lia. } { lia. } { done. } { rewrite length_drop. lia. }
      { rewrite length_splice; [done|]. rewrite length_take. lia. }
      exists cuts'. split; [done|]. rewrite (bind_Ok _ _ _ _ _ (read_fd_chunk _ _ _ _ out oc)). fold m.
      rewrite !take_app_le, drop_app_le by lia. cbn [fst snd]. rewrite length_take, Nat.min_l by lia.
      rewrite bool_decide_false, uwrap_small by (unfold in_u; lia). rewrite E. do 2 f_equal.
      replace (off + Z.to_nat (n + Z.of_nat m))%nat with (off + Z.to_nat n + length (take m data))%nat
        by (rewrite length_take; lia).
      rewrite splice_app by (rewrite length_take, length_drop; lia). by rewrite take_drop.
    + assert (data = []) as -> by (apply length_zero_iff_nil; lia). rewrite splice_nil. exists (Chunk k :: cuts).
      split; [by apply Forall_cons|]. cbn. do 2 f_equal. lia.
Qed.

Lemma read_all_spec cuts buf off n nbytes data rest out oc :
  no_error cuts -> 0 <= n <= nbytes -> nbytes < 2 ^ 64 -> Z.of_nat (length data) = nbytes - n ->
  (off + Z.to_nat nbytes <= length buf)%nat ->
  exists cuts', no_error cuts' /\
    read_all buf off n nbytes (pp (data ++ rest) cuts out oc) =
      Ok (nbytes, splice buf (off + Z.to_nat n) data) (pp rest cuts' out oc).
Proof.
  intros. unfold read_all. rewrite (bind_Ok get_state _ _ _ _ eq_refl). cbn [in_cuts].
  apply read_loop_spec; try done. lia.
Qed.

(** At the end of the pipe nothing is read. *)
Lemma read_all_eof cuts buf off nbytes out oc :
  no_error cuts -> 0 < nbytes ->
  exists cuts', no_error cuts' /\ read_all buf off 0 nbytes (pp [] cuts out oc) = Ok (0, buf) (pp [] cuts' out oc).
Proof.
  intros Hc Hn. exists (tail cuts). split; [destruct cuts; [done|by apply Forall_cons in Hc as [_ ?]]|]. unfold read_all. rewrite (bind_Ok get_state _ _ _ _ eq_refl).
  cbn [in_cuts]. rewrite Nat.add_comm. cbn [read_loop Nat.add]. rewrite bool_decide_true by lia.
  destruct cuts as [|[k|] cuts]; [| |by apply Forall_cons in Hc as [? _]].
  - by rewrite (bind_Ok _ _ _ _ _ (read_fd_nil _ _ out oc)), take_nil, drop_nil.
  - by rewrite (bind_Ok _ _ _ _ _ (read_fd_chunk _ _ _ _ out oc)), take_nil, drop_nil.
Qed.

(** ** Well-formed records *)

(** The record [r], padding included, has the header [h]. *)
Record sealed (r : bytes) (h : mrec_head) : Prop := {
  sl_ok : bytes_ok r;
  sl_valid : valid h;
  sl_head : take 16 r = encode h;
  sl_signature : mh_signature h = HAMMER_IOC_MIRROR_SIGNATURE;
  sl_size : HAMMER_MREC_HEADSIZE <= mh_rec_size h <= sizeof_mrec_any + HAMMER_XBUFSIZE;
  sl_length : Z.of_nat (length r) = HAMMER_HEAD_DOALIGN (mh_rec_size h);
  sl_crc : mh_rec_crc h = crc32_spec (take (Z.to_nat (mh_rec_size h - HAMMER_MREC_CRCOFF)) (drop 8 r));
  sl_type : mh_type h ≠ 0;
}.

Lemma doalign_eq n : 0 <= n < 2 ^ 31 -> HAMMER_HEAD_DOALIGN n = (n + 7) / 8 * 8.
Proof.
  intros Hn. unfold HAMMER_HEAD_DOALIGN. change HAMMER_HEAD_ALIGN_MASK with 7 at 1.
  rewrite uwrap_small by (unfold in_u; lia). change HAMMER_HEAD_ALIGN_MASK with (Z.ones 3).
  rewrite (land_bnot_ones 32) by (unfold in_u; lia). change (2 ^ 3) with 8. dlia.
Qed.

Lemma sealed_bounds r h : sealed r h -> mh_rec_size h <= Z.of_nat (length r) < mh_rec_size h + 8 /\ 16 <= Z.of_nat (length r) < 2 ^ 17.
Proof.
  intros [_ _ _ _ Hs Hl _ _]. unfold HAMMER_MREC_HEADSIZE, sizeof_mrec_any, HAMMER_XBUFSIZE in Hs.
  rewrite doalign_eq in Hl by lia. rewrite Hl. clear Hl. dlia.
Qed.

Lemma sealed_split r h : sealed r h -> r = encode h ++ drop 16 r.
Proof. intros Hs. rewrite <- (sl_head _ _ Hs). by rewrite take_drop. Qed.

Lemma head_at r h t : sealed r h -> read_at mrec_head (r ++ t) 0 = h.
Proof.
  intros Hs. unfold read_at. rewrite drop_0, (sealed_split r h Hs), <- app_assoc. apply decode_encode_app, (sl_valid _ _ Hs).
Qed.

Lemma sealed_crc r h t :
  sealed r h -> bytes_ok t -> hammer_crc_test_mrec_head (r ++ t) (s32 (mh_rec_size h)) = Some true.
Proof.
  intros Hs Ht. pose proof (sealed_bounds r h Hs) as [Hb1 Hb2]. pose proof (sl_size _ _ Hs) as Hz.
  unfold HAMMER_MREC_HEADSIZE, sizeof_mrec_any, HAMMER_XBUFSIZE in Hz.
  rewrite swrap_small by (unfold in_s; lia). unfold hammer_crc_test_mrec_head.
  rewrite mrec_crc_get; [|by apply Forall_app; split; [apply (sl_ok _ _ Hs)|]|lia|rewrite length_app; lia].
  cbn. rewrite (head_at r h t Hs), (sl_crc _ _ Hs). unfold HAMMER_MREC_CRCOFF.
  rewrite drop_app_le, take_app_le by (rewrite ?length_drop; lia). by rewrite bool_decide_true.
Qed.

(** The rest of a record whose header has been read. *)
Lemma read_mrecord_body_spec r h rest cuts out oc :
  sealed r h -> no_error cuts ->
  exists cuts', no_error cuts' /\
    read_mrecord_body h (pp (drop 16 r ++ rest) cuts out oc) = Ok (Some r, 0) (pp rest cuts' out oc).
Proof.
  intros Hs Hc. pose proof (sealed_bounds r h Hs) as [Hb1 Hb2]. unfold read_mrecord_body.
  rewrite bool_decide_false by (rewrite (sl_signature _ _ Hs); tauto). rewrite <- (sl_length _ _ Hs).
  unfold HAMMER_MREC_HEADSIZE in *. rewrite bool_decide_true by lia.
  set (mrec := write_at _ 0 h). assert (length mrec = length r) as Hm.
  { unfold mrec. rewrite length_write_at; [by rewrite length_replicate, Nat2Z.id|apply (sl_valid _ _ Hs)|].
    rewrite length_replicate. cbn. lia. }
  destruct (read_all_spec cuts mrec 0 16 (Z.of_nat (length r)) (drop 16 r) rest out oc) as (cuts' & Hc' & E);
    [done|lia|lia|rewrite length_drop; lia|lia|].
  exists cuts'. split; [done|]. rewrite (bind_Ok _ _ _ () (pp (drop 16 r ++ rest) cuts out oc)) by done.
  rewrite (bind_Ok _ _ _ _ _ E). cbn [fst snd]. rewrite bool_decide_false by tauto.
  assert (splice mrec (0 + Z.to_nat 16) (drop 16 r) = r) as ->.
  { rewrite splice_tail by (rewrite length_drop; lia). rewrite <- (take_drop 16 r) at 2. f_equal.
    rewrite (sl_head _ _ Hs). unfold mrec, write_at, splice. rewrite take_0, app_nil_l. apply take_app_length'.
    by rewrite length_encode by apply (sl_valid _ _ Hs). }
  rewrite <- (app_nil_r r) at 1. rewrite (sealed_crc r h [] Hs) by constructor. done.
Qed.

(** ** The stream *)

(** What is left to read is the records [rs]: the pipe is at a record, or the header of
    the first record has been picked up. *)
Inductive at_stream (pickup : mrec_head) (data : bytes) : list bytes -> Prop :=
  | At_record rs : mh_signature pickup = 0 -> mh_type pickup = 0 -> valid pickup -> data = concat rs ->
      Forall (λ r, exists h, sealed r h) rs -> at_stream pickup data rs
  | At_header r rs : sealed r pickup -> data = drop 16 r ++ concat rs ->
      Forall (λ r, exists h, sealed r h) rs -> at_stream pickup data (r :: rs).

Lemma forget_valid h : valid h -> valid (forget h).
Proof. intros (H1 & H2 & H3 & H4). unfold valid. cbn. split_and!; done || solve_range. Qed.

Lemma read_header r h rest cuts out oc buf :
  sealed r h -> no_error cuts -> length buf = 16%nat ->
  exists cuts', no_error cuts' /\
    read_all buf 0 0 16 (pp (r ++ rest) cuts out oc) = Ok (16, encode h) (pp (drop 16 r ++ rest) cuts' out oc).
Proof.
  intros Hs Hc Hb. pose proof (sealed_bounds r h Hs) as [_ Hl].
  destruct (read_all_spec cuts buf 0 0 16 (take 16 r) (drop 16 r ++ rest) out oc) as (cuts' & Hc' & E);
    [done|lia|lia|rewrite length_take; lia|lia|].
  exists cuts'. split; [done|]. rewrite app_assoc, take_drop in E. rewrite E. cbn [Z.to_nat Nat.add].
  rewrite splice_all by (rewrite length_take; lia). by rewrite (sl_head _ _ Hs).
Qed.

Lemma read_mrecord_next pickup data r rs cuts out oc :
  at_stream pickup data (r :: rs) -> no_error cuts ->
  exists pickup' data' cuts', no_error cuts' /\ at_stream pickup' data' rs /\
    read_mrecord (Some pickup) (pp data cuts out oc) = Ok (Some r, 0, Some pickup') (pp data' cuts' out oc).
Proof.
  intros Ha Hc. inversion Ha as [rs' Hsig Htype Hv -> Hall Ers|r' rs' Hs -> Hall Ers]; subst; unfold read_mrecord.
  - apply Forall_cons in Hall as [[h Hs] Hall]. rewrite bool_decide_false by tauto. cbn [concat].
    destruct (read_header r h (concat rs) cuts out oc (replicate 16 0) Hs Hc eq_refl) as (c1 & Hc1 & E1).
    destruct (read_mrecord_body_spec r h (concat rs) c1 out oc Hs Hc1) as (c2 & Hc2 & E2).
    exists pickup, (concat rs), c2. split; [done|]. split; [by apply At_record|].
    unfold HAMMER_MREC_HEADSIZE. rewrite (bind_Ok _ _ _ _ _ E1). cbn [fst snd].
    rewrite !bool_decide_false by lia. rewrite decode_encode by apply (sl_valid _ _ Hs). by rewrite (bind_Ok _ _ _ _ _ E2).
  - rewrite bool_decide_true by apply (sl_type _ _ Hs).
    destruct (read_mrecord_body_spec r pickup (concat rs) cuts out oc Hs Hc) as (c2 & Hc2 & E2).
    exists (forget pickup), (concat rs), c2. split; [done|]. split; [|by rewrite (bind_Ok _ _ _ _ _ E2)].
    apply At_record; try done. apply forget_valid, (sl_valid _ _ Hs).
Qed.

Lemma read_mrecord_eof pickup data cuts out oc :
  at_stream pickup data [] -> no_error cuts ->
  exists cuts', no_error cuts' /\
    read_mrecord (Some pickup) (pp data cuts out oc) = Ok (None, 0, Some pickup) (pp [] cuts' out oc).
Proof.
  intros Ha Hc. inversion Ha as [rs' Hsig Htype Hv -> Hall Ers|]; subst. unfold read_mrecord.
  rewrite bool_decide_false by tauto. cbn [concat].
  destruct (read_all_eof cuts (replicate 16 0) 0 HAMMER_MREC_HEADSIZE out oc Hc ltac:(done)) as (c1 & Hc1 & E1).
  exists c1. split; [done|]. rewrite (bind_Ok _ _ _ _ _ E1). cbn [fst snd]. by rewrite bool_decide_true.
Qed.

(** ** Batches *)

Definition type_of (r : bytes) : Z := mh_type (read_at mrec_head r 0).

(** The records that fit in [room] bytes, up to one that is not for the ioctl. *)
Fixpoint batch (room : Z) (rs : list bytes) : list bytes * list bytes :=
  match rs with
  | [] => ([], [])
  | r :: rs' =>
      if bool_decide (Z.of_nat (length r) <= room) && for_ioctl (type_of r)
      then let b := batch (room - Z.of_nat (length r)) rs' in (r :: fst b, snd b) else ([], rs)
  end.

(** A B-Tree record has room for its data. *)
Definition rec_fits (r : bytes) : Prop :=
  type_of r .& HAMMER_MRECF_TYPE_MASK = HAMMER_MREC_TYPE_REC ->
  let leaf := read_at hammer_btree_leaf_elm r 16 in
  0 <= leaf_data_len leaf /\ sizeof_mrec_rec + leaf_data_len leaf <= mh_rec_size (read_at mrec_head r 0).

Lemma splice_before bs off xs ys :
  (off + length xs + length ys <= length bs)%nat ->
  splice (splice bs (off + length xs) ys) off xs = splice bs off (xs ++ ys).
Proof.
  intros Hl. unfold splice. rewrite take_app_le by (rewrite length_take; lia). rewrite take_take, Nat.min_l by lia.
  f_equal. rewrite <- app_assoc. f_equal. rewrite drop_app_length' by (rewrite length_take; lia).
  do 2 f_equal. rewrite length_app. lia.
Qed.

Lemma datacrc_some v addr data n :
  bytes_ok data -> 0 <= n < 2 ^ 32 -> n <= Z.of_nat (length data) -> is_Some (hammer_datacrc v addr data n).
Proof.
  intros Hok Hn Hl. pose proof (hammer_datacrc_app v addr (take (Z.to_nat n) data) (drop (Z.to_nat n) data)) as E.
  rewrite take_drop, length_take in E. replace (Z.of_nat _) with n in E by lia.
  rewrite E; [eauto|by apply Forall_take|done].
Qed.

Lemma test_leaf_some v addr data leaf :
  bytes_ok data -> 0 <= leaf_data_len leaf < 2 ^ 31 -> leaf_data_len leaf <= Z.of_nat (length data) ->
  is_Some (hammer_crc_test_leaf v addr data leaf).
Proof.
  intros Hok Hn Hl.
  assert (forall v, is_Some (hammer_crc_get_leaf v addr data leaf)) as Hget.
  { intros v'. unfold hammer_crc_get_leaf. case_bool_decide as H0; [eauto|]. case_bool_decide as H1.
    - case_bool_decide as H2; [|eauto]. change (Z.of_nat (sizeof hammer_inode_data)) with 128 in H2.
      apply datacrc_some; [done|by vm_compute|]. change HAMMER_INODE_CRCSIZE with 112. lia.
    - rewrite uwrap_small by (unfold in_u; lia). apply datacrc_some; [done|lia|done]. }
  unfold hammer_crc_test_leaf. destruct (Hget v) as [c ->]. cbn. case_bool_decide; [eauto|]. case_bool_decide; [|eauto].
  destruct (Hget HAMMER_VOL_VERSION_SIX) as [c6 ->]. cbn. eauto.
Qed.

Lemma leaf_range bs off : bytes_ok bs -> (off + 80 <= length bs)%nat -> leaf_data_len (read_at hammer_btree_leaf_elm bs (off + 16)) < 2 ^ 31.
Proof.
  intros Hok Hl. unfold read_at, decode. cbn. unfold of_le_s, swrap.
  match goal with |- context [?a mod ?b] => pose proof (Z.mod_pos_bound a b ltac:(done)) end. cbn in *. lia.
Qed.

Section batches.
Context (HammerVersion addr : Z).

Lemma check_rec_spec buf count r h t st :
  sealed r h -> rec_fits r -> bytes_ok buf -> drop (Z.to_nat count) buf = r ++ t ->
  check_rec HammerVersion addr buf count st = Ok () st.
Proof.
  intros Hs Hf Hok Hd. unfold check_rec.
  assert (read_at mrec_head buf (Z.to_nat count) = h) as Hh.
  { unfold read_at. rewrite Hd. pose proof (head_at r h t Hs) as E. unfold read_at in E. by rewrite drop_0 in E. }
  assert (read_at mrec_head r 0 = h) as Hr by (pose proof (head_at r h [] Hs) as E; by rewrite app_nil_r in E).
  rewrite Hh. destruct (bool_decide_reflect (mh_type h .& HAMMER_MRECF_TYPE_MASK = HAMMER_MREC_TYPE_REC)) as [Ht|]; [|done].
  cbn [when]. unfold rec_fits, type_of in Hf. rewrite Hr in Hf. destruct (Hf Ht) as [Hf1 Hf2]. clear Hf.
  pose proof (sealed_bounds r h Hs) as [Hb _]. unfold sizeof_mrec_rec in *.
  assert (length buf - Z.to_nat count = length r + length t)%nat as Hl
    by (pose proof (f_equal length Hd) as E; rewrite length_drop, length_app in E; done).
  rewrite bool_decide_true by lia.
  assert (read_at hammer_btree_leaf_elm buf (Z.to_nat count + 16) = read_at hammer_btree_leaf_elm r 16) as Hleaf.
  { change (read_at hammer_btree_leaf_elm (drop (Z.to_nat count + 16) buf) 0 = read_at hammer_btree_leaf_elm (drop 16 r) 0).
    apply read_at_take. rewrite !drop_0, <- drop_drop, Hd, drop_app_le by lia. rewrite take_app_le; [done|].
    rewrite length_drop. change (sizeof hammer_btree_leaf_elm) with 64%nat. lia. }
  pose proof (leaf_range buf (Z.to_nat count) Hok ltac:(lia)) as Hlr. rewrite Hleaf in *.
  set (leaf := read_at hammer_btree_leaf_elm r 16) in *.
  rewrite uwrap_small by (unfold in_u; lia). rewrite bool_decide_false by lia.
  destruct (bool_decide (leaf_data_len leaf ≠ 0) && bool_decide (leaf_data_offset leaf ≠ 0)); [|done]. cbn [when].
  destruct (test_leaf_some HammerVersion (addr + count + 80) (drop (Z.to_nat count + 80) buf) leaf) as [b ->]; [|lia| |done].
  - by apply Forall_drop.
  - rewrite <- drop_drop, Hd, drop_app_le, length_app, length_drop by lia. lia.
Qed.

Lemma pick_up_next pickup data r rs cuts out oc :
  at_stream pickup data (r :: rs) -> no_error cuts ->
  exists h cuts', no_error cuts' /\ sealed r h /\ Forall (λ r, exists h, sealed r h) rs /\
    pick_up pickup (pp data cuts out oc) = Ok (true, h) (pp (drop 16 r ++ concat rs) cuts' out oc).
Proof.
  intros Ha Hc. inversion Ha as [rs' Hsig Htype Hv -> Hall Ers|r' rs' Hs -> Hall Ers]; subst; unfold pick_up.
  - apply Forall_cons in Hall as [[h Hs] Hall]. rewrite bool_decide_true by done. cbn [concat].
    destruct (read_header r h (concat rs) cuts out oc (encode pickup) Hs Hc) as (c1 & Hc1 & E1).
    { by rewrite length_encode. }
    exists h, c1. split; [done|]. split; [done|]. split; [done|]. unfold HAMMER_MREC_HEADSIZE.
    rewrite (bind_Ok _ _ _ _ _ E1). cbn [fst snd]. rewrite !bool_decide_false by lia.
    rewrite decode_encode by apply (sl_valid _ _ Hs). by rewrite bool_decide_false by (rewrite (sl_signature _ _ Hs); tauto).
  - exists pickup, cuts. split; [done|]. split; [done|]. split; [done|].
    by rewrite bool_decide_false by (rewrite (sl_signature _ _ Hs); done).
Qed.

Lemma pick_up_eof pickup data cuts out oc :
  at_stream pickup data [] -> no_error cuts ->
  exists cuts', no_error cuts' /\ pick_up pickup (pp data cuts out oc) = Ok (false, pickup) (pp [] cuts' out oc).
Proof.
  intros Ha Hc. inversion Ha as [rs' Hsig Htype Hv -> Hall Ers|]; subst. unfold pick_up.
  rewrite bool_decide_true by done. cbn [concat].
  destruct (read_all_eof cuts (encode pickup) 0 HAMMER_MREC_HEADSIZE out oc Hc ltac:(done)) as (c1 & Hc1 & E1).
  exists c1. split; [done|]. rewrite (bind_Ok _ _ _ _ _ E1). cbn [fst snd]. rewrite bool_decide_true by done.
  by rewrite decode_encode.
Qed.

(** The record is stored, tested and counted. *)
Lemma store_record buf count r h :
  sealed r h -> (count + length r <= length buf)%nat ->
  write_at (splice buf (count + 16) (drop 16 r)) count h = splice buf count r.
Proof.
  intros Hs Hl. pose proof (sealed_bounds r h Hs) as [_ Hb]. unfold write_at.
  assert (length (encode h) = 16%nat) as He by (by rewrite length_encode by apply (sl_valid _ _ Hs)).
  rewrite (sealed_split r h Hs) at 2. rewrite <- He. apply splice_before. rewrite He, length_drop. lia.
Qed.

Lemma sealed_room r h room : sealed r h -> room < 16 -> bool_decide (Z.of_nat (length r) <= room) = false.
Proof. intros Hs Hr. pose proof (sealed_bounds r h Hs) as [_ Hb]. apply bool_decide_false. lia. Qed.

Lemma type_of_sealed r h : sealed r h -> type_of r = mh_type h.
Proof. intros Hs. pose proof (head_at r h [] Hs) as E. rewrite app_nil_r in E. unfold type_of. by rewrite E. Qed.

Lemma at_stream_sealed pickup data r rs : at_stream pickup data (r :: rs) -> exists h, sealed r h.
Proof. inversion 1; subst; [by apply Forall_cons in H4 as [? _]|eauto]. Qed.

Lemma mrecords_loop_spec fuel rs buf size count pickup data cuts out oc :
  at_stream pickup data rs -> Forall rec_fits rs -> no_error cuts -> length buf = Z.to_nat size -> bytes_ok buf ->
  0 <= count <= size -> size < 2 ^ 31 -> size - count < 16 * Z.of_nat fuel ->
  let b := batch (size - count) rs in
  exists buf' pickup' data' cuts', no_error cuts' /\ at_stream pickup' data' (snd b) /\ length buf' = length buf /\ bytes_ok buf' /\
    read_mrecords_loop HammerVersion addr fuel buf size count pickup (pp data cuts out oc) =
      Ok (count + Z.of_nat (length (concat (fst b))), buf', pickup') (pp data' cuts' out oc) /\
    take (Z.to_nat count + length (concat (fst b))) buf' = take (Z.to_nat count) buf ++ concat (fst b).
Proof.
  revert rs buf count pickup data cuts.
  induction fuel as [|fuel IH]; intros rs buf count pickup data cuts Ha Hfit Hc Hlen Hok Hcount Hsize Hfuel; [lia|].
  assert (forall pickup data cuts, at_stream pickup data rs -> no_error cuts -> batch (size - count) rs = ([], rs) ->
    let b := batch (size - count) rs in
    exists buf' pickup' data' cuts', no_error cuts' /\ at_stream pickup' data' (snd b) /\ length buf' = length buf /\ bytes_ok buf' /\
    (mret (M := prog pipes) (count, buf, pickup)) (pp data cuts out oc) =
      Ok (count + Z.of_nat (length (concat (fst b))), buf', pickup') (pp data' cuts' out oc) /\
    take (Z.to_nat count + length (concat (fst b))) buf' = take (Z.to_nat count) buf ++ concat (fst b)) as Hstop.
  { intros pk d c Hpk Hcc ->. cbn. exists buf, pk, d, c. split_and!; try done; [by rewrite Z.add_0_r|].
    by rewrite Nat.add_0_r, app_nil_r. }
  cbn [read_mrecords_loop]. unfold HAMMER_MREC_HEADSIZE at 1. rewrite (uwrap_small 32) by (unfold in_u; lia).
  case_bool_decide as Hroom; [|].
  2: { apply Hstop; [done..|]. destruct rs as [|r rs]; [done|]. destruct (at_stream_sealed _ _ _ _ Ha) as [h Hs].
       cbn [batch]. by rewrite (sealed_room r h) by (done || lia). }
  destruct rs as [|r rs].
  { destruct (pick_up_eof pickup data cuts out oc Ha Hc) as (c1 & Hc1 & E). rewrite (bind_Ok _ _ _ _ _ E). cbn [negb].
    apply Hstop; [|done|done]. inversion Ha; subst. by apply At_record. }
  destruct (pick_up_next pickup data r rs cuts out oc Ha Hc) as (h & c1 & Hc1 & Hs & Hall & E). rewrite (bind_Ok _ _ _ _ _ E).
  cbn [negb]. pose proof (sl_size _ _ Hs) as Hz. rewrite !bool_decide_false by lia. cbn [orb]. rewrite <- (sl_length _ _ Hs).
  assert (at_stream h (drop 16 r ++ concat rs) (r :: rs)) as Hat by (by apply At_header).
  cbn [batch] in *. rewrite (type_of_sealed r h Hs) in *. destruct (bool_decide_reflect (Z.of_nat (length r) <= size - count)) as [Hle|Hgt].
  2: { rewrite bool_decide_true by lia. by apply Hstop. }
  rewrite bool_decide_false by lia. destruct (for_ioctl (mh_type h)) eqn:Hio; cbn [negb andb] in *; [|by apply Hstop].
  pose proof (sealed_bounds r h Hs) as [Hb1 Hb2].
  destruct (read_all_spec c1 buf (Z.to_nat count) HAMMER_MREC_HEADSIZE (Z.of_nat (length r)) (drop 16 r) (concat rs) out oc)
    as (c2 & Hc2 & E2); [done|unfold HAMMER_MREC_HEADSIZE; lia|lia|rewrite length_drop; unfold HAMMER_MREC_HEADSIZE; lia|lia|].
  rewrite (bind_Ok _ _ _ _ _ E2). cbn [fst snd]. rewrite (bool_decide_false (Z.of_nat (length r) ≠ _)) by tauto.
  change (Z.to_nat HAMMER_MREC_HEADSIZE) with 16%nat. rewrite (store_record buf (Z.to_nat count) r h Hs) by lia.
  set (buf2 := splice buf (Z.to_nat count) r).
  assert (length buf2 = length buf) as Hl2 by (apply length_splice; lia).
  assert (drop (Z.to_nat count) buf2 = r ++ drop (Z.to_nat count + length r) buf) as Hd by (apply drop_splice; lia).
  assert (bytes_ok buf2) as Hok2 by (apply splice_ok; [done|apply (sl_ok _ _ Hs)]).
  rewrite Hd, (sealed_crc r h) by (done || by apply Forall_drop). cbn [deref].
  rewrite (bind_Ok (mret true) _ _ true (pp (concat rs) c2 out oc) eq_refl). cbn [negb].
  apply Forall_cons in Hfit as [Hf1 Hfit].
  rewrite (bind_Ok _ _ _ _ _ (check_rec_spec buf2 count r h _ _ Hs Hf1 Hok2 Hd)). rewrite uwrap_small by (unfold in_u; lia).
  destruct (IH rs buf2 (count + Z.of_nat (length r)) (forget h) (concat rs) c2) as (b' & pk' & d' & c' & Hc' & Ha' & Hl' & Hok' & E' & Ht');
    [apply At_record; try done; apply forget_valid, (sl_valid _ _ Hs)|done|done|by rewrite Hl2|done|lia|lia|lia|].
  replace (size - (count + Z.of_nat (length r))) with (size - count - Z.of_nat (length r)) in * by lia.
  set (b := batch (size - count - Z.of_nat (length r)) rs) in *. cbn [fst snd concat] in *.
  exists b', pk', d', c'. split_and!; try done; [by rewrite Hl'|rewrite E'; do 3 f_equal; rewrite length_app; lia|].
  rewrite length_app. replace (Z.to_nat count + (length r + length (concat b.1)))%nat
    with (Z.to_nat (count + Z.of_nat (length r)) + length (concat b.1))%nat by lia.
  rewrite Ht', app_assoc. f_equal. replace (Z.to_nat (count + Z.of_nat (length r))) with (Z.to_nat count + length r)%nat by lia.
  unfold buf2, splice. rewrite app_assoc. rewrite take_app_length'; [done|]. rewrite length_app, length_take. lia.
Qed.
End batches.

(** ** Writing *)

Definition head_with (crc size type : Z) : mrec_head :=
  {| mh_signature := HAMMER_IOC_MIRROR_SIGNATURE; mh_rec_crc := crc; mh_rec_size := size; mh_type := type |}.

Lemma encode_head_with crc size type :
  encode (head_with crc size type) =
    le_bytes 4 HAMMER_IOC_MIRROR_SIGNATURE ++ le_bytes 4 crc ++ le_bytes 4 size ++ le_bytes 4 type.
Proof. unfold encode. cbn [chunks mrec_head_ondisk head_with mh_signature mh_rec_crc mh_rec_size mh_type concat]. by rewrite app_nil_r. Qed.

Lemma splice_crc crc size type t :
  splice (encode (head_with 0 size type) ++ t) 4 (le_bytes 4 crc) = encode (head_with crc size type) ++ t.
Proof.
  rewrite !encode_head_with, <- !app_assoc. unfold splice. rewrite take_app_length' by (by rewrite le_bytes_length).
  rewrite le_bytes_length. by do 2 f_equal.
Qed.

Lemma drop8_head crc crc' size type t :
  drop 8 (encode (head_with crc size type) ++ t) = drop 8 (encode (head_with crc' size type) ++ t).
Proof.
  rewrite !encode_head_with, <- !app_assoc.
  rewrite !(drop_app_ge (le_bytes 4 HAMMER_IOC_MIRROR_SIGNATURE)), !le_bytes_length by (rewrite le_bytes_length; lia).
  by rewrite !drop_app_length' by (by rewrite le_bytes_length).
Qed.

Lemma pad_eq n : 0 <= n < 2 ^ 31 - 8 ->
  ((n + HAMMER_HEAD_ALIGN_MASK) .& Z.lnot HAMMER_HEAD_ALIGN_MASK) = HAMMER_HEAD_DOALIGN n.
Proof.
  intros Hn. rewrite doalign_eq by lia. change HAMMER_HEAD_ALIGN_MASK with (Z.ones 3).
  rewrite <- Z.ldiff_land, Z.ldiff_ones_r by lia. rewrite Z.shiftl_mul_pow2, Z.shiftr_div_pow2 by lia. done.
Qed.

Lemma write_fd_spec data d c out :
  write_fd data (pp d c out []) = Ok () (pp d c (out ++ data) []).
Proof.
  unfold write_fd. rewrite (bind_Ok _ _ _ (Z.of_nat (length data)) (pp d c (out ++ data) [])); [by rewrite bool_decide_false by tauto|].
  unfold write_raw. rewrite (bind_Ok get_state _ _ _ _ eq_refl). cbn [out_cuts]. by rewrite firstn_all.
Qed.

Lemma write_mrecord_spec type mrec nbytes d c out :
  bytes_ok mrec -> HAMMER_MREC_HEADSIZE <= nbytes <= sizeof_mrec_any + HAMMER_XBUFSIZE -> nbytes <= Z.of_nat (length mrec) ->
  in_u 32 type -> type ≠ 0 ->
  exists r h mrec', sealed r h /\ mh_type h = type /\ mh_rec_size h = nbytes /\
    take (Z.to_nat nbytes - 16) (drop 16 r) = take (Z.to_nat nbytes - 16) (drop 16 mrec) /\
    bytes_ok mrec' /\ length mrec' = length mrec /\ drop 16 mrec' = drop 16 mrec /\
    write_mrecord type mrec nbytes (pp d c out []) = Ok mrec' (pp d c (out ++ r) []).
Proof.
  unfold HAMMER_MREC_HEADSIZE, sizeof_mrec_any, HAMMER_XBUFSIZE. intros Hok Hn Hl Ht Ht0.
  set (tail := drop 16 mrec). assert (bytes_ok tail) as Htail by (by apply Forall_drop).
  assert (forall crc, length (encode (head_with crc nbytes type)) = 16%nat) as Hh
    by (intros crc; by rewrite encode_head_with, !length_app, !le_bytes_length).
  assert (write_at mrec 0 (head_with 0 nbytes type) = encode (head_with 0 nbytes type) ++ tail) as E1.
  { unfold write_at, splice. by rewrite take_0, app_nil_l, Hh. }
  set (crc := crc32_spec (take (Z.to_nat (nbytes - HAMMER_MREC_CRCOFF)) (drop 8 (encode (head_with 0 nbytes type) ++ tail)))).
  assert (in_u 32 crc) as Hcrc.
  { unfold crc, crc32_spec. destruct poly_crc32_ok. apply in_u_bnot; [lia|]. apply crc_ref_range; try done.
    apply Forall_take, Forall_drop, Forall_app. split; [|done]. rewrite encode_head_with, !Forall_app.
    split_and!; apply le_bytes_ok. }
  set (h := head_with crc nbytes type). set (mem := encode h ++ tail).
  assert (valid h) as Hv by (split_and!; cbn; done || (unfold in_u; lia)).
  assert (bytes_ok mem) as Hmem by (apply Forall_app; split; [by apply encode_ok|done]).
  assert (length tail + 16 = length mrec)%nat as Htl by (unfold tail; rewrite length_drop; lia).
  assert (length mem = length mrec) as Hml by (unfold mem, h; rewrite length_app, Hh; lia).
  assert (bytes_ok (encode (head_with 0 nbytes type) ++ tail)) as Hok1.
  { apply Forall_app. split; [|done]. rewrite encode_head_with, !Forall_app. split_and!; apply le_bytes_ok. }
  assert (hammer_crc_set_mrec_head (write_at mrec 0 (head_with 0 nbytes type)) nbytes = Some mem) as E2.
  { rewrite E1. unfold hammer_crc_set_mrec_head. rewrite mrec_crc_get; [|done|lia|rewrite length_app, Hh; lia].
    cbn [mbind option_bind]. fold crc. by rewrite splice_crc. }
  pose proof (doalign_eq nbytes ltac:(lia)) as Hda.
  set (pad := HAMMER_HEAD_DOALIGN nbytes - nbytes). assert (0 <= pad < 8) as Hpad by (unfold pad; rewrite Hda; dlia).
  set (r := take (Z.to_nat nbytes) mem ++ replicate (Z.to_nat pad) 0).
  assert (forall k, (k <= 16)%nat -> take (Z.to_nat nbytes - k) (drop k r) = take (Z.to_nat nbytes - k) (drop k mem)) as Hr.
  { intros k Hk. unfold r. rewrite drop_app_le by (rewrite length_take; lia).
    rewrite take_app_le by (rewrite length_drop, length_take; lia).
    rewrite skipn_firstn_comm, take_take. by rewrite Nat.min_id. }
  exists r, h, mem. split_and!; try done.
  - split; try done.
    + apply Forall_app. split; [by apply Forall_take|]. apply Forall_replicate. by unfold in_u.
    + unfold r. rewrite take_app_le by (rewrite length_take; lia). rewrite take_take, Nat.min_l by lia.
      unfold mem. by rewrite take_app_length' by (symmetry; apply Hh).
    + cbn. unfold r. rewrite length_app, length_take, length_replicate. unfold pad. lia.
    + cbn [h head_with mh_rec_crc mh_rec_size]. unfold crc. f_equal. unfold HAMMER_MREC_CRCOFF.
      replace (Z.to_nat (nbytes - 8)) with (Z.to_nat nbytes - 8)%nat by lia. rewrite Hr by lia. by unfold mem; f_equal.
  - by rewrite Hr by lia.
  - unfold write_mrecord. rewrite pad_eq by lia. fold pad. unfold HAMMER_MREC_HEADSIZE. rewrite (bool_decide_true (16 <= nbytes)) by lia.
    rewrite (bind_Ok (assertp true) _ _ () (pp d c out []) eq_refl). fold (head_with 0 nbytes type). rewrite E2.
    rewrite (bind_Ok (deref (Some mem)) _ _ mem (pp d c out []) eq_refl). rewrite (bind_Ok _ _ _ _ _ (write_fd_spec _ d c out)).
    case_bool_decide as Hp0; cbn [when].
    + rewrite (bind_Ok _ _ _ _ _ (write_fd_spec _ d c _)). unfold r. by rewrite <- app_assoc.
    + rewrite (bind_Ok (mret ()) _ _ () _ eq_refl). unfold r. replace (Z.to_nat pad) with 0%nat by lia. by rewrite app_nil_r.
Qed.
