(* ===== verification/MirrorHist.v ===== *)
(** * MirrorHist: the histogram of a bulk transfer

    The entry that [generate_histogram] counts a transaction id in, and the chunks it
    makes of the entries: each chunk counts exactly the bytes of the ids that its range of
    the transfer covers. *)

From S2P Require Import Prelude CMonad Crc32 HammerDisk Layout HammerCrc Mirror MirrorStream.

(** ** The entry of a transaction id *)

Section index.
Context (tid_beg tid_end : Z) (Hbeg : in_u 64 tid_beg) (Hend : in_u 64 tid_end) (Hlt : tid_beg < tid_end).
Local Abbreviation D := (tid_end - tid_beg).

Lemma delta_wrap tid : tid_beg <= tid <= tid_end -> u64 (tid - tid_beg) = tid - tid_beg.
Proof. intros. apply uwrap_small. dlia. Qed.

(** Even where the product overflows, the entry is in the array. *)
Lemma hist_index_range tid : tid_beg <= tid <= tid_end -> 0 <= hist_index tid_beg tid_end tid < HIST_COUNT.
Proof.
  intros Ht. unfold hist_index. rewrite delta_wrap by done. rewrite (delta_wrap tid_end) by lia.
  change HIST_COUNT with (2 ^ 20) in *. set (d := tid - tid_beg). set (q := u64 (d * 2 ^ 20) / D).
  assert (0 <= q <= 2 ^ 20 /\ (q = 2 ^ 20 -> d = D /\ D < 2 ^ 44)) as [Hq Hmax].
  { assert (0 <= u64 (d * 2 ^ 20) < 2 ^ 64) as Hu by (apply in_u_uwrap; lia). destruct (decide (D < 2 ^ 44)) as [Hs|Hl].
    - unfold q. rewrite uwrap_small by (unfold in_u, d; lia). split.
      + split; [apply Z.div_pos; unfold d; lia|]. apply Z.div_le_upper_bound; unfold d; lia.
      + intros E. split; [|done]. destruct (decide (d = D)) as [|Hn]; [done|]. exfalso.
        assert (d * 2 ^ 20 / D < 2 ^ 20) by (apply Z.div_lt_upper_bound; unfold d in *; lia). lia.
    - assert (q < 2 ^ 20) as Hq by (apply Z.div_lt_upper_bound; nia). split; [|lia]. split; [apply Z.div_pos; lia|lia]. }
  rewrite HammerDisk.swrap_small by (unfold in_s; lia). destruct (decide (q = 2 ^ 20)) as [E|Hn].
  - destruct (Hmax E) as [Hd Hs]. assert (hist_tid tid_beg tid_end q = tid) as ->.
    { unfold hist_tid. rewrite (delta_wrap tid_end) by lia. change HIST_COUNT with (2 ^ 20).
      rewrite E, (uwrap_small 64 (2 ^ 20)) by (unfold in_u; lia). rewrite (uwrap_small 64 (2 ^ 20 * D)) by (unfold in_u; lia).
      rewrite Z.mul_comm, Z.div_mul by lia. rewrite uwrap_small by (unfold in_u in *; lia). unfold d in Hd. lia. }
    rewrite !bool_decide_true by lia. cbn [andb]. lia.
  - destruct (bool_decide (tid = _)); cbn [andb]; [|lia]. case_bool_decide; lia.
Qed.

(** While the product does not overflow: the first id that is past entry [j]. *)
Definition bound (j : Z) : Z := tid_beg + j * D / HIST_COUNT.

Context (Hsmall : D < 2 ^ 44).

Lemma hist_tid_bound j : 0 <= j <= HIST_COUNT -> hist_tid tid_beg tid_end j = bound j.
Proof.
  intros Hj. unfold hist_tid, bound. rewrite delta_wrap by lia. change HIST_COUNT with (2 ^ 20) in *.
  rewrite (uwrap_small 64 j) by (unfold in_u; lia). rewrite (uwrap_small 64 (j * D)) by (unfold in_u; nia).
  apply uwrap_small. assert (0 <= j * D / 2 ^ 20 <= D) by (split; [apply Z.div_pos; nia|apply Z.div_le_upper_bound; nia]).
  unfold in_u in *. lia.
Qed.

Lemma bound_0 : bound 0 = tid_beg.
Proof. unfold bound. rewrite Z.mul_0_l, Zdiv_0_l. lia. Qed.
Lemma bound_end : bound HIST_COUNT = tid_end.
Proof. unfold bound. rewrite Z.mul_comm, Z.div_mul by done. lia. Qed.
Lemma bound_mono i j : i <= j -> bound i <= bound j.
Proof. intros. unfold bound. assert (i * D / HIST_COUNT <= j * D / HIST_COUNT); [|lia]. apply Z.div_le_mono; [done|]. nia. Qed.

Lemma hist_index_le tid j :
  tid_beg <= tid <= tid_end -> 0 < j <= HIST_COUNT -> j <= hist_index tid_beg tid_end tid <-> bound j < tid.
Proof.
  intros Ht Hj. unfold hist_index. rewrite delta_wrap by done. rewrite (delta_wrap tid_end) by lia.
  set (d := tid - tid_beg). change HIST_COUNT with (2 ^ 20) in Hj |- *.
  rewrite (uwrap_small 64 (d * 2 ^ 20)) by (unfold in_u, d; lia). set (q := d * 2 ^ 20 / D).
  assert (0 <= q <= 2 ^ 20) as Hq by (unfold q; split; [apply Z.div_pos; unfold d; lia|apply Z.div_le_upper_bound; unfold d; lia]).
  rewrite HammerDisk.swrap_small by (unfold in_s; lia). rewrite hist_tid_bound by (change HIST_COUNT with (2 ^ 20); lia).
  assert (D * q <= d * 2 ^ 20) as Hq1 by (apply Z.mul_div_le; lia).
  assert (forall i, bound i < tid <-> i * D < d * 2 ^ 20) as Hb.
  { intros i. unfold bound. change HIST_COUNT with (2 ^ 20). pose proof (Z.mul_div_le (i * D) (2 ^ 20) ltac:(lia)).
    pose proof (Z.mul_succ_div_gt (i * D) (2 ^ 20) ltac:(lia)). unfold d. lia. }
  assert (j <= q <-> j * D <= d * 2 ^ 20) as Hjq.
  { unfold q. split; intros H; [nia|]. apply Z.div_le_lower_bound; [lia|]. lia. }
  assert (tid = bound q <-> q * D = d * 2 ^ 20) as Heq.
  { unfold bound. change HIST_COUNT with (2 ^ 20). split; intros H.
    - assert (d = q * D / 2 ^ 20) as Hd by (unfold d; lia). pose proof (Z.mul_div_le (q * D) (2 ^ 20) ltac:(lia)). lia.
    - rewrite H, Z.div_mul by lia. unfold d. lia. }
  rewrite Hb. case_bool_decide as H1; cbn [andb].
  - apply Heq in H1. case_bool_decide as H2.
    + split; intros H; [nia|]. assert (j < q) by nia. lia.
    + assert (q = 0) as Hq0 by lia. split; intros H; [lia|]. exfalso. rewrite Hq0 in H1. nia.
  - rewrite Hjq. split; intros H; [|lia]. destruct (decide (j * D = d * 2 ^ 20)) as [E|]; [|lia]. exfalso. apply H1, Heq.
    assert (j <= q) by (by apply Hjq). nia.
Qed.
End index.

(** ** Counting *)

(** Bytes that belong to a transaction id. *)
Abbreviation sample := (Z * Z)%type.

Fixpoint bytes_of (f : Z -> bool) (l : list sample) : Z :=
  match l with
  | [] => 0
  | (tid, len) :: l => (if f tid then len else 0) + bytes_of f l
  end.

Lemma bytes_of_app f l1 l2 : bytes_of f (l1 ++ l2) = bytes_of f l1 + bytes_of f l2.
Proof. induction l1 as [|[t n] l1 IH]; cbn; lia. Qed.

Lemma bytes_of_ext f g l : (forall tid len, (tid, len) ∈ l -> f tid = g tid) -> bytes_of f l = bytes_of g l.
Proof.
  induction l as [|[t n] l IH]; intros H; [done|]. cbn. rewrite (H t n) by left. rewrite IH; [done|].
  intros tid len Hin. apply (H tid len). by right.
Qed.

Lemma bytes_of_split f g h l :
  (forall tid, f tid = g tid || h tid) -> (forall tid, g tid && h tid = false) -> bytes_of f l = bytes_of g l + bytes_of h l.
Proof.
  intros Ho Ha. induction l as [|[t n] l IH]; [done|]. cbn. rewrite IH, Ho. specialize (Ha t).
  destruct (g t), (h t); cbn in *; try done; lia.
Qed.

Lemma bytes_of_bounds f l : Forall (λ s : sample, 0 <= snd s) l -> 0 <= bytes_of f l <= bytes_of (λ _, true) l.
Proof. induction 1 as [|[t n] l Hn Hl IH]; [done|]. cbn in *. destruct (f t); lia. Qed.

Section count.
Context (tid_beg tid_end : Z) (Hbeg : in_u 64 tid_beg) (Hend : in_u 64 tid_end) (Hlt : tid_beg < tid_end).

(** The ids that are counted, and those of the entries from [i] to [j]. *)
Definition counts (tid : Z) : bool := bool_decide (tid ≠ 0) && bool_decide (tid_beg <= tid) && bool_decide (tid <= tid_end).
Definition in_entries (i j tid : Z) : bool :=
  counts tid && bool_decide (i <= hist_index tid_beg tid_end tid) && bool_decide (hist_index tid_beg tid_end tid < j).

Definition total (l : list sample) : Z := bytes_of (λ _, true) l.
Definition samples_ok (l : list sample) : Prop := Forall (λ s : sample, 0 <= snd s) l /\ total l < 2 ^ 64.

(** The histogram of a list of samples. *)
Definition represents (h : histogram) (l : list sample) : Prop :=
  forall i, hist_get h i = bytes_of (in_entries i (i + 1)) l.

Lemma hist_add_spec tid len h l :
  represents h l -> samples_ok (l ++ [(tid, len)]) ->
  exists h', hist_add tid_beg tid_end tid len h = Some h' /\ represents h' (l ++ [(tid, len)]).
Proof.
  intros Hr [Hpos Htot]. unfold hist_add. fold (counts tid). apply Forall_app in Hpos as [Hpos1 Hpos2].
  assert (0 <= len) as Hlen by (by apply (proj1 (Forall_singleton _ _)) in Hpos2).
  unfold total in Htot. rewrite bytes_of_app in Htot. cbn [bytes_of] in Htot. destruct (counts tid) eqn:Hc.
  - apply andb_true_iff in Hc as Hc'. destruct Hc' as [[_ H1%bool_decide_eq_true]%andb_true_iff H2%bool_decide_eq_true].
    pose proof (hist_index_range tid_beg tid_end Hbeg Hend Hlt tid ltac:(lia)) as Hi.
    rewrite bool_decide_true by done. eexists. split; [done|]. intros i. unfold hist_get at 1.
    rewrite bytes_of_app. cbn [bytes_of]. rewrite Z.add_0_r. unfold in_entries at 2. rewrite Hc. cbn [andb].
    pose proof (bytes_of_bounds (in_entries (hist_index tid_beg tid_end tid) (hist_index tid_beg tid_end tid + 1)) l Hpos1) as Hb.
    destruct (decide (hist_index tid_beg tid_end tid = i)) as [<-|Hn].
    + rewrite lookup_insert_eq. cbn [default]. unfold id. rewrite Hr.
      rewrite (bool_decide_true (_ <= hist_index _ _ _)), (bool_decide_true (hist_index _ _ _ < _)) by lia. cbn [andb].
      rewrite (uwrap_small 64 len), uwrap_small by (unfold in_u; lia). done.
    + rewrite lookup_insert_ne by done. fold (hist_get h i). rewrite Hr.
      destruct (decide (i <= hist_index tid_beg tid_end tid)); [rewrite (bool_decide_false (_ < i + 1)) by lia; rewrite andb_false_r; lia|].
      rewrite bool_decide_false by lia. cbn [andb]. lia.
  - eexists. split; [done|]. intros i. rewrite bytes_of_app. cbn [bytes_of]. unfold in_entries at 2. rewrite Hc. cbn [andb].
    rewrite Hr. lia.
Qed.

(** Entry by entry. *)
Lemma in_entries_next i j l : i <= j -> bytes_of (in_entries i (j + 1)) l = bytes_of (in_entries i j) l + bytes_of (in_entries j (j + 1)) l.
Proof.
  intros Hij. apply bytes_of_split; intros tid; unfold in_entries; destruct (counts tid); cbn [andb]; try done;
    repeat case_bool_decide; cbn; try done; lia.
Qed.

(** ** The records of the scan *)

(** What a record adds: its deletion without the data, its creation with it. *)
Definition rec_samples (head : mrec_head) (leaf : hammer_btree_leaf_elm) : list sample :=
  if counted_type head then
    let len := HAMMER_HEAD_DOALIGN (mh_rec_size head) in
    let dat := HAMMER_HEAD_DOALIGN (leaf_data_len leaf) in
    [(be_delete_tid (leaf_base leaf), if bool_decide (mh_type head = HAMMER_MREC_TYPE_REC) then len - dat else len);
     (be_create_tid (leaf_base leaf), if bool_decide (mh_type head = HAMMER_MREC_TYPE_REC_NODATA) then len + dat else len)]
  else [].
Definition samples_of (r : bytes) : list sample :=
  rec_samples (read_at mrec_head r 0) (read_at hammer_btree_leaf_elm r 16).

(** A record as the kernel makes it: a B-Tree record has its leaf, and its data if it is
    not left out. *)
Definition scanned (r : bytes) : Prop :=
  (exists h, sealed r h) /\
  let head := read_at mrec_head r 0 in
  let leaf := read_at hammer_btree_leaf_elm r 16 in
  (counted_type head = true -> 0 <= leaf_data_len leaf <= HAMMER_XBUFSIZE /\ sizeof_mrec_rec <= mh_rec_size head) /\
  (mh_type head = HAMMER_MREC_TYPE_REC -> sizeof_mrec_rec + leaf_data_len leaf <= mh_rec_size head).

Lemma doalign_mono m n : 0 <= m -> m <= n < 2 ^ 31 -> HAMMER_HEAD_DOALIGN m <= HAMMER_HEAD_DOALIGN n.
Proof. intros Hm Hn. rewrite !doalign_eq by lia. dlia. Qed.

Lemma hist_record_spec r h l :
  scanned r -> represents h l -> samples_ok (l ++ samples_of r) ->
  exists h', hist_record tid_beg tid_end (read_at mrec_head r 0) (read_at hammer_btree_leaf_elm r 16) h = Some h' /\
    represents h' (l ++ samples_of r).
Proof.
  intros [[hd Hs] [Hfit Hrec]] Hr Hok. pose proof (head_at r hd [] Hs) as Eh. rewrite app_nil_r in Eh.
  unfold samples_of, rec_samples, hist_record in *. rewrite Eh in *. set (leaf := read_at hammer_btree_leaf_elm r 16) in *.
  destruct (counted_type hd); [|exists h; split; [done|by rewrite app_nil_r]]. destruct (Hfit eq_refl) as [Hlen Hsz].
  pose proof (sl_size _ _ Hs) as Hz. unfold HAMMER_MREC_HEADSIZE, sizeof_mrec_any, sizeof_mrec_rec, HAMMER_XBUFSIZE in *.
  pose proof (doalign_eq (mh_rec_size hd) ltac:(lia)) as Ed. pose proof (doalign_eq (leaf_data_len leaf) ltac:(lia)) as El.
  assert (doalign_int (leaf_data_len leaf) = HAMMER_HEAD_DOALIGN (leaf_data_len leaf)) as Ei by (apply pad_eq; lia).
  rewrite Ei. rewrite HammerDisk.swrap_small by (done || (unfold in_s; rewrite Ed; dlia)). fold (counts (be_delete_tid (leaf_base leaf))).
  set (len := HAMMER_HEAD_DOALIGN (mh_rec_size hd)) in *. set (dat := HAMMER_HEAD_DOALIGN (leaf_data_len leaf)) in *.
  set (dlen := if bool_decide (mh_type hd = HAMMER_MREC_TYPE_REC) then len - dat else len) in *.
  set (clen := if bool_decide (mh_type hd = HAMMER_MREC_TYPE_REC_NODATA) then len + dat else len) in *.
  assert (counts (be_delete_tid (leaf_base leaf)) && bool_decide (mh_type hd = HAMMER_MREC_TYPE_REC) && bool_decide (dlen <= 0) = false) as ->.
  { destruct (bool_decide_reflect (mh_type hd = HAMMER_MREC_TYPE_REC)) as [Ht|]; [|by rewrite andb_false_r].
    rewrite (bool_decide_false (dlen <= 0)); [by rewrite andb_false_r|]. unfold dlen. specialize (Hrec Ht). rewrite Ed, El. dlia. }
  change [(be_delete_tid (leaf_base leaf), dlen); (be_create_tid (leaf_base leaf), clen)]
    with ([(be_delete_tid (leaf_base leaf), dlen)] ++ [(be_create_tid (leaf_base leaf), clen)]) in *. rewrite app_assoc in *.
  destruct (hist_add_spec (be_delete_tid (leaf_base leaf)) dlen h l Hr) as (h1 & -> & Hr1).
  { destruct Hok as [Hpos Htot]. apply Forall_app in Hpos as [Hp1 Hp2]. split; [done|]. unfold total in *. rewrite bytes_of_app in Htot.
    cbn [bytes_of] in Htot. pose proof (proj1 (Forall_singleton _ _) Hp2) as Hc. cbn in Hc. lia. }
  cbn [mbind option_bind]. by apply hist_add_spec.
Qed.

Lemma hist_buffer_spec fuel pre rs junk h l :
  Forall scanned rs -> represents h l -> samples_ok (l ++ (rs ≫= samples_of)) ->
  Z.of_nat (length (pre ++ concat rs)) < 2 ^ 30 -> (length (concat rs) < fuel)%nat ->
  exists h', hist_buffer tid_beg tid_end fuel (pre ++ concat rs ++ junk) (Z.of_nat (length (pre ++ concat rs))) (Z.of_nat (length pre)) h () =
      Ok h' () /\ represents h' (l ++ (rs ≫= samples_of)).
Proof.
  revert fuel pre h l. induction rs as [|r rs IH]; intros fuel pre h l Hrs Hr Hok Hlen Hfuel; (destruct fuel as [|fuel]; [lia|]); cbn [hist_buffer].
  - cbn [concat]. rewrite app_nil_r, bool_decide_false by lia. exists h. split; [done|]. cbn. by rewrite app_nil_r.
  - apply Forall_cons in Hrs as [Hsc Hrs]. pose proof Hsc as [[hd Hs] [Hfit _]].
    pose proof (head_at r hd [] Hs) as Eh. rewrite app_nil_r in Eh. rewrite Eh in Hfit.
    pose proof (sealed_bounds r hd Hs) as [Hb1 Hb2]. cbn [concat mbind list_bind] in *. fold (rs ≫= samples_of) in *.
    rewrite bool_decide_true by (rewrite !length_app; lia). rewrite Nat2Z.id.
    set (ubuf := pre ++ (r ++ concat rs) ++ junk).
    assert (drop (length pre) ubuf = r ++ concat rs ++ junk) as Hd
      by (unfold ubuf; rewrite drop_app_length, <- app_assoc; done).
    assert (read_at mrec_head ubuf (length pre) = hd) as Ehd.
    { change (read_at mrec_head (drop (length pre) ubuf) 0 = hd). rewrite Hd. by apply head_at. }
    rewrite Ehd. rewrite bool_decide_true.
    2: { unfold ubuf. rewrite !length_app. unfold sizeof_mrec_rec in Hfit. destruct (counted_type hd); [specialize (Hfit eq_refl)|]; lia. }
    assert (hist_record tid_beg tid_end hd (read_at hammer_btree_leaf_elm ubuf (length pre + 16)) h =
            hist_record tid_beg tid_end hd (read_at hammer_btree_leaf_elm r 16) h) as Erec.
    { unfold hist_record. destruct (counted_type hd); [|done]. destruct (Hfit eq_refl) as [_ Hsz]. unfold sizeof_mrec_rec in Hsz.
      replace (read_at hammer_btree_leaf_elm ubuf (length pre + 16)) with (read_at hammer_btree_leaf_elm r 16); [done|].
      change (read_at hammer_btree_leaf_elm (drop 16 r) 0 = read_at hammer_btree_leaf_elm (drop (length pre + 16) ubuf) 0).
      apply read_at_take. rewrite !drop_0, <- drop_drop, Hd, drop_app_le by lia. rewrite take_app_le; [done|].
      rewrite length_drop. change (sizeof hammer_btree_leaf_elm) with 64%nat. lia. }
    rewrite app_assoc in Hok. destruct (hist_record_spec r h l Hsc Hr) as (h1 & E1 & Hr1).
    { destruct Hok as [Hpos Htot]. apply Forall_app in Hpos as [Hp1 Hp2]. split; [done|]. unfold total in *. rewrite bytes_of_app in Htot.
      pose proof (bytes_of_bounds (λ _, true) _ Hp2). lia. }
    rewrite Eh in E1. rewrite Erec, E1. rewrite <- (sl_length _ _ Hs).
    rewrite HammerDisk.swrap_small by (unfold in_s; rewrite !length_app in Hlen; lia).
    destruct (IH fuel (pre ++ r) h1 (l ++ samples_of r) Hrs Hr1 Hok) as (h2 & E2 & Hr2).
    { by rewrite <- app_assoc. } { rewrite length_app in Hfuel. lia. }
    exists h2. rewrite <- app_assoc in Hr2. split; [|exact Hr2]. rewrite <- E2. unfold ubuf. rewrite <- !app_assoc.
    do 2 f_equal; rewrite !length_app; lia.
Qed.

(** A scan: buffers with at least one record each, then an empty one. *)
Definition buffer_of (x : list bytes * bytes) : bytes * Z := (concat (fst x) ++ snd x, Z.of_nat (length (concat (fst x)))).
Definition scan_ok (scan : list (list bytes * bytes)) : Prop :=
  Forall (λ x, Forall scanned (fst x) /\ fst x ≠ [] /\ Z.of_nat (length (concat (fst x))) < 2 ^ 30) scan.
Definition scan_samples (scan : list (list bytes * bytes)) : list sample := scan ≫= λ x, fst x ≫= samples_of.

Lemma hist_scan_spec scan last h l :
  scan_ok scan -> represents h l -> samples_ok (l ++ scan_samples scan) ->
  exists h', hist_scan tid_beg tid_end ((buffer_of <$> scan) ++ [(last, 0)]) h () = Ok h' () /\ represents h' (l ++ scan_samples scan).
Proof.
  revert h l. induction scan as [|[rs junk] scan IH]; intros h l Hs Hr Hok.
  - exists h. cbn. split; [done|]. by rewrite app_nil_r.
  - apply Forall_cons in Hs as [(Hrs & Hne & Hlen) Hs]. cbn [fst] in *.
    unfold scan_samples in Hok. cbn [mbind list_bind fst] in Hok. fold (rs ≫= samples_of) (scan_samples scan) in Hok.
    rewrite app_assoc in Hok.
    destruct (hist_buffer_spec (S (length (concat rs))) [] rs junk h l Hrs Hr) as (h1 & E1 & Hr1);
      [|done|lia|].
    { destruct Hok as [Hpos Htot]. apply Forall_app in Hpos as [Hp1 Hp2]. split; [done|]. unfold total in *. rewrite bytes_of_app in Htot.
      pose proof (bytes_of_bounds (λ _, true) _ Hp2). lia. }
    destruct (IH h1 (l ++ (rs ≫= samples_of)) Hs Hr1 Hok) as (h2 & E2 & Hr2). exists h2. split.
    + rewrite fmap_cons, <- app_comm_cons. cbn [hist_scan buffer_of fst snd]. rewrite Nat2Z.id.
      cbn [app length] in E1. rewrite (bind_Ok _ _ _ _ _ E1). rewrite bool_decide_false; [exact E2|].
      destruct rs as [|r rs]; [done|]. apply Forall_cons in Hrs as [[[hd Hsl] _] _]. pose proof (sealed_bounds r hd Hsl) as [_ Hb].
      cbn [concat]. rewrite length_app. lia.
    + unfold scan_samples. cbn [mbind list_bind fst]. fold (rs ≫= samples_of) (scan_samples scan). by rewrite app_assoc.
Qed.

(** ** The chunks *)

Context (Hsmall : tid_end - tid_beg < 2 ^ 44) (SplitupOpt : Z) (samples : list sample).

(** The bytes of the ids past [t], or from [t] on for the first chunk, up to [t']. *)
Definition bytes_between (first : bool) (t t' : Z) : Z :=
  bytes_of (λ tid, counts tid && (first || bool_decide (t < tid)) && bool_decide (tid <= t')) samples.

(** Chunks that follow each other up to the end of the transfer; each counts the samples of
    its range, and all but the last have the size that was asked for. *)
Fixpoint sliced (first : bool) (chunks : list (Z * Z)) : Prop :=
  match chunks with
  | [] => False
  | (t, b) :: rest =>
      match rest with
      | [] => t = tid_end
      | (t', _) :: rest' =>
          t <= t' /\ b = bytes_between first t t' /\ (rest' ≠ [] -> SplitupOpt <= b) /\ sliced false rest
      end
  end.

Lemma entries_between i j :
  0 <= i < j -> j <= HIST_COUNT ->
  bytes_of (in_entries i j) samples = bytes_between (bool_decide (i = 0)) (bound tid_beg tid_end i) (bound tid_beg tid_end j).
Proof.
  intros Hi Hj. apply bytes_of_ext. intros tid len _. unfold in_entries. destruct (counts tid) eqn:Hc; [|done]. cbn [andb].
  apply andb_true_iff in Hc as [[_ H1%bool_decide_eq_true]%andb_true_iff H2%bool_decide_eq_true].
  pose proof (hist_index_le tid_beg tid_end Hbeg Hend Hlt Hsmall tid j ltac:(lia) ltac:(lia)) as Hj'.
  pose proof (hist_index_range tid_beg tid_end Hbeg Hend Hlt tid ltac:(lia)) as Hr. f_equal.
  - destruct (bool_decide_reflect (i = 0)) as [H0|H0]; cbn [orb]; [apply bool_decide_true; lia|].
    pose proof (hist_index_le tid_beg tid_end Hbeg Hend Hlt Hsmall tid i ltac:(lia) ltac:(lia)) as Hi'.
    by apply bool_decide_ext.
  - apply bool_decide_ext. lia.
Qed.

Lemma hist_reduce_done h n i acc cur :
  hist_reduce tid_beg tid_end SplitupOpt h n i acc cur = acc ++ hist_reduce tid_beg tid_end SplitupOpt h n i [] cur.
Proof.
  revert i acc cur. induction n as [|n IH]; intros i acc cur; [done|]. cbn [hist_reduce]. case_bool_decide.
  - rewrite IH, (IH _ [cur]). by rewrite app_assoc.
  - apply IH.
Qed.

Lemma hist_reduce_sliced h n i j cur :
  represents h samples -> samples_ok samples -> 0 <= j < i -> i + Z.of_nat n = HIST_COUNT ->
  cur = (bound tid_beg tid_end j, bytes_of (in_entries j i) samples) ->
  exists b rest, hist_reduce tid_beg tid_end SplitupOpt h n i [] cur = (bound tid_beg tid_end j, b) :: rest /\
    rest ≠ [] /\ Z.of_nat (length rest) <= Z.of_nat n + 1 /\ last rest = Some (tid_end, u64 (-1)) /\
    sliced (bool_decide (j = 0)) ((bound tid_beg tid_end j, b) :: rest).
Proof.
  intros Hr [Hpos Htot]. revert i j cur. induction n as [|n IH]; intros i j cur Hij Hn Hcur.
  - assert (i = HIST_COUNT) as -> by lia. do 2 eexists. cbn [hist_reduce app]. rewrite Hcur. split; [done|]. split; [done|]. split; [done|].
    split; [done|]. cbn [sliced]. split; [|split; [|done]].
    + rewrite <- (bound_end tid_beg tid_end) at 2. apply bound_mono; lia.
    + rewrite entries_between by lia. by rewrite bound_end.
  - cbn [hist_reduce]. rewrite hist_tid_bound by (done || lia). rewrite Hr. rewrite Hcur. cbn [fst snd].
    assert (forall f, u64 (bytes_of f samples) = bytes_of f samples) as Hw.
    { intros f. pose proof (bytes_of_bounds f samples Hpos). apply uwrap_small. unfold in_u, total in *. lia. }
    case_bool_decide as Hs.
    + rewrite hist_reduce_done. rewrite Z.add_0_l, Hw. cbn [app].
      destruct (IH (i + 1) i (bound tid_beg tid_end i, bytes_of (in_entries i (i + 1)) samples) ltac:(lia) ltac:(lia) eq_refl)
        as (b & rest & E & Hne & Hlen & Hlast & Hsl).
      rewrite E. do 2 eexists. split; [done|]. split; [done|]. split; [cbn [length]; lia|]. split; [by destruct rest|].
      rewrite bool_decide_false in Hsl by lia. cbn [sliced]. split; [apply bound_mono; lia|]. split; [|by split].
      apply entries_between; lia.
    + rewrite <- in_entries_next, Hw by lia.
      destruct (IH (i + 1) j (bound tid_beg tid_end j, bytes_of (in_entries j (i + 1)) samples) ltac:(lia) ltac:(lia) eq_refl)
        as (b & rest & E & Hne & Hlen & Hlast & Hsl). exists b, rest. split; [exact E|]. split_and!; try done. lia.
Qed.
End count.
