(* ===== verification/MirrorProps.v ===== *)
(** * MirrorProps: the mirror stream, the histogram, the bandwidth limit and the restricted
    target *)

From S2P Require Import Prelude CMonad Crc32 HammerDisk Layout HammerCrc Mirror MirrorStream MirrorHist.

(** ** The stream *)

(** C16: The two readers of the stream agree on it.  When the rest of the stream is the
    records [rs], the header of the first possibly picked up by an earlier call,
    [read_mrecord] returns the first record (or the end of the stream), and [read_mrecords]
    fills the buffer with the longest run of records that are for the ioctl and fit; both
    leave the rest to the next call, whichever reader that is, and however the pipe cuts
    the bytes. *)
Theorem mirror_readers_refine HammerVersion addr pickup data cuts rs buf out oc :
  at_stream pickup data rs -> no_error cuts -> bytes_ok buf -> Z.of_nat (length buf) < 2 ^ 31 ->
  let b := batch (Z.of_nat (length buf)) rs in
  (exists pickup' data' cuts', no_error cuts' /\ at_stream pickup' data' (tail rs) /\
     read_mrecord (Some pickup) (pp data cuts out oc) = Ok (head rs, 0, Some pickup') (pp data' cuts' out oc)) /\
  (Forall rec_fits rs ->
   exists buf' pickup' data' cuts', no_error cuts' /\ at_stream pickup' data' (snd b) /\ length buf' = length buf /\
     read_mrecords HammerVersion addr buf (Z.of_nat (length buf)) pickup (pp data cuts out oc) =
       Ok (Z.of_nat (length (concat (fst b))), buf', pickup') (pp data' cuts' out oc) /\
     take (length (concat (fst b))) buf' = concat (fst b)).
Proof.
  intros Ha Hc Hok Hsize b. split.
  - destruct rs as [|r rs].
    + destruct (read_mrecord_eof pickup data cuts out oc Ha Hc) as (c' & Hc' & E). exists pickup, [], c'.
      split; [done|]. split; [|exact E]. inversion Ha; subst. by apply At_record.
    + destruct (read_mrecord_next pickup data r rs cuts out oc Ha Hc) as (pk & d & c' & Hc' & Ha' & E). by exists pk, d, c'.
  - intros Hfit.
    destruct (mrecords_loop_spec HammerVersion addr (S (Z.to_nat (Z.of_nat (length buf) / HAMMER_MREC_HEADSIZE))) rs buf
      (Z.of_nat (length buf)) 0 pickup data cuts out oc) as (b' & pk & d & c' & Hc' & Ha' & Hl & _ & E & Ht);
      [done|done|done|lia|done|lia|done| |].
    { unfold HAMMER_MREC_HEADSIZE. clear. dlia. }
    rewrite Z.sub_0_r in *. exists b', pk, d, c'. split_and!; done.
Qed.

(** A list of records is written, and read until the end. *)
Fixpoint write_records (ws : list (Z * bytes)) : prog pipes () :=
  match ws with
  | [] => mret ()
  | w :: ws => write_mrecord (fst w) (replicate 16 0 ++ snd w) (16 + Z.of_nat (length (snd w)));; write_records ws
  end.
Fixpoint read_records (fuel : nat) (pickup : option mrec_head) : prog pipes (list bytes) :=
  match fuel with
  | O => stop_with OutOfFuel
  | S fuel =>
      r ← read_mrecord pickup;
      match r with
      | (Some mrec, _, pickup) => rs ← read_records fuel pickup; mret (mrec :: rs)
      | (None, _, _) => mret []
      end
  end.

(** A record of the program: the type is not 0, the payload is not too large. *)
Definition sendable (w : Z * bytes) : Prop :=
  in_u 32 (fst w) /\ fst w ≠ 0 /\ bytes_ok (snd w) /\ 16 + Z.of_nat (length (snd w)) <= sizeof_mrec_any + HAMMER_XBUFSIZE.
(** The record carries the type and the payload. *)
Definition carries (w : Z * bytes) (r : bytes) : Prop :=
  type_of r = fst w /\ mh_rec_size (read_at mrec_head r 0) = 16 + Z.of_nat (length (snd w)) /\
  take (length (snd w)) (drop 16 r) = snd w.

Lemma write_records_spec ws d c out :
  Forall sendable ws ->
  exists rs, Forall (λ r, exists h, sealed r h) rs /\ Forall2 carries ws rs /\
    write_records ws (pp d c out []) = Ok () (pp d c (out ++ concat rs) []).
Proof.
  intros Hws. revert out. induction Hws as [|w ws Hw Hws IH]; intros out.
  { exists []. split; [by apply Forall_nil|]. split; [by apply Forall2_nil|]. cbn. by rewrite app_nil_r. }
  destruct Hw as (H1 & H2 & H3 & H4).
  destruct (write_mrecord_spec (fst w) (replicate 16 0 ++ snd w) (16 + Z.of_nat (length (snd w))) d c out)
    as (r & h & mrec' & Hs & Ht & Hz & Hb & _ & _ & _ & E).
  { apply Forall_app. split; [by repeat constructor|done]. }
  { unfold HAMMER_MREC_HEADSIZE. lia. }
  { rewrite length_app, length_replicate. lia. } { done. } { done. }
  destruct (IH (out ++ r)) as (rs & Hrs & Hf & E'). exists (r :: rs). split; [apply Forall_cons; eauto|]. split.
  - apply Forall2_cons. split; [|done]. pose proof (head_at r h [] Hs) as Eh. rewrite app_nil_r in Eh.
    split; [by rewrite (type_of_sealed r h Hs)|]. split; [by rewrite Eh|].
    replace (Z.to_nat (16 + Z.of_nat (length (snd w))) - 16)%nat with (length (snd w)) in Hb by lia. rewrite Hb.
    change (drop 16 (replicate 16 0 ++ snd w)) with (snd w). apply firstn_all.
  - cbn [write_records]. rewrite (bind_Ok _ _ _ _ _ E), E'. cbn [concat]. by rewrite app_assoc.
Qed.

Lemma read_records_spec rs pickup data cuts out oc :
  at_stream pickup data rs -> no_error cuts ->
  exists io, read_records (S (length rs)) (Some pickup) (pp data cuts out oc) = Ok rs io.
Proof.
  revert pickup data cuts. induction rs as [|r rs IH]; intros pickup data cuts Ha Hc.
  - destruct (read_mrecord_eof pickup data cuts out oc Ha Hc) as (c' & Hc' & E). eexists.
    cbn [read_records length]. by rewrite (bind_Ok _ _ _ _ _ E).
  - destruct (read_mrecord_next pickup data r rs cuts out oc Ha Hc) as (pk & d & c' & Hc' & Ha' & E).
    destruct (IH pk d c' Ha' Hc') as (io & E'). exists io. cbn [length]. remember (S (length rs)) as n. cbn [read_records].
    rewrite (bind_Ok _ _ _ _ _ E). by rewrite (bind_Ok _ _ _ _ _ E').
Qed.

(** [pickup.signature = 0; pickup.type = 0] *)
Definition no_pickup : mrec_head := {| mh_signature := 0; mh_rec_crc := 0; mh_rec_size := 0; mh_type := 0 |}.

(** C40: What [write_mrecord] writes, [read_mrecord] reads back: any list of records arrives
    with its types and payloads, in order, then the end of the stream, for every way in
    which the pipe cuts the bytes. *)
Theorem mirror_stream_roundtrip ws cuts :
  Forall sendable ws -> no_error cuts ->
  exists rs io, write_records ws (pp [] [] [] []) = Ok () (pp [] [] (concat rs) []) /\ Forall2 carries ws rs /\
    read_records (S (length ws)) (Some no_pickup) (pp (concat rs) cuts [] []) = Ok rs io.
Proof.
  intros Hws Hc. destruct (write_records_spec ws [] [] [] Hws) as (rs & Hrs & Hf & E).
  assert (at_stream no_pickup (concat rs) rs) as Ha.
  { by apply At_record. }
  destruct (read_records_spec rs no_pickup (concat rs) cuts [] [] Ha Hc) as (io & E').
  exists rs, io. rewrite (Forall2_length _ _ _ Hf). by split_and!.
Qed.

(** [size_t i = read(...)] never sees an error: -1 is not [<= 0], and [n += i] takes one
    off.  An error (say, an interrupted call) after [k] bytes of a header therefore loses
    the last of them and takes one byte too many from the stream. *)
Theorem mirror_read_error_loses_byte k data out oc :
  (1 <= k < 16)%nat -> (17 <= length data)%nat ->
  read_all (replicate 16 0) 0 0 HAMMER_MREC_HEADSIZE (pp data [Chunk (k - 1); Error] out oc) =
    Ok (16, take (k - 1) data ++ take (17 - k) (drop k data)) (pp (drop 17 data) [] out oc).
Proof.
  intros Hk Hl. do 17 (destruct data as [|? data]; [cbn in Hl; lia|]). clear Hl.
  do 17 (destruct k as [|k]; [first [lia | vm_compute; reflexivity]|]). lia.
Qed.

(** ** The histogram *)

(** C17: [generate_histogram] cuts the transfer as its estimate says, as long as the range of
    ids is below 2^44: it returns chunks that follow each other from the first id to the
    last; the bytes noted for a chunk are the samples whose ids lie past its id, up to and
    including the id of the next chunk (the first chunk also has its own id); and every
    chunk but the last has at least the size asked for.  The samples are the code's own
    estimate, not the bytes on the wire: a record is sampled at its creation id, with its
    data, and again at its deletion id, without, so that a record created and deleted within
    a chunk is counted twice there though it is sent once. *)
Theorem mirror_histogram_exact tid_beg tid_end SplitupOpt scan end_buf :
  in_u 64 tid_beg -> in_u 64 tid_end -> tid_beg < tid_end -> tid_end - tid_beg < 2 ^ 44 ->
  scan_ok scan -> samples_ok (scan_samples scan) ->
  exists b rest,
    let chunks := (tid_beg, b) :: rest in
    generate_histogram SplitupOpt tid_beg tid_end ((buffer_of <$> scan) ++ [(end_buf, 0)]) () =
      Ok (chunks, Z.of_nat (length rest)) () /\
    last chunks = Some (tid_end, u64 (-1)) /\ sliced tid_beg tid_end SplitupOpt (scan_samples scan) true chunks.
Proof.
  intros Hbeg Hend Hlt Hsmall Hscan Hok.
  destruct (hist_scan_spec tid_beg tid_end Hbeg Hend Hlt scan end_buf ∅ []) as (h & E & Hr); [done|done|done|]. cbn [app] in Hr.
  destruct (hist_reduce_sliced tid_beg tid_end Hbeg Hend Hlt Hsmall SplitupOpt (scan_samples scan) h (Z.to_nat (HIST_COUNT - 1)) 1 0
    (tid_beg, hist_get h 0) Hr Hok) as (b & rest & Er & Hne & Hlen & Hlast & Hsl); [lia|by vm_compute| |].
  { by rewrite Hr, bound_0. }
  rewrite bound_0 in Er, Hsl. exists b, rest. split_and!; [|by destruct rest|exact Hsl].
  unfold generate_histogram. rewrite bool_decide_false by lia. rewrite (bind_Ok _ _ _ _ _ E). unfold hist_chunks. rewrite Er.
  cbn [length]. rewrite bool_decide_true by (change HIST_COUNT with 1048576 in *; lia). unfold assertp.
  rewrite (bind_Ok (mret ()) _ _ () () eq_refl). do 3 f_equal. lia.
Qed.

(** The assertion on the entry of an id never fails, whatever the range; but from a range
    of 2^44 on the product overflows, so that entries are not in the order of the ids and
    the ids of the chunks go backwards.  (Ids start at 2^32 and count transactions.) *)
Theorem mirror_histogram_in_bounds tid_beg tid_end tid len h :
  in_u 64 tid_beg -> in_u 64 tid_end -> tid_beg < tid_end ->
  is_Some (hist_add tid_beg tid_end tid len h) /\
  hist_index 1 1700000000000000000 20000000000000 < hist_index 1 1700000000000000000 10000000000000 /\
  hist_tid 1 1700000000000000000 11 < hist_tid 1 1700000000000000000 10.
Proof.
  intros Hbeg Hend Hlt. split; [|by vm_compute]. unfold hist_add.
  destruct (bool_decide_reflect (tid_beg <= tid)) as [H1|], (bool_decide_reflect (tid <= tid_end)) as [H2|];
    rewrite ?andb_false_r; try (by eauto).
  destruct (bool_decide (tid ≠ 0)); cbn [andb]; [|by eauto].
  rewrite bool_decide_true; [by eauto|]. by apply hist_index_range.
Qed.

(** ** The bandwidth limit *)

Section bandwidth.
Context (BandwidthOpt : Z) (HBW : 0 < BandwidthOpt < 2 ^ 62).

(** [c] bytes of the window have been used: no more than the limit is written in one
    window, and a window ends only when it is used up. *)
Fixpoint windows_ok (c : Z) (log : list bw_event) : Prop :=
  match log with
  | [] => c < BandwidthOpt
  | Wrote n :: log => 0 < n /\ c + n <= BandwidthOpt /\ windows_ok (c + n) log
  | Window :: log => c = BandwidthOpt /\ windows_ok 0 log
  end.

Lemma write_raw_spec data d c out :
  write_raw data (pp d c out []) = Ok (Z.of_nat (length data)) (pp d c (out ++ data) []).
Proof. unfold write_raw. rewrite (bind_Ok get_state _ _ _ _ eq_refl). cbn [out_cuts]. by rewrite firstn_all. Qed.

Lemma writebw_end a r bwcount log d c out :
  0 <= bwcount < BandwidthOpt -> 0 <= a -> (0 < a \/ r = 0) ->
  exists log', windows_ok bwcount log' /\
    mret (M := prog pipes) (if bool_decide (a ≠ 0) then a else r, bwcount, log) (pp d c out []) =
      Ok (a + Z.of_nat (length (@nil Z)), (bwcount + Z.of_nat (length (@nil Z))) mod BandwidthOpt, log ++ log') (pp d c (out ++ []) []).
Proof.
  intros Hbw Ha Hr. exists []. split; [cbn; lia|]. cbn [length]. rewrite !app_nil_r, !Z.add_0_r, Z.mod_small by lia.
  case_bool_decide as Hn; [done|]. destruct Hr as [Hr| ->]; [lia|]. assert (a = 0) as -> by lia. done.
Qed.

Lemma writebw_loop_spec fuel buf a r bwcount log d c out :
  0 <= bwcount < BandwidthOpt -> Z.of_nat (length buf) < 2 ^ 62 -> (length buf <= fuel)%nat -> 0 <= a -> (0 < a \/ r = 0) ->
  exists log', windows_ok bwcount log' /\
    writebw_loop BandwidthOpt fuel buf a r bwcount log (pp d c out []) =
      Ok (a + Z.of_nat (length buf), (bwcount + Z.of_nat (length buf)) mod BandwidthOpt, log ++ log') (pp d c (out ++ buf) []).
Proof.
  revert buf a r bwcount log out. induction fuel as [|fuel IH]; intros buf a r bwcount log out Hbw Hlen Hf Ha Hr; cbn [writebw_loop].
  all: case_bool_decide as H0; [assert (buf = []) as -> by (apply length_zero_iff_nil; lia); by apply writebw_end|].
  { lia. }
  rewrite (uwrap_small 64 (bwcount + _)) by (unfold in_u; lia). rewrite (uwrap_small 64 (BandwidthOpt - bwcount)) by (unfold in_u; lia).
  set (n := if bool_decide (BandwidthOpt < bwcount + Z.of_nat (length buf)) then BandwidthOpt - bwcount else Z.of_nat (length buf)).
  assert (0 < n <= Z.of_nat (length buf) /\ bwcount + n <= BandwidthOpt /\ (n < Z.of_nat (length buf) -> bwcount + n = BandwidthOpt)) as (Hn & Hw & Hfull)
    by (unfold n; case_bool_decide; lia).
  rewrite (bool_decide_true (n ≠ 0)) by lia. rewrite (bind_Ok _ _ _ _ _ (write_raw_spec _ d c out)).
  rewrite length_take, Nat.min_l, Z2Nat.id by lia. rewrite !(bool_decide_true (0 <= n)) by lia.
  rewrite (uwrap_small 64 n) by (unfold in_u; lia). rewrite (bool_decide_false (n ≠ n)) by tauto.
  rewrite (uwrap_small 64 (bwcount + n)) by (unfold in_u; lia).
  assert (forall bw log1 L, 0 <= bw < BandwidthOpt -> (bwcount + n) mod BandwidthOpt = bw ->
    (forall log', windows_ok bw log' -> windows_ok bwcount (L ++ log')) -> log1 = log ++ L ->
    exists log', windows_ok bwcount log' /\
      writebw_loop BandwidthOpt fuel (drop (Z.to_nat n) buf) (a + n) n bw log1 (pp d c (out ++ take (Z.to_nat n) buf) []) =
      Ok (a + Z.of_nat (length buf), (bwcount + Z.of_nat (length buf)) mod BandwidthOpt, log ++ log') (pp d c (out ++ buf) [])) as Hnext.
  { intros bw log1 L Hb Hmod HL ->. destruct (IH (drop (Z.to_nat n) buf) (a + n) n bw (log ++ L) (out ++ take (Z.to_nat n) buf))
      as (log' & Hok & E); [done|rewrite length_drop; lia|rewrite length_drop; lia|lia|lia|].
    exists (L ++ log'). split; [by apply HL|]. rewrite E, <- !app_assoc, take_drop, length_drop. do 3 f_equal; [lia|].
    rewrite <- Hmod, Zplus_mod_idemp_l. f_equal. lia. }
  case_bool_decide as Hend.
  - apply (Hnext _ _ [Wrote n; Window]); [lia| | |by rewrite <- app_assoc].
    + replace (bwcount + n) with BandwidthOpt by lia. rewrite Z_mod_same_full. lia.
    + intros log' Hl. cbn. replace (bwcount + n - BandwidthOpt) with 0 in Hl by lia. split_and!; try done; lia.
  - apply (Hnext _ _ [Wrote n]); [lia|apply Z.mod_small; lia| |done]. intros log' Hl. cbn. split_and!; try done; lia.
Qed.
End bandwidth.

(** When the writes succeed, [writebw] writes the whole buffer, in order, returns its
    size, ends a window exactly when [BandwidthOpt] bytes have been written in it, and
    leaves in [bwcount] what the last window has used. *)
Theorem mirror_writebw_exact BandwidthOpt buf bwcount d c out :
  0 < BandwidthOpt < 2 ^ 62 -> 0 <= bwcount < BandwidthOpt -> Z.of_nat (length buf) < 2 ^ 62 ->
  exists log, windows_ok BandwidthOpt bwcount log /\
    writebw BandwidthOpt buf bwcount (pp d c out []) =
      Ok (Z.of_nat (length buf), (bwcount + Z.of_nat (length buf)) mod BandwidthOpt, log) (pp d c (out ++ buf) []).
Proof.
  intros HB Hb Hl. destruct (writebw_loop_spec BandwidthOpt HB (length buf) buf 0 0 bwcount [] d c out) as (log & Hok & E);
    [done|done|lia|lia|by right|]. by exists log.
Qed.

(** ** The restricted target *)

(** The components of a path, and the directory it names. *)
Fixpoint components (path : bytes) : list bytes :=
  match path with
  | [] => [[]]
  | c :: p =>
      if bool_decide (c = slash) then [] :: components p
      else match components p with
           | [] => [[c]]
           | x :: xs => (c :: x) :: xs
           end
  end.
Definition walk (dir : list bytes) (c : bytes) : list bytes :=
  if bool_decide (c = []) || bool_decide (c = [dot]) then dir
  else if bool_decide (c = [dot; dot]) then removelast dir else dir ++ [c].
Definition resolve (path : bytes) : list bytes := foldl walk [] (components path).

Lemma components_cons p : exists x xs, components p = x :: xs /\ (forall d, head x = Some d -> head p = Some d).
Proof.
  destruct p as [|c p]; cbn [components]; [by exists [], []|]. case_bool_decide; [by exists [], (components p)|].
  destruct (components p) as [|x xs]; [by exists [c], []|]. by exists (c :: x), xs.
Qed.

Lemma components_slash p q : components (p ++ slash :: q) = components p ++ components q.
Proof.
  induction p as [|c p IH]; [done|]. cbn [components app]. rewrite IH. case_bool_decide; [done|].
  destruct (components_cons p) as (x & xs & -> & _). done.
Qed.

Definition no_dotdot (c : bytes) : Prop := take 2 c ≠ [dot; dot].

Lemma restrict_loop_components b p :
  restrict_loop b p = Some () -> Forall no_dotdot (if b then components p else tail (components p)).
Proof.
  revert b. induction p as [|c p IH]; intros b.
  - intros _. destruct b; [|by apply Forall_nil]. by apply Forall_singleton.
  - cbn [restrict_loop components]. destruct (b && bool_decide (c = dot) && bool_decide (head p = Some dot)) eqn:E; [done|].
    intros H%IH. case_bool_decide as Hs; [destruct b; [by apply Forall_cons|done]|].
    destruct (components_cons p) as (x & xs & Ex & Hx). rewrite Ex in *. destruct b; [|done]. cbn [tail] in H.
    apply Forall_cons. split; [|done]. intros H2. destruct x as [|d x]; [done|]. cbn in H2. injection H2 as -> ->.
    rewrite (Hx dot eq_refl) in E. by rewrite !bool_decide_true in E by done.
Qed.

Lemma walk_below dir cs : Forall no_dotdot cs -> dir `prefix_of` foldl walk dir cs.
Proof.
  intros H. revert dir. induction H as [|c cs Hc _ IH]; intros dir; [done|]. cbn. etrans; [|apply IH]. unfold walk.
  destruct (_ || _); [done|]. case_bool_decide as Hd; [by subst|]. by eexists.
Qed.

(** A remote user who is restricted to a target that ends in a slash cannot leave it:
    whatever path passes the check names a directory below the target.  Without the final
    slash the check also lets through siblings whose names begin like the target. *)
Theorem mirror_restrict_confines target filesystem :
  hammer_check_restrict (Some (target ++ [slash])) filesystem = Some () ->
  resolve (target ++ [slash]) `prefix_of` resolve filesystem /\
  let a := 97 in let b := 98 in
  hammer_check_restrict (Some [slash; a]) [slash; a; b] = Some () /\ ~ resolve [slash; a] `prefix_of` resolve [slash; a; b].
Proof.
  intros H. split; [|split; [done|by intros [k Hk]]]. cbn [hammer_check_restrict] in H. case_bool_decide as Ht; [done|].
  apply (restrict_loop_components true) in H.
  rewrite <- (take_drop (length (target ++ [slash])) filesystem), Ht, <- app_assoc. cbn [app]. unfold resolve.
  rewrite !components_slash, !foldl_app. cbn [components]. by apply walk_below.
Qed.

(** ** Examples *)

(** A skip record and a B-Tree record without its data, as [write_mrecord] writes them. *)
Definition written (type : Z) (body : bytes) : bytes :=
  match write_records [(type, body)] (pp [] [] [] []) with Ok _ io => out_data io | Stop _ => [] end.
Definition demo_skip : bytes := Eval vm_compute in written HAMMER_MREC_TYPE_SKIP [1; 2; 3; 4; 5].
Definition demo_leaf : hammer_btree_leaf_elm :=
  {| leaf_base := {| be_obj_id := 1; be_key := 2; be_create_tid := 1500; be_delete_tid := 1700; be_rec_type := 16;
       be_obj_type := 0; be_btype := 82; be_localization := 0 |};
     leaf_create_ts := 0; leaf_delete_ts := 0; leaf_data_offset := 0; leaf_data_len := 100; leaf_data_crc := 0 |}.
Definition demo_rec : bytes := Eval vm_compute in written HAMMER_MREC_TYPE_REC_NODATA (encode demo_leaf).

Ltac concrete :=
  first [by apply (bool_decide_unpack _); vm_compute | vm_compute; reflexivity | vm_compute; discriminate
        | solve [repeat constructor; discriminate] | unfold bytes_ok, no_error; by apply (bool_decide_unpack _); vm_compute].

Lemma demo_skip_sealed : sealed demo_skip (read_at mrec_head demo_skip 0).
Proof. split; [concrete|split_and!; concrete|concrete|concrete|split; concrete|concrete|concrete|concrete]. Qed.
Lemma demo_rec_sealed : sealed demo_rec (read_at mrec_head demo_rec 0).
Proof. split; [concrete|split_and!; concrete|concrete|concrete|split; concrete|concrete|concrete|concrete]. Qed.

Lemma demo_stream : at_stream no_pickup (demo_skip ++ demo_rec) [demo_skip; demo_rec].
Proof.
  apply At_record; [done|done|split_and!; solve_range|done|].
  repeat (apply Forall_cons; split); [exists (read_at mrec_head demo_skip 0)|exists (read_at mrec_head demo_rec 0)|by apply Forall_nil].
  - apply demo_skip_sealed.
  - apply demo_rec_sealed.
Qed.

Lemma mirror_readers_refine_witness :
  exists pickup' data' cuts', no_error cuts' /\ at_stream pickup' data' [demo_rec] /\
    read_mrecord (Some no_pickup) (pp (demo_skip ++ demo_rec) [Chunk 4; Chunk 0; Chunk 9] [] []) =
      Ok (Some demo_skip, 0, Some pickup') (pp data' cuts' [] []).
Proof.
  destruct (mirror_readers_refine 7 0 no_pickup (demo_skip ++ demo_rec) [Chunk 4; Chunk 0; Chunk 9] [demo_skip; demo_rec]
    (replicate 200 0) [] []) as [H _]; [apply demo_stream|concrete|concrete|concrete|]. exact H.
Defined.

Lemma mirror_stream_roundtrip_witness :
  exists rs io, Forall2 carries [(HAMMER_MREC_TYPE_SKIP, [1; 2; 3]); (HAMMER_MREC_TYPE_TERM, [])] rs /\
    read_records 3 (Some no_pickup) (pp (concat rs) [Chunk 20; Chunk 1] [] []) = Ok rs io.
Proof.
  destruct (mirror_stream_roundtrip [(HAMMER_MREC_TYPE_SKIP, [1; 2; 3]); (HAMMER_MREC_TYPE_TERM, [])] [Chunk 20; Chunk 1])
    as (rs & io & _ & H1 & H2); [|concrete|by exists rs, io].
  repeat (apply Forall_cons; split); [split_and!; concrete|split_and!; concrete|by apply Forall_nil].
Defined.

Lemma mirror_read_error_loses_byte_witness :
  read_all (replicate 16 0) 0 0 HAMMER_MREC_HEADSIZE (pp demo_skip [Chunk 4; Error] [] []) =
    Ok (16, take 4 demo_skip ++ take 12 (drop 5 demo_skip)) (pp (drop 17 demo_skip) [] [] []).
Proof. apply (mirror_read_error_loses_byte 5); cbn; lia. Defined.

Lemma mirror_histogram_exact_witness :
  exists b rest, generate_histogram 50 1000 2000 ((buffer_of <$> [([demo_rec], [])]) ++ [([], 0)]) () =
      Ok ((1000, b) :: rest, Z.of_nat (length rest)) () /\
    sliced 1000 2000 50 (scan_samples [([demo_rec], [])]) true ((1000, b) :: rest).
Proof.
  destruct (mirror_histogram_exact 1000 2000 50 [([demo_rec], [])] []) as (b & rest & E & _ & Hs); [solve_range|solve_range|done|done| | |].
  - apply Forall_singleton. split_and!; [|done|concrete]. apply Forall_singleton. split; [|split].
    + exists (read_at mrec_head demo_rec 0). apply demo_rec_sealed.
    + intros _. split; [split|]; concrete.
    + by intros H; vm_compute in H.
  - split; concrete.
  - exists b, rest. exact (conj E Hs).
Defined.

Lemma mirror_histogram_in_bounds_witness : is_Some (hist_add 5 (2 ^ 63) (2 ^ 62) 100 ∅).
Proof. apply (mirror_histogram_in_bounds 5 (2 ^ 63) (2 ^ 62) 100 ∅); solve_range || done. Defined.

Lemma mirror_writebw_exact_witness :
  exists log, windows_ok 4 1 log /\ writebw 4 [1; 2; 3; 4; 5; 6] 1 (pp [] [] [9] []) = Ok (6, 3, log) (pp [] [] [9; 1; 2; 3; 4; 5; 6] []).
Proof. apply (mirror_writebw_exact 4 [1; 2; 3; 4; 5; 6] 1 [] [] [9]); cbn; lia. Defined.

Lemma mirror_restrict_confines_witness :
  resolve [slash; 97; slash] `prefix_of` resolve [slash; 97; slash; 98; slash; 99].
Proof. apply (mirror_restrict_confines [slash; 97] [slash; 97; slash; 98; slash; 99]). reflexivity. Defined.
