(* ===== verification/Cycle.v ===== *)
(** * Cycle: the cycle file (sbin/hammer/cycle.c)

    Commands that scan the B-Tree keep the key at which they were interrupted in a file, and
    begin there the next time.  The functions are those of cycle.c, over any state that has
    such a file; [path] is false when [CyclePath] is NULL. *)

From S2P Require Import Prelude CMonad WpStop HammerDisk Layout.

#[local] Opaque Z.to_nat.

(** A state with a cycle file. *)
Class CycleFile (S : Type) := {
  cycle_of : S -> option bytes;
  with_cycle : option bytes -> S -> S;
  cycle_same : forall s, with_cycle (cycle_of s) s = s;
}.

(** [hammer_key_beg_init] of misc.c. *)
Definition hammer_key_beg_init : hammer_base_elm :=
  {| be_obj_id := 2 ^ 63; be_key := 2 ^ 63; be_create_tid := 1; be_delete_tid := 0; be_rec_type := 0; be_obj_type := 0;
     be_btype := 0; be_localization := 0 |}.

Section cycle.
Context {S : Type} `{CycleFile S}.

(** The key and the tid that are left in the arguments. *)
Definition hammer_get_cycle (path : bool) (base : hammer_base_elm) (extra : Z) : prog S (hammer_base_elm * Z) :=
  s ← get_state;
  match (if path then cycle_of s else None) with
  | None => mret (base, extra)
  | Some file =>
      if bool_decide (length file < sizeof hammer_base_elm)%nat then modify (with_cycle None);; mret (base, extra)
      else
        (* a short read of [extra] fills its low bytes *)
        let x := take 8 (drop (sizeof hammer_base_elm) file) in
        mret (decode file, of_le (x ++ drop (length x) (le_bytes 8 extra)))
  end.
Definition hammer_set_cycle (path : bool) (base : hammer_base_elm) (extra : Z) : prog S () :=
  when path (modify (with_cycle (Some (encode base ++ le_bytes 8 extra)))).
Definition hammer_reset_cycle : prog S () := modify (with_cycle None).

(** Where a scan that would begin at [base] begins. *)
Definition resume_key (base : hammer_base_elm) (path : bool) (file : option bytes) : hammer_base_elm :=
  match (if path then file else None) with
  | Some f => if bool_decide (length f < sizeof hammer_base_elm)%nat then base else decode f
  | None => base
  end.

Lemma get_cycle_spec path base extra (s : S) E :
  wps (hammer_get_cycle path base extra) s E
    (λ r s', fst r = resume_key base path (cycle_of s) /\
       exists c, s' = with_cycle c s /\ (c = cycle_of s \/ c = None) /\ resume_key base path c = resume_key base path (cycle_of s)).
Proof.
  unfold hammer_get_cycle, resume_key. do 2 stop_step. destruct path.
  2: { stop_step. split; [done|]. exists (cycle_of s). split; [by rewrite cycle_same|]. auto. }
  destruct (cycle_of s) as [f|] eqn:Hc.
  - case_bool_decide; [do 3 stop_step; split; [done|]; exists None; by auto|]. stop_step. split; [done|]. exists (Some f).
    rewrite bool_decide_false by done. rewrite <- Hc, cycle_same. auto.
  - stop_step. split; [done|]. exists None. rewrite <- Hc, cycle_same. auto.
Qed.
End cycle.
