(* ===== verification/Dedup.v ===== *)
(** * Dedup: hammer dedup and dedup-simulate (sbin/hammer/cmd_dedup.c, cycle.c)

    The scan of the B-Tree, the tree of CRCs with the subtrees of SHA-256 hashes for CRCs
    that collide, the records that are tried again (pass 2), the passes over ranges of CRCs
    when memory is short, the accounting, and the cycle file.

    The kernel is a parameter: a state and its answers to the three ioctls and to the
    question whether a signal has arrived.  The two red-black trees of CRCs are finite maps,
    the trees of hashes are sorted lists.  The opening of the PFS and printing are left
    out.  [dd_log] is not a variable of the program: it records the records that were
    handed to the callback of a scan and the pairs for which the dedup ioctl was issued;
    the observer [k_watch], who can end a run, is there to speak of runs that do not
    return. *)

From S2P Require Import Prelude CMonad HammerDisk Layout HammerCrc Sha2 Mirror Cycle.

(** ** Constants *)

Definition DEDUP_BUF : Z := 64 * 1024.
Definition DEDUP_PASS2 : Z := 0x0001.
Definition DEDUP_TECH_FAILURE : Z := 1.
Definition DEDUP_CMP_FAILURE : Z := 2.
Definition DEDUP_INVALID_ZONE : Z := 3.
Definition DEDUP_UNDERFLOW : Z := 4.
Definition DEDUP_VERS_FAILURE : Z := 5.
Definition HAMMER_IOC_DEDUP_CMP_FAILURE : Z := 0x0001.
Definition HAMMER_IOC_DEDUP_UNDERFLOW : Z := 0x0002.
Definition HAMMER_IOC_DEDUP_INVALID_ZONE : Z := 0x0004.
Definition HAMMER_BTREE_TYPE_RECORD : Z := 0x52.
Definition HAMMER_RECTYPE_DATA : Z := 0x0010.
Definition EOPNOTSUPP : Z := 95.
Definition SHA256_DIGEST_LENGTH : nat := 32.

(** The sizes of the nodes, with their [RB_ENTRY]. *)
Definition sizeof_sim_dedup_entry : Z := 56.
Definition sizeof_dedup_entry : Z := 120.
Definition sizeof_sha_dedup_entry : Z := 144.

Abbreviation leaf_t := hammer_btree_leaf_elm.
(** [data_len] is an [int32_t]; it is added to 64-bit counters. *)
Definition data_len (l : leaf_t) : Z := s32 (leaf_data_len l).

(** ** Trees *)

Record sim_dedup_entry := { sim_ref_blks : Z; sim_ref_size : Z }.

Record sha_dedup_entry := { sd_leaf : leaf_t; sd_ref_blks : Z; sd_ref_size : Z; sd_hash : bytes }.

(** The union of [struct dedup_entry]; [HAMMER_DEDUP_ENTRY_FICTITIOUS] tells which. *)
Inductive dedup_u :=
  | De (ref_blks ref_size : Z)
  | Fict (fict_root : list sha_dedup_entry).
Record dedup_entry := { de_leaf : leaf_t; de_u : dedup_u }.

(** The words of a hash, as [unsigned long]. *)
Definition hash_words (h : bytes) : list Z := of_le <$> [take 8 h; take 8 (drop 8 h); take 8 (drop 16 h); take 8 (drop 24 h)].

Fixpoint words_compare (h1 h2 : list Z) : comparison :=
  match h1, h2 with
  | w1 :: h1, w2 :: h2 => match Z.compare w1 w2 with Eq => words_compare h1 h2 | c => c end
  | _, _ => Eq
  end.
Definition rb_sha_dedup_entry_compare (h1 h2 : bytes) : comparison := words_compare (hash_words h1) (hash_words h2).

Definition sha_eq (h : bytes) (e : sha_dedup_entry) : bool :=
  match rb_sha_dedup_entry_compare h (sd_hash e) with Eq => true | _ => false end.

(** [RB_FIND] and [RB_INSERT] *)
Definition sha_find (h : bytes) (root : list sha_dedup_entry) : option sha_dedup_entry := List.find (sha_eq h) root.
Fixpoint sha_insert (e : sha_dedup_entry) (root : list sha_dedup_entry) : list sha_dedup_entry :=
  match root with
  | [] => [e]
  | e' :: root =>
      match rb_sha_dedup_entry_compare (sd_hash e) (sd_hash e') with
      | Lt => e :: e' :: root
      | Eq => e' :: root
      | Gt => e' :: sha_insert e root
      end
  end.
(** A write through a pointer to the node with hash [h]. *)
Definition sha_update (f : sha_dedup_entry -> sha_dedup_entry) (h : bytes) (root : list sha_dedup_entry) : list sha_dedup_entry :=
  map (λ e, if sha_eq h e then f e else e) root.

(** [RB_MAX] *)
Definition rb_max {A} (t : gmap Z A) : option (Z * A) :=
  foldr (λ p acc, match acc with Some q => if bool_decide (fst q < fst p) then Some p else Some q | None => Some p end) None (map_to_list t).

(** ** The kernel *)

(** The answer to [HAMMERIOC_MIRROR_READ]. *)
Inductive mirror_reply :=
  | MirrorFailed
  | MirrorRead (head_error : bool) (ubuf : bytes) (count : Z) (key_cur : hammer_base_elm).

Inductive event := Seen (l : leaf_t) | Pair (p q : leaf_t).

Record kernel (K : Type) := {
  k_mirror_read : hammer_base_elm -> K -> mirror_reply * K;
  (** [head.flags], or [errno] *)
  k_dedup : hammer_base_elm -> hammer_base_elm -> K -> (Z + Z) * K;
  (** [data.leaf] and what was written to [data.ubuf] *)
  k_get_data : hammer_base_elm -> K -> option (leaf_t * bytes) * K;
  (** [DidInterrupt || SigAlrmFlag] *)
  k_interrupted : K -> bool * K;
  (** Not the kernel but an observer beside it, who looks at the log whenever the dedup
      ioctl is about to be issued, and ends the run when he does not accept it. *)
  k_watch : list event -> bool;
}.
Arguments k_mirror_read {_} _.
Arguments k_dedup {_} _.
Arguments k_get_data {_} _.
Arguments k_interrupted {_} _.
Arguments k_watch {_} _.

(** ** The state *)

Record dedup (K : Type) := {
  dedup_tree : gmap Z dedup_entry;
  sim_dedup_tree : gmap Z sim_dedup_entry;
  pass2_dedup_queue : list leaf_t;
  DedupDataReads : Z;
  DedupCurrentRecords : Z;
  DedupTotalRecords : Z;
  DedupCrcStart : Z;
  DedupCrcEnd : Z;
  MemoryUse : Z;
  dedup_alloc_size : Z;
  dedup_ref_size : Z;
  dedup_skipped_size : Z;
  dedup_crc_failures : Z;
  dedup_sha_failures : Z;
  dedup_underflows : Z;
  dedup_successes_count : Z;
  dedup_successes_bytes : Z;
  cycle_file : option bytes;
  dd_kernel : K;
  dd_log : list event;
}.
Arguments dedup_tree {_} _.
Arguments sim_dedup_tree {_} _.
Arguments pass2_dedup_queue {_} _.
Arguments DedupDataReads {_} _.
Arguments DedupCurrentRecords {_} _.
Arguments DedupTotalRecords {_} _.
Arguments DedupCrcStart {_} _.
Arguments DedupCrcEnd {_} _.
Arguments MemoryUse {_} _.
Arguments dedup_alloc_size {_} _.
Arguments dedup_ref_size {_} _.
Arguments dedup_skipped_size {_} _.
Arguments dedup_crc_failures {_} _.
Arguments dedup_sha_failures {_} _.
Arguments dedup_underflows {_} _.
Arguments dedup_successes_count {_} _.
Arguments dedup_successes_bytes {_} _.
Arguments cycle_file {_} _.
Arguments dd_kernel {_} _.
Arguments dd_log {_} _.

Definition set_dedup_tree {K} (v : gmap Z dedup_entry) (s : dedup K) : dedup K :=
  {| dedup_tree := v; sim_dedup_tree := sim_dedup_tree s; pass2_dedup_queue := pass2_dedup_queue s;
     DedupDataReads := DedupDataReads s; DedupCurrentRecords := DedupCurrentRecords s;
     DedupTotalRecords := DedupTotalRecords s; DedupCrcStart := DedupCrcStart s; DedupCrcEnd := DedupCrcEnd s;
     MemoryUse := MemoryUse s; dedup_alloc_size := dedup_alloc_size s; dedup_ref_size := dedup_ref_size s;
     dedup_skipped_size := dedup_skipped_size s; dedup_crc_failures := dedup_crc_failures s;
     dedup_sha_failures := dedup_sha_failures s; dedup_underflows := dedup_underflows s;
     dedup_successes_count := dedup_successes_count s; dedup_successes_bytes := dedup_successes_bytes s;
     cycle_file := cycle_file s; dd_kernel := dd_kernel s; dd_log := dd_log s |}.
Definition set_sim_dedup_tree {K} (v : gmap Z sim_dedup_entry) (s : dedup K) : dedup K :=
  {| dedup_tree := dedup_tree s; sim_dedup_tree := v; pass2_dedup_queue := pass2_dedup_queue s;
     DedupDataReads := DedupDataReads s; DedupCurrentRecords := DedupCurrentRecords s;
     DedupTotalRecords := DedupTotalRecords s; DedupCrcStart := DedupCrcStart s; DedupCrcEnd := DedupCrcEnd s;
     MemoryUse := MemoryUse s; dedup_alloc_size := dedup_alloc_size s; dedup_ref_size := dedup_ref_size s;
     dedup_skipped_size := dedup_skipped_size s; dedup_crc_failures := dedup_crc_failures s;
     dedup_sha_failures := dedup_sha_failures s; dedup_underflows := dedup_underflows s;
     dedup_successes_count := dedup_successes_count s; dedup_successes_bytes := dedup_successes_bytes s;
     cycle_file := cycle_file s; dd_kernel := dd_kernel s; dd_log := dd_log s |}.
Definition set_pass2_dedup_queue {K} (v : list leaf_t) (s : dedup K) : dedup K :=
  {| dedup_tree := dedup_tree s; sim_dedup_tree := sim_dedup_tree s; pass2_dedup_queue := v;
     DedupDataReads := DedupDataReads s; DedupCurrentRecords := DedupCurrentRecords s;
     DedupTotalRecords := DedupTotalRecords s; DedupCrcStart := DedupCrcStart s; DedupCrcEnd := DedupCrcEnd s;
     MemoryUse := MemoryUse s; dedup_alloc_size := dedup_alloc_size s; dedup_ref_size := dedup_ref_size s;
     dedup_skipped_size := dedup_skipped_size s; dedup_crc_failures := dedup_crc_failures s;
     dedup_sha_failures := dedup_sha_failures s; dedup_underflows := dedup_underflows s;
     dedup_successes_count := dedup_successes_count s; dedup_successes_bytes := dedup_successes_bytes s;
     cycle_file := cycle_file s; dd_kernel := dd_kernel s; dd_log := dd_log s |}.
Definition set_DedupDataReads {K} (v : Z) (s : dedup K) : dedup K :=
  {| dedup_tree := dedup_tree s; sim_dedup_tree := sim_dedup_tree s; pass2_dedup_queue := pass2_dedup_queue s;
     DedupDataReads := v; DedupCurrentRecords := DedupCurrentRecords s; DedupTotalRecords := DedupTotalRecords s;
     DedupCrcStart := DedupCrcStart s; DedupCrcEnd := DedupCrcEnd s; MemoryUse := MemoryUse s;
     dedup_alloc_size := dedup_alloc_size s; dedup_ref_size := dedup_ref_size s;
     dedup_skipped_size := dedup_skipped_size s; dedup_crc_failures := dedup_crc_failures s;
     dedup_sha_failures := dedup_sha_failures s; dedup_underflows := dedup_underflows s;
     dedup_successes_count := dedup_successes_count s; dedup_successes_bytes := dedup_successes_bytes s;
     cycle_file := cycle_file s; dd_kernel := dd_kernel s; dd_log := dd_log s |}.
Definition set_DedupCurrentRecords {K} (v : Z) (s : dedup K) : dedup K :=
  {| dedup_tree := dedup_tree s; sim_dedup_tree := sim_dedup_tree s; pass2_dedup_queue := pass2_dedup_queue s;
     DedupDataReads := DedupDataReads s; DedupCurrentRecords := v; DedupTotalRecords := DedupTotalRecords s;
     DedupCrcStart := DedupCrcStart s; DedupCrcEnd := DedupCrcEnd s; MemoryUse := MemoryUse s;
     dedup_alloc_size := dedup_alloc_size s; dedup_ref_size := dedup_ref_size s;
     dedup_skipped_size := dedup_skipped_size s; dedup_crc_failures := dedup_crc_failures s;
     dedup_sha_failures := dedup_sha_failures s; dedup_underflows := dedup_underflows s;
     dedup_successes_count := dedup_successes_count s; dedup_successes_bytes := dedup_successes_bytes s;
     cycle_file := cycle_file s; dd_kernel := dd_kernel s; dd_log := dd_log s |}.
Definition set_DedupTotalRecords {K} (v : Z) (s : dedup K) : dedup K :=
  {| dedup_tree := dedup_tree s; sim_dedup_tree := sim_dedup_tree s; pass2_dedup_queue := pass2_dedup_queue s;
     DedupDataReads := DedupDataReads s; DedupCurrentRecords := DedupCurrentRecords s; DedupTotalRecords := v;
     DedupCrcStart := DedupCrcStart s; DedupCrcEnd := DedupCrcEnd s; MemoryUse := MemoryUse s;
     dedup_alloc_size := dedup_alloc_size s; dedup_ref_size := dedup_ref_size s;
     dedup_skipped_size := dedup_skipped_size s; dedup_crc_failures := dedup_crc_failures s;
     dedup_sha_failures := dedup_sha_failures s; dedup_underflows := dedup_underflows s;
     dedup_successes_count := dedup_successes_count s; dedup_successes_bytes := dedup_successes_bytes s;
     cycle_file := cycle_file s; dd_kernel := dd_kernel s; dd_log := dd_log s |}.
Definition set_DedupCrcStart {K} (v : Z) (s : dedup K) : dedup K :=
  {| dedup_tree := dedup_tree s; sim_dedup_tree := sim_dedup_tree s; pass2_dedup_queue := pass2_dedup_queue s;
     DedupDataReads := DedupDataReads s; DedupCurrentRecords := DedupCurrentRecords s;
     DedupTotalRecords := DedupTotalRecords s; DedupCrcStart := v; DedupCrcEnd := DedupCrcEnd s;
     MemoryUse := MemoryUse s; dedup_alloc_size := dedup_alloc_size s; dedup_ref_size := dedup_ref_size s;
     dedup_skipped_size := dedup_skipped_size s; dedup_crc_failures := dedup_crc_failures s;
     dedup_sha_failures := dedup_sha_failures s; dedup_underflows := dedup_underflows s;
     dedup_successes_count := dedup_successes_count s; dedup_successes_bytes := dedup_successes_bytes s;
     cycle_file := cycle_file s; dd_kernel := dd_kernel s; dd_log := dd_log s |}.
Definition set_DedupCrcEnd {K} (v : Z) (s : dedup K) : dedup K :=
  {| dedup_tree := dedup_tree s; sim_dedup_tree := sim_dedup_tree s; pass2_dedup_queue := pass2_dedup_queue s;
     DedupDataReads := DedupDataReads s; DedupCurrentRecords := DedupCurrentRecords s;
     DedupTotalRecords := DedupTotalRecords s; DedupCrcStart := DedupCrcStart s; DedupCrcEnd := v;
     MemoryUse := MemoryUse s; dedup_alloc_size := dedup_alloc_size s; dedup_ref_size := dedup_ref_size s;
     dedup_skipped_size := dedup_skipped_size s; dedup_crc_failures := dedup_crc_failures s;
     dedup_sha_failures := dedup_sha_failures s; dedup_underflows := dedup_underflows s;
     dedup_successes_count := dedup_successes_count s; dedup_successes_bytes := dedup_successes_bytes s;
     cycle_file := cycle_file s; dd_kernel := dd_kernel s; dd_log := dd_log s |}.
Definition set_MemoryUse {K} (v : Z) (s : dedup K) : dedup K :=
  {| dedup_tree := dedup_tree s; sim_dedup_tree := sim_dedup_tree s; pass2_dedup_queue := pass2_dedup_queue s;
     DedupDataReads := DedupDataReads s; DedupCurrentRecords := DedupCurrentRecords s;
     DedupTotalRecords := DedupTotalRecords s; DedupCrcStart := DedupCrcStart s; DedupCrcEnd := DedupCrcEnd s;
     MemoryUse := v; dedup_alloc_size := dedup_alloc_size s; dedup_ref_size := dedup_ref_size s;
     dedup_skipped_size := dedup_skipped_size s; dedup_crc_failures := dedup_crc_failures s;
     dedup_sha_failures := dedup_sha_failures s; dedup_underflows := dedup_underflows s;
     dedup_successes_count := dedup_successes_count s; dedup_successes_bytes := dedup_successes_bytes s;
     cycle_file := cycle_file s; dd_kernel := dd_kernel s; dd_log := dd_log s |}.
Definition set_dedup_alloc_size {K} (v : Z) (s : dedup K) : dedup K :=
  {| dedup_tree := dedup_tree s; sim_dedup_tree := sim_dedup_tree s; pass2_dedup_queue := pass2_dedup_queue s;
     DedupDataReads := DedupDataReads s; DedupCurrentRecords := DedupCurrentRecords s;
     DedupTotalRecords := DedupTotalRecords s; DedupCrcStart := DedupCrcStart s; DedupCrcEnd := DedupCrcEnd s;
     MemoryUse := MemoryUse s; dedup_alloc_size := v; dedup_ref_size := dedup_ref_size s;
     dedup_skipped_size := dedup_skipped_size s; dedup_crc_failures := dedup_crc_failures s;
     dedup_sha_failures := dedup_sha_failures s; dedup_underflows := dedup_underflows s;
     dedup_successes_count := dedup_successes_count s; dedup_successes_bytes := dedup_successes_bytes s;
     cycle_file := cycle_file s; dd_kernel := dd_kernel s; dd_log := dd_log s |}.
Definition set_dedup_ref_size {K} (v : Z) (s : dedup K) : dedup K :=
  {| dedup_tree := dedup_tree s; sim_dedup_tree := sim_dedup_tree s; pass2_dedup_queue := pass2_dedup_queue s;
     DedupDataReads := DedupDataReads s; DedupCurrentRecords := DedupCurrentRecords s;
     DedupTotalRecords := DedupTotalRecords s; DedupCrcStart := DedupCrcStart s; DedupCrcEnd := DedupCrcEnd s;
     MemoryUse := MemoryUse s; dedup_alloc_size := dedup_alloc_size s; dedup_ref_size := v;
     dedup_skipped_size := dedup_skipped_size s; dedup_crc_failures := dedup_crc_failures s;
     dedup_sha_failures := dedup_sha_failures s; dedup_underflows := dedup_underflows s;
     dedup_successes_count := dedup_successes_count s; dedup_successes_bytes := dedup_successes_bytes s;
     cycle_file := cycle_file s; dd_kernel := dd_kernel s; dd_log := dd_log s |}.
Definition set_dedup_skipped_size {K} (v : Z) (s : dedup K) : dedup K :=
  {| dedup_tree := dedup_tree s; sim_dedup_tree := sim_dedup_tree s; pass2_dedup_queue := pass2_dedup_queue s;
     DedupDataReads := DedupDataReads s; DedupCurrentRecords := DedupCurrentRecords s;
     DedupTotalRecords := DedupTotalRecords s; DedupCrcStart := DedupCrcStart s; DedupCrcEnd := DedupCrcEnd s;
     MemoryUse := MemoryUse s; dedup_alloc_size := dedup_alloc_size s; dedup_ref_size := dedup_ref_size s;
     dedup_skipped_size := v; dedup_crc_failures := dedup_crc_failures s; dedup_sha_failures := dedup_sha_failures s;
     dedup_underflows := dedup_underflows s; dedup_successes_count := dedup_successes_count s;
     dedup_successes_bytes := dedup_successes_bytes s; cycle_file := cycle_file s; dd_kernel := dd_kernel s;
     dd_log := dd_log s |}.
Definition set_dedup_crc_failures {K} (v : Z) (s : dedup K) : dedup K :=
  {| dedup_tree := dedup_tree s; sim_dedup_tree := sim_dedup_tree s; pass2_dedup_queue := pass2_dedup_queue s;
     DedupDataReads := DedupDataReads s; DedupCurrentRecords := DedupCurrentRecords s;
     DedupTotalRecords := DedupTotalRecords s; DedupCrcStart := DedupCrcStart s; DedupCrcEnd := DedupCrcEnd s;
     MemoryUse := MemoryUse s; dedup_alloc_size := dedup_alloc_size s; dedup_ref_size := dedup_ref_size s;
     dedup_skipped_size := dedup_skipped_size s; dedup_crc_failures := v; dedup_sha_failures := dedup_sha_failures s;
     dedup_underflows := dedup_underflows s; dedup_successes_count := dedup_successes_count s;
     dedup_successes_bytes := dedup_successes_bytes s; cycle_file := cycle_file s; dd_kernel := dd_kernel s;
     dd_log := dd_log s |}.
Definition set_dedup_sha_failures {K} (v : Z) (s : dedup K) : dedup K :=
  {| dedup_tree := dedup_tree s; sim_dedup_tree := sim_dedup_tree s; pass2_dedup_queue := pass2_dedup_queue s;
     DedupDataReads := DedupDataReads s; DedupCurrentRecords := DedupCurrentRecords s;
     DedupTotalRecords := DedupTotalRecords s; DedupCrcStart := DedupCrcStart s; DedupCrcEnd := DedupCrcEnd s;
     MemoryUse := MemoryUse s; dedup_alloc_size := dedup_alloc_size s; dedup_ref_size := dedup_ref_size s;
     dedup_skipped_size := dedup_skipped_size s; dedup_crc_failures := dedup_crc_failures s; dedup_sha_failures := v;
     dedup_underflows := dedup_underflows s; dedup_successes_count := dedup_successes_count s;
     dedup_successes_bytes := dedup_successes_bytes s; cycle_file := cycle_file s; dd_kernel := dd_kernel s;
     dd_log := dd_log s |}.
Definition set_dedup_underflows {K} (v : Z) (s : dedup K) : dedup K :=
  {| dedup_tree := dedup_tree s; sim_dedup_tree := sim_dedup_tree s; pass2_dedup_queue := pass2_dedup_queue s;
     DedupDataReads := DedupDataReads s; DedupCurrentRecords := DedupCurrentRecords s;
     DedupTotalRecords := DedupTotalRecords s; DedupCrcStart := DedupCrcStart s; DedupCrcEnd := DedupCrcEnd s;
     MemoryUse := MemoryUse s; dedup_alloc_size := dedup_alloc_size s; dedup_ref_size := dedup_ref_size s;
     dedup_skipped_size := dedup_skipped_size s; dedup_crc_failures := dedup_crc_failures s;
     dedup_sha_failures := dedup_sha_failures s; dedup_underflows := v;
     dedup_successes_count := dedup_successes_count s; dedup_successes_bytes := dedup_successes_bytes s;
     cycle_file := cycle_file s; dd_kernel := dd_kernel s; dd_log := dd_log s |}.
Definition set_dedup_successes_count {K} (v : Z) (s : dedup K) : dedup K :=
  {| dedup_tree := dedup_tree s; sim_dedup_tree := sim_dedup_tree s; pass2_dedup_queue := pass2_dedup_queue s;
     DedupDataReads := DedupDataReads s; DedupCurrentRecords := DedupCurrentRecords s;
     DedupTotalRecords := DedupTotalRecords s; DedupCrcStart := DedupCrcStart s; DedupCrcEnd := DedupCrcEnd s;
     MemoryUse := MemoryUse s; dedup_alloc_size := dedup_alloc_size s; dedup_ref_size := dedup_ref_size s;
     dedup_skipped_size := dedup_skipped_size s; dedup_crc_failures := dedup_crc_failures s;
     dedup_sha_failures := dedup_sha_failures s; dedup_underflows := dedup_underflows s; dedup_successes_count := v;
     dedup_successes_bytes := dedup_successes_bytes s; cycle_file := cycle_file s; dd_kernel := dd_kernel s;
     dd_log := dd_log s |}.
Definition set_dedup_successes_bytes {K} (v : Z) (s : dedup K) : dedup K :=
  {| dedup_tree := dedup_tree s; sim_dedup_tree := sim_dedup_tree s; pass2_dedup_queue := pass2_dedup_queue s;
     DedupDataReads := DedupDataReads s; DedupCurrentRecords := DedupCurrentRecords s;
     DedupTotalRecords := DedupTotalRecords s; DedupCrcStart := DedupCrcStart s; DedupCrcEnd := DedupCrcEnd s;
     MemoryUse := MemoryUse s; dedup_alloc_size := dedup_alloc_size s; dedup_ref_size := dedup_ref_size s;
     dedup_skipped_size := dedup_skipped_size s; dedup_crc_failures := dedup_crc_failures s;
     dedup_sha_failures := dedup_sha_failures s; dedup_underflows := dedup_underflows s;
     dedup_successes_count := dedup_successes_count s; dedup_successes_bytes := v; cycle_file := cycle_file s;
     dd_kernel := dd_kernel s; dd_log := dd_log s |}.
Definition set_cycle_file {K} (v : option bytes) (s : dedup K) : dedup K :=
  {| dedup_tree := dedup_tree s; sim_dedup_tree := sim_dedup_tree s; pass2_dedup_queue := pass2_dedup_queue s;
     DedupDataReads := DedupDataReads s; DedupCurrentRecords := DedupCurrentRecords s;
     DedupTotalRecords := DedupTotalRecords s; DedupCrcStart := DedupCrcStart s; DedupCrcEnd := DedupCrcEnd s;
     MemoryUse := MemoryUse s; dedup_alloc_size := dedup_alloc_size s; dedup_ref_size := dedup_ref_size s;
     dedup_skipped_size := dedup_skipped_size s; dedup_crc_failures := dedup_crc_failures s;
     dedup_sha_failures := dedup_sha_failures s; dedup_underflows := dedup_underflows s;
     dedup_successes_count := dedup_successes_count s; dedup_successes_bytes := dedup_successes_bytes s;
     cycle_file := v; dd_kernel := dd_kernel s; dd_log := dd_log s |}.
Definition set_dd_kernel {K} (v : K) (s : dedup K) : dedup K :=
  {| dedup_tree := dedup_tree s; sim_dedup_tree := sim_dedup_tree s; pass2_dedup_queue := pass2_dedup_queue s;
     DedupDataReads := DedupDataReads s; DedupCurrentRecords := DedupCurrentRecords s;
     DedupTotalRecords := DedupTotalRecords s; DedupCrcStart := DedupCrcStart s; DedupCrcEnd := DedupCrcEnd s;
     MemoryUse := MemoryUse s; dedup_alloc_size := dedup_alloc_size s; dedup_ref_size := dedup_ref_size s;
     dedup_skipped_size := dedup_skipped_size s; dedup_crc_failures := dedup_crc_failures s;
     dedup_sha_failures := dedup_sha_failures s; dedup_underflows := dedup_underflows s;
     dedup_successes_count := dedup_successes_count s; dedup_successes_bytes := dedup_successes_bytes s;
     cycle_file := cycle_file s; dd_kernel := v; dd_log := dd_log s |}.
Definition set_dd_log {K} (v : list event) (s : dedup K) : dedup K :=
  {| dedup_tree := dedup_tree s; sim_dedup_tree := sim_dedup_tree s; pass2_dedup_queue := pass2_dedup_queue s;
     DedupDataReads := DedupDataReads s; DedupCurrentRecords := DedupCurrentRecords s;
     DedupTotalRecords := DedupTotalRecords s; DedupCrcStart := DedupCrcStart s; DedupCrcEnd := DedupCrcEnd s;
     MemoryUse := MemoryUse s; dedup_alloc_size := dedup_alloc_size s; dedup_ref_size := dedup_ref_size s;
     dedup_skipped_size := dedup_skipped_size s; dedup_crc_failures := dedup_crc_failures s;
     dedup_sha_failures := dedup_sha_failures s; dedup_underflows := dedup_underflows s;
     dedup_successes_count := dedup_successes_count s; dedup_successes_bytes := dedup_successes_bytes s;
     cycle_file := cycle_file s; dd_kernel := dd_kernel s; dd_log := v |}.

#[export] Instance dedup_cycle K : CycleFile (dedup K) := {| cycle_of := cycle_file; with_cycle := set_cycle_file; cycle_same := ltac:(by intros []) |}.

Section dedup.
Context {K : Type} (kern : kernel K).
(** [MemoryLimit]; the tids of the PFS; what is in [temp.sha_hash] on entry. *)
Context (MemoryLimit sync_beg_tid : Z) (temp_hash : bytes).
Abbreviation D := (prog (dedup K)).

Definition ioctl {A} (f : K -> A * K) : D A :=
  s ← get_state; let r := f (dd_kernel s) in put_state (set_dd_kernel (snd r) s);; mret (fst r).
Definition log (e : event) : D () := modify (λ s, set_dd_log (dd_log s ++ [e]) s).
Definition watched : D () := s ← get_state; if k_watch kern (dd_log s) then mret () else stop_with Watched.

(** [x += n] for a 64-bit counter *)
Definition add64 (x n : Z) : Z := u64 (x + n).

(** ** Checksums *)

(** The new hash, or [None] for an error. *)
Definition upgrade_chksum (leaf : leaf_t) (sha_hash : bytes) : D (option bytes) :=
  r ← ioctl (k_get_data kern (leaf_base leaf));
  match r with
  | None => mret None
  | Some (leaf', ubuf) =>
      modify (λ s, set_DedupDataReads (DedupDataReads s + data_len leaf) s);;
      if bool_decide (leaf_data_len leaf' ≠ leaf_data_len leaf) then mret None
      else if bool_decide (be_btype (leaf_base leaf') = HAMMER_BTREE_TYPE_RECORD)
              && bool_decide (be_rec_type (leaf_base leaf') = HAMMER_RECTYPE_DATA) then
        if bool_decide (0 <= data_len leaf' <= Z.of_nat (length ubuf)) then
          h ← deref (fst (SHA256_Final true (SHA256_Update SHA256_Init (take (Z.to_nat (data_len leaf')) ubuf))));
          mret (Some h)
        else stop_with Undef
      else mret (Some sha_hash)
  end.

(** ** Deduplication *)

Definition validate_dedup_pair (p q : leaf_t) : bool :=
  bool_decide (HAMMER_ZONE (leaf_data_offset p) = HAMMER_ZONE (leaf_data_offset q)) && bool_decide (leaf_data_len p = leaf_data_len q).

Definition deduplicate (p q : leaf_t) : D Z :=
  if bool_decide (leaf_data_offset p = leaf_data_offset q) then mret 0
  else
    log (Pair p q);;
    watched;;
    r ← ioctl (k_dedup kern (leaf_base p) (leaf_base q));
    match r with
    | inr errno => mret (if bool_decide (errno = EOPNOTSUPP) then DEDUP_VERS_FAILURE else DEDUP_TECH_FAILURE)
    | inl flags =>
        if bool_decide (flags .& HAMMER_IOC_DEDUP_CMP_FAILURE ≠ 0) then mret DEDUP_CMP_FAILURE
        else if bool_decide (flags .& HAMMER_IOC_DEDUP_INVALID_ZONE ≠ 0) then mret DEDUP_INVALID_ZONE
        else if bool_decide (flags .& HAMMER_IOC_DEDUP_UNDERFLOW ≠ 0) then mret DEDUP_UNDERFLOW
        else
          modify (λ s, set_dedup_successes_bytes (add64 (dedup_successes_bytes s) (data_len p))
                         (set_dedup_successes_count (add64 (dedup_successes_count s) 1) s));;
          mret 0
    end.

(** ** Memory *)

(** The memory of an entry. *)
Definition entry_size (e : dedup_entry) : Z :=
  match de_u e with De _ _ => sizeof_dedup_entry | Fict root => sizeof_dedup_entry + sizeof_sha_dedup_entry * Z.of_nat (length root) end.

(** The inner loop: the entries from [DedupCrcEnd] on are removed, the highest first. *)
Fixpoint drop_high (fuel : nat) : D () :=
  match fuel with
  | O => stop_with OutOfFuel
  | S fuel =>
      s ← get_state;
      match rb_max (dedup_tree s) with
      | None => mret ()
      | Some (crc, de) =>
          if bool_decide (crc < DedupCrcEnd s) then mret ()
          else
            modify (λ s, set_MemoryUse (add64 (MemoryUse s) (- entry_size de)) (set_dedup_tree (delete crc (dedup_tree s)) s));;
            drop_high fuel
      end
  end.

(** [DedupCrcStart + (uint32_t)(DedupCrcEnd - DedupCrcStart - 1) / 2] *)
Definition half_range (lo hi : Z) : Z := u32 (lo + u32 (hi - lo - 1) / 2).

Fixpoint reduce_memory (fuel : nat) : D () :=
  match fuel with
  | O => stop_with OutOfFuel
  | S fuel =>
      s ← get_state;
      if bool_decide (MemoryLimit < MemoryUse s) then
        modify (λ s, set_DedupCrcEnd (half_range (DedupCrcStart s) (DedupCrcEnd s)) s);;
        drop_high (S (size (dedup_tree s)));;
        reduce_memory fuel
      else mret ()
  end.

(** ** One record *)

(** The labels at the end of [process_btree_elm]. *)
Inductive goal := UpgradeStats | UpgradeStatsSha (hash : bytes) | Pass2Insert | TerminateEarly.

Definition use_memory (n : Z) : D () := modify (λ s, set_MemoryUse (add64 (MemoryUse s) n) s).
Definition set_entry (crc : Z) (de : dedup_entry) : D () := modify (λ s, set_dedup_tree (<[crc := de]> (dedup_tree s)) s).
Definition sha256_failure : D goal := modify (λ s, set_dedup_sha_failures (add64 (dedup_sha_failures s) 1) s);; mret TerminateEarly.
Definition underflow : D () := modify (λ s, set_dedup_underflows (add64 (dedup_underflows s) 1) s).

(** The CRC has collided before. *)
Definition process_fict (leaf : leaf_t) (de : dedup_entry) (root : list sha_dedup_entry) : D goal :=
  let crc := leaf_data_crc leaf in
  let known := List.find (λ e, bool_decide (leaf_data_offset (sd_leaf e) = leaf_data_offset leaf)
                               && bool_decide (leaf_data_len (sd_leaf e) = leaf_data_len leaf)) root in
  h ← match known with
      | Some e => mret (Some (sd_hash e, Some e))
      | None =>
          h ← upgrade_chksum leaf temp_hash;
          mret (match h with Some h => Some (h, sha_find h root) | None => None end)
      end;
  match h with
  | None => mret Pass2Insert
  | Some (h, None) =>
      let e := {| sd_leaf := leaf; sd_ref_blks := 0; sd_ref_size := 0; sd_hash := h |} in
      set_entry crc {| de_leaf := de_leaf de; de_u := Fict (sha_insert e root) |};;
      use_memory sizeof_sha_dedup_entry;;
      mret (UpgradeStatsSha h)
  | Some (h, Some e) =>
      if negb (validate_dedup_pair (sd_leaf e) leaf) then sha256_failure
      else
        error ← deduplicate (sd_leaf e) leaf;
        if bool_decide (error = 0) then mret (UpgradeStatsSha h)
        else if bool_decide (error = DEDUP_TECH_FAILURE) then mret Pass2Insert
        else if bool_decide (error = DEDUP_CMP_FAILURE) then sha256_failure
        else if bool_decide (error = DEDUP_INVALID_ZONE) then mret TerminateEarly
        else if bool_decide (error = DEDUP_UNDERFLOW) then
          underflow;;
          set_entry crc {| de_leaf := de_leaf de;
                           de_u := Fict (sha_update (λ e, {| sd_leaf := leaf; sd_ref_blks := sd_ref_blks e;
                                                             sd_ref_size := sd_ref_size e; sd_hash := h |}) h root) |};;
          mret (UpgradeStatsSha h)
        else if bool_decide (error = DEDUP_VERS_FAILURE) then stop_with (Exit 1)
        else mret TerminateEarly
  end.

(** From the label [crc_failure]. *)
Definition crc_failure (leaf : leaf_t) (de : dedup_entry) (ref_blks ref_size : Z) : D goal :=
  let crc := leaf_data_crc leaf in
  modify (λ s, set_dedup_crc_failures (add64 (dedup_crc_failures s) 1) s);;
  h1 ← upgrade_chksum (de_leaf de) (replicate SHA256_DIGEST_LENGTH 0);
  match h1 with
  | None => mret Pass2Insert
  | Some h1 =>
      let e1 := {| sd_leaf := de_leaf de; sd_ref_blks := ref_blks; sd_ref_size := ref_size; sd_hash := h1 |} in
      use_memory sizeof_sha_dedup_entry;;
      set_entry crc {| de_leaf := de_leaf de; de_u := Fict (sha_insert e1 []) |};;
      h2 ← upgrade_chksum leaf temp_hash;
      match h2 with
      | None => mret Pass2Insert
      | Some h2 =>
          match sha_find h2 (sha_insert e1 []) with
          | Some _ => sha256_failure
          | None =>
              let e2 := {| sd_leaf := leaf; sd_ref_blks := 0; sd_ref_size := 0; sd_hash := h2 |} in
              set_entry crc {| de_leaf := de_leaf de; de_u := Fict (sha_insert e2 (sha_insert e1 [])) |};;
              use_memory sizeof_sha_dedup_entry;;
              mret (UpgradeStatsSha h2)
          end
      end
  end.

Definition process_crc (leaf : leaf_t) (de : dedup_entry) (ref_blks ref_size : Z) : D goal :=
  if negb (validate_dedup_pair (de_leaf de) leaf) then crc_failure leaf de ref_blks ref_size
  else
    error ← deduplicate (de_leaf de) leaf;
    if bool_decide (error = 0) then mret UpgradeStats
    else if bool_decide (error = DEDUP_TECH_FAILURE) then mret Pass2Insert
    else if bool_decide (error = DEDUP_CMP_FAILURE) then crc_failure leaf de ref_blks ref_size
    else if bool_decide (error = DEDUP_INVALID_ZONE) then mret TerminateEarly
    else if bool_decide (error = DEDUP_UNDERFLOW) then
      underflow;;
      set_entry (leaf_data_crc leaf) {| de_leaf := leaf; de_u := De ref_blks ref_size |};;
      mret UpgradeStats
    else if bool_decide (error = DEDUP_VERS_FAILURE) then stop_with (Exit 1)
    else mret TerminateEarly.

(** The new totals of an entry. *)
Definition count_entry (leaf : leaf_t) (hash : option bytes) (de : dedup_entry) : dedup_entry :=
  {| de_leaf := de_leaf de;
     de_u := match de_u de, hash with
             | De b n, None => De (add64 b 1) (add64 n (data_len leaf))
             | Fict root, Some h =>
                 Fict (sha_update (λ e, {| sd_leaf := sd_leaf e; sd_ref_blks := add64 (sd_ref_blks e) 1;
                                           sd_ref_size := add64 (sd_ref_size e) (data_len leaf); sd_hash := sd_hash e |}) h root)
             | u, _ => u
             end |}.

Definition terminate_early (leaf : leaf_t) : D Z :=
  modify (λ s, set_dedup_ref_size (add64 (dedup_ref_size s) (data_len leaf))
                 (set_dedup_alloc_size (add64 (dedup_alloc_size s) (data_len leaf)) s));;
  mret 0.

Definition finish_elm (leaf : leaf_t) (flags : Z) (g : goal) : D Z :=
  match g with
  | UpgradeStats => modify (λ s, set_dedup_tree (alter (count_entry leaf None) (leaf_data_crc leaf) (dedup_tree s)) s);; mret 1
  | UpgradeStatsSha h =>
      modify (λ s, set_dedup_tree (alter (count_entry leaf (Some h)) (leaf_data_crc leaf) (dedup_tree s)) s);; mret 1
  | Pass2Insert =>
      if bool_decide (flags .& DEDUP_PASS2 = 0) then
        modify (λ s, set_dedup_skipped_size (add64 (dedup_skipped_size s) (data_len leaf))
                       (set_pass2_dedup_queue (pass2_dedup_queue s ++ [leaf]) s));;
        mret 1
      else terminate_early leaf
  | TerminateEarly => terminate_early leaf
  end.

Definition process_btree_elm (tfuel : nat) (leaf : leaf_t) (flags : Z) : D Z :=
  reduce_memory tfuel;;
  s ← get_state;
  g ← match dedup_tree s !! leaf_data_crc leaf with
      | None =>
          set_entry (leaf_data_crc leaf) {| de_leaf := leaf; de_u := De 0 0 |};;
          use_memory sizeof_dedup_entry;;
          mret UpgradeStats
      | Some de =>
          match de_u de with
          | Fict root => process_fict leaf de root
          | De b n => process_crc leaf de b n
          end
      end;
  finish_elm leaf flags g.

Definition count_btree_elm (leaf : leaf_t) (flags : Z) : D Z := mret 1.

(** ** dedup-simulate *)

Fixpoint sim_drop_high (fuel : nat) : D () :=
  match fuel with
  | O => stop_with OutOfFuel
  | S fuel =>
      s ← get_state;
      match rb_max (sim_dedup_tree s) with
      | None => mret ()
      | Some (crc, _) =>
          if bool_decide (crc < DedupCrcEnd s) then mret ()
          else
            modify (λ s, set_MemoryUse (add64 (MemoryUse s) (- sizeof_sim_dedup_entry))
                           (set_sim_dedup_tree (delete crc (sim_dedup_tree s)) s));;
            sim_drop_high fuel
      end
  end.

Definition collect_btree_elm (leaf : leaf_t) (flags : Z) : D Z :=
  s ← get_state;
  when (bool_decide (MemoryLimit < MemoryUse s))
    (modify (λ s, set_DedupCrcEnd (half_range (DedupCrcStart s) (DedupCrcEnd s)) s);;
     sim_drop_high (S (size (sim_dedup_tree s))));;
  s ← get_state;
  when (bool_decide (sim_dedup_tree s !! leaf_data_crc leaf = None))
    (modify (λ s, set_sim_dedup_tree (<[leaf_data_crc leaf := {| sim_ref_blks := 0; sim_ref_size := 0 |}]> (sim_dedup_tree s)) s);;
     use_memory sizeof_sim_dedup_entry);;
  modify (λ s, set_sim_dedup_tree (alter (λ e, {| sim_ref_blks := add64 (sim_ref_blks e) 1;
                                                  sim_ref_size := add64 (sim_ref_size e) (data_len leaf) |})
                                     (leaf_data_crc leaf) (sim_dedup_tree s)) s);;
  mret 1.

(** ** The scan *)

(** Whether the record of a scan goes to the callback. *)
Definition in_range (s : dedup K) (crc : Z) : bool :=
  bool_decide (DedupCrcStart s = DedupCrcEnd s)
  || bool_decide (DedupCrcStart s <= crc) && (bool_decide (DedupCrcEnd s = 0) || bool_decide (crc < DedupCrcEnd s)).

Definition scan_record (func : leaf_t -> Z -> D Z) (elm : leaf_t) : D () :=
  if bool_decide (be_btype (leaf_base elm) ≠ HAMMER_BTREE_TYPE_RECORD) then mret ()
  else if bool_decide (be_rec_type (leaf_base elm) ≠ HAMMER_RECTYPE_DATA) then mret ()
  else
    modify (λ s, set_DedupCurrentRecords (DedupCurrentRecords s + 1) s);;
    s ← get_state;
    when (in_range s (leaf_data_crc elm)) (log (Seen elm);; func elm 0;; mret ()).

(** The records of one buffer; [fuel] bounds their number. *)
Fixpoint scan_buffer (fuel : nat) (func : leaf_t -> Z -> D Z) (buf : bytes) (count offset : Z) : D () :=
  match fuel with
  | O => stop_with OutOfFuel
  | S fuel =>
      if bool_decide (offset < count) then
        if bool_decide (0 <= offset) && bool_decide (Z.to_nat offset + 16 <= length buf)%nat then
          let head := read_at mrec_head buf (Z.to_nat offset) in
          let bytes := s32 (HAMMER_HEAD_DOALIGN (mh_rec_size head)) in
          if bool_decide (2 ^ 31 <= offset + bytes) then stop_with Undef
          else if bool_decide (count < offset + bytes) then stop_with (Exit 1)
          else
            assertp (bool_decide (mh_type head .& HAMMER_MRECF_TYPE_MASK = HAMMER_MREC_TYPE_REC));;
            (if bool_decide (Z.to_nat offset + 80 <= length buf)%nat
             then scan_record func (read_at hammer_btree_leaf_elm buf (Z.to_nat offset + 16)) else stop_with Undef);;
            scan_buffer fuel func buf count (offset + bytes)
        else stop_with Undef
      else mret ()
  end.

Fixpoint scan_pages (fuel : nat) (path : bool) (func : leaf_t -> Z -> D Z) (key_beg : hammer_base_elm) : D () :=
  match fuel with
  | O => stop_with OutOfFuel
  | S fuel =>
      r ← ioctl (k_mirror_read kern key_beg);
      match r with
      | MirrorFailed => stop_with (Exit 1)
      | MirrorRead head_error buf count key_cur =>
          if (head_error : bool) then stop_with (Exit 1)
          else
            when (bool_decide (count ≠ 0)) (scan_buffer (S (Z.to_nat count)) func buf count 0);;
            stop ← ioctl (k_interrupted kern);
            if (stop : bool) then hammer_set_cycle path key_cur sync_beg_tid;; stop_with (Exit 1)
            else if bool_decide (count = 0) then mret ()
            else scan_pages fuel path func key_cur
      end
  end.

Definition scan_pfs (fuel : nat) (path : bool) (func : leaf_t -> Z -> D Z) : D () :=
  modify (λ s, set_DedupCurrentRecords 0 (set_DedupDataReads 0 s));;
  key ← hammer_get_cycle path hammer_key_beg_init 0;
  scan_pages fuel path func (fst key).

(** ** The command *)

(** "Calculate dedup ratio": the totals of one node. *)
Definition tally (ref_blks ref_size : Z) : D () :=
  assertp (bool_decide (ref_blks ≠ 0));;
  modify (λ s, set_dedup_alloc_size (add64 (dedup_alloc_size s) (ref_size / ref_blks))
                 (set_dedup_ref_size (add64 (dedup_ref_size s) ref_size) s)).
Fixpoint tally_sha (root : list sha_dedup_entry) : D () :=
  match root with
  | [] => mret ()
  | e :: root => tally (sd_ref_blks e) (sd_ref_size e);; tally_sha root
  end.
(** The nodes of the tree; the order does not matter for the totals. *)
Fixpoint tally_tree (es : list (Z * dedup_entry)) : D () :=
  match es with
  | [] => mret ()
  | (crc, e) :: es =>
      match de_u e with
      | Fict root => tally_sha root
      | De b n => tally b n
      end;;
      modify (λ s, set_dedup_tree (delete crc (dedup_tree s)) s);;
      tally_tree es
  end.

Fixpoint pass2_loop (fuel tfuel : nat) : D () :=
  match fuel with
  | O => stop_with OutOfFuel
  | S fuel =>
      s ← get_state;
      match pass2_dedup_queue s with
      | [] => mret ()
      | leaf :: _ =>
          r ← process_btree_elm tfuel leaf DEDUP_PASS2;
          when (bool_decide (r ≠ 0)) (modify (λ s, set_dedup_skipped_size (add64 (dedup_skipped_size s) (- data_len leaf)) s));;
          modify (λ s, set_pass2_dedup_queue (tail (pass2_dedup_queue s)) s);;
          pass2_loop fuel tfuel
      end
  end.

(** One turn of the collection loop; whether there is another one. *)
Definition dedup_pass (fuel tfuel : nat) : D bool :=
  modify (λ s, set_MemoryUse 0 (set_DedupCrcEnd 0 (set_DedupCrcStart (DedupCrcEnd s) s)));;
  scan_pfs fuel true (process_btree_elm tfuel);;
  s ← get_state;
  pass2_loop (S (length (pass2_dedup_queue s))) tfuel;;
  s ← get_state;
  assertp (bool_decide (pass2_dedup_queue s = []));;
  tally_tree (map_to_list (dedup_tree s));;
  s ← get_state;
  assertp (bool_decide (dedup_tree s = ∅));;
  mret (bool_decide (DedupCrcEnd s ≠ 0)).

Fixpoint dedup_passes (passes fuel tfuel : nat) : D () :=
  match passes with
  | O => stop_with OutOfFuel
  | S passes =>
      again ← dedup_pass fuel tfuel;
      if (again : bool) then dedup_passes passes fuel tfuel else mret ()
  end.

(** [hammer_cmd_dedup] after the PFS was opened. *)
Definition hammer_cmd_dedup (passes fuel tfuel : nat) : D () :=
  modify (set_pass2_dedup_queue []);;
  scan_pfs fuel true count_btree_elm;;
  modify (λ s, set_DedupTotalRecords (DedupCurrentRecords s) s);;
  dedup_passes passes fuel tfuel;;
  hammer_reset_cycle.

Fixpoint sim_tally (es : list (Z * sim_dedup_entry)) : D () :=
  match es with
  | [] => mret ()
  | (crc, e) :: es =>
      tally (sim_ref_blks e) (sim_ref_size e);;
      modify (λ s, set_sim_dedup_tree (delete crc (sim_dedup_tree s)) s);;
      sim_tally es
  end.

Fixpoint hammer_cmd_dedup_simulate (passes fuel : nat) (path : bool) : D () :=
  match passes with
  | O => stop_with OutOfFuel
  | S passes =>
      modify (λ s, set_MemoryUse 0 (set_DedupCrcEnd 0 (set_DedupCrcStart (DedupCrcEnd s) s)));;
      scan_pfs fuel path collect_btree_elm;;
      s ← get_state;
      sim_tally (map_to_list (sim_dedup_tree s));;
      s ← get_state;
      if bool_decide (DedupCrcEnd s ≠ 0) then hammer_cmd_dedup_simulate passes fuel path else mret ()
  end.
End dedup.

Definition dedup_init {K} (k : K) (file : option bytes) : dedup K :=
  {| dedup_tree := ∅; sim_dedup_tree := ∅; pass2_dedup_queue := []; DedupDataReads := 0; DedupCurrentRecords := 0;
     DedupTotalRecords := 0; DedupCrcStart := 0; DedupCrcEnd := 0; MemoryUse := 0; dedup_alloc_size := 0; dedup_ref_size := 0;
     dedup_skipped_size := 0; dedup_crc_failures := 0; dedup_sha_failures := 0; dedup_underflows := 0;
     dedup_successes_count := 0; dedup_successes_bytes := 0; cycle_file := file; dd_kernel := k; dd_log := [] |}.
