(* ===== verification/DedupInv.v ===== *)
(** * DedupInv: the trees of hammer dedup

    Sums over the trees, the removal of the upper part of the tree when memory is short,
    and what the processing of one record does to the trees, the queue of pass 2, the
    counters and the memory. *)

From S2P Require Import Prelude CMonad WpStop HammerDisk Layout HammerCrc Sha2 Mirror Cycle Dedup.

Lemma sha_final_some c : exists h, fst (SHA256_Final true c) = Some h.
Proof. by eexists. Qed.

#[local] Opaque Z.to_nat SHA256_Init SHA256_Update SHA256_Final.

(** ** Sums over a tree *)

Section msum.
Context {A : Type} (f : A -> Z).

Definition msum (t : gmap Z A) : Z := map_fold (λ _ a acc, f a + acc) 0 t.

Lemma msum_empty : msum ∅ = 0.
Proof. apply map_fold_empty. Qed.

Lemma msum_insert t k a : t !! k = None -> msum (<[k := a]> t) = f a + msum t.
Proof. intros H. unfold msum. rewrite map_fold_insert_L; [done| |done]. intros. lia. Qed.

Lemma msum_delete t k a : t !! k = Some a -> msum (delete k t) = msum t - f a.
Proof.
  intros H. rewrite <- (insert_delete_id t k a H) at 2. rewrite msum_insert by apply lookup_delete_eq. lia.
Qed.

Lemma msum_update t k a b : t !! k = Some a -> msum (<[k := b]> t) = msum t - f a + f b.
Proof.
  intros H. rewrite <- insert_delete_eq, msum_insert by apply lookup_delete_eq. rewrite (msum_delete _ _ a) by done. lia.
Qed.

Lemma msum_nonneg t : map_Forall (λ _ a, 0 <= f a) t -> 0 <= msum t.
Proof.
  induction t as [|k a t Hk IH] using map_ind; [by rewrite msum_empty|]. rewrite map_Forall_insert by done. intros [H1 H2].
  rewrite msum_insert by done. specialize (IH H2). lia.
Qed.

Lemma msum_le_one t k a : map_Forall (λ _ a, 0 <= f a) t -> t !! k = Some a -> f a <= msum t.
Proof.
  intros Hn Hk. pose proof (msum_nonneg (delete k t) (map_Forall_delete _ _ _ Hn)). rewrite (msum_delete _ _ a) in H by done. lia.
Qed.

Lemma msum_to_list t : msum t = foldr (λ p acc, f (snd p) + acc) 0 (map_to_list t).
Proof. unfold msum. rewrite map_fold_foldr. generalize (map_to_list t). induction l as [|[k a] l IH]; cbn; [done|]. by rewrite IH. Qed.
End msum.

Lemma msum_scale {A} (f g : A -> Z) c t : map_Forall (λ _ a, f a <= c * g a) t -> msum f t <= c * msum g t.
Proof.
  induction t as [|k a t Hk IH] using map_ind; [rewrite !msum_empty; lia|]. rewrite map_Forall_insert by done. intros [H1 H2].
  rewrite !msum_insert by done. specialize (IH H2). lia.
Qed.

(** ** [RB_MAX] *)

Lemma rb_max_spec {A} (t : gmap Z A) :
  match rb_max t with
  | None => t = ∅
  | Some (k, a) => t !! k = Some a /\ forall k' a', t !! k' = Some a' -> k' <= k
  end.
Proof.
  unfold rb_max. set (g := λ (p : Z * A) acc, _).
  assert (forall l, match foldr g None l with
    | None => l = [] | Some p => p ∈ l /\ forall q, q ∈ l -> fst q <= fst p end) as H.
  { induction l as [|p l IH]; [done|]. cbn [foldr]. unfold g at 1. destruct (foldr g None l) as [q|].
    - destruct IH as [Hq IH]. case_bool_decide.
      + split; [left|]. intros x [->|Hx]%elem_of_cons; [lia|]. specialize (IH x Hx). lia.
      + split; [by right|]. intros x [->|Hx]%elem_of_cons; [lia|]. by apply IH.
    - subst l. split; [left|]. intros x [->|Hx]%elem_of_cons; [lia|]. by apply elem_of_nil in Hx. }
  specialize (H (map_to_list t)). destruct (foldr g None (map_to_list t)) as [[k a]|].
  - destruct H as [H1 H2]. rewrite elem_of_map_to_list in H1. split; [done|]. intros k' a' Hk'.
    apply (H2 (k', a')). by rewrite elem_of_map_to_list.
  - by apply map_to_list_empty_iff in H.
Qed.

(** ** The order of the hashes *)

Lemma words_compare_eq h1 : forall h2, length h1 = length h2 -> words_compare h1 h2 = Eq <-> h1 = h2.
Proof.
  induction h1 as [|w1 h1 IH]; intros [|w2 h2] Hl; try done. cbn. injection Hl as Hl.
  destruct (Z.compare_spec w1 w2) as [->|H|H].
  - rewrite IH by done. split; [by intros ->|by intros [= ->]].
  - split; [done|]. intros [= -> _]. lia.
  - split; [done|]. intros [= -> _]. lia.
Qed.

Definition key (e : sha_dedup_entry) : list Z := hash_words (sd_hash e).

Lemma compare_eq h1 h2 : rb_sha_dedup_entry_compare h1 h2 = Eq <-> hash_words h1 = hash_words h2.
Proof. by apply words_compare_eq. Qed.

Lemma sha_eq_spec h e : sha_eq h e = true <-> hash_words h = key e.
Proof. unfold sha_eq, key. rewrite <- compare_eq. by destruct (rb_sha_dedup_entry_compare h (sd_hash e)). Qed.

Lemma sha_eq_false h e : sha_eq h e = false <-> hash_words h ≠ key e.
Proof. rewrite <- sha_eq_spec. by destruct (sha_eq h e). Qed.

(** A node is in the tree once. *)
Definition uniq (root : list sha_dedup_entry) : Prop := NoDup (key <$> root).

Lemma uniq_split l1 e l2 : uniq (l1 ++ e :: l2) -> Forall (λ x, key e ≠ key x) (l1 ++ l2) /\ uniq (l1 ++ l2).
Proof.
  unfold uniq. rewrite !fmap_app, fmap_cons. intros (H1 & H2 & H3)%NoDup_app. apply NoDup_cons in H3 as [H3 H4]. split.
  - apply Forall_app. split; apply Forall_forall; intros x Hx Hk.
    + apply (H2 (key x)); [by apply list_elem_of_fmap_2|]. rewrite <- Hk. by left.
    + apply H3. rewrite Hk. by apply list_elem_of_fmap_2.
  - apply NoDup_app. split; [done|]. split; [|done]. intros k Hk Hk2. apply (H2 k Hk). by right.
Qed.

Lemma uniq_join l1 e l2 : Forall (λ x, key e ≠ key x) (l1 ++ l2) -> uniq (l1 ++ l2) -> uniq (l1 ++ e :: l2).
Proof.
  unfold uniq. rewrite !fmap_app, fmap_cons. intros [H1 H2]%Forall_app (N1 & N2 & N3)%NoDup_app. apply NoDup_app. split; [done|]. split.
  - intros k Hk [->|Hk2]%elem_of_cons; [|by apply (N2 k)]. apply list_elem_of_fmap in Hk as (x & Hx & Hin).
    rewrite Forall_forall in H1. by apply (H1 x).
  - apply NoDup_cons. split; [|done]. intros (x & Hx & Hin)%list_elem_of_fmap. rewrite Forall_forall in H2. by apply (H2 x).
Qed.

Lemma sha_find_some h root e : sha_find h root = Some e -> exists l1 l2, root = l1 ++ e :: l2 /\ hash_words h = key e.
Proof.
  intros [H1 H2]%find_some. apply list_elem_of_In in H1. apply list_elem_of_split in H1 as (l1 & l2 & ->). exists l1, l2.
  split; [done|]. by apply sha_eq_spec.
Qed.

Lemma sha_find_none h root : sha_find h root = None -> Forall (λ x, hash_words h ≠ key x) root.
Proof.
  intros H. apply Forall_forall. intros x Hx. apply sha_eq_false. apply (find_none _ _ H). by apply list_elem_of_In.
Qed.

Lemma sha_insert_split e root :
  Forall (λ x, key e ≠ key x) root -> exists l1 l2, root = l1 ++ l2 /\ sha_insert e root = l1 ++ e :: l2.
Proof.
  induction root as [|x root IH]; intros H; [by exists [], []|]. apply Forall_cons in H as [Hx H]. cbn [sha_insert].
  destruct (rb_sha_dedup_entry_compare (sd_hash e) (sd_hash x)) eqn:E.
  - apply compare_eq in E. done.
  - by exists [], (x :: root).
  - destruct (IH H) as (l1 & l2 & -> & ->). by exists (x :: l1), l2.
Qed.

Lemma sha_update_split f h l1 e l2 :
  hash_words h = key e -> Forall (λ x, key e ≠ key x) (l1 ++ l2) -> sha_update f h (l1 ++ e :: l2) = l1 ++ f e :: l2.
Proof.
  intros Hh [H1 H2]%Forall_app. unfold sha_update. rewrite map_app. cbn [map].
  assert (forall l, Forall (λ x, key e ≠ key x) l -> map (λ e0, if sha_eq h e0 then f e0 else e0) l = l) as Hid.
  { induction 1 as [|x l Hx _ IH]; [done|]. cbn. rewrite IH. replace (sha_eq h x) with false; [done|].
    symmetry. apply sha_eq_false. by rewrite Hh. }
  rewrite !Hid by done. replace (sha_eq h e) with true; [done|]. symmetry. by apply sha_eq_spec.
Qed.

(** ** The invariant *)

Definition lsum {A} (f : A -> Z) (l : list A) : Z := foldr (λ x acc, f x + acc) 0 l.

#[global] Arguments lsum {_} _ _ : simpl never.

Lemma lsum_app {A} (f : A -> Z) l1 l2 : lsum f (l1 ++ l2) = lsum f l1 + lsum f l2.
Proof. unfold lsum. induction l1 as [|x l1 IH]; cbn; [done|]. rewrite IH. lia. Qed.

Lemma lsum_nonneg {A} (f : A -> Z) l : Forall (λ x, 0 <= f x) l -> 0 <= lsum f l.
Proof. unfold lsum. induction 1; cbn; lia. Qed.

Definition leaf_ok (l : leaf_t) : Prop := 0 <= data_len l <= 65536.

(** A node of a subtree with at least [lo] references to blocks of the same size. *)
Record sha_ok (lo crc : Z) (e : sha_dedup_entry) : Prop := {
  so_crc : leaf_data_crc (sd_leaf e) = crc;
  so_leaf : leaf_ok (sd_leaf e);
  so_blks : lo <= sd_ref_blks e;
  so_size : sd_ref_size e = sd_ref_blks e * data_len (sd_leaf e);
}.

Definition u_ok (lo crc : Z) (l : leaf_t) (u : dedup_u) : Prop :=
  match u with
  | De b n => lo <= b /\ n = b * data_len l
  | Fict root => root ≠ [] /\ uniq root /\ Forall (sha_ok lo crc) root
  end.
Definition ent_ok (crc : Z) (de : dedup_entry) : Prop :=
  leaf_data_crc (de_leaf de) = crc /\ leaf_ok (de_leaf de) /\ u_ok 1 crc (de_leaf de) (de_u de).

Definition ent_ref (de : dedup_entry) : Z := match de_u de with De _ n => n | Fict root => lsum sd_ref_size root end.
Definition ent_blks (de : dedup_entry) : Z := match de_u de with De b _ => b | Fict root => lsum sd_ref_blks root end.

Lemma sha_nonneg crc root : Forall (sha_ok 1 crc) root -> 0 <= lsum sd_ref_size root /\ Z.of_nat (length root) <= lsum sd_ref_blks root.
Proof.
  induction 1 as [|e root [_ [H1 _] H2 H3] _ [IH1 IH2]]; [done|]. unfold lsum in *. cbn [foldr length]. rewrite H3. split; nia.
Qed.

Lemma ent_bounds crc de : ent_ok crc de -> 0 <= ent_ref de /\ 1 <= ent_blks de /\ 0 <= entry_size de <= 264 * ent_blks de.
Proof.
  intros (_ & [H1 _] & Hu). unfold ent_ref, ent_blks, entry_size. unfold sizeof_dedup_entry, sizeof_sha_dedup_entry.
  destruct (de_u de) as [b n|root].
  - destruct Hu as [Hb ->]. split; [nia|lia].
  - destruct Hu as (Hne & _ & Hs). destruct (sha_nonneg _ _ Hs). destruct root; [done|]. cbn [length] in *. lia.
Qed.

Section process.
Context {K : Type} (kern : kernel K) (temp_hash : bytes).

(** What has been accounted for: in the counter, in the tree, in the queue. *)
Definition held (s : dedup K) : Z := dedup_ref_size s + msum ent_ref (dedup_tree s) + lsum data_len (pass2_dedup_queue s).

(** [n] records have been processed. *)
Record inv (n : Z) (s : dedup K) : Prop := {
  iv_tree : map_Forall ent_ok (dedup_tree s);
  iv_mem : MemoryUse s = msum entry_size (dedup_tree s);
  iv_queue : Forall leaf_ok (pass2_dedup_queue s);
  iv_held : held s <= 65536 * n;
  iv_blks : msum ent_blks (dedup_tree s) <= n;
  iv_alloc : 0 <= dedup_alloc_size s <= dedup_ref_size s;
}.

Lemma tree_bounds t : map_Forall ent_ok t -> 0 <= msum ent_ref t /\ 0 <= msum ent_blks t /\ 0 <= msum entry_size t <= 264 * msum ent_blks t.
Proof.
  intros Ht. split_and!.
  1-3: apply msum_nonneg; intros k a Hk; destruct (ent_bounds _ _ (Ht k a Hk)); lia.
  apply msum_scale. intros k a Hk. by destruct (ent_bounds _ _ (Ht k a Hk)) as (_ & _ & _ & ?).
Qed.

Lemma inv_bounds n s : inv n s ->
  0 <= dedup_ref_size s <= 65536 * n /\ 0 <= MemoryUse s <= 264 * n /\ 0 <= msum ent_ref (dedup_tree s) <= 65536 * n /\
  0 <= msum ent_blks (dedup_tree s) /\ 0 <= lsum data_len (pass2_dedup_queue s).
Proof.
  intros [Ht Hm Hq Hh Hb Ha]. destruct (tree_bounds _ Ht) as (? & ? & ? & ?). unfold held in Hh.
  assert (0 <= lsum data_len (pass2_dedup_queue s)) by (apply lsum_nonneg; eapply Forall_impl; [exact Hq|]; by intros x [? _]). lia.
Qed.

(** Changes that do not concern the trees. *)
Definition quiet (s s' : dedup K) : Prop :=
  exists k x a b c d e l, s' = set_dd_log l (set_dedup_successes_bytes a (set_dedup_successes_count b (set_dedup_crc_failures c
    (set_dedup_sha_failures d (set_dedup_underflows e (set_DedupDataReads x (set_dd_kernel k s))))))).

Lemma quiet_refl s : quiet s s.
Proof.
  exists (dd_kernel s), (DedupDataReads s), (dedup_successes_bytes s), (dedup_successes_count s), (dedup_crc_failures s),
    (dedup_sha_failures s), (dedup_underflows s), (dd_log s). by destruct s.
Qed.

(** The updates that are quiet. *)
Ltac quiet :=
  match goal with |- quiet ?s ?s' =>
    exists (dd_kernel s'), (DedupDataReads s'), (dedup_successes_bytes s'), (dedup_successes_count s'), (dedup_crc_failures s'),
      (dedup_sha_failures s'), (dedup_underflows s'), (dd_log s'); reflexivity end.

(** The pairs that the kernel is asked to share. *)
Definition pair_ok (p q : leaf_t) : Prop :=
  leaf_data_crc p = leaf_data_crc q /\ HAMMER_ZONE (leaf_data_offset p) = HAMMER_ZONE (leaf_data_offset q) /\
  leaf_data_len p = leaf_data_len q /\ leaf_data_offset p ≠ leaf_data_offset q.
Definition event_ok (e : event) : Prop := match e with Seen _ => True | Pair p q => pair_ok p q end.

(** What the processing of a record leaves alone. *)
Record frame (s s' : dedup K) : Prop := {
  fr_start : DedupCrcStart s' = DedupCrcStart s;
  fr_end : DedupCrcEnd s' = DedupCrcEnd s;
  fr_sim : sim_dedup_tree s' = sim_dedup_tree s;
  fr_cycle : cycle_file s' = cycle_file s;
  fr_current : DedupCurrentRecords s' = DedupCurrentRecords s;
  fr_total : DedupTotalRecords s' = DedupTotalRecords s;
  fr_log : exists new, dd_log s' = dd_log s ++ new /\ Forall event_ok new;
}.

(** Only other fields change. *)
Ltac frame_id := split; try done; exists []; by rewrite app_nil_r.

Lemma frame_trans s1 s2 s3 : frame s1 s2 -> frame s2 s3 -> frame s1 s3.
Proof.
  intros [? ? ? ? ? ? (n1 & H1 & F1)] [? ? ? ? ? ? (n2 & H2 & F2)]. split; try congruence.
  exists (n1 ++ n2). split; [by rewrite H2, H1, app_assoc|by apply Forall_app_2].
Qed.

(** Only the kernel, counters and the log change. *)
Definition calm (s s' : dedup K) : Prop := quiet s s' /\ frame s s'.

Lemma quiet_calm s s' new : quiet s s' -> dd_log s' = dd_log s ++ new -> Forall event_ok new -> calm s s'.
Proof. intros Hq Hl Hn. split; [done|]. destruct Hq as (k & x & a & b & c & d & e & l & ->). split; try done. by exists new. Qed.

Lemma quiet_calm_same s s' : quiet s s' -> dd_log s' = dd_log s -> calm s s'.
Proof. intros Hq Hl. apply (quiet_calm s s' []); [done|by rewrite app_nil_r|by apply Forall_nil]. Qed.

Lemma calm_trans s1 s2 s3 : calm s1 s2 -> calm s2 s3 -> calm s1 s3.
Proof.
  intros [(k & x & a & b & c & d & e & l & ->) F1] [(k' & x' & a' & b' & c' & d' & e' & l' & ->) F2].
  split; [quiet|]. by apply (frame_trans _ _ _ F1).
Qed.

Lemma inv_calm n s s' : inv n s -> calm s s' -> inv n s'.
Proof. intros [] [(k & x & a & b & c & d & e & l & ->) _]. by split. Qed.

Lemma calm_fields s s' : calm s s' -> dedup_tree s' = dedup_tree s /\ MemoryUse s' = MemoryUse s /\
  pass2_dedup_queue s' = pass2_dedup_queue s /\ dedup_ref_size s' = dedup_ref_size s /\ dedup_alloc_size s' = dedup_alloc_size s.
Proof. by intros [(k & x & a & b & c & d & e & l & ->) _]. Qed.

(** How a run may end otherwise: the version of the file system is too old, the kernel
    announces more data than it returned, or the observer does not accept the log. *)
Definition too_old : Prop := exists p q k, fst (k_dedup kern p q k) = inr EOPNOTSUPP.
Context (E : stop -> Prop) (Hexit : too_old -> E (Exit 1)).
(** The last two are not the case. *)
Definition kernel_ok : Prop :=
  (forall base k leaf ubuf, fst (k_get_data kern base k) = Some (leaf, ubuf) -> data_len leaf <= Z.of_nat (length ubuf)) /\
  (forall l, k_watch kern l = true).
Context (Hkern : kernel_ok).

Lemma wps_ioctl {A} (f : K -> A * K) s (R : A -> dedup K -> Prop) :
  R (fst (f (dd_kernel s))) (set_dd_kernel (snd (f (dd_kernel s))) s) -> wps (ioctl f) s E R.
Proof. done. Qed.

Lemma upgrade_spec leaf h s :
  leaf_ok leaf -> wps (upgrade_chksum kern leaf h) s E (λ _ s', calm s s').
Proof.
  intros Hl. unfold upgrade_chksum. stop_step. apply wps_ioctl. set (r := k_get_data kern (leaf_base leaf) (dd_kernel s)).
  assert (forall x k, calm s (set_DedupDataReads x (set_dd_kernel k s))) as Hq.
  { intros x k. apply quiet_calm_same; [quiet|done]. }
  destruct (fst r) as [[leaf' ubuf]|] eqn:Er; [|apply (Hq (DedupDataReads s))].
  do 2 stop_step. case_bool_decide as Hlen; [stop_step; apply Hq|].
  destruct (_ && _); [|stop_step; apply Hq].
  case_bool_decide as Hb.
  - destruct (sha_final_some (SHA256_Update SHA256_Init (take (Z.to_nat (data_len leaf')) ubuf))) as [d Hd].
    stop_step. eapply wps_deref; [exact Hd|]. stop_step. apply Hq.
  - assert (data_len leaf' = data_len leaf) as Hdl by (unfold data_len; by rewrite Hlen).
    unfold leaf_ok in Hl. destruct Hkern as [Hk _]. exfalso. apply Hb. specialize (Hk _ _ _ _ Er). lia.
Qed.

Lemma deduplicate_spec p q s :
  validate_dedup_pair p q = true -> leaf_data_crc p = leaf_data_crc q ->
  wps (deduplicate kern p q) s E (λ error s', calm s s' /\ (error = DEDUP_VERS_FAILURE -> too_old)).
Proof.
  intros [Hz%bool_decide_eq_true Hl%bool_decide_eq_true]%andb_true_iff Hc. unfold deduplicate.
  case_bool_decide as Ho; [stop_step; split; [by apply quiet_calm_same; [apply quiet_refl|]|done]|].
  stop_step. unfold log. do 2 stop_step. unfold watched. do 2 stop_step. destruct Hkern as [_ ->]. do 2 stop_step. apply wps_ioctl. cbn.
  assert (Forall event_ok [Pair p q]) as Hp by (repeat constructor; done).
  assert (forall k, calm s (set_dd_kernel k (set_dd_log (dd_log s ++ [Pair p q]) s))) as Hq.
  { intros k. apply (quiet_calm _ _ [Pair p q]); [quiet|done|done]. }
  destruct (fst _) as [flags|errno] eqn:Hr.
  - repeat (case_bool_decide; [stop_step; by split; [apply Hq|]|]). do 2 stop_step. split; [|done]. by apply (quiet_calm _ _ [Pair p q]); [quiet|..].
  - stop_step. split; [apply Hq|]. case_bool_decide as He; [|done]. intros _. rewrite He in Hr. by eexists _, _, _.
Qed.

(** ** One record *)

(** The tree before the totals of the label [g] are updated: the node that is counted may
    be new. *)
Definition ready (g : goal) (leaf : leaf_t) (t : gmap Z dedup_entry) : Prop :=
  let crc := leaf_data_crc leaf in
  match g with
  | UpgradeStats => exists de b n, t !! crc = Some de /\ de_u de = De b n /\ leaf_data_crc (de_leaf de) = crc /\
      data_len (de_leaf de) = data_len leaf /\ 0 <= b /\ n = b * data_len leaf /\ map_Forall ent_ok (delete crc t)
  | UpgradeStatsSha h => exists de l1 e l2, t !! crc = Some de /\ de_u de = Fict (l1 ++ e :: l2) /\
      leaf_data_crc (de_leaf de) = crc /\ leaf_ok (de_leaf de) /\ hash_words h = key e /\ uniq (l1 ++ e :: l2) /\
      sha_ok 0 crc e /\ data_len (sd_leaf e) = data_len leaf /\ Forall (sha_ok 1 crc) (l1 ++ l2) /\ map_Forall ent_ok (delete crc t)
  | _ => map_Forall ent_ok t
  end.

Record mid (leaf : leaf_t) (s : dedup K) (g : goal) (s' : dedup K) : Prop := {
  md_ready : ready g leaf (dedup_tree s');
  md_mem : MemoryUse s' = msum entry_size (dedup_tree s');
  md_grow : MemoryUse s' <= MemoryUse s + 288;
  md_ref : msum ent_ref (dedup_tree s') = msum ent_ref (dedup_tree s);
  md_blks : msum ent_blks (dedup_tree s') = msum ent_blks (dedup_tree s);
  md_queue : pass2_dedup_queue s' = pass2_dedup_queue s;
  md_refs : dedup_ref_size s' = dedup_ref_size s;
  md_allocs : dedup_alloc_size s' = dedup_alloc_size s;
  md_frame : frame s s';
}.

(** Nothing happened to the trees. *)
Lemma mid_calm n leaf s s' g : inv n s -> calm s s' -> ready g leaf (dedup_tree s) -> mid leaf s g s'.
Proof. intros [] [(k & x & a & b & c & d & e & l & ->) Hf] Hr. split; try done. cbn. lia. Qed.

Lemma mid_trans leaf s s1 g s' : calm s s1 -> mid leaf s1 g s' -> mid leaf s g s'.
Proof.
  intros [(k & x & a & b & c & d & e & l & ->) Hf] []. cbn in *. split; try done. by apply (frame_trans _ _ _ Hf).
Qed.

Lemma u64_small_add x y : 0 <= x + y < 2 ^ 64 -> add64 x y = x + y.
Proof. intros H. unfold add64, uwrap. by rewrite Z.mod_small. Qed.

(** The entry of the CRC is replaced. *)
Lemma mid_update n leaf s s' g de de' dm :
  inv n s -> n < 2 ^ 47 -> frame s s' -> dedup_tree s !! leaf_data_crc leaf = Some de ->
  dedup_tree s' = <[leaf_data_crc leaf := de']> (dedup_tree s) -> MemoryUse s' = MemoryUse s + dm ->
  pass2_dedup_queue s' = pass2_dedup_queue s -> dedup_ref_size s' = dedup_ref_size s -> dedup_alloc_size s' = dedup_alloc_size s ->
  entry_size de' = entry_size de + dm -> dm <= 288 -> ent_ref de' = ent_ref de -> ent_blks de' = ent_blks de ->
  ready g leaf (<[leaf_data_crc leaf := de']> (dedup_tree s)) -> mid leaf s g s'.
Proof.
  intros [] Hn Hf Hde Ht Hm Hq Hr Ha He Hdm H1 H2 Hrd. split; try done; rewrite ?Ht.
  - done.
  - rewrite (msum_update _ _ _ de) by done. lia.
  - lia.
  - rewrite (msum_update _ _ _ de) by done. lia.
  - rewrite (msum_update _ _ _ de) by done. lia.
Qed.

Lemma others_ok n s crc de' : inv n s -> map_Forall ent_ok (delete crc (<[crc := de']> (dedup_tree s))).
Proof. intros []. rewrite delete_insert_eq. by apply map_Forall_delete. Qed.

Lemma mem_add n s d : inv n s -> n < 2 ^ 47 -> 0 <= d <= 288 -> add64 (MemoryUse s) d = MemoryUse s + d.
Proof. intros Hi Hn Hd. destruct (inv_bounds _ _ Hi) as (_ & ? & _). apply u64_small_add. lia. Qed.

(** A CRC that is not in the tree. *)
Lemma process_new_spec n leaf s :
  inv n s -> n < 2 ^ 47 -> leaf_ok leaf -> dedup_tree s !! leaf_data_crc leaf = None ->
  wps (set_entry (leaf_data_crc leaf) {| de_leaf := leaf; de_u := De 0 0 |};; use_memory sizeof_dedup_entry;; mret UpgradeStats) s E
    (mid leaf s).
Proof.
  intros Hi Hn Hl Hnone. unfold set_entry, use_memory. do 4 stop_step. pose proof Hi as [].
  pose proof (mem_add n s 120 Hi Hn ltac:(lia)) as Hm. unfold sizeof_dedup_entry. split; cbn; rewrite ?Hm; try done.
  - eexists _, 0, 0. rewrite lookup_insert_eq, delete_insert_id by done. done.
  - rewrite msum_insert by done. cbn. unfold sizeof_dedup_entry. lia.
  - lia.
  - rewrite msum_insert by done. done.
  - rewrite msum_insert by done. done.
  - frame_id.
Qed.

Lemma uniq_one e : uniq [e].
Proof. apply NoDup_singleton. Qed.

(** The two blocks of a collision go to a new subtree. *)
Lemma crc_failure_spec n leaf s de b r :
  inv n s -> n < 2 ^ 47 -> leaf_ok leaf -> dedup_tree s !! leaf_data_crc leaf = Some de -> de_u de = De b r ->
  wps (crc_failure kern temp_hash leaf de b r) s E (mid leaf s).
Proof.
  intros Hi Hn Hl Hde Hu. pose proof Hi as [Ht _ _ _ _ _]. pose proof (Ht _ _ Hde) as (Hc & Hdl & Hok). rewrite Hu in Hok. destruct Hok as [Hb1 Hb2].
  unfold crc_failure. do 2 stop_step. set (s1 := set_dedup_crc_failures _ s).
  assert (calm s s1) as Hq1 by (apply quiet_calm_same; [quiet|done]).
  stop_step. eapply wps_mono; [by apply upgrade_spec|]. intros h1 s2 Hq2. pose proof (calm_trans _ _ _ Hq1 Hq2) as Hq.
  destruct h1 as [h1|]; [|stop_step; by eapply mid_calm].
  eapply wps_mono; [|intros g s' Hm; exact (mid_trans _ _ _ _ _ Hq Hm)].
  pose proof (inv_calm _ _ _ Hi Hq) as Hi2. destruct (calm_fields _ _ Hq) as (Ht2 & _).
  set (e1 := {| sd_leaf := de_leaf de |}). set (de1 := {| de_leaf := de_leaf de; de_u := Fict (sha_insert e1 []) |}).
  assert (sha_ok 1 (leaf_data_crc leaf) e1) as He1 by (by split).
  assert (ent_ok (leaf_data_crc leaf) de1) as Hde1 by (split; [done|]; split; [done|]; split; [done|]; split; [apply uniq_one|by constructor]).
  assert (entry_size de1 = entry_size de + 144 /\ ent_ref de1 = ent_ref de /\ ent_blks de1 = ent_blks de) as (Hz1 & Hr1 & Hbk1).
  { unfold entry_size, ent_ref, ent_blks, sizeof_dedup_entry, sizeof_sha_dedup_entry, lsum. rewrite Hu. cbn. lia. }
  unfold use_memory, set_entry. do 4 stop_step. pose proof (mem_add n s2 144 Hi2 Hn ltac:(lia)) as Hm.
  stop_step. eapply wps_mono; [by apply upgrade_spec|]. intros h2 s3 Hq3.
  destruct (calm_fields _ _ Hq3) as (Ht3 & Hm3 & Hqq3 & Hrr3 & Ha3). cbn in Ht3, Hm3, Hqq3, Hrr3, Ha3.
  assert (frame s2 s3) as Hf3.
  { destruct Hq3 as [_ Hf3]. eapply frame_trans; [|exact Hf3]. frame_id. }
  assert (forall g, ready g leaf (<[leaf_data_crc leaf := de1]> (dedup_tree s2)) -> mid leaf s2 g s3) as Hmid.
  { intros g Hg. rewrite <- Ht2 in Hde. apply (mid_update n leaf s2 s3 g de de1 144); try done. rewrite Hm3. exact Hm. }
  assert (map_Forall ent_ok (<[leaf_data_crc leaf := de1]> (dedup_tree s2))) as Hall
    by (rewrite Ht2; by apply map_Forall_insert_2).
  destruct h2 as [h2|]; [|stop_step; by apply Hmid].
  destruct (sha_find h2 (sha_insert e1 [])) as [e|] eqn:Hfind.
  { unfold sha256_failure. do 3 stop_step. destruct (Hmid TerminateEarly Hall). split; try done.
    apply (frame_trans _ _ _ md_frame0); frame_id. }
  apply sha_find_none in Hfind. set (e2 := {| sd_leaf := leaf |}).
  destruct (sha_insert_split e2 [e1]) as (l1 & l2 & Hs & Hins); [exact Hfind|]. cbn [sha_insert] in Hins |- *. rewrite Hins.
  set (de2 := {| de_leaf := de_leaf de; de_u := Fict (l1 ++ e2 :: l2) |}).
  assert (Z.of_nat (length (l1 ++ e2 :: l2)) = 2 /\ lsum sd_ref_size (l1 ++ e2 :: l2) = r /\ lsum sd_ref_blks (l1 ++ e2 :: l2) = b) as (Hlen & Hsr & Hsb).
  { rewrite length_app, !lsum_app. cbn [length]. apply (f_equal length) in Hs as Hs1. apply (f_equal (lsum sd_ref_size)) in Hs as Hs2.
    apply (f_equal (lsum sd_ref_blks)) in Hs as Hs3. rewrite lsum_app in Hs2, Hs3. rewrite length_app in Hs1. unfold lsum in *. cbn in *. lia. }
  unfold set_entry, use_memory. do 4 stop_step. stop_step.
  destruct (Hmid TerminateEarly Hall).
  apply (mid_update n leaf s2 _ _ de de2 288); cbn; try done.
  - apply (frame_trans _ _ _ md_frame0); frame_id.
  - by rewrite Ht2.
  - rewrite Ht3, insert_insert_eq. done.
  - rewrite Hm3. change sizeof_sha_dedup_entry with 144. rewrite Hm. rewrite <- (mem_add n s2 288 Hi2 Hn) by lia. unfold add64. f_equal. lia.
  - unfold entry_size. rewrite Hu. cbn. unfold sizeof_dedup_entry, sizeof_sha_dedup_entry. lia.
  - unfold ent_ref. rewrite Hu. done.
  - unfold ent_blks. rewrite Hu. done.
  - eexists de2, l1, e2, l2. rewrite lookup_insert_eq. split; [done|]. split; [done|]. split; [done|]. split; [done|]. split; [done|].
    apply Forall_cons in Hfind as [Hfind _]. rewrite <- Hs.
    split; [apply uniq_join; [rewrite <- Hs; apply Forall_singleton; exact Hfind|rewrite <- Hs; apply uniq_one]|].
    split; [by split|]. split; [done|]. split; [by apply Forall_singleton|]. eapply others_ok. exact Hi2.
Qed.

(** The entry of a CRC that has not collided. *)
Lemma process_crc_spec n leaf s de b r :
  inv n s -> n < 2 ^ 47 -> leaf_ok leaf -> dedup_tree s !! leaf_data_crc leaf = Some de -> de_u de = De b r ->
  wps (process_crc kern temp_hash leaf de b r) s E (mid leaf s).
Proof.
  intros Hi Hn Hl Hde Hu. pose proof Hi as [Ht _ _ _ _ _]. pose proof (Ht _ _ Hde) as (Hc & Hdl & Hok). rewrite Hu in Hok. destruct Hok as [Hb1 Hb2].
  unfold process_crc. destruct (validate_dedup_pair (de_leaf de) leaf) eqn:Hv; cbn [negb]; [|by apply (crc_failure_spec n)].
  stop_step. eapply wps_mono; [by apply deduplicate_spec|]. intros error s1 [Hq Hold].
  assert (data_len (de_leaf de) = data_len leaf) as Hlen.
  { apply andb_true_iff in Hv as [_ Hv%bool_decide_eq_true]. unfold data_len. by rewrite Hv. }
  pose proof (inv_calm _ _ _ Hi Hq) as Hi1. destruct (calm_fields _ _ Hq) as (Ht1 & Hm1 & Hq1 & Hr1 & Ha1).
  case_bool_decide. { stop_step. eapply mid_calm; [done|done|]. exists de, b, r. rewrite <- Hlen. split_and!; try done; [lia|by apply map_Forall_delete]. }
  case_bool_decide. { stop_step. by eapply mid_calm. }
  case_bool_decide. { eapply wps_mono; [apply (crc_failure_spec n); try done; by rewrite Ht1|]. intros g s'. by apply mid_trans. }
  case_bool_decide. { stop_step. by eapply mid_calm. }
  case_bool_decide.
  { unfold underflow, set_entry. do 4 stop_step. eapply mid_trans; [exact Hq|].
    eapply (mid_update n leaf s1 _ _ de {| de_leaf := leaf; de_u := De b r |} 0); try done; cbn.
    - frame_id.
    - by rewrite Ht1.
    - lia.
    - unfold entry_size. rewrite Hu. cbn. lia.
    - unfold ent_ref. by rewrite Hu.
    - unfold ent_blks. by rewrite Hu.
    - eexists _, b, r. rewrite lookup_insert_eq. split_and!; try done; [lia|by rewrite <- Hlen|by eapply others_ok]. }
  case_bool_decide; [by apply Hexit, Hold|]. stop_step. by eapply mid_calm.
Qed.

Lemma known_split leaf root e :
  List.find (λ e, bool_decide (leaf_data_offset (sd_leaf e) = leaf_data_offset leaf)
                  && bool_decide (leaf_data_len (sd_leaf e) = leaf_data_len leaf)) root = Some e ->
  exists l1 l2, root = l1 ++ e :: l2.
Proof. intros [H _]%find_some. apply list_elem_of_In in H. by apply list_elem_of_split. Qed.

(** A node of the subtree is counted, or replaced. *)
Lemma fict_ready n s leaf de l1 e l2 h :
  inv n s -> dedup_tree s !! leaf_data_crc leaf = Some de -> de_u de = Fict (l1 ++ e :: l2) -> hash_words h = key e ->
  data_len (sd_leaf e) = data_len leaf -> ready (UpgradeStatsSha h) leaf (dedup_tree s).
Proof.
  intros [Ht _ _ _ _ _] Hde Hu Hh Hlen. pose proof (Ht _ _ Hde) as (Hc & Hdl & Hok). rewrite Hu in Hok. destruct Hok as (_ & Hun & Hs).
  pose proof Hs as [Hs1 [[] Hs2]%Forall_cons]%Forall_app.
  exists de, l1, e, l2. split_and!; try done; [split; try done; lia|by apply Forall_app_2|by apply map_Forall_delete].
Qed.

(** After the hash of the record is known. *)
Lemma process_found_spec n leaf s de l1 e l2 h :
  inv n s -> n < 2 ^ 47 -> leaf_ok leaf -> dedup_tree s !! leaf_data_crc leaf = Some de -> de_u de = Fict (l1 ++ e :: l2) ->
  hash_words h = key e ->
  wps (if negb (validate_dedup_pair (sd_leaf e) leaf) then sha256_failure
      else
        error ← deduplicate kern (sd_leaf e) leaf;
        if bool_decide (error = 0) then mret (UpgradeStatsSha h)
        else if bool_decide (error = DEDUP_TECH_FAILURE) then mret Pass2Insert
        else if bool_decide (error = DEDUP_CMP_FAILURE) then sha256_failure
        else if bool_decide (error = DEDUP_INVALID_ZONE) then mret TerminateEarly
        else if bool_decide (error = DEDUP_UNDERFLOW) then
          underflow;;
          set_entry (leaf_data_crc leaf) {| de_leaf := de_leaf de;
                           de_u := Fict (sha_update (λ e, {| sd_leaf := leaf; sd_ref_blks := sd_ref_blks e;
                                                             sd_ref_size := sd_ref_size e; sd_hash := h |}) h (l1 ++ e :: l2)) |};;
          mret (UpgradeStatsSha h)
        else if bool_decide (error = DEDUP_VERS_FAILURE) then stop_with (Exit 1)
        else mret TerminateEarly) s E (mid leaf s).
Proof.
  intros Hi Hn Hl Hde Hu Hh. pose proof Hi as [Ht _ _ _ _ _]. pose proof (Ht _ _ Hde) as (Hc & Hdl & Hok). rewrite Hu in Hok.
  destruct Hok as (_ & Hun & Hs). pose proof Hs as [Hs1 [He Hs2]%Forall_cons]%Forall_app. pose proof (uniq_split _ _ _ Hun) as [Hne Hun'].
  assert (forall s1, calm s s1 -> wps (sha256_failure : prog (dedup K) goal) s1 E (mid leaf s)) as Hfail.
  { intros s1 Hq. unfold sha256_failure. do 3 stop_step. eapply mid_calm; [done| |done]. eapply calm_trans; [exact Hq|].
    apply quiet_calm_same; [quiet|done]. }
  destruct (validate_dedup_pair (sd_leaf e) leaf) eqn:Hv; cbn [negb]; [|apply Hfail; by apply quiet_calm_same; [apply quiet_refl|]].
  stop_step. eapply wps_mono; [apply deduplicate_spec; [done|by destruct He]|]. intros error s1 [Hq Hold].
  assert (data_len (sd_leaf e) = data_len leaf) as Hlen.
  { apply andb_true_iff in Hv as [_ Hv%bool_decide_eq_true]. unfold data_len. by rewrite Hv. }
  pose proof (inv_calm _ _ _ Hi Hq) as Hi1. destruct (calm_fields _ _ Hq) as (Ht1 & Hm1 & Hq1 & Hr1 & Ha1).
  case_bool_decide. { stop_step. eapply mid_calm; [done|done|]. by eapply fict_ready. }
  case_bool_decide. { stop_step. by eapply mid_calm. }
  case_bool_decide. { by apply Hfail. }
  case_bool_decide. { stop_step. by eapply mid_calm. }
  case_bool_decide.
  { rewrite sha_update_split by done. set (e' := {| sd_leaf := leaf |}).
    unfold underflow, set_entry. do 4 stop_step. eapply mid_trans; [exact Hq|].
    eapply (mid_update n leaf s1 _ _ de {| de_leaf := de_leaf de; de_u := Fict (l1 ++ e' :: l2) |} 0); try done; cbn.
    - frame_id.
    - by rewrite Ht1.
    - lia.
    - unfold entry_size. rewrite Hu. cbn. rewrite !length_app. cbn. lia.
    - unfold ent_ref. rewrite Hu. cbn. by rewrite !lsum_app.
    - unfold ent_blks. rewrite Hu. cbn. by rewrite !lsum_app.
    - eexists _, l1, e', l2. rewrite lookup_insert_eq. destruct He. split_and!; try done.
      + apply uniq_join; [|done]. eapply Forall_impl; [exact Hne|]. intros x Hx. change (key e') with (hash_words h). by rewrite Hh.
      + split; cbn; try done; [lia|]. by rewrite <- Hlen.
      + by apply Forall_app_2.
      + by eapply others_ok. }
  case_bool_decide; [by apply Hexit, Hold|]. stop_step. by eapply mid_calm.
Qed.

(** The entry of a CRC that has collided. *)
Lemma process_fict_spec n leaf s de root :
  inv n s -> n < 2 ^ 47 -> leaf_ok leaf -> dedup_tree s !! leaf_data_crc leaf = Some de -> de_u de = Fict root ->
  wps (process_fict kern temp_hash leaf de root) s E (mid leaf s).
Proof.
  intros Hi Hn Hl Hde Hu. pose proof Hi as [Ht _ _ _ _ _]. pose proof (Ht _ _ Hde) as (Hc & Hdl & Hok). rewrite Hu in Hok.
  destruct Hok as (Hroot & Hun & Hs). unfold process_fict. cbv zeta. stop_step. destruct (List.find _ root) as [e|] eqn:Hk.
  { stop_step. destruct (known_split _ _ _ Hk) as (l1 & l2 & ->). by apply (process_found_spec n). }
  stop_step. eapply wps_mono; [by apply upgrade_spec|]. intros r s1 Hq. stop_step.
  pose proof (inv_calm _ _ _ Hi Hq) as Hi1. destruct (calm_fields _ _ Hq) as (Ht1 & _). rewrite <- Ht1 in Hde.
  destruct r as [h|]; [|stop_step; by eapply mid_calm].
  eapply wps_mono; [|intros g s' Hm; exact (mid_trans _ _ _ _ _ Hq Hm)].
  destruct (sha_find h root) as [e|] eqn:Hf.
  { destruct (sha_find_some _ _ _ Hf) as (l1 & l2 & -> & Hh). by apply (process_found_spec n). }
  apply sha_find_none in Hf. set (e := {| sd_leaf := leaf |}).
  destruct (sha_insert_split e root Hf) as (l1 & l2 & -> & ->).
  unfold set_entry, use_memory. do 4 stop_step. stop_step. pose proof (mem_add n s1 144 Hi1 Hn ltac:(lia)) as Hm.
  eapply (mid_update n leaf s1 _ _ de {| de_leaf := de_leaf de; de_u := Fict (l1 ++ e :: l2) |} 144); try done; cbn.
  - frame_id.
  - unfold entry_size. rewrite Hu. cbn. rewrite !length_app. cbn. unfold sizeof_sha_dedup_entry. lia.
  - unfold ent_ref. rewrite Hu. cbn. by rewrite !lsum_app.
  - unfold ent_blks. rewrite Hu. cbn. by rewrite !lsum_app.
  - eexists _, l1, e, l2. rewrite lookup_insert_eq. split_and!; try done; [by apply uniq_join|by eapply others_ok].
Qed.

(** The whole of the processing of one record. *)
Record proc_post (n : Z) (leaf : leaf_t) (flags : Z) (s s' : dedup K) : Prop := {
  pp_inv : inv (n + 1) s';
  pp_held : held s' = held s + data_len leaf;
  pp_grow : MemoryUse s' <= MemoryUse s + 288;
  pp_queue : pass2_dedup_queue s' = pass2_dedup_queue s \/
             flags .& DEDUP_PASS2 = 0 /\ pass2_dedup_queue s' = pass2_dedup_queue s ++ [leaf];
  pp_frame : frame s s';
}.

Lemma terminate_early_spec n leaf flags s s1 g :
  inv n s -> n < 2 ^ 47 -> leaf_ok leaf -> mid leaf s g s1 -> map_Forall ent_ok (dedup_tree s1) ->
  wps (terminate_early leaf) s1 E (λ _, proc_post n leaf flags s).
Proof.
  intros Hi Hn Hl [] Hok. destruct (inv_bounds _ _ Hi) as (Hb1 & _). pose proof Hi as []. unfold terminate_early. do 3 stop_step.
  unfold leaf_ok in Hl.
  assert (add64 (dedup_ref_size s1) (data_len leaf) = dedup_ref_size s + data_len leaf) as Er by (rewrite md_refs0; apply u64_small_add; lia).
  assert (add64 (dedup_alloc_size s1) (data_len leaf) = dedup_alloc_size s + data_len leaf) as Ea by (rewrite md_allocs0; apply u64_small_add; lia).
  unfold held in *.
  split; [split| | | |]; unfold held; cbn; rewrite ?Er, ?Ea, ?md_queue0, ?md_ref0; try done; try lia; try (by left).
  apply (frame_trans _ _ _ md_frame0). frame_id.
Qed.

Lemma alter_some {A} (f : A -> A) (t : gmap Z A) k a : t !! k = Some a -> alter f k t = <[k := f a]> t.
Proof. intros H. rewrite <- (insert_id t k a H) at 1. by rewrite alter_insert_eq. Qed.

(** One more block is counted in the entry of the CRC. *)
Lemma counted_spec n leaf flags s s1 g de de' :
  inv n s -> n < 2 ^ 47 -> leaf_ok leaf -> mid leaf s g s1 -> dedup_tree s1 !! leaf_data_crc leaf = Some de ->
  map_Forall ent_ok (delete (leaf_data_crc leaf) (dedup_tree s1)) -> ent_ok (leaf_data_crc leaf) de' ->
  ent_ref de' = ent_ref de + data_len leaf -> ent_blks de' = ent_blks de + 1 -> entry_size de' = entry_size de ->
  proc_post n leaf flags s (set_dedup_tree (<[leaf_data_crc leaf := de']> (dedup_tree s1)) s1).
Proof.
  intros Hi Hn Hl [] Hde Hoth Hok Hr Hb Hz. pose proof Hi as []. unfold leaf_ok in Hl.
  split; [split| | | |]; unfold held in *; cbn; rewrite ?(msum_update _ _ _ de), ?md_queue0, ?md_refs0, ?md_allocs0 by done; try done; try lia; try (by left).
  - intros k x. rewrite lookup_insert_Some. intros [[<- <-]|[Hk Hx]]; [done|]. apply Hoth. by rewrite lookup_delete_ne.
  - apply (frame_trans _ _ _ md_frame0). frame_id.
Qed.

(** The totals of the entry that is counted are small. *)
Lemma count_bounds n leaf s s1 g de :
  inv n s -> mid leaf s g s1 -> dedup_tree s1 !! leaf_data_crc leaf = Some de ->
  map_Forall ent_ok (delete (leaf_data_crc leaf) (dedup_tree s1)) -> ent_blks de <= n /\ ent_ref de <= 65536 * n.
Proof.
  intros Hi [] Hde Hoth. destruct (inv_bounds _ _ Hi) as (_ & _ & ? & _). destruct (tree_bounds _ Hoth) as (Hr & Hb & _).
  rewrite (msum_delete ent_ref _ _ de) in Hr by done. rewrite (msum_delete ent_blks _ _ de) in Hb by done. destruct Hi. lia.
Qed.

Lemma lsum_bound crc l1 (e : sha_dedup_entry) l2 :
  Forall (sha_ok 1 crc) (l1 ++ l2) -> sd_ref_blks e <= lsum sd_ref_blks (l1 ++ e :: l2) /\ sd_ref_size e <= lsum sd_ref_size (l1 ++ e :: l2).
Proof.
  intros H. destruct (sha_nonneg _ _ H) as [H1 H2]. rewrite !lsum_app in *. change (e :: l2) with ([e] ++ l2). rewrite !lsum_app.
  unfold lsum at 2 5. cbn. lia.
Qed.

Lemma finish_elm_spec n leaf flags s s1 g :
  inv n s -> n < 2 ^ 47 -> leaf_ok leaf -> mid leaf s g s1 -> wps (finish_elm leaf flags g) s1 E (λ _, proc_post n leaf flags s).
Proof.
  intros Hi Hn Hl Hmid. pose proof Hmid as []. destruct g as [|h| |]; cbn [finish_elm].
  - destruct md_ready0 as (de & b & r & Hde & Hu & Hc & Hlen & Hb & Hr & Hoth). do 3 stop_step.
    destruct (count_bounds _ _ _ _ _ _ Hi Hmid Hde Hoth) as [B1 B2]. unfold ent_blks, ent_ref in B1, B2. rewrite Hu in B1, B2.
    rewrite (alter_some _ _ _ de) by done. unfold leaf_ok in Hl. unfold count_entry. rewrite Hu. rewrite !u64_small_add by nia.
    eapply (counted_spec n leaf flags s s1 _ de); try done.
    + split; [done|]. split; [unfold leaf_ok; cbn; lia|]. cbn. split; [lia|]. rewrite Hlen. lia.
    + unfold ent_ref. cbn. by rewrite Hu.
    + unfold ent_blks. cbn. by rewrite Hu.
    + unfold entry_size. cbn. by rewrite Hu.
  - destruct md_ready0 as (de & l1 & e & l2 & Hde & Hu & Hc & Hdl & Hh & Hun & [He1 He2 He3 He4] & Hlen & Hoths & Hoth). do 3 stop_step.
    destruct (count_bounds _ _ _ _ _ _ Hi Hmid Hde Hoth) as [B1 B2]. unfold ent_blks, ent_ref in B1, B2. rewrite Hu in B1, B2.
    destruct (lsum_bound _ l1 e l2 Hoths) as [C1 C2]. pose proof (uniq_split _ _ _ Hun) as [Hne Hun'].
    rewrite (alter_some _ _ _ de) by done. unfold leaf_ok in Hl. unfold count_entry. rewrite Hu, sha_update_split by done.
    rewrite !u64_small_add by nia. set (e' := {| sd_leaf := sd_leaf e |}).
    eapply (counted_spec n leaf flags s s1 _ de); try done.
    + split; [done|]. split; [done|]. cbn. split; [by destruct l1|]. split; [by apply uniq_join|].
      apply Forall_app in Hoths as [O1 O2]. apply Forall_app_2; [done|]. constructor; [|done].
      split; cbn; try done; [lia|]. rewrite He4, Hlen. lia.
    + unfold ent_ref. cbn. rewrite Hu, !lsum_app. unfold lsum. cbn. lia.
    + unfold ent_blks. cbn. rewrite Hu, !lsum_app. unfold lsum. cbn. lia.
    + unfold entry_size. cbn. rewrite Hu, !length_app. done.
  - case_bool_decide as Hf; [|by eapply terminate_early_spec]. do 3 stop_step. pose proof Hi as []. unfold leaf_ok in Hl.
    split; [split| | | |]; unfold held in *; cbn; rewrite ?lsum_app, ?md_queue0, ?md_refs0, ?md_allocs0, ?md_ref0; try done; try lia.
    + by apply Forall_app_2; [|constructor].
    + unfold lsum at 2. cbn. lia.
    + unfold lsum at 2. cbn. lia.
    + by right.
    + apply (frame_trans _ _ _ md_frame0). frame_id.
  - by eapply terminate_early_spec.
Qed.

End process.

(** ** Memory *)

Section memory.
Context {K : Type} (MemoryLimit : Z) (E : stop -> Prop).

Definition below (e : Z) (t : gmap Z dedup_entry) : gmap Z dedup_entry := filter (λ p, fst p < e) t.

Lemma below_ok e t : map_Forall ent_ok t -> map_Forall ent_ok (below e t).
Proof. intros H k a [Hk _]%map_lookup_filter_Some. by apply H. Qed.

(** The inner loop keeps the entries below [DedupCrcEnd]. *)
Lemma drop_high_spec fuel : forall s : dedup K,
  (size (dedup_tree s) < fuel)%nat -> map_Forall ent_ok (dedup_tree s) -> MemoryUse s = msum entry_size (dedup_tree s) ->
  MemoryUse s < 2 ^ 64 ->
  let t := below (DedupCrcEnd s) (dedup_tree s) in
  wps (drop_high fuel) s E (λ _ s', s' = set_MemoryUse (msum entry_size t) (set_dedup_tree t s)).
Proof.
  induction fuel as [|fuel IH]; intros s Hf Hok Hm Hb t; [lia|]. cbn [drop_high]. do 2 stop_step. pose proof (rb_max_spec (dedup_tree s)) as Hmax.
  assert (t = dedup_tree s -> s = set_MemoryUse (msum entry_size t) (set_dedup_tree t s)) as Hid.
  { intros Ht. rewrite Ht, <- Hm. by destruct s. }
  destruct (rb_max (dedup_tree s)) as [[crc de]|].
  2: { stop_step. apply Hid. unfold t. rewrite Hmax. apply map_filter_empty. }
  destruct Hmax as [Hde Hmax]. case_bool_decide as Hlt.
  { stop_step. apply Hid. apply map_filter_id. intros k a Hk. specialize (Hmax _ _ Hk). cbn. lia. }
  destruct (tree_bounds _ (map_Forall_delete _ _ crc Hok)) as (_ & _ & [Hd _]). destruct (ent_bounds _ _ (Hok _ _ Hde)) as (_ & _ & Hz).
  rewrite (msum_delete _ _ _ de) in Hd by done.
  do 2 stop_step. rewrite u64_small_add by lia. eapply wps_mono; [apply IH; cbn|].
  - rewrite map_size_delete_Some by eauto. pose proof (map_size_empty_iff (dedup_tree s)).
    assert (size (dedup_tree s) ≠ 0%nat) by (intros Hs; apply H in Hs; rewrite Hs in Hde; by rewrite lookup_empty in Hde). lia.
  - by apply map_Forall_delete.
  - rewrite (msum_delete _ _ _ de) by done. lia.
  - lia.
  - intros _ s' ->. cbn. replace (below (DedupCrcEnd s) (delete crc (dedup_tree s))) with t; [done|].
    unfold t, below. symmetry. apply map_filter_delete_not. intros y Hy. cbn. lia.
Qed.

Definition width (s : dedup K) : Z := u32 (DedupCrcEnd s - DedupCrcStart s - 1).

(** The range of CRCs of the pass is not empty, and the tree has no CRC below it. *)
Record ranged (s : dedup K) : Prop := {
  rg_start : 0 <= DedupCrcStart s < 2 ^ 32;
  rg_end : DedupCrcEnd s = 0 \/ DedupCrcStart s < DedupCrcEnd s < 2 ^ 32;
  rg_tree : map_Forall (λ crc _, DedupCrcStart s <= crc) (dedup_tree s);
}.

Lemma width_eq s : ranged s -> width s = (if bool_decide (DedupCrcEnd s = 0) then 2 ^ 32 else DedupCrcEnd s) - DedupCrcStart s - 1.
Proof.
  intros [H1 H2 _]. unfold width, uwrap. case_bool_decide as He.
  - rewrite He. replace (0 - DedupCrcStart s - 1) with (2 ^ 32 - DedupCrcStart s - 1 + (-1) * 2 ^ 32) by lia. rewrite Z.mod_add by lia.
    apply Z.mod_small. lia.
  - apply Z.mod_small. lia.
Qed.

Lemma half_eq s : ranged s -> half_range (DedupCrcStart s) (DedupCrcEnd s) = DedupCrcStart s + width s / 2.
Proof.
  intros Hr. unfold half_range. fold (width s). assert (0 <= width s < 2 ^ 32 - DedupCrcStart s) as Hw.
  { rewrite width_eq by done. destruct Hr as [H1 H2 _]. case_bool_decide; lia. }
  destruct Hr as [H1 H2 _]. unfold uwrap. apply Z.mod_small. pose proof (Z_div_mod_eq_full (width s) 2). pose proof (Z.mod_pos_bound (width s) 2). lia.
Qed.

(** The outer loop: at most 34 turns, and the memory is below the limit. *)
Definition trimmed (s s' : dedup K) : Prop :=
  exists e, DedupCrcStart s <= e <= half_range (DedupCrcStart s) (DedupCrcEnd s) /\ (DedupCrcEnd s = 0 \/ e < DedupCrcEnd s) /\ MemoryLimit < MemoryUse s /\
    let t := below e (dedup_tree s) in s' = set_MemoryUse (msum entry_size t) (set_dedup_tree t (set_DedupCrcEnd e s)).

Lemma below_below e e' t : e' <= e -> below e' (below e t) = below e' t.
Proof.
  intros He. unfold below. apply map_eq. intros k. apply option_eq. intros a. rewrite !map_lookup_filter_Some. cbn. split; [tauto|].
  intros [H1 H2]. split; [split; [done|lia]|done].
Qed.

Lemma msum_below (f : dedup_entry -> Z) e t : map_Forall (λ _ a, 0 <= f a) t -> msum f (below e t) <= msum f t.
Proof.
  unfold below. induction t as [|k a t Hk IH] using map_ind; [by rewrite map_filter_empty|]. rewrite map_Forall_insert by done. intros [H1 H2].
  specialize (IH H2). rewrite (msum_insert f t) by done. destruct (decide (k < e)) as [He|He].
  - rewrite map_filter_insert_True by done. rewrite msum_insert by (apply map_lookup_filter_None; by left). lia.
  - rewrite map_filter_insert_False by done. rewrite delete_id by done. lia.
Qed.

(** Entries are removed. *)
Lemma inv_trimmed n s s' : inv n s -> trimmed s s' -> inv n s'.
Proof.
  intros [] (e & _ & _ & _ & ->). split; unfold held in *; cbn; try done.
  - by apply below_ok.
  - pose proof (msum_below ent_ref e (dedup_tree s)). etrans; [|exact iv_held0]. specialize (H ltac:(intros k a Hk; by destruct (ent_bounds _ _ (iv_tree0 _ _ Hk)))). lia.
  - etrans; [|exact iv_blks0]. apply msum_below. intros k a Hk. destruct (ent_bounds _ _ (iv_tree0 _ _ Hk)). lia.
Qed.

Lemma trimmed_trans s s1 s2 : 0 < DedupCrcEnd s1 -> trimmed s s1 -> trimmed s1 s2 -> trimmed s s2.
Proof.
  intros H0 (e & H1 & H2 & H3 & ->) (e' & H4 & H5 & H6 & ->). cbn in *. exists e'. split; [lia|]. split; [lia|]. split; [done|].
  cbv zeta. by rewrite below_below by lia.
Qed.

Lemma reduce_memory_spec f : forall n s,
  0 <= MemoryLimit -> inv n s -> n < 2 ^ 47 -> ranged s -> width s < 2 ^ Z.of_nat f ->
  wps (reduce_memory MemoryLimit (S (S f))) s E (λ _ s', (s' = s \/ trimmed s s') /\ MemoryUse s' <= MemoryLimit).
Proof.
  induction f as [|f IH]; intros n s HL Hi Hn Hr Hw; cbn [reduce_memory]; do 2 stop_step.
  all: case_bool_decide as Hm; [|stop_step; split; [by left|lia]].
  all: pose proof (half_eq s Hr) as Hh; pose proof (width_eq s Hr) as Hwe; pose proof Hr as [R1 R2 R3].
  all: pose proof (Z_div_mod_eq_full (width s) 2) as Hd; pose proof (Z.mod_pos_bound (width s) 2 ltac:(lia)) as Hd'.
  all: assert (0 <= width s) as Hw0 by (rewrite Hwe; case_bool_decide; lia).
  all: pose proof Hi as [Ht HM _ _ _ _]; destruct (inv_bounds _ _ Hi) as (_ & HB & _).
  all: do 2 stop_step; rewrite Hh; stop_step; eapply wps_mono; [apply drop_high_spec; cbn; [lia|done|done|lia]|]; intros _ s2 ->; cbn [dedup_tree set_DedupCrcEnd DedupCrcEnd].
  all: set (e := DedupCrcStart s + width s / 2); set (t := below e (dedup_tree s)); set (s2 := set_MemoryUse _ _).
  all: assert (trimmed s s2) as Htr by (exists e; unfold e; split; [rewrite Hh; lia|]; split; [case_bool_decide; lia|]; by split).
  all: assert (e = DedupCrcStart s -> msum entry_size t = 0) as Hz.
  1,3: intros He; unfold t; replace (below e (dedup_tree s)) with (∅ : gmap Z dedup_entry); [apply msum_empty|];
    symmetry; apply map_empty; intros k; apply map_lookup_filter_None; right; intros a Hk; specialize (R3 _ _ Hk); cbn in *; lia.
  - assert (width s = 0) by (case_bool_decide; lia). unfold e in Hz. do 2 stop_step. cbn [MemoryUse s2 set_MemoryUse].
    assert (width s / 2 = 0) as Hq by lia. rewrite Hz by lia. rewrite bool_decide_false by lia. stop_step. split; [by right|]. cbn. rewrite Hz by lia. lia.
  - destruct (decide (width s / 2 = 0)) as [Hq|Hq].
    + cbn [reduce_memory]. do 2 stop_step. cbn [MemoryUse s2 set_MemoryUse]. rewrite Hz by (unfold e; lia). rewrite bool_decide_false by lia.
      stop_step. split; [by right|]. cbn. rewrite Hz by (unfold e; lia). lia.
    + assert (ranged s2) as Hr2.
      { split; cbn; [done|right; unfold e; case_bool_decide; lia|]. intros k a [Hk _]%map_lookup_filter_Some. by apply (R3 k a). }
      assert (width s2 < 2 ^ Z.of_nat f) as Hw2.
      { rewrite width_eq by done. cbn. rewrite bool_decide_false by (unfold e; lia). unfold e.
        replace (Z.of_nat (S f)) with (Z.of_nat f + 1) in Hw by lia. rewrite Z.pow_add_r in Hw by lia. lia. }
      eapply wps_mono; [apply (IH n s2); try done; by eapply inv_trimmed|]. intros _ s' [[->|Htr'] Hle]; split; try done; right; [done|].
      eapply trimmed_trans; [|done|done]. cbn. unfold e. lia.
Qed.
End memory.
