(* ===== verification/DedupRun.v ===== *)
(** * DedupRun: a run of hammer dedup

    The scan as a walk over the records that the kernel lists, the second pass and the
    totals, put together to the accounting of a run whose memory suffices; and, for every
    run, the pairs of records that the kernel is asked to share. *)

From S2P Require Import Prelude CMonad WpStop HammerDisk Layout HammerCrc Sha2 Mirror Cycle Dedup DedupInv.

#[local] Opaque Z.to_nat SHA256_Init SHA256_Update SHA256_Final.

(** ** The records of a listing *)

(** The records of one buffer, or [None] when it is not well formed. *)
Fixpoint page_records (fuel : nat) (buf : bytes) (count offset : Z) : option (list leaf_t) :=
  match fuel with
  | O => None
  | S fuel =>
      if bool_decide (offset < count) then
        let head := read_at mrec_head buf (Z.to_nat offset) in
        let bytes := s32 (HAMMER_HEAD_DOALIGN (mh_rec_size head)) in
        if bool_decide (0 <= offset) && bool_decide (Z.to_nat offset + 80 <= length buf)%nat
           && bool_decide (offset + bytes < 2 ^ 31) && bool_decide (offset + bytes <= count)
           && bool_decide (mh_type head .& HAMMER_MRECF_TYPE_MASK = HAMMER_MREC_TYPE_REC)
        then ls ← page_records fuel buf count (offset + bytes); Some (read_at hammer_btree_leaf_elm buf (Z.to_nat offset + 16) :: ls)
        else None
      else Some []
  end.

(** The pages of a scan: the buffer, its size and the next key.  The last one is empty. *)
Abbreviation page := (bytes * Z * hammer_base_elm)%type.

Definition is_data (l : leaf_t) : bool :=
  bool_decide (be_btype (leaf_base l) = HAMMER_BTREE_TYPE_RECORD) && bool_decide (be_rec_type (leaf_base l) = HAMMER_RECTYPE_DATA).

(** Where a scan begins. *)
Definition start_key (path : bool) (file : option bytes) : hammer_base_elm := resume_key hammer_key_beg_init path file.

Section run.
Context {K : Type} (kern : kernel K).

(** The kernel lists [pages] from [key] on, with the records [ls], whatever else happens. *)
Inductive lists : hammer_base_elm -> list page -> list leaf_t -> Prop :=
  | Lists_end key buf cur :
      (forall k, fst (k_mirror_read kern key k) = MirrorRead false buf 0 cur) -> lists key [(buf, 0, cur)] []
  | Lists_page key buf count cur pages ls rest :
      (forall k, fst (k_mirror_read kern key k) = MirrorRead false buf count cur) -> 0 < count ->
      page_records (S (Z.to_nat count)) buf count 0 = Some ls -> lists cur pages rest ->
      lists key ((buf, count, cur) :: pages) (ls ++ rest).

Definition undisturbed : Prop := forall k, fst (k_interrupted kern k) = false.

Lemma scan_record_other func l (s : dedup K) : is_data l = false -> scan_record func l s = Ok () s.
Proof. unfold is_data, scan_record. intros [H|H]%andb_false_iff; repeat case_bool_decide; done. Qed.

Lemma scan_record_data func l (s : dedup K) : is_data l = true ->
  scan_record func l s =
    (modify (λ s, set_DedupCurrentRecords (DedupCurrentRecords s + 1) s);;
     s ← get_state; when (in_range s (leaf_data_crc l)) (log (Seen l);; func l 0;; mret ())) s.
Proof.
  unfold is_data, scan_record. intros [H1%bool_decide_eq_true H2%bool_decide_eq_true]%andb_true_iff.
  rewrite (bool_decide_false (be_btype _ ≠ _)), (bool_decide_false (be_rec_type _ ≠ _)) by (intros H; by apply H). done.
Qed.

Fixpoint each (func : leaf_t -> Z -> prog (dedup K) Z) (ls : list leaf_t) : prog (dedup K) () :=
  match ls with
  | [] => mret ()
  | l :: ls => scan_record func l;; each func ls
  end.

Lemma scan_buffer_each func fuel : forall buf count offset ls s,
  page_records fuel buf count offset = Some ls -> scan_buffer fuel func buf count offset s = each func ls s.
Proof.
  induction fuel as [|fuel IH]; intros buf count offset ls s; [done|]. cbn [page_records scan_buffer]. case_bool_decide as Hlt; [|by intros [= <-]].
  destruct (_ && _) eqn:Hc; [|done]. rewrite !andb_true_iff, !bool_decide_eq_true in Hc. destruct Hc as [[[[H1 H2] H3] H4] H5].
  set (head := read_at mrec_head buf _) in *. set (b := s32 _) in *.
  intros (ls' & Hls & [= <-])%bind_Some. rewrite (bool_decide_true (0 <= offset)), (bool_decide_true (_ + 16 <= _)%nat) by (done || lia).
  cbn [andb]. fold b. rewrite (bool_decide_false (2 ^ 31 <= _)), (bool_decide_false (count < _)) by lia. rewrite (bool_decide_true (_ + 80 <= _)%nat) by done.
  rewrite bool_decide_true by exact H5. unfold assertp. rewrite (bind_Ok _ _ s () s eq_refl). cbn [each]. unfold mbind, prog_bind.
  destruct (scan_record func _ s) as [[] s1|]; [|done].
  by apply IH.
Qed.

Section scan.
Context (sync_beg_tid : Z) (E : stop -> Prop) (func : leaf_t -> Z -> prog (dedup K) Z) (all : list leaf_t) (I : list leaf_t -> dedup K -> Prop).
Context (Ikernel : forall past s k, I past s -> I past (set_dd_kernel k s)).
Context (Istep : forall past l rest s, all = past ++ l :: rest -> I past s -> wps (scan_record func l) s E (λ _, I (past ++ [l]))).

Lemma each_spec ls rest : forall past s, all = past ++ ls ++ rest -> I past s -> wps (each func ls) s E (λ _, I (past ++ ls)).
Proof.
  induction ls as [|l ls IH]; intros past s Hall HI; cbn [each].
  - stop_step. by rewrite app_nil_r.
  - stop_step. eapply wps_mono; [by eapply Istep|]. intros [] s1 H1.
    eapply wps_mono; [apply (IH (past ++ [l])); [by rewrite <- app_assoc|done]|]. intros [] s2. by rewrite <- app_assoc.
Qed.

(** A scan hands all records to the callback, in order. *)
Lemma scan_pages_spec path pages : forall fuel key ls past s,
  undisturbed -> lists key pages ls -> (length pages <= fuel)%nat -> all = past ++ ls -> I past s ->
  wps (scan_pages kern sync_beg_tid fuel path func key) s E (λ _, I all).
Proof.
  induction pages as [|p pages IH]; intros fuel key ls past s Hu Hl Hf Hall HI; [by inversion Hl|].
  destruct fuel as [|fuel]; [cbn in Hf; lia|]. cbn [scan_pages]. inversion Hl as [key0 buf cur Hr|key0 buf count cur ps ls1 rest Hr Hc Hp Hrest]; subst p; subst ls; try subst pages.
  - stop_step. apply wps_ioctl. rewrite Hr. stop_step. rewrite bool_decide_false by (intros Hne; by apply Hne). cbn [when]. do 2 stop_step. apply wps_ioctl. rewrite Hu.
    rewrite bool_decide_true by done. stop_step. rewrite Hall, app_nil_r. by apply Ikernel, Ikernel.
  - stop_step. apply wps_ioctl. rewrite Hr. stop_step. rewrite bool_decide_true by lia. cbn [when].
    eapply wps_eq; [by apply (scan_buffer_each _ _ _ _ _ ls1)|]. eapply wps_mono; [by apply (each_spec ls1 rest past); [|apply Ikernel]|].
    intros [] s1 HI1. stop_step. apply wps_ioctl. rewrite Hu. rewrite bool_decide_false by lia.
    apply (IH _ _ rest (past ++ ls1)); try done; [cbn in Hf; lia|by rewrite <- app_assoc|]. by apply Ikernel.
Qed.

Lemma scan_pfs_spec path pages fuel s :
  undisturbed -> lists (start_key path (cycle_file s)) pages all -> (length pages <= fuel)%nat ->
  (forall c, start_key path c = start_key path (cycle_file s) -> I [] (set_cycle_file c (set_DedupCurrentRecords 0 (set_DedupDataReads 0 s)))) ->
  wps (scan_pfs kern sync_beg_tid fuel path func) s E (λ _, I all).
Proof.
  intros Hu Hl Hf HI. unfold scan_pfs. do 3 stop_step. eapply wps_mono; [apply get_cycle_spec|]. intros r s' (Hr & c & -> & _ & Hc).
  rewrite Hr. cbn in Hc |- *. by eapply scan_pages_spec; [..|apply HI].
Qed.
End scan.
End run.

(** ** One record, with the memory limit *)

Section elm.
Context {K : Type} (kern : kernel K) (MemoryLimit : Z) (temp_hash : bytes).
Context (E : stop -> Prop) (Hexit : too_old kern -> E (Exit 1)) (Hkern : kernel_ok kern).

(** 34 turns of the outer loop are enough; it does nothing when memory is not short. *)
Lemma process_btree_elm_spec n leaf flags tfuel s :
  0 <= MemoryLimit -> inv n s -> n < 2 ^ 47 -> leaf_ok leaf ->
  ((1 <= tfuel)%nat /\ MemoryUse s <= MemoryLimit \/ (34 <= tfuel)%nat /\ ranged s) ->
  wps (process_btree_elm kern MemoryLimit temp_hash tfuel leaf flags) s E
    (λ _ s', exists s1, (s1 = s \/ MemoryLimit < MemoryUse s /\ trimmed MemoryLimit s s1) /\ MemoryUse s1 <= MemoryLimit /\ proc_post n leaf flags s1 s').
Proof.
  intros HL Hi Hn Hl Hm. unfold process_btree_elm. stop_step.
  apply (wps_mono _ _ _ (λ _ s1, (s1 = s \/ MemoryLimit < MemoryUse s /\ trimmed MemoryLimit s s1) /\ MemoryUse s1 <= MemoryLimit)).
  { destruct Hm as [[Hf Hm]|[Hf Hr]].
    - destruct tfuel as [|tfuel]; [lia|]. cbn [reduce_memory]. do 2 stop_step. rewrite bool_decide_false by lia. stop_step. by split; [left|].
    - replace tfuel with (S (S (tfuel - 2))) by lia. eapply wps_mono; [apply (reduce_memory_spec _ _ _ n); try done|].
      + assert (width s < 2 ^ 32) by (unfold width, uwrap; apply Z.mod_pos_bound; lia).
        pose proof (Z.pow_le_mono_r 2 32 (Z.of_nat (tfuel - 2)) ltac:(lia) ltac:(lia)). lia.
      + intros _ s1 [[->|Ht] Hle]; split; try done; [by left|]. right. split; [|done]. by destruct Ht as (e & _ & _ & ? & _). }
  intros _ s1 [H1 H2]. assert (inv n s1) as Hi1 by (destruct H1 as [->|[_ Ht]]; [done|by eapply inv_trimmed]).
  do 3 stop_step. apply (wps_mono _ _ _ (mid leaf s1)).
  { destruct (dedup_tree s1 !! leaf_data_crc leaf) as [de|] eqn:Hde; [|by apply (process_new_spec E n)].
    destruct (de_u de) as [b r|root] eqn:Hu; [by apply (process_crc_spec _ _ _ Hexit Hkern n)|by apply (process_fict_spec _ _ _ Hexit Hkern n)]. }
  intros g s2 Hmid. eapply wps_mono; [by apply (finish_elm_spec E n)|]. intros r s' Hp. by exists s1.
Qed.
End elm.

(** ** The totals *)

Section tally.
Context {K : Type} (E : stop -> Prop).

(** The sum of the sizes of the blocks that an entry stands for. *)
Definition ent_alloc (de : dedup_entry) : Z :=
  match de_u de with De _ _ => data_len (de_leaf de) | Fict root => lsum (data_len ∘ sd_leaf) root end.

(** The totals of [s'] are those of [s], plus these. *)
Definition tallied (alloc ref : Z) (s s' : dedup K) : Prop :=
  exists t, s' = set_dedup_alloc_size (dedup_alloc_size s + alloc) (set_dedup_ref_size (dedup_ref_size s + ref) (set_dedup_tree t s)).

Lemma tallied_refl s : tallied 0 0 s s.
Proof. exists (dedup_tree s). rewrite !Z.add_0_r. by destruct s. Qed.

Lemma tallied_trans a r a' r' s s1 s' : tallied a r s s1 -> tallied a' r' s1 s' -> tallied (a + a') (r + r') s s'.
Proof. intros [t ->] [t' ->]. exists t'. cbn. by rewrite !Z.add_assoc. Qed.

Lemma tally_spec b d s :
  1 <= b -> 0 <= d -> 0 <= dedup_alloc_size s <= dedup_ref_size s -> dedup_ref_size s + b * d < 2 ^ 64 ->
  wps (tally b (b * d)) s E (λ _ s', tallied d (b * d) s s' /\ dedup_tree s' = dedup_tree s).
Proof.
  intros Hb Hd Ha Hr. unfold tally. stop_step. apply wps_assertp; [apply bool_decide_eq_true; lia|]. stop_step. cbn.
  rewrite (Z.mul_comm b d), Z.div_mul by lia. rewrite !u64_small_add by nia. split; [|done]. exists (dedup_tree s). by destruct s.
Qed.

Lemma tally_sha_spec crc root : forall s : dedup K,
  Forall (sha_ok 1 crc) root -> 0 <= dedup_alloc_size s <= dedup_ref_size s -> dedup_ref_size s + lsum sd_ref_size root < 2 ^ 64 ->
  wps (tally_sha root) s E (λ _ s', tallied (lsum (data_len ∘ sd_leaf) root) (lsum sd_ref_size root) s s' /\ dedup_tree s' = dedup_tree s).
Proof.
  induction root as [|e root IH]; intros s Hok Ha Hr; cbn [tally_sha]; [stop_step; split; [apply tallied_refl|done]|].
  apply Forall_cons in Hok as [[Hc [Hl _] Hb Hs] Hok]. destruct (sha_nonneg _ _ Hok) as [Hp _].
  change (e :: root) with ([e] ++ root) in *. rewrite lsum_app in Hr. unfold lsum at 1 in Hr. cbn [foldr] in Hr. stop_step. rewrite Hs in *.
  eapply wps_mono; [apply tally_spec; try done; lia|]. intros _ s1 [Ht1 Hd1]. pose proof Ht1 as [t1 Hs1].
  eapply wps_mono; [apply IH; [done| |]; rewrite Hs1; cbn; nia|]. intros _ s' [Ht2 Hd2]. split; [|congruence].
  rewrite !lsum_app. apply (tallied_trans _ _ _ _ s s1); [|done]. unfold lsum. cbn. rewrite !Z.add_0_r. by rewrite ?Hs.
Qed.

Lemma ent_alloc_bounds crc de : ent_ok crc de -> 0 <= ent_alloc de <= ent_ref de.
Proof.
  intros (_ & [Hl _] & Hu). unfold ent_alloc, ent_ref. destruct (de_u de) as [b r|root]; [destruct Hu as [Hb ->]; nia|].
  destruct Hu as (_ & _ & Hs). induction Hs as [|e root [_ [He _] Hb Hr] _ IH]; [done|].
  change (e :: root) with ([e] ++ root). rewrite !lsum_app. unfold lsum in *. cbn in *. rewrite Hr. nia.
Qed.

Lemma tally_tree_spec es : forall s : dedup K,
  Forall (λ p, ent_ok (fst p) (snd p)) es -> NoDup es.*1 -> dedup_tree s = list_to_map es ->
  0 <= dedup_alloc_size s <= dedup_ref_size s -> dedup_ref_size s + lsum (ent_ref ∘ snd) es < 2 ^ 64 ->
  wps (tally_tree es) s E (λ _ s', tallied (lsum (ent_alloc ∘ snd) es) (lsum (ent_ref ∘ snd) es) s s' /\ dedup_tree s' = ∅).
Proof.
  induction es as [|[crc de] es IH]; intros s Hok Hnd Ht Ha Hr; cbn [tally_tree]; [stop_step; split; [apply tallied_refl|done]|].
  apply Forall_cons in Hok as [Hde Hok]. cbn in Hde. apply NoDup_cons in Hnd as [Hnin Hnd]. cbn in Hnin.
  pose proof (ent_alloc_bounds _ _ Hde) as Hal. pose proof Hde as (_ & [Hl _] & Hu).
  change ((crc, de) :: es) with ([(crc, de)] ++ es) in *. rewrite lsum_app in Hr. unfold lsum at 1 in Hr. cbn [foldr compose snd] in Hr.
  assert (0 <= lsum (ent_ref ∘ snd) es) as Hp.
  { apply lsum_nonneg. eapply Forall_impl; [exact Hok|]. intros [k a] Hk. by destruct (ent_bounds _ _ Hk). }
  stop_step. apply (wps_mono _ _ _ (λ _ s', tallied (ent_alloc de) (ent_ref de) s s' /\ dedup_tree s' = dedup_tree s)).
  { unfold ent_alloc, ent_ref in *. destruct (de_u de) as [b r|root].
    - destruct Hu as [Hb ->]. apply tally_spec; try done; lia.
    - destruct Hu as (_ & _ & Hs). by apply (tally_sha_spec crc); [..|lia]. }
  intros _ s1 [Ht1 Hd1]. pose proof Ht1 as [t1 Hs1]. do 2 stop_step.
  eapply wps_mono; [apply IH; cbn; try done|].
  - rewrite Hd1, Ht. cbn. apply delete_insert_id. by apply not_elem_of_list_to_map_1.
  - rewrite Hs1. cbn. lia.
  - rewrite Hs1. cbn. lia.
  - intros _ s' [Ht2 Hd2]. split; [|done]. rewrite !lsum_app. apply (tallied_trans _ _ _ _ s s1).
    + unfold lsum. cbn. by rewrite !Z.add_0_r.
    + destruct Ht2 as [t2 ->]. by exists t2.
Qed.

Lemma lsum_to_list {A} (f : A -> Z) (t : gmap Z A) : lsum (f ∘ snd) (map_to_list t) = msum f t.
Proof. by rewrite msum_to_list. Qed.
End tally.

(** ** A run whose memory suffices *)

Definition data_records (ls : list leaf_t) : list leaf_t := List.filter is_data ls.

Lemma data_app ls1 ls2 : data_records (ls1 ++ ls2) = data_records ls1 ++ data_records ls2.
Proof. apply List.filter_app. Qed.

Lemma data_one l : data_records [l] = if is_data l then [l] else [].
Proof. done. Qed.

Section account.
Context {K : Type} (kern : kernel K) (MemoryLimit sync_beg_tid : Z) (temp_hash : bytes) (tfuel : nat).
Context (E : stop -> Prop) (Hexit : too_old kern -> E (Exit 1)) (Hkern : kernel_ok kern).
Context (N : Z) (HN : N < 2 ^ 46) (Hmem : 576 * N <= MemoryLimit) (Htf : (1 <= tfuel)%nat).

(** [n] records have been processed, with [total] bytes; the range is not restricted. *)
Record steady (n total : Z) (s : dedup K) : Prop := {
  st_inv : inv n s;
  st_held : held s = total;
  st_mem : MemoryUse s <= 288 * n;
  st_start : DedupCrcStart s = 0;
  st_end : DedupCrcEnd s = 0;
  st_log : Forall event_ok (dd_log s);
}.

Lemma steady_step n total leaf flags s :
  0 <= n < 2 * N -> leaf_ok leaf -> steady n total s ->
  wps (process_btree_elm kern MemoryLimit temp_hash tfuel leaf flags) s E
    (λ _ s', steady (n + 1) (total + data_len leaf) s' /\ frame s s' /\
       (pass2_dedup_queue s' = pass2_dedup_queue s \/ flags .& DEDUP_PASS2 = 0 /\ pass2_dedup_queue s' = pass2_dedup_queue s ++ [leaf])).
Proof.
  intros Hn Hl []. eapply wps_mono.
  { apply (process_btree_elm_spec _ _ _ _ Hexit Hkern n); try done; [lia|lia|]. left. split; [done|lia]. }
  intros r s' (s1 & [->|[Hs1 _]] & _ & [Hi Hh Hm Hq Hf]); [|lia]. split; [|done]. pose proof Hf as [? ? _ _ _ _ (new & Hlog & Hnew)].
  split; try congruence; [lia|]. rewrite Hlog. by apply Forall_app_2.
Qed.

(** The scan of the main pass. *)
Section main.
Context (all : list leaf_t) (Hlen : Z.of_nat (length (data_records all)) = N) (Hall : Forall leaf_ok (data_records all)).
Context (c : option bytes) (T : Z).

Record scanned (past : list leaf_t) (s : dedup K) : Prop := {
  sc_steady : steady (Z.of_nat (length (data_records past))) (lsum data_len (data_records past)) s;
  sc_queue : (length (pass2_dedup_queue s) <= length (data_records past))%nat;
  sc_current : DedupCurrentRecords s = Z.of_nat (length (data_records past));
  sc_cycle : cycle_file s = c;
  sc_total : DedupTotalRecords s = T;
}.

Lemma scanned_step past l rest s :
  all = past ++ l :: rest -> scanned past s ->
  wps (scan_record (process_btree_elm kern MemoryLimit temp_hash tfuel) l) s E (λ _, scanned (past ++ [l])).
Proof.
  intros Hsp Hsc. destruct (is_data l) eqn:Hd.
  2: { unfold wps. rewrite scan_record_other by done. destruct Hsc as []. by split; rewrite ?data_app, ?data_one, ?Hd, ?app_nil_r. }
  assert (leaf_ok l) as Hl.
  { rewrite Forall_forall in Hall. apply Hall. rewrite Hsp, data_app. apply elem_of_app. right. cbn. rewrite Hd. left. }
  assert (Z.of_nat (length (data_records past)) < N) as Hlt.
  { rewrite <- Hlen, Hsp, data_app, length_app. cbn. rewrite Hd. cbn. lia. }
  eapply wps_eq; [by apply scan_record_data|]. destruct Hsc as [[] Hq Hc Hf Ht]. do 4 stop_step.
  apply wps_when; [intros _|unfold in_range; cbn [DedupCrcStart DedupCrcEnd set_DedupCurrentRecords]; rewrite st_start0, st_end0; done].
  stop_step. unfold log. do 2 stop_step. eapply wps_mono.
  { apply (steady_step (Z.of_nat (length (data_records past))) (lsum data_len (data_records past))); [lia|done|].
    destruct st_inv0. split; cbn; try done. apply Forall_app_2; [done|by constructor]. }
  intros r s' (Hs & Hfr & Hqs). stop_step. cbn in Hqs. destruct Hfr as [_ _ _ Hfc Hfu Hft _]. cbn in Hfc, Hfu, Hft.
  split; rewrite ?data_app, ?data_one, ?Hd, ?length_app, ?lsum_app; cbn [length]; try (congruence || lia).
  - rewrite Nat2Z.inj_add. unfold lsum at 2. cbn. by rewrite Z.add_0_r.
  - destruct Hqs as [->|[_ ->]]; rewrite ?length_app; cbn; lia.
Qed.
End main.

(** The records that failed are tried once more; then the queue is empty. *)
Lemma pass2_spec total q : forall fuel n s,
  pass2_dedup_queue s = q -> (length q < fuel)%nat -> 0 <= n -> n + Z.of_nat (length q) <= 2 * N -> steady n total s ->
  wps (pass2_loop kern MemoryLimit temp_hash fuel tfuel) s E
    (λ _ s', frame s s' /\ pass2_dedup_queue s' = [] /\ exists n', n' <= 2 * N /\ steady n' total s').
Proof.
  induction q as [|l q IH]; intros fuel n s Hq Hf Hn0 Hn Hs; (destruct fuel as [|fuel]; [cbn in Hf; lia|]); cbn [pass2_loop]; do 2 stop_step; rewrite Hq.
  - stop_step. split; [split; try done; exists []; by rewrite app_nil_r|]. split; [done|]. exists n. cbn in Hn. split; [lia|done].
  - assert (leaf_ok l) as Hl by (destruct Hs as [[_ _ Hiq _ _ _] _ _ _ _ _]; rewrite Hq in Hiq; by apply Forall_cons in Hiq as [? _]).
    cbn [length] in Hn, Hf. stop_step. eapply wps_mono; [apply (steady_step n total l); [lia|done|done]|]. intros r s1 (Hs1 & Hf1 & [Hq1|[Hx _]]); [|done].
    rewrite Hq in Hq1. assert (forall z, let s2 := set_pass2_dedup_queue q (set_dedup_skipped_size z s1) in steady (n + 1) total s2 /\ frame s s2) as Hn2.
    { intros z s2. unfold leaf_ok in Hl. split.
      - destruct Hs1 as [[i1 i2 i3 i4 i5 i6] Hh Hm1 Ha Hb Hg]. unfold held in *. rewrite Hq1 in *. apply Forall_cons in i3 as [_ i3].
        change (l :: q) with ([l] ++ q) in i4, Hh. rewrite lsum_app in i4, Hh. unfold lsum at 1 in i4. unfold lsum at 1 in Hh. cbn [foldr] in i4, Hh.
        split; [split|..]; unfold held; cbn; try done; lia.
      - eapply frame_trans; [exact Hf1|]. split; try done. exists []. by rewrite app_nil_r. }
    stop_step. apply wps_when; intros _; [stop_step|]; do 2 stop_step; cbn [pass2_dedup_queue set_dedup_skipped_size]; rewrite Hq1; cbn [tail].
    2: replace s1 with (set_dedup_skipped_size (dedup_skipped_size s1) s1) by (by destruct s1).
    all: eapply wps_mono; [apply (IH fuel (n + 1)); [done|lia|lia|lia|apply Hn2]|]; intros _ s' (Hf' & Hq' & Hs'); split; [|done];
      (eapply frame_trans; [apply Hn2|exact Hf']).
Qed.

(** ** The command *)

Context (all : list leaf_t) (Hlen : Z.of_nat (length (data_records all)) = N) (Hall : Forall leaf_ok (data_records all)).
Context (pages : list page) (fuel : nat) (Hfuel : (length pages <= fuel)%nat) (Hcalm : undisturbed kern).

(** Nothing has been collected yet. *)
Record fresh (key : hammer_base_elm) (s : dedup K) : Prop := {
  fs_tree : dedup_tree s = ∅;
  fs_queue : pass2_dedup_queue s = [];
  fs_ref : dedup_ref_size s = 0;
  fs_alloc : dedup_alloc_size s = 0;
  fs_start : DedupCrcStart s = 0;
  fs_end : DedupCrcEnd s = 0;
  fs_cycle : start_key true (cycle_file s) = key;
  fs_log : Forall event_ok (dd_log s);
}.

(** Everything has been counted. *)
Record accounted (s : dedup K) : Prop := {
  ac_ref : dedup_ref_size s = lsum data_len (data_records all);
  ac_alloc : 0 <= dedup_alloc_size s <= dedup_ref_size s;
  ac_tree : dedup_tree s = ∅;
  ac_queue : pass2_dedup_queue s = [];
  ac_total : DedupTotalRecords s = N;
  ac_log : Forall event_ok (dd_log s);
}.

Lemma fresh_steady key s z c : fresh key s -> steady 0 0 (set_cycle_file c (set_DedupCurrentRecords 0 (set_DedupDataReads z
  (set_MemoryUse 0 (set_DedupCrcEnd 0 (set_DedupCrcStart (DedupCrcEnd s) s)))))).
Proof.
  intros [Ht Hq Hr Ha Hs He Hc Hl]. split; [split| | | | |]; unfold held; cbn; rewrite ?Ht, ?Hq, ?Hr, ?Ha, ?msum_empty; try done.
Qed.

(** The totals at the end of a pass. *)
Lemma tally_all_spec total n s :
  n <= 2 * N -> steady n total s -> pass2_dedup_queue s = [] ->
  wps (tally_tree (map_to_list (dedup_tree s))) s E
    (λ _ s', dedup_tree s' = ∅ /\ dedup_ref_size s' = total /\ 0 <= dedup_alloc_size s' <= dedup_ref_size s' /\
       exists a r, s' = set_dedup_alloc_size a (set_dedup_ref_size r (set_dedup_tree ∅ s))).
Proof.
  intros Hn [[Ht Hm _ Hh _ Ha] Hh' _ _ _ _] Hq. unfold held in Hh, Hh'. rewrite Hq in Hh, Hh'. rewrite Z.add_0_r in Hh, Hh'.
  assert (0 <= msum ent_alloc (dedup_tree s) <= msum ent_ref (dedup_tree s)) as Hal.
  { split; [apply msum_nonneg; intros k a Hk; by apply (ent_alloc_bounds k), Ht|].
    rewrite <- (Z.mul_1_l (msum ent_ref _)). apply msum_scale. intros k a Hk. rewrite Z.mul_1_l. by apply (ent_alloc_bounds k), Ht. }
  eapply wps_mono; [apply tally_tree_spec|].
  - apply Forall_forall. intros [k a] Hk%elem_of_map_to_list. by apply Ht.
  - apply NoDup_fst_map_to_list.
  - by rewrite list_to_map_to_list.
  - done.
  - rewrite lsum_to_list. lia.
  - intros _ s' [[t ->] Ht']. cbn in *. rewrite !lsum_to_list. subst t. split; [done|]. split; [lia|]. split; [lia|]. by eexists _, _.
Qed.

Lemma dedup_pass_spec key s :
  fresh key s -> DedupTotalRecords s = N -> lists kern key pages all ->
  wps (dedup_pass kern MemoryLimit sync_beg_tid temp_hash fuel tfuel) s E (λ again s', again = false /\ accounted s').
Proof.
  intros Hfr Htot Hl. unfold dedup_pass. do 3 stop_step.
  eapply wps_mono.
  { apply (scan_pfs_spec kern sync_beg_tid E _ all (λ past s', exists c, scanned c N past s')) with (pages := pages); try done.
    - intros past s1 k (c & [[[] ? ? ? ? ?] ? ? ? ?]). exists c. by split; [split; [split|..]|..].
    - intros past l rest s1 Hsp (c & Hsc). eapply wps_mono; [by eapply scanned_step|]. intros [] s2 H2. by exists c.
    - cbn. by rewrite (fs_cycle _ _ Hfr).
    - intros c Hc. exists c. split; try done; cbn; [by apply fresh_steady with key|]. rewrite (fs_queue _ _ Hfr). done. }
  intros _ s1 (c & [Hst Hq _ _ Ht]). do 3 stop_step.
  eapply wps_mono; [eapply pass2_spec; [reflexivity|lia| | |exact Hst]; lia|].
  intros _ s2 (Hfr2 & Hq2 & n & Hn & Hst2). do 3 stop_step. apply wps_assertp; [by apply bool_decide_eq_true|].
  stop_step. eapply wps_mono; [by eapply tally_all_spec|]. intros _ s3 (Ht3 & Hr3 & Ha3 & a & r & ->). do 3 stop_step.
  apply wps_assertp; [by apply bool_decide_eq_true|]. stop_step. destruct Hst2. cbn in *. split; [by rewrite st_end0|].
  split; cbn; try done. destruct Hfr2. congruence.
Qed.

(** The whole run. *)
Lemma hammer_cmd_dedup_spec passes key s :
  (1 <= passes)%nat -> fresh key s -> lists kern key pages all ->
  wps (hammer_cmd_dedup kern MemoryLimit sync_beg_tid temp_hash passes fuel tfuel) s E (λ _ s', accounted s' /\ cycle_file s' = None).
Proof.
  intros Hp Hfr Hl. unfold hammer_cmd_dedup. do 3 stop_step. set (s0 := set_pass2_dedup_queue [] s).
  assert (fresh key s0) as Hfr0 by (destruct Hfr; by split).
  eapply wps_mono.
  { apply (scan_pfs_spec kern sync_beg_tid E _ all (λ past s', fresh key s' /\ DedupCurrentRecords s' = Z.of_nat (length (data_records past))))
      with (pages := pages); try done.
    - intros past s1 k [[] Hc]. by split; [split|].
    - intros past l rest s1 _ [[Ht Hq Hr Ha Hst He Hcy Hlg] Hc]. rewrite data_app, data_one. destruct (is_data l) eqn:Hd.
      + eapply wps_eq; [by apply scan_record_data|]. do 4 stop_step. unfold log, count_btree_elm.
        apply wps_when; intros _; [do 4 stop_step|]; (split; [split|]; cbn; rewrite ?length_app; cbn; try done; try lia).
        apply Forall_app_2; [done|by constructor].
      + unfold wps. rewrite scan_record_other by done. rewrite app_nil_r. by split; [split|].
    - by rewrite (fs_cycle _ _ Hfr0).
    - intros c Hc. destruct Hfr0. split; [|done]. split; cbn; try done. by rewrite Hc. }
  intros _ s1 [Hfr1 Hc1]. do 3 stop_step. destruct passes as [|passes]; [lia|]. cbn [dedup_passes]. stop_step.
  eapply wps_mono; [apply (dedup_pass_spec key); [by destruct Hfr1; split|cbn; by rewrite Hc1|done]|].
  intros again s2 [-> Hac]. stop_step. unfold hammer_reset_cycle. stop_step. split; [|done]. by destruct Hac; split.
Qed.
End account.
