(* ===== verification/DedupSafe.v ===== *)
(** * DedupSafe: the pairs that hammer dedup offers to the kernel

    An invariant of every run, whatever the kernel answers and however often the tree is
    trimmed: the nodes of the trees and of the queue are data records that a scan has
    handed to the callback, filed under their CRC, and every pair for which the dedup ioctl
    was issued consists of two such records that agree in CRC, zone and length. *)

From S2P Require Import Prelude CMonad WpStop HammerDisk Layout HammerCrc Sha2 Mirror Cycle Dedup DedupInv DedupRun.

#[local] Opaque Z.to_nat SHA256_Init SHA256_Update SHA256_Final.

Section safe.
Context {K : Type} (kern : kernel K) (MemoryLimit sync_beg_tid : Z) (temp_hash : bytes).

Definition seen (s : dedup K) (l : leaf_t) : Prop := Seen l ∈ dd_log s.
(** A record that is filed under [crc]. *)
Definition filed (s : dedup K) (crc : Z) (l : leaf_t) : Prop := leaf_data_crc l = crc /\ seen s l.
Definition ent_filed (s : dedup K) (crc : Z) (de : dedup_entry) : Prop :=
  filed s crc (de_leaf de) /\ match de_u de with De _ _ => True | Fict root => Forall (λ e, filed s crc (sd_leaf e)) root end.

Record safe (s : dedup K) : Prop := {
  sf_tree : map_Forall (ent_filed s) (dedup_tree s);
  sf_queue : Forall (seen s) (pass2_dedup_queue s);
  sf_pairs : forall p q, Pair p q ∈ dd_log s -> pair_ok p q /\ seen s p /\ seen s q;
  sf_data : forall l, seen s l -> is_data l = true;
}.

(** The invariant holds afterwards, and nothing is forgotten. *)
Definition onward (s s' : dedup K) : Prop := safe s' /\ forall l, seen s l -> seen s' l.

Lemma onward_trans s1 s2 s3 : onward s1 s2 -> onward s2 s3 -> onward s1 s3.
Proof. intros [_ H1] [H2 H3]. split; [done|]. auto. Qed.

Lemma onward_refl s : safe s -> onward s s.
Proof. by split. Qed.

Lemma ent_filed_mono s s' crc de : (forall l, seen s l -> seen s' l) -> ent_filed s crc de -> ent_filed s' crc de.
Proof.
  unfold ent_filed, filed. intros H [[Hc Hs] Hu]. split; [by auto|]. destruct (de_u de); [done|].
  eapply Forall_impl; [exact Hu|]. intros e [? ?]. auto.
Qed.

(** The log grows. *)
Lemma onward_log s s' new :
  safe s -> dedup_tree s' = dedup_tree s -> pass2_dedup_queue s' = pass2_dedup_queue s -> dd_log s' = dd_log s ++ new ->
  (forall p q, Pair p q ∈ new -> pair_ok p q /\ seen s p /\ seen s q) -> (forall l, Seen l ∈ new -> is_data l = true) -> onward s s'.
Proof.
  intros [Ht Hq Hp Hd] Et Eq El Hn Hnd. assert (forall l, seen s l -> seen s' l) as Hm.
  { intros l Hl. unfold seen. rewrite El. apply elem_of_app. by left. }
  split; [|done]. split.
  - rewrite Et. intros k a Hk. eapply ent_filed_mono; [done|]. by apply Ht.
  - rewrite Eq. eapply Forall_impl; [exact Hq|]. auto.
  - intros p q. rewrite El, elem_of_app. intros [Hpq|Hpq]; [destruct (Hp _ _ Hpq)|destruct (Hn _ _ Hpq)]; intuition auto.
  - intros l. unfold seen. rewrite El, elem_of_app. intros [Hl|Hl]; [by apply Hd|by apply Hnd].
Qed.

Lemma onward_same s s' :
  safe s -> dedup_tree s' = dedup_tree s -> pass2_dedup_queue s' = pass2_dedup_queue s -> dd_log s' = dd_log s -> onward s s'.
Proof.
  intros Hs Et Eq El. apply (onward_log s s' []); try done; [by rewrite app_nil_r|by intros p q ?%elem_of_nil|by intros l ?%elem_of_nil].
Qed.

(** The tree or the queue changes. *)
Lemma onward_update s s' :
  safe s -> dd_log s' = dd_log s -> map_Forall (ent_filed s) (dedup_tree s') -> Forall (seen s) (pass2_dedup_queue s') -> onward s s'.
Proof.
  intros [Ht Hq Hp Hd] El Ht' Hq'. assert (forall l, seen s' l <-> seen s l) as Hm by (intros l; unfold seen; by rewrite El).
  split; [|intros l; apply Hm]. split.
  - intros k a Hk. eapply ent_filed_mono; [|by apply Ht']. intros l. apply Hm.
  - eapply Forall_impl; [exact Hq'|]. intros l. apply Hm.
  - intros p q. rewrite El, !Hm. apply Hp.
  - intros l. rewrite Hm. apply Hd.
Qed.

(** A run may stop, but if [E] says so the observer does not stop it. *)
Context (E : stop -> Prop) (HE : forall e, e ≠ Watched -> E e) (Hwatch : E Watched \/ forall s, safe s -> k_watch kern (dd_log s) = true).
Abbreviation keeps m s := (wps m s E (λ _ s', onward s s')).

(** A step, then the rest. *)
Lemma keeps_then {A B} (m : prog (dedup K) A) (k : A -> prog (dedup K) B) s :
  keeps m s -> (forall a s1, onward s s1 -> keeps (k a) s1) -> keeps (m ≫= k) s.
Proof.
  intros Hm Hk. stop_step. eapply wps_mono; [exact Hm|]. intros a s1 H1. eapply wps_mono; [by apply Hk|]. intros b s2. by apply onward_trans.
Qed.

Lemma keeps_same f s : safe s -> (forall s, dedup_tree (f s) = dedup_tree s /\ pass2_dedup_queue (f s) = pass2_dedup_queue s /\ dd_log (f s) = dd_log s) -> keeps (modify f) s.
Proof. intros Hs Hf. stop_step. destruct (Hf s) as (? & ? & ?). by apply onward_same. Qed.

Lemma keeps_ret {A} (a : A) s : safe s -> keeps (mret a) s.
Proof. intros Hs. stop_step. by apply onward_refl. Qed.

Lemma keeps_ioctl {A} (f : K -> A * K) s : safe s -> keeps (ioctl f) s.
Proof. intros Hs. apply wps_ioctl. by apply onward_same. Qed.

Lemma keeps_stop {A} e s : e ≠ Watched -> keeps (stop_with e : prog (dedup K) A) s.
Proof. apply HE. Qed.

Lemma keeps_watched s : safe s -> keeps (watched kern) s.
Proof.
  intros Hs. unfold watched. do 2 stop_step. destruct (k_watch kern (dd_log s)) eqn:Hw; [by apply keeps_ret|].
  destruct Hwatch as [H|H]; [exact H|]. by rewrite H in Hw.
Qed.

Lemma keeps_assertp b s : safe s -> keeps (assertp b) s.
Proof. intros Hs. destruct b; [by apply keeps_ret|by apply HE]. Qed.

Lemma keeps_deref {A} (o : option A) s : safe s -> keeps (deref o) s.
Proof. intros Hs. destruct o; [by apply keeps_ret|by apply HE]. Qed.

#[local] Hint Extern 1 (_ ≠ Watched) => discriminate : core.
#[local] Hint Resolve keeps_ret keeps_ioctl keeps_stop keeps_assertp keeps_deref keeps_same : core.
#[local] Hint Extern 1 (safe _) => match goal with H : onward _ ?s |- safe ?s => exact (proj1 H) end : core.

Lemma keeps_upgrade leaf h s : safe s -> keeps (upgrade_chksum kern leaf h) s.
Proof.
  intros Hs. apply keeps_then; [by auto|]. intros [[leaf' ubuf]|] s1 H1; [|by auto]. apply keeps_then; [apply keeps_same; [by auto|done]|].
  intros _ s2 H2. case_bool_decide; [by auto|]. destruct (_ && _); [|by auto]. case_bool_decide; [|by auto].
  apply keeps_then; [by auto|]. by auto.
Qed.

Lemma keeps_deduplicate p q s :
  safe s -> validate_dedup_pair p q = true -> leaf_data_crc p = leaf_data_crc q -> seen s p -> seen s q -> keeps (deduplicate kern p q) s.
Proof.
  intros Hs [Hz%bool_decide_eq_true Hl%bool_decide_eq_true]%andb_true_iff Hc Hp Hq. unfold deduplicate.
  case_bool_decide as Ho; [by auto|]. apply keeps_then.
  { unfold log. stop_step. apply (onward_log s _ [Pair p q]); try done; [|by intros l [=]%list_elem_of_singleton].
    intros p' q' [= -> ->]%list_elem_of_singleton. done. }
  intros _ s0 H0. apply keeps_then; [apply keeps_watched; by auto|].
  intros _ s1 H1. apply keeps_then; [by auto|]. intros [flags|errno] s2 H2; [|by auto].
  repeat (case_bool_decide; [by auto|]). apply keeps_then; [apply keeps_same; [by auto|done]|]. by auto.
Qed.

Lemma keeps_set_entry crc de s : safe s -> ent_filed s crc de -> keeps (set_entry crc de) s.
Proof.
  intros Hs Hde. unfold set_entry. stop_step. apply onward_update; cbn; try done; [|by destruct Hs]. apply map_Forall_insert_2; [done|by destruct Hs].
Qed.

Lemma keeps_use_memory n s : safe s -> keeps (use_memory n) s.
Proof. intros Hs. by apply keeps_same. Qed.

Lemma keeps_sha256_failure s : safe s -> keeps sha256_failure s.
Proof. intros Hs. apply keeps_then; [by apply keeps_same|]. by auto. Qed.

#[local] Hint Resolve keeps_upgrade keeps_use_memory keeps_sha256_failure : core.

Lemma sha_insert_elem x e root : x ∈ sha_insert e root -> x = e \/ x ∈ root.
Proof.
  induction root as [|y root IH]; cbn [sha_insert]; [by rewrite list_elem_of_singleton; left|].
  destruct (rb_sha_dedup_entry_compare _ _); rewrite ?elem_of_cons; intuition auto.
Qed.

Lemma sha_insert_filed s crc e root :
  filed s crc (sd_leaf e) -> Forall (λ e, filed s crc (sd_leaf e)) root -> Forall (λ e, filed s crc (sd_leaf e)) (sha_insert e root).
Proof. intros He Hr. apply Forall_forall. rewrite Forall_forall in Hr. intros x [->|Hx]%sha_insert_elem; [done|by apply Hr]. Qed.

Lemma sha_update_filed s crc f h root :
  (forall e, filed s crc (sd_leaf e) -> filed s crc (sd_leaf (f e))) -> Forall (λ e, filed s crc (sd_leaf e)) root ->
  Forall (λ e, filed s crc (sd_leaf e)) (sha_update f h root).
Proof. intros Hf. unfold sha_update. induction 1 as [|e root He _ IH]; cbn; [by constructor|]. constructor; [destruct (sha_eq h e); auto|done]. Qed.

Lemma filed_onward s s' crc l : onward s s' -> filed s crc l -> filed s' crc l.
Proof. intros [_ H] [? ?]. split; auto. Qed.

Lemma ent_onward s s' crc de : onward s s' -> ent_filed s crc de -> ent_filed s' crc de.
Proof. intros [_ H]. by apply ent_filed_mono. Qed.

(** ** One record *)

Lemma keeps_crc_failure leaf de b r s :
  safe s -> filed s (leaf_data_crc leaf) leaf -> ent_filed s (leaf_data_crc leaf) de -> keeps (crc_failure kern temp_hash leaf de b r) s.
Proof.
  intros Hs Hl Hde. unfold crc_failure. apply keeps_then; [by apply keeps_same|]. intros _ s1 Ho1.
  apply keeps_then; [by auto|]. intros [h1|] s2 Ho2; [|by auto]. apply keeps_then; [by auto|]. intros _ s3 Ho3.
  pose proof (onward_trans _ _ _ Ho1 (onward_trans _ _ _ Ho2 Ho3)) as H. clear Ho1 Ho2.
  set (e1 := {| sd_leaf := de_leaf de |}). set (root := sha_insert e1 []).
  assert (forall s', onward s s' -> Forall (λ e, filed s' (leaf_data_crc leaf) (sd_leaf e)) root) as Hroot.
  { intros s' Ho. apply sha_insert_filed; [by eapply filed_onward; [|apply Hde]|by constructor]. }
  apply keeps_then.
  { apply keeps_set_entry; [by auto|]. split; [by eapply filed_onward; [|apply Hde]|by apply Hroot]. }
  intros _ s4 Ho4. pose proof (onward_trans _ _ _ H Ho4) as Ho5.
  apply keeps_then; [by auto|]. intros [h2|] s5 Ho6; [|by auto]. pose proof (onward_trans _ _ _ Ho5 Ho6) as Ho7.
  destruct (sha_find h2 root); [by auto|]. apply keeps_then.
  { apply keeps_set_entry; [by auto|]. split; [by eapply filed_onward; [|apply Hde]|]. cbn [de_u]. apply sha_insert_filed; [by eapply filed_onward|by apply Hroot]. }
  intros _ s6 Ho8. apply keeps_then; [by auto|]. by auto.
Qed.

Lemma keeps_process_crc leaf de b r s :
  safe s -> filed s (leaf_data_crc leaf) leaf -> ent_filed s (leaf_data_crc leaf) de -> keeps (process_crc kern temp_hash leaf de b r) s.
Proof.
  intros Hs Hl Hde. unfold process_crc. destruct (validate_dedup_pair (de_leaf de) leaf) eqn:Hv; cbn [negb]; [|by apply keeps_crc_failure].
  apply keeps_then. { destruct Hl as [_ Hl], Hde as [[Hc Hd] _]. by apply keeps_deduplicate. }
  intros error s1 Ho1. pose proof (filed_onward _ _ _ _ Ho1 Hl) as Hl1. pose proof (ent_onward _ _ _ _ Ho1 Hde) as Hde1.
  repeat (case_bool_decide; [by auto using keeps_crc_failure|]). case_bool_decide.
  { apply keeps_then; [apply keeps_same; [by auto|done]|]. intros _ s2 Ho2. apply keeps_then; [|by auto].
    apply keeps_set_entry; [by auto|]. split; [by eapply filed_onward|done]. }
  case_bool_decide; by auto.
Qed.

Lemma keeps_found leaf de root h e s :
  safe s -> filed s (leaf_data_crc leaf) leaf -> filed s (leaf_data_crc leaf) (de_leaf de) -> filed s (leaf_data_crc leaf) (sd_leaf e) ->
  Forall (λ e, filed s (leaf_data_crc leaf) (sd_leaf e)) root ->
  keeps (if negb (validate_dedup_pair (sd_leaf e) leaf) then sha256_failure
      else
        error ← deduplicate kern (sd_leaf e) leaf;
        if bool_decide (error = 0) then mret (UpgradeStatsSha h)
        else if bool_decide (error = DEDUP_TECH_FAILURE) then mret Pass2Insert
        else if bool_decide (error = DEDUP_CMP_FAILURE) then sha256_failure
        else if bool_decide (error = DEDUP_INVALID_ZONE) then mret TerminateEarly
        else if bool_decide (error = DEDUP_UNDERFLOW) then
          underflow;;
          set_entry (leaf_data_crc leaf) {| de_leaf := de_leaf de;
                           de_u := Fict (sha_update (λ e, {| sd_leaf := leaf; sd_ref_blks := sd_ref_blks e;
                                                             sd_ref_size := sd_ref_size e; sd_hash := h |}) h root) |};;
          mret (UpgradeStatsSha h)
        else if bool_decide (error = DEDUP_VERS_FAILURE) then stop_with (Exit 1)
        else mret TerminateEarly) s.
Proof.
  intros Hs Hl Hde He Hr. destruct (validate_dedup_pair (sd_leaf e) leaf) eqn:Hv; cbn [negb]; [|by auto].
  apply keeps_then. { destruct Hl as [_ Hl], He as [Hc He]. by apply keeps_deduplicate. }
  intros error s1 Ho1. pose proof (filed_onward _ _ _ _ Ho1 Hl) as Hl1. pose proof (filed_onward _ _ _ _ Ho1 Hde) as Hde1.
  repeat (case_bool_decide; [by auto|]). case_bool_decide.
  { apply keeps_then; [apply keeps_same; [by auto|done]|]. intros _ s2 Ho2. pose proof (onward_trans _ _ _ Ho1 Ho2) as Ho3.
    apply keeps_then; [|by auto]. apply keeps_set_entry; [by auto|]. split; [by eapply filed_onward|]. cbn [de_u].
    apply sha_update_filed; [intros; by eapply filed_onward|]. eapply Forall_impl; [exact Hr|]. intros x. by apply filed_onward. }
  case_bool_decide; by auto.
Qed.

Lemma keeps_process_fict leaf de root s :
  safe s -> filed s (leaf_data_crc leaf) leaf -> ent_filed s (leaf_data_crc leaf) de -> de_u de = Fict root ->
  keeps (process_fict kern temp_hash leaf de root) s.
Proof.
  intros Hs Hl [Hd Hroot] Hu. rewrite Hu in Hroot. unfold process_fict. cbv zeta.
  assert (forall p e, List.find p root = Some e -> filed s (leaf_data_crc leaf) (sd_leaf e)) as Hfind.
  { intros p e [He _]%find_some. rewrite Forall_forall in Hroot. by apply Hroot, list_elem_of_In. }
  apply (wps_bind E). destruct (List.find _ root) as [e|] eqn:Hk; [stop_step; apply keeps_found; try done; by eapply Hfind|].
  apply wps_bind. eapply wps_mono; [by apply keeps_upgrade|]. intros h s1 Ho1. stop_step. destruct h as [h|]; [|by stop_step].
  eapply wps_mono; [|intros g s'; by apply (onward_trans s s1)].
  assert (Forall (λ e, filed s1 (leaf_data_crc leaf) (sd_leaf e)) root) as Hroot1.
  { eapply Forall_impl; [exact Hroot|]. intros x. by apply filed_onward. }
  pose proof (filed_onward _ _ _ _ Ho1 Hl) as Hl1. pose proof (filed_onward _ _ _ _ Ho1 Hd) as Hd1.
  destruct (sha_find h root) as [e|] eqn:Hf.
  { apply keeps_found; try done; [by auto|]. eapply filed_onward; [done|]. by eapply Hfind. }
  apply keeps_then; [apply keeps_set_entry; [by auto|]; split; [done|by apply sha_insert_filed]|]. intros _ s2 Ho2.
  apply keeps_then; [by auto|]. by auto.
Qed.

Lemma count_entry_filed s leaf h crc de : ent_filed s crc de -> ent_filed s crc (count_entry leaf h de).
Proof.
  intros [Hd Hu]. split; [done|]. unfold count_entry. cbn. destruct (de_u de) as [b n|root], h as [h|]; try done. by apply sha_update_filed.
Qed.

Lemma keeps_finish leaf flags g s : safe s -> seen s leaf -> keeps (finish_elm leaf flags g) s.
Proof.
  intros Hs Hl. assert (forall h, keeps (modify (λ s : dedup K, set_dedup_tree (alter (count_entry leaf h) (leaf_data_crc leaf) (dedup_tree s)) s);; mret 1) s) as Hc.
  { intros h. apply keeps_then; [|by auto]. stop_step. apply onward_update; cbn; try done; [|by destruct Hs].
    intros k a. rewrite lookup_alter_Some. intros [(<- & de & Hde & ->)|[_ Hk]]; [apply count_entry_filed|]; by apply Hs. }
  assert (keeps (terminate_early leaf) s) as He by (apply keeps_then; [by apply keeps_same|by auto]).
  destruct g as [|h| |]; cbn [finish_elm]; [apply Hc|apply Hc| |done]. case_bool_decide; [|done]. apply keeps_then; [|by auto].
  stop_step. apply onward_update; cbn; try done; [by destruct Hs|]. apply Forall_app_2; [by destruct Hs|by constructor].
Qed.

Lemma keeps_drop_high fuel : forall s : dedup K, safe s -> keeps (drop_high fuel) s.
Proof.
  induction fuel as [|fuel IH]; intros s Hs; [by apply HE|]. cbn [drop_high]. do 2 stop_step. destruct (rb_max (dedup_tree s)) as [[crc de]|]; [|by auto].
  case_bool_decide; [by auto|]. apply keeps_then; [|intros _ s1 Ho1; apply IH; by auto]. stop_step.
  apply onward_update; cbn; try done; [|by destruct Hs]. by apply map_Forall_delete, Hs.
Qed.

Lemma keeps_reduce fuel : forall s : dedup K, safe s -> keeps (reduce_memory MemoryLimit fuel) s.
Proof.
  induction fuel as [|fuel IH]; intros s Hs; [by apply HE|]. cbn [reduce_memory]. do 2 stop_step. case_bool_decide; [|by auto].
  apply keeps_then; [by apply keeps_same|]. intros _ s1 Ho1. apply keeps_then; [apply keeps_drop_high; by auto|]. intros _ s2 Ho2. apply IH. by auto.
Qed.

Lemma keeps_process tfuel leaf flags s : safe s -> seen s leaf -> keeps (process_btree_elm kern MemoryLimit temp_hash tfuel leaf flags) s.
Proof.
  intros Hs Hl. apply keeps_then; [by apply keeps_reduce|]. intros _ s1 Ho1. do 2 stop_step.
  assert (filed s1 (leaf_data_crc leaf) leaf) as Hl1 by (eapply filed_onward; [done|by split]). assert (safe s1) as Hs1 by auto.
  apply keeps_then; [|intros g s2 Ho2; apply keeps_finish; [by auto|by apply Ho2, Hl1]].
  destruct (dedup_tree s1 !! leaf_data_crc leaf) as [de|] eqn:Hde.
  - pose proof (sf_tree _ Hs1 _ _ Hde) as Hf. destruct (de_u de) as [b r|root] eqn:Hu; [by apply keeps_process_crc|by apply keeps_process_fict].
  - apply keeps_then; [by apply keeps_set_entry|]. intros _ s2 Ho2. apply keeps_then; [by auto|]. by auto.
Qed.

(** ** The scan *)

Section scan.
Context (func : leaf_t -> Z -> prog (dedup K) Z) (Hfunc : forall l s, safe s -> seen s l -> keeps (func l 0) s).

Lemma keeps_record l s : safe s -> keeps (scan_record func l) s.
Proof.
  intros Hs. destruct (is_data l) eqn:Hd; [|unfold wps; rewrite scan_record_other by done; by apply onward_refl].
  eapply wps_eq; [by apply scan_record_data|]. apply keeps_then; [by apply keeps_same|]. intros _ s1 Ho1. do 2 stop_step.
  apply wps_when; intros _; [|by apply onward_refl; auto]. unfold log. do 2 stop_step. set (s2 := set_dd_log _ s1).
  assert (onward s1 s2) as Ho2.
  { apply (onward_log s1 _ [Seen l]); try done; [by auto|by intros p q [=]%list_elem_of_singleton|]. by intros l' [= ->]%list_elem_of_singleton. }
  eapply wps_mono; [|intros r s'; by apply (onward_trans s1 s2)]. apply keeps_then; [|by auto]. apply Hfunc; [by auto|].
  unfold seen. cbn. apply elem_of_app. right. by left.
Qed.

Lemma keeps_buffer fuel : forall buf count offset s, safe s -> keeps (scan_buffer fuel func buf count offset) s.
Proof.
  induction fuel as [|fuel IH]; intros buf count offset s Hs; [by apply HE|]. cbn [scan_buffer]. case_bool_decide; [|by auto].
  destruct (_ && _); [|by auto]. do 2 (case_bool_decide; [by auto|]). apply keeps_then; [by auto|]. intros _ s1 Ho1.
  apply keeps_then; [case_bool_decide; [apply keeps_record; by auto|by auto]|]. intros _ s2 Ho2. apply IH. by auto.
Qed.

Lemma keeps_pages path fuel : forall key s, safe s -> keeps (scan_pages kern sync_beg_tid fuel path func key) s.
Proof.
  induction fuel as [|fuel IH]; intros key s Hs; [by apply HE|]. cbn [scan_pages]. apply keeps_then; [by auto|].
  intros [|[] buf count cur] s1 Ho1; [by auto|by auto|]. apply keeps_then; [destruct (bool_decide _); [apply keeps_buffer|apply keeps_ret]; by auto|].
  intros _ s2 Ho2. apply keeps_then; [by auto|]. intros [] s3 Ho3.
  - apply keeps_then; [destruct path; [apply keeps_same|apply keeps_ret]; by auto|]. by auto.
  - case_bool_decide; [by auto|]. apply IH. by auto.
Qed.

Lemma keeps_pfs fuel path s : safe s -> keeps (scan_pfs kern sync_beg_tid fuel path func) s.
Proof.
  intros Hs. apply keeps_then; [by apply keeps_same|]. intros _ s1 Ho1. apply keeps_then; [|intros key s2 Ho2; apply keeps_pages; by auto].
  unfold hammer_get_cycle. do 2 stop_step. destruct (if path then _ else _) as [file|]; [|by auto]. case_bool_decide; [|by auto].
  apply keeps_then; [apply keeps_same; [by auto|done]|by auto].
Qed.
End scan.

(** ** The command *)

Lemma keeps_pass2 fuel tfuel : forall s, safe s -> keeps (pass2_loop kern MemoryLimit temp_hash fuel tfuel) s.
Proof.
  induction fuel as [|fuel IH]; intros s Hs; [by apply HE|]. cbn [pass2_loop]. do 2 stop_step. destruct (pass2_dedup_queue s) as [|l q] eqn:Hq; [by auto|].
  assert (seen s l) as Hl by (pose proof (sf_queue _ Hs) as H; rewrite Hq in H; by apply Forall_cons in H as [? _]).
  apply keeps_then; [by apply keeps_process|]. intros r s1 Ho1.
  apply keeps_then; [destruct (bool_decide _); [apply keeps_same|apply keeps_ret]; by auto|]. intros _ s2 Ho2.
  apply keeps_then; [|intros _ s3 Ho3; apply IH; by auto]. assert (safe s2) as Hs2 by auto. stop_step. apply onward_update; cbn; try done; [apply Hs2|].
  pose proof (sf_queue _ Hs2) as H. destruct (pass2_dedup_queue s2); [done|]. by apply Forall_cons in H as [_ ?].
Qed.

Lemma keeps_tally b n s : safe s -> keeps (tally b n) s.
Proof. intros Hs. apply keeps_then; [by auto|]. intros _ s1 Ho1. apply keeps_same; [by auto|done]. Qed.

Lemma keeps_tally_sha root : forall s, safe s -> keeps (tally_sha root) s.
Proof.
  induction root as [|e root IH]; intros s Hs; cbn [tally_sha]; [by auto|]. apply keeps_then; [by apply keeps_tally|]. intros _ s1 Ho1. apply IH. by auto.
Qed.

Lemma keeps_tally_tree es : forall s, safe s -> keeps (tally_tree es) s.
Proof.
  induction es as [|[crc de] es IH]; intros s Hs; cbn [tally_tree]; [by auto|].
  apply keeps_then; [destruct (de_u de); [by apply keeps_tally|by apply keeps_tally_sha]|]. intros _ s1 Ho1.
  assert (safe s1) as Hs1 by auto. apply keeps_then; [|intros _ s2 Ho2; apply IH; by auto]. stop_step.
  apply onward_update; cbn; try done; [|by destruct Hs1]. by apply map_Forall_delete, Hs1.
Qed.

Lemma keeps_dedup_pass fuel tfuel s : safe s -> keeps (dedup_pass kern MemoryLimit sync_beg_tid temp_hash fuel tfuel) s.
Proof.
  intros Hs. apply keeps_then; [by apply keeps_same|]. intros _ s1 Ho1.
  apply keeps_then; [apply keeps_pfs; [intros; by apply keeps_process|by auto]|]. intros _ s2 Ho2. do 2 stop_step.
  apply keeps_then; [apply keeps_pass2; by auto|]. intros _ s3 Ho3. do 2 stop_step. apply keeps_then; [by auto|]. intros _ s4 Ho4.
  apply keeps_then; [apply keeps_tally_tree; by auto|]. intros _ s5 Ho5. do 2 stop_step. apply keeps_then; [by auto|]. by auto.
Qed.

Lemma keeps_passes passes fuel tfuel : forall s, safe s -> keeps (dedup_passes kern MemoryLimit sync_beg_tid temp_hash passes fuel tfuel) s.
Proof.
  induction passes as [|passes IH]; intros s Hs; [by apply HE|]. cbn [dedup_passes]. apply keeps_then; [by apply keeps_dedup_pass|].
  intros [] s1 Ho1; [apply IH|]; by auto.
Qed.

Lemma keeps_cmd passes fuel tfuel s : safe s -> keeps (hammer_cmd_dedup kern MemoryLimit sync_beg_tid temp_hash passes fuel tfuel) s.
Proof.
  intros Hs. apply keeps_then; [stop_step; apply onward_update; cbn; try done; apply Hs|]. intros _ s1 Ho1.
  apply keeps_then; [apply keeps_pfs; [intros; by apply keeps_ret|by auto]|]. intros _ s2 Ho2.
  apply keeps_then; [apply keeps_same; [by auto|done]|]. intros _ s3 Ho3. apply keeps_then; [apply keeps_passes; by auto|].
  intros _ s4 Ho4. apply keeps_same; [by auto|done].
Qed.

Lemma safe_init k file : safe (dedup_init k file).
Proof. split; try done; [by intros p q ?%elem_of_nil|by intros l ?%elem_of_nil]. Qed.
End safe.

(** ** The CRCs of the tree *)

Section low.
Context {K : Type} (kern : kernel K) (MemoryLimit : Z) (temp_hash : bytes) (c : Z).

(** The tree has no CRC below [c], and this stays so. *)
Definition tree_from (s : dedup K) : Prop := map_Forall (λ crc _, c <= crc) (dedup_tree s).
Definition low {A} (m : prog (dedup K) A) : Prop := forall s, tree_from s -> wps m s (λ _, True) (λ _, tree_from).

Lemma low_bind {A B} (m : prog (dedup K) A) (k : A -> prog (dedup K) B) : low m -> (forall a, low (k a)) -> low (m ≫= k).
Proof. intros Hm Hk s Hs. stop_step. eapply wps_mono; [by apply Hm|]. intros a s1 H1. by apply Hk. Qed.
Lemma low_ret {A} (a : A) : low (mret a).
Proof. by intros s Hs. Qed.
Lemma low_stop {A} e : low (stop_with e : prog (dedup K) A).
Proof. done. Qed.
Lemma low_get : low get_state.
Proof. by intros s Hs. Qed.
Lemma low_ioctl {A} (f : K -> A * K) : low (ioctl f).
Proof. by intros s Hs. Qed.
Lemma low_deref {A} (o : option A) : low (deref o).
Proof. destruct o; [apply low_ret|apply low_stop]. Qed.
Lemma low_modify f : (forall s, tree_from s -> tree_from (f s)) -> low (modify f).
Proof. intros Hf s Hs. stop_step. by apply Hf. Qed.
Lemma low_set_entry crc de : c <= crc -> low (set_entry crc de).
Proof. intros Hc. apply low_modify. intros s Hs. by apply map_Forall_insert_2. Qed.

(** The steps of a program that leaves the tree alone, or changes it at the CRC of a record. *)
Ltac low :=
  repeat first [done
    | progress cbn [fst snd]
    | match goal with |- low (_ ≫= _) => apply low_bind; [|intros ?] end
    | apply low_ret | apply low_stop | apply low_get | apply low_ioctl | apply low_deref
    | apply low_set_entry; done
    | apply low_modify; intros ? ?; done
    | match goal with
      | |- low (match ?x with _ => _ end) => destruct x
      | |- low ((match ?x with _ => _ end) ≫= _) => destruct x
      end].

Lemma low_upgrade leaf h : low (upgrade_chksum kern leaf h).
Proof. unfold upgrade_chksum. low. Qed.
Lemma low_deduplicate p q : low (deduplicate kern p q).
Proof. unfold deduplicate, log, watched. low. Qed.

Lemma low_process_fict leaf de root : c <= leaf_data_crc leaf -> low (process_fict kern temp_hash leaf de root).
Proof. intros Hl. unfold process_fict, sha256_failure, underflow, use_memory. low; first [apply low_upgrade | apply low_deduplicate | low]. Qed.

Lemma low_crc_failure leaf de b r : c <= leaf_data_crc leaf -> low (crc_failure kern temp_hash leaf de b r).
Proof. intros Hl. unfold crc_failure, sha256_failure, use_memory. low; apply low_upgrade. Qed.

Lemma low_process_crc leaf de b r : c <= leaf_data_crc leaf -> low (process_crc kern temp_hash leaf de b r).
Proof. intros Hl. unfold process_crc, underflow. low; first [by apply low_crc_failure | apply low_deduplicate]. Qed.

Lemma low_finish leaf flags g : low (finish_elm leaf flags g).
Proof.
  assert (forall h, low (modify (λ s : dedup K, set_dedup_tree (alter (count_entry leaf h) (leaf_data_crc leaf) (dedup_tree s)) s))) as Ha.
  { intros h. apply low_modify. intros s Hs k a. cbn. rewrite lookup_alter_Some. intros [(<- & de & Hde & _)|[_ Hk]]; by eapply Hs. }
  unfold finish_elm, terminate_early. low; apply Ha.
Qed.

Lemma low_drop_high fuel : low (drop_high fuel : prog (dedup K) ()).
Proof.
  induction fuel as [|fuel IH]; cbn [drop_high]; low. apply low_modify. intros s Hs. by apply map_Forall_delete.
Qed.
Lemma low_reduce fuel : low (reduce_memory MemoryLimit fuel : prog (dedup K) ()).
Proof. induction fuel as [|fuel IH]; cbn [reduce_memory]; low. apply low_drop_high. Qed.

Lemma low_process tfuel leaf flags : c <= leaf_data_crc leaf -> low (process_btree_elm kern MemoryLimit temp_hash tfuel leaf flags).
Proof.
  intros Hl. unfold process_btree_elm, use_memory. low; first [apply low_reduce | apply low_finish | by apply low_process_fict | by apply low_process_crc].
Qed.
End low.
