(* ===== verification/DedupSim.v ===== *)
(** * DedupSim: hammer dedup-simulate

    The totals of a simulation whose memory suffices, against a definition that groups the
    records by their CRC. *)

From S2P Require Import Prelude CMonad WpStop HammerDisk Layout HammerCrc Sha2 Mirror Cycle Dedup DedupInv DedupRun.

#[local] Opaque Z.to_nat.

(** ** The reference *)

(** The records with one CRC. *)
Definition group (crc : Z) (ls : list leaf_t) : list leaf_t := List.filter (λ l, bool_decide (leaf_data_crc l = crc)) ls.
Definition crcs (ls : list leaf_t) : list Z := remove_dups (leaf_data_crc <$> ls).
(** What a group needs when it is stored once: the mean size of its records. *)
Definition mean_size (ls : list leaf_t) : Z := lsum data_len ls / Z.of_nat (length ls).
Definition simulated_alloc (ls : list leaf_t) : Z := lsum (λ crc, mean_size (group crc ls)) (crcs ls).

Lemma group_app crc ls1 ls2 : group crc (ls1 ++ ls2) = group crc ls1 ++ group crc ls2.
Proof. apply List.filter_app. Qed.

Lemma group_nil crc ls : group crc ls = [] <-> crc ∉ leaf_data_crc <$> ls.
Proof.
  induction ls as [|l ls IH]; cbn; [split; [by intros _ ?%elem_of_nil|done]|]. fold (group crc ls). rewrite not_elem_of_cons.
  case_bool_decide as Hc; [split; [done|]; intros [H _]; by subst|]. rewrite IH. naive_solver.
Qed.

Lemma lsum_perm {A} (f : A -> Z) l1 l2 : l1 ≡ₚ l2 -> lsum f l1 = lsum f l2.
Proof. unfold lsum. induction 1; cbn; lia. Qed.

Lemma lsum_group crc ls : Forall leaf_ok ls -> 0 <= lsum data_len (group crc ls) <= 65536 * Z.of_nat (length (group crc ls)) /\ (length (group crc ls) <= length ls)%nat.
Proof.
  induction 1 as [|l ls [Hl1 Hl2] _ IH]; [done|]. unfold lsum, group in *. cbn. case_bool_decide; cbn; lia.
Qed.

Lemma lsum_len ls : Forall leaf_ok ls -> 0 <= lsum data_len ls <= 65536 * Z.of_nat (length ls).
Proof. induction 1 as [|l ls [Hl1 Hl2] _ IH]; [done|]. unfold lsum in *. cbn [foldr length]. lia. Qed.

(** The tree of the records that were seen. *)
Definition grouped (ls : list leaf_t) (t : gmap Z sim_dedup_entry) : Prop :=
  forall crc, t !! crc = match group crc ls with
    | [] => None
    | g => Some {| sim_ref_blks := Z.of_nat (length g); sim_ref_size := lsum data_len g |}
    end.

Lemma grouped_step ls l t :
  grouped ls t ->
  let e := default {| sim_ref_blks := 0; sim_ref_size := 0 |} (t !! leaf_data_crc l) in
  grouped (ls ++ [l]) (<[leaf_data_crc l := {| sim_ref_blks := sim_ref_blks e + 1; sim_ref_size := sim_ref_size e + data_len l |}]> t).
Proof.
  intros Ht e crc. rewrite group_app. unfold group at 2. cbn [List.filter]. case_bool_decide as Hc.
  - subst crc. rewrite lookup_insert_eq. unfold e. rewrite Ht. destruct (group (leaf_data_crc l) ls) as [|x g]; cbn.
    + unfold lsum. cbn. by rewrite Z.add_0_r.
    + f_equal. f_equal; [rewrite length_app; cbn; lia|]. change (x :: g ++ [l]) with ((x :: g) ++ [l]). rewrite lsum_app. unfold lsum at 3. cbn. by rewrite Z.add_0_r.
  - rewrite lookup_insert_ne by done. by rewrite app_nil_r, Ht.
Qed.

Lemma grouped_crcs ls t : grouped ls t -> (map_to_list t).*1 ≡ₚ crcs ls.
Proof.
  intros Ht. apply NoDup_Permutation; [apply NoDup_fst_map_to_list|apply NoDup_remove_dups|]. intros crc. unfold crcs. rewrite elem_of_remove_dups.
  rewrite list_elem_of_fmap. split.
  - intros ([c e] & -> & He%elem_of_map_to_list). apply dec_stable. intros Hg%group_nil. cbn in *. by rewrite Ht, Hg in He.
  - intros Hin. specialize (Ht crc). destruct (group crc ls) as [|x g] eqn:Hg; [by apply group_nil in Hg|].
    eexists (crc, _). split; [done|]. by apply elem_of_map_to_list.
Qed.

(** The two sums over the tree. *)
Lemma grouped_alloc ls t : grouped ls t -> lsum (λ p, sim_ref_size (snd p) / sim_ref_blks (snd p)) (map_to_list t) = simulated_alloc ls.
Proof.
  intros Ht. unfold simulated_alloc. rewrite <- (lsum_perm _ _ _ (grouped_crcs _ _ Ht)).
  assert (forall l, (forall p, p ∈ l -> t !! fst p = Some (snd p)) ->
    lsum (λ p, sim_ref_size (snd p) / sim_ref_blks (snd p)) l = lsum (λ crc, mean_size (group crc ls)) l.*1) as H.
  { induction l as [|[c e] l IH]; intros Hl; [done|]. unfold lsum in *. cbn. rewrite IH by (intros p Hp; apply Hl; by right). f_equal.
    pose proof (Hl (c, e) ltac:(left)) as He. cbn in He. rewrite Ht in He. unfold mean_size. destruct (group c ls); [done|]. by injection He as <-. }
  apply H. intros [c e] He. by apply elem_of_map_to_list.
Qed.

(** ** The run *)

Section sim.
Context {K : Type} (kern : kernel K) (MemoryLimit sync_beg_tid : Z) (E : stop -> Prop).

Lemma sim_tally_spec es : forall s : dedup K,
  Forall (λ p, 1 <= sim_ref_blks (snd p) /\ 0 <= sim_ref_size (snd p)) es -> NoDup es.*1 -> sim_dedup_tree s = list_to_map es ->
  0 <= dedup_alloc_size s <= dedup_ref_size s -> dedup_ref_size s + lsum (sim_ref_size ∘ snd) es < 2 ^ 64 ->
  wps (sim_tally es) s E (λ _ s', s' = set_dedup_alloc_size (dedup_alloc_size s + lsum (λ p, sim_ref_size (snd p) / sim_ref_blks (snd p)) es)
    (set_dedup_ref_size (dedup_ref_size s + lsum (sim_ref_size ∘ snd) es) (set_sim_dedup_tree ∅ s))).
Proof.
  induction es as [|[crc e] es IH]; intros s Hok Hnd Ht Ha Hr; cbn [sim_tally].
  { stop_step. unfold lsum. cbn. rewrite !Z.add_0_r. cbn in Ht. rewrite <- Ht. by destruct s. }
  apply Forall_cons in Hok as [[Hb Hz] Hok]. cbn in Hb, Hz. apply NoDup_cons in Hnd as [Hnin Hnd]. cbn in Hnin.
  assert (0 <= lsum (sim_ref_size ∘ snd) es) as Hp by (apply lsum_nonneg; eapply Forall_impl; [exact Hok|]; by intros p [_ ?]).
  assert (forall f : Z * sim_dedup_entry -> Z, lsum f ((crc, e) :: es) = f (crc, e) + lsum f es) as Hc by done. rewrite !Hc in *. cbn [snd compose] in *.
  assert (0 <= sim_ref_size e / sim_ref_blks e <= sim_ref_size e) as Hq by (split; [apply Z.div_pos; lia|apply Z.div_le_upper_bound; nia]).
  stop_step. unfold tally. stop_step. apply wps_assertp; [apply bool_decide_eq_true; lia|]. stop_step. do 2 stop_step.
  cbn [dedup_alloc_size dedup_ref_size set_dedup_ref_size]. rewrite !u64_small_add by lia.
  eapply wps_mono; [apply IH; cbn; try done; try lia|].
  - rewrite Ht. cbn. apply delete_insert_id. by apply not_elem_of_list_to_map_1.
  - intros _ s' ->. cbn. by rewrite !Z.add_assoc.
Qed.

Context (all : list leaf_t) (Hall : Forall leaf_ok (data_records all)).
Context (HN : Z.of_nat (length (data_records all)) < 2 ^ 46) (Hmem : 56 * Z.of_nat (length (data_records all)) <= MemoryLimit).

Record collected (past : list leaf_t) (s : dedup K) : Prop := {
  cl_tree : grouped (data_records past) (sim_dedup_tree s);
  cl_sum : msum sim_ref_size (sim_dedup_tree s) = lsum data_len (data_records past);
  cl_mem : 0 <= MemoryUse s <= 56 * Z.of_nat (length (data_records past));
  cl_start : DedupCrcStart s = 0;
  cl_end : DedupCrcEnd s = 0;
  cl_ref : dedup_ref_size s = 0;
  cl_alloc : dedup_alloc_size s = 0;
}.

Lemma collected_step past l rest s :
  all = past ++ l :: rest -> collected past s -> wps (scan_record (collect_btree_elm MemoryLimit) l) s E (λ _, collected (past ++ [l])).
Proof.
  intros Hsp Hcl. destruct (is_data l) eqn:Hd.
  2: { unfold wps. rewrite scan_record_other by done. destruct Hcl as []. by split; rewrite ?data_app, ?data_one, ?Hd, ?app_nil_r. }
  assert (data_records all = data_records past ++ l :: data_records rest) as Hda by (rewrite Hsp, data_app; cbn; by rewrite Hd).
  rewrite Hda in Hall, HN, Hmem. rewrite length_app in HN, Hmem. cbn [length] in HN, Hmem.
  apply Forall_app in Hall as [Hpast [[Hl1 Hl2] _]%Forall_cons].
  eapply wps_eq; [by apply scan_record_data|]. destruct Hcl as [Ht Hsum Hm Hs He Hr Ha]. do 4 stop_step.
  apply wps_when; [intros _|unfold in_range; cbn [DedupCrcStart DedupCrcEnd set_DedupCurrentRecords]; rewrite Hs, He; done].
  unfold log. do 3 stop_step. unfold collect_btree_elm. do 3 stop_step.
  apply wps_when; [intros Hx%bool_decide_eq_true; cbn in Hx; lia|intros _]. do 3 stop_step. cbn [sim_dedup_tree set_dd_log set_DedupCurrentRecords].
  destruct (lsum_group (leaf_data_crc l) (data_records past) Hpast) as [Hg1 Hg2].
  pose proof (grouped_step _ l _ Ht) as Hnew. pose proof (Ht (leaf_data_crc l)) as Hlk. cbv zeta in Hnew.
  destruct (sim_dedup_tree s !! leaf_data_crc l) as [e|] eqn:Hle; cbn [default from_option id] in Hnew.
  - apply wps_when; [by intros Hx%bool_decide_eq_true|intros _]. do 2 stop_step. stop_step. stop_step. 
    rewrite (alter_some _ _ _ e) by done. destruct (group (leaf_data_crc l) (data_records past)) as [|x g]; [done|]. injection Hlk as ->.
    cbn [sim_ref_blks sim_ref_size length] in *. rewrite !u64_small_add by lia. split; cbn [sim_dedup_tree set_sim_dedup_tree]; rewrite ?data_app, ?data_one, ?Hd; try done.
    + rewrite (msum_update _ _ _ _ _ Hle), lsum_app, Hsum. unfold lsum at 5. cbn. lia.
    + cbn. rewrite length_app. cbn. lia.
  - apply wps_when; [intros _|by intros Hx%bool_decide_eq_false]. do 2 stop_step. unfold use_memory. repeat stop_step.
    cbn [sim_dedup_tree set_sim_dedup_tree set_MemoryUse MemoryUse set_dd_log set_DedupCurrentRecords].
    rewrite (alter_some _ _ _ {| sim_ref_blks := 0; sim_ref_size := 0 |}) by apply lookup_insert_eq. rewrite insert_insert_eq.
    cbn [sim_ref_blks sim_ref_size]. rewrite !u64_small_add by (unfold sizeof_sim_dedup_entry; lia).
    split; cbn [sim_dedup_tree set_sim_dedup_tree]; rewrite ?data_app, ?data_one, ?Hd; try done.
    + rewrite msum_insert by done. rewrite lsum_app, Hsum. unfold lsum at 3. cbn. lia.
    + cbn. rewrite length_app. cbn. unfold sizeof_sim_dedup_entry. lia.
Qed.

(** One pass is enough, and its totals are those of the reference. *)
Lemma simulate_spec path pages fuel passes s :
  undisturbed kern -> lists kern (start_key path (cycle_file s)) pages all -> (length pages <= fuel)%nat -> (1 <= passes)%nat ->
  sim_dedup_tree s = ∅ -> DedupCrcEnd s = 0 -> dedup_ref_size s = 0 -> dedup_alloc_size s = 0 ->
  wps (hammer_cmd_dedup_simulate kern MemoryLimit sync_beg_tid passes fuel path) s E
    (λ _ s', dedup_ref_size s' = lsum data_len (data_records all) /\ dedup_alloc_size s' = simulated_alloc (data_records all) /\ sim_dedup_tree s' = ∅).
Proof.
  intros Hu Hl Hf Hp Ht He Hr Ha. destruct passes as [|passes]; [lia|]. cbn [hammer_cmd_dedup_simulate]. do 3 stop_step. eapply wps_mono.
  { apply (scan_pfs_spec kern sync_beg_tid E _ all collected) with (pages := pages); try done.
    - by intros past s1 k []; split.
    - intros past l rest s1 Hsp Hc. by eapply collected_step.
    - intros c _. split; cbn; rewrite ?Ht, ?He, ?Hr, ?Ha; try done. }
  intros _ s1 [Ht1 Hsum Hm Hs1 He1 Hr1 Ha1]. do 3 stop_step. eapply wps_mono; [apply sim_tally_spec|].
  - apply Forall_forall. intros [crc e] He2%elem_of_map_to_list. rewrite Ht1 in He2. cbn. destruct (lsum_group crc _ Hall) as [[Hg _] _].
    destruct (group crc (data_records all)) as [|x g]; [done|]. injection He2 as <-. cbn [sim_ref_blks sim_ref_size length]. lia.
  - apply NoDup_fst_map_to_list.
  - by rewrite list_to_map_to_list.
  - lia.
  - rewrite Hr1, lsum_to_list, Hsum. pose proof (lsum_len _ Hall). lia.
  - intros _ s' ->. do 2 stop_step. cbn [DedupCrcEnd set_dedup_alloc_size set_dedup_ref_size set_sim_dedup_tree]. rewrite He1, bool_decide_false by (intros Hx; by apply Hx). stop_step. cbn. rewrite Hr1, Ha1, (grouped_alloc _ _ Ht1).
    by rewrite lsum_to_list.
Qed.
End sim.
