(* ===== verification/DedupProps.v ===== *)
(** * DedupProps: the theorems about hammer dedup and dedup-simulate *)

From S2P Require Import Prelude CMonad WpStop HammerDisk Layout HammerCrc Sha2 Mirror Cycle Dedup DedupInv DedupRun DedupSafe DedupSim.

#[local] Opaque Z.to_nat SHA256_Init SHA256_Update SHA256_Final.

(** ** A small file system *)

Definition demo_base (obj : Z) : hammer_base_elm :=
  {| be_obj_id := obj; be_key := 0; be_create_tid := 1; be_delete_tid := 0; be_rec_type := HAMMER_RECTYPE_DATA; be_obj_type := 2;
     be_btype := HAMMER_BTREE_TYPE_RECORD; be_localization := 0 |}.
Definition demo_leaf (obj off len crc : Z) : leaf_t :=
  {| leaf_base := demo_base obj; leaf_create_ts := 0; leaf_delete_ts := 0; leaf_data_offset := off; leaf_data_len := len; leaf_data_crc := crc |}.
(** Two equal blocks, one whose CRC collides and two whose CRC is in the upper half. *)
Definition leaf1 : leaf_t := demo_leaf 1 0xA000000000000000 100 7.
Definition leaf2 : leaf_t := demo_leaf 2 0xA000000000001000 100 7.
Definition leaf3 : leaf_t := demo_leaf 3 0xA000000000002000 50 7.
Definition leaf4 : leaf_t := demo_leaf 4 0xA000000000003000 60 0xF0000000.
Definition leaf5 : leaf_t := demo_leaf 5 0xA000000000004000 70 0x90000000.
Definition demo_leaves : list leaf_t := [leaf1; leaf2; leaf3; leaf4].
Definition high_leaves : list leaf_t := [leaf1; leaf5; leaf4].

Definition demo_record (l : leaf_t) : bytes :=
  encode {| mh_signature := HAMMER_IOC_MIRROR_SIGNATURE; mh_rec_crc := 0; mh_rec_size := 80; mh_type := HAMMER_MREC_TYPE_REC_NODATA |} ++ encode l.
Definition demo_buf : bytes := Eval vm_compute in concat (map demo_record demo_leaves).

Definition high_buf : bytes := Eval vm_compute in concat (map demo_record high_leaves).

(** One page of records; data cannot be read. *)
Definition demo_kernel (buf : bytes) (count : Z) : kernel () := {|
  k_mirror_read key k := (if bool_decide (be_obj_id key = 2 ^ 63) then MirrorRead false buf count (demo_base 6) else MirrorRead false [] 0 (demo_base 6), k);
  k_dedup _ _ k := (inl 0, k);
  k_get_data _ k := (None, k);
  k_interrupted k := (false, k);
  k_watch _ := true;
|}.
Definition demo_dedup (buf : bytes) (count limit : Z) : res (dedup ()) () :=
  hammer_cmd_dedup (demo_kernel buf count) limit 1 (replicate 32 0) 3 5 34 (dedup_init () None).

Example demo_run : match demo_dedup demo_buf 320 4000 with
  | Ok _ s => (dedup_ref_size s, dedup_alloc_size s, dedup_skipped_size s, dedup_successes_count s, dedup_crc_failures s, DedupTotalRecords s)
              = (310, 210, 50, 1, 2, 4) | _ => False end.
Proof. vm_compute. reflexivity. Qed.

(** With less memory there are two passes over 230 bytes, and the 60 bytes of [leaf4] are
    counted in both. *)
Example demo_run_short : match demo_dedup high_buf 240 130 with Ok _ s => (dedup_ref_size s, dedup_alloc_size s) | _ => (0, 0) end = (290, 290).
Proof. vm_compute. reflexivity. Qed.

(** ** The claims *)

(** C20: a run of hammer dedup whose memory suffices (576 bytes for every data record) and
    that is not interrupted makes one pass and succeeds, whatever the kernel answers to the
    dedup and data requests, unless the file system is too old: the referenced size is the
    sum of the sizes of the data records that the scan listed from the key of the cycle
    file on, with every record counted once, including those that were tried again in
    pass 2; the allocated size is not larger; both trees and the queue are empty, the
    number of records was counted in the pre-pass, and the cycle file is gone. *)
Theorem dedup_accounts {K} (kern : kernel K) (MemoryLimit sync_beg_tid : Z) (temp_hash : bytes) (passes fuel tfuel : nat)
    (k : K) (file : option bytes) (pages : list page) (ls : list leaf_t) :
  kernel_ok kern -> undisturbed kern -> lists kern (start_key true file) pages ls -> Forall leaf_ok (data_records ls) ->
  576 * Z.of_nat (length (data_records ls)) <= MemoryLimit -> Z.of_nat (length (data_records ls)) < 2 ^ 46 ->
  (length pages <= fuel)%nat -> (1 <= passes)%nat -> (1 <= tfuel)%nat ->
  (exists s, hammer_cmd_dedup kern MemoryLimit sync_beg_tid temp_hash passes fuel tfuel (dedup_init k file) = Ok () s /\
     dedup_ref_size s = lsum data_len (data_records ls) /\ 0 <= dedup_alloc_size s <= dedup_ref_size s /\
     dedup_tree s = ∅ /\ pass2_dedup_queue s = [] /\ DedupTotalRecords s = Z.of_nat (length (data_records ls)) /\ cycle_file s = None) \/
  (too_old kern /\ hammer_cmd_dedup kern MemoryLimit sync_beg_tid temp_hash passes fuel tfuel (dedup_init k file) = Stop (Exit 1)).
Proof.
  intros Hk Hu Hl Hok Hm HN Hf Hp Ht.
  assert (wps (hammer_cmd_dedup kern MemoryLimit sync_beg_tid temp_hash passes fuel tfuel) (dedup_init k file) (λ e, too_old kern /\ e = Exit 1)
    (λ _ s, accounted (Z.of_nat (length (data_records ls))) ls s /\ cycle_file s = None)) as Hrun.
  { by eapply (hammer_cmd_dedup_spec kern) with (pages := pages) (key := start_key true file). }
  unfold wps in Hrun. destruct (hammer_cmd_dedup _ _ _ _ _ _ _ _) as [[] s|e]; [|right; by destruct Hrun as [? ->]].
  left. exists s. destruct Hrun as [[] Hc]. done.
Qed.

Lemma demo_lists : lists (demo_kernel demo_buf 320) (start_key true None) [(demo_buf, 320, demo_base 6); ([], 0, demo_base 6)] demo_leaves.
Proof.
  rewrite <- (app_nil_r demo_leaves). apply (Lists_page _ _ demo_buf 320 (demo_base 6) _ demo_leaves []).
  - intros k. vm_compute. reflexivity.
  - reflexivity.
  - vm_compute. reflexivity.
  - apply Lists_end. intros k. vm_compute. reflexivity.
Qed.

Lemma demo_leaves_ok : Forall leaf_ok (data_records demo_leaves).
Proof.
  replace (data_records demo_leaves) with demo_leaves by (vm_compute; reflexivity). unfold demo_leaves.
  repeat apply Forall_cons_2; [..|apply Forall_nil_2]; (split; [vm_compute; discriminate|vm_compute; discriminate]).
Qed.

(** The four records of the example. *)
Lemma dedup_accounts_witness :
  exists s, demo_dedup demo_buf 320 4000 = Ok () s /\ dedup_ref_size s = 310 /\ dedup_tree s = ∅ /\ DedupTotalRecords s = 4.
Proof.
  destruct (dedup_accounts (demo_kernel demo_buf 320) 4000 1 (replicate 32 0) 3 5 34 () None
    [(demo_buf, 320, demo_base 6); ([], 0, demo_base 6)] demo_leaves) as [(s & H1 & H2 & _ & H3 & _ & H4 & _)|[_ H]].
  - split; [intros base k leaf ubuf; discriminate|intros l; reflexivity].
  - intros k. reflexivity.
  - exact demo_lists.
  - exact demo_leaves_ok.
  - vm_compute. discriminate.
  - vm_compute. reflexivity.
  - apply Nat.leb_le. reflexivity.
  - apply Nat.leb_le. reflexivity.
  - apply Nat.leb_le. reflexivity.
  - exists s. split; [exact H1|]. split; [rewrite H2; vm_compute; reflexivity|]. split; [exact H3|]. rewrite H4. vm_compute. reflexivity.
  - exfalso. vm_compute in H. discriminate.
Defined.

(** The pairs of a log are candidates: two data records that a scan has handed to the
    callback before, with the same CRC, in the same zone, of the same length and with
    different offsets. *)
Definition candidate (l : list event) (e : event) : Prop :=
  match e with
  | Seen _ => True
  | Pair p q => (Seen p ∈ l /\ is_data p = true) /\ (Seen q ∈ l /\ is_data q = true) /\
      leaf_data_crc p = leaf_data_crc q /\ HAMMER_ZONE (leaf_data_offset p) = HAMMER_ZONE (leaf_data_offset q) /\
      leaf_data_len p = leaf_data_len q /\ leaf_data_offset p ≠ leaf_data_offset q
  end.
#[export] Instance hammer_base_elm_eq_dec : EqDecision hammer_base_elm.
Proof. solve_decision. Defined.
#[export] Instance leaf_eq_dec : EqDecision leaf_t.
Proof. solve_decision. Defined.
#[export] Instance event_eq_dec : EqDecision event.
Proof. solve_decision. Defined.
#[export] Instance candidate_dec l e : Decision (candidate l e).
Proof. destruct e; unfold candidate; apply _. Defined.

(** The kernel, with an observer who ends the run at a request for anything else. *)
Definition watch_candidates {K} (kern : kernel K) : kernel K :=
  {| k_mirror_read := k_mirror_read kern; k_dedup := k_dedup kern; k_get_data := k_get_data kern; k_interrupted := k_interrupted kern;
     k_watch l := bool_decide (Forall (candidate l) l) |}.

Lemma safe_candidates {K} (s : dedup K) : safe s -> Forall (candidate (dd_log s)) (dd_log s).
Proof.
  intros [_ _ Hp Hd]. apply Forall_forall. intros [l|p q] Hin; [done|]. destruct (Hp _ _ Hin) as (Hok & H1 & H2).
  split; [split; [done|by apply Hd]|]. split; [split; [done|by apply Hd]|]. done.
Qed.

(** C21: whatever the kernel answers and however short the memory is, hammer dedup asks the
    kernel to share only candidates: two data records that a scan of this run has handed to
    the callback, with the same CRC, in the same zone, of the same length and with different
    offsets.  This holds for every run, also one that ends by an exit (a failed or
    interrupted scan, a file system that is too old), an assertion or at any bound on its
    length: an observer who looks at every request never has to end the run; and when it
    returns, all requests in its log are of this kind. *)
Theorem dedup_pairs_are_candidates {K} (kern : kernel K) (MemoryLimit sync_beg_tid : Z) (temp_hash : bytes) (passes fuel tfuel : nat)
    (k : K) (file : option bytes) :
  hammer_cmd_dedup (watch_candidates kern) MemoryLimit sync_beg_tid temp_hash passes fuel tfuel (dedup_init k file) ≠ Stop Watched /\
  (forall s p q,
     hammer_cmd_dedup kern MemoryLimit sync_beg_tid temp_hash passes fuel tfuel (dedup_init k file) = Ok () s -> Pair p q ∈ dd_log s ->
     (Seen p ∈ dd_log s /\ is_data p = true) /\ (Seen q ∈ dd_log s /\ is_data q = true) /\
     leaf_data_crc p = leaf_data_crc q /\ HAMMER_ZONE (leaf_data_offset p) = HAMMER_ZONE (leaf_data_offset q) /\
     leaf_data_len p = leaf_data_len q /\ leaf_data_offset p ≠ leaf_data_offset q).
Proof.
  split.
  - pose proof (keeps_cmd (watch_candidates kern) MemoryLimit sync_beg_tid temp_hash (λ e, e ≠ Watched) (λ _ H, H)
      (or_intror (λ s Hs, bool_decide_eq_true_2 _ (safe_candidates s Hs))) passes fuel tfuel _ (safe_init k file)) as H.
    unfold wps in H. intros Hw. by rewrite Hw in H.
  - intros s p q Hrun Hpq. pose proof (keeps_cmd kern MemoryLimit sync_beg_tid temp_hash (λ _, True) (λ _ _, I) (or_introl I)
      passes fuel tfuel _ (safe_init k file)) as H.
    unfold wps in H. rewrite Hrun in H. destruct H as [Hs _]. pose proof (safe_candidates s Hs) as Hc. rewrite Forall_forall in Hc. exact (Hc _ Hpq).
Qed.

Definition demo_end : dedup () :=
  match demo_dedup demo_buf 320 4000 with Ok _ s => s | Stop _ => dedup_init () None end.

Lemma dedup_pairs_are_candidates_witness : Pair leaf1 leaf2 ∈ dd_log demo_end /\ leaf_data_crc leaf1 = leaf_data_crc leaf2.
Proof.
  assert (Pair leaf1 leaf2 ∈ dd_log demo_end) as H.
  { vm_compute. repeat (first [apply list_elem_of_here | apply list_elem_of_further]). }
  split; [exact H|].
  destruct (dedup_pairs_are_candidates (demo_kernel demo_buf 320) 4000 1 (replicate 32 0) 3 5 34 () None) as [_ Hall].
  destruct (Hall demo_end leaf1 leaf2 ltac:(vm_compute; reflexivity) H) as (_ & _ & Hc & _). exact Hc.
Defined.

(** The observer would see other requests: one for two records of different length. *)
Example watch_sees_pair : deduplicate (watch_candidates (demo_kernel demo_buf 320)) leaf1 leaf3 (dedup_init () None) = Stop Watched.
Proof. reflexivity. Qed.

(** C23: the processing of a record keeps the memory within the limit plus two nodes, as long
    as the range of CRCs of the pass is not empty and the tree has no CRC below it
    ([ranged]): when memory is short the range is halved until the tree fits, which takes at
    most 34 turns; the accounted memory is that of the nodes in the tree, the tree stays well
    formed, and the record is counted on top of the entries that were kept.  For a record of
    the range the condition holds again afterwards, with one exception: a trim may leave a
    range that ends where it starts, which from then on is taken for all CRCs and is not
    covered here. *)
Theorem dedup_memory_bounded {K} (kern : kernel K) (MemoryLimit : Z) (temp_hash : bytes) n leaf flags tfuel (s : dedup K) :
  kernel_ok kern -> 0 <= MemoryLimit -> inv n s -> n < 2 ^ 47 -> leaf_ok leaf -> ranged s -> (34 <= tfuel)%nat ->
  match process_btree_elm kern MemoryLimit temp_hash tfuel leaf flags s with
  | Ok _ s' => MemoryUse s' <= MemoryLimit + 288 /\ MemoryUse s' = msum entry_size (dedup_tree s') /\ inv (n + 1) s' /\
      (exists s1, (s1 = s \/ MemoryLimit < MemoryUse s /\ dedup_tree s1 = below (DedupCrcEnd s1) (dedup_tree s)) /\ held s' = held s1 + data_len leaf) /\
      (DedupCrcStart s <= leaf_data_crc leaf -> ranged s' \/ MemoryLimit < MemoryUse s /\ DedupCrcEnd s' = DedupCrcStart s')
  | Stop e => e = Exit 1 /\ too_old kern
  end.
Proof.
  intros Hk HL Hi Hn Hl Hr Hf.
  pose proof (process_btree_elm_spec kern MemoryLimit temp_hash (λ e, e = Exit 1 /\ too_old kern) (λ H, conj eq_refl H) Hk
    n leaf flags tfuel s HL Hi Hn Hl (or_intror (conj Hf Hr))) as H.
  pose proof (λ Hc, low_process kern MemoryLimit temp_hash (DedupCrcStart s) tfuel leaf flags Hc s (rg_tree _ Hr)) as Hlow.
  unfold wps in H, Hlow. destruct (process_btree_elm _ _ _ _ _ _ _) as [r s'|e]; [|done]. destruct H as (s1 & Hs1 & Hm & [Hi' Hh Hg _ Hfr]).
  split; [lia|]. split; [by destruct Hi'|]. split; [done|]. split.
  - exists s1. split; [|done]. destruct Hs1 as [->|[Hx (e & _ & _ & _ & ->)]]; [by left|by right].
  - intros Hc. specialize (Hlow Hc). pose proof (fr_start _ _ Hfr) as Hst. pose proof (fr_end _ _ Hfr) as Hen. pose proof Hr as [R1 R2 R3].
    destruct Hs1 as [->|[Hx (e & He1 & He2 & _ & ->)]]; cbn in Hst, Hen.
    + left. split; rewrite ?Hst, ?Hen; done.
    + destruct (decide (e = DedupCrcStart s)) as [Heq|Hne]; [right; split; [done|congruence]|]. left. split; rewrite ?Hst, ?Hen; [done| |done].
      right. assert (half_range (DedupCrcStart s) (DedupCrcEnd s) < 2 ^ 32); [|lia]. unfold half_range, uwrap. by apply Z.mod_pos_bound.
Qed.

(** C39: a record that is being processed when memory runs short is inserted even when its
    CRC is above the new end of the range: it is counted with this pass, and the next
    pass, which starts at that end, hands it to the callback again. *)
Theorem dedup_trim_counts_twice {K} (kern : kernel K) (MemoryLimit : Z) (temp_hash : bytes) n leaf flags tfuel (s : dedup K) :
  0 <= MemoryLimit -> inv n s -> n < 2 ^ 47 -> leaf_ok leaf -> ranged s -> (34 <= tfuel)%nat ->
  MemoryLimit < MemoryUse s -> half_range (DedupCrcStart s) (DedupCrcEnd s) <= leaf_data_crc leaf ->
  exists s', process_btree_elm kern MemoryLimit temp_hash tfuel leaf flags s = Ok 1 s' /\
    DedupCrcStart s <= DedupCrcEnd s' <= leaf_data_crc leaf /\
    dedup_tree s' !! leaf_data_crc leaf = Some {| de_leaf := leaf; de_u := De 1 (data_len leaf) |} /\
    forall next : dedup K, DedupCrcStart next = DedupCrcEnd s' -> DedupCrcEnd next = 0 -> in_range next (leaf_data_crc leaf) = true.
Proof.
  intros HL Hi Hn [Hl1 Hl2] Hr Hf Hm Hc. unfold process_btree_elm.
  assert (width s < 2 ^ Z.of_nat (tfuel - 2)) as Hw.
  { assert (width s < 2 ^ 32) by (unfold width, uwrap; apply Z.mod_pos_bound; lia).
    pose proof (Z.pow_le_mono_r 2 32 (Z.of_nat (tfuel - 2)) ltac:(lia) ltac:(lia)). lia. }
  pose proof (reduce_memory_spec MemoryLimit never _ n s HL Hi Hn Hr Hw) as H. replace (S (S (tfuel - 2))) with tfuel in H by lia.
  unfold wps in H. destruct (reduce_memory _ tfuel s) as [[] s1|] eqn:Hred; [|done]. rewrite (bind_Ok _ _ _ _ _ Hred). clear Hred.
  destruct H as [[->|(e & He & _ & _ & ->)] Hle]; [lia|]. set (s1 := set_MemoryUse _ _).
  rewrite (bind_Ok get_state _ s1 s1 s1) by done.
  assert (dedup_tree s1 !! leaf_data_crc leaf = None) as Hnone. { apply map_lookup_filter_None. right. intros x _. cbn. lia. }
  rewrite Hnone. eexists. split; [reflexivity|]. cbn. split; [lia|]. split.
  - rewrite lookup_alter_eq, lookup_insert_eq. cbn. unfold count_entry. cbn. rewrite !u64_small_add by lia. done.
  - intros next Hn1 Hn2. unfold in_range. rewrite Hn1, Hn2. rewrite (bool_decide_true (e <= _)) by lia. by rewrite orb_true_r.
Qed.

(** Memory is short after the first two records of [high_leaves]. *)
Definition high_state : dedup () :=
  set_MemoryUse 240 (set_dedup_tree {[ 7 := {| de_leaf := leaf1; de_u := De 1 100 |}; 0x90000000 := {| de_leaf := leaf5; de_u := De 1 70 |} ]} (dedup_init () None)).

Lemma high_tree (P : Z -> dedup_entry -> Prop) :
  P 7 {| de_leaf := leaf1; de_u := De 1 100 |} -> P 0x90000000 {| de_leaf := leaf5; de_u := De 1 70 |} -> map_Forall P (dedup_tree high_state).
Proof. intros H1 H2. apply map_Forall_insert_2; [exact H1|]. apply map_Forall_singleton. exact H2. Qed.

Lemma high_state_inv : inv 2 high_state.
Proof.
  split.
  - apply high_tree; (split; [reflexivity|split; [split; vm_compute; discriminate|split; [discriminate|reflexivity]]]).
  - vm_compute. reflexivity.
  - apply Forall_nil_2.
  - vm_compute. discriminate.
  - vm_compute. discriminate.
  - split; vm_compute; discriminate.
Qed.

Lemma high_state_ranged : ranged high_state.
Proof. split; [split; [discriminate|reflexivity]|left; reflexivity|]. apply high_tree; discriminate. Qed.

Lemma leaf4_ok : leaf_ok leaf4.
Proof. split; vm_compute; discriminate. Qed.

Lemma dedup_memory_bounded_witness :
  exists r s, process_btree_elm (demo_kernel high_buf 240) 130 [] 34 leaf4 0 high_state = Ok r s /\ MemoryUse s <= 418.
Proof.
  pose proof (dedup_memory_bounded (demo_kernel high_buf 240) 130 [] 2 leaf4 0 34 high_state
    ltac:(split; [intros base k leaf ubuf; discriminate|intros l; reflexivity]) ltac:(discriminate) high_state_inv ltac:(reflexivity) leaf4_ok high_state_ranged
    ltac:(apply Nat.leb_le; reflexivity)) as H.
  destruct (process_btree_elm _ _ _ _ _ _ _) as [r s|e].
  - exists r, s. split; [reflexivity|]. exact (proj1 H).
  - destruct H as [_ (p & q & k & H)]. discriminate.
Defined.

Lemma dedup_trim_counts_twice_witness :
  exists s', process_btree_elm (demo_kernel high_buf 240) 130 [] 34 leaf4 0 high_state = Ok 1 s' /\
    dedup_tree s' !! 0xF0000000 = Some {| de_leaf := leaf4; de_u := De 1 60 |} /\ DedupCrcEnd s' <= 0xF0000000.
Proof.
  destruct (dedup_trim_counts_twice (demo_kernel high_buf 240) 130 [] 2 leaf4 0 34 high_state) as (s' & H1 & [_ H2] & H3 & _).
  - discriminate.
  - exact high_state_inv.
  - reflexivity.
  - exact leaf4_ok.
  - exact high_state_ranged.
  - apply Nat.leb_le. reflexivity.
  - reflexivity.
  - vm_compute. discriminate.
  - exists s'. split; [exact H1|]. split; [exact H3|exact H2].
Defined.

(** C22: hammer dedup-simulate with sufficient memory computes, in one pass, what grouping
    the data records by their CRC gives: the referenced size is the sum of the sizes of
    the records, the allocated size is the sum over the different CRCs of the mean size of
    the records with that CRC. *)
Theorem dedup_simulate_accounts {K} (kern : kernel K) (MemoryLimit sync_beg_tid : Z) (passes fuel : nat) (path : bool)
    (k : K) (file : option bytes) (pages : list page) (ls : list leaf_t) :
  undisturbed kern -> lists kern (start_key path file) pages ls -> Forall leaf_ok (data_records ls) ->
  56 * Z.of_nat (length (data_records ls)) <= MemoryLimit -> Z.of_nat (length (data_records ls)) < 2 ^ 46 ->
  (length pages <= fuel)%nat -> (1 <= passes)%nat ->
  exists s, hammer_cmd_dedup_simulate kern MemoryLimit sync_beg_tid passes fuel path (dedup_init k file) = Ok () s /\
    dedup_ref_size s = lsum data_len (data_records ls) /\ dedup_alloc_size s = simulated_alloc (data_records ls) /\ sim_dedup_tree s = ∅.
Proof.
  intros Hu Hl Hok Hm HN Hf Hp. pose proof (simulate_spec kern MemoryLimit sync_beg_tid never ls Hok HN Hm path pages fuel passes (dedup_init k file)) as H.
  unfold wps in H. destruct (hammer_cmd_dedup_simulate _ _ _ _ _ _ _) as [[] s|e]; [|by destruct H]. exists s. split; [done|]. by apply H.
Qed.

Lemma dedup_simulate_accounts_witness :
  exists s, hammer_cmd_dedup_simulate (demo_kernel demo_buf 320) 1000 1 1 2 true (dedup_init () None) = Ok () s /\
    dedup_ref_size s = 310 /\ dedup_alloc_size s = 143.
Proof.
  destruct (dedup_simulate_accounts (demo_kernel demo_buf 320) 1000 1 1 2 true () None
    [(demo_buf, 320, demo_base 6); ([], 0, demo_base 6)] demo_leaves) as (s & H1 & H2 & H3 & _).
  - intros k. reflexivity.
  - exact demo_lists.
  - exact demo_leaves_ok.
  - vm_compute. discriminate.
  - vm_compute. reflexivity.
  - apply Nat.leb_le. reflexivity.
  - apply Nat.leb_le. reflexivity.
  - exists s. split; [exact H1|]. split; [rewrite H2; vm_compute; reflexivity|]. rewrite H3. vm_compute. reflexivity.
Defined.
