(* ===== verification/Softprune.v ===== *)
(** * Softprune: hammer prune and prune-everything (sbin/hammer/cmd_softprune.c)

    The snapshots of a file system are collected from a directory of softlinks and from the
    meta-data, and turned into the array of ranges of transaction ids in which the kernel
    may forget what happened between two snapshots.

    The operating system and the kernel are a parameter ([os]): the directory, [statfs], the
    clock, and the answers to the ioctls.  So is [qsort], whose order of equal elements is
    not specified, and the memory behind the empty string ([behind]), which the code reads.
    Printing is left out.  [ps_log] is not a variable of the program: it records the
    requests of the prune ioctl. *)

From S2P Require Import Prelude CMonad HammerDisk Layout Cycle.

Definition HAMMER_MAX_TID : Z := 2 ^ 64 - 1.
Definition HAMMER_SNAPS_PER_IOCTL : nat := 16.
Definition HAMMER_IOC_PRUNE_ALL : Z := 0x0001.

(** ** Strings *)

(** The position of the last [c]. *)
Fixpoint strrchr (c : Z) (i : nat) (s : bytes) : option nat :=
  match s with
  | [] => None
  | x :: s => match strrchr c (S i) s with Some k => Some k | None => if bool_decide (x = c) then Some i else None end
  end.

Definition isspace (c : Z) : bool := bool_decide (c = 32) || bool_decide (9 <= c <= 13).
Definition digit (c : Z) : Z :=
  if bool_decide (48 <= c <= 57) then c - 48
  else if bool_decide (97 <= c <= 122) then c - 87
  else if bool_decide (65 <= c <= 90) then c - 55 else 36.
Fixpoint digits (base acc : Z) (s : bytes) : Z :=
  match s with
  | c :: s' => if bool_decide (digit c < base) then digits base (acc * base + digit c) s' else acc
  | [] => acc
  end.
(** [strtoull (s, NULL, 0)] *)
Definition unsigned_digits (s : bytes) : Z :=
  match s with
  | 48 :: x :: d :: s' =>
      if (bool_decide (x = 120) || bool_decide (x = 88)) && bool_decide (digit d < 16) then digits 16 0 (d :: s') else digits 8 0 s
  | 48 :: _ => digits 8 0 s
  | _ => digits 10 0 s
  end.
Fixpoint skip_spaces (s : bytes) : bytes :=
  match s with c :: s' => if isspace c then skip_spaces s' else s | [] => [] end.
Definition strtoull (s : bytes) : Z :=
  let s := skip_spaces s in
  let neg := bool_decide (head s = Some 45) in
  let v := unsigned_digits (if neg || bool_decide (head s = Some 43) then tail s else s) in
  if bool_decide (HAMMER_MAX_TID < v) then HAMMER_MAX_TID else if neg then u64 (- v) else v.

(** ** Data *)

Record hammer_ioc_prune_elm := { beg_tid : Z; end_tid : Z; mod_tid : Z }.

(** [elms] is the allocated array, [maxelms] its size; a slot may not have been written. *)
Record softprune := {
  sp_fsid : Z;
  filesystem : bytes;
  key_beg : hammer_base_elm;
  key_end : hammer_base_elm;
  head_flags : Z;
  nelms : nat;
  elms : list (option hammer_ioc_prune_elm);
  prune_min : Z;
}.
(** The order that [qsort] is asked for. *)
Definition hammer_softprune_qsort_cmp (elm1 elm2 : hammer_ioc_prune_elm) : Z :=
  if bool_decide (beg_tid elm1 < beg_tid elm2) then 1 else if bool_decide (beg_tid elm2 < beg_tid elm1) then -1 else 0.

Definition maxelms (sp : softprune) : nat := length (elms sp).

Definition set_elms (v : list (option hammer_ioc_prune_elm)) (n : nat) (sp : softprune) : softprune :=
  {| sp_fsid := sp_fsid sp; filesystem := filesystem sp; key_beg := key_beg sp; key_end := key_end sp; head_flags := head_flags sp;
     nelms := n; elms := v; prune_min := prune_min sp |}.
Definition set_flags (v : Z) (sp : softprune) : softprune :=
  {| sp_fsid := sp_fsid sp; filesystem := filesystem sp; key_beg := key_beg sp; key_end := key_end sp; head_flags := v;
     nelms := nelms sp; elms := elms sp; prune_min := prune_min sp |}.
Definition set_prune_min (v : Z) (sp : softprune) : softprune :=
  {| sp_fsid := sp_fsid sp; filesystem := filesystem sp; key_beg := key_beg sp; key_end := key_end sp; head_flags := head_flags sp;
     nelms := nelms sp; elms := elms sp; prune_min := v |}.

Record hammer_snapshot_data := { snap_tid : Z; snap_ts : Z; snap_label : bytes }.

(** ** The operating system *)

(** A directory entry: [lstat] gives whether it is a link, and its times. *)
Record dirent := { d_name : bytes; d_lstat : option (bool * Z * Z); d_link : option bytes }.

(** [snapshot] after [HAMMERIOC_GET_SNAPSHOT]; the last field is [HAMMER_IOC_SNAPSHOT_EOF]. *)
Record snapshot_reply := { sr_index : nat; sr_count : nat; sr_snaps : list hammer_snapshot_data; sr_eof : bool }.

Inductive prune_reply := PruneFailed | PruneDone | PruneInterrupted (key_cur : hammer_base_elm).

Record os (K : Type) := {
  o_readdir : option (list dirent);
  o_statfs : bytes -> option Z;
  o_time : Z;
  o_open : bytes -> bool;
  (** [prune_min] of the PFS *)
  o_get_pseudofs : bytes -> option Z;
  o_get_version : option Z;
  o_get_snapshot : K -> option snapshot_reply * K;
  (** the new [index] and [head.error] *)
  o_del_snapshot : list hammer_snapshot_data -> nat -> K -> option (nat * Z) * K;
  o_prune : softprune -> K -> prune_reply * K;
}.
Arguments o_readdir {_} _.
Arguments o_statfs {_} _.
Arguments o_time {_} _.
Arguments o_open {_} _.
Arguments o_get_pseudofs {_} _.
Arguments o_get_version {_} _.
Arguments o_get_snapshot {_} _.
Arguments o_del_snapshot {_} _.
Arguments o_prune {_} _.

Record pstate (K : Type) := { ps_cycle : option bytes; ps_kernel : K; ps_log : list softprune }.
Arguments ps_cycle {_} _.
Arguments ps_kernel {_} _.
Arguments ps_log {_} _.
Definition set_ps_cycle {K} (c : option bytes) (s : pstate K) : pstate K := {| ps_cycle := c; ps_kernel := ps_kernel s; ps_log := ps_log s |}.
Definition set_ps_kernel {K} (k : K) (s : pstate K) : pstate K := {| ps_cycle := ps_cycle s; ps_kernel := k; ps_log := ps_log s |}.
Definition set_ps_log {K} (l : list softprune) (s : pstate K) : pstate K := {| ps_cycle := ps_cycle s; ps_kernel := ps_kernel s; ps_log := l |}.

#[export] Instance pstate_cycle K : CycleFile (pstate K) := {| cycle_of := ps_cycle; with_cycle := set_ps_cycle; cycle_same := ltac:(by intros []) |}.

Section softprune.
Context {K : Type} (o : os K) (qsort : list hammer_ioc_prune_elm -> list hammer_ioc_prune_elm) (behind : bytes).
Abbreviation P := (prog (pstate K)).

Definition ask {A} (f : K -> A * K) : P A :=
  s ← get_state; let r := f (ps_kernel s) in put_state (set_ps_kernel (snd r) s);; mret (fst r).

(** ** The array *)

Definition get_elm (sp : softprune) (i : nat) : P hammer_ioc_prune_elm := deref (mjoin (elms sp !! i)).
Definition put_elm (sp : softprune) (i : nat) (e : hammer_ioc_prune_elm) : P softprune :=
  if bool_decide (i < maxelms sp)%nat then mret (set_elms (<[i := Some e]> (elms sp)) (nelms sp) sp) else stop_with Undef.
(** [bcopy (&elms[src], &elms[dst], n * sizeof(elms[0]))] *)
Definition bcopy_elms (sp : softprune) (src dst n : nat) : P softprune :=
  if bool_decide (src + n <= maxelms sp)%nat && bool_decide (dst + n <= maxelms sp)%nat
  then mret (set_elms (take dst (elms sp) ++ take n (drop src (elms sp)) ++ drop (dst + n) (elms sp)) (nelms sp) sp)
  else stop_with Undef.

Definition hammer_softprune_addelm (sp : softprune) (tid ct mt : Z) : P softprune :=
  sp ← (if bool_decide (maxelms sp - 1 <= nelms sp)%nat then
          if bool_decide (Z.of_nat (maxelms sp) * 3 < 2 ^ 31)
          then mret (set_elms (elms sp ++ replicate (Nat.div (maxelms sp * 3) 2 - maxelms sp) None) (nelms sp) sp)
          else stop_with Undef
        else mret sp);
  sp ← put_elm sp (nelms sp) {| beg_tid := tid; end_tid := 0; mod_tid := u64 (if bool_decide (ct < mt) then ct else mt) |};
  mret (set_elms (elms sp) (S (nelms sp)) sp).

(** ** The directory *)

Definition slash : Z := 47.
Definition at_sign : Z := 64.

(** [tidptr - linkbuf] is [n]; the new list, and where the entry is in it. *)
Definition hammer_softprune_addentry (base : list softprune) (key_beg key_end : hammer_base_elm) (dirpath : bytes) (st : option (Z * Z))
    (linkbuf : bytes) (n : nat) : P (list softprune * option nat) :=
  let fspath := if bool_decide (head linkbuf = Some slash) then take n linkbuf else dirpath ++ [slash] ++ take n linkbuf in
  match o_statfs o fspath with
  | None => mret (base, None)
  | Some fsid =>
      let found := list_find (λ sp, sp_fsid sp = fsid) base in
      let new := {| sp_fsid := fsid; filesystem := fspath; key_beg := key_beg; key_end := key_end; head_flags := 0; nelms := 0;
                    elms := replicate 32 None; prune_min := 0 |} in
      let tid := strtoull (if bool_decide (n + 2 <= length linkbuf)%nat then drop (n + 2) linkbuf else behind) in
      match found with
      | Some (i, sp) => sp ← hammer_softprune_addelm sp tid (default 0 (fst <$> st)) (default 0 (snd <$> st)); mret (<[i := sp]> base, Some i)
      | None => sp ← hammer_softprune_addelm new tid (default 0 (fst <$> st)) (default 0 (snd <$> st)); mret (sp :: base, Some O)
      end
  end.

(** The link of a snapshot, with the position of the [@@]. *)
Definition snapshot_link (den : dirent) : option (bytes * nat * (Z * Z)) :=
  if bool_decide (d_name den = [46]) || bool_decide (d_name den = [46; 46]) then None
  else
    match d_lstat den, d_link den with
    | Some (true, ct, mt), Some linkbuf =>
        match strrchr at_sign 0 linkbuf with
        | Some (S i) => if bool_decide (linkbuf !! i = Some at_sign) then Some (linkbuf, i, (ct, mt)) else None
        | _ => None
        end
    | _, _ => None
    end.

Fixpoint scan_dirents (dens : list dirent) (base : list softprune) (key_beg key_end : hammer_base_elm) (dirname : bytes) : P (list softprune) :=
  match dens with
  | [] => mret base
  | den :: dens =>
      base ← match snapshot_link den with
             | Some (linkbuf, n, st) =>
                 r ← hammer_softprune_addentry base key_beg key_end dirname (Some st) linkbuf n; mret (fst r)
             | None => mret base
             end;
      scan_dirents dens base key_beg key_end dirname
  end.
Definition hammer_softprune_scandir (base : list softprune) (key_beg key_end : hammer_base_elm) (dirname : bytes) : P (list softprune) :=
  match o_readdir o with
  | None => stop_with (Exit 1)
  | Some dens => scan_dirents dens base key_beg key_end dirname
  end.

(** Whether the directory contains snapshots. *)
Definition hammer_softprune_testdir (dirname : bytes) : P bool :=
  let zero := {| be_obj_id := 0; be_key := 0; be_create_tid := 0; be_delete_tid := 0; be_rec_type := 0; be_obj_type := 0; be_btype := 0;
                 be_localization := 0 |} in
  base ← hammer_softprune_scandir [] zero zero dirname;
  mret (match base with [] => false | _ => true end).

(** ** The meta-data *)

(** The loop of [hammer_meta_flushdelete]; [fuel] bounds its turns. *)
Fixpoint flushdelete_loop (fuel : nat) (snaps : list hammer_snapshot_data) (index : nat) : P () :=
  match fuel with
  | O => stop_with OutOfFuel
  | S fuel =>
      if bool_decide (index < length snaps)%nat then
        r ← ask (o_del_snapshot o snaps index);
        match r with
        | None => mret ()
        | Some (index, error) => if bool_decide (error = 0) then mret () else flushdelete_loop fuel snaps (S index)
        end
      else mret ()
  end.
Definition hammer_meta_flushdelete (snaps : list hammer_snapshot_data) : P () := flushdelete_loop (S (length snaps)) snaps 0.

(** The entries of one answer; the list is [dsnapshot]. *)
Fixpoint scan_snaps (n : nat) (reply : snapshot_reply) (i : nat) (sp : softprune) (delete_all : bool) (dsnaps : list hammer_snapshot_data)
    : P (softprune * list hammer_snapshot_data) :=
  match n with
  | O => mret (sp, dsnaps)
  | S n =>
      snap ← deref (if bool_decide (i < HAMMER_SNAPS_PER_IOCTL)%nat then sr_snaps reply !! i else None);
      if delete_all : bool then
        let dsnaps := dsnaps ++ [snap] in
        if bool_decide (length dsnaps = HAMMER_SNAPS_PER_IOCTL)
        then hammer_meta_flushdelete dsnaps;; scan_snaps n reply (S i) sp delete_all []
        else scan_snaps n reply (S i) sp delete_all dsnaps
      else
        let ct := snap_ts snap / 1000000 in
        sp ← hammer_softprune_addelm sp (snap_tid snap) ct ct;
        scan_snaps n reply (S i) sp delete_all dsnaps
  end.

Fixpoint scanmeta_loop (fuel : nat) (sp : softprune) (delete_all : bool) (dsnaps : list hammer_snapshot_data) : P (option softprune) :=
  match fuel with
  | O => stop_with OutOfFuel
  | S fuel =>
      r ← ask (o_get_snapshot o);
      match r with
      | None => mret None
      | Some reply =>
          r ← scan_snaps (sr_count reply - sr_index reply) reply (sr_index reply) sp delete_all dsnaps;
          if sr_eof reply
          then when delete_all (hammer_meta_flushdelete (snd r));; mret (Some (fst r))
          else scanmeta_loop fuel (fst r) delete_all (snd r)
      end
  end.

(** [None] for an error. *)
Definition hammer_softprune_scanmeta (fuel : nat) (sp : softprune) (delete_all : bool) : P (option softprune) :=
  match o_get_version o with
  | None => mret None
  | Some version => if bool_decide (version < 3) then mret (Some sp) else scanmeta_loop fuel sp delete_all []
  end.

(** ** The ranges *)

(** "Sort the elements in descending order, remove duplicates": the loop after the sort. *)
Fixpoint fill_loop (fuel i : nat) (sp : softprune) : P softprune :=
  match fuel with
  | O => stop_with OutOfFuel
  | S fuel =>
      if bool_decide (i < nelms sp)%nat then
        elm ← get_elm sp i;
        if bool_decide (i = O) then
          sp ← put_elm sp i {| beg_tid := beg_tid elm; end_tid := HAMMER_MAX_TID; mod_tid := mod_tid elm |};
          fill_loop fuel (S i) sp
        else
          prev ← get_elm sp (i - 1);
          if bool_decide (beg_tid elm = beg_tid prev) then
            let sp := set_elms (elms sp) (nelms sp - 1) sp in
            sp ← (if bool_decide (i = nelms sp) then mret sp else bcopy_elms sp (i + 1) i (nelms sp - i));
            fill_loop fuel i sp
          else
            sp ← put_elm sp i {| beg_tid := beg_tid elm; end_tid := beg_tid prev; mod_tid := mod_tid elm |};
            fill_loop fuel (S i) sp
      else mret sp
  end.

(** How many of the first elements are within the minimum retention time. *)
Fixpoint retained (sp : softprune) (n : nat) : P nat :=
  match n with
  | O => mret O
  | S i =>
      elm ← get_elm sp i;
      if bool_decide (mod_tid elm = 0) then retained sp i
      else if bool_decide (s64 (o_time o - s64 (mod_tid elm)) < prune_min sp) then mret (S i)
      else retained sp i
  end.

Fixpoint adjust_loop (n i : nat) (sp : softprune) : P softprune :=
  match n with
  | O => mret sp
  | S n =>
      elm ← get_elm sp i;
      sp ← put_elm sp i {| beg_tid := beg_tid elm; end_tid := end_tid elm; mod_tid := u64 (end_tid elm - beg_tid elm) |};
      adjust_loop n (S i) sp
  end.

Definition sort_elms (sp : softprune) : P softprune :=
  l ← deref (mapM id (take (nelms sp) (elms sp)));
  mret (set_elms ((Some <$> qsort l) ++ drop (nelms sp) (elms sp)) (nelms sp) sp).

Definition hammer_softprune_finalize (sp : softprune) : P softprune :=
  if bool_decide (nelms sp = O) then mret sp
  else
    sp ← sort_elms sp;
    sp ← fill_loop (S (nelms sp + nelms sp)) 0 sp;
    sp ← (if bool_decide (prune_min sp = 0) then mret sp
          else
            i ← retained sp (nelms sp);
            if bool_decide (i = O) then mret sp
            else
              sp ← bcopy_elms sp i 0 (nelms sp - i);
              elm ← get_elm sp 0;
              sp ← put_elm sp 0 {| beg_tid := beg_tid elm; end_tid := HAMMER_MAX_TID; mod_tid := mod_tid elm |};
              mret (set_elms (elms sp) (nelms sp - i) sp));
    sp ← (if bool_decide (nelms sp = O) then mret sp
          else sp ← bcopy_elms sp 1 0 (nelms sp - 1); mret (set_elms (elms sp) (nelms sp - 1) sp));
    sp ← (if bool_decide (nelms sp = O) then mret sp
          else
            assertp (bool_decide (nelms sp < maxelms sp)%nat);;
            prev ← get_elm sp (nelms sp - 1);
            sp ← put_elm sp (nelms sp) {| beg_tid := 1; end_tid := beg_tid prev; mod_tid := 0 |};
            mret (set_elms (elms sp) (S (nelms sp)) sp));
    adjust_loop (nelms sp) 0 sp.

(** ** The command *)

(** The keys of [template]. *)
Definition template_beg : hammer_base_elm :=
  {| be_obj_id := 2 ^ 63; be_key := 0; be_create_tid := 0; be_delete_tid := 0; be_rec_type := 0; be_obj_type := 0; be_btype := 0; be_localization := 0 |}.
Definition template_end : hammer_base_elm :=
  {| be_obj_id := 2 ^ 63 - 1; be_key := 0; be_create_tid := 0; be_delete_tid := 0; be_rec_type := 0; be_obj_type := 0; be_btype := 0;
     be_localization := 0xFFFF |}.

(** One turn of the loop that issues the prunes; the new [rcode], if it changes. *)
Definition issue_prune (path : bool) (fuel : nat) (everything_opt : bool) (sp : softprune) : P (option Z) :=
  if negb (o_open o (filesystem sp)) then mret (Some 1)
  else
    match o_get_pseudofs o (filesystem sp) with
    | None => mret (Some 1)
    | Some min =>
        r ← hammer_softprune_scanmeta fuel (set_prune_min min sp) everything_opt;
        match r with
        | None => mret (Some 1)
        | Some sp =>
            sp ← hammer_softprune_finalize sp;
            if bool_decide (nelms sp = O) && bool_decide (head_flags sp .& HAMMER_IOC_PRUNE_ALL = 0) then mret None
            else
              modify (λ s, set_ps_log (ps_log s ++ [sp]) s);;
              reply ← ask (o_prune o sp);
              match reply with
              | PruneFailed => mret (Some 2)
              | PruneInterrupted key_cur => hammer_set_cycle path key_cur 0;; mret (Some 0)
              | PruneDone => when path hammer_reset_cycle;; mret None
              end
        end
    end.

Definition hammer_cmd_softprune (path : bool) (fuel : nat) (av0 : bytes) (everything_opt : bool) : P () :=
  key ← hammer_get_cycle path template_end 0;
  base ← (if everything_opt : bool then mret [] else hammer_softprune_scandir [] template_beg (fst key) av0);
  base ← (match base with
          | [] =>
              r ← hammer_softprune_addentry [] template_beg (fst key) av0 None [] 0;
              match r with
              | (sp :: base, Some _) =>
                  mret (set_flags (if everything_opt then head_flags sp .| HAMMER_IOC_PRUNE_ALL else head_flags sp) (set_elms (elms sp) 0 sp) :: base)
              | _ => stop_with (Exit 1)
              end
          | _ => mret base
          end);
  match base with
  | [sp] =>
      r ← issue_prune path fuel everything_opt sp;
      match r with
      | Some rcode => if bool_decide (rcode = 0) then mret () else stop_with (Exit rcode)
      | None => mret ()
      end
  | _ => stop_with (Exit 1)
  end.
End softprune.
