(* ===== verification/SoftpruneSpec.v ===== *)
(** * SoftpruneSpec: the ranges that hammer prune asks for

    The array of [hammer_softprune_finalize] as a list, the loops as functions on lists, and
    the reference: the ranges between consecutive snapshots. *)

From S2P Require Import Prelude CMonad WpStop HammerDisk Layout Cycle Softprune.

#[local] Opaque Z.to_nat.

(** ** The reference *)

(** From the transaction ids of the snapshots in descending order, the ranges between each
    and the one before it, and from the beginning to the lowest. *)
Definition ranges (tids : list Z) : list (Z * Z) :=
  match tids with
  | [] | [_] => []
  | _ => zip (tail tids ++ [1]) tids
  end.
Definition elm_of (r : Z * Z) : hammer_ioc_prune_elm := {| beg_tid := fst r; end_tid := snd r; mod_tid := u64 (snd r - fst r) |}.

(** Duplicates removed, each with the id before it. *)
Fixpoint fill (prev : option Z) (l : list hammer_ioc_prune_elm) : list hammer_ioc_prune_elm :=
  match l with
  | [] => []
  | e :: l =>
      if bool_decide (prev = Some (beg_tid e)) then fill prev l
      else {| beg_tid := beg_tid e; end_tid := default HAMMER_MAX_TID prev; mod_tid := mod_tid e |} :: fill (Some (beg_tid e)) l
  end.

(** Whether a snapshot is within the minimum retention time, and how many there are up to
    the last such one. *)
Definition recent (now min : Z) (e : hammer_ioc_prune_elm) : bool :=
  bool_decide (mod_tid e ≠ 0) && bool_decide (s64 (now - s64 (mod_tid e)) < min).
Fixpoint recent_count (now min : Z) (l : list hammer_ioc_prune_elm) : nat :=
  match l with
  | [] => O
  | e :: l => match recent_count now min l with O => if recent now min e then 1 else 0 | n => S n end
  end.

(** The snapshots that matter for the ranges, from those that were collected and sorted. *)
Definition old_snapshots (now min : Z) (l : list hammer_ioc_prune_elm) : list hammer_ioc_prune_elm :=
  let u := fill None l in if bool_decide (min = 0) then u else drop (recent_count now min u) u.
Definition prune_ranges (now min : Z) (l : list hammer_ioc_prune_elm) : list (Z * Z) := ranges (beg_tid <$> old_snapshots now min l).

(** ** The array as a list *)

(** The first [nelms] slots hold [l]. *)
Definition rep (sp : softprune) (l : list hammer_ioc_prune_elm) : Prop :=
  nelms sp = length l /\ exists junk, elms sp = (Some <$> l) ++ junk.

(** Everything but the array is the same. *)
Definition same_header (sp sp' : softprune) : Prop := set_elms [] 0 sp' = set_elms [] 0 sp.

Lemma same_header_trans sp1 sp2 sp3 : same_header sp1 sp2 -> same_header sp2 sp3 -> same_header sp1 sp3.
Proof. unfold same_header. congruence. Qed.

Lemma rep_max sp l : rep sp l -> (length l <= maxelms sp)%nat.
Proof. intros [_ [junk Hj]]. unfold maxelms. rewrite Hj, length_app, length_fmap. lia. Qed.

Section array.
Context {K : Type} (E : stop -> Prop).

Lemma get_elm_spec sp l i e (s : pstate K) R : rep sp l -> l !! i = Some e -> R e s -> wps (get_elm sp i) s E R.
Proof.
  intros [_ [junk Hj]] Hi HR. unfold get_elm. rewrite Hj, lookup_app_l by (rewrite length_fmap; by eapply lookup_lt_Some).
  rewrite list_lookup_fmap, Hi. exact HR.
Qed.

Lemma put_elm_spec sp l i e (s : pstate K) (R : softprune -> pstate K -> Prop) :
  rep sp l -> (i < length l)%nat ->
  (forall sp', rep sp' (<[i := e]> l) -> same_header sp sp' -> maxelms sp' = maxelms sp -> R sp' s) -> wps (put_elm sp i e) s E R.
Proof.
  intros Hr Hi HR. pose proof (rep_max _ _ Hr). destruct Hr as [Hn [junk Hj]]. unfold put_elm. rewrite bool_decide_true by lia. apply HR.
  - split; [cbn; by rewrite length_insert|]. exists junk. cbn. rewrite Hj, insert_app_l by (rewrite length_fmap; lia). by rewrite list_fmap_insert.
  - done.
  - unfold maxelms. cbn. by rewrite length_insert.
Qed.

(** The slots from [src] on move down to [dst], and the array becomes shorter. *)
Lemma bcopy_spec sp l1 l2 l3 n (s : pstate K) (R : softprune -> pstate K -> Prop) :
  (exists junk, elms sp = (Some <$> l1 ++ l2 ++ l3) ++ junk) -> n = length l3 ->
  (forall v, rep (set_elms v (length (l1 ++ l3)) sp) (l1 ++ l3) -> length v = maxelms sp -> R (set_elms v (nelms sp) sp) s) ->
  wps (bcopy_elms sp (length l1 + length l2) (length l1) n) s E R.
Proof.
  intros [junk Hj] -> HR. unfold bcopy_elms. assert (maxelms sp = length l1 + length l2 + length l3 + length junk)%nat as Hm.
  { unfold maxelms. rewrite Hj, !length_app, length_fmap, !length_app. lia. }
  rewrite !bool_decide_true by lia. cbn [andb]. apply HR.
  - split; [done|]. cbn. rewrite Hj, !fmap_app, <- !app_assoc.
    rewrite take_app_length' by (by rewrite length_fmap).
    rewrite (app_assoc (Some <$> l1) (Some <$> l2)), drop_app_length' by (rewrite length_app, !length_fmap; lia).
    rewrite take_app_length' by (by rewrite length_fmap). eexists. rewrite app_assoc. reflexivity.
  - rewrite !length_app, !length_take, !length_drop. fold (maxelms sp). lia.
Qed.

(** ** The loops *)

Lemma fill_loop_spec rest : forall fuel past sp (s : pstate K),
  rep sp (past ++ rest) -> (length rest < fuel)%nat ->
  wps (fill_loop fuel (length past) sp) s E
    (λ sp' s', s' = s /\ rep sp' (past ++ fill (beg_tid <$> last past) rest) /\ same_header sp sp' /\ maxelms sp' = maxelms sp).
Proof.
  induction rest as [|e rest IH]; intros fuel past sp s Hr Hf; (destruct fuel as [|fuel]; [cbn in Hf; lia|]); cbn [fill_loop fill].
  { pose proof Hr as [Hn _]. rewrite app_nil_r in Hn. rewrite bool_decide_false by lia. stop_step. done. }
  pose proof Hr as [Hn Hj]. rewrite length_app in Hn. cbn [length] in Hn, Hf. rewrite bool_decide_true by lia. stop_step.
  eapply get_elm_spec; [exact Hr|by rewrite list_lookup_middle|].
  assert (forall b, wps (sp0 ← put_elm sp (length past) {| beg_tid := beg_tid e; end_tid := b; mod_tid := mod_tid e |}; fill_loop fuel (S (length past)) sp0) s E
    (λ sp' s', s' = s /\ rep sp' (past ++ {| beg_tid := beg_tid e; end_tid := b; mod_tid := mod_tid e |} :: fill (Some (beg_tid e)) rest) /\
       same_header sp sp' /\ maxelms sp' = maxelms sp)) as Hput.
  { intros b. set (e' := {| beg_tid := beg_tid e |}). stop_step. eapply put_elm_spec; [exact Hr|rewrite length_app; cbn; lia|].
    intros sp1 Hr1 Hh1 Hm1. rewrite insert_app_r_alt, Nat.sub_diag in Hr1 by done. cbn [list_insert] in Hr1.
    replace (S (length past)) with (length (past ++ [e'])) by (rewrite length_app; cbn; lia).
    eapply wps_mono; [apply IH; [by rewrite <- app_assoc|lia]|]. intros sp' s' (-> & Hr' & Hh' & Hm').
    rewrite last_snoc in Hr'. cbn in Hr'. rewrite <- app_assoc in Hr'. split; [done|]. split; [done|]. split; [by eapply same_header_trans|congruence]. }
  destruct past as [|p past' _] using rev_ind.
  { rewrite bool_decide_true by done. rewrite bool_decide_false by done. apply Hput. }
  set (past := past' ++ [p]) in *. assert (last past = Some p) as -> by apply last_snoc. cbn [fmap option_fmap option_map default].
  assert (length past = S (length past'))%nat as Hlen by (unfold past; rewrite length_app; cbn; lia).
  rewrite bool_decide_false by lia. stop_step. eapply get_elm_spec; [exact Hr| |].
  { replace (length past - 1)%nat with (length past') by lia. rewrite lookup_app_l by lia. by apply list_lookup_middle. }
  case_bool_decide as Hdup.
  2: { rewrite bool_decide_false by congruence. apply Hput. }
  rewrite (bool_decide_true (Some _ = Some _)) by congruence. stop_step. cbn [nelms set_elms]. rewrite Hn.
  replace (length past + S (length rest) - 1)%nat with (length past + length rest)%nat by lia.
  assert (forall v, rep (set_elms v (length (past ++ rest)) sp) (past ++ rest) -> length v = maxelms sp ->
    wps (fill_loop fuel (length past) (set_elms v (length past + length rest) sp)) s E
      (λ sp' s', s' = s /\ rep sp' (past ++ fill (Some (beg_tid p)) rest) /\ same_header sp sp' /\ maxelms sp' = maxelms sp)) as Hgo.
  { intros v Hv Hlv. rewrite length_app in Hv. eapply wps_mono; [apply IH; [exact Hv|lia]|]. intros sp' s' (-> & Hr' & Hh' & Hm').
    unfold past in Hr' at 2. rewrite last_snoc in Hr'. split; [done|]. split; [done|]. split; [done|]. by rewrite Hm'. }
  case_bool_decide as Hlast.
  - stop_step. apply Hgo; [|done]. assert (rest = []) as -> by (destruct rest; [done|cbn in Hlast; lia]). rewrite app_nil_r. split; [done|].
    destruct Hj as [junk Hj]. exists (Some e :: junk). cbn. rewrite Hj, fmap_app. by rewrite <- app_assoc.
  - replace (length past + 1)%nat with (length past + length [e])%nat by done.
    eapply (bcopy_spec _ past [e] rest); [exact Hj|lia|]. cbn [nelms set_elms]. intros v Hv Hlv. by apply Hgo.
Qed.

Lemma recent_count_snoc now min l e : recent_count now min (l ++ [e]) = if recent now min e then S (length l) else recent_count now min l.
Proof.
  induction l as [|x l IH]; cbn; [by destruct (recent now min e)|]. rewrite IH. destruct (recent now min e); [done|]. done.
Qed.

Lemma recent_count_le now min l : (recent_count now min l <= length l)%nat.
Proof. induction l as [|x l IH]; cbn; [done|]. destruct (recent_count now min l); [destruct (recent _ _ _)|]; lia. Qed.

Lemma retained_spec (o : os K) sp l n (s : pstate K) :
  rep sp l -> (n <= length l)%nat ->
  wps (retained o sp n) s E (λ i s', s' = s /\ i = recent_count (o_time o) (prune_min sp) (take n l)).
Proof.
  intros Hr. induction n as [|n IH]; intros Hn; cbn [retained]; [stop_step; by rewrite take_0|].
  destruct (lookup_lt_is_Some_2 l n) as [e He]; [lia|]. rewrite (take_S_r l n e) by done. rewrite recent_count_snoc.
  stop_step. eapply get_elm_spec; [exact Hr|exact He|]. unfold recent. case_bool_decide as H0.
  - rewrite (bool_decide_false (mod_tid e ≠ 0)) by (intros Hx; by apply Hx). apply IH. lia.
  - rewrite (bool_decide_true (mod_tid e ≠ 0)) by done. cbn [andb]. case_bool_decide; [stop_step; split; [done|]; rewrite length_take; lia|]. apply IH. lia.
Qed.

Definition with_mod (e : hammer_ioc_prune_elm) : hammer_ioc_prune_elm :=
  {| beg_tid := beg_tid e; end_tid := end_tid e; mod_tid := u64 (end_tid e - beg_tid e) |}.

Lemma adjust_loop_spec rest : forall past sp (s : pstate K),
  rep sp (past ++ rest) ->
  wps (adjust_loop (length rest) (length past) sp) s E (λ sp' s', s' = s /\ rep sp' (past ++ (with_mod <$> rest)) /\ same_header sp sp').
Proof.
  induction rest as [|e rest IH]; intros past sp s Hr; cbn [adjust_loop length]; [by stop_step|].
  stop_step. eapply get_elm_spec; [exact Hr|by rewrite list_lookup_middle|]. stop_step.
  eapply put_elm_spec; [exact Hr|rewrite length_app; cbn; lia|]. intros sp1 Hr1 Hh1 Hm1.
  rewrite insert_app_r_alt, Nat.sub_diag in Hr1 by done. cbn [list_insert] in Hr1. fold (with_mod e) in Hr1.
  replace (S (length past)) with (length (past ++ [with_mod e])) by (rewrite length_app; cbn; lia).
  eapply wps_mono; [apply IH; by rewrite <- app_assoc|]. intros sp' s' (-> & Hr' & Hh'). split; [done|]. rewrite <- app_assoc in Hr'.
  split; [done|]. by eapply same_header_trans.
Qed.

(** ** The ranges *)

(** Each element ends where the one before it begins. *)
Fixpoint linked (prev : Z) (l : list hammer_ioc_prune_elm) : Prop :=
  match l with [] => True | e :: l => end_tid e = prev /\ linked (beg_tid e) l end.
Definition chained (l : list hammer_ioc_prune_elm) : Prop := match l with [] => True | e :: l => linked (beg_tid e) l end.

Lemma fill_linked l : forall b, linked b (fill (Some b) l).
Proof. induction l as [|e l IH]; intros b; cbn; [done|]. case_bool_decide; [apply IH|]. by split; [|apply IH]. Qed.

Lemma fill_chained l : chained (fill None l).
Proof. destruct l as [|e l]; cbn; [done|]. apply fill_linked. Qed.

Lemma chained_drop i l : chained l -> chained (drop i l).
Proof.
  revert l. induction i as [|i IH]; intros [|e l] Hl; try done. cbn [drop]. apply IH. destruct l as [|e' l]; [done|]. by destruct Hl.
Qed.

(** What is left of [l] when its first element is removed and the terminator is added. *)
Definition terminated (l : list hammer_ioc_prune_elm) : list hammer_ioc_prune_elm :=
  match tail l, last l with
  | _ :: _, Some e => tail l ++ [{| beg_tid := 1; end_tid := beg_tid e; mod_tid := 0 |}]
  | _, _ => []
  end.

Lemma terminated_ranges l : chained l -> with_mod <$> terminated l = elm_of <$> ranges (beg_tid <$> l).
Proof.
  destruct l as [|a [|b l]]; [done|done|]. unfold terminated. cbn [tail chained]. set (l' := b :: l).
  assert (forall l' a, linked (beg_tid a) l' ->
    with_mod <$> l' ++ [{| beg_tid := 1; end_tid := default 0 (beg_tid <$> last (a :: l')); mod_tid := 0 |}] =
    elm_of <$> zip ((beg_tid <$> l') ++ [1]) (beg_tid <$> a :: l')) as H.
  { clear. induction l' as [|c l IH]; intros a Hl; [done|]. destruct Hl as [Hc Hl]. cbn [fmap list_fmap app zip zip_with].
    rewrite last_cons_cons. f_equal; [unfold with_mod, elm_of; cbn; by rewrite Hc|]. by apply IH. }
  intros Hl. destruct (last (a :: l')) as [e|] eqn:He; [|by apply last_None in He]. specialize (H l' a Hl). rewrite He in H. exact H.
Qed.

(** The first [i] elements go, and the new first one has no upper end. *)
Lemma forget_spec sp l i (s : pstate K) (R : softprune -> pstate K -> Prop) :
  rep sp l -> (0 < length l)%nat -> (i <= length l)%nat ->
  (forall sp' l', rep sp' l' -> same_header sp sp' -> maxelms sp' = maxelms sp -> beg_tid <$> l' = beg_tid <$> drop i l ->
     (chained (drop i l) -> chained l') -> R sp' s) ->
  wps (sp ← bcopy_elms sp i 0 (nelms sp - i);
       elm ← get_elm sp 0;
       sp ← put_elm sp 0 {| beg_tid := beg_tid elm; end_tid := HAMMER_MAX_TID; mod_tid := mod_tid elm |};
       mret (set_elms (elms sp) (nelms sp - i) sp)) s E R.
Proof.
  intros Hr Hl Hi HR. pose proof Hr as [Hn [junk Hj]]. stop_step. pose proof (rep_max _ _ Hr) as Hmax.
  unfold bcopy_elms. rewrite !bool_decide_true by lia. cbn [andb]. stop_step. rewrite take_0, app_nil_l, Hn.
  set (v := take (length l - i) (drop i (elms sp)) ++ drop (0 + (length l - i)) (elms sp)).
  assert (exists x junk', v = (Some <$> drop i l) ++ junk' /\ v !! O = Some (Some x) /\ length v = maxelms sp /\
    (forall y, drop i l !! O = Some y -> x = y)) as (x & junk' & Hv & Hx & Hlv & Hxy).
  { assert (take (length l - i) (drop i (elms sp)) = Some <$> drop i l) as Ht.
    { rewrite Hj, drop_app_le by (rewrite length_fmap; lia). rewrite <- fmap_drop. apply take_app_length'. rewrite length_fmap, length_drop. lia. }
    assert (length v = maxelms sp) as Hlv by (unfold v; rewrite length_app, Ht, length_fmap, !length_drop; unfold maxelms in *; lia).
    destruct (drop i l) as [|y l'] eqn:Hd.
    - destruct l as [|x l]; [cbn in Hl; lia|]. exists x, v. split; [done|]. split; [|done]. unfold v. rewrite Ht. cbn [fmap list_fmap app].
      assert (i = length (x :: l)) as -> by (apply (f_equal length) in Hd; rewrite length_drop in Hd; cbn in *; lia).
      rewrite Nat.sub_diag, Hj. done.
    - exists y, (drop (0 + (length l - i)) (elms sp)). unfold v. rewrite Ht. split; [done|]. split; [done|].
      split; [rewrite <- Hlv; unfold v; by rewrite Ht|]. by intros z [= ->]. }
  stop_step. unfold get_elm at 1. cbn [elms set_elms]. rewrite Hx. apply wps_ret. stop_step. unfold put_elm, maxelms. cbn [elms set_elms].
  rewrite bool_decide_true by (unfold maxelms in *; lia). stop_step. stop_step. cbn [elms set_elms nelms]. rewrite Hv.
  set (x' := {| beg_tid := beg_tid x; end_tid := HAMMER_MAX_TID; mod_tid := mod_tid x |}).
  apply (HR _ (match drop i l with [] => [] | y :: l' => x' :: l' end)).
  - split; [cbn; rewrite <- length_drop; by destruct (drop i l)|]. cbn. destruct (drop i l) as [|y l']; cbn; by eexists.
  - done.
  - unfold maxelms at 1. cbn. by rewrite length_insert, <- Hv.
  - destruct (drop i l) as [|y l']; [done|]. cbn. by rewrite (Hxy y eq_refl).
  - destruct (drop i l) as [|y l']; [done|]. cbn. by rewrite (Hxy y eq_refl).
Qed.

Lemma drop_first_spec sp l (s : pstate K) (R : softprune -> pstate K -> Prop) :
  rep sp l -> (forall sp', rep sp' (tail l) -> same_header sp sp' -> maxelms sp' = maxelms sp -> R sp' s) ->
  wps (if bool_decide (nelms sp = O) then mret sp
       else sp ← bcopy_elms sp 1 0 (nelms sp - 1); mret (set_elms (elms sp) (nelms sp - 1) sp)) s E R.
Proof.
  intros Hr HR. pose proof Hr as [Hn Hj]. destruct l as [|e l]; cbn in Hn; rewrite Hn.
  - rewrite bool_decide_true by done. stop_step. by apply HR.
  - rewrite bool_decide_false by done. stop_step. eapply (bcopy_spec sp [] [e] l); [exact Hj|lia|]. intros v Hv Hlv. stop_step. cbn [elms set_elms].
    apply HR; [|done|done]. rewrite app_nil_l in Hv. destruct Hv as [Hv1 Hv2]. split; [|exact Hv2]. cbn in *. lia.
Qed.

Lemma terminator_spec sp l first (s : pstate K) (R : softprune -> pstate K -> Prop) :
  rep sp (tail (first :: l)) -> (length l < maxelms sp)%nat ->
  (forall sp', rep sp' (terminated (first :: l)) -> same_header sp sp' -> R sp' s) ->
  wps (if bool_decide (nelms sp = O) then mret sp
       else
         assertp (bool_decide (nelms sp < maxelms sp)%nat);;
         prev ← get_elm sp (nelms sp - 1);
         sp ← put_elm sp (nelms sp) {| beg_tid := 1; end_tid := beg_tid prev; mod_tid := 0 |};
         mret (set_elms (elms sp) (S (nelms sp)) sp)) s E R.
Proof.
  intros Hr Hm HR. pose proof Hr as [Hn [junk Hj]]. cbn [tail] in *. destruct l as [|b l'] eqn:Hl; [rewrite Hn; by apply HR|]. rewrite <- Hl in *.
  assert (exists e, last l = Some e /\ l !! (length l - 1)%nat = Some e) as (e & He & Hle).
  { rewrite last_lookup. destruct l as [|c l0]; [done|]. destruct (lookup_lt_is_Some_2 (c :: l0) (pred (length (c :: l0)))) as [e He]; [cbn; lia|].
    exists e. split; [done|]. by rewrite <- Nat.sub_1_r in He. }
  rewrite bool_decide_false by (rewrite Hn, Hl; done). stop_step. apply wps_assertp; [apply bool_decide_eq_true; lia|]. stop_step.
  eapply get_elm_spec; [exact Hr|by rewrite Hn|]. stop_step. unfold put_elm. rewrite bool_decide_true by lia. stop_step. stop_step.
  apply HR; [|done]. set (t := {| beg_tid := 1 |}). assert (terminated (first :: l) = l ++ [t]) as ->.
  { unfold terminated. cbn [tail]. rewrite Hl at 1 2. rewrite Hl, last_cons_cons, <- Hl, He. done. }
  assert (exists x junk', junk = x :: junk') as (x & junk' & ->).
  { unfold maxelms in Hm. rewrite Hj, length_app, length_fmap in Hm. destruct junk as [|x junk]; [cbn in Hm; lia|by eexists _, _]. }
  split; [cbn; rewrite length_app, Hn; cbn; lia|]. exists junk'. cbn. rewrite Hj, Hn, fmap_app, <- app_assoc.
  rewrite <- (length_fmap Some l), insert_app_r_alt, Nat.sub_diag by done. done.
Qed.

Lemma mapM_id {A} (l : list A) : mapM id (Some <$> l) = Some l.
Proof. apply mapM_Some_2. induction l as [|x l IH]; constructor; done. Qed.

Section finalize.
Context (o : os K) (qsort : list hammer_ioc_prune_elm -> list hammer_ioc_prune_elm) (Hperm : forall l, qsort l ≡ₚ l).

(** The array after [hammer_softprune_finalize] holds the ranges of the reference. *)
Lemma finalize_spec sp l (s : pstate K) :
  rep sp l -> (0 < length l < maxelms sp)%nat ->
  wps (hammer_softprune_finalize o qsort sp) s E
    (λ sp' s', s' = s /\ rep sp' (elm_of <$> prune_ranges (o_time o) (prune_min sp) (qsort l)) /\ same_header sp sp').
Proof.
  intros Hr Hlen. pose proof Hr as [Hn [junk Hj]]. unfold hammer_softprune_finalize. rewrite bool_decide_false by lia.
  pose proof (Permutation_length (Hperm l)) as Hql.
  stop_step. unfold sort_elms. rewrite Hn, Hj, take_app_length', drop_app_length' by (by rewrite length_fmap). stop_step.
  eapply wps_deref; [apply mapM_id|]. stop_step. set (sp1 := set_elms _ _ sp).
  assert (rep sp1 (qsort l)) as Hr1 by (split; [cbn; lia|by exists junk]).
  assert (maxelms sp1 = maxelms sp) as Hm1 by (unfold maxelms; cbn; rewrite Hj, !length_app, !length_fmap; lia).
  stop_step. eapply wps_mono; [apply (fill_loop_spec (qsort l) _ [] sp1 s Hr1); cbn; lia|]. intros sp2 s2 (-> & Hr2 & Hh2 & Hm2).
  cbn [app last fmap option_fmap option_map] in Hr2. set (u := fill None (qsort l)) in *.
  assert (prune_min sp2 = prune_min sp) as Hpm by (by injection Hh2).
  assert (0 < length u <= length l)%nat as Hu.
  { unfold u. destruct (qsort l) as [|x q] eqn:Hq; [cbn in Hql; lia|]. cbn [fill]. rewrite bool_decide_false by done. cbn [length]. split; [lia|].
    assert (forall q b, (length (fill (Some b) q) <= length q)%nat) as Hle.
    { induction q0 as [|y q0 IH]; intros b; cbn; [done|]. case_bool_decide; [etrans; [apply IH|lia]|]. cbn. specialize (IH (beg_tid y)). lia. }
    specialize (Hle q (beg_tid x)). cbn in Hql. lia. }
  stop_step.
  apply (wps_mono _ _ _ (λ sp3 s3, s3 = s /\ exists l3, rep sp3 l3 /\ same_header sp2 sp3 /\ maxelms sp3 = maxelms sp2 /\ chained l3 /\
    beg_tid <$> l3 = beg_tid <$> old_snapshots (o_time o) (prune_min sp) (qsort l) /\ (length l3 <= length l)%nat)).
  { unfold old_snapshots. fold u. cbv zeta. rewrite Hpm. case_bool_decide as Hp0.
    { stop_step. split; [done|]. exists u. split_and!; try done; [apply fill_chained|lia]. }
    stop_step. eapply wps_mono; [apply (retained_spec _ _ u); [done|destruct Hr2; lia]|]. intros i s3 [-> Hi].
    destruct Hr2 as [Hn2 Hj2]. rewrite Hn2, take_ge, Hpm in Hi by done. pose proof (recent_count_le (o_time o) (prune_min sp) u) as Hile.
    rewrite <- Hi in *. case_bool_decide as Hi0.
    { stop_step. split; [done|]. exists u. rewrite Hi0, drop_0. split_and!; try done; [apply fill_chained|lia]. }
    apply (forget_spec sp2 u i); [done|lia|lia|]. intros sp3 l3 Hr3 Hh3 Hm3 Hb3 Hc3. split; [done|]. exists l3. split_and!; try done.
    - apply Hc3, chained_drop, fill_chained.
    - apply (f_equal length) in Hb3. rewrite !length_fmap, length_drop in Hb3. lia. }
  intros sp3 s3 (-> & l3 & Hr3 & Hh3 & Hm3 & Hc3 & Hb3 & Hl3). unfold prune_ranges. rewrite <- Hb3, <- terminated_ranges by done.
  assert (same_header sp sp3) as Hhs by (eapply same_header_trans; [|exact Hh3]; exact Hh2).
  stop_step. apply (drop_first_spec sp3 l3); [done|]. intros sp4 Hr4 Hh4 Hm4. stop_step.
  assert (forall sp5, rep sp5 (terminated l3) -> same_header sp4 sp5 ->
    wps (adjust_loop (nelms sp5) 0 sp5) s E (λ sp' s', s' = s /\ rep sp' (with_mod <$> terminated l3) /\ same_header sp sp')) as Hadj.
  { intros sp5 Hr5 Hh5. pose proof Hr5 as [-> _]. eapply wps_mono; [by apply (adjust_loop_spec (terminated l3) [])|]. intros sp' s' (-> & Hr' & Hh').
    split; [done|]. split; [done|]. eapply same_header_trans; [exact Hhs|]. eapply same_header_trans; [exact Hh4|]. by eapply same_header_trans. }
  destruct l3 as [|first l3]; [destruct Hr4 as [Hn4 Hj4]; rewrite Hn4; cbn [length tail]; rewrite bool_decide_true by done; stop_step; by apply Hadj|].
  apply (terminator_spec sp4 l3 first); [done|cbn in Hl3; lia|]. intros sp5 Hr5 Hh5. by apply Hadj.
Qed.
End finalize.
End array.
