(* ===== verification/SoftpruneSafe.v ===== *)
(** * SoftpruneSafe: what the ranges of hammer prune leave alone

    The ranges of the reference lie between consecutive snapshots, below the newest old one,
    and reach down to the beginning. *)

From Stdlib Require Import Sorted.
From S2P Require Import Prelude CMonad WpStop HammerDisk Layout Cycle Softprune SoftpruneSpec.

#[local] Opaque Z.to_nat.

(** ** Ranges of descending ids *)

(** The ranges below [t]. *)
Definition below_tid (t : Z) (l : list Z) : list (Z * Z) := zip (l ++ [1]) (t :: l).

Lemma ranges_below t l : l ≠ [] -> ranges (t :: l) = below_tid t l.
Proof. by destruct l. Qed.

Lemma below_cons t a l : below_tid t (a :: l) = (a, t) :: below_tid a l.
Proof. done. Qed.

Abbreviation descending := (StronglySorted (λ a b, b < a)).

Lemma descending_cons t l : descending (t :: l) <-> Forall (λ x, x < t) l /\ descending l.
Proof. split; [intros H; by apply StronglySorted_inv in H as [? ?]|intros [? ?]; by constructor]. Qed.

(** A range is not empty, ends at or below [t], and contains no id in its interior. *)
Lemma below_sound l : forall t b e,
  descending (t :: l) -> Forall (λ x, 1 < x) (t :: l) -> (b, e) ∈ below_tid t l ->
  1 <= b < e /\ e <= t /\ e ∈ t :: l /\ forall x, x ∈ t :: l -> ~ b < x < e.
Proof.
  induction l as [|a l IH]; intros t b e Hd H1 Hin.
  - apply list_elem_of_singleton in Hin as [= -> ->]. apply Forall_cons in H1 as [H1 _]. split; [lia|]. split; [done|]. split; [left|].
    intros x Hx. apply list_elem_of_singleton in Hx as ->. lia.
  - apply descending_cons in Hd as [Ht Hd]. apply Forall_cons in H1 as [H1 H1l]. rewrite below_cons in Hin.
    pose proof Ht as [Hat _]%Forall_cons. apply elem_of_cons in Hin as [[= -> ->]|Hin].
    + apply Forall_cons in H1l as [H1a _]. split; [lia|]. split; [done|]. split; [left|]. intros x [->|[->|Hx]%elem_of_cons]%elem_of_cons; [lia|lia|].
      apply descending_cons in Hd as [Ha _]. rewrite Forall_forall in Ha. specialize (Ha x Hx). lia.
    + destruct (IH a b e Hd H1l Hin) as (H2 & H3 & H4 & H5). split; [done|]. split; [lia|]. split; [by right|].
      intros x [->|Hx]%elem_of_cons; [lia|by apply H5].
Qed.

(** They cover everything below [t]. *)
Lemma below_cover l : forall t x, descending (t :: l) -> 1 <= x < t -> exists b e, (b, e) ∈ below_tid t l /\ b <= x < e.
Proof.
  induction l as [|a l IH]; intros t x Hd Hx.
  - exists 1, t. split; [left|done].
  - apply descending_cons in Hd as [_ Hd]. rewrite below_cons. destruct (decide (x < a)) as [Ha|Ha].
    + destruct (IH a x Hd ltac:(lia)) as (b & e & Hin & Hbe). exists b, e. split; [by right|done].
    + exists a, t. split; [left|lia].
Qed.

(** Each range begins where the next one ends, and the last one begins at 1. *)
Lemma below_adjacent l : forall t i b e,
  below_tid t l !! i = Some (b, e) ->
  match below_tid t l !! S i with Some (_, e') => e' = b | None => b = 1 end.
Proof.
  induction l as [|a l IH]; intros t i b e Hi.
  - destruct i; [by injection Hi as <- <-|by destruct i].
  - rewrite below_cons in *. destruct i as [|i]; [|by eapply (IH a)]. injection Hi as <- <-. by destruct l.
Qed.

(** ** The snapshots *)

(** The order of the sorted array. *)
Lemma cmp_le a b : hammer_softprune_qsort_cmp a b <= 0 <-> beg_tid b <= beg_tid a.
Proof. unfold hammer_softprune_qsort_cmp. repeat case_bool_decide; lia. Qed.

Lemma sorted_cmp l : StronglySorted (λ a b, hammer_softprune_qsort_cmp a b <= 0) l -> StronglySorted (λ a b, beg_tid b <= beg_tid a) l.
Proof. induction 1 as [|e l Hs IH He]; constructor; [done|]. eapply Forall_impl; [exact He|]. intros x. apply cmp_le. Qed.

Section snapshots.
Context (qsort : list hammer_ioc_prune_elm -> list hammer_ioc_prune_elm) (Hperm : forall l, qsort l ≡ₚ l).
Context (Hsort : forall l, StronglySorted (λ a b, beg_tid b <= beg_tid a) (qsort l)).

Lemma fill_descending l : forall b,
  StronglySorted (λ a b, beg_tid b <= beg_tid a) l -> Forall (λ e, beg_tid e <= b) l -> descending (b :: (beg_tid <$> fill (Some b) l)).
Proof.
  induction l as [|e l IH]; intros b Hs Hb; cbn [fill]; [by repeat constructor|]. apply StronglySorted_inv in Hs as [Hs He].
  apply Forall_cons in Hb as [Hb1 Hb]. case_bool_decide as Hd; [by apply IH|]. cbn [fmap list_fmap beg_tid].
  assert (beg_tid e < b) as Hlt by (assert (beg_tid e ≠ b) by congruence; lia). specialize (IH _ Hs He). apply descending_cons. split; [|done].
  constructor; [done|]. apply descending_cons in IH as [IH _]. eapply Forall_impl; [exact IH|]. intros x Hx. cbn in *. lia.
Qed.

Lemma fill_none_descending l : StronglySorted (λ a b, beg_tid b <= beg_tid a) l -> descending (beg_tid <$> fill None l).
Proof.
  destruct l as [|e l]; cbn [fill]; [by constructor|]. intros [Hs He]%StronglySorted_inv. rewrite bool_decide_false by done.
  exact (fill_descending l (beg_tid e) Hs He).
Qed.

Lemma fill_elem l : forall prev t, t ∈ beg_tid <$> l -> prev = Some t \/ t ∈ beg_tid <$> fill prev l.
Proof.
  induction l as [|e l IH]; intros prev t Ht; [by apply elem_of_nil in Ht|]. cbn [fill]. cbn in Ht. apply elem_of_cons in Ht as [->|Ht].
  - case_bool_decide; [by left|]. right. left.
  - case_bool_decide as Hp; [by apply IH|]. right. destruct (IH (Some (beg_tid e)) t Ht) as [[= ->]|Hin]; [left|by right].
Qed.

Lemma fill_elem_inv l : forall prev t, t ∈ beg_tid <$> fill prev l -> t ∈ beg_tid <$> l.
Proof.
  induction l as [|e l IH]; intros prev t Ht; [done|]. cbn [fill] in Ht. case_bool_decide; [right; by eapply IH|].
  cbn in Ht. apply elem_of_cons in Ht as [->|Ht]; [left|right; by eapply IH].
Qed.

(** A snapshot that is kept has the time of one that was collected with its id. *)
Lemma fill_times l : forall prev e', e' ∈ fill prev l -> exists e, e ∈ l /\ beg_tid e = beg_tid e' /\ mod_tid e = mod_tid e'.
Proof.
  induction l as [|x l IH]; intros prev e' He; [by apply elem_of_nil in He|]. cbn [fill] in He.
  case_bool_decide; [|apply elem_of_cons in He as [->|He]; [exists x; split; [left|done]|]];
    destruct (IH _ _ He) as (e & ? & ?); exists e; (split; [by right|done]).
Qed.

Lemma recent_before now min l e i : l !! i = Some e -> recent now min e = true -> (i < recent_count now min l)%nat.
Proof.
  revert i. induction l as [|x l IH]; intros i Hi He; [done|]. destruct i as [|i].
  - injection Hi as ->. cbn. rewrite He. destruct (recent_count now min l); lia.
  - specialize (IH i Hi He). cbn. destruct (recent_count now min l); lia.
Qed.

(** The last of the recent snapshots. *)
Lemma recent_last now min l n : recent_count now min l = S n -> exists e, l !! n = Some e /\ recent now min e = true.
Proof.
  revert n. induction l as [|x l IH]; intros n; cbn; [done|]. destruct (recent_count now min l) as [|k].
  - destruct (recent now min x) eqn:Hx; [|done]. intros [= <-]. by exists x.
  - intros [= <-]. exact (IH k eq_refl).
Qed.

Lemma descending_drop l i a j b : descending l -> l !! j = Some b -> a ∈ drop i l -> (j < i)%nat -> a < b.
Proof.
  intros Hd Hj [k Hk]%list_elem_of_lookup Hlt. rewrite lookup_drop in Hk. revert i j k Hlt Hj Hk. induction Hd as [|x l Hd IH Hx]; intros i j k Hlt Hj Hk; [done|].
  destruct j as [|j].
  - injection Hj as <-. rewrite Forall_forall in Hx. apply Hx. destruct i; [lia|]. cbn in Hk. by apply list_elem_of_lookup_2 in Hk.
  - destruct i as [|i]; [lia|]. apply (IH i j k); [lia|done|done].
Qed.

Lemma old_suffix now min l : exists i, old_snapshots now min l = drop i (fill None l) /\
  (min ≠ 0 -> i = recent_count now min (fill None l)) /\ (min = 0 -> i = O).
Proof. unfold old_snapshots. case_bool_decide; [exists O; split; [by rewrite drop_0|done]|by eexists]. Qed.

(** The ranges that are asked for, against the snapshots that were collected. *)
Lemma prune_ranges_sound now min l b e :
  Forall (λ x, 1 < beg_tid x) l -> (b, e) ∈ prune_ranges now min (qsort l) ->
  1 <= b < e /\ e ∈ beg_tid <$> l /\ (forall x, x ∈ beg_tid <$> l -> ~ b < x < e) /\
  (forall x, x ∈ l -> min ≠ 0 -> (forall y, y ∈ l -> beg_tid y = beg_tid x -> recent now min y = true) -> e < beg_tid x).
Proof.
  intros H1 Hin. unfold prune_ranges in Hin. destruct (old_suffix now min (qsort l)) as (i & Ho & Hi & _). rewrite Ho in Hin. set (u := fill None (qsort l)) in *.
  assert (descending (beg_tid <$> u)) as Hd by (apply fill_none_descending, Hsort).
  assert (forall t, t ∈ beg_tid <$> u <-> t ∈ beg_tid <$> l) as Hu.
  { intros t. rewrite <- (fmap_Permutation beg_tid _ _ (Hperm l)). split; [apply fill_elem_inv|].
    intros Ht. by destruct (fill_elem _ None _ Ht). }
  assert (Forall (λ x, 1 < x) (beg_tid <$> u)) as H1u.
  { apply Forall_forall. intros t Ht%Hu. apply list_elem_of_fmap in Ht as (x & -> & Hx). rewrite Forall_forall in H1. by apply H1. }
  rewrite fmap_drop in Hin. destruct (drop i (beg_tid <$> u)) as [|t [|a tl]] eqn:Hdrop; [by apply elem_of_nil in Hin|by apply elem_of_nil in Hin|].
  rewrite ranges_below in Hin by done. assert (beg_tid <$> u = take i (beg_tid <$> u) ++ t :: a :: tl) as Hsplit by (by rewrite <- Hdrop, take_drop).
  assert (descending (t :: a :: tl)) as Hdt.
  { rewrite Hsplit in Hd. clear -Hd. induction (take i (beg_tid <$> u)) as [|y ys IH]; [done|]. apply IH. by apply descending_cons in Hd as [_ ?]. }
  assert (Forall (λ x, 1 < x) (t :: a :: tl)) as H1t by (rewrite <- Hdrop; by apply Forall_drop).
  destruct (below_sound _ _ _ _ Hdt H1t Hin) as (B1 & B2 & B3 & B4). rewrite <- Hdrop in B3, B4. split; [done|].
  split; [apply Hu; rewrite <- (take_drop i); apply elem_of_app; by right|]. split.
  - intros x Hx Hbe. apply Hu in Hx. rewrite <- (take_drop i (beg_tid <$> u)) in Hx. apply elem_of_app in Hx as [Hx|Hx]; [|by apply (B4 x)].
    apply list_elem_of_lookup in Hx as [j Hj]. apply lookup_take_Some in Hj as [Hj Hji].
    pose proof (descending_drop _ _ _ _ _ Hd Hj B3 Hji). lia.
  - intros x Hx Hmin Hrec. specialize (Hi Hmin).
    assert (beg_tid x ∈ beg_tid <$> u) as Hxu by (apply Hu; by apply list_elem_of_fmap_2).
    apply list_elem_of_fmap in Hxu as (x' & Hb' & Hx'). pose proof Hx' as (y & Hy & Hyb & Hym)%fill_times. rewrite Hperm in Hy.
    apply list_elem_of_lookup in Hx' as [j Hj].
    assert (recent now min x' = true) as Hrec' by (specialize (Hrec y Hy ltac:(congruence)); unfold recent in *; by rewrite <- Hym).
    pose proof (recent_before _ _ _ _ _ Hj Hrec') as Hlt. rewrite <- Hi in Hlt. rewrite Hb'.
    apply (descending_drop (beg_tid <$> u) i e j); [done|by rewrite list_lookup_fmap, Hj|done|done].
Qed.

(** The ranges are the ranges below an id, or there are none. *)
Lemma prune_ranges_shape now min l :
  prune_ranges now min (qsort l) = [] \/
  exists t tl, prune_ranges now min (qsort l) = below_tid t tl /\ descending (t :: tl).
Proof.
  unfold prune_ranges. destruct (old_suffix now min (qsort l)) as (i & Ho & _). rewrite Ho, fmap_drop.
  assert (descending (beg_tid <$> fill None (qsort l))) as Hd by (apply fill_none_descending, Hsort).
  rewrite <- (take_drop i) in Hd. set (v := drop i (beg_tid <$> fill None (qsort l))) in *.
  assert (descending v) as Hv.
  { clear -Hd. induction (take i (beg_tid <$> fill None (qsort l))) as [|y ys IH]; [done|]. apply IH. by apply descending_cons in Hd as [_ ?]. }
  destruct v as [|t [|a tl]]; [by left|by left|]. right. by exists t, (a :: tl).
Qed.

(** Nothing below the first range is left out. *)
Lemma prune_ranges_cover now min l x r :
  head (prune_ranges now min (qsort l)) = Some r -> 1 <= x < snd r -> exists b e, (b, e) ∈ prune_ranges now min (qsort l) /\ b <= x < e.
Proof.
  destruct (prune_ranges_shape now min l) as [->|(t & tl & -> & Hd)]; [done|]. intros Hr Hx. apply below_cover; [done|].
  destruct tl; injection Hr as <-; exact Hx.
Qed.

Lemma descending_order l i j a b : descending l -> l !! i = Some a -> l !! j = Some b -> b < a -> (i < j)%nat.
Proof.
  intros Hd Ha Hb Hba. destruct (decide (i < j)%nat) as [|Hn]; [done|]. destruct (decide (i = j)) as [->|]; [rewrite Ha in Hb; injection Hb; lia|].
  assert (a < b); [|lia]. apply (descending_drop l (S j) a j b); [done|done| |lia].
  apply list_elem_of_lookup. exists (i - S j)%nat. rewrite lookup_drop. by replace (S j + (i - S j))%nat with i by lia.
Qed.

Lemma descending_suffix i l : descending l -> descending (drop i l).
Proof. intros Hd. revert i. induction Hd as [|y ys Hs IH Hy]; intros [|i]; cbn; [constructor..| |apply IH]. by constructor. Qed.

(** What follows an element that has a smaller one behind it is covered up to the element. *)
Lemma ranges_cover l i j1 j2 t1 t2 x :
  descending l -> l !! j1 = Some t1 -> l !! j2 = Some t2 -> t2 < t1 -> (i <= j1)%nat -> 1 <= x < t1 ->
  exists b e, (b, e) ∈ ranges (drop i l) /\ b <= x < e.
Proof.
  intros Hd H1 H2 Hlt Hi Hx. pose proof (descending_order _ _ _ _ _ Hd H1 H2 Hlt) as Hj.
  replace j1 with (i + (j1 - i))%nat in H1 by lia. replace j2 with (i + (j2 - i))%nat in H2 by lia. rewrite <- lookup_drop in H1, H2.
  apply (descending_suffix i) in Hd. destruct (drop i l) as [|t [|a tl]]; [done|destruct (j2 - i)%nat eqn:?; [lia|done]|].
  rewrite ranges_below by done. apply below_cover; [done|]. destruct (j1 - i)%nat as [|k]; [injection H1 as ->; lia|].
  apply descending_cons in Hd as [Ht _]. rewrite Forall_forall in Ht.
  apply (list_elem_of_lookup_2 (a :: tl) k) in H1. specialize (Ht t1 H1). lia.
Qed.

(** Everything below an old snapshot that has another one below it is in a range. *)
Lemma prune_ranges_cover_old now min l e1 e2 x :
  e1 ∈ l -> e2 ∈ l -> beg_tid e2 < beg_tid e1 ->
  (min = 0 \/ forall e, e ∈ l -> recent now min e = true -> beg_tid e1 < beg_tid e) ->
  1 <= x < beg_tid e1 -> exists b e, (b, e) ∈ prune_ranges now min (qsort l) /\ b <= x < e.
Proof.
  intros H1 H2 Hlt Hold Hx. unfold prune_ranges. destruct (old_suffix now min (qsort l)) as (i & -> & Hi & H0). set (u := fill None (qsort l)) in *.
  assert (descending (beg_tid <$> u)) as Hd by (apply fill_none_descending, Hsort).
  assert (forall e, e ∈ l -> exists j, (beg_tid <$> u) !! j = Some (beg_tid e)) as Hu.
  { intros e He. apply list_elem_of_lookup. destruct (fill_elem (qsort l) None (beg_tid e)) as [?|?]; [|done..].
    rewrite (fmap_Permutation beg_tid _ _ (Hperm l)). by apply list_elem_of_fmap_2. }
  destruct (Hu e1 H1) as [j1 Hj1], (Hu e2 H2) as [j2 Hj2]. rewrite fmap_drop. eapply ranges_cover; [done|exact Hj1|exact Hj2|done| |done].
  destruct (decide (min = 0)) as [Hm|Hm]; [rewrite H0 by done; lia|]. destruct Hold as [?|Hold]; [done|]. rewrite Hi by done.
  destruct (recent_count now min u) as [|n] eqn:Hn; [lia|]. destruct (recent_last _ _ _ _ Hn) as (e & He & Hr).
  destruct (fill_times (qsort l) None e) as (y & Hy & Hyb & Hym); [by apply list_elem_of_lookup_2 in He|]. rewrite Hperm in Hy.
  apply (descending_order (beg_tid <$> u) n j1 (beg_tid e) (beg_tid e1)); [done|by rewrite list_lookup_fmap, He|done|].
  rewrite <- Hyb. apply Hold; [done|]. unfold recent in *. by rewrite Hym.
Qed.

Lemma prune_ranges_adjacent now min l i b e :
  prune_ranges now min (qsort l) !! i = Some (b, e) ->
  match prune_ranges now min (qsort l) !! S i with Some (_, e') => e' = b | None => b = 1 end.
Proof. destruct (prune_ranges_shape now min l) as [->|(t & tl & -> & _)]; [done|]. apply below_adjacent. Qed.
End snapshots.
