(* ===== verification/SoftpruneRun.v ===== *)
(** * SoftpruneRun: a run of hammer prune

    The collection of the snapshots from the softlinks and from the meta-data, and the
    request that is made of them. *)

From S2P Require Import Prelude CMonad WpStop HammerDisk Layout Cycle Softprune SoftpruneSpec.

#[local] Opaque Z.to_nat.

(** The array holds [l] and has room for the terminator. *)
Definition roomy (sp : softprune) (l : list hammer_ioc_prune_elm) : Prop := rep sp l /\ (length l < maxelms sp)%nat /\ (2 <= maxelms sp)%nat.

Definition new_elm (tid ct mt : Z) : hammer_ioc_prune_elm := {| beg_tid := tid; end_tid := 0; mod_tid := u64 (if bool_decide (ct < mt) then ct else mt) |}.

Section run.
Context {K : Type} (o : os K) (qsort : list hammer_ioc_prune_elm -> list hammer_ioc_prune_elm) (behind : bytes) (E : stop -> Prop).

Lemma addelm_spec sp l tid ct mt (s : pstate K) (R : softprune -> pstate K -> Prop) :
  roomy sp l -> Z.of_nat (length l) < 2 ^ 28 ->
  (forall sp', roomy sp' (l ++ [new_elm tid ct mt]) -> same_header sp sp' -> R sp' s) -> wps (hammer_softprune_addelm sp tid ct mt) s E R.
Proof.
  intros (Hr & Hl & Hm) Hb HR. pose proof Hr as [Hn [junk Hj]]. unfold hammer_softprune_addelm. stop_step.
  apply (wps_mono _ _ _ (λ sp1 s1, s1 = s /\ rep sp1 l /\ same_header sp sp1 /\ (S (length l) < maxelms sp1)%nat)).
  { case_bool_decide as Hg; [|stop_step; split_and!; try done; lia]. rewrite bool_decide_true by lia. stop_step.
    assert (maxelms sp < Nat.div (maxelms sp * 3) 2)%nat as Hdiv.
    { pose proof (Nat.div_mod_eq (maxelms sp * 3) 2). pose proof (Nat.mod_upper_bound (maxelms sp * 3) 2). lia. }
    split_and!; try done.
    - split; [done|]. cbn. rewrite Hj, <- app_assoc. by eexists.
    - unfold maxelms at 1. cbn [elms set_elms]. rewrite length_app, length_replicate. fold (maxelms sp). lia. }
  intros sp1 s1 (-> & [Hn1 [junk1 Hj1]] & Hh1 & Hm1). stop_step. unfold put_elm. rewrite bool_decide_true by lia. do 2 stop_step.
  assert (exists x junk', junk1 = x :: junk') as (x & junk' & ->).
  { unfold maxelms in Hm1. rewrite Hj1, length_app, length_fmap in Hm1. destruct junk1 as [|x junk1]; [cbn in Hm1; lia|by eexists _, _]. }
  apply HR; [|done]. fold (new_elm tid ct mt). split; [|split].
  - split; [cbn; rewrite length_app, Hn1; cbn; lia|]. exists junk'. cbn. rewrite Hj1, Hn1, fmap_app, <- app_assoc.
    rewrite <- (length_fmap Some l), insert_app_r_alt, Nat.sub_diag by done. done.
  - unfold maxelms in *. cbn. rewrite length_insert, length_app. cbn. lia.
  - unfold maxelms in *. cbn. rewrite length_insert. lia.
Qed.

(** ** The softlinks *)

Definition link_path (dirpath linkbuf : bytes) (n : nat) : bytes :=
  if bool_decide (head linkbuf = Some slash) then take n linkbuf else dirpath ++ [slash] ++ take n linkbuf.

(** The snapshot of a directory entry: the path and the id of its file system, and its element. *)
Definition link_entry (dirpath : bytes) (den : dirent) : option (bytes * Z * hammer_ioc_prune_elm) :=
  match snapshot_link den with
  | Some (linkbuf, n, (ct, mt)) =>
      fsid ← o_statfs o (link_path dirpath linkbuf n); Some (link_path dirpath linkbuf n, fsid, new_elm (strtoull (drop (n + 2) linkbuf)) ct mt)
  | None => None
  end.
Definition link_entries (dirpath : bytes) (dens : list dirent) : list (bytes * Z * hammer_ioc_prune_elm) := omap (link_entry dirpath) dens.

(** The list of file systems after the entries: one, if there is any. *)
Definition collected (kb ke : hammer_base_elm) (fsid : Z) (entries : list (bytes * Z * hammer_ioc_prune_elm)) (base : list softprune) : Prop :=
  match entries with
  | [] => base = []
  | (path, _, _) :: _ => exists sp, base = [sp] /\ roomy sp (snd <$> entries) /\ sp_fsid sp = fsid /\ filesystem sp = path /\
      key_beg sp = kb /\ key_end sp = ke /\ head_flags sp = 0
  end.

Lemma strrchr_bound c s : forall i k, strrchr c i s = Some k -> (i <= k < i + length s)%nat.
Proof.
  induction s as [|x s IH]; intros i k; cbn; [done|]. destruct (strrchr c (S i) s) as [k'|] eqn:Hk.
  - intros [= ->]. specialize (IH _ _ Hk). lia.
  - case_bool_decide; [|done]. intros [= ->]. lia.
Qed.

Lemma snapshot_link_bound den linkbuf n st : snapshot_link den = Some (linkbuf, n, st) -> (n + 2 <= length linkbuf)%nat.
Proof.
  unfold snapshot_link. destruct (_ || _); [done|]. destruct (d_lstat den) as [[[[] ct] mt]|]; [|done|done]. destruct (d_link den) as [l|]; [|done].
  destruct (strrchr at_sign 0 l) as [[|i]|] eqn:Hs; [done| |done]. case_bool_decide; [|done]. intros [= <- <- <-].
  pose proof (strrchr_bound _ _ _ _ Hs). lia.
Qed.

Lemma new_roomy fsid path kb ke : let sp := {| sp_fsid := fsid; filesystem := path; key_beg := kb; key_end := ke; head_flags := 0; nelms := 0;
  elms := replicate 32 None; prune_min := 0 |} in roomy sp [].
Proof. cbv zeta. split; [split; [done|by eexists]|]. cbn. split; unfold maxelms; cbn; lia. Qed.

Lemma scan_dirents_spec kb ke fsid dirpath dens : forall past base (s : pstate K),
  collected kb ke fsid past base -> Forall (λ x, snd (fst x) = fsid) (link_entries dirpath dens) ->
  Z.of_nat (length past + length (link_entries dirpath dens)) < 2 ^ 28 ->
  wps (scan_dirents o behind dens base kb ke dirpath) s E (λ base' s', s' = s /\ collected kb ke fsid (past ++ link_entries dirpath dens) base').
Proof.
  induction dens as [|den dens IH]; intros past base s Hc Hfs Hb; cbn [scan_dirents]; [stop_step; split; [done|]; cbn; by rewrite app_nil_r|].
  cbn [link_entries omap list_omap] in *. fold (link_entries dirpath dens) in *. stop_step. unfold link_entry in *.
  destruct (snapshot_link den) as [[[linkbuf n] [ct mt]]|] eqn:Hsl; [|stop_step; by apply IH].
  pose proof (snapshot_link_bound _ _ _ _ Hsl) as Hlb. stop_step. unfold hammer_softprune_addentry. fold (link_path dirpath linkbuf n).
  destruct (o_statfs o (link_path dirpath linkbuf n)) as [fs|]; [|do 2 stop_step; by apply IH]. cbn [mbind option_bind] in *.
  apply Forall_cons in Hfs as [Hfs1 Hfs]. cbn in Hfs1. subst fs. cbn [length] in Hb.
  set (e := (link_path dirpath linkbuf n, fsid, new_elm (strtoull (drop (n + 2) linkbuf)) ct mt)) in *.
  rewrite bool_decide_true by done. cbn [default fmap option_fmap option_map fst snd].
  assert (forall base', collected kb ke fsid (past ++ [e]) base' ->
    wps (scan_dirents o behind dens base' kb ke dirpath) s E (λ base' s', s' = s /\ collected kb ke fsid (past ++ e :: link_entries dirpath dens) base')) as Hgo.
  { intros base' Hc'. eapply wps_mono; [apply (IH (past ++ [e])); [done|done|]|].
    - rewrite length_app. cbn [length]. lia.
    - intros b s'. by rewrite <- app_assoc. }
  destruct past as [|[[p0 f0] e0] past].
  - cbn in Hc. subst base. cbn [list_find]. stop_step. eapply addelm_spec; [apply new_roomy|cbn; lia|]. intros sp' Hr Hh. do 2 stop_step. cbn [fst].
    apply Hgo. exists sp'. split; [done|]. split; [exact Hr|]. unfold same_header in Hh. injection Hh as H1 H2 H3 H4 H5 H6. done.
  - destruct Hc as (sp & -> & Hr & Hf1 & Hf2 & Hk1 & Hk2 & Hfl). cbn [list_find]. rewrite decide_True by done. cbn [fmap option_fmap option_map].
    stop_step. eapply addelm_spec; [exact Hr|rewrite length_fmap; cbn [length] in *; lia|]. intros sp' Hr' Hh. do 2 stop_step. cbn [fst].
    apply Hgo. exists sp'. split; [done|]. unfold same_header in Hh. injection Hh as H1 H2 H3 H4 H5 H6.
    split; [rewrite <- (fmap_app snd (_ :: past) [e]) in Hr'; exact Hr'|]. split_and!; congruence.
Qed.

(** ** The meta-data *)

Definition snap_elm (snap : hammer_snapshot_data) : hammer_ioc_prune_elm := new_elm (snap_tid snap) (snap_ts snap / 1000000) (snap_ts snap / 1000000).

(** An answer that stays within the array of the structure. *)
Definition reply_ok (r : snapshot_reply) : bool :=
  bool_decide (sr_index r <= sr_count r)%nat && bool_decide (sr_count r <= HAMMER_SNAPS_PER_IOCTL)%nat && bool_decide (sr_count r <= length (sr_snaps r))%nat.
Definition reply_snaps (r : snapshot_reply) : list hammer_snapshot_data := take (sr_count r - sr_index r) (drop (sr_index r) (sr_snaps r)).

(** The snapshots that the kernel lists, with its state afterwards. *)
Fixpoint meta_snaps (fuel : nat) (k : K) : option (list hammer_snapshot_data * K) :=
  match fuel with
  | O => None
  | S fuel =>
      match o_get_snapshot o k with
      | (Some r, k') =>
          if reply_ok r then
            if sr_eof r then Some (reply_snaps r, k')
            else '(rest, k'') ← meta_snaps fuel k'; Some (reply_snaps r ++ rest, k'')
          else None
      | _ => None
      end
  end.
Definition meta_listing (fuel : nat) (k : K) : option (list hammer_snapshot_data * K) :=
  match o_get_version o with
  | None => None
  | Some v => if bool_decide (v < 3) then Some ([], k) else meta_snaps fuel k
  end.

Lemma scan_snaps_spec r n : forall i sp l (s : pstate K),
  (i + n <= HAMMER_SNAPS_PER_IOCTL)%nat -> (i + n <= length (sr_snaps r))%nat -> roomy sp l -> Z.of_nat (length l + n) < 2 ^ 28 ->
  wps (scan_snaps o n r i sp false []) s E
    (λ x s', s' = s /\ roomy (fst x) (l ++ (snap_elm <$> take n (drop i (sr_snaps r)))) /\ same_header sp (fst x) /\ snd x = []).
Proof.
  induction n as [|n IH]; intros i sp l s Hi Hlen Hr Hb; cbn [scan_snaps]; [stop_step; cbn; by rewrite app_nil_r|].
  destruct (lookup_lt_is_Some_2 (sr_snaps r) i) as [snap Hs]; [lia|]. rewrite bool_decide_true by lia. stop_step.
  eapply wps_deref; [exact Hs|]. stop_step. eapply addelm_spec; [exact Hr|lia|]. intros sp' Hr' Hh. fold (snap_elm snap) in Hr'.
  eapply wps_mono; [apply (IH (S i) sp' (l ++ [snap_elm snap])); try done; [lia|lia|rewrite length_app; cbn [length]; lia]|].
  intros x s' (-> & Hr2 & Hh2 & Hx). split; [done|]. rewrite (drop_S _ _ _ Hs). cbn [take fmap list_fmap]. rewrite <- app_assoc in Hr2.
  split; [done|]. split; [by eapply same_header_trans|done].
Qed.

Lemma meta_loop_spec fuel : forall sp l snaps k' (s : pstate K),
  meta_snaps fuel (ps_kernel s) = Some (snaps, k') -> roomy sp l -> Z.of_nat (length l + length snaps) < 2 ^ 28 ->
  wps (scanmeta_loop o fuel sp false []) s E
    (λ x s', s' = set_ps_kernel k' s /\ exists sp', x = Some sp' /\ roomy sp' (l ++ (snap_elm <$> snaps)) /\ same_header sp sp').
Proof.
  induction fuel as [|fuel IH]; intros sp l snaps k' s Hk Hr Hb; [done|]. cbn [meta_snaps scanmeta_loop] in *. stop_step. unfold ask. do 2 stop_step.
  destruct (o_get_snapshot o (ps_kernel s)) as [[reply|] k1] eqn:Hget; [|done]. cbn [fst snd]. stop_step. unfold put_state. apply (wps_modify E (λ _, _)).
  stop_step. destruct (reply_ok reply) eqn:Hok; [|done]. unfold reply_ok in Hok. rewrite !andb_true_iff, !bool_decide_eq_true in Hok.
  destruct Hok as [[Hok1 Hok2] Hok3]. fold (reply_snaps reply) in *. cbv iota.
  assert (exists rest, snaps = reply_snaps reply ++ rest /\ (sr_eof reply = true -> rest = [] /\ k' = k1) /\
    (sr_eof reply = false -> meta_snaps fuel k1 = Some (rest, k'))) as (rest & -> & He1 & He2).
  { destruct (sr_eof reply); [injection Hk as <- <-; exists []; rewrite app_nil_r; by split_and!|].
    apply bind_Some in Hk as ([rest k2] & Hk & [= <- <-]). by exists rest. }
  rewrite length_app in Hb. stop_step. eapply wps_mono.
  { apply scan_snaps_spec; [lia|lia|exact Hr|]. unfold reply_snaps in Hb. rewrite length_take, length_drop in Hb. lia. }
  intros x s1 (-> & Hr1 & Hh1 & Hx). fold (reply_snaps reply) in Hr1. destruct (sr_eof reply).
  - destruct (He1 eq_refl) as [-> ->]. cbn [when]. do 2 stop_step. split; [done|]. exists (fst x). by rewrite app_nil_r.
  - rewrite Hx. eapply wps_mono; [apply (IH _ _ rest k' (set_ps_kernel k1 s) (He2 eq_refl) Hr1); rewrite length_app, length_fmap; lia|].
    intros y s2 (-> & sp' & -> & Hr2 & Hh2). split; [done|]. exists sp'. rewrite fmap_app, app_assoc. split; [done|]. split; [done|].
    by eapply same_header_trans.
Qed.

Lemma scanmeta_spec fuel sp l snaps k' (s : pstate K) :
  meta_listing fuel (ps_kernel s) = Some (snaps, k') -> roomy sp l -> Z.of_nat (length l + length snaps) < 2 ^ 28 ->
  wps (hammer_softprune_scanmeta o fuel sp false) s E
    (λ x s', s' = set_ps_kernel k' s /\ exists sp', x = Some sp' /\ roomy sp' (l ++ (snap_elm <$> snaps)) /\ same_header sp sp').
Proof.
  unfold meta_listing, hammer_softprune_scanmeta. intros Hk Hr Hb. destruct (o_get_version o) as [v|]; [|done]. case_bool_decide.
  - injection Hk as <- <-. stop_step. split; [by destruct s|]. exists sp. cbn. by rewrite app_nil_r.
  - by apply meta_loop_spec.
Qed.
End run.

(** ** The command *)

Section command.
Context {K : Type} (o : os K) (qsort : list hammer_ioc_prune_elm -> list hammer_ioc_prune_elm) (behind : bytes) (Hperm : forall l, qsort l ≡ₚ l).

(** What [hammer prune] does with the answer to its request. *)
Definition prune_outcome (path : bool) (sp : softprune) (s : pstate K) : res (pstate K) () :=
  let '(reply, k) := o_prune o sp (ps_kernel s) in
  let s := {| ps_cycle := ps_cycle s; ps_kernel := k; ps_log := ps_log s ++ [sp] |} in
  match reply with
  | PruneFailed => Stop (Exit 2)
  | PruneDone => Ok () (if path then set_ps_cycle None s else s)
  | PruneInterrupted key_cur => Ok () (if path then set_ps_cycle (Some (encode key_cur ++ le_bytes 8 0)) s else s)
  end.

Definition finish_rcode (r : option Z) : prog (pstate K) () :=
  match r with Some rcode => if bool_decide (rcode = 0) then mret () else stop_with (Exit rcode) | None => mret () end.

Lemma wps_never {A} (m : prog (pstate K) A) s (R : A -> pstate K -> Prop) : wps m s never R -> exists a s', m s = Ok a s' /\ R a s'.
Proof. unfold wps. destruct (m s) as [a s'|e]; [eauto|done]. Qed.

(** The ranges of an array that may be empty. *)
Lemma finalize_any sp l (s : pstate K) :
  roomy sp l -> exists sp', hammer_softprune_finalize o qsort sp s = Ok sp' s /\
    rep sp' (elm_of <$> prune_ranges (o_time o) (prune_min sp) (qsort l)) /\ same_header sp sp'.
Proof.
  intros (Hr & Hl & Hm). destruct l as [|e l].
  - exists sp. pose proof Hr as [Hn Hj]. unfold hammer_softprune_finalize. rewrite bool_decide_true by done. split; [done|]. split; [|done].
    assert (qsort [] = []) as -> by (apply Permutation_nil_r, Hperm). unfold prune_ranges, old_snapshots. cbn. by destruct (bool_decide _).
  - destruct (wps_never _ _ _ (finalize_spec never o qsort Hperm sp (e :: l) s Hr ltac:(cbn in *; lia))) as (sp' & s' & Hf & -> & H). by exists sp'.
Qed.

Lemma issue_prune_spec path fuel sp l snaps k' min (s : pstate K) :
  roomy sp l -> head_flags sp = 0 -> o_open o (filesystem sp) = true -> o_get_pseudofs o (filesystem sp) = Some min ->
  meta_listing o fuel (ps_kernel s) = Some (snaps, k') -> Z.of_nat (length l + length snaps) < 2 ^ 28 ->
  let R := prune_ranges (o_time o) min (qsort (l ++ (snap_elm <$> snaps))) in
  exists sp', rep sp' (elm_of <$> R) /\ same_header (set_prune_min min sp) sp' /\
    (issue_prune o qsort path fuel false sp ≫= finish_rcode) s =
      if bool_decide (R = []) then Ok () (set_ps_kernel k' s) else prune_outcome path sp' (set_ps_kernel k' s).
Proof.
  intros Hr Hfl Ho Hp Hk Hb R. unfold issue_prune. rewrite Ho, Hp. cbn [negb].
  assert (roomy (set_prune_min min sp) l) as Hr0 by exact Hr.
  destruct (wps_never _ _ _ (scanmeta_spec o never fuel _ l snaps k' s Hk Hr0 Hb)) as (x & s1 & Hm & -> & sp1 & -> & Hr1 & Hh1).
  rewrite bind_bind, (bind_Ok _ _ _ _ _ Hm). destruct (finalize_any sp1 _ (set_ps_kernel k' s) Hr1) as (sp2 & Hf & Hr2 & Hh2).
  assert (prune_min sp1 = min) as Hmin by (by injection Hh1). rewrite Hmin in Hr2. fold R in Hr2.
  exists sp2. split; [done|]. assert (same_header (set_prune_min min sp) sp2) as Hh by (by eapply same_header_trans). split; [done|].
  rewrite bind_bind, (bind_Ok _ _ _ _ _ Hf). assert (head_flags sp2 = 0) as Hfl2 by (injection Hh as ? ? ? ? Hx; by rewrite Hx).
  rewrite Hfl2. destruct Hr2 as [Hn2 _]. rewrite length_fmap in Hn2. rewrite Hn2. destruct R as [|r R']; [done|].
  rewrite bool_decide_false by done. cbn [andb]. rewrite bool_decide_false by done. unfold prune_outcome, ask, modify, get_state, put_state, mbind, prog_bind. cbn.
  destruct (o_prune o sp2 k') as [[]]; cbn; by destruct path.
Qed.

(** The path of the file system. *)
Definition fs_path (av0 : bytes) (entries : list (bytes * Z * hammer_ioc_prune_elm)) : bytes :=
  match entries with (path, _, _) :: _ => path | [] => av0 ++ [slash] end.

Lemma softprune_spec path fuel av0 dens fsid snaps k' min (s : pstate K) :
  let entries := link_entries o av0 dens in
  o_readdir o = Some dens -> Forall (λ x, snd (fst x) = fsid) entries -> o_statfs o (av0 ++ [slash]) = Some fsid ->
  o_open o (fs_path av0 entries) = true -> o_get_pseudofs o (fs_path av0 entries) = Some min ->
  meta_listing o fuel (ps_kernel s) = Some (snaps, k') -> Z.of_nat (length entries + length snaps) < 2 ^ 28 ->
  let R := prune_ranges (o_time o) min (qsort ((snd <$> entries) ++ (snap_elm <$> snaps))) in
  exists sp c, rep sp (elm_of <$> R) /\ filesystem sp = fs_path av0 entries /\ key_beg sp = template_beg /\
    key_end sp = resume_key template_end path (ps_cycle s) /\ head_flags sp = 0 /\ (c = ps_cycle s \/ c = None) /\
    hammer_cmd_softprune o qsort behind path fuel av0 false s =
      let s := set_ps_kernel k' (set_ps_cycle c s) in if bool_decide (R = []) then Ok () s else prune_outcome path sp s.
Proof.
  intros entries Hdir Hfs Hst Ho Hp Hk Hb R. unfold hammer_cmd_softprune.
  destruct (wps_never _ _ _ (get_cycle_spec path template_end 0 s never)) as (key & s1 & Hc & Hkey & c & -> & Hcc & _).
  rewrite (bind_Ok _ _ _ _ _ Hc), Hkey. set (ke := resume_key template_end path (cycle_of s)). set (s1 := with_cycle c s).
  unfold hammer_softprune_scandir. rewrite Hdir.
  destruct (wps_never _ _ _ (scan_dirents_spec o behind never template_beg ke fsid av0 dens [] [] s1 eq_refl Hfs ltac:(cbn [length]; fold entries; lia)))
    as (base & s2 & Hs & -> & Hcol).
  rewrite (bind_Ok _ _ _ _ _ Hs). rewrite app_nil_l in Hcol. fold entries in Hcol.
  assert (exists sp, (match base with
     | [] => r ← hammer_softprune_addentry o behind [] template_beg ke av0 None [] 0;
         match r with
         | (sp :: base, Some _) => mret (set_flags (head_flags sp) (set_elms (elms sp) 0 sp) :: base)
         | _ => stop_with (Exit 1)
         end
     | _ => mret base end) s1 = Ok [sp] s1 /\ roomy sp (snd <$> entries) /\ filesystem sp = fs_path av0 entries /\
    key_beg sp = template_beg /\ key_end sp = ke /\ head_flags sp = 0) as (sp & Hsp & Hr & Hfile & Hkb & Hke & Hfl).
  { unfold collected in Hcol. destruct entries as [|[[p0 f0] e0] es].
    - subst base. unfold hammer_softprune_addentry. cbn [head bool_decide]. rewrite bool_decide_false by done. rewrite take_nil, app_nil_r, Hst. cbn [list_find].
      set (new := {| sp_fsid := fsid |}). set (tid := strtoull _).
      destruct (wps_never _ _ _ (addelm_spec never new [] tid 0 0 s1 (λ sp' s', s' = s1 /\ roomy sp' [new_elm tid 0 0] /\ same_header new sp')
        (new_roomy fsid _ _ _) ltac:(done) ltac:(done))) as (sp' & s2 & Ha & -> & ([Hn' [junk Hj]] & Hl' & Hm') & Hh').
      rewrite bind_bind, (bind_Ok _ _ _ _ _ Ha). eexists. split; [reflexivity|]. injection Hh' as H1 H2 H3 H4 H5 H6.
      split; [split; [split; [done|by eexists]|split; [cbn in *; unfold maxelms in *; cbn; lia|done]]|]. by split_and!.
    - destruct Hcol as (sp & -> & Hr & _ & Hf & Hk1 & Hk2 & Hfl). exists sp. done. }
  rewrite (bind_Ok _ _ _ _ _ Hsp).
  rewrite <- Hfile in Ho, Hp. assert (ps_kernel s1 = ps_kernel s) as Hks by done. rewrite <- Hks in Hk.
  destruct (issue_prune_spec path fuel sp _ snaps k' min s1 Hr Hfl Ho Hp Hk) as (sp' & Hr' & Hh' & Hrun); [rewrite length_fmap; lia|].
  exists sp', c. injection Hh' as H1 H2 H3 H4 H5 H6. split; [exact Hr'|]. split_and!; try congruence; [by rewrite H4, Hke|done|exact Hrun].
Qed.
End command.
