(* ===== verification/SoftpruneProps.v ===== *)
(** * SoftpruneProps: the theorems about hammer prune *)

From Stdlib Require Import Sorted.
From stdpp Require Import sorting.
From S2P Require Import Prelude CMonad WpStop HammerDisk Layout Cycle Softprune SoftpruneSpec SoftpruneSafe SoftpruneRun.

#[local] Opaque Z.to_nat.

(** ** An example *)

(** A sort that is as [qsort] promises. *)
Definition newer (a b : hammer_ioc_prune_elm) : Prop := hammer_softprune_qsort_cmp a b <= 0.
#[export] Instance newer_dec : RelDecision newer.
Proof. intros a b. unfold newer. apply _. Defined.
#[export] Instance newer_trans : Transitive newer.
Proof. intros a b c. unfold newer. rewrite !cmp_le. lia. Qed.
#[export] Instance newer_total : Total newer.
Proof. intros a b. unfold newer. rewrite !cmp_le. lia. Qed.
Definition demo_qsort : list hammer_ioc_prune_elm -> list hammer_ioc_prune_elm := merge_sort newer.



(** "@@0x64" and the like: links to snapshots of the file system "/h". *)
Definition demo_link (c : Z) : bytes := [47; 104; 64; 64; 48; 120; c; 52].
Definition demo_dens : list dirent :=
  [ {| d_name := [46]; d_lstat := None; d_link := None |};
    {| d_name := [97]; d_lstat := Some (true, 500, 500); d_link := Some (demo_link 54) |};
    {| d_name := [98]; d_lstat := Some (true, 900, 980); d_link := Some (demo_link 57) |};
    {| d_name := [99]; d_lstat := Some (true, 700, 700); d_link := Some (demo_link 55) |} ].

(** Version 2 has no snapshots in the meta-data; the clock shows 1000. *)
Definition demo_os : os () := {|
  o_readdir := Some demo_dens;
  o_statfs _ := Some 1;
  o_time := 1000;
  o_open _ := true;
  o_get_pseudofs _ := Some 200;
  o_get_version := Some 2;
  o_get_snapshot k := (None, k);
  o_del_snapshot _ _ k := (None, k);
  o_prune _ k := (PruneDone, k);
|}.
Definition demo_pstate : pstate () := {| ps_cycle := None; ps_kernel := (); ps_log := [] |}.

(** The snapshot 0x94 is not older than 200 seconds, so that the ranges begin below 0x74. *)
Example demo_prune :
  match hammer_cmd_softprune demo_os demo_qsort [] true 1 [100] false demo_pstate with
  | Ok _ s => (λ sp, take (nelms sp) (elms sp)) <$> ps_log s
  | Stop _ => []
  end = [[Some {| beg_tid := 0x64; end_tid := 0x74; mod_tid := 16 |}; Some {| beg_tid := 1; end_tid := 0x64; mod_tid := 99 |}]].
Proof. vm_compute. reflexivity. Qed.

(** ** The claims *)




(** A file system with a single snapshot is not pruned at all: [hammer_softprune_finalize]
    removes the one element, and the command then reports that there are no snapshots. *)
Theorem prune_single_snapshot {K} (o : os K) qsort sp e (s : pstate K) :
  (forall l, qsort l ≡ₚ l) -> rep sp [e] -> (1 < maxelms sp)%nat ->
  exists sp', hammer_softprune_finalize o qsort sp s = Ok sp' s /\ nelms sp' = O.
Proof.
  intros Hperm Hr Hm. destruct (wps_never _ _ _ (finalize_spec never o qsort Hperm sp [e] s Hr ltac:(cbn; lia))) as (sp' & s' & Hf & -> & [Hn _] & _).
  exists sp'. split; [done|]. rewrite Hn, length_fmap. unfold prune_ranges, old_snapshots.
  rewrite (proj1 (Permutation_singleton_r _ _) (Hperm [e])). cbn [fill]. rewrite (bool_decide_false (None = Some _)) by done.
  destruct (bool_decide (prune_min sp = 0)); [done|]. by destruct (recent_count _ _ _) as [|[|?]].
Qed.


