(* ===== verification/Dmsg.v ===== *)
(** * Dmsg: the transactions of the message library

    From src/lib/libdmsg/msg.c, and dmsg.h and sys/dmsg.h: the states of the open
    transactions of a connection ([iocom]) with their reference counts, the two trees that
    index them by message id, and the functions that keep them: allocation and release of
    states and messages, [dmsg_state_msgrx] and [dmsg_state_cleanuprx] for received
    messages, [dmsg_msg_write] and [dmsg_state_cleanuptx] for messages to send, the
    simulated failures, and the reply functions.

    States live in a heap at the addresses that [malloc] returned; such an address is an
    argument ([addr]) of the functions that allocate, and [malloc]'s promise, that the
    address is not in use, is checked.  The red-black trees are finite maps from message
    ids.  Message queues are lists.  The connection's mutex is part of the state, because
    the functions take it more than once.  The relaying of messages between connections,
    printing and the wake-up pipe are left out. *)

From S2P Require Import Prelude CMonad.

(** ** Constants *)

Definition DMSGF_CREATE : Z := 0x80000000.
Definition DMSGF_DELETE : Z := 0x40000000.
Definition DMSGF_REPLY : Z := 0x20000000.
Definition DMSGF_ABORT : Z := 0x10000000.
Definition DMSGF_REVTRANS : Z := 0x08000000.
Definition DMSGF_REVCIRC : Z := 0x04000000.
Definition DMSGF_PROTOS : Z := 0x00F00000.
Definition DMSGF_CMDS : Z := 0x000FFF00.
Definition DMSGF_SIZE : Z := 0x000000FF.
Definition DMSGF_CMDSWMASK : Z := DMSGF_CMDS .| DMSGF_SIZE .| DMSGF_PROTOS .| DMSGF_REPLY.
Definition DMSGF_BASECMDMASK : Z := DMSGF_CMDS .| DMSGF_SIZE .| DMSGF_PROTOS.
Definition DMSG_ALIGN : Z := 64.
Definition DMSG_ALIGNMASK : Z := DMSG_ALIGN - 1.
(** [DMSG_DOALIGN], on an unsigned integer of [w] bits. *)
Definition DMSG_DOALIGN (w bytes : Z) : Z := uwrap w (bytes + DMSG_ALIGNMASK) .& bnot w DMSG_ALIGNMASK.
Definition DMSG_HDR_MAGIC : Z := 0x4832.
Definition DMSG_HDR_MAGIC_REV : Z := 0x3248.
(** [DMSG_LNK(0xFFF, dmsg_hdr)] *)
Definition DMSG_LNK_ERROR : Z := 0x000FFF01.

Definition DMSG_STATE_SUBINSERTED : Z := 0x0001.
Definition DMSG_STATE_DYNAMIC : Z := 0x0002.
Definition DMSG_STATE_ABORTING : Z := 0x0008.
Definition DMSG_STATE_OPPOSITE : Z := 0x0010.
Definition DMSG_STATE_DYING : Z := 0x0040.
Definition DMSG_STATE_RBINSERTED : Z := 0x0080.
Definition DMSG_STATE_NEW : Z := 0x0400.
Definition DMSG_STATE_ROOT : Z := 0x8000.

Definition DMSG_IOQ_ERROR_EALREADY : Z := 16.
Definition DMSG_ERR_LOSTLINK : Z := 0x21.

(** [x & f] as a condition, and [x & ~f]. *)
Definition has (x f : Z) : bool := bool_decide (x .& f ≠ 0).
Definition clear (x f : Z) : Z := x .& bnot 32 f.

(** ** Data *)

(** What [state->func] points to. *)
Inductive handler := NoFunc | Relay | Func (n : Z).

Record dmsg_state := {
  s_scan : option positive;
  s_subq : list positive;
  s_parent : option positive;
  s_relay : option positive;
  s_icmd : Z;
  s_txcmd : Z;
  s_rxcmd : Z;
  s_msgid : Z;
  s_flags : Z;
  s_refs : Z;
  s_func : handler;
  s_any : Z;                (** [any.any], 0 for NULL *)
}.

(** The part of a message that the transactions do not look at: the other fields of the
    header, the extended header after its first 64 bytes, and the buffer of the auxiliary
    data: its size (0 when there is none) and the bytes stored in it so far, from its
    start; the contents of the rest are not determined. *)
Record dmsg_wire := {
  w_magic : Z;
  w_reserved02 : Z;
  w_salt : Z;
  w_link_verifier : Z;
  w_aux_crc : Z;
  w_aux_bytes : Z;
  w_aux_descr : Z;
  w_reserved38 : Z;
  w_hdr_crc : Z;
  w_ext : bytes;
  w_aux_alloc : Z;
  w_aux_data : bytes;
}.

(** As [dmsg_msg_alloc_locked] leaves them. *)
Definition new_wire (hbytes aux_size : Z) : dmsg_wire :=
  {| w_magic := DMSG_HDR_MAGIC; w_reserved02 := 0; w_salt := 0; w_link_verifier := 0; w_aux_crc := 0;
     w_aux_bytes := 0; w_aux_descr := 0; w_reserved38 := 0; w_hdr_crc := 0;
     w_ext := replicate (Z.to_nat (hbytes - 64)) 0;
     w_aux_alloc := if bool_decide (aux_size = 0) then 0 else DMSG_DOALIGN 64 aux_size; w_aux_data := [] |}.

Record dmsg_msg := {
  m_state : positive;
  m_cmd : Z;
  m_msgid : Z;
  m_circuit : Z;
  m_error : Z;
  m_tcmd : Z;
  m_aux_size : Z;
  m_wire : dmsg_wire;
}.

(** What [pthread_mutex_lock] does when the caller already holds the mutex: it waits for
    ever, as the default mutexes of the C library of Linux do, or it returns an error
    (which the code ignores), as those of DragonFly do. *)
Inductive mutex_kind := Normal | ErrorCheck.

Record iocom := {
  io_heap : gmap positive dmsg_state;
  staterd_tree : gmap Z positive;
  statewr_tree : gmap Z positive;
  txmsgq : list dmsg_msg;
  dmsg_state_count : Z;
  io_locked : bool;
}.
Abbreviation I := (prog iocom).

(** [iocom->state0], which is part of the connection. *)
Definition state0 : positive := 1.

(** Field updates. *)
Definition set_scan (v : option positive) (s : dmsg_state) : dmsg_state :=
  {| s_scan := v; s_subq := s_subq s; s_parent := s_parent s; s_relay := s_relay s; s_icmd := s_icmd s;
     s_txcmd := s_txcmd s; s_rxcmd := s_rxcmd s; s_msgid := s_msgid s; s_flags := s_flags s;
     s_refs := s_refs s; s_func := s_func s; s_any := s_any s |}.
Definition set_subq (v : list positive) (s : dmsg_state) : dmsg_state :=
  {| s_scan := s_scan s; s_subq := v; s_parent := s_parent s; s_relay := s_relay s; s_icmd := s_icmd s;
     s_txcmd := s_txcmd s; s_rxcmd := s_rxcmd s; s_msgid := s_msgid s; s_flags := s_flags s;
     s_refs := s_refs s; s_func := s_func s; s_any := s_any s |}.
Definition set_parent (v : option positive) (s : dmsg_state) : dmsg_state :=
  {| s_scan := s_scan s; s_subq := s_subq s; s_parent := v; s_relay := s_relay s; s_icmd := s_icmd s;
     s_txcmd := s_txcmd s; s_rxcmd := s_rxcmd s; s_msgid := s_msgid s; s_flags := s_flags s;
     s_refs := s_refs s; s_func := s_func s; s_any := s_any s |}.
Definition set_relay (v : option positive) (s : dmsg_state) : dmsg_state :=
  {| s_scan := s_scan s; s_subq := s_subq s; s_parent := s_parent s; s_relay := v; s_icmd := s_icmd s;
     s_txcmd := s_txcmd s; s_rxcmd := s_rxcmd s; s_msgid := s_msgid s; s_flags := s_flags s;
     s_refs := s_refs s; s_func := s_func s; s_any := s_any s |}.
Definition set_icmd (v : Z) (s : dmsg_state) : dmsg_state :=
  {| s_scan := s_scan s; s_subq := s_subq s; s_parent := s_parent s; s_relay := s_relay s; s_icmd := v;
     s_txcmd := s_txcmd s; s_rxcmd := s_rxcmd s; s_msgid := s_msgid s; s_flags := s_flags s;
     s_refs := s_refs s; s_func := s_func s; s_any := s_any s |}.
Definition set_txcmd (v : Z) (s : dmsg_state) : dmsg_state :=
  {| s_scan := s_scan s; s_subq := s_subq s; s_parent := s_parent s; s_relay := s_relay s; s_icmd := s_icmd s;
     s_txcmd := v; s_rxcmd := s_rxcmd s; s_msgid := s_msgid s; s_flags := s_flags s;
     s_refs := s_refs s; s_func := s_func s; s_any := s_any s |}.
Definition set_rxcmd (v : Z) (s : dmsg_state) : dmsg_state :=
  {| s_scan := s_scan s; s_subq := s_subq s; s_parent := s_parent s; s_relay := s_relay s; s_icmd := s_icmd s;
     s_txcmd := s_txcmd s; s_rxcmd := v; s_msgid := s_msgid s; s_flags := s_flags s;
     s_refs := s_refs s; s_func := s_func s; s_any := s_any s |}.
Definition set_flags (v : Z) (s : dmsg_state) : dmsg_state :=
  {| s_scan := s_scan s; s_subq := s_subq s; s_parent := s_parent s; s_relay := s_relay s; s_icmd := s_icmd s;
     s_txcmd := s_txcmd s; s_rxcmd := s_rxcmd s; s_msgid := s_msgid s; s_flags := v;
     s_refs := s_refs s; s_func := s_func s; s_any := s_any s |}.
Definition set_srefs (v : Z) (s : dmsg_state) : dmsg_state :=
  {| s_scan := s_scan s; s_subq := s_subq s; s_parent := s_parent s; s_relay := s_relay s; s_icmd := s_icmd s;
     s_txcmd := s_txcmd s; s_rxcmd := s_rxcmd s; s_msgid := s_msgid s; s_flags := s_flags s;
     s_refs := v; s_func := s_func s; s_any := s_any s |}.
Definition set_func (v : handler) (s : dmsg_state) : dmsg_state :=
  {| s_scan := s_scan s; s_subq := s_subq s; s_parent := s_parent s; s_relay := s_relay s; s_icmd := s_icmd s;
     s_txcmd := s_txcmd s; s_rxcmd := s_rxcmd s; s_msgid := s_msgid s; s_flags := s_flags s;
     s_refs := s_refs s; s_func := v; s_any := s_any s |}.

Definition set_m_state (v : positive) (m : dmsg_msg) : dmsg_msg :=
  {| m_state := v; m_cmd := m_cmd m; m_msgid := m_msgid m; m_circuit := m_circuit m; m_error := m_error m;
     m_tcmd := m_tcmd m; m_aux_size := m_aux_size m; m_wire := m_wire m |}.
Definition set_m_cmd (v : Z) (m : dmsg_msg) : dmsg_msg :=
  {| m_state := m_state m; m_cmd := v; m_msgid := m_msgid m; m_circuit := m_circuit m; m_error := m_error m;
     m_tcmd := m_tcmd m; m_aux_size := m_aux_size m; m_wire := m_wire m |}.
Definition set_m_msgid (v : Z) (m : dmsg_msg) : dmsg_msg :=
  {| m_state := m_state m; m_cmd := m_cmd m; m_msgid := v; m_circuit := m_circuit m; m_error := m_error m;
     m_tcmd := m_tcmd m; m_aux_size := m_aux_size m; m_wire := m_wire m |}.
Definition set_m_error (v : Z) (m : dmsg_msg) : dmsg_msg :=
  {| m_state := m_state m; m_cmd := m_cmd m; m_msgid := m_msgid m; m_circuit := m_circuit m; m_error := v;
     m_tcmd := m_tcmd m; m_aux_size := m_aux_size m; m_wire := m_wire m |}.
Definition set_m_tcmd (v : Z) (m : dmsg_msg) : dmsg_msg :=
  {| m_state := m_state m; m_cmd := m_cmd m; m_msgid := m_msgid m; m_circuit := m_circuit m; m_error := m_error m;
     m_tcmd := v; m_aux_size := m_aux_size m; m_wire := m_wire m |}.

Definition set_io_heap (f : gmap positive dmsg_state -> gmap positive dmsg_state) (io : iocom) : iocom :=
  {| io_heap := f (io_heap io); staterd_tree := staterd_tree io; statewr_tree := statewr_tree io;
     txmsgq := txmsgq io; dmsg_state_count := dmsg_state_count io; io_locked := io_locked io |}.
Definition set_staterd (f : gmap Z positive -> gmap Z positive) (io : iocom) : iocom :=
  {| io_heap := io_heap io; staterd_tree := f (staterd_tree io); statewr_tree := statewr_tree io;
     txmsgq := txmsgq io; dmsg_state_count := dmsg_state_count io; io_locked := io_locked io |}.
Definition set_statewr (f : gmap Z positive -> gmap Z positive) (io : iocom) : iocom :=
  {| io_heap := io_heap io; staterd_tree := staterd_tree io; statewr_tree := f (statewr_tree io);
     txmsgq := txmsgq io; dmsg_state_count := dmsg_state_count io; io_locked := io_locked io |}.
Definition set_txmsgq (f : list dmsg_msg -> list dmsg_msg) (io : iocom) : iocom :=
  {| io_heap := io_heap io; staterd_tree := staterd_tree io; statewr_tree := statewr_tree io;
     txmsgq := f (txmsgq io); dmsg_state_count := dmsg_state_count io; io_locked := io_locked io |}.
Definition set_count (d : Z) (io : iocom) : iocom :=
  {| io_heap := io_heap io; staterd_tree := staterd_tree io; statewr_tree := statewr_tree io;
     txmsgq := txmsgq io; dmsg_state_count := dmsg_state_count io + d; io_locked := io_locked io |}.
Definition set_locked (b : bool) (io : iocom) : iocom :=
  {| io_heap := io_heap io; staterd_tree := staterd_tree io; statewr_tree := statewr_tree io;
     txmsgq := txmsgq io; dmsg_state_count := dmsg_state_count io; io_locked := b |}.

(** ** Memory, trees, the mutex *)

Definition load_state (p : positive) : I dmsg_state := io ← get_state; deref (io_heap io !! p).
Definition update_state (f : dmsg_state -> dmsg_state) (p : positive) : I () :=
  load_state p;; modify (set_io_heap (alter f p)).
(** A new state at the address [malloc] returned. *)
Definition new_state (addr : positive) (s : dmsg_state) : I () :=
  io ← get_state;
  if bool_decide (io_heap io !! addr = None) then modify (set_io_heap (insert addr s)) else stop_with Undef.

(** [RB_INSERT] leaves the tree alone when the key is in it; [RB_REMOVE] of a state that is
    not in the tree is undefined. *)
Definition rb_insert (k : Z) (p : positive) (t : gmap Z positive) : gmap Z positive :=
  match t !! k with Some _ => t | None => <[k:=p]> t end.
Definition rb_remove (wr : bool) (p : positive) : I () :=
  s ← load_state p;
  io ← get_state;
  let t := if wr then statewr_tree io else staterd_tree io in
  if bool_decide (t !! s_msgid s = Some p)
  then modify ((if wr then set_statewr else set_staterd) (delete (s_msgid s)))
  else stop_with Undef.
Definition rb_find (wr : bool) (msgid : Z) : I (option positive) :=
  io ← get_state; mret ((if wr then statewr_tree io else staterd_tree io) !! msgid).

(** What the default mutex does when it is taken twice. *)
Section dmsg.
Context (mtx : mutex_kind).

Definition lock : I () :=
  io ← get_state;
  if io_locked io then (match mtx with Normal => stop_with Deadlock | ErrorCheck => mret () end)
  else modify (set_locked true).
(** Releasing a mutex that is not held is an error, which is ignored, or undefined. *)
Definition unlock : I () :=
  io ← get_state;
  if io_locked io then modify (set_locked false)
  else (match mtx with Normal => stop_with Undef | ErrorCheck => mret () end).

(** ** References *)

Definition dmsg_state_hold (p : positive) : I () := update_state (λ s, set_srefs (u32 (s_refs s + 1)) s) p.

Definition dmsg_state_free (p : positive) : I () :=
  s ← load_state p;
  modify (set_count (-1));;
  assertp (negb (has (s_flags s) (DMSG_STATE_ROOT .| DMSG_STATE_SUBINSERTED .| DMSG_STATE_RBINSERTED)));;
  assertp (bool_decide (s_subq s = []));;
  assertp (bool_decide (s_refs s = 0));;
  assertp (bool_decide (s_any s = 0));;
  modify (set_io_heap (delete p)).

Definition dmsg_state_drop (p : positive) : I () :=
  s ← load_state p;
  assertp (bool_decide (0 < s_refs s));;
  update_state (set_srefs (s_refs s - 1)) p;;
  when (bool_decide (s_refs s = 1)) (dmsg_state_free p).

Definition dmsg_msg_free_locked (msg : dmsg_msg) : I () := dmsg_state_drop (m_state msg).
Definition dmsg_msg_free (msg : dmsg_msg) : I () := lock;; dmsg_msg_free_locked msg;; unlock.

(** ** Allocation of messages *)

(** The new state of a transaction that this side initiates. *)
Definition initiated (addr pstate : positive) (pflags cmd : Z) (func : handler) (data : Z) : dmsg_state :=
  let txcmd := clear cmd (DMSGF_CREATE .| DMSGF_DELETE) in
  {| s_scan := None; s_subq := []; s_parent := Some pstate; s_relay := None;
     s_icmd := txcmd .& DMSGF_BASECMDMASK; s_txcmd := txcmd; s_rxcmd := DMSGF_REPLY; s_msgid := Zpos addr;
     s_flags := DMSG_STATE_DYNAMIC .| (DMSG_STATE_SUBINSERTED .| DMSG_STATE_RBINSERTED)
                .| (pflags .& DMSG_STATE_DYING);
     s_refs := 0; s_func := func; s_any := data |}.

Definition dmsg_msg_alloc_locked (addr state : positive) (aux_size cmd : Z) (func : handler) (data : Z) : I dmsg_msg :=
  sp ← (if bool_decide (cmd .& (DMSGF_CREATE .| DMSGF_REPLY) = DMSGF_CREATE) then
          let pstate := state in
          ps ← load_state pstate;
          new_state addr (initiated addr pstate (s_flags ps) cmd func data);;
          modify (set_count 1);;
          when (bool_decide (s_subq ps = [])) (dmsg_state_hold pstate);;
          modify (set_statewr (rb_insert (Zpos addr) addr));;
          update_state (λ s, set_subq (s_subq s ++ [addr]) s) pstate;;
          dmsg_state_hold addr;;
          dmsg_state_hold addr;;
          dmsg_state_hold addr;;
          mret (addr, pstate)
        else
          s ← load_state state;
          dmsg_state_hold state;;
          pstate ← deref (s_parent s);
          mret (state, pstate));
  let '(state, pstate) := sp in
  let hbytes := (cmd .& DMSGF_SIZE) * DMSG_ALIGN in
  assertp (bool_decide (64 <= hbytes));;
  s ← load_state state;
  ps ← load_state pstate;
  let cmd := if has (s_flags s) DMSG_STATE_OPPOSITE then cmd .| DMSGF_REVTRANS else cmd in
  let cmd := if has (s_flags ps) DMSG_STATE_OPPOSITE then cmd .| DMSGF_REVCIRC else cmd in
  mret {| m_state := state; m_cmd := cmd; m_msgid := s_msgid s; m_circuit := s_msgid ps; m_error := 0;
          m_tcmd := 0; m_aux_size := aux_size;
          m_wire := new_wire hbytes aux_size |}.

Definition dmsg_msg_alloc (addr state : positive) (aux_size cmd : Z) (func : handler) (data : Z) : I dmsg_msg :=
  lock;;
  msg ← dmsg_msg_alloc_locked addr state aux_size cmd func data;
  unlock;;
  mret msg.

(** ** Received messages *)

(** The new state of a transaction that the other side initiates. *)
Definition received (pstate : positive) (prelay : option positive) (msg : dmsg_msg) : dmsg_state :=
  let rxcmd := clear (m_cmd msg) DMSGF_DELETE in
  {| s_scan := None; s_subq := []; s_parent := Some pstate; s_relay := None;
     s_icmd := rxcmd .& DMSGF_BASECMDMASK; s_txcmd := DMSGF_REPLY; s_rxcmd := rxcmd; s_msgid := m_msgid msg;
     s_flags := clear (DMSG_STATE_DYNAMIC .| DMSG_STATE_OPPOSITE) DMSG_STATE_NEW
                .| (DMSG_STATE_SUBINSERTED .| DMSG_STATE_RBINSERTED);
     s_refs := 0; s_func := match prelay with Some _ => Relay | None => NoFunc end; s_any := 0 |}.

(** The cases [CREATE] and [CREATE | DELETE]: the new transaction under [pstate]. *)
Definition msgrx_create (addr pstate : positive) (msg : dmsg_msg) : I (Z * positive * dmsg_msg) :=
  ps ← load_state pstate;
  modify (set_count 1);;
  new_state addr (received pstate (s_relay ps) msg);;
  dmsg_state_hold pstate;;
  modify (set_staterd (rb_insert (m_msgid msg) addr));;
  when (bool_decide (s_subq ps = [])) (dmsg_state_hold pstate);;
  update_state (λ s, set_subq (s_subq s ++ [addr]) s) pstate;;
  dmsg_state_hold addr;;
  dmsg_state_hold addr;;
  dmsg_state_hold addr;;
  mret (0, addr, set_m_state addr msg).

(** The switch on [CREATE], [DELETE] and [REPLY]: the error, the state and the message.
    [pstate] is NULL only for a message of a simulated failure. *)
Definition msgrx_switch (addr state : positive) (pstate : option positive) (msg : dmsg_msg)
    : I (Z * positive * dmsg_msg) :=
  let cmd := m_cmd msg in
  let no_state := bool_decide (pstate = Some state) in
  s ← load_state state;
  let not_created := negb (has (s_rxcmd s) DMSGF_CREATE) in
  match has cmd DMSGF_REPLY, has cmd DMSGF_CREATE, has cmd DMSGF_DELETE with
  | false, true, _ =>
      if no_state then msgrx_create addr state msg else stop_with AssertFail
  | false, false, true | true, false, true =>
      if no_state || not_created then
        if has cmd DMSGF_ABORT then mret (DMSG_IOQ_ERROR_EALREADY, state, msg) else stop_with AssertFail
      else mret (0, state, msg)
  | false, false, false | true, false, false =>
      if has cmd DMSGF_ABORT && (no_state || not_created) then mret (DMSG_IOQ_ERROR_EALREADY, state, msg)
      else mret (0, state, msg)
  | true, true, _ =>
      if no_state then stop_with AssertFail
      else
        assertp (negb (has (s_rxcmd s .^ cmd) DMSGF_REPLY));;
        update_state (set_rxcmd (clear cmd DMSGF_DELETE)) state;;
        mret (0, state, msg)
  end.

(** "Calculate the easy-switch() transactional command." *)
Definition msgrx_tcmd (state : positive) (msg : dmsg_msg) : I Z :=
  if has (m_cmd msg) (DMSGF_CREATE .| DMSGF_DELETE) then
    ms ← load_state (m_state msg);
    s ← load_state state;
    mret (if has (s_flags ms) DMSG_STATE_ROOT then 0
          else (s_icmd s .& DMSGF_BASECMDMASK) .| (m_cmd msg .& (DMSGF_CREATE .| DMSGF_DELETE .| DMSGF_REPLY)))
  else mret (m_cmd msg .& DMSGF_CMDSWMASK).

(** "Adjust state, mark receive side as DELETED if appropriate and adjust RB tree if both
    sides are DELETED." *)
Definition msgrx_delete (state : positive) (msg : dmsg_msg) : I () :=
  s ← load_state state;
  when (negb (has (s_flags s) DMSG_STATE_ROOT) && has (m_cmd msg) DMSGF_DELETE)
    (assertp (negb (has (s_rxcmd s) DMSGF_DELETE));;
     update_state (set_rxcmd (s_rxcmd s .| DMSGF_DELETE)) state;;
     when (has (s_txcmd s) DMSGF_DELETE)
       (assertp (has (s_flags s) DMSG_STATE_RBINSERTED);;
        let reply := has (s_rxcmd s .| DMSGF_DELETE) DMSGF_REPLY in
        assertp (Bool.eqb (has (m_cmd msg) DMSGF_REPLY) reply);;
        rb_remove reply state;;
        update_state (λ s, set_flags (clear (s_flags s) DMSG_STATE_RBINSERTED) s) state;;
        dmsg_state_drop state)).

(** From the switch to the return. *)
Definition msgrx_process (addr state : positive) (pstate : option positive) (msg : dmsg_msg) : I (Z * dmsg_msg) :=
  r ← msgrx_switch addr state pstate msg;
  let '(error, state, msg) := r in
  tcmd ← msgrx_tcmd state msg;
  let msg := set_m_tcmd tcmd msg in
  assertp (bool_decide (m_state msg = state));;
  msgrx_delete state msg;;
  unlock;;
  mret (error, msg).

(** The error code and the message, with its state. *)
Definition dmsg_state_msgrx (addr : positive) (msg : dmsg_msg) (mstate : bool) : I (Z * dmsg_msg) :=
  lock;;
  if mstate then
    s ← load_state (m_state msg);
    msgrx_process addr (m_state msg) (s_parent s) msg
  else
    circuit ← (if bool_decide (m_circuit msg ≠ 0)
               then rb_find (has (m_cmd msg) DMSGF_REVCIRC) (m_circuit msg)
               else mret (Some state0));
    match circuit with
    | None => unlock;; mret (DMSG_IOQ_ERROR_EALREADY, msg)
    | Some pstate =>
        found ← rb_find (has (m_cmd msg) DMSGF_REVTRANS) (m_msgid msg);
        match found with
        | Some state =>
            dmsg_state_drop (m_state msg);;
            dmsg_state_hold state;;
            s ← load_state state;
            assertp (bool_decide (s_parent s = Some pstate));;
            msgrx_process addr state (Some pstate) (set_m_state state msg)
        | None => msgrx_process addr pstate (Some pstate) msg
        end
    end.

(** The state leaves the queue of its parent. *)
Definition dmsg_subq_delete (state : positive) : I () :=
  s ← load_state state;
  if has (s_flags s) DMSG_STATE_SUBINSERTED then
    match s_parent s with
    | None => stop_with AssertFail
    | Some pstate =>
        ps ← load_state pstate;
        when (bool_decide (s_scan ps = Some state)) (update_state (set_scan None) pstate);;
        let subq := filter (λ q, q ≠ state) (s_subq ps) in
        update_state (set_subq subq) pstate;;
        update_state (λ s, set_parent None (set_flags (clear (s_flags s) DMSG_STATE_SUBINSERTED) s)) state;;
        when (bool_decide (subq = [])) (dmsg_state_drop pstate);;
        dmsg_state_drop state
    end
  else assertp (bool_decide (s_parent s = None)).

(** [if (state->relay) { dmsg_state_drop(state->relay); state->relay = NULL; }] *)
Definition drop_relay (state : positive) : I () :=
  s ← load_state state;
  match s_relay s with
  | Some r => dmsg_state_drop r;; update_state (set_relay None) state
  | None => mret ()
  end.

Definition dmsg_state_cleanuprx (msg : dmsg_msg) : I () :=
  let state := m_state msg in
  s ← load_state state;
  when (negb (has (s_flags s) DMSG_STATE_ROOT) && has (s_flags s) DMSG_STATE_SUBINSERTED
        && has (s_rxcmd s) DMSGF_DELETE && has (s_txcmd s) DMSGF_DELETE)
    (dmsg_subq_delete state;; drop_relay state);;
  dmsg_msg_free msg.

(** ** Failures *)

(** What the application does with a received message. *)
Context (rcvmsg_callback : dmsg_msg -> I ()).

(** [for] over a list. *)
Fixpoint for_each {A} (f : A -> I ()) (l : list A) : I () :=
  match l with
  | [] => mret ()
  | a :: l => f a;; for_each f l
  end.

(** The fuel is the depth of nested transactions. *)
Fixpoint dmsg_state_dying (depth : nat) (state : positive) : I () :=
  match depth with
  | O => stop_with OutOfFuel
  | S depth =>
      s ← load_state state;
      when (negb (has (s_flags s) DMSG_STATE_DYING))
        (update_state (set_flags (s_flags s .| DMSG_STATE_DYING)) state;;
         for_each (dmsg_state_dying depth) (s_subq s))
  end.

(** A message of a simulated failure is never a new transaction, so no state is
    allocated for it. *)
Definition no_addr : positive := state0.

Definition dmsg_state_abort (depth : nat) (state : positive) : I () :=
  s ← load_state state;
  if has (s_flags s) DMSG_STATE_ABORTING then mret ()
  else
    update_state (set_flags (s_flags s .| DMSG_STATE_ABORTING)) state;;
    dmsg_state_dying depth state;;
    s ← load_state state;
    when (negb (has (s_flags s) DMSG_STATE_NEW) && negb (has (s_rxcmd s) DMSGF_DELETE))
      (msg ← dmsg_msg_alloc_locked no_addr state 0 DMSG_LNK_ERROR NoFunc 0;
       let cmd := if has (s_rxcmd s) DMSGF_CREATE then m_cmd msg else m_cmd msg .| DMSGF_CREATE in
       let cmd := cmd .| (DMSGF_DELETE .| (s_rxcmd s .& DMSGF_REPLY)) in
       let cmd := cmd .^ (DMSGF_REVTRANS .| DMSGF_REVCIRC) in
       let msg := set_m_error DMSG_ERR_LOSTLINK (set_m_cmd (cmd .| DMSGF_ABORT) msg) in
       r ← dmsg_state_msgrx no_addr msg true;
       unlock;;
       rcvmsg_callback (snd r);;
       lock;;
       dmsg_state_cleanuprx (snd r)).

(** The element after [q] in a queue. *)
Fixpoint tailq_next (q : positive) (l : list positive) : option positive :=
  match l with
  | a :: l => if bool_decide (a = q) then head l else tailq_next q l
  | [] => None
  end.

(** The scan of the sub-states starts again when the one at hand has left the queue.  The
    fuel bounds the recursion and the scan. *)
Fixpoint dmsg_simulate_failure (fuel : nat) (state : positive) (meto : bool) : I () :=
  match fuel with
  | O => stop_with OutOfFuel
  | S fuel =>
      dmsg_state_hold state;;
      when meto (dmsg_state_abort fuel state);;
      s ← load_state state;
      scan_substates fuel state (head (s_subq s));;
      dmsg_state_drop state
  end
with scan_substates (fuel : nat) (state : positive) (substate : option positive) : I () :=
  match fuel with
  | O => stop_with OutOfFuel
  | S fuel =>
      match substate with
      | None => mret ()
      | Some sub =>
          ss ← load_state sub;
          if has (s_flags ss) DMSG_STATE_ABORTING then
            s ← load_state state;
            scan_substates fuel state (tailq_next sub (s_subq s))
          else
            update_state (set_scan (Some sub)) state;;
            dmsg_simulate_failure fuel sub true;;
            s ← load_state state;
            scan_substates fuel state
              (if bool_decide (s_scan s = Some sub) then tailq_next sub (s_subq s) else head (s_subq s))
      end
  end.

(** ** Messages to send *)

Context (fuel : nat).

(** The transmit side is closed; when the receive side is, too, the state goes. *)
Definition cleanuptx_delete (state : positive) (msg : dmsg_msg) : I () :=
  s ← load_state state;
  if has (s_txcmd s) DMSGF_DELETE then mret ()
  else
    update_state (set_txcmd (s_txcmd s .| DMSGF_DELETE)) state;;
    when (has (s_rxcmd s) DMSGF_DELETE)
      (assertp (has (s_flags s) DMSG_STATE_RBINSERTED);;
       let reply := has (s_txcmd s .| DMSGF_DELETE) DMSGF_REPLY in
       assertp (Bool.eqb (has (m_cmd msg) DMSGF_REPLY) reply);;
       rb_remove (negb reply) state;;
       update_state (λ s, set_flags (clear (s_flags s) DMSG_STATE_RBINSERTED) s) state;;
       dmsg_subq_delete state;;
       drop_relay state;;
       dmsg_state_drop state).

Definition dmsg_state_cleanuptx (msg : dmsg_msg) : I () :=
  let state := m_state msg in
  dmsg_state_hold state;;
  s ← load_state state;
  when (negb (has (s_flags s) DMSG_STATE_ROOT) && has (m_cmd msg) DMSGF_DELETE)
    (cleanuptx_delete state msg);;
  s ← load_state state;
  when (has (s_flags s) (DMSG_STATE_ABORTING .| DMSG_STATE_DYING) && negb (has (s_rxcmd s) DMSGF_DELETE))
    (update_state (λ s, set_flags (clear (s_flags s) DMSG_STATE_ABORTING) s) state;;
     dmsg_simulate_failure fuel state true);;
  dmsg_state_drop state.

(** "Process state data into the message as needed, then update the state based on the
    message." *)
Definition write_state (msg : dmsg_msg) : I dmsg_msg :=
  let state := m_state msg in
  let cmd := m_cmd msg in
  s ← load_state state;
  if has (s_flags s) DMSG_STATE_ROOT then mret msg
  else
    when (bool_decide (cmd .& (DMSGF_CREATE .| DMSGF_REPLY) = DMSGF_CREATE))
      (update_state (λ s, set_flags (clear (s_flags s) DMSG_STATE_NEW)
                            (set_icmd (clear cmd DMSGF_DELETE .& DMSGF_BASECMDMASK)
                               (set_txcmd (clear cmd DMSGF_DELETE) s))) state);;
    when (has cmd DMSGF_CREATE) (update_state (set_txcmd (clear cmd DMSGF_DELETE)) state);;
    mret (set_m_msgid (s_msgid s) msg).

Definition dmsg_msg_write (msg : dmsg_msg) : I () :=
  lock;;
  msg ← write_state msg;
  let state := m_state msg in
  s ← load_state state;
  if has (s_txcmd s) DMSGF_DELETE then dmsg_msg_free msg
  else
    (if has (s_flags s) DMSG_STATE_DYING then
       dmsg_state_hold state;;
       dmsg_state_cleanuptx msg;;
       s ← load_state state;
       when (negb (has (s_flags s) DMSG_STATE_ABORTING)) (dmsg_simulate_failure fuel state true);;
       dmsg_state_drop state;;
       dmsg_msg_free msg
     else
       dmsg_state_cleanuptx msg;;
       modify (set_txmsgq (λ q, q ++ [msg])));;
    unlock.

(** The end of the four reply functions: the message is allocated, [CREATE] is added when
    this direction has not been opened, and the message is sent. *)
Definition send_on (state : positive) (cmd error : Z) : I () :=
  nmsg ← dmsg_msg_alloc no_addr state 0 cmd NoFunc 0;
  s ← load_state state;
  let nmsg := if negb (has (s_flags s) DMSG_STATE_ROOT) && negb (has (s_txcmd s) DMSGF_CREATE)
              then set_m_cmd (m_cmd nmsg .| DMSGF_CREATE) nmsg else nmsg in
  dmsg_msg_write (set_m_error error nmsg).

(** [dmsg_msg_reply] ([close]) and [dmsg_msg_result]. *)
Definition answer_msg (close : bool) (msg : dmsg_msg) (error : Z) : I () :=
  let state := m_state msg in
  s ← load_state state;
  if has (s_flags s) DMSG_STATE_ROOT then
    send_on state (if has (m_cmd msg) DMSGF_REPLY then DMSG_LNK_ERROR else DMSG_LNK_ERROR .| DMSGF_REPLY) error
  else if has (s_txcmd s) DMSGF_DELETE then mret ()
  else
    let cmd := if has (s_txcmd s) DMSGF_REPLY then DMSG_LNK_ERROR .| DMSGF_REPLY else DMSG_LNK_ERROR in
    send_on state (if close then cmd .| DMSGF_DELETE else cmd) error.
Definition dmsg_msg_reply : dmsg_msg -> Z -> I () := answer_msg true.
Definition dmsg_msg_result : dmsg_msg -> Z -> I () := answer_msg false.

(** [dmsg_state_reply] ([close]) and [dmsg_state_result]. *)
Definition answer_state (close : bool) (state : positive) (error : Z) : I () :=
  s ← load_state state;
  if has (s_txcmd s) DMSGF_DELETE then mret ()
  else
    let cmd := if close then DMSG_LNK_ERROR .| DMSGF_DELETE else DMSG_LNK_ERROR in
    send_on state (if has (s_txcmd s) DMSGF_REPLY then cmd .| DMSGF_REPLY else cmd) error.
Definition dmsg_state_reply : positive -> Z -> I () := answer_state true.
Definition dmsg_state_result : positive -> Z -> I () := answer_state false.

(** ** The connection's thread *)

(** The part of a header that the transactions use. *)
Record dmsg_hdr := { h_cmd : Z; h_msgid : Z; h_circuit : Z; h_error : Z; h_aux_bytes : Z }.
Definition head_of (m : dmsg_msg) : dmsg_hdr :=
  {| h_cmd := m_cmd m; h_msgid := m_msgid m; h_circuit := m_circuit m; h_error := m_error m;
     h_aux_bytes := m_aux_size m |}.

(** [dmsg_iocom_flush1] and [dmsg_iocom_flush2], for the first message of the queue, once
    it has been written as a whole. *)
Definition dmsg_transmit : I (option dmsg_hdr) :=
  io ← get_state;
  match txmsgq io with
  | [] => mret None
  | msg :: q =>
      lock;;
      modify (set_txmsgq (λ _, q));;
      unlock;;
      dmsg_msg_free msg;;
      mret (Some (head_of msg))
  end.

(** [dmsg_ioq_read], from a header that passed its checks: the message to hand to the
    application, if any. *)
Definition dmsg_receive (addr : positive) (h : dmsg_hdr) : I (option dmsg_msg) :=
  msg ← dmsg_msg_alloc no_addr state0 (h_aux_bytes h) (h_cmd h .& DMSGF_SIZE) NoFunc 0;
  let msg := {| m_state := m_state msg; m_cmd := h_cmd h; m_msgid := h_msgid h; m_circuit := h_circuit h;
                m_error := h_error h; m_tcmd := m_tcmd msg; m_aux_size := m_aux_size msg;
                m_wire := m_wire msg |} in
  r ← dmsg_state_msgrx addr msg false;
  if bool_decide (fst r = DMSG_IOQ_ERROR_EALREADY) then dmsg_msg_free (snd r);; mret None
  else assertp (bool_decide (fst r = 0));; mret (Some (snd r)).

(** [dmsg_iocom_core], after the application's callback. *)
Definition dmsg_receive_done (msg : dmsg_msg) : I () := lock;; dmsg_state_cleanuprx msg;; unlock.

(** [dmsg_iocom_init] *)
Definition dmsg_iocom_init : iocom :=
  {| io_heap := {[ state0 := {| s_scan := None; s_subq := []; s_parent := Some state0; s_relay := None;
                                s_icmd := 0; s_txcmd := 0; s_rxcmd := 0; s_msgid := 0;
                                s_flags := DMSG_STATE_ROOT; s_refs := 1; s_func := NoFunc; s_any := 0 |} ]};
     staterd_tree := ∅; statewr_tree := ∅; txmsgq := []; dmsg_state_count := 0; io_locked := false |}.
End dmsg.
