(* ===== verification/DmsgInv.v ===== *)
(** * DmsgInv: one end of a connection

    Invariant of the states of a connection whose transactions are all stacked directly on
    the connection's root state, and what each operation of Dmsg does to them: the exact
    memory after opening a transaction, sending on it, transmitting, receiving and
    finishing a received message.  The specifications are equations, proved by running the
    operation on two cells of memory, the root state and the state at hand. *)

From S2P Require Import Prelude CMonad Dmsg.

(** ** Flags *)

Lemma has_pow2 x k : 0 <= k -> has x (2 ^ k) = Z.testbit x k.
Proof.
  intros Hk. unfold has. destruct (Z.testbit x k) eqn:E; case_bool_decide as H; [done| |exfalso|done].
  - contradict H. intros H0. apply (f_equal (λ z, Z.testbit z k)) in H0. revert H0.
    rewrite Z.land_spec, Z.pow2_bits_true, Z.bits_0, E by done. done.
  - apply H. apply Z.bits_inj'. intros i Hi. rewrite Z.land_spec, Z.bits_0.
    destruct (decide (i = k)) as [->|Hn]; [by rewrite E|]. rewrite Z.pow2_bits_false by lia. apply andb_false_r.
Qed.

Lemma has_create x : has x DMSGF_CREATE = Z.testbit x 31.
Proof. by apply (has_pow2 x 31). Qed.
Lemma has_delete x : has x DMSGF_DELETE = Z.testbit x 30.
Proof. by apply (has_pow2 x 30). Qed.
Lemma has_reply x : has x DMSGF_REPLY = Z.testbit x 29.
Proof. by apply (has_pow2 x 29). Qed.
Lemma has_revtrans x : has x DMSGF_REVTRANS = Z.testbit x 27.
Proof. by apply (has_pow2 x 27). Qed.
Lemma has_revcirc x : has x DMSGF_REVCIRC = Z.testbit x 26.
Proof. by apply (has_pow2 x 26). Qed.

(** The state of one direction of a transaction. *)
Inductive half := Init | Open | Closed.
#[export] Instance half_eq_dec : EqDecision half.
Proof. solve_decision. Defined.

Definition half_of (cmd : Z) : half :=
  if has cmd DMSGF_DELETE then Closed else if has cmd DMSGF_CREATE then Open else Init.

Definition closes (del : bool) : half := if del then Closed else Open.

Lemma half_of_delete c : half_of (c .| DMSGF_DELETE) = Closed.
Proof.
  unfold half_of. rewrite has_delete, Z.lor_spec. change (Z.testbit DMSGF_DELETE 30) with true.
  by rewrite orb_true_r.
Qed.
Lemma half_of_clear c : half_of (clear c DMSGF_DELETE) = if has c DMSGF_CREATE then Open else Init.
Proof.
  unfold half_of. rewrite has_delete, !has_create. unfold clear. rewrite !Z.land_spec.
  change (Z.testbit (bnot 32 DMSGF_DELETE) 30) with false. change (Z.testbit (bnot 32 DMSGF_DELETE) 31) with true.
  by rewrite andb_false_r, andb_true_r.
Qed.
Lemma reply_clear c : has (clear c DMSGF_DELETE) DMSGF_REPLY = has c DMSGF_REPLY.
Proof.
  rewrite !has_reply. unfold clear. rewrite Z.land_spec. change (Z.testbit (bnot 32 DMSGF_DELETE) 29) with true.
  by rewrite andb_true_r.
Qed.
Lemma reply_delete c : has (c .| DMSGF_DELETE) DMSGF_REPLY = has c DMSGF_REPLY.
Proof. rewrite !has_reply, Z.lor_spec. change (Z.testbit DMSGF_DELETE 29) with false. by rewrite orb_false_r. Qed.

Lemma has_delete_half c : has c DMSGF_DELETE = bool_decide (half_of c = Closed).
Proof. unfold half_of. by destruct (has c DMSGF_DELETE), (has c DMSGF_CREATE). Qed.
Lemma has_create_half c : half_of c ≠ Closed -> has c DMSGF_CREATE = bool_decide (half_of c = Open).
Proof. unfold half_of. by destruct (has c DMSGF_DELETE), (has c DMSGF_CREATE). Qed.

(** [(cmd & (CREATE | REPLY)) == CREATE] *)
Lemma opens_has c :
  bool_decide (c .& (DMSGF_CREATE .| DMSGF_REPLY) = DMSGF_CREATE) = has c DMSGF_CREATE && negb (has c DMSGF_REPLY).
Proof.
  rewrite has_create, has_reply. case_bool_decide as H.
  - pose proof (f_equal (λ z, Z.testbit z 31) H) as H31. pose proof (f_equal (λ z, Z.testbit z 29) H) as H29.
    cbv beta in H31, H29. rewrite Z.land_spec in H31, H29.
    change (Z.testbit (DMSGF_CREATE .| DMSGF_REPLY) 31) with true in H31.
    change (Z.testbit (DMSGF_CREATE .| DMSGF_REPLY) 29) with true in H29.
    rewrite andb_true_r in H31, H29. by rewrite H31, H29.
  - destruct (Z.testbit c 31) eqn:E1, (Z.testbit c 29) eqn:E2; try done. exfalso. apply H.
    apply Z.bits_inj'. intros i Hi. rewrite Z.land_spec.
    destruct (decide (i = 31)) as [->|H31]; [by rewrite E1|]. destruct (decide (i = 29)) as [->|H29]; [by rewrite E2|].
    assert (Z.testbit (2 ^ 31 .| 2 ^ 29) i = false) as Hm by (rewrite Z.lor_spec, !Z.pow2_bits_false by lia; done).
    change (2 ^ 31 .| 2 ^ 29) with (DMSGF_CREATE .| DMSGF_REPLY) in Hm. rewrite Hm, andb_false_r.
    change DMSGF_CREATE with (2 ^ 31). by rewrite Z.pow2_bits_false by lia.
Qed.

(** ** Two cells of memory *)

(** The flags of a transaction's state. *)
Definition mkflags (opp inq rb : bool) : Z :=
  2 + (if opp then 16 else 0) + (if inq then 1 else 0) + (if rb then 128 else 0).

Lemma has_mkflags opp inq rb :
  has (mkflags opp inq rb) DMSG_STATE_ROOT = false /\
  has (mkflags opp inq rb) DMSG_STATE_DYING = false /\
  has (mkflags opp inq rb) (DMSG_STATE_ABORTING .| DMSG_STATE_DYING) = false /\
  has (mkflags opp inq rb) DMSG_STATE_OPPOSITE = opp /\
  has (mkflags opp inq rb) DMSG_STATE_SUBINSERTED = inq /\
  has (mkflags opp inq rb) DMSG_STATE_RBINSERTED = rb /\
  clear (mkflags opp inq rb) DMSG_STATE_NEW = mkflags opp inq rb /\
  clear (mkflags opp inq rb) DMSG_STATE_RBINSERTED = mkflags opp inq false /\
  clear (mkflags opp inq rb) DMSG_STATE_SUBINSERTED = mkflags opp false rb.
Proof. by destruct opp, inq, rb. Qed.

Definition cells (r : dmsg_state) (p : positive) (s : dmsg_state) (h : gmap positive dmsg_state)
    : gmap positive dmsg_state := <[state0:=r]> (<[p:=s]> h).

(** A connection with the root state [r] and the state [s] at [p]. *)
Abbreviation con r p s h rd wr q c l :=
  {| io_heap := cells r p s h; staterd_tree := rd; statewr_tree := wr; txmsgq := q; dmsg_state_count := c;
     io_locked := l |}.

Section cells.
Context (p : positive) (h : gmap positive dmsg_state) (Hp : p ≠ state0).
Implicit Types (r s : dmsg_state) (rd wr : gmap Z positive) (q : list dmsg_msg) (c : Z) (l : bool).

Lemma cells_p r s : cells r p s h !! p = Some s.
Proof. unfold cells. by rewrite lookup_insert_ne, lookup_insert_eq. Qed.
Lemma cells_r r s : cells r p s h !! state0 = Some r.
Proof. unfold cells. by rewrite lookup_insert_eq. Qed.
Lemma cells_ne r s x : x ≠ state0 -> x ≠ p -> cells r p s h !! x = h !! x.
Proof. intros. unfold cells. by rewrite !lookup_insert_ne. Qed.
Lemma cells_alter_p f r s : alter f p (cells r p s h) = cells r p (f s) h.
Proof. unfold cells. by rewrite alter_insert_ne, alter_insert_eq. Qed.
Lemma cells_alter_r f r s : alter f state0 (cells r p s h) = cells (f r) p s h.
Proof. unfold cells. by rewrite alter_insert_eq. Qed.

Lemma load_p r s rd wr q c l : load_state p (con r p s h rd wr q c l) = Ok s (con r p s h rd wr q c l).
Proof. unfold load_state. rewrite (bind_Ok get_state _ _ _ _ eq_refl). cbn [io_heap]. by rewrite cells_p. Qed.
Lemma load_r r s rd wr q c l : load_state state0 (con r p s h rd wr q c l) = Ok r (con r p s h rd wr q c l).
Proof. unfold load_state. rewrite (bind_Ok get_state _ _ _ _ eq_refl). cbn [io_heap]. by rewrite cells_r. Qed.

Lemma update_p f r s rd wr q c l :
  update_state f p (con r p s h rd wr q c l) = Ok () (con r p (f s) h rd wr q c l).
Proof.
  unfold update_state. rewrite (bind_Ok _ _ _ _ _ (load_p r s rd wr q c l)). unfold modify, set_io_heap. cbn [io_heap].
  by rewrite cells_alter_p.
Qed.
Lemma update_r f r s rd wr q c l :
  update_state f state0 (con r p s h rd wr q c l) = Ok () (con (f r) p s h rd wr q c l).
Proof.
  unfold update_state. rewrite (bind_Ok _ _ _ _ _ (load_r r s rd wr q c l)). unfold modify, set_io_heap. cbn [io_heap].
  by rewrite cells_alter_r.
Qed.

Lemma hold_p r s rd wr q c l :
  0 <= s_refs s < 2 ^ 32 - 1 ->
  dmsg_state_hold p (con r p s h rd wr q c l) = Ok () (con r p (set_srefs (s_refs s + 1) s) h rd wr q c l).
Proof. intros Hs. unfold dmsg_state_hold. rewrite update_p, uwrap_small by (unfold in_u; lia). done. Qed.
Lemma hold_r r s rd wr q c l :
  0 <= s_refs r < 2 ^ 32 - 1 ->
  dmsg_state_hold state0 (con r p s h rd wr q c l) = Ok () (con (set_srefs (s_refs r + 1) r) p s h rd wr q c l).
Proof. intros Hs. unfold dmsg_state_hold. rewrite update_r, uwrap_small by (unfold in_u; lia). done. Qed.

Lemma drop_p r s rd wr q c l :
  1 < s_refs s ->
  dmsg_state_drop p (con r p s h rd wr q c l) = Ok () (con r p (set_srefs (s_refs s - 1) s) h rd wr q c l).
Proof.
  intros Hs. unfold dmsg_state_drop. rewrite (bind_Ok _ _ _ _ _ (load_p r s rd wr q c l)).
  rewrite (bool_decide_true (0 < s_refs s)) by lia. rewrite (bind_Ok _ _ _ () (con r p s h rd wr q c l)) by done.
  rewrite (bind_Ok _ _ _ _ _ (update_p _ r s rd wr q c l)). by rewrite bool_decide_false by lia.
Qed.
Lemma drop_r r s rd wr q c l :
  1 < s_refs r ->
  dmsg_state_drop state0 (con r p s h rd wr q c l) = Ok () (con (set_srefs (s_refs r - 1) r) p s h rd wr q c l).
Proof.
  intros Hs. unfold dmsg_state_drop. rewrite (bind_Ok _ _ _ _ _ (load_r r s rd wr q c l)).
  rewrite (bool_decide_true (0 < s_refs r)) by lia. rewrite (bind_Ok _ _ _ () (con r p s h rd wr q c l)) by done.
  rewrite (bind_Ok _ _ _ _ _ (update_r _ r s rd wr q c l)). by rewrite bool_decide_false by lia.
Qed.

(** The last reference of a state that is in no tree and no queue. *)
Lemma drop_p_last r s rd wr q c l opp :
  s_refs s = 1 -> s_flags s = mkflags opp false false -> s_subq s = [] -> s_any s = 0 ->
  dmsg_state_drop p (con r p s h rd wr q c l) =
    Ok () {| io_heap := <[state0:=r]> (delete p h); staterd_tree := rd; statewr_tree := wr; txmsgq := q;
             dmsg_state_count := c - 1; io_locked := l |}.
Proof.
  intros Hr Hf Hq Ha. unfold dmsg_state_drop. rewrite (bind_Ok _ _ _ _ _ (load_p r s rd wr q c l)).
  rewrite (bool_decide_true (0 < s_refs s)) by lia. rewrite (bind_Ok _ _ _ () (con r p s h rd wr q c l)) by done.
  rewrite (bind_Ok _ _ _ _ _ (update_p _ r s rd wr q c l)). rewrite bool_decide_true by done. cbn [when].
  unfold dmsg_state_free. rewrite (bind_Ok _ _ _ _ _ (load_p _ _ rd wr q c l)).
  cbn [set_srefs s_flags s_subq s_refs s_any]. rewrite Hf, Hq, Hr, Ha.
  replace (has (mkflags opp false false) _) with false by (by destruct opp).
  unfold mbind, prog_bind, modify, assertp, set_count, set_io_heap. cbn. do 2 f_equal.
  cbn [io_heap]. unfold cells. rewrite delete_insert_ne, delete_insert_eq by done. done.
Qed.
End cells.

(** ** Cells *)

(** The state at [p] of a transaction with the id [id], opened by the other side ([opp]) or
    by this one, in the queue of the root ([inq]), in its tree ([rb]), with the two
    directions at [tx] and [rx], and [n] references from messages. *)
Record cell_ok (s : dmsg_state) (opp inq rb : bool) (tx rx : half) (n id : Z) : Prop := {
  c_flags : s_flags s = mkflags opp inq rb;
  c_subq : s_subq s = [];
  c_relay : s_relay s = None;
  c_any : s_any s = 0;
  c_parent : s_parent s = if inq then Some state0 else None;
  c_txreply : has (s_txcmd s) DMSGF_REPLY = opp;
  c_rxreply : has (s_rxcmd s) DMSGF_REPLY = negb opp;
  c_tx : half_of (s_txcmd s) = tx;
  c_rx : half_of (s_rxcmd s) = rx;
  c_refs : s_refs s = Z.b2z rb + Z.b2z inq + n;
  c_id : s_msgid s = id;
}.

(** The root state. *)
Record root_ok (r : dmsg_state) (subq : list positive) (refs : Z) : Prop := {
  r_flags : s_flags r = DMSG_STATE_ROOT;
  r_subq : s_subq r = subq;
  r_relay : s_relay r = None;
  r_scan : s_scan r = None;
  r_parent : s_parent r = Some state0;
  r_tx : s_txcmd r = 0;
  r_rx : s_rxcmd r = 0;
  r_refs : s_refs r = refs;
  r_id : s_msgid r = 0;
}.

(** Run the next step of a program on two cells. *)
Ltac prim :=
  first [ apply load_p; done | apply load_r; done | apply update_p; done | apply update_r; done
        | reflexivity ].
Ltac step := repeat rewrite bind_bind; erewrite bind_Ok by prim; cbv beta iota.
Ltac norm :=
  unfold modify, set_locked, set_txmsgq, set_count, set_staterd, set_statewr;
  cbn [io_heap staterd_tree statewr_tree txmsgq dmsg_state_count io_locked].
(** The cells at the end of a run. *)
Ltac cell := split; cbn in *; first [done | congruence | lia].
Ltac step_by tac := repeat rewrite bind_bind; erewrite bind_Ok by tac; cbv beta iota.

Section ops.
Context (p : positive) (h : gmap positive dmsg_state) (Hp : p ≠ state0).
Implicit Types (r s : dmsg_state) (rd wr : gmap Z positive) (q : list dmsg_msg) (c : Z) (l : bool).

Definition without (x : positive) (l : list positive) : list positive := filter (λ y, y ≠ x) l.
Definition empty_ref (l : list positive) : Z := Z.b2z (bool_decide (l = [])).

Lemma subq_delete_spec r s rd wr q c l opp rb tx rx n id subq refs :
  cell_ok s opp true rb tx rx n id -> root_ok r subq refs -> 1 < refs -> 0 < Z.b2z rb + n ->
  exists r' s', dmsg_subq_delete p (con r p s h rd wr q c l) = Ok () (con r' p s' h rd wr q c l) /\
    cell_ok s' opp false rb tx rx n id /\ root_ok r' (without p subq) (refs - empty_ref (without p subq)).
Proof.
  intros Hc Hr Hrefs Hn. pose proof (has_mkflags opp true rb) as (_ & _ & _ & _ & F5 & _ & _ & _ & F9).
  unfold dmsg_subq_delete. step. rewrite (c_flags _ _ _ _ _ _ _ _ Hc), F5.
  rewrite (c_parent _ _ _ _ _ _ _ _ Hc). step. rewrite (r_scan _ _ _ Hr). step. rewrite (r_subq _ _ _ Hr).
  step. step. fold (without p subq).
  set (s1 := set_parent _ _). set (r1 := set_subq _ _).
  assert (s_refs s1 = Z.b2z rb + 1 + n) as Hs1 by (cbn; by rewrite (c_refs _ _ _ _ _ _ _ _ Hc)).
  destruct Hc, Hr. unfold empty_ref. case_bool_decide as He; cbn [when].
  - step_by ltac:(apply drop_r; [done|cbn; lia]). rewrite drop_p by (done || lia).
    do 2 eexists. split; [done|]. split; cell.
  - step. rewrite drop_p by (done || lia). do 2 eexists. split; [done|]. split; cell.
Qed.

(** The trees after the state left its own. *)
Definition rd_less (opp : bool) (id : Z) (rd : gmap Z positive) : gmap Z positive := if opp then delete id rd else rd.
Definition wr_less (opp : bool) (id : Z) (wr : gmap Z positive) : gmap Z positive := if opp then wr else delete id wr.

Lemma rb_remove_spec (opp : bool) r s rd wr q c l :
  (if opp then rd else wr) !! s_msgid s = Some p ->
  rb_remove (negb opp) p (con r p s h rd wr q c l) =
    Ok () (con r p s h (rd_less opp (s_msgid s) rd) (wr_less opp (s_msgid s) wr) q c l).
Proof.
  intros Ht. unfold rb_remove. step. step. destruct opp; cbn in *; by rewrite bool_decide_true.
Qed.

Lemma cleanuptx_delete_spec r s rd wr q c l opp tx rx n id subq refs msg :
  cell_ok s opp true true tx rx n id -> root_ok r subq refs -> 1 < refs -> 0 < n -> tx ≠ Closed ->
  (if opp then rd else wr) !! id = Some p -> has (m_cmd msg) DMSGF_REPLY = opp ->
  let done := bool_decide (rx = Closed) in
  exists r' s', cleanuptx_delete p msg (con r p s h rd wr q c l) =
      Ok () (con r' p s' h (if done then rd_less opp id rd else rd) (if done then wr_less opp id wr else wr) q c l) /\
    cell_ok s' opp (negb done) (negb done) Closed rx n id /\
    root_ok r' (if done then without p subq else subq) (if done then refs - empty_ref (without p subq) else refs).
Proof.
  intros Hc Hr Hrefs Hn Htx Ht Hm done. pose proof (has_mkflags opp true true) as (_ & _ & _ & _ & _ & F6 & _ & F8 & _).
  unfold cleanuptx_delete. step. rewrite has_delete_half, (c_tx _ _ _ _ _ _ _ _ Hc), bool_decide_false by done.
  step. set (s1 := set_txcmd _ s).
  assert (cell_ok s1 opp true true Closed rx n id) as Hc1.
  { destruct Hc; split; cbn; try done; [by rewrite reply_delete|apply half_of_delete]. }
  rewrite has_delete_half, (c_rx _ _ _ _ _ _ _ _ Hc). subst done. case_bool_decide as Hrx; cbn [when negb].
  - rewrite (c_flags _ _ _ _ _ _ _ _ Hc), F6. step. rewrite reply_delete, (c_txreply _ _ _ _ _ _ _ _ Hc), Hm.
    rewrite eqb_reflx. step. rewrite <- (c_id _ _ _ _ _ _ _ _ Hc) in Ht.
    step_by ltac:(by apply rb_remove_spec). step. change (s_msgid s1) with (s_msgid s). rewrite (c_id _ _ _ _ _ _ _ _ Hc).
    assert (cell_ok (set_flags (clear (s_flags s1) DMSG_STATE_RBINSERTED) s1) opp true false Closed rx (n + 1) id) as Hc2.
    { destruct Hc1; split; cbn in *; try done; [by rewrite c_flags0, F8|lia]. }
    destruct (subq_delete_spec _ _ (rd_less opp id rd) (wr_less opp id wr) q c l _ _ _ _ _ _ _ _ Hc2 Hr Hrefs
      ltac:(cbn; lia)) as (r3 & s3 & E3 & Hc3 & Hr3).
    step_by ltac:(exact E3). unfold drop_relay. step. rewrite (c_relay _ _ _ _ _ _ _ _ Hc3). step.
    rewrite drop_p by (done || (rewrite (c_refs _ _ _ _ _ _ _ _ Hc3); cbn; lia)).
    do 2 eexists. split; [done|]. split; [|done]. destruct Hc3; cell.
  - do 2 eexists. split; [done|]. split; [exact Hc1|exact Hr].
Qed.

Context (cb : dmsg_msg -> prog iocom ()) (fuel : nat) (mtx : mutex_kind).

(** What a message does to the transmit side. *)
Definition sent (tx : half) (del : bool) : half := if del then Closed else tx.

Lemma cell_refs_add s opp inq rb tx rx n id k :
  cell_ok s opp inq rb tx rx n id -> cell_ok (set_srefs (s_refs s + k) s) opp inq rb tx rx (n + k) id.
Proof. intros []; cell. Qed.

Lemma cleanuptx_spec r s rd wr q c l opp tx rx n id subq refs msg :
  cell_ok s opp true true tx rx n id -> root_ok r subq refs -> 1 < refs -> 0 < n < 2 ^ 32 - 4 -> tx ≠ Closed ->
  (if opp then rd else wr) !! id = Some p -> has (m_cmd msg) DMSGF_REPLY = opp -> m_state msg = p ->
  let del := has (m_cmd msg) DMSGF_DELETE in
  let done := del && bool_decide (rx = Closed) in
  exists r' s', dmsg_state_cleanuptx mtx cb fuel msg (con r p s h rd wr q c l) =
      Ok () (con r' p s' h (if done then rd_less opp id rd else rd) (if done then wr_less opp id wr else wr) q c l) /\
    cell_ok s' opp (negb done) (negb done) (sent tx del) rx n id /\
    root_ok r' (if done then without p subq else subq) (if done then refs - empty_ref (without p subq) else refs).
Proof.
  intros Hc Hr Hrefs Hn Htx Ht Hm Hp' del done. unfold dmsg_state_cleanuptx. rewrite Hp'.
  pose proof (c_refs _ _ _ _ _ _ _ _ Hc) as Hs. cbn in Hs.
  step_by ltac:(apply hold_p; [done|lia]). pose proof (cell_refs_add _ _ _ _ _ _ _ _ 1 Hc) as Hc1.
  step. rewrite (c_flags _ _ _ _ _ _ _ _ Hc1). destruct (has_mkflags opp true true) as (F1 & _ & F3 & _).
  rewrite F1. cbn [negb andb]. fold del.
  assert (exists r' s',
    when del (cleanuptx_delete p msg) (con r p (set_srefs (s_refs s + 1) s) h rd wr q c l) =
      Ok () (con r' p s' h (if done then rd_less opp id rd else rd) (if done then wr_less opp id wr else wr) q c l) /\
    cell_ok s' opp (negb done) (negb done) (sent tx del) rx (n + 1) id /\
    root_ok r' (if done then without p subq else subq) (if done then refs - empty_ref (without p subq) else refs))
    as (r2 & s2 & E2 & Hc2 & Hr2).
  { subst done. destruct del; cbn [when andb sent]; [|by do 2 eexists].
    apply (cleanuptx_delete_spec _ _ rd wr q c l opp tx rx); first [done | lia]. }
  step_by ltac:(exact E2). step. rewrite (c_flags _ _ _ _ _ _ _ _ Hc2).
  destruct (has_mkflags opp (negb done) (negb done)) as (_ & _ & F & _). rewrite F. cbn [andb]. step.
  pose proof (c_refs _ _ _ _ _ _ _ _ Hc2) as Hs2.
  rewrite drop_p by (done || (destruct done; cbn in *; lia)).
  do 2 eexists. split; [done|]. split; [|done].
  replace n with (n + 1 + -1) by lia. by apply (cell_refs_add _ _ _ _ _ _ (n + 1)).
Qed.

(** The transmit side after a message with these flags. *)
Definition tx_after (tx : half) (create del : bool) : half := sent (if create then Open else tx) del.

Lemma write_state_spec r s rd wr q c l opp tx rx n id msg :
  cell_ok s opp true true tx rx n id -> has (m_cmd msg) DMSGF_REPLY = opp -> m_state msg = p ->
  exists s', write_state msg (con r p s h rd wr q c l) = Ok (set_m_msgid id msg) (con r p s' h rd wr q c l) /\
    cell_ok s' opp true true (if has (m_cmd msg) DMSGF_CREATE then Open else tx) rx n id.
Proof.
  intros Hc Hm Hp'. unfold write_state. rewrite Hp'. step. rewrite (c_flags _ _ _ _ _ _ _ _ Hc).
  destruct (has_mkflags opp true true) as (F1 & _ & _ & _ & _ & _ & F7 & _). rewrite F1, opens_has, Hm.
  rewrite (c_id _ _ _ _ _ _ _ _ Hc). destruct (has (m_cmd msg) DMSGF_CREATE) eqn:E; cbn [andb].
  - assert (forall s1, cell_ok s1 opp true true tx rx n id ->
      cell_ok (set_txcmd (clear (m_cmd msg) DMSGF_DELETE) s1) opp true true Open rx n id) as Ht.
    { intros s1 []. split; cbn; try done; [by rewrite reply_clear|by rewrite half_of_clear, E]. }
    destruct opp; cbn [negb when].
    + step. step. eexists. split; [done|]. by apply Ht.
    + step. step. eexists. split; [done|]. apply Ht in Hc. destruct Hc. split; cbn in *; try done. by rewrite c_flags0, F7.
  - step. step. by eexists.
Qed.

Lemma msg_write_spec r s rd wr q c opp tx rx n id subq refs msg :
  cell_ok s opp true true tx rx n id -> root_ok r subq refs -> 1 < refs -> 0 < n < 2 ^ 32 - 4 -> tx ≠ Closed ->
  (if opp then rd else wr) !! id = Some p -> has (m_cmd msg) DMSGF_REPLY = opp -> m_state msg = p ->
  let del := has (m_cmd msg) DMSGF_DELETE in
  let done := del && bool_decide (rx = Closed) in
  exists r' s', dmsg_msg_write mtx cb fuel msg (con r p s h rd wr q c false) =
      Ok () (con r' p s' h (if done then rd_less opp id rd else rd) (if done then wr_less opp id wr else wr)
               (q ++ [set_m_msgid id msg]) c false) /\
    cell_ok s' opp (negb done) (negb done) (tx_after tx (has (m_cmd msg) DMSGF_CREATE) del) rx n id /\
    root_ok r' (if done then without p subq else subq) (if done then refs - empty_ref (without p subq) else refs).
Proof.
  intros Hc Hr Hrefs Hn Htx Ht Hm Hp' del done. unfold dmsg_msg_write. step.
  destruct (write_state_spec r s rd wr q c true opp tx rx n id msg Hc Hm Hp') as (s1 & E1 & Hc1).
  cbn [modify set_locked] in *.
  step_by ltac:(exact E1). cbn [set_m_msgid m_state]. rewrite Hp'. step.
  set (tx1 := if has (m_cmd msg) DMSGF_CREATE then Open else tx) in *.
  assert (tx1 ≠ Closed) as Htx1 by (subst tx1; by destruct (has (m_cmd msg) DMSGF_CREATE)).
  rewrite has_delete_half, (c_tx _ _ _ _ _ _ _ _ Hc1), bool_decide_false by done.
  rewrite (c_flags _ _ _ _ _ _ _ _ Hc1). destruct (has_mkflags opp true true) as (_ & F2 & _). rewrite F2.
  destruct (cleanuptx_spec r s1 rd wr q c true opp tx1 rx n id subq refs (set_m_msgid id msg))
    as (r2 & s2 & E2 & Hc2 & Hr2); [done..|]. cbn [set_m_msgid m_cmd] in *.
  step_by ltac:(exact E2). step. cbn [modify set_txmsgq]. do 2 eexists. split; [done|]. done.
Qed.

(** The command of a message sent on an open transaction. *)
Definition send_cmd (opp : bool) (tx : half) (cmd : Z) : Z :=
  let cmd := if opp then cmd .| DMSGF_REVTRANS else cmd in
  if bool_decide (tx = Open) then cmd else cmd .| DMSGF_CREATE.

(** A command without flags that the library sets itself. *)
Record plain_cmd (cmd : Z) : Prop := {
  pc_create : has cmd DMSGF_CREATE = false;
  pc_revtrans : has cmd DMSGF_REVTRANS = false;
  pc_revcirc : has cmd DMSGF_REVCIRC = false;
  pc_size : 1 <= cmd .& DMSGF_SIZE;
}.

Lemma send_cmd_flags opp tx cmd :
  plain_cmd cmd -> tx ≠ Closed ->
  has (send_cmd opp tx cmd) DMSGF_CREATE = bool_decide (tx = Init) /\
  has (send_cmd opp tx cmd) DMSGF_DELETE = has cmd DMSGF_DELETE /\
  has (send_cmd opp tx cmd) DMSGF_REPLY = has cmd DMSGF_REPLY /\
  has (send_cmd opp tx cmd) DMSGF_REVTRANS = opp /\
  has (send_cmd opp tx cmd) DMSGF_REVCIRC = false /\
  send_cmd opp tx cmd .& DMSGF_SIZE = cmd .& DMSGF_SIZE.
Proof.
  intros [H1 H2 H3 _] Htx. rewrite has_create in H1. rewrite has_revtrans in H2. rewrite has_revcirc in H3.
  rewrite has_create, !has_delete, !has_reply, has_revtrans, has_revcirc. unfold send_cmd.
  assert (forall x, (x .| DMSGF_REVTRANS) .& DMSGF_SIZE = x .& DMSGF_SIZE) as S1.
  { intros x. rewrite Z.land_lor_distr_l. change (DMSGF_REVTRANS .& DMSGF_SIZE) with 0. apply Z.lor_0_r. }
  assert (forall x, (x .| DMSGF_CREATE) .& DMSGF_SIZE = x .& DMSGF_SIZE) as S2.
  { intros x. rewrite Z.land_lor_distr_l. change (DMSGF_CREATE .& DMSGF_SIZE) with 0. apply Z.lor_0_r. }
  assert (bool_decide (tx = Open) = negb (bool_decide (tx = Init))) as -> by (by destruct tx).
  destruct opp, (bool_decide (tx = Init)); cbn [negb]; rewrite ?S1, ?S2, ?S1, ?Z.lor_spec;
    repeat match goal with |- context [Z.testbit ?f ?k] =>
      lazymatch f with cmd => fail | _ => let v := eval vm_compute in (Z.testbit f k) in change (Z.testbit f k) with v end end;
    rewrite ?H1, ?H2, ?H3, ?orb_false_r, ?orb_true_r; done.
Qed.

Lemma send_on_spec r s rd wr q c opp tx rx n id subq refs cmd error :
  cell_ok s opp true true tx rx n id -> root_ok r subq refs -> 1 < refs -> 0 <= n < 2 ^ 32 - 6 -> tx ≠ Closed ->
  (if opp then rd else wr) !! id = Some p -> plain_cmd cmd -> has cmd DMSGF_REPLY = opp ->
  let del := has cmd DMSGF_DELETE in
  let done := del && bool_decide (rx = Closed) in
  exists r' s', send_on mtx cb fuel p cmd error (con r p s h rd wr q c false) =
      Ok () (con r' p s' h (if done then rd_less opp id rd else rd) (if done then wr_less opp id wr else wr)
               (q ++ [{| m_state := p; m_cmd := send_cmd opp tx cmd; m_msgid := id; m_circuit := 0; m_error := error;
                         m_tcmd := 0; m_aux_size := 0; m_wire := new_wire ((cmd .& DMSGF_SIZE) * DMSG_ALIGN) 0 |}]) c false) /\
    cell_ok s' opp (negb done) (negb done) (closes del) rx (n + 1) id /\
    root_ok r' (if done then without p subq else subq) (if done then refs - empty_ref (without p subq) else refs).
Proof.
  intros Hc Hr Hrefs Hn Htx Ht Hcmd Hm del done. unfold send_on, dmsg_msg_alloc. step. norm.
  unfold dmsg_msg_alloc_locked. rewrite opens_has, (pc_create _ Hcmd). cbn [andb]. step.
  pose proof (c_refs _ _ _ _ _ _ _ _ Hc) as Hs. cbn in Hs.
  step_by ltac:(apply hold_p; [done|lia]). pose proof (cell_refs_add _ _ _ _ _ _ _ _ 1 Hc) as Hc1.
  rewrite (c_parent _ _ _ _ _ _ _ _ Hc). step. step.
  rewrite bool_decide_true by (pose proof (pc_size _ Hcmd); unfold DMSG_ALIGN; lia). step. step. step.
  rewrite (c_flags _ _ _ _ _ _ _ _ Hc1), (r_flags _ _ _ Hr).
  destruct (has_mkflags opp true true) as (F1 & _ & _ & F4 & _). rewrite F4.
  change (has DMSG_STATE_ROOT DMSG_STATE_OPPOSITE) with false. cbv iota. step. step. step. norm.
  step. rewrite (c_flags _ _ _ _ _ _ _ _ Hc1), F1. cbn [negb andb set_srefs s_txcmd s_msgid].
  rewrite has_create_half, (c_tx _ _ _ _ _ _ _ _ Hc) by (by rewrite (c_tx _ _ _ _ _ _ _ _ Hc)).
  rewrite (c_id _ _ _ _ _ _ _ _ Hc), (r_id _ _ _ Hr).
  set (msg := {| m_state := p; m_cmd := send_cmd opp tx cmd; m_msgid := id; m_circuit := 0; m_error := error;
                 m_tcmd := 0; m_aux_size := 0; m_wire := new_wire ((cmd .& DMSGF_SIZE) * DMSG_ALIGN) 0 |}).
  destruct (send_cmd_flags opp tx cmd Hcmd Htx) as (S1 & S2 & S3 & _).
  destruct (msg_write_spec r (set_srefs (s_refs s + 1) s) rd wr q c opp tx rx (n + 1) id subq refs msg)
    as (r2 & s2 & E2 & Hc2 & Hr2); [done|done|done|lia|done..|by rewrite <- Hm|done|].
  cbn [msg m_cmd] in *. rewrite S2 in *. do 2 eexists. split; [|split; [|exact Hr2]].
  - etransitivity; [|exact E2]. f_equal. unfold msg, send_cmd. by destruct tx, opp.
  - rewrite S1 in Hc2. unfold tx_after, sent, closes in *. destruct tx; try done.
Qed.

(** A connection without a state at [p]. *)
Abbreviation bare r rd wr q c l :=
  {| io_heap := <[state0:=r]> h; staterd_tree := rd; statewr_tree := wr; txmsgq := q; dmsg_state_count := c;
     io_locked := l |}.

Lemma load_bare r rd wr q c l : load_state state0 (bare r rd wr q c l) = Ok r (bare r rd wr q c l).
Proof. unfold load_state. rewrite (bind_Ok get_state _ _ _ _ eq_refl). cbn [io_heap]. by rewrite lookup_insert_eq. Qed.

Lemma new_state_bare r s rd wr q c l :
  h !! p = None -> new_state p s (bare r rd wr q c l) = Ok () (con r p s h rd wr q c l).
Proof.
  intros Hh. unfold new_state. rewrite (bind_Ok get_state _ _ _ _ eq_refl). cbn [io_heap].
  rewrite lookup_insert_ne, bool_decide_true by done. unfold modify, set_io_heap, cells. cbn [io_heap].
  by rewrite insert_insert_ne by done.
Qed.

(** The three references a new state gets. *)
Ltac hold3 s :=
  do 3 (step_by ltac:(apply hold_p; [done|cbn; lia]));
  match goal with |- context [cells ?r ?p ?t ?h] => change (cells r p t h) with (cells r p (set_srefs 3 s) h) end.

(** The first sub-state of the root holds it. *)
Lemma hold_first r s rd wr q c l subq refs :
  root_ok r subq refs -> 0 <= refs < 2 ^ 32 - 1 ->
  exists r', when (bool_decide (s_subq r = [])) (dmsg_state_hold state0) (con r p s h rd wr q c l) =
      Ok () (con r' p s h rd wr q c l) /\ root_ok r' subq (refs + empty_ref subq).
Proof.
  intros Hr Hrefs. rewrite (r_subq _ _ _ Hr). unfold empty_ref. case_bool_decide; cbn [when].
  - rewrite hold_r by (done || (rewrite (r_refs _ _ _ Hr); lia)). eexists. split; [done|]. destruct Hr; cell.
  - eexists. split; [done|]. by rewrite Z.add_0_r.
Qed.

Definition opening (cmd : Z) : Prop :=
  has cmd DMSGF_CREATE = true /\ has cmd DMSGF_REPLY = false /\ has cmd DMSGF_REVTRANS = false /\
  has cmd DMSGF_REVCIRC = false /\ 1 <= cmd .& DMSGF_SIZE.

Lemma initiated_ok flags cmd func :
  flags = DMSG_STATE_ROOT -> has cmd DMSGF_REPLY = false ->
  cell_ok (set_srefs 3 (initiated p state0 flags cmd func 0)) false true true Init Init 1 (Zpos p).
Proof.
  intros -> Hcmd. rewrite has_reply in Hcmd. split; try done; cbn [set_srefs initiated s_txcmd s_rxcmd].
  - rewrite has_reply. unfold clear. by rewrite Z.land_spec, Hcmd.
  - unfold half_of. rewrite has_delete, has_create. unfold clear. rewrite !Z.land_spec.
    change (Z.testbit (bnot 32 (DMSGF_CREATE .| DMSGF_DELETE)) 30) with false.
    change (Z.testbit (bnot 32 (DMSGF_CREATE .| DMSGF_DELETE)) 31) with false. by rewrite !andb_false_r.
Qed.

Lemma create_spec r rd wr q c subq refs cmd aux func :
  h !! p = None -> wr !! Zpos p = None -> root_ok r subq refs -> 0 <= refs < 2 ^ 32 - 1 -> 1 < refs + empty_ref subq ->
  opening cmd ->
  exists r' s', (msg ← dmsg_msg_alloc mtx p state0 aux cmd func 0; dmsg_msg_write mtx cb fuel msg)
        (bare r rd wr q c false) =
      Ok () (con r' p s' h rd (<[Zpos p:=p]> wr)
               (q ++ [{| m_state := p; m_cmd := cmd; m_msgid := Zpos p; m_circuit := 0; m_error := 0;
                         m_tcmd := 0; m_aux_size := aux; m_wire := new_wire ((cmd .& DMSGF_SIZE) * DMSG_ALIGN) aux |}]) (c + 1) false) /\
    cell_ok s' false true true (closes (has cmd DMSGF_DELETE)) Init 1 (Zpos p) /\
    root_ok r' (subq ++ [p]) (refs + empty_ref subq).
Proof.
  intros Hh Hwr Hr Hrefs Hrefs' (H1 & H2 & H3 & H4 & Hsize). unfold dmsg_msg_alloc. step. norm.
  unfold dmsg_msg_alloc_locked. rewrite opens_has, H1, H2. cbn [andb negb].
  step_by ltac:(apply load_bare). step_by ltac:(by apply new_state_bare). step. norm.
  destruct (hold_first r (initiated p state0 (s_flags r) cmd func 0) rd wr q (c + 1) true subq refs Hr Hrefs)
    as (r1 & E1 & Hr1).
  step_by ltac:(exact E1). step. norm. unfold rb_insert. rewrite Hwr. step.
  hold3 (initiated p state0 (s_flags r) cmd func 0).
  pose proof (initiated_ok (s_flags r) cmd func (r_flags _ _ _ Hr) H2) as Hc.
  repeat rewrite bind_bind. step. rewrite bool_decide_true by (unfold DMSG_ALIGN; lia). step. step. step.
  rewrite (c_flags _ _ _ _ _ _ _ _ Hc). destruct (has_mkflags false true true) as (_ & _ & _ & F4 & _). rewrite F4.
  cbn [set_subq s_flags]. rewrite (r_flags _ _ _ Hr1). change (has DMSG_STATE_ROOT DMSG_STATE_OPPOSITE) with false.
  cbv iota. step. step. norm.
  assert (root_ok (set_subq (s_subq r1 ++ [p]) r1) (subq ++ [p]) (refs + empty_ref subq)) as Hr2 by (destruct Hr1; cell).
  rewrite (r_id _ _ _ Hr2).
  set (msg := {| m_state := p; m_cmd := cmd; m_msgid := Zpos p; m_circuit := 0; m_error := 0; m_tcmd := 0; m_aux_size := aux;
                 m_wire := new_wire ((cmd .& DMSGF_SIZE) * DMSG_ALIGN) aux |}).
  destruct (msg_write_spec _ _ rd (<[Zpos p:=p]> wr) q (c + 1) false Init Init 1 (Zpos p) _ _ msg Hc Hr2)
    as (r3 & s3 & E3 & Hc3 & Hr3); [lia|lia|done|by rewrite lookup_insert_eq|done..|].
  cbn [msg m_cmd] in *. rewrite andb_false_r in *. step. do 2 eexists. split; [exact E3|]. split; [|exact Hr3].
  rewrite H1 in Hc3. unfold tx_after, sent, closes in *. exact Hc3.
Qed.

(** The release of a message: the state stays, or it goes with its last reference. *)
Definition released (inq rb : bool) (n : Z) : bool := negb (inq || rb) && bool_decide (n = 1).

Lemma msg_free_spec r s rd wr q c l opp inq rb tx rx n id msg :
  mtx = ErrorCheck \/ l = false -> cell_ok s opp inq rb tx rx n id -> 0 < n -> m_state msg = p ->
  if released inq rb n
  then dmsg_msg_free mtx msg (con r p s h rd wr q c l) =
         Ok () {| io_heap := <[state0:=r]> (delete p h); staterd_tree := rd; statewr_tree := wr; txmsgq := q;
                  dmsg_state_count := c - 1; io_locked := false |}
  else exists s', dmsg_msg_free mtx msg (con r p s h rd wr q c l) = Ok () (con r p s' h rd wr q c false) /\
         cell_ok s' opp inq rb tx rx (n - 1) id.
Proof.
  intros Hmtx Hc Hn Hp'. unfold dmsg_msg_free, dmsg_msg_free_locked. rewrite Hp'.
  assert (lock mtx (con r p s h rd wr q c l) = Ok () (con r p s h rd wr q c true)) as Hl by (destruct Hmtx as [->| ->]; [by destruct l|done]).
  pose proof (c_refs _ _ _ _ _ _ _ _ Hc) as Hs.
  unfold released. destruct (inq || rb) eqn:Eb; cbn [negb andb]; [|case_bool_decide as H1].
  - eexists. step_by ltac:(exact Hl). step_by ltac:(apply drop_p; [done|destruct inq, rb; cbn in *; (done || lia)]).
    split; [done|]. destruct Hc; cell.
  - destruct inq, rb; try done. step_by ltac:(exact Hl). cbn in Hs.
    step_by ltac:(eapply drop_p_last; [done|lia|apply Hc..]). done.
  - eexists. step_by ltac:(exact Hl). step_by ltac:(apply drop_p; [done|destruct inq, rb; cbn in *; (done || lia)]).
    split; [done|]. destruct Hc; cell.
Qed.

Lemma transmit_spec r s rd wr q c opp inq rb tx rx n id msg :
  cell_ok s opp inq rb tx rx n id -> 0 < n -> m_state msg = p ->
  if released inq rb n
  then dmsg_transmit mtx (con r p s h rd wr (msg :: q) c false) =
         Ok (Some (head_of msg))
           {| io_heap := <[state0:=r]> (delete p h); staterd_tree := rd; statewr_tree := wr; txmsgq := q;
              dmsg_state_count := c - 1; io_locked := false |}
  else exists s', dmsg_transmit mtx (con r p s h rd wr (msg :: q) c false) =
           Ok (Some (head_of msg)) (con r p s' h rd wr q c false) /\
         cell_ok s' opp inq rb tx rx (n - 1) id.
Proof.
  intros Hc Hn Hp'. pose proof (msg_free_spec r s rd wr q c false _ _ _ _ _ _ _ msg (or_intror eq_refl) Hc Hn Hp') as Hf.
  unfold dmsg_transmit. destruct (released inq rb n).
  - step. cbn [txmsgq]. step. norm. step. norm. step. norm. by step_by ltac:(exact Hf).
  - destruct Hf as (s' & Hf & Hc'). exists s'. split; [|done].
    step. cbn [txmsgq]. step. norm. step. norm. step. norm. by step_by ltac:(exact Hf).
Qed.

(** The end of a received message. *)
Lemma cleanuprx_spec r s rd wr q c opp inq rb tx rx n id subq refs msg :
  cell_ok s opp inq rb tx rx n id -> root_ok r subq refs -> 1 < refs \/ inq = false -> 0 < n -> m_state msg = p ->
  rb = negb (bool_decide (tx = Closed) && bool_decide (rx = Closed)) ->
  let gone := inq && negb rb in
  exists r' s', root_ok r' (if gone then without p subq else subq) (if gone then refs - empty_ref (without p subq) else refs) /\
    cell_ok s' opp (inq && rb) rb tx rx n id /\
    dmsg_state_cleanuprx mtx msg (con r p s h rd wr q c true) = dmsg_msg_free mtx msg (con r' p s' h rd wr q c true).
Proof.
  intros Hc Hr Hrefs Hn Hp' Hrb gone. unfold dmsg_state_cleanuprx. rewrite Hp'.
  assert (exists r' s', root_ok r' (if gone then without p subq else subq) (if gone then refs - empty_ref (without p subq) else refs) /\
    cell_ok s' opp (inq && rb) rb tx rx n id /\
    when gone (dmsg_subq_delete p;; drop_relay p) (con r p s h rd wr q c true) = Ok () (con r' p s' h rd wr q c true))
    as (r' & s' & Hr' & Hc' & E).
  { subst gone. destruct inq, rb; cbn [andb negb when].
    1,3,4: do 2 eexists; (split; [exact Hr|]); (split; [exact Hc|done]).
    destruct (subq_delete_spec r s rd wr q c true _ _ _ _ _ _ _ _ Hc Hr ltac:(by destruct Hrefs) ltac:(cbn; lia))
      as (r1 & s1 & E1 & Hc1 & Hr1). do 2 eexists. split; [exact Hr1|]. split; [exact Hc1|].
    step_by ltac:(exact E1). unfold drop_relay. step. by rewrite (c_relay _ _ _ _ _ _ _ _ Hc1). }
  exists r', s'. split; [exact Hr'|]. split; [exact Hc'|]. step. rewrite (c_flags _ _ _ _ _ _ _ _ Hc).
  destruct (has_mkflags opp inq rb) as (F1 & _ & _ & _ & F5 & _). rewrite F1, F5.
  rewrite !has_delete_half, (c_tx _ _ _ _ _ _ _ _ Hc), (c_rx _ _ _ _ _ _ _ _ Hc). cbn [negb andb].
  replace (inq && bool_decide (rx = Closed) && bool_decide (tx = Closed)) with gone
    by (subst gone; rewrite Hrb, negb_involutive; btauto).
  by step_by ltac:(exact E).
Qed.

Lemma receive_done_spec r s rd wr q c opp inq rb tx rx n id subq refs msg :
  cell_ok s opp inq rb tx rx n id -> root_ok r subq refs -> 1 < refs \/ inq = false -> 0 < n -> m_state msg = p ->
  rb = negb (bool_decide (tx = Closed) && bool_decide (rx = Closed)) -> mtx = ErrorCheck ->
  let gone := inq && negb rb in
  exists r', root_ok r' (if gone then without p subq else subq) (if gone then refs - empty_ref (without p subq) else refs) /\
  if released (inq && rb) rb n
  then dmsg_receive_done mtx msg (con r p s h rd wr q c false) =
         Ok () {| io_heap := <[state0:=r']> (delete p h); staterd_tree := rd; statewr_tree := wr; txmsgq := q;
                  dmsg_state_count := c - 1; io_locked := false |}
  else exists s', dmsg_receive_done mtx msg (con r p s h rd wr q c false) = Ok () (con r' p s' h rd wr q c false) /\
         cell_ok s' opp (inq && rb) rb tx rx (n - 1) id.
Proof.
  intros Hc Hr Hrefs Hn Hp' Hrb Hmtx gone.
  destruct (cleanuprx_spec r s rd wr q c _ _ _ _ _ _ _ _ _ msg Hc Hr Hrefs Hn Hp' Hrb) as (r' & s' & Hr' & Hc' & E).
  exists r'. split; [exact Hr'|].
  pose proof (msg_free_spec r' s' rd wr q c true _ _ _ _ _ _ _ msg (or_introl Hmtx) Hc' Hn Hp') as Hf.
  assert (forall a io, dmsg_msg_free mtx msg (con r' p s' h rd wr q c true) = Ok a io -> io_locked io = false ->
    dmsg_receive_done mtx msg (con r p s h rd wr q c false) = Ok () io) as Hrun.
  { intros [] io Hio Hl. unfold dmsg_receive_done. step. norm. step_by ltac:(rewrite E; exact Hio). unfold unlock.
    rewrite (bind_Ok get_state _ _ _ _ eq_refl). by rewrite Hl, Hmtx. }
  destruct (released (inq && rb) rb n); [by apply (Hrun ())|].
  destruct Hf as (s2 & Hf & Hc2). exists s2. split; [|done]. by apply (Hrun ()).
Qed.

(** With a mutex that its holder cannot take again, the message is never finished. *)
Lemma receive_done_deadlock r s rd wr q c opp inq rb tx rx n id subq refs msg :
  cell_ok s opp inq rb tx rx n id -> root_ok r subq refs -> 1 < refs \/ inq = false -> 0 < n -> m_state msg = p ->
  rb = negb (bool_decide (tx = Closed) && bool_decide (rx = Closed)) ->
  mtx = Normal -> dmsg_receive_done mtx msg (con r p s h rd wr q c false) = Stop Deadlock.
Proof.
  intros Hc Hr Hrefs Hn Hp' Hrb Hmtx.
  destruct (cleanuprx_spec r s rd wr q c _ _ _ _ _ _ _ _ _ msg Hc Hr Hrefs Hn Hp' Hrb) as (r' & s' & _ & _ & E).
  unfold dmsg_receive_done. step. norm. apply bind_Stop. rewrite E, Hmtx. done.
Qed.

(** *** Received messages *)

Lemma size_flags cmd : has (cmd .& DMSGF_SIZE) DMSGF_CREATE = false /\ (cmd .& DMSGF_SIZE) .& DMSGF_SIZE = cmd .& DMSGF_SIZE.
Proof.
  split; [|by rewrite <- Z.land_assoc]. rewrite has_create, Z.land_spec. apply andb_false_r.
Qed.

Definition msg_of (h : dmsg_hdr) (p : positive) : dmsg_msg :=
  {| m_state := p; m_cmd := h_cmd h; m_msgid := h_msgid h; m_circuit := h_circuit h; m_error := h_error h;
     m_tcmd := 0; m_aux_size := h_aux_bytes h;
     m_wire := new_wire ((h_cmd h .& DMSGF_SIZE) * DMSG_ALIGN) (h_aux_bytes h) |}.

(** The end of [dmsg_state_msgrx] on the transaction at [p], when nothing is wrong. *)
Lemma msgrx_tcmd_spec r s rd wr q c l opp inq rb tx rx n id msg :
  cell_ok s opp inq rb tx rx n id -> m_state msg = p ->
  exists t, msgrx_tcmd p msg (con r p s h rd wr q c l) = Ok t (con r p s h rd wr q c l).
Proof.
  intros Hc Hp'. unfold msgrx_tcmd. rewrite Hp'. destruct (has (m_cmd msg) _).
  - step. step. by eexists.
  - by eexists.
Qed.

Lemma msgrx_delete_spec r s rd wr q c l opp tx rx n id msg :
  cell_ok s opp true true tx rx n id -> 0 < n -> rx ≠ Closed -> has (m_cmd msg) DMSGF_REPLY = negb opp ->
  (if opp then rd else wr) !! id = Some p ->
  let del := has (m_cmd msg) DMSGF_DELETE in
  let done := del && bool_decide (tx = Closed) in
  exists s', msgrx_delete p msg (con r p s h rd wr q c l) =
      Ok () (con r p s' h (if done then rd_less opp id rd else rd) (if done then wr_less opp id wr else wr) q c l) /\
    cell_ok s' opp true (negb done) tx (if del then Closed else rx) n id.
Proof.
  intros Hc Hn Hrx Hm Ht del done. unfold msgrx_delete. step. rewrite (c_flags _ _ _ _ _ _ _ _ Hc).
  destruct (has_mkflags opp true true) as (F1 & _ & _ & _ & _ & F6 & _ & F8 & _). rewrite F1. cbn [negb andb].
  fold del. subst done. destruct del; cbn [when andb negb]; [|by eexists].
  rewrite !has_delete_half, (c_rx _ _ _ _ _ _ _ _ Hc), (c_tx _ _ _ _ _ _ _ _ Hc), (bool_decide_false (rx = Closed)) by done.
  step. step. set (s1 := set_rxcmd _ s).
  assert (cell_ok s1 opp true true tx Closed n id) as Hc1.
  { destruct Hc; split; cbn; try done; [by rewrite reply_delete|apply half_of_delete]. }
  case_bool_decide as Htx; cbn [when negb]; [|by eexists].
  rewrite F6. step. rewrite reply_delete, (c_rxreply _ _ _ _ _ _ _ _ Hc), Hm, eqb_reflx. step.
  rewrite <- (c_id _ _ _ _ _ _ _ _ Hc) in Ht. step_by ltac:(by apply rb_remove_spec). step.
  change (s_msgid s1) with (s_msgid s). rewrite (c_id _ _ _ _ _ _ _ _ Hc).
  pose proof (c_refs _ _ _ _ _ _ _ _ Hc1) as Hs1. cbn in Hs1.
  rewrite drop_p by (done || (cbn; lia)). eexists. split; [done|].
  destruct Hc1; split; cbn in *; try done; [by rewrite c_flags0, F8|lia].
Qed.

(** The message that [dmsg_ioq_read] allocates on the root state. *)
Lemma alloc_root_spec r s rd wr q c subq refs aux cmd :
  root_ok r subq refs -> 0 <= refs < 2 ^ 32 - 1 -> 1 <= cmd .& DMSGF_SIZE ->
  exists r', dmsg_msg_alloc mtx no_addr state0 aux (cmd .& DMSGF_SIZE) NoFunc 0 (con r p s h rd wr q c false) =
      Ok {| m_state := state0; m_cmd := cmd .& DMSGF_SIZE; m_msgid := 0; m_circuit := 0; m_error := 0; m_tcmd := 0;
            m_aux_size := aux; m_wire := new_wire ((cmd .& DMSGF_SIZE) * DMSG_ALIGN) aux |} (con r' p s h rd wr q c false) /\
    root_ok r' subq (refs + 1).
Proof.
  intros Hr Hrefs Hsize. unfold dmsg_msg_alloc. step. norm. unfold dmsg_msg_alloc_locked.
  destruct (size_flags cmd) as [Z1 Z2]. rewrite opens_has, Z1. cbn [andb]. step.
  step_by ltac:(apply hold_r; [done|rewrite (r_refs _ _ _ Hr); lia]). set (r1 := set_srefs _ r).
  assert (root_ok r1 subq (refs + 1)) as Hr1 by (destruct Hr; cell).
  rewrite (r_parent _ _ _ Hr). step. step. rewrite Z2, bool_decide_true by (unfold DMSG_ALIGN; lia). step. step. step.
  rewrite (r_flags _ _ _ Hr1), (r_id _ _ _ Hr1). change (has DMSG_STATE_ROOT DMSG_STATE_OPPOSITE) with false. cbv iota.
  step. step. norm. exists r1. split; [done|exact Hr1].
Qed.

Lemma rb_find_spec b (k : Z) r s rd wr q c l :
  rb_find b k (con r p s h rd wr q c l) = Ok ((if b then wr else rd) !! k) (con r p s h rd wr q c l).
Proof. unfold rb_find. rewrite (bind_Ok get_state _ _ _ _ eq_refl). by destruct b. Qed.

(** A message for the transaction at [p], up to the switch. *)
Lemma receive_found addr r s rd wr q c opp tx rx n id subq refs hd :
  cell_ok s opp true true tx rx n id -> root_ok r subq refs -> 0 < refs < 2 ^ 32 - 1 -> 0 <= n < 2 ^ 32 - 4 ->
  (if opp then rd else wr) !! id = Some p -> h_msgid hd = id -> h_circuit hd = 0 ->
  has (h_cmd hd) DMSGF_REVTRANS = negb opp -> 1 <= h_cmd hd .& DMSGF_SIZE ->
  exists r' s', dmsg_receive mtx addr hd (con r p s h rd wr q c false) =
      (r ← msgrx_process mtx addr p (Some state0) (msg_of hd p);
       if bool_decide (fst r = DMSG_IOQ_ERROR_EALREADY) then dmsg_msg_free mtx (snd r);; mret None
       else assertp (bool_decide (fst r = 0));; mret (Some (snd r))) (con r' p s' h rd wr q c true) /\
    cell_ok s' opp true true tx rx (n + 1) id /\ root_ok r' subq refs.
Proof.
  intros Hc Hr Hrefs Hn Ht Hid Hcirc Hrev Hsize. unfold dmsg_receive.
  destruct (alloc_root_spec r s rd wr q c subq refs (h_aux_bytes hd) (h_cmd hd) Hr ltac:(lia) Hsize) as (r1 & E1 & Hr1).
  step_by ltac:(exact E1). unfold dmsg_state_msgrx. cbn [m_circuit m_cmd m_msgid m_state m_tcmd m_aux_size m_wire].
  step. norm. rewrite Hcirc, bool_decide_false by tauto. step. rewrite Hrev, Hid.
  step_by ltac:(apply rb_find_spec). replace (if negb opp then wr else rd) with (if opp then rd else wr) by (by destruct opp).
  rewrite Ht. step_by ltac:(apply drop_r; [done|rewrite (r_refs _ _ _ Hr1); lia]). set (r2 := set_srefs _ r1).
  assert (root_ok r2 subq refs) as Hr2 by (destruct Hr1; cell).
  pose proof (c_refs _ _ _ _ _ _ _ _ Hc) as Hs. cbn in Hs.
  step_by ltac:(apply hold_p; [done|lia]). pose proof (cell_refs_add _ _ _ _ _ _ _ _ 1 Hc) as Hc1.
  set (s1 := set_srefs _ s) in *. step. rewrite (c_parent _ _ _ _ _ _ _ _ Hc1), bool_decide_true by done. step.
  exists r2, s1. split; [|by split]. unfold set_m_state, msg_of. cbn. by rewrite Hid, Hcirc.
Qed.

(** A message for the transaction at [p]: it opens its direction exactly when that is not
    open yet. *)
Lemma receive_spec addr r s rd wr q c opp tx rx n id subq refs hd :
  cell_ok s opp true true tx rx n id -> root_ok r subq refs -> 0 < refs < 2 ^ 32 - 1 -> 0 <= n < 2 ^ 32 - 4 ->
  (if opp then rd else wr) !! id = Some p -> rx ≠ Closed ->
  h_msgid hd = id -> h_circuit hd = 0 -> has (h_cmd hd) DMSGF_REPLY = negb opp ->
  has (h_cmd hd) DMSGF_REVTRANS = negb opp -> 1 <= h_cmd hd .& DMSGF_SIZE ->
  has (h_cmd hd) DMSGF_CREATE = bool_decide (rx = Init) -> (opp = true -> rx = Open) ->
  let del := has (h_cmd hd) DMSGF_DELETE in
  let done := del && bool_decide (tx = Closed) in
  exists r' s' msg, dmsg_receive mtx addr hd (con r p s h rd wr q c false) =
      Ok (Some msg) (con r' p s' h (if done then rd_less opp id rd else rd) (if done then wr_less opp id wr else wr) q c false) /\
    m_state msg = p /\ head_of msg = hd /\
    cell_ok s' opp true (negb done) tx (closes del) (n + 1) id /\ root_ok r' subq refs.
Proof.
  intros Hc Hr Hrefs Hn Ht Hrx Hid Hcirc Hrep Hrev Hsize Hcreate Hopp del done.
  destruct (receive_found addr r s rd wr q c _ _ _ _ _ _ _ hd Hc Hr Hrefs Hn Ht Hid Hcirc Hrev Hsize)
    as (r2 & s1 & E1 & Hc1 & Hr2). rewrite E1. clear E1.
  set (msg := msg_of hd p). unfold msgrx_process.
  assert (exists s2, msgrx_switch addr p (Some state0) msg (con r2 p s1 h rd wr q c true) =
            Ok (0, p, msg) (con r2 p s2 h rd wr q c true) /\ cell_ok s2 opp true true tx Open (n + 1) id) as (s2 & E2 & Hc2).
  { unfold msgrx_switch. step. rewrite bool_decide_false by (intros [=]; by subst p).
    change (m_cmd msg) with (h_cmd hd). rewrite (has_create_half (s_rxcmd s1)) by (by rewrite (c_rx _ _ _ _ _ _ _ _ Hc1)).
    rewrite (c_rx _ _ _ _ _ _ _ _ Hc1), Hrep, Hcreate. destruct opp; cbn [negb].
    - rewrite (Hopp eq_refl) in *. rewrite bool_decide_false, bool_decide_true by done. cbn [orb negb andb].
      destruct (has (h_cmd hd) DMSGF_DELETE); cbn [orb]; rewrite ?andb_false_r; eexists; (split; [done|exact Hc1]).
    - destruct rx; try done.
      + rewrite bool_decide_true by done.
        assert (has (s_rxcmd s1 .^ h_cmd hd) DMSGF_REPLY = false) as ->.
        { pose proof (c_rxreply _ _ _ _ _ _ _ _ Hc1) as Hx. rewrite has_reply in *. rewrite Z.lxor_spec, Hx, Hrep. done. }
        step. step. eexists. split; [done|]. destruct Hc1. split; cbn; try done.
        * by rewrite reply_clear.
        * by rewrite half_of_clear, Hcreate.
      + rewrite bool_decide_false, bool_decide_true by done. cbn [orb negb andb].
        destruct (has (h_cmd hd) DMSGF_DELETE); cbn [orb]; rewrite ?andb_false_r; eexists; (split; [done|exact Hc1]). }
  step_by ltac:(exact E2).
  destruct (msgrx_tcmd_spec r2 s2 rd wr q c true _ _ _ _ _ _ _ msg Hc2 eq_refl) as (tc & E3). step_by ltac:(exact E3).
  rewrite bool_decide_true by done. step.
  destruct (msgrx_delete_spec r2 s2 rd wr q c true opp tx Open (n + 1) id (set_m_tcmd tc msg)) as (s3 & E4 & Hc3);
    [done|lia|done|done|done|].
  step_by ltac:(exact E4). step. norm. step. cbn [fst snd]. rewrite bool_decide_false by done. step.
  do 3 eexists. split; [done|]. split; [done|]. split; [destruct hd; cbn in *; by subst|]. split; [exact Hc3|exact Hr2].
Qed.

(** An abort for a transaction that this side has opened and the other has not answered:
    it is not delivered, but it closes the receive direction. *)
Lemma receive_late_spec addr r s rd wr q c tx n id subq refs hd :
  cell_ok s false true true tx Init n id -> root_ok r subq refs -> 0 < refs < 2 ^ 32 - 1 -> 0 <= n < 2 ^ 32 - 4 ->
  wr !! id = Some p -> h_msgid hd = id -> h_circuit hd = 0 -> has (h_cmd hd) DMSGF_REPLY = true ->
  has (h_cmd hd) DMSGF_REVTRANS = true -> 1 <= h_cmd hd .& DMSGF_SIZE -> has (h_cmd hd) DMSGF_CREATE = false ->
  has (h_cmd hd) DMSGF_DELETE = true -> has (h_cmd hd) DMSGF_ABORT = true ->
  let fin := bool_decide (tx = Closed) in
  exists r' s', dmsg_receive mtx addr hd (con r p s h rd wr q c false) =
      Ok None (con r' p s' h rd (if fin then delete id wr else wr) q c false) /\
    cell_ok s' false true (negb fin) tx Closed n id /\ root_ok r' subq refs.
Proof.
  intros Hc Hr Hrefs Hn Ht Hid Hcirc Hrep Hrev Hsize Hcreate Hdel Hab fin.
  destruct (receive_found addr r s rd wr q c _ _ _ _ _ _ _ hd Hc Hr Hrefs Hn Ht Hid Hcirc Hrev Hsize)
    as (r2 & s1 & E1 & Hc1 & Hr2). rewrite E1. clear E1. set (msg := msg_of hd p). unfold msgrx_process.
  assert (msgrx_switch addr p (Some state0) msg (con r2 p s1 h rd wr q c true) =
    Ok (DMSG_IOQ_ERROR_EALREADY, p, msg) (con r2 p s1 h rd wr q c true)) as E2.
  { unfold msgrx_switch. step. rewrite bool_decide_false by (intros [=]; by subst p). change (m_cmd msg) with (h_cmd hd).
    rewrite (has_create_half (s_rxcmd s1)) by (by rewrite (c_rx _ _ _ _ _ _ _ _ Hc1)).
    by rewrite (c_rx _ _ _ _ _ _ _ _ Hc1), Hrep, Hcreate, Hdel, Hab. }
  step_by ltac:(exact E2).
  destruct (msgrx_tcmd_spec r2 s1 rd wr q c true _ _ _ _ _ _ _ msg Hc1 eq_refl) as (tc & E3). step_by ltac:(exact E3).
  rewrite bool_decide_true by done. step.
  destruct (msgrx_delete_spec r2 s1 rd wr q c true false tx Init (n + 1) id (set_m_tcmd tc msg)) as (s3 & E4 & Hc3);
    [done|lia|done|done|done|].
  change (m_cmd (set_m_tcmd tc msg)) with (h_cmd hd) in E4, Hc3. rewrite Hdel in E4, Hc3. cbn [andb] in E4, Hc3. fold fin in E4, Hc3.
  step_by ltac:(exact E4). step. norm. step. cbn [fst snd]. rewrite bool_decide_true by done.
  pose proof (msg_free_spec r2 s3 rd (if fin then delete id wr else wr) q c false _ _ _ _ _ _ _ (set_m_tcmd tc msg) (or_intror eq_refl) Hc3 ltac:(lia) eq_refl) as Hf.
  unfold released in Hf. cbn [negb andb] in Hf. destruct Hf as (s4 & Hf & Hc4).
  step_by ltac:(replace (if fin then rd_less false id rd else rd) with rd by (by destruct fin); exact Hf).
  exists r2, s4. split; [done|]. split; [|done]. by replace (n + 1 - 1) with n in Hc4 by lia.
Qed.

Lemma hold_bare r rd wr q c l :
  0 <= s_refs r < 2 ^ 32 - 1 ->
  dmsg_state_hold state0 (bare r rd wr q c l) = Ok () (bare (set_srefs (s_refs r + 1) r) rd wr q c l).
Proof.
  intros Hs. unfold dmsg_state_hold, update_state. step_by ltac:(apply load_bare).
  unfold modify, set_io_heap. cbn [io_heap staterd_tree statewr_tree txmsgq dmsg_state_count io_locked].
  by rewrite alter_insert_eq, uwrap_small by (unfold in_u; lia).
Qed.

Lemma received_ok hd :
  has (h_cmd hd) DMSGF_CREATE = true -> has (h_cmd hd) DMSGF_REPLY = false ->
  cell_ok (set_srefs 3 (received state0 None (msg_of hd state0))) true true true Init Open 1 (h_msgid hd).
Proof.
  intros H1 H2. split; try done; cbn [set_srefs received s_txcmd s_rxcmd msg_of m_cmd].
  - by rewrite reply_clear.
  - by rewrite half_of_clear, H1.
Qed.

(** A message that opens a transaction.  The root state keeps two references of it. *)
Lemma receive_new_spec r rd wr q c subq refs hd :
  h !! p = None -> rd !! h_msgid hd = None -> root_ok r subq refs -> 0 <= refs < 2 ^ 32 - 4 ->
  h_circuit hd = 0 -> opening (h_cmd hd) ->
  let del := has (h_cmd hd) DMSGF_DELETE in
  exists r' s' msg, dmsg_receive mtx p hd (bare r rd wr q c false) =
      Ok (Some msg) (con r' p s' h (<[h_msgid hd:=p]> rd) wr q (c + 1) false) /\
    m_state msg = p /\ head_of msg = hd /\
    cell_ok s' true true true Init (closes del) 1 (h_msgid hd) /\ root_ok r' (subq ++ [p]) (refs + 2 + empty_ref subq).
Proof.
  intros Hh Hrd Hr Hrefs Hcirc (H1 & H2 & H3 & H4 & Hsize) del.
  unfold dmsg_receive, dmsg_msg_alloc. step. norm. unfold dmsg_msg_alloc_locked.
  destruct (size_flags (h_cmd hd)) as [Z1 Z2]. rewrite opens_has, Z1. cbn [andb].
  step_by ltac:(apply load_bare). step_by ltac:(apply hold_bare; rewrite (r_refs _ _ _ Hr); lia). set (r1 := set_srefs _ r).
  assert (root_ok r1 subq (refs + 1)) as Hr1 by (destruct Hr; cell).
  rewrite (r_parent _ _ _ Hr). step. step. rewrite Z2, bool_decide_true by (unfold DMSG_ALIGN; lia). step.
  step_by ltac:(apply load_bare). step_by ltac:(apply load_bare).
  rewrite (r_flags _ _ _ Hr1). change (has DMSG_STATE_ROOT DMSG_STATE_OPPOSITE) with false. cbv iota. step. step. norm. step.
  change {| m_state := _ |} with (msg_of hd state0) at 1.
  unfold dmsg_state_msgrx. cbn [m_circuit m_cmd m_msgid msg_of]. step. norm. rewrite Hcirc, bool_decide_false by tauto.
  step. rewrite H3.
  assert (rb_find false (h_msgid hd) (bare r1 rd wr q c true) = Ok None (bare r1 rd wr q c true)) as Hfind.
  { unfold rb_find. rewrite (bind_Ok get_state _ _ _ _ eq_refl). cbn [staterd_tree]. by rewrite Hrd. }
  step_by ltac:(exact Hfind). unfold msgrx_process, msgrx_switch. rewrite bool_decide_true by done.
  cbn [m_cmd msg_of]. rewrite H2, H1. step_by ltac:(apply load_bare). unfold msgrx_create.
  step_by ltac:(apply load_bare). rewrite (r_relay _ _ _ Hr1). step. norm. step_by ltac:(by apply new_state_bare).
  step_by ltac:(apply hold_r; [done|rewrite (r_refs _ _ _ Hr1); lia]). set (r2 := set_srefs _ r1).
  assert (root_ok r2 subq (refs + 2)) as Hr2 by (destruct Hr1; cell).
  step. norm. unfold rb_insert. cbn [m_msgid msg_of]. rewrite Hrd. replace (s_subq r1) with (s_subq r2) by done.
  match goal with |- context [cells r2 p ?s h] => set (s0 := s) end.
  destruct (hold_first r2 s0 (<[h_msgid hd:=p]> rd) wr q (c + 1) true subq (refs + 2) Hr2 ltac:(lia)) as (r3 & E3 & Hr3).
  step_by ltac:(exact E3). step. hold3 s0. step.
  pose proof (received_ok hd H1 H2) as Hc. fold s0 in Hc.
  set (r4 := set_subq _ r3). assert (root_ok r4 (subq ++ [p]) (refs + 2 + empty_ref subq)) as Hr4 by (destruct Hr3; cell).
  set (msg := set_m_state p _).
  destruct (msgrx_tcmd_spec r4 (set_srefs 3 s0) (<[h_msgid hd:=p]> rd) wr q (c + 1) true _ _ _ _ _ _ _ msg Hc eq_refl)
    as (tc & E5). step_by ltac:(exact E5). rewrite bool_decide_true by done. step.
  destruct (msgrx_delete_spec r4 (set_srefs 3 s0) (<[h_msgid hd:=p]> rd) wr q (c + 1) true true Init Open 1 (h_msgid hd)
    (set_m_tcmd tc msg)) as (s6 & E6 & Hc6); [done|lia|done|done|by rewrite lookup_insert_eq|].
  cbn [set_m_tcmd m_cmd msg set_m_state msg_of] in E6, Hc6. rewrite bool_decide_false, andb_false_r in E6, Hc6 by done.
  step_by ltac:(exact E6). step. norm. step. cbn [fst snd]. rewrite bool_decide_false by done. step.
  do 3 eexists. split; [done|]. split; [done|]. split; [destruct hd; cbn in *; by subst|]. split; [exact Hc6|exact Hr4].
Qed.
End ops.
