(* ===== verification/DmsgEnd.v ===== *)
(** * DmsgEnd: the invariant of one end of a connection

    The states, the trees, the queue of the root and the reference counts agree
    ([ewf]), and every operation keeps it so and has a simple effect on what the other end
    can know: the two half-states of each transaction ([view]) and the headers that wait
    to be transmitted ([outgoing]). *)

From S2P Require Import Prelude CMonad Dmsg DmsgInv.

Definition opp_of (s : dmsg_state) : bool := has (s_flags s) DMSG_STATE_OPPOSITE.
Definition inq_of (s : dmsg_state) : bool := has (s_flags s) DMSG_STATE_SUBINSERTED.
Definition rb_of (s : dmsg_state) : bool := has (s_flags s) DMSG_STATE_RBINSERTED.
Definition tx_of (s : dmsg_state) : half := half_of (s_txcmd s).
Definition rx_of (s : dmsg_state) : half := half_of (s_rxcmd s).

(** A state with [n] references from messages. *)
Definition cell (s : dmsg_state) (n : Z) : Prop :=
  cell_ok s (opp_of s) (inq_of s) (rb_of s) (tx_of s) (rx_of s) n (s_msgid s).

Lemma cell_of s opp inq rb tx rx n id :
  cell_ok s opp inq rb tx rx n id ->
  opp_of s = opp /\ inq_of s = inq /\ rb_of s = rb /\ tx_of s = tx /\ rx_of s = rx /\ s_msgid s = id /\ cell s n.
Proof.
  intros Hc. destruct (has_mkflags opp inq rb) as (_ & _ & _ & F4 & F5 & F6 & _).
  assert (opp_of s = opp) as Ho by (unfold opp_of; by rewrite (c_flags _ _ _ _ _ _ _ _ Hc)).
  assert (inq_of s = inq) as Hi by (unfold inq_of; by rewrite (c_flags _ _ _ _ _ _ _ _ Hc)).
  assert (rb_of s = rb) as Hr by (unfold rb_of; by rewrite (c_flags _ _ _ _ _ _ _ _ Hc)).
  pose proof (c_tx _ _ _ _ _ _ _ _ Hc) as Ht. pose proof (c_rx _ _ _ _ _ _ _ _ Hc) as Hx.
  pose proof (c_id _ _ _ _ _ _ _ _ Hc) as Hd. unfold cell, tx_of, rx_of. rewrite Ho, Hi, Hr, Ht, Hx, Hd. done.
Qed.

(** Both directions are closed. *)
Definition over (tx rx : half) : bool := bool_decide (tx = Closed) && bool_decide (rx = Closed).

(** The messages that hold a reference: queued ones, and the one the application works on. *)
Definition msgs (q : list dmsg_msg) (pend : option dmsg_msg) : list dmsg_msg := q ++ option_list pend.
Definition mrefs (l : list dmsg_msg) (p : positive) : Z := Z.of_nat (length (filter (λ m, m_state m = p) l)).

Definition tree (opp : bool) (io : iocom) : gmap Z positive := if opp then staterd_tree io else statewr_tree io.

(** A state of a transaction: it is in its tree until both directions are closed, then in
    the queue of the root only until the message at hand is finished, and it is in memory
    only while something refers to it. *)
Record cell_inv (q : list dmsg_msg) (pend : option dmsg_msg) (p : positive) (s : dmsg_state) : Prop := {
  ci_cell : cell s (mrefs (msgs q pend) p);
  ci_rb : rb_of s = negb (over (tx_of s) (rx_of s));
  ci_inq : rb_of s = true -> inq_of s = true;
  ci_own : opp_of s = false -> s_msgid s = Zpos p;
  ci_open : opp_of s = true -> rx_of s ≠ Init;
  ci_pend : inq_of s = true -> rb_of s = false -> exists m, pend = Some m /\ m_state m = p;
  ci_refs : 0 < s_refs s;
}.

Record ewf (io : iocom) (pend : option dmsg_msg) : Prop := {
  w_lock : io_locked io = false;
  w_root : exists r, io_heap io !! state0 = Some r /\ root_ok r (s_subq r) (s_refs r) /\ NoDup (s_subq r) /\
    2 <= s_refs r + empty_ref (s_subq r) /\
    forall x, x ∈ s_subq r <-> exists s, io_heap io !! x = Some s /\ x ≠ state0 /\ inq_of s = true;
  w_cell : forall x s, io_heap io !! x = Some s -> x ≠ state0 -> cell_inv (txmsgq io) pend x s;
  w_tree : forall opp k x, tree opp io !! k = Some x <->
    exists s, io_heap io !! x = Some s /\ x ≠ state0 /\ opp_of s = opp /\ rb_of s = true /\ s_msgid s = k;
  w_msgs : forall m, m ∈ msgs (txmsgq io) pend -> m_state m ≠ state0 /\ is_Some (io_heap io !! m_state m);
}.

(** What the other end can know of a transaction: its two directions, while it is in its
    tree. *)
Definition view (opp : bool) (io : iocom) (id : Z) : option (half * half) :=
  p ← tree opp io !! id; s ← io_heap io !! p; Some (tx_of s, rx_of s).
Definition outgoing (io : iocom) : list dmsg_hdr := head_of <$> txmsgq io.

Lemma view_Some opp io pend id tx rx :
  ewf io pend ->
  view opp io id = Some (tx, rx) <->
  exists p s, io_heap io !! p = Some s /\ p ≠ state0 /\ opp_of s = opp /\ rb_of s = true /\ s_msgid s = id /\
    tx_of s = tx /\ rx_of s = rx.
Proof.
  intros Hw. unfold view. split.
  - intros (p & Hp & (s & Hs & [= <- <-])%bind_Some)%bind_Some. apply (w_tree _ _ Hw) in Hp as (s' & Hs' & Hn & Ho & Hr & Hid).
    rewrite Hs in Hs'. simplify_eq. by exists p, s'.
  - intros (p & s & Hs & Hn & Ho & Hr & Hid & <- & <-).
    assert (tree opp io !! id = Some p) as -> by (apply (w_tree _ _ Hw); eauto 10). cbn. by rewrite Hs.
Qed.

(** ** Rebuilding the invariant after a change to the state at [p] *)

Section rebuild.
Context (io : iocom) (pend : option dmsg_msg) (p : positive) (Hp : p ≠ state0).
Context (r : dmsg_state) (Hw : ewf io pend) (Hr : io_heap io !! state0 = Some r).
Context (rd' wr' : gmap Z positive) (q' : list dmsg_msg) (c' : Z) (pend' : option dmsg_msg) (r' : dmsg_state)
  (subq' : list positive) (refs' : Z).
Context (Hr' : root_ok r' subq' refs') (Hnd : NoDup subq') (Hrefs : 2 <= refs' + empty_ref subq')
  (Hsub : forall x : positive, x ≠ p -> x ∈ subq' <-> x ∈ s_subq r)
  (Hm : forall x, x ≠ p -> mrefs (msgs q' pend') x = mrefs (msgs (txmsgq io) pend) x)
  (Hpend : forall m, pend = Some m -> m_state m ≠ p -> pend' = Some m)
  (Hrd : forall (k : Z) (x : positive), x ≠ p -> rd' !! k = Some x <-> staterd_tree io !! k = Some x)
  (Hwr : forall (k : Z) (x : positive), x ≠ p -> wr' !! k = Some x <-> statewr_tree io !! k = Some x)
  (Hmsg : forall m, m ∈ msgs q' pend' -> m_state m = p \/ m ∈ msgs (txmsgq io) pend).

Lemma cell_inv_other x s : x ≠ p -> x ≠ state0 -> io_heap io !! x = Some s -> cell_inv q' pend' x s.
Proof.
  intros Hx Hx0 Hs. destruct (w_cell _ _ Hw x s Hs Hx0). split; try done.
  - by rewrite Hm.
  - intros Hi Hb. destruct (ci_pend0 Hi Hb) as (m & -> & Hst). exists m. split; [|done]. apply Hpend; [done|by rewrite Hst].
Qed.

Lemma tree_other (opp : bool) (k : Z) (x : positive) :
  x ≠ p -> (if opp then rd' else wr') !! k = Some x <->
  exists s, io_heap io !! x = Some s /\ x ≠ state0 /\ opp_of s = opp /\ rb_of s = true /\ s_msgid s = k.
Proof.
  intros Hx. destruct opp; [rewrite Hrd by done; apply (w_tree _ _ Hw true)|rewrite Hwr by done; apply (w_tree _ _ Hw false)].
Qed.

Lemma subq_other x :
  x ≠ p -> x ∈ subq' <-> exists s, io_heap io !! x = Some s /\ x ≠ state0 /\ inq_of s = true.
Proof.
  intros Hx. rewrite Hsub by done. destruct (w_root _ _ Hw) as (r0 & Hr0 & _ & _ & _ & H).
  rewrite Hr in Hr0. simplify_eq. apply H.
Qed.

(** The state at [p] is new or changed. *)
Lemma ewf_change s' :
  p ∈ subq' <-> inq_of s' = true ->
  cell_inv q' pend' p s' ->
  (forall (opp : bool) (k : Z), (if opp then rd' else wr') !! k = Some p <-> opp_of s' = opp /\ rb_of s' = true /\ s_msgid s' = k) ->
  ewf (con r' p s' (io_heap io) rd' wr' q' c' false) pend'.
Proof using All.
  intros Hps Hci Htr. split; cbn [io_heap staterd_tree statewr_tree txmsgq io_locked]; [done| | | |].
  - exists r'. rewrite cells_r, (r_subq _ _ _ Hr'), (r_refs _ _ _ Hr'). split_and!; try done.
    intros x. destruct (decide (x = p)) as [->|Hx].
    + rewrite Hps, cells_p by done. split; [eauto|]. intros (s & [= <-] & _ & Hi). done.
    + rewrite subq_other by done. split; intros (s & Hs & Hx0 & Hi); exists s;
        (rewrite cells_ne in * by done; done) || (split; [by rewrite cells_ne|done]).
  - intros x s Hs Hx0. destruct (decide (x = p)) as [->|Hx].
    + rewrite cells_p in Hs by done. by simplify_eq.
    + rewrite cells_ne in Hs by done. by apply cell_inv_other.
  - intros opp k x. unfold tree. cbn [staterd_tree statewr_tree]. destruct (decide (x = p)) as [->|Hx].
    + rewrite Htr, cells_p by done. split; [naive_solver|]. intros (s & [= <-] & H). naive_solver.
    + rewrite tree_other by done. split; intros (s & Hs & Hx0 & H); exists s; rewrite cells_ne in * by done; done.
  - intros m Hin. destruct (Hmsg m Hin) as [Hst|Hold].
    + rewrite Hst, cells_p by done. eauto.
    + destruct (w_msgs _ _ Hw m Hold) as [Hn Hs]. split; [done|].
      destruct (decide (m_state m = p)) as [->|Hx]; [rewrite cells_p by done; eauto|by rewrite cells_ne].
Qed.

(** The state at [p] is gone. *)
Lemma ewf_delete :
  p ∉ subq' -> (forall m, m ∈ msgs q' pend' -> m_state m ≠ p) ->
  (forall (opp : bool) (k : Z), (if opp then rd' else wr') !! k ≠ Some p) ->
  ewf {| io_heap := <[state0:=r']> (delete p (io_heap io)); staterd_tree := rd'; statewr_tree := wr'; txmsgq := q';
         dmsg_state_count := c'; io_locked := false |} pend'.
Proof using All.
  intros Hps Hmp Htr.
  assert (forall x, x ≠ state0 -> x ≠ p -> <[state0:=r']> (delete p (io_heap io)) !! x = io_heap io !! x) as Hne.
  { intros. by rewrite lookup_insert_ne, lookup_delete_ne. }
  assert (forall s, <[state0:=r']> (delete p (io_heap io)) !! p = Some s -> False) as Hno.
  { intros s. by rewrite lookup_insert_ne, lookup_delete_eq. }
  split; cbn [io_heap staterd_tree statewr_tree txmsgq io_locked]; [done| | | |].
  - exists r'. rewrite lookup_insert_eq, (r_subq _ _ _ Hr'), (r_refs _ _ _ Hr'). split_and!; try done.
    intros x. destruct (decide (x = p)) as [->|Hx].
    + split; [done|]. intros (s & Hs & _). by apply Hno in Hs.
    + rewrite subq_other by done. split; intros (s & Hs & Hx0 & Hi); exists s; rewrite Hne in * by done; done.
  - intros x s Hs Hx0. destruct (decide (x = p)) as [->|Hx]; [by apply Hno in Hs|].
    rewrite Hne in Hs by done. by apply cell_inv_other.
  - intros opp k x. unfold tree. cbn [staterd_tree statewr_tree]. destruct (decide (x = p)) as [->|Hx].
    + split; [intros H; by apply Htr in H|]. intros (s & Hs & _). by apply Hno in Hs.
    + rewrite tree_other by done. split; intros (s & Hs & Hx0 & H); exists s; rewrite Hne in * by done; done.
  - intros m Hin. destruct (Hmsg m Hin) as [Hst|Hold]; [by apply Hmp in Hin|].
    destruct (w_msgs _ _ Hw m Hold) as [Hn Hs]. split; [done|]. rewrite Hne by (try done; by apply Hmp). done.
Qed.
End rebuild.

(** ** Lemmas on views, references and the two forms of memory *)

Lemma option_pair_ext {A B} (a b : option (A * B)) :
  (forall x y, a = Some (x, y) <-> b = Some (x, y)) -> a = b.
Proof.
  intros H. destruct a as [[x y]|]; [symmetry; by apply H|]. destruct b as [[x y]|]; [by apply H|done].
Qed.

Lemma view_other io pend io' pend' p opp m :
  ewf io pend -> ewf io' pend' -> p ≠ state0 ->
  (forall x, x ≠ p -> x ≠ state0 -> io_heap io' !! x = io_heap io !! x) ->
  (forall s, io_heap io !! p = Some s -> ~ (opp_of s = opp /\ s_msgid s = m)) ->
  (forall s, io_heap io' !! p = Some s -> ~ (opp_of s = opp /\ s_msgid s = m)) ->
  view opp io' m = view opp io m.
Proof.
  intros Hw Hw' Hp Hh H1 H2. apply option_pair_ext. intros tx rx.
  rewrite (view_Some _ _ _ _ _ _ Hw), (view_Some _ _ _ _ _ _ Hw').
  split; intros (x & s & Hs & Hx & H); exists x, s; (destruct (decide (x = p)) as [->|Hn]; [exfalso|]).
  - apply (H2 s Hs). naive_solver.
  - rewrite Hh in Hs by done. done.
  - apply (H1 s Hs). naive_solver.
  - rewrite Hh by done. done.
Qed.

Lemma view_at io pend p s opp :
  ewf io pend -> io_heap io !! p = Some s -> p ≠ state0 -> opp_of s = opp -> rb_of s = true ->
  view opp io (s_msgid s) = Some (tx_of s, rx_of s).
Proof. intros Hw Hs Hp Ho Hr. apply (view_Some _ _ _ _ _ _ Hw). by exists p, s. Qed.

Lemma view_gone io pend opp m :
  ewf io pend ->
  (forall p s, io_heap io !! p = Some s -> p ≠ state0 -> opp_of s = opp -> rb_of s = true -> s_msgid s ≠ m) ->
  view opp io m = None.
Proof.
  intros Hw H. destruct (view opp io m) as [[tx rx]|] eqn:E; [|done]. apply (view_Some _ _ _ _ _ _ Hw) in E.
  destruct E as (p & s & Hs & Hp & Ho & Hr & Hid & _). by destruct (H p s).
Qed.

(** A tree has one state for a key. *)
Lemma tree_unique io pend p p' s s' :
  ewf io pend -> io_heap io !! p = Some s -> io_heap io !! p' = Some s' -> p ≠ state0 -> p' ≠ state0 ->
  opp_of s = opp_of s' -> rb_of s = true -> rb_of s' = true -> s_msgid s = s_msgid s' -> p = p'.
Proof.
  intros Hw Hs Hs' Hp Hp' Ho Hr Hr' Hid.
  assert (tree (opp_of s) io !! s_msgid s = Some p) as H1 by (apply (w_tree _ _ Hw); eauto 10).
  assert (tree (opp_of s) io !! s_msgid s = Some p') as H2 by (apply (w_tree _ _ Hw); eauto 10).
  congruence.
Qed.

Lemma mrefs_app l1 l2 p : mrefs (l1 ++ l2) p = mrefs l1 p + mrefs l2 p.
Proof. unfold mrefs. rewrite filter_app, length_app. lia. Qed.
Lemma mrefs_cons m l p : mrefs (m :: l) p = (if decide (m_state m = p) then 1 else 0) + mrefs l p.
Proof. unfold mrefs. rewrite filter_cons. destruct (decide _); cbn; lia. Qed.
Lemma mrefs_nil p : mrefs [] p = 0.
Proof. done. Qed.
Lemma mrefs_bound l p : 0 <= mrefs l p <= Z.of_nat (length l).
Proof. unfold mrefs. pose proof (length_filter (λ m, m_state m = p) l). lia. Qed.
Lemma mrefs_zero l p : mrefs l p = 0 <-> forall m, m ∈ l -> m_state m ≠ p.
Proof.
  unfold mrefs. split.
  - intros H m Hm Hst. assert (m ∈ filter (λ m, m_state m = p) l) as Hin by (by apply list_elem_of_filter).
    destruct (filter (λ m, m_state m = p) l); [by apply not_elem_of_nil in Hin|done].
  - intros H. destruct (filter _ l) as [|m l'] eqn:E; [done|]. exfalso.
    assert (m ∈ filter (λ m, m_state m = p) l) as [Hst Hin]%list_elem_of_filter by (rewrite E; left). by apply (H m).
Qed.

Lemma con_eta io p r s :
  io_heap io !! state0 = Some r -> io_heap io !! p = Some s -> p ≠ state0 -> io_locked io = false ->
  io = con r p s (io_heap io) (staterd_tree io) (statewr_tree io) (txmsgq io) (dmsg_state_count io) false.
Proof. intros Hr Hs Hp Hl. destruct io; cbn in *. unfold cells. by rewrite !insert_id, Hl by (by rewrite ?insert_id). Qed.

Lemma bare_eta io r :
  io_heap io !! state0 = Some r -> io_locked io = false ->
  io = {| io_heap := <[state0:=r]> (io_heap io); staterd_tree := staterd_tree io; statewr_tree := statewr_tree io;
          txmsgq := txmsgq io; dmsg_state_count := dmsg_state_count io; io_locked := false |}.
Proof. intros Hr Hl. destruct io; cbn in *. by rewrite insert_id, Hl. Qed.

(** Counters that are far from wrapping around. *)
Definition bounded (io : iocom) : Prop :=
  (forall r, io_heap io !! state0 = Some r -> s_refs r < 2 ^ 32 - 8) /\ Z.of_nat (length (txmsgq io)) < 2 ^ 32 - 16.

Lemma elem_of_without x p l : x ∈ without p l <-> x ≠ p /\ x ∈ l.
Proof. unfold without. by rewrite list_elem_of_filter. Qed.

Lemma empty_ref_range l : 0 <= empty_ref l <= 1.
Proof. unfold empty_ref. destruct (bool_decide _); cbn; lia. Qed.

Lemma empty_ref_snoc l p : empty_ref (l ++ [p]) = 0.
Proof. unfold empty_ref. rewrite bool_decide_false; [done|]. intros H. by apply (app_cons_not_nil l [] p). Qed.

(** ** A change of one state *)

Section change.
Context (io : iocom) (pend : option dmsg_msg) (p : positive) (s r : dmsg_state).
Context (Hp : p ≠ state0) (Hw : ewf io pend) (Hs : io_heap io !! p = Some s) (Hr : io_heap io !! state0 = Some r).
(** The new state leaves the tree or the queue, or not. *)
Context (inq' rb' : bool) (q' : list dmsg_msg) (c' : Z) (pend' : option dmsg_msg) (r' : dmsg_state).
Local Abbreviation opp := (opp_of s).
Local Abbreviation id := (s_msgid s).
Local Abbreviation tdel := (rb_of s && negb rb').
Local Abbreviation qdel := (inq_of s && negb inq').
Local Abbreviation rd' := (if tdel then rd_less opp id (staterd_tree io) else staterd_tree io).
Local Abbreviation wr' := (if tdel then wr_less opp id (statewr_tree io) else statewr_tree io).
Local Abbreviation subq' := (if qdel then without p (s_subq r) else s_subq r).
Context (Hr' : root_ok r' subq' (if qdel then s_refs r - empty_ref (without p (s_subq r)) else s_refs r)).
Context (Hrb1 : rb' = true -> rb_of s = true) (Hinq1 : inq' = true -> inq_of s = true).
Context (Hm : forall x, x ≠ p -> mrefs (msgs q' pend') x = mrefs (msgs (txmsgq io) pend) x)
  (Hpend : forall m, pend = Some m -> m_state m ≠ p -> pend' = Some m)
  (Hmsg : forall m, m ∈ msgs q' pend' -> m_state m = p \/ m ∈ msgs (txmsgq io) pend).

Lemma in_subq x : x ∈ s_subq r <-> exists s, io_heap io !! x = Some s /\ x ≠ state0 /\ inq_of s = true.
Proof.
  destruct (w_root _ _ Hw) as (r0 & Hr0 & _ & _ & _ & H). assert (r0 = r) as -> by congruence. apply H.
Qed.

Lemma change_subq : NoDup subq' /\ (2 <= (if qdel then s_refs r - empty_ref (without p (s_subq r)) else s_refs r) + empty_ref subq') /\
  (forall x, x ≠ p -> x ∈ subq' <-> x ∈ s_subq r) /\ (p ∈ subq' <-> inq' = true).
Proof.
  destruct (w_root _ _ Hw) as (r0 & Hr0 & Hro & Hnd & Hrefs & H). assert (r0 = r) as -> by congruence.
  assert (p ∈ s_subq r <-> inq_of s = true) as Hq.
  { rewrite in_subq. split; [intros (s0 & Hs0 & _ & Hi); congruence|eauto]. }
  assert (forall x, x ≠ p -> x ∈ s_subq r <-> x ∈ s_subq r) as Hrefl by (intros; reflexivity).
  destruct (inq_of s) eqn:Ei, inq' eqn:Ei'; cbn [andb negb].
  1: exact (conj Hnd (conj Hrefs (conj Hrefl Hq))).
  2: discriminate (Hinq1 eq_refl).
  2: exact (conj Hnd (conj Hrefs (conj Hrefl Hq))).
  clear - Hnd Hrefs Hq. split_and!.
  - by apply NoDup_filter.
  - assert (empty_ref (s_subq r) = 0) as Hz.
    { unfold empty_ref. rewrite bool_decide_false; [done|]. intros Hn. rewrite Hn in Hq.
      apply (not_elem_of_nil p). by apply Hq. }
    pose proof (empty_ref_range (without p (s_subq r))). lia.
  - intros x Hx. rewrite elem_of_without. naive_solver.
  - rewrite elem_of_without. naive_solver.
Qed.

Lemma tree_p (o : bool) (k : Z) : tree o io !! k = Some p <-> opp = o /\ rb_of s = true /\ id = k.
Proof.
  rewrite (w_tree _ _ Hw). split; [|eauto 10]. intros (s0 & Hs0 & _ & H). assert (s0 = s) as -> by congruence. done.
Qed.

Lemma change_rd (k : Z) (x : positive) : x ≠ p -> rd' !! k = Some x <-> staterd_tree io !! k = Some x.
Proof.
  intros Hx. destruct (rb_of s) eqn:Er, rb'; cbn [andb negb]; try done. unfold rd_less. destruct opp eqn:Eo; [|done].
  destruct (decide (k = id)) as [->|Hk]; [|by rewrite lookup_delete_ne]. rewrite lookup_delete_eq. split; [done|].
  assert (tree true io !! id = Some p) as H by (by apply tree_p). cbn in H. rewrite H. congruence.
Qed.
Lemma change_wr (k : Z) (x : positive) : x ≠ p -> wr' !! k = Some x <-> statewr_tree io !! k = Some x.
Proof.
  intros Hx. destruct (rb_of s) eqn:Er, rb'; cbn [andb negb]; try done. unfold wr_less. destruct opp eqn:Eo; [done|].
  destruct (decide (k = id)) as [->|Hk]; [|by rewrite lookup_delete_ne]. rewrite lookup_delete_eq. split; [done|].
  assert (tree false io !! id = Some p) as H by (by apply tree_p). cbn in H. rewrite H. congruence.
Qed.
Lemma change_p (o : bool) (k : Z) : (if o then rd' else wr') !! k = Some p <-> opp = o /\ rb' = true /\ id = k.
Proof.
  pose proof (tree_p o k) as H. clear - H Hrb1. unfold tree in H. destruct (rb_of s) eqn:Er, rb' eqn:Er'; cbn [andb negb].
  1: destruct o; exact H.
  2: discriminate (Hrb1 eq_refl).
  2: destruct o; exact H.
  unfold rd_less, wr_less.
  destruct o, opp eqn:Eo; try (rewrite H; naive_solver);
    (split; [|naive_solver]); intros [Hk Hl]%lookup_delete_Some; apply H in Hl; naive_solver.
Qed.

Section keep.
Context (tx' rx' : half) (s' : dmsg_state) (n' : Z) (Hc : cell_ok s' opp inq' rb' tx' rx' n' id) (Hn : n' = mrefs (msgs q' pend') p).
Context (Hrb : rb' = negb (over tx' rx')) (Hinq : rb' = true -> inq' = true) (Hopp : opp = true -> rx' ≠ Init).
Context (Hpd : inq' = true -> rb' = false -> exists m, pend' = Some m /\ m_state m = p) (Hpos : inq' || rb' = true \/ 0 < n').

Lemma ewf_keep : ewf (con r' p s' (io_heap io) rd' wr' q' c' false) pend'.
Proof using All.
  destruct (cell_of _ _ _ _ _ _ _ _ Hc) as (Ho & Hi & Hrb' & Htx & Hrx & Hid & Hcell).
  destruct change_subq as (S1 & S2 & S3 & S4).
  eapply (ewf_change io pend p Hp r Hw Hr _ _ _ _ _ _ _ _ Hr' S1 S2 S3 Hm Hpend change_rd change_wr Hmsg).
  - by rewrite Hi.
  - split.
    + by rewrite <- Hn.
    + by rewrite Hrb', Htx, Hrx.
    + by rewrite Hrb', Hi.
    + rewrite Ho, Hid. apply (ci_own _ _ _ _ (w_cell _ _ Hw p s Hs Hp)).
    + by rewrite Ho, Hrx.
    + by rewrite Hrb', Hi.
    + rewrite (c_refs _ _ _ _ _ _ _ _ Hc). pose proof (mrefs_bound (msgs q' pend') p).
      destruct inq', rb'; cbn; cbn in Hpos; destruct Hpos; try done; lia.
  - intros o k. rewrite Ho, Hrb', Hid. apply change_p.
Qed.

Lemma view_keep o m :
  view o (con r' p s' (io_heap io) rd' wr' q' c' false) m =
    if bool_decide (o = opp /\ m = id) then (if rb' then Some (tx', rx') else if rb_of s then None else view o io m)
    else view o io m.
Proof using All.
  pose proof ewf_keep as Hw'. destruct (cell_of _ _ _ _ _ _ _ _ Hc) as (Ho & Hi & Hrb' & Htx & Hrx & Hid & Hcell).
  assert (forall P : Prop, (o = opp /\ m = id -> rb' = false -> rb_of s = false) -> ~ (o = opp /\ m = id /\ rb' = true) ->
    view o (con r' p s' (io_heap io) rd' wr' q' c' false) m = view o io m) as Hsame.
  { intros _ H1 H2. apply option_pair_ext. intros a b. rewrite (view_Some _ _ _ _ _ _ Hw), (view_Some _ _ _ _ _ _ Hw').
    cbn [io_heap]. split; intros (x & s0 & Hs0 & Hx & Hos & Hrs & Hids & H); exists x, s0;
      (destruct (decide (x = p)) as [->|Hn']; [exfalso|]).
    - rewrite cells_p in Hs0 by done. simplify_eq. apply H2. by rewrite Hrb' in Hrs.
    - by rewrite cells_ne in Hs0.
    - assert (s0 = s) as -> by congruence. destruct rb' eqn:Eb; [by apply H2|]. by rewrite H1 in Hrs.
    - by rewrite cells_ne. }
  case_bool_decide as Hom; [destruct Hom as [-> ->]|].
  - destruct rb' eqn:Eb.
    + apply (view_Some _ _ _ _ _ _ Hw'). exists p, s'. split; [by apply cells_p|done].
    + destruct (rb_of s) eqn:Er; [|by apply (Hsame True); naive_solver].
      apply (view_gone _ _ _ _ Hw'). cbn [io_heap]. intros x s0 Hs0 Hx Hos Hrs Hids.
      destruct (decide (x = p)) as [->|Hn']; [rewrite cells_p in Hs0 by done; simplify_eq; congruence|].
      rewrite cells_ne in Hs0 by done. apply Hn'. by apply (tree_unique io pend x p s0 s).
  - apply (Hsame True); naive_solver.
Qed.
End keep.

(** The last reference is gone; the state was in no tree and no queue. *)
Section drop.
Context (Hi : inq' = false) (Hb : rb' = false) (Hrs : rb_of s = false) (Hn : mrefs (msgs q' pend') p = 0).
Local Abbreviation io' :=
  {| io_heap := <[state0:=r']> (delete p (io_heap io)); staterd_tree := staterd_tree io; statewr_tree := statewr_tree io;
     txmsgq := q'; dmsg_state_count := c'; io_locked := false |}.

Lemma ewf_drop : ewf io' pend'.
Proof using All.
  destruct change_subq as (S1 & S2 & S3 & S4). pose proof change_rd as Hrd. pose proof change_wr as Hwr.
  pose proof change_p as Hcp. rewrite Hrs in Hrd, Hwr, Hcp. cbn [andb] in Hrd, Hwr, Hcp.
  eapply (ewf_delete io pend p Hp r Hw Hr _ _ _ _ _ _ _ _ Hr' S1 S2 S3 Hm Hpend Hrd Hwr Hmsg).
  - rewrite S4. by rewrite Hi.
  - by apply mrefs_zero.
  - intros o k. rewrite Hcp. rewrite Hb. naive_solver.
Qed.

Lemma view_dropped o m : view o io' m = view o io m.
Proof using All.
  pose proof ewf_drop as Hw'. apply option_pair_ext. intros a b.
  rewrite (view_Some _ _ _ _ _ _ Hw), (view_Some _ _ _ _ _ _ Hw'). cbn [io_heap].
  split; intros (x & s0 & Hs0 & Hx & Hos & Hrs0 & H); exists x, s0; (destruct (decide (x = p)) as [->|Hn']; [exfalso|]).
  - by rewrite lookup_insert_ne, lookup_delete_eq in Hs0.
  - by rewrite lookup_insert_ne, lookup_delete_ne in Hs0.
  - assert (s0 = s) as -> by congruence. congruence.
  - by rewrite lookup_insert_ne, lookup_delete_ne.
Qed.
End drop.
End change.

(** ** The references of the root state

    The root has one reference of its own and one for its queue when that is not empty;
    what goes beyond this was leaked. *)
Definition root_excess (io : iocom) : Z :=
  match io_heap io !! state0 with Some r => s_refs r + empty_ref (s_subq r) - 2 | None => 0 end.

Lemma excess_root io r subq refs :
  io_heap io !! state0 = Some r -> root_ok r subq refs -> root_excess io = refs + empty_ref subq - 2.
Proof. intros Hr Hro. unfold root_excess. by rewrite Hr, (r_refs _ _ _ Hro), (r_subq _ _ _ Hro). Qed.

(** The state at [p] leaves the queue, or not. *)
Lemma excess_change io pend io' p s r r' (qdel : bool) :
  ewf io pend -> io_heap io !! p = Some s -> p ≠ state0 -> io_heap io !! state0 = Some r -> io_heap io' !! state0 = Some r' ->
  root_ok r' (if qdel then without p (s_subq r) else s_subq r)
    (if qdel then s_refs r - empty_ref (without p (s_subq r)) else s_refs r) ->
  (qdel = true -> inq_of s = true) -> root_excess io' = root_excess io.
Proof.
  intros Hw Hs Hp Hr Hr' Hro Hq. rewrite (excess_root _ _ _ _ Hr' Hro). destruct (w_root _ _ Hw) as (r0 & Hr0 & Hro0 & _ & _ & Hsub).
  assert (r0 = r) as -> by congruence. rewrite (excess_root _ _ _ _ Hr Hro0). destruct qdel; [|done].
  assert (p ∈ s_subq r) as Hin by (apply Hsub; eauto). assert (empty_ref (s_subq r) = 0) as ->; [|lia].
  unfold empty_ref. rewrite bool_decide_false; [done|]. intros H. rewrite H in Hin. by apply not_elem_of_nil in Hin.
Qed.

(** ** The operations *)

Section operations.
Context (cb : dmsg_msg -> prog iocom ()) (fuel : nat) (mtx : mutex_kind).

(** Opening a transaction: allocation of the message and of the state, and the send. *)
Definition dmsg_open (addr : positive) (aux cmd : Z) (func : handler) : prog iocom () :=
  msg ← dmsg_msg_alloc mtx addr state0 aux cmd func 0; dmsg_msg_write mtx cb fuel msg.

Lemma end_create io pend addr cmd aux func :
  ewf io pend -> io_heap io !! addr = None -> opening cmd -> bounded io ->
  exists io' hd, dmsg_open addr aux cmd func io = Ok () io' /\ ewf io' pend /\
    view false io (Zpos addr) = None /\ view false io' (Zpos addr) = Some (closes (has cmd DMSGF_DELETE), Init) /\
    (forall opp m, (opp, m) ≠ (false, Zpos addr) -> view opp io' m = view opp io m) /\
    outgoing io' = outgoing io ++ [hd] /\ h_cmd hd = cmd /\ h_msgid hd = Zpos addr /\ h_circuit hd = 0 /\
    root_excess io' = root_excess io.
Proof.
  intros Hw Hnew Hcmd [Hb1 Hb2]. destruct (w_root _ _ Hw) as (r & Hr & Hro & Hnd & Hrefs & Hsub).
  assert (addr ≠ state0) as Hp by (intros ->; congruence).
  assert (forall opp k, tree opp io !! k ≠ Some addr) as Hnt.
  { intros opp k H%(w_tree _ _ Hw). destruct H as (s & Hs & _). congruence. }
  assert (statewr_tree io !! Zpos addr = None) as Hwr.
  { destruct (statewr_tree io !! Zpos addr) as [x|] eqn:E; [|done]. exfalso. apply (w_tree _ _ Hw false) in E as (s & Hs & Hx & Ho & _ & Hid).
    rewrite (ci_own _ _ _ _ (w_cell _ _ Hw x s Hs Hx) Ho) in Hid. simplify_eq. }
  pose proof (empty_ref_range (s_subq r)) as He. pose proof (Hb1 r Hr) as Hb.
  destruct (create_spec addr (io_heap io) Hp cb fuel mtx r (staterd_tree io) (statewr_tree io) (txmsgq io) (dmsg_state_count io)
    (s_subq r) (s_refs r) cmd aux func Hnew Hwr Hro ltac:(lia) ltac:(lia) Hcmd) as (r' & s' & E & Hc & Hr').
  rewrite <- (bare_eta io r Hr (w_lock _ _ Hw)) in E.
  destruct (cell_of _ _ _ _ _ _ _ _ Hc) as (Ho & Hi & Hrb & Htx & Hrx & Hid & Hcell).
  set (msg := {| m_state := addr |}) in *.
  assert (mrefs (msgs (txmsgq io) pend) addr = 0) as Hm0.
  { apply mrefs_zero. intros m Hm Hst. destruct (w_msgs _ _ Hw m Hm) as [_ [s Hs]]. rewrite Hst in Hs. congruence. }
  assert (forall x, mrefs (msgs (txmsgq io ++ [msg]) pend) x = mrefs (msgs (txmsgq io) pend) x + if decide (addr = x) then 1 else 0) as Hmr.
  { intros x. unfold msgs. rewrite !mrefs_app, mrefs_cons, mrefs_nil. cbn [msg m_state]. lia. }
  match type of E with _ = Ok _ ?x => set (io' := x) in E end.
  assert (ewf io' pend) as Hw'.
  { eapply (ewf_change io pend addr Hp r Hw Hr _ _ _ _ _ _ _ _ Hr').
    - apply NoDup_app. split_and!; [done| |apply NoDup_singleton]. intros x Hx ->%list_elem_of_singleton.
      apply Hsub in Hx as (s & Hs & _). congruence.
    - rewrite empty_ref_snoc. lia.
    - intros x Hx. rewrite elem_of_app, list_elem_of_singleton. naive_solver.
    - intros x Hx. rewrite Hmr, decide_False by done. lia.
    - done.
    - done.
    - intros k x Hx. destruct (decide (k = Zpos addr)) as [->|Hk]; [|by rewrite lookup_insert_ne].
      rewrite lookup_insert_eq, Hwr. split; [|done]. intros [= <-]. done.
    - intros m. unfold msgs. rewrite !elem_of_app, list_elem_of_singleton. naive_solver.
    - rewrite elem_of_app, list_elem_of_singleton, Hi. naive_solver.
    - split.
      + rewrite Hmr, Hm0, decide_True by done. exact Hcell.
      + rewrite Hrb, Htx, Hrx. by destruct (has cmd DMSGF_DELETE).
      + by rewrite Hi.
      + by rewrite Hid.
      + by rewrite Ho.
      + by rewrite Hrb.
      + rewrite (c_refs _ _ _ _ _ _ _ _ Hc). done.
    - intros opp k. rewrite Ho, Hrb, Hid. destruct opp.
      + split; [|naive_solver]. intros H. by apply (Hnt true) in H.
      + destruct (decide (k = Zpos addr)) as [->|Hk]; [rewrite lookup_insert_eq; naive_solver|].
        rewrite lookup_insert_ne by done. split; [|naive_solver]. intros H. by apply (Hnt false) in H. }
  exists io', (head_of msg). split; [exact E|]. split; [exact Hw'|]. split_and!; try done.
  - apply (view_gone _ _ _ _ Hw). intros p s Hs Hp' Hos _ Hids. rewrite (ci_own _ _ _ _ (w_cell _ _ Hw p s Hs Hp') Hos) in Hids.
    simplify_eq.
  - apply (view_Some _ _ _ _ _ _ Hw'). exists addr, s'. split; [apply cells_p; done|done].
  - intros opp m Hne. eapply (view_other _ _ _ _ addr); [done..| | |].
    + intros x Hx Hx0. by apply cells_ne.
    + intros s Hs. congruence.
    + intros s Hs [Hos Hids]. subst io'. cbn [io_heap] in Hs. rewrite cells_p in Hs by done. simplify_eq. rewrite Ho, Hid in Hne. done.
  - unfold outgoing. cbn. by rewrite fmap_app.
  - rewrite (excess_root io' r' _ _ (cells_r _ _ _ _) Hr'), (excess_root _ _ _ _ Hr Hro), empty_ref_snoc. lia.
Qed.

(** Sending on a transaction whose transmit side is open. *)
Lemma end_send io pend p s cmd error :
  ewf io pend -> io_heap io !! p = Some s -> p ≠ state0 -> tx_of s ≠ Closed -> plain_cmd cmd ->
  has cmd DMSGF_REPLY = opp_of s -> bounded io ->
  let tx' := closes (has cmd DMSGF_DELETE) in
  exists io' hd, send_on mtx cb fuel p cmd error io = Ok () io' /\ ewf io' pend /\
    view (opp_of s) io (s_msgid s) = Some (tx_of s, rx_of s) /\
    view (opp_of s) io' (s_msgid s) = (if over tx' (rx_of s) then None else Some (tx', rx_of s)) /\
    (forall opp m, (opp, m) ≠ (opp_of s, s_msgid s) -> view opp io' m = view opp io m) /\
    outgoing io' = outgoing io ++ [hd] /\ h_cmd hd = send_cmd (opp_of s) (tx_of s) cmd /\ h_msgid hd = s_msgid s /\
    h_circuit hd = 0 /\ root_excess io' = root_excess io.
Proof.
  intros Hw Hs Hp Htx Hcmd Hrep [Hb1 Hb2] tx'. destruct (w_root _ _ Hw) as (r & Hr & Hro & Hnd & Hrefs & Hsub).
  pose proof (w_cell _ _ Hw p s Hs Hp) as Hci.
  assert (rb_of s = true) as Hrb by (rewrite (ci_rb _ _ _ _ Hci); unfold over; by rewrite bool_decide_false).
  assert (inq_of s = true) as Hinq by (by apply (ci_inq _ _ _ _ Hci)).
  assert (Hc := ci_cell _ _ _ _ Hci). unfold cell in Hc. rewrite Hrb, Hinq in Hc.
  assert (tree (opp_of s) io !! s_msgid s = Some p) as Ht by (apply (w_tree _ _ Hw); eauto 10).
  assert (p ∈ s_subq r) as Hps by (apply Hsub; eauto).
  assert (empty_ref (s_subq r) = 0) as He.
  { unfold empty_ref. rewrite bool_decide_false; [done|]. intros H. rewrite H in Hps. by apply not_elem_of_nil in Hps. }
  pose proof (mrefs_bound (msgs (txmsgq io) pend) p) as Hmb.
  assert (length (msgs (txmsgq io) pend) <= length (txmsgq io) + 1)%nat as Hlen
    by (unfold msgs; rewrite length_app; destruct pend; cbn; lia).
  destruct (send_on_spec p (io_heap io) Hp cb fuel mtx r s (staterd_tree io) (statewr_tree io) (txmsgq io) (dmsg_state_count io)
    _ _ _ _ _ _ _ cmd error Hc Hro ltac:(lia) ltac:(lia) Htx Ht Hcmd Hrep) as (r' & s' & E & Hc' & Hr').
  rewrite <- (con_eta io p r s Hr Hs Hp (w_lock _ _ Hw)) in E.
  set (fin := has cmd DMSGF_DELETE && bool_decide (rx_of s = Closed)) in *.
  set (msg := {| m_state := p |}) in *.
  assert (over tx' (rx_of s) = fin) as Hover.
  { unfold over, tx', fin, closes. by destruct (has cmd DMSGF_DELETE). }
  assert (forall x, mrefs (msgs (txmsgq io ++ [msg]) pend) x = mrefs (msgs (txmsgq io) pend) x + if decide (p = x) then 1 else 0) as Hmr.
  { intros x. unfold msgs. rewrite !mrefs_app, mrefs_cons, mrefs_nil. cbn [msg m_state]. lia. }
  assert (rb_of s && negb (negb fin) = fin) as Htd by (rewrite Hrb; by destruct fin).
  assert (inq_of s && negb (negb fin) = fin) as Hqd by (rewrite Hinq; by destruct fin).
  pose proof (ewf_keep io pend p s r Hp Hw Hs Hr (negb fin) (negb fin) (txmsgq io ++ [msg])
    (dmsg_state_count io) pend r') as K.
  pose proof (view_keep io pend p s r Hp Hw Hs Hr (negb fin) (negb fin) (txmsgq io ++ [msg])
    (dmsg_state_count io) pend r') as V.
  rewrite Htd, Hqd in K, V. specialize (K Hr'). specialize (V Hr').
  assert (forall m, m ∈ msgs (txmsgq io ++ [msg]) pend -> m_state m = p \/ m ∈ msgs (txmsgq io) pend) as Hmsg.
  { intros m. unfold msgs. rewrite !elem_of_app, list_elem_of_singleton. naive_solver. }
  assert (forall x, x ≠ p -> mrefs (msgs (txmsgq io ++ [msg]) pend) x = mrefs (msgs (txmsgq io) pend) x) as Hmo.
  { intros x Hx. rewrite Hmr, decide_False by done. lia. }
  specialize (K ltac:(done) ltac:(done) Hmo ltac:(done) Hmsg tx' (rx_of s) s' _ Hc').
  specialize (V ltac:(done) ltac:(done) Hmo ltac:(done) Hmsg tx' (rx_of s) s' _ Hc').
  assert (mrefs (msgs (txmsgq io) pend) p + 1 = mrefs (msgs (txmsgq io ++ [msg]) pend) p) as Hn
    by (rewrite Hmr, decide_True; done).
  assert (negb fin = negb (over tx' (rx_of s))) as Hrb' by (by rewrite Hover).
  specialize (K Hn Hrb' ltac:(done) (ci_open _ _ _ _ Hci) ltac:(by intros ->) ltac:(right; lia)).
  specialize (V Hn Hrb' ltac:(done) (ci_open _ _ _ _ Hci) ltac:(by intros ->) ltac:(right; lia)).
  eexists _, (head_of msg). split; [exact E|]. split; [exact K|].
  split; [by apply (view_at _ _ _ _ _ Hw Hs)|]. split.
  - rewrite V, bool_decide_true, Hrb, Hover by done. by destruct fin.
  - split; [|split_and!; try done; [unfold outgoing; cbn; by rewrite fmap_app|
      eapply (excess_change io pend _ p s r r' fin); [done..|apply cells_r|exact Hr'|by intros _]]].
    intros opp m Hne. rewrite V, bool_decide_false; [done|]. intros [-> ->]. done.
Qed.

(** The release of a message after it was transmitted ([gone] is [false]) or processed:
    the state loses a reference, and its place in the queue when it is over. *)
Lemma end_release io pend p s q' pend' (gone : bool) r r' :
  ewf io pend -> io_heap io !! p = Some s -> p ≠ state0 -> io_heap io !! state0 = Some r ->
  (forall x, mrefs (msgs q' pend') x = mrefs (msgs (txmsgq io) pend) x - if decide (p = x) then 1 else 0) ->
  (forall m, pend = Some m -> m_state m ≠ p -> pend' = Some m) ->
  (forall m, m ∈ msgs q' pend' -> m ∈ msgs (txmsgq io) pend) ->
  (gone = false -> pend' = pend) -> (gone = true -> pend' = None) ->
  let inq' := if gone then inq_of s && rb_of s else inq_of s in
  root_ok r' (if inq_of s && negb inq' then without p (s_subq r) else s_subq r)
    (if inq_of s && negb inq' then s_refs r - empty_ref (without p (s_subq r)) else s_refs r) ->
  0 < mrefs (msgs (txmsgq io) pend) p ->
  if released inq' (rb_of s) (mrefs (msgs (txmsgq io) pend) p)
  then forall c, let io' := {| io_heap := <[state0:=r']> (delete p (io_heap io)); staterd_tree := staterd_tree io;
                      statewr_tree := statewr_tree io; txmsgq := q'; dmsg_state_count := c; io_locked := false |} in
       ewf io' pend' /\ root_excess io' = root_excess io /\ forall opp m, view opp io' m = view opp io m
  else forall c s', cell_ok s' (opp_of s) inq' (rb_of s) (tx_of s) (rx_of s) (mrefs (msgs (txmsgq io) pend) p - 1) (s_msgid s) ->
       let io' := con r' p s' (io_heap io) (staterd_tree io) (statewr_tree io) q' c false in
       ewf io' pend' /\ root_excess io' = root_excess io /\ forall opp m, view opp io' m = view opp io m.
Proof.
  intros Hw Hs Hp Hr Hmr Hpend Hmsg Hg0 Hg1 inq' Hr' Hpos. pose proof (w_cell _ _ Hw p s Hs Hp) as Hci.
  assert (forall x, x ≠ p -> mrefs (msgs q' pend') x = mrefs (msgs (txmsgq io) pend) x) as Hmo.
  { intros x Hx. rewrite Hmr, decide_False by done. lia. }
  assert (mrefs (msgs q' pend') p = mrefs (msgs (txmsgq io) pend) p - 1) as Hn by (by rewrite Hmr, decide_True).
  assert (forall m, m ∈ msgs q' pend' -> m_state m = p \/ m ∈ msgs (txmsgq io) pend) as Hmsg' by (intros m Hm; right; by apply Hmsg).
  assert (inq' = true -> inq_of s = true) as Hinq1 by (unfold inq'; destruct gone, (inq_of s); done).
  assert (rb_of s && negb (rb_of s) = false) as Htd by (by destruct (rb_of s)).
  unfold released. destruct (inq' || rb_of s) eqn:Eor; cbn [negb andb]; [|case_bool_decide as H1].
  2: { apply orb_false_elim in Eor as [Hi Hb]. intros c. cbv zeta.
    pose proof (ewf_drop io pend p s r Hp Hw Hs Hr inq' false q' c pend' r' Hr' ltac:(done) Hinq1 Hmo Hpend Hmsg' Hi eq_refl Hb
      ltac:(lia)) as K.
    split; [exact K|]. split; [apply (excess_change io pend _ p s r r' _ Hw Hs Hp Hr (lookup_insert_eq _ _ _) Hr'); by intros [? _]%andb_prop|].
    intros opp m.
    by apply (view_dropped io pend p s r Hp Hw Hs Hr inq' false q' c pend' r' Hr' ltac:(done) Hinq1 Hmo Hpend Hmsg' Hi eq_refl Hb ltac:(lia)). }
  all: intros c s' Hc'; cbv zeta.
  all: pose proof (ewf_keep io pend p s r Hp Hw Hs Hr inq' (rb_of s) q' c pend' r' Hr') as K.
  all: pose proof (view_keep io pend p s r Hp Hw Hs Hr inq' (rb_of s) q' c pend' r' Hr') as V.
  all: rewrite Htd in K, V.
  all: assert (rb_of s = true -> inq' = true) as Hri by
    (intros Hb; pose proof (ci_inq _ _ _ _ Hci Hb) as Hi; unfold inq'; rewrite Hb, Hi; by destruct gone).
  all: assert (inq' = true -> rb_of s = false -> exists m, pend' = Some m /\ m_state m = p) as Hpd by
    (unfold inq'; intros Hi Hb; destruct gone; [rewrite Hb, andb_false_r in Hi; done|];
     rewrite Hg0 by done; by apply (ci_pend _ _ _ _ Hci)).
  all: assert (inq' || rb_of s = true \/ 0 < mrefs (msgs (txmsgq io) pend) p - 1) as Hps by (rewrite Eor; first [left; done | right; lia]).
  all: specialize (K ltac:(done) Hinq1 Hmo Hpend Hmsg' (tx_of s) (rx_of s) s' _ Hc' (eq_sym Hn) (ci_rb _ _ _ _ Hci) Hri (ci_open _ _ _ _ Hci) Hpd Hps).
  all: specialize (V ltac:(done) Hinq1 Hmo Hpend Hmsg' (tx_of s) (rx_of s) s' _ Hc' (eq_sym Hn) (ci_rb _ _ _ _ Hci) Hri (ci_open _ _ _ _ Hci) Hpd Hps).
  all: split; [exact K|]; split; [apply (excess_change io pend (con r' p s' (io_heap io) (staterd_tree io) (statewr_tree io) q' c false) p s r r' _ Hw Hs Hp Hr (cells_r _ _ _ _) Hr'); by intros [? _]%andb_prop|].
  all: intros opp m; rewrite V; case_bool_decide as Hom; [|done]; destruct Hom as [-> ->].
  all: destruct (rb_of s) eqn:Eb; [|done]; symmetry; by apply (view_at _ _ _ _ _ Hw Hs).
Qed.

Lemma end_transmit io pend hd hs :
  ewf io pend -> outgoing io = hd :: hs ->
  exists io', dmsg_transmit mtx io = Ok (Some hd) io' /\ ewf io' pend /\ outgoing io' = hs /\
    root_excess io' = root_excess io /\ forall opp m, view opp io' m = view opp io m.
Proof.
  intros Hw Hout. destruct (w_root _ _ Hw) as (r & Hr & Hro & _). unfold outgoing in Hout.
  destruct (txmsgq io) as [|msg q] eqn:Eq; [done|]. cbn in Hout. simplify_eq.
  destruct (w_msgs _ _ Hw msg) as [Hp [s Hs]]; [unfold msgs; rewrite Eq; left|]. set (p := m_state msg) in *.
  pose proof (w_cell _ _ Hw p s Hs Hp) as Hci. assert (Hc := ci_cell _ _ _ _ Hci). unfold cell in Hc.
  assert (forall x, mrefs (msgs q pend) x = mrefs (msgs (txmsgq io) pend) x - if decide (p = x) then 1 else 0) as Hmr.
  { intros x. unfold msgs. rewrite Eq. cbn [app]. rewrite mrefs_cons. fold p. lia. }
  pose proof (mrefs_bound (msgs q pend) p) as Hmb.
  assert (0 < mrefs (msgs (txmsgq io) pend) p) as Hpos by (rewrite Hmr, decide_True in Hmb by done; lia).
  pose proof (transmit_spec p (io_heap io) Hp mtx r s (staterd_tree io) (statewr_tree io) q (dmsg_state_count io) _ _ _ _ _ _ _ msg
    Hc Hpos eq_refl) as T.
  rewrite <- Eq, <- (con_eta io p r s Hr Hs Hp (w_lock _ _ Hw)) in T.
  pose proof (end_release io pend p s q pend false r r Hw Hs Hp Hr Hmr ltac:(done)
    ltac:(intros m; unfold msgs; rewrite Eq; cbn [app]; right; done) ltac:(done) ltac:(done)) as R. cbn [negb] in R.
  replace (inq_of s && negb (inq_of s)) with false in R by (by destruct (inq_of s)). specialize (R Hro Hpos).
  destruct (released (inq_of s) (rb_of s) (mrefs (msgs (txmsgq io) pend) p)).
  - eexists. split; [exact T|]. destruct (R (dmsg_state_count io - 1)) as (R1 & R2 & R3). split; [exact R1|]. split; [done|]. split; [exact R2|exact R3].
  - destruct T as (s' & T & Hc'). eexists. split; [exact T|]. destruct (R (dmsg_state_count io) s' Hc') as (R1 & R2 & R3).
    split; [exact R1|]. split; [done|]. split; [exact R2|exact R3].
Qed.

(** The message at hand: its state, and what finishing it needs. *)
Lemma pending_state io msg :
  ewf io (Some msg) ->
  exists r s, let p := m_state msg in
    p ≠ state0 /\ io_heap io !! p = Some s /\ io_heap io !! state0 = Some r /\ root_ok r (s_subq r) (s_refs r) /\
    cell_inv (txmsgq io) (Some msg) p s /\ 0 < mrefs (msgs (txmsgq io) (Some msg)) p /\ (1 < s_refs r \/ inq_of s = false).
Proof.
  intros Hw. destruct (w_root _ _ Hw) as (r & Hr & Hro & _ & Hrefs & Hsub).
  destruct (w_msgs _ _ Hw msg) as [Hp [s Hs]]; [unfold msgs; rewrite elem_of_app; right; left|].
  exists r, s. split_and!; try done.
  - by apply (w_cell _ _ Hw).
  - unfold msgs. cbn [option_list option_rect]. rewrite mrefs_app, mrefs_cons, decide_True, mrefs_nil by done.
    pose proof (mrefs_bound (txmsgq io) (m_state msg)). lia.
  - destruct (inq_of s) eqn:Ei; [left|by right]. assert (m_state msg ∈ s_subq r) as Hps by (apply Hsub; eauto).
    unfold empty_ref in Hrefs. rewrite bool_decide_false in Hrefs; [cbn in Hrefs; lia|]. intros H. rewrite H in Hps.
    by apply not_elem_of_nil in Hps.
Qed.

Lemma end_deadlock io msg : ewf io (Some msg) -> mtx = Normal -> dmsg_receive_done mtx msg io = Stop Deadlock.
Proof.
  intros Hw Hmtx. destruct (pending_state io msg Hw) as (r & s & Hp & Hs & Hr & Hro & Hci & Hpos & Hq).
  rewrite (con_eta io _ r s Hr Hs Hp (w_lock _ _ Hw)).
  by eapply receive_done_deadlock; [..|exact (ci_cell _ _ _ _ Hci)|exact Hro| | | |exact (ci_rb _ _ _ _ Hci)|].
Qed.

Lemma end_done io msg :
  ewf io (Some msg) -> mtx = ErrorCheck ->
  exists io', dmsg_receive_done mtx msg io = Ok () io' /\ ewf io' None /\ outgoing io' = outgoing io /\
    root_excess io' = root_excess io /\ forall opp m, view opp io' m = view opp io m.
Proof.
  intros Hw Hmtx. destruct (pending_state io msg Hw) as (r & s & Hp & Hs & Hr & Hro & Hci & Hpos & Hq).
  set (p := m_state msg) in *. assert (Hc := ci_cell _ _ _ _ Hci). unfold cell in Hc.
  assert (forall x, mrefs (msgs (txmsgq io) None) x = mrefs (msgs (txmsgq io) (Some msg)) x - if decide (p = x) then 1 else 0) as Hmr.
  { intros x. unfold msgs. cbn [option_list option_rect]. rewrite !mrefs_app, mrefs_cons, mrefs_nil. fold p. lia. }
  destruct (receive_done_spec p (io_heap io) Hp mtx r s (staterd_tree io) (statewr_tree io) (txmsgq io) (dmsg_state_count io)
    _ _ _ _ _ _ _ _ _ msg Hc Hro Hq Hpos eq_refl (ci_rb _ _ _ _ Hci) Hmtx) as (r' & Hr' & T).
  rewrite <- (con_eta io p r s Hr Hs Hp (w_lock _ _ Hw)) in T.
  pose proof (end_release io (Some msg) p s (txmsgq io) None true r r' Hw Hs Hp Hr Hmr ltac:(by intros m [= <-])
    ltac:(intros m; unfold msgs; rewrite !elem_of_app; cbn; rewrite elem_of_nil; tauto) ltac:(done) ltac:(done)) as R.
  cbv beta iota zeta in R. replace (inq_of s && negb (inq_of s && rb_of s)) with (inq_of s && negb (rb_of s)) in R
    by (by destruct (inq_of s), (rb_of s)). specialize (R Hr' Hpos).
  destruct (released (inq_of s && rb_of s) (rb_of s) (mrefs (msgs (txmsgq io) (Some msg)) p)).
  - eexists. split; [exact T|]. destruct (R (dmsg_state_count io - 1)) as (R1 & R2 & R3). split; [exact R1|]. split; [done|]. split; [exact R2|exact R3].
  - destruct T as (s' & T & Hc'). eexists. split; [exact T|]. destruct (R (dmsg_state_count io) s' Hc') as (R1 & R2 & R3).
    split; [exact R1|]. split; [done|]. split; [exact R2|exact R3].
Qed.

(** A message for a transaction that is open in its direction. *)
Lemma end_receive io addr hd p s :
  ewf io None -> io_heap io !! p = Some s -> p ≠ state0 -> rb_of s = true -> rx_of s ≠ Closed -> bounded io ->
  h_msgid hd = s_msgid s -> h_circuit hd = 0 -> has (h_cmd hd) DMSGF_REPLY = negb (opp_of s) ->
  has (h_cmd hd) DMSGF_REVTRANS = negb (opp_of s) -> 1 <= h_cmd hd .& DMSGF_SIZE ->
  has (h_cmd hd) DMSGF_CREATE = bool_decide (rx_of s = Init) ->
  let rx' := closes (has (h_cmd hd) DMSGF_DELETE) in
  exists io' msg, dmsg_receive mtx addr hd io = Ok (Some msg) io' /\ head_of msg = hd /\ ewf io' (Some msg) /\
    view (opp_of s) io' (s_msgid s) = (if over (tx_of s) rx' then None else Some (tx_of s, rx')) /\
    (forall opp m, (opp, m) ≠ (opp_of s, s_msgid s) -> view opp io' m = view opp io m) /\
    outgoing io' = outgoing io /\ root_excess io' = root_excess io.
Proof.
  intros Hw Hs Hp Hrb Hrx [Hb1 Hb2] Hid Hcirc Hrep Hrev Hsize Hcreate rx'.
  destruct (w_root _ _ Hw) as (r & Hr & Hro & _ & Hrefs & Hsub).
  pose proof (w_cell _ _ Hw p s Hs Hp) as Hci.
  assert (inq_of s = true) as Hinq by (by apply (ci_inq _ _ _ _ Hci)).
  assert (Hc := ci_cell _ _ _ _ Hci). unfold cell in Hc. rewrite Hrb, Hinq in Hc.
  assert (tree (opp_of s) io !! s_msgid s = Some p) as Ht by (apply (w_tree _ _ Hw); eauto 10).
  pose proof (mrefs_bound (msgs (txmsgq io) None) p) as Hmb. pose proof (Hb1 r Hr) as Hbr.
  pose proof (empty_ref_range (s_subq r)) as Her.
  assert (length (msgs (txmsgq io) None) = length (txmsgq io)) as Hlen by (unfold msgs; rewrite length_app; cbn; lia).
  assert (opp_of s = true -> rx_of s = Open) as Hopp.
  { intros Ho. pose proof (ci_open _ _ _ _ Hci Ho). by destruct (rx_of s). }
  destruct (receive_spec p (io_heap io) Hp mtx addr r s (staterd_tree io) (statewr_tree io) (txmsgq io) (dmsg_state_count io)
    _ _ _ _ _ _ _ hd Hc Hro ltac:(lia) ltac:(lia) Ht Hrx Hid Hcirc Hrep Hrev Hsize Hcreate Hopp)
    as (r' & s' & msg & E & Hst & Hhd & Hc' & Hr').
  rewrite <- (con_eta io p r s Hr Hs Hp (w_lock _ _ Hw)) in E.
  set (fin := has (h_cmd hd) DMSGF_DELETE && bool_decide (tx_of s = Closed)) in *.
  assert (over (tx_of s) rx' = fin) as Hover.
  { unfold over, rx', fin, closes. destruct (has (h_cmd hd) DMSGF_DELETE), (bool_decide (tx_of s = Closed)); done. }
  assert (forall x, mrefs (msgs (txmsgq io) (Some msg)) x = mrefs (msgs (txmsgq io) None) x + if decide (p = x) then 1 else 0) as Hmr.
  { intros x. unfold msgs. cbn [option_list option_rect]. rewrite !mrefs_app, mrefs_cons, mrefs_nil, Hst. lia. }
  assert (rb_of s && negb (negb fin) = fin) as Htd by (rewrite Hrb; by destruct fin).
  assert (inq_of s && negb true = false) as Hqd by apply andb_false_r.
  pose proof (ewf_keep io None p s r Hp Hw Hs Hr true (negb fin) (txmsgq io) (dmsg_state_count io) (Some msg) r') as K.
  pose proof (view_keep io None p s r Hp Hw Hs Hr true (negb fin) (txmsgq io) (dmsg_state_count io) (Some msg) r') as V.
  rewrite Htd, Hqd in K, V. specialize (K Hr'). specialize (V Hr').
  assert (forall m, m ∈ msgs (txmsgq io) (Some msg) -> m_state m = p \/ m ∈ msgs (txmsgq io) None) as Hmsg.
  { intros m. unfold msgs. cbn [option_list option_rect]. rewrite !elem_of_app, list_elem_of_singleton. naive_solver. }
  assert (forall x, x ≠ p -> mrefs (msgs (txmsgq io) (Some msg)) x = mrefs (msgs (txmsgq io) None) x) as Hmo.
  { intros x Hx. rewrite Hmr, decide_False by done. lia. }
  specialize (K ltac:(done) ltac:(done) Hmo ltac:(done) Hmsg (tx_of s) rx' s' _ Hc').
  specialize (V ltac:(done) ltac:(done) Hmo ltac:(done) Hmsg (tx_of s) rx' s' _ Hc').
  assert (mrefs (msgs (txmsgq io) None) p + 1 = mrefs (msgs (txmsgq io) (Some msg)) p) as Hn
    by (rewrite Hmr, decide_True; done).
  assert (negb fin = negb (over (tx_of s) rx')) as Hrb' by (by rewrite Hover).
  assert (opp_of s = true -> rx' ≠ Init) as Hop by (intros _; unfold rx', closes; by destruct (has (h_cmd hd) DMSGF_DELETE)).
  specialize (K Hn Hrb' ltac:(done) Hop ltac:(eauto) ltac:(right; lia)).
  specialize (V Hn Hrb' ltac:(done) Hop ltac:(eauto) ltac:(right; lia)).
  eexists _, msg. split; [exact E|]. split; [exact Hhd|]. split; [exact K|]. split.
  - rewrite V, bool_decide_true, Hrb, Hover by done. by destruct fin.
  - split; [|split; [done|]].
    + intros opp m Hne. rewrite V, bool_decide_false; [done|]. intros [-> ->]. done.
    + by eapply (excess_change io None _ p s r r' false); [done..|apply cells_r|exact Hr'|].
Qed.

(** A message that opens a transaction. *)
Lemma end_receive_new io addr hd :
  ewf io None -> io_heap io !! addr = None -> bounded io -> h_circuit hd = 0 -> opening (h_cmd hd) ->
  view true io (h_msgid hd) = None ->
  let rx' := closes (has (h_cmd hd) DMSGF_DELETE) in
  exists io' msg, dmsg_receive mtx addr hd io = Ok (Some msg) io' /\ head_of msg = hd /\ ewf io' (Some msg) /\
    view true io' (h_msgid hd) = Some (Init, rx') /\
    (forall opp m, (opp, m) ≠ (true, h_msgid hd) -> view opp io' m = view opp io m) /\
    outgoing io' = outgoing io /\ root_excess io' = root_excess io + 2.
Proof.
  intros Hw Hnew [Hb1 Hb2] Hcirc Hcmd Hv rx'. destruct (w_root _ _ Hw) as (r & Hr & Hro & Hnd & Hrefs & Hsub).
  assert (addr ≠ state0) as Hp by (intros ->; congruence).
  assert (forall opp k, tree opp io !! k ≠ Some addr) as Hnt.
  { intros opp k H%(w_tree _ _ Hw). destruct H as (s & Hs & _). congruence. }
  assert (staterd_tree io !! h_msgid hd = None) as Hrd.
  { destruct (staterd_tree io !! h_msgid hd) as [x|] eqn:E; [|done]. exfalso. apply (w_tree _ _ Hw true) in E as (s & Hs & Hx & Ho & Hrb & Hid).
    rewrite <- Hid, (view_at _ _ _ _ _ Hw Hs Hx Ho Hrb) in Hv. done. }
  pose proof (empty_ref_range (s_subq r)) as He. pose proof (Hb1 r Hr) as Hb.
  destruct (receive_new_spec addr (io_heap io) Hp mtx r (staterd_tree io) (statewr_tree io) (txmsgq io) (dmsg_state_count io)
    (s_subq r) (s_refs r) hd Hnew Hrd Hro ltac:(lia) Hcirc Hcmd) as (r' & s' & msg & E & Hst & Hhd & Hc & Hr').
  rewrite <- (bare_eta io r Hr (w_lock _ _ Hw)) in E.
  destruct (cell_of _ _ _ _ _ _ _ _ Hc) as (Ho & Hi & Hrb & Htx & Hrx & Hid & Hcell).
  assert (mrefs (msgs (txmsgq io) None) addr = 0) as Hm0.
  { apply mrefs_zero. intros m Hm Hst'. destruct (w_msgs _ _ Hw m Hm) as [_ [s Hs]]. rewrite Hst' in Hs. congruence. }
  assert (forall x, mrefs (msgs (txmsgq io) (Some msg)) x = mrefs (msgs (txmsgq io) None) x + if decide (addr = x) then 1 else 0) as Hmr.
  { intros x. unfold msgs. cbn [option_list option_rect]. rewrite !mrefs_app, mrefs_cons, mrefs_nil, Hst. lia. }
  match type of E with _ = Ok _ ?x => set (io' := x) in E end.
  assert (ewf io' (Some msg)) as Hw'.
  { eapply (ewf_change io None addr Hp r Hw Hr _ _ _ _ _ _ _ _ Hr').
    - apply NoDup_app. split_and!; [done| |apply NoDup_singleton]. intros x Hx ->%list_elem_of_singleton.
      apply Hsub in Hx as (s & Hs & _). congruence.
    - rewrite empty_ref_snoc. lia.
    - intros x Hx. rewrite elem_of_app, list_elem_of_singleton. naive_solver.
    - intros x Hx. rewrite Hmr, decide_False by done. lia.
    - done.
    - intros k x Hx. destruct (decide (k = h_msgid hd)) as [->|Hk]; [|by rewrite lookup_insert_ne].
      rewrite lookup_insert_eq, Hrd. split; [|done]. intros [= <-]. done.
    - done.
    - intros m. unfold msgs. cbn [option_list option_rect]. rewrite !elem_of_app, list_elem_of_singleton. naive_solver.
    - rewrite elem_of_app, list_elem_of_singleton, Hi. naive_solver.
    - split.
      + rewrite Hmr, Hm0, decide_True by done. exact Hcell.
      + rewrite Hrb, Htx, Hrx. by destruct (has (h_cmd hd) DMSGF_DELETE).
      + by rewrite Hi.
      + by rewrite Ho.
      + rewrite Hrx. by destruct (has (h_cmd hd) DMSGF_DELETE).
      + by rewrite Hrb.
      + rewrite (c_refs _ _ _ _ _ _ _ _ Hc). done.
    - intros opp k. rewrite Ho, Hrb, Hid. destruct opp.
      + destruct (decide (k = h_msgid hd)) as [->|Hk]; [rewrite lookup_insert_eq; naive_solver|].
        rewrite lookup_insert_ne by done. split; [|naive_solver]. intros H. by apply (Hnt true) in H.
      + split; [|naive_solver]. intros H. by apply (Hnt false) in H. }
  exists io', msg. split; [exact E|]. split; [exact Hhd|]. split; [exact Hw'|]. split_and!; try done.
  - apply (view_Some _ _ _ _ _ _ Hw'). exists addr, s'. split; [apply cells_p; done|done].
  - intros opp m Hne. eapply (view_other _ _ _ _ addr); [done..| | |].
    + intros x Hx Hx0. by apply cells_ne.
    + intros s Hs. congruence.
    + intros s Hs [Hos Hids]. subst io'. cbn [io_heap] in Hs. rewrite cells_p in Hs by done. simplify_eq. rewrite Ho, Hid in Hne. done.
  - rewrite (excess_root io' r' _ _ (cells_r _ _ _ _) Hr'), (excess_root _ _ _ _ Hr Hro), empty_ref_snoc. lia.
Qed.
End operations.
