(* ===== verification/DmsgProtocol.v ===== *)
(** * DmsgProtocol: the life of a transaction between two ends

    A message is reduced to its two flags [CREATE] and [DELETE], a transaction to its two
    directions at each end ([None] when the end does not know the transaction) and to the
    flags of the messages under way.  [tinv] relates them; it is kept by every send and
    every receive, also when the initiator reuses the id of a transaction that it has
    finished while the other end is still behind. *)

From S2P Require Import Prelude Dmsg DmsgInv DmsgEnd.

(** One message moves a direction, or is out of place. *)
Definition hstep (st : half) (f : bool * bool) : option half :=
  match st, f with
  | Init, (true, del) => Some (closes del)
  | Open, (false, del) => Some (closes del)
  | _, _ => None
  end.
Fixpoint run (st : half) (l : list (bool * bool)) : option half :=
  match l with
  | [] => Some st
  | f :: l => st' ← hstep st f; run st' l
  end.

Lemma run_app st l1 l2 : run st (l1 ++ l2) = st' ← run st l1; run st' l2.
Proof. revert st. induction l1 as [|f l1 IH]; intros st; [done|]. cbn. destruct (hstep st f); [apply IH|done]. Qed.

Lemma run_snoc st l f st' : run st l = Some st' -> run st (l ++ [f]) = hstep st' f.
Proof. intros H. rewrite run_app, H. cbn. by destruct (hstep st' f). Qed.

Lemma run_closed l st : run Closed l = Some st -> l = [] /\ st = Closed.
Proof. destruct l as [|[[] []] l]; cbn; [|done..]. by intros [= <-]. Qed.

Lemma run_cons st f l st' : run st (f :: l) = Some st' -> exists st1, hstep st f = Some st1 /\ run st1 l = Some st'.
Proof. cbn. intros (st1 & H1 & H2)%bind_Some. eauto. Qed.

Lemma hstep_closes st f st' : hstep st f = Some st' -> st' = closes (snd f) /\ st ≠ Closed /\ fst f = bool_decide (st = Init).
Proof. by destruct st, f as [[] []]; intros [= <-]. Qed.

(** The knowledge of an end, which forgets the transaction when it is over. *)
Definition known (tx rx : half) : option (half * half) := if over tx rx then None else Some (tx, rx).

Lemma known_cases tx rx :
  (tx = Closed /\ rx = Closed /\ known tx rx = None) \/ (known tx rx = Some (tx, rx) /\ ~ (tx = Closed /\ rx = Closed)).
Proof. unfold known, over. destruct tx, rx; cbn; naive_solver. Qed.

(** The initiator's view [a], the other end's view [b], the messages under way to the
    other end [c] and back [d]. *)
Inductive tinv : option (half * half) -> option (half * half) -> list (bool * bool) -> list (bool * bool) -> Prop :=
  | T_idle : tinv None None [] []
  | T_both txa rxa txb rxb c d :
      run rxb c = Some txa -> run rxa d = Some txb -> txa ≠ Init -> rxb ≠ Init ->
      ~ (txa = Closed /\ rxa = Closed) -> ~ (txb = Closed /\ rxb = Closed) ->
      tinv (Some (txa, rxa)) (Some (txb, rxb)) c d
  | T_opening txa c :
      run Init c = Some txa -> txa ≠ Init -> tinv (Some (txa, Init)) None c []
  | T_behind rxb c :
      run rxb c = Some Closed -> rxb ≠ Closed -> rxb ≠ Init -> tinv None (Some (Closed, rxb)) c []
  | T_reopened txa rxb c1 c2 :
      run rxb c1 = Some Closed -> rxb ≠ Closed -> rxb ≠ Init -> run Init c2 = Some txa -> txa ≠ Init ->
      tinv (Some (txa, Init)) (Some (Closed, rxb)) (c1 ++ c2) []
  | T_ahead rxa d :
      run rxa d = Some Closed -> rxa ≠ Closed -> tinv (Some (Closed, rxa)) None [] d.

Lemma closes_not_init del : closes del ≠ Init.
Proof. by destruct del. Qed.

Ltac tinv_cases H :=
  inversion H as [ | txa rxa txb rxb c0 d0 R1 R2 N1 N2 M1 M2 | txa c0 R1 N1 | rxb c0 R1 N1 N2
                 | txa rxb c1 c2 R1 N1 N2 R2 N3 | rxa d0 R1 N1 ]; subst.

(** The initiator opens a transaction. *)
Lemma tinv_create b c d del : tinv None b c d -> tinv (Some (closes del, Init)) b (c ++ [(true, del)]) d.
Proof.
  pose proof (closes_not_init del). intros Ht. tinv_cases Ht; [by apply T_opening|by apply T_reopened].
Qed.

(** The initiator sends. *)
Lemma tinv_send_a tx rx b c d f tx' :
  tinv (Some (tx, rx)) b c d -> hstep tx f = Some tx' -> tinv (known tx' rx) b (c ++ [f]) d.
Proof.
  intros Ht Hf. destruct (hstep_closes _ _ _ Hf) as (-> & Hc & _). pose proof (closes_not_init (snd f)) as Hni.
  tinv_cases Ht; [| | |done].
  - destruct (known_cases (closes (snd f)) rx) as [(E1 & -> & ->)|[-> Hn]].
    + destruct (run_closed _ _ R2) as [-> ->]. apply T_behind; [|tauto|done]. by rewrite (run_snoc _ _ _ _ R1), Hf, E1.
    + apply T_both; try done. by rewrite (run_snoc _ _ _ _ R1), Hf.
  - destruct (known_cases (closes (snd f)) Init) as [(_ & ? & _)|[-> _]]; [done|]. apply T_opening; [|done].
    by rewrite (run_snoc _ _ _ _ R1), Hf.
  - destruct (known_cases (closes (snd f)) Init) as [(_ & ? & _)|[-> _]]; [done|]. rewrite <- app_assoc.
    apply T_reopened; try done. by rewrite (run_snoc _ _ _ _ R2).
Qed.

(** The other end sends. *)
Lemma tinv_send_b a tx rx c d f tx' :
  tinv a (Some (tx, rx)) c d -> hstep tx f = Some tx' -> tinv a (known tx' rx) c (d ++ [f]).
Proof.
  intros Ht Hf. destruct (hstep_closes _ _ _ Hf) as (-> & Hc & _). tinv_cases Ht; [|done..].
  destruct (known_cases (closes (snd f)) rx) as [(E1 & -> & ->)|[-> Hn]].
  - destruct (run_closed _ _ R1) as [-> ->]. apply T_ahead; [|tauto]. by rewrite (run_snoc _ _ _ _ R2), Hf, E1.
  - apply T_both; try done. by rewrite (run_snoc _ _ _ _ R2), Hf.
Qed.

(** The other end receives: the message opens a transaction it does not know, or fits the
    one it knows. *)
Lemma tinv_recv_b a b f c d :
  tinv a b (f :: c) d ->
  match b with
  | None => fst f = true /\ tinv a (Some (Init, closes (snd f))) c d
  | Some (tx, rx) => exists rx', hstep rx f = Some rx' /\ tinv a (known tx rx') c d
  end.
Proof.
  intros Ht. remember (f :: c) as l eqn:El. destruct Ht as [ | txa rxa txb rxb c0 d0 R1 R2 N1 N2 M1 M2 | txa c0 R1 N1
    | rxb c0 R1 N1 N2 | txa rxb c1 c2 R1 N1 N2 R2 N3 | rxa d0 R1 N1 ]; subst; try done.
  - destruct (run_cons _ _ _ _ R1) as (rx' & Hf & Hr). exists rx'. split; [done|].
    destruct (known_cases txb rx') as [(-> & -> & ->)|[-> Hn]].
    + destruct (run_closed _ _ Hr) as [-> ->]. apply T_ahead; [done|]. intros ->. tauto.
    + apply T_both; try done. destruct (hstep_closes _ _ _ Hf) as (-> & _). apply closes_not_init.
  - destruct (run_cons _ _ _ _ R1) as (rx' & Hf & Hr). destruct (hstep_closes _ _ _ Hf) as (-> & _ & E).
    split; [by rewrite E|]. apply T_both; try done; [apply closes_not_init|naive_solver|naive_solver].
  - destruct (run_cons _ _ _ _ R1) as (rx' & Hf & Hr). exists rx'. split; [done|].
    destruct (hstep_closes _ _ _ Hf) as (E & _). destruct (known_cases Closed rx') as [(_ & -> & ->)|[-> Hn]].
    + destruct (run_closed _ _ Hr) as [-> _]. apply T_idle.
    + apply T_behind; [done|naive_solver|]. rewrite E. apply closes_not_init.
  - destruct c1 as [|f' c1]; [cbn in R1; congruence|]. injection El as -> <-.
    destruct (run_cons _ _ _ _ R1) as (rx' & Hf & Hr). exists rx'. split; [done|].
    destruct (hstep_closes _ _ _ Hf) as (E & _). destruct (known_cases Closed rx') as [(_ & -> & ->)|[-> Hn]].
    + destruct (run_closed _ _ Hr) as [-> _]. by apply T_opening.
    + apply T_reopened; [done|naive_solver| |done..]. rewrite E. apply closes_not_init.
Qed.

(** The initiator receives. *)
Lemma tinv_recv_a a b f c d :
  tinv a b c (f :: d) ->
  exists tx rx rx', a = Some (tx, rx) /\ hstep rx f = Some rx' /\ tinv (known tx rx') b c d.
Proof.
  intros Ht. tinv_cases Ht.
  - destruct (run_cons _ _ _ _ R2) as (rx' & Hf & Hr). exists txa, rxa, rx'. split; [done|]. split; [done|].
    destruct (known_cases txa rx') as [(-> & -> & ->)|[-> Hn]].
    + destruct (run_closed _ _ Hr) as [-> ->]. apply T_behind; [done|naive_solver|done].
    + by apply T_both.
  - destruct (run_cons _ _ _ _ R1) as (rx' & Hf & Hr). exists Closed, rxa, rx'. split; [done|]. split; [done|].
    destruct (known_cases Closed rx') as [(_ & -> & ->)|[-> Hn]].
    + destruct (run_closed _ _ Hr) as [-> _]. apply T_idle.
    + apply T_ahead; [done|naive_solver].
Qed.

(** With nothing under way and no direction left open, the transaction is gone. *)
Lemma tinv_drained a b :
  tinv a b [] [] -> (forall tx rx, a = Some (tx, rx) -> tx = Closed) -> (forall tx rx, b = Some (tx, rx) -> tx = Closed) ->
  a = None /\ b = None.
Proof.
  intros Ht Ha Hb. tinv_cases Ht; cbn in *; simplify_eq; try done.
  - specialize (Ha _ _ eq_refl). specialize (Hb _ _ eq_refl). subst. naive_solver.
  - match goal with H : _ ++ _ = [] |- _ => apply app_eq_nil in H as [-> ->] end. cbn in *. congruence.
Qed.
