(* ===== verification/DmsgProps.v ===== *)
(** * DmsgProps: two ends of a connection

    The two ends of a connection and the bytes between them as a transition system: an end
    opens a transaction, sends on one, transmits a queued message, receives one, or
    finishes a received one (the application may do anything else in between, which is
    what its callback does).  The theorems are about every reachable state, for both kinds
    of mutex.  Transactions are opened on the root of the connection, and the connection
    does not fail. *)

From S2P Require Import Prelude CMonad Dmsg DmsgInv DmsgEnd DmsgProtocol.

(** ** The system *)

(** The connection of an end, the message its application works on, and, as history, how
    many transactions of the other end it has received. *)
Record party := { pt_io : iocom; pt_pend : option dmsg_msg; pt_opened : Z }.
Record system := { sy_a : party; sy_b : party; sy_ab : list dmsg_hdr; sy_ba : list dmsg_hdr }.

Inductive event :=
  | Create (addr : positive) (aux cmd : Z) (func : handler)
  | Send (p : positive) (cmd error : Z)
  | Transmit
  | Receive (addr : positive)
  | Finish.

(** What the application and [malloc] have to respect: addresses are fresh, a transaction
    is used only until its transmit side is closed, messages are received one at a time;
    and the reference counts are not close to 2^32. *)
Definition enabled (ev : event) (x : party) (inw : list dmsg_hdr) : Prop :=
  match ev with
  | Create addr _ cmd _ => io_heap (pt_io x) !! addr = None /\ opening cmd /\ bounded (pt_io x)
  | Send p cmd _ => exists s, io_heap (pt_io x) !! p = Some s /\ p ≠ state0 /\ tx_of s ≠ Closed /\ plain_cmd cmd /\
      has cmd DMSGF_REPLY = opp_of s /\ bounded (pt_io x)
  | Transmit => True
  | Receive addr => pt_pend x = None /\ inw ≠ [] /\ io_heap (pt_io x) !! addr = None /\ bounded (pt_io x)
  | Finish => pt_pend x ≠ None
  end.

(** A message that opens a transaction. *)
Definition opens (h : dmsg_hdr) : bool := has (h_cmd h) DMSGF_CREATE && negb (has (h_cmd h) DMSGF_REPLY).

Section system.
Context (cb : dmsg_msg -> prog iocom ()) (fuel : nat) (mtx : mutex_kind).

(** An operation of the library on the connection of an end. *)
Definition at_end {A} (m : prog iocom A) : prog party A := λ x,
  match m (pt_io x) with
  | Ok a io => Ok a {| pt_io := io; pt_pend := pt_pend x; pt_opened := pt_opened x |}
  | Stop e => Stop e
  end.
Definition set_pend (pend : option dmsg_msg) (n : Z) (x : party) : party :=
  {| pt_io := pt_io x; pt_pend := pend; pt_opened := pt_opened x + n |}.

(** The event at one end: what is left of its input, and what it put on the wire. *)
Definition fire (ev : event) (inw : list dmsg_hdr) : prog party (list dmsg_hdr * list dmsg_hdr) :=
  match ev with
  | Create addr aux cmd func => at_end (dmsg_open cb fuel mtx addr aux cmd func);; mret (inw, [])
  | Send p cmd error => at_end (send_on mtx cb fuel p cmd error);; mret (inw, [])
  | Transmit => hd ← at_end (dmsg_transmit mtx); mret (inw, option_list hd)
  | Receive addr =>
      match inw with
      | hd :: inw =>
          msg ← at_end (dmsg_receive mtx addr hd);
          modify (set_pend msg (if opens hd then 1 else 0));;
          mret (inw, [])
      | [] => stop_with Undef
      end
  | Finish =>
      x ← get_state;
      match pt_pend x with
      | Some msg => at_end (dmsg_receive_done mtx msg);; modify (set_pend None 0);; mret (inw, [])
      | None => stop_with Undef
      end
  end.

Inductive sstep (sy : system) : system -> Prop :=
  | Step_a ev x inw sent :
      enabled ev (sy_a sy) (sy_ba sy) -> fire ev (sy_ba sy) (sy_a sy) = Ok (inw, sent) x ->
      sstep sy {| sy_a := x; sy_b := sy_b sy; sy_ab := sy_ab sy ++ sent; sy_ba := inw |}
  | Step_b ev x inw sent :
      enabled ev (sy_b sy) (sy_ab sy) -> fire ev (sy_ab sy) (sy_b sy) = Ok (inw, sent) x ->
      sstep sy {| sy_a := sy_a sy; sy_b := x; sy_ab := inw; sy_ba := sy_ba sy ++ sent |}.

Definition party_init : party := {| pt_io := dmsg_iocom_init; pt_pend := None; pt_opened := 0 |}.
Definition system_init : system := {| sy_a := party_init; sy_b := party_init; sy_ab := []; sy_ba := [] |}.
Definition reachable : system -> Prop := rtc sstep system_init.

(** ** The invariant *)

(** The headers that the two ends produce. *)
Record hdr_ok (h : dmsg_hdr) : Prop := {
  ho_circuit : h_circuit h = 0;
  ho_reply : has (h_cmd h) DMSGF_REPLY = has (h_cmd h) DMSGF_REVTRANS;
  ho_revcirc : has (h_cmd h) DMSGF_REVCIRC = false;
  ho_size : 1 <= h_cmd h .& DMSGF_SIZE;
}.

Definition flags_of (h : dmsg_hdr) : bool * bool := (has (h_cmd h) DMSGF_CREATE, has (h_cmd h) DMSGF_DELETE).
(** The messages of one direction of one transaction, [rev] from the end that did not open
    it. *)
Definition lane (rev : bool) (id : Z) (l : list dmsg_hdr) : list (bool * bool) :=
  flags_of <$> filter (λ h, h_msgid h = id /\ has (h_cmd h) DMSGF_REVTRANS = rev) l.

Lemma lane_app rev id l1 l2 : lane rev id (l1 ++ l2) = lane rev id l1 ++ lane rev id l2.
Proof. unfold lane. by rewrite filter_app, fmap_app. Qed.
Lemma lane_cons rev id h l :
  lane rev id (h :: l) =
    if decide (h_msgid h = id /\ has (h_cmd h) DMSGF_REVTRANS = rev) then flags_of h :: lane rev id l else lane rev id l.
Proof. unfold lane. rewrite filter_cons. by destruct (decide _). Qed.

(** The messages from [x] and from [y], on the wire and queued. *)
Record pair_inv (x y : party) (xy yx : list dmsg_hdr) : Prop := {
  pi_x : ewf (pt_io x) (pt_pend x);
  pi_y : ewf (pt_io y) (pt_pend y);
  pi_xy : Forall hdr_ok xy;
  pi_yx : Forall hdr_ok yx;
  pi_own : forall m, tinv (view false (pt_io x) m) (view true (pt_io y) m) (lane false m xy) (lane true m yx);
  pi_other : forall m, tinv (view false (pt_io y) m) (view true (pt_io x) m) (lane false m yx) (lane true m xy);
}.

Lemma pair_swap x y xy yx : pair_inv x y xy yx -> pair_inv y x yx xy.
Proof. intros []. by split. Qed.

Lemma hstep_next tx del : tx ≠ Closed -> hstep tx (bool_decide (tx = Init), del) = Some (closes del).
Proof. by destruct tx. Qed.

(** One message more from [x]. *)
Lemma pair_sent x y x' xy yx hd opp :
  pair_inv x y xy yx -> ewf (pt_io x') (pt_pend x') -> hdr_ok hd -> has (h_cmd hd) DMSGF_REVTRANS = opp ->
  (forall o m, (o, m) ≠ (opp, h_msgid hd) -> view o (pt_io x') m = view o (pt_io x) m) ->
  (if opp
   then tinv (view false (pt_io y) (h_msgid hd)) (view true (pt_io x') (h_msgid hd))
          (lane false (h_msgid hd) yx) (lane true (h_msgid hd) xy ++ [flags_of hd])
   else tinv (view false (pt_io x') (h_msgid hd)) (view true (pt_io y) (h_msgid hd))
          (lane false (h_msgid hd) xy ++ [flags_of hd]) (lane true (h_msgid hd) yx)) ->
  pair_inv x' y (xy ++ [hd]) yx.
Proof.
  intros [] Hw Hok Hrev Hv Ht. split; try done.
  - apply Forall_app. split; [done|]. by apply Forall_singleton.
  - intros m. rewrite lane_app, lane_cons. case_decide as Hd.
    + destruct Hd as [<- Ho]. rewrite Hrev in Ho. rewrite Ho in Ht. exact Ht.
    + rewrite app_nil_r, Hv; [apply pi_own0|]. intros [= <- ->]. naive_solver.
  - intros m. rewrite lane_app, lane_cons. case_decide as Hd.
    + destruct Hd as [<- Ho]. rewrite Hrev in Ho. rewrite Ho in Ht. exact Ht.
    + rewrite app_nil_r, Hv; [apply pi_other0|]. intros [= <- ->]. naive_solver.
Qed.

(** One message less from [y]. *)
Lemma pair_received x y x' xy yx hd :
  pair_inv x y xy (hd :: yx) -> ewf (pt_io x') (pt_pend x') ->
  let opp := negb (has (h_cmd hd) DMSGF_REVTRANS) in
  (forall o m, (o, m) ≠ (opp, h_msgid hd) -> view o (pt_io x') m = view o (pt_io x) m) ->
  (if opp
   then tinv (view false (pt_io y) (h_msgid hd)) (view true (pt_io x') (h_msgid hd))
          (lane false (h_msgid hd) yx) (lane true (h_msgid hd) xy)
   else tinv (view false (pt_io x') (h_msgid hd)) (view true (pt_io y) (h_msgid hd))
          (lane false (h_msgid hd) xy) (lane true (h_msgid hd) yx)) ->
  pair_inv x' y xy yx.
Proof.
  intros [] Hw opp Hv Ht. split; try done.
  - by apply Forall_cons in pi_yx0 as [_ ?].
  - intros m. specialize (pi_own0 m). rewrite lane_cons in pi_own0. case_decide as Hd.
    + destruct Hd as [<- Ho]. unfold opp in Ht. rewrite Ho in Ht. exact Ht.
    + rewrite Hv; [exact pi_own0|]. intros [= Ho ->]. apply Hd. split; [done|]. unfold opp in Ho.
      by destruct (has (h_cmd hd) DMSGF_REVTRANS).
  - intros m. specialize (pi_other0 m). rewrite lane_cons in pi_other0. case_decide as Hd.
    + destruct Hd as [<- Ho]. unfold opp in Ht. rewrite Ho in Ht. exact Ht.
    + rewrite Hv; [exact pi_other0|]. intros [= Ho ->]. apply Hd. split; [done|]. unfold opp in Ho.
      by destruct (has (h_cmd hd) DMSGF_REVTRANS).
Qed.

(** Two ends that differ only in what the other cannot know. *)
Lemma pair_same x y x' xy yx :
  pair_inv x y xy yx -> ewf (pt_io x') (pt_pend x') -> (forall o m, view o (pt_io x') m = view o (pt_io x) m) ->
  pair_inv x' y xy yx.
Proof. intros [] Hw Hv. split; try done; intros m; by rewrite Hv. Qed.

(** ** The events *)

Abbreviation under_way x y wxy wyx := (pair_inv x y (wxy ++ outgoing (pt_io x)) (wyx ++ outgoing (pt_io y))).

(** The message of a receive is the one that the application gets. *)
Definition delivers (ev : event) (inw : list dmsg_hdr) (x' : party) : Prop :=
  match ev, inw with
  | Receive _, hd :: _ => exists msg, pt_pend x' = Some msg /\ head_of msg = hd
  | _, _ => True
  end.
(** The references that the root has lost: two for every transaction of the other end. *)
Definition counted (x : party) : Prop := root_excess (pt_io x) = 2 * pt_opened x.
Definition progress (ev : event) (x y : party) (wxy wyx : list dmsg_hdr) : Prop :=
  exists x' inw sent, fire ev wyx x = Ok (inw, sent) x' /\ under_way x' y (wxy ++ sent) inw /\ delivers ev wyx x' /\
    (counted x -> counted x').

Lemma at_end_Ok {A} (m : prog iocom A) x a io :
  m (pt_io x) = Ok a io -> at_end m x = Ok a {| pt_io := io; pt_pend := pt_pend x; pt_opened := pt_opened x |}.
Proof. unfold at_end. by intros ->. Qed.

Lemma opening_hdr hd : h_circuit hd = 0 -> opening (h_cmd hd) -> hdr_ok hd.
Proof. intros Hc (H1 & H2 & H3 & H4 & H5). split; try done. by rewrite H2, H3. Qed.

Lemma step_create addr aux cmd func x y wxy wyx :
  enabled (Create addr aux cmd func) x wyx -> under_way x y wxy wyx -> progress (Create addr aux cmd func) x y wxy wyx.
Proof.
  intros (Hnew & Hop & Hb) Hi.
  destruct (end_create cb fuel mtx _ _ addr cmd aux func (pi_x _ _ _ _ Hi) Hnew Hop Hb)
    as (io' & hd & E & Hw & V1 & V2 & V3 & Ho & Hcmd & Hid & Hcirc & Hx).
  exists {| pt_io := io'; pt_pend := pt_pend x; pt_opened := pt_opened x |}, wyx, []. split; [cbn [fire]; by rewrite (bind_Ok _ _ _ _ _ (at_end_Ok _ _ _ _ E))|].
  split; [|by split; [|unfold counted; cbn; rewrite Hx]].
  cbn [pt_io]. rewrite app_nil_r, Ho, app_assoc. rewrite <- Hcmd in Hop.
  apply (pair_sent x y _ _ _ hd false Hi); [done|by apply opening_hdr|apply Hop|by rewrite Hid|].
  cbv iota. cbn [pt_io]. rewrite Hid, V2. pose proof (pi_own _ _ _ _ Hi (Zpos addr)) as Ht. rewrite V1 in Ht.
  unfold flags_of. rewrite Hcmd. rewrite Hcmd in Hop. destruct Hop as (-> & _). by apply tinv_create.
Qed.

Lemma step_send p cmd error x y wxy wyx :
  enabled (Send p cmd error) x wyx -> under_way x y wxy wyx -> progress (Send p cmd error) x y wxy wyx.
Proof.
  intros (s & Hs & Hp & Htx & Hpl & Hrep & Hb) Hi.
  destruct (end_send cb fuel mtx _ _ p s cmd error (pi_x _ _ _ _ Hi) Hs Hp Htx Hpl Hrep Hb)
    as (io' & hd & E & Hw & V1 & V2 & V3 & Ho & Hcmd & Hid & Hcirc & Hx).
  destruct (send_cmd_flags (opp_of s) (tx_of s) cmd Hpl Htx) as (F1 & F2 & F3 & F4 & F5 & F6). rewrite <- Hcmd in *.
  exists {| pt_io := io'; pt_pend := pt_pend x; pt_opened := pt_opened x |}, wyx, []. split; [cbn [fire]; by rewrite (bind_Ok _ _ _ _ _ (at_end_Ok _ _ _ _ E))|].
  split; [|by split; [|unfold counted; cbn; rewrite Hx]].
  cbn [pt_io]. rewrite app_nil_r, Ho, app_assoc.
  apply (pair_sent x y _ _ _ hd (opp_of s) Hi); [done| |done|by rewrite Hid|].
  { split; [done|by rewrite F3, F4|done|]. rewrite F6. apply (pc_size _ Hpl). }
  cbn [pt_io]. rewrite Hid. unfold flags_of. rewrite F1, F2. pose proof (hstep_next (tx_of s) (has cmd DMSGF_DELETE) Htx) as Hst.
  clear - Hi V1 V2 Hst. destruct (opp_of s); rewrite V2.
  - pose proof (pi_other _ _ _ _ Hi (s_msgid s)) as Ht. rewrite V1 in Ht. by apply (tinv_send_b _ _ _ _ _ _ _ Ht).
  - pose proof (pi_own _ _ _ _ Hi (s_msgid s)) as Ht. rewrite V1 in Ht. by apply (tinv_send_a _ _ _ _ _ _ _ Ht).
Qed.

Lemma step_transmit x y wxy wyx : under_way x y wxy wyx -> progress Transmit x y wxy wyx.
Proof.
  intros Hi. destruct (outgoing (pt_io x)) as [|hd hs] eqn:Ho.
  - exists x, wyx, []. split; [|split; [by rewrite app_nil_r, Ho|done]].
    assert (dmsg_transmit mtx (pt_io x) = Ok None (pt_io x)) as E.
    { unfold dmsg_transmit, outgoing in *. apply fmap_nil_inv in Ho. by rewrite (bind_Ok get_state _ _ _ _ eq_refl), Ho. }
    cbn [fire]. rewrite (bind_Ok _ _ _ _ _ (at_end_Ok _ _ _ _ E)). by destruct x.
  - destruct (end_transmit mtx _ _ hd hs (pi_x _ _ _ _ Hi) Ho) as (io' & E & Hw & Ho' & Hx & V).
    exists {| pt_io := io'; pt_pend := pt_pend x; pt_opened := pt_opened x |}, wyx, [hd].
    split; [cbn [fire]; by rewrite (bind_Ok _ _ _ _ _ (at_end_Ok _ _ _ _ E))|]. split; [|by split; [|unfold counted; cbn; rewrite Hx]].
    cbn [pt_io]. rewrite Ho', <- app_assoc. cbn [app]. by apply (pair_same x).
Qed.

(** With error-checking mutexes a received message can be finished, with normal ones the
    thread waits for a mutex that it holds. *)
Lemma step_finish x y wxy wyx :
  enabled Finish x wyx -> under_way x y wxy wyx ->
  (mtx = Normal -> fire Finish wyx x = Stop Deadlock) /\ (mtx = ErrorCheck -> progress Finish x y wxy wyx).
Proof.
  intros Hen Hi. cbn in Hen. destruct x as [io pend n]. cbn in *. destruct pend as [msg|]; [clear Hen|done].
  split; intros Hmtx.
  - unfold mbind, prog_bind, at_end. cbn. by rewrite (end_deadlock mtx io msg (pi_x _ _ _ _ Hi) Hmtx).
  - destruct (end_done cb mtx io msg (pi_x _ _ _ _ Hi) Hmtx) as (io' & E & Hw & Ho & Hx & V).
    exists {| pt_io := io'; pt_pend := None; pt_opened := n + 0 |}, wyx, [].
    split; [by unfold fire, mbind, prog_bind, at_end; cbn; rewrite E|]. split; [|by split; [|unfold counted; cbn; rewrite Hx, Z.add_0_r]].
    rewrite app_nil_r. cbn [pt_io]. rewrite Ho. by apply (pair_same _ _ _ _ _ Hi).
Qed.

(** The receive of a message that fits the state [x] has of the transaction. *)
Lemma step_receive_known addr x y wxy wyx hd opp tx rx rx' :
  enabled (Receive addr) x (hd :: wyx) -> under_way x y wxy (hd :: wyx) ->
  has (h_cmd hd) DMSGF_REVTRANS = negb opp -> view opp (pt_io x) (h_msgid hd) = Some (tx, rx) ->
  hstep rx (flags_of hd) = Some rx' ->
  (if opp
   then tinv (view false (pt_io y) (h_msgid hd)) (known tx rx')
          (lane false (h_msgid hd) (wyx ++ outgoing (pt_io y))) (lane true (h_msgid hd) (wxy ++ outgoing (pt_io x)))
   else tinv (known tx rx') (view true (pt_io y) (h_msgid hd))
          (lane false (h_msgid hd) (wxy ++ outgoing (pt_io x))) (lane true (h_msgid hd) (wyx ++ outgoing (pt_io y)))) ->
  progress (Receive addr) x y wxy (hd :: wyx).
Proof.
  intros (Hpend & _ & Hnew & Hb) Hi Hrev Hv Hst Ht.
  pose proof (pi_x _ _ _ _ Hi) as Hw. rewrite Hpend in Hw.
  pose proof (pi_yx _ _ _ _ Hi) as Hok. cbn [app] in Hok. apply Forall_cons in Hok as [[O1 O2 O3 O4] _].
  apply (view_Some _ _ _ _ _ _ Hw) in Hv as (p & s & Hs & Hp & Ho & Hrb & Hid & Htx & Hrx).
  destruct (hstep_closes _ _ _ Hst) as (Erx & Hnc & Hcr). cbn [flags_of fst snd] in Erx, Hcr.
  destruct (end_receive cb mtx (pt_io x) addr hd p s) as (io' & msg & E & Hhd & Hw' & V1 & V2 & Hout & Hx);
    [done|done|done|done|by rewrite Hrx|done|done|done|by rewrite O2, Ho|by rewrite Ho|done|by rewrite Hrx|].
  assert (opens hd = false) as Hop.
  { unfold opens. rewrite Hcr, O2, Hrev. destruct opp; cbn [negb]; [|apply andb_false_r]. rewrite andb_true_r.
    apply bool_decide_false. rewrite <- Hrx. apply (ci_open _ _ _ _ (w_cell _ _ Hw p s Hs Hp) Ho). }
  exists {| pt_io := io'; pt_pend := Some msg; pt_opened := pt_opened x + 0 |}, wyx, [].
  split; [cbn [fire]; rewrite Hop; by rewrite (bind_Ok _ _ _ _ _ (at_end_Ok _ _ _ _ E))|].
  split; [|split; [cbn; eauto|unfold counted; cbn; rewrite Hx; lia]]. rewrite app_nil_r. cbn [pt_io]. rewrite Hout.
  apply (pair_received x y _ _ _ hd Hi); [done|rewrite Hrev, negb_involutive, <- Ho, <- Hid; exact V2|].
  rewrite Hrev, negb_involutive. cbn [pt_io]. rewrite Hid, Ho, Htx, <- Erx in V1. unfold known in Ht.
  destruct opp; by rewrite V1.
Qed.

Lemma step_receive addr x y wxy wyx :
  enabled (Receive addr) x wyx -> under_way x y wxy wyx -> progress (Receive addr) x y wxy wyx.
Proof.
  intros Hen Hi. destruct wyx as [|hd wyx]; [by destruct Hen as (_ & ? & _)|].
  destruct (has (h_cmd hd) DMSGF_REVTRANS) eqn:Hrev.
  - pose proof (pi_own _ _ _ _ Hi (h_msgid hd)) as Ht. cbn [app] in Ht.
    rewrite (lane_cons true), decide_True in Ht by done. apply tinv_recv_a in Ht as (tx & rx & rx' & Hv & Hst & Ht).
    by eapply (step_receive_known addr x y wxy wyx hd false).
  - pose proof (pi_other _ _ _ _ Hi (h_msgid hd)) as Ht. cbn [app] in Ht.
    rewrite (lane_cons false), decide_True in Ht by done. apply tinv_recv_b in Ht.
    destruct (view true (pt_io x) (h_msgid hd)) as [[tx rx]|] eqn:Hv.
    + destruct Ht as (rx' & Hst & Ht). by eapply (step_receive_known addr x y wxy wyx hd true).
    + destruct Ht as [Hcr Ht]. cbn [flags_of fst snd] in Hcr, Ht. destruct Hen as (Hpend & _ & Hnew & Hb).
      pose proof (pi_x _ _ _ _ Hi) as Hw. rewrite Hpend in Hw.
      pose proof (pi_yx _ _ _ _ Hi) as Hok. cbn [app] in Hok. apply Forall_cons in Hok as [[O1 O2 O3 O4] _].
      destruct (end_receive_new cb mtx (pt_io x) addr hd) as (io' & msg & E & Hhd & Hw' & V1 & V2 & Hout & Hx);
        [done|done|done|done|by rewrite Hrev in O2|done|].
      assert (opens hd = true) as Hop by (unfold opens; by rewrite Hcr, O2, Hrev).
      exists {| pt_io := io'; pt_pend := Some msg; pt_opened := pt_opened x + 1 |}, wyx, [].
      split; [cbn [fire]; rewrite Hop; by rewrite (bind_Ok _ _ _ _ _ (at_end_Ok _ _ _ _ E))|].
      split; [|split; [cbn; eauto|unfold counted; cbn; rewrite Hx; lia]]. rewrite app_nil_r. cbn [pt_io]. rewrite Hout.
      apply (pair_received x y _ _ _ hd Hi); [done|rewrite Hrev; exact V2|]. rewrite Hrev. cbn [negb pt_io]. by rewrite V1.
Qed.

(** The event blocks its thread. *)
Definition blocks (ev : event) : bool := match mtx, ev with Normal, Finish => true | _, _ => false end.

Lemma party_step ev x y wxy wyx :
  enabled ev x wyx -> under_way x y wxy wyx ->
  if blocks ev then fire ev wyx x = Stop Deadlock else progress ev x y wxy wyx.
Proof.
  intros Hen Hi. pose proof (step_finish x y wxy wyx) as Hf. unfold blocks. destruct ev.
  1-4: replace (match mtx with Normal | _ => false end) with false by (by destruct mtx).
  1: by apply step_create. 1: by apply step_send. 1: by apply step_transmit. 1: by apply step_receive.
  destruct (Hf Hen Hi) as [Hn He]. destruct mtx; [by apply Hn|by apply He].
Qed.

(** ** Reachable states *)

Lemma init_ewf : ewf dmsg_iocom_init None.
Proof.
  assert (forall x s, io_heap dmsg_iocom_init !! x = Some s -> x = state0) as Hone.
  { intros x s. cbn [io_heap dmsg_iocom_init]. by intros [-> _]%lookup_singleton_Some. }
  split; [done| | | |].
  - eexists. split; [apply lookup_singleton_eq|]. split; [by split|]. split; [apply NoDup_nil_2|]. split; [by cbn|].
    intros x. cbn [s_subq]. split; [by intros ?%not_elem_of_nil|]. intros (s & Hs & Hx & _). by apply Hone in Hs.
  - intros x s Hs Hx. by apply Hone in Hs.
  - intros opp k x. split; [by destruct opp; cbn; rewrite lookup_empty|]. intros (s & Hs & Hx & _). by apply Hone in Hs.
  - intros m Hm. by apply not_elem_of_nil in Hm.
Qed.

Definition system_inv (sy : system) : Prop :=
  under_way (sy_a sy) (sy_b sy) (sy_ab sy) (sy_ba sy) /\ counted (sy_a sy) /\ counted (sy_b sy).

Lemma system_inv_init : system_inv system_init.
Proof.
  split; [|by vm_compute]. split; [apply init_ewf|apply init_ewf|by apply Forall_nil|by apply Forall_nil| |];
    intros m; unfold view; cbn; apply T_idle.
Qed.

Lemma party_fired ev x y wxy wyx x' inw sent :
  enabled ev x wyx -> under_way x y wxy wyx -> fire ev wyx x = Ok (inw, sent) x' ->
  under_way x' y (wxy ++ sent) inw /\ (counted x -> counted x').
Proof.
  intros Hen Hi Hf. pose proof (party_step ev _ _ _ _ Hen Hi) as H. rewrite Hf in H. destruct (blocks ev); [done|].
  destruct H as (x1 & inw1 & sent1 & Hf1 & Hi1 & _ & Hc). rewrite Hf in Hf1. by simplify_eq.
Qed.

Lemma system_inv_step sy sy' : sstep sy sy' -> system_inv sy -> system_inv sy'.
Proof.
  intros [ev x inw sent Hen Hf|ev x inw sent Hen Hf] (Hi & Ha & Hb); unfold system_inv in *; cbn.
  - destruct (party_fired ev _ _ _ _ _ _ _ Hen Hi Hf) as [Hi' Hc]. auto.
  - apply pair_swap in Hi. destruct (party_fired ev _ _ _ _ _ _ _ Hen Hi Hf) as [Hi'%pair_swap Hc]. auto.
Qed.

Lemma reachable_inv sy : reachable sy -> system_inv sy.
Proof.
  intros H. unfold reachable in H. revert H. generalize system_inv_init. generalize system_init. intros sy0 H0 Hs.
  induction Hs as [|sy1 sy2 sy3 H12 _ IH]; [done|]. by eapply IH, system_inv_step.
Qed.
End system.

(** ** What the invariant says *)






Section claims.
Context (cb : dmsg_msg -> prog iocom ()) (fuel : nat) (mtx : mutex_kind).

(** C3: In every reachable state of two connected ends, with either kind of mutex, whatever
    an end is allowed to do (open a transaction on the root, send on one, transmit the next
    queued message, receive the next message of the wire) runs to its end: no assertion of
    msg.c fails, no state is used after it was freed, and no fuel runs out; a received
    message is handed to the application exactly as the other end queued it.  The last
    operation, finishing a received message, runs to its end with error-checking mutexes;
    with normal ones, which are the default on Linux, it always blocks its thread for ever,
    since [dmsg_iocom_core] holds [iocom->mtx] around [dmsg_state_cleanuprx], which ends in
    [dmsg_msg_free], which takes it again.  (The connection does not fail; fresh addresses
    from malloc, counters below 2^32: [enabled].) *)
Theorem dmsg_transactions_safe sy ev :
  let ends ev x inw :=
    if blocks mtx ev then fire cb fuel mtx ev inw x = Stop Deadlock
    else exists x' inw' sent, fire cb fuel mtx ev inw x = Ok (inw', sent) x' /\ delivers ev inw x' in
  reachable cb fuel mtx sy ->
  (enabled ev (sy_a sy) (sy_ba sy) -> ends ev (sy_a sy) (sy_ba sy)) /\
  (enabled ev (sy_b sy) (sy_ab sy) -> ends ev (sy_b sy) (sy_ab sy)).
Proof.
  intros ends (Hi & _)%reachable_inv. unfold ends. split; intros Hen; [|apply pair_swap in Hi];
    pose proof (party_step cb fuel mtx ev _ _ _ _ Hen Hi) as H; destruct (blocks mtx ev); try done;
    destruct H as (x & inw & sent & Hf & _ & Hd & _); eauto 10.
Qed.

(** C4: In every reachable state of two connected ends, with either kind of mutex, the
    bookkeeping is exact: a state is in the tree of its side under its message id until
    both directions are closed, is in the queue of the root as long as it is in its tree
    (and after that only while the application works on its last message), and has
    one reference for the tree, one for the queue and one for each message that points to
    it; no freed state is reachable; the mutex is free.  The count of the root state is
    exact too, with what it leaks: it has one reference of its own, one for its queue when
    that is not empty, and two that are never given back for every transaction that the
    other end has opened.  (Transactions on the root; the connection does not fail.) *)
Theorem dmsg_bookkeeping_exact sy :
  reachable cb fuel mtx sy ->
  forall x, x = sy_a sy \/ x = sy_b sy ->
  ewf (pt_io x) (pt_pend x) /\
  exists r, io_heap (pt_io x) !! state0 = Some r /\ s_refs r = 1 + (1 - empty_ref (s_subq r)) + 2 * pt_opened x.
Proof.
  intros (Hi & Ha & Hb)%reachable_inv.
  assert (forall x, ewf (pt_io x) (pt_pend x) -> counted x ->
    exists r, io_heap (pt_io x) !! state0 = Some r /\ s_refs r = 1 + (1 - empty_ref (s_subq r)) + 2 * pt_opened x) as Hroot.
  { intros x Hw Hc. destruct (w_root _ _ Hw) as (r & Hr & _). exists r. split; [done|]. unfold counted, root_excess in Hc.
    rewrite Hr in Hc. lia. }
  intros x [->| ->]; (split; [|apply Hroot; [|done]]); apply (pi_x _ _ _ _ Hi) || apply (pi_y _ _ _ _ Hi).
Qed.

End claims.

(** ** Failures *)

(** With the mutexes that the C library of Linux gives by default, the connection's
    thread blocks for ever at the end of the first message it has received:
    [dmsg_iocom_core] holds [iocom->mtx] around [dmsg_state_cleanuprx], which calls
    [dmsg_msg_free], which locks it again. *)
Theorem dmsg_receive_deadlocks io msg : ewf io (Some msg) -> dmsg_receive_done Normal msg io = Stop Deadlock.
Proof. intros Hw. by apply (end_deadlock Normal). Qed.

(** A message without [CREATE] over a circuit that is an open transaction, with a
    message id that the receiver does not know (any more), fails the assertion
    [msg->state == state], even if it is an abort that the code means to ignore. *)
Theorem dmsg_stacked_race_aborts mtx addr io hd p s r :
  io_locked io = false -> io_heap io !! state0 = Some r -> root_ok r (s_subq r) (s_refs r) -> 0 <= s_refs r < 2 ^ 32 - 1 ->
  p ≠ state0 -> io_heap io !! p = Some s -> h_circuit hd ≠ 0 ->
  (if has (h_cmd hd) DMSGF_REVCIRC then statewr_tree io else staterd_tree io) !! h_circuit hd = Some p ->
  (if has (h_cmd hd) DMSGF_REVTRANS then statewr_tree io else staterd_tree io) !! h_msgid hd = None ->
  has (h_cmd hd) DMSGF_CREATE = false -> 1 <= h_cmd hd .& DMSGF_SIZE ->
  dmsg_receive mtx addr hd io = Stop AssertFail.
Proof.
  intros Hl Hr Hro Hrefs Hp Hs Hcirc Hfc Hfm Hcr Hsize. rewrite (con_eta io p r s Hr Hs Hp Hl).
  unfold dmsg_receive.
  destruct (alloc_root_spec p (io_heap io) Hp mtx r s (staterd_tree io) (statewr_tree io) (txmsgq io) (dmsg_state_count io)
    _ _ (h_aux_bytes hd) (h_cmd hd) Hro Hrefs Hsize) as (r1 & E1 & Hr1).
  step_by ltac:(exact E1). apply bind_Stop. unfold dmsg_state_msgrx. cbn [m_circuit m_cmd m_msgid m_state m_tcmd m_aux_size m_wire].
  step. norm. rewrite bool_decide_true by done. step_by ltac:(apply rb_find_spec). rewrite Hfc.
  step_by ltac:(apply rb_find_spec). rewrite Hfm. unfold msgrx_process, msgrx_switch. rewrite bool_decide_true by done.
  cbn [m_cmd]. rewrite Hcr. step.
  assert (bool_decide (state0 = p) = false) as Hneq by (by apply bool_decide_false).
  assert (forall msg, m_state msg = state0 -> exists t, msgrx_tcmd p msg (con r1 p s (io_heap io) (staterd_tree io)
    (statewr_tree io) (txmsgq io) (dmsg_state_count io) true) = Ok t (con r1 p s (io_heap io) (staterd_tree io)
    (statewr_tree io) (txmsgq io) (dmsg_state_count io) true)) as Htc.
  { intros msg Hm. unfold msgrx_tcmd. rewrite Hm. destruct (has (m_cmd msg) _); [step; step; by eexists|by eexists]. }
  match goal with |- context [mret (DMSG_IOQ_ERROR_EALREADY, p, ?m)] => destruct (Htc m eq_refl) as (t & Et) end.
  destruct (has (h_cmd hd) DMSGF_REPLY), (has (h_cmd hd) DMSGF_DELETE), (has (h_cmd hd) DMSGF_ABORT);
    cbn [orb andb]; try done; step; step_by ltac:(exact Et); cbn [set_m_tcmd m_state]; by rewrite Hneq.
Qed.

(** An abort that the code means to ignore (it is for an earlier transaction with the
    same id, since the other side has not answered this one) is not delivered, but it
    closes the receive direction of the new transaction; when the transmit direction was
    closed, the new transaction leaves its tree, so that the real answer finds no state. *)
Theorem dmsg_late_abort_closes addr io hd p s :
  ewf io None -> io_heap io !! p = Some s -> p ≠ state0 -> rb_of s = true -> opp_of s = false -> rx_of s = Init -> bounded io ->
  h_msgid hd = s_msgid s -> h_circuit hd = 0 -> has (h_cmd hd) DMSGF_REPLY = true ->
  has (h_cmd hd) DMSGF_REVTRANS = true -> 1 <= h_cmd hd .& DMSGF_SIZE -> has (h_cmd hd) DMSGF_CREATE = false ->
  has (h_cmd hd) DMSGF_DELETE = true -> has (h_cmd hd) DMSGF_ABORT = true ->
  exists io' s', dmsg_receive ErrorCheck addr hd io = Ok None io' /\ io_heap io' !! p = Some s' /\
    rx_of s' = Closed /\ tx_of s' = tx_of s /\ rb_of s' = negb (bool_decide (tx_of s = Closed)) /\
    statewr_tree io' !! s_msgid s = if bool_decide (tx_of s = Closed) then None else Some p.
Proof.
  intros Hw Hs Hp Hrb Hopp Hrx [Hb1 Hb2] Hid Hcirc Hrep Hrev Hsize Hcr Hdel Hab.
  destruct (w_root _ _ Hw) as (r & Hr & Hro & _ & Hrefs & _). pose proof (w_cell _ _ Hw p s Hs Hp) as Hci.
  pose proof (ci_cell _ _ _ _ Hci) as Hc. unfold cell in Hc. rewrite Hopp, Hrb, Hrx, (ci_inq _ _ _ _ Hci Hrb) in Hc.
  assert (statewr_tree io !! s_msgid s = Some p) as Ht by (apply (w_tree _ _ Hw false); eauto 10).
  pose proof (mrefs_bound (msgs (txmsgq io) None) p) as Hm. unfold msgs at 3 in Hm. rewrite app_nil_r in Hm.
  pose proof (empty_ref_range (s_subq r)) as He. pose proof (Hb1 r Hr) as Hb.
  destruct (receive_late_spec p (io_heap io) Hp ErrorCheck addr r s (staterd_tree io) (statewr_tree io) (txmsgq io) (dmsg_state_count io)
    _ _ _ _ _ hd Hc Hro ltac:(lia) ltac:(lia) Ht Hid Hcirc Hrep Hrev Hsize Hcr Hdel Hab) as (r' & s' & E & Hc' & _).
  rewrite <- (con_eta io p r s Hr Hs Hp (w_lock _ _ Hw)) in E.
  destruct (cell_of _ _ _ _ _ _ _ _ Hc') as (_ & _ & Hrb' & Htx' & Hrx' & _).
  eexists _, s'. split; [exact E|]. split; [by apply cells_p|]. split_and!; try done. cbn [statewr_tree].
  destruct (bool_decide (tx_of s = Closed)); [apply lookup_delete_eq|exact Ht].
Qed.

(** ** A run *)

(** The application of the example does nothing. *)
Definition idle : dmsg_msg -> prog iocom () := λ _, mret ().

Abbreviation idle_system := (reachable idle 0 ErrorCheck).
Definition fired (ev : event) (inw : list dmsg_hdr) (x : party) : party * list dmsg_hdr * list dmsg_hdr :=
  match fire idle 0 ErrorCheck ev inw x with Ok (inw, sent) x => (x, inw, sent) | Stop _ => (x, inw, []) end.
Definition next_a (ev : event) (sy : system) : system :=
  let '(x, inw, sent) := fired ev (sy_ba sy) (sy_a sy) in
  {| sy_a := x; sy_b := sy_b sy; sy_ab := sy_ab sy ++ sent; sy_ba := inw |}.
Definition next_b (ev : event) (sy : system) : system :=
  let '(x, inw, sent) := fired ev (sy_ab sy) (sy_b sy) in
  {| sy_a := sy_a sy; sy_b := x; sy_ab := inw; sy_ba := sy_ba sy ++ sent |}.

Lemma next_a_reachable ev sy : idle_system sy -> enabled ev (sy_a sy) (sy_ba sy) -> idle_system (next_a ev sy).
Proof.
  intros Hr Hen. pose proof (reachable_inv _ _ _ _ Hr) as (Hi & _).
  destruct (party_step idle 0 ErrorCheck ev _ _ _ _ Hen Hi) as (x & inw & sent & Hf & _).
  eapply rtc_r; [exact Hr|]. unfold next_a, fired. rewrite Hf. by eapply Step_a.
Qed.
Lemma next_b_reachable ev sy : idle_system sy -> enabled ev (sy_b sy) (sy_ab sy) -> idle_system (next_b ev sy).
Proof.
  intros Hr Hen. pose proof (reachable_inv _ _ _ _ Hr) as (Hi & _). apply pair_swap in Hi.
  destruct (party_step idle 0 ErrorCheck ev _ _ _ _ Hen Hi) as (x & inw & sent & Hf & _).
  eapply rtc_r; [exact Hr|]. unfold next_b, fired. rewrite Hf. by eapply Step_b.
Qed.

(** One side asks in a message that also closes its direction; the other answers and
    closes its own. *)
Definition ask : Z := DMSGF_CREATE .| DMSGF_DELETE .| 0x101.
Definition run1 : system := next_a (Create 2 0 ask NoFunc) system_init.
Definition run2 : system := next_a Transmit run1.
Definition run3 : system := next_b (Receive 5) run2.
Definition run4 : system := next_b (Send 5 (DMSG_LNK_ERROR .| DMSGF_REPLY .| DMSGF_DELETE) 0) run3.

Ltac concrete := vm_compute; first [reflexivity | discriminate | by intros []].
Ltac concrete_bounded :=
  split; [let r := fresh in let H := fresh in intros r H; vm_compute in H; injection H as <-; vm_compute; reflexivity|concrete].

Lemma ask_opening : opening ask.
Proof. by split_and!. Qed.
Lemma run1_reachable : idle_system run1.
Proof. apply next_a_reachable; [apply rtc_refl|]. split; [concrete|]. split; [apply ask_opening|concrete_bounded]. Qed.
Lemma run2_reachable : idle_system run2.
Proof. apply next_a_reachable; [apply run1_reachable|done]. Qed.
Lemma run2_receive : enabled (Receive 5) (sy_b run2) (sy_ab run2).
Proof. split; [concrete|]. split; [concrete|]. split; [concrete|concrete_bounded]. Qed.
Lemma run3_reachable : idle_system run3.
Proof. apply next_b_reachable; [apply run2_reachable|apply run2_receive]. Qed.
Lemma run4_reachable : idle_system run4.
Proof.
  apply next_b_reachable; [apply run3_reachable|].
  exists (default (initiated 5 5 0 0 NoFunc 0) (io_heap (pt_io (sy_b run3)) !! (5%positive))).
  split; [concrete|]. split; [done|]. split; [concrete|]. split; [split; concrete|]. split; [concrete|concrete_bounded].
Qed.

Lemma run1_ewf : ewf (pt_io (sy_a run1)) None.
Proof. exact (pi_x _ _ _ _ (proj1 (reachable_inv _ _ _ _ run1_reachable))). Qed.
Lemma run3_ewf : exists msg, pt_pend (sy_b run3) = Some msg /\ ewf (pt_io (sy_b run3)) (Some msg).
Proof.
  pose proof (pi_y _ _ _ _ (proj1 (reachable_inv _ _ _ _ run3_reachable))) as Hw.
  destruct (pt_pend (sy_b run3)) as [msg|] eqn:E; [by exists msg|]. by vm_compute in E.
Qed.

(** The states of the example. *)
Definition root_at (io : iocom) : dmsg_state := default (initiated 1 1 0 0 NoFunc 0) (io_heap io !! state0).
Definition state_at (io : iocom) (p : positive) : dmsg_state := default (initiated 1 1 0 0 NoFunc 0) (io_heap io !! p).

Lemma dmsg_transactions_safe_witness :
  enabled (Receive 5) (sy_b run2) (sy_ab run2) /\
  exists x inw sent, fire idle 0 ErrorCheck (Receive 5) (sy_ab run2) (sy_b run2) = Ok (inw, sent) x /\
    delivers (Receive 5) (sy_ab run2) x.
Proof.
  split; [apply run2_receive|]. destruct (dmsg_transactions_safe idle 0 ErrorCheck run2 (Receive 5) run2_reachable) as [_ H].
  apply H, run2_receive.
Defined.

Lemma dmsg_bookkeeping_exact_witness :
  ewf (pt_io (sy_b run4)) (pt_pend (sy_b run4)) /\ s_refs (root_at (pt_io (sy_b run4))) = 3.
Proof.
  destruct (dmsg_bookkeeping_exact idle 0 ErrorCheck run4 run4_reachable (sy_b run4) (or_intror eq_refl)) as [Hw (r & Hr & Hn)].
  split; [exact Hw|]. unfold root_at. rewrite Hr. vm_compute in Hr. injection Hr as <-. reflexivity.
Defined.


Lemma dmsg_receive_deadlocks_witness :
  exists msg, pt_pend (sy_b run3) = Some msg /\ dmsg_receive_done Normal msg (pt_io (sy_b run3)) = Stop Deadlock.
Proof. destruct run3_ewf as (msg & E & Hw). exists msg. split; [exact E|]. exact (dmsg_receive_deadlocks _ _ Hw). Defined.

Lemma dmsg_stacked_race_aborts_witness :
  dmsg_receive ErrorCheck 9 {| h_cmd := DMSG_LNK_ERROR .| DMSGF_ABORT .| DMSGF_DELETE .| DMSGF_REVCIRC; h_msgid := 77;
    h_circuit := 2; h_error := 0; h_aux_bytes := 0 |} (pt_io (sy_a run1)) = Stop AssertFail.
Proof.
  apply (dmsg_stacked_race_aborts _ _ _ _ 2 (state_at (pt_io (sy_a run1)) 2) (root_at (pt_io (sy_a run1))));
    [concrete|concrete|by split|split; concrete|done|concrete|done|concrete|concrete|concrete|concrete].
Defined.

Lemma dmsg_late_abort_closes_witness :
  let hd := {| h_cmd := DMSG_LNK_ERROR .| DMSGF_ABORT .| DMSGF_DELETE .| DMSGF_REPLY .| DMSGF_REVTRANS; h_msgid := 2;
    h_circuit := 0; h_error := 0; h_aux_bytes := 0 |} in
  exists io', dmsg_receive ErrorCheck 9 hd (pt_io (sy_a run1)) = Ok None io' /\ statewr_tree io' !! (2 : Z) = None.
Proof.
  intros hd.
  destruct (dmsg_late_abort_closes 9 (pt_io (sy_a run1)) hd 2 (state_at (pt_io (sy_a run1)) 2))
    as (io' & s' & E & _ & _ & _ & _ & Ht);
    [apply run1_ewf|concrete|done|concrete|concrete|concrete|concrete_bounded|concrete|done|concrete|concrete|concrete|concrete|concrete|concrete|].
  exists io'. split; [exact E|]. exact Ht.
Defined.
