(* ===== verification/DmsgFrame.v ===== *)
(** * DmsgFrame: messages on the wire

    From src/lib/libdmsg/msg.c and crypto.c: the two queues of a connection ([dmsg_ioq]),
    the FIFO of received bytes, the state machine of [dmsg_ioq_read] that finds the
    messages in it, [dmsg_iocom_flush1] and [dmsg_iocom_flush2], which write the queued
    messages, [dmsg_iocom_drain], and the loop of [dmsg_iocom_core].

    A connection [conn] is the transaction state of [Dmsg] with both queues, the flags and
    the socket.  What the socket does is data: a list of events, one for each call of
    [read] that does not leave a part of the event for the next call, and one for each
    [writev]; with no event left a call fails with [EAGAIN].  The message under
    construction is in [q_msg]; a pointer to it is a [bool], NULL or not.

    A read or write outside [ioq->buf] or a message's buffers is undefined behaviour. *)

From S2P Require Import Prelude CMonad Crc32 Layout ByteOrder Dmsg.

(** ** Constants *)

Definition DMSG_HDR_MAX : Z := 2048.
Definition DMSG_AUX_MAX : Z := 1024 * 1024.
Definition DMSG_BUF_SIZE : Z := DMSG_HDR_MAX * 4.
Definition DMSG_CRYPTO_CHUNK_SIZE : Z := DMSG_ALIGN.
Definition DMSG_IOQ_MAXIOVEC : Z := 16.

Definition DMSG_IOQ_ERROR_SYNC : Z := 1.
Definition DMSG_IOQ_ERROR_EOF : Z := 2.
Definition DMSG_IOQ_ERROR_SOCK : Z := 3.
Definition DMSG_IOQ_ERROR_FIELD : Z := 4.
Definition DMSG_IOQ_ERROR_XCRC : Z := 6.
Definition DMSG_IOQ_ERROR_ACRC : Z := 7.
Definition DMSG_IOQ_ERROR_MSGSEQ : Z := 15.
Definition DMSG_IOQ_ERROR_ALGO : Z := 20.

Definition DMSG_IOCOMF_EOF : Z := 0x0001.
Definition DMSG_IOCOMF_RREQ : Z := 0x0002.
Definition DMSG_IOCOMF_WREQ : Z := 0x0004.
Definition DMSG_IOCOMF_RWORK : Z := 0x0008.
Definition DMSG_IOCOMF_WWORK : Z := 0x0010.
Definition DMSG_IOCOMF_PWORK : Z := 0x0020.
Definition DMSG_IOCOMF_ARWORK : Z := 0x0040.
Definition DMSG_IOCOMF_AWWORK : Z := 0x0080.
Definition DMSG_IOCOMF_SWORK : Z := 0x0100.
Definition DMSG_IOCOMF_CRYPTED : Z := 0x0200.
Definition DMSG_IOCOMF_CLOSEALT : Z := 0x0400.

Definition EINTR : Z := 4.
Definition EAGAIN : Z := 11.
Definition EINPROGRESS : Z := 115.
(** The errors after which the call is made again later. *)
Definition again_errno (e : Z) : bool := bool_decide (e = EINTR) || bool_decide (e = EINPROGRESS) || bool_decide (e = EAGAIN).

(** ** The header *)

(** [bswap16], [bswap32], [bswap64] *)
Definition bswap (n : nat) (z : Z) : Z := of_be (le_bytes n z).

Record dmsg_hdr_t := {
  hd_magic : Z;
  hd_reserved02 : Z;
  hd_salt : Z;
  hd_msgid : Z;
  hd_circuit : Z;
  hd_link_verifier : Z;
  hd_cmd : Z;
  hd_aux_crc : Z;
  hd_aux_bytes : Z;
  hd_error : Z;
  hd_aux_descr : Z;
  hd_reserved38 : Z;
  hd_hdr_crc : Z;
}.

#[export, refine] Instance dmsg_hdr_ondisk : OnDisk dmsg_hdr_t := {
  widths := [2; 2; 4; 8; 8; 8; 4; 4; 4; 4; 8; 4; 4]%nat;
  chunks h := [le_bytes 2 (hd_magic h); le_bytes 2 (hd_reserved02 h); le_bytes 4 (hd_salt h); le_bytes 8 (hd_msgid h);
               le_bytes 8 (hd_circuit h); le_bytes 8 (hd_link_verifier h); le_bytes 4 (hd_cmd h);
               le_bytes 4 (hd_aux_crc h); le_bytes 4 (hd_aux_bytes h); le_bytes 4 (hd_error h);
               le_bytes 8 (hd_aux_descr h); le_bytes 4 (hd_reserved38 h); le_bytes 4 (hd_hdr_crc h)];
  of_chunks cs := match cs with
    | [a; b; c; d; e; f; g; h; i; j; k; l; m] =>
        {| hd_magic := of_le a; hd_reserved02 := of_le b; hd_salt := of_le c; hd_msgid := of_le d; hd_circuit := of_le e;
           hd_link_verifier := of_le f; hd_cmd := of_le g; hd_aux_crc := of_le h; hd_aux_bytes := of_le i;
           hd_error := of_le j; hd_aux_descr := of_le k; hd_reserved38 := of_le l; hd_hdr_crc := of_le m |}
    | _ => Build_dmsg_hdr_t 0 0 0 0 0 0 0 0 0 0 0 0 0
    end;
  valid h := in_u 16 (hd_magic h) /\ in_u 16 (hd_reserved02 h) /\ in_u 32 (hd_salt h) /\ in_u 64 (hd_msgid h) /\
    in_u 64 (hd_circuit h) /\ in_u 64 (hd_link_verifier h) /\ in_u 32 (hd_cmd h) /\ in_u 32 (hd_aux_crc h) /\
    in_u 32 (hd_aux_bytes h) /\ in_u 32 (hd_error h) /\ in_u 64 (hd_aux_descr h) /\ in_u 32 (hd_reserved38 h) /\
    in_u 32 (hd_hdr_crc h);
}.
Proof. all: ondisk_solve. Defined.

Definition dmsg_bswap_head (h : dmsg_hdr_t) : dmsg_hdr_t :=
  {| hd_magic := bswap 2 (hd_magic h); hd_reserved02 := bswap 2 (hd_reserved02 h); hd_salt := bswap 4 (hd_salt h);
     hd_msgid := bswap 8 (hd_msgid h); hd_circuit := bswap 8 (hd_circuit h);
     hd_link_verifier := bswap 8 (hd_link_verifier h); hd_cmd := bswap 4 (hd_cmd h);
     hd_aux_crc := bswap 4 (hd_aux_crc h); hd_aux_bytes := bswap 4 (hd_aux_bytes h); hd_error := bswap 4 (hd_error h);
     hd_aux_descr := bswap 8 (hd_aux_descr h); hd_reserved38 := bswap 4 (hd_reserved38 h);
     hd_hdr_crc := bswap 4 (hd_hdr_crc h) |}.

Definition set_w_magic (v : Z) (w : dmsg_wire) : dmsg_wire :=
  {| w_magic := v; w_reserved02 := w_reserved02 w; w_salt := w_salt w;
     w_link_verifier := w_link_verifier w; w_aux_crc := w_aux_crc w; w_aux_bytes := w_aux_bytes w;
     w_aux_descr := w_aux_descr w; w_reserved38 := w_reserved38 w; w_hdr_crc := w_hdr_crc w;
     w_ext := w_ext w; w_aux_alloc := w_aux_alloc w; w_aux_data := w_aux_data w |}.
Definition set_w_salt (v : Z) (w : dmsg_wire) : dmsg_wire :=
  {| w_magic := w_magic w; w_reserved02 := w_reserved02 w; w_salt := v;
     w_link_verifier := w_link_verifier w; w_aux_crc := w_aux_crc w; w_aux_bytes := w_aux_bytes w;
     w_aux_descr := w_aux_descr w; w_reserved38 := w_reserved38 w; w_hdr_crc := w_hdr_crc w;
     w_ext := w_ext w; w_aux_alloc := w_aux_alloc w; w_aux_data := w_aux_data w |}.
Definition set_w_aux_crc (v : Z) (w : dmsg_wire) : dmsg_wire :=
  {| w_magic := w_magic w; w_reserved02 := w_reserved02 w; w_salt := w_salt w;
     w_link_verifier := w_link_verifier w; w_aux_crc := v; w_aux_bytes := w_aux_bytes w;
     w_aux_descr := w_aux_descr w; w_reserved38 := w_reserved38 w; w_hdr_crc := w_hdr_crc w;
     w_ext := w_ext w; w_aux_alloc := w_aux_alloc w; w_aux_data := w_aux_data w |}.
Definition set_w_aux_bytes (v : Z) (w : dmsg_wire) : dmsg_wire :=
  {| w_magic := w_magic w; w_reserved02 := w_reserved02 w; w_salt := w_salt w;
     w_link_verifier := w_link_verifier w; w_aux_crc := w_aux_crc w; w_aux_bytes := v;
     w_aux_descr := w_aux_descr w; w_reserved38 := w_reserved38 w; w_hdr_crc := w_hdr_crc w;
     w_ext := w_ext w; w_aux_alloc := w_aux_alloc w; w_aux_data := w_aux_data w |}.
Definition set_w_hdr_crc (v : Z) (w : dmsg_wire) : dmsg_wire :=
  {| w_magic := w_magic w; w_reserved02 := w_reserved02 w; w_salt := w_salt w;
     w_link_verifier := w_link_verifier w; w_aux_crc := w_aux_crc w; w_aux_bytes := w_aux_bytes w;
     w_aux_descr := w_aux_descr w; w_reserved38 := w_reserved38 w; w_hdr_crc := v; w_ext := w_ext w;
     w_aux_alloc := w_aux_alloc w; w_aux_data := w_aux_data w |}.
Definition set_w_aux_data (v : bytes) (w : dmsg_wire) : dmsg_wire :=
  {| w_magic := w_magic w; w_reserved02 := w_reserved02 w; w_salt := w_salt w;
     w_link_verifier := w_link_verifier w; w_aux_crc := w_aux_crc w; w_aux_bytes := w_aux_bytes w;
     w_aux_descr := w_aux_descr w; w_reserved38 := w_reserved38 w; w_hdr_crc := w_hdr_crc w;
     w_ext := w_ext w; w_aux_alloc := w_aux_alloc w; w_aux_data := v |}.

Definition set_m_aux_size (v : Z) (m : dmsg_msg) : dmsg_msg :=
  {| m_state := m_state m; m_cmd := m_cmd m; m_msgid := m_msgid m; m_circuit := m_circuit m; m_error := m_error m;
     m_tcmd := m_tcmd m; m_aux_size := v; m_wire := m_wire m |}.
Definition set_m_wire (v : dmsg_wire) (m : dmsg_msg) : dmsg_msg :=
  {| m_state := m_state m; m_cmd := m_cmd m; m_msgid := m_msgid m; m_circuit := m_circuit m; m_error := m_error m;
     m_tcmd := m_tcmd m; m_aux_size := m_aux_size m; m_wire := v |}.
Definition upd_wire (f : dmsg_wire -> dmsg_wire) (m : dmsg_msg) : dmsg_msg := set_m_wire (f (m_wire m)) m.

(** [msg->any.head], and [msg->any] as bytes. *)
Definition any_head (m : dmsg_msg) : dmsg_hdr_t :=
  let w := m_wire m in
  {| hd_magic := w_magic w; hd_reserved02 := w_reserved02 w; hd_salt := w_salt w; hd_msgid := m_msgid m;
     hd_circuit := m_circuit m; hd_link_verifier := w_link_verifier w; hd_cmd := m_cmd m; hd_aux_crc := w_aux_crc w;
     hd_aux_bytes := w_aux_bytes w; hd_error := m_error m; hd_aux_descr := w_aux_descr w;
     hd_reserved38 := w_reserved38 w; hd_hdr_crc := w_hdr_crc w |}.
Definition any_bytes (m : dmsg_msg) : bytes := encode (any_head m) ++ w_ext (m_wire m).

(** [bcopy(head, &msg->any, hbytes)] *)
Definition load_any (bs : bytes) (m : dmsg_msg) : dmsg_msg :=
  let h := decode bs in
  {| m_state := m_state m; m_cmd := hd_cmd h; m_msgid := hd_msgid h; m_circuit := hd_circuit h; m_error := hd_error h;
     m_tcmd := m_tcmd m; m_aux_size := m_aux_size m;
     m_wire := {| w_magic := hd_magic h; w_reserved02 := hd_reserved02 h; w_salt := hd_salt h;
                  w_link_verifier := hd_link_verifier h; w_aux_crc := hd_aux_crc h; w_aux_bytes := hd_aux_bytes h;
                  w_aux_descr := hd_aux_descr h; w_reserved38 := hd_reserved38 h; w_hdr_crc := hd_hdr_crc h;
                  w_ext := drop 64 bs; w_aux_alloc := w_aux_alloc (m_wire m); w_aux_data := w_aux_data (m_wire m) |} |}.

(** ** Queues and connections *)

Inductive ioq_state :=
  | DMSG_MSGQ_STATE_HEADER1
  | DMSG_MSGQ_STATE_HEADER2
  | DMSG_MSGQ_STATE_AUXDATA1
  | DMSG_MSGQ_STATE_AUXDATA2
  | DMSG_MSGQ_STATE_ERROR.

Record dmsg_ioq := {
  q_state : ioq_state;
  fifo_beg : Z;
  fifo_cdx : Z;
  fifo_cdn : Z;
  fifo_end : Z;
  q_hbytes : Z;
  q_abytes : Z;
  unaligned_aux_size : Z;
  q_error : Z;
  q_seq : Z;
  q_msgcount : Z;
  q_msg : option dmsg_msg;
  q_msgq : list dmsg_msg;
  q_buf : bytes;
}.

(** What a call of [read] or [writev] meets: bytes that have arrived, the end of the
    stream, or an error; room for a number of bytes, or an error. *)
Inductive rd_event := Arrived (bs : bytes) | Eof | RdErr (errno : Z).
Inductive wr_event := Room (n : nat) | WrErr (errno : Z).

Record conn := {
  c_io : iocom;
  c_flags : Z;
  c_rx : dmsg_ioq;
  c_tx : dmsg_ioq;
  c_in : list rd_event;
  c_out : list wr_event;
  c_sent : bytes;
}.
Abbreviation C := (prog conn).
Abbreviation Q := (prog dmsg_ioq).

Definition set_q_state (v : ioq_state) (q : dmsg_ioq) : dmsg_ioq :=
  {| q_state := v; fifo_beg := fifo_beg q; fifo_cdx := fifo_cdx q; fifo_cdn := fifo_cdn q;
     fifo_end := fifo_end q; q_hbytes := q_hbytes q; q_abytes := q_abytes q;
     unaligned_aux_size := unaligned_aux_size q; q_error := q_error q; q_seq := q_seq q;
     q_msgcount := q_msgcount q; q_msg := q_msg q; q_msgq := q_msgq q; q_buf := q_buf q |}.
Definition set_fifo_beg (v : Z) (q : dmsg_ioq) : dmsg_ioq :=
  {| q_state := q_state q; fifo_beg := v; fifo_cdx := fifo_cdx q; fifo_cdn := fifo_cdn q;
     fifo_end := fifo_end q; q_hbytes := q_hbytes q; q_abytes := q_abytes q;
     unaligned_aux_size := unaligned_aux_size q; q_error := q_error q; q_seq := q_seq q;
     q_msgcount := q_msgcount q; q_msg := q_msg q; q_msgq := q_msgq q; q_buf := q_buf q |}.
Definition set_fifo_cdx (v : Z) (q : dmsg_ioq) : dmsg_ioq :=
  {| q_state := q_state q; fifo_beg := fifo_beg q; fifo_cdx := v; fifo_cdn := fifo_cdn q;
     fifo_end := fifo_end q; q_hbytes := q_hbytes q; q_abytes := q_abytes q;
     unaligned_aux_size := unaligned_aux_size q; q_error := q_error q; q_seq := q_seq q;
     q_msgcount := q_msgcount q; q_msg := q_msg q; q_msgq := q_msgq q; q_buf := q_buf q |}.
Definition set_fifo_cdn (v : Z) (q : dmsg_ioq) : dmsg_ioq :=
  {| q_state := q_state q; fifo_beg := fifo_beg q; fifo_cdx := fifo_cdx q; fifo_cdn := v;
     fifo_end := fifo_end q; q_hbytes := q_hbytes q; q_abytes := q_abytes q;
     unaligned_aux_size := unaligned_aux_size q; q_error := q_error q; q_seq := q_seq q;
     q_msgcount := q_msgcount q; q_msg := q_msg q; q_msgq := q_msgq q; q_buf := q_buf q |}.
Definition set_fifo_end (v : Z) (q : dmsg_ioq) : dmsg_ioq :=
  {| q_state := q_state q; fifo_beg := fifo_beg q; fifo_cdx := fifo_cdx q; fifo_cdn := fifo_cdn q;
     fifo_end := v; q_hbytes := q_hbytes q; q_abytes := q_abytes q;
     unaligned_aux_size := unaligned_aux_size q; q_error := q_error q; q_seq := q_seq q;
     q_msgcount := q_msgcount q; q_msg := q_msg q; q_msgq := q_msgq q; q_buf := q_buf q |}.
Definition set_q_hbytes (v : Z) (q : dmsg_ioq) : dmsg_ioq :=
  {| q_state := q_state q; fifo_beg := fifo_beg q; fifo_cdx := fifo_cdx q; fifo_cdn := fifo_cdn q;
     fifo_end := fifo_end q; q_hbytes := v; q_abytes := q_abytes q;
     unaligned_aux_size := unaligned_aux_size q; q_error := q_error q; q_seq := q_seq q;
     q_msgcount := q_msgcount q; q_msg := q_msg q; q_msgq := q_msgq q; q_buf := q_buf q |}.
Definition set_q_abytes (v : Z) (q : dmsg_ioq) : dmsg_ioq :=
  {| q_state := q_state q; fifo_beg := fifo_beg q; fifo_cdx := fifo_cdx q; fifo_cdn := fifo_cdn q;
     fifo_end := fifo_end q; q_hbytes := q_hbytes q; q_abytes := v;
     unaligned_aux_size := unaligned_aux_size q; q_error := q_error q; q_seq := q_seq q;
     q_msgcount := q_msgcount q; q_msg := q_msg q; q_msgq := q_msgq q; q_buf := q_buf q |}.
Definition set_unaligned_aux_size (v : Z) (q : dmsg_ioq) : dmsg_ioq :=
  {| q_state := q_state q; fifo_beg := fifo_beg q; fifo_cdx := fifo_cdx q; fifo_cdn := fifo_cdn q;
     fifo_end := fifo_end q; q_hbytes := q_hbytes q; q_abytes := q_abytes q; unaligned_aux_size := v;
     q_error := q_error q; q_seq := q_seq q; q_msgcount := q_msgcount q; q_msg := q_msg q;
     q_msgq := q_msgq q; q_buf := q_buf q |}.
Definition set_q_error (v : Z) (q : dmsg_ioq) : dmsg_ioq :=
  {| q_state := q_state q; fifo_beg := fifo_beg q; fifo_cdx := fifo_cdx q; fifo_cdn := fifo_cdn q;
     fifo_end := fifo_end q; q_hbytes := q_hbytes q; q_abytes := q_abytes q;
     unaligned_aux_size := unaligned_aux_size q; q_error := v; q_seq := q_seq q;
     q_msgcount := q_msgcount q; q_msg := q_msg q; q_msgq := q_msgq q; q_buf := q_buf q |}.
Definition set_q_seq (v : Z) (q : dmsg_ioq) : dmsg_ioq :=
  {| q_state := q_state q; fifo_beg := fifo_beg q; fifo_cdx := fifo_cdx q; fifo_cdn := fifo_cdn q;
     fifo_end := fifo_end q; q_hbytes := q_hbytes q; q_abytes := q_abytes q;
     unaligned_aux_size := unaligned_aux_size q; q_error := q_error q; q_seq := v;
     q_msgcount := q_msgcount q; q_msg := q_msg q; q_msgq := q_msgq q; q_buf := q_buf q |}.
Definition set_q_msgcount (v : Z) (q : dmsg_ioq) : dmsg_ioq :=
  {| q_state := q_state q; fifo_beg := fifo_beg q; fifo_cdx := fifo_cdx q; fifo_cdn := fifo_cdn q;
     fifo_end := fifo_end q; q_hbytes := q_hbytes q; q_abytes := q_abytes q;
     unaligned_aux_size := unaligned_aux_size q; q_error := q_error q; q_seq := q_seq q;
     q_msgcount := v; q_msg := q_msg q; q_msgq := q_msgq q; q_buf := q_buf q |}.
Definition set_q_msg (v : option dmsg_msg) (q : dmsg_ioq) : dmsg_ioq :=
  {| q_state := q_state q; fifo_beg := fifo_beg q; fifo_cdx := fifo_cdx q; fifo_cdn := fifo_cdn q;
     fifo_end := fifo_end q; q_hbytes := q_hbytes q; q_abytes := q_abytes q;
     unaligned_aux_size := unaligned_aux_size q; q_error := q_error q; q_seq := q_seq q;
     q_msgcount := q_msgcount q; q_msg := v; q_msgq := q_msgq q; q_buf := q_buf q |}.
Definition set_q_msgq (v : list dmsg_msg) (q : dmsg_ioq) : dmsg_ioq :=
  {| q_state := q_state q; fifo_beg := fifo_beg q; fifo_cdx := fifo_cdx q; fifo_cdn := fifo_cdn q;
     fifo_end := fifo_end q; q_hbytes := q_hbytes q; q_abytes := q_abytes q;
     unaligned_aux_size := unaligned_aux_size q; q_error := q_error q; q_seq := q_seq q;
     q_msgcount := q_msgcount q; q_msg := q_msg q; q_msgq := v; q_buf := q_buf q |}.
Definition set_q_buf (v : bytes) (q : dmsg_ioq) : dmsg_ioq :=
  {| q_state := q_state q; fifo_beg := fifo_beg q; fifo_cdx := fifo_cdx q; fifo_cdn := fifo_cdn q;
     fifo_end := fifo_end q; q_hbytes := q_hbytes q; q_abytes := q_abytes q;
     unaligned_aux_size := unaligned_aux_size q; q_error := q_error q; q_seq := q_seq q;
     q_msgcount := q_msgcount q; q_msg := q_msg q; q_msgq := q_msgq q; q_buf := v |}.

Definition set_c_io (v : iocom) (c : conn) : conn :=
  {| c_io := v; c_flags := c_flags c; c_rx := c_rx c; c_tx := c_tx c; c_in := c_in c; c_out := c_out c;
     c_sent := c_sent c |}.
Definition set_c_flags (v : Z) (c : conn) : conn :=
  {| c_io := c_io c; c_flags := v; c_rx := c_rx c; c_tx := c_tx c; c_in := c_in c; c_out := c_out c;
     c_sent := c_sent c |}.
Definition set_c_rx (v : dmsg_ioq) (c : conn) : conn :=
  {| c_io := c_io c; c_flags := c_flags c; c_rx := v; c_tx := c_tx c; c_in := c_in c; c_out := c_out c;
     c_sent := c_sent c |}.
Definition set_c_tx (v : dmsg_ioq) (c : conn) : conn :=
  {| c_io := c_io c; c_flags := c_flags c; c_rx := c_rx c; c_tx := v; c_in := c_in c; c_out := c_out c;
     c_sent := c_sent c |}.
Definition set_c_in (v : list rd_event) (c : conn) : conn :=
  {| c_io := c_io c; c_flags := c_flags c; c_rx := c_rx c; c_tx := c_tx c; c_in := v; c_out := c_out c;
     c_sent := c_sent c |}.
Definition set_c_out (v : list wr_event) (c : conn) : conn :=
  {| c_io := c_io c; c_flags := c_flags c; c_rx := c_rx c; c_tx := c_tx c; c_in := c_in c; c_out := v;
     c_sent := c_sent c |}.
Definition set_c_sent (v : bytes) (c : conn) : conn :=
  {| c_io := c_io c; c_flags := c_flags c; c_rx := c_rx c; c_tx := c_tx c; c_in := c_in c;
     c_out := c_out c; c_sent := v |}.

(** Programs on a part of the connection. *)
Definition on_io {A} (m : prog iocom A) : C A := λ c,
  match m (c_io c) with Ok a io => Ok a (set_c_io io c) | Stop e => Stop e end.
Definition on_rx {A} (m : Q A) : C A := λ c,
  match m (c_rx c) with Ok a q => Ok a (set_c_rx q c) | Stop e => Stop e end.
Definition on_tx {A} (m : Q A) : C A := λ c,
  match m (c_tx c) with Ok a q => Ok a (set_c_tx q c) | Stop e => Stop e end.
Definition set_flag (f : Z) : C () := modify (λ c, set_c_flags (c_flags c .| f) c).
Definition clear_flag (f : Z) : C () := modify (λ c, set_c_flags (clear (c_flags c) f) c).

Definition dmsg_ioq_init : dmsg_ioq :=
  {| q_state := DMSG_MSGQ_STATE_HEADER1; fifo_beg := 0; fifo_cdx := 0; fifo_cdn := 0; fifo_end := 0; q_hbytes := 0;
     q_abytes := 0; unaligned_aux_size := 0; q_error := 0; q_seq := 0; q_msgcount := 0; q_msg := None; q_msgq := [];
     q_buf := replicate (Z.to_nat DMSG_BUF_SIZE) 0 |}.

(** ** The FIFO *)

(** [n] bytes at offset [off] of a buffer. *)
Definition sub_bytes (bs : bytes) (off n : Z) : option bytes :=
  if bool_decide (0 <= off /\ 0 <= n /\ off + n <= Z.of_nat (length bs))
  then Some (take (Z.to_nat n) (drop (Z.to_nat off) bs)) else None.

Definition buf_read (off n : Z) : Q bytes := q ← get_state; deref (sub_bytes (q_buf q) off n).
Definition buf_write (off : Z) (bs : bytes) : Q () :=
  q ← get_state;
  if bool_decide (0 <= off /\ off + Z.of_nat (length bs) <= DMSG_BUF_SIZE)
  then modify (set_q_buf (splice (q_buf q) (Z.to_nat off) bs)) else stop_with Undef.
(** [bcopy] within the buffer; the areas may overlap. *)
Definition bcopy (src dst n : Z) : Q () := bs ← buf_read src n; buf_write dst bs.

Definition dmsg_ioq_makeroom (needed : Z) : Q Z :=
  q ← get_state;
  let bytes := u64 (fifo_cdx q - fifo_beg q) in
  let nmax := u64 (DMSG_BUF_SIZE - fifo_end q) in
  if bool_decide (bytes + nmax / 2 < needed) then
    when (bool_decide (bytes ≠ 0)) (bcopy (fifo_beg q) 0 bytes);;
    modify (λ q, set_fifo_cdx (u64 (fifo_cdx q - fifo_beg q)) q);;
    modify (set_fifo_beg 0);;
    q ← get_state;
    when (bool_decide (fifo_cdn q < fifo_end q)) (bcopy (fifo_cdn q) (fifo_cdx q) (fifo_end q - fifo_cdn q));;
    modify (λ q, set_fifo_end (u64 (fifo_end q - (fifo_cdn q - fifo_cdx q))) q);;
    modify (λ q, set_fifo_cdn (fifo_cdx q) q);;
    q ← get_state;
    mret (u64 (DMSG_BUF_SIZE - fifo_end q))
  else mret nmax.

(** ** Encryption

    The calls that set the IV of a chunk are commented out and replaced by a failure, so
    that the rest of the two functions is not reached: they return the error and the
    number of bytes, 0. *)

Definition dmsg_crypto_gcm_decrypt_chunk : Q (Z * Z) := modify (set_q_error DMSG_IOQ_ERROR_ALGO);; mret (-1, 0).
Definition dmsg_crypto_gcm_encrypt_chunk : Q (Z * Z) := modify (set_q_error DMSG_IOQ_ERROR_ALGO);; mret (-1, 0).

(** The fuel bounds the number of chunks. *)
Fixpoint decrypt_chunks (fuel : nat) (p_len : Z) : Q () :=
  match fuel with
  | O => stop_with OutOfFuel
  | S fuel =>
      if bool_decide (DMSG_CRYPTO_CHUNK_SIZE <= p_len) then
        q ← get_state;
        buf_read (fifo_cdn q) DMSG_CRYPTO_CHUNK_SIZE;;
        r ← dmsg_crypto_gcm_decrypt_chunk;
        let used := snd r in
        modify (λ q, set_fifo_cdn (fifo_cdn q + used) q);;
        modify (λ q, set_fifo_cdx (u64 (fifo_cdx q + DMSG_CRYPTO_CHUNK_SIZE)) q);;
        decrypt_chunks fuel (p_len - used)
      else mret ()
  end.
Definition dmsg_crypto_decrypt (fuel : nat) : Q () :=
  q ← get_state;
  let p_len := fifo_end q - fifo_cdn q in
  if bool_decide (p_len = 0) then mret () else decrypt_chunks fuel p_len.

(** One element of the vector: the plaintext taken so far and the room left. *)
Fixpoint encrypt_chunks (fuel : nat) (p_len nmax nact : Z) : Q (Z * Z) :=
  match fuel with
  | O => stop_with OutOfFuel
  | S fuel =>
      if bool_decide (DMSG_CRYPTO_CHUNK_SIZE <= p_len) && bool_decide (DMSG_CRYPTO_CHUNK_SIZE <= nmax) then
        r ← dmsg_crypto_gcm_encrypt_chunk;
        let ct_used := snd r in
        modify (λ q, set_fifo_cdx (fifo_cdx q + ct_used) q);;
        modify (λ q, set_fifo_cdn (fifo_cdn q + ct_used) q);;
        modify (λ q, set_fifo_end (fifo_end q + ct_used) q);;
        encrypt_chunks fuel (p_len - DMSG_CRYPTO_CHUNK_SIZE) (nmax - ct_used) (nact + DMSG_CRYPTO_CHUNK_SIZE)
      else mret (nact, nmax)
  end.
Fixpoint encrypt_iov (iov : list bytes) (nmax nact : Z) : Q Z :=
  match iov with
  | [] => mret nact
  | v :: iov =>
      if bool_decide (nmax = 0) then mret nact
      else
        assertp (bool_decide (Z.of_nat (length v) .& DMSG_ALIGNMASK = 0));;
        r ← encrypt_chunks (S (length v)) (Z.of_nat (length v)) nmax nact;
        encrypt_iov iov (snd r) (fst r)
  end.
(** The bytes to write, and the number of plaintext bytes taken. *)
Definition dmsg_crypto_encrypt (iov : list bytes) : Q (bytes * Z) :=
  q ← get_state;
  nact ← encrypt_iov iov (u64 (DMSG_BUF_SIZE - fifo_end q)) 0;
  q ← get_state;
  out ← buf_read (fifo_beg q) (fifo_cdx q - fifo_beg q);
  mret (out, nact).

(** ** System calls *)

(** [read(sock_fd, ioq->buf + fifo_end, nmax)]: the number of bytes or the error. *)
Definition sock_read (nmax : Z) : C (Z + Z) :=
  c ← get_state;
  let off := fifo_end (c_rx c) in
  if bool_decide (DMSG_BUF_SIZE < off + nmax) then stop_with Undef
  else
    match c_in c with
    | [] => mret (inr EAGAIN)
    | Eof :: _ => mret (inl 0)
    | RdErr e :: evs => modify (set_c_in evs);; mret (inr e)
    | Arrived bs :: evs =>
        let got := take (Z.to_nat nmax) bs in
        modify (set_c_in (if bool_decide (length got = length bs) then evs
                          else Arrived (drop (Z.to_nat nmax) bs) :: evs));;
        on_rx (buf_write off got);;
        mret (inl (Z.of_nat (length got)))
    end.

(** [writev]: the bytes that fit are sent. *)
Definition sock_write (bs : bytes) : C (Z + Z) :=
  c ← get_state;
  match c_out c with
  | [] => mret (inr EAGAIN)
  | WrErr e :: evs => modify (set_c_out evs);; mret (inr e)
  | Room n :: evs =>
      let got := take n bs in
      modify (set_c_out evs);;
      modify (set_c_sent (c_sent c ++ got));;
      mret (inl (Z.of_nat (length got)))
  end.

Definition dmsg_icrc32 {S} (addr : Z) (bs : bytes) (size : Z) : prog S Z := deref (iscsi_crc32 addr bs size).

(** ** Reading

    [mtx], [cb] and [fuel] are those of [Dmsg]; [dfuel] bounds the chunks to decrypt;
    [buf_addr] and [aux_addr] are the addresses of [ioq->buf] and of the auxiliary data. *)
Section frame.
Context (mtx : mutex_kind) (cb : dmsg_msg -> prog iocom ()) (fuel dfuel : nat) (buf_addr aux_addr : Z).

Definition get_rx : C dmsg_ioq := c ← get_state; mret (c_rx c).
Definition set_error (e : Z) : C () := on_rx (modify (set_q_error e)).

(** The call of [read] of the states HEADER1, HEADER2 and AUXDATA2; [true] when the code
    leaves the switch. *)
Definition ioq_fill (nmax : Z) : C bool :=
  n ← sock_read nmax;
  match n with
  | inl n =>
      if bool_decide (n = 0) then set_error DMSG_IOQ_ERROR_EOF;; mret true
      else on_rx (modify (λ q, set_fifo_end (fifo_end q + n) q));; mret false
  | inr errno => if again_errno errno then mret false else set_error DMSG_IOQ_ERROR_SOCK;; mret true
  end.

(** "Decrypt data received so far": the number of bytes that are ready. *)
Definition ioq_decrypt : C Z :=
  c ← get_state;
  (if has (c_flags c) DMSG_IOCOMF_CRYPTED then on_rx (dmsg_crypto_decrypt dfuel)
   else on_rx (modify (λ q, set_fifo_cdn (fifo_end q) (set_fifo_cdx (fifo_end q) q))));;
  q ← get_rx;
  mret (u64 (fifo_cdx q - fifo_beg q)).

(** "Read and decrypt more": the bytes that are ready, or [None] when the code leaves the
    switch. *)
Definition ioq_more (need : bool) (nmax : Z) : C (option Z) :=
  brk ← (if need then ioq_fill nmax else mret false);
  if (brk : bool) then mret None else bytes ← ioq_decrypt; mret (Some bytes).

(** The message under construction, which must exist. *)
Definition the_msg : C dmsg_msg := q ← get_rx; deref (q_msg q).
Definition put_msg (m : dmsg_msg) : C () := on_rx (modify (set_q_msg (Some m))).

(** [bcopy(ioq->buf + ioq->fifo_beg, msg->aux_data + off, n)] *)
Definition aux_store (off n : Z) : C () :=
  q ← get_rx;
  bs ← on_rx (buf_read (fifo_beg q) n);
  m ← the_msg;
  if bool_decide (0 <= off <= Z.of_nat (length (w_aux_data (m_wire m))) /\ off + n <= w_aux_alloc (m_wire m))
  then put_msg (upd_wire (set_w_aux_data (take (Z.to_nat off) (w_aux_data (m_wire m)) ++ bs)) m)
  else stop_with Undef.
Definition advance (n : Z) : C () := on_rx (modify (λ q, set_fifo_beg (fifo_beg q + n) q)).

(** The states below return the pointer [msg] at the end of the switch: [true] when it is
    [ioq->msg], [false] when it is NULL.  A state falls through to the next one by calling
    it. *)
Definition ioq_auxdata2 (msg : bool) (bytes : Z) : C bool :=
  assertp msg;;
  q ← get_rx;
  m ← the_msg;
  nmax ← on_rx (dmsg_ioq_makeroom (u64 (q_abytes q - m_aux_size m)));
  let need := bool_decide (m_aux_size m < q_abytes q) in
  when need (assertp (bool_decide (0 < nmax));; assertp (bool_decide (bytes = 0)));;
  r ← ioq_more need nmax;
  match r with
  | None => mret msg
  | Some bytes =>
    let left := u64 (q_abytes q - m_aux_size m) in
    let bytes := if bool_decide (left < bytes) then left else bytes in
    when (bool_decide (bytes ≠ 0))
      (aux_store (m_aux_size m) bytes;;
       m ← the_msg;
       put_msg (set_m_aux_size (m_aux_size m + bytes) m);;
       advance bytes);;
    m ← the_msg;
    if bool_decide (m_aux_size m < q_abytes q) then mret false
    else
      assertp (bool_decide (m_aux_size m = q_abytes q));;
      put_msg (set_m_aux_size (unaligned_aux_size q) m);;
      xcrc32 ← dmsg_icrc32 aux_addr (w_aux_data (m_wire m)) (q_abytes q);
      when (bool_decide (xcrc32 ≠ w_aux_crc (m_wire m))) (set_error DMSG_IOQ_ERROR_ACRC);;
      mret msg
  end.

Definition ioq_auxdata1 (msg : bool) (bytes : Z) : C bool :=
  q ← get_rx;
  m ← the_msg;
  bytes ← (if bool_decide (q_abytes q <= bytes) then
             aux_store 0 (q_abytes q);;
             m ← the_msg;
             put_msg (set_m_aux_size (q_abytes q) m);;
             advance (q_abytes q);;
             q' ← get_rx;
             assertp (bool_decide (fifo_beg q' <= fifo_cdx q'));;
             assertp (bool_decide (fifo_cdx q' <= fifo_cdn q'));;
             mret (bytes - q_abytes q)
           else if bool_decide (bytes ≠ 0) then
             aux_store 0 bytes;;
             m ← the_msg;
             put_msg (set_m_aux_size bytes m);;
             advance bytes;;
             on_rx (modify (λ q, if bool_decide (fifo_cdx q < fifo_beg q) then set_fifo_cdx (fifo_beg q) q else q));;
             q' ← get_rx;
             assertp (bool_decide (fifo_beg q' <= fifo_cdx q'));;
             assertp (bool_decide (fifo_cdx q' <= fifo_cdn q'));;
             mret 0
           else put_msg (set_m_aux_size 0 m);; mret bytes);
  on_rx (modify (set_q_state DMSG_MSGQ_STATE_AUXDATA2));;
  ioq_auxdata2 msg bytes.

Definition ioq_header2 (msg : bool) (bytes nmax : Z) : C bool :=
  assertp msg;;
  q ← get_rx;
  let need := bool_decide (bytes < q_hbytes q) in
  when need (assertp (bool_decide (0 < nmax)));;
  r ← ioq_more need nmax;
  match r with
  | None => mret msg
  | Some bytes =>
    q ← get_rx;
    let beg := fifo_beg q in
    if bool_decide (bytes < q_hbytes q) then mret false
    else
      bs ← on_rx (buf_read beg (q_hbytes q));
      let head : dmsg_hdr_t := decode bs in
      let rev := bool_decide (hd_magic head = DMSG_HDR_MAGIC_REV) in
      let xcrc32 := if rev then bswap 4 (hd_hdr_crc head) else hd_hdr_crc head in
      on_rx (buf_write (beg + 60) (le_bytes 4 0));;
      bs ← on_rx (buf_read beg (q_hbytes q));
      crc ← dmsg_icrc32 (buf_addr + beg) bs (q_hbytes q);
      if bool_decide (crc ≠ xcrc32) then set_error DMSG_IOQ_ERROR_XCRC;; stop_with AssertFail
      else
        on_rx (buf_write (beg + 60) (le_bytes 4 xcrc32));;
        when rev
          (bs ← on_rx (buf_read beg 64);
           on_rx (buf_write beg (encode (dmsg_bswap_head (decode bs)))));;
        bs ← on_rx (buf_read beg (q_hbytes q));
        m ← the_msg;
        put_msg (load_any bs m);;
        advance (q_hbytes q);;
        if bool_decide (q_abytes q = 0) then mret msg
        else
          on_rx (modify (set_q_state DMSG_MSGQ_STATE_AUXDATA1));;
          ioq_auxdata1 msg (bytes - q_hbytes q)
  end.

Definition ioq_header1 (msg : bool) (bytes : Z) : C bool :=
  nmax ← on_rx (dmsg_ioq_makeroom 64);
  r ← ioq_more (bool_decide (bytes < 64)) nmax;
  match r with
  | None => mret msg
  | Some bytes =>
    assertp (negb msg);;
    if bool_decide (bytes < 64) then mret false
    else
      q ← get_rx;
      bs ← on_rx (buf_read (fifo_beg q) 64);
      let head : dmsg_hdr_t := decode bs in
      let rev := bool_decide (hd_magic head = DMSG_HDR_MAGIC_REV) in
      if bool_decide (hd_magic head ≠ DMSG_HDR_MAGIC) && negb rev then set_error DMSG_IOQ_ERROR_SYNC;; mret false
      else
        let hbytes := ((if rev then bswap 4 (hd_cmd head) else hd_cmd head) .& DMSGF_SIZE) * DMSG_ALIGN in
        let aux_size := if rev then bswap 4 (hd_aux_bytes head) else hd_aux_bytes head in
        let abytes := DMSG_DOALIGN 32 aux_size in
        on_rx (modify (λ q, set_unaligned_aux_size aux_size (set_q_abytes abytes (set_q_hbytes hbytes q))));;
        if bool_decide (hbytes < 64) || bool_decide (DMSG_HDR_MAX < hbytes) || bool_decide (DMSG_AUX_MAX < abytes)
        then set_error DMSG_IOQ_ERROR_FIELD;; mret false
        else
          m ← on_io (dmsg_msg_alloc mtx no_addr state0 aux_size (hbytes / DMSG_ALIGN) NoFunc 0);
          put_msg m;;
          nmax ← on_rx (dmsg_ioq_makeroom hbytes);
          on_rx (modify (set_q_state DMSG_MSGQ_STATE_HEADER2));;
          ioq_header2 true bytes nmax
  end.

(** The switch of [dmsg_ioq_read], and the check of the message sequence after it. *)
Definition ioq_switch : C bool :=
  q ← get_rx;
  let nmax := u64 (DMSG_BUF_SIZE - fifo_end q) in
  let bytes := u64 (fifo_cdx q - fifo_beg q) in
  let msg := match q_msg q with Some _ => true | None => false end in
  match q_state q with
  | DMSG_MSGQ_STATE_HEADER1 => ioq_header1 msg bytes
  | DMSG_MSGQ_STATE_HEADER2 => ioq_header2 msg bytes nmax
  | DMSG_MSGQ_STATE_AUXDATA1 => ioq_auxdata1 msg bytes
  | DMSG_MSGQ_STATE_AUXDATA2 => ioq_auxdata2 msg bytes
  | DMSG_MSGQ_STATE_ERROR => assertp (negb msg);; mret msg
  end.

(** [++ioq->seq], an [int]. *)
Definition seq_next : Q () :=
  q ← get_state;
  if bool_decide (q_seq q = 2 ^ 31 - 1) then stop_with Undef else modify (set_q_seq (q_seq q + 1)).

Definition ioq_sequence (msg : bool) : C () :=
  q ← get_rx;
  when (msg && bool_decide (q_error q = 0))
    (m ← the_msg;
     if bool_decide (w_salt (m_wire m) .& 255 ≠ q_seq q .& 255) then set_error DMSG_IOQ_ERROR_MSGSEQ
     else on_rx seq_next).

(** ** Errors *)

Fixpoint free_all (msgs : list dmsg_msg) : prog iocom () :=
  match msgs with
  | [] => mret ()
  | m :: msgs => dmsg_msg_free mtx m;; free_all msgs
  end.

Definition dmsg_iocom_drain : C () :=
  clear_flag (DMSG_IOCOMF_WREQ .| DMSG_IOCOMF_WWORK);;
  on_tx (modify (λ q, set_q_abytes 0 (set_q_hbytes 0 q)));;
  c ← get_state;
  on_tx (modify (λ q, set_q_msgq [] (set_q_msgcount (q_msgcount q - Z.of_nat (length (q_msgq q))) q)));;
  on_io (free_all (q_msgq (c_tx c))).

(** From the label [skip]; [msg] is the pointer of [dmsg_ioq_read]. *)
Definition ioq_skip (msg : bool) : C () :=
  q ← get_rx;
  assertp (Bool.eqb msg (match q_msg q with Some _ => true | None => false end));;
  when msg
    (m ← the_msg;
     on_io (dmsg_msg_free mtx m);;
     on_rx (modify (set_q_msg None)));;
  on_rx (modify (set_q_state DMSG_MSGQ_STATE_ERROR));;
  on_io (lock mtx);;
  dmsg_iocom_drain;;
  on_io (dmsg_simulate_failure mtx cb fuel state0 false);;
  on_io (unlock mtx).

(** "Continue processing msg": the queue is ready for the next message. *)
Definition ioq_finish : C dmsg_msg :=
  q ← get_rx;
  (if bool_decide (fifo_beg q = fifo_cdx q) && bool_decide (fifo_cdn q = fifo_end q) then
     set_flag DMSG_IOCOMF_RREQ;;
     on_rx (modify (λ q, set_fifo_end 0 (set_fifo_beg 0 (set_fifo_cdn 0 (set_fifo_cdx 0 q)))))
   else set_flag DMSG_IOCOMF_RWORK);;
  m ← the_msg;
  on_rx (modify (λ q, set_q_msg None (set_q_state DMSG_MSGQ_STATE_HEADER1 q)));;
  mret m.

(** The next message, or NULL.  [addr] is the address [malloc] returns for the state of a
    new transaction; the fuel bounds the jumps to [again]. *)
Fixpoint dmsg_ioq_read (rfuel : nat) (addr : positive) : C (option dmsg_msg) :=
  match rfuel with
  | O => stop_with OutOfFuel
  | S rfuel =>
      q ← get_rx;
      match q_msgq q with
      | msg :: rest =>
          on_rx (modify (set_q_msgq rest));;
          when (bool_decide (m_state msg = state0)) (set_flag DMSG_IOCOMF_EOF);;
          mret (Some msg)
      | [] =>
          let skip (msg : bool) : C (option dmsg_msg) :=
            ioq_skip msg;;
            q ← get_rx;
            match q_msgq q with [] => mret None | _ :: _ => dmsg_ioq_read rfuel addr end in
          clear_flag (DMSG_IOCOMF_RREQ .| DMSG_IOCOMF_RWORK);;
          if bool_decide (q_error q ≠ 0) then skip false
          else
            msg ← ioq_switch;
            ioq_sequence msg;;
            q ← get_rx;
            if bool_decide (q_error q ≠ 0) then skip msg
            else if negb msg then set_flag DMSG_IOCOMF_RREQ;; mret None
            else
              m ← ioq_finish;
              r ← on_io (dmsg_state_msgrx mtx addr m false);
              if bool_decide (fst r = 0) then mret (Some (snd r))
              else if bool_decide (fst r = DMSG_IOQ_ERROR_EALREADY) then
                on_io (dmsg_msg_free mtx (snd r));;
                dmsg_ioq_read rfuel addr
              else set_error (fst r);; skip true
      end
  end.

(** ** Writing *)

(** The value of [random()] for the message with a given sequence number. *)
Context (random : Z -> Z).

Definition msg_hbytes (m : dmsg_msg) : Z := (m_cmd m .& DMSGF_SIZE) * DMSG_ALIGN.
Definition msg_abytes (m : dmsg_msg) : Z := DMSG_DOALIGN 64 (m_aux_size m).

(** "Finish populating the msg fields": the salt, the checksums. *)
Definition finish_msg (seq : Z) (m : dmsg_msg) : C dmsg_msg :=
  let m := upd_wire (λ w, set_w_salt (u32 ((random seq .<< 8) .| (seq .& 255))) (set_w_magic DMSG_HDR_MAGIC w)) m in
  m ← (if bool_decide (m_aux_size m ≠ 0) && bool_decide (w_aux_crc (m_wire m) = 0) then
         xcrc32 ← dmsg_icrc32 aux_addr (w_aux_data (m_wire m)) (msg_abytes m);
         mret (upd_wire (set_w_aux_crc xcrc32) m)
       else mret m);
  let m := upd_wire (λ w, set_w_hdr_crc 0 (set_w_aux_bytes (u32 (m_aux_size m)) w)) m in
  crc ← dmsg_icrc32 buf_addr (any_bytes m) (msg_hbytes m);
  mret (upd_wire (set_w_hdr_crc crc) m).

Definition enqueue (m : dmsg_msg) : C () :=
  on_tx (modify (λ q, set_q_msgcount (q_msgcount q + 1) (set_q_msgq (q_msgq q ++ [m]) q))).

(** "Re-seed our PRNG every 32768 messages": only the mutex matters here. *)
Definition reseed : C () :=
  c ← get_state;
  when (bool_decide (q_seq (c_tx c) .& 32767 = 0)) (on_io (lock mtx);; on_io (unlock mtx)).

Fixpoint flush_queue (tmpq : list dmsg_msg) : C () :=
  match tmpq with
  | [] => mret ()
  | m :: tmpq =>
      c ← get_state;
      (if bool_decide (q_error (c_tx c) ≠ 0) then enqueue m
       else
         on_tx seq_next;;
         reseed;;
         m ← finish_msg (q_seq (c_tx c)) m;
         enqueue m);;
      flush_queue tmpq
  end.

(** One vector element for a part of a message that has been sent up to [off]: its bytes,
    and whether the code leaves the loop. *)
Definition iov_part (mem : bytes) (off len : Z) (iovcnt : Z) : C (bytes * bool) :=
  let maxlen := Z.min (len - off) (DMSG_BUF_SIZE / 2) in
  bs ← deref (sub_bytes mem off maxlen);
  mret (bs, bool_decide (iovcnt + 1 = DMSG_IOQ_MAXIOVEC) || bool_decide (maxlen ≠ len - off)).

Fixpoint build_iov (msgs : list dmsg_msg) (hoff aoff : Z) (iov : list bytes) : C (list bytes) :=
  match msgs with
  | [] => mret iov
  | m :: msgs =>
      let hbytes := msg_hbytes m in
      let abytes := msg_abytes m in
      assertp (bool_decide (hoff <= hbytes) && bool_decide (aoff <= abytes));;
      h ← (if bool_decide (hoff < hbytes) then
             p ← iov_part (any_bytes m) hoff hbytes (Z.of_nat (length iov)); mret (iov ++ [fst p], snd p)
           else mret (iov, false));
      if (snd h : bool) then mret (fst h)
      else
        a ← (if bool_decide (aoff < abytes) then
               assertp (bool_decide (w_aux_alloc (m_wire m) ≠ 0));;
               p ← iov_part (w_aux_data (m_wire m)) aoff abytes (Z.of_nat (length (fst h))); mret (fst h ++ [fst p], snd p)
             else mret (fst h, false));
        if (snd a : bool) then mret (fst a) else build_iov msgs 0 0 (fst a)
  end.

(** "Clean out the transmit queue": [nact] bytes of the queue are done; what is left of
    it. *)
Fixpoint clean_queue (msgs : list dmsg_msg) (nact : Z) : C Z :=
  match msgs with
  | [] => mret nact
  | m :: msgs =>
      c ← get_state;
      let q := c_tx c in
      let hleft := u64 (msg_hbytes m - q_hbytes q) in
      let aleft := u64 (msg_abytes m - q_abytes q) in
      if bool_decide (nact < hleft) then on_tx (modify (set_q_hbytes (q_hbytes q + nact)));; mret 0
      else
        on_tx (modify (set_q_hbytes (msg_hbytes m)));;
        let nact := nact - hleft in
        if bool_decide (nact < aleft) then on_tx (modify (set_q_abytes (q_abytes q + nact)));; mret 0
        else
          on_tx (modify (λ q, set_q_abytes 0 (set_q_hbytes 0 (set_q_msgcount (q_msgcount q - 1) (set_q_msgq msgs q)))));;
          on_io (dmsg_msg_free mtx m);;
          clean_queue msgs (nact - aleft)
  end.

(** The data that is staged in the FIFO moves to its start. *)
Definition tx_compact : Q () :=
  q ← get_state;
  when (bool_decide (DMSG_BUF_SIZE / 2 < fifo_beg q) && bool_decide (DMSG_BUF_SIZE - fifo_end q < DMSG_ALIGN * 2))
    (bcopy (fifo_beg q) 0 (fifo_end q - fifo_beg q);;
     modify (λ q, set_fifo_beg 0 (set_fifo_end (fifo_end q - fifo_beg q)
                    (set_fifo_cdn (fifo_cdn q - fifo_beg q) (set_fifo_cdx (fifo_cdx q - fifo_beg q) q))))).

(** "Encrypt and write the data": the result of [writev] and the bytes of the messages
    that are done. *)
Definition flush_write (iov : list bytes) : C ((Z + Z) * Z) :=
  c ← get_state;
  if has (c_flags c) DMSG_IOCOMF_CRYPTED then
    on_tx tx_compact;;
    e ← on_tx (dmsg_crypto_encrypt iov);
    n ← sock_write (fst e);
    match n with
    | inl n =>
        when (bool_decide (0 < n))
          (on_tx (modify (λ q, let q := set_fifo_beg (fifo_beg q + n) q in
                               if bool_decide (fifo_beg q = fifo_end q)
                               then set_fifo_end 0 (set_fifo_cdx 0 (set_fifo_cdn 0 (set_fifo_beg 0 q))) else q)))
    | inr _ => mret ()
    end;;
    mret (n, snd e)
  else
    n ← sock_write (concat iov);
    mret (n, match n with inl n => n | inr _ => 0 end).

Definition dmsg_iocom_flush2 : C () :=
  c ← get_state;
  if bool_decide (q_error (c_tx c) ≠ 0) then dmsg_iocom_drain
  else
    iov ← build_iov (q_msgq (c_tx c)) (q_hbytes (c_tx c)) (q_abytes (c_tx c)) [];
    if bool_decide (iov = []) && bool_decide (fifo_beg (c_tx c) = fifo_cdx (c_tx c)) then mret ()
    else
      r ← flush_write iov;
      c ← get_state;
      nact ← clean_queue (q_msgq (c_tx c)) (snd r);
      assertp (bool_decide (nact = 0));;
      c ← get_state;
      match fst r with
      | inr errno =>
          if again_errno errno then set_flag DMSG_IOCOMF_WREQ
          else on_tx (modify (set_q_error DMSG_IOQ_ERROR_SOCK));; dmsg_iocom_drain
      | inl _ =>
          when (bool_decide (q_msgq (c_tx c) ≠ []) || bool_decide (txmsgq (c_io c) ≠ [])
                || bool_decide (fifo_beg (c_tx c) ≠ fifo_cdx (c_tx c)))
            (set_flag DMSG_IOCOMF_WWORK)
      end;;
      c ← get_state;
      when (bool_decide (q_error (c_tx c) ≠ 0)) dmsg_iocom_drain.

Definition dmsg_iocom_flush1 : C () :=
  clear_flag (DMSG_IOCOMF_WREQ .| DMSG_IOCOMF_WWORK);;
  on_io (lock mtx);;
  c ← get_state;
  let tmpq := txmsgq (c_io c) in
  on_io (modify (set_txmsgq (λ _, [])));;
  on_io (unlock mtx);;
  flush_queue tmpq;;
  dmsg_iocom_flush2.

(** ** The thread *)

(** The callbacks of the application get the connection and may change all of it, such as
    its flags: [shell_ttymsg], [hammer2_volconf_signal] and [autoconn_disconnect_signal]
    set [DMSG_IOCOMF_EOF].  ([cb] is [rcvmsg_callback] in the simulated failures of [Dmsg],
    where only what it does to the transactions is followed.) *)
Context (rcvmsg_callback : dmsg_msg -> C ()) (signal_callback altmsg_callback : C ()).

(** What [poll] reports: the wake-up pipe, the socket (when it was asked for) and the
    alternative descriptor. *)
Record poll_event := { pe_pipe : bool; pe_in : bool; pe_out : bool; pe_alt : bool }.

Definition core_poll (e : poll_event) : C () :=
  c ← get_state;
  let asked (f : Z) : bool := has (c_flags c) f in
  if asked (DMSG_IOCOMF_RWORK .| DMSG_IOCOMF_WWORK .| DMSG_IOCOMF_PWORK .| DMSG_IOCOMF_SWORK .| DMSG_IOCOMF_ARWORK
            .| DMSG_IOCOMF_AWWORK)
  then set_flag DMSG_IOCOMF_PWORK
  else
    when (pe_pipe e) (set_flag DMSG_IOCOMF_PWORK);;
    when (asked DMSG_IOCOMF_RREQ && pe_in e) (set_flag DMSG_IOCOMF_RWORK);;
    when (asked DMSG_IOCOMF_WREQ && pe_out e) (set_flag DMSG_IOCOMF_WWORK);;
    when (pe_alt e) (set_flag DMSG_IOCOMF_ARWORK).

(** "Message read sequencing"; each received message comes with the address of a possible
    new state. *)
Fixpoint core_read (rfuel : nat) (addrs : list positive) : C () :=
  match addrs with
  | [] => stop_with OutOfFuel
  | addr :: addrs =>
      c ← get_state;
      if has (c_flags c) DMSG_IOCOMF_EOF then mret ()
      else
        r ← dmsg_ioq_read rfuel addr;
        match r with
        | None => mret ()
        | Some msg =>
            rcvmsg_callback msg;;
            on_io (lock mtx);;
            on_io (dmsg_state_cleanuprx mtx msg);;
            on_io (unlock mtx);;
            core_read rfuel addrs
        end
  end.

(** One turn of the loop of [dmsg_iocom_core]. *)
Definition core_turn (rfuel : nat) (addrs : list positive) (e : poll_event) : C () :=
  core_poll e;;
  c ← get_state;
  when (has (c_flags c) DMSG_IOCOMF_SWORK) (clear_flag DMSG_IOCOMF_SWORK;; signal_callback);;
  c ← get_state;
  when (has (c_flags c) DMSG_IOCOMF_PWORK)
    (clear_flag DMSG_IOCOMF_PWORK;; set_flag DMSG_IOCOMF_RWORK;; set_flag DMSG_IOCOMF_WWORK);;
  c ← get_state;
  when (has (c_flags c) DMSG_IOCOMF_WWORK) dmsg_iocom_flush1;;
  c ← get_state;
  when (has (c_flags c) DMSG_IOCOMF_RWORK) (core_read rfuel addrs);;
  c ← get_state;
  when (has (c_flags c) DMSG_IOCOMF_ARWORK) (clear_flag DMSG_IOCOMF_ARWORK;; altmsg_callback).

(** The loop for the turns that [poll] has returned from: [true] when it has ended. *)
Fixpoint dmsg_iocom_core (rfuel : nat) (turns : list (list positive * poll_event)) : C bool :=
  c ← get_state;
  if has (c_flags c) DMSG_IOCOMF_EOF then mret true
  else
    match turns with
    | [] => mret false
    | (addrs, e) :: turns => core_turn rfuel addrs e;; dmsg_iocom_core rfuel turns
    end.
End frame.

(** [dmsg_iocom_init] without encryption, and [dmsg_ioq_done]. *)
Definition conn_init (signal : bool) (ins : list rd_event) (outs : list wr_event) : conn :=
  {| c_io := dmsg_iocom_init;
     c_flags := let f := DMSG_IOCOMF_RREQ .| DMSG_IOCOMF_CLOSEALT in if signal then f .| DMSG_IOCOMF_SWORK else f;
     c_rx := dmsg_ioq_init; c_tx := dmsg_ioq_init; c_in := ins; c_out := outs; c_sent := [] |}.
