(* ===== verification/DmsgFifo.v ===== *)
(** * DmsgFifo: the FIFO of received bytes

    The abstraction of [ioq->buf] and its four indices, on a link without encryption: the
    bytes between [fifo_beg] and [fifo_end].  [dmsg_ioq_makeroom] keeps them and always
    leaves room, the read of more bytes appends to them, and every access stays inside
    the buffer. *)

From S2P Require Import Prelude CMonad WpStop Crc32 Layout Dmsg DmsgFrame.

#[local] Opaque Z.to_nat.

(** ** Programs on a part of the connection *)

Section parts.
Context (E : stop -> Prop).

Lemma wps_on_rx {A} (m : prog dmsg_ioq A) c (R : A -> conn -> Prop) :
  wps m (c_rx c) E (λ a q, R a (set_c_rx q c)) -> wps (on_rx m) c E R.
Proof. unfold wps, on_rx. by destruct (m (c_rx c)). Qed.

Lemma wps_on_tx {A} (m : prog dmsg_ioq A) c (R : A -> conn -> Prop) :
  wps m (c_tx c) E (λ a q, R a (set_c_tx q c)) -> wps (on_tx m) c E R.
Proof. unfold wps, on_tx. by destruct (m (c_tx c)). Qed.

Lemma wps_on_io {A} (m : prog iocom A) c (R : A -> conn -> Prop) :
  wps m (c_io c) E (λ a io, R a (set_c_io io c)) -> wps (on_io m) c E R.
Proof. unfold wps, on_io. by destruct (m (c_io c)). Qed.

Lemma wps_get_rx c (R : dmsg_ioq -> conn -> Prop) : R (c_rx c) c -> wps get_rx c E R.
Proof. done. Qed.
End parts.

(** One step. *)
Ltac wps_step :=
  lazymatch goal with
  | |- wps (on_rx _) _ _ _ => apply wps_on_rx
  | |- wps (on_tx _) _ _ _ => apply wps_on_tx
  | |- wps (on_io _) _ _ _ => apply wps_on_io
  | |- wps get_rx _ _ _ => apply wps_get_rx
  | _ => stop_step
  end; cbv beta.

(** ** The bytes of the FIFO *)

Definition fifo_at (b e : Z) (buf F : bytes) : Prop :=
  exists pre post, buf = pre ++ F ++ post /\ Z.of_nat (length pre) = b /\ e = b + Z.of_nat (length F) /\
    Z.of_nat (length buf) = DMSG_BUF_SIZE.

(** The queue [q] with a FIFO without encrypted parts. *)
Definition with_fifo (b e : Z) (buf : bytes) (q : dmsg_ioq) : dmsg_ioq :=
  set_q_buf buf (set_fifo_end e (set_fifo_cdn e (set_fifo_cdx e (set_fifo_beg b q)))).

(** Projections of updated records. *)
Ltac fields :=
  cbn [with_fifo q_state fifo_beg fifo_cdx fifo_cdn fifo_end q_hbytes q_abytes unaligned_aux_size q_error q_seq q_msgcount
       q_msg q_msgq q_buf set_q_state set_fifo_beg set_fifo_cdx set_fifo_cdn set_fifo_end set_q_hbytes set_q_abytes
       set_unaligned_aux_size set_q_error set_q_seq set_q_msgcount set_q_msg set_q_msgq set_q_buf
       c_io c_flags c_rx c_tx c_in c_out c_sent set_c_io set_c_flags set_c_rx set_c_tx set_c_in set_c_out set_c_sent
       upd_wire set_m_wire set_m_aux_size set_w_aux_data m_state m_cmd m_msgid m_circuit m_error m_tcmd m_aux_size m_wire
       w_ext w_aux_alloc w_aux_data w_aux_crc w_salt fst snd].

Inductive fifo_in (q0 : dmsg_ioq) (F : bytes) : dmsg_ioq -> Prop :=
  | Fifo_in b e buf : fifo_at b e buf F -> fifo_in q0 F (with_fifo b e buf q0).

Lemma fifo_bounds b e buf F : fifo_at b e buf F -> 0 <= b /\ b <= e /\ e <= DMSG_BUF_SIZE /\ e - b = Z.of_nat (length F).
Proof. intros (pre & post & -> & <- & -> & Hl). rewrite !length_app in Hl. lia. Qed.

Lemma sub_bytes_mid pre F post off n :
  0 <= off -> 0 <= n -> off + n <= Z.of_nat (length F) ->
  sub_bytes (pre ++ F ++ post) (Z.of_nat (length pre) + off) n = Some (take (Z.to_nat n) (drop (Z.to_nat off) F)).
Proof.
  intros Ho Hn Hl. unfold sub_bytes. rewrite bool_decide_true by (rewrite !length_app; lia). f_equal.
  rewrite drop_app, drop_ge, app_nil_l by lia. replace (Z.to_nat _ - length pre)%nat with (Z.to_nat off) by lia.
  rewrite drop_app_le, take_app_le by (rewrite ?length_drop; lia). done.
Qed.

Lemma fifo_read b e buf F n :
  fifo_at b e buf F -> 0 <= n <= Z.of_nat (length F) -> sub_bytes buf b n = Some (take (Z.to_nat n) F).
Proof.
  intros (pre & post & -> & <- & _) Hn. rewrite <- (Z.add_0_r (Z.of_nat _)), sub_bytes_mid by lia. done.
Qed.

(** A write into the FIFO, and behind its end. *)
Lemma fifo_write b e buf F off bs :
  fifo_at b e buf F -> 0 <= off -> off + Z.of_nat (length bs) <= Z.of_nat (length F) ->
  fifo_at b e (splice buf (Z.to_nat (b + off)) bs) (splice F (Z.to_nat off) bs).
Proof.
  intros (pre & post & -> & <- & -> & Hlen) Ho Hl. exists pre, post.
  assert (length (splice F (Z.to_nat off) bs) = length F) as HF by (apply length_splice; lia).
  rewrite HF. split_and!; [|done|done|by rewrite length_splice by (rewrite !length_app; lia)].
  unfold splice. rewrite take_app_ge, drop_app_ge by lia.
  replace (Z.to_nat (_ + off) - length pre)%nat with (Z.to_nat off) by lia.
  replace (Z.to_nat (_ + off) + length bs - length pre)%nat with (Z.to_nat off + length bs)%nat by lia.
  rewrite take_app_le, drop_app_le by lia. by rewrite <- !app_assoc.
Qed.

Lemma fifo_append b e buf F bs :
  fifo_at b e buf F -> e + Z.of_nat (length bs) <= DMSG_BUF_SIZE ->
  fifo_at b (e + Z.of_nat (length bs)) (splice buf (Z.to_nat e) bs) (F ++ bs).
Proof.
  intros (pre & post & -> & <- & -> & Hlen) Hl. pose proof Hlen as Hlen'. rewrite !length_app in Hlen'.
  exists pre, (drop (length bs) post). rewrite length_splice by (rewrite !length_app; lia).
  split_and!; [|done|rewrite length_app; lia|done].
  unfold splice. rewrite (app_assoc pre F post), take_app_length', drop_app_ge by (rewrite length_app; lia).
  rewrite length_app. replace (_ - _)%nat with (length bs) by lia. by rewrite <- !app_assoc.
Qed.

Lemma fifo_advance b e buf F n :
  fifo_at b e buf F -> 0 <= n <= Z.of_nat (length F) -> fifo_at (b + n) e buf (drop (Z.to_nat n) F).
Proof.
  intros (pre & post & -> & <- & -> & Hlen) Hn. exists (pre ++ take (Z.to_nat n) F), post.
  rewrite length_app, length_take, length_drop. split_and!; [|lia|lia|done].
  by rewrite <- app_assoc, (app_assoc (take _ F)), take_drop.
Qed.

(** The FIFO after it was moved to the start of the buffer. *)
Lemma fifo_move b e buf F : fifo_at b e buf F -> fifo_at 0 (Z.of_nat (length F)) (splice buf 0 F) F.
Proof.
  intros Hf. pose proof (fifo_bounds _ _ _ _ Hf). destruct Hf as (pre & post & -> & <- & -> & Hlen).
  exists [], (drop (length F) (pre ++ F ++ post)). split_and!; try done.
  rewrite length_splice by (rewrite !length_app; lia). done.
Qed.

(** A FIFO that was emptied restarts at 0. *)
Lemma fifo_reset b e buf : fifo_at b e buf [] -> fifo_at 0 0 buf [].
Proof. intros (pre & post & -> & <- & -> & Hlen). by exists [], (pre ++ post). Qed.

(** ** Room *)

Lemma u64_small z : 0 <= z < 2 ^ 64 -> u64 z = z.
Proof. intros. by apply uwrap_small. Qed.

Lemma buf_read_spec E off n q bs (R : bytes -> dmsg_ioq -> Prop) :
  sub_bytes (q_buf q) off n = Some bs -> R bs q -> wps (buf_read off n) q E R.
Proof. intros H HR. unfold buf_read. do 2 wps_step. by eapply wps_deref. Qed.

Lemma buf_write_spec E off bs q (R : () -> dmsg_ioq -> Prop) :
  0 <= off -> off + Z.of_nat (length bs) <= DMSG_BUF_SIZE -> R () (set_q_buf (splice (q_buf q) (Z.to_nat off) bs) q) ->
  wps (buf_write off bs) q E R.
Proof. intros H1 H2 HR. unfold buf_write. do 2 wps_step. rewrite bool_decide_true by done. by wps_step. Qed.

(** [dmsg_ioq_makeroom] keeps the bytes of the FIFO; [nmax] is the space behind them, and
    either it is enough or the FIFO starts at 0. *)
Lemma makeroom_spec E q0 F q needed :
  fifo_in q0 F q ->
  wps (dmsg_ioq_makeroom needed) q E (λ nmax q', fifo_in q0 F q' /\ nmax = DMSG_BUF_SIZE - fifo_end q' /\
    (needed <= Z.of_nat (length F) + nmax / 2 \/ fifo_beg q' = 0)).
Proof.
  intros [b e buf Hf]. pose proof (fifo_bounds _ _ _ _ Hf) as (H1 & H2 & H3 & H4). unfold DMSG_BUF_SIZE, DMSG_HDR_MAX in *.
  unfold dmsg_ioq_makeroom. do 2 wps_step. fields. unfold DMSG_BUF_SIZE, DMSG_HDR_MAX. rewrite !u64_small by lia.
  case_bool_decide as Hn.
  2: { wps_step. split; [by constructor|]. cbn. split; [lia|]. left. rewrite <- H4. lia. }
  wps_step. apply wps_mono with (P := λ _ q', exists buf', q' = with_fifo b e buf' q0 /\ fifo_at 0 (e - b) buf' F).
  { apply wps_when; intros Hz.
    - unfold bcopy. wps_step. eapply buf_read_spec; [apply (fifo_read _ _ _ _ _ Hf); lia|].
      rewrite H4, Nat2Z.id, firstn_all. apply buf_write_spec; [lia|unfold DMSG_BUF_SIZE, DMSG_HDR_MAX; lia|].
      exists (splice buf 0 F). split; [done|]. by apply fifo_move in Hf.
    - apply bool_decide_eq_false in Hz. apply dec_stable in Hz. destruct F; [|cbn in H4; lia].
      assert (e = b) as -> by lia. exists buf. split; [done|]. rewrite Z.sub_diag. by apply fifo_reset in Hf. }
  intros [] q1 (buf' & -> & Hf'). do 6 wps_step.
  fields.
  rewrite !(bool_decide_false (e < e)) by lia. cbn [when]. do 7 wps_step.
  fields.
  rewrite !(u64_small (e - b)) by lia. replace (e - (e - (e - b))) with (e - b) by lia.
  rewrite !u64_small by lia. split; [|split; [cbn; rewrite u64_small; lia|by right]].
  change (fifo_in q0 F (with_fifo 0 (e - b) buf' q0)). by constructor.
Qed.

(** ** The socket *)

(** The bytes that the events deliver. *)
Fixpoint flat (evs : list rd_event) : bytes :=
  match evs with
  | [] => []
  | Arrived bs :: evs => bs ++ flat evs
  | Eof :: _ => []
  | RdErr _ :: evs => flat evs
  end.

(** [read] returns 0 only at the end of the stream.  On a [calm] connection neither the end
    nor an error that ends the connection occurs. *)
Definition event_ok (calm : bool) (ev : rd_event) : Prop :=
  match ev with
  | Arrived bs => bs ≠ [] /\ bytes_ok bs
  | Eof => calm = false
  | RdErr e => calm = true -> again_errno e = true
  end.

Fixpoint work (evs : list rd_event) : nat :=
  match evs with
  | [] => 0
  | Arrived bs :: evs => S (length bs) + work evs
  | _ :: evs => S (work evs)
  end.

Lemma flat_ok calm evs : Forall (event_ok calm) evs -> bytes_ok (flat evs).
Proof. induction 1 as [|[bs| |] evs Hev _ IH]; cbn; try done; [by constructor|by apply Forall_app_2; [apply Hev|]|constructor]. Qed.

Lemma set_c_in_id c : set_c_in (c_in c) c = c.
Proof. by destruct c. Qed.

(** What [read] gives: an error, the end of the stream, or some of the bytes that have
    arrived, which are then behind the FIFO. *)
Lemma sock_read_spec E calm q0 F c nmax :
  fifo_in q0 F (c_rx c) -> Forall (event_ok calm) (c_in c) -> nmax = DMSG_BUF_SIZE - fifo_end (c_rx c) -> 0 < nmax ->
  wps (sock_read nmax) c E (λ r c',
    match r with
    | inr e => c' = c /\ c_in c = [] /\ e = EAGAIN \/
               exists evs, c_in c = RdErr e :: evs /\ c' = set_c_in evs c
    | inl n => n = 0 /\ c' = c /\ flat (c_in c) = [] /\ calm = false \/
               0 < n /\ exists more evs, n = Z.of_nat (length more) /\ flat (c_in c) = more ++ flat evs /\ bytes_ok more /\
                 Forall (event_ok calm) evs /\ (work evs < work (c_in c))%nat /\ n <= nmax /\
                 c' = set_c_rx (set_q_buf (splice (q_buf (c_rx c)) (Z.to_nat (fifo_end (c_rx c))) more) (c_rx c)) (set_c_in evs c)
    end).
Proof.
  intros Hf Hev Hn Hpos. unfold sock_read. do 2 wps_step. rewrite bool_decide_false by lia.
  destruct (c_in c) as [|[bs| |e] evs] eqn:Ein; [wps_step; by left| | |].
  - set (got := take (Z.to_nat nmax) bs). do 2 wps_step. fields. do 2 wps_step. fields.
    apply Forall_cons in Hev as [[Hne Hbs] Hevs].
    assert (0 < length got)%nat as Hgot by (unfold got; rewrite length_take; destruct bs; [done|cbn; lia]).
    assert (length got <= Z.to_nat nmax)%nat as Hle by (unfold got; rewrite length_take; lia).
    destruct Hf as [b e buf Hf]. pose proof (fifo_bounds _ _ _ _ Hf). fields.
    apply buf_write_spec; [cbn; lia|cbn in *; unfold DMSG_BUF_SIZE, DMSG_HDR_MAX in *; lia|].
    wps_step. right. split; [lia|].
    exists got, (if bool_decide (length got = length bs) then evs else Arrived (drop (Z.to_nat nmax) bs) :: evs).
    cbn [flat]. split_and!; [done| |by apply Forall_take| | |lia|done].
    + case_bool_decide as Hall; cbn [flat].
      * unfold got in *. rewrite length_take in Hall. by rewrite take_ge by lia.
      * unfold got. by rewrite app_assoc, take_drop.
    + case_bool_decide as Hall; [done|]. constructor; [|done]. split; [|by apply Forall_drop].
      intros Hd%(f_equal length). unfold got in *. rewrite length_take in Hall. rewrite length_drop in Hd. cbn in Hd. lia.
    + case_bool_decide as Hall; cbn [work]; [lia|]. unfold got in *. rewrite length_take in *. rewrite length_drop. lia.
  - apply Forall_cons in Hev as [? _]. wps_step. by left.
  - do 2 wps_step. wps_step. right. by exists evs.
Qed.

(** After reading and decrypting: bytes of the socket are appended to the FIFO, or the
    connection is lost. *)
Definition more_post (calm : bool) (q0 : dmsg_ioq) (F : bytes) (c : conn) (need : bool) (r : option Z) (c' : conn) : Prop :=
  exists more evs, flat (c_in c) = more ++ flat evs /\ bytes_ok more /\ Forall (event_ok calm) evs /\
    (work evs <= work (c_in c))%nat /\
    match r with
    | Some n => exists q', c' = set_c_rx q' (set_c_in evs c) /\ fifo_in q0 (F ++ more) q' /\
        fifo_end q' = fifo_end (c_rx c) + Z.of_nat (length more) /\ n = Z.of_nat (length (F ++ more)) /\
        (if need then c_in c = [] /\ evs = [] \/ (work evs < work (c_in c))%nat else more = [] /\ evs = c_in c)
    | None => calm = false /\ more = [] /\ need = true /\ exists e, (e = DMSG_IOQ_ERROR_EOF \/ e = DMSG_IOQ_ERROR_SOCK) /\
        c' = set_c_rx (set_q_error e (c_rx c)) (set_c_in evs c)
    end.

(** The decryption, when [more] is behind the FIFO already. *)
Lemma decrypt_spec E calm dfuel q0 F c (need : bool) more evs q1 :
  has (c_flags c) DMSG_IOCOMF_CRYPTED = false -> bytes_ok more -> flat (c_in c) = more ++ flat evs -> Forall (event_ok calm) evs ->
  (if need then c_in c = [] /\ evs = [] \/ (work evs < work (c_in c))%nat else more = [] /\ evs = c_in c) ->
  (exists b e buf, fifo_at b e buf (F ++ more) /\ e = fifo_end (c_rx c) + Z.of_nat (length more) /\
     set_fifo_cdn (fifo_end q1) (set_fifo_cdx (fifo_end q1) q1) = with_fifo b e buf q0) ->
  wps (n ← ioq_decrypt dfuel; mret (Some n)) (set_c_rx q1 (set_c_in evs c)) E (more_post calm q0 F c need).
Proof.
  intros Hcr Hb Hfl Hevs Hw (b & e & buf & Hat & He & Eq). pose proof (fifo_bounds _ _ _ _ Hat) as Hbd.
  wps_step. unfold ioq_decrypt. do 3 wps_step. fields. rewrite Hcr. do 5 wps_step. fields. rewrite Eq.
  exists more, evs. split; [done|]. split; [done|]. split; [done|].
  split; [by destruct need; [destruct Hw as [[-> ->]|Hw]; [|lia]|destruct Hw as [_ ->]]|]. exists (with_fifo b e buf q0). split; [done|].
  split; [by constructor|]. fields. split; [done|]. split; [|done].
  pose proof (f_equal fifo_end Eq) as E1. pose proof (f_equal fifo_beg Eq) as E2. cbn in E1, E2.
  unfold DMSG_BUF_SIZE, DMSG_HDR_MAX in Hbd. rewrite u64_small; lia.
Qed.

Lemma ioq_more_spec E calm dfuel q0 F c need nmax :
  fifo_in q0 F (c_rx c) -> has (c_flags c) DMSG_IOCOMF_CRYPTED = false -> Forall (event_ok calm) (c_in c) ->
  (need = true -> nmax = DMSG_BUF_SIZE - fifo_end (c_rx c) /\ 0 < nmax) ->
  wps (ioq_more dfuel need nmax) c E (more_post calm q0 F c need).
Proof.
  intros Hf Hcr Hev Hnm. pose proof (decrypt_spec E calm dfuel q0 F c need) as Hdec.
  unfold ioq_more. wps_step. destruct need.
  - destruct (Hnm eq_refl) as [Hn Hpos]. unfold ioq_fill. wps_step.
    eapply wps_mono; [by apply (sock_read_spec E calm q0 F)|]. intros [n|e] c' Hr.
    + destruct Hr as [(-> & -> & Hfl)|(Hn0 & more & evs & -> & Hfl & Hb & Hevs & Hw & Hle & ->)].
      * destruct Hfl as [Hfl Hcalm]. rewrite bool_decide_true by done. unfold set_error. do 4 wps_step. exists [], (c_in c). rewrite Hfl.
        split; [done|]. split; [constructor|]. split; [done|]. split; [done|]. split; [done|]. split; [done|]. split; [done|].
        exists DMSG_IOQ_ERROR_EOF. split; [by left|]. by rewrite set_c_in_id.
      * rewrite bool_decide_false by lia. do 3 wps_step. fields. wps_step.
        apply (Hdec more evs); [done|done|done|done|by right|]. destruct Hf as [b e buf Hf].
        exists b, (e + Z.of_nat (length more)), (splice buf (Z.to_nat e) more). split; [|done].
        apply fifo_append; [done|]. cbn in Hn, Hle. unfold DMSG_BUF_SIZE, DMSG_HDR_MAX in *. lia.
    + assert (exists evs, c' = set_c_in evs c /\ flat (c_in c) = flat evs /\ Forall (event_ok calm) evs /\
        (c_in c = [] /\ evs = [] /\ e = EAGAIN \/ (work evs < work (c_in c))%nat) /\
        (calm = true -> again_errno e = true)) as (evs & -> & Hfl & Hevs & Hw & Hag).
      { destruct Hr as [(-> & Hi & ->)|(evs & Hi & ->)].
        - exists []. rewrite <- Hi, set_c_in_id. split_and!; try done. by left.
        - exists evs. rewrite Hi in *. apply Forall_cons in Hev as [He Hev]. split_and!; try done. right. cbn. lia. }
      destruct (again_errno e) eqn:Eag.
      * wps_step. replace (set_c_in evs c) with (set_c_rx (c_rx c) (set_c_in evs c)) by (by destruct c).
        apply (Hdec [] evs); [done|constructor|done|done| |].
        { destruct Hw as [(? & ? & _)|?]; [by left|by right]. }
        destruct Hf as [b e' buf Hf]. exists b, e', buf. rewrite app_nil_r. cbn. split; [done|]. split; [lia|done].
      * unfold set_error. do 4 wps_step. exists [], evs. split; [done|]. split; [constructor|]. split; [done|].
        split; [destruct Hw as [(-> & -> & _)|Hw]; [done|lia]|]. split; [by destruct calm; [specialize (Hag eq_refl)|]|]. split; [done|]. split; [done|]. exists DMSG_IOQ_ERROR_SOCK. split; [by right|done].
  - wps_step. replace c with (set_c_rx (c_rx c) (set_c_in (c_in c) c)) at 1 by (by destruct c).
    apply (Hdec [] (c_in c)); [done|constructor|done|done|done|]. destruct Hf as [b e buf Hf]. exists b, e, buf.
    rewrite app_nil_r. cbn. split; [done|]. split; [lia|done].
Qed.
