(* ===== verification/DmsgRef.v ===== *)
(** * DmsgRef: the reference for the framing

    [ref_frame] says what the first message of a byte string is, without buffers, states
    and partial reads: there are too few bytes, the header is refused, a checksum is
    wrong, or the first message and the bytes behind it.  More bytes do not change a
    verdict that is not [Short]. *)

From S2P Require Import Prelude CMonad Crc32 Layout ByteOrder Dmsg DmsgFrame.

#[local] Opaque Z.to_nat.

(** ** The fields that the framing uses *)

Definition hdr_rev (h : dmsg_hdr_t) : bool := bool_decide (hd_magic h = DMSG_HDR_MAGIC_REV).
Definition hdr_hbytes (h : dmsg_hdr_t) : Z := ((if hdr_rev h then bswap 4 (hd_cmd h) else hd_cmd h) .& DMSGF_SIZE) * DMSG_ALIGN.
Definition hdr_aux (h : dmsg_hdr_t) : Z := if hdr_rev h then bswap 4 (hd_aux_bytes h) else hd_aux_bytes h.
Definition hdr_abytes (h : dmsg_hdr_t) : Z := DMSG_DOALIGN 32 (hdr_aux h).
Definition hdr_xcrc (h : dmsg_hdr_t) : Z := if hdr_rev h then bswap 4 (hd_hdr_crc h) else hd_hdr_crc h.

(** The error of a header that is refused. *)
Definition hdr_bad (h : dmsg_hdr_t) : option Z :=
  if bool_decide (hd_magic h ≠ DMSG_HDR_MAGIC) && negb (hdr_rev h) then Some DMSG_IOQ_ERROR_SYNC
  else if bool_decide (hdr_hbytes h < 64) || bool_decide (DMSG_HDR_MAX < hdr_hbytes h)
          || bool_decide (DMSG_AUX_MAX < hdr_abytes h) then Some DMSG_IOQ_ERROR_FIELD
  else None.

(** The checksum of an extended header is that of the header with a zero in its place. *)
Definition hdr_crc_ok (hdr : bytes) : bool :=
  bool_decide (crc32c_spec (splice hdr 60 (le_bytes 4 0)) = hdr_xcrc (decode hdr)).

(** The extended header in the order of this host. *)
Definition hdr_fix (hdr : bytes) : bytes :=
  let h := splice hdr 60 (le_bytes 4 (hdr_xcrc (decode hdr))) in
  if hdr_rev (decode hdr) then splice h 0 (encode (dmsg_bswap_head (decode (take 64 h)))) else h.

Inductive verdict :=
  | Short
  | Bad (error : Z)
  | BadCrc
  | Frame (any aux : bytes) (aux_size : Z) (rest : bytes).

Definition ref_frame (bs : bytes) : verdict :=
  if bool_decide (length bs < 64)%nat then Short
  else
    let h : dmsg_hdr_t := decode bs in
    match hdr_bad h with
    | Some e => Bad e
    | None =>
        let hb := Z.to_nat (hdr_hbytes h) in
        let ab := Z.to_nat (hdr_abytes h) in
        if bool_decide (length bs < hb)%nat then Short
        else
          let hdr := take hb bs in
          if negb (hdr_crc_ok hdr) then BadCrc
          else if bool_decide (length bs < hb + ab)%nat then Short
          else
            let any := hdr_fix hdr in
            let aux := take ab (drop hb bs) in
            if bool_decide (ab ≠ 0%nat) && bool_decide (crc32c_spec aux ≠ hd_aux_crc (decode any)) then Bad DMSG_IOQ_ERROR_ACRC
            else Frame any aux (hdr_aux h) (drop (hb + ab) bs)
    end.

(** The message that is made of a frame, from the one that was allocated for it. *)
Definition frame_msg (any aux : bytes) (aux_size : Z) (m : dmsg_msg) : dmsg_msg :=
  set_m_aux_size aux_size (upd_wire (set_w_aux_data aux) (load_any any m)).

(** ** Bytes *)

Lemma split_widths_take_le ws (n : nat) bs : (sum_list ws <= n)%nat -> split_widths ws (take n bs) = split_widths ws bs.
Proof.
  revert n bs. induction ws as [|w ws IH]; intros n bs Hn; [done|]. cbn in *. f_equal.
  - rewrite take_take. f_equal. lia.
  - rewrite skipn_firstn_comm. apply IH. lia.
Qed.

Lemma decode_take {A} `{OnDisk A} (n : nat) bs : (sizeof A <= n)%nat -> decode (take n bs) = (decode bs : A).
Proof. intros Hn. unfold decode. by rewrite split_widths_take_le. Qed.

Lemma decode_app_hdr bs more : (64 <= length bs)%nat -> decode (bs ++ more) = (decode bs : dmsg_hdr_t).
Proof.
  intros Hl. rewrite <- (decode_take 64 (bs ++ more)), <- (decode_take 64 bs) by (vm_compute; lia).
  by rewrite take_app_le.
Qed.

Lemma length_hdr (h : dmsg_hdr_t) : length (encode h) = 64%nat.
Proof. destruct h. unfold encode. cbn [chunks dmsg_hdr_ondisk concat]. by rewrite !length_app, !le_bytes_length. Qed.

Lemma of_le_take n bs : bytes_ok bs -> in_u (8 * Z.of_nat n) (of_le (take n bs)).
Proof.
  intros Hb. eapply in_u_mono; [|apply of_le_bound; by apply Forall_take]. rewrite length_take. lia.
Qed.

Lemma decode_hdr_valid bs : bytes_ok bs -> valid (decode bs : dmsg_hdr_t).
Proof.
  intros Hb. unfold decode. cbn [widths dmsg_hdr_ondisk split_widths of_chunks].
  assert (forall n k, in_u (8 * Z.of_nat n) (of_le (take n (drop k bs)))) as Hd by (intros; apply of_le_take; by apply Forall_drop).
  unfold valid. cbn [dmsg_hdr_ondisk hd_magic hd_reserved02 hd_salt hd_msgid hd_circuit hd_link_verifier hd_cmd hd_aux_crc
    hd_aux_bytes hd_error hd_aux_descr hd_reserved38 hd_hdr_crc].
  rewrite !drop_drop. cbn [Nat.add]. rewrite <- (drop_0 bs) at 1. split_and!; apply Hd.
Qed.

Lemma bswap_range n z : in_u (8 * Z.of_nat n) (bswap n z).
Proof.
  unfold bswap, of_be. replace n with (length (rev (le_bytes n z))) at 1 by (by rewrite length_rev, le_bytes_length).
  apply of_le_bound, bytes_ok_rev, le_bytes_ok.
Qed.

Lemma take_splice (n off : nat) bs xs :
  (off + length xs <= n)%nat -> (n <= length bs)%nat -> take n (splice bs off xs) = splice (take n bs) off xs.
Proof.
  intros H1 H2. unfold splice. rewrite take_app, length_take, (take_ge (take off bs)) by (rewrite length_take; lia).
  rewrite take_take. replace (off `min` n)%nat with off by lia. f_equal.
  rewrite take_app, take_ge by lia. f_equal. rewrite skipn_firstn_comm. f_equal. lia.
Qed.

Lemma splice_splice (off : nat) bs xs ys :
  length xs = length ys -> (off + length xs <= length bs)%nat -> splice (splice bs off xs) off ys = splice bs off ys.
Proof.
  intros He Hl. unfold splice at 1. rewrite <- He, <- drop_drop, drop_splice by done.
  rewrite drop_app_length. unfold splice. rewrite take_app_length' by (rewrite length_take; lia). by rewrite He.
Qed.

Lemma drop_splice_ge (n off : nat) bs xs :
  (off + length xs <= n)%nat -> (off + length xs <= length bs)%nat -> drop n (splice bs off xs) = drop n bs.
Proof.
  intros H1 H2. replace n with (off + (n - off))%nat by lia. rewrite <- !drop_drop, drop_splice by done.
  rewrite drop_app_ge by lia. rewrite !drop_drop. f_equal. lia.
Qed.

Lemma length_hdr_fix hdr : (64 <= length hdr)%nat -> length (hdr_fix hdr) = length hdr.
Proof.
  intros Hl. unfold hdr_fix. assert (length (splice hdr 60 (le_bytes 4 (hdr_xcrc (decode hdr)))) = length hdr) as E
    by (apply length_splice; rewrite le_bytes_length; lia).
  destruct (hdr_rev _); [|done]. rewrite length_splice; [done|]. rewrite E, length_hdr. lia.
Qed.

(** ** Sizes *)

Lemma dmsg_doalign_eq w n : 6 <= w -> DMSG_DOALIGN w n = uwrap w (n + 63) / 64 * 64.
Proof.
  intros Hw. unfold DMSG_DOALIGN. change DMSG_ALIGNMASK with (Z.ones 6). rewrite land_bnot_ones; try lia.
  - change (2 ^ 6) with 64. pose proof (Z_div_mod_eq_full (uwrap w (n + Z.ones 6)) 64). change (Z.ones 6) with 63 in *. lia.
  - apply in_u_uwrap. lia.
Qed.

Lemma hdr_hbytes_range h : 0 <= hdr_hbytes h <= 255 * 64 /\ hdr_hbytes h / DMSG_ALIGN .& DMSGF_SIZE = hdr_hbytes h / DMSG_ALIGN.
Proof.
  unfold hdr_hbytes. set (x := if hdr_rev h then _ else _). unfold DMSG_ALIGN. rewrite Z.div_mul by lia.
  change DMSGF_SIZE with (Z.ones 8). rewrite <- Z.land_assoc, Z.land_diag, land_ones_mod by lia.
  pose proof (Z.mod_pos_bound x (2 ^ 8) ltac:(lia)). split; [lia|done].
Qed.

Lemma hdr_aux_range bs : bytes_ok bs -> in_u 32 (hdr_aux (decode bs)).
Proof.
  intros Hb. unfold hdr_aux. destruct (hdr_rev _); [apply (bswap_range 4)|]. by destruct (decode_hdr_valid bs Hb) as (? & ? & ? & ? & ? & ? & ? & ? & ? & _).
Qed.

(** The buffer of the auxiliary data holds what the header announces. *)
Lemma aux_alloc_enough aux :
  in_u 32 aux -> DMSG_DOALIGN 32 aux ≠ 0 ->
  aux ≠ 0 /\ DMSG_DOALIGN 64 aux = DMSG_DOALIGN 32 aux /\ 0 < DMSG_DOALIGN 32 aux /\ aux <= DMSG_DOALIGN 32 aux < aux + 64.
Proof.
  intros Ha. rewrite !dmsg_doalign_eq by lia. unfold in_u in Ha. unfold uwrap.
  destruct (decide (aux + 63 < 2 ^ 32)); intros Hne.
  - rewrite !Z.mod_small in * by lia. dlia.
  - exfalso. apply Hne. replace (aux + 63) with (aux + 63 - 2 ^ 32 + 1 * 2 ^ 32) by lia.
    rewrite Z.mod_add, Z.mod_small, Z.div_small by lia. lia.
Qed.

Lemma hdr_bad_none h :
  hdr_bad h = None -> 64 <= hdr_hbytes h <= DMSG_HDR_MAX /\ hdr_abytes h <= DMSG_AUX_MAX.
Proof.
  unfold hdr_bad. destruct (_ && _); [done|]. destruct (_ || _) eqn:E; [done|].
  apply orb_false_iff in E as [[E1 E2]%orb_false_iff E3]. apply bool_decide_eq_false in E1, E2, E3. lia.
Qed.

(** ** More bytes *)

Definition with_rest (v : verdict) (more : bytes) : verdict :=
  match v with Frame any aux sz rest => Frame any aux sz (rest ++ more) | v => v end.

Lemma ref_frame_app bs more : ref_frame bs ≠ Short -> ref_frame (bs ++ more) = with_rest (ref_frame bs) more.
Proof.
  unfold ref_frame. rewrite length_app. destruct (decide (length bs < 64)%nat) as [H64|H64].
  { by rewrite (bool_decide_true (length bs < 64)%nat). }
  rewrite (bool_decide_false (length bs < 64)%nat), (bool_decide_false (length bs + length more < 64)%nat) by lia.
  rewrite decode_app_hdr by lia. destruct (hdr_bad _) as [e|] eqn:Hb; [done|]. set (h := decode bs : dmsg_hdr_t) in *.
  set (hb := Z.to_nat (hdr_hbytes h)). set (ab := Z.to_nat (hdr_abytes h)).
  destruct (decide (length bs < hb)%nat); [by rewrite (bool_decide_true (length bs < hb)%nat)|].
  rewrite (bool_decide_false (length bs < hb)%nat), (bool_decide_false (length bs + length more < hb)%nat) by lia.
  rewrite take_app_le by lia. destruct (negb _); [done|].
  destruct (decide (length bs < hb + ab)%nat); [by rewrite (bool_decide_true (length bs < hb + ab)%nat)|].
  rewrite (bool_decide_false (length bs < hb + ab)%nat), (bool_decide_false (length bs + length more < hb + ab)%nat) by lia.
  rewrite !drop_app_le, take_app_le by (rewrite ?length_drop; lia). by destruct (_ && _).
Qed.

(** A frame is at least a header, and its rest is a part of the bytes. *)
Lemma ref_frame_rest bs any aux sz rest :
  ref_frame bs = Frame any aux sz rest -> exists used, bs = used ++ rest /\ (64 <= length used)%nat.
Proof.
  unfold ref_frame. case_bool_decide; [done|]. destruct (hdr_bad _) eqn:Hb; [done|]. apply hdr_bad_none in Hb.
  case_bool_decide as H1; [done|]. destruct (negb _); [done|]. case_bool_decide as H2; [done|]. destruct (_ && _); [done|].
  intros [= _ _ _ <-]. eexists. split; [symmetry; apply take_drop|]. rewrite length_take. lia.
Qed.

(** ** The verdict, part by part *)

Lemma ref_frame_short bs : (length bs < 64)%nat -> ref_frame bs = Short.
Proof. intros Hl. unfold ref_frame. by rewrite bool_decide_true. Qed.

Lemma ref_frame_bad bs e : (64 <= length bs)%nat -> hdr_bad (decode bs) = Some e -> ref_frame bs = Bad e.
Proof. intros Hl He. unfold ref_frame. rewrite bool_decide_false by lia. by rewrite He. Qed.

Lemma ref_frame_short_hdr bs :
  hdr_bad (decode bs) = None -> Z.of_nat (length bs) < hdr_hbytes (decode bs) -> ref_frame bs = Short.
Proof.
  intros Hb Hl. unfold ref_frame. case_bool_decide; [done|]. rewrite Hb. by rewrite bool_decide_true by lia.
Qed.

Lemma ref_frame_bad_crc hdr x :
  hdr_bad (decode hdr) = None -> Z.of_nat (length hdr) = hdr_hbytes (decode hdr) -> hdr_crc_ok hdr = false ->
  ref_frame (hdr ++ x) = BadCrc.
Proof.
  intros Hb Hl Hc. pose proof (hdr_bad_none _ Hb) as [? _]. unfold ref_frame. rewrite decode_app_hdr by lia.
  rewrite length_app, bool_decide_false by lia. rewrite Hb. rewrite bool_decide_false by lia.
  rewrite take_app_length' by lia. by rewrite Hc.
Qed.

Lemma ref_frame_hdr hdr x :
  hdr_bad (decode hdr) = None -> Z.of_nat (length hdr) = hdr_hbytes (decode hdr) -> hdr_crc_ok hdr = true ->
  ref_frame (hdr ++ x) =
    let ab := Z.to_nat (hdr_abytes (decode hdr)) in
    if bool_decide (length x < ab)%nat then Short
    else if bool_decide (ab ≠ 0%nat) && bool_decide (crc32c_spec (take ab x) ≠ hd_aux_crc (decode (hdr_fix hdr)))
         then Bad DMSG_IOQ_ERROR_ACRC
         else Frame (hdr_fix hdr) (take ab x) (hdr_aux (decode hdr)) (drop ab x).
Proof.
  intros Hb Hl Hc. pose proof (hdr_bad_none _ Hb) as [? _]. unfold ref_frame. rewrite decode_app_hdr by lia.
  rewrite length_app, (bool_decide_false (_ < 64)%nat) by lia. rewrite Hb.
  rewrite (bool_decide_false (_ < Z.to_nat (hdr_hbytes _))%nat) by lia.
  rewrite take_app_length' by lia. rewrite Hc. cbn [negb]. set (ab := Z.to_nat (hdr_abytes _)).
  rewrite (bool_decide_ext (length hdr + length x < Z.to_nat (hdr_hbytes (decode hdr)) + ab)%nat (length x < ab)%nat) by lia.
  rewrite drop_app_length' by lia. rewrite <- drop_drop, drop_app_length' by lia. done.
Qed.

(** ** The header in the order of this host *)

Definition set_hd_hdr_crc (v : Z) (h : dmsg_hdr_t) : dmsg_hdr_t :=
  {| hd_magic := hd_magic h; hd_reserved02 := hd_reserved02 h; hd_salt := hd_salt h; hd_msgid := hd_msgid h;
     hd_circuit := hd_circuit h; hd_link_verifier := hd_link_verifier h; hd_cmd := hd_cmd h; hd_aux_crc := hd_aux_crc h;
     hd_aux_bytes := hd_aux_bytes h; hd_error := hd_error h; hd_aux_descr := hd_aux_descr h;
     hd_reserved38 := hd_reserved38 h; hd_hdr_crc := v |}.

(** The bytes of a header before its checksum. *)
Definition hdr_prefix (h : dmsg_hdr_t) : bytes := concat (take 12 (chunks h)).

Lemma encode_hdr_split h : encode h = hdr_prefix h ++ le_bytes 4 (hd_hdr_crc h) /\ length (hdr_prefix h) = 60%nat.
Proof.
  unfold hdr_prefix, encode. cbn [chunks dmsg_hdr_ondisk take concat]. rewrite !app_nil_r.
  split; [by rewrite <- !app_assoc|by rewrite !length_app, !le_bytes_length].
Qed.

Lemma splice_hdr_crc h rest x :
  splice (encode h ++ rest) 60 (le_bytes 4 x) = encode (set_hd_hdr_crc x h) ++ rest.
Proof.
  destruct (encode_hdr_split h) as [-> Hl]. destruct (encode_hdr_split (set_hd_hdr_crc x h)) as [-> _].
  change (hdr_prefix (set_hd_hdr_crc x h)) with (hdr_prefix h). cbn [set_hd_hdr_crc hd_hdr_crc]. unfold splice.
  rewrite le_bytes_length, <- !app_assoc, take_app_length' by done.
  rewrite (app_assoc (hdr_prefix h) (le_bytes 4 (hd_hdr_crc h))), drop_app_length'; [done|].
  by rewrite length_app, Hl, le_bytes_length.
Qed.

Lemma concat_split_widths ws bs : concat (split_widths ws bs) = take (sum_list ws) bs.
Proof.
  revert bs. induction ws as [|w ws IH]; intros bs; [by rewrite take_0|]. cbn. rewrite IH.
  rewrite <- (take_drop w (take (w + _) bs)), take_take, skipn_firstn_comm. f_equal; f_equal; lia.
Qed.

Lemma encode_decode_hdr bs :
  bytes_ok bs -> (64 <= length bs)%nat -> bs = encode (decode bs : dmsg_hdr_t) ++ drop 64 bs.
Proof.
  intros Hb Hl. rewrite <- (take_drop 64 bs) at 1. f_equal. change 64%nat with (sum_list (widths dmsg_hdr_t)).
  rewrite <- concat_split_widths. unfold encode, decode. f_equal. cbn [widths dmsg_hdr_ondisk split_widths of_chunks chunks
    hd_magic hd_reserved02 hd_salt hd_msgid hd_circuit hd_link_verifier hd_cmd hd_aux_crc hd_aux_bytes hd_error hd_aux_descr
    hd_reserved38 hd_hdr_crc].
  rewrite !drop_drop. cbn [Nat.add].
  repeat apply (f_equal2 cons); [..|done]; symmetry; apply le_bytes_of_le; try (rewrite ?length_take, ?length_drop; lia);
    apply Forall_take; try apply Forall_drop; exact Hb.
Qed.

Lemma hdr_xcrc_range h : valid h -> in_u 32 (hdr_xcrc h).
Proof.
  intros Hv. unfold hdr_xcrc. destruct (hdr_rev _); [apply (bswap_range 4)|]. unfold valid in Hv. cbn in Hv. tauto.
Qed.

Lemma bswap_head_valid h : valid (dmsg_bswap_head h).
Proof.
  unfold valid. cbn.
  split_and!; [apply (bswap_range 2)|apply (bswap_range 2)|apply (bswap_range 4)|apply (bswap_range 8)|apply (bswap_range 8)|apply (bswap_range 8)
    |apply (bswap_range 4)|apply (bswap_range 4)|apply (bswap_range 4)|apply (bswap_range 4)|apply (bswap_range 8)
    |apply (bswap_range 4)|apply (bswap_range 4)].
Qed.

Lemma set_crc_valid h x : valid h -> in_u 32 x -> valid (set_hd_hdr_crc x h).
Proof. unfold valid. cbn. tauto. Qed.

(** [hdr_fix] swaps the fields, or changes nothing. *)
Lemma hdr_fix_encode h rest :
  valid h ->
  hdr_fix (encode h ++ rest) =
    (if hdr_rev h then encode (dmsg_bswap_head (set_hd_hdr_crc (hdr_xcrc h) h)) else encode h) ++ rest.
Proof.
  intros Hv. unfold hdr_fix. rewrite decode_encode_app by done. rewrite splice_hdr_crc. destruct (hdr_rev h) eqn:Hr.
  - rewrite take_app_length' by (by rewrite length_hdr). rewrite decode_encode by (by apply set_crc_valid, hdr_xcrc_range).
    unfold splice. rewrite length_hdr, take_0, drop_app_length' by (by rewrite length_hdr). done.
  - f_equal. f_equal. unfold hdr_xcrc. rewrite Hr. by destruct h.
Qed.

Lemma hdr_fix_eq hdr :
  bytes_ok hdr -> (64 <= length hdr)%nat ->
  hdr_fix hdr = (if hdr_rev (decode hdr)
                 then encode (dmsg_bswap_head (set_hd_hdr_crc (hdr_xcrc (decode hdr)) (decode hdr)))
                 else encode (decode hdr : dmsg_hdr_t)) ++ drop 64 hdr.
Proof.
  intros Hb Hl. rewrite <- hdr_fix_encode by (by apply decode_hdr_valid). f_equal. by apply encode_decode_hdr.
Qed.

Lemma decode_hdr_fix hdr :
  bytes_ok hdr -> (64 <= length hdr)%nat ->
  decode (hdr_fix hdr) = if hdr_rev (decode hdr)
                         then dmsg_bswap_head (set_hd_hdr_crc (hdr_xcrc (decode hdr)) (decode hdr)) else decode hdr.
Proof.
  intros Hb Hl. rewrite hdr_fix_eq by done.
  destruct (hdr_rev _); apply decode_encode_app; [apply bswap_head_valid|by apply decode_hdr_valid].
Qed.

(** The sizes are those of the fixed header. *)
Lemma hdr_fix_sizes hdr :
  bytes_ok hdr -> (64 <= length hdr)%nat ->
  hdr_hbytes (decode hdr) / DMSG_ALIGN = hd_cmd (decode (hdr_fix hdr)) .& DMSGF_SIZE /\
  hdr_aux (decode hdr) = hd_aux_bytes (decode (hdr_fix hdr)).
Proof.
  intros Hb Hl. rewrite decode_hdr_fix by done. unfold hdr_hbytes, hdr_aux, DMSG_ALIGN. rewrite Z.div_mul by lia.
  by destruct (hdr_rev _).
Qed.
