(* ===== verification/DmsgRead.v ===== *)
(** * DmsgRead: dmsg_ioq_read finds the messages of the stream

    The four states of the read, on a link without encryption: from any point between two
    calls, and whatever part of the stream the socket delivers, one pass through the
    switch has the verdict of [ref_frame] on the bytes received since the last message.
    Nothing outside the buffers is touched, and the only assertion that can fail is the
    one after a wrong header checksum. *)

From S2P Require Import Prelude CMonad WpStop Crc32 Layout Dmsg DmsgFrame DmsgFifo DmsgRef.

#[local] Opaque Z.to_nat.

Ltac blia := unfold DMSG_BUF_SIZE, DMSG_HDR_MAX, DMSG_AUX_MAX in *; cbn [length Z.of_nat] in *; lia.

(** ** Allocation *)

Definition root_alive (io : iocom) : Prop :=
  io_locked io = false /\ exists r, io_heap io !! state0 = Some r /\ s_parent r = Some state0.

Definition alloc_for (mtx : mutex_kind) (h : dmsg_hdr_t) : prog iocom dmsg_msg :=
  dmsg_msg_alloc mtx no_addr state0 (hdr_aux h) (hdr_hbytes h / DMSG_ALIGN) NoFunc 0.

(** What the message allocated for a header looks like. *)
Record alloc_shape (h : dmsg_hdr_t) (m : dmsg_msg) : Prop := {
  as_state : m_state m = state0;
  as_tcmd : m_tcmd m = 0;
  as_aux : m_aux_size m = hdr_aux h;
  as_alloc : w_aux_alloc (m_wire m) = if bool_decide (hdr_aux h = 0) then 0 else DMSG_DOALIGN 64 (hdr_aux h);
  as_data : w_aux_data (m_wire m) = [];
}.

Lemma size_not_create x : 0 <= x < 256 -> bool_decide (x .& (DMSGF_CREATE .| DMSGF_REPLY) = DMSGF_CREATE) = false.
Proof.
  intros Hx. apply bool_decide_false. intros H. apply (f_equal (λ z, Z.testbit z 31)) in H. rewrite Z.land_spec in H.
  rewrite (in_u_testbit 8 x) in H by (try done; unfold in_u; lia). done.
Qed.

Lemma alloc_ok mtx h io :
  root_alive io -> 64 <= hdr_hbytes h -> wp (alloc_for mtx h) io (λ m io', alloc_shape h m /\ root_alive io').
Proof.
  intros (Hl & r & Hr & Hp) Hh. destruct (hdr_hbytes_range h) as [Hrange Hland]. unfold alloc_for, dmsg_msg_alloc.
  set (n := hdr_hbytes h / DMSG_ALIGN) in *.
  assert (0 <= n < 256 /\ 64 <= n * DMSG_ALIGN) as [Hn Hn64].
  { subst n. unfold hdr_hbytes, DMSG_ALIGN in *. rewrite Z.div_mul in * by lia. lia. }
  apply wp_bind. unfold lock. apply wp_bind, wp_get. rewrite Hl. apply wp_modify.
  apply wp_bind. unfold dmsg_msg_alloc_locked. rewrite size_not_create by done. apply wp_bind, wp_bind.
  eapply wp_Ok; [unfold load_state; rewrite (bind_Ok get_state _ _ _ _ eq_refl); cbn; by rewrite Hr|].
  apply wp_bind. unfold dmsg_state_hold, update_state. apply wp_bind.
  eapply wp_Ok; [unfold load_state; rewrite (bind_Ok get_state _ _ _ _ eq_refl); cbn; by rewrite Hr|].
  apply wp_modify, wp_bind. apply (wp_deref _ state0); [done|]. apply wp_ret, wp_bind. rewrite Hland.
  apply wp_assertp; [by apply bool_decide_true|].
  assert (forall s (f : dmsg_state -> dmsg_state), s = set_io_heap (alter f state0) (set_locked true io) ->
    load_state state0 s = Ok (f r) s) as Hload.
  { intros s f ->. unfold load_state. rewrite (bind_Ok get_state _ _ _ _ eq_refl). cbn. by rewrite lookup_alter_eq, Hr. }
  do 2 (apply wp_bind; eapply wp_Ok; [by eapply Hload|]). apply wp_ret, wp_bind. unfold unlock. apply wp_bind, wp_get.
  cbn [set_io_heap io_locked set_locked]. apply wp_modify, wp_ret. split; [by split|]. split; [done|].
  exists (set_srefs (u32 (s_refs r + 1)) r). cbn. by rewrite lookup_alter_eq, Hr.
Qed.

(** ** Between two calls *)

Section read.
Context (mtx : mutex_kind) (dfuel : nat) (buf_addr aux_addr : Z) (calm : bool).

(** The connection [c] has received the bytes [got] since the last message; [io] is the
    transaction state without the message under construction. *)
Inductive rx_rep (io : iocom) (c : conn) : bytes -> Prop :=
  | Rep_header1 q0 got :
      fifo_in q0 got (c_rx c) -> q_state q0 = DMSG_MSGQ_STATE_HEADER1 -> q_msg q0 = None -> c_io c = io -> rx_rep io c got
  | Rep_header2 q0 got m :
      let h : dmsg_hdr_t := decode got in
      fifo_in q0 got (c_rx c) -> q_state q0 = DMSG_MSGQ_STATE_HEADER2 -> q_msg q0 = Some m ->
      (64 <= length got)%nat -> hdr_bad h = None ->
      q_hbytes q0 = hdr_hbytes h -> q_abytes q0 = hdr_abytes h -> unaligned_aux_size q0 = hdr_aux h ->
      alloc_for mtx h io = Ok m (c_io c) -> alloc_shape h m ->
      hdr_hbytes h <= Z.of_nat (length got) + (DMSG_BUF_SIZE - fifo_end (c_rx c)) -> rx_rep io c got
  | Rep_auxdata q0 hdr aux m :
      let h : dmsg_hdr_t := decode hdr in
      fifo_in q0 [] (c_rx c) -> q_state q0 = DMSG_MSGQ_STATE_AUXDATA2 ->
      q_msg q0 = Some (frame_msg (hdr_fix hdr) aux (Z.of_nat (length aux)) m) ->
      hdr_bad h = None -> Z.of_nat (length hdr) = hdr_hbytes h -> hdr_crc_ok hdr = true -> bytes_ok aux ->
      q_abytes q0 = hdr_abytes h -> unaligned_aux_size q0 = hdr_aux h -> Z.of_nat (length aux) < hdr_abytes h ->
      alloc_for mtx h io = Ok m (c_io c) -> alloc_shape h m -> rx_rep io c (hdr ++ aux).

(** What the read leaves alone. *)
Record same_rest (c c' : conn) : Prop := {
  sr_flags : c_flags c' = c_flags c;
  sr_tx : c_tx c' = c_tx c;
  sr_out : c_out c' = c_out c;
  sr_sent : c_sent c' = c_sent c;
  sr_seq : q_seq (c_rx c') = q_seq (c_rx c);
  sr_msgq : q_msgq (c_rx c') = q_msgq (c_rx c);
}.

Lemma fifo_in_same q0 F q :
  fifo_in q0 F q -> q_seq q = q_seq q0 /\ q_msgq q = q_msgq q0 /\ q_error q = q_error q0 /\ q_msg q = q_msg q0 /\
    q_abytes q = q_abytes q0 /\ q_hbytes q = q_hbytes q0 /\ unaligned_aux_size q = unaligned_aux_size q0 /\ q_state q = q_state q0.
Proof. by intros []. Qed.

(** Solves [same_rest] and equations between fields of queues with a FIFO. *)
Ltac rest_solve :=
  repeat match goal with x := _ : conn |- _ => subst x | x := _ : dmsg_ioq |- _ => subst x end;
  repeat match goal with H : fifo_in _ _ _ |- _ => apply fifo_in_same in H; cbn in H; destruct_and! H end;
  first [split; fields; congruence | fields; congruence].

Definition is_msg (c : conn) : bool := match q_msg (c_rx c) with Some _ => true | None => false end.

(** The outcome of a pass, with the pointer [msg] it ends with. *)
Definition pass_post (io : iocom) (c : conn) (got : bytes) (msg : bool) (c' : conn) : Prop :=
  exists more, flat (c_in c) = more ++ flat (c_in c') /\ bytes_ok more /\ Forall (event_ok calm) (c_in c') /\ same_rest c c' /\
    root_alive (c_io c') /\ (work (c_in c') <= work (c_in c))%nat /\
    match ref_frame (got ++ more) with
    | Short => msg = false /\ q_error (c_rx c') = 0 /\ rx_rep io c' (got ++ more) /\
                 (c_in c = [] /\ c_in c' = [] \/ (work (c_in c') < work (c_in c))%nat) \/
               calm = false /\ msg = is_msg c' /\ (q_error (c_rx c') = DMSG_IOQ_ERROR_EOF \/ q_error (c_rx c') = DMSG_IOQ_ERROR_SOCK)
    | Bad e => msg = is_msg c' /\ q_error (c_rx c') = e
    | BadCrc => False
    | Frame any aux sz rest => msg = true /\ exists q0 m, fifo_in q0 rest (c_rx c') /\ q_error q0 = 0 /\
        q_msg q0 = Some (frame_msg any aux sz m) /\ alloc_for mtx (decode (got ++ more)) io = Ok m (c_io c') /\
        alloc_shape (decode (got ++ more)) m
    end.

(** How a pass can stop. *)
Definition pass_stop (c : conn) (got : bytes) (e : stop) : Prop :=
  e = AssertFail /\ exists more rest, flat (c_in c) = more ++ rest /\ ref_frame (got ++ more) = BadCrc.

Lemma pass_post_trans io c c1 got more msg c' :
  flat (c_in c) = more ++ flat (c_in c1) -> bytes_ok more -> same_rest c c1 -> (work (c_in c1) <= work (c_in c))%nat ->
  pass_post io c1 (got ++ more) msg c' -> pass_post io c got msg c'.
Proof.
  intros Hf Hb [] Hw (more' & Hf' & Hb' & Hev & [] & Hra & Hw' & Hv). exists (more ++ more'). rewrite <- app_assoc, <- Hf'.
  split; [done|]. split; [by apply Forall_app_2|]. split; [done|]. split; [split; congruence|]. split; [done|].
  split; [lia|]. rewrite app_assoc. destruct (ref_frame _) as [| | |]; [|done|done|done].
  destruct Hv as [(? & ? & ? & Hwk)|Hv]; [left|by right]. split; [done|]. split; [done|]. split; [done|].
  destruct Hwk as [[Hc1 Hc']|Hwk]; [|right; lia]. rewrite Hc1, Hc' in *. cbn in *.
  destruct (c_in c) as [|[] ?]; [by left|right; cbn; lia..].
Qed.

Lemma pass_stop_trans c c1 got more e :
  flat (c_in c) = more ++ flat (c_in c1) -> pass_stop c1 (got ++ more) e -> pass_stop c got e.
Proof.
  intros Hf (-> & more' & rest & Hf' & Hv). split; [done|]. exists (more ++ more'), rest.
  by rewrite <- app_assoc, <- Hf', app_assoc.
Qed.

Lemma the_msg_spec E c m (R : dmsg_msg -> conn -> Prop) : q_msg (c_rx c) = Some m -> R m c -> wps the_msg c E R.
Proof. intros H HR. unfold the_msg. do 2 wps_step. by eapply wps_deref. Qed.

(** ** The auxiliary data *)

Lemma aux_store_spec E c q0 F m off n (R : () -> conn -> Prop) :
  fifo_in q0 F (c_rx c) -> q_msg q0 = Some m -> off = Z.of_nat (length (w_aux_data (m_wire m))) ->
  0 <= n <= Z.of_nat (length F) -> off + n <= w_aux_alloc (m_wire m) ->
  R () (set_c_rx (set_q_msg (Some (upd_wire (set_w_aux_data (w_aux_data (m_wire m) ++ take (Z.to_nat n) F)) m)) (c_rx c)) c) ->
  wps (aux_store off n) c E R.
Proof.
  intros Hf Hm Hoff Hn Ha HR. unfold aux_store.
  do 3 wps_step. inversion Hf as [b e buf Hat Eq]. wps_step. eapply buf_read_spec; [rewrite <- Eq; by apply (fifo_read b e buf F)|].
  wps_step. eapply (the_msg_spec _ _ m); [by rewrite <- Eq|]. rewrite bool_decide_true by lia. unfold put_msg. do 2 wps_step.
  rewrite Hoff, Nat2Z.id, firstn_all. by destruct c.
Qed.

(** The header part of a message under construction. *)
Record hdr_done (io io' : iocom) (q0 : dmsg_ioq) (hdr aux : bytes) (m : dmsg_msg) : Prop := {
  hq_msg : q_msg q0 = Some (frame_msg (hdr_fix hdr) aux (Z.of_nat (length aux)) m);
  hq_error : q_error q0 = 0;
  hq_bad : hdr_bad (decode hdr) = None;
  hq_len : Z.of_nat (length hdr) = hdr_hbytes (decode hdr);
  hq_crc : hdr_crc_ok hdr = true;
  hq_ok : bytes_ok aux;
  hq_hdr : bytes_ok hdr;
  hq_abytes : q_abytes q0 = hdr_abytes (decode hdr);
  hq_unaligned : unaligned_aux_size q0 = hdr_aux (decode hdr);
  hq_alloc : alloc_for mtx (decode hdr) io = Ok m io';
  hq_shape : alloc_shape (decode hdr) m;
  hq_pos : 0 < hdr_abytes (decode hdr);
  hq_le : Z.of_nat (length aux) <= hdr_abytes (decode hdr);
}.

Lemma hdr_done_room io io' q0 hdr aux m :
  hdr_done io io' q0 hdr aux m -> w_aux_alloc (m_wire m) = hdr_abytes (decode hdr) /\ hdr_abytes (decode hdr) <= DMSG_AUX_MAX.
Proof.
  intros []. destruct (hdr_bad_none _ hq_bad0) as [_ Hmax]. split; [|done].
  destruct (aux_alloc_enough (hdr_aux (decode hdr))) as (H1 & H2 & _); [by apply hdr_aux_range|unfold hdr_abytes in *; lia|].
  rewrite (as_alloc _ _ hq_shape0), bool_decide_false by done. exact H2.
Qed.

(** The last steps: the checksum of the auxiliary data. *)
Lemma aux_crc_spec io c q0 hdr aux F m :
  fifo_in q0 F (c_rx c) -> hdr_done io (c_io c) q0 hdr aux m -> Z.of_nat (length aux) = hdr_abytes (decode hdr) ->
  root_alive (c_io c) -> Forall (event_ok calm) (c_in c) ->
  wps (put_msg (set_m_aux_size (hdr_aux (decode hdr)) (frame_msg (hdr_fix hdr) aux (Z.of_nat (length aux)) m));;
       xcrc32 ← dmsg_icrc32 aux_addr aux (hdr_abytes (decode hdr));
       when (bool_decide (xcrc32 ≠ w_aux_crc (m_wire (frame_msg (hdr_fix hdr) aux (Z.of_nat (length aux)) m))))
         (set_error DMSG_IOQ_ERROR_ACRC);;
       mret true) c never (pass_post io c (hdr ++ aux ++ F)).
Proof.
  intros Hf Hd Hl Hra Hev. pose proof (hdr_done_room _ _ _ _ _ _ Hd) as [_ Hmax]. destruct Hd. unfold put_msg. do 3 wps_step.
  unfold dmsg_icrc32. wps_step. eapply wps_deref.
  { rewrite <- Hl. apply iscsi_crc32_whole; [done|]. unfold in_u, DMSG_AUX_MAX in *. lia. }
  change (w_aux_crc _) with (hd_aux_crc (decode (hdr_fix hdr))).
  assert (forall b c', flat (c_in c) = flat (c_in c') -> Forall (event_ok calm) (c_in c') -> same_rest c c' -> root_alive (c_io c') ->
    (work (c_in c') <= work (c_in c))%nat -> match ref_frame (hdr ++ aux ++ F) with
    | Short => False
    | Bad e => b = is_msg c' /\ q_error (c_rx c') = e
    | BadCrc => False
    | Frame any aux' sz rest => b = true /\ exists q0 m, fifo_in q0 rest (c_rx c') /\ q_error q0 = 0 /\
        q_msg q0 = Some (frame_msg any aux' sz m) /\ alloc_for mtx (decode (hdr ++ aux ++ F)) io = Ok m (c_io c') /\
        alloc_shape (decode (hdr ++ aux ++ F)) m
    end -> pass_post io c (hdr ++ aux ++ F) b c') as Hpost.
  { intros b c' H1 H2 H3 H4 Hwk H5. exists []. rewrite (app_nil_r (hdr ++ _)). split; [done|]. split; [constructor|].
    split; [done|]. split; [done|]. split; [done|]. split; [done|]. revert H5. by destruct (ref_frame _). }
  wps_step. apply wps_when; intros Hc.
  - apply bool_decide_eq_true in Hc. unfold set_error. do 3 wps_step. apply Hpost; try done. fields.
    rewrite ref_frame_hdr by done. cbv zeta. rewrite bool_decide_false by (rewrite length_app; lia).
    rewrite take_app_length' by lia. rewrite !bool_decide_true by (done || lia). done.
  - apply bool_decide_eq_false in Hc. apply dec_stable in Hc. wps_step. apply Hpost; try done. fields.
    rewrite ref_frame_hdr by done. cbv zeta. rewrite bool_decide_false by (rewrite length_app; lia).
    rewrite take_app_length', drop_app_length' by lia. rewrite (bool_decide_false (crc32c_spec _ ≠ _)) by tauto.
    rewrite andb_false_r. split; [done|].
    exists (set_q_msg (Some (frame_msg (hdr_fix hdr) aux (hdr_aux (decode hdr)) m)) q0), m.
    pose proof (hdr_bad_none _ hq_bad0) as [? _]. rewrite decode_app_hdr by lia. split_and!; try done.
    destruct Hf as [b e buf Hat]. exact (Fifo_in _ _ b e buf Hat).
Qed.

(** The message under construction and the FIFO after [n] bytes of it were stored. *)
Lemma hdr_done_store io io' q0 hdr aux m bs :
  hdr_done io io' q0 hdr aux m -> bytes_ok bs -> Z.of_nat (length (aux ++ bs)) <= hdr_abytes (decode hdr) ->
  hdr_done io io' (set_q_msg (Some (frame_msg (hdr_fix hdr) (aux ++ bs) (Z.of_nat (length (aux ++ bs))) m)) q0) hdr (aux ++ bs) m.
Proof. intros [] Hb Hl. split; try done. by apply Forall_app_2. Qed.

Lemma hdr_done_rep io c q0 hdr aux m :
  fifo_in q0 [] (c_rx c) -> q_state q0 = DMSG_MSGQ_STATE_AUXDATA2 -> hdr_done io (c_io c) q0 hdr aux m ->
  Z.of_nat (length aux) < hdr_abytes (decode hdr) -> rx_rep io c (hdr ++ aux).
Proof. intros Hf Hst [] Hlt. by eapply Rep_auxdata. Qed.

(** Bytes of the FIFO go to the auxiliary data. *)
Lemma aux_take_spec io c q0 hdr aux F m n :
  fifo_in q0 F (c_rx c) -> hdr_done io (c_io c) q0 hdr aux m -> 0 <= n <= Z.of_nat (length F) ->
  Z.of_nat (length aux) + n <= hdr_abytes (decode hdr) ->
  wps (when (bool_decide (n ≠ 0))
         (aux_store (Z.of_nat (length aux)) n;;
          m ← the_msg;
          put_msg (set_m_aux_size (m_aux_size m + n) m);;
          advance n)) c never (λ _ c', exists q', c' = set_c_rx q' c /\
    fifo_in (set_q_msg (Some (frame_msg (hdr_fix hdr) (aux ++ take (Z.to_nat n) F)
                               (Z.of_nat (length (aux ++ take (Z.to_nat n) F))) m)) q0) (drop (Z.to_nat n) F) q').
Proof.
  intros Hf Hd Hn Hle. pose proof (hdr_done_room _ _ _ _ _ _ Hd) as [Hroom _]. apply wps_when; intros Hz.
  - wps_step. apply bool_decide_eq_true in Hz.
    eapply (aux_store_spec never c q0 F); [done|apply (hq_msg _ _ _ _ _ _ Hd)|done|done|cbn; lia|].
    wps_step. eapply the_msg_spec; [done|]. unfold put_msg, advance. do 4 wps_step. fields.
    eexists. split; [by destruct c|]. rewrite length_app, length_take.
    replace (Z.of_nat (length aux + Z.to_nat n `min` length F)) with (Z.of_nat (length aux) + n) by lia.
    destruct Hf as [b e buf Hat]. exact (Fifo_in _ _ (b + n) e buf (fifo_advance _ _ _ _ _ Hat Hn)).
  - apply bool_decide_eq_false, dec_stable in Hz. subst n. exists (c_rx c). split; [by destruct c|].
    change (Z.to_nat 0) with 0%nat. rewrite take_0, app_nil_r, drop_0. destruct Hf as [b e buf Hat].
    replace (set_q_msg _ q0) with q0; [by constructor|]. rewrite <- (hq_msg _ _ _ _ _ _ Hd). by destruct q0.
Qed.

Lemma auxdata2_spec io c q0 hdr aux F m n :
  fifo_in q0 F (c_rx c) -> q_state q0 = DMSG_MSGQ_STATE_AUXDATA2 -> hdr_done io (c_io c) q0 hdr aux m ->
  (Z.of_nat (length aux) < hdr_abytes (decode hdr) -> F = [] /\ n = 0) -> bytes_ok F ->
  has (c_flags c) DMSG_IOCOMF_CRYPTED = false -> Forall (event_ok calm) (c_in c) -> root_alive (c_io c) ->
  wps (ioq_auxdata2 dfuel aux_addr true n) c never (pass_post io c (hdr ++ aux ++ F)).
Proof.
  intros Hf Hst Hd Hlt HF Hcr Hev Hra. pose proof (hdr_done_room _ _ _ _ _ _ Hd) as [Hroom Hmax].
  pose proof (hq_le _ _ _ _ _ _ Hd) as Hle. pose proof (hq_pos _ _ _ _ _ _ Hd) as Hpos.
  unfold ioq_auxdata2. wps_step. wps_step; [done|]. do 2 wps_step.
  destruct (fifo_in_same _ _ _ Hf) as (_ & _ & _ & Em & Ea & _ & Eu & _).
  wps_step. eapply the_msg_spec; [rewrite Em; apply (hq_msg _ _ _ _ _ _ Hd)|].
  set (msg := frame_msg (hdr_fix hdr) aux (Z.of_nat (length aux)) m). change (m_aux_size msg) with (Z.of_nat (length aux)).
  rewrite Ea, Eu, (hq_abytes _ _ _ _ _ _ Hd), (hq_unaligned _ _ _ _ _ _ Hd). unfold DMSG_AUX_MAX in Hmax.
  set (ab := hdr_abytes (decode hdr)) in *. rewrite !u64_small by lia.
  wps_step. wps_step. eapply wps_mono; [by apply (makeroom_spec _ q0 F)|]. intros nmax q1 (Hf1 & Hnm & Hroom1). cbv beta.
  assert (bool_decide (Z.of_nat (length aux) < ab) = true -> 0 < nmax) as Hnmax.
  { intros Hb%bool_decide_eq_true. destruct (Hlt Hb) as [-> _]. destruct Hroom1 as [?|Hb0]; [cbn in *; dlia|].
    destruct Hf1 as [b e buf Hat]. pose proof (fifo_bounds _ _ _ _ Hat). cbn in Hb0, Hnm. blia. }
  set (c1 := set_c_rx q1 c). wps_step. apply wps_mono with (P := λ _ c', c' = c1).
  { apply wps_when; intros Hneed; [|done]. wps_step. wps_step; [by apply bool_decide_true; auto|].
    wps_step; [by apply bool_decide_true, Hlt; apply bool_decide_eq_true in Hneed|done]. }
  intros [] ? ->. wps_step. eapply wps_mono; [apply (ioq_more_spec never calm dfuel q0 F c1); [done|done|done|by auto]|].
  assert (same_rest c c1) as Hs1 by rest_solve.
  intros [n1|] c2 (more & evs & Hfl & Hmore & Hevs & Hwk & Hr).
  2: { destruct Hr as (Hcalm & -> & Hneed%bool_decide_eq_true & e & He & ->). destruct (Hlt Hneed) as [-> _]. wps_step.
    exists []. split; [done|]. split; [done|]. split; [done|]. split; [rest_solve|]. split; [done|]. split; [done|].
    rewrite !app_nil_r, ref_frame_hdr by apply Hd. cbv zeta. rewrite bool_decide_true by lia. right. split; [done|]. split; [|done].
    unfold is_msg, c1. fields. apply fifo_in_same in Hf1 as (_ & _ & _ & -> & _). by rewrite (hq_msg _ _ _ _ _ _ Hd). }
  destruct Hr as (q2 & -> & Hf2 & _ & -> & Hw). set (c2 := set_c_rx q2 (set_c_in evs c1)). cbv zeta.
  set (G := F ++ more) in *. set (left := ab - Z.of_nat (length aux)).
  set (nn := if bool_decide (left < Z.of_nat (length G)) then left else Z.of_nat (length G)).
  assert (0 <= nn <= Z.of_nat (length G) /\ nn <= left /\ (nn < left -> nn = Z.of_nat (length G))) as (Hnn & Hnl & Hnf).
  { clear -Hle. subst nn left. case_bool_decide; lia. }
  wps_step. eapply wps_mono; [apply (aux_take_spec io c2 q0 hdr aux G m nn); [done|done|done|lia]|].
  intros [] c3 (q3 & -> & Hf3). set (bs := take (Z.to_nat nn) G) in *.
  assert (bytes_ok G) as HG by (by apply Forall_app_2).
  assert (length bs = Z.to_nat nn) as Hbs by (unfold bs; rewrite length_take; lia).
  pose proof (hdr_done_store _ _ _ _ _ _ bs Hd ltac:(by apply Forall_take) ltac:(rewrite length_app; lia)) as Hd3.
  set (q0' := set_q_msg _ q0) in *. wps_step.
  eapply the_msg_spec; [fields; apply fifo_in_same in Hf3 as (_ & _ & _ & -> & _); apply (hq_msg _ _ _ _ _ _ Hd3)|].
  change (m_aux_size (frame_msg _ _ ?x _)) with x. rewrite bool_decide_decide.
  assert (same_rest c (set_c_rx q3 c2)) as Hs3 by rest_solve.
  assert (hdr ++ aux ++ F ++ more = hdr ++ (aux ++ bs) ++ drop (Z.to_nat nn) G) as Egot.
  { rewrite <- app_assoc. unfold bs. by rewrite take_drop. }
  destruct (decide _) as [Hless|Hfull]; rewrite length_app, Hbs in *.
  - wps_step. assert (nn = Z.of_nat (length G)) as Eall by lia. exists more. split; [done|]. split; [done|]. split; [done|].
    split; [done|]. split; [done|]. split; [done|]. rewrite <- !app_assoc, Egot, ref_frame_hdr by apply Hd. cbv zeta.
    rewrite Eall, drop_ge, app_nil_r in * by lia. rewrite bool_decide_true by (rewrite length_app; lia). left.
    split; [done|]. split; [fields; apply fifo_in_same in Hf3 as (_ & _ & -> & _); apply Hd|]. split; [by eapply hdr_done_rep; [..|rewrite length_app; lia]|].
    rewrite bool_decide_true in Hw by lia. exact Hw.
  - wps_step. wps_step; [apply bool_decide_true; lia|].
    pose proof (aux_crc_spec io (set_c_rx q3 c2) q0' hdr (aux ++ bs) (drop (Z.to_nat nn) G) m Hf3 Hd3) as Hcrc.
    rewrite length_app, Hbs in Hcrc. eapply wps_mono; [apply Hcrc; [lia|done|done]|].
    intros b c' Hp. eapply (pass_post_trans _ _ _ _ more); [| | | |rewrite <- !app_assoc, Egot; exact Hp]; [done|done|done|].
    done.
Qed.

(** The first bytes of the auxiliary data, with what follows. *)
Lemma aux_first_spec {A} E c q0 hdr F m k (K : prog conn A) R :
  fifo_in q0 F (c_rx c) -> q_msg q0 = Some (load_any (hdr_fix hdr) m) -> w_aux_data (m_wire m) = [] ->
  0 <= k <= Z.of_nat (length F) -> k <= w_aux_alloc (m_wire m) ->
  (forall q', fifo_in (set_q_msg (Some (frame_msg (hdr_fix hdr) (take (Z.to_nat k) F) k m)) q0) (drop (Z.to_nat k) F) q' ->
     wps K (set_c_rx q' c) E R) ->
  wps (aux_store 0 k;; m ← the_msg; put_msg (set_m_aux_size k m);; advance k;; K) c E R.
Proof.
  intros Hf Hm Hdata Hk Ha HK. wps_step.
  eapply (aux_store_spec E c q0 F); [done|exact Hm|cbn; by rewrite Hdata|done|cbn; lia|]. cbn [load_any m_wire w_aux_data].
  rewrite Hdata. cbn [app]. wps_step. eapply the_msg_spec; [done|]. unfold put_msg, advance. do 6 wps_step. fields.
  match goal with |- wps K ?c' _ _ => replace c' with (set_c_rx (c_rx c') c) by (by destruct c) end. apply HK. fields.
  destruct Hf as [b e buf Hat]. exact (Fifo_in _ _ (b + k) e buf (fifo_advance _ _ _ _ _ Hat Hk)).
Qed.

Lemma auxdata1_spec io c q0 hdr F m :
  fifo_in q0 F (c_rx c) -> q_msg q0 = Some (load_any (hdr_fix hdr) m) ->
  hdr_done io (c_io c) (set_q_msg (Some (frame_msg (hdr_fix hdr) [] 0 m)) q0) hdr [] m -> bytes_ok F ->
  has (c_flags c) DMSG_IOCOMF_CRYPTED = false -> Forall (event_ok calm) (c_in c) -> root_alive (c_io c) ->
  wps (ioq_auxdata1 dfuel aux_addr true (Z.of_nat (length F))) c never (pass_post io c (hdr ++ F)).
Proof.
  intros Hf Hm Hd HF Hcr Hev Hra. pose proof (hdr_done_room _ _ _ _ _ _ Hd) as [Hroom Hmax].
  pose proof (hq_pos _ _ _ _ _ _ Hd) as Hpos. destruct (fifo_in_same _ _ _ Hf) as (_ & _ & _ & Em & Ea & _).
  pose proof (hq_abytes _ _ _ _ _ _ Hd) as Hab. cbn in Hab. rewrite Hab in Ea. pose proof (as_data _ _ (hq_shape _ _ _ _ _ _ Hd)) as Hdata.
  (** The next state, with [k] bytes stored. *)
  assert (forall k q' n, k = Z.of_nat (length F) `min` hdr_abytes (decode hdr) ->
    fifo_in (set_q_msg (Some (frame_msg (hdr_fix hdr) (take (Z.to_nat k) F) k m)) q0) (drop (Z.to_nat k) F) q' ->
    (k < hdr_abytes (decode hdr) -> n = 0) ->
    wps (on_rx (modify (set_q_state DMSG_MSGQ_STATE_AUXDATA2));; ioq_auxdata2 dfuel aux_addr true n) (set_c_rx q' c) never
      (pass_post io c (hdr ++ F))) as Hnext.
  { intros k q' n Hk Hf' Hn. do 3 wps_step. fields. set (q1 := set_q_state _ q').
    set (q0' := set_q_state DMSG_MSGQ_STATE_AUXDATA2
                  (set_q_msg (Some (frame_msg (hdr_fix hdr) (take (Z.to_nat k) F) k m)) q0)).
    assert (fifo_in q0' (drop (Z.to_nat k) F) q1) as Hf1 by (destruct Hf' as [b e buf Hat]; exact (Fifo_in q0' _ b e buf Hat)).
    assert (length (take (Z.to_nat k) F) = Z.to_nat k) as Hl by (rewrite length_take; lia).
    eapply wps_mono.
    - apply (auxdata2_spec io (set_c_rx q1 c) q0' hdr (take (Z.to_nat k) F) (drop (Z.to_nat k) F) m); try done.
      + assert (Z.of_nat (length (take (Z.to_nat k) F)) = k) as Hlz by lia. destruct Hd. split; try done.
        * cbn. by rewrite Hlz.
        * by apply Forall_take.
        * lia.
      + intros Hlt. rewrite Hl in Hlt. split; [apply drop_ge; lia|apply Hn; lia].
      + by apply Forall_drop.
    - rewrite take_drop. intros b c' Hp. eapply (pass_post_trans _ _ _ _ []); [..|rewrite app_nil_r; exact Hp]; try done.
      + constructor.
      + rest_solve. }
  unfold ioq_auxdata1. do 2 wps_step. wps_step. eapply the_msg_spec; [by rewrite Em|]. rewrite Ea.
  wps_step. destruct (decide (hdr_abytes (decode hdr) <= Z.of_nat (length F))) as [Hle|Hgt].
  - rewrite bool_decide_true by done. apply (aux_first_spec _ _ q0 hdr F m); [done|done|done|lia|lia|]. intros q' Hf'.
    assert (fifo_beg q' <= fifo_cdx q' /\ fifo_cdx q' <= fifo_cdn q') as [H1 H2].
    { destruct Hf' as [b e buf Hat]. cbn. pose proof (fifo_bounds _ _ _ _ Hat). lia. }
    do 2 wps_step. wps_step. wps_step; [by apply bool_decide_true|]. wps_step. wps_step; [by apply bool_decide_true|].
    wps_step. eapply Hnext; [|exact Hf'|]; lia.
  - rewrite bool_decide_false by done. case_bool_decide as Hz.
    + apply (aux_first_spec _ _ q0 hdr F m); [done|done|done|lia|lia|]. intros q' Hf'.
      assert (fifo_beg q' <= fifo_cdx q' /\ fifo_cdx q' <= fifo_cdn q') as [H1 H2].
      { destruct Hf' as [b e buf Hat]. cbn. pose proof (fifo_bounds _ _ _ _ Hat). lia. }
      do 3 wps_step. fields. rewrite bool_decide_false by lia. do 2 wps_step. wps_step. wps_step; [by apply bool_decide_true|].
      wps_step. wps_step; [by apply bool_decide_true|]. wps_step. eapply Hnext; [|exact Hf'|]; lia.
    + assert (F = []) as -> by (by destruct F). unfold put_msg. do 3 wps_step.
      apply (Hnext 0); [cbn; lia| |done]. destruct Hf as [b e buf Hat]. change (Z.to_nat 0) with 0%nat.
      replace (frame_msg (hdr_fix hdr) (take 0 []) 0 m) with (set_m_aux_size 0 (load_any (hdr_fix hdr) m)).
      * exact (Fifo_in _ _ b e buf Hat).
      * unfold frame_msg, load_any. fields. by rewrite take_nil, Hdata.
Qed.

(** ** The extended header *)

Lemma set_c_rx_id c : set_c_rx (c_rx c) c = c.
Proof. by destruct c. Qed.

Lemma rx_read E c q0 F b n (R : bytes -> conn -> Prop) :
  fifo_in q0 F (c_rx c) -> b = fifo_beg (c_rx c) -> 0 <= n <= Z.of_nat (length F) -> R (take (Z.to_nat n) F) c ->
  wps (on_rx (buf_read b n)) c E R.
Proof.
  intros Hf -> Hn HR. wps_step. eapply buf_read_spec; [|by rewrite set_c_rx_id].
  inversion Hf as [b e buf Hat Eq]. by eapply fifo_read.
Qed.

Lemma rx_write E c q0 F b off bs (R : () -> conn -> Prop) :
  fifo_in q0 F (c_rx c) -> b = fifo_beg (c_rx c) + off -> 0 <= off -> off + Z.of_nat (length bs) <= Z.of_nat (length F) ->
  (forall q', fifo_in q0 (splice F (Z.to_nat off) bs) q' -> fifo_beg q' = fifo_beg (c_rx c) -> R () (set_c_rx q' c)) ->
  wps (on_rx (buf_write b bs)) c E R.
Proof.
  intros Hf -> Ho Hl HR. wps_step. inversion Hf as [b e buf Hat Eq]. pose proof (fifo_bounds _ _ _ _ Hat).
  apply buf_write_spec; [cbn; lia|cbn; blia|]. rewrite Eq. apply HR; [|by rewrite <- Eq]. rewrite <- Eq.
  exact (Fifo_in q0 _ b e _ (fifo_write b e buf F off bs Hat Ho Hl)).
Qed.

(** The checksum of the header at the start of the FIFO is tested, its place restored, and
    its byte order adjusted. *)
Definition check_header (bs : bytes) (beg hbytes : Z) (K : bytes -> prog conn bool) : prog conn bool :=
  let head : dmsg_hdr_t := decode bs in
  let rev := bool_decide (hd_magic head = DMSG_HDR_MAGIC_REV) in
  let xcrc32 := if rev then bswap 4 (hd_hdr_crc head) else hd_hdr_crc head in
  on_rx (buf_write (beg + 60) (le_bytes 4 0));;
  bs ← on_rx (buf_read beg hbytes);
  crc ← dmsg_icrc32 (buf_addr + beg) bs hbytes;
  if bool_decide (crc ≠ xcrc32) then set_error DMSG_IOQ_ERROR_XCRC;; stop_with AssertFail
  else
    on_rx (buf_write (beg + 60) (le_bytes 4 xcrc32));;
    when rev
      (bs ← on_rx (buf_read beg 64);
       on_rx (buf_write beg (encode (dmsg_bswap_head (decode bs)))));;
    bs ← on_rx (buf_read beg hbytes);
    K bs.

Lemma check_header_spec (E : stop -> Prop) c q0 hdr X (K : bytes -> prog conn bool) R :
  fifo_in q0 (hdr ++ X) (c_rx c) -> (64 <= length hdr)%nat -> Z.of_nat (length hdr) <= DMSG_HDR_MAX -> bytes_ok hdr ->
  (hdr_crc_ok hdr = false -> E AssertFail) ->
  (hdr_crc_ok hdr = true -> forall q', fifo_in q0 (hdr_fix hdr ++ X) q' -> wps (K (hdr_fix hdr)) (set_c_rx q' c) E R) ->
  wps (check_header hdr (fifo_beg (c_rx c)) (Z.of_nat (length hdr)) K) c E R.
Proof.
  intros Hf H64 Hmax Hok Hbad HK. unfold check_header.
  change (if bool_decide (hd_magic (decode hdr) = DMSG_HDR_MAGIC_REV) then bswap 4 (hd_hdr_crc (decode hdr))
          else hd_hdr_crc (decode hdr)) with (hdr_xcrc (decode hdr)).
  assert (forall off xs, (off + length xs <= length hdr)%nat -> splice (hdr ++ X) off xs = splice hdr off xs ++ X) as Hsp.
  { intros off xs Hl. unfold splice. rewrite take_app_le, drop_app_le by lia. by rewrite <- !app_assoc. }
  assert (forall (b : bytes), length b = length hdr -> take (Z.to_nat (Z.of_nat (length hdr))) (b ++ X) = b) as Htk.
  { intros b Hl. rewrite Nat2Z.id. by apply take_app_length'. }
  assert (forall z, length (splice hdr 60 (le_bytes 4 z)) = length hdr) as Hl60.
  { intros z. apply length_splice. rewrite le_bytes_length. lia. }
  wps_step. eapply (rx_write _ _ q0 (hdr ++ X) _ 60); [done|done|lia|rewrite le_bytes_length, length_app; lia|].
  intros q1 Hf1 Hb1. change (Z.to_nat 60) with 60%nat in Hf1. rewrite Hsp in Hf1 by (rewrite le_bytes_length; lia).
  wps_step. eapply (rx_read _ _ q0); [exact Hf1|done|rewrite length_app, Hl60; lia|]. rewrite Htk by apply Hl60.
  wps_step. unfold dmsg_icrc32. eapply wps_deref.
  { rewrite <- (Hl60 0). apply iscsi_crc32_whole; [by apply splice_ok; [|apply le_bytes_ok]|]. rewrite Hl60. unfold in_u. blia. }
  destruct (decide (crc32c_spec (splice hdr 60 (le_bytes 4 0)) = hdr_xcrc (decode hdr))) as [Hc|Hc].
  2: { rewrite bool_decide_true by done. unfold set_error. do 3 wps_step. apply Hbad. by apply bool_decide_false. }
  rewrite bool_decide_false by tauto. wps_step.
  eapply (rx_write _ _ q0 _ _ 60); [exact Hf1|by cbn; rewrite Hb1|lia|rewrite le_bytes_length, length_app, Hl60; lia|].
  intros q2 Hf2 Hb2. change (Z.to_nat 60) with 60%nat in Hf2. rewrite <- Hsp, splice_splice, Hsp in Hf2
    by (rewrite ?le_bytes_length, ?length_app; lia). cbn [set_c_rx c_rx] in Hb2. rewrite Hb1 in Hb2.
  wps_step. apply wps_mono with (P := λ _ c', exists q', c' = set_c_rx q' c /\ fifo_in q0 (hdr_fix hdr ++ X) q' /\
    fifo_beg q' = fifo_beg (c_rx c)).
  { unfold hdr_fix. change (hdr_rev (decode hdr)) with (bool_decide (hd_magic (decode hdr) = DMSG_HDR_MAGIC_REV)).
    apply wps_when; intros Hr; rewrite Hr; [|by exists q2].
    wps_step. eapply (rx_read _ _ q0); [exact Hf2|done|rewrite length_app, Hl60; lia|]. change (Z.to_nat 64) with 64%nat.
    rewrite take_app_le by (rewrite Hl60; lia).
    eapply (rx_write _ _ q0 _ _ 0); [exact Hf2|cbn; lia|lia|rewrite length_hdr, length_app, Hl60; lia|].
    intros q3 Hf3 Hb3. exists q3. split; [done|]. split; [|by rewrite Hb3]. change (Z.to_nat 0) with 0%nat in Hf3.
    unfold splice at 1 in Hf3. rewrite drop_app_le in Hf3 by (rewrite length_hdr, Hl60; lia). rewrite take_0 in Hf3.
    cbn [app] in Hf3. unfold splice at 1. rewrite take_0. cbn [app]. rewrite <- app_assoc. exact Hf3. }
  intros [] c' (q' & -> & Hf' & Hb'). wps_step.
  eapply (rx_read _ _ q0); [exact Hf'|done|rewrite length_app, length_hdr_fix by done; lia|].
  rewrite Htk by (by apply length_hdr_fix). apply HK; [by apply bool_decide_true|done].
Qed.

(** The message takes the header; the auxiliary data follows, if there is any. *)
Lemma header_taken_spec io c q0 hdr X m :
  fifo_in q0 (hdr_fix hdr ++ X) (c_rx c) -> q_msg q0 = Some m -> q_error q0 = 0 ->
  hdr_bad (decode hdr) = None -> Z.of_nat (length hdr) = hdr_hbytes (decode hdr) -> hdr_crc_ok hdr = true ->
  q_abytes q0 = hdr_abytes (decode hdr) -> unaligned_aux_size q0 = hdr_aux (decode hdr) ->
  alloc_for mtx (decode hdr) io = Ok m (c_io c) -> alloc_shape (decode hdr) m -> bytes_ok hdr -> bytes_ok X ->
  has (c_flags c) DMSG_IOCOMF_CRYPTED = false -> Forall (event_ok calm) (c_in c) -> root_alive (c_io c) ->
  wps (m ← the_msg;
       put_msg (load_any (hdr_fix hdr) m);;
       advance (hdr_hbytes (decode hdr));;
       if bool_decide (hdr_abytes (decode hdr) = 0) then mret true
       else
         on_rx (modify (set_q_state DMSG_MSGQ_STATE_AUXDATA1));;
         ioq_auxdata1 dfuel aux_addr true (Z.of_nat (length (hdr ++ X)) - hdr_hbytes (decode hdr)))
    c never (pass_post io c (hdr ++ X)).
Proof.
  intros Hf Hm Herr Hbad Hlen Hcrc Hab Hun Hal Hsh Hok HX Hcr Hev Hra. destruct (hdr_bad_none _ Hbad) as [Hr _].
  wps_step. eapply the_msg_spec; [apply fifo_in_same in Hf as (_ & _ & _ & -> & _); exact Hm|]. unfold put_msg, advance.
  do 6 wps_step. fields. match goal with |- wps _ ?c' _ _ => set (c1 := c') end. set (q1 := c_rx c1). set (msg := load_any (hdr_fix hdr) m).
  assert (fifo_in (set_q_msg (Some msg) q0) X q1) as Hf1.
  { unfold q1, c1. fields. rewrite <- Hlen, <- (length_hdr_fix hdr) by lia. destruct Hf as [b e buf Hat].
    apply (fifo_advance _ _ _ _ (Z.of_nat (length (hdr_fix hdr)))) in Hat; [|rewrite length_app; lia].
    rewrite Nat2Z.id, drop_app_length in Hat. exact (Fifo_in _ _ _ e buf Hat). }
  assert (same_rest c c1) as Hs1 by rest_solve. pose proof (as_data _ _ Hsh) as Hdata. pose proof (as_aux _ _ Hsh) as Haux.
  case_bool_decide as Hz.
  - wps_step. exists []. rewrite app_nil_r. split; [done|]. split; [constructor|]. split; [done|]. split; [done|]. split; [done|].
    split; [done|]. rewrite ref_frame_hdr by done. cbv zeta. rewrite Hz. change (Z.to_nat 0) with 0%nat. rewrite bool_decide_false by lia.
    rewrite (bool_decide_false (0%nat ≠ 0%nat)) by tauto. cbn [andb]. split; [done|].
    exists (set_q_msg (Some msg) q0), m. rewrite drop_0, decode_app_hdr by lia. split_and!; try done. cbn.
    unfold msg, frame_msg, load_any. fields. by rewrite Hdata, Haux, take_0.
  - do 3 wps_step. fields. rewrite length_app, Nat2Z.inj_add, Hlen. replace (_ + _ - _) with (Z.of_nat (length X)) by lia.
    set (q2 := set_q_state DMSG_MSGQ_STATE_AUXDATA1 q1).
    set (q0' := set_q_state DMSG_MSGQ_STATE_AUXDATA1 (set_q_msg (Some msg) q0)).
    assert (fifo_in q0' X q2) as Hf2 by (destruct Hf1 as [b e buf Hat]; exact (Fifo_in q0' _ b e buf Hat)).
    eapply wps_mono; [apply (auxdata1_spec io (set_c_rx q2 c1) q0' hdr X m); try done|].
    + split; try done; [constructor| |cbn].
      * assert (0 <= hdr_abytes (decode hdr)); [|lia]. unfold hdr_abytes. rewrite dmsg_doalign_eq by lia.
        pose proof (in_u_uwrap 32 (hdr_aux (decode hdr) + 63) ltac:(lia)) as [? _]. dlia.
      * assert (0 <= hdr_abytes (decode hdr)); [|lia]. unfold hdr_abytes. rewrite dmsg_doalign_eq by lia.
        pose proof (in_u_uwrap 32 (hdr_aux (decode hdr) + 63) ltac:(lia)) as [? _]. dlia.
    + intros b c' Hp. eapply (pass_post_trans _ _ (set_c_rx q2 c1) _ []); [done|by apply Forall_nil|rest_solve|done|rewrite app_nil_r; exact Hp].
Qed.

Lemma header2_spec io c q0 got m nmax :
  let h : dmsg_hdr_t := decode got in
  fifo_in q0 got (c_rx c) -> q_state q0 = DMSG_MSGQ_STATE_HEADER2 -> q_msg q0 = Some m -> q_error q0 = 0 ->
  (64 <= length got)%nat -> hdr_bad h = None ->
  q_hbytes q0 = hdr_hbytes h -> q_abytes q0 = hdr_abytes h -> unaligned_aux_size q0 = hdr_aux h ->
  alloc_for mtx h io = Ok m (c_io c) -> alloc_shape h m ->
  nmax = DMSG_BUF_SIZE - fifo_end (c_rx c) -> hdr_hbytes h <= Z.of_nat (length got) + nmax -> bytes_ok got ->
  has (c_flags c) DMSG_IOCOMF_CRYPTED = false -> Forall (event_ok calm) (c_in c) -> root_alive (c_io c) ->
  wps (ioq_header2 dfuel buf_addr aux_addr true (Z.of_nat (length got)) nmax) c (pass_stop c got) (pass_post io c got).
Proof.
  intros h Hf Hst Hm Herr H64 Hbad Hhb Hab Hun Hal Hsh Hnm Hroom Hok Hcr Hev Hra.
  destruct (fifo_in_same _ _ _ Hf) as (_ & _ & _ & _ & Ea & Eh & Eu & _). destruct (hdr_bad_none _ Hbad) as [Hr _].
  unfold ioq_header2. wps_step. wps_step; [done|]. do 2 wps_step. rewrite Eh, Hhb. wps_step.
  apply wps_mono with (P := λ _ c', c' = c).
  { apply wps_when; intros Hneed; [|done]. apply bool_decide_eq_true in Hneed. wps_step; [apply bool_decide_true; lia|done]. }
  intros [] ? ->. wps_step.
  eapply wps_mono; [apply (ioq_more_spec _ calm dfuel q0 got c); [done|done|done|]|].
  { intros Hneed%bool_decide_eq_true. lia. }
  intros [n1|] c2 (more & evs & Hfl & Hmore & Hevs & Hwk & Hp).
  2: { destruct Hp as (Hcalm & -> & Hneed%bool_decide_eq_true & e & He & ->). wps_step. exists []. split; [done|]. split; [done|].
    split; [done|]. split; [rest_solve|]. split; [done|]. split; [done|]. rewrite app_nil_r, ref_frame_short_hdr by done. right.
    split; [done|]. split; [|done]. unfold is_msg. fields. apply fifo_in_same in Hf as (_ & _ & _ & -> & _). by rewrite Hm. }
  destruct Hp as (q2 & -> & Hf2 & He2 & -> & Hw). set (c2 := set_c_rx q2 (set_c_in evs c)).
  assert (same_rest c c2) as Hs2 by rest_solve. destruct (fifo_in_same _ _ _ Hf2) as (_ & _ & E2 & _ & Ea2 & Eh2 & Eu2 & _).
  do 2 wps_step. cbv zeta. change (c_rx c2) with q2. rewrite Eh2, Hhb. destruct (decide (Z.of_nat (length (got ++ more)) < hdr_hbytes h)) as [Hlt|Hge].
  { rewrite (bool_decide_true (_ < _)) by done. wps_step. exists more. split; [done|]. split; [done|]. split; [done|]. split; [done|].
    split; [done|]. split; [done|]. pose proof (decode_app_hdr got more H64) as Hdec. rewrite ref_frame_short_hdr by (by rewrite Hdec). left.
    split; [done|]. split; [by change (c_rx c2) with q2; rewrite E2|]. split.
    - apply (Rep_header2 _ _ q0 _ m); rewrite ?Hdec; try done; [rewrite length_app; lia|]. rewrite length_app. change (c_rx c2) with q2.
      rewrite He2. unfold h in *. lia.
    - rewrite length_app in Hlt. rewrite bool_decide_true in Hw by lia. exact Hw. }
  rewrite (bool_decide_false (_ < _)) by done. set (hdr := take (Z.to_nat (hdr_hbytes h)) (got ++ more)).
  set (X := drop (Z.to_nat (hdr_hbytes h)) (got ++ more)).
  assert (got ++ more = hdr ++ X) as Egot by (symmetry; apply take_drop).
  assert (Z.of_nat (length hdr) = hdr_hbytes h) as Hlen by (unfold hdr; rewrite length_take; lia).
  assert (decode hdr = h) as Ehd.
  { unfold hdr. rewrite decode_take by (vm_compute sizeof; lia). by apply decode_app_hdr. }
  assert (bytes_ok (got ++ more)) as Hall by (by apply Forall_app_2).
  assert (bytes_ok hdr /\ bytes_ok X) as [Hhok HX] by (split; [by apply Forall_take|by apply Forall_drop]).
  wps_step. eapply (rx_read _ c2 q0 (got ++ more)); [done|done|lia|]. fold hdr.
  rewrite <- Hlen. apply (check_header_spec (pass_stop c got) c2 q0 hdr X (λ bs, m ← the_msg; put_msg (load_any bs m);;
    advance (Z.of_nat (length hdr));;
    if bool_decide (q_abytes q2 = 0) then mret true
    else on_rx (modify (set_q_state DMSG_MSGQ_STATE_AUXDATA1));;
         ioq_auxdata1 dfuel aux_addr true (Z.of_nat (length (got ++ more)) - Z.of_nat (length hdr)))).
  - by rewrite <- Egot.
  - lia.
  - lia.
  - done.
  - intros Hc. split; [done|]. exists more, (flat evs). split; [done|]. rewrite Egot.
    apply ref_frame_bad_crc; [by rewrite Ehd|by rewrite Ehd|done].
  - intros Hc q' Hf'. rewrite Ea2, Hab, Hlen, Egot, <- Ehd.
    eapply wps_weaken; [apply (header_taken_spec io (set_c_rx q' c2) q0 hdr X m); rewrite ?Ehd; done|done|].
    intros b c' Hp. eapply (pass_post_trans _ _ (set_c_rx q' c2) _ more); [done|done|rest_solve| |rewrite Egot; exact Hp].
    done.
Qed.

(** ** The core header *)

(** A header that was accepted: the message is allocated, and the rest of the header
    follows. *)
Lemma header_accepted_spec c q0 got :
  let h : dmsg_hdr_t := decode got in
  fifo_in q0 got (c_rx c) -> q_error q0 = 0 -> (64 <= length got)%nat -> hdr_bad h = None ->
  q_hbytes q0 = hdr_hbytes h -> q_abytes q0 = hdr_abytes h -> unaligned_aux_size q0 = hdr_aux h -> bytes_ok got ->
  has (c_flags c) DMSG_IOCOMF_CRYPTED = false -> Forall (event_ok calm) (c_in c) -> root_alive (c_io c) ->
  wps (m ← on_io (dmsg_msg_alloc mtx no_addr state0 (hdr_aux h) (hdr_hbytes h / DMSG_ALIGN) NoFunc 0);
       put_msg m;;
       nmax ← on_rx (dmsg_ioq_makeroom (hdr_hbytes h));
       on_rx (modify (set_q_state DMSG_MSGQ_STATE_HEADER2));;
       ioq_header2 dfuel buf_addr aux_addr true (Z.of_nat (length got)) nmax) c (pass_stop c got) (pass_post (c_io c) c got).
Proof.
  intros h Hf Herr H64 Hbad Hhb Hab Hun Hok Hcr Hev Hra. destruct (hdr_bad_none _ Hbad) as [Hr _].
  destruct (wp_inv _ _ _ (alloc_ok mtx h (c_io c) Hra ltac:(lia))) as (m & io' & Hal & Hsh & Hra').
  do 2 wps_step. change (dmsg_msg_alloc _ _ _ _ _ _ _) with (alloc_for mtx h). unfold wps at 1. rewrite Hal. unfold put_msg.
  do 3 wps_step. fields. do 2 wps_step. fields. set (q1 := set_q_msg (Some m) (c_rx c)).
  assert (fifo_in (set_q_msg (Some m) q0) got q1) as Hf1 by (unfold q1; destruct Hf as [b e buf Hat]; exact (Fifo_in _ _ b e buf Hat)).
  eapply wps_mono; [by apply makeroom_spec|]. intros nmax q2 (Hf2 & Hnm & Hroom). do 3 wps_step. fields.
  match goal with |- wps _ ?c' _ _ => set (c3 := c') end. set (q0' := set_q_state DMSG_MSGQ_STATE_HEADER2 (set_q_msg (Some m) q0)).
  assert (fifo_in q0' got (c_rx c3)) as Hf3.
  { unfold c3. fields. destruct Hf2 as [b e buf Hat]. exact (Fifo_in q0' _ b e buf Hat). }
  assert (nmax = DMSG_BUF_SIZE - fifo_end (c_rx c3)) as Hnm3 by done.
  eapply wps_weaken; [apply (header2_spec (c_io c) c3 q0' got m nmax); try done| |].
  - clear Hnm3. destruct Hf2 as [b e buf Hat]. pose proof (fifo_bounds _ _ _ _ Hat). cbn in Hnm, Hroom. subst nmax.
    destruct Hroom; [fold h|unfold h in *; blia]. unfold DMSG_BUF_SIZE, DMSG_HDR_MAX in *. dlia.
  - intros e He. apply (pass_stop_trans c c3 got []); [done|by rewrite app_nil_r].
  - intros b c' Hp. eapply (pass_post_trans _ c c3 got []); [done|by apply Forall_nil|rest_solve|done|by rewrite app_nil_r].
Qed.

Lemma header1_spec c q0 got :
  fifo_in q0 got (c_rx c) -> q_state q0 = DMSG_MSGQ_STATE_HEADER1 -> q_msg q0 = None -> q_error q0 = 0 -> bytes_ok got ->
  has (c_flags c) DMSG_IOCOMF_CRYPTED = false -> Forall (event_ok calm) (c_in c) -> root_alive (c_io c) ->
  wps (ioq_header1 mtx dfuel buf_addr aux_addr false (Z.of_nat (length got))) c (pass_stop c got) (pass_post (c_io c) c got).
Proof.
  intros Hf Hst Hm Herr Hok Hcr Hev Hra. unfold ioq_header1. do 2 wps_step. eapply wps_mono; [by apply (makeroom_spec _ q0 got)|].
  intros nmax q1 (Hf1 & Hnm & Hroom). set (c1 := set_c_rx q1 c). cbv beta. wps_step.
  eapply wps_mono; [apply (ioq_more_spec _ calm dfuel q0 got c1); [done|done|done|]|].
  { intros Hneed%bool_decide_eq_true. split; [done|]. clear c1. destruct Hf1 as [b e buf Hat].
    pose proof (fifo_bounds _ _ _ _ Hat). cbn in Hnm, Hroom. subst nmax. unfold DMSG_BUF_SIZE, DMSG_HDR_MAX in *. dlia. }
  intros [n1|] c2 (more & evs & Hfl & Hmore & Hevs & Hwk & Hp).
  2: { destruct Hp as (Hcalm & -> & Hneed%bool_decide_eq_true & e & He & ->). wps_step. exists []. split; [done|]. split; [done|].
    split; [done|]. split; [rest_solve|]. split; [done|]. split; [done|]. rewrite app_nil_r, ref_frame_short by lia. right.
    split; [done|]. split; [|done]. unfold is_msg, c1. fields. apply fifo_in_same in Hf1 as (_ & _ & _ & -> & _). by rewrite Hm. }
  destruct Hp as (q2 & -> & Hf2 & He2 & -> & Hw). set (c2 := set_c_rx q2 (set_c_in evs c1)).
  assert (same_rest c c2) as Hs2 by rest_solve. destruct (fifo_in_same _ _ _ Hf2) as (_ & _ & E2 & Em2 & _).
  assert (is_msg c2 = false) as His by (unfold is_msg; change (c_rx c2) with q2; by rewrite Em2, Hm).
  wps_step. wps_step; [done|]. set (G := got ++ more) in *. assert (bytes_ok G) as HG by (by apply Forall_app_2).
  destruct (decide (Z.of_nat (length G) < 64)) as [Hlt|Hge].
  { rewrite bool_decide_true by done. wps_step. exists more. split; [done|]. split; [done|]. split; [done|]. split; [done|].
    split; [done|]. split; [done|]. fold G. rewrite ref_frame_short by lia. left. split; [done|].
    split; [by change (c_rx c2) with q2; rewrite E2|]. split; [by apply (Rep_header1 _ _ q0)|].
    unfold G in Hlt. rewrite length_app in Hlt. rewrite bool_decide_true in Hw by lia. exact Hw. }
  rewrite (bool_decide_false (_ < 64)) by done.
  (** A header that is refused. *)
  assert (forall e q0' c3, hdr_bad (decode G) = Some e -> c3 = set_c_rx (c_rx c3) c2 -> fifo_in q0' G (c_rx c3) ->
    q_seq q0' = q_seq q0 -> q_msgq q0' = q_msgq q0 -> q_msg q0' = None ->
    wps (set_error e;; mret false) c3 (pass_stop c got) (pass_post (c_io c) c got)) as Hrefuse.
  { intros e q0' c3 Hbad -> Hf3 H1 H2 H3. unfold set_error. do 3 wps_step. wps_step. exists more. split; [done|]. split; [done|].
    split; [done|]. split; [rest_solve|]. split; [done|]. split; [done|]. fold G. rewrite (ref_frame_bad _ e) by (done || lia).
    split; [|done]. unfold is_msg. fields. apply fifo_in_same in Hf3 as (_ & _ & _ & Hq & _). cbn in Hq. by rewrite Hq, H3. }
  do 2 wps_step. wps_step. change (c_rx c2) with q2. eapply (rx_read _ c2 q0 G); [done|done|lia|]. cbv zeta.
  change (Z.to_nat 64) with 64%nat. rewrite decode_take by (vm_compute; lia). set (h := decode G : dmsg_hdr_t) in *.
  change (bool_decide (hd_magic h = DMSG_HDR_MAGIC_REV)) with (hdr_rev h).
  change (((if hdr_rev h then bswap 4 (hd_cmd h) else hd_cmd h) .& DMSGF_SIZE) * DMSG_ALIGN) with (hdr_hbytes h).
  change (if hdr_rev h then bswap 4 (hd_aux_bytes h) else hd_aux_bytes h) with (hdr_aux h).
  change (DMSG_DOALIGN 32 (hdr_aux h)) with (hdr_abytes h).
  assert (hdr_bad h = hdr_bad h) as Hbad by done. unfold hdr_bad in Hbad at 2.
  destruct (bool_decide (hd_magic h ≠ DMSG_HDR_MAGIC) && negb (hdr_rev h)).
  { by apply (Hrefuse _ q0 c2). }
  do 3 wps_step. fields. match goal with |- wps _ ?c' _ _ => set (c3 := c') end.
  set (q0' := set_unaligned_aux_size (hdr_aux h) (set_q_abytes (hdr_abytes h) (set_q_hbytes (hdr_hbytes h) q0))).
  assert (fifo_in q0' G (c_rx c3)) as Hf3.
  { unfold c3. fields. destruct Hf2 as [b e buf Hat]. exact (Fifo_in q0' _ b e buf Hat). }
  destruct (_ || _).
  { by apply (Hrefuse _ q0' c3). }
  eapply wps_weaken; [apply (header_accepted_spec c3 q0' G); [done|done|lia|done..]| |].
  - intros e He. by apply (pass_stop_trans c c3 got more).
  - intros b c' Hp. eapply (pass_post_trans _ c c3 got more); [done|done|rest_solve| |exact Hp].
    done.
Qed.

(** ** The switch *)

Lemma fifo_in_bytes q0 F q :
  fifo_in q0 F q -> u64 (fifo_cdx q - fifo_beg q) = Z.of_nat (length F) /\ u64 (DMSG_BUF_SIZE - fifo_end q) = DMSG_BUF_SIZE - fifo_end q.
Proof. intros [b e buf Hat]. pose proof (fifo_bounds _ _ _ _ Hat). cbn. split; rewrite u64_small; blia. Qed.

Lemma switch_spec io c got :
  rx_rep io c got -> q_error (c_rx c) = 0 -> bytes_ok got -> root_alive (c_io c) ->
  has (c_flags c) DMSG_IOCOMF_CRYPTED = false -> Forall (event_ok calm) (c_in c) ->
  wps (ioq_switch mtx dfuel buf_addr aux_addr) c (pass_stop c got) (pass_post io c got).
Proof.
  intros Hrep Herr Hok Hra Hcr Hev. unfold ioq_switch. do 2 wps_step. cbv zeta.
  destruct Hrep as [q0 got Hf Hst Hm <-|q0 got m h Hf Hst Hm H64 Hbad Hhb Hab Hun Hal Hsh Hroom
    |q0 hdr aux m h Hf Hst Hm Hbad Hlen Hcrc Haux Hab Hun Hlt Hal Hsh].
  all: destruct (fifo_in_same _ _ _ Hf) as (_ & _ & He & -> & _ & _ & _ & ->); destruct (fifo_in_bytes _ _ _ Hf) as [-> ->].
  all: rewrite Herr in He; rewrite Hst, Hm.
  - by apply (header1_spec c q0).
  - by apply (header2_spec io c q0 got m).
  - apply Forall_app in Hok as [Hhok _]. pose proof (auxdata2_spec io c q0 hdr aux [] m 0) as Hp. rewrite app_nil_r in Hp.
    eapply wps_weaken; [apply Hp; try done; [|by apply Forall_nil]|done|done]. split; try done; unfold h in *; lia.
Qed.
End read.
