(* ===== verification/DmsgStream.v ===== *)
(** * DmsgStream: the received messages do not depend on how the stream arrives

    [dmsg_ioq_read] is called again and again, with a message handed to the application or
    with NULL in between; [ref_run] cuts the whole stream into frames and gives each frame
    to [dmsg_receive] of the transaction layer.  Both end with the same messages and the
    same transactions, for every way in which the bytes can arrive. *)

From S2P Require Import Prelude CMonad WpStop Crc32 Layout Dmsg DmsgFrame DmsgFifo DmsgRef DmsgRead.

#[local] Opaque Z.to_nat.

(** ** The transaction layer does not look at the payload *)

Definition map_res {S A B} (f : A -> B) (r : res S A) : res S B :=
  match r with Ok a s => Ok (f a) s | Stop e => Stop e end.

Lemma map_res_bind {S A B C} (m : prog S A) (k : A -> prog S B) (f : B -> C) s :
  map_res f ((m ≫= k) s) = (m ≫= λ a s', map_res f (k a s')) s.
Proof. unfold mbind, prog_bind. by destruct (m s). Qed.

Lemma bind_ext {S A B} (m : prog S A) (k k' : A -> prog S B) s :
  (forall a s', m s = Ok a s' -> k a s' = k' a s') -> (m ≫= k) s = (m ≫= k') s.
Proof. unfold mbind, prog_bind. destruct (m s) as [a s'|]; [|done]. intros H. by apply H. Qed.

Lemma bind_map_res {S A B C} (m : prog S A) (f : A -> B) (k : B -> prog S C) s :
  match map_res f (m s) with Ok b s' => k b s' | Stop e => Stop e end = (m ≫= λ a, k (f a)) s.
Proof. unfold mbind, prog_bind. by destruct (m s). Qed.

Section wire.
Context (mtx : mutex_kind) (addr : positive) (w : dmsg_wire).

Lemma switch_wire state pstate msg io :
  msgrx_switch addr state pstate (set_m_wire w msg) io =
    map_res (λ r, (fst r, set_m_wire w (snd r))) (msgrx_switch addr state pstate msg io).
Proof.
  unfold msgrx_switch. rewrite map_res_bind. apply bind_ext. intros s io' _. cbn [set_m_wire m_cmd].
  destruct (has (m_cmd msg) DMSGF_REPLY), (has (m_cmd msg) DMSGF_CREATE), (has (m_cmd msg) DMSGF_DELETE),
    (has (m_cmd msg) DMSGF_ABORT); cbn [andb]; destruct (bool_decide (pstate = Some state)); cbn [orb]; try done;
    try (by destruct (negb _)); try (unfold msgrx_create; repeat (rewrite map_res_bind; apply bind_ext; intros ???); done).
  all: rewrite map_res_bind; apply bind_ext; intros ???; rewrite map_res_bind; apply bind_ext; intros ???; done.
Qed.

Lemma process_wire state pstate msg io :
  msgrx_process mtx addr state pstate (set_m_wire w msg) io =
    map_res (λ r, (fst r, set_m_wire w (snd r))) (msgrx_process mtx addr state pstate msg io).
Proof.
  unfold msgrx_process. unfold mbind at 1, prog_bind at 1. rewrite switch_wire, bind_map_res, map_res_bind. apply bind_ext.
  intros [[error st] m] io1 _. cbn [fst snd]. rewrite map_res_bind.
  change (msgrx_tcmd st (set_m_wire w m)) with (msgrx_tcmd st m). apply bind_ext. intros tcmd io2 _.
  repeat (rewrite map_res_bind; apply bind_ext; intros ???). done.
Qed.

Lemma msgrx_wire msg io :
  dmsg_state_msgrx mtx addr (set_m_wire w msg) false io =
    map_res (λ r, (fst r, set_m_wire w (snd r))) (dmsg_state_msgrx mtx addr msg false io).
Proof.
  unfold dmsg_state_msgrx. rewrite map_res_bind. apply bind_ext. intros [] io1 _. rewrite map_res_bind. cbn [set_m_wire m_circuit m_cmd].
  apply bind_ext. intros [pstate|] io2 _; [|by rewrite map_res_bind; apply bind_ext; intros ???].
  rewrite map_res_bind. apply bind_ext. intros [state|] io3 _; [|apply process_wire].
  rewrite map_res_bind. cbn [set_m_wire m_state]. repeat (apply bind_ext; intros ???; rewrite map_res_bind).
  apply bind_ext. intros [] io4 _. apply (process_wire state (Some pstate) (set_m_state state msg)).
Qed.
End wire.

(** ** One frame *)

(** The header and the payload of a frame. *)
Definition frame_hd (any : bytes) (sz : Z) : dmsg_hdr :=
  let h : dmsg_hdr_t := decode any in
  {| h_cmd := hd_cmd h; h_msgid := hd_msgid h; h_circuit := hd_circuit h; h_error := hd_error h; h_aux_bytes := sz |}.
Definition frame_wire (any aux : bytes) (sz : Z) : dmsg_wire :=
  let h : dmsg_hdr_t := decode any in
  {| w_magic := hd_magic h; w_reserved02 := hd_reserved02 h; w_salt := hd_salt h; w_link_verifier := hd_link_verifier h;
     w_aux_crc := hd_aux_crc h; w_aux_bytes := hd_aux_bytes h; w_aux_descr := hd_aux_descr h;
     w_reserved38 := hd_reserved38 h; w_hdr_crc := hd_hdr_crc h; w_ext := drop 64 any;
     w_aux_alloc := if bool_decide (sz = 0) then 0 else DMSG_DOALIGN 64 sz; w_aux_data := aux |}.

(** What the frame of [bs] is made of. *)
Lemma ref_frame_parts bs any aux sz rest :
  ref_frame bs = Frame any aux sz rest -> bytes_ok bs ->
  hdr_hbytes (decode bs) / DMSG_ALIGN = hd_cmd (decode any) .& DMSGF_SIZE /\ hdr_aux (decode bs) = sz /\
  bytes_ok rest.
Proof.
  unfold ref_frame. case_bool_decide; [done|]. destruct (hdr_bad _) eqn:Hb; [done|]. apply hdr_bad_none in Hb as [Hb _].
  case_bool_decide as H1; [done|]. destruct (negb _); [done|]. case_bool_decide; [done|]. destruct (_ && _); [done|].
  intros [= <- <- <- <-] Hok. split_and!; [|done|by apply Forall_drop].
  destruct (hdr_fix_sizes (take (Z.to_nat (hdr_hbytes (decode bs))) bs)) as [<- _]; [by apply Forall_take|rewrite length_take; lia|].
  by rewrite decode_take by (vm_compute sizeof; lia).
Qed.

(** The end of [dmsg_receive], and of [dmsg_ioq_read], for a message that is complete. *)
Definition deliver (mtx : mutex_kind) (addr : positive) (m : dmsg_msg) : prog iocom (option dmsg_msg) :=
  r ← dmsg_state_msgrx mtx addr m false;
  if bool_decide (fst r = DMSG_IOQ_ERROR_EALREADY) then dmsg_msg_free mtx (snd r);; mret None
  else assertp (bool_decide (fst r = 0));; mret (Some (snd r)).

Lemma deliver_frame mtx addr any aux sz h m io io0 :
  alloc_for mtx h io = Ok m io0 -> alloc_shape h m -> hdr_aux h = sz ->
  hdr_hbytes h / DMSG_ALIGN = hd_cmd (decode any) .& DMSGF_SIZE ->
  deliver mtx addr (frame_msg any aux sz m) io0 =
    map_res (fmap (set_m_wire (frame_wire any aux sz))) (dmsg_receive mtx addr (frame_hd any sz) io).
Proof.
  intros Hal [Hst Htc Hax Hall Hdata] Hsz Hsize. unfold dmsg_receive, frame_hd. cbn [h_aux_bytes h_cmd h_msgid h_circuit h_error].
  unfold alloc_for in Hal. rewrite Hsize, Hsz in Hal. rewrite map_res_bind, (bind_Ok _ _ _ _ _ Hal).
  assert (frame_msg any aux sz m = set_m_wire (frame_wire any aux sz)
    {| m_state := m_state m; m_cmd := hd_cmd (decode any); m_msgid := hd_msgid (decode any);
       m_circuit := hd_circuit (decode any); m_error := hd_error (decode any); m_tcmd := m_tcmd m;
       m_aux_size := m_aux_size m; m_wire := m_wire m |}) as ->.
  { unfold frame_msg, load_any, frame_wire. fields. by rewrite Hall, Hax, Hsz. }
  unfold deliver. unfold mbind at 1, prog_bind at 1. rewrite msgrx_wire, bind_map_res, map_res_bind. apply bind_ext.
  intros [e m'] io1 _. cbn [fst snd]. destruct (bool_decide (e = DMSG_IOQ_ERROR_EALREADY)).
  - rewrite map_res_bind. by apply bind_ext.
  - rewrite map_res_bind. by apply bind_ext.
Qed.

(** ** Flags *)

Lemma has_set_other x f g : f .& g = 0 -> has (x .| f) g = has x g.
Proof. intros H. unfold has. by rewrite Z.land_lor_distr_l, H, Z.lor_0_r. Qed.

Lemma has_clear_other x f g : bnot 32 f .& g = g -> has (clear x f) g = has x g.
Proof. intros H. unfold has, clear. by rewrite <- Z.land_assoc, H. Qed.

(** ** Many frames *)

Section stream.
Context (mtx : mutex_kind) (cb : dmsg_msg -> prog iocom ()) (fuel dfuel : nat) (buf_addr aux_addr : Z).
(** What is done with a message that [dmsg_ioq_read] returned, and the addresses [malloc]
    returns for new transactions, in the order in which messages are delivered. *)
Context (handle : dmsg_msg -> prog iocom ()) (addrs : nat -> positive).

Definition alive (io : iocom) : bool :=
  negb (io_locked io) && match io_heap io !! state0 with Some r => bool_decide (s_parent r = Some state0) | None => false end.

Lemma alive_root io : alive io = true -> root_alive io.
Proof.
  unfold alive, root_alive. intros [H1 H2]%andb_true_iff. apply negb_true_iff in H1. split; [done|].
  destruct (io_heap io !! state0) as [r|]; [|done]. apply bool_decide_eq_true in H2. eauto.
Qed.

(** The frames of a byte string go to [dmsg_receive], one after the other.  The result is
    the list of delivered messages, the next sequence number and the bytes that are left. *)
Fixpoint ref_run (n i : nat) (seq : Z) (bs : bytes) : prog iocom (list dmsg_msg * Z * bytes) :=
  match n with
  | O => stop_with OutOfFuel
  | S n =>
      io ← get_state;
      if negb (alive io) then stop_with Undef
      else
        match ref_frame bs with
        | Short => mret ([], seq, bs)
        | Bad _ | BadCrc => stop_with AssertFail
        | Frame any aux sz rest =>
            if bool_decide (hd_salt (decode any) .& 255 ≠ seq .& 255) || bool_decide (seq = 2 ^ 31 - 1) then stop_with AssertFail
            else
              r ← dmsg_receive mtx (addrs i) (frame_hd any sz);
              match r with
              | None => ref_run n i (seq + 1) rest
              | Some m =>
                  let m := set_m_wire (frame_wire any aux sz) m in
                  handle m;;
                  x ← ref_run n (S i) (seq + 1) rest;
                  mret (m :: fst (fst x), snd (fst x), snd x)
              end
        end
  end.

(** [k] calls of [dmsg_ioq_read]. *)
Fixpoint drive (k : nat) (rfuel i : nat) : prog conn (list dmsg_msg) :=
  match k with
  | O => mret []
  | S k =>
      r ← dmsg_ioq_read mtx cb fuel dfuel buf_addr aux_addr rfuel (addrs i);
      match r with
      | None => drive k rfuel i
      | Some m => on_io (handle m);; ms ← drive k rfuel (S i); mret (m :: ms)
      end
  end.

(** A connection between two calls. *)
Record rx_ready (io : iocom) (c : conn) (got : bytes) : Prop := {
  rd_rep : rx_rep mtx io c got;
  rd_error : q_error (c_rx c) = 0;
  rd_msgq : q_msgq (c_rx c) = [];
  rd_ok : bytes_ok got;
  rd_root : root_alive (c_io c);
  rd_crypt : has (c_flags c) DMSG_IOCOMF_CRYPTED = false;
  rd_events : Forall (event_ok true) (c_in c);
}.

Lemma rx_rep_ext io c c' got : c_rx c' = c_rx c -> c_io c' = c_io c -> rx_rep mtx io c got -> rx_rep mtx io c' got.
Proof.
  intros Hrx Hio Hr. destruct Hr; [eapply Rep_header1|eapply Rep_header2|eapply Rep_auxdata];
    rewrite ?Hrx, ?Hio; eassumption || done.
Qed.


Lemma ref_run_inv n i seq bs io r io' :
  ref_run n i seq bs io = Ok r io' -> exists n', n = S n' /\ alive io = true.
Proof.
  destruct n as [|n]; [done|]. cbn [ref_run]. rewrite (bind_Ok get_state _ _ _ _ eq_refl).
  destruct (alive io) eqn:E; [|done]. eauto.
Qed.

(** The sequence check and the end of the read, for a complete message. *)
Lemma sequence_spec E c q0 rest any aux sz m :
  fifo_in q0 rest (c_rx c) -> q_error q0 = 0 -> q_msg q0 = Some (frame_msg any aux sz m) ->
  hd_salt (decode any) .& 255 = q_seq q0 .& 255 -> q_seq q0 ≠ 2 ^ 31 - 1 ->
  wps (ioq_sequence true) c E (λ _ c', exists q', c' = set_c_rx q' c /\ fifo_in (set_q_seq (q_seq q0 + 1) q0) rest q').
Proof.
  intros Hf He Hm Hsalt Hseq. unfold ioq_sequence. do 2 wps_step.
  destruct (fifo_in_same _ _ _ Hf) as (E1 & _ & E2 & E3 & _). rewrite E2, He. cbn [andb]. rewrite bool_decide_true by done.
  cbn [when]. wps_step. eapply the_msg_spec; [by rewrite E3|]. change (w_salt _) with (hd_salt (decode any)).
  rewrite E1, bool_decide_false by tauto. unfold seq_next. do 3 wps_step. rewrite E1, bool_decide_false by done. wps_step.
  eexists. split; [done|]. rewrite <- E1. destruct Hf as [b e buf Hat]. exact (Fifo_in _ _ b e buf Hat).
Qed.

Lemma read_finish_spec E c q0 rest m :
  fifo_in q0 rest (c_rx c) -> q_msg q0 = Some m -> has (c_flags c) DMSG_IOCOMF_CRYPTED = false ->
  wps ioq_finish c E (λ r c', r = m /\ exists q' fl, c' = set_c_rx q' (set_c_flags fl c) /\
    fifo_in (set_q_msg None (set_q_state DMSG_MSGQ_STATE_HEADER1 q0)) rest q' /\ has fl DMSG_IOCOMF_CRYPTED = false).
Proof.
  intros Hf Hm Hcr. unfold ioq_finish. do 2 wps_step. wps_step.
  eapply wps_mono with (P := λ _ c', exists q' fl, c' = set_c_rx q' (set_c_flags fl c) /\ fifo_in q0 rest q' /\
    has fl DMSG_IOCOMF_CRYPTED = false).
  { destruct (_ && _) eqn:Hz.
    - unfold set_flag. do 4 wps_step. fields. eexists _, _. split; [done|]. split; [|by rewrite has_set_other].
      apply andb_true_iff in Hz as [Hz%bool_decide_eq_true _]. inversion Hf as [b e buf Hat Eq]. rewrite <- Eq in Hz. cbn in Hz.
      pose proof (fifo_bounds _ _ _ _ Hat). destruct rest; [|cbn in *; lia]. subst b.
      exact (Fifo_in q0 [] 0 0 buf (fifo_reset _ _ _ Hat)).
    - unfold set_flag. wps_step. exists (c_rx c), (c_flags c .| DMSG_IOCOMF_RWORK). split; [by destruct c|]. split; [done|]. by rewrite has_set_other. }
  intros [] c1 (q1 & fl & -> & Hf1 & Hfl). wps_step. destruct (fifo_in_same _ _ _ Hf1) as (_ & _ & _ & E3 & _).
  eapply the_msg_spec; [fields; by rewrite E3|]. do 3 wps_step. wps_step. split; [done|]. fields. eexists _, fl. split; [done|].
  split; [|done]. destruct Hf1 as [b e buf Hat]. exact (Fifo_in _ _ b e buf Hat).
Qed.

(** After a call that started with [n] more frames at most. *)
Definition read_post (n i : nat) (c : conn) (goal : list dmsg_msg * Z * bytes) (io' : iocom) (r : option dmsg_msg) (c' : conn) : Prop :=
  match r with
  | None => exists n' got io1, (n' <= n)%nat /\ rx_ready io1 c' got /\
      ref_run n' i (q_seq (c_rx c')) (got ++ flat (c_in c')) io1 = Ok goal io' /\
      (c_in c' = [] /\ ref_frame got = Short \/ (n' + work (c_in c') < n + work (c_in c))%nat)
  | Some m => exists n' got io2 ms, (n' < n)%nat /\ (work (c_in c') <= work (c_in c))%nat /\
      handle m (c_io c') = Ok () io2 /\ rx_ready io2 (set_c_io io2 c') got /\
      ref_run n' (S i) (q_seq (c_rx c')) (got ++ flat (c_in c')) io2 = Ok (ms, snd (fst goal), snd goal) io' /\
      fst (fst goal) = m :: ms
  end.

Lemma read_post_mono n n0 i c c0 goal io' r c' :
  (n <= n0)%nat -> (work (c_in c) <= work (c_in c0))%nat -> read_post n i c goal io' r c' -> read_post n0 i c0 goal io' r c'.
Proof.
  intros Hn Hw. destruct r as [m|].
  - intros (n' & got & io2 & ms & H1 & H2 & H3). exists n', got, io2, ms. split; [lia|]. split; [lia|done].
  - intros (n' & got & io1 & H1 & H2 & H3 & H4). exists n', got, io1. split; [lia|]. split; [done|]. split; [done|].
    destruct H4; [by left|right; lia].
Qed.

(** The connection after a complete message was taken, with new transactions [io]. *)
Lemma ready_next io c q0 rest :
  fifo_in q0 rest (c_rx c) -> q_state q0 = DMSG_MSGQ_STATE_HEADER1 -> q_msg q0 = None -> q_error q0 = 0 -> q_msgq q0 = [] ->
  bytes_ok rest -> root_alive io -> has (c_flags c) DMSG_IOCOMF_CRYPTED = false -> Forall (event_ok true) (c_in c) ->
  rx_ready io (set_c_io io c) rest.
Proof.
  intros Hf H1 H2 H3 H4 H5 H6 H7 H8. destruct (fifo_in_same _ _ _ Hf) as (_ & E1 & E2 & _). split; fields; try congruence; try done.
  by apply (Rep_header1 _ _ _ q0).
Qed.

Lemma read_spec rfuel n i c io got goal io' :
  (n <= rfuel)%nat -> rx_ready io c got -> ref_run n i (q_seq (c_rx c)) (got ++ flat (c_in c)) io = Ok goal io' ->
  wp (dmsg_ioq_read mtx cb fuel dfuel buf_addr aux_addr rfuel (addrs i)) c (read_post n i c goal io').
Proof.
  revert n c io got. induction rfuel as [|rfuel IH]; intros n c io got Hn Hrd Hrun.
  all: destruct (ref_run_inv _ _ _ _ _ _ _ Hrun) as (n1 & -> & Hal).
  1: lia.
  destruct Hrd.
  apply (proj1 (wps_wp _ _ _)). cbn [dmsg_ioq_read]. do 2 wps_step. rewrite rd_msgq0. unfold clear_flag. cbv zeta. do 2 wps_step.
  rewrite rd_error0, bool_decide_false by tauto. set (c0 := set_c_flags _ c). wps_step.
  eapply wps_weaken; [apply (switch_spec mtx dfuel buf_addr aux_addr true io c0 got); try done| |].
  { by apply (rx_rep_ext _ c). }
  { by unfold c0; fields; rewrite has_clear_other. }
  { intros e (_ & more & rst & Hfl & Hv). change (c_in c0) with (c_in c) in Hfl. rewrite Hfl, app_assoc in Hrun.
    cbn [ref_run] in Hrun. rewrite (bind_Ok get_state _ _ _ _ eq_refl), Hal in Hrun. cbn [negb] in Hrun.
    rewrite ref_frame_app, Hv in Hrun by (by rewrite Hv). done. }
  intros msg c1 (more & Hfl & Hmore & Hev & [sr_flags0 sr_tx0 sr_out0 sr_sent0 sr_seq0 sr_msgq0] & Hra & Hwk & Hv). change (c_in c0) with (c_in c) in *. rewrite Hfl, app_assoc in Hrun.
  set (G := got ++ more) in *. assert (bytes_ok G) as HG by (by apply Forall_app_2).
  assert (has (c_flags c1) DMSG_IOCOMF_CRYPTED = false) as Hcr1 by (rewrite sr_flags0; unfold c0; fields; by rewrite has_clear_other).
  pose proof Hrun as Hrun0. cbn [ref_run] in Hrun. rewrite (bind_Ok get_state _ _ _ _ eq_refl), Hal in Hrun. cbn [negb] in Hrun.
  destruct (ref_frame G) as [|e| |any aux sz rest] eqn:HvG.
  { (** More bytes are needed. *)
    destruct Hv as [(-> & He1 & Hrep1 & Hw1)|(? & _)]; [|done]. unfold ioq_sequence. do 3 wps_step. cbn [andb when]. wps_step.
    do 2 wps_step. rewrite He1, bool_decide_false by tauto. cbn [negb]. unfold set_flag. do 3 wps_step.
    exists (S n1), G, io. split; [done|]. split.
    { split; fields; try done; [by apply (rx_rep_ext _ c1)|by rewrite sr_msgq0|by rewrite has_set_other]. }
    split; [by fields; rewrite sr_seq0|]. destruct Hw1 as [[? ?]|Hw1]; [by left|right; cbn; lia]. }
  1,2: rewrite ref_frame_app, HvG in Hrun by (by rewrite HvG); done.
  destruct Hv as (-> & q0 & m & Hf1 & He1 & Hm1 & Hal1 & Hsh1). rewrite ref_frame_app, HvG in Hrun by (by rewrite HvG).
  cbn [with_rest] in Hrun. destruct (ref_frame_parts _ _ _ _ _ HvG HG) as (Hsize & Hsz & Hrest).
  destruct (fifo_in_same _ _ _ Hf1) as (Eq1 & Eq2 & _). rewrite sr_seq0 in Eq1. rewrite sr_msgq0 in Eq2.
  change (c_rx c0) with (c_rx c) in *. destruct (_ || _) eqn:Hsq; [done|].
  apply orb_false_iff in Hsq as [Hsalt%bool_decide_eq_false%dec_stable Hmax%bool_decide_eq_false].
  wps_step. eapply wps_mono; [apply (sequence_spec _ c1 q0 rest any aux sz m); [done..|congruence|congruence]|].
  intros [] c2 (q2 & -> & Hf2). do 2 wps_step. fields. destruct (fifo_in_same _ _ _ Hf2) as (_ & _ & Ee2 & _).
  cbn in Ee2. rewrite Ee2, He1, bool_decide_false by tauto. cbn [negb].
  wps_step. eapply wps_mono; [by apply (read_finish_spec _ (set_c_rx q2 c1) (set_q_seq (q_seq q0 + 1) q0) rest (frame_msg any aux sz m))|].
  intros ? c3 (-> & q3 & fl & -> & Hf3 & Hfl3). wps_step. wps_step. fields.
  set (q0' := set_q_msg None _) in Hf3. set (c3 := set_c_rx q3 (set_c_flags fl (set_c_rx q2 c1))).
  pose proof (deliver_frame mtx (addrs i) any aux sz _ m io (c_io c1) Hal1 Hsh1 Hsz Hsize) as Hdel.
  assert (forall io1, root_alive io1 -> rx_ready io1 (set_c_io io1 c3) rest) as Hnext.
  { intros io1 Hio1. apply (ready_next io1 c3 q0'); try done. cbn. congruence. }
  assert (q_seq (c_rx c3) = q_seq (c_rx c) + 1) as Hseq3.
  { change (c_rx c3) with q3. destruct (fifo_in_same _ _ _ Hf3) as (E & _). rewrite E. cbn. congruence. }
  rewrite <- Hseq3 in Hrun. apply bind_Ok_inv in Hrun as (r & io1 & Hrecv & Hrun). rewrite Hrecv in Hdel. cbn [map_res] in Hdel.
  apply bind_Ok_inv in Hdel as ([er mr] & ior & Hrx & Hdel). cbn [fst snd] in Hdel. change (c_io c3) with (c_io c1).
  unfold wps at 1. rewrite Hrx. cbn [fst snd].
  destruct (decide (er = DMSG_IOQ_ERROR_EALREADY)) as [->|Her]; [rewrite bool_decide_true in Hdel by done|rewrite bool_decide_false in Hdel by done].
  - (** The message is thrown away. *)
    apply bind_Ok_inv in Hdel as ([] & io2 & Hfree & [= Hr <-]). destruct r; [done|]. clear Hr.
    rewrite (bool_decide_false (_ = 0)), bool_decide_true by done. do 2 wps_step. unfold wps at 1. change (c_io (set_c_io _ _)) with ior.
    rewrite Hfree. destruct (ref_run_inv _ _ _ _ _ _ _ Hrun) as (n2 & -> & Hal2).
    specialize (Hnext io2 (alive_root _ Hal2)). apply wps_wp. eapply wp_mono; [apply (IH (S n2) (set_c_io io2 c3) io2 rest);
      [lia|exact Hnext|exact Hrun]|]. intros r c' Hp. eapply read_post_mono; [| |exact Hp]; [lia|done].
  - apply bind_Ok_inv in Hdel as ([] & ? & Has & [= Hr ->]). destruct (decide (er = 0)) as [->|]; [|by rewrite bool_decide_false in Has].
    injection Has as ->. destruct r as [mm|]; [|done]. injection Hr as ->. rewrite bool_decide_true by done. wps_step.
    apply bind_Ok_inv in Hrun as ([] & io2 & Hhandle & Hrun). apply bind_Ok_inv in Hrun as ([[ms sq] bs'] & io3 & Hrun & [= <- ->]).
    destruct (ref_run_inv _ _ _ _ _ _ _ Hrun) as (n2 & -> & Hal2). exists (S n2), rest, io2, ms. cbn [fst snd].
    split; [lia|]. split; [done|]. split; [exact Hhandle|]. split; [|split; [exact Hrun|done]].
    exact (Hnext io2 (alive_root _ Hal2)).
Qed.

(** Nothing more arrives. *)
Lemma drive_final k rfuel i c io got :
  (1 <= rfuel)%nat -> rx_ready io c got -> alive io = true -> c_in c = [] -> ref_frame got = Short ->
  wp (drive k rfuel i) c (λ ms c', ms = [] /\ rx_ready io c' got /\ q_seq (c_rx c') = q_seq (c_rx c) /\ c_in c' = []).
Proof.
  intros Hrf. revert c. induction k as [|k IH]; intros c Hrd Hal Hin Hs; cbn [drive]; [by apply wp_ret|].
  assert (forall c, ref_run 1 i (q_seq (c_rx c)) (got ++ []) io = Ok ([], q_seq (c_rx c), got) io) as Hrun.
  { intros c1. cbn [ref_run]. rewrite (bind_Ok get_state _ _ _ _ eq_refl), Hal. cbn [negb]. by rewrite app_nil_r, Hs. }
  apply wp_bind. eapply wp_mono; [apply (read_spec rfuel 1 i c io got); [done|done|rewrite Hin; apply Hrun]|].
  intros [m|] c' Hp; [destruct Hp as (? & ? & ? & ? & _ & _ & _ & _ & _ & [=])|].
  destruct Hp as (n' & got' & io1 & Hn & Hrd' & Hrun' & Hw).
  destruct (ref_run_inv _ _ _ _ _ _ _ Hrun') as (n1 & -> & Hal1). rewrite Hin in Hw. cbn in Hw.
  destruct Hw as [[Hin' Hs']|Hw]; [|lia]. cbn [ref_run] in Hrun'. rewrite (bind_Ok get_state _ _ _ _ eq_refl), Hal1 in Hrun'.
  cbn [negb] in Hrun'. rewrite Hin' in Hrun'. cbn [flat] in Hrun'. rewrite app_nil_r, Hs' in Hrun'. injection Hrun' as Hq -> ->.
  eapply wp_mono; [by apply IH|]. intros ms c2 (-> & H2 & H3 & H4). split; [done|]. split; [done|]. split; [congruence|done].
Qed.

(** Enough calls read the whole stream, with the result of [ref_run]. *)
Lemma drive_spec k rfuel n i c io got ms seq rest io' :
  (n <= rfuel)%nat -> (n + work (c_in c) <= k)%nat -> rx_ready io c got ->
  ref_run n i (q_seq (c_rx c)) (got ++ flat (c_in c)) io = Ok (ms, seq, rest) io' ->
  wp (drive k rfuel i) c (λ ms' c', ms' = ms /\ rx_ready io' c' rest /\ q_seq (c_rx c') = seq /\ c_in c' = []).
Proof.
  revert n i c io got ms. induction k as [|k IH]; intros n i c io got ms Hrf Hk Hrd Hrun.
  all: destruct (ref_run_inv _ _ _ _ _ _ _ Hrun) as (n1 & -> & Hal).
  1: lia.
  cbn [drive].
  apply wp_bind. eapply wp_mono; [apply (read_spec rfuel (S n1) i c io got); [done|done|exact Hrun]|].
  intros [m|] c' Hp; cbn [read_post fst snd] in Hp.
  - destruct Hp as (n' & got' & io2 & ms' & Hn' & Hw & Hh & Hrd' & Hrun' & ->). apply wp_bind. unfold wp at 1, on_io.
    rewrite Hh. apply wp_bind. eapply wp_mono; [apply (IH n' (S i) (set_c_io io2 c') io2 got' ms'); [lia|cbn; lia|done|done]|].
    intros ms2 c2 (-> & H2 & H3 & H4). by apply wp_ret.
  - destruct Hp as (n' & got' & io1 & Hn' & Hrd' & Hrun' & Hw).
    destruct (ref_run_inv _ _ _ _ _ _ _ Hrun') as (n2 & -> & Hal2). destruct Hw as [[Hin Hs]|Hw].
    + cbn [ref_run] in Hrun'. rewrite (bind_Ok get_state _ _ _ _ eq_refl), Hal2 in Hrun'. cbn [negb] in Hrun'.
      rewrite Hin in Hrun'. cbn [flat] in Hrun'. rewrite app_nil_r, Hs in Hrun'. injection Hrun' as <- <- <- <-.
      by apply drive_final; [lia|..].
    + apply (IH (S n2) i c' io1 got' ms); [lia|lia|done|done].
Qed.
End stream.
