(* ===== verification/DmsgFlush.v ===== *)
(** * DmsgFlush: what the transmit side sends

    The transmit queue as the bytes that are still to be sent ([remaining]).
    [dmsg_iocom_flush2] sends a prefix of them and keeps the rest, and frees the messages
    that are done; with enough room in the socket everything is sent. *)

From S2P Require Import Prelude CMonad Crc32 Layout Dmsg DmsgFrame DmsgFifo DmsgRef DmsgRead DmsgStream DmsgWrite.

#[local] Opaque Z.to_nat.

(** ** The queue *)

(** A message of the queue has its bytes. *)
Record queued_ok (m : dmsg_msg) : Prop := {
  qo_any : Z.of_nat (length (any_bytes m)) = msg_hbytes m;
  qo_hdr : 64 <= msg_hbytes m <= DMSG_HDR_MAX;
  qo_aux : Z.of_nat (length (w_aux_data (m_wire m))) = msg_abytes m;
  qo_max : msg_abytes m <= DMSG_AUX_MAX;
  qo_alloc : 0 < msg_abytes m -> w_aux_alloc (m_wire m) ≠ 0;
}.

(** The bytes to send when [hoff] bytes of the header and [aoff] of the auxiliary data of
    the first message are done. *)
Definition remaining (msgs : list dmsg_msg) (hoff aoff : Z) : bytes :=
  match msgs with
  | [] => []
  | m :: msgs => drop (Z.to_nat hoff) (any_bytes m) ++ drop (Z.to_nat aoff) (w_aux_data (m_wire m)) ++ (msgs ≫= frame_of)
  end.

Definition off_ok (msgs : list dmsg_msg) (hoff aoff : Z) : Prop :=
  match msgs with
  | [] => hoff = 0 /\ aoff = 0
  | m :: _ => 0 <= hoff <= msg_hbytes m /\ 0 <= aoff <= msg_abytes m /\ (hoff < msg_hbytes m -> aoff = 0) /\
              hoff + aoff < msg_hbytes m + msg_abytes m
  end.

Lemma remaining_fresh msgs : remaining msgs 0 0 = msgs ≫= frame_of.
Proof. destruct msgs as [|m msgs]; [done|]. cbn. unfold frame_of. change (Z.to_nat 0) with 0%nat. by rewrite !drop_0, <- app_assoc. Qed.

Lemma off_fresh msgs : Forall queued_ok msgs -> off_ok msgs 0 0.
Proof. destruct 1 as [|m msgs [] _]; [done|]. cbn. lia. Qed.

Lemma remaining_nonempty m msgs hoff aoff : queued_ok m -> off_ok (m :: msgs) hoff aoff -> remaining (m :: msgs) hoff aoff ≠ [].
Proof.
  intros [] (H1 & H2 & H3 & H4) Hr%(f_equal length). cbn in Hr. rewrite !length_app, !length_drop in Hr. lia.
Qed.

Lemma sub_bytes_drop bs off n :
  0 <= off -> 0 <= n -> off + n <= Z.of_nat (length bs) -> sub_bytes bs off n = Some (take (Z.to_nat n) (drop (Z.to_nat off) bs)).
Proof. intros. unfold sub_bytes. by rewrite bool_decide_true. Qed.

(** One vector element. *)
Lemma iov_part_spec mem off len cnt c :
  Z.of_nat (length mem) = len -> 0 <= off < len ->
  exists p brk y, iov_part mem off len cnt c = Ok (p, brk) c /\ p ≠ [] /\ drop (Z.to_nat off) mem = p ++ y /\
    (brk = false -> y = [] /\ cnt + 1 ≠ DMSG_IOQ_MAXIOVEC).
Proof.
  intros Hl Ho. unfold iov_part. set (n := Z.min (len - off) (DMSG_BUF_SIZE / 2)).
  assert (0 < n <= len - off) as Hn by (unfold n; change (DMSG_BUF_SIZE / 2) with 4096; lia).
  rewrite sub_bytes_drop by lia. cbn [deref]. eexists _, _, (drop (Z.to_nat n) (drop (Z.to_nat off) mem)). split; [done|].
  rewrite take_drop. split_and!; [|done|].
  - intros Hp%(f_equal length). rewrite length_take, length_drop in Hp. cbn in Hp. lia.
  - intros [H1%bool_decide_eq_false H2%bool_decide_eq_false%dec_stable]%orb_false_iff. split; [|done].
    apply length_zero_iff_nil. rewrite !length_drop. lia.
Qed.

(** The element for a part of a message, when there is something of it to send. *)
Definition iov_add (mem : bytes) (off len : Z) (iov : list bytes) : prog conn (list bytes * bool) :=
  if bool_decide (off < len) then p ← iov_part mem off len (Z.of_nat (length iov)); mret (iov ++ [fst p], snd p)
  else mret (iov, false).

Lemma iov_add_spec mem off len iov c :
  Z.of_nat (length mem) = len -> 0 <= off <= len -> Z.of_nat (length iov) < DMSG_IOQ_MAXIOVEC ->
  exists h x y, iov_add mem off len iov c = Ok h c /\ concat (fst h) = concat iov ++ x /\ drop (Z.to_nat off) mem = x ++ y /\
    Z.of_nat (length (fst h)) <= DMSG_IOQ_MAXIOVEC /\ (x = [] -> fst h = iov /\ snd h = false) /\
    (snd h = false -> y = [] /\ Z.of_nat (length (fst h)) < DMSG_IOQ_MAXIOVEC).
Proof.
  intros Hl Ho Hi. unfold iov_add. destruct (decide (off < len)) as [Hlt|Hge].
  - rewrite bool_decide_true by done.
    destruct (iov_part_spec mem off len (Z.of_nat (length iov)) c Hl ltac:(lia)) as (p & brk & y & E & Hp & Hd & Hb).
    rewrite (bind_Ok _ _ _ _ _ E). eexists _, p, y. split; [done|]. cbn [fst snd]. rewrite concat_app, length_app. cbn.
    rewrite app_nil_r. split; [done|]. split; [done|]. split; [lia|]. split; [done|]. intros Hf. destruct (Hb Hf). split; [done|]. lia.
  - rewrite bool_decide_false by done. exists (iov, false), [], []. rewrite drop_ge by lia. cbn [fst snd]. rewrite app_nil_r.
    repeat (split; [done|]). split; [lia|]. done.
Qed.

(** The vector holds a prefix of what is to be sent, not an empty one, and has at most 16
    elements. *)
Lemma build_iov_spec msgs : forall hoff aoff iov c,
  Forall queued_ok msgs ->
  match msgs with [] => True | m :: _ => 0 <= hoff <= msg_hbytes m /\ 0 <= aoff <= msg_abytes m end ->
  Z.of_nat (length iov) < DMSG_IOQ_MAXIOVEC ->
  exists iov' x y, build_iov msgs hoff aoff iov c = Ok iov' c /\ Z.of_nat (length iov') <= DMSG_IOQ_MAXIOVEC /\
    concat iov' = concat iov ++ x /\ remaining msgs hoff aoff = x ++ y /\ (x = [] -> iov' = iov /\ y = []).
Proof.
  induction msgs as [|m msgs IH]; intros hoff aoff iov c Hq Ho Hi.
  { exists iov, [], []. rewrite app_nil_r. split; [done|]. split; [lia|done]. }
  apply Forall_cons in Hq as [[Hany Hh Haux Hmax Hall] Hq]. destruct Ho as [Hho Hao]. cbn [build_iov].
  rewrite (bind_Ok _ _ c () c) by (rewrite !bool_decide_true by lia; done).
  destruct (iov_add_spec (any_bytes m) hoff (msg_hbytes m) iov c Hany Hho Hi) as (h & x1 & y1 & Eh & Ch & Dh & Lh & Nh & Fh).
  rewrite (bind_Ok _ _ _ _ _ Eh). destruct (snd h) eqn:Hs.
  { exists (fst h), x1, (y1 ++ drop (Z.to_nat aoff) (w_aux_data (m_wire m)) ++ (msgs ≫= frame_of)). split; [done|]. split; [done|].
    split; [done|]. split; [cbn; by rewrite Dh, <- app_assoc|]. intros Hx. by destruct (Nh Hx). }
  destruct (Fh eq_refl) as [-> Lh']. rewrite app_nil_r in Dh. clear Fh.
  destruct (iov_add_spec (w_aux_data (m_wire m)) aoff (msg_abytes m) (fst h) c Haux Hao Lh') as (a & x2 & y2 & Ea & Ca & Da & La & Na & Fa).
  rewrite (bind_Ok _ _ c a c).
  2: { rewrite <- Ea. unfold iov_add. case_bool_decide; [|done].
    rewrite (bind_Ok _ _ c () c); [done|]. rewrite bool_decide_true; [done|]. apply Hall. lia. }
  destruct (snd a) eqn:Hsa.
  { exists (fst a), (x1 ++ x2), (y2 ++ (msgs ≫= frame_of)). split; [done|]. split; [done|].
    split; [by rewrite Ca, Ch, app_assoc|]. split; [cbn; by rewrite Dh, Da, <- !app_assoc|].
    intros [_ Hx]%app_eq_nil. by destruct (Na Hx). }
  destruct (Fa eq_refl) as [-> La']. rewrite app_nil_r in Da.
  destruct (IH 0 0 (fst a) c Hq) as (iov' & x3 & y3 & E3 & L3 & C3 & R3 & N3).
  { destruct msgs as [|m2 ?]; [done|]. apply Forall_cons in Hq as [[] _]. lia. }
  { done. }
  exists iov', (x1 ++ x2 ++ x3), y3. split; [done|]. split; [done|]. split; [by rewrite C3, Ca, Ch, !app_assoc|].
  rewrite remaining_fresh in R3. split; [cbn; by rewrite Dh, Da, R3, <- !app_assoc|].
  intros [H1 [H2 H3]%app_eq_nil]%app_eq_nil. destruct (N3 H3) as [-> ->]. destruct (Na H2) as [-> _]. by destruct (Nh H1) as [-> _].
Qed.

(** ** Cleaning the queue *)

(** Freeing a message leaves the lock free and the queue of the writers alone. *)
Lemma free_idle mtx m io io' :
  dmsg_msg_free mtx m io = Ok () io' -> io_locked io = false -> io_locked io' = false /\ txmsgq io' = txmsgq io.
Proof.
  intros H Hl. unfold dmsg_msg_free in H. rewrite (bind_Ok _ _ io () (set_locked true io)) in H by (unfold lock, get_state, mbind, prog_bind; by rewrite Hl).
  unfold dmsg_msg_free_locked, dmsg_state_drop, dmsg_state_free, update_state, load_state, deref, unlock, assertp, when, get_state, modify,
    mbind, prog_bind, mret, prog_ret in H.
  repeat (case_match; simplify_eq/=; try done).
Qed.

Section flush.
Context (mtx : mutex_kind).

(** What is left of the queue: [todo] bytes, messages whose release succeeds and ends
    with the connection state [fin]. *)
Record tx_rep (c : conn) (fin : iocom) (todo : bytes) : Prop := {
  tr_ok : Forall queued_ok (q_msgq (c_tx c));
  tr_off : off_ok (q_msgq (c_tx c)) (q_hbytes (c_tx c)) (q_abytes (c_tx c));
  tr_todo : remaining (q_msgq (c_tx c)) (q_hbytes (c_tx c)) (q_abytes (c_tx c)) = todo;
  tr_free : free_all mtx (q_msgq (c_tx c)) (c_io c) = Ok () fin;
  tr_idle : io_locked (c_io c) = false;
  tr_calm : q_error (c_tx c) = 0 /\ fifo_beg (c_tx c) = fifo_cdx (c_tx c);
}.

(** The rest of the connection. *)
Definition tx_same (c c' : conn) : Prop :=
  c_rx c' = c_rx c /\ c_in c' = c_in c /\ txmsgq (c_io c') = txmsgq (c_io c) /\ q_seq (c_tx c') = q_seq (c_tx c).

Definition clean_post (c : conn) (fin : iocom) (todo : bytes) (r : Z) (c' : conn) : Prop :=
  r = 0 /\ tx_rep c' fin todo /\ tx_same c c' /\ c_flags c' = c_flags c /\ c_out c' = c_out c /\ c_sent c' = c_sent c.

Lemma queued_u64 m : queued_ok m -> forall h a, 0 <= h <= msg_hbytes m -> 0 <= a <= msg_abytes m ->
  u64 (msg_hbytes m - h) = msg_hbytes m - h /\ u64 (msg_abytes m - a) = msg_abytes m - a.
Proof. intros [] h a Hh Ha. unfold uwrap. rewrite !Z.mod_small by blia. done. Qed.

Lemma free_all_head m msgs io fin :
  free_all mtx (m :: msgs) io = Ok () fin -> exists io', dmsg_msg_free mtx m io = Ok () io' /\ free_all mtx msgs io' = Ok () fin.
Proof. cbn. unfold mbind, prog_bind. destruct (dmsg_msg_free mtx m io) as [[] io'|]; [eauto|done]. Qed.

Lemma clean_queue_spec msgs : forall nact c fin,
  q_msgq (c_tx c) = msgs -> tx_rep c fin (remaining msgs (q_hbytes (c_tx c)) (q_abytes (c_tx c))) ->
  0 <= nact <= Z.of_nat (length (remaining msgs (q_hbytes (c_tx c)) (q_abytes (c_tx c)))) ->
  wp (clean_queue mtx msgs nact) c
    (clean_post c fin (drop (Z.to_nat nact) (remaining msgs (q_hbytes (c_tx c)) (q_abytes (c_tx c))))).
Proof.
  induction msgs as [|m msgs IH]; intros nact c fin Hm Hr Hn.
  { cbn in *. apply wp_ret. split; [lia|]. rewrite drop_nil. split; [done|]. done. }
  destruct Hr as [Hok Hoff _ Hfree Hidle Hcalm]. rewrite Hm in Hok, Hoff, Hfree.
  apply Forall_cons in Hok as [Hq Hok]. cbn [remaining] in *. set (h := q_hbytes (c_tx c)) in *. set (a := q_abytes (c_tx c)) in *.
  destruct Hoff as (H1 & H2 & H3 & H4). destruct (queued_u64 m Hq h a H1 H2) as [Eh Ea]. pose proof Hq as [Qa Qh Qx Qm _].
  set (hb := drop (Z.to_nat h) (any_bytes m)) in *. set (ab := drop (Z.to_nat a) (w_aux_data (m_wire m))) in *.
  assert (Z.of_nat (length hb) = msg_hbytes m - h) as Lh by (unfold hb; rewrite length_drop; lia).
  assert (Z.of_nat (length ab) = msg_abytes m - a) as La by (unfold ab; rewrite length_drop; lia).
  cbn [clean_queue]. apply wp_bind, wp_get. fold h a. rewrite Eh, Ea.
  destruct (decide (nact < msg_hbytes m - h)) as [Hlt|Hge].
  - rewrite bool_decide_true by done. apply wp_bind. unfold wp, on_tx, modify. cbn. split; [done|]. split; [|done].
    specialize (H3 ltac:(lia)). constructor; cbn; rewrite ?Hm; fold h a; try done; [by constructor| |].
    + cbn. fold h a. lia.
    + cbn [remaining]. rewrite drop_app_le by lia. unfold hb. rewrite drop_drop. fold h a ab. do 2 f_equal. lia.
  - rewrite bool_decide_false by done. apply wp_bind. unfold wp at 1, on_tx at 1, modify. cbn zeta.
    destruct (decide (nact - (msg_hbytes m - h) < msg_abytes m - a)) as [Hlt|Hge2].
    + rewrite bool_decide_true by done. unfold wp, on_tx, modify. cbn. split; [done|]. split; [|done].
      constructor; cbn; rewrite ?Hm; fold h a; try done; [by constructor| |].
      * cbn. fold h a. lia.
      * cbn [remaining]. rewrite (drop_ge (any_bytes m)) by lia. rewrite drop_app_ge by lia. rewrite drop_app_le by lia.
        unfold ab. rewrite drop_drop. cbn. fold h a. do 2 f_equal. lia.
    + rewrite bool_decide_false by done. apply wp_bind. unfold wp at 1, on_tx at 1, modify. cbn -[clean_queue].
      destruct (free_all_head _ _ _ _ Hfree) as (io' & Hf & Hfin). destruct (free_idle _ _ _ _ Hf Hidle) as [Hidle' Htx].
      apply wp_bind. unfold wp at 1, on_io at 1. cbn -[clean_queue dmsg_msg_free]. rewrite Hf.
      match goal with |- wp _ ?c1 _ => set (c' := c1) end.
      assert (remaining msgs 0 0 = msgs ≫= frame_of) as Hrem by apply remaining_fresh.
      eapply wp_mono.
      * apply (IH _ c' fin); unfold c'; cbn; [done| |].
        -- split; cbn; try done. by apply off_fresh.
        -- rewrite Hrem. rewrite !length_app in Hn. lia.
      * unfold c'. cbn. intros r c2 (? & Hr2 & (? & ? & ? & ?) & ? & ? & ?). cbn in *. split; [done|]. split.
        -- rewrite Hrem in Hr2. rewrite (drop_app_ge hb), (drop_app_ge ab) by lia.
           replace (Z.to_nat nact - length hb - length ab)%nat with (Z.to_nat (nact - (msg_hbytes m - h) - (msg_abytes m - a))) by lia. done.
        -- split; [|done]. split_and!; try done. etrans; done.
Qed.

(** ** One flush *)

(** The socket stays usable: [writev] accepts some bytes, or asks to try again. *)
Definition out_ok (e : wr_event) : Prop := match e with Room _ => True | WrErr e => again_errno e = true end.

(** What one flush of [todo] does: it sends a prefix, not an empty one when there is
    room, and as long as something is left it asks to be called again. *)
Record flushed (c : conn) (fin : iocom) (todo : bytes) (c' : conn) (sent todo' : bytes) : Prop := {
  fl_split : todo = sent ++ todo';
  fl_rep : tx_rep c' fin todo';
  fl_sent : c_sent c' = c_sent c ++ sent;
  fl_same : tx_same c c';
  fl_plain : has (c_flags c') DMSG_IOCOMF_CRYPTED = false;
  fl_again : todo' ≠ [] -> has (c_flags c') (DMSG_IOCOMF_WREQ .| DMSG_IOCOMF_WWORK) = true;
  fl_out : c_out c' = match todo with [] => c_out c | _ => tail (c_out c) end;
  fl_more : todo ≠ [] -> forall n evs, c_out c = Room n :: evs -> n ≠ 0%nat -> sent ≠ [];
}.

Lemma has_set x f g : f .& g = f -> f ≠ 0 -> has (x .| f) g = true.
Proof.
  intros H Hf. apply bool_decide_true. rewrite Z.land_lor_distr_l, H. intros Hz%Z.lor_eq_0_iff. tauto.
Qed.

Lemma remaining_empty c fin todo : tx_rep c fin todo -> todo = [] <-> q_msgq (c_tx c) = [].
Proof.
  intros [Hok Hoff Htodo _ _ _]. destruct (q_msgq (c_tx c)) as [|m msgs]; [by subst todo|]. split; [|done]. subst todo.
  intros He. apply Forall_cons in Hok as [Hq _]. by destruct (remaining_nonempty m msgs _ _ Hq Hoff).
Qed.

(** Only the flags, the events and the sent bytes change. *)
Lemma tx_rep_same c c' fin todo : tx_rep c fin todo -> c_tx c' = c_tx c -> c_io c' = c_io c -> tx_rep c' fin todo.
Proof. intros [] Ht Hi. constructor; rewrite ?Ht, ?Hi; done. Qed.

Lemma sock_write_spec bs c (Q : Z + Z -> conn -> Prop) :
  Forall out_ok (c_out c) ->
  (forall e, again_errno e = true -> (forall n evs, c_out c ≠ Room n :: evs) -> Q (inr e) (set_c_out (tail (c_out c)) c)) ->
  (forall n evs, c_out c = Room n :: evs ->
     Q (inl (Z.of_nat (length (take n bs)))) (set_c_sent (c_sent c ++ take n bs) (set_c_out evs c))) ->
  wp (sock_write bs) c Q.
Proof.
  intros Hok He Hr. unfold sock_write. apply wp_bind, wp_get. destruct (c_out c) as [|[n|e] evs] eqn:Ho.
  - apply wp_ret. specialize (He EAGAIN eq_refl ltac:(done)). replace (set_c_out (tail []) c) with c in He; [done|].
    destruct c. cbn in *. by rewrite Ho.
  - by apply (Hr n evs).
  - apply Forall_cons in Hok as [Hok _]. apply (He e); done.
Qed.

Lemma flush2_spec c fin todo :
  tx_rep c fin todo -> has (c_flags c) DMSG_IOCOMF_CRYPTED = false -> Forall out_ok (c_out c) ->
  wp (dmsg_iocom_flush2 mtx) c (λ _ c', exists sent todo', flushed c fin todo c' sent todo').
Proof.
  intros Hr Hp Ho. pose proof Hr as [Hok Hoff Htodo Hfree Hidle [Herr Hfifo]].
  unfold dmsg_iocom_flush2. apply wp_bind, wp_get. rewrite bool_decide_false by (rewrite Herr; tauto).
  destruct (build_iov_spec (q_msgq (c_tx c)) (q_hbytes (c_tx c)) (q_abytes (c_tx c)) [] c Hok) as (iov & x & y & E & _ & Hx & Hxy & Hnil).
  { destruct (q_msgq (c_tx c)); [done|]. destruct Hoff as (? & ? & _). lia. }
  { done. }
  apply wp_bind. unfold wp at 1. rewrite E. cbn [app concat] in Hx. rewrite Htodo in Hxy.
  rewrite (bool_decide_true (fifo_beg (c_tx c) = fifo_cdx (c_tx c))) by done. rewrite andb_true_r.
  destruct (decide (iov = [])) as [Hi|Hi].
  { rewrite bool_decide_true by done. apply wp_ret. rewrite Hi in Hx. destruct (Hnil (eq_sym Hx)) as [_ ->]. rewrite <- Hx in Hxy. cbn in Hxy.
    rewrite Hxy in Hr |- *. exists [], []. split; try done. by rewrite app_nil_r. }
  rewrite bool_decide_false by done. apply wp_bind. unfold flush_write. apply wp_bind, wp_get. rewrite Hp.
  assert (x ≠ []) as Hxn by (intros Hx0; by destruct (Hnil Hx0)).
  assert (todo ≠ []) as Htn by (rewrite Hxy; by destruct x).
  apply wp_bind, sock_write_spec; [done| |].
  - intros e He Hno. apply wp_ret, wp_bind, wp_get. cbn [snd fst]. apply wp_bind.
    eapply wp_mono; [apply (clean_queue_spec _ 0 _ fin)|]; cbn.
    + done.
    + eapply tx_rep_same; [by rewrite Htodo|done..].
    + lia.
    + intros r c1 (-> & Hr1 & Hs1 & Hf1 & Ho1 & Hse1). change (Z.to_nat 0) with 0%nat in Hr1. rewrite drop_0, Htodo in Hr1.
      apply wp_bind, wp_assertp; [done|]. apply wp_bind, wp_get. rewrite He. apply wp_bind.
      unfold set_flag. apply wp_modify. apply wp_bind, wp_get. cbn. destruct Hr1 as [R1 R2 R3 R4 R5 [R6 R7]].
      rewrite R6. apply wp_ret. exists [], todo. split; try done.
      * by rewrite app_nil_r.
      * cbn. rewrite has_set_other by done. by rewrite Hf1.
      * intros _. by apply has_set.
      * by destruct todo.
      * intros _ n evs Hc. by destruct (Hno n evs).
  - intros n evs Hroom. apply wp_ret, wp_bind, wp_get. cbn [snd fst]. rewrite Hx. apply wp_bind.
    assert (take n x = take (length (take n x)) todo) as Htk.
    { rewrite Hxy, length_take, take_app_le by lia. destruct (decide (n <= length x)%nat); [by f_equal; lia|].
      rewrite Nat.min_r, take_ge, take_ge by lia. done. }
    eapply wp_mono; [apply (clean_queue_spec _ _ _ fin)|]; cbn.
    + done.
    + eapply tx_rep_same; [by rewrite Htodo|done..].
    + rewrite Htodo, Hxy, length_app, length_take. lia.
    + intros r c1 (-> & Hr1 & Hs1 & Hf1 & Ho1 & Hse1). rewrite Htodo, Nat2Z.id in Hr1. cbn in Hse1, Ho1, Hf1.
      apply wp_bind, wp_assertp; [done|]. apply wp_bind, wp_get.
      pose proof Hr1 as [R1 R2 R3 R4 R5 [R6 R7]].
      assert (todo = take n x ++ drop (length (take n x)) todo) as Hsp by (rewrite Htk at 1; by rewrite take_drop).
      assert (forall n' evs', c_out c = Room n' :: evs' -> n' ≠ 0%nat -> take n x ≠ []) as Hsome.
      { intros n' evs' Hc Hn Hz%(f_equal length). rewrite Hc in Hroom. injection Hroom as -> ->. rewrite length_take in Hz.
        destruct x; [done|]. cbn in Hz. lia. }
      set (b := _ || _). apply wp_bind, wp_when; intros Hb; [unfold set_flag; apply wp_modify|]; apply wp_bind, wp_get; cbn; rewrite R6; apply wp_ret;
        exists (take n x), (drop (length (take n x)) todo); split; cbn; try done.
      * rewrite has_set_other by done. by rewrite Hf1.
      * intros _. by apply has_set.
      * by destruct todo; [|rewrite Ho1, Hroom].
      * by rewrite Hf1.
      * intros Hne. exfalso. apply Hne, (remaining_empty _ _ _ Hr1). unfold b in Hb. apply orb_false_iff in Hb as [[Hb _]%orb_false_iff _].
        by apply bool_decide_eq_false, dec_stable in Hb.
      * by destruct todo; [|rewrite Ho1, Hroom].
Qed.
End flush.

(** ** New messages *)

Section queue.
Context (mtx : mutex_kind) (buf_addr aux_addr : Z) (random : Z -> Z).

(** The messages as they are finished one after the other. *)
Fixpoint finish_list (seq : Z) (ms : list dmsg_msg) : list dmsg_msg :=
  match ms with
  | [] => []
  | m :: ms => finished random seq m :: finish_list (seq + 1) ms
  end.

Lemma finished_queued seq m : msg_ok m -> queued_ok (finished random seq m).
Proof.
  intros [Kh Kx Ka Km Kal Kb Kv Kc]. destruct (finished_sizes random seq m) as [Hh Ha].
  destruct (finished_same random seq m) as (_ & _ & _ & _ & Hx & Hd & Hal & _).
  constructor; rewrite ?Hh, ?Ha, ?Hd, ?Hal; try done; try lia.
  - rewrite length_any; [done|]. by rewrite Hh, Hx.
  - intros Hp. rewrite Kal. case_bool_decide as Hz; [|lia]. revert Hp. unfold msg_abytes. by rewrite Hz.
Qed.

Lemma finish_list_queued ms : forall seq, Forall msg_ok ms -> Forall queued_ok (finish_list seq ms).
Proof. induction ms; intros seq H; [done|]. apply Forall_cons in H as [? ?]. constructor; [by apply finished_queued|auto]. Qed.

(** Only the states of the messages matter when they are freed. *)
Lemma free_all_state ms : forall ms' io, map m_state ms = map m_state ms' -> free_all mtx ms io = free_all mtx ms' io.
Proof.
  induction ms as [|m ms IH]; intros [|m' ms'] io H; try done. injection H as Hm H. cbn. unfold dmsg_msg_free, dmsg_msg_free_locked.
  rewrite Hm. apply bind_ext. intros [] io' _. by apply IH.
Qed.

Lemma finish_list_state ms : forall seq, map m_state (finish_list seq ms) = map m_state ms.
Proof. induction ms as [|m ms IH]; intros seq; [done|]. cbn [finish_list map]. f_equal; [|apply IH]. by destruct (finished_same random seq m) as (_ & -> & _). Qed.

Lemma reseed_id c : io_locked (c_io c) = false -> reseed mtx c = Ok () c.
Proof.
  intros Hl. unfold reseed. rewrite (bind_Ok get_state _ _ _ _ eq_refl). destruct (bool_decide _); [|done].
  unfold when, on_io, lock, unlock, get_state, modify, mbind, prog_bind. rewrite Hl. cbn. destruct c as [[] ??????]. cbn in *. by subst.
Qed.

Lemma flush_queue_spec ms : forall c,
  Forall msg_ok ms -> q_error (c_tx c) = 0 -> q_seq (c_tx c) + Z.of_nat (length ms) < 2 ^ 31 -> io_locked (c_io c) = false ->
  exists n, flush_queue mtx buf_addr aux_addr random ms c =
    Ok () (set_c_tx (set_q_msgcount n (set_q_msgq (q_msgq (c_tx c) ++ finish_list (q_seq (c_tx c)) ms)
             (set_q_seq (q_seq (c_tx c) + Z.of_nat (length ms)) (c_tx c)))) c).
Proof.
  induction ms as [|m ms IH]; intros c Hok He Hs Hl.
  { exists (q_msgcount (c_tx c)). cbn. rewrite app_nil_r, Z.add_0_r. by destruct c as [??? [] ???]. }
  apply Forall_cons in Hok as [Hm Hok]. cbn [flush_queue]. cbn [length] in Hs.
  unfold mbind at 1, prog_bind at 1, get_state at 1. rewrite bool_decide_false by (rewrite He; tauto).
  set (c1 := set_c_tx (set_q_seq (q_seq (c_tx c) + 1) (c_tx c)) c).
  set (f := finished random (q_seq (c_tx c)) m).
  set (c2 := set_c_tx (set_q_msgcount (q_msgcount (c_tx c1) + 1) (set_q_msgq (q_msgq (c_tx c1) ++ [f]) (c_tx c1))) c1).
  rewrite (bind_Ok _ _ c () c2).
  - destruct (IH c2) as [n ->]; [done|done|unfold c2, c1; cbn; lia|done|]. exists n. unfold c2, c1. cbn. rewrite <- app_assoc. cbn.
    replace (q_seq (c_tx c) + 1 + Z.of_nat (length ms)) with (q_seq (c_tx c) + Z.of_nat (S (length ms))) by lia. done.
  - rewrite (bind_Ok _ _ c () c1) by (unfold on_tx, seq_next, get_state, mbind, prog_bind, modify; rewrite bool_decide_false by lia; done).
    rewrite (bind_Ok _ _ c1 () c1) by (by apply reseed_id).
    destruct (finish_spec_ok buf_addr aux_addr random (q_seq (c_tx c)) m c1 Hm) as [Hf _]. rewrite (bind_Ok _ _ _ _ _ Hf). done.
Qed.

(** ** A link that transmits

    [todo] is what has been queued and not been sent: the rest of the finished messages
    and the messages that wait for [dmsg_iocom_flush1]. *)
Record tx_ready (c : conn) (fin : iocom) (todo : bytes) : Prop := {
  ty_ok : Forall queued_ok (q_msgq (c_tx c));
  ty_off : off_ok (q_msgq (c_tx c)) (q_hbytes (c_tx c)) (q_abytes (c_tx c));
  ty_new : Forall msg_ok (txmsgq (c_io c));
  ty_seq : q_seq (c_tx c) + Z.of_nat (length (txmsgq (c_io c))) < 2 ^ 31;
  ty_todo : remaining (q_msgq (c_tx c)) (q_hbytes (c_tx c)) (q_abytes (c_tx c))
            ++ (finish_list (q_seq (c_tx c)) (txmsgq (c_io c)) ≫= frame_of) = todo;
  ty_free : free_all mtx (q_msgq (c_tx c) ++ txmsgq (c_io c)) (set_txmsgq (λ _, []) (c_io c)) = Ok () fin;
  ty_idle : io_locked (c_io c) = false;
  ty_calm : q_error (c_tx c) = 0 /\ fifo_beg (c_tx c) = fifo_cdx (c_tx c);
  ty_plain : has (c_flags c) DMSG_IOCOMF_CRYPTED = false;
}.

Lemma remaining_app ms ms' h a :
  off_ok ms h a -> remaining ms h a ++ (ms' ≫= frame_of) = remaining (ms ++ ms') h a.
Proof.
  destruct ms as [|m ms]; cbn.
  - intros [-> ->]. by rewrite remaining_fresh.
  - intros _. by rewrite bind_app, <- !app_assoc.
Qed.

(** The messages are moved to the queue of the link. *)
Lemma flush1_enqueue c fin todo :
  tx_ready c fin todo -> exists c2, dmsg_iocom_flush1 mtx buf_addr aux_addr random c = dmsg_iocom_flush2 mtx c2 /\
    tx_rep mtx c2 fin todo /\ has (c_flags c2) DMSG_IOCOMF_CRYPTED = false /\ txmsgq (c_io c2) = [] /\ q_seq (c_tx c2) < 2 ^ 31 /\
    c_out c2 = c_out c /\ c_sent c2 = c_sent c /\ c_rx c2 = c_rx c /\ c_in c2 = c_in c.
Proof.
  intros [Hok Hoff Hnew Hseq Htodo Hfree Hidle [Herr Hfifo] Hplain].
  set (q := c_tx c) in *. set (new := txmsgq (c_io c)) in *.
  destruct (flush_queue_spec new (set_c_io (set_txmsgq (λ _, []) (c_io c)) (set_c_flags (clear (c_flags c) (DMSG_IOCOMF_WREQ .| DMSG_IOCOMF_WWORK)) c)))
    as [n Hq]; [done..|]. cbn -[finish_list flush_queue] in Hq. fold q in Hq.
  set (c2 := set_c_tx _ _) in Hq.
  assert (dmsg_iocom_flush1 mtx buf_addr aux_addr random c = dmsg_iocom_flush2 mtx c2) as E.
  { unfold dmsg_iocom_flush1. unfold mbind, prog_bind, clear_flag, on_io, lock, unlock, get_state, modify, mbind, prog_bind.
    cbn -[flush_queue dmsg_iocom_flush2]. rewrite Hidle. cbn -[flush_queue dmsg_iocom_flush2].
    fold new. unfold set_c_flags, set_c_io, set_locked, set_txmsgq. cbn -[flush_queue dmsg_iocom_flush2].
    rewrite <- Hidle. unfold set_c_flags, set_c_io, set_locked, set_txmsgq in Hq. cbn -[flush_queue] in Hq. by rewrite Hq. }
  exists c2. split; [done|]. split; [|split_and!; try done; cbn; by rewrite has_clear_other].
  rewrite (free_all_state _ (q_msgq q ++ finish_list (q_seq q) new)) in Hfree by (by rewrite !map_app, finish_list_state).
  split; cbn; try done.
  - apply Forall_app_2; [done|]. by apply finish_list_queued.
  - destruct (q_msgq q); [|done]. destruct Hoff as [-> ->]. by apply off_fresh, finish_list_queued.
  - by rewrite <- remaining_app.
Qed.

Record link_flushed (c : conn) (fin : iocom) (todo : bytes) (c' : conn) (sent todo' : bytes) : Prop := {
  lf_split : todo = sent ++ todo';
  lf_ready : tx_ready c' fin todo';
  lf_sent : c_sent c' = c_sent c ++ sent;
  lf_rx : c_rx c' = c_rx c /\ c_in c' = c_in c /\ txmsgq (c_io c') = [];
  lf_again : todo' ≠ [] -> has (c_flags c') (DMSG_IOCOMF_WREQ .| DMSG_IOCOMF_WWORK) = true;
  lf_out : c_out c' = match todo with [] => c_out c | _ => tail (c_out c) end;
  lf_more : todo ≠ [] -> forall n evs, c_out c = Room n :: evs -> n ≠ 0%nat -> sent ≠ [];
}.

Lemma flush1_spec c fin todo :
  tx_ready c fin todo -> Forall out_ok (c_out c) ->
  wp (dmsg_iocom_flush1 mtx buf_addr aux_addr random) c (λ _ c', exists sent todo', link_flushed c fin todo c' sent todo').
Proof.
  intros Hr Hout. destruct (flush1_enqueue c fin todo Hr) as (c2 & E & Hr2 & Hp & Htx & Hs & Ho & Hse & Hrx & Hin).
  rewrite <- Ho in Hout. pose proof (flush2_spec mtx c2 fin todo Hr2 Hp Hout) as H. unfold wp in *. rewrite E.
  destruct (dmsg_iocom_flush2 mtx c2) as [[] c'|]; [|done]. destruct H as (sent & todo' & []).
  destruct fl_same0 as (Srx & Sin & Stx & Sseq). exists sent, todo'. rewrite Htx in Stx. destruct fl_rep0.
  split; rewrite ?Srx, ?Sin, <- ?Ho, <- ?Hse; try done. split; rewrite ?Stx, ?app_nil_r, ?Sseq; try done.
  - cbn. lia.
  - replace (set_txmsgq (λ _, []) (c_io c')) with (c_io c'); [done|]. destruct (c_io c'). cbn in *. by rewrite Stx.
Qed.

(** ** Many flushes *)

Fixpoint flushes (k : nat) : prog conn () :=
  match k with
  | O => mret ()
  | S k => dmsg_iocom_flush1 mtx buf_addr aux_addr random;; flushes k
  end.

(** The calls of [writev] that accept something. *)
Fixpoint rooms (evs : list wr_event) : nat :=
  match evs with
  | [] => 0
  | Room (S _) :: evs => S (rooms evs)
  | _ :: evs => rooms evs
  end.

Lemma frame_nonempty m : queued_ok m -> frame_of m ≠ [].
Proof. intros [] H%(f_equal length). unfold frame_of in H. rewrite length_app in H. cbn in H. lia. Qed.

(** When nothing is left to be sent, the queues are empty and the messages are freed. *)
Lemma tx_done c fin : tx_ready c fin [] -> q_msgq (c_tx c) = [] /\ c_io c = fin.
Proof.
  intros [Hok Hoff Hnew _ [H1 H2]%app_eq_nil Hfree _ _ _].
  assert (q_msgq (c_tx c) = []) as Hq.
  { destruct (q_msgq (c_tx c)); [done|]. apply Forall_cons in Hok as [Hq _]. by destruct (remaining_nonempty _ _ _ _ Hq Hoff). }
  assert (txmsgq (c_io c) = []) as Ht.
  { destruct (txmsgq (c_io c)) as [|m ms]; [done|]. apply Forall_cons in Hnew as [Hm _]. cbn in H2. apply app_eq_nil in H2 as [H2 _].
    by destruct (frame_nonempty _ (finished_queued (q_seq (c_tx c)) m Hm)). }
  split; [done|]. rewrite Hq, Ht in Hfree. cbn in Hfree. injection Hfree as <-. destruct (c_io c). cbn in *. by rewrite Ht.
Qed.

(** Whatever [writev] accepts: a prefix of the queued bytes is sent, in order; it is all of
    them when enough calls accept something. *)
Lemma flushes_spec k : forall c fin todo,
  tx_ready c fin todo -> Forall out_ok (c_out c) ->
  wp (flushes k) c (λ _ c', exists sent todo', todo = sent ++ todo' /\ tx_ready c' fin todo' /\ c_sent c' = c_sent c ++ sent /\
    c_rx c' = c_rx c /\ c_in c' = c_in c /\ ((length todo <= rooms (take k (c_out c)))%nat -> todo' = [])).
Proof.
  induction k as [|k IH]; intros c fin todo Hr Hout.
  { apply wp_ret. exists [], todo. rewrite app_nil_r. split_and!; try done. rewrite take_0. cbn. intros H. apply length_zero_iff_nil. lia. }
  cbn [flushes]. apply wp_bind. eapply wp_mono; [by apply (flush1_spec c fin todo)|].
  intros _ c1 (s1 & t1 & [Hsp Hr1 Hse (Hrx & Hin & Htx) _ Ho Hm]).
  assert (Forall out_ok (c_out c1)) as Hout1 by (rewrite Ho; destruct todo; [done|]; by destruct Hout).
  eapply wp_mono; [by apply (IH c1 fin t1)|].
  intros _ c2 (s2 & t2 & Hsp2 & Hr2 & Hse2 & Hrx2 & Hin2 & Hlast). exists (s1 ++ s2), t2.
  split; [by rewrite Hsp, Hsp2, app_assoc|]. split; [done|]. split; [by rewrite Hse2, Hse, app_assoc|].
  split; [congruence|]. split; [congruence|]. intros Hlen.
  destruct todo as [|b todo]; [by symmetry in Hsp; apply app_eq_nil in Hsp as [_ ->]; symmetry in Hsp2; apply app_eq_nil in Hsp2 as [_ ->]|].
  apply Hlast. rewrite Ho. specialize (Hm ltac:(done)). apply (f_equal length) in Hsp. rewrite length_app in Hsp.
  destruct (c_out c) as [|[[|n]|e] evs]; cbn in *; try lia.
  destruct s1 as [|x s1]; [by destruct (Hm (S n) evs)|]. cbn in *. lia.
Qed.
End queue.
