(* ===== verification/DmsgLink.v ===== *)
(** * DmsgLink: a link between two hosts, and links that fail

    The two sides together: the messages that one side queues are delivered by the other
    side, whatever the sizes of the writes and of the reads are ([link_delivers]).  And the
    errors of the receiver: a header with a wrong checksum ([drive_bad_crc]), a link
    after an error ([dead]), encrypted links ([decrypt_stuck]). *)

From S2P Require Import Prelude CMonad WpStop Crc32 Layout ByteOrder Dmsg DmsgFrame DmsgFifo DmsgRef DmsgRead DmsgStream DmsgWrite DmsgFlush.

#[local] Opaque Z.to_nat.

(** A new connection with the transactions [io]. *)
Definition link_conn (io : iocom) (ins : list rd_event) (outs : list wr_event) : conn := set_c_io io (conn_init false ins outs).

Lemma link_rep mtx io ins outs : rx_rep mtx io (link_conn io ins outs) [].
Proof.
  apply (Rep_header1 _ _ _ dmsg_ioq_init); try done. 
  apply (Fifo_in dmsg_ioq_init [] 0 0 (q_buf dmsg_ioq_init)). exists [], (q_buf dmsg_ioq_init). done.
Qed.

Lemma link_ready mtx io ins outs :
  alive io = true -> Forall (event_ok true) ins -> rx_ready mtx io (link_conn io ins outs) [].
Proof. intros Ha Hi. split; try done; [apply link_rep|constructor|by apply alive_root]. Qed.

Section link.
Context (mtx : mutex_kind) (random : Z -> Z) (handle : dmsg_msg -> prog iocom ()) (addrs : nat -> positive).

(** The messages that were sent go to [dmsg_receive], one after the other; what is
    delivered has the payload of the message as it was finished. *)
Fixpoint deliver_all (i : nat) (seq : Z) (ms : list dmsg_msg) : prog iocom (list dmsg_msg) :=
  io ← get_state;
  if negb (alive io) then stop_with Undef
  else
    match ms with
    | [] => mret []
    | m :: ms =>
        r ← dmsg_receive mtx (addrs i) (head_of m);
        match r with
        | None => deliver_all i (seq + 1) ms
        | Some m' =>
            let m' := set_m_wire (m_wire (finished random seq m)) m' in
            handle m';;
            out ← deliver_all (S i) (seq + 1) ms;
            mret (m' :: out)
        end
    end.

Lemma deliver_ref_run ms : forall i seq io out io',
  Forall msg_ok ms -> 0 <= seq -> seq + Z.of_nat (length ms) < 2 ^ 31 -> deliver_all i seq ms io = Ok out io' ->
  ref_run mtx handle addrs (S (length ms)) i seq (finish_list random seq ms ≫= frame_of) io =
    Ok (out, seq + Z.of_nat (length ms), []) io'.
Proof.
  induction ms as [|m ms IH]; intros i seq io out io' Hok Hs0 Hs Hd.
  all: cbn [deliver_all] in Hd; rewrite (bind_Ok get_state _ _ _ _ eq_refl) in Hd; destruct (alive io) eqn:Hal; [cbn [negb] in Hd|done].
  { injection Hd as <- <-. cbn [ref_run finish_list length]. rewrite (bind_Ok get_state _ _ _ _ eq_refl), Hal. cbn. by rewrite Z.add_0_r. }
  apply Forall_cons in Hok as [Hm Hok]. cbn [finish_list length] in *.
  change ((finished random seq m :: finish_list random (seq + 1) ms) ≫= frame_of)
    with (frame_of (finished random seq m) ++ (finish_list random (seq + 1) ms ≫= frame_of)).
  remember (S (length ms)) as n eqn:En. cbn [ref_run]. rewrite (bind_Ok get_state _ _ _ _ eq_refl), Hal. cbn [negb].
  rewrite (frame_verdict 0 0 random seq m _ Hm). destruct (frame_payload 0 0 random seq m Hm) as (Hhd & Hw & Hsalt).
  rewrite Hsalt, Hhd, Hw. rewrite bool_decide_false by tauto. rewrite (bool_decide_false (seq = 2 ^ 31 - 1)) by lia. cbn [orb].
  apply bind_Ok_inv in Hd as (r & io1 & Hr & Hd). rewrite (bind_Ok _ _ _ _ _ Hr).
  replace (seq + Z.of_nat n) with (seq + 1 + Z.of_nat (length ms)) by lia. subst n.
  destruct r as [m'|]; [|apply IH; [done|lia|lia|done]].
  apply bind_Ok_inv in Hd as ([] & io2 & Hh & Hd). rewrite (bind_Ok _ _ _ _ _ Hh).
  apply bind_Ok_inv in Hd as (out' & io3 & Hd & [= <- <-]).
  by rewrite (bind_Ok _ _ _ _ _ (IH (S i) (seq + 1) io2 out' io3 Hok ltac:(lia) ltac:(lia) Hd)).
Qed.

Lemma link_tx_ready io fin outs :
  Forall msg_ok (txmsgq io) -> Z.of_nat (length (txmsgq io)) < 2 ^ 31 -> io_locked io = false ->
  free_all mtx (txmsgq io) (set_txmsgq (λ _, []) io) = Ok () fin ->
  tx_ready mtx random (link_conn io [] outs) fin (finish_list random 0 (txmsgq io) ≫= frame_of).
Proof. intros Hok Hn Hl Hf. by split. Qed.
End link.

(** ** A wrong header checksum *)

Section errors.
Context (mtx : mutex_kind) (cb : dmsg_msg -> prog iocom ()) (fuel dfuel : nat) (buf_addr aux_addr : Z).
Context (handle : dmsg_msg -> prog iocom ()) (addrs : nat -> positive).

Lemma read_bad_crc rfuel addr io c got :
  rx_ready mtx io c got -> ref_frame (got ++ flat (c_in c)) = BadCrc ->
  wps (dmsg_ioq_read mtx cb fuel dfuel buf_addr aux_addr (S rfuel) addr) c (λ e, e = AssertFail) (λ r c', r = None /\
    exists got', rx_ready mtx io c' got' /\ got ++ flat (c_in c) = got' ++ flat (c_in c') /\ (work (c_in c') < work (c_in c))%nat).
Proof.
  intros [Rrep Rerr Rmsgq Rok Rroot Rcr Rev] Hbad. cbn [dmsg_ioq_read]. do 2 wps_step. rewrite Rmsgq. unfold clear_flag. cbv zeta. do 2 wps_step.
  rewrite Rerr, bool_decide_false by tauto. set (c0 := set_c_flags _ c). wps_step.
  eapply wps_weaken; [apply (switch_spec mtx dfuel buf_addr aux_addr true io c0 got); try done| |].
  { by apply (rx_rep_ext _ _ c). }
  { by unfold c0; fields; rewrite has_clear_other. }
  { by intros e [-> _]. }
  intros msg c1 (more & Hfl & Hmore & Hev & [sr_flags0 sr_tx0 sr_out0 sr_sent0 sr_seq0 sr_msgq0] & Hra & Hwk & Hv).
  change (c_in c0) with (c_in c) in *. rewrite Hfl, app_assoc in Hbad. set (G := got ++ more) in *.
  destruct (ref_frame G) as [|e| |any aux sz rest] eqn:HG; [|rewrite ref_frame_app, HG in Hbad by (by rewrite HG); done..].
  destruct Hv as [(-> & He1 & Hrep1 & Hw1)|(? & _)]; [|done]. unfold ioq_sequence. do 3 wps_step. cbn [andb when]. wps_step.
  do 2 wps_step. rewrite He1, bool_decide_false by tauto. cbn [negb]. unfold set_flag. do 3 wps_step. split; [done|]. exists G.
  split; [split; fields; try done; [by apply (rx_rep_ext _ _ c1)|by rewrite sr_msgq0|by apply Forall_app_2|
    by rewrite has_set_other by done; rewrite sr_flags0; unfold c0; fields; rewrite has_clear_other]|].
  split; [fields; by rewrite Hfl, app_assoc|]. fields. destruct Hw1 as [[E1 E2]|Hw1]; [|done].
  rewrite E2 in Hbad. cbn in Hbad. rewrite app_nil_r in Hbad. congruence.
Qed.

Lemma drive_bad_crc k rfuel i io : forall c got,
  rx_ready mtx io c got -> ref_frame (got ++ flat (c_in c)) = BadCrc -> (work (c_in c) < k)%nat ->
  drive mtx cb fuel dfuel buf_addr aux_addr handle addrs k (S rfuel) i c = Stop AssertFail.
Proof.
  induction k as [|k IH]; intros c got Hr Hb Hk; [lia|]. cbn [drive].
  pose proof (read_bad_crc rfuel (addrs i) io c got Hr Hb) as H. unfold wps in H. unfold mbind, prog_bind.
  destruct (dmsg_ioq_read _ _ _ _ _ _ _ _ c) as [r c'|e]; [|by subst e].
  destruct H as (-> & got' & Hr' & Heq & Hw). apply (IH c' got' Hr'); [by rewrite <- Heq|lia].
Qed.

(** ** Encrypted links *)

(** No chunk is ever taken from the FIFO. *)
Lemma decrypt_chunks_stuck n : forall q p_len,
  DMSG_CRYPTO_CHUNK_SIZE <= p_len -> 0 <= fifo_cdn q -> fifo_cdn q + DMSG_CRYPTO_CHUNK_SIZE <= Z.of_nat (length (q_buf q)) ->
  decrypt_chunks n p_len q = Stop OutOfFuel.
Proof.
  induction n as [|n IH]; intros q p_len Hp H0 Hb; [done|]. cbn [decrypt_chunks]. rewrite bool_decide_true by done.
  rewrite (bind_Ok get_state _ _ _ _ eq_refl).
  rewrite (bind_Ok _ _ q (take (Z.to_nat DMSG_CRYPTO_CHUNK_SIZE) (drop (Z.to_nat (fifo_cdn q)) (q_buf q))) q).
  2: { unfold buf_read. rewrite (bind_Ok get_state _ _ _ _ eq_refl). rewrite sub_bytes_drop by (done || lia). done. }
  unfold dmsg_crypto_gcm_decrypt_chunk. unfold mbind, prog_bind, modify, mret, prog_ret. cbn [snd].
  rewrite Z.sub_0_r. apply IH; [done|cbn; lia|cbn; lia].
Qed.

End errors.

(** ** After an error *)

(** A link with a receive error whose [LNK_ERROR] message has not been queued. *)
Definition dead (c : conn) : Prop :=
  q_error (c_rx c) ≠ 0 /\ q_msgq (c_rx c) = [] /\ has (c_flags c) DMSG_IOCOMF_EOF = false.

(** [m] leaves a dead link dead. *)
Definition stays {A} (m : prog conn A) : Prop := forall c a c', dead c -> m c = Ok a c' -> dead c'.

Lemma stays_bind {A B} (m : prog conn A) (k : A -> prog conn B) : stays m -> (forall a, stays (k a)) -> stays (m ≫= k).
Proof. intros Hm Hk c b c' Hd (a & c1 & H1 & H2)%bind_Ok_inv. eapply Hk; [|exact H2]. by eapply Hm. Qed.
Lemma stays_ret {A} (a : A) : stays (mret a).
Proof. by intros c b c' Hd [= _ <-]. Qed.
Lemma stays_get : stays get_state.
Proof. by intros c b c' Hd [= _ <-]. Qed.
Lemma stays_assertp b : stays (assertp b).
Proof. intros c [] c' Hd. destruct b; [by intros [= <-]|done]. Qed.
Lemma stays_deref {A} (o : option A) : stays (deref o).
Proof. intros c a c' Hd. destruct o; [by intros [= _ <-]|done]. Qed.
Lemma stays_when b m : stays m -> stays (when b m).
Proof. intros H. destruct b; [done|apply stays_ret]. Qed.
Lemma stays_if {A} (b : bool) (m1 m2 : prog conn A) : stays m1 -> stays m2 -> stays (if b then m1 else m2).
Proof. by destruct b. Qed.
Lemma stays_io {A} (m : prog iocom A) : stays (on_io m).
Proof. intros c a c' Hd. unfold on_io. destruct (m (c_io c)); [by intros [= _ <-]|done]. Qed.
Lemma stays_tx {A} (m : prog dmsg_ioq A) : stays (on_tx m).
Proof. intros c a c' Hd. unfold on_tx. destruct (m (c_tx c)); [by intros [= _ <-]|done]. Qed.
Lemma stays_out f : (forall c, c_rx (f c) = c_rx c /\ c_flags (f c) = c_flags c) -> stays (modify f).
Proof. intros Hf c [] c' Hd [= <-]. destruct (Hf c) as [E1 E2]. unfold dead. by rewrite E1, E2. Qed.
Lemma stays_set f : f .& DMSG_IOCOMF_EOF = 0 -> stays (set_flag f).
Proof. intros Hf c [] c' (H1 & H2 & H3) [= <-]. split; [done|]. split; [done|]. cbn. by rewrite has_set_other. Qed.
Lemma stays_clear f : stays (clear_flag f).
Proof.
  intros c [] c' (H1 & H2 & H3) [= <-]. split; [done|]. split; [done|]. cbn. unfold has, clear in *.
  apply bool_decide_eq_false, dec_stable in H3. apply bool_decide_false. rewrite <- Z.land_assoc, (Z.land_comm (bnot _ _)), Z.land_assoc, H3. tauto.
Qed.

Create HintDb stays discriminated.
#[export] Hint Resolve stays_ret stays_get stays_assertp stays_deref stays_when stays_io stays_tx stays_clear : stays.
Ltac keep := repeat first [apply stays_bind; [|intros ?] | progress auto 2 with stays | by apply stays_set | by apply stays_out | apply stays_if | case_match].

Section dead.
Context (mtx : mutex_kind) (cb : dmsg_msg -> prog iocom ()) (fuel dfuel : nat) (buf_addr aux_addr : Z) (random : Z -> Z).

Lemma stays_drain : stays (dmsg_iocom_drain mtx).
Proof. unfold dmsg_iocom_drain. keep. Qed.

Lemma stays_sock_write bs : stays (sock_write bs).
Proof. unfold sock_write. keep. Qed.

Lemma stays_build_iov ms : forall h a iov, stays (build_iov ms h a iov).
Proof. induction ms; intros h a' iov; cbn [build_iov]; unfold iov_part; keep. Qed.

Lemma stays_clean ms : forall n, stays (clean_queue mtx ms n).
Proof. induction ms; intros n; cbn [clean_queue]; keep. Qed.

Lemma stays_flush_queue ms : stays (flush_queue mtx buf_addr aux_addr random ms).
Proof. induction ms; cbn [flush_queue]; unfold enqueue, reseed, finish_msg, dmsg_icrc32; keep. Qed.

Lemma stays_flush1 : stays (dmsg_iocom_flush1 mtx buf_addr aux_addr random).
Proof.
  pose proof stays_drain. pose proof stays_sock_write. pose proof stays_build_iov. pose proof stays_clean. pose proof stays_flush_queue.
  unfold dmsg_iocom_flush1, dmsg_iocom_flush2, flush_write. keep.
Qed.

Lemma stays_skip : stays (ioq_skip mtx cb fuel false).
Proof.
  assert (stays (on_rx (modify (set_q_state DMSG_MSGQ_STATE_ERROR)))) by (by intros c [] c' (H1 & H2 & H3) [= <-]).
  pose proof stays_drain. unfold ioq_skip, get_rx. cbn [when]. keep.
Qed.

(** [dmsg_ioq_read] of a dead link does not return a message. *)
Lemma dead_read rfuel addr c r c' :
  dead c -> dmsg_ioq_read mtx cb fuel dfuel buf_addr aux_addr rfuel addr c = Ok r c' -> r = None /\ dead c'.
Proof.
  destruct rfuel as [|rfuel]; [done|]. intros Hd. pose proof Hd as (He & Hq & _). cbn [dmsg_ioq_read].
  rewrite (bind_Ok get_rx _ c (c_rx c) c eq_refl), Hq, (bool_decide_true (q_error _ ≠ 0)) by done. cbv zeta.
  intros ([] & c1 & H1 & H)%bind_Ok_inv. apply bind_Ok_inv in H as ([] & c2 & H2 & H).
  assert (dead c2) as Hd2 by (eapply stays_skip; [|exact H2]; by eapply stays_clear; [|exact H1]).
  rewrite (bind_Ok get_rx _ c2 (c_rx c2) c2 eq_refl) in H. pose proof Hd2 as (_ & Hq2 & _). rewrite Hq2 in H. by injection H as <- <-.
Qed.

Context (rcvmsg_callback : dmsg_msg -> prog conn ()) (signal_callback altmsg_callback : prog conn ()).

Lemma stays_core_read rfuel addrs : stays (core_read mtx cb fuel dfuel buf_addr aux_addr rcvmsg_callback rfuel addrs).
Proof.
  destruct addrs as [|addr addrs]; intros c [] c' Hd; [done|]. cbn [core_read]. rewrite (bind_Ok get_state _ _ _ _ eq_refl).
  destruct (has _ _); [by intros [= <-]|]. intros (r & c1 & H1 & H)%bind_Ok_inv.
  destruct (dead_read _ _ _ _ _ Hd H1) as [-> Hd1]. by injection H as <-.
Qed.

(** Callbacks that leave a dead link dead: they do not set [DMSG_IOCOMF_EOF]. *)
Context (Hsignal : stays signal_callback) (Haltmsg : stays altmsg_callback).

Lemma stays_core_turn rfuel addrs e :
  stays (core_turn mtx cb fuel dfuel buf_addr aux_addr random rcvmsg_callback signal_callback altmsg_callback rfuel addrs e).
Proof using Hsignal Haltmsg. pose proof stays_flush1. pose proof stays_core_read. unfold core_turn, core_poll. cbv zeta. keep. Qed.

(** The loop of the thread goes on. *)
Lemma dead_core rfuel turns : forall c b c',
  dead c -> dmsg_iocom_core mtx cb fuel dfuel buf_addr aux_addr random rcvmsg_callback signal_callback altmsg_callback rfuel turns c = Ok b c' ->
  b = false /\ dead c'.
Proof using Hsignal Haltmsg.
  induction turns as [|[addrs e] turns IH]; intros c b c' Hd; cbn [dmsg_iocom_core];
    rewrite (bind_Ok get_state _ _ _ _ eq_refl); pose proof Hd as (_ & _ & ->).
  - by intros [= <- <-].
  - intros ([] & c1 & H1 & H)%bind_Ok_inv. eapply IH; [|exact H]. by eapply stays_core_turn; [|exact H1].
Qed.
End dead.
