(* ===== verification/DmsgLinkProps.v ===== *)
(** * DmsgLinkProps: the theorems of the message framing

    Reading and writing of messages on a link ([DmsgFrame]), with the reference for one
    frame ([DmsgRef]) and for a stream of frames ([DmsgStream], [DmsgLink]). *)

From S2P Require Import Prelude CMonad WpStop Crc32 Layout ByteOrder Dmsg DmsgFrame DmsgFifo DmsgRef DmsgRead DmsgStream DmsgWrite DmsgFlush DmsgLink.

#[local] Opaque Z.to_nat.

(** C7: One pass of [dmsg_ioq_read] through its state machine, in whatever state the bytes
    [got] that have arrived since the last message left it and whatever arrives next,
    short reads, errors and the end of the stream included, has the verdict of [ref_frame]
    on all bytes: it waits for more, records the error of the header or of the auxiliary
    data, or has the first message complete, with the bytes behind it still in the FIFO.
    No access leaves a buffer and no assertion fails but the one for a wrong header
    checksum. *)
Theorem dmsg_framing_verdict mtx dfuel buf_addr aux_addr calm io c got :
  rx_rep mtx io c got -> q_error (c_rx c) = 0 -> bytes_ok got -> root_alive (c_io c) ->
  has (c_flags c) DMSG_IOCOMF_CRYPTED = false -> Forall (event_ok calm) (c_in c) ->
  match ioq_switch mtx dfuel buf_addr aux_addr c with
  | Ok msg c' => pass_post mtx calm io c got msg c'
  | Stop e => pass_stop c got e
  end.
Proof. apply switch_spec. Qed.

(** C8: Reading a stream implements the reference for streams: if the frames of the bytes
    that arrive can be handed to [dmsg_receive] one after the other, with salts in
    sequence, then enough calls of [dmsg_ioq_read] return exactly the messages that
    [dmsg_receive] delivers, for every cut of the stream, with the same transactions at
    the end, and the bytes of an unfinished message are kept. *)
Theorem dmsg_ioq_read_refines mtx cb fuel dfuel buf_addr aux_addr handle addrs k rfuel n io ins outs ms seq rest io' :
  alive io = true -> Forall (event_ok true) ins ->
  ref_run mtx handle addrs n 0 0 (flat ins) io = Ok (ms, seq, rest) io' ->
  (n <= rfuel)%nat -> (n + work ins <= k)%nat ->
  wp (drive mtx cb fuel dfuel buf_addr aux_addr handle addrs k rfuel 0) (link_conn io ins outs) (λ ms' c',
    ms' = ms /\ rx_ready mtx io' c' rest /\ q_seq (c_rx c') = seq /\ c_in c' = []).
Proof. intros Ha Hi Hr Hn Hk. by apply (drive_spec mtx cb fuel dfuel buf_addr aux_addr handle addrs k rfuel n 0 _ io []); [..|apply link_ready|]. Qed.

(** C34: [dmsg_iocom_flush1] sends a prefix of the bytes that are queued, in order, moves
    the messages that wait to the queue of the link, frees what was sent as a whole, and
    never loses the request to be called again while something is left; it makes progress
    whenever the socket accepts something. *)
Theorem dmsg_flush_sends_prefix mtx buf_addr aux_addr random c fin todo :
  tx_ready mtx random c fin todo -> Forall out_ok (c_out c) ->
  wp (dmsg_iocom_flush1 mtx buf_addr aux_addr random) c (λ _ c', exists sent todo', link_flushed mtx random c fin todo c' sent todo').
Proof. apply flush1_spec. Qed.

(** C6: A link delivers what was sent.  The messages queued at one side are written by
    [dmsg_iocom_flush1] in pieces of any size; when the socket has accepted something as
    often as there are bytes, all of them are sent and freed.  The other side, which reads
    the bytes in pieces of any size, delivers exactly these messages, in order, with
    their headers, extended headers and auxiliary data. *)
Theorem dmsg_link_roundtrip mtx cb fuel dfuel buf_addr aux_addr buf_addr' aux_addr' random handle addrs k k' rfuel io outs fin peer out peer' :
  Forall msg_ok (txmsgq io) -> Z.of_nat (length (txmsgq io)) < 2 ^ 31 -> io_locked io = false ->
  free_all mtx (txmsgq io) (set_txmsgq (λ _, []) io) = Ok () fin ->
  let wire := finish_list random 0 (txmsgq io) ≫= frame_of in
  Forall out_ok outs -> (length wire <= rooms (take k outs))%nat ->
  deliver_all mtx random handle addrs 0 0 (txmsgq io) peer = Ok out peer' ->
  wp (flushes mtx buf_addr aux_addr random k) (link_conn io [] outs) (λ _ c, c_io c = fin /\ q_msgq (c_tx c) = [] /\
    forall ins, flat ins = c_sent c -> Forall (event_ok true) ins ->
      (length (txmsgq io) < rfuel)%nat -> (length (txmsgq io) + work ins < k')%nat ->
      wp (drive mtx cb fuel dfuel buf_addr' aux_addr' handle addrs k' rfuel 0) (link_conn peer ins []) (λ out' c',
        out' = out /\ rx_ready mtx peer' c' [] /\ c_in c' = [])).
Proof.
  intros Hok Hn Hl Hf wire Hout Hroom Hd.
  eapply wp_mono; [apply (flushes_spec mtx buf_addr aux_addr random k _ fin wire); [by apply link_tx_ready|done]|].
  intros _ c (sent & todo' & Hsp & Hr & Hse & _ & _ & Hall). rewrite (Hall Hroom) in *. rewrite app_nil_r in Hsp. subst sent.
  destruct (tx_done _ _ _ _ Hr) as [Hq Hio]. split; [done|]. split; [done|].
  intros ins Hins Hev Hrf Hk. cbn in Hse.
  assert (alive peer = true) as Hal.
  { destruct (txmsgq io); cbn [deliver_all] in Hd; rewrite (bind_Ok get_state _ _ _ _ eq_refl) in Hd; by destruct (alive peer). }
  eapply wp_mono; [apply (drive_spec mtx cb fuel dfuel buf_addr' aux_addr' handle addrs k' rfuel (S (length (txmsgq io))) 0
    (link_conn peer ins []) peer [] out (0 + Z.of_nat (length (txmsgq io))) [] peer')|].
  - done.
  - cbn. lia.
  - by apply link_ready.
  - cbn [app c_in link_conn set_c_io conn_init q_seq c_rx dmsg_ioq_init]. rewrite Hins, Hse.
    apply (deliver_ref_run mtx random handle addrs); [done|lia|lia|done].
  - intros out' c' (-> & Hrd & _ & Hin). done.
Qed.

(** A message whose header is complete and acceptable but has a wrong checksum ends
    the process in a failed assertion, however its bytes arrive: [assert(0)] follows the
    line that records [DMSG_IOQ_ERROR_XCRC]. *)
Theorem dmsg_bad_header_checksum_aborts mtx cb fuel dfuel buf_addr aux_addr handle addrs k rfuel i io ins outs :
  alive io = true -> Forall (event_ok true) ins -> ref_frame (flat ins) = BadCrc -> (work ins < k)%nat ->
  drive mtx cb fuel dfuel buf_addr aux_addr handle addrs k (S rfuel) i (link_conn io ins outs) = Stop AssertFail.
Proof. intros Ha Hi Hb Hk. apply (drive_bad_crc mtx cb fuel dfuel buf_addr aux_addr handle addrs k rfuel i io _ []); [by apply link_ready|done|done]. Qed.

(** C37: A size of the auxiliary data within 63 bytes of 4 GiB becomes 0 when it is rounded
    up in 32 bits and passes the check against [DMSG_AUX_MAX]: the message is complete
    without auxiliary data, keeps the announced size, and has a buffer of 4 GiB. *)
Theorem dmsg_aux_size_wraps mtx dfuel buf_addr aux_addr io c got h :
  rx_rep mtx io c got -> q_error (c_rx c) = 0 -> bytes_ok got -> root_alive (c_io c) ->
  has (c_flags c) DMSG_IOCOMF_CRYPTED = false -> c_in c = [] ->
  h = decode (A := dmsg_hdr_t) got -> hd_magic h = DMSG_HDR_MAGIC -> (hd_cmd h .& DMSGF_SIZE) * DMSG_ALIGN = Z.of_nat (length got) ->
  64 <= Z.of_nat (length got) <= DMSG_HDR_MAX -> hdr_crc_ok got = true -> 2 ^ 32 - 63 <= hd_aux_bytes h < 2 ^ 32 ->
  wp (ioq_switch mtx dfuel buf_addr aux_addr) c (λ msg c', msg = true /\ exists m, q_msg (c_rx c') = Some m /\
    m_aux_size m = hd_aux_bytes h /\ w_aux_data (m_wire m) = [] /\ w_aux_alloc (m_wire m) = 2 ^ 32).
Proof.
  intros Hrep He Hok Hra Hcr Hin -> Hmag Hsize Hlen Hcrc Haux. set (h := decode got : dmsg_hdr_t) in *.
  assert (hdr_rev h = false) as Hrev by (unfold hdr_rev; by rewrite Hmag).
  assert (hdr_aux h = hd_aux_bytes h) as Ha by (unfold hdr_aux; by rewrite Hrev).
  assert (hdr_abytes h = 0) as Hab.
  { unfold hdr_abytes. rewrite Ha, dmsg_doalign_eq by lia. unfold uwrap.
    replace (hd_aux_bytes h + 63) with (hd_aux_bytes h + 63 - 2 ^ 32 + 1 * 2 ^ 32) by lia. rewrite Z.mod_add, Z.mod_small by lia.
    by rewrite Z.div_small by lia. }
  assert (hdr_hbytes h = Z.of_nat (length got)) as Hhb by (rewrite <- Hsize; unfold hdr_hbytes; by rewrite Hrev).
  assert (hdr_bad h = None) as Hbad.
  { unfold hdr_bad. rewrite Hrev, Hhb, Hab, Hmag. rewrite !bool_decide_false; [done|blia..|tauto]. }
  assert (ref_frame got = Frame (hdr_fix got) [] (hd_aux_bytes h) []) as Hv.
  { rewrite <- (app_nil_r got) at 1. rewrite ref_frame_hdr by done. cbv zeta. fold h. by rewrite Hab, Ha. }
  apply (proj1 (wps_wp _ _ _)).
  eapply wps_weaken; [apply (switch_spec mtx dfuel buf_addr aux_addr true io c got); try done; by rewrite Hin| |].
  { intros e (_ & more & rest & Hm & Hb). rewrite Hin in Hm. symmetry in Hm. apply app_eq_nil in Hm as [-> _]. by rewrite app_nil_r, Hv in Hb. }
  intros msg c' (more & Hfl & _ & _ & _ & _ & _ & Hp). rewrite Hin in Hfl. symmetry in Hfl. apply app_eq_nil in Hfl as [-> _].
  rewrite app_nil_r, Hv in Hp. destruct Hp as (-> & q0 & m & Hf & _ & Hm & _ & [Hst Htc Hax Hall _]). split; [done|].
  destruct (fifo_in_same _ _ _ Hf) as (_ & _ & _ & E & _). eexists. split; [by rewrite E, Hm|]. split; [done|]. split; [done|].
  change (w_aux_alloc (m_wire m) = 2 ^ 32). rewrite Hall. fold h. rewrite Ha, bool_decide_false, dmsg_doalign_eq by lia.
  unfold uwrap. rewrite Z.mod_small by lia. assert ((hd_aux_bytes h + 63) / 64 = 2 ^ 26) as -> by (symmetry; apply (Z.div_unique _ _ _ (hd_aux_bytes h + 63 - 2 ^ 32)); lia).
  done.
Qed.

(** C36: On an encrypted link the receiver does not come back from the decryption once a
    chunk of 64 bytes is in the FIFO: the loop runs for ever, because no chunk is ever
    taken. *)
Theorem dmsg_encrypted_read_hangs dfuel c :
  has (c_flags c) DMSG_IOCOMF_CRYPTED = true ->
  0 <= fifo_cdn (c_rx c) -> DMSG_CRYPTO_CHUNK_SIZE <= fifo_end (c_rx c) - fifo_cdn (c_rx c) ->
  fifo_end (c_rx c) <= Z.of_nat (length (q_buf (c_rx c))) -> ioq_decrypt dfuel c = Stop OutOfFuel.
Proof.
  intros Hc H0 Hn Hb. unfold ioq_decrypt. rewrite (bind_Ok get_state _ _ _ _ eq_refl), Hc. unfold mbind, prog_bind, on_rx.
  unfold dmsg_crypto_decrypt. rewrite (bind_Ok get_state _ _ _ _ eq_refl). rewrite bool_decide_false by (unfold DMSG_CRYPTO_CHUNK_SIZE, DMSG_ALIGN in *; lia).
  by rewrite decrypt_chunks_stuck by lia.
Qed.

(** C35: After a receive error the library itself does not end a link any more: the final
    message that the comments of msg.c promise is never returned, so [DMSG_IOCOMF_EOF] is not
    set, and the loop of [dmsg_iocom_core] goes on, whatever [poll] and the other threads do,
    and without a call of the message callback, as long as the signal and the alternative
    callback leave the link dead ([stays]: do not set [DMSG_IOCOMF_EOF] themselves).  A
    callback that sets the flag, as [hammer2_volconf_signal] does, is what ends it: a link
    with that flag leaves the loop at once. *)
Theorem dmsg_error_link_never_ends mtx cb fuel dfuel buf_addr aux_addr random rcvmsg_callback signal_callback altmsg_callback rfuel turns c :
  dead c ->
  (stays signal_callback -> stays altmsg_callback -> forall b c',
   dmsg_iocom_core mtx cb fuel dfuel buf_addr aux_addr random rcvmsg_callback signal_callback altmsg_callback rfuel turns c = Ok b c' ->
   b = false /\ dead c') /\
  dmsg_iocom_core mtx cb fuel dfuel buf_addr aux_addr random rcvmsg_callback signal_callback altmsg_callback rfuel turns
    (set_c_flags (c_flags c .| DMSG_IOCOMF_EOF) c) = Ok true (set_c_flags (c_flags c .| DMSG_IOCOMF_EOF) c).
Proof.
  intros Hd. split; [intros Hs Ha b c'; by apply dead_core|]. set (c1 := set_c_flags _ c).
  assert (has (c_flags c1) DMSG_IOCOMF_EOF = true) as He.
  { unfold has. apply bool_decide_true. cbn. rewrite Z.land_lor_distr_l. change (DMSG_IOCOMF_EOF .& DMSG_IOCOMF_EOF) with 1.
    intros [_ H]%Z.lor_eq_0_iff. done. }
  destruct turns; cbn [dmsg_iocom_core]; by rewrite (bind_Ok get_state _ _ _ _ eq_refl), He.
Qed.

(** ** Examples

    Two messages without a transaction, the second with 100 bytes of auxiliary data. *)

Definition demo_msg (cmd : Z) (aux : bytes) (aux_size : Z) : dmsg_msg :=
  {| m_state := state0; m_cmd := cmd; m_msgid := 0; m_circuit := 0; m_error := 7; m_tcmd := 0; m_aux_size := aux_size;
     m_wire := set_w_aux_data aux (new_wire ((cmd .& DMSGF_SIZE) * DMSG_ALIGN) aux_size) |}.
Definition demo_msgs : list dmsg_msg := [demo_msg 0x000FFF01 [] 0; demo_msg 0x000FFF02 (replicate 128 65) 100].
Definition demo_after {A} (m : prog iocom A) : iocom := match m dmsg_iocom_init with Ok _ io => io | Stop _ => dmsg_iocom_init end.
(** The sender holds a reference for each message it has queued. *)
Definition demo_sender : iocom := demo_after (dmsg_state_hold state0;; dmsg_state_hold state0;; modify (set_txmsgq (λ _, demo_msgs))).
Definition demo_random (n : Z) : Z := n * 77.
Definition demo_handle (m : dmsg_msg) : prog iocom () := mret ().
Definition demo_addrs (i : nat) : positive := Pos.of_succ_nat (i + 10).
Definition demo_wire : bytes := finish_list demo_random 0 demo_msgs ≫= frame_of.
Definition demo_cut : list rd_event := [Arrived (take 10 demo_wire); RdErr EAGAIN; Arrived (take 90 (drop 10 demo_wire)); Arrived (drop 100 demo_wire)].
(** One byte of the first header is changed. *)
Definition demo_bad : list rd_event := let w := <[45%nat := 1]> demo_wire in [Arrived (take 40 w); Arrived (drop 40 w)].
(** A header that announces 4 GiB less 1 byte. *)
Definition demo_huge : bytes :=
  let m := upd_wire (set_w_magic DMSG_HDR_MAGIC) (upd_wire (set_w_aux_bytes (2 ^ 32 - 1)) (demo_msg 0x000FFF01 [] 0)) in
  any_bytes (upd_wire (set_w_hdr_crc (crc32c_spec (any_bytes m))) m).

Lemma demo_msgs_ok : Forall msg_ok demo_msgs.
Proof.
  repeat (apply Forall_cons; split); [| |constructor].
  all: constructor; try (by vm_compute); try (by left); try (split; by vm_compute).
  all: split; try (apply (bool_decide_unpack _); by vm_compute).
Qed.

Lemma demo_events calm ins : forallb (λ ev, match ev with Arrived bs => negb (bool_decide (bs = [])) && bool_decide (bytes_ok bs)
    | Eof => false | RdErr e => again_errno e end) ins = true -> Forall (event_ok calm) ins.
Proof.
  intros H. apply Forall_forall. intros ev Hev. rewrite forallb_forall in H. specialize (H ev ltac:(by apply list_elem_of_In)).
  destruct ev; cbn in *; [|done|by intros _]. apply andb_true_iff in H as [H1%negb_true_iff%bool_decide_eq_false H2%bool_decide_eq_true]. done.
Qed.

Lemma dmsg_framing_verdict_witness :
  match ioq_switch ErrorCheck 0 16 32 (link_conn dmsg_iocom_init demo_cut []) with
  | Ok msg c' => pass_post ErrorCheck true dmsg_iocom_init (link_conn dmsg_iocom_init demo_cut []) [] msg c'
  | Stop e => pass_stop (link_conn dmsg_iocom_init demo_cut []) [] e
  end.
Proof.
  apply dmsg_framing_verdict; [apply link_rep|done|constructor|by apply alive_root|done|apply demo_events; by vm_compute].
Defined.

Lemma dmsg_ioq_read_refines_witness :
  wp (drive ErrorCheck demo_handle 0 0 16 32 demo_handle demo_addrs 400 3 0) (link_conn dmsg_iocom_init demo_cut []) (λ ms' c',
    map head_of ms' = map head_of demo_msgs /\ c_in c' = []).
Proof.
  destruct (ref_run ErrorCheck demo_handle demo_addrs 3 0 0 (flat demo_cut) dmsg_iocom_init) as [[[ms seq] rest] io'|e] eqn:E.
  - assert (map head_of ms = map head_of demo_msgs) as Hms by (vm_compute in E; injection E as <- _ _ _; by vm_compute).
    eapply wp_mono; [apply (dmsg_ioq_read_refines _ _ _ _ _ _ _ _ _ _ 3 dmsg_iocom_init demo_cut [] ms seq rest io');
      [done|apply demo_events; by vm_compute|exact E|done|apply Nat.leb_le; by vm_compute]|].
    intros ms' c' (-> & _ & _ & ->). exact (conj Hms eq_refl).
  - vm_compute in E. discriminate E.
Defined.

Lemma demo_ready : exists fin, tx_ready ErrorCheck demo_random (link_conn demo_sender [] (replicate 400 (Room 70))) fin demo_wire /\
  free_all ErrorCheck (txmsgq demo_sender) (set_txmsgq (λ _, []) demo_sender) = Ok () fin.
Proof.
  destruct (free_all ErrorCheck (txmsgq demo_sender) (set_txmsgq (λ _, []) demo_sender)) as [[] fin|e] eqn:E; [|vm_compute in E; discriminate E].
  exists fin. split; [|done]. apply (link_tx_ready _ _ demo_sender); [exact demo_msgs_ok|done|done|done].
Qed.

Lemma dmsg_flush_sends_prefix_witness : exists fin,
  wp (dmsg_iocom_flush1 ErrorCheck 16 32 demo_random) (link_conn demo_sender [] (replicate 400 (Room 70))) (λ _ c', exists sent todo',
    link_flushed ErrorCheck demo_random (link_conn demo_sender [] (replicate 400 (Room 70))) fin demo_wire c' sent todo').
Proof.
  destruct demo_ready as (fin & H & _). exists fin. apply dmsg_flush_sends_prefix; [done|by apply Forall_replicate].
Defined.

Lemma dmsg_link_roundtrip_witness :
  wp (flushes ErrorCheck 16 32 demo_random 400) (link_conn demo_sender [] (replicate 400 (Room 70))) (λ _ c, q_msgq (c_tx c) = []).
Proof.
  destruct demo_ready as (fin & _ & Hf).
  destruct (deliver_all ErrorCheck demo_random demo_handle demo_addrs 0 0 (txmsgq demo_sender) dmsg_iocom_init) as [out peer'|e] eqn:E;
    [|vm_compute in E; discriminate E].
  eapply wp_mono; [apply (dmsg_link_roundtrip ErrorCheck demo_handle 0 0 16 32 16 32 demo_random demo_handle demo_addrs 400 500 3 demo_sender
    (replicate 400 (Room 70)) fin dmsg_iocom_init out peer')|by intros _ c (_ & H & _)].
  - exact demo_msgs_ok.
  - done.
  - done.
  - exact Hf.
  - by apply Forall_replicate.
  - apply Nat.leb_le. by vm_compute.
  - exact E.
Defined.

Lemma dmsg_bad_header_checksum_aborts_witness :
  drive ErrorCheck demo_handle 0 0 16 32 demo_handle demo_addrs 400 1 0 (link_conn dmsg_iocom_init demo_bad []) = Stop AssertFail.
Proof.
  apply dmsg_bad_header_checksum_aborts; [done|apply demo_events; by vm_compute|by vm_compute|apply Nat.ltb_lt; by vm_compute].
Defined.

(** The header is in the FIFO. *)
Definition loaded_conn (got pad : bytes) : conn :=
  set_c_rx (with_fifo 0 (Z.of_nat (length got)) (got ++ pad) dmsg_ioq_init) (link_conn dmsg_iocom_init [] []).
Definition demo_huge_conn : conn := loaded_conn demo_huge (replicate (Z.to_nat DMSG_BUF_SIZE - 64) 0).

Lemma loaded_rep mtx got pad :
  Z.of_nat (length (got ++ pad)) = DMSG_BUF_SIZE -> rx_rep mtx dmsg_iocom_init (loaded_conn got pad) got.
Proof. intros H. apply (Rep_header1 _ _ _ dmsg_ioq_init); [|done..]. apply Fifo_in. by exists [], pad. Qed.

Lemma dmsg_aux_size_wraps_witness :
  wp (ioq_switch ErrorCheck 0 16 32) demo_huge_conn (λ msg c', msg = true /\ exists m, q_msg (c_rx c') = Some m /\
    m_aux_size m = 2 ^ 32 - 1 /\ w_aux_data (m_wire m) = [] /\ w_aux_alloc (m_wire m) = 2 ^ 32).
Proof.
  assert (hd_aux_bytes (decode demo_huge) = 2 ^ 32 - 1) as E by (by vm_compute). rewrite <- E.
  apply (dmsg_aux_size_wraps ErrorCheck 0 16 32 dmsg_iocom_init demo_huge_conn demo_huge (decode demo_huge)).
  - apply loaded_rep. by vm_compute.
  - reflexivity.
  - apply (bool_decide_unpack _). by vm_compute.
  - by apply alive_root.
  - reflexivity.
  - reflexivity.
  - reflexivity.
  - by vm_compute.
  - by vm_compute.
  - by vm_compute.
  - by vm_compute.
  - rewrite E. done.
Defined.

Lemma dmsg_encrypted_read_hangs_witness :
  ioq_decrypt 1000 (set_c_rx (set_fifo_cdn 0 (c_rx demo_huge_conn)) (set_c_flags DMSG_IOCOMF_CRYPTED demo_huge_conn)) = Stop OutOfFuel.
Proof. apply dmsg_encrypted_read_hangs; by vm_compute. Defined.

Lemma dmsg_error_link_never_ends_witness :
  exists c', dmsg_iocom_core ErrorCheck demo_handle 3 0 16 32 demo_random (λ m, on_io (demo_handle m)) (mret ()) (mret ()) 1
    (replicate 5 ([5%positive], {| pe_pipe := true; pe_in := true; pe_out := true; pe_alt := false |}))
    (set_c_rx (set_q_error DMSG_IOQ_ERROR_SOCK dmsg_ioq_init) (conn_init false [] [])) = Ok false c' /\ dead c'.
Proof.
  set (turns := replicate 5 _). set (c := set_c_rx _ _).
  destruct (dmsg_iocom_core ErrorCheck demo_handle 3 0 16 32 demo_random (λ m, on_io (demo_handle m)) (mret ()) (mret ()) 1 turns c) as [b c'|e] eqn:E;
    [|vm_compute in E; discriminate E].
  assert (dead c) as H0 by (split; [discriminate|split; reflexivity]).
  destruct (dmsg_error_link_never_ends ErrorCheck demo_handle 3 0 16 32 demo_random (λ m, on_io (demo_handle m)) (mret ()) (mret ()) 1 turns c H0)
    as [H _]. destruct (H (stays_ret _) (stays_ret _) b c' E) as [Hb Hd]. subst b. exists c'. exact (conj eq_refl Hd).
Defined.
