(* ===== verification/H2Disk.v ===== *)
(** * H2Disk: the on-disk structures of HAMMER2

    From src/sys/vfs/hammer2/hammer2_disk.h: the constants of the media layout, block
    references, inodes and the volume header as byte images (instances of [OnDisk]); from
    src/sbin/hammer2/subs.c the directory hash. *)

From S2P Require Import Prelude HammerDisk Layout Crc32 HammerCrc Xxhash.

(** ** Constants *)

Definition HAMMER2_RADIX_MIN : Z := 10.
Definition HAMMER2_PBUFSIZE : Z := 65536.
Definition HAMMER2_PBUFMASK : Z := HAMMER2_PBUFSIZE - 1.
Definition HAMMER2_SET_COUNT : Z := 1 .<< 2.
Definition HAMMER2_VOLUME_ALIGN : Z := 8 * 1024 * 1024.
Definition HAMMER2_VOLUME_ALIGNMASK : Z := HAMMER2_VOLUME_ALIGN - 1.
Definition HAMMER2_NEWFS_ALIGN : Z := HAMMER2_VOLUME_ALIGN.
Definition HAMMER2_NEWFS_ALIGNMASK : Z := HAMMER2_NEWFS_ALIGN - 1.
Definition HAMMER2_ZONE_BYTES64 : Z := 2 * 1024 * 1024 * 1024.
Definition HAMMER2_ZONE_SEG : Z := 4 * 1024 * 1024.
Definition HAMMER2_ZONE_BLOCKS_SEG : Z := HAMMER2_ZONE_SEG / HAMMER2_PBUFSIZE.
Definition HAMMER2_FREEMAP_LEVEL1_RADIX : Z := 30.
Definition HAMMER2_FREEMAP_LEVEL1_SIZE : Z := 1 .<< HAMMER2_FREEMAP_LEVEL1_RADIX.
Definition HAMMER2_FREEMAP_LEVEL1_MASK : Z := HAMMER2_FREEMAP_LEVEL1_SIZE - 1.
Definition HAMMER2_BOOT_MIN_BYTES : Z := HAMMER2_VOLUME_ALIGN.
Definition HAMMER2_BOOT_NOM_BYTES : Z := 64 * 1024 * 1024.
Definition HAMMER2_BOOT_MAX_BYTES : Z := 256 * 1024 * 1024.
Definition HAMMER2_AUX_MIN_BYTES : Z := HAMMER2_VOLUME_ALIGN.
Definition HAMMER2_AUX_NOM_BYTES : Z := 256 * 1024 * 1024.
Definition HAMMER2_AUX_MAX_BYTES : Z := 1024 * 1024 * 1024.
Definition HAMMER2_OFF_MASK : Z := 0xFFFFFFFFFFFFFFC0.
Definition HAMMER2_OFF_MASK_LO : Z := HAMMER2_OFF_MASK .& HAMMER2_PBUFMASK.
Definition HAMMER2_OFF_MASK_RADIX : Z := 0x3F.
Definition HAMMER2_BLOCKREF_BYTES : Z := 128.
Definition HAMMER2_BREF_TYPE_INODE : Z := 1.
Definition HAMMER2_BREF_TYPE_INVALID : Z := 7.
Definition HAMMER2_BREF_FLAG_PFSROOT : Z := 1.
Definition HAMMER2_ENC_CHECK (n : Z) : Z := (n .& 15) .<< 4.
Definition HAMMER2_DEC_CHECK (n : Z) : Z := (n .>> 4) .& 15.
Definition HAMMER2_ENC_COMP (n : Z) : Z := n .& 15.
Definition HAMMER2_CHECK_XXHASH64 : Z := 3.
Definition HAMMER2_COMP_NONE : Z := 0.
Definition HAMMER2_COMP_AUTOZERO : Z := 1.
Definition HAMMER2_COMP_NEWFS_DEFAULT : Z := 2.
Definition HAMMER2_INODE_BYTES : Z := 1024.
Definition HAMMER2_INODE_MAXNAME : Z := 256.
Definition HAMMER2_INODE_VERSION_ONE : Z := 1.
Definition HAMMER2_OPFLAG_PFSROOT : Z := 2.
Definition HAMMER2_OBJTYPE_DIRECTORY : Z := 1.
Definition HAMMER2_COPYID_LOCAL : Z := u8 (-1).
Definition HAMMER2_PFSTYPE_MASTER : Z := 6.
Definition HAMMER2_PFSTYPE_SUPROOT : Z := 8.
Definition HAMMER2_VOLUME_ID_HBO : Z := 0x48414d3205172011.
Definition HAMMER2_VOLUME_ID_ABO : Z := 0x11201705324d4148.
Definition HAMMER2_MAX_VOLUMES : Z := 64.
Definition HAMMER2_ROOT_VOLUME : Z := 0.
Definition HAMMER2_VOL_ICRC_SECT0 : nat := 7.
Definition HAMMER2_VOL_ICRC_SECT1 : nat := 6.
Definition HAMMER2_VOLUME_BYTES : Z := 65536.
Definition HAMMER2_VOLUME_ICRC0_OFF : Z := 0.
Definition HAMMER2_VOLUME_ICRC1_OFF : Z := 512.
Definition HAMMER2_VOLUME_ICRCVH_OFF : Z := 0.
Definition HAMMER2_VOLUME_ICRC0_SIZE : Z := 512 - 4.
Definition HAMMER2_VOLUME_ICRC1_SIZE : Z := 512.
Definition HAMMER2_VOLUME_ICRCVH_SIZE : Z := 65536 - 4.
Definition HAMMER2_VOL_VERSION_MULTI_VOLUMES : Z := 2.
Definition HAMMER2_VOL_VERSION_MIN : Z := 1.
Definition HAMMER2_VOL_VERSION_DEFAULT : Z := HAMMER2_VOL_VERSION_MULTI_VOLUMES.
Definition HAMMER2_VOL_VERSION_WIP : Z := HAMMER2_VOL_VERSION_MULTI_VOLUMES + 1.
Definition HAMMER2_NUM_VOLHDRS : Z := 4.
Definition XXH_HAMMER2_SEED : Z := 0x4d617474446c6c6e.
Definition DMSG_PEER_HAMMER2 : Z := 3.

(** The constants as numbers, for [lia]. *)
Ltac h2_unfold :=
  unfold HAMMER2_NUM_VOLHDRS, HAMMER2_VOL_VERSION_WIP, HAMMER2_VOL_VERSION_DEFAULT,
    HAMMER2_VOL_VERSION_MIN, HAMMER2_VOL_VERSION_MULTI_VOLUMES, HAMMER2_VOLUME_ICRCVH_SIZE,
    HAMMER2_VOLUME_ICRC1_SIZE, HAMMER2_VOLUME_ICRC0_SIZE, HAMMER2_VOLUME_ICRCVH_OFF,
    HAMMER2_VOLUME_ICRC1_OFF, HAMMER2_VOLUME_ICRC0_OFF, HAMMER2_VOLUME_BYTES, HAMMER2_ROOT_VOLUME,
    HAMMER2_MAX_VOLUMES, HAMMER2_VOLUME_ID_ABO, HAMMER2_VOLUME_ID_HBO, HAMMER2_PFSTYPE_SUPROOT,
    HAMMER2_PFSTYPE_MASTER, HAMMER2_COPYID_LOCAL, HAMMER2_OBJTYPE_DIRECTORY, HAMMER2_OPFLAG_PFSROOT,
    HAMMER2_INODE_VERSION_ONE, HAMMER2_INODE_MAXNAME, HAMMER2_INODE_BYTES, HAMMER2_COMP_NEWFS_DEFAULT,
    HAMMER2_COMP_AUTOZERO, HAMMER2_COMP_NONE, HAMMER2_CHECK_XXHASH64, HAMMER2_BREF_FLAG_PFSROOT,
    HAMMER2_BREF_TYPE_INVALID, HAMMER2_BREF_TYPE_INODE, HAMMER2_BLOCKREF_BYTES, HAMMER2_OFF_MASK_RADIX,
    HAMMER2_OFF_MASK_LO, HAMMER2_OFF_MASK, HAMMER2_AUX_MAX_BYTES, HAMMER2_AUX_NOM_BYTES,
    HAMMER2_AUX_MIN_BYTES, HAMMER2_BOOT_MAX_BYTES, HAMMER2_BOOT_NOM_BYTES, HAMMER2_BOOT_MIN_BYTES,
    HAMMER2_FREEMAP_LEVEL1_MASK, HAMMER2_FREEMAP_LEVEL1_SIZE, HAMMER2_FREEMAP_LEVEL1_RADIX,
    HAMMER2_ZONE_BLOCKS_SEG, HAMMER2_ZONE_SEG, HAMMER2_ZONE_BYTES64, HAMMER2_NEWFS_ALIGNMASK,
    HAMMER2_NEWFS_ALIGN, HAMMER2_VOLUME_ALIGNMASK, HAMMER2_VOLUME_ALIGN, HAMMER2_SET_COUNT,
    HAMMER2_PBUFMASK, HAMMER2_PBUFSIZE, HAMMER2_RADIX_MIN in *;
  change (1 .<< 30) with (2 ^ 30) in *; change (1 .<< 2) with 4 in *.

(** ** Structures *)

Definition COPYINFO_BYTES : nat := Z.to_nat (256 * 128).
Definition RESERVED9000_BYTES : nat := Z.to_nat 0x6FFC.
#[global] Arguments COPYINFO_BYTES : simpl never.
#[global] Arguments RESERVED9000_BYTES : simpl never.

(** [embed] and [check] are unions, kept as their bytes. *)
Record hammer2_blockref := {
  bref_type : Z;
  bref_methods : Z;
  bref_copyid : Z;
  bref_keybits : Z;
  bref_vradix : Z;
  bref_flags : Z;
  bref_leaf_count : Z;
  bref_key : Z;
  bref_mirror_tid : Z;
  bref_modify_tid : Z;
  bref_data_off : Z;
  bref_update_tid : Z;
  bref_embed : bytes;
  bref_check : bytes;
}.

#[export, refine] Instance hammer2_blockref_ondisk : OnDisk hammer2_blockref := {
  widths := [1; 1; 1; 1; 1; 1; 2; 8; 8; 8; 8; 8; 16; 64]%nat;
  chunks x := [
    le_bytes 1 (bref_type x); le_bytes 1 (bref_methods x); le_bytes 1 (bref_copyid x);
    le_bytes 1 (bref_keybits x); le_bytes 1 (bref_vradix x); le_bytes 1 (bref_flags x);
    le_bytes 2 (bref_leaf_count x); le_bytes 8 (bref_key x);
    le_bytes 8 (bref_mirror_tid x); le_bytes 8 (bref_modify_tid x);
    le_bytes 8 (bref_data_off x); le_bytes 8 (bref_update_tid x); bref_embed x;
    bref_check x];
  of_chunks cs := match cs with
    | [c0; c1; c2; c3; c4; c5; c6; c7; c8; c9; c10; c11; c12; c13] =>
        {|bref_type := of_le c0; bref_methods := of_le c1; bref_copyid := of_le c2;
           bref_keybits := of_le c3; bref_vradix := of_le c4; bref_flags := of_le c5;
           bref_leaf_count := of_le c6; bref_key := of_le c7; bref_mirror_tid := of_le c8;
           bref_modify_tid := of_le c9; bref_data_off := of_le c10;
           bref_update_tid := of_le c11; bref_embed := c12; bref_check := c13 |}
    | _ => Build_hammer2_blockref 0 0 0 0 0 0 0 0 0 0 0 0 [] []
    end;
  valid x :=
    in_u 8 (bref_type x) /\ in_u 8 (bref_methods x) /\ in_u 8 (bref_copyid x) /\
    in_u 8 (bref_keybits x) /\ in_u 8 (bref_vradix x) /\ in_u 8 (bref_flags x) /\
    in_u 16 (bref_leaf_count x) /\ in_u 64 (bref_key x) /\ in_u 64 (bref_mirror_tid x) /\
    in_u 64 (bref_modify_tid x) /\ in_u 64 (bref_data_off x) /\
    in_u 64 (bref_update_tid x) /\ raw 16 (bref_embed x) /\ raw 64 (bref_check x);
}.
Proof. all: ondisk_solve. Defined.

Record hammer2_inode_meta := {
  im_version : Z;
  im_reserved02 : Z;
  im_pfs_subtype : Z;
  im_uflags : Z;
  im_rmajor : Z;
  im_rminor : Z;
  im_ctime : Z;
  im_mtime : Z;
  im_atime : Z;
  im_btime : Z;
  im_uid : bytes;
  im_gid : bytes;
  im_type : Z;
  im_op_flags : Z;
  im_cap_flags : Z;
  im_mode : Z;
  im_inum : Z;
  im_size : Z;
  im_nlinks : Z;
  im_iparent : Z;
  im_name_key : Z;
  im_name_len : Z;
  im_ncopies : Z;
  im_comp_algo : Z;
  im_target_type : Z;
  im_check_algo : Z;
  im_pfs_nmasters : Z;
  im_pfs_type : Z;
  im_pfs_inum : Z;
  im_pfs_clid : bytes;
  im_pfs_fsid : bytes;
  im_data_quota : Z;
  im_unusedB8 : Z;
  im_inode_quota : Z;
  im_unusedC8 : Z;
  im_pfs_lsnap_tid : Z;
  im_reservedD8 : Z;
  im_decrypt_check : Z;
  im_reservedE8 : list Z;
}.

#[export, refine] Instance hammer2_inode_meta_ondisk : OnDisk hammer2_inode_meta := {
  widths := [2; 1; 1; 4; 4; 4; 8; 8; 8; 8; 16; 16; 1; 1; 2; 4; 8; 8; 8; 8; 8; 2; 1; 1; 1; 1; 1; 1;
    8; 16; 16; 8; 8; 8; 8; 8; 8; 8; 3 * 8]%nat;
  chunks x := [
    le_bytes 2 (im_version x); le_bytes 1 (im_reserved02 x); le_bytes 1 (im_pfs_subtype x);
    le_bytes 4 (im_uflags x); le_bytes 4 (im_rmajor x); le_bytes 4 (im_rminor x);
    le_bytes 8 (im_ctime x); le_bytes 8 (im_mtime x); le_bytes 8 (im_atime x);
    le_bytes 8 (im_btime x); im_uid x; im_gid x; le_bytes 1 (im_type x);
    le_bytes 1 (im_op_flags x); le_bytes 2 (im_cap_flags x); le_bytes 4 (im_mode x);
    le_bytes 8 (im_inum x); le_bytes 8 (im_size x); le_bytes 8 (im_nlinks x);
    le_bytes 8 (im_iparent x); le_bytes 8 (im_name_key x); le_bytes 2 (im_name_len x);
    le_bytes 1 (im_ncopies x); le_bytes 1 (im_comp_algo x); le_bytes 1 (im_target_type x);
    le_bytes 1 (im_check_algo x); le_bytes 1 (im_pfs_nmasters x);
    le_bytes 1 (im_pfs_type x); le_bytes 8 (im_pfs_inum x); im_pfs_clid x; im_pfs_fsid x;
    le_bytes 8 (im_data_quota x); le_bytes 8 (im_unusedB8 x);
    le_bytes 8 (im_inode_quota x); le_bytes 8 (im_unusedC8 x);
    le_bytes 8 (im_pfs_lsnap_tid x); le_bytes 8 (im_reservedD8 x);
    le_bytes 8 (im_decrypt_check x); enc_ints 8 (im_reservedE8 x)];
  of_chunks cs := match cs with
    | [c0; c1; c2; c3; c4; c5; c6; c7; c8; c9; c10; c11; c12; c13; c14; c15; c16; c17; c18;
       c19; c20; c21; c22; c23; c24; c25; c26; c27; c28; c29; c30; c31; c32; c33; c34; c35;
       c36; c37; c38] =>
        {|im_version := of_le c0; im_reserved02 := of_le c1; im_pfs_subtype := of_le c2;
           im_uflags := of_le c3; im_rmajor := of_le c4; im_rminor := of_le c5;
           im_ctime := of_le c6; im_mtime := of_le c7; im_atime := of_le c8;
           im_btime := of_le c9; im_uid := c10; im_gid := c11; im_type := of_le c12;
           im_op_flags := of_le c13; im_cap_flags := of_le c14; im_mode := of_le c15;
           im_inum := of_le c16; im_size := of_le c17; im_nlinks := of_le c18;
           im_iparent := of_le c19; im_name_key := of_le c20; im_name_len := of_le c21;
           im_ncopies := of_le c22; im_comp_algo := of_le c23; im_target_type := of_le c24;
           im_check_algo := of_le c25; im_pfs_nmasters := of_le c26;
           im_pfs_type := of_le c27; im_pfs_inum := of_le c28; im_pfs_clid := c29;
           im_pfs_fsid := c30; im_data_quota := of_le c31; im_unusedB8 := of_le c32;
           im_inode_quota := of_le c33; im_unusedC8 := of_le c34;
           im_pfs_lsnap_tid := of_le c35; im_reservedD8 := of_le c36;
           im_decrypt_check := of_le c37; im_reservedE8 := dec_ints 8 3 c38 |}
    | _ => Build_hammer2_inode_meta 0 0 0 0 0 0 0 0 0 0 [] [] 0 0 0 0 0 0 0 0 0 0 0 0 0 0 0 0 0 [] [] 0 0 0 0 0 0 0 []
    end;
  valid x :=
    in_u 16 (im_version x) /\ in_u 8 (im_reserved02 x) /\ in_u 8 (im_pfs_subtype x) /\
    in_u 32 (im_uflags x) /\ in_u 32 (im_rmajor x) /\ in_u 32 (im_rminor x) /\
    in_u 64 (im_ctime x) /\ in_u 64 (im_mtime x) /\ in_u 64 (im_atime x) /\
    in_u 64 (im_btime x) /\ raw 16 (im_uid x) /\ raw 16 (im_gid x) /\ in_u 8 (im_type x) /\
    in_u 8 (im_op_flags x) /\ in_u 16 (im_cap_flags x) /\ in_u 32 (im_mode x) /\
    in_u 64 (im_inum x) /\ in_u 64 (im_size x) /\ in_u 64 (im_nlinks x) /\
    in_u 64 (im_iparent x) /\ in_u 64 (im_name_key x) /\ in_u 16 (im_name_len x) /\
    in_u 8 (im_ncopies x) /\ in_u 8 (im_comp_algo x) /\ in_u 8 (im_target_type x) /\
    in_u 8 (im_check_algo x) /\ in_u 8 (im_pfs_nmasters x) /\ in_u 8 (im_pfs_type x) /\
    in_u 64 (im_pfs_inum x) /\ raw 16 (im_pfs_clid x) /\ raw 16 (im_pfs_fsid x) /\
    in_u 64 (im_data_quota x) /\ in_u 64 (im_unusedB8 x) /\ in_u 64 (im_inode_quota x) /\
    in_u 64 (im_unusedC8 x) /\ in_u 64 (im_pfs_lsnap_tid x) /\ in_u 64 (im_reservedD8 x) /\
    in_u 64 (im_decrypt_check x) /\ valid_ints 8 3 (im_reservedE8 x);
}.
Proof. all: ondisk_solve. Defined.

(** [id_u] is the union of a block set and 512 bytes of direct data. *)
Record hammer2_inode_data := {
  id_meta : hammer2_inode_meta;
  id_filename : bytes;
  id_u : bytes;
}.

#[export, refine] Instance hammer2_inode_data_ondisk : OnDisk hammer2_inode_data := {
  widths := [sizeof hammer2_inode_meta; 256; 512]%nat;
  chunks x := [
    encode (id_meta x); id_filename x; id_u x];
  of_chunks cs := match cs with
    | [c0; c1; c2] =>
        {|id_meta := decode c0; id_filename := c1; id_u := c2 |}
    | _ => Build_hammer2_inode_data (decode []) [] []
    end;
  valid x :=
    valid (id_meta x) /\ raw 256 (id_filename x) /\ raw 512 (id_u x);
}.
Proof.
  - intros [m fn u] (Hm & [Hf _] & [Hu _]). cbn -[encode sizeof] in *. by rewrite length_encode, Hf, Hu.
  - intros [m fn u] (Hm & [_ Hf] & [_ Hu]). by apply Forall_cons; split; [apply encode_ok|repeat apply Forall_cons_2].
  - intros [m fn u] (Hm & _ & _). cbn -[encode decode] in *. by rewrite decode_encode.
Defined.

(** The volume header; [vd_copyinfo] is an array of 256 structures that the utilities
    modelled here leave alone. *)
Record hammer2_volume_data := {
  vd_magic : Z;
  vd_boot_beg : Z;
  vd_boot_end : Z;
  vd_aux_beg : Z;
  vd_aux_end : Z;
  vd_volu_size : Z;
  vd_version : Z;
  vd_flags : Z;
  vd_copyid : Z;
  vd_freemap_version : Z;
  vd_peer_type : Z;
  vd_volu_id : Z;
  vd_nvolumes : Z;
  vd_reserved003D : Z;
  vd_reserved003E : Z;
  vd_fsid : bytes;
  vd_fstype : bytes;
  vd_allocator_size : Z;
  vd_allocator_free : Z;
  vd_allocator_beg : Z;
  vd_mirror_tid : Z;
  vd_reserved0080 : Z;
  vd_reserved0088 : Z;
  vd_freemap_tid : Z;
  vd_bulkfree_tid : Z;
  vd_reserved00A0 : list Z;
  vd_total_size : Z;
  vd_copyexists : list Z;
  vd_reserved00E8 : bytes;
  vd_icrc_sects : list Z;
  vd_sroot_blockset : list hammer2_blockref;
  vd_sector2 : bytes;
  vd_sector3 : bytes;
  vd_freemap_blockset : list hammer2_blockref;
  vd_sector5 : bytes;
  vd_sector6 : bytes;
  vd_volu_loff : list Z;
  vd_copyinfo : bytes;
  vd_reserved9000 : bytes;
  vd_icrc_volheader : Z;
}.

#[export, refine] Instance hammer2_volume_data_ondisk : OnDisk hammer2_volume_data := {
  widths := [8; 8; 8; 8; 8; 8; 4; 4; 1; 1; 1; 1; 1; 1; 2; 16; 16; 8; 8; 8; 8; 8; 8; 8; 8; 4 * 8; 8;
    8 * 4; 248; 8 * 4; 4 * sizeof hammer2_blockref; 512; 512; 4 * sizeof hammer2_blockref;
    512; 512; 64 * 8; COPYINFO_BYTES; RESERVED9000_BYTES; 4]%nat;
  chunks x := [
    le_bytes 8 (vd_magic x); le_bytes 8 (vd_boot_beg x); le_bytes 8 (vd_boot_end x);
    le_bytes 8 (vd_aux_beg x); le_bytes 8 (vd_aux_end x); le_bytes 8 (vd_volu_size x);
    le_bytes 4 (vd_version x); le_bytes 4 (vd_flags x); le_bytes 1 (vd_copyid x);
    le_bytes 1 (vd_freemap_version x); le_bytes 1 (vd_peer_type x);
    le_bytes 1 (vd_volu_id x); le_bytes 1 (vd_nvolumes x); le_bytes 1 (vd_reserved003D x);
    le_bytes 2 (vd_reserved003E x); vd_fsid x; vd_fstype x;
    le_bytes 8 (vd_allocator_size x); le_bytes 8 (vd_allocator_free x);
    le_bytes 8 (vd_allocator_beg x); le_bytes 8 (vd_mirror_tid x);
    le_bytes 8 (vd_reserved0080 x); le_bytes 8 (vd_reserved0088 x);
    le_bytes 8 (vd_freemap_tid x); le_bytes 8 (vd_bulkfree_tid x);
    enc_ints 8 (vd_reserved00A0 x); le_bytes 8 (vd_total_size x);
    enc_ints 4 (vd_copyexists x); vd_reserved00E8 x; enc_ints 4 (vd_icrc_sects x);
    enc_array (vd_sroot_blockset x); vd_sector2 x; vd_sector3 x;
    enc_array (vd_freemap_blockset x); vd_sector5 x; vd_sector6 x;
    enc_ints 8 (vd_volu_loff x); vd_copyinfo x; vd_reserved9000 x;
    le_bytes 4 (vd_icrc_volheader x)];
  of_chunks cs := match cs with
    | [c0; c1; c2; c3; c4; c5; c6; c7; c8; c9; c10; c11; c12; c13; c14; c15; c16; c17; c18;
       c19; c20; c21; c22; c23; c24; c25; c26; c27; c28; c29; c30; c31; c32; c33; c34; c35;
       c36; c37; c38; c39] =>
        {|vd_magic := of_le c0; vd_boot_beg := of_le c1; vd_boot_end := of_le c2;
           vd_aux_beg := of_le c3; vd_aux_end := of_le c4; vd_volu_size := of_le c5;
           vd_version := of_le c6; vd_flags := of_le c7; vd_copyid := of_le c8;
           vd_freemap_version := of_le c9; vd_peer_type := of_le c10;
           vd_volu_id := of_le c11; vd_nvolumes := of_le c12; vd_reserved003D := of_le c13;
           vd_reserved003E := of_le c14; vd_fsid := c15; vd_fstype := c16;
           vd_allocator_size := of_le c17; vd_allocator_free := of_le c18;
           vd_allocator_beg := of_le c19; vd_mirror_tid := of_le c20;
           vd_reserved0080 := of_le c21; vd_reserved0088 := of_le c22;
           vd_freemap_tid := of_le c23; vd_bulkfree_tid := of_le c24;
           vd_reserved00A0 := dec_ints 8 4 c25; vd_total_size := of_le c26;
           vd_copyexists := dec_ints 4 8 c27; vd_reserved00E8 := c28;
           vd_icrc_sects := dec_ints 4 8 c29; vd_sroot_blockset := dec_array 4 c30;
           vd_sector2 := c31; vd_sector3 := c32; vd_freemap_blockset := dec_array 4 c33;
           vd_sector5 := c34; vd_sector6 := c35; vd_volu_loff := dec_ints 8 64 c36;
           vd_copyinfo := c37; vd_reserved9000 := c38; vd_icrc_volheader := of_le c39 |}
    | _ => Build_hammer2_volume_data 0 0 0 0 0 0 0 0 0 0 0 0 0 0 0 [] [] 0 0 0 0 0 0 0 0 [] 0 [] [] [] [] [] [] [] [] [] [] [] [] 0
    end;
  valid x :=
    in_u 64 (vd_magic x) /\ in_u 64 (vd_boot_beg x) /\ in_u 64 (vd_boot_end x) /\
    in_u 64 (vd_aux_beg x) /\ in_u 64 (vd_aux_end x) /\ in_u 64 (vd_volu_size x) /\
    in_u 32 (vd_version x) /\ in_u 32 (vd_flags x) /\ in_u 8 (vd_copyid x) /\
    in_u 8 (vd_freemap_version x) /\ in_u 8 (vd_peer_type x) /\ in_u 8 (vd_volu_id x) /\
    in_u 8 (vd_nvolumes x) /\ in_u 8 (vd_reserved003D x) /\ in_u 16 (vd_reserved003E x) /\
    raw 16 (vd_fsid x) /\ raw 16 (vd_fstype x) /\ in_u 64 (vd_allocator_size x) /\
    in_u 64 (vd_allocator_free x) /\ in_u 64 (vd_allocator_beg x) /\
    in_u 64 (vd_mirror_tid x) /\ in_u 64 (vd_reserved0080 x) /\
    in_u 64 (vd_reserved0088 x) /\ in_u 64 (vd_freemap_tid x) /\
    in_u 64 (vd_bulkfree_tid x) /\ valid_ints 8 4 (vd_reserved00A0 x) /\
    in_u 64 (vd_total_size x) /\ valid_ints 4 8 (vd_copyexists x) /\
    raw 248 (vd_reserved00E8 x) /\ valid_ints 4 8 (vd_icrc_sects x) /\
    valid_array 4 (vd_sroot_blockset x) /\ raw 512 (vd_sector2 x) /\
    raw 512 (vd_sector3 x) /\ valid_array 4 (vd_freemap_blockset x) /\
    raw 512 (vd_sector5 x) /\ raw 512 (vd_sector6 x) /\ valid_ints 8 64 (vd_volu_loff x) /\
    raw COPYINFO_BYTES (vd_copyinfo x) /\ raw RESERVED9000_BYTES (vd_reserved9000 x) /\
    in_u 32 (vd_icrc_volheader x);
}.
Proof. all: ondisk_solve. Defined.

(** [offsetof] of the checksums of the volume header, as the comments of the structure
    give them. *)
Lemma h2_sizeof_eqs :
  Z.of_nat (sizeof hammer2_blockref) = HAMMER2_BLOCKREF_BYTES /\
  Z.of_nat (sizeof hammer2_inode_meta) = 256 /\
  Z.of_nat (sizeof hammer2_inode_data) = HAMMER2_INODE_BYTES /\
  Z.of_nat (sizeof hammer2_volume_data) = HAMMER2_VOLUME_BYTES /\
  Z.of_nat (offsetof hammer2_volume_data 29) = 0x1E0 /\
  Z.of_nat (offsetof hammer2_volume_data 30) = 0x200 /\
  Z.of_nat (offsetof hammer2_volume_data 36) = 0xE00 /\
  Z.of_nat (offsetof hammer2_volume_data 39) = 0xFFFC.
Proof. split_and!; vm_compute; reflexivity. Qed.

(** The [xxhash64.value] member of the check union. *)
Definition xxhash64_value (b : hammer2_blockref) : Z := of_le (take 8 (bref_check b)).
(** The union with that member set, after [bzero]. *)
Definition check_xxhash64 (v : Z) : bytes := le_bytes 8 v ++ replicate 56 0.

(** [XXH64] of this build: x86-64, without the alignment check. *)
Definition h2_XXH64 (input : bytes) (seed : Z) : Z := XXH64 XXH_littleEndian false 0 input seed.

(** ** The directory hash *)

Definition hammer2_icrc32 (addr : Z) (buf : bytes) (size : Z) : option Z := iscsi_crc32 addr buf size.

(** The separators '.', '-', '_' and '~'. *)
Definition is_separator (c : Z) : bool :=
  bool_decide (c = 46) || bool_decide (c = 45) || bool_decide (c = 95) || bool_decide (c = 126).

(** [if (i != j) crcx += hammer2_icrc32(aname + j, i - j);] *)
Definition add_field (addr : Z) (aname : bytes) (i j : nat) (crcx : Z) : option Z :=
  if bool_decide (i ≠ j) then
    c ← hammer2_icrc32 (addr + Z.of_nat j) (drop j aname) (Z.of_nat (i - j));
    Some (u32 (crcx + c))
  else Some crcx.

(** The loop over the name; [n] characters are left. *)
Fixpoint dirhash_m32 (addr : Z) (aname : bytes) (n i j : nat) (crcx : Z) : option Z :=
  match n with
  | O => add_field addr aname i j crcx
  | S n =>
      c ← aname !! i;
      if is_separator c then
        crcx ← add_field addr aname i j crcx;
        dirhash_m32 addr aname n (i + 1) (i + 1) crcx
      else dirhash_m32 addr aname n (i + 1) j crcx
  end.

(** [None]: a byte past the end of [aname] is read. *)
Definition dirhash (addr : Z) (aname : bytes) (len : Z) : option Z :=
  crcx ← dirhash_m32 addr aname (Z.to_nat len) 0 0 0;
  let crcx := crcx .| 0x80000000 in
  let key := 0 .| u64 (crcx .<< 32) in
  crcx ← hammer2_icrc32 addr aname len;
  let crcx := crcx .^ u32 (crcx .<< 16) in
  let key := key .| (crcx .& 0xFFFF0000) in
  Some (key .| 0x8000).

(** The key hammer2_disk.h predefines for the BOOT file system. *)
Definition HAMMER2_BOOT_KEY : Z := 0xd9b36ce135528000.
Lemma dirhash_BOOT : dirhash 0 [66; 79; 79; 84] 4 = Some HAMMER2_BOOT_KEY.
Proof. vm_compute. reflexivity. Qed.

(** ** What the directory hash is *)

(** The fields of a name between separators, the empty ones left out. *)
Fixpoint name_fields (cur s : bytes) : list bytes :=
  match s with
  | [] => if bool_decide (cur = []) then [] else [cur]
  | c :: s =>
      if is_separator c then (if bool_decide (cur = []) then [] else [cur]) ++ name_fields [] s
      else name_fields (cur ++ [c]) s
  end.
Definition add_crcs (acc : Z) (fields : list bytes) : Z := foldl (λ a f, u32 (a + crc32c_spec f)) acc fields.

(** Bits 63 and 15 are set, bits 32 to 62 come from the fields, bits 16 to 31 from the
    whole name, the low 15 bits are free. *)
Definition name_key (name : bytes) : Z :=
  u64 ((add_crcs 0 (name_fields [] name) .| 0x80000000) .<< 32)
  .| ((crc32c_spec name .^ u32 (crc32c_spec name .<< 16)) .& 0xFFFF0000) .| 0x8000.

Lemma add_field_spec addr pre cur rest acc :
  bytes_ok cur -> in_u 32 (Z.of_nat (length cur)) ->
  add_field addr (pre ++ cur ++ rest) (length pre + length cur) (length pre) acc
  = Some (add_crcs acc (if bool_decide (cur = []) then [] else [cur])).
Proof.
  intros Hc Hl. unfold add_field. destruct cur as [|c cur].
  - by rewrite bool_decide_eq_false_2 by (cbn; lia).
  - rewrite bool_decide_eq_true_2 by (cbn; lia). rewrite drop_app_length.
    replace (length pre + length (c :: cur) - length pre)%nat with (length (c :: cur)) by lia.
    unfold hammer2_icrc32. rewrite iscsi_crc32_ref_eq by done. done.
Qed.

Lemma add_crcs_app acc l l' : add_crcs acc (l ++ l') = add_crcs (add_crcs acc l) l'.
Proof. apply foldl_app. Qed.

Lemma dirhash_m32_spec addr s : forall pre cur rest acc,
  bytes_ok (cur ++ s) -> in_u 32 (Z.of_nat (length (cur ++ s))) ->
  dirhash_m32 addr (pre ++ cur ++ s ++ rest) (length s) (length pre + length cur) (length pre) acc
  = Some (add_crcs acc (name_fields cur s)).
Proof.
  induction s as [|c s IH]; intros pre cur rest acc Hok Hl; cbn [dirhash_m32 length name_fields].
  { rewrite app_nil_r in *. by apply add_field_spec. }
  assert ((pre ++ cur ++ (c :: s) ++ rest) !! (length pre + length cur)%nat = Some c) as Hc.
  { rewrite app_assoc, <- length_app. by apply list_lookup_middle. }
  rewrite Hc. cbn [mbind option_bind]. apply Forall_app in Hok as [Hcur Hcs]. apply Forall_cons in Hcs as [Hc8 Hs].
  rewrite length_app in Hl. cbn [length] in Hl. unfold in_u in Hl.
  destruct (is_separator c) eqn:Hsep.
  - rewrite add_field_spec; [|done|unfold in_u; lia]. cbn [mbind option_bind]. rewrite add_crcs_app.
    specialize (IH (pre ++ cur ++ [c]) [] rest
                  (add_crcs acc (if bool_decide (cur = []) then [] else [cur]))).
    rewrite !length_app in IH. cbn [length app] in IH. rewrite Nat.add_0_r in IH.
    rewrite <- IH; [|done|unfold in_u; lia]. rewrite <- !app_assoc. cbn [app].
    f_equal; lia.
  - specialize (IH pre (cur ++ [c]) rest acc). rewrite !length_app in IH. cbn [length] in IH.
    rewrite <- IH; [|by rewrite <- app_assoc; apply Forall_app; split; [|constructor]|unfold in_u; lia].
    rewrite <- !app_assoc. cbn [app]. f_equal. lia.
Qed.

Lemma dirhash_spec addr name rest :
  bytes_ok name -> in_u 32 (Z.of_nat (length name)) ->
  dirhash addr (name ++ rest) (Z.of_nat (length name)) = Some (name_key name).
Proof.
  intros Hok Hl. unfold dirhash. rewrite Nat2Z.id.
  pose proof (dirhash_m32_spec addr name [] [] rest 0 Hok Hl) as Hm. cbn [app length Nat.add] in Hm.
  rewrite Hm. cbn [mbind option_bind].
  unfold hammer2_icrc32. rewrite iscsi_crc32_ref_eq by done. cbn [mbind option_bind]. cbv zeta.
  rewrite Z.lor_0_l. reflexivity.
Qed.

Lemma name_key_range name : bytes_ok name -> in_u 64 (name_key name).
Proof.
  intros Hok. unfold name_key. assert (in_u 64 0x8000) by done.
  assert (in_u 64 0xFFFF0000) by done. eauto with c_int.
Qed.

(** The fixed bits. *)
Lemma name_key_bits name :
  bytes_ok name -> Z.testbit (name_key name) 63 = true /\ Z.testbit (name_key name) 15 = true /\
    name_key name mod 2 ^ 15 = 0.
Proof.
  intros Hok. unfold name_key. split_and!.
  - rewrite !Z.lor_spec. unfold uwrap. rewrite Z.mod_pow2_bits_low by lia. bits_simpl.
    change (Z.testbit 0x80000000 (63 - 32)) with true. by rewrite orb_true_r.
  - rewrite Z.lor_spec. by rewrite orb_true_r.
  - rewrite <- land_ones_mod by done. bits_ext. unfold uwrap.
    destruct (decide (i < 15)); bits_simpl; [|btauto].
    rewrite Z.mod_pow2_bits_low by lia. bits_simpl.
    assert (Z.testbit 0xFFFF0000 i = false /\ Z.testbit 0x8000 i = false) as [-> ->]; [|btauto].
    assert (i = 0 \/ i = 1 \/ i = 2 \/ i = 3 \/ i = 4 \/ i = 5 \/ i = 6 \/ i = 7 \/ i = 8 \/ i = 9 \/ i = 10 \/
            i = 11 \/ i = 12 \/ i = 13 \/ i = 14) as Hcase by lia.
    by destruct_or! Hcase; subst i.
Qed.
