(* ===== verification/H2Volumes.v ===== *)
(** * H2Volumes: the volumes of a HAMMER2 file system

    The state and operations of src/sbin/hammer2/ondisk.c, [check_volume] of subs.c and
    [getdevpath] of src/lib/libc/gen/getdevpath.c: how the utilities open the devices of a
    file system, choose a volume header, check that the volumes fit together, and
    translate offsets to volumes.

    The operating system is part of the state: paths name nodes, a node is a device or a
    file, a descriptor is an open node.  Descriptors are numbered without reuse, and the
    position of a descriptor is not kept since every [read] follows an [lseek].
    [uuid_compare] is a function of libuuid and a parameter. *)

From S2P Require Import Prelude HammerDisk Layout Crc32 CMonad Ondisk H2Disk.

(** ** State *)

Record hammer2_volume := {
  hv_fd : Z;
  hv_id : Z;
  hv_path : option bytes;  (** [None] is NULL *)
  hv_offset : Z;
  hv_size : Z;
}.

Record hammer2_ondisk := {
  o_version : Z;
  o_nvolumes : Z;
  o_volumes : list hammer2_volume;
  o_total_size : Z;
  o_free_size : Z;
  o_fsid : bytes;
  o_fstype : bytes;
}.

(** The type of a file, from [st_mode]. *)
Inductive file_type := S_IFREG | S_IFBLK | S_IFCHR | S_IFOTHER.
#[export] Instance file_type_eq_dec : EqDecision file_type.
Proof. solve_decision. Defined.

(** A node: [nd_sectsize] is what [BLKSSZGET] gives for a block device. *)
Record node := {
  nd_type : file_type;
  nd_writable : bool;
  nd_sectsize : Z;
  nd_file : file;
}.

(** [devtabs] are the lines of the devtab files, in the order of [_PATH_DEVTAB_PATHS];
    [None] is a file that cannot be opened. *)
Record system := {
  names : gmap bytes Z;
  nodes : gmap Z node;
  devtabs : list (option (list bytes));
}.

Record h2state := {
  sys : system;
  fds : gmap Z Z;
  next_fd : Z;
  fso : hammer2_ondisk;
  hammer2_volumes_initialized : bool;
}.
Abbreviation H := (prog h2state).

Definition set_sys (y : system) (s : h2state) : h2state :=
  {| sys := y; fds := fds s; next_fd := next_fd s; fso := fso s;
     hammer2_volumes_initialized := hammer2_volumes_initialized s |}.
Definition set_fds (m : gmap Z Z) (n : Z) (s : h2state) : h2state :=
  {| sys := sys s; fds := m; next_fd := n; fso := fso s;
     hammer2_volumes_initialized := hammer2_volumes_initialized s |}.
Definition set_fso (o : hammer2_ondisk) (s : h2state) : h2state :=
  {| sys := sys s; fds := fds s; next_fd := next_fd s; fso := o;
     hammer2_volumes_initialized := hammer2_volumes_initialized s |}.
Definition set_initialized (b : bool) (s : h2state) : h2state :=
  {| sys := sys s; fds := fds s; next_fd := next_fd s; fso := fso s; hammer2_volumes_initialized := b |}.
Definition set_nodes (m : gmap Z node) (s : h2state) : h2state :=
  set_sys {| names := names (sys s); nodes := m; devtabs := devtabs (sys s) |} s.
Definition set_nd_file (f : file) (n : node) : node :=
  {| nd_type := nd_type n; nd_writable := nd_writable n; nd_sectsize := nd_sectsize n; nd_file := f |}.

Definition set_o_nvolumes (n : Z) (o : hammer2_ondisk) : hammer2_ondisk :=
  {| o_version := o_version o; o_nvolumes := n; o_volumes := o_volumes o; o_total_size := o_total_size o;
     o_free_size := o_free_size o; o_fsid := o_fsid o; o_fstype := o_fstype o |}.
Definition set_o_volumes (l : list hammer2_volume) (total : Z) (o : hammer2_ondisk) : hammer2_ondisk :=
  {| o_version := o_version o; o_nvolumes := o_nvolumes o; o_volumes := l; o_total_size := total;
     o_free_size := o_free_size o; o_fsid := o_fsid o; o_fstype := o_fstype o |}.
Definition set_o_free_size (n : Z) (o : hammer2_ondisk) : hammer2_ondisk :=
  {| o_version := o_version o; o_nvolumes := o_nvolumes o; o_volumes := o_volumes o;
     o_total_size := o_total_size o; o_free_size := n; o_fsid := o_fsid o; o_fstype := o_fstype o |}.
Definition set_o_header (version nvolumes : Z) (fsid fstype : bytes) (o : hammer2_ondisk) : hammer2_ondisk :=
  {| o_version := version; o_nvolumes := nvolumes; o_volumes := o_volumes o; o_total_size := o_total_size o;
     o_free_size := o_free_size o; o_fsid := fsid; o_fstype := fstype |}.

(** A process that has just started, on a given system. *)
Definition zero_volume : hammer2_volume :=
  {| hv_fd := 0; hv_id := 0; hv_path := None; hv_offset := 0; hv_size := 0 |}.
Definition zero_ondisk : hammer2_ondisk :=
  {| o_version := 0; o_nvolumes := 0; o_volumes := replicate 64 zero_volume; o_total_size := 0;
     o_free_size := 0; o_fsid := replicate 16 0; o_fstype := replicate 16 0 |}.
Definition start (y : system) : h2state :=
  {| sys := y; fds := ∅; next_fd := 3; fso := zero_ondisk; hammer2_volumes_initialized := false |}.

(** ** System calls *)

(** [errx(1, ...)], [err(1, ...)] and [exit(1)]. *)
Definition errx {A} : H A := stop_with (Exit 1).
(** [if (b) errx(1, ...);] *)
Definition errx_if (b : bool) : H () := if b then errx else mret ().

(** [open]; [None] for -1. *)
Definition sys_open (path : bytes) (rdwr : bool) : H (option Z) :=
  s ← get_state;
  match names (sys s) !! path with
  | None => mret None
  | Some ino =>
      match nodes (sys s) !! ino with
      | None => mret None
      | Some nd =>
          if rdwr && negb (nd_writable nd) then mret None
          else modify (λ s, set_fds (<[next_fd s := ino]> (fds s)) (next_fd s + 1) s);; mret (Some (next_fd s))
      end
  end.
Definition sys_close (fd : Z) : H () := modify (λ s, set_fds (delete fd (fds s)) (next_fd s) s).
(** The node of a descriptor; [None]: EBADF. *)
Definition fd_node (s : h2state) (fd : Z) : option (Z * node) :=
  ino ← fds s !! fd; nd ← nodes (sys s) !! ino; Some (ino, nd).
(** The node [stat] finds. *)
Definition path_ino (s : h2state) (path : bytes) : option Z :=
  ino ← names (sys s) !! path; _ ← nodes (sys s) !! ino; Some ino.

(** [pread] and [pwrite] of a descriptor: the bytes or the count, [None] for -1. *)
Definition sys_pread (fd : Z) (size offset : Z) : H (option bytes) :=
  s ← get_state;
  mret (match fd_node s fd with
        | Some (_, nd) => pread (nd_file nd) (Z.to_nat size) offset
        | None => None
        end).
Definition sys_pwrite (fd : Z) (data : bytes) (offset : Z) : H (option nat) :=
  s ← get_state;
  match fd_node s fd with
  | Some (ino, nd) =>
      match pwrite (nd_file nd) data offset with
      | Some (n, f) => modify (set_nodes (<[ino := set_nd_file f nd]> (nodes (sys s))));; mret (Some n)
      | None => mret None
      end
  | None => mret None
  end.

(** [n = pwrite(...); if (n != HAMMER2_PBUFSIZE) exit(1);] *)
Definition write_pbuf (fd : Z) (buf : bytes) (offset : Z) : H () :=
  n ← sys_pwrite fd buf offset;
  errx_if (bool_decide (n ≠ Some (Z.to_nat HAMMER2_PBUFSIZE))).

Definition check_volume (fd : Z) : H Z :=
  s ← get_state;
  match fd_node s fd with
  | None => errx
  | Some (_, nd) =>
      match nd_type nd with
      | S_IFBLK =>
          let size := f_size (nd_file nd) / 512 in
          let sector_size := nd_sectsize nd in
          if bool_decide (HAMMER2_PBUFSIZE < sector_size) then errx
          else if bool_decide (sector_size = 0) then stop_with Undef
          else errx_if (bool_decide (Z.rem HAMMER2_PBUFSIZE sector_size ≠ 0));; mret (u64 (size .<< 9))
      | S_IFREG => mret (u64 (f_size (nd_file nd)))
      | _ => errx
      end
  end.

(** ** Device paths (getdevpath.c) *)

Definition dev_prefix : bytes := [47; 100; 101; 118; 47].  (* "/dev/" *)
Definition slash : Z := 47.
Definition dot : Z := 46.
Definition colon : Z := 58.
Definition quote : Z := 34.
Definition hash : Z := 35.
Definition path_word : bytes := [112; 97; 116; 104].       (* "path" *)

(** The tokens [strtok_r] cuts from a line at " \t\r\n". *)
Definition is_blank (c : Z) : bool :=
  bool_decide (c = 32) || bool_decide (c = 9) || bool_decide (c = 13) || bool_decide (c = 10).
Fixpoint tokens (cur : bytes) (line : bytes) : list bytes :=
  match line with
  | [] => if bool_decide (cur = []) then [] else [cur]
  | c :: line =>
      if is_blank c then (if bool_decide (cur = []) then tokens [] line else cur :: tokens [] line)
      else tokens (cur ++ [c]) line
  end.

Definition dodequote (base : bytes) : bytes :=
  if bool_decide (head base = Some quote) && bool_decide (last base = Some quote)
  then drop 1 (take (length base - 1) base) else base.

(** The position of the last '.', [strrchr]. *)
Fixpoint strrchr_dot (i : nat) (s : bytes) : option nat :=
  match s with
  | [] => None
  | c :: s =>
      match strrchr_dot (S i) s with
      | Some k => Some k
      | None => if bool_decide (c = dot) then Some i else None
      end
  end.

(** One line of a devtab file: the path it gives to [devname]. *)
Definition devtab_line (devname line : bytes) : option bytes :=
  let tlen := default O (strrchr_dot 0 devname) in
  match tokens [] line with
  | label :: rest =>
      if bool_decide (head label = Some hash) then None
      else
        let trailer :=
          if bool_decide (devname = label) then Some []
          else if bool_decide (tlen ≠ O) && bool_decide (length label = tlen) &&
                  bool_decide (take tlen devname = take tlen label)
          then Some (drop tlen devname) else None in
        match trailer, rest with
        | Some trailer, ptr2 :: ptr3 :: _ =>
            let ptr3 := dodequote ptr3 in
            Some (if bool_decide (ptr2 = path_word) then ptr3 ++ trailer
                  else dev_prefix ++ ptr2 ++ [slash] ++ ptr3 ++ trailer)
        | _, _ => None
        end
  | [] => None
  end.

(** The first line that matches, of the first file that has one. *)
Fixpoint first_some {A B} (f : A -> option B) (l : list A) : option B :=
  match l with
  | [] => None
  | x :: l => match f x with Some y => Some y | None => first_some f l end
  end.
Definition finddevlabel (y : system) (devname : bytes) : option bytes :=
  first_some (λ tab, lines ← tab; first_some (devtab_line devname) lines) (devtabs y).

(** [getdevpath(devname, 0)] *)
Definition getdevpath (y : system) (devname : bytes) : bytes :=
  if bool_decide (head devname = Some slash) || bool_decide (head devname = Some dot) then devname
  else
    let path := dev_prefix ++ devname in
    match names y !! path with
    | Some _ => path
    | None => default devname (finddevlabel y devname)
    end.

(** ** Volumes (ondisk.c) *)

Definition hammer2_init_volume : hammer2_volume :=
  {| hv_fd := -1; hv_id := -1; hv_path := None; hv_offset := u64 (-1); hv_size := u64 (-1) |}.

Definition hammer2_init_ondisk : hammer2_ondisk :=
  {| o_version := -1; o_nvolumes := 0; o_volumes := replicate (Z.to_nat HAMMER2_MAX_VOLUMES) hammer2_init_volume;
     o_total_size := 0; o_free_size := 0; o_fsid := replicate 16 0; o_fstype := replicate 16 0 |}.

Definition hammer2_install_volume (fd id : Z) (path : bytes) (offset size : Z) : hammer2_volume :=
  {| hv_fd := fd; hv_id := id; hv_path := Some path; hv_offset := offset; hv_size := size |}.

(** [fsync], [close] and [free]; the volume it leaves, whose path is the freed pointer (it
    is not used again). *)
Definition hammer2_uninstall_volume (vol : hammer2_volume) : H hammer2_volume :=
  sys_close (hv_fd vol);;
  mret {| hv_fd := hv_fd hammer2_init_volume; hv_id := hv_id hammer2_init_volume; hv_path := hv_path vol;
          hv_offset := hv_offset hammer2_init_volume; hv_size := hv_size hammer2_init_volume |}.

(** The tests of one header block that was read: the magic and the three checksums. *)
Section headers.
Context (addr : Z).  (** the address of [vd] *)

Definition icrc32_at (p : bytes) (off size : Z) : H Z :=
  deref (hammer2_icrc32 (addr + off) (drop (Z.to_nat off) p) size).

Definition header_tests (vd : hammer2_volume_data) (p : bytes) : H bool :=
  if bool_decide (vd_magic vd ≠ HAMMER2_VOLUME_ID_HBO) && bool_decide (vd_magic vd ≠ HAMMER2_VOLUME_ID_ABO)
  then mret false
  else if bool_decide (vd_magic vd = HAMMER2_VOLUME_ID_ABO) then mret false
  else
    crc0 ← deref (vd_icrc_sects vd !! HAMMER2_VOL_ICRC_SECT0);
    crc1 ← icrc32_at p HAMMER2_VOLUME_ICRC0_OFF HAMMER2_VOLUME_ICRC0_SIZE;
    if bool_decide (crc0 ≠ crc1) then mret false
    else
      crc0 ← deref (vd_icrc_sects vd !! HAMMER2_VOL_ICRC_SECT1);
      crc1 ← icrc32_at p HAMMER2_VOLUME_ICRC1_OFF HAMMER2_VOLUME_ICRC1_SIZE;
      if bool_decide (crc0 ≠ crc1) then mret false
      else
        let crc0 := vd_icrc_volheader vd in
        crc1 ← icrc32_at p HAMMER2_VOLUME_ICRCVH_OFF HAMMER2_VOLUME_ICRCVH_SIZE;
        mret (bool_decide (crc0 = crc1)).
(** [vd] is the structure that [p] points to. *)
Definition header_good (p : bytes) : H bool := header_tests (decode p) p.

(** The loop of [hammer2_read_volume_header] from header [i] on, with [n] headers left;
    [best] is [zone] with [*voldata] ([None]: -1); the local [mirror_tid] is the one of
    [*voldata]. *)
Fixpoint read_headers (fd : Z) (size : Z) (n : nat) (i : Z) (best : option (Z * hammer2_volume_data))
    : H (option (Z * hammer2_volume_data)) :=
  match n with
  | O => mret best
  | S n =>
      if bool_decide (size <= i * HAMMER2_ZONE_BYTES64) then mret best
      else
        ret ← sys_pread fd HAMMER2_PBUFSIZE (i * HAMMER2_ZONE_BYTES64);
        match ret with
        | None => read_headers fd size n (i + 1) best
        | Some p =>
            if bool_decide (length p ≠ Z.to_nat HAMMER2_PBUFSIZE) then read_headers fd size n (i + 1) best
            else
              good ← header_good p;
              let vd := decode p in
              let better := match best with
                            | None => true
                            | Some (_, v) => bool_decide (vd_mirror_tid v < vd_mirror_tid vd)
                            end in
              read_headers fd size n (i + 1) (if good && better then Some (i, vd) else best)
        end
  end.
Definition hammer2_read_volume_header (fd : Z) : H (option (Z * hammer2_volume_data)) :=
  size ← check_volume fd;
  read_headers fd size (Z.to_nat HAMMER2_NUM_VOLHDRS) 0 None.
End headers.

Section ondisk.
(** [uuid_compare] of libuuid and the address of the header buffer. *)
Context (uuid_compare : bytes -> bytes -> Z) (addr : Z).

Definition hammer2_uuid_compare (uuid1 uuid2 : bytes) : Z := uuid_compare uuid1 uuid2.

Definition hammer2_add_volume (path : bytes) (rdonly : bool) : H () :=
  fd ← sys_open path (negb rdonly);
  match fd with
  | None => errx
  | Some fd =>
      s ← get_state;
      '(_, nd) ← (match fd_node s fd with Some x => mret x | None => errx end);
      errx_if (bool_decide (nd_type nd ≠ S_IFCHR) && bool_decide (nd_type nd ≠ S_IFREG));;
      r ← hammer2_read_volume_header addr fd;
      match r with
      | None => errx
      | Some (_, voldata) =>
          let i := vd_volu_id voldata in
          errx_if (bool_decide (i < 0) || bool_decide (HAMMER2_MAX_VOLUMES <= i));;
          s ← get_state;
          vol ← deref (o_volumes (fso s) !! Z.to_nat i);
          errx_if (bool_decide (hv_id vol ≠ -1));;
          (if bool_decide (o_nvolumes (fso s) = 0) then
             modify (λ s, set_fso (set_o_header (s32 (vd_version voldata)) (vd_nvolumes voldata)
                                     (vd_fsid voldata) (vd_fstype voldata) (fso s)) s)
           else
             errx_if (bool_decide (o_version (fso s) ≠ s32 (vd_version voldata)));;
             errx_if (bool_decide (o_nvolumes (fso s) ≠ vd_nvolumes voldata));;
             errx_if (bool_decide (hammer2_uuid_compare (o_fsid (fso s)) (vd_fsid voldata) ≠ 0));;
             errx_if (bool_decide (hammer2_uuid_compare (o_fstype (fso s)) (vd_fstype voldata) ≠ 0)));;
          loff ← deref (vd_volu_loff voldata !! Z.to_nat i);
          let vol := hammer2_install_volume fd i path loff (vd_volu_size voldata) in
          modify (λ s, set_fso (set_o_volumes (<[Z.to_nat i := vol]> (o_volumes (fso s)))
                                  (u64 (o_total_size (fso s) + hv_size vol)) (fso s)) s)
      end
  end.

(** The number of initialized volumes, the loop three functions start with. *)
Definition count_volumes (fsp : hammer2_ondisk) : Z :=
  Z.of_nat (length (filter (λ v, hv_id v ≠ -1) (o_volumes fsp))).

(** The loop of [hammer2_verify_volumes_common] from index [i] on.  [st] is the array of
    [struct stat] that [calloc] made: an entry is the node it describes, [None] while it is
    all zero; storing past its end is [Undef]. *)
Fixpoint verify_common_loop (vols : list hammer2_volume) (i : nat) (st : list (option Z)) : H () :=
  match vols with
  | [] => mret ()
  | vol :: vols =>
      if bool_decide (hv_id vol = -1) then verify_common_loop vols (S i) st
      else
        s ← get_state;
        _ ← (match hv_path vol ≫= path_ino s with
             | None => errx
             | Some _ => if bool_decide (i < length st)%nat then mret () else stop_with Undef
             end);
        '(ino, _) ← (match fd_node s (hv_fd vol) with Some x => mret x | None => errx end);
        errx_if (bool_decide (Some ino ∈ take i st));;
        errx_if (bool_decide (hv_fd vol = -1));;
        errx_if (bool_decide (hv_offset vol = u64 (-1)));;
        errx_if (bool_decide (hv_size vol = u64 (-1)));;
        size ← check_volume (hv_fd vol);
        errx_if (bool_decide (size < hv_size vol));;
        verify_common_loop vols (S i) (<[i := Some ino]> st)
  end.
Definition hammer2_verify_volumes_common (fsp : hammer2_ondisk) : H () :=
  errx_if (bool_decide (o_version fsp = -1));;
  verify_common_loop (o_volumes fsp) 0 (replicate (Z.to_nat (count_volumes fsp)) None).

(** The result is [*fsp], whose [nvolumes] it sets. *)
Definition hammer2_verify_volumes_1 (fsp : hammer2_ondisk) (rootvoldata : option hammer2_volume_data)
    : H hammer2_ondisk :=
  let nvolumes := count_volumes fsp in
  errx_if (bool_decide (nvolumes ≠ 1));;
  let fsp := set_o_nvolumes nvolumes fsp in
  (match rootvoldata with
   | None => mret ()
   | Some rv =>
       errx_if (bool_decide (vd_volu_id rv ≠ 0));;
       errx_if (bool_decide (vd_nvolumes rv ≠ 0));;
       errx_if (bool_decide (vd_total_size rv ≠ 0));;
       errx_if (bool_decide (Exists (λ off, off ≠ 0) (vd_volu_loff rv)))
   end);;
  vol ← deref (o_volumes fsp !! O);
  errx_if (bool_decide (hv_id vol ≠ 0));;
  errx_if (bool_decide (hv_offset vol ≠ 0));;
  errx_if (bool_decide (hv_size vol .& HAMMER2_VOLUME_ALIGNMASK ≠ 0));;
  mret fsp.

(** The loop over the volumes of [hammer2_verify_volumes_2]; [prev] is [vol - 1]. *)
Fixpoint verify_2_loop (nvolumes : Z) (prev : option hammer2_volume) (vols : list hammer2_volume) (i : Z) : H () :=
  match vols with
  | [] => mret ()
  | vol :: vols =>
      (if bool_decide (hv_id vol = -1) then mret ()
       else
         errx_if (bool_decide (hv_offset vol .& HAMMER2_FREEMAP_LEVEL1_MASK ≠ 0));;
         (match prev with
          | Some p =>
              errx_if (bool_decide (hv_id vol ≠ hv_id p + 1));;
              errx_if (bool_decide (hv_offset vol ≠ u64 (hv_offset p + hv_size p)))
          | None => errx_if (bool_decide (hv_offset vol ≠ 0))
          end);;
         (if bool_decide (i ≠ nvolumes - 1) then
            errx_if (bool_decide (hv_size vol < HAMMER2_FREEMAP_LEVEL1_SIZE));;
            errx_if (bool_decide (hv_size vol .& HAMMER2_FREEMAP_LEVEL1_MASK ≠ 0))
          else errx_if (bool_decide (hv_size vol .& HAMMER2_VOLUME_ALIGNMASK ≠ 0))));;
      verify_2_loop nvolumes (Some vol) vols (i + 1)
  end.

(** It compares the root header with the global [fso], not with [fsp]. *)
Definition hammer2_verify_volumes_2 (fsp : hammer2_ondisk) (rootvoldata : option hammer2_volume_data) : H () :=
  let nvolumes := count_volumes fsp in
  errx_if (bool_decide (o_nvolumes fsp ≠ nvolumes));;
  (match rootvoldata with
   | None => mret ()
   | Some rv =>
       s ← get_state;
       errx_if (bool_decide (vd_volu_id rv ≠ HAMMER2_ROOT_VOLUME));;
       errx_if (bool_decide (vd_nvolumes rv ≠ o_nvolumes (fso s)));;
       errx_if (bool_decide (vd_total_size rv ≠ o_total_size (fso s)));;
       errx_if (bool_decide (Exists (λ off, off = u64 (-1)) (take (Z.to_nat nvolumes) (vd_volu_loff rv))));;
       errx_if (bool_decide (Exists (λ off, off ≠ u64 (-1)) (drop (Z.to_nat nvolumes) (vd_volu_loff rv))))
   end);;
  verify_2_loop (o_nvolumes fsp) None (o_volumes fsp) 0.

Definition hammer2_verify_volumes (fsp : hammer2_ondisk) (rootvoldata : option hammer2_volume_data)
    : H hammer2_ondisk :=
  hammer2_verify_volumes_common fsp;;
  fsp ← (if bool_decide (HAMMER2_VOL_VERSION_MULTI_VOLUMES <= o_version fsp)
         then hammer2_verify_volumes_2 fsp rootvoldata;; mret fsp
         else hammer2_verify_volumes_1 fsp rootvoldata);
  assertp (bool_decide (0 < o_nvolumes fsp));;
  mret fsp.

(** [hammer2_get_volume_attr]: the volume handed to the callback; an index past the array
    is [Undef]. *)
Fixpoint find_volume (vols : list hammer2_volume) (offset : Z) (n : nat) (i : nat) : H (option hammer2_volume) :=
  match n with
  | O => mret None
  | S n =>
      vol ← deref (vols !! i);
      if bool_decide (hv_offset vol <= offset) && bool_decide (offset < u64 (hv_offset vol + hv_size vol))
      then mret (Some vol)
      else find_volume vols offset n (S i)
  end.
Definition hammer2_get_volume_attr (offset : Z) : H (option hammer2_volume) :=
  s ← get_state;
  assertp (hammer2_volumes_initialized s);;
  let offset := offset .& bnot 64 HAMMER2_OFF_MASK_RADIX in
  find_volume (o_volumes (fso s)) offset (Z.to_nat (o_nvolumes (fso s))) 0.

(** The five getters: their callbacks and the value on failure. *)
Definition get_attr {A} (cb : hammer2_volume -> A) (fail : A) (offset : Z) : H A :=
  vol ← hammer2_get_volume_attr offset;
  mret (match vol with Some vol => cb vol | None => fail end).
Definition hammer2_get_volume_fd : Z -> H Z := get_attr hv_fd (-1).
Definition hammer2_get_volume_id : Z -> H Z := get_attr hv_id (-1).
Definition hammer2_get_volume_path : Z -> H (option bytes) := get_attr hv_path None.
Definition hammer2_get_volume_offset : Z -> H Z := get_attr hv_offset (u64 (-1)).
Definition hammer2_get_volume_size : Z -> H Z := get_attr hv_size (u64 (-1)).
Definition hammer2_get_root_volume_fd : H Z := hammer2_get_volume_fd 0.
Definition hammer2_get_root_volume_id : H Z := hammer2_get_volume_id 0.
Definition hammer2_get_root_volume_path : H (option bytes) := hammer2_get_volume_path 0.
Definition hammer2_get_root_volume_offset : H Z := hammer2_get_volume_offset 0.
Definition hammer2_get_root_volume_size : H Z := hammer2_get_volume_size 0.
Definition hammer2_get_total_size : H Z := s ← get_state; mret (o_total_size (fso s)).

(** [None]: NULL. *)
Definition hammer2_read_root_volume_header : H (option hammer2_volume_data) :=
  fd ← hammer2_get_root_volume_fd;
  _ ← hammer2_get_root_volume_path;
  if bool_decide (fd = -1) then mret None
  else
    r ← hammer2_read_volume_header addr fd;
    match r with
    | Some (_, voldata) => mret (Some voldata)
    | None => errx
    end.

(** The elements of a list of devices separated by ':'; at least one, maybe empty. *)
Fixpoint split_colon (s : bytes) : list bytes :=
  match s with
  | [] => [[]]
  | c :: s =>
      if bool_decide (c = colon) then [] :: split_colon s
      else match split_colon s with
           | x :: l => (c :: x) :: l
           | [] => [[c]]
           end
  end.

(** The loop over the devices; a list inside a devtab path is opened by [init], the
    recursive call. *)
Fixpoint add_devices (init : bytes -> H ()) (rdonly : bool) (devs : list bytes) : H () :=
  match devs with
  | [] => mret ()
  | devpath :: devs =>
      s ← get_state;
      let devpath := getdevpath (sys s) devpath in
      (if bool_decide (colon ∈ devpath) then init devpath else hammer2_add_volume devpath rdonly);;
      add_devices init rdonly devs
  end.

(** [fuel] bounds the depth of the recursion. *)
Fixpoint hammer2_init_volumes (fuel : nat) (blkdevs : option bytes) (rdonly : bool) : H () :=
  match fuel with
  | O => stop_with OutOfFuel
  | S fuel =>
      s ← get_state;
      errx_if (hammer2_volumes_initialized s);;
      match blkdevs with
      | None => errx
      | Some p =>
          modify (set_fso hammer2_init_ondisk);;
          add_devices (λ p, hammer2_init_volumes fuel (Some p) rdonly) rdonly (split_colon p);;
          modify (set_initialized true);;
          rootvoldata ← hammer2_read_root_volume_header;
          s ← get_state;
          fsp ← hammer2_verify_volumes (fso s) rootvoldata;
          modify (set_fso fsp)
      end
  end.

Fixpoint cleanup_loop (vols : list hammer2_volume) : H (list hammer2_volume) :=
  match vols with
  | [] => mret []
  | vol :: vols =>
      vol ← (if bool_decide (hv_id vol = -1) then mret vol else hammer2_uninstall_volume vol);
      vols ← cleanup_loop vols;
      mret (vol :: vols)
  end.
Definition hammer2_cleanup_volumes : H () :=
  s ← get_state;
  vols ← cleanup_loop (o_volumes (fso s));
  modify (λ s, set_fso (set_o_volumes vols (o_total_size (fso s)) (fso s)) s);;
  modify (set_initialized false).
End ondisk.
