(* ===== verification/H2Mkfs.v ===== *)
(** * H2Mkfs: newfs_hammer2(8)

    src/sbin/newfs_hammer2: the options ([main] of newfs_hammer2.c) and the construction of
    a file system (mkfs_hammer2.c), on the volumes of [H2Volumes].  The uuids
    [uuid_generate] makes, [uuid_parse] (libuuid) and the time of day are parameters.
    [getopt] is replaced by the list of options it yields.  [qsort] is a stable merge sort.
    The summary that is printed at the end is not modelled. *)

From stdpp Require Import sorting.
From S2P Require Import Prelude HammerDisk Layout Crc32 CMonad Ondisk Newfs H2Disk H2Volumes.

Definition MAXLABELS : Z := HAMMER2_SET_COUNT.

Inductive label_type := HAMMER2_LABEL_NONE | HAMMER2_LABEL_BOOT | HAMMER2_LABEL_ROOT | HAMMER2_LABEL_DATA.

(** [Label] holds the first [NLabels] entries of the array. *)
Record hammer2_mkfs_options := {
  Hammer2Version : Z;
  Hammer2_FSType : bytes;
  Hammer2_VolFSID : bytes;
  Hammer2_SupCLID : bytes;
  Hammer2_SupFSID : bytes;
  opt_BootAreaSize : Z;
  opt_AuxAreaSize : Z;
  Label : list bytes;
  CompType : Z;
  CheckType : Z;
  DefaultLabelType : label_type;
  DebugOpt : bool;
}.
Definition NLabels (opt : hammer2_mkfs_options) : Z := Z.of_nat (length (Label opt)).

Definition set_Hammer2Version (v : Z) (o : hammer2_mkfs_options) : hammer2_mkfs_options :=
  {| Hammer2Version := v; Hammer2_FSType := Hammer2_FSType o; Hammer2_VolFSID := Hammer2_VolFSID o;
     Hammer2_SupCLID := Hammer2_SupCLID o; Hammer2_SupFSID := Hammer2_SupFSID o;
     opt_BootAreaSize := opt_BootAreaSize o; opt_AuxAreaSize := opt_AuxAreaSize o; Label := Label o;
     CompType := CompType o; CheckType := CheckType o; DefaultLabelType := DefaultLabelType o;
     DebugOpt := DebugOpt o |}.
Definition set_areas (boot aux : Z) (o : hammer2_mkfs_options) : hammer2_mkfs_options :=
  {| Hammer2Version := Hammer2Version o; Hammer2_FSType := Hammer2_FSType o;
     Hammer2_VolFSID := Hammer2_VolFSID o; Hammer2_SupCLID := Hammer2_SupCLID o;
     Hammer2_SupFSID := Hammer2_SupFSID o; opt_BootAreaSize := boot; opt_AuxAreaSize := aux; Label := Label o;
     CompType := CompType o; CheckType := CheckType o; DefaultLabelType := DefaultLabelType o;
     DebugOpt := DebugOpt o |}.
Definition set_Label (l : list bytes) (o : hammer2_mkfs_options) : hammer2_mkfs_options :=
  {| Hammer2Version := Hammer2Version o; Hammer2_FSType := Hammer2_FSType o;
     Hammer2_VolFSID := Hammer2_VolFSID o; Hammer2_SupCLID := Hammer2_SupCLID o;
     Hammer2_SupFSID := Hammer2_SupFSID o; opt_BootAreaSize := opt_BootAreaSize o;
     opt_AuxAreaSize := opt_AuxAreaSize o; Label := l; CompType := CompType o; CheckType := CheckType o;
     DefaultLabelType := DefaultLabelType o; DebugOpt := DebugOpt o |}.
Definition set_DefaultLabelType (t : label_type) (o : hammer2_mkfs_options) : hammer2_mkfs_options :=
  {| Hammer2Version := Hammer2Version o; Hammer2_FSType := Hammer2_FSType o;
     Hammer2_VolFSID := Hammer2_VolFSID o; Hammer2_SupCLID := Hammer2_SupCLID o;
     Hammer2_SupFSID := Hammer2_SupFSID o; opt_BootAreaSize := opt_BootAreaSize o;
     opt_AuxAreaSize := opt_AuxAreaSize o; Label := Label o; CompType := CompType o;
     CheckType := CheckType o; DefaultLabelType := t; DebugOpt := DebugOpt o |}.
Definition set_DebugOpt (b : bool) (o : hammer2_mkfs_options) : hammer2_mkfs_options :=
  {| Hammer2Version := Hammer2Version o; Hammer2_FSType := Hammer2_FSType o;
     Hammer2_VolFSID := Hammer2_VolFSID o; Hammer2_SupCLID := Hammer2_SupCLID o;
     Hammer2_SupFSID := Hammer2_SupFSID o; opt_BootAreaSize := opt_BootAreaSize o;
     opt_AuxAreaSize := opt_AuxAreaSize o; Label := Label o; CompType := CompType o;
     CheckType := CheckType o; DefaultLabelType := DefaultLabelType o; DebugOpt := b |}.

(** [opt->Label[opt->NLabels++] = strdup(s)] *)
Definition push_label (s : bytes) (opt : hammer2_mkfs_options) : H hammer2_mkfs_options :=
  if bool_decide (NLabels opt < MAXLABELS) then mret (set_Label (Label opt ++ [s]) opt) else stop_with Undef.

Definition str_LOCAL : bytes := [76; 79; 67; 65; 76].
Definition str_BOOT : bytes := [66; 79; 79; 84].
Definition str_ROOT : bytes := [82; 79; 79; 84].
Definition str_DATA : bytes := [68; 65; 84; 65].
Definition str_none : bytes := [110; 111; 110; 101].
Definition str_SUPROOT : bytes := [83; 85; 80; 82; 79; 79; 84].
(** "5cbb9ad1-862d-11dc-a94d-01301bb8a9f5" *)
Definition HAMMER2_UUID_STRING : bytes :=
  [53; 99; 98; 98; 57; 97; 100; 49; 45; 56; 54; 50; 100; 45; 49; 49; 100; 99; 45; 97; 57; 52; 100; 45;
   48; 49; 51; 48; 49; 98; 98; 56; 97; 57; 102; 53].

(** [strcasecmp(a, b) == 0] *)
Definition tolower (c : Z) : Z := if bool_decide (65 <= c <= 90) then c + 32 else c.
Definition strcaseeq (a b : bytes) : bool := bool_decide (tolower <$> a = tolower <$> b).

(** uuid.c: swap the three integer fields of a uuid. *)
Definition __uuid_swap (u : bytes) : bytes :=
  reverse (take 4 u) ++ reverse (take 2 (drop 4 u)) ++ reverse (take 2 (drop 6 u)) ++ drop 8 u.

Section mkfs.
Context (uuid_generate : nat -> bytes) (uuid_parse : bytes -> option bytes) (now addr : Z).

Definition hammer2_uuid_from_string (str : bytes) : option bytes := __uuid_swap <$> uuid_parse str.

(** [sysctlbyname] of src/lib/libc/gen always fails, so the default version is used. *)
Definition sysctlbyname : option Z := None.
Definition get_hammer2_version : Z :=
  match sysctlbyname with
  | Some version =>
      if bool_decide (HAMMER2_VOL_VERSION_WIP <= version) then HAMMER2_VOL_VERSION_WIP - 1 else version
  | None => HAMMER2_VOL_VERSION_DEFAULT
  end.

Definition hammer2_mkfs_init : H hammer2_mkfs_options :=
  match hammer2_uuid_from_string HAMMER2_UUID_STRING with
  | None => errx
  | Some fstype =>
      mret {| Hammer2Version := get_hammer2_version; Hammer2_FSType := fstype;
              Hammer2_VolFSID := uuid_generate 0; Hammer2_SupCLID := uuid_generate 1;
              Hammer2_SupFSID := uuid_generate 2; opt_BootAreaSize := 0; opt_AuxAreaSize := 0;
              Label := [str_LOCAL]; CompType := HAMMER2_COMP_NEWFS_DEFAULT;
              CheckType := HAMMER2_CHECK_XXHASH64; DefaultLabelType := HAMMER2_LABEL_NONE; DebugOpt := false |}
  end.

(** The size of the boot or the aux area, from the size given (0: none), the nominal and
    the minimal size. *)
Definition area_size (size nom min total : Z) : H Z :=
  size ← (if bool_decide (size = 0) then
            match halve 64 nom (total / 20) with
            | Some v => mret (if bool_decide (v < min) then min else v)
            | None => stop_with OutOfFuel
            end
          else mret (if bool_decide (size < min) then min else size));
  mret (u64 (size + HAMMER2_VOLUME_ALIGNMASK) .& bnot 64 HAMMER2_VOLUME_ALIGNMASK).

Definition adjust_options (fso : hammer2_ondisk) (opt : hammer2_mkfs_options) : H hammer2_mkfs_options :=
  opt ← (match DefaultLabelType opt with
         | HAMMER2_LABEL_BOOT => push_label str_BOOT opt
         | HAMMER2_LABEL_ROOT => push_label str_ROOT opt
         | HAMMER2_LABEL_DATA => push_label str_DATA opt
         | HAMMER2_LABEL_NONE => mret opt
         end);
  boot ← area_size (opt_BootAreaSize opt) HAMMER2_BOOT_NOM_BYTES HAMMER2_BOOT_MIN_BYTES (o_total_size fso);
  aux ← area_size (opt_AuxAreaSize opt) HAMMER2_AUX_NOM_BYTES HAMMER2_AUX_MIN_BYTES (o_total_size fso);
  mret (set_areas boot aux opt).

(** The [getsize] of mkfs_hammer2.c. *)
Definition h2_getsize (str : bytes) (minval maxval powerof2 : Z) : H Z :=
  let '(val, ptr) := strtoll str in
  match suffix_of (front ptr) with
  | None => errx
  | Some n =>
      val ← mul1024 n val;
      errx_if (bool_decide (front (tail ptr) ≠ 0));;
      errx_if (bool_decide (val < minval));;
      errx_if (bool_decide (maxval < val));;
      errx_if (bool_decide (powerof2 .& 1 ≠ 0) && bool_decide (val .^ (val - 1) ≠ s64 (val .<< 1) - 1));;
      errx_if (bool_decide (powerof2 .& 2 ≠ 0) && bool_decide (val .& HAMMER2_NEWFS_ALIGNMASK ≠ 0));;
      mret val
  end.

Definition zero_pbuf : bytes := replicate (Z.to_nat HAMMER2_PBUFSIZE) 0.

(** [for (i = 0; i < n; ++i)]: clear [n] blocks from [tmp_base] on. *)
Fixpoint clear_blocks (fd : Z) (n : nat) (tmp_base : Z) : H () :=
  match n with
  | O => mret ()
  | S n => write_pbuf fd zero_pbuf tmp_base;; clear_blocks fd n (u64 (tmp_base + HAMMER2_PBUFSIZE))
  end.
(** [for (; tmp_base < alloc_base; tmp_base += HAMMER2_PBUFSIZE)] *)
Fixpoint clear_areas (fuel : nat) (fd tmp_base alloc_base : Z) : H () :=
  if bool_decide (tmp_base < alloc_base) then
    match fuel with
    | O => stop_with OutOfFuel
    | S fuel =>
        write_pbuf fd zero_pbuf tmp_base;;
        clear_areas fuel fd (u64 (tmp_base + HAMMER2_PBUFSIZE)) alloc_base
    end
  else mret ().

(** The areas end below 1 GB, so 2 ^ 14 blocks of 64 KB are enough. *)
Definition format_hammer2_misc (vol : hammer2_volume) (opt : hammer2_mkfs_options) (boot_base aux_base : Z) : H Z :=
  let alloc_base := u64 (aux_base + opt_AuxAreaSize opt) in
  clear_blocks (hv_fd vol) (Z.to_nat HAMMER2_ZONE_BLOCKS_SEG) 0;;
  assertp (bool_decide (alloc_base .& HAMMER2_PBUFMASK = 0));;
  assertp (bool_decide (alloc_base < HAMMER2_FREEMAP_LEVEL1_SIZE));;
  clear_areas (Z.to_nat (2 ^ 14)) (hv_fd vol) boot_base alloc_base;;
  mret alloc_base.

(** [while ((bytes & 1) == 0) { bytes >>= 1; ++radix; }] *)
Fixpoint radix_loop (fuel : nat) (bytes radix : Z) : H (Z * Z) :=
  if bool_decide (bytes .& 1 = 0) then
    match fuel with
    | O => stop_with OutOfFuel
    | S fuel => radix_loop fuel (bytes .>> 1) (radix + 1)
    end
  else mret (bytes, radix).

Definition zero_bref : hammer2_blockref :=
  {| bref_type := 0; bref_methods := 0; bref_copyid := 0; bref_keybits := 0; bref_vradix := 0; bref_flags := 0;
     bref_leaf_count := 0; bref_key := 0; bref_mirror_tid := 0; bref_modify_tid := 0; bref_data_off := 0;
     bref_update_tid := 0; bref_embed := replicate 16 0; bref_check := replicate 64 0 |}.

(** [blockref[i].type = HAMMER2_BREF_TYPE_INVALID], after [bzero]. *)
Definition invalid_bref : hammer2_blockref :=
  {| bref_type := HAMMER2_BREF_TYPE_INVALID; bref_methods := 0; bref_copyid := 0; bref_keybits := 0;
     bref_vradix := 0; bref_flags := 0; bref_leaf_count := 0; bref_key := 0; bref_mirror_tid := 0;
     bref_modify_tid := 0; bref_data_off := 0; bref_update_tid := 0; bref_embed := replicate 16 0;
     bref_check := replicate 64 0 |}.

(** The new [*basep] and [*bref]; a [size_t] has 64 bits. *)
Definition alloc_direct (base bytes : Z) : H (Z * hammer2_blockref) :=
  assertp (bool_decide (bytes ≠ 0));;
  '(bytes, radix) ← radix_loop 64 bytes 0;
  assertp (bool_decide (bytes = 1));;
  let radix := if bool_decide (radix < HAMMER2_RADIX_MIN) then HAMMER2_RADIX_MIN else radix in
  mret (u64 (base + u32 (1 .<< radix)),
        {| bref_type := 0; bref_methods := 0; bref_copyid := 0; bref_keybits := 0; bref_vradix := radix;
           bref_flags := 0; bref_leaf_count := 0; bref_key := 0; bref_mirror_tid := 0; bref_modify_tid := 0;
           bref_data_off := base .| radix; bref_update_tid := 0; bref_embed := replicate 16 0;
           bref_check := replicate 64 0 |}).

Definition blkrefary_cmp (bref1 bref2 : hammer2_blockref) : Z :=
  if bool_decide (bref_key bref1 < bref_key bref2) then -1
  else if bool_decide (bref_key bref2 < bref_key bref1) then 1 else 0.
Definition bref_le (bref1 bref2 : hammer2_blockref) : Prop := blkrefary_cmp bref1 bref2 <= 0.
#[local] Instance bref_le_dec : RelDecision bref_le.
Proof. intros a b. unfold bref_le. apply _. Defined.
Definition qsort : list hammer2_blockref -> list hammer2_blockref := merge_sort bref_le.

(** The assignments to the inode of a PFS root directory; fields that are not assigned
    keep their value. *)
Definition set_root_inode (opt : hammer2_mkfs_options) (label clid fsid : bytes) (key : Z)
    (rawip : hammer2_inode_data) : hammer2_inode_data :=
  let m := id_meta rawip in
  {| id_meta :=
       {| im_version := HAMMER2_INODE_VERSION_ONE; im_reserved02 := im_reserved02 m;
          im_pfs_subtype := im_pfs_subtype m; im_uflags := im_uflags m; im_rmajor := im_rmajor m;
          im_rminor := im_rminor m; im_ctime := now; im_mtime := now; im_atime := im_atime m;
          im_btime := now; im_uid := im_uid m; im_gid := im_gid m; im_type := HAMMER2_OBJTYPE_DIRECTORY;
          im_op_flags := im_op_flags m .| HAMMER2_OPFLAG_PFSROOT; im_cap_flags := im_cap_flags m;
          im_mode := 0x1ED (* 0755 *); im_inum := 1; im_size := im_size m; im_nlinks := 1;
          im_iparent := im_iparent m; im_name_key := key; im_name_len := u16 (Z.of_nat (length label));
          im_ncopies := im_ncopies m;
          im_comp_algo := if strcaseeq label str_BOOT then HAMMER2_COMP_AUTOZERO else u8 (CompType opt);
          im_target_type := im_target_type m; im_check_algo := HAMMER2_CHECK_XXHASH64;
          im_pfs_nmasters := im_pfs_nmasters m; im_pfs_type := HAMMER2_PFSTYPE_MASTER; im_pfs_inum := 16;
          im_pfs_clid := clid; im_pfs_fsid := fsid; im_data_quota := im_data_quota m;
          im_unusedB8 := im_unusedB8 m; im_inode_quota := im_inode_quota m; im_unusedC8 := im_unusedC8 m;
          im_pfs_lsnap_tid := im_pfs_lsnap_tid m; im_reservedD8 := im_reservedD8 m;
          im_decrypt_check := im_decrypt_check m; im_reservedE8 := im_reservedE8 m |};
     id_filename := splice (id_filename rawip) 0 label;
     id_u := id_u rawip |}.

(** The assignments to the super-root inode: [snprintf] stores "SUPROOT" with its
    terminator, the block set gets the (at most four) root block references. *)
Definition set_sroot_inode (opt : hammer2_mkfs_options) (brefs : list hammer2_blockref)
    (rawip : hammer2_inode_data) : hammer2_inode_data :=
  let m := id_meta rawip in
  {| id_meta :=
       {| im_version := HAMMER2_INODE_VERSION_ONE; im_reserved02 := im_reserved02 m;
          im_pfs_subtype := im_pfs_subtype m; im_uflags := im_uflags m; im_rmajor := im_rmajor m;
          im_rminor := im_rminor m; im_ctime := now; im_mtime := now; im_atime := im_atime m;
          im_btime := now; im_uid := im_uid m; im_gid := im_gid m; im_type := HAMMER2_OBJTYPE_DIRECTORY;
          im_op_flags := im_op_flags m; im_cap_flags := im_cap_flags m;
          im_mode := 0x1C0 (* 0700 *); im_inum := 0; im_size := im_size m; im_nlinks := 2;
          im_iparent := im_iparent m; im_name_key := 0; im_name_len := u16 (Z.of_nat (length str_SUPROOT));
          im_ncopies := im_ncopies m; im_comp_algo := HAMMER2_COMP_AUTOZERO;
          im_target_type := im_target_type m; im_check_algo := HAMMER2_CHECK_XXHASH64;
          im_pfs_nmasters := im_pfs_nmasters m; im_pfs_type := HAMMER2_PFSTYPE_SUPROOT; im_pfs_inum := 0;
          im_pfs_clid := Hammer2_SupCLID opt; im_pfs_fsid := Hammer2_SupFSID opt;
          im_data_quota := im_data_quota m; im_unusedB8 := im_unusedB8 m; im_inode_quota := im_inode_quota m;
          im_unusedC8 := im_unusedC8 m; im_pfs_lsnap_tid := im_pfs_lsnap_tid m;
          im_reservedD8 := im_reservedD8 m; im_decrypt_check := im_decrypt_check m;
          im_reservedE8 := im_reservedE8 m |};
     id_filename := splice (id_filename rawip) 0 (str_SUPROOT ++ [0]);
     id_u := splice (id_u rawip) 0 (enc_array brefs) |}.

(** The assignments to a block reference after [alloc_direct]. *)
Definition set_inode_bref (key comp flags check : Z) (b : hammer2_blockref) : hammer2_blockref :=
  {| bref_type := HAMMER2_BREF_TYPE_INODE;
     bref_methods := HAMMER2_ENC_CHECK HAMMER2_CHECK_XXHASH64 .| HAMMER2_ENC_COMP comp;
     bref_copyid := HAMMER2_COPYID_LOCAL; bref_keybits := 0; bref_vradix := bref_vradix b; bref_flags := flags;
     bref_leaf_count := bref_leaf_count b; bref_key := key; bref_mirror_tid := 16;
     bref_modify_tid := bref_modify_tid b; bref_data_off := bref_data_off b; bref_update_tid := bref_update_tid b;
     bref_embed := bref_embed b; bref_check := splice (bref_check b) 0 (le_bytes 8 check) |}.

(** One turn of the loop over the labels; the block, the next free address and the block
    reference. *)
Definition format_root (opt : hammer2_mkfs_options) (sroot_off : Z) (i : nat) (label : bytes) (buf : bytes)
    (alloc_base : Z) : H (bytes * Z * hammer2_blockref) :=
  let clid := uuid_generate (3 + 2 * i) in
  let fsid := uuid_generate (4 + 2 * i) in
  '(alloc_base, bref) ← alloc_direct alloc_base HAMMER2_INODE_BYTES;
  assertp (bool_decide ((sroot_off .^ bref_data_off bref) .& bnot 64 HAMMER2_PBUFMASK = 0));;
  let off := Z.to_nat (HAMMER2_OFF_MASK_LO .& bref_data_off bref) in
  let rawip := read_at hammer2_inode_data buf off in
  if bool_decide (Z.of_nat (length label) <= HAMMER2_INODE_MAXNAME) then
    key ← deref (dirhash (addr + Z.of_nat off + 256) (splice (id_filename rawip) 0 label) (Z.of_nat (length label)));
    let rawip := set_root_inode opt label clid fsid key rawip in
    let buf := write_at buf off rawip in
    let check := h2_XXH64 (take (Z.to_nat HAMMER2_INODE_BYTES) (drop off buf)) XXH_HAMMER2_SEED in
    mret (buf, alloc_base, set_inode_bref key HAMMER2_COMP_NONE HAMMER2_BREF_FLAG_PFSROOT check bref)
  else stop_with Undef.

Fixpoint format_roots (opt : hammer2_mkfs_options) (sroot_off : Z) (i : nat) (labels : list bytes) (buf : bytes)
    (alloc_base : Z) : H (bytes * Z * list hammer2_blockref) :=
  match labels with
  | [] => mret (buf, alloc_base, [])
  | label :: labels =>
      '(buf, alloc_base, bref) ← format_root opt sroot_off i label buf alloc_base;
      '(buf, alloc_base, brefs) ← format_roots opt sroot_off (S i) labels buf alloc_base;
      mret (buf, alloc_base, bref :: brefs)
  end.

(** The new [alloc_base] and [*sroot_blockrefp]. *)
Definition format_hammer2_inode (vol : hammer2_volume) (opt : hammer2_mkfs_options) (alloc_base : Z)
    : H (Z * hammer2_blockref) :=
  let alloc_base := alloc_base .& bnot 64 HAMMER2_PBUFMASK in
  '(alloc_base, sroot) ← alloc_direct alloc_base HAMMER2_INODE_BYTES;
  '(buf, alloc_base, roots) ← format_roots opt (bref_data_off sroot) 0 (Label opt) zero_pbuf alloc_base;
  let off := Z.to_nat (HAMMER2_OFF_MASK_LO .& bref_data_off sroot) in
  let rawip := set_sroot_inode opt (qsort roots) (read_at hammer2_inode_data buf off) in
  let buf := write_at buf off rawip in
  let check := h2_XXH64 (take (Z.to_nat HAMMER2_INODE_BYTES) (drop off buf)) XXH_HAMMER2_SEED in
  let sroot := set_inode_bref (bref_key sroot) HAMMER2_COMP_AUTOZERO (bref_flags sroot) check sroot in
  assertp (bool_decide (bref_data_off sroot .& bnot 64 HAMMER2_PBUFMASK
                        = u64 (alloc_base - 1) .& bnot 64 HAMMER2_PBUFMASK));;
  write_pbuf (hv_fd vol) buf (bref_data_off sroot .& bnot 64 HAMMER2_PBUFMASK);;
  mret (alloc_base, sroot).

(** [volu_loff]: the offset of each volume, -1 past the last. *)
Definition loffs (fso : hammer2_ondisk) : list Z :=
  imap (λ i v, if bool_decide (Z.of_nat i < o_nvolumes fso) then hv_offset v else u64 (-1)) (o_volumes fso).

(** The volume header before its checksums are stored. *)
Definition volume_header (fso : hammer2_ondisk) (opt : hammer2_mkfs_options) (vol : hammer2_volume)
    (boot_base aux_base alloc_base : Z) (sroot_blockset : list hammer2_blockref) : hammer2_volume_data :=
  let root := bool_decide (hv_id vol = HAMMER2_ROOT_VOLUME) in
  let version := u32 (Hammer2Version opt) in
  let multi := bool_decide (HAMMER2_VOL_VERSION_MULTI_VOLUMES <= version) in
  {| vd_magic := HAMMER2_VOLUME_ID_HBO; vd_boot_beg := if root then boot_base else 0;
     vd_boot_end := if root then u64 (boot_base + opt_BootAreaSize opt) else 0;
     vd_aux_beg := if root then aux_base else 0;
     vd_aux_end := if root then u64 (aux_base + opt_AuxAreaSize opt) else 0; vd_volu_size := hv_size vol;
     vd_version := version; vd_flags := 0; vd_copyid := 0; vd_freemap_version := 0;
     vd_peer_type := DMSG_PEER_HAMMER2; vd_volu_id := if multi then u8 (hv_id vol) else 0;
     vd_nvolumes := if multi then u8 (o_nvolumes fso) else 0; vd_reserved003D := 0; vd_reserved003E := 0;
     vd_fsid := Hammer2_VolFSID opt; vd_fstype := Hammer2_FSType opt; vd_allocator_size := o_free_size fso;
     vd_allocator_free := if root then o_free_size fso else 0;
     vd_allocator_beg := if root then alloc_base else 0; vd_mirror_tid := 16; vd_reserved0080 := 0;
     vd_reserved0088 := 0; vd_freemap_tid := 16; vd_bulkfree_tid := 0; vd_reserved00A0 := replicate 4 0;
     vd_total_size := if multi then o_total_size fso else 0; vd_copyexists := replicate 8 0;
     vd_reserved00E8 := replicate 248 0; vd_icrc_sects := replicate 8 0; vd_sroot_blockset := sroot_blockset;
     vd_sector2 := replicate 512 0; vd_sector3 := replicate 512 0;
     vd_freemap_blockset := replicate 4 zero_bref; vd_sector5 := replicate 512 0;
     vd_sector6 := replicate 512 0; vd_volu_loff := if multi then loffs fso else replicate 64 0;
     vd_copyinfo := replicate COPYINFO_BYTES 0; vd_reserved9000 := replicate RESERVED9000_BYTES 0;
     vd_icrc_volheader := 0 |}.

(** Field updates. *)
Definition set_icrc_sect (i : nat) (v : Z) (x : hammer2_volume_data) : hammer2_volume_data :=
  {| vd_magic := vd_magic x; vd_boot_beg := vd_boot_beg x; vd_boot_end := vd_boot_end x;
     vd_aux_beg := vd_aux_beg x; vd_aux_end := vd_aux_end x; vd_volu_size := vd_volu_size x;
     vd_version := vd_version x; vd_flags := vd_flags x; vd_copyid := vd_copyid x;
     vd_freemap_version := vd_freemap_version x; vd_peer_type := vd_peer_type x; vd_volu_id := vd_volu_id x;
     vd_nvolumes := vd_nvolumes x; vd_reserved003D := vd_reserved003D x; vd_reserved003E := vd_reserved003E x;
     vd_fsid := vd_fsid x; vd_fstype := vd_fstype x; vd_allocator_size := vd_allocator_size x;
     vd_allocator_free := vd_allocator_free x; vd_allocator_beg := vd_allocator_beg x;
     vd_mirror_tid := vd_mirror_tid x; vd_reserved0080 := vd_reserved0080 x;
     vd_reserved0088 := vd_reserved0088 x; vd_freemap_tid := vd_freemap_tid x;
     vd_bulkfree_tid := vd_bulkfree_tid x; vd_reserved00A0 := vd_reserved00A0 x;
     vd_total_size := vd_total_size x; vd_copyexists := vd_copyexists x; vd_reserved00E8 := vd_reserved00E8 x;
     vd_icrc_sects := <[i := v]> (vd_icrc_sects x); vd_sroot_blockset := vd_sroot_blockset x;
     vd_sector2 := vd_sector2 x; vd_sector3 := vd_sector3 x; vd_freemap_blockset := vd_freemap_blockset x;
     vd_sector5 := vd_sector5 x; vd_sector6 := vd_sector6 x; vd_volu_loff := vd_volu_loff x;
     vd_copyinfo := vd_copyinfo x; vd_reserved9000 := vd_reserved9000 x;
     vd_icrc_volheader := vd_icrc_volheader x |}.
Definition set_icrc_volheader (v : Z) (x : hammer2_volume_data) : hammer2_volume_data :=
  {| vd_magic := vd_magic x; vd_boot_beg := vd_boot_beg x; vd_boot_end := vd_boot_end x;
     vd_aux_beg := vd_aux_beg x; vd_aux_end := vd_aux_end x; vd_volu_size := vd_volu_size x;
     vd_version := vd_version x; vd_flags := vd_flags x; vd_copyid := vd_copyid x;
     vd_freemap_version := vd_freemap_version x; vd_peer_type := vd_peer_type x; vd_volu_id := vd_volu_id x;
     vd_nvolumes := vd_nvolumes x; vd_reserved003D := vd_reserved003D x; vd_reserved003E := vd_reserved003E x;
     vd_fsid := vd_fsid x; vd_fstype := vd_fstype x; vd_allocator_size := vd_allocator_size x;
     vd_allocator_free := vd_allocator_free x; vd_allocator_beg := vd_allocator_beg x;
     vd_mirror_tid := vd_mirror_tid x; vd_reserved0080 := vd_reserved0080 x;
     vd_reserved0088 := vd_reserved0088 x; vd_freemap_tid := vd_freemap_tid x;
     vd_bulkfree_tid := vd_bulkfree_tid x; vd_reserved00A0 := vd_reserved00A0 x;
     vd_total_size := vd_total_size x; vd_copyexists := vd_copyexists x; vd_reserved00E8 := vd_reserved00E8 x;
     vd_icrc_sects := vd_icrc_sects x; vd_sroot_blockset := vd_sroot_blockset x; vd_sector2 := vd_sector2 x;
     vd_sector3 := vd_sector3 x; vd_freemap_blockset := vd_freemap_blockset x; vd_sector5 := vd_sector5 x;
     vd_sector6 := vd_sector6 x; vd_volu_loff := vd_volu_loff x; vd_copyinfo := vd_copyinfo x;
     vd_reserved9000 := vd_reserved9000 x; vd_icrc_volheader := v |}.

(** The three checksums, each over the image of the header as it is by then. *)
Definition header_icrc32 (vd : hammer2_volume_data) (off size : Z) : H Z :=
  deref (hammer2_icrc32 (addr + off) (drop (Z.to_nat off) (encode vd)) size).
Definition set_header_crcs (vd : hammer2_volume_data) : H hammer2_volume_data :=
  crc ← header_icrc32 vd HAMMER2_VOLUME_ICRC1_OFF HAMMER2_VOLUME_ICRC1_SIZE;
  let vd := set_icrc_sect HAMMER2_VOL_ICRC_SECT1 crc vd in
  crc ← header_icrc32 vd HAMMER2_VOLUME_ICRC0_OFF HAMMER2_VOLUME_ICRC0_SIZE;
  let vd := set_icrc_sect HAMMER2_VOL_ICRC_SECT0 crc vd in
  crc ← header_icrc32 vd HAMMER2_VOLUME_ICRCVH_OFF HAMMER2_VOLUME_ICRCVH_SIZE;
  mret (set_icrc_volheader crc vd).

(** The loop over the copies of the header, [n] of them left. *)
Fixpoint write_headers (fd : Z) (buf : bytes) (size : Z) (n : nat) (i : Z) : H () :=
  match n with
  | O => mret ()
  | S n =>
      if bool_decide (size <= i * HAMMER2_ZONE_BYTES64) then mret ()
      else write_pbuf fd buf (i * HAMMER2_ZONE_BYTES64);; write_headers fd buf size n (i + 1)
  end.

Definition format_hammer2 (fso : hammer2_ondisk) (opt : hammer2_mkfs_options) (index : nat) : H () :=
  vol ← deref (o_volumes fso !! index);
  let boot_base := HAMMER2_ZONE_SEG in
  let aux_base := u64 (boot_base + opt_BootAreaSize opt) in
  write_pbuf (hv_fd vol) zero_pbuf (s64 (u64 (hv_size vol - HAMMER2_PBUFSIZE)));;
  '(alloc_base, sroot_blockset) ←
    (if bool_decide (hv_id vol = HAMMER2_ROOT_VOLUME) then
       alloc_base ← format_hammer2_misc vol opt boot_base aux_base;
       '(alloc_base, sroot) ← format_hammer2_inode vol opt alloc_base;
       mret (alloc_base, sroot :: replicate 3 zero_bref)
     else mret (0, replicate (Z.to_nat HAMMER2_SET_COUNT) invalid_bref));
  assertp (bool_decide (HAMMER2_VOLUME_BYTES <= HAMMER2_PBUFSIZE));;
  let voldata := volume_header fso opt vol boot_base aux_base alloc_base sroot_blockset in
  assertp (bool_decide (hv_id vol = HAMMER2_ROOT_VOLUME) || bool_decide (alloc_base = 0));;
  voldata ← set_header_crcs voldata;
  write_headers (hv_fd vol) (encode voldata) (hv_size vol) (Z.to_nat HAMMER2_NUM_VOLHDRS) 0.

(** The loop of [hammer2_mkfs] that opens the devices; [i] are open, [n] is [ac]. *)
Fixpoint open_volumes (av : list bytes) (i : nat) (n : Z) (fso : hammer2_ondisk) : H hammer2_ondisk :=
  match av with
  | [] => mret fso
  | path :: av =>
      fd ← sys_open path true;
      match fd with
      | None => errx
      | Some fd =>
          size ← check_volume fd;
          let mask := if bool_decide (Z.of_nat i = n - 1) then HAMMER2_VOLUME_ALIGNMASK
                      else HAMMER2_FREEMAP_LEVEL1_MASK in
          let size := size .& bnot 64 mask in
          if bool_decide (i < length (o_volumes fso))%nat then
            let vol := hammer2_install_volume fd (Z.of_nat i) path (o_total_size fso) size in
            open_volumes av (S i) n
              (set_o_volumes (<[i := vol]> (o_volumes fso)) (u64 (o_total_size fso + size)) fso)
          else stop_with Undef
      end
  end.

(** [for (i = 0; i < fso.nvolumes; ++i)] over [format_hammer2] and over
    [hammer2_uninstall_volume]. *)
Fixpoint format_volumes (fso : hammer2_ondisk) (opt : hammer2_mkfs_options) (n i : nat) : H () :=
  match n with
  | O => mret ()
  | S n => format_hammer2 fso opt i;; format_volumes fso opt n (S i)
  end.
Fixpoint uninstall_volumes (vols : list hammer2_volume) : H () :=
  match vols with
  | [] => mret ()
  | vol :: vols => _ ← hammer2_uninstall_volume vol; uninstall_volumes vols
  end.

Definition set_o_version (version nvolumes : Z) (o : hammer2_ondisk) : hammer2_ondisk :=
  set_o_header version nvolumes (o_fsid o) (o_fstype o) o.

Definition hammer2_mkfs (av : list bytes) (opt : hammer2_mkfs_options) : H () :=
  let ac := Z.of_nat (length av) in
  fso ← open_volumes av 0 ac (set_o_version (Hammer2Version opt) ac hammer2_init_ondisk);
  fso ← hammer2_verify_volumes fso None;
  opt ← adjust_options fso opt;
  let reserved_size := u64 (u64 (o_total_size fso + HAMMER2_FREEMAP_LEVEL1_MASK)
                            / HAMMER2_FREEMAP_LEVEL1_SIZE * HAMMER2_ZONE_SEG) in
  let free_size := u64 (o_total_size fso - reserved_size - opt_BootAreaSize opt - opt_AuxAreaSize opt) in
  let fso := set_o_free_size free_size fso in
  errx_if (bool_decide (s64 free_size < 0));;
  format_volumes fso opt (Z.to_nat (o_nvolumes fso)) 0;;
  uninstall_volumes (take (Z.to_nat (o_nvolumes fso)) (o_volumes fso)).

(** ** Options ([main]) *)

Inductive h2_opt := H2_L (arg : bytes) | H2_b (arg : bytes) | H2_r (arg : bytes) | H2_V (arg : bytes) | H2_d | H2_other.

(** One turn of the option loop; [label_specified] and the options. *)
Definition h2_parse_option (o : h2_opt) (st : bool * hammer2_mkfs_options) : H (bool * hammer2_mkfs_options) :=
  let '(label_specified, opt) := st in
  match o with
  | H2_b arg =>
      v ← h2_getsize arg HAMMER2_NEWFS_ALIGN HAMMER2_BOOT_MAX_BYTES 2;
      mret (label_specified, set_areas (u64 v) (opt_AuxAreaSize opt) opt)
  | H2_r arg =>
      v ← h2_getsize arg HAMMER2_NEWFS_ALIGN HAMMER2_AUX_MAX_BYTES 2;
      mret (label_specified, set_areas (opt_BootAreaSize opt) (u64 v) opt)
  | H2_V arg =>
      let v := s32 (fst (strtoll arg)) in
      errx_if (bool_decide (v < HAMMER2_VOL_VERSION_MIN) || bool_decide (HAMMER2_VOL_VERSION_WIP <= v));;
      mret (label_specified, set_Hammer2Version v opt)
  | H2_L arg =>
      if strcaseeq arg str_none then mret (true, opt)
      else
        errx_if (bool_decide (MAXLABELS <= NLabels opt));;
        errx_if (bool_decide (arg = []));;
        errx_if (bool_decide (HAMMER2_INODE_MAXNAME <= Z.of_nat (length arg)));;
        opt ← push_label arg opt;
        mret (true, opt)
  | H2_d => mret (label_specified, set_DebugOpt true opt)
  | H2_other => errx
  end.
Fixpoint h2_parse_options (os : list h2_opt) (st : bool * hammer2_mkfs_options) : H (bool * hammer2_mkfs_options) :=
  match os with
  | [] => mret st
  | o :: os => st ← h2_parse_option o st; h2_parse_options os st
  end.

(** The default label, from the last character of the first device: 'a' or 'd'. *)
Definition default_label (label_specified : bool) (av : list bytes) (opt : hammer2_mkfs_options)
    : H hammer2_mkfs_options :=
  if label_specified then mret opt
  else
    dev ← deref (head av);
    c ← deref (last dev);
    mret (set_DefaultLabelType
            (if bool_decide (c = 97) then HAMMER2_LABEL_BOOT
             else if bool_decide (c = 100) then HAMMER2_LABEL_ROOT else HAMMER2_LABEL_DATA) opt).

(** [main]: the options, then the devices. *)
Definition newfs_hammer2 (os : list h2_opt) (av : list bytes) : H () :=
  opt ← hammer2_mkfs_init;
  '(label_specified, opt) ← h2_parse_options os (false, opt);
  errx_if (bool_decide (av = []));;
  errx_if (bool_decide (HAMMER2_MAX_VOLUMES < Z.of_nat (length av)));;
  opt ← default_label label_specified av opt;
  hammer2_mkfs av opt.
End mkfs.
