(* ===== verification/H2Header.v ===== *)
(** * H2Header: the volume header and its checksums

    The three checksums newfs_hammer2 stores in a volume header are the ones
    [hammer2_read_volume_header] tests, and the header it chooses is the good one with the
    highest [mirror_tid]. *)

From S2P Require Import Prelude HammerDisk Layout Crc32 HammerCrc CMonad Ondisk CacheInv H2Disk H2Volumes H2Mkfs.

#[local] Opaque Z.to_nat.

(** ** Changing one field of an image *)

Lemma slice_splice_ne (bs : bytes) off xs k n :
  (off + length xs <= length bs)%nat -> (k + n <= off \/ off + length xs <= k)%nat ->
  take n (drop k (splice bs off xs)) = take n (drop k bs).
Proof.
  intros Hl Hd. apply list_eq. intros i. destruct (decide (i < n)%nat).
  - rewrite !lookup_take_lt, !lookup_drop by done. apply lookup_splice_ne; lia.
  - by rewrite !lookup_take_ge by lia.
Qed.

Lemma encode_chunk {A} `{OnDisk A} (a a' : A) k (c c' : bytes) :
  valid a -> chunks a !! k = Some c -> chunks a' = <[k := c']> (chunks a) -> length c' = length c ->
  encode a' = splice (encode a) (offsetof A k) c' /\ (offsetof A k + length c' <= length (encode a))%nat.
Proof.
  intros Ha Hc Ha' Hl. pose proof (length_before k a Ha) as Hb. pose proof (lookup_lt_Some _ _ _ Hc) as Hk.
  assert (encode a = before k a ++ c ++ after k a) as He.
  { rewrite (encode_before k). f_equal. by rewrite (drop_S _ c) by done. }
  split; [|rewrite He, !length_app; lia].
  unfold encode at 1. rewrite Ha', insert_take_drop, concat_app by done. cbn [concat].
  fold (before k a) (after k a). unfold splice. rewrite He, Hl, <- Hb.
  rewrite take_app_length, (app_assoc _ c), <- length_app, drop_app_length. done.
Qed.

Lemma length_insert_ints w i v l : length (enc_ints w (<[i := v]> l)) = length (enc_ints w l).
Proof.
  assert (forall l, length (enc_ints w l) = (length l * w)%nat) as Hl.
  { intros l'. unfold enc_ints. induction l' as [|x l' IH]; [done|].
    rewrite bind_cons, length_app, le_bytes_length, IH. done. }
  by rewrite !Hl, length_insert.
Qed.

(** Bytes of the array outside element [i] stay. *)
Lemma enc_ints_insert_ne w i v l k :
  (k < i * w \/ (i + 1) * w <= k)%nat -> enc_ints w (<[i := v]> l) !! k = enc_ints w l !! k.
Proof.
  unfold enc_ints. revert i k. induction l as [|x l IH]; intros i k Hk; [done|].
  destruct i as [|i]; cbn [insert list_insert]; rewrite !bind_cons.
  - rewrite !lookup_app_r by (rewrite le_bytes_length; lia). by rewrite !le_bytes_length.
  - change (list_insert i v l) with (<[i := v]> l).
    destruct (decide (k < w)%nat).
    + by rewrite !lookup_app_l by (rewrite le_bytes_length; lia).
    + rewrite !lookup_app_r by (rewrite le_bytes_length; lia). rewrite le_bytes_length. apply IH. lia.
Qed.

(** ** Updates of the checksums of a header *)

Lemma sect_chunks i v vd :
  chunks (set_icrc_sect i v vd) = <[29%nat := enc_ints 4 (<[i := v]> (vd_icrc_sects vd))]> (chunks vd).
Proof. by destruct vd. Qed.
Lemma volheader_chunks v vd : chunks (set_icrc_volheader v vd) = <[39%nat := le_bytes 4 v]> (chunks vd).
Proof. by destruct vd. Qed.

(** Fields that did not change. *)
Ltac valid_update Hv := hnf in Hv |- *; destruct_and? Hv; split_and!; try assumption.

Lemma set_icrc_sect_valid i v vd : valid vd -> in_u 32 v -> valid (set_icrc_sect i v vd).
Proof.
  intros Hvd Hv. valid_update Hvd.
  match goal with H : valid_ints 4 8 (vd_icrc_sects vd) |- _ => destruct H as [Hl HF] end.
  split; [by cbn; rewrite length_insert|by apply Forall_insert].
Qed.
Lemma set_icrc_volheader_valid v vd : valid vd -> in_u 32 v -> valid (set_icrc_volheader v vd).
Proof. intros Hvd Hv. by valid_update Hvd. Qed.

Lemma lookup_splice_in (bs : bytes) off xs j :
  (off <= j < off + length xs)%nat -> (off + length xs <= length bs)%nat ->
  splice bs off xs !! j = xs !! (j - off)%nat.
Proof.
  intros Hj Hl. unfold splice. rewrite lookup_app_r by (rewrite length_take; lia).
  rewrite length_take, Nat.min_l, lookup_app_l by lia. done.
Qed.

Lemma offsetof_icrc_sects : offsetof hammer2_volume_data 29 = 480%nat.
Proof. vm_compute. reflexivity. Qed.
Lemma offsetof_icrc_volheader : offsetof hammer2_volume_data 39 = Z.to_nat 65532.
Proof. apply Nat2Z.inj. rewrite Z2Nat.id by done. apply h2_sizeof_eqs. Qed.
Lemma sizeof_volume_data : sizeof hammer2_volume_data = Z.to_nat 65536.
Proof. apply Nat2Z.inj. rewrite Z2Nat.id by done. apply h2_sizeof_eqs. Qed.

Lemma length_header vd : valid vd -> length (encode (A := hammer2_volume_data) vd) = Z.to_nat 65536.
Proof. intros Hv. by rewrite length_encode, sizeof_volume_data. Qed.

Lemma valid_sects vd : valid vd -> valid_ints 4 8 (vd_icrc_sects vd).
Proof. intros Hv. hnf in Hv. by destruct_and? Hv. Qed.

Lemma sect_slice i v vd k n :
  valid vd -> (k + n <= 480 + i * 4 \/ 480 + (i + 1) * 4 <= k)%nat ->
  take n (drop k (encode (set_icrc_sect i v vd))) = take n (drop k (encode vd)).
Proof.
  intros Hv Hd. pose proof (valid_sects vd Hv) as Hs. pose proof (length_enc_ints 4 8 _ Hs) as Hl.
  destruct (encode_chunk vd (set_icrc_sect i v vd) 29 _ _ Hv eq_refl (sect_chunks i v vd)) as [-> Hle];
    [apply length_insert_ints|].
  destruct (encode_chunk vd vd 29 (enc_ints 4 (vd_icrc_sects vd)) (enc_ints 4 (vd_icrc_sects vd)) Hv eq_refl)
    as [He _]; [by destruct vd|done|].
  rewrite offsetof_icrc_sects in *. rewrite length_insert_ints in Hle.
  apply list_eq. intros j. destruct (decide (j < n)%nat); [|by rewrite !lookup_take_ge by lia].
  rewrite !lookup_take_lt, !lookup_drop by done.
  destruct (decide (480 <= k + j < 512)%nat).
  - rewrite He at 2. rewrite !lookup_splice_in by (rewrite ?length_insert_ints; lia).
    apply enc_ints_insert_ne. lia.
  - apply lookup_splice_ne; rewrite length_insert_ints; lia.
Qed.

Lemma volheader_slice v vd k n :
  valid vd -> (k + n <= Z.to_nat 65532)%nat ->
  take n (drop k (encode (set_icrc_volheader v vd))) = take n (drop k (encode vd)).
Proof.
  intros Hv Hd.
  destruct (encode_chunk vd (set_icrc_volheader v vd) 39 _ _ Hv eq_refl (volheader_chunks v vd)) as [-> Hle];
    [by rewrite !le_bytes_length|].
  rewrite offsetof_icrc_volheader in *. apply slice_splice_ne; [done|lia].
Qed.

(** ** The tests of a header *)

(** The bytes a checksum covers. *)
Definition region (p : bytes) (off size : Z) : bytes := take (Z.to_nat size) (drop (Z.to_nat off) p).

Lemma region_ok p off size : bytes_ok p -> bytes_ok (region p off size).
Proof. intros Hp. by apply Forall_take, Forall_drop. Qed.

Lemma icrc32_slice addr (p : bytes) (off size : Z) :
  0 <= off -> in_u 32 size -> bytes_ok p -> off + size <= Z.of_nat (length p) ->
  hammer2_icrc32 addr (drop (Z.to_nat off) p) size = Some (crc32c_spec (region p off size)).
Proof.
  intros Ho Hs Hp Hl. unfold hammer2_icrc32, region.
  assert (length (take (Z.to_nat size) (drop (Z.to_nat off) p)) = Z.to_nat size) as Hlen.
  { rewrite length_take, length_drop. unfold in_u in Hs. lia. }
  pose proof (iscsi_crc32_ref_eq addr (take (Z.to_nat size) (drop (Z.to_nat off) p))
                (drop (Z.to_nat size) (drop (Z.to_nat off) p))) as Href.
  rewrite take_drop, Hlen, Z2Nat.id in Href by (unfold in_u in Hs; lia).
  apply Href; [|done]. by apply Forall_take, Forall_drop.
Qed.

(** What the tests of [hammer2_read_volume_header] check. *)
Definition tests_ok (vd : hammer2_volume_data) (p : bytes) : bool :=
  bool_decide (vd_magic vd = HAMMER2_VOLUME_ID_HBO) &&
  bool_decide (vd_icrc_sects vd !! HAMMER2_VOL_ICRC_SECT0
               = Some (crc32c_spec (region p HAMMER2_VOLUME_ICRC0_OFF HAMMER2_VOLUME_ICRC0_SIZE))) &&
  bool_decide (vd_icrc_sects vd !! HAMMER2_VOL_ICRC_SECT1
               = Some (crc32c_spec (region p HAMMER2_VOLUME_ICRC1_OFF HAMMER2_VOLUME_ICRC1_SIZE))) &&
  bool_decide (vd_icrc_volheader vd
               = crc32c_spec (region p HAMMER2_VOLUME_ICRCVH_OFF HAMMER2_VOLUME_ICRCVH_SIZE)).
Definition header_ok (p : bytes) : bool := tests_ok (decode p) p.

Lemma length_split_widths ws (bs : bytes) : length (split_widths ws bs) = length ws.
Proof. revert bs. induction ws as [|w ws IH]; intros bs; [done|]. cbn. by rewrite IH. Qed.

Lemma of_chunks_sects cs :
  length cs = 40%nat -> length (vd_icrc_sects (of_chunks (A := hammer2_volume_data) cs)) = 8%nat.
Proof.
  intros Hl. do 40 (destruct cs as [|? cs]; [done|]). destruct cs; [|done].
  cbn [of_chunks hammer2_volume_data_ondisk vd_icrc_sects]. unfold dec_ints.
  by rewrite length_fmap, length_split_widths, length_replicate.
Qed.

Lemma decode_sects p : length (vd_icrc_sects (decode (A := hammer2_volume_data) p)) = 8%nat.
Proof. unfold decode. apply of_chunks_sects. by rewrite length_split_widths. Qed.

Lemma header_tests_spec addr vd p (s : h2state) :
  length (vd_icrc_sects vd) = 8%nat -> bytes_ok p -> Z.of_nat (length p) = 65536 ->
  header_tests addr vd p s = Ok (tests_ok vd p) s.
Proof.
  intros H8 Hp Hl. unfold header_tests, tests_ok.
  destruct (decide (vd_magic vd = HAMMER2_VOLUME_ID_HBO)) as [Hm|Hm].
  2:{ rewrite (bool_decide_eq_false_2 _ Hm). cbn [andb].
      destruct (decide (vd_magic vd = HAMMER2_VOLUME_ID_ABO)) as [Ha|Ha].
      - rewrite (bool_decide_eq_true_2 _ Ha), (bool_decide_eq_false_2 (vd_magic vd ≠ HAMMER2_VOLUME_ID_ABO)) by auto.
        by rewrite andb_false_r.
      - by rewrite (bool_decide_eq_true_2 _ Hm), (bool_decide_eq_true_2 _ Ha). }
  rewrite (bool_decide_eq_true_2 _ Hm), (bool_decide_eq_false_2 (vd_magic vd ≠ HAMMER2_VOLUME_ID_HBO)) by auto.
  rewrite (bool_decide_eq_false_2 (vd_magic vd = HAMMER2_VOLUME_ID_ABO)) by (rewrite Hm; done). cbn [andb].
  destruct (lookup_lt_is_Some_2 (vd_icrc_sects vd) HAMMER2_VOL_ICRC_SECT0) as [c7 H7];
    [rewrite H8; unfold HAMMER2_VOL_ICRC_SECT0; lia|].
  destruct (lookup_lt_is_Some_2 (vd_icrc_sects vd) HAMMER2_VOL_ICRC_SECT1) as [c6 H6];
    [rewrite H8; unfold HAMMER2_VOL_ICRC_SECT1; lia|].
  rewrite H7, H6. unfold icrc32_at. rewrite !icrc32_slice by (done || h2_unfold; lia).
  generalize (crc32c_spec (region p HAMMER2_VOLUME_ICRC0_OFF HAMMER2_VOLUME_ICRC0_SIZE)),
    (crc32c_spec (region p HAMMER2_VOLUME_ICRC1_OFF HAMMER2_VOLUME_ICRC1_SIZE)),
    (crc32c_spec (region p HAMMER2_VOLUME_ICRCVH_OFF HAMMER2_VOLUME_ICRCVH_SIZE)). intros d7 d6 dv.
  unfold mbind, prog_bind, deref, mret, prog_ret. cbn beta iota.
  destruct (decide (c7 = d7)) as [->|]; [|by rewrite (bool_decide_eq_true_2 (c7 ≠ d7)), (bool_decide_eq_false_2 (Some c7 = Some d7)) by congruence].
  rewrite (bool_decide_eq_false_2 (d7 ≠ d7)), (bool_decide_eq_true_2 (Some d7 = Some d7)) by auto.
  destruct (decide (c6 = d6)) as [->|]; [|by rewrite (bool_decide_eq_true_2 (c6 ≠ d6)), (bool_decide_eq_false_2 (Some c6 = Some d6)) by congruence].
  by rewrite (bool_decide_eq_false_2 (d6 ≠ d6)), (bool_decide_eq_true_2 (Some d6 = Some d6)) by auto.
Qed.

Lemma header_good_spec addr p (s : h2state) :
  bytes_ok p -> Z.of_nat (length p) = 65536 -> header_good addr p s = Ok (header_ok p) s.
Proof. intros Hp Hl. apply header_tests_spec; [apply decode_sects|exact Hp|exact Hl]. Qed.

Lemma crc32c_spec_range bs : bytes_ok bs -> in_u 32 (crc32c_spec bs).
Proof.
  intros Hb. unfold crc32c_spec. apply in_u_bnot; [done|].
  apply crc_ref_range; [apply poly_crc32c_ok|done|]. by apply in_u_bnot.
Qed.

Lemma header_icrc32_spec addr vd off size (s : h2state) :
  valid vd -> 0 <= off -> in_u 32 size -> off + size <= 65536 ->
  header_icrc32 addr vd off size s = Ok (crc32c_spec (region (encode vd) off size)) s.
Proof.
  intros Hv Ho Hs Hl. unfold header_icrc32. rewrite icrc32_slice; [done|done|done|by apply encode_ok|].
  rewrite length_header by done. lia.
Qed.

Definition with_crcs (c1 c0 cv : Z) (vd : hammer2_volume_data) : hammer2_volume_data :=
  set_icrc_volheader cv (set_icrc_sect HAMMER2_VOL_ICRC_SECT0 c0 (set_icrc_sect HAMMER2_VOL_ICRC_SECT1 c1 vd)).

Lemma set_header_crcs_spec addr vd (s : h2state) :
  valid vd -> vd_magic vd = HAMMER2_VOLUME_ID_HBO ->
  exists c1 c0 cv, set_header_crcs addr vd s = Ok (with_crcs c1 c0 cv vd) s /\ valid (with_crcs c1 c0 cv vd) /\
    header_ok (encode (with_crcs c1 c0 cv vd)) = true.
Proof.
  intros Hv Hm.
  set (c1 := crc32c_spec (region (encode vd) HAMMER2_VOLUME_ICRC1_OFF HAMMER2_VOLUME_ICRC1_SIZE)).
  set (vd1 := set_icrc_sect HAMMER2_VOL_ICRC_SECT1 c1 vd).
  set (c0 := crc32c_spec (region (encode vd1) HAMMER2_VOLUME_ICRC0_OFF HAMMER2_VOLUME_ICRC0_SIZE)).
  set (vd2 := set_icrc_sect HAMMER2_VOL_ICRC_SECT0 c0 vd1).
  set (cv := crc32c_spec (region (encode vd2) HAMMER2_VOLUME_ICRCVH_OFF HAMMER2_VOLUME_ICRCVH_SIZE)).
  set (vd3 := set_icrc_volheader cv vd2).
  assert (forall (vd : hammer2_volume_data) off size, valid vd -> in_u 32 (crc32c_spec (region (encode vd) off size))) as Hok.
  { intros vd' off size Hv'. by apply crc32c_spec_range, region_ok, encode_ok. }
  assert (valid vd1) as Hv1 by (apply set_icrc_sect_valid; [done|by apply Hok]).
  assert (valid vd2) as Hv2 by (apply set_icrc_sect_valid; [done|by apply Hok]).
  assert (valid vd3) as Hv3 by (apply set_icrc_volheader_valid; [done|by apply Hok]).
  exists c1, c0, cv. split_and!; [|exact Hv3|].
  - unfold set_header_crcs.
    rewrite (bind_Ok _ _ s c1 s) by (apply header_icrc32_spec; (done || h2_unfold; lia)). cbv zeta.
    rewrite (bind_Ok _ _ s c0 s) by (apply header_icrc32_spec; (done || h2_unfold; lia)).
    rewrite (bind_Ok _ _ s cv s) by (apply header_icrc32_spec; (done || h2_unfold; lia)). reflexivity.
  - pose proof (valid_sects _ Hv) as [Hl _]. change (with_crcs c1 c0 cv vd) with vd3.
    unfold header_ok. rewrite (decode_encode vd3) by exact Hv3. unfold tests_ok.
    rewrite !andb_true_iff, !bool_decide_eq_true.
    change (vd_icrc_sects vd3) with (<[7%nat := c0]> (<[6%nat := c1]> (vd_icrc_sects vd))).
    change (vd_icrc_volheader vd3) with cv. change (vd_magic vd3) with (vd_magic vd).
    unfold HAMMER2_VOL_ICRC_SECT0, HAMMER2_VOL_ICRC_SECT1.
    rewrite list_lookup_insert_eq by (rewrite length_insert, Hl; lia).
    rewrite list_lookup_insert_ne, list_lookup_insert_eq by (rewrite ?Hl; lia).
    split_and!; [exact Hm| | |].
    + unfold c0. do 2 f_equal. unfold region, vd3, vd2, HAMMER2_VOL_ICRC_SECT0.
      rewrite volheader_slice, sect_slice; [reflexivity|exact Hv1|h2_unfold; lia|exact Hv2|h2_unfold; lia].
    + unfold c1. do 2 f_equal. unfold region, vd3, vd2, vd1, HAMMER2_VOL_ICRC_SECT0, HAMMER2_VOL_ICRC_SECT1.
      rewrite volheader_slice, !sect_slice;
        [reflexivity|exact Hv|h2_unfold; lia|exact Hv1|h2_unfold; lia|exact Hv2|h2_unfold; lia].
    + unfold cv. f_equal. unfold region, vd3. symmetry. apply volheader_slice; [exact Hv2|h2_unfold; lia].
Qed.

(** ** The choice of a header *)

(** The copy [i] of the header of a volume, and whether it is there and good. *)
Definition header_at (f : file) (i : Z) : bytes := file_read f (i * HAMMER2_ZONE_BYTES64) (Z.to_nat HAMMER2_PBUFSIZE).
Definition candidate (f : file) (i : Z) : bool :=
  bool_decide (i * HAMMER2_ZONE_BYTES64 + HAMMER2_PBUFSIZE <= f_size f) && header_ok (header_at f i).
Definition tid_at (f : file) (i : Z) : Z := vd_mirror_tid (decode (header_at f i)).

(** The best of the copies below [n]: the first of the good ones with the highest
    [mirror_tid]. *)
Definition best_header (f : file) (n : Z) (r : option (Z * hammer2_volume_data)) : Prop :=
  match r with
  | None => forall j, 0 <= j < n -> candidate f j = false
  | Some (z, vd) =>
      0 <= z < n /\ candidate f z = true /\ vd = decode (header_at f z) /\
      forall j, 0 <= j < n -> candidate f j = true ->
        tid_at f j <= tid_at f z /\ (j < z -> tid_at f j < tid_at f z)
  end.

Definition file_ok (f : file) : Prop := 0 <= f_size f /\ forall i, in_u 8 (f_data f i).

Lemma best_header_skip f i r : candidate f i = false -> best_header f i r -> best_header f (i + 1) r.
Proof.
  intros Hc. destruct r as [[z vd]|]; cbn.
  - intros (Hz & Hcz & Hvd & Hall). split_and!; [lia|lia|done|done|].
    intros j Hj Hcj. destruct (decide (j = i)) as [->|]; [congruence|]. apply Hall; [lia|done].
  - intros Hall j Hj. destruct (decide (j = i)) as [->|]; [done|]. apply Hall. lia.
Qed.

Lemma best_header_step f i r :
  0 <= i -> candidate f i = true -> best_header f i r ->
  best_header f (i + 1)
    (if match r with None => true | Some (_, v) => bool_decide (vd_mirror_tid v < tid_at f i) end
     then Some (i, decode (header_at f i)) else r).
Proof.
  intros Hi Hc Hr. destruct r as [[z vd]|].
  - destruct Hr as (Hz & Hcz & -> & Hall). fold (tid_at f z). case_bool_decide as Ht; cbn.
    + split_and!; [lia|lia|done|done|]. intros j Hj Hcj. destruct (decide (j = i)) as [->|]; [lia|].
      destruct (Hall j ltac:(lia) Hcj). lia.
    + split_and!; [lia|lia|done|done|]. intros j Hj Hcj. destruct (decide (j = i)) as [->|]; [lia|].
      apply Hall; [lia|done].
  - cbn. split_and!; [lia|lia|done|done|]. intros j Hj Hcj. destruct (decide (j = i)) as [->|]; [lia|].
    rewrite Hr in Hcj by lia. done.
Qed.

Lemma best_header_done f i n r :
  f_size f <= i * HAMMER2_ZONE_BYTES64 -> i <= n -> best_header f i r -> best_header f n r.
Proof.
  intros Hs Hin Hr.
  assert (forall j, i <= j -> candidate f j = false) as Hno.
  { intros j Hj. unfold candidate. rewrite bool_decide_eq_false_2; [done|]. h2_unfold. nia. }
  destruct r as [[z vd]|]; cbn in *.
  - destruct Hr as (Hz & Hcz & Hvd & Hall). split_and!; [lia|lia|done|done|].
    intros j Hj Hcj. destruct (decide (j < i)); [apply Hall; [lia|done]|]. rewrite Hno in Hcj by lia. done.
  - intros j Hj. destruct (decide (j < i)); [apply Hr; lia|]. apply Hno. lia.
Qed.

Lemma sys_pread_spec s fd ino nd size offset :
  fd_node s fd = Some (ino, nd) -> sys_pread fd size offset s = Ok (pread (nd_file nd) (Z.to_nat size) offset) s.
Proof. intros Hn. unfold sys_pread, mbind, prog_bind, get_state. by rewrite Hn. Qed.

Lemma read_headers_spec addr s fd ino nd n i r :
  fd_node s fd = Some (ino, nd) -> file_ok (nd_file nd) -> 0 <= i -> best_header (nd_file nd) i r ->
  exists r', read_headers addr fd (f_size (nd_file nd)) n i r s = Ok r' s /\
    best_header (nd_file nd) (i + Z.of_nat n) r'.
Proof.
  intros Hn [Hs Hb]. revert i r. induction n as [|n IH]; intros i r Hi Hr; cbn [read_headers].
  { exists r. by rewrite Z.add_0_r. }
  set (f := nd_file nd) in *. case_bool_decide as Hz.
  { exists r. split; [done|]. by apply (best_header_done f i); [done|lia|]. }
  rewrite (bind_Ok _ _ _ _ _ (sys_pread_spec _ _ _ _ _ _ Hn)). fold f.
  assert (0 <= i * HAMMER2_ZONE_BYTES64) as Hz0 by (h2_unfold; lia).
  destruct (decide (i * HAMMER2_ZONE_BYTES64 + HAMMER2_PBUFSIZE <= f_size f)) as [Hfull|Hshort].
  - rewrite pread_full; [|exact Hz0|rewrite Z2Nat.id by (h2_unfold; lia); exact Hfull]. fold (header_at f i).
    rewrite bool_decide_eq_false_2 by (intros Hc; apply Hc; apply length_file_read).
    erewrite bind_Ok.
    2:{ apply header_good_spec; [by apply file_read_ok|]. unfold header_at. by rewrite length_file_read. }
    cbv zeta.
    destruct (header_ok (header_at f i)) eqn:Hok; cbn [andb].
    + destruct (IH (i + 1) (if match r with None => true | Some (_, v) => bool_decide (vd_mirror_tid v < tid_at f i) end
                            then Some (i, decode (header_at f i)) else r)) as (r' & Hr' & Hbest);
        [lia|apply best_header_step; [done| |done]; unfold candidate; by rewrite bool_decide_eq_true_2 by done|].
      exists r'. split; [exact Hr'|]. by replace (i + Z.of_nat (S n)) with (i + 1 + Z.of_nat n) by lia.
    + destruct (IH (i + 1) r) as (r' & Hr' & Hbest);
        [lia|apply best_header_skip; [|done]; unfold candidate; by rewrite Hok, andb_false_r|].
      exists r'. split; [exact Hr'|]. by replace (i + Z.of_nat (S n)) with (i + 1 + Z.of_nat n) by lia.
  - destruct (IH (i + 1) r) as (r' & Hr' & Hbest);
      [lia|apply best_header_skip; [|done]; unfold candidate; by rewrite bool_decide_eq_false_2 by done|].
    exists r'. replace (i + Z.of_nat (S n)) with (i + 1 + Z.of_nat n) by lia. split; [|exact Hbest].
    unfold pread. rewrite bool_decide_eq_false_2 by lia.
    rewrite bool_decide_eq_true_2; [exact Hr'|]. rewrite length_file_read. h2_unfold. lia.
Qed.

Lemma check_volume_reg s fd ino nd :
  fd_node s fd = Some (ino, nd) -> nd_type nd = S_IFREG -> in_u 64 (f_size (nd_file nd)) ->
  check_volume fd s = Ok (f_size (nd_file nd)) s.
Proof.
  intros Hn Ht Hs. unfold check_volume, mbind, prog_bind, get_state. by rewrite Hn, Ht, uwrap_small.
Qed.

Lemma read_volume_header_spec addr s fd ino nd :
  fd_node s fd = Some (ino, nd) -> nd_type nd = S_IFREG -> in_u 64 (f_size (nd_file nd)) ->
  file_ok (nd_file nd) ->
  exists r, hammer2_read_volume_header addr fd s = Ok r s /\ best_header (nd_file nd) HAMMER2_NUM_VOLHDRS r.
Proof.
  intros Hn Ht Hs Hf. unfold hammer2_read_volume_header.
  rewrite (bind_Ok _ _ _ _ _ (check_volume_reg _ _ _ _ Hn Ht Hs)).
  apply (read_headers_spec addr s fd ino nd (Z.to_nat HAMMER2_NUM_VOLHDRS) 0 None); [done..|].
  intros j Hj. lia.
Qed.
