(* ===== verification/H2Verify.v ===== *)
(** * H2Verify: volumes that pass [hammer2_verify_volumes] form one address space

    If the checks pass, the volumes lie one after the other from offset 0, and
    [hammer2_get_volume_attr] finds for an offset the volume, and the place in it, that the
    concatenation of the volumes has there. *)

From S2P Require Import Prelude HammerDisk Layout CMonad Ondisk H2Disk H2Volumes.

(** ** The abstract address space *)

(** The volume of an offset in the concatenation of volumes of the given sizes, and the
    offset inside it. *)
Fixpoint volume_of (sizes : list Z) (off : Z) : option (nat * Z) :=
  match sizes with
  | [] => None
  | size :: sizes =>
      if bool_decide (off < size) then Some (O, off)
      else '(i, r) ← volume_of sizes (off - size); Some (S i, r)
  end.
Definition sum_Z (l : list Z) : Z := foldr Z.add 0 l.

(** The volumes of a file system, in order: each starts where the one before ends. *)
Fixpoint tiles (base : Z) (id : Z) (vols : list hammer2_volume) : Prop :=
  match vols with
  | [] => True
  | v :: vols => hv_id v = id /\ hv_offset v = base /\ 0 <= hv_size v /\ tiles (base + hv_size v) (id + 1) vols
  end.

Lemma sum_Z_nonneg l : Forall (λ z, 0 <= z) l -> 0 <= sum_Z l.
Proof. intros Hl. unfold sum_Z. induction Hl; cbn; lia. Qed.

Lemma tiles_sizes base id vols : tiles base id vols -> Forall (λ z, 0 <= z) (hv_size <$> vols).
Proof.
  revert base id. induction vols as [|v vols IH]; intros base id; [constructor|].
  intros (_ & _ & Hs & Ht). rewrite fmap_cons. constructor; [done|by eapply IH].
Qed.

(** An offset past the end is in no volume, one below it is in one. *)
Lemma volume_of_total sizes off :
  Forall (λ z, 0 <= z) sizes -> 0 <= off ->
  (off < sum_Z sizes <-> is_Some (volume_of sizes off)) /\
  (forall i r, volume_of sizes off = Some (i, r) ->
     exists z, sizes !! i = Some z /\ 0 <= r < z /\ off = sum_Z (take i sizes) + r).
Proof.
  intros Hs. revert off. induction Hs as [|z sizes Hz Hs IH]; intros off Ho; cbn [volume_of sum_Z foldr].
  - split; [|done]. split; [lia|by intros [? ?]].
  - fold (sum_Z sizes). pose proof (sum_Z_nonneg sizes Hs). case_bool_decide as Hlt.
    + split; [split; [eauto|lia]|]. intros i r [= <- <-]. exists z. split_and!; [done|lia|lia|done].
    + destruct (IH (off - z) ltac:(lia)) as [Htot Hfnd]. split.
      * destruct (volume_of sizes (off - z)) as [[i r]|] eqn:E; cbn.
        -- split; [eauto|]. intros _. assert (off - z < sum_Z sizes) by (apply Htot; eauto). lia.
        -- split; [|by intros [? ?]]. intros Hl. assert (is_Some (@None (nat * Z))) as [? ?]; [|done].
           apply Htot. lia.
      * intros i r Hir. destruct (volume_of sizes (off - z)) as [[i' r']|] eqn:E; [|done].
        cbn in Hir. injection Hir as <- <-. destruct (Hfnd i' r' eq_refl) as (z' & Hz' & Hr & Heq).
        exists z'. cbn [lookup list_lookup take sum_Z foldr]. fold (sum_Z (take i' sizes)). split_and!; [done|lia|lia|lia].
Qed.

(** ** Running the checks *)

Lemma errx_if_inv b (s s' : h2state) : errx_if b s = Ok () s' -> b = false /\ s' = s.
Proof. destruct b; [done|]. by intros [= <-]. Qed.

Lemma errx_if_false b (s : h2state) : b = false -> errx_if b s = Ok () s.
Proof. by intros ->. Qed.

(** [inv_checks H] opens a chain of binds and checks that returned. *)
Ltac inv_checks H :=
  repeat match type of H with
         | (errx_if _ ≫= _) _ = Ok _ _ =>
             let Hc := fresh "Hc" in
             apply bind_Ok_inv in H as ([] & ? & Hc & H); apply errx_if_inv in Hc as [Hc ->]
         | errx_if _ _ = Ok _ _ => apply errx_if_inv in H as [H ->]
         | (if bool_decide ?P then _ else _) _ = Ok _ _ => fail 1
         end.

(** What the loop of [hammer2_verify_volumes_2] has checked of a volume and the one
    before it. *)
Definition volume_checked (nvolumes i : Z) (prev : option hammer2_volume) (v : hammer2_volume) : Prop :=
  match prev with
  | Some p => hv_id v = hv_id p + 1 /\ hv_offset v = u64 (hv_offset p + hv_size p)
  | None => hv_offset v = 0
  end /\
  hv_offset v .& HAMMER2_FREEMAP_LEVEL1_MASK = 0 /\
  (i <> nvolumes - 1 -> HAMMER2_FREEMAP_LEVEL1_SIZE <= hv_size v /\ hv_size v .& HAMMER2_FREEMAP_LEVEL1_MASK = 0) /\
  (i = nvolumes - 1 -> hv_size v .& HAMMER2_VOLUME_ALIGNMASK = 0).

Definition prev_of (prev : option hammer2_volume) (vols : list hammer2_volume) (k : nat) : option hammer2_volume :=
  match k with O => prev | S k => vols !! k end.

Lemma bd_false_not (P : Prop) `{Decision P} : bool_decide (not P) = false -> P.
Proof. intros Hb. apply bool_decide_eq_false in Hb. by destruct (decide P). Qed.

Lemma verify_2_step_inv nvolumes prev v vols i s s' :
  verify_2_loop nvolumes prev (v :: vols) i s = Ok () s' ->
  (hv_id v <> -1 -> volume_checked nvolumes i prev v) /\
  verify_2_loop nvolumes (Some v) vols (i + 1) s = Ok () s'.
Proof.
  cbn [verify_2_loop]. intros Hv. apply bind_Ok_inv in Hv as ([] & s1 & H1 & H2).
  case_bool_decide as Hid; [injection H1 as <-; by split|].
  inv_checks H1. apply bind_Ok_inv in H1 as ([] & s2 & H1 & H3). 
  assert (s2 = s /\ match prev with
          | Some p => hv_id v = hv_id p + 1 /\ hv_offset v = u64 (hv_offset p + hv_size p)
          | None => hv_offset v = 0 end) as [-> Hp].
  { destruct prev as [p|]; inv_checks H1; split_and!; try done; by eapply bd_false_not. }
  assert (s1 = s /\ (i <> nvolumes - 1 -> HAMMER2_FREEMAP_LEVEL1_SIZE <= hv_size v /\
            hv_size v .& HAMMER2_FREEMAP_LEVEL1_MASK = 0) /\
          (i = nvolumes - 1 -> hv_size v .& HAMMER2_VOLUME_ALIGNMASK = 0)) as (-> & Hl & Hr).
  { clear H1. case_bool_decide as Hi; inv_checks H3; split_and!; try done.
    - intros _. split; [|by eapply bd_false_not]. apply bool_decide_eq_false in Hc0. lia.
    - intros _. by eapply bd_false_not. }
  split; [|done]. intros _. split_and!; [done|by eapply bd_false_not|done..].
Qed.

Lemma verify_2_loop_inv nvolumes prev vols i s s' :
  verify_2_loop nvolumes prev vols i s = Ok () s' ->
  s' = s /\ forall k v, vols !! k = Some v -> hv_id v <> -1 ->
    volume_checked nvolumes (i + Z.of_nat k) (prev_of prev vols k) v.
Proof.
  revert prev i. induction vols as [|v vols IH]; intros prev i Hv.
  { injection Hv as <-. split; [done|]. intros [|k] v Hk; done. }
  apply verify_2_step_inv in Hv as [Hchk Hv]. apply IH in Hv as [-> Hall]. split; [done|].
  intros [|k] w Hk Hid; cbn in Hk.
  - injection Hk as <-. rewrite Z.add_0_r. by apply Hchk.
  - replace (i + Z.of_nat (S k)) with (i + 1 + Z.of_nat k) by lia.
    specialize (Hall k w Hk Hid). by destruct k.
Qed.

(** ** The table of volumes *)

(** A volume is installed at the index that is its id. *)
Definition table_wf (o : hammer2_ondisk) : Prop :=
  Z.of_nat (length (o_volumes o)) = HAMMER2_MAX_VOLUMES /\
  forall i v, o_volumes o !! i = Some v ->
    (hv_id v = -1 \/ hv_id v = Z.of_nat i) /\ in_u 64 (hv_offset v) /\ in_u 64 (hv_size v).

(** A predicate that holds of an element only if it holds of the one before cuts a list in
    two. *)
Lemma filter_prefix {A} (P : A -> Prop) `{!forall x, Decision (P x)} (l : list A) :
  (forall k x y, l !! k = Some x -> l !! S k = Some y -> P y -> P x) ->
  filter P l = take (length (filter P l)) l /\ Forall (λ x, ~ P x) (drop (length (filter P l)) l).
Proof.
  induction l as [|x l IH]; intros Hl; [done|]. rewrite filter_cons. destruct (decide (P x)) as [Hx|Hx].
  - destruct IH as [Ht Hd]; [intros k; apply (Hl (S k))|]. cbn. by rewrite <- Ht.
  - assert (Forall (λ x, ~ P x) l) as Hall.
    { apply Forall_lookup. intros k. induction k as [|k IHk]; intros y Hy Hp.
      - by apply Hx, (Hl O x y).
      - destruct (l !! k) as [z|] eqn:Hz; [|apply lookup_ge_None in Hz; apply lookup_lt_Some in Hy; lia].
        by apply (IHk z eq_refl), (Hl (S k) z y). }
    assert (filter P l = []) as ->; [|by split; [|constructor]].
    clear -Hall. induction Hall as [|y l Hy _ IH]; [done|]. by rewrite filter_cons_False.
Qed.

Lemma tiles_intro vols base id :
  0 <= base -> base + sum_Z (hv_size <$> vols) < 2 ^ 64 ->
  (forall k v, vols !! k = Some v -> hv_id v = id + Z.of_nat k /\ in_u 64 (hv_size v) /\
     hv_offset v = match prev_of None vols k with
                   | Some p => u64 (hv_offset p + hv_size p)
                   | None => base
                   end) ->
  tiles base id vols.
Proof.
  revert base id. induction vols as [|v vols IH]; intros base id Hb Hsum Hk; [done|].
  rewrite fmap_cons in Hsum. cbn [sum_Z foldr] in Hsum. fold (sum_Z (hv_size <$> vols)) in Hsum.
  destruct (Hk O v eq_refl) as (Hid & Hsz & Hoff). cbn [prev_of] in Hoff.
  assert (Forall (λ z, 0 <= z) (hv_size <$> vols)) as Hnn.
  { apply Forall_fmap, Forall_lookup. intros i w Hw. destruct (Hk (S i) w Hw) as (_ & [Hw0 _] & _). exact Hw0. }
  pose proof (sum_Z_nonneg _ Hnn). unfold in_u in Hsz.
  cbn. split_and!; [lia|done|lia|]. apply IH; [lia|lia|].
  intros k w Hw. destruct (Hk (S k) w Hw) as (Hid' & Hsz' & Hoff'). split_and!; [lia|done|].
  rewrite Hoff'. destruct k as [|k]; cbn [prev_of].
  2:{ change ((v :: vols) !! S k) with (vols !! k). destruct (vols !! k) eqn:Ek; [done|].
      apply lookup_ge_None in Ek. apply lookup_lt_Some in Hw. lia. }
  cbn. rewrite Hoff. apply uwrap_small. unfold in_u. lia.
Qed.

Lemma count_volumes_filter o : count_volumes o = Z.of_nat (length (filter (λ v, hv_id v <> -1) (o_volumes o))).
Proof. done. Qed.

Lemma verify_2_inv fsp root s s' :
  hammer2_verify_volumes_2 fsp root s = Ok () s' ->
  s' = s /\ o_nvolumes fsp = count_volumes fsp /\
  forall k v, o_volumes fsp !! k = Some v -> hv_id v <> -1 ->
    volume_checked (o_nvolumes fsp) (Z.of_nat k) (prev_of None (o_volumes fsp) k) v.
Proof.
  intros Hv. unfold hammer2_verify_volumes_2 in Hv. inv_checks Hv. apply bd_false_not in Hc.
  apply bind_Ok_inv in Hv as ([] & s1 & Hr & Hv). apply verify_2_loop_inv in Hv as [-> Hall].
  split_and!; [|done|exact Hall].
  destruct root as [rv|]; [|by injection Hr as <-].
  apply bind_Ok_inv in Hr as (s2 & s3 & Hg & Hr). injection Hg as <- <-. by inv_checks Hr.
Qed.

(** The volumes that passed: the installed ones are the first [nvolumes]. *)
Lemma verify_2_prefix fsp root s s' :
  table_wf fsp -> hammer2_verify_volumes_2 fsp root s = Ok () s' ->
  let n := Z.to_nat (o_nvolumes fsp) in
  (0 <= o_nvolumes fsp <= HAMMER2_MAX_VOLUMES) /\
  (forall k v, o_volumes fsp !! k = Some v -> (hv_id v = Z.of_nat k <-> (k < n)%nat) /\ (hv_id v = -1 <-> (n <= k)%nat)).
Proof.
  intros [Hlen Hwf] Hv. apply verify_2_inv in Hv as (-> & Hn & Hall). cbv zeta.
  destruct (filter_prefix (λ v, hv_id v <> -1) (o_volumes fsp)) as [Ht Hd].
  { intros k x y Hx Hy Hid. destruct (Hall (S k) y Hy Hid) as [Hp _]. cbn [prev_of] in Hp. rewrite Hx in Hp.
    destruct (Hwf (S k) y Hy) as [[?|?] _]; [done|]. lia. }
  set (m := length (filter (λ v, hv_id v <> -1) (o_volumes fsp))) in *.
  rewrite count_volumes_filter in Hn. fold m in Hn. rewrite Hn, Nat2Z.id.
  assert (m <= length (o_volumes fsp))%nat by apply length_filter.
  split; [lia|]. intros k v Hk. destruct (Hwf k v Hk) as [Hid _].
  destruct (decide (k < m)%nat) as [Hlt|Hge].
  - assert (hv_id v <> -1) as Hne.
    { apply (proj1 (Forall_forall (λ v, hv_id v <> -1) (filter (λ v, hv_id v <> -1) (o_volumes fsp)))).
      - apply Forall_forall. intros x Hx. by apply list_elem_of_filter in Hx as [? _].
      - rewrite Ht. apply list_elem_of_lookup_2 with k. by rewrite lookup_take_lt. }
    destruct Hid; [done|]. lia.
  - assert (hv_id v = -1) as He.
    { rewrite Forall_lookup in Hd. specialize (Hd (k - m)%nat v). rewrite lookup_drop in Hd.
      replace (m + (k - m))%nat with k in Hd by lia. specialize (Hd Hk). cbn in Hd. by destruct (decide (hv_id v = -1)). }
    lia.
Qed.

Lemma verify_2_tiles fsp root s s' :
  table_wf fsp -> hammer2_verify_volumes_2 fsp root s = Ok () s' ->
  let vols := take (Z.to_nat (o_nvolumes fsp)) (o_volumes fsp) in
  sum_Z (hv_size <$> vols) < 2 ^ 64 -> tiles 0 0 vols.
Proof.
  intros Hwf Hv vols Hsum. destruct (verify_2_prefix _ _ _ _ Hwf Hv) as [Hn Hids].
  apply verify_2_inv in Hv as (_ & _ & Hall). destruct Hwf as [Hlen Hwf].
  apply tiles_intro; [done|done|]. intros k v Hk. pose proof (lookup_lt_Some _ _ _ Hk) as Hlt.
  unfold vols in Hk, Hlt. rewrite length_take in Hlt. rewrite lookup_take_lt in Hk by lia.
  destruct (Hids k v Hk) as [[_ Hid] _]. specialize (Hid ltac:(lia)).
  destruct (Hwf k v Hk) as (_ & _ & Hsz). split_and!; [lia|done|].
  destruct (Hall k v Hk ltac:(lia)) as [Hp _]. destruct k as [|k]; [done|]. cbn [prev_of] in *.
  unfold vols. rewrite lookup_take_lt by lia.
  destruct (o_volumes fsp !! k) as [p|] eqn:Ep; [by destruct Hp|].
  apply lookup_ge_None in Ep. apply lookup_lt_Some in Hk. lia.
Qed.

(** ** Looking up an offset *)

Lemma find_volume_tiles (full vols : list hammer2_volume) base id k off (s : h2state) :
  tiles base id vols -> 0 <= base <= off -> base + sum_Z (hv_size <$> vols) < 2 ^ 64 ->
  (forall j v, vols !! j = Some v -> full !! (k + j)%nat = Some v) ->
  find_volume full off (length vols) k s
  = Ok (match volume_of (hv_size <$> vols) (off - base) with Some (i, _) => vols !! i | None => None end) s.
Proof.
  revert base id k. induction vols as [|v vols IH]; intros base id k Ht Hb Hsum Hfull; [done|].
  destruct Ht as (Hid & Hoff & Hsz & Ht). pose proof (tiles_sizes _ _ _ Ht) as Hnn. apply sum_Z_nonneg in Hnn.
  rewrite fmap_cons in *. cbn [length find_volume volume_of sum_Z foldr] in *. fold (sum_Z (hv_size <$> vols)) in *.
  pose proof (Hfull O v eq_refl) as Hv. rewrite Nat.add_0_r in Hv. rewrite Hv.
  rewrite (bind_Ok _ _ s v s) by done. rewrite Hoff, uwrap_small by (unfold in_u; lia).
  rewrite (bool_decide_eq_true_2 (base <= off)) by lia. cbn [andb].
  case_bool_decide as Hlt.
  - rewrite (bool_decide_eq_true_2 (off - base < hv_size v)) by lia. done.
  - rewrite (bool_decide_eq_false_2 (off - base < hv_size v)) by lia.
    rewrite (IH (base + hv_size v) (id + 1) (S k)); [|done|lia|lia|].
    + replace (off - (base + hv_size v)) with (off - base - hv_size v) by lia.
      by destruct (volume_of _ _) as [[i r]|].
    + intros j w Hj. rewrite <- (Hfull (S j) w Hj). f_equal. lia.
Qed.

(** The table of a process whose volumes are [vols]. *)
Definition volumes_are (s : h2state) (vols : list hammer2_volume) : Prop :=
  hammer2_volumes_initialized s = true /\ o_nvolumes (fso s) = Z.of_nat (length vols) /\
  take (length vols) (o_volumes (fso s)) = vols /\ tiles 0 0 vols /\ sum_Z (hv_size <$> vols) < 2 ^ 64.

Lemma get_volume_attr_tiles s vols offset :
  volumes_are s vols -> in_u 64 offset ->
  hammer2_get_volume_attr offset s
  = Ok (match volume_of (hv_size <$> vols) (offset .& bnot 64 HAMMER2_OFF_MASK_RADIX) with
        | Some (i, _) => vols !! i | None => None end) s.
Proof.
  intros (Hi & Hn & Ht & Htile & Hsum) Ho. unfold hammer2_get_volume_attr.
  rewrite (bind_Ok _ _ s s s) by done. rewrite Hi. rewrite (bind_Ok _ _ s () s) by done.
  rewrite Hn, Nat2Z.id. cbv zeta. set (off := offset .& _).
  assert (0 <= off) as Hpos by (apply Z.land_nonneg; left; apply Ho).
  rewrite (find_volume_tiles (o_volumes (fso s)) vols 0 0 0 off); [by rewrite Z.sub_0_r|done|lia|done|].
  intros j v Hj. rewrite <- Ht in Hj. apply lookup_take_Some in Hj. by destruct Hj.
Qed.

(** A volume that is found is the one the offset lies in. *)
Lemma tiles_lookup base id vols i v :
  tiles base id vols -> vols !! i = Some v ->
  hv_id v = id + Z.of_nat i /\ hv_offset v = base + sum_Z (take i (hv_size <$> vols)).
Proof.
  revert base id i. induction vols as [|w vols IH]; intros base id i Ht Hi; [done|].
  destruct Ht as (Hid & Hoff & Hsz & Ht). destruct i as [|i]; cbn in Hi.
  - injection Hi as <-. cbn. lia.
  - destruct (IH _ _ i Ht Hi) as [-> ->]. rewrite fmap_cons. cbn [take sum_Z foldr].
    fold (sum_Z (take i (hv_size <$> vols))). lia.
Qed.
