(* ===== verification/H2Accept.v ===== *)
(** * H2Accept: volumes that [hammer2_verify_volumes] accepts

    The converse of [H2Verify]: open volumes that lie one after the other, with the sizes
    the layout asks for, pass the checks. *)

From S2P Require Import Prelude HammerDisk Layout CMonad Ondisk H2Disk H2Volumes H2Header H2Verify.

#[local] Opaque Z.to_nat.

(** A volume is open on a regular file that is large enough. *)
Definition vol_open (s : h2state) (v : hammer2_volume) (ino : Z) : Prop :=
  exists path nd, hv_path v = Some path /\ path_ino s path = Some ino /\ fd_node s (hv_fd v) = Some (ino, nd) /\
    hv_fd v <> -1 /\ nd_type nd = S_IFREG /\ in_u 63 (f_size (nd_file nd)) /\ hv_size v <= f_size (nd_file nd).

(** The sizes of the volumes of a file system of [n] volumes. *)
Definition sizes_ok (n : Z) (vols : list hammer2_volume) : Prop :=
  forall k v, vols !! k = Some v ->
    (Z.of_nat k <> n - 1 -> HAMMER2_FREEMAP_LEVEL1_SIZE <= hv_size v /\ hv_size v mod HAMMER2_FREEMAP_LEVEL1_SIZE = 0) /\
    (Z.of_nat k = n - 1 -> hv_size v mod HAMMER2_VOLUME_ALIGN = 0).

(** The table with [vols] installed. *)
Definition table_of_vols (vols : list hammer2_volume) : list hammer2_volume :=
  vols ++ replicate (Z.to_nat HAMMER2_MAX_VOLUMES - length vols) hammer2_init_volume.

Lemma verify_common_tail n i st s : verify_common_loop (replicate n hammer2_init_volume) i st s = Ok () s.
Proof. revert i. induction n as [|n IH]; intros i; [done|]. cbn [replicate verify_common_loop]. apply IH. Qed.

Lemma verify_common_ok s vols inos : forall n i st,
  Forall2 (vol_open s) vols inos -> Forall (λ v, hv_id v <> -1 /\ 0 <= hv_offset v < 2 ^ 63) vols ->
  NoDup inos -> (forall ino, ino ∈ inos -> Some ino ∉ take i st) -> (i + length vols <= length st)%nat ->
  verify_common_loop (vols ++ replicate n hammer2_init_volume) i st s = Ok () s.
Proof.
  intros n i st Ho. revert i st. induction Ho as [|v ino vols inos Hv Ho IH]; intros i st Hid Hnd Hst Hl.
  { apply verify_common_tail. }
  destruct Hv as (path & nd & Hpath & Hino & Hfd & Hfd1 & Hreg & Hsz & Hfit).
  apply Forall_cons in Hid as [[Hid Hoff] Hids]. apply NoDup_cons in Hnd as [Hnin Hnd].
  cbn [app verify_common_loop length] in *. rewrite bool_decide_eq_false_2 by done.
  rewrite (bind_Ok _ _ s s s) by done. rewrite Hpath. cbn [mbind option_bind]. rewrite Hino.
  rewrite (bool_decide_eq_true_2 (i < length st)%nat) by lia. rewrite (bind_Ok _ _ s () s) by done.
  rewrite Hfd. rewrite (bind_Ok _ _ s (ino, nd) s) by done.
  unfold in_u in Hsz.
  rewrite (bind_Ok _ _ s () s) by (apply errx_if_false, bool_decide_eq_false_2, Hst; by left).
  rewrite (bind_Ok _ _ s () s) by (by apply errx_if_false, bool_decide_eq_false_2).
  rewrite (bind_Ok _ _ s () s) by (apply errx_if_false, bool_decide_eq_false_2; change (u64 (-1)) with (2 ^ 64 - 1); lia).
  rewrite (bind_Ok _ _ s () s) by (apply errx_if_false, bool_decide_eq_false_2; change (u64 (-1)) with (2 ^ 64 - 1); lia).
  rewrite (bind_Ok _ _ s _ s (check_volume_reg s _ ino nd Hfd Hreg ltac:(unfold in_u; lia))).
  rewrite (bind_Ok _ _ s () s) by (apply errx_if_false, bool_decide_eq_false_2; lia).
  apply IH; [done|done| |rewrite length_insert; lia].
  intros ino' Hin Hc. apply list_elem_of_lookup in Hc as [j Hj]. apply lookup_take_Some in Hj as [Hj Hji].
  destruct (decide (j = i)) as [->|].
  - rewrite list_lookup_insert_eq in Hj by lia. injection Hj as ->. by apply Hnin.
  - rewrite list_lookup_insert_ne in Hj by done. apply (Hst ino'); [by right|].
    apply list_elem_of_lookup. exists j. rewrite lookup_take_lt by lia. done.
Qed.

Lemma filter_installed vols n :
  Forall (λ v, hv_id v <> -1) vols -> filter (λ v, hv_id v <> -1) (vols ++ replicate n hammer2_init_volume) = vols.
Proof.
  intros Hv. rewrite filter_app.
  assert (filter (λ v, hv_id v <> -1) (replicate n hammer2_init_volume) = []) as ->.
  { induction n as [|n IH]; [done|]. cbn [replicate]. rewrite filter_cons_False; [done|]. cbn. lia. }
  rewrite app_nil_r. induction Hv as [|v vols Hv _ IH]; [done|]. by rewrite filter_cons_True, IH.
Qed.

Lemma land_mask_zero x k m : 0 <= k -> m = 2 ^ k - 1 -> x mod 2 ^ k = 0 -> x .& m = 0.
Proof.
  intros Hk -> Hx. replace (2 ^ k - 1) with (Z.ones k) by (rewrite Z.ones_equiv; lia). by rewrite land_ones_mod.
Qed.

Lemma verify_2_tail n prev m i s : verify_2_loop n prev (replicate m hammer2_init_volume) i s = Ok () s.
Proof. revert prev i. induction m as [|m IH]; intros prev i; [done|]. cbn [replicate verify_2_loop]. apply IH. Qed.

(** The last volume may be of any aligned size, so the offsets stay aligned. *)
Lemma verify_2_ok n m vols s : forall base i prev,
  tiles base (Z.of_nat i) vols -> 0 <= base -> base + sum_Z (hv_size <$> vols) < 2 ^ 64 ->
  base mod HAMMER2_FREEMAP_LEVEL1_SIZE = 0 ->
  (Z.of_nat (i + length vols) = n) ->
  (forall k v, vols !! k = Some v ->
    (Z.of_nat (i + k) <> n - 1 -> HAMMER2_FREEMAP_LEVEL1_SIZE <= hv_size v /\ hv_size v mod HAMMER2_FREEMAP_LEVEL1_SIZE = 0) /\
    (Z.of_nat (i + k) = n - 1 -> hv_size v mod HAMMER2_VOLUME_ALIGN = 0)) ->
  match prev with
  | None => base = 0
  | Some p => hv_id p + 1 = Z.of_nat i /\ u64 (hv_offset p + hv_size p) = base
  end ->
  verify_2_loop n prev (vols ++ replicate m hammer2_init_volume) (Z.of_nat i) s = Ok () s.
Proof.
  induction vols as [|v vols IH]; intros base i prev Ht Hb Hsum Hal Hn Hsz Hp; [apply verify_2_tail|].
  destruct Ht as (Hid & Hoff & Hpos & Ht). pose proof (sum_Z_nonneg _ (tiles_sizes _ _ _ Ht)) as Hnn.
  rewrite fmap_cons in Hsum. cbn [sum_Z foldr app verify_2_loop length] in *. fold (sum_Z (hv_size <$> vols)) in Hsum.
  destruct (Hsz O v eq_refl) as [Hmid Hlast]. rewrite Nat.add_0_r in Hmid, Hlast.
  rewrite (bool_decide_eq_false_2 (hv_id v = -1)) by lia.
  rewrite (bind_Ok _ _ s () s).
  - replace (Z.of_nat i + 1) with (Z.of_nat (S i)) by lia.
    destruct (decide (vols = [])) as [->|Hne]; [apply verify_2_tail|].
    assert (0 < length vols)%nat by (destruct vols; [done|cbn; lia]).
    destruct Hmid as [Hge Hmod]; [lia|].
    apply (IH (base + hv_size v) (S i)); [by replace (Z.of_nat (S i)) with (Z.of_nat i + 1) by lia|lia|lia| |lia| |].
    + h2_unfold. clear -Hal Hmod. dlia.
    + intros k w Hk. replace (S i + k)%nat with (i + S k)%nat by lia. by apply Hsz.
    + split; [lia|]. rewrite Hoff. apply uwrap_small. unfold in_u. lia.
  - rewrite (bind_Ok _ _ s () s).
    2:{ apply errx_if_false, bool_decide_eq_false_2. intros Hc. apply Hc. rewrite Hoff.
        apply (land_mask_zero _ 30); [done|done|]. by h2_unfold. }
    rewrite (bind_Ok _ _ s () s).
    2:{ destruct prev as [p|].
        - destruct Hp as [Hpi Hpo].
          rewrite (bind_Ok _ _ s () s) by (apply errx_if_false, bool_decide_eq_false_2; intros Hc; apply Hc; lia).
          apply errx_if_false, bool_decide_eq_false_2. intros Hc. apply Hc. lia.
        - apply errx_if_false, bool_decide_eq_false_2. intros Hc. apply Hc. lia. }
    case_bool_decide as Hi.
    + destruct (Hmid Hi) as [Hge Hmod].
      rewrite (bind_Ok _ _ s () s) by (apply errx_if_false, bool_decide_eq_false_2; lia).
      apply errx_if_false, bool_decide_eq_false_2. intros Hc. apply Hc.
      apply (land_mask_zero _ 30); [done|done|]. by h2_unfold.
    + apply errx_if_false, bool_decide_eq_false_2. intros Hc. apply Hc.
      apply (land_mask_zero _ 23); [done|done|]. h2_unfold. apply Hlast. lia.
Qed.

Lemma tiles_bounds base id vols :
  tiles base id vols -> 0 <= base -> 0 <= id -> base + sum_Z (hv_size <$> vols) < 2 ^ 63 ->
  Forall (λ v, hv_id v <> -1 /\ 0 <= hv_offset v < 2 ^ 63) vols.
Proof.
  revert base id. induction vols as [|v vols IH]; intros base id Ht Hb Hi Hsum; [constructor|].
  destruct Ht as (Hid & Hoff & Hpos & Ht). pose proof (sum_Z_nonneg _ (tiles_sizes _ _ _ Ht)).
  rewrite fmap_cons in Hsum. cbn [sum_Z foldr] in Hsum. fold (sum_Z (hv_size <$> vols)) in Hsum.
  constructor; [lia|]. apply (IH (base + hv_size v) (id + 1)); [done|lia..].
Qed.

(** What the header of the root volume says agrees with the volumes. *)
Definition root_ok (o : hammer2_ondisk) (vols : list hammer2_volume) (rv : hammer2_volume_data) : Prop :=
  vd_volu_id rv = HAMMER2_ROOT_VOLUME /\ vd_nvolumes rv = o_nvolumes o /\ vd_total_size rv = o_total_size o /\
  Forall (λ off, off <> u64 (-1)) (take (length vols) (vd_volu_loff rv)) /\
  Forall (λ off, off = u64 (-1)) (drop (length vols) (vd_volu_loff rv)).

Lemma Exists_false {A} (P : A -> Prop) `{!forall x, Decision (P x)} l :
  Forall (λ x, ~ P x) l -> bool_decide (Exists P l) = false.
Proof. intros Hl. apply bool_decide_eq_false_2. intros He. apply Exists_exists in He as (x & Hx & Hp).
  by apply (proj1 (Forall_forall _ _) Hl x Hx). Qed.

Lemma verify_volumes_ok s fsp vols inos root :
  o_volumes fsp = table_of_vols vols -> o_nvolumes fsp = Z.of_nat (length vols) ->
  (0 < length vols)%nat -> HAMMER2_VOL_VERSION_MULTI_VOLUMES <= o_version fsp ->
  tiles 0 0 vols -> sum_Z (hv_size <$> vols) < 2 ^ 63 -> sizes_ok (Z.of_nat (length vols)) vols ->
  Forall2 (vol_open s) vols inos -> NoDup inos ->
  match root with None => True | Some rv => root_ok (fso s) vols rv end ->
  hammer2_verify_volumes fsp root s = Ok fsp s.
Proof.
  intros Htab Hn Hpos Hver Ht Hsum Hsz Ho Hnd Hroot.
  pose proof (tiles_bounds 0 0 vols Ht ltac:(lia) ltac:(lia) Hsum) as Hb.
  assert (count_volumes fsp = Z.of_nat (length vols)) as Hcount.
  { rewrite count_volumes_filter, Htab. unfold table_of_vols. rewrite filter_installed; [done|].
    eapply Forall_impl; [exact Hb|]. by intros v [? _]. }
  unfold hammer2_verify_volumes. rewrite (bind_Ok _ _ s () s).
  2:{ unfold hammer2_verify_volumes_common.
      rewrite (bind_Ok _ _ s () s) by (apply errx_if_false, bool_decide_eq_false_2; h2_unfold; lia).
      rewrite Htab, Hcount, Nat2Z.id. unfold table_of_vols.
      eapply verify_common_ok; [exact Ho|exact Hb|exact Hnd| |rewrite length_replicate; lia].
      intros ino _ Hin. cbn [take] in Hin. by apply elem_of_nil in Hin. }
  rewrite (bool_decide_eq_true_2 (_ <= _)) by done.
  rewrite (bind_Ok _ _ s fsp s).
  - rewrite (bool_decide_eq_true_2 (0 < o_nvolumes fsp)) by lia. done.
  - rewrite (bind_Ok _ _ s () s); [done|]. unfold hammer2_verify_volumes_2.
    rewrite (bind_Ok _ _ s () s) by (apply errx_if_false, bool_decide_eq_false_2; intros Hc; apply Hc; lia).
    rewrite (bind_Ok _ _ s () s).
    + rewrite Htab. unfold table_of_vols. rewrite Hn. apply (verify_2_ok _ _ vols s 0 O None);
        [done|lia|lia|done|done|exact Hsz|done].
    + destruct root as [rv|]; [|done]. destruct Hroot as (Hr1 & Hr2 & Hr3 & Hr4 & Hr5).
      rewrite (bind_Ok _ _ s s s) by done. rewrite Hr1, Hr2, Hr3, Hcount, Nat2Z.id.
      rewrite (bind_Ok _ _ s () s) by (apply errx_if_false, bool_decide_eq_false_2; auto).
      rewrite (bind_Ok _ _ s () s) by (apply errx_if_false, bool_decide_eq_false_2; auto).
      rewrite (bind_Ok _ _ s () s) by (apply errx_if_false, bool_decide_eq_false_2; auto).
      rewrite (bind_Ok _ _ s () s) by (by apply errx_if_false, Exists_false).
      apply errx_if_false, Exists_false. eapply Forall_impl; [exact Hr5|]. intros x -> Hc. by apply Hc.
Qed.
