(* ===== verification/H2Inode.v ===== *)
(** * H2Inode: the block with the super-root and the root inodes

    What [format_hammer2_inode] puts into the 64 KB block it writes: the super-root inode,
    the inodes of the root directories after it, each under the check code its block
    reference carries. *)

From stdpp Require Import sorting.
From S2P Require Import Prelude HammerDisk Layout Crc32 HammerCrc CMonad Ondisk Newfs Xxhash XxhashProps H2Disk H2Volumes H2Mkfs H2Header.

#[local] Opaque Z.to_nat.

(** ** Addresses *)

Lemma mask_lo x : 0 <= x -> HAMMER2_OFF_MASK_LO .& x = x mod 2 ^ 16 - x mod 2 ^ 6.
Proof.
  intros Hx. change HAMMER2_OFF_MASK_LO with (Z.ones 16 .& bnot 64 (Z.ones 6)).
  rewrite Z.land_comm, Z.land_assoc, land_ones_mod by done.
  rewrite land_bnot_ones; [|done|unfold in_u; dlia]. f_equal. dlia.
Qed.

Lemma lor_radix base : base mod 1024 = 0 -> base .| 10 = base + 10.
Proof.
  intros Hb. replace base with ((base / 1024) .<< 10) at 1.
  - rewrite lor_shiftl_add by done. change (2 ^ 10) with 1024. dlia.
  - rewrite Z.shiftl_mul_pow2 by done. change (2 ^ 10) with 1024. dlia.
Qed.

Lemma same_block x y :
  0 <= x -> 0 <= y -> x / 2 ^ 16 = y / 2 ^ 16 -> (x .^ y) .& bnot 64 HAMMER2_PBUFMASK = 0.
Proof.
  intros Hx Hy Heq. change HAMMER2_PBUFMASK with (Z.ones 16). bits_ext.
  destruct (decide (i < 16)).
  - unfold bnot. rewrite Z.lxor_spec, !Z.ones_spec_low by lia. btauto.
  - replace i with (i - 16 + 16) by lia. rewrite <- !Z.div_pow2_bits by lia. rewrite Heq. btauto.
Qed.

Lemma block_base x : in_u 64 x -> x .& bnot 64 HAMMER2_PBUFMASK = x - x mod 2 ^ 16.
Proof. intros Hx. change HAMMER2_PBUFMASK with (Z.ones 16). by apply land_bnot_ones. Qed.

(** ** [alloc_direct] *)

Definition direct_bref (base : Z) : hammer2_blockref :=
  {| bref_type := 0; bref_methods := 0; bref_copyid := 0; bref_keybits := 0; bref_vradix := HAMMER2_RADIX_MIN;
     bref_flags := 0; bref_leaf_count := 0; bref_key := 0; bref_mirror_tid := 0; bref_modify_tid := 0;
     bref_data_off := base + HAMMER2_RADIX_MIN; bref_update_tid := 0; bref_embed := replicate 16 0;
     bref_check := replicate 64 0 |}.

Lemma alloc_direct_spec base (s : h2state) :
  0 <= base < 2 ^ 63 -> base mod 1024 = 0 ->
  alloc_direct base HAMMER2_INODE_BYTES s = Ok (base + HAMMER2_INODE_BYTES, direct_bref base) s.
Proof.
  intros Hb Hm. unfold alloc_direct.
  rewrite (bind_Ok _ _ s () s) by reflexivity.
  rewrite (bind_Ok _ _ s (1, 10) s) by reflexivity.
  rewrite (bind_Ok _ _ s () s) by reflexivity.
  rewrite bool_decide_eq_false_2 by (h2_unfold; lia). rewrite lor_radix by done.
  change (u32 (1 .<< 10)) with HAMMER2_INODE_BYTES. rewrite uwrap_small by (unfold in_u; h2_unfold; lia). reflexivity.
Qed.

(** ** Zeroed inodes *)

Definition zero_inode : hammer2_inode_data := zeroed hammer2_inode_data.

Lemma sizeof_inode : sizeof hammer2_inode_data = 1024%nat.
Proof. vm_compute. reflexivity. Qed.

Lemma zero_inode_valid : valid (id_meta zero_inode).
Proof. valid_zeroed. Qed.
Lemma zero_inode_filename : id_filename zero_inode = replicate 256 0.
Proof. vm_compute. reflexivity. Qed.
Lemma zero_inode_u : id_u zero_inode = replicate 512 0.
Proof. vm_compute. reflexivity. Qed.

(** An inode in a cleared part of the buffer. *)
Lemma read_zero_inode (pre : bytes) k :
  (1024 <= k)%nat -> read_at hammer2_inode_data (pre ++ replicate k 0) (length pre) = zero_inode.
Proof.
  intros Hk. transitivity (read_at hammer2_inode_data (replicate 1024 0) 0).
  - unfold read_at, decode. f_equal.
    rewrite <- (split_widths_take _ (drop (length pre) _)), <- (split_widths_take _ (drop 0 _)). f_equal.
    fold (sizeof hammer2_inode_data). rewrite sizeof_inode, drop_app_length, drop_0, !take_replicate. f_equal. lia.
  - unfold read_at, zero_inode, zeroed. by rewrite sizeof_inode, drop_0.
Qed.

(** ** The inodes *)

Section inodes.
Context (uuid_generate : nat -> bytes) (now addr : Z) (opt : hammer2_mkfs_options).
Context (Huuid : forall i, raw 16 (uuid_generate i)) (Hnow : in_u 64 now).
Context (Hclid : raw 16 (Hammer2_SupCLID opt)) (Hfsid : raw 16 (Hammer2_SupFSID opt)).

Definition root_inode (i : nat) (label : bytes) : hammer2_inode_data :=
  set_root_inode now opt label (uuid_generate (3 + 2 * i)) (uuid_generate (4 + 2 * i)) (name_key label) zero_inode.
Definition root_bref (base : Z) (i : nat) (label : bytes) : hammer2_blockref :=
  set_inode_bref (name_key label) HAMMER2_COMP_NONE HAMMER2_BREF_FLAG_PFSROOT
    (h2_XXH64 (encode (root_inode i label)) XXH_HAMMER2_SEED)
    (direct_bref (base + HAMMER2_INODE_BYTES * Z.of_nat (S i))).
Definition sroot_inode (brefs : list hammer2_blockref) : hammer2_inode_data := set_sroot_inode now opt brefs zero_inode.
Definition sroot_bref (base : Z) (brefs : list hammer2_blockref) : hammer2_blockref :=
  set_inode_bref 0 HAMMER2_COMP_AUTOZERO 0 (h2_XXH64 (encode (sroot_inode brefs)) XXH_HAMMER2_SEED)
    (direct_bref base).

Definition label_ok (label : bytes) : Prop := bytes_ok label /\ Z.of_nat (length label) < HAMMER2_INODE_MAXNAME.

Lemma splice_zero n (xs : bytes) : (length xs <= n)%nat -> splice (replicate n 0) 0 xs = xs ++ replicate (n - length xs) 0.
Proof. intros Hl. unfold splice. cbn [take app Nat.add]. by rewrite drop_replicate. Qed.

Lemma splice_raw n (bs xs : bytes) : raw n bs -> bytes_ok xs -> (length xs <= n)%nat -> raw n (splice bs 0 xs).
Proof.
  intros [Hl Hb] Hx Hxl. split; [|by apply splice_ok]. rewrite length_splice; [done|]. cbn. lia.
Qed.

Lemma replicate_raw n : raw n (replicate n 0).
Proof. split; [apply length_replicate|by apply Forall_replicate]. Qed.

Lemma u8_land_15 x : in_u 8 (x .& 15).
Proof. apply in_u_land_r; [done|]. done. Qed.

Lemma root_inode_valid i label : label_ok label -> valid (root_inode i label).
Proof using Huuid Hnow.
  intros [Hok Hl]. pose proof zero_inode_valid as Hm. split_and!.
  - pose proof (name_key_range label Hok) as Hk. pose proof (Huuid (3 + 2 * i)). pose proof (Huuid (4 + 2 * i)).
    hnf in Hm. destruct_and! Hm. unfold root_inode, set_root_inode. cbn [id_meta].
    hnf. split_and!; cbn -[zero_inode name_key Nat.mul Nat.add]; try assumption; try done.
    + by apply in_u_uwrap.
    + destruct (strcaseeq label str_BOOT); [done|by apply in_u_uwrap].
  - unfold root_inode, set_root_inode. cbn [id_filename]. rewrite zero_inode_filename.
    apply splice_raw; [apply replicate_raw|done|]. h2_unfold. lia.
  - unfold root_inode, set_root_inode. cbn [id_u]. rewrite zero_inode_u. apply replicate_raw.
Qed.

Lemma set_inode_bref_valid base key comp flags check :
  0 <= base < 2 ^ 63 -> in_u 64 key -> in_u 8 flags -> valid (set_inode_bref key comp flags check (direct_bref base)).
Proof.
  intros Hb Hk Hf. unfold set_inode_bref, direct_bref. hnf. cbn -[Z.pow].
  assert (raw 64 (splice (replicate 64 0) 0 (le_bytes 8 check))) as Hraw.
  { apply splice_raw; [apply replicate_raw|apply le_bytes_ok|]. rewrite le_bytes_length. lia. }
  pose proof (replicate_raw 16). split_and!; try assumption; try done.
  - apply in_u_lor; [done| |apply u8_land_15]. done.
  - unfold in_u. h2_unfold. lia.
Qed.

Lemma root_bref_valid base i label :
  label_ok label -> (i < 4)%nat -> 0 <= base < 2 ^ 62 -> valid (root_bref base i label).
Proof.
  intros [Hok _] Hi Hb. apply set_inode_bref_valid; [h2_unfold; lia|by apply name_key_range|done].
Qed.

Lemma sroot_inode_valid brefs :
  Forall valid brefs -> (length brefs <= 4)%nat -> valid (sroot_inode brefs).
Proof using Hnow Hclid Hfsid.
  intros Hbs Hl. pose proof zero_inode_valid as Hm. split_and!.
  - hnf in Hm. destruct_and! Hm. unfold sroot_inode, set_sroot_inode. cbn [id_meta].
    hnf. split_and!; cbn -[zero_inode]; try assumption; done.
  - unfold sroot_inode, set_sroot_inode. cbn [id_filename]. rewrite zero_inode_filename.
    apply splice_raw; [apply replicate_raw| |cbn; lia]. repeat constructor; done.
  - unfold sroot_inode, set_sroot_inode. cbn [id_u]. rewrite zero_inode_u.
    assert (valid_array (length brefs) brefs) as Hva by done.
    apply splice_raw; [apply replicate_raw|by eapply enc_array_ok|].
    rewrite (length_enc_array _ _ Hva). change (sizeof hammer2_blockref) with 128%nat. lia.
Qed.

(** ** The loop over the labels *)

(** The buffer after [length inodes] root inodes were formatted. *)
Definition inode_buf (first : bytes) (inodes : list hammer2_inode_data) : bytes :=
  first ++ enc_array inodes ++ replicate (Z.to_nat HAMMER2_PBUFSIZE - 1024 * S (length inodes)) 0.

Lemma length_enc_inodes (inodes : list hammer2_inode_data) : Forall valid inodes -> length (enc_array inodes) = (length inodes * 1024)%nat.
Proof. intros Hv. rewrite (length_enc_array (length inodes)) by done. by rewrite sizeof_inode. Qed.

Lemma inode_buf_next first inodes x :
  length first = 1024%nat -> Forall valid inodes -> valid x -> (S (length inodes) < 64)%nat ->
  read_at hammer2_inode_data (inode_buf first inodes) (1024 * S (length inodes)) = zero_inode /\
  write_at (inode_buf first inodes) (1024 * S (length inodes)) x = inode_buf first (inodes ++ [x]).
Proof.
  intros Hf Hv Hx Hl. pose proof (length_enc_inodes inodes Hv) as Hlen. unfold inode_buf.
  rewrite app_assoc. replace (1024 * S (length inodes))%nat with (length (first ++ enc_array inodes))
    by (rewrite length_app; lia).
  assert (1024 <= Z.to_nat HAMMER2_PBUFSIZE - length (first ++ enc_array inodes))%nat.
  { rewrite length_app. h2_unfold. lia. }
  split; [by apply read_zero_inode|]. unfold write_at, splice. rewrite take_app_length.
  rewrite drop_app_ge by lia. rewrite length_encode by done. rewrite sizeof_inode, drop_replicate.
  unfold enc_array. rewrite bind_app, !length_app, <- !app_assoc. cbn [mbind list_bind]. rewrite app_nil_r.
  do 4 f_equal. fold (enc_array inodes). rewrite Hlen. cbn [length]. lia.
Qed.

Lemma mask_lo_inode A k :
  A mod 2 ^ 16 = 0 -> 0 <= A -> (k < 64)%nat ->
  Z.to_nat (HAMMER2_OFF_MASK_LO .& (A + HAMMER2_INODE_BYTES * Z.of_nat k + HAMMER2_RADIX_MIN)) = (1024 * k)%nat.
Proof using. clear Hnow. intros Hm HA Hk. rewrite mask_lo by (h2_unfold; lia). h2_unfold. rewrite Z.mul_comm. dlia. Qed.

(** The image of an inode in the buffer. *)
Lemma inode_buf_image first inodes i x :
  length first = 1024%nat -> Forall valid inodes -> inodes !! i = Some x ->
  take 1024 (drop (1024 * S i) (inode_buf first inodes)) = encode x.
Proof.
  intros Hf Hv Hi. unfold inode_buf. revert i Hi. 
  assert (forall i x (l : list hammer2_inode_data) rest, Forall valid l -> l !! i = Some x ->
            take 1024 (drop (1024 * i) (enc_array l ++ rest)) = encode x) as Hgen.
  { clear. intros i x l rest Hv. revert i. induction Hv as [|y l Hy Hv IH]; intros i Hi; [done|].
    unfold enc_array. rewrite bind_cons, <- app_assoc. fold (enc_array l).
    pose proof (length_encode y Hy) as Hl. rewrite sizeof_inode in Hl.
    destruct i as [|i]; cbn in Hi.
    - injection Hi as <-. rewrite Nat.mul_0_r, drop_0. by rewrite take_app_length'.
    - replace (1024 * S i)%nat with (length (encode y) + 1024 * i)%nat by lia.
      rewrite drop_app_add. by apply IH. }
  intros i Hi. replace (1024 * S i)%nat with (length first + 1024 * i)%nat by lia.
  rewrite drop_app_add. by apply Hgen.
Qed.

Lemma format_root_spec A first inodes label (s : h2state) :
  let i := length inodes in
  A mod 2 ^ 16 = 0 -> 0 <= A < 2 ^ 62 -> (i < 4)%nat -> length first = 1024%nat -> Forall valid inodes -> label_ok label ->
  format_root uuid_generate now addr opt (A + HAMMER2_RADIX_MIN) i label (inode_buf first inodes)
    (A + HAMMER2_INODE_BYTES * Z.of_nat (S i)) s
  = Ok (inode_buf first (inodes ++ [root_inode i label]), A + HAMMER2_INODE_BYTES * Z.of_nat (S (S i)),
        root_bref A i label) s.
Proof using Huuid Hnow.
  intros i Hm HA Hi Hf Hv Hlab. unfold format_root. cbv zeta.
  set (base := A + HAMMER2_INODE_BYTES * Z.of_nat (S i)).
  rewrite (bind_Ok _ _ s (base + HAMMER2_INODE_BYTES, direct_bref base) s)
    by (apply alloc_direct_spec; unfold base; h2_unfold; [lia|dlia]).
  change (bref_data_off (direct_bref base)) with (base + HAMMER2_RADIX_MIN).
  assert (Z.to_nat (HAMMER2_OFF_MASK_LO .& (base + HAMMER2_RADIX_MIN)) = (1024 * S i)%nat) as Hoff
    by (apply mask_lo_inode; lia).
  rewrite (bool_decide_eq_true_2 (_ = 0)).
  2:{ apply same_block; unfold base; h2_unfold; dlia. }
  rewrite (bind_Ok _ _ s () s) by reflexivity. rewrite Hoff.
  pose proof (root_inode_valid i label Hlab) as Hx. destruct Hlab as [Hok Hlen].
  destruct (inode_buf_next first inodes (root_inode i label) Hf Hv Hx ltac:(lia)) as [Hrd Hwr].
  fold i in Hrd, Hwr. rewrite Hrd.
  rewrite bool_decide_eq_true_2 by lia.
  rewrite (bind_Ok _ _ s (name_key label) s).
  2:{ rewrite zero_inode_filename, splice_zero by (h2_unfold; lia).
      rewrite dirhash_spec; [reflexivity|exact Hok|unfold in_u; h2_unfold; lia]. }
  fold (root_inode i label). rewrite Hwr.
  change (Z.to_nat HAMMER2_INODE_BYTES) with (Z.to_nat 1024).
  replace (Z.to_nat 1024) with 1024%nat by lia.
  rewrite (inode_buf_image first (inodes ++ [root_inode i label]) i (root_inode i label));
    [|done|by apply Forall_app; split; [|constructor]|by apply list_lookup_middle].
  replace (base + HAMMER2_INODE_BYTES) with (A + HAMMER2_INODE_BYTES * Z.of_nat (S (S i))) by (unfold base; h2_unfold; lia).
  reflexivity.
Qed.

Lemma format_roots_spec A first labels (s : h2state) : forall inodes,
  let i := length inodes in
  A mod 2 ^ 16 = 0 -> 0 <= A < 2 ^ 62 -> (i + length labels <= 4)%nat -> length first = 1024%nat ->
  Forall valid inodes -> Forall label_ok labels ->
  format_roots uuid_generate now addr opt (A + HAMMER2_RADIX_MIN) i labels (inode_buf first inodes)
    (A + HAMMER2_INODE_BYTES * Z.of_nat (S i)) s
  = Ok (inode_buf first (inodes ++ imap (λ j l, root_inode (i + j) l) labels),
        A + HAMMER2_INODE_BYTES * Z.of_nat (S (i + length labels)),
        imap (λ j l, root_bref A (i + j) l) labels) s.
Proof using Huuid Hnow.
  induction labels as [|label labels IH]; intros inodes i Hm HA Hi Hf Hv Hlab; cbn [format_roots length] in *.
  { rewrite app_nil_r, Nat.add_0_r. reflexivity. }
  apply Forall_cons in Hlab as [Hl Hlab].
  rewrite (bind_Ok _ _ _ _ _ (format_root_spec A first inodes label s Hm HA ltac:(lia) Hf Hv Hl)). fold i.
  specialize (IH (inodes ++ [root_inode i label])). cbv zeta in IH.
  rewrite length_app in IH. cbn [length] in IH. rewrite Nat.add_1_r in IH. fold i in IH.
  rewrite (bind_Ok _ _ _ _ _ (IH Hm HA ltac:(lia) Hf
    ltac:(apply Forall_app; split; [done|constructor; [by apply root_inode_valid|done]]) Hlab)).
  rewrite <- app_assoc. cbn [app imap]. rewrite !Nat.add_0_r.
  replace (S (S i + length labels)) with (S (i + S (length labels))) by lia.
  rewrite (imap_ext (λ j l, root_inode (S i + j) l) ((λ j l, root_inode (i + j) l) ∘ S)).
  2:{ intros j x _. unfold compose. by rewrite <- Nat.add_succ_comm. }
  rewrite (imap_ext (λ j l, root_bref A (S i + j) l) ((λ j l, root_bref A (i + j) l) ∘ S)); [reflexivity|].
  intros j x _. unfold compose. by rewrite <- Nat.add_succ_comm.
Qed.

(** ** The whole block *)

Definition root_inodes : list hammer2_inode_data := imap root_inode (Label opt).
Definition root_brefs (A : Z) : list hammer2_blockref := qsort (imap (root_bref A) (Label opt)).
Definition inode_block (A : Z) : bytes := inode_buf (encode (sroot_inode (root_brefs A))) root_inodes.

Lemma qsort_perm l : qsort l ≡ₚ l.
Proof. apply merge_sort_Permutation. Qed.

Lemma root_inodes_valid : Forall label_ok (Label opt) -> Forall valid root_inodes.
Proof using Huuid Hnow.
  intros Hl. apply Forall_lookup. intros i x Hx. unfold root_inodes in Hx. rewrite list_lookup_imap in Hx.
  destruct (Label opt !! i) as [l|] eqn:E; [|done]. injection Hx as <-. apply root_inode_valid.
  by apply (Forall_lookup_1 _ _ _ _ Hl E).
Qed.

Lemma root_brefs_valid A :
  Forall label_ok (Label opt) -> (length (Label opt) <= 4)%nat -> 0 <= A < 2 ^ 62 ->
  Forall valid (root_brefs A) /\ length (root_brefs A) = length (Label opt).
Proof.
  intros Hl Hn HA. unfold root_brefs. split.
  - apply Forall_forall. intros x Hx. rewrite qsort_perm in Hx. apply list_elem_of_lookup in Hx as [i Hx].
    rewrite list_lookup_imap in Hx. destruct (Label opt !! i) as [l|] eqn:E; [|done]. injection Hx as <-.
    apply root_bref_valid; [by apply (Forall_lookup_1 _ _ _ _ Hl E)| |done]. apply lookup_lt_Some in E. lia.
  - rewrite (Permutation_length (qsort_perm _)). apply length_imap.
Qed.

Lemma length_inode_block A :
  Forall label_ok (Label opt) -> (length (Label opt) <= 4)%nat -> 0 <= A < 2 ^ 62 ->
  Z.of_nat (length (inode_block A)) = HAMMER2_PBUFSIZE /\ bytes_ok (inode_block A).
Proof using Huuid Hnow Hclid Hfsid.
  intros Hl Hn HA. destruct (root_brefs_valid A Hl Hn HA) as [Hbv Hbl].
  pose proof (root_inodes_valid Hl) as Hiv. assert (length root_inodes = length (Label opt)) as Hil by apply length_imap.
  assert (valid (sroot_inode (root_brefs A))) as Hs by (apply sroot_inode_valid; [done|lia]).
  unfold inode_block, inode_buf. split.
  - rewrite !length_app, length_encode, length_enc_inodes, length_replicate, sizeof_inode by done.
    h2_unfold. lia.
  - apply Forall_app. split; [by apply encode_ok|]. apply Forall_app. split.
    + by eapply (enc_array_ok (length root_inodes)).
    + by apply Forall_replicate.
Qed.
End inodes.
