(* ===== verification/H2Format.v ===== *)
(** * H2Format: what newfs_hammer2 writes to a volume

    The effect of [format_hammer2] on the file of one volume: the cleared areas, the block
    with the super-root and the root inodes, and the copies of the header. *)

From stdpp Require Import sorting.
From S2P Require Import Prelude HammerDisk Layout Crc32 HammerCrc CMonad Ondisk CacheInv Newfs H2Disk H2Volumes H2Mkfs H2Header H2Verify H2Inode.

#[local] Opaque Z.to_nat.

(** ** Writing to one file *)

Definition with_file (ino : Z) (f : file) (s : h2state) : h2state :=
  set_nodes (alter (set_nd_file f) ino (nodes (sys s))) s.

Lemma with_file_twice ino f g s : with_file ino g (with_file ino f s) = with_file ino g s.
Proof.
  unfold with_file, set_nodes, set_sys. cbn. do 2 f_equal. apply map_eq. intros j.
  destruct (decide (j = ino)) as [->|]; [|by rewrite !lookup_alter_ne].
  rewrite !lookup_alter_eq. by destruct (nodes (sys s) !! ino).
Qed.

Lemma with_file_id ino nd s : nodes (sys s) !! ino = Some nd -> with_file ino (nd_file nd) s = s.
Proof.
  intros Hn. unfold with_file, set_nodes, set_sys. destruct s as [[nm nds dt] fdm nf o b]. cbn in *.
  do 2 f_equal. apply map_eq. intros j. destruct (decide (j = ino)) as [->|].
  - rewrite lookup_alter_eq, Hn. cbn. by destruct nd.
  - by rewrite lookup_alter_ne.
Qed.

Section volume.
Context (s0 : h2state) (fd ino : Z) (nd : node).
Context (Hnode : fd_node s0 fd = Some (ino, nd)).

Lemma fd_node_nodes : fds s0 !! fd = Some ino /\ nodes (sys s0) !! ino = Some nd.
Proof using Hnode.
  unfold fd_node in Hnode. destruct (fds s0 !! fd) as [i|]; [|done]. cbn in Hnode.
  destruct (nodes (sys s0) !! i) as [n|] eqn:E; [|done]. cbn in Hnode. by injection Hnode as -> ->.
Qed.

Lemma fd_node_with f : fd_node (with_file ino f s0) fd = Some (ino, set_nd_file f nd).
Proof using Hnode.
  destruct fd_node_nodes as [Hf Hn]. unfold fd_node. cbn. rewrite Hf. cbn. rewrite lookup_alter_eq, Hn. done.
Qed.

(** The states while one volume is written are [with_file ino f s0]. *)
Lemma write_pbuf_spec f buf off :
  Z.of_nat (length buf) = HAMMER2_PBUFSIZE -> 0 <= off -> off + HAMMER2_PBUFSIZE <= f_size f ->
  write_pbuf fd buf off (with_file ino f s0) = Ok () (with_file ino (file_write f off buf) s0).
Proof using Hnode.
  intros Hl Ho Hs. unfold write_pbuf, sys_pwrite, mbind, prog_bind, get_state.
  rewrite fd_node_with. cbn [nd_file set_nd_file]. rewrite pwrite_full by lia. cbn.
  rewrite <- Hl, Nat2Z.id, bool_decide_eq_false_2 by auto. cbn. f_equal.
  unfold with_file, set_nodes, set_sys. cbn. do 2 f_equal.
  apply map_eq. intros j. destruct fd_node_nodes as [_ Hn]. destruct (decide (j = ino)) as [->|].
  - by rewrite lookup_insert_eq, !lookup_alter_eq, Hn.
  - by rewrite lookup_insert_ne, !lookup_alter_ne by done.
Qed.

(** [f'] is [f] with the range cleared. *)
Definition cleared (lo hi : Z) (f f' : file) : Prop :=
  f_size f' = f_size f /\ f_growable f' = f_growable f /\
  forall o, f_data f' o = if bool_decide (lo <= o < hi) then 0 else f_data f o.

Lemma nth_zero n i : nth i (replicate n 0) 0 = 0.
Proof. revert i. induction n as [|n IH]; intros [|i]; cbn; auto. Qed.

Lemma length_zero_pbuf : Z.of_nat (length zero_pbuf) = HAMMER2_PBUFSIZE.
Proof. unfold zero_pbuf. by rewrite length_replicate. Qed.

Lemma zero_pbuf_ok : bytes_ok zero_pbuf.
Proof. unfold bytes_ok, zero_pbuf. apply Forall_replicate. unfold in_u. lia. Qed.

Lemma cleared_write f lo hi f' :
  lo + HAMMER2_PBUFSIZE <= f_size f -> lo <= hi ->
  cleared (lo + HAMMER2_PBUFSIZE) (hi + HAMMER2_PBUFSIZE) (file_write f lo zero_pbuf) f' ->
  cleared lo (hi + HAMMER2_PBUFSIZE) f f'.
Proof.
  intros Hs Hlh (Hsz & Hg & Hd). pose proof length_zero_pbuf as Hl. cbn [file_write f_size f_growable f_data] in *.
  split_and!; [lia|done|]. intros o. rewrite Hd, Hl. unfold zero_pbuf. rewrite nth_zero.
  repeat case_bool_decide; first [reflexivity|exfalso; h2_unfold; lia].
Qed.

Lemma clear_blocks_spec n f lo :
  0 <= lo -> lo + Z.of_nat n * HAMMER2_PBUFSIZE <= f_size f -> f_size f < 2 ^ 64 ->
  exists f', clear_blocks fd n lo (with_file ino f s0) = Ok () (with_file ino f' s0) /\
    cleared lo (lo + Z.of_nat n * HAMMER2_PBUFSIZE) f f'.
Proof using Hnode.
  revert f lo. induction n as [|n IH]; intros f lo Hlo Hs H64; cbn [clear_blocks].
  { exists f. split; [done|]. split_and!; [done..|]. intros o. by rewrite bool_decide_eq_false_2 by lia. }
  assert (lo + HAMMER2_PBUFSIZE <= f_size f) as Hfit by (h2_unfold; lia).
  rewrite (bind_Ok _ _ _ _ _ (write_pbuf_spec f zero_pbuf lo length_zero_pbuf Hlo Hfit)).
  destruct (IH (file_write f lo zero_pbuf) (lo + HAMMER2_PBUFSIZE)) as (f' & Hrun & Hcl);
    [h2_unfold; lia|cbn; rewrite length_zero_pbuf; h2_unfold; lia|cbn; rewrite length_zero_pbuf; h2_unfold; lia|].
  rewrite uwrap_small by (unfold in_u; h2_unfold; lia).
  exists f'. split; [exact Hrun|].
  replace (lo + Z.of_nat (S n) * HAMMER2_PBUFSIZE) with (lo + Z.of_nat n * HAMMER2_PBUFSIZE + HAMMER2_PBUFSIZE)
    by (h2_unfold; lia).
  apply cleared_write; [done|h2_unfold; lia|].
  by replace (lo + Z.of_nat n * HAMMER2_PBUFSIZE + HAMMER2_PBUFSIZE)
    with (lo + HAMMER2_PBUFSIZE + Z.of_nat n * HAMMER2_PBUFSIZE) by (h2_unfold; lia).
Qed.

(** The loop with the test clears whole blocks up to [hi]. *)
Lemma clear_areas_blocks n lo fuel s :
  0 <= lo -> lo + Z.of_nat n * HAMMER2_PBUFSIZE < 2 ^ 64 -> (n <= fuel)%nat ->
  clear_areas fuel fd lo (lo + Z.of_nat n * HAMMER2_PBUFSIZE) s = clear_blocks fd n lo s.
Proof.
  revert fuel lo s. induction n as [|n IH]; intros fuel lo s Hlo Hhi Hf.
  - destruct fuel; cbn [clear_areas]; by rewrite bool_decide_eq_false_2 by lia.
  - destruct fuel as [|fuel]; [lia|]. cbn [clear_areas clear_blocks].
    rewrite bool_decide_eq_true_2 by (h2_unfold; lia). unfold mbind, prog_bind.
    destruct (write_pbuf fd zero_pbuf lo s) as [[] s1|]; [|done].
    rewrite (uwrap_small 64 (lo + HAMMER2_PBUFSIZE)) by (unfold in_u; h2_unfold; lia).
    rewrite <- (IH fuel) by (h2_unfold; lia). f_equal. h2_unfold. lia.
Qed.

Lemma cleared_join lo mid hi f g h :
  lo <= mid <= hi -> cleared lo mid f g -> cleared mid hi g h -> cleared lo hi f h.
Proof.
  intros Hm (Hs1 & Hg1 & Hd1) (Hs2 & Hg2 & Hd2). split_and!; [congruence..|].
  intros o. rewrite Hd2, Hd1. repeat case_bool_decide; first [reflexivity|exfalso; lia].
Qed.

Lemma land_mask_0 x k : 0 <= k -> x mod 2 ^ k = 0 -> x .& (2 ^ k - 1) = 0.
Proof. intros Hk Hx. replace (2 ^ k - 1) with (Z.ones k) by (rewrite Z.ones_equiv; lia). by rewrite land_ones_mod. Qed.

Lemma format_hammer2_misc_spec vol opt f boot aux :
  hv_fd vol = fd -> opt_AuxAreaSize opt = aux ->
  0 <= boot -> 0 <= aux -> boot mod HAMMER2_PBUFSIZE = 0 -> aux mod HAMMER2_PBUFSIZE = 0 ->
  HAMMER2_ZONE_SEG + boot + aux < HAMMER2_FREEMAP_LEVEL1_SIZE ->
  HAMMER2_ZONE_SEG + boot + aux <= f_size f -> f_size f < 2 ^ 64 ->
  exists f', format_hammer2_misc vol opt HAMMER2_ZONE_SEG (HAMMER2_ZONE_SEG + boot) (with_file ino f s0)
      = Ok (HAMMER2_ZONE_SEG + boot + aux) (with_file ino f' s0) /\
    cleared 0 (HAMMER2_ZONE_SEG + boot + aux) f f'.
Proof using Hnode.
  intros Hfd Haux Hb Ha Hbm Ham H1 Hs H64. unfold format_hammer2_misc. rewrite Hfd, Haux. cbv zeta.
  rewrite (uwrap_small 64 (HAMMER2_ZONE_SEG + boot + aux)) by (unfold in_u; h2_unfold; lia).
  set (hi := HAMMER2_ZONE_SEG + boot + aux) in *.
  assert (hi mod HAMMER2_PBUFSIZE = 0) as Hhi by (unfold hi; h2_unfold; dlia).
  destruct (clear_blocks_spec (Z.to_nat HAMMER2_ZONE_BLOCKS_SEG) f 0) as (f1 & Hrun1 & Hcl1);
    [lia|change (Z.of_nat (Z.to_nat HAMMER2_ZONE_BLOCKS_SEG)) with 64; unfold hi in Hs; h2_unfold; lia|done|].
  rewrite (bind_Ok _ _ _ _ _ Hrun1).
  rewrite (bool_decide_eq_true_2 (hi .& HAMMER2_PBUFMASK = 0)) by (by apply (land_mask_0 hi 16)).
  rewrite (bind_Ok _ _ _ _ _ (eq_refl : assertp true _ = Ok () _)).
  rewrite (bool_decide_eq_true_2 (hi < _)) by done.
  rewrite (bind_Ok _ _ _ _ _ (eq_refl : assertp true _ = Ok () _)).
  set (n := Z.to_nat ((hi - HAMMER2_ZONE_SEG) / HAMMER2_PBUFSIZE)).
  assert (HAMMER2_ZONE_SEG + Z.of_nat n * HAMMER2_PBUFSIZE = hi) as Hn.
  { unfold n. rewrite Z2Nat.id by (unfold hi; h2_unfold; dlia). unfold hi in *. h2_unfold. dlia. }
  assert (n <= Z.to_nat (2 ^ 14))%nat as Hfuel by (h2_unfold; lia).
  change (Z.of_nat (Z.to_nat HAMMER2_ZONE_BLOCKS_SEG)) with 64 in Hcl1.
  change (0 + 64 * HAMMER2_PBUFSIZE) with HAMMER2_ZONE_SEG in Hcl1. pose proof Hcl1 as (Hsz1 & _ & _).
  destruct (clear_blocks_spec n f1 HAMMER2_ZONE_SEG) as (f2 & Hrun2 & Hcl2); [h2_unfold; lia|rewrite Hn; lia|lia|].
  rewrite Hn in Hcl2.
  rewrite (bind_Ok _ _ _ () (with_file ino f2 s0)).
  - exists f2. split; [done|]. eapply cleared_join; [|done|done]. unfold hi. h2_unfold. lia.
  - rewrite <- Hrun2, <- (clear_areas_blocks n HAMMER2_ZONE_SEG (Z.to_nat (2 ^ 14)));
      [by rewrite Hn|h2_unfold; lia|rewrite Hn; h2_unfold; lia|done].
Qed.

(** ** The inodes *)

Section inode.
Context (uuid_generate : nat -> bytes) (now addr : Z) (opt : hammer2_mkfs_options).
Context (Huuid : forall i, raw 16 (uuid_generate i)) (Hnow : in_u 64 now).
Context (Hclid : raw 16 (Hammer2_SupCLID opt)) (Hfsid : raw 16 (Hammer2_SupFSID opt)).
Context (Hlabels : Forall label_ok (Label opt)) (Hnlabels : (length (Label opt) <= 4)%nat).

Lemma first_inode (first : bytes) rest x :
  length first = 1024%nat -> valid x ->
  write_at (A := hammer2_inode_data) (first ++ rest) 0 x = encode x ++ rest.
Proof.
  intros Hf Hx. unfold write_at, splice. cbn [take app Nat.add]. rewrite length_encode by done.
  by rewrite sizeof_inode, drop_app_length'.
Qed.

Lemma format_hammer2_inode_spec vol f A :
  hv_fd vol = fd -> A mod 2 ^ 16 = 0 -> 0 <= A < 2 ^ 62 -> A + HAMMER2_PBUFSIZE <= f_size f ->
  format_hammer2_inode uuid_generate now addr vol opt A (with_file ino f s0)
  = Ok (A + HAMMER2_INODE_BYTES * Z.of_nat (S (length (Label opt))),
        sroot_bref now opt A (root_brefs uuid_generate now opt A))
      (with_file ino (file_write f A (inode_block uuid_generate now opt A)) s0).
Proof using All.
  intros Hfd Hm HA Hs. set (s := with_file ino f s0). unfold format_hammer2_inode. rewrite Hfd. cbv zeta.
  rewrite block_base, Hm, Z.sub_0_r by (unfold in_u; lia).
  rewrite (bind_Ok _ _ s (A + HAMMER2_INODE_BYTES, direct_bref A) s) by (apply alloc_direct_spec; [lia|dlia]).
  change (bref_data_off (direct_bref A)) with (A + HAMMER2_RADIX_MIN).
  assert (zero_pbuf = inode_buf (replicate 1024 0) []) as ->.
  { unfold zero_pbuf, inode_buf, enc_array. cbn [mbind list_bind app length].
    replace (Z.to_nat HAMMER2_PBUFSIZE) with (1024 + (Z.to_nat HAMMER2_PBUFSIZE - 1024 * 1))%nat at 1
      by (h2_unfold; lia). apply replicate_add. }
  pose proof (format_roots_spec uuid_generate now addr opt Huuid Hnow A (replicate 1024 0) (Label opt) s [] Hm HA
    Hnlabels (length_replicate _ _) (Forall_nil_2 _) Hlabels) as Hroots.
  cbn [length Nat.add] in Hroots. rewrite Z.mul_1_r in Hroots. rewrite (bind_Ok _ _ _ _ _ Hroots). clear Hroots.
  cbn [app].
  assert (Z.to_nat (HAMMER2_OFF_MASK_LO .& (A + HAMMER2_RADIX_MIN)) = 0%nat) as ->.
  { pose proof (mask_lo_inode A 0 Hm ltac:(lia) ltac:(lia)) as H0. by rewrite Z.mul_0_r, Z.add_0_r in H0. }
  change (imap (λ j l, root_inode uuid_generate now opt j l) (Label opt)) with (root_inodes uuid_generate now opt).
  change (qsort (imap (λ j l, root_bref uuid_generate now opt A j l) (Label opt)))
    with (root_brefs uuid_generate now opt A).
  destruct (root_brefs_valid uuid_generate now opt A Hlabels Hnlabels HA) as [Hbv Hbl].
  assert (valid (sroot_inode now opt (root_brefs uuid_generate now opt A))) as Hsv
    by (apply sroot_inode_valid; [done..|lia]).
  assert (read_at hammer2_inode_data (inode_buf (replicate 1024 0) (root_inodes uuid_generate now opt)) 0 = zero_inode) as ->.
  { rewrite <- (read_zero_inode [] 1024) by lia. apply read_at_take. unfold inode_buf. rewrite !drop_0, sizeof_inode.
    rewrite take_app_length' by (by rewrite length_replicate). cbn [app]. by rewrite take_replicate. }
  fold (sroot_inode now opt (root_brefs uuid_generate now opt A)).
  assert (write_at (inode_buf (replicate 1024 0) (root_inodes uuid_generate now opt)) 0
            (sroot_inode now opt (root_brefs uuid_generate now opt A)) = inode_block uuid_generate now opt A) as ->.
  { unfold inode_buf. rewrite first_inode; [reflexivity|apply length_replicate|exact Hsv]. }
  assert (take (Z.to_nat HAMMER2_INODE_BYTES) (drop 0 (inode_block uuid_generate now opt A))
          = encode (sroot_inode now opt (root_brefs uuid_generate now opt A))) as ->.
  { rewrite drop_0. unfold inode_block, inode_buf. apply take_app_length'. rewrite length_encode by exact Hsv.
    rewrite sizeof_inode. h2_unfold. lia. }
  set (sroot := set_inode_bref _ _ _ _ _).
  change (bref_data_off sroot) with (A + HAMMER2_RADIX_MIN).
  change sroot with (sroot_bref now opt A (root_brefs uuid_generate now opt A)). clear sroot.
  assert (in_u 64 (A + HAMMER2_INODE_BYTES * Z.of_nat (S (length (Label opt))) - 1)) as Hend
    by (unfold in_u; h2_unfold; lia).
  rewrite (uwrap_small _ _ Hend), !block_base by (try exact Hend; unfold in_u; h2_unfold; lia).
  replace (A + HAMMER2_RADIX_MIN - (A + HAMMER2_RADIX_MIN) mod 2 ^ 16) with A by (h2_unfold; dlia).
  rewrite (bool_decide_eq_true_2 (A = _)) by (h2_unfold; dlia).
  rewrite (bind_Ok _ _ s () s) by reflexivity.
  destruct (length_inode_block uuid_generate now opt Huuid Hnow Hclid Hfsid A Hlabels Hnlabels HA) as [Hlen _].
  rewrite (bind_Ok _ _ _ _ _ (write_pbuf_spec f _ A Hlen (proj1 HA) Hs)). reflexivity.
Qed.
End inode.

(** ** The copies of the header *)

Lemma write_headers_spec buf size n : forall f i,
  Z.of_nat (length buf) = HAMMER2_PBUFSIZE -> bytes_ok buf -> 0 <= i -> size mod HAMMER2_VOLUME_ALIGN = 0 ->
  size <= f_size f -> file_ok f ->
  exists f', write_headers fd buf size n i (with_file ino f s0) = Ok () (with_file ino f' s0) /\
    f_size f' = f_size f /\ file_ok f' /\
    (forall j, i <= j < i + Z.of_nat n -> j * HAMMER2_ZONE_BYTES64 < size -> header_at f' j = buf) /\
    (forall o m, (forall j, i <= j -> j * HAMMER2_ZONE_BYTES64 < size ->
        o + Z.of_nat m <= j * HAMMER2_ZONE_BYTES64 \/ j * HAMMER2_ZONE_BYTES64 + HAMMER2_PBUFSIZE <= o) ->
        file_read f' o m = file_read f o m).
Proof using Hnode.
  induction n as [|n IH]; intros f i Hl Hok Hi Hal Hs Hf; cbn [write_headers].
  { exists f. split_and!; try done. intros j Hj. lia. }
  case_bool_decide as Hz.
  { exists f. split_and!; try done. intros j Hj Hlt. h2_unfold. lia. }
  assert (i * HAMMER2_ZONE_BYTES64 + HAMMER2_PBUFSIZE <= size) as Hfit by (h2_unfold; dlia).
  assert (0 <= i * HAMMER2_ZONE_BYTES64) as Hi0 by (h2_unfold; lia).
  rewrite (bind_Ok _ _ _ _ _ (write_pbuf_spec f buf _ Hl Hi0 ltac:(lia))).
  set (g := file_write f (i * HAMMER2_ZONE_BYTES64) buf).
  assert (f_size g = f_size f) as Hg by (cbn; lia).
  assert (file_ok g) as Hgok by (split; [rewrite Hg; apply Hf|apply file_write_ok; [done|apply Hf]]).
  destruct (IH g (i + 1)) as (f' & Hrun & Hsz & Hok' & Hhdr & Hframe); [done|done|lia|done|lia|done|].
  exists f'. split_and!; [exact Hrun|lia|done| |].
  - intros j Hj Hlt. destruct (decide (j = i)) as [->|]; [|apply Hhdr; [lia|done]].
    unfold header_at. rewrite Hframe; [|intros k Hk Hlk; h2_unfold; lia].
    unfold g. replace (Z.to_nat HAMMER2_PBUFSIZE) with (length buf) by lia. apply file_read_write_same.
  - intros o m Ho. rewrite Hframe by (intros k Hk Hlk; apply Ho; [lia|done]).
    unfold g. apply file_read_write_apart. rewrite Hl. destruct (Ho i); lia.
Qed.
End volume.

(** ** The header of a volume *)

Lemma zero_bref_valid : valid zero_bref.
Proof. hnf. split_and!; cbn; try done; apply replicate_raw. Qed.
Lemma invalid_bref_valid : valid invalid_bref.
Proof. hnf. split_and!; cbn; try done; apply replicate_raw. Qed.

(** The volumes and options a header is made from. *)
Record format_ok (o : hammer2_ondisk) (opt : hammer2_mkfs_options) : Prop := {
  fo_length : length (o_volumes o) = 64%nat;
  fo_volumes : Forall (λ v, in_u 64 (hv_offset v) /\ in_u 64 (hv_size v)) (o_volumes o);
  fo_total : in_u 64 (o_total_size o);
  fo_free : in_u 64 (o_free_size o);
  fo_boot : 0 <= opt_BootAreaSize opt < 2 ^ 62;
  fo_aux : 0 <= opt_AuxAreaSize opt < 2 ^ 62;
  fo_volfsid : raw 16 (Hammer2_VolFSID opt);
  fo_fstype : raw 16 (Hammer2_FSType opt);
}.

Lemma loffs_valid o opt : format_ok o opt -> valid_ints 8 64 (loffs o).
Proof.
  intros Hf. split; [unfold loffs; rewrite length_imap; apply Hf|].
  apply Forall_lookup. intros i x Hx. unfold loffs in Hx. rewrite list_lookup_imap in Hx.
  destruct (o_volumes o !! i) as [v|] eqn:E; [|done]. cbn in Hx. injection Hx as <-.
  destruct (Forall_lookup_1 _ _ _ _ (fo_volumes _ _ Hf) E) as [Ho _].
  case_bool_decide; [exact Ho|done].
Qed.

Lemma volume_header_valid o opt vol alloc brefs :
  format_ok o opt -> in_u 64 (hv_size vol) -> in_u 64 alloc -> valid_array 4 brefs ->
  valid (volume_header o opt vol HAMMER2_ZONE_SEG (HAMMER2_ZONE_SEG + opt_BootAreaSize opt) alloc brefs).
Proof.
  intros Hf Hsz Hal Hbr. pose proof (loffs_valid o opt Hf) as Hlo. destruct Hf.
  assert (forall n w, valid_ints w n (replicate n 0)) as Hints.
  { intros n w. split; [apply length_replicate|]. apply Forall_replicate. unfold in_u. lia. }
  assert (valid_array 4 (replicate 4 zero_bref)) as Hzb.
  { split; [done|]. apply Forall_replicate, zero_bref_valid. }
  hnf. unfold volume_header. cbv zeta. generalize (bool_decide (hv_id vol = HAMMER2_ROOT_VOLUME)). intros root.
  generalize (bool_decide (HAMMER2_VOL_VERSION_MULTI_VOLUMES <= u32 (Hammer2Version opt))). intros multi.
  split_and!; cbn -[Z.pow replicate loffs COPYINFO_BYTES RESERVED9000_BYTES];
    try apply replicate_raw; try assumption; try apply Hints; try done.
  all: try destruct root; try destruct multi;
    first [assumption|by apply in_u_uwrap|apply Hints|unfold in_u; h2_unfold; lia].
Qed.

(** ** One volume *)

Section format.
Context (uuid_generate : nat -> bytes) (now addr : Z) (opt : hammer2_mkfs_options) (o : hammer2_ondisk).
Context (Huuid : forall i, raw 16 (uuid_generate i)) (Hnow : in_u 64 now).
Context (Hclid : raw 16 (Hammer2_SupCLID opt)) (Hfsid : raw 16 (Hammer2_SupFSID opt)).
Context (Hlabels : Forall label_ok (Label opt)) (Hnlabels : (length (Label opt) <= 4)%nat).
Context (Hfo : format_ok o opt).
Context (Hboot : opt_BootAreaSize opt mod HAMMER2_PBUFSIZE = 0) (Haux : opt_AuxAreaSize opt mod HAMMER2_PBUFSIZE = 0).

(** The first address after the reserved, the boot and the aux area. *)
Definition inode_base : Z := HAMMER2_ZONE_SEG + opt_BootAreaSize opt + opt_AuxAreaSize opt.

(** The header of [vol], up to its checksums. *)
Definition expected_header (vol : hammer2_volume) : hammer2_volume_data :=
  let root := bool_decide (hv_id vol = HAMMER2_ROOT_VOLUME) in
  volume_header o opt vol HAMMER2_ZONE_SEG (HAMMER2_ZONE_SEG + opt_BootAreaSize opt)
    (if root then inode_base + HAMMER2_INODE_BYTES * Z.of_nat (S (length (Label opt))) else 0)
    (if root then sroot_bref now opt inode_base (root_brefs uuid_generate now opt inode_base) :: replicate 3 zero_bref
     else replicate 4 invalid_bref).

(** What formatting does to the file of a volume. *)
Definition formatted (vol : hammer2_volume) (f f' : file) : Prop :=
  f_size f' = f_size f /\ file_ok f' /\
  (exists c1 c0 cv, let vd := with_crcs c1 c0 cv (expected_header vol) in
     valid vd /\ header_ok (encode vd) = true /\
     forall j, 0 <= j < HAMMER2_NUM_VOLHDRS -> j * HAMMER2_ZONE_BYTES64 < hv_size vol -> header_at f' j = encode vd) /\
  (hv_id vol = HAMMER2_ROOT_VOLUME ->
     file_read f' inode_base (Z.to_nat HAMMER2_PBUFSIZE) = inode_block uuid_generate now opt inode_base) /\
  (forall p n, hv_size vol <= p -> file_read f' p n = file_read f p n).

Lemma cleared_frame lo hi f f' p n : cleared lo hi f f' -> hi <= p -> file_read f' p n = file_read f p n.
Proof.
  intros (_ & _ & Hd) Hp. apply list_eq_same_length with n; [by rewrite length_file_read..|].
  intros i x y Hi Hx Hy. rewrite lookup_file_read in Hx, Hy by done. injection Hx as <-. injection Hy as <-.
  rewrite Hd. by rewrite bool_decide_eq_false_2 by lia.
Qed.

Lemma cleared_ok lo hi f f' : cleared lo hi f f' -> file_ok f -> file_ok f'.
Proof.
  intros (Hs & _ & Hd) [Hs0 Hb]. split; [lia|]. intros i. rewrite Hd. case_bool_decide; [done|apply Hb].
Qed.

(** The part of [format_hammer2] before the header. *)
Lemma format_body_spec s fd ino nd vol f :
  fd_node s fd = Some (ino, nd) -> hv_fd vol = fd -> file_ok f -> f_size f < 2 ^ 63 ->
  hv_size vol <= f_size f ->
  hv_id vol = HAMMER2_ROOT_VOLUME -> inode_base < HAMMER2_FREEMAP_LEVEL1_SIZE ->
  inode_base + HAMMER2_PBUFSIZE <= hv_size vol ->
  exists g, (alloc_base ← format_hammer2_misc vol opt HAMMER2_ZONE_SEG (HAMMER2_ZONE_SEG + opt_BootAreaSize opt);
       '(alloc_base, sroot) ← format_hammer2_inode uuid_generate now addr vol opt alloc_base;
       mret (alloc_base, sroot :: replicate 3 zero_bref)) (with_file ino f s)
    = Ok (inode_base + HAMMER2_INODE_BYTES * Z.of_nat (S (length (Label opt))),
          sroot_bref now opt inode_base (root_brefs uuid_generate now opt inode_base) :: replicate 3 zero_bref)
        (with_file ino g s) /\
    f_size g = f_size f /\ file_ok g /\
    file_read g inode_base (Z.to_nat HAMMER2_PBUFSIZE) = inode_block uuid_generate now opt inode_base /\
    (forall p n, hv_size vol <= p -> file_read g p n = file_read f p n).
Proof using All.
  intros Hn Hfd Hok H63 Hsz Hroot H1 Hroom. pose proof (fo_boot _ _ Hfo). pose proof (fo_aux _ _ Hfo).
  destruct (format_hammer2_misc_spec s fd ino nd Hn vol opt f (opt_BootAreaSize opt) (opt_AuxAreaSize opt))
    as (g & Hrun & Hcl); [done|done|lia|lia|done|done|exact H1|unfold inode_base in *; h2_unfold; lia|lia|].
  fold inode_base in Hrun, Hcl. pose proof Hcl as (Hgs & _ & _).
  assert (inode_base mod 2 ^ 16 = 0) as Hib by (unfold inode_base; h2_unfold; dlia).
  assert (0 <= inode_base < 2 ^ 62) as Hir by (unfold inode_base in *; h2_unfold; lia).
  destruct (length_inode_block uuid_generate now opt Huuid Hnow Hclid Hfsid inode_base Hlabels Hnlabels Hir) as [Hbl Hbok].
  exists (file_write g inode_base (inode_block uuid_generate now opt inode_base)). split_and!.
  - rewrite (bind_Ok _ _ _ _ _ Hrun).
    erewrite bind_Ok; [|apply (format_hammer2_inode_spec s fd ino nd); try done; lia]. reflexivity.
  - cbn. rewrite Hbl. lia.
  - split; [cbn; rewrite Hbl; h2_unfold; lia|]. apply file_write_ok; [done|]. apply (cleared_ok _ _ _ _ Hcl Hok).
  - replace (Z.to_nat HAMMER2_PBUFSIZE) with (length (inode_block uuid_generate now opt inode_base)) by lia.
    apply file_read_write_same.
  - intros p n Hp. rewrite file_read_write_apart by lia. apply (cleared_frame _ _ _ _ _ _ Hcl). h2_unfold. lia.
Qed.

Lemma expected_header_valid vol :
  in_u 64 (hv_size vol) -> inode_base < HAMMER2_FREEMAP_LEVEL1_SIZE -> valid (expected_header vol).
Proof using All.
  intros Hsz H1. pose proof (fo_boot _ _ Hfo). pose proof (fo_aux _ _ Hfo).
  assert (0 <= inode_base < 2 ^ 62) as Hir by (unfold inode_base in *; h2_unfold; lia).
  unfold expected_header. cbv zeta. apply volume_header_valid; [done|done| |].
  - case_bool_decide; [|done]. unfold in_u. h2_unfold. lia.
  - case_bool_decide.
    + split; [done|]. constructor; [|apply Forall_replicate, zero_bref_valid].
      apply set_inode_bref_valid; [lia|done|done].
    + split; [done|]. apply Forall_replicate, invalid_bref_valid.
Qed.

Lemma format_hammer2_spec s fd ino nd vol index :
  o_volumes o !! index = Some vol ->
  fd_node s fd = Some (ino, nd) -> hv_fd vol = fd -> file_ok (nd_file nd) -> f_size (nd_file nd) < 2 ^ 63 ->
  HAMMER2_VOLUME_ALIGN <= hv_size vol <= f_size (nd_file nd) -> hv_size vol mod HAMMER2_VOLUME_ALIGN = 0 ->
  inode_base < HAMMER2_FREEMAP_LEVEL1_SIZE ->
  (hv_id vol = HAMMER2_ROOT_VOLUME -> inode_base + HAMMER2_PBUFSIZE <= hv_size vol) ->
  exists f', format_hammer2 uuid_generate now addr o opt index s = Ok () (with_file ino f' s) /\
    formatted vol (nd_file nd) f'.
Proof using All.
  intros Hvol Hn Hfd Hok H63 Hsz Hal H1 Hroom. pose proof (fo_boot _ _ Hfo) as Hb. pose proof (fo_aux _ _ Hfo) as Ha.
  set (f := nd_file nd) in *. unfold format_hammer2.
  rewrite Hvol. rewrite (bind_Ok _ _ s vol s) by reflexivity. cbv zeta. rewrite Hfd.
  rewrite (uwrap_small 64 (HAMMER2_ZONE_SEG + opt_BootAreaSize opt)) by (unfold in_u; h2_unfold; lia).
  rewrite uwrap_small, swrap_small by (try done; unfold in_u, in_s; h2_unfold; lia).
  destruct (fd_node_nodes s fd ino nd Hn) as [_ Hnode]. 
  pose proof (length_zero_pbuf) as Hzl.
  pose proof (write_pbuf_spec s fd ino nd Hn f zero_pbuf (hv_size vol - HAMMER2_PBUFSIZE) Hzl
    ltac:(h2_unfold; lia) ltac:(lia)) as Hlast.
  unfold f in Hlast at 1. rewrite (with_file_id ino nd s Hnode) in Hlast. rewrite (bind_Ok _ _ _ _ _ Hlast).
  set (g := file_write f (hv_size vol - HAMMER2_PBUFSIZE) zero_pbuf).
  assert (f_size g = f_size f) as Hgs by (cbn; rewrite Hzl; lia).
  assert (file_ok g) as Hgok.
  { split; [rewrite Hgs; apply Hok|]. apply file_write_ok; [apply zero_pbuf_ok|apply Hok]. }
  assert (forall p n, hv_size vol <= p -> file_read g p n = file_read f p n) as Hgf.
  { intros p n Hp. apply file_read_write_apart. rewrite Hzl. lia. }
  assert (valid (expected_header vol)) as Hev.
  { apply expected_header_valid; [unfold in_u; h2_unfold; lia|done]. }
  assert (exists h, (if bool_decide (hv_id vol = HAMMER2_ROOT_VOLUME) then
       alloc_base ← format_hammer2_misc vol opt HAMMER2_ZONE_SEG (HAMMER2_ZONE_SEG + opt_BootAreaSize opt);
       '(alloc_base, sroot) ← format_hammer2_inode uuid_generate now addr vol opt alloc_base;
       mret (alloc_base, sroot :: replicate 3 zero_bref)
     else mret (0, replicate (Z.to_nat HAMMER2_SET_COUNT) invalid_bref)) (with_file ino g s)
     = Ok (if bool_decide (hv_id vol = HAMMER2_ROOT_VOLUME)
           then inode_base + HAMMER2_INODE_BYTES * Z.of_nat (S (length (Label opt))) else 0,
           if bool_decide (hv_id vol = HAMMER2_ROOT_VOLUME)
           then sroot_bref now opt inode_base (root_brefs uuid_generate now opt inode_base) :: replicate 3 zero_bref
           else replicate 4 invalid_bref) (with_file ino h s) /\
     f_size h = f_size f /\ file_ok h /\
     (hv_id vol = HAMMER2_ROOT_VOLUME ->
        file_read h inode_base (Z.to_nat HAMMER2_PBUFSIZE) = inode_block uuid_generate now opt inode_base) /\
     (forall p n, hv_size vol <= p -> file_read h p n = file_read f p n)) as (h & Hrun & Hhs & Hhok & Hhr & Hhf).
  { destruct (decide (hv_id vol = HAMMER2_ROOT_VOLUME)) as [Hr|Hr].
    - rewrite !(bool_decide_eq_true_2 _ Hr).
      destruct (format_body_spec s fd ino nd vol g) as (h & Hrun & Hs & Hhok & Hrd & Hfr);
        [exact Hn|exact Hfd|exact Hgok|lia|lia|exact Hr|exact H1|exact (Hroom Hr)|].
      exists h. split_and!; [exact Hrun|lia|exact Hhok|intros _; exact Hrd|]. intros p n Hp. rewrite Hfr by done. by apply Hgf.
    - rewrite !(bool_decide_eq_false_2 _ Hr). exists g. split_and!; [|exact Hgs|exact Hgok|intros Hc; by destruct (Hr Hc)|exact Hgf].
      replace (Z.to_nat HAMMER2_SET_COUNT) with 4%nat by (h2_unfold; lia). reflexivity. }
  rewrite (bind_Ok _ _ _ _ _ Hrun). rewrite (bind_Ok _ _ _ () (with_file ino h s)) by reflexivity.
  rewrite (bind_Ok _ _ _ () (with_file ino h s)) by (case_bool_decide; reflexivity).
  fold (expected_header vol).
  destruct (set_header_crcs_spec addr (expected_header vol) (with_file ino h s) Hev eq_refl) as (c1 & c0 & cv & Hcrc & Hcv & Hho).
  rewrite (bind_Ok _ _ _ _ _ Hcrc).
  destruct (write_headers_spec s fd ino nd Hn (encode (with_crcs c1 c0 cv (expected_header vol))) (hv_size vol)
              (Z.to_nat HAMMER2_NUM_VOLHDRS) h 0) as (f' & Hw & Hs' & Hok' & Hhdr & Hframe);
    [rewrite length_header by done; h2_unfold; lia|by apply encode_ok|done|done|lia|done|].
  exists f'. split; [exact Hw|]. split_and!; [lia|done| | |].
  - exists c1, c0, cv. split_and!; [exact Hcv|exact Hho|]. intros j Hj Hlt. apply Hhdr; [h2_unfold; lia|done].
  - intros Hr. rewrite Hframe; [by apply Hhr|]. intros j Hj Hlt. clear -Hj H1 Hb Ha.
    unfold inode_base in *. h2_unfold. destruct (decide (j = 0)) as [->|]; [right|left]; lia.
  - intros p n Hp. rewrite Hframe; [by apply Hhf|]. intros j Hj Hlt. right. clear -Hlt Hal Hp. h2_unfold. dlia.
Qed.
End format.
