(* ===== verification/H2Newfs.v ===== *)
(** * H2Newfs: newfs_hammer2 on good devices

    [hammer2_mkfs] runs to the end on regular files that are large enough, and what each
    file then holds. *)

From S2P Require Import Prelude HammerDisk Layout Crc32 HammerCrc CMonad Ondisk CacheInv Newfs NewfsProps H2Disk H2Volumes H2Mkfs H2Header H2Verify H2Accept H2Inode H2Format.

#[local] Opaque Z.to_nat.

(** ** Devices *)

Record device := {
  d_path : bytes;
  d_ino : Z;
  d_node : node;
}.
Definition d_file (d : device) : file := nd_file (d_node d).
Definition d_size (d : device) : Z := f_size (d_file d).

Definition device_ok (y : system) (d : device) : Prop :=
  names y !! d_path d = Some (d_ino d) /\ nodes y !! d_ino d = Some (d_node d) /\
  nd_type (d_node d) = S_IFREG /\ nd_writable (d_node d) = true /\ file_ok (d_file d).

(** The part of a device that device [k] of [n] gives to the file system. *)
Definition vol_size (n : Z) (k : nat) (size : Z) : Z :=
  size - size mod (if bool_decide (Z.of_nat k = n - 1) then HAMMER2_VOLUME_ALIGN else HAMMER2_FREEMAP_LEVEL1_SIZE).

Fixpoint vols_of (n : Z) (k : nat) (fd off : Z) (devs : list device) : list hammer2_volume :=
  match devs with
  | [] => []
  | d :: devs =>
      let size := vol_size n k (d_size d) in
      hammer2_install_volume fd (Z.of_nat k) (d_path d) off size :: vols_of n (S k) (fd + 1) (off + size) devs
  end.

Lemma vol_size_bounds n k size : 0 <= size -> 0 <= vol_size n k size <= size.
Proof. intros Hs. unfold vol_size. case_bool_decide; h2_unfold; dlia. Qed.

Lemma length_vols_of n devs : forall k fd off, length (vols_of n k fd off devs) = length devs.
Proof. induction devs as [|d devs IH]; intros k fd off; [done|]. cbn. by rewrite IH. Qed.

Lemma vols_of_lookup n devs i v : forall k fd off,
  vols_of n k fd off devs !! i = Some v ->
  exists d, devs !! i = Some d /\ hv_fd v = fd + Z.of_nat i /\ hv_id v = Z.of_nat (k + i) /\
    hv_path v = Some (d_path d) /\ hv_size v = vol_size n (k + i) (d_size d).
Proof.
  revert i. induction devs as [|d devs IH]; intros i k fd off Hi; [done|]. destruct i as [|i]; cbn in Hi.
  - injection Hi as <-. exists d. cbn. rewrite Nat.add_0_r. split_and!; [done|lia|done..].
  - apply IH in Hi as (d' & Hd & Hf & Hid & Hp & Hs). exists d'. cbn.
    replace (k + S i)%nat with (S k + i)%nat by lia. split_and!; [done|lia|done..].
Qed.

Lemma vols_of_lookup_Some n devs i d : forall k fd off,
  devs !! i = Some d -> exists v, vols_of n k fd off devs !! i = Some v.
Proof. intros k fd off Hi. apply lookup_lt_is_Some_2. rewrite length_vols_of. by eapply lookup_lt_Some. Qed.

Definition sizes_nonneg (devs : list device) : Prop := Forall (λ d, 0 <= d_size d) devs.

Lemma vols_of_tiles n devs : forall k fd off,
  sizes_nonneg devs -> tiles off (Z.of_nat k) (vols_of n k fd off devs).
Proof.
  induction devs as [|d devs IH]; intros k fd off Hs; [done|]. apply Forall_cons in Hs as [Hd Hs].
  pose proof (vol_size_bounds n k (d_size d) Hd). cbn. split_and!; [done|done|lia|].
  replace (Z.of_nat k + 1) with (Z.of_nat (S k)) by lia. by apply IH.
Qed.

Lemma vols_of_total n devs : forall k fd off,
  sizes_nonneg devs -> 0 <= sum_Z (hv_size <$> vols_of n k fd off devs) <= sum_Z (d_size <$> devs).
Proof.
  induction devs as [|d devs IH]; intros k fd off Hs; [done|]. apply Forall_cons in Hs as [Hd Hs].
  pose proof (vol_size_bounds n k (d_size d) Hd). specialize (IH (S k) (fd + 1) (off + vol_size n k (d_size d)) Hs).
  cbn [vols_of]. rewrite !fmap_cons. cbn [sum_Z foldr hv_size hammer2_install_volume] in *.
  fold (sum_Z (d_size <$> devs)). fold (sum_Z (hv_size <$> vols_of n (S k) (fd + 1) (off + vol_size n k (d_size d)) devs)) in *.
  lia.
Qed.

(** Opening the devices. *)
Definition open_state (devs : list device) (s : h2state) : h2state :=
  foldl (λ s d, set_fds (<[next_fd s := d_ino d]> (fds s)) (next_fd s + 1) s) s devs.

Lemma open_state_spec devs : forall s,
  sys (open_state devs s) = sys s /\ fso (open_state devs s) = fso s /\
  next_fd (open_state devs s) = next_fd s + Z.of_nat (length devs) /\
  (forall fd, fd < next_fd s -> fds (open_state devs s) !! fd = fds s !! fd) /\
  (forall k d, devs !! k = Some d -> fds (open_state devs s) !! (next_fd s + Z.of_nat k) = Some (d_ino d)).
Proof.
  induction devs as [|d devs IH]; intros s; [cbn; split_and!; [done|done|lia|done|done]|].
  cbn [open_state foldl]. fold (open_state devs (set_fds (<[next_fd s := d_ino d]> (fds s)) (next_fd s + 1) s)).
  destruct (IH (set_fds (<[next_fd s := d_ino d]> (fds s)) (next_fd s + 1) s)) as (Hy & Hf & Hn & Hlo & Hk).
  cbn [sys fso next_fd fds set_fds length] in *. split_and!; [done|done|lia| |].
  - intros fd Hfd. rewrite Hlo by lia. by rewrite lookup_insert_ne by lia.
  - intros [|k] d' Hd; cbn in Hd.
    + injection Hd as <-. rewrite Hlo by lia. replace (next_fd s + Z.of_nat 0) with (next_fd s) by lia.
      by rewrite lookup_insert_eq.
    + rewrite <- (Hk k d' Hd). f_equal. lia.
Qed.

Lemma table_insert pre v :
  (length pre < Z.to_nat HAMMER2_MAX_VOLUMES)%nat -> <[length pre := v]> (table_of_vols pre) = table_of_vols (pre ++ [v]).
Proof.
  intros Hl. unfold table_of_vols. rewrite length_app, <- (Nat.add_0_r (length pre)) at 1. rewrite insert_app_r, <- app_assoc.
  f_equal. cbn [length]. replace (Z.to_nat HAMMER2_MAX_VOLUMES - length pre)%nat
    with (S (Z.to_nat HAMMER2_MAX_VOLUMES - (length pre + 1)))%nat by lia. done.
Qed.

Lemma length_table vols :
  (length vols <= Z.to_nat HAMMER2_MAX_VOLUMES)%nat -> length (table_of_vols vols) = Z.to_nat HAMMER2_MAX_VOLUMES.
Proof. intros Hl. unfold table_of_vols. rewrite length_app, length_replicate. lia. Qed.

Lemma land_align x k m : in_u 64 x -> 0 <= k <= 64 -> m = 2 ^ k - 1 -> x .& bnot 64 m = x - x mod 2 ^ k.
Proof.
  intros Hx Hk ->. replace (2 ^ k - 1) with (Z.ones k) by (rewrite Z.ones_equiv; lia). by rewrite land_bnot_ones by done.
Qed.

Lemma open_device_spec d s :
  device_ok (sys s) d ->
  sys_open (d_path d) true s = Ok (Some (next_fd s)) (open_state [d] s).
Proof.
  intros (Hn & Hi & _ & Hw & _). unfold sys_open, mbind, prog_bind, get_state. by rewrite Hn, Hi, Hw.
Qed.

Lemma open_state_node d s :
  device_ok (sys s) d -> fd_node (open_state [d] s) (next_fd s) = Some (d_ino d, d_node d).
Proof.
  intros (_ & Hi & _). unfold fd_node. cbn. rewrite lookup_insert_eq. cbn. by rewrite Hi.
Qed.

Lemma sum_cons (x : Z) l : sum_Z (x :: l) = x + sum_Z l.
Proof. done. Qed.

Lemma device_sizes y devs : Forall (device_ok y) devs -> sizes_nonneg devs.
Proof. intros Hd. eapply Forall_impl; [exact Hd|]. intros d (_ & _ & _ & _ & Hf & _). exact Hf. Qed.

Lemma open_volumes_spec n devs : forall pre s o,
  Forall (device_ok (sys s)) devs -> o_volumes o = table_of_vols pre ->
  (length pre + length devs <= Z.to_nat HAMMER2_MAX_VOLUMES)%nat ->
  0 <= o_total_size o -> o_total_size o + sum_Z (d_size <$> devs) < 2 ^ 63 ->
  let vols := vols_of n (length pre) (next_fd s) (o_total_size o) devs in
  open_volumes (d_path <$> devs) (length pre) n o s
  = Ok (set_o_volumes (table_of_vols (pre ++ vols)) (o_total_size o + sum_Z (hv_size <$> vols)) o) (open_state devs s).
Proof.
  induction devs as [|d devs IH]; intros pre s o Hd Ho Hl Ht Hs vols.
  { subst vols. cbn. rewrite app_nil_r, Z.add_0_r, <- Ho. by destruct o. }
  pose proof (device_sizes _ _ Hd) as Hnn.
  apply Forall_cons in Hd as [Hd Hds]. apply Forall_cons in Hnn as [Hdn Hnn].
  rewrite fmap_cons, sum_cons in Hs. cbn [length] in Hl.
  pose proof (vols_of_total n devs O 0 0 Hnn) as Hnn2. pose proof (vol_size_bounds n (length pre) _ Hdn) as Hvb.
  rewrite fmap_cons. cbn [open_volumes].
  rewrite (bind_Ok _ _ _ _ _ (open_device_spec d s Hd)).
  pose proof Hd as (Hn & Hi & Hreg & Hw & Hf).
  rewrite (bind_Ok _ _ _ (d_size d) (open_state [d] s)).
  2:{ apply check_volume_reg with (d_ino d); [by apply open_state_node|done|unfold in_u; fold (d_file d); fold (d_size d); lia]. }
  assert (d_size d .& bnot 64 (if bool_decide (Z.of_nat (length pre) = n - 1) then HAMMER2_VOLUME_ALIGNMASK
                      else HAMMER2_FREEMAP_LEVEL1_MASK) = vol_size n (length pre) (d_size d)) as ->.
  { assert (in_u 64 (d_size d)) by (unfold in_u; lia). unfold vol_size. case_bool_decide.
    - by rewrite (land_align _ 23) by done.
    - by rewrite (land_align _ 30) by done. }
  cbv zeta. rewrite Ho, length_table by lia. rewrite bool_decide_eq_true_2 by lia.
  rewrite table_insert by lia.
  rewrite (uwrap_small 64) by (unfold in_u; lia).
  set (v := hammer2_install_volume _ _ _ _ _).
  set (o' := set_o_volumes _ _ o).
  specialize (IH (pre ++ [v]) (open_state [d] s) o'). rewrite length_app, (Nat.add_comm _ (length [v])) in IH. cbn [length Nat.add] in IH.
  rewrite IH; clear IH; [|done|done|lia|cbn; lia|cbn; lia].
  unfold open_state at 2. cbn [foldl]. f_equal. subst vols. cbn [vols_of]. fold v. cbn [open_state foldl next_fd set_fds o' o_total_size set_o_volumes].
  rewrite <- app_assoc. rewrite fmap_cons, sum_cons. cbn [app]. unfold set_o_volumes. cbn. f_equal. cbn. lia.
Qed.

(** ** Sizes *)

(** The size of an area: given, or the nominal size halved until it is at most a twentieth
    of the total; at least the minimum, rounded up to 8 MB. *)
Definition area_bytes (size nom min total : Z) : Z :=
  let v := if bool_decide (size = 0) then default 0 (halve 64 nom (total / 20)) else size in
  (Z.max v min + HAMMER2_VOLUME_ALIGNMASK) / HAMMER2_VOLUME_ALIGN * HAMMER2_VOLUME_ALIGN.

Lemma area_size_spec size nom min total s :
  0 <= total -> 0 < nom < 2 ^ 62 -> 0 <= size < 2 ^ 62 -> 0 <= min < 2 ^ 62 ->
  area_size size nom min total s = Ok (area_bytes size nom min total) s /\
  min <= area_bytes size nom min total <= Z.max (if bool_decide (size = 0) then nom else size) min + HAMMER2_VOLUME_ALIGNMASK /\
  area_bytes size nom min total mod HAMMER2_VOLUME_ALIGN = 0.
Proof.
  intros Ht Hn Hs Hm. unfold area_size, area_bytes.
  destruct (halve_spec 64 nom (total / 20)) as (k & Hk & Hh & Hle & _); [dlia|change (2 ^ Z.of_nat 64) with (2 ^ 64); lia|].
  assert (0 <= nom / 2 ^ k <= nom) as Hkb.
  { split; [apply Z.div_pos; lia|]. apply Z.div_le_upper_bound; [lia|]. nia. }
  rewrite Hh. cbn [default from_option id].
  set (v := if bool_decide (size = 0) then nom / 2 ^ k else size).
  assert (0 <= v < 2 ^ 62) as Hv by (unfold v; case_bool_decide; lia).
  rewrite (bind_Ok _ _ s (Z.max v min) s).
  2:{ unfold v. case_bool_decide; unfold mret, prog_ret; f_equal; case_bool_decide; lia. }
  split_and!.
  - unfold mret, prog_ret. f_equal. rewrite uwrap_small by (unfold in_u; h2_unfold; lia).
    rewrite (land_align _ 23) by (try done; unfold in_u; h2_unfold; lia). h2_unfold. dlia.
  - h2_unfold. dlia.
  - assert (Z.max v min <= Z.max (if bool_decide (size = 0) then nom else size) min) by (unfold v; case_bool_decide; lia).
    h2_unfold. dlia.
  - h2_unfold. dlia.
Qed.

Definition boot_bytes (opt : hammer2_mkfs_options) (total : Z) : Z :=
  area_bytes (opt_BootAreaSize opt) HAMMER2_BOOT_NOM_BYTES HAMMER2_BOOT_MIN_BYTES total.
Definition aux_bytes (opt : hammer2_mkfs_options) (total : Z) : Z :=
  area_bytes (opt_AuxAreaSize opt) HAMMER2_AUX_NOM_BYTES HAMMER2_AUX_MIN_BYTES total.
(** The segments of 4 MB that every 1 GB reserves. *)
Definition reserved_bytes (total : Z) : Z :=
  (total + HAMMER2_FREEMAP_LEVEL1_MASK) / HAMMER2_FREEMAP_LEVEL1_SIZE * HAMMER2_ZONE_SEG.

(** Areas that leave the first 1 GB some room. *)
Definition areas_ok (opt : hammer2_mkfs_options) : Prop :=
  0 <= opt_BootAreaSize opt <= HAMMER2_BOOT_MAX_BYTES /\ 0 <= opt_AuxAreaSize opt <= HAMMER2_AUX_MAX_BYTES / 2.

(** The label that is added when none was given. *)
Definition default_labels (t : label_type) : list bytes :=
  match t with
  | HAMMER2_LABEL_BOOT => [str_BOOT]
  | HAMMER2_LABEL_ROOT => [str_ROOT]
  | HAMMER2_LABEL_DATA => [str_DATA]
  | HAMMER2_LABEL_NONE => []
  end.
Definition labels (opt : hammer2_mkfs_options) : list bytes := Label opt ++ default_labels (DefaultLabelType opt).
Definition adjusted (total : Z) (opt : hammer2_mkfs_options) : hammer2_mkfs_options :=
  set_areas (boot_bytes opt total) (aux_bytes opt total) (set_Label (labels opt) opt).

Lemma adjust_label_spec opt s :
  (length (labels opt) <= 4)%nat ->
  (match DefaultLabelType opt with
   | HAMMER2_LABEL_BOOT => push_label str_BOOT opt
   | HAMMER2_LABEL_ROOT => push_label str_ROOT opt
   | HAMMER2_LABEL_DATA => push_label str_DATA opt
   | HAMMER2_LABEL_NONE => mret opt
   end) s = Ok (set_Label (labels opt) opt) s.
Proof.
  intros Hl. unfold labels, push_label, NLabels in *. rewrite length_app in Hl.
  destruct (DefaultLabelType opt) eqn:E; cbn [default_labels length] in *;
    [rewrite app_nil_r; by destruct opt|..]; by rewrite bool_decide_eq_true_2 by (h2_unfold; unfold MAXLABELS; h2_unfold; lia).
Qed.

Lemma adjust_options_spec o opt s :
  areas_ok opt -> (length (labels opt) <= 4)%nat -> 0 <= o_total_size o ->
  let boot := boot_bytes opt (o_total_size o) in
  let aux := aux_bytes opt (o_total_size o) in
  adjust_options o opt s = Ok (adjusted (o_total_size o) opt) s /\
  HAMMER2_VOLUME_ALIGN <= boot /\ HAMMER2_VOLUME_ALIGN <= aux /\
  boot mod HAMMER2_VOLUME_ALIGN = 0 /\ aux mod HAMMER2_VOLUME_ALIGN = 0 /\
  HAMMER2_ZONE_SEG + boot + aux < HAMMER2_FREEMAP_LEVEL1_SIZE.
Proof.
  intros [Hb Ha] Hl Ht. cbv zeta. unfold adjust_options. rewrite (bind_Ok _ _ _ _ _ (adjust_label_spec opt s Hl)).
  change (HAMMER2_AUX_MAX_BYTES / 2) with (2 ^ 29) in Ha.
  destruct (area_size_spec (opt_BootAreaSize opt) HAMMER2_BOOT_NOM_BYTES HAMMER2_BOOT_MIN_BYTES (o_total_size o) s Ht)
    as (Hrb & Hbb & Hbm); [done|h2_unfold; lia|done|].
  destruct (area_size_spec (opt_AuxAreaSize opt) HAMMER2_AUX_NOM_BYTES HAMMER2_AUX_MIN_BYTES (o_total_size o) s Ht)
    as (Hra & Hab & Ham); [done|h2_unfold; lia|done|].
  cbn [set_Label opt_BootAreaSize opt_AuxAreaSize].
  rewrite (bind_Ok _ _ _ _ _ Hrb), (bind_Ok _ _ _ _ _ Hra).
  fold (boot_bytes opt (o_total_size o)) in *. fold (aux_bytes opt (o_total_size o)) in *.
  split_and!; [done|h2_unfold; lia|h2_unfold; lia|done|done|].
  clear -Hb Ha Hbb Hab. repeat case_bool_decide; h2_unfold; lia.
Qed.

(** ** Formatting the volumes *)

Section volumes.
Context (uuid_generate : nat -> bytes) (now addr : Z) (opt : hammer2_mkfs_options) (o : hammer2_ondisk).
Context (Huuid : forall i, raw 16 (uuid_generate i)) (Hnow : in_u 64 now).
Context (Hclid : raw 16 (Hammer2_SupCLID opt)) (Hfsid : raw 16 (Hammer2_SupFSID opt)).
Context (Hlabels : Forall label_ok (Label opt)) (Hnlabels : (length (Label opt) <= 4)%nat).
Context (Hfo : format_ok o opt).
Context (Hboot : opt_BootAreaSize opt mod HAMMER2_PBUFSIZE = 0) (Haux : opt_AuxAreaSize opt mod HAMMER2_PBUFSIZE = 0).
Context (H1 : inode_base opt < HAMMER2_FREEMAP_LEVEL1_SIZE).

(** Volume [vol] is open on device [d] and large enough. *)
Definition ready (s : h2state) (vol : hammer2_volume) (d : device) : Prop :=
  fd_node s (hv_fd vol) = Some (d_ino d, d_node d) /\ file_ok (d_file d) /\ d_size d < 2 ^ 63 /\
  HAMMER2_VOLUME_ALIGN <= hv_size vol <= d_size d /\ hv_size vol mod HAMMER2_VOLUME_ALIGN = 0 /\
  (hv_id vol = HAMMER2_ROOT_VOLUME -> inode_base opt + HAMMER2_PBUFSIZE <= hv_size vol).

(** The files of [devs] in [s'], against those in the devices. *)
Definition devs_formatted (s' : h2state) (vols : list hammer2_volume) (devs : list device) : Prop :=
  Forall2 (λ vol d, exists f', nodes (sys s') !! d_ino d = Some (set_nd_file f' (d_node d)) /\
                    formatted uuid_generate now opt o vol (d_file d) f') vols devs.

(** Nothing but the contents of the files [inos] changes. *)
Definition same_but (inos : list Z) (s s' : h2state) : Prop :=
  fds s' = fds s /\ next_fd s' = next_fd s /\ fso s' = fso s /\ hammer2_volumes_initialized s' = hammer2_volumes_initialized s /\
  names (sys s') = names (sys s) /\ devtabs (sys s') = devtabs (sys s) /\
  forall ino, ino ∉ inos -> nodes (sys s') !! ino = nodes (sys s) !! ino.

Lemma ready_same s s' inos vol d : same_but inos s s' -> d_ino d ∉ inos -> ready s vol d -> ready s' vol d.
Proof.
  intros (Hf & _ & _ & _ & _ & _ & Hn) Hi (Hfd & Hr). split; [|exact Hr]. unfold fd_node in *. rewrite Hf.
  destruct (fds s !! hv_fd vol) as [i|] eqn:E; [|done]. cbn in *. destruct (nodes (sys s) !! i) eqn:E2; [|done].
  cbn in Hfd. injection Hfd as -> ->. by rewrite Hn, E2 by done.
Qed.

Lemma all_ready_same s s' inos vols devs :
  same_but inos s s' -> (forall ino, ino ∈ inos -> ino ∉ d_ino <$> devs) ->
  Forall2 (ready s) vols devs -> Forall2 (ready s') vols devs.
Proof.
  intros Hs Hi Hr. induction Hr as [|vol d vols devs Hd _ IH]; [done|]. constructor.
  - apply (ready_same s s' inos); [done| |done]. intros Hin. apply (Hi _ Hin). by left.
  - apply IH. intros ino Hin Hc. apply (Hi ino Hin). by right.
Qed.

Lemma same_but_trans i1 i2 s1 s2 s3 : same_but i1 s1 s2 -> same_but i2 s2 s3 -> same_but (i1 ++ i2) s1 s3.
Proof.
  intros (Ha & Hb & Hc & Hd & He & Hf & Hg) (Ha' & Hb' & Hc' & Hd' & He' & Hf' & Hg'). split_and!; try congruence.
  intros ino Hi. rewrite Hg', Hg; [done|set_solver..].
Qed.

Lemma format_volumes_spec vols devs : forall i s,
  (forall k vol, vols !! k = Some vol -> o_volumes o !! (i + k)%nat = Some vol) ->
  Forall2 (ready s) vols devs -> NoDup (d_ino <$> devs) ->
  exists s', format_volumes uuid_generate now addr o opt (length vols) i s = Ok () s' /\
    same_but (d_ino <$> devs) s s' /\ devs_formatted s' vols devs.
Proof using All.
  intros i s Hv Hr. revert i s Hv Hr. revert devs.
  induction vols as [|vol vols IH]; intros devs i s Hv Hr Hnd.
  { apply Forall2_nil_inv_l in Hr as ->. exists s. split_and!; [done|done|constructor]. }
  apply Forall2_cons_inv_l in Hr as (d & devs' & Hd & Hr & ->). rewrite fmap_cons in Hnd.
  apply NoDup_cons in Hnd as [Hnin Hnd]. cbn [length format_volumes].
  pose proof Hd as (Hfd & Hok & H63 & Hsz & Hal & Hroot).
  destruct (format_hammer2_spec uuid_generate now addr opt o Huuid Hnow Hclid Hfsid Hlabels Hnlabels Hfo Hboot Haux
    s (hv_fd vol) (d_ino d) (d_node d) vol i) as (f' & Hrun & Hform); try done.
  { rewrite <- (Nat.add_0_r i). by apply (Hv O). }
  rewrite (bind_Ok _ _ _ _ _ Hrun).
  assert (same_but [d_ino d] s (with_file (d_ino d) f' s)) as Hsame.
  { split_and!; try done. intros ino Hino. cbn. apply lookup_alter_ne. intros Hc. apply Hino. rewrite Hc. by left. }
  destruct (IH devs' (S i) (with_file (d_ino d) f' s)) as (s' & Hrun' & Hs' & Hdevs); [| |done|].
  { intros k w Hk. replace (S i + k)%nat with (i + S k)%nat by lia. by apply Hv. }
  { eapply all_ready_same; [exact Hsame| |exact Hr]. intros ino Hin. apply list_elem_of_singleton in Hin. by subst ino. }
  exists s'. split_and!; [exact Hrun'|by apply (same_but_trans [_] _ _ _ _ Hsame)|]. constructor; [|exact Hdevs].
  exists f'. split; [|exact Hform]. destruct Hs' as (_ & _ & _ & _ & _ & _ & Hn). rewrite Hn by done.
  destruct (fd_node_nodes _ _ _ _ Hfd) as [_ Hnode]. cbn. by rewrite lookup_alter_eq, Hnode.
Qed.
End volumes.

(** ** The whole program *)

Definition mkfs_vols (fd : Z) (devs : list device) : list hammer2_volume :=
  vols_of (Z.of_nat (length devs)) 0 fd 0 devs.
(** The size of the file system on [devs]. *)
Definition fs_size (devs : list device) : Z := sum_Z (hv_size <$> mkfs_vols 0 devs).

Lemma vols_of_sizes n devs : forall k fd off fd' off',
  hv_size <$> vols_of n k fd off devs = hv_size <$> vols_of n k fd' off' devs.
Proof.
  induction devs as [|d devs IH]; intros k fd off fd' off'; [done|]. cbn [vols_of]. rewrite !fmap_cons. f_equal. apply IH.
Qed.

(** What newfs_hammer2 needs of its devices and options; [mo_room] is the check of the free
    size. *)
Record mkfs_ok (y : system) (devs : list device) (opt : hammer2_mkfs_options) : Prop := {
  mo_devs : Forall (device_ok y) devs;
  mo_count : (1 <= length devs <= 64)%nat;
  mo_nodup : NoDup (d_ino <$> devs);
  mo_large : forall k d, devs !! k = Some d -> S k <> length devs -> HAMMER2_FREEMAP_LEVEL1_SIZE <= d_size d;
  mo_min : Forall (λ d, HAMMER2_VOLUME_ALIGN <= d_size d) devs;
  mo_sum : sum_Z (d_size <$> devs) < 2 ^ 63;
  mo_version : Hammer2Version opt = HAMMER2_VOL_VERSION_MULTI_VOLUMES;
  mo_areas : areas_ok opt;
  mo_labels : Forall label_ok (labels opt);
  mo_nlabels : (length (labels opt) <= 4)%nat;
  mo_clid : raw 16 (Hammer2_SupCLID opt);
  mo_fsid : raw 16 (Hammer2_SupFSID opt);
  mo_volfsid : raw 16 (Hammer2_VolFSID opt);
  mo_fstype : raw 16 (Hammer2_FSType opt);
  mo_room : reserved_bytes (fs_size devs) + boot_bytes opt (fs_size devs) + aux_bytes opt (fs_size devs) <= fs_size devs;
}.

(** The volumes of the new file system, as newfs_hammer2 has them when it formats. *)
Definition mkfs_ondisk (fd : Z) (devs : list device) (opt : hammer2_mkfs_options) : hammer2_ondisk :=
  let total := fs_size devs in
  set_o_free_size (total - reserved_bytes total - boot_bytes opt total - aux_bytes opt total)
    (set_o_volumes (table_of_vols (mkfs_vols fd devs)) total
       (set_o_version (Hammer2Version opt) (Z.of_nat (length devs)) hammer2_init_ondisk)).

Section mkfs.
Context (y : system) (devs : list device) (opt : hammer2_mkfs_options) (Hok : mkfs_ok y devs opt).

Lemma mkfs_vols_tiles fd : tiles 0 0 (mkfs_vols fd devs).
Proof using Hok. apply (vols_of_tiles _ devs 0). by apply (device_sizes y), Hok. Qed.

Lemma mkfs_vols_total fd :
  sum_Z (hv_size <$> mkfs_vols fd devs) = fs_size devs /\ 0 <= fs_size devs < 2 ^ 63.
Proof using Hok.
  unfold fs_size, mkfs_vols. rewrite (vols_of_sizes _ devs 0 fd 0 0 0). split; [done|].
  pose proof (vols_of_total (Z.of_nat (length devs)) devs 0 0 0 (device_sizes y devs (mo_devs _ _ _ Hok))).
  pose proof (mo_sum _ _ _ Hok). lia.
Qed.

Lemma length_mkfs_vols fd : length (mkfs_vols fd devs) = length devs.
Proof. apply length_vols_of. Qed.

(** The volume of each device. *)
Lemma mkfs_vols_dev fd k d :
  devs !! k = Some d -> exists v, mkfs_vols fd devs !! k = Some v /\ hv_fd v = fd + Z.of_nat k /\
    hv_id v = Z.of_nat k /\ hv_path v = Some (d_path d) /\ hv_size v = vol_size (Z.of_nat (length devs)) k (d_size d).
Proof.
  intros Hd. destruct (vols_of_lookup_Some (Z.of_nat (length devs)) devs k d 0 fd 0 Hd) as [v Hv].
  exists v. split; [exact Hv|]. apply vols_of_lookup in Hv as (d' & Hd' & Hfd & Hid & Hp & Hs).
  rewrite Hd in Hd'. injection Hd' as <-. done.
Qed.

Lemma mkfs_vol_size k d :
  devs !! k = Some d -> let size := vol_size (Z.of_nat (length devs)) k (d_size d) in
  HAMMER2_VOLUME_ALIGN <= size <= d_size d /\ size mod HAMMER2_VOLUME_ALIGN = 0 /\
  (Z.of_nat k <> Z.of_nat (length devs) - 1 ->
     HAMMER2_FREEMAP_LEVEL1_SIZE <= size /\ size mod HAMMER2_FREEMAP_LEVEL1_SIZE = 0).
Proof using Hok.
  intros Hd. cbv zeta. unfold vol_size.
  pose proof (Forall_lookup_1 _ _ _ _ (mo_min _ _ _ Hok) Hd) as Hmin. cbn in Hmin.
  case_bool_decide as Hk.
  - split_and!; [h2_unfold; dlia..|]. intros Hc. by destruct (Hc Hk).
  - pose proof (mo_large _ _ _ Hok k d Hd ltac:(lia)) as Hl. h2_unfold. split_and!; intros; dlia.
Qed.

Lemma mkfs_sizes_ok fd : sizes_ok (Z.of_nat (length (mkfs_vols fd devs))) (mkfs_vols fd devs).
Proof using Hok.
  rewrite length_mkfs_vols. intros k v Hv.
  assert (exists d, devs !! k = Some d) as [d Hd].
  { apply lookup_lt_is_Some. apply lookup_lt_Some in Hv. by rewrite length_mkfs_vols in Hv. }
  destruct (mkfs_vols_dev fd k d Hd) as (v' & Hv' & _ & _ & _ & Hs). rewrite Hv in Hv'. injection Hv' as <-.
  destruct (mkfs_vol_size k d Hd) as (_ & Hm & Hl). rewrite Hs. split; [exact Hl|]. intros _. exact Hm.
Qed.

Lemma mkfs_vols_Forall2 fd (P : hammer2_volume -> device -> Prop) :
  (forall k d v, devs !! k = Some d -> mkfs_vols fd devs !! k = Some v -> hv_fd v = fd + Z.of_nat k ->
    hv_id v = Z.of_nat k -> hv_path v = Some (d_path d) -> hv_size v = vol_size (Z.of_nat (length devs)) k (d_size d) -> P v d) ->
  Forall2 P (mkfs_vols fd devs) devs.
Proof.
  intros HP. apply Forall2_same_length_lookup_2; [apply length_mkfs_vols|]. intros k v d Hv Hd.
  destruct (mkfs_vols_dev fd k d Hd) as (v' & Hv' & Hfd & Hid & Hp & Hs). rewrite Hv in Hv'. injection Hv' as <-.
  by apply (HP k).
Qed.

Lemma device_size_63 k d : devs !! k = Some d -> 0 <= d_size d < 2 ^ 63.
Proof using Hok.
  intros Hd. pose proof (mo_sum _ _ _ Hok) as Hs. pose proof (device_sizes y devs (mo_devs _ _ _ Hok)) as Hn.
  revert k Hd Hs Hn. clear. induction devs as [|e l IH]; intros k Hd Hs Hn; [done|].
  apply Forall_cons in Hn as [He Hn]. rewrite fmap_cons, sum_cons in Hs.
  assert (0 <= sum_Z (d_size <$> l)) by (apply sum_Z_nonneg, Forall_fmap, Hn).
  destruct k as [|k]; cbn in Hd; [injection Hd as ->; lia|]. apply (IH k); [done|lia|done].
Qed.

(** The state in which the devices are open. *)
Lemma opened_node s k d :
  sys s = y -> devs !! k = Some d ->
  fd_node (open_state devs s) (next_fd s + Z.of_nat k) = Some (d_ino d, d_node d) /\
  path_ino (open_state devs s) (d_path d) = Some (d_ino d).
Proof using Hok.
  intros Hy Hd. destruct (open_state_spec devs s) as (Hsys & _ & _ & _ & Hfd).
  destruct (Forall_lookup_1 _ _ _ _ (mo_devs _ _ _ Hok) Hd) as (Hn & Hi & _).
  unfold fd_node, path_ino. rewrite (Hfd k d Hd), Hsys, Hy. cbn. rewrite Hn, Hi. cbn. by rewrite Hi.
Qed.

Lemma opened_vols s :
  sys s = y -> 0 <= next_fd s ->
  Forall2 (vol_open (open_state devs s)) (mkfs_vols (next_fd s) devs) (d_ino <$> devs).
Proof using Hok.
  intros Hy Hfd0. apply Forall2_fmap_r, mkfs_vols_Forall2. intros k d v Hd Hv Hfd Hid Hp Hs.
  destruct (opened_node s k d Hy Hd) as [Hn Hpi]. pose proof (device_size_63 k d Hd) as Hsz.
  destruct (mkfs_vol_size k d Hd) as [Hvs _].
  destruct (Forall_lookup_1 _ _ _ _ (mo_devs _ _ _ Hok) Hd) as (_ & _ & Hreg & _).
  exists (d_path d), (d_node d). rewrite Hfd, Hs. split_and!; [done|done|done|lia|done|exact Hsz|].
  fold (d_file d). fold (d_size d). lia.
Qed.

(** The boot, the aux and the first inode block fit in the root volume. *)
Lemma mkfs_root_room fd v :
  mkfs_vols fd devs !! O = Some v -> inode_base (adjusted (fs_size devs) opt) + HAMMER2_PBUFSIZE <= hv_size v.
Proof using Hok.
  intros Hv. destruct (mkfs_vols_total fd) as [Hsum Htot].
  destruct (adjust_options_spec (set_o_volumes [] (fs_size devs) hammer2_init_ondisk) opt (start y) (mo_areas _ _ _ Hok)
    (mo_nlabels _ _ _ Hok)) as (_ & Hb1 & Ha1 & Hb & Ha & H1); [cbn; lia|]. cbn in Hb, Ha, H1, Hb1, Ha1.
  pose proof (mo_room _ _ _ Hok) as Hr. pose proof (mkfs_sizes_ok fd O v Hv) as [Hmid Hlast].
  unfold inode_base, adjusted. cbn [opt_BootAreaSize opt_AuxAreaSize set_areas].
  set (boot := boot_bytes opt (fs_size devs)) in *. set (aux := aux_bytes opt (fs_size devs)) in *.
  rewrite length_mkfs_vols in Hmid, Hlast.
  destruct (decide (length devs = 1)%nat) as [Hone|Hone].
  - assert (fs_size devs = hv_size v) as Hv1.
    { rewrite <- Hsum. pose proof (length_mkfs_vols fd) as Hl. destruct (mkfs_vols fd devs) as [|v' [|? ?]]; cbn in Hl, Hv; try lia.
      injection Hv as ->. cbn. lia. }
    specialize (Hlast ltac:(lia)). unfold reserved_bytes in Hr.
    clear -Hv1 Hr Hlast Hb Ha Hb1 Ha1 Htot. h2_unfold. dlia.
  - pose proof (mo_count _ _ _ Hok). destruct Hmid as [Hge _]; [lia|].
    clear -Hge Hb Ha H1. h2_unfold. dlia.
Qed.
End mkfs.

Lemma uninstall_volumes_spec vols : forall s,
  exists s', uninstall_volumes vols s = Ok () s' /\ sys s' = sys s.
Proof.
  induction vols as [|vol vols IH]; intros s; [by exists s|]. cbn [uninstall_volumes].
  destruct (IH (set_fds (delete (hv_fd vol) (fds s)) (next_fd s) s)) as (s' & Hrun & Hs). exists s'.
  split; [|exact Hs]. erewrite (bind_Ok _ _ s); [exact Hrun|]. reflexivity.
Qed.

Lemma table_take vols : take (length vols) (table_of_vols vols) = vols.
Proof. unfold table_of_vols. by rewrite take_app_length. Qed.

Lemma table_lookup vols k v : vols !! k = Some v -> table_of_vols vols !! k = Some v.
Proof. intros Hk. unfold table_of_vols. by apply lookup_app_l_Some. Qed.

Section newfs.
Context (uuid_generate : nat -> bytes) (now addr : Z) (devs : list device) (opt : hammer2_mkfs_options) (s : h2state).
Context (Huuid : forall i, raw 16 (uuid_generate i)) (Hnow : in_u 64 now) (Hok : mkfs_ok (sys s) devs opt).
Context (Hfd : 0 <= next_fd s).

Lemma mkfs_format_ok : format_ok (mkfs_ondisk (next_fd s) devs opt) (adjusted (fs_size devs) opt).
Proof using Hok.
  destruct (mkfs_vols_total (sys s) devs opt Hok (next_fd s)) as [Hsum Htot].
  destruct (adjust_options_spec (set_o_volumes [] (fs_size devs) hammer2_init_ondisk) opt s (mo_areas _ _ _ Hok)
    (mo_nlabels _ _ _ Hok)) as (_ & Hb1 & Ha1 & _ & _ & H1); [cbn; lia|]. cbn in H1, Hb1, Ha1.
  pose proof (mo_room _ _ _ Hok). pose proof (mo_count _ _ _ Hok).
  assert (0 <= reserved_bytes (fs_size devs)) by (unfold reserved_bytes; clear -Htot; h2_unfold; dlia).
  pose proof (tiles_bounds 0 0 _ (mkfs_vols_tiles (sys s) devs opt Hok (next_fd s)) ltac:(lia) ltac:(lia) ltac:(lia)) as Hb.
  split; unfold mkfs_ondisk; cbn [o_volumes o_total_size o_free_size set_o_free_size set_o_volumes].
  - rewrite length_table; [by h2_unfold|]. rewrite length_mkfs_vols. h2_unfold. lia.
  - unfold table_of_vols. apply Forall_app. split; [|by apply Forall_replicate].
    apply Forall_lookup. intros k v Hv. destruct (Forall_lookup_1 _ _ _ _ Hb Hv) as [_ Hoff].
    assert (exists d, devs !! k = Some d) as [d Hd].
    { apply lookup_lt_is_Some. apply lookup_lt_Some in Hv. by rewrite length_mkfs_vols in Hv. }
    destruct (mkfs_vols_dev devs (next_fd s) k d Hd) as (v' & Hv' & _ & _ & _ & Hs). rewrite Hv in Hv'. injection Hv' as <-.
    destruct (mkfs_vol_size _ _ _ Hok k d Hd) as [Hvs _]. pose proof (device_size_63 _ _ _ Hok k d Hd).
    unfold in_u. rewrite Hs. h2_unfold. lia.
  - unfold in_u. lia.
  - unfold in_u. clear -Hb1 Ha1 H H1 H2 Htot. h2_unfold. lia.
  - cbn. clear -H1 Hb1 Ha1. h2_unfold. lia.
  - cbn. clear -H1 Hb1 Ha1. h2_unfold. lia.
  - cbn. apply Hok.
  - cbn. apply Hok.
Qed.

(** newfs_hammer2 runs to the end, and formats the file of every device as a volume. *)
Lemma hammer2_mkfs_spec :
  exists s', hammer2_mkfs uuid_generate now addr (d_path <$> devs) opt s = Ok () s' /\
    names (sys s') = names (sys s) /\ devtabs (sys s') = devtabs (sys s) /\
    (forall ino, ino ∉ d_ino <$> devs -> nodes (sys s') !! ino = nodes (sys s) !! ino) /\
    devs_formatted uuid_generate now (adjusted (fs_size devs) opt) (mkfs_ondisk (next_fd s) devs opt) s'
      (mkfs_vols (next_fd s) devs) devs.
Proof using All.
  destruct (mkfs_vols_total (sys s) devs opt Hok (next_fd s)) as [Hsum Htot].
  pose proof (mo_count _ _ _ Hok) as Hcnt. pose proof mkfs_format_ok as Hfo.
  unfold hammer2_mkfs. rewrite length_fmap.
  rewrite (bind_Ok _ _ s (set_o_volumes (table_of_vols (mkfs_vols (next_fd s) devs)) (fs_size devs)
       (set_o_version (Hammer2Version opt) (Z.of_nat (length devs)) hammer2_init_ondisk)) (open_state devs s)).
  2:{ pose proof (open_volumes_spec (Z.of_nat (length devs)) devs [] s
        (set_o_version (Hammer2Version opt) (Z.of_nat (length devs)) hammer2_init_ondisk)) as Hopen.
      cbn [length app o_total_size set_o_version set_o_header hammer2_init_ondisk] in Hopen.
      rewrite Hopen; [|apply Hok|reflexivity|h2_unfold; lia|done|apply Hok]. rewrite <- Hsum. reflexivity. }
  set (o := set_o_volumes _ _ _).
  rewrite (bind_Ok _ _ _ o (open_state devs s)).
  2:{ apply (verify_volumes_ok _ o (mkfs_vols (next_fd s) devs) (d_ino <$> devs)); try done.
      - unfold o. cbn. by rewrite length_mkfs_vols.
      - rewrite length_mkfs_vols. lia.
      - unfold o. cbn. by rewrite (mo_version _ _ _ Hok).
      - by apply (mkfs_vols_tiles (sys s) devs opt).
      - lia.
      - by apply (mkfs_sizes_ok (sys s) devs opt).
      - by apply (opened_vols (sys s) devs opt).
      - apply Hok. }
  destruct (adjust_options_spec o opt (open_state devs s) (mo_areas _ _ _ Hok) (mo_nlabels _ _ _ Hok))
    as (Hadj & Hb1 & Ha1 & Hb & Ha & H1); [cbn; lia|]. unfold o in Hb1, Ha1, Hb, Ha, H1. cbn in Hb1, Ha1, Hb, Ha, H1.
  rewrite (bind_Ok _ _ _ _ _ Hadj). unfold o. cbn [o_total_size set_o_volumes].
  pose proof (mo_room _ _ _ Hok) as Hroom. cbv zeta.
  assert (u64 (u64 (fs_size devs + HAMMER2_FREEMAP_LEVEL1_MASK) / HAMMER2_FREEMAP_LEVEL1_SIZE * HAMMER2_ZONE_SEG)
          = reserved_bytes (fs_size devs)) as ->.
  { unfold reserved_bytes. rewrite (uwrap_small 64 (_ + _)) by (unfold in_u; clear -Htot; h2_unfold; lia).
    apply uwrap_small. unfold in_u. clear -Htot. h2_unfold. dlia. }
  assert (0 <= reserved_bytes (fs_size devs)) as Hres by (unfold reserved_bytes; clear -Htot; h2_unfold; dlia).
  cbn [opt_BootAreaSize opt_AuxAreaSize adjusted set_areas].
  assert (in_u 63 (fs_size devs - reserved_bytes (fs_size devs) - boot_bytes opt (fs_size devs) - aux_bytes opt (fs_size devs))) as Hfree.
  { unfold in_u. clear -Hroom Hres Htot Hb1 Ha1. h2_unfold. lia. }
  rewrite uwrap_small by (unfold in_u in *; lia). rewrite swrap_small by (try done; unfold in_u, in_s in *; lia).
  rewrite (bind_Ok _ _ _ () (open_state devs s)).
  2:{ apply errx_if_false, bool_decide_eq_false_2. unfold in_u in Hfree. lia. }
  fold (mkfs_ondisk (next_fd s) devs opt). change (set_areas _ _ _) with (adjusted (fs_size devs) opt).
  change (o_nvolumes (mkfs_ondisk (next_fd s) devs opt)) with (Z.of_nat (length devs)). rewrite Nat2Z.id.
  change (o_volumes (mkfs_ondisk (next_fd s) devs opt)) with (table_of_vols (mkfs_vols (next_fd s) devs)).
  pose proof (length_mkfs_vols devs (next_fd s)) as Hlen. rewrite <- Hlen, table_take.
  destruct (format_volumes_spec uuid_generate now addr (adjusted (fs_size devs) opt) (mkfs_ondisk (next_fd s) devs opt)
    Huuid Hnow (mo_clid _ _ _ Hok) (mo_fsid _ _ _ Hok) (mo_labels _ _ _ Hok) (mo_nlabels _ _ _ Hok) Hfo
    ltac:(cbn; clear -Hb; h2_unfold; dlia) ltac:(cbn; clear -Ha; h2_unfold; dlia) H1
    (mkfs_vols (next_fd s) devs) devs 0 (open_state devs s)) as (s1 & Hrun & Hsame & Hform).
  - intros k v Hv. by apply table_lookup.
  - apply mkfs_vols_Forall2. intros k d v Hd Hv Hvfd Hid Hp Hs.
    destruct (opened_node _ _ _ Hok s k d eq_refl Hd) as [Hn _].
    destruct (mkfs_vol_size _ _ _ Hok k d Hd) as (Hvs & Hal & _). pose proof (device_size_63 _ _ _ Hok k d Hd).
    destruct (Forall_lookup_1 _ _ _ _ (mo_devs _ _ _ Hok) Hd) as (_ & _ & _ & _ & Hf).
    split; [by rewrite Hvfd|]. rewrite Hs. do 4 (split; [first [exact Hf|done|lia]|]).
    rewrite <- Hs. intros Hr. apply (mkfs_root_room (sys s) devs opt Hok (next_fd s)).
    rewrite Hid in Hr. assert (k = O) as -> by (revert Hr; clear; h2_unfold; lia). done.
  - apply Hok.
  - rewrite (bind_Ok _ _ _ _ _ Hrun).
    destruct (uninstall_volumes_spec (mkfs_vols (next_fd s) devs) s1) as (s' & Hu & Hs'). exists s'.
    destruct (open_state_spec devs s) as (Hsys & _). destruct Hsame as (_ & _ & _ & _ & Hnm & Hdt & Hnd).
    rewrite Hsys in *. unfold devs_formatted in *. rewrite Hs'. split_and!; done.
Qed.
End newfs.
