(* ===== verification/H2Reopen.v ===== *)
(** * H2Reopen: opening the volumes of a file system

    [hammer2_init_volumes] on devices whose headers describe one file system, given in any
    order, ends with every volume installed at its id. *)

From S2P Require Import Prelude HammerDisk Layout CMonad Ondisk H2Disk H2Volumes H2Mkfs H2Header H2Verify H2Accept H2Inode H2Format H2Newfs.

#[local] Opaque Z.to_nat.

(** ** Lists of devices *)

(** The argument: the paths, with ':' between them. *)
Fixpoint join_colon (paths : list bytes) : bytes :=
  match paths with
  | [] => []
  | [p] => p
  | p :: paths => p ++ colon :: join_colon paths
  end.

Lemma split_colon_app p rest : colon ∉ p -> split_colon (p ++ colon :: rest) = p :: split_colon rest.
Proof.
  induction p as [|c p IH]; intros Hc; cbn [app split_colon]; [by rewrite bool_decide_eq_true_2|].
  rewrite bool_decide_eq_false_2 by set_solver. rewrite IH by set_solver. done.
Qed.

Lemma split_colon_one p : colon ∉ p -> split_colon p = [p].
Proof.
  induction p as [|c p IH]; intros Hc; cbn [split_colon]; [done|].
  rewrite bool_decide_eq_false_2 by set_solver. rewrite IH by set_solver. done.
Qed.

Lemma split_join paths : paths <> [] -> Forall (λ p, colon ∉ p) paths -> split_colon (join_colon paths) = paths.
Proof.
  intros Hne Hp. induction Hp as [|p paths Hc Hp IH]; [done|]. destruct paths as [|q paths]; [by apply split_colon_one|].
  change (join_colon (p :: q :: paths)) with (p ++ colon :: join_colon (q :: paths)). rewrite split_colon_app by done.
  f_equal. by apply IH.
Qed.

(** A path that is taken as it is. *)
Definition plain_path (p : bytes) : Prop := head p = Some slash /\ colon ∉ p.

Lemma getdevpath_plain y p : plain_path p -> getdevpath y p = p.
Proof. intros [Hp _]. unfold getdevpath. by rewrite Hp. Qed.

(** ** One device *)

(** Whatever copy of the header is the best, it holds [vd]. *)
Definition holds_header (f : file) (vd : hammer2_volume_data) : Prop :=
  forall r, best_header f HAMMER2_NUM_VOLHDRS r -> exists z, r = Some (z, vd).

Section reopen.
Context (uuid_compare : bytes -> bytes -> Z) (addr : Z).
Context (Huuid : forall u, uuid_compare u u = 0).
Context (y : system) (devs : list device) (hdrs : list hammer2_volume_data) (vols : list hammer2_volume).
Context (fsid fstype : bytes).

(** Device [d] is volume [v], number [k], by its header [vd]. *)
Definition member (k : nat) (d : device) (vd : hammer2_volume_data) (v : hammer2_volume) : Prop :=
  device_ok y d /\ d_size d < 2 ^ 63 /\ plain_path (d_path d) /\ hv_size v <= d_size d /\ holds_header (d_file d) vd /\
  vd_volu_id vd = Z.of_nat k /\ vd_nvolumes vd = Z.of_nat (length devs) /\
  s32 (vd_version vd) = HAMMER2_VOL_VERSION_MULTI_VOLUMES /\ vd_fsid vd = fsid /\ vd_fstype vd = fstype /\
  vd_volu_loff vd !! k = Some (hv_offset v) /\ vd_volu_size vd = hv_size v.

(** The state after the device was opened and its volume installed. *)
Definition installed (k : nat) (d : device) (v : hammer2_volume) (s : h2state) : h2state :=
  let o := set_o_header HAMMER2_VOL_VERSION_MULTI_VOLUMES (Z.of_nat (length devs)) fsid fstype (fso s) in
  let vol := hammer2_install_volume (next_fd s) (Z.of_nat k) (d_path d) (hv_offset v) (hv_size v) in
  set_fso (set_o_volumes (<[k := vol]> (o_volumes (fso s))) (u64 (o_total_size (fso s) + hv_size v)) o) (open_state [d] s).

(** Nothing is known of the file system yet, or what the headers say. *)
Definition header_known (o : hammer2_ondisk) : Prop :=
  o_nvolumes o = 0 \/
  (o_version o = HAMMER2_VOL_VERSION_MULTI_VOLUMES /\ o_nvolumes o = Z.of_nat (length devs) /\ o_fsid o = fsid /\ o_fstype o = fstype).

Lemma add_volume_spec k d vd v s rdonly :
  member k d vd v -> sys s = y -> (k < 64)%nat -> header_known (fso s) ->
  o_volumes (fso s) !! k = Some hammer2_init_volume ->
  hammer2_add_volume uuid_compare addr (d_path d) rdonly s = Ok () (installed k d v s).
Proof using Huuid.
  intros (Hd & H63 & _ & _ & Hh & Hid & Hnv & Hver & Hfs & Hft & Hloff & Hsz) Hy Hk Hkn Hvol.
  unfold hammer2_add_volume. pose proof Hd as (Hnm & Hnd & Hreg & Hw & Hf).
  rewrite (bind_Ok _ _ s (Some (next_fd s)) (open_state [d] s)).
  2:{ unfold sys_open, mbind, prog_bind, get_state. rewrite Hy, Hnm, Hnd, Hw. by rewrite andb_false_r. }
  set (s1 := open_state [d] s).
  assert (fd_node s1 (next_fd s) = Some (d_ino d, d_node d)) as Hfd by (apply open_state_node; by rewrite Hy).
  rewrite (bind_Ok _ _ s1 s1 s1) by done. rewrite Hfd. rewrite (bind_Ok _ _ s1 (d_ino d, d_node d) s1) by done.
  rewrite Hreg. rewrite (bind_Ok _ _ s1 () s1) by done.
  destruct (read_volume_header_spec addr s1 (next_fd s) (d_ino d) (d_node d) Hfd Hreg) as (r & Hrun & Hbest);
    [destruct Hf; unfold in_u; fold (d_file d); fold (d_size d); unfold d_size in *; lia|exact Hf|].
  destruct (Hh r Hbest) as [z ->]. rewrite (bind_Ok _ _ _ _ _ Hrun). cbv zeta. rewrite Hid, Nat2Z.id.
  rewrite (bind_Ok _ _ s1 () s1).
  2:{ rewrite !bool_decide_eq_false_2 by (h2_unfold; lia). done. }
  rewrite (bind_Ok _ _ s1 s1 s1) by done. change (fso s1) with (fso s). rewrite Hvol.
  rewrite (bind_Ok _ _ s1 hammer2_init_volume s1) by done. rewrite (bind_Ok _ _ s1 () s1) by done.
  rewrite Hver, Hnv, Hfs, Hft, Hloff, Hsz.
  set (o := set_o_header HAMMER2_VOL_VERSION_MULTI_VOLUMES (Z.of_nat (length devs)) fsid fstype (fso s)).
  rewrite (bind_Ok _ _ s1 () (set_fso o s1)).
  2:{ case_bool_decide as H0; [done|]. destruct Hkn as [?|(Hv & Hn & Hi & Ht)]; [done|].
      assert (o = fso s) as -> by (unfold o; rewrite <- Hv, <- Hn, <- Hi, <- Ht; by destruct (fso s)).
      unfold hammer2_uuid_compare. rewrite Hv, Hn, Hi, Ht, !Huuid.
      do 3 (rewrite (bind_Ok _ _ s1 () s1) by (by apply errx_if_false, bool_decide_eq_false_2; intros Hc; apply Hc)).
      rewrite errx_if_false by (apply bool_decide_eq_false_2; intros Hc; by apply Hc). by destruct s. }
  rewrite (bind_Ok _ _ (set_fso o s1) (hv_offset v) (set_fso o s1)) by done. reflexivity.
Qed.

(** ** All devices *)

Definition size_of (k : nat) : Z := match vols !! k with Some v => hv_size v | None => 0 end.

(** The volumes [ks] are installed, and nothing else. *)
Record opened (ks : list nat) (s : h2state) : Prop := {
  op_sys : sys s = y;
  op_initialized : hammer2_volumes_initialized s = false;
  op_fd : 0 <= next_fd s;
  op_known : header_known (fso s);
  op_header : ks <> [] -> o_version (fso s) = HAMMER2_VOL_VERSION_MULTI_VOLUMES /\ o_nvolumes (fso s) = Z.of_nat (length devs);
  op_length : length (o_volumes (fso s)) = 64%nat;
  op_in : forall k d v, k ∈ ks -> devs !! k = Some d -> vols !! k = Some v ->
    exists fd, o_volumes (fso s) !! k = Some (hammer2_install_volume fd (Z.of_nat k) (d_path d) (hv_offset v) (hv_size v)) /\
      fds s !! fd = Some (d_ino d) /\ 0 <= fd < next_fd s;
  op_out : forall k, k ∉ ks -> (k < 64)%nat -> o_volumes (fso s) !! k = Some hammer2_init_volume;
  op_total : o_total_size (fso s) = sum_Z (size_of <$> ks);
}.

Context (Hmem : forall k, (k < length devs)%nat -> exists d vd v,
  devs !! k = Some d /\ hdrs !! k = Some vd /\ vols !! k = Some v /\ member k d vd v).
Context (Hcount : (1 <= length devs <= 64)%nat) (Hvols : length vols = length devs).
Context (Htiles : tiles 0 0 vols) (Hsum : sum_Z (hv_size <$> vols) < 2 ^ 63).

Lemma opened_step ks k d vd v s :
  opened ks s -> k ∉ ks -> (k < 64)%nat -> devs !! k = Some d -> vols !! k = Some v -> member k d vd v ->
  sum_Z (size_of <$> k :: ks) < 2 ^ 64 -> 0 <= sum_Z (size_of <$> ks) -> 0 <= hv_size v ->
  opened (k :: ks) (installed k d v s).
Proof.
  intros Ho Hk H64 Hd Hv Hm Hs Hnn Hvs. rewrite fmap_cons, sum_cons in Hs. unfold size_of at 1 in Hs. rewrite Hv in Hs.
  destruct (open_state_spec [d] s) as (Hsys & Hfso & Hnext & Hlo & Hnew).
  split; cbn [installed sys hammer2_volumes_initialized next_fd fso set_fso o_version o_nvolumes o_volumes o_total_size fds
    set_o_volumes set_o_header]; try (rewrite ?Hsys, ?Hnext; by apply Ho).
  - rewrite Hnext. pose proof (op_fd _ _ Ho). lia.
  - by right.
  - done.
  - rewrite length_insert. apply Ho.
  - intros j dj vj Hj Hdj Hvj. rewrite Hnext. destruct (decide (j = k)) as [->|Hne].
    + simplify_eq. exists (next_fd s). rewrite list_lookup_insert_eq by (rewrite (op_length _ _ Ho); lia). split_and!; [done| |apply Ho|cbn; lia].
      rewrite <- (Hnew O d eq_refl). f_equal. lia.
    + apply elem_of_cons in Hj as [?|Hj]; [done|].
      destruct (op_in _ _ Ho j dj vj Hj Hdj Hvj) as (fd & Hl & Hfd & Hb). exists fd.
      rewrite list_lookup_insert_ne by done. split_and!; [done| |lia|lia]. by rewrite Hlo by lia.
  - intros j Hj Hj64. rewrite list_lookup_insert_ne by set_solver. apply Ho; set_solver.
  - rewrite fmap_cons, sum_cons, (op_total _ _ Ho). unfold size_of at 2. rewrite Hv.
    rewrite uwrap_small by (unfold in_u; lia). lia.
Qed.

Lemma sum_Z_app l1 l2 : sum_Z (l1 ++ l2) = sum_Z l1 + sum_Z l2.
Proof. induction l1 as [|x l1 IH]; [done|]. cbn [app]. rewrite !sum_cons. lia. Qed.

Lemma sum_Z_perm l1 l2 : l1 ≡ₚ l2 -> sum_Z l1 = sum_Z l2.
Proof. induction 1; rewrite ?sum_cons; lia. Qed.

Lemma size_of_all : size_of <$> seq 0 (length devs) = hv_size <$> vols.
Proof using Hcount Hvols.
  apply list_eq. intros i. rewrite !list_lookup_fmap. destruct (vols !! i) as [v|] eqn:E; cbn.
  - rewrite lookup_seq_lt by (apply lookup_lt_Some in E; lia). cbn. unfold size_of. by rewrite E.
  - apply lookup_ge_None in E. by rewrite lookup_seq_ge by lia.
Qed.

Lemma size_of_nonneg ks : 0 <= sum_Z (size_of <$> ks).
Proof using Htiles.
  apply sum_Z_nonneg, Forall_fmap, Forall_forall. intros k _. cbn. unfold size_of. destruct (vols !! k) as [v|] eqn:E; [|done].
  pose proof (tiles_sizes _ _ _ Htiles) as Hs. rewrite Forall_fmap in Hs. by apply (Forall_lookup_1 _ _ _ _ Hs E).
Qed.

(** The loop over the devices: volumes [ks] on devices [order] are still to come. *)
Lemma add_devices_spec init rdonly ks order : forall ks0 s,
  Forall2 (λ k d, devs !! k = Some d) ks order ->
  ks0 ++ ks ≡ₚ seq 0 (length devs) -> opened ks0 s ->
  exists s' ks', ks' ≡ₚ seq 0 (length devs) /\ opened ks' s' /\
    add_devices uuid_compare addr init rdonly (d_path <$> order) s = Ok () s'.
Proof using All.
  intros ks0 s Ho. revert ks0 s. induction Ho as [|k d ks order Hd Ho IH]; intros ks0 s Hp Hs.
  { exists s, ks0. rewrite app_nil_r in Hp. done. }
  pose proof (lookup_lt_Some _ _ _ Hd) as Hk.
  destruct (Hmem k Hk) as (d' & vd & v & Hd' & Hvd & Hv & Hm). rewrite Hd in Hd'. injection Hd' as <-.
  assert (k ∉ ks0) as Hnin.
  { assert (NoDup (ks0 ++ k :: ks)) as Hnd by (rewrite Hp; apply NoDup_seq). apply NoDup_app in Hnd as (_ & Hnd & _).
    intros Hin. apply (Hnd k Hin). by left. }
  rewrite fmap_cons. cbn [add_devices]. rewrite (bind_Ok _ _ s s s) by done. cbv zeta.
  pose proof Hm as (_ & _ & Hpl & _). rewrite getdevpath_plain by done.
  rewrite bool_decide_eq_false_2 by apply Hpl.
  rewrite (bind_Ok _ _ _ _ _ (add_volume_spec k d vd v s rdonly Hm (op_sys _ _ Hs) ltac:(lia) (op_known _ _ Hs)
    (op_out _ _ Hs k Hnin ltac:(lia)))).
  apply (IH (k :: ks0)); [by rewrite <- Hp, <- Permutation_middle|].
  pose proof (tiles_sizes _ _ _ Htiles) as Hsz. rewrite Forall_fmap in Hsz.
  apply (opened_step ks0 k d vd v s); try done; [lia| |apply size_of_nonneg|by apply (Forall_lookup_1 _ _ _ _ Hsz Hv)].
  pose proof (sum_Z_perm _ _ (fmap_Permutation size_of _ _ Hp)) as Htot.
  rewrite size_of_all, fmap_app, sum_Z_app, fmap_cons, sum_cons in Htot.
  rewrite fmap_cons, sum_cons. pose proof (size_of_nonneg ks). lia.
Qed.

(** The volumes of a state with all devices open. *)
Lemma opened_all ks s :
  opened ks s -> ks ≡ₚ seq 0 (length devs) ->
  let vols' := take (length devs) (o_volumes (fso s)) in
  o_volumes (fso s) = table_of_vols vols' /\ length vols' = length devs /\
  forall k d v, devs !! k = Some d -> vols !! k = Some v -> exists v',
    vols' !! k = Some v' /\ hv_id v' = Z.of_nat k /\ hv_path v' = Some (d_path d) /\ hv_offset v' = hv_offset v /\
    hv_size v' = hv_size v /\ fds s !! hv_fd v' = Some (d_ino d) /\ 0 <= hv_fd v'.
Proof using Hcount Hvols.
  intros Ho Hp vols'. pose proof (op_length _ _ Ho) as Hlen.
  assert (length vols' = length devs) as Hl by (unfold vols'; rewrite length_take; lia). split_and!; [|done|].
  - unfold table_of_vols. rewrite Hl, <- (take_drop (length devs) (o_volumes (fso s))) at 1. fold vols'. f_equal.
    apply list_eq_same_length with (64 - length devs)%nat.
    { rewrite length_replicate. h2_unfold. lia. }
    { rewrite length_drop. lia. }
    intros i a b Hi Ha Hb. rewrite lookup_drop in Ha. apply lookup_replicate in Hb as [-> _].
    rewrite (op_out _ _ Ho) in Ha by (try lia; rewrite Hp, elem_of_seq; lia). by injection Ha as <-.
  - intros k d v Hd Hv. pose proof (lookup_lt_Some _ _ _ Hd) as Hk.
    destruct (op_in _ _ Ho k d v) as (fd & Hv' & Hfd & Hb); [rewrite Hp, elem_of_seq; lia|done|done|].
    eexists. unfold vols'. rewrite lookup_take_lt by done. split; [exact Hv'|]. cbn. split_and!; done || lia.
Qed.

Lemma perm_indices order :
  order ≡ₚ devs -> exists ks, ks ≡ₚ seq 0 (length devs) /\ Forall2 (λ k d, devs !! k = Some d) ks order.
Proof.
  intros Hp.
  assert (Some <$> order ≡ₚ map (λ k, devs !! k) (seq 0 (length devs))) as Hm.
  { rewrite Hp. match goal with |- ?a ≡ₚ ?b => enough (a = b) as -> by reflexivity end.
    apply list_eq. intros i. rewrite list_lookup_fmap.
    change (map (λ k, devs !! k) (seq 0 (length devs))) with ((λ k, devs !! k) <$> seq 0 (length devs)).
    rewrite list_lookup_fmap. destruct (devs !! i) as [d|] eqn:E.
    - rewrite lookup_seq_lt by (by eapply lookup_lt_Some). cbn. by rewrite E.
    - apply lookup_ge_None in E. by rewrite lookup_seq_ge by lia. }
  apply Permutation_map_inv in Hm as (ks & Hks & Hperm). exists ks. split; [by symmetry|].
  clear -Hks. revert ks Hks. induction order as [|d order IH]; intros [|k ks] Hks; try done.
  rewrite fmap_cons in Hks. cbn in Hks. injection Hks as Hd Hks. constructor; [done|by apply IH].
Qed.

(** The header of the root volume describes all the volumes. *)
Definition root_header (rv : hammer2_volume_data) : Prop :=
  vd_total_size rv = sum_Z (hv_size <$> vols) /\
  Forall (λ off, off <> u64 (-1)) (take (length devs) (vd_volu_loff rv)) /\
  Forall (λ off, off = u64 (-1)) (drop (length devs) (vd_volu_loff rv)).
Context (Hroot : exists rv, hdrs !! O = Some rv /\ root_header rv).
Context (Hsizes : sizes_ok (Z.of_nat (length devs)) vols) (Hnodup : NoDup (d_ino <$> devs)).
Context (Hfirst : exists v, vols !! O = Some v /\ 0 < hv_size v).

(** What a process has after it opened the volumes. *)
Definition reopened (s' : h2state) : Prop :=
  sys s' = y /\ exists vols', volumes_are s' vols' /\ length vols' = length devs /\
  o_total_size (fso s') = sum_Z (hv_size <$> vols) /\
  forall k d v, devs !! k = Some d -> vols !! k = Some v -> exists v',
    vols' !! k = Some v' /\ hv_id v' = Z.of_nat k /\ hv_path v' = Some (d_path d) /\ hv_offset v' = hv_offset v /\
    hv_size v' = hv_size v /\ fds s' !! hv_fd v' = Some (d_ino d) /\ 0 <= hv_fd v'.

Lemma opened_start s :
  sys s = y -> hammer2_volumes_initialized s = false -> 0 <= next_fd s -> opened [] (set_fso hammer2_init_ondisk s).
Proof.
  intros Hy Hi Hf. split; cbn; try done; [by left| |].
  - intros k d v Hk. by apply elem_of_nil in Hk.
  - intros k _ Hk. apply lookup_replicate. split; [done|]. h2_unfold. lia.
Qed.

Lemma tiles_ext vs ws : forall base id,
  Forall2 (λ v w, hv_id v = hv_id w /\ hv_offset v = hv_offset w /\ hv_size v = hv_size w) vs ws ->
  tiles base id vs -> tiles base id ws /\ hv_size <$> ws = hv_size <$> vs.
Proof.
  intros base id Hf. revert base id. induction Hf as [|v w vs ws (Hi & Ho & Hs) _ IH]; intros base id Ht; [done|].
  destruct Ht as (Hid & Hoff & Hp & Ht). apply IH in Ht as [Ht Hsz]. cbn [tiles]. rewrite !fmap_cons, Hsz, <- Hi, <- Ho, <- Hs. done.
Qed.

(** The volumes [vols'] of a state are [vols], up to their descriptors. *)
Lemma opened_volumes ks s :
  opened ks s -> ks ≡ₚ seq 0 (length devs) ->
  let vols' := take (length devs) (o_volumes (fso s)) in
  volumes_are (set_initialized true s) vols' /\ hv_size <$> vols' = hv_size <$> vols /\
  sizes_ok (Z.of_nat (length vols')) vols' /\ Forall2 (vol_open (set_initialized true s)) vols' (d_ino <$> devs).
Proof using Hcount Hvols Htiles Hsum Hmem Hsizes Hnodup.
  intros Ho Hp vols'. destruct (opened_all ks s Ho Hp) as (Htab & Hlen & Hvol). fold vols' in Htab, Hlen, Hvol.
  assert (forall k v', vols' !! k = Some v' -> exists d vd v, devs !! k = Some d /\ vols !! k = Some v /\ member k d vd v /\
    hv_id v' = Z.of_nat k /\ hv_path v' = Some (d_path d) /\ hv_offset v' = hv_offset v /\
    hv_size v' = hv_size v /\ fds s !! hv_fd v' = Some (d_ino d) /\ 0 <= hv_fd v') as Hall.
  { intros k v' Hv'. destruct (Hmem k) as (d & vd & v & Hd & _ & Hv & Hm).
    { apply lookup_lt_Some in Hv'. lia. }
    destruct (Hvol k d v Hd Hv) as (w & Hw & Hrest). rewrite Hv' in Hw. injection Hw as <-. by exists d, vd, v. }
  destruct (tiles_ext vols vols' 0 0) as [Ht Hs]; [|done|].
  { apply Forall2_same_length_lookup_2; [congruence|]. intros k v v' Hv Hv'.
    destruct (Hall k v' Hv') as (d & vd & w & Hd & Hw & _ & Hid & _ & Hoff & Hsz & _). rewrite Hv in Hw. injection Hw as <-.
    destruct (tiles_lookup _ _ _ _ _ Htiles Hv) as [Hi _]. split_and!; lia. }
  split_and!; [|done| |].
  - split_and!; [done| | |done|rewrite Hs; lia].
    + cbn. rewrite Hlen. apply (op_header _ _ Ho). intros ->. apply Permutation_nil_l in Hp. destruct devs; [cbn in Hcount; lia|done].
    + cbn. rewrite Hlen. done.
  - rewrite Hlen. intros k v' Hv'. destruct (Hall k v' Hv') as (d & vd & v & Hd & Hv & _ & _ & _ & _ & Hsz & _).
    rewrite Hsz. by apply Hsizes.
  - apply Forall2_fmap_r, Forall2_same_length_lookup_2; [done|]. intros k v' d Hv' Hd.
    destruct (Hall k v' Hv') as (d' & vd & v & Hd' & Hv & Hm & Hid & Hpath & Hoff & Hsz & Hfd & Hpos).
    rewrite Hd in Hd'. injection Hd' as <-. destruct Hm as ((Hnm & Hnd & Hreg & _ & Hf) & H63 & _ & Hfit & _).
    exists (d_path d), (d_node d). pose proof (op_sys _ _ Ho) as Hy.
    split_and!; [done| | |lia|done|split; [apply Hf|exact H63]|].
    + unfold path_ino. cbn. rewrite Hy, Hnm. cbn. by rewrite Hnd.
    + unfold fd_node. cbn. rewrite Hfd. cbn. by rewrite Hy, Hnd.
    + rewrite Hsz. exact Hfit.
Qed.

Lemma read_root_spec ks s rv :
  opened ks s -> ks ≡ₚ seq 0 (length devs) -> hdrs !! O = Some rv ->
  hammer2_read_root_volume_header addr (set_initialized true s) = Ok (Some rv) (set_initialized true s).
Proof using Hcount Hvols Htiles Hsum Hmem Hsizes Hnodup Hfirst.
  intros Ho Hp Hrv. destruct (opened_all ks s Ho Hp) as (_ & Hlen & Hvol).
  destruct (opened_volumes ks s Ho Hp) as (Hare & Hsz & _ & Hopen). set (vols' := take _ _) in *. set (s2 := set_initialized true s) in *.
  destruct (Hmem O ltac:(lia)) as (d & rv' & v & Hd & Hrv' & Hv & Hm). rewrite Hrv in Hrv'. injection Hrv' as <-.
  destruct (Hvol O d v Hd Hv) as (v' & Hv' & _ & _ & _ & Hs' & _).
  destruct Hfirst as (w & Hw & Hpos). rewrite Hv in Hw. injection Hw as <-.
  assert (hammer2_get_volume_attr 0 s2 = Ok (Some v') s2) as Hattr.
  { rewrite (get_volume_attr_tiles s2 vols' 0 Hare) by done. change (0 .& _) with 0.
    assert (volume_of (hv_size <$> vols') 0 = Some (O, 0)) as ->; [|by rewrite Hv'].
    destruct vols' as [|x vs]; [done|]. cbn in Hv'. injection Hv' as ->. rewrite fmap_cons. cbn.
    by rewrite bool_decide_eq_true_2 by lia. }
  unfold hammer2_read_root_volume_header, hammer2_get_root_volume_fd, hammer2_get_root_volume_path,
    hammer2_get_volume_fd, hammer2_get_volume_path, get_attr.
  rewrite (bind_Ok _ _ s2 (hv_fd v') s2) by (by rewrite (bind_Ok _ _ _ _ _ Hattr)).
  rewrite (bind_Ok _ _ s2 (hv_path v') s2) by (by rewrite (bind_Ok _ _ _ _ _ Hattr)).
  assert (vol_open s2 v' (d_ino d)) as (path & nd & _ & _ & Hfd & Hne & Hreg & Hs63 & _).
  { apply (Forall2_lookup_lr _ _ _ O _ _ Hopen Hv'). by rewrite list_lookup_fmap, Hd. }
  rewrite bool_decide_eq_false_2 by done.
  destruct Hm as ((_ & Hnd & _ & _ & Hf) & _ & _ & _ & Hh & _).
  assert (nd = d_node d) as ->.
  { apply (fd_node_nodes) in Hfd as [_ Hfd]. cbn in Hfd. rewrite (op_sys _ _ Ho) in Hfd. congruence. }
  destruct (read_volume_header_spec addr s2 (hv_fd v') (d_ino d) (d_node d) Hfd Hreg) as (r & Hrun & Hbest);
    [unfold in_u in *; lia|exact Hf|]. destruct (Hh r Hbest) as [z ->]. by rewrite (bind_Ok _ _ _ _ _ Hrun).
Qed.

Lemma init_volumes_spec fuel rdonly order s :
  order ≡ₚ devs -> sys s = y -> hammer2_volumes_initialized s = false -> 0 <= next_fd s ->
  exists s', hammer2_init_volumes uuid_compare addr (S fuel) (Some (join_colon (d_path <$> order))) rdonly s = Ok () s' /\
    reopened s'.
Proof using All.
  intros Hperm Hy Hi Hf. cbn [hammer2_init_volumes]. rewrite (bind_Ok _ _ s s s) by done. rewrite Hi.
  rewrite (bind_Ok _ _ s () s) by done. rewrite (bind_Ok _ _ s () (set_fso hammer2_init_ondisk s)) by done.
  assert (forall k d, devs !! k = Some d -> plain_path (d_path d)) as Hplain.
  { intros k d Hd. destruct (Hmem k (lookup_lt_Some _ _ _ Hd)) as (d' & vd & v & Hd' & _ & _ & Hm).
    rewrite Hd in Hd'. injection Hd' as <-. apply Hm. }
  rewrite split_join.
  2:{ intros Hc. apply fmap_nil_inv in Hc as ->. apply Permutation_nil_l in Hperm. rewrite <- Hperm in Hcount. cbn in Hcount. lia. }
  2:{ apply Forall_fmap. rewrite Hperm. apply Forall_lookup. intros k d Hd. by apply (Hplain k d). }
  destruct (perm_indices order Hperm) as (ks & Hks & Hall).
  destruct (add_devices_spec (λ p, hammer2_init_volumes uuid_compare addr fuel (Some p) rdonly) rdonly ks order []
    (set_fso hammer2_init_ondisk s) Hall Hks (opened_start s Hy Hi Hf)) as (s1 & ks1 & Hp1 & Ho1 & Hrun).
  rewrite (bind_Ok _ _ _ _ _ Hrun). set (s2 := set_initialized true s1). rewrite (bind_Ok _ _ s1 () s2) by done.
  destruct (opened_all ks1 s1 Ho1 Hp1) as (Htab & Hlen & Hvol).
  destruct (opened_volumes ks1 s1 Ho1 Hp1) as (Hare & Hsz & Hszok & Hopen). fold s2 in Hare, Hopen.
  set (vols' := take (length devs) (o_volumes (fso s1))) in *.
  assert (o_total_size (fso s1) = sum_Z (hv_size <$> vols)) as Htot.
  { rewrite (op_total _ _ Ho1), <- size_of_all. apply sum_Z_perm. by rewrite Hp1. }
  destruct Hroot as (rv & Hrv & Hr1 & Hr2 & Hr3).
  assert (hammer2_read_root_volume_header addr s2 = Ok (Some rv) s2) as Hread by (by apply (read_root_spec ks1)).
  rewrite (bind_Ok _ _ _ _ _ Hread). rewrite (bind_Ok _ _ s2 s2 s2) by done.
  destruct Hare as (_ & Hn & Htake & Ht & Hs64). destruct (Hmem O ltac:(lia)) as (d0 & rv' & v0 & Hd0 & Hrv' & Hv0 & Hm0).
  rewrite Hrv in Hrv'. injection Hrv' as <-. destruct Hm0 as (_ & _ & _ & _ & _ & Hid0 & Hnv0 & _).
  rewrite (bind_Ok _ _ s2 (fso s2) s2).
  - eexists. split; [reflexivity|]. split; [apply Ho1|]. exists vols'. split_and!; [|done|done|exact Hvol].
    by split_and!.
  - apply (verify_volumes_ok s2 (fso s2) vols' (d_ino <$> devs));
      [exact Htab|exact Hn|lia| |exact Ht|rewrite Hsz; lia|exact Hszok|exact Hopen|exact Hnodup|].
    + destruct (op_header _ _ Ho1) as [Hver _]; [|cbn; by rewrite Hver]. intros ->. apply Permutation_nil_l in Hp1.
      destruct devs; [cbn in Hcount; lia|done].
    + split_and!; [by rewrite Hid0|rewrite Hnv0, Hn; by rewrite Hlen|cbn; congruence|by rewrite Hlen|by rewrite Hlen].
Qed.
End reopen.
