(* ===== verification/H2Roundtrip.v ===== *)
(** * H2Roundtrip: a file system that newfs_hammer2 made can be opened

    The devices after [hammer2_mkfs] satisfy what [H2Reopen] asks for. *)

From S2P Require Import Prelude HammerDisk Layout CMonad Ondisk H2Disk H2Volumes H2Mkfs H2Header H2Verify H2Accept H2Inode H2Format H2Newfs H2Reopen.

#[local] Opaque Z.to_nat.

(** ** Devices after formatting *)

Definition with_content (d : device) (f : file) : device :=
  {| d_path := d_path d; d_ino := d_ino d; d_node := set_nd_file f (d_node d) |}.

(** No old header that newfs_hammer2 does not overwrite: a copy of the header beyond the
    (rounded) size of the volume. *)
Definition no_stale (n : Z) (k : nat) (d : device) : Prop :=
  forall j, 0 <= j < HAMMER2_NUM_VOLHDRS -> vol_size n k (d_size d) <= j * HAMMER2_ZONE_BYTES64 ->
    candidate (d_file d) j = false.

(** A formatted file holds one header. *)
Lemma formatted_header n k d f' vd :
  let size := vol_size n k (d_size d) in
  HAMMER2_VOLUME_ALIGN <= size <= d_size d -> size mod HAMMER2_VOLUME_ALIGN = 0 -> no_stale n k d -> f_size f' = d_size d ->
  valid vd -> header_ok (encode vd) = true -> vd_mirror_tid vd = 16 ->
  (forall j, 0 <= j < HAMMER2_NUM_VOLHDRS -> j * HAMMER2_ZONE_BYTES64 < size -> header_at f' j = encode vd) ->
  (forall p n, size <= p -> file_read f' p n = file_read (d_file d) p n) ->
  holds_header f' vd.
Proof.
  intros size Hsz Hal Hst Hfs Hv Hho Htid Hhdr Hframe r Hr.
  assert (forall j, 0 <= j < HAMMER2_NUM_VOLHDRS -> candidate f' j = true -> header_at f' j = encode vd) as Hcand.
  { intros j Hj Hc. destruct (decide (j * HAMMER2_ZONE_BYTES64 < size)) as [|Hge]; [by apply Hhdr|]. exfalso.
    assert (candidate f' j = candidate (d_file d) j) as He.
    { unfold candidate, header_at. rewrite Hfs, Hframe by lia. reflexivity. }
    rewrite He in Hc. rewrite (Hst j Hj) in Hc by (apply Z.nlt_ge; exact Hge). discriminate Hc. }
  assert (candidate f' 0 = true) as H0.
  { unfold candidate. rewrite (Hhdr 0) by (try done; h2_unfold; lia). rewrite Hho, bool_decide_eq_true_2; [done|].
    rewrite Hfs. clear -Hsz. h2_unfold. lia. }
  destruct r as [[z w]|].
  - destruct Hr as (Hz & Hcz & Hw & _). exists z. f_equal. f_equal. rewrite Hw, (Hcand z Hz Hcz). by apply decode_encode.
  - exfalso. cbn in Hr. by rewrite (Hr 0) in H0.
Qed.

Lemma Forall2_choose {A B C} (P : A -> B -> C -> Prop) l1 l2 :
  Forall2 (λ a b, exists c, P a b c) l1 l2 ->
  exists l3, length l3 = length l2 /\
    forall k a b c, l1 !! k = Some a -> l2 !! k = Some b -> l3 !! k = Some c -> P a b c.
Proof.
  induction 1 as [|a b l1 l2 (c & Hc) _ (l3 & Hl & IH)]; [by exists []|]. exists (c :: l3). split; [cbn; by rewrite Hl|].
  intros [|k] a' b' c' Ha Hb Hc'; cbn in *; [by simplify_eq|by apply (IH k)].
Qed.

Section roundtrip.
Context (uuid_generate : nat -> bytes) (now : Z) (y : system) (devs : list device) (opt : hammer2_mkfs_options) (s' : h2state).
Context (Huuid : forall i, raw 16 (uuid_generate i)) (Hnow : in_u 64 now) (Hok : mkfs_ok y devs opt).
Context (fd : Z).
Context (Hform : devs_formatted uuid_generate now (adjusted (fs_size devs) opt) (mkfs_ondisk fd devs opt) s' (mkfs_vols fd devs) devs).
Context (Hnames : names (sys s') = names y).
Context (Hstale : forall k d, devs !! k = Some d -> no_stale (Z.of_nat (length devs)) k d).
Context (Hplain : Forall (λ d, plain_path (d_path d)) devs).

#[local] Abbreviation o := (mkfs_ondisk fd devs opt).
#[local] Abbreviation opt' := (adjusted (fs_size devs) opt).

(** The fields of the header of volume [v] that opening looks at. *)
Lemma header_fields v k c1 c0 cv :
  mkfs_vols fd devs !! k = Some v -> hv_id v = Z.of_nat k ->
  let vd := with_crcs c1 c0 cv (expected_header uuid_generate now opt' o v) in
  vd_volu_id vd = Z.of_nat k /\ vd_nvolumes vd = Z.of_nat (length devs) /\
  s32 (vd_version vd) = HAMMER2_VOL_VERSION_MULTI_VOLUMES /\ vd_fsid vd = Hammer2_VolFSID opt /\
  vd_fstype vd = Hammer2_FSType opt /\ vd_volu_loff vd !! k = Some (hv_offset v) /\ vd_volu_size vd = hv_size v /\
  vd_mirror_tid vd = 16 /\ vd_volu_loff vd = loffs o /\ vd_total_size vd = fs_size devs.
Proof using Hok.
  intros Hv Hid vd. pose proof (mo_count _ _ _ Hok) as Hcnt. pose proof (lookup_lt_Some _ _ _ Hv) as Hk.
  rewrite length_mkfs_vols in Hk.
  assert (Hammer2Version opt' = 2) as Hver by (unfold adjusted; cbn; apply (mo_version _ _ _ Hok)).
  unfold vd, expected_header, volume_header, with_crcs. 
  cbn [set_icrc_volheader set_icrc_sect vd_volu_id vd_nvolumes vd_version vd_fsid vd_fstype vd_volu_loff vd_volu_size
       vd_mirror_tid vd_total_size].
  rewrite Hver. change (u32 2) with 2. rewrite (bool_decide_eq_true_2 (HAMMER2_VOL_VERSION_MULTI_VOLUMES <= 2)) by done.
  split_and!; try done.
  - rewrite Hid. apply uwrap_small. unfold in_u. lia.
  - unfold mkfs_ondisk. cbn. apply uwrap_small. unfold in_u. lia.
  - unfold loffs. rewrite list_lookup_imap. unfold mkfs_ondisk. cbn [o_volumes o_nvolumes set_o_free_size set_o_volumes set_o_version set_o_header].
    rewrite (table_lookup _ _ _ Hv). cbn. by rewrite bool_decide_eq_true_2 by lia.
Qed.

(** The header of the root volume lists the volumes. *)
Lemma loffs_prefix : Forall (λ off, off <> u64 (-1)) (take (length devs) (loffs o)).
Proof using Hok.
  apply Forall_lookup. intros k off Hk. apply lookup_take_Some in Hk as [Hk Hlt]. unfold loffs in Hk.
  rewrite list_lookup_imap in Hk. unfold mkfs_ondisk in Hk. cbn [o_volumes o_nvolumes set_o_free_size set_o_volumes set_o_version set_o_header] in Hk.
  destruct (lookup_lt_is_Some_2 (mkfs_vols fd devs) k) as [v Hv]; [by rewrite length_mkfs_vols|].
  rewrite (table_lookup _ _ _ Hv) in Hk. cbn in Hk. rewrite bool_decide_eq_true_2 in Hk by lia. injection Hk as <-.
  destruct (mkfs_vols_total y devs opt Hok fd) as [Hs Ht].
  pose proof (tiles_bounds 0 0 _ (mkfs_vols_tiles y devs opt Hok fd) ltac:(lia) ltac:(lia) ltac:(lia)) as Hb.
  destruct (Forall_lookup_1 _ _ _ _ Hb Hv) as [_ Hoff]. change (u64 (-1)) with (2 ^ 64 - 1). lia.
Qed.

Lemma loffs_suffix : Forall (λ off, off = u64 (-1)) (drop (length devs) (loffs o)).
Proof.
  apply Forall_lookup. intros k off Hk. rewrite lookup_drop in Hk. unfold loffs in Hk. rewrite list_lookup_imap in Hk.
  unfold mkfs_ondisk in Hk. cbn [o_volumes o_nvolumes set_o_free_size set_o_volumes set_o_version set_o_header] in Hk.
  destruct (table_of_vols _ !! _) as [v|]; [|done]. cbn in Hk. rewrite bool_decide_eq_false_2 in Hk by lia. by injection Hk as <-.
Qed.

(** What is known of device [d] with contents [f'], volume [v] and header [vd]. *)
Definition made (v : hammer2_volume) (d : device) (df : file * hammer2_volume_data) : Prop :=
  let '(f', vd) := df in
  nodes (sys s') !! d_ino d = Some (set_nd_file f' (d_node d)) /\
  formatted uuid_generate now opt' o v (d_file d) f' /\
  (exists c1 c0 cv, vd = with_crcs c1 c0 cv (expected_header uuid_generate now opt' o v)) /\
  valid vd /\ header_ok (encode vd) = true /\
  (forall j, 0 <= j < HAMMER2_NUM_VOLHDRS -> j * HAMMER2_ZONE_BYTES64 < hv_size v -> header_at f' j = encode vd).

Lemma devs_made : exists l, length l = length devs /\
  forall k v d df, mkfs_vols fd devs !! k = Some v -> devs !! k = Some d -> l !! k = Some df -> made v d df.
Proof using Hform.
  apply Forall2_choose. eapply Forall2_impl; [exact Hform|]. intros v d (f' & Hn & Hfm).
  pose proof Hfm as (_ & _ & (c1 & c0 & cv & Hv & Hh & Hall) & _).
  exists (f', with_crcs c1 c0 cv (expected_header uuid_generate now opt' o v)).
  split_and!; [done|done|by exists c1, c0, cv|done|done|done].
Qed.

Section made.
Context (l : list (file * hammer2_volume_data)) (Hl : length l = length devs).
Context (Hmade : forall k v d df, mkfs_vols fd devs !! k = Some v -> devs !! k = Some d -> l !! k = Some df -> made v d df).

Definition new_devs : list device := zip_with (λ d df, with_content d df.1) devs l.

Lemma new_devs_lookup k d df :
  devs !! k = Some d -> l !! k = Some df -> new_devs !! k = Some (with_content d df.1).
Proof. intros Hd Hdf. unfold new_devs. by rewrite lookup_zip_with, Hd, Hdf. Qed.

Lemma length_new_devs : length new_devs = length devs.
Proof using Hl. unfold new_devs. rewrite length_zip_with. lia. Qed.

Lemma new_devs_fmap {A} (g : device -> A) :
  (forall d f, g (with_content d f) = g d) -> g <$> new_devs = g <$> devs.
Proof using Hl.
  intros Hg. apply list_eq. intros k. rewrite !list_lookup_fmap. unfold new_devs. rewrite lookup_zip_with.
  destruct (devs !! k) as [d|] eqn:Hd; [|done]. destruct (lookup_lt_is_Some_2 l k) as [df Hdf].
  { rewrite Hl. by eapply lookup_lt_Some. }
  rewrite Hdf. cbn. by rewrite Hg.
Qed.

Lemma new_member k d df v :
  devs !! k = Some d -> l !! k = Some df -> mkfs_vols fd devs !! k = Some v ->
  member (sys s') new_devs (Hammer2_VolFSID opt) (Hammer2_FSType opt) k (with_content d df.1) df.2 v.
Proof using All.
  intros Hd Hdf Hv. pose proof (Hmade k v d df Hv Hd Hdf) as Hm. destruct df as [f' vd].
  destruct Hm as (Hn & (Hfs & Hfok & _ & _ & Hframe) & (c1 & c0 & cv & Hvd) & Hval & Hh & Hall).
  destruct (mkfs_vols_dev devs fd k d Hd) as (v' & Hv' & _ & Hid & _ & Hsz). rewrite Hv in Hv'. injection Hv' as <-.
  destruct (header_fields v k c1 c0 cv Hv Hid) as (H1 & H2 & H3 & H4 & H5 & H6 & H7 & H8 & _). rewrite <- Hvd in *.
  destruct (mkfs_vol_size y devs opt Hok k d Hd) as (Hvs & Hal & _). rewrite Hsz in *.
  pose proof (device_size_63 y devs opt Hok k d Hd) as H63.
  destruct (Forall_lookup_1 _ _ _ _ (mo_devs _ _ _ Hok) Hd) as (Hnm & _ & Hreg & Hw & _).
  assert (d_size (with_content d f') = d_size d) as Hds by exact Hfs.
  split_and!; cbn [with_content d_path d_ino d_node snd fst]; try done.
  - split_and!; [by rewrite Hnames|done|done|done|exact Hfok].
  - rewrite Hds. lia.
  - apply (Forall_lookup_1 _ _ _ _ Hplain Hd).
  - rewrite Hsz, Hds. lia.
  - apply (formatted_header (Z.of_nat (length devs)) k d f' vd); try done. by apply Hstale.
  - by rewrite length_new_devs.
  - congruence.
Qed.

Lemma new_root_header :
  exists rv, l.*2 !! O = Some rv /\ root_header new_devs (mkfs_vols fd devs) rv.
Proof using Hl Hmade Hok Huuid Hnow.
  pose proof (mo_count _ _ _ Hok) as Hcnt.
  destruct (lookup_lt_is_Some_2 devs 0) as [d Hd]; [lia|]. destruct (lookup_lt_is_Some_2 l 0) as [df Hdf]; [lia|].
  destruct (mkfs_vols_dev devs fd 0 d Hd) as (v & Hv & _ & Hid & _). exists df.2.
  split; [by rewrite list_lookup_fmap, Hdf|]. pose proof (Hmade 0 v d df Hv Hd Hdf) as Hm. destruct df as [f' vd].
  destruct Hm as (_ & _ & (c1 & c0 & cv & Hvd) & _).
  destruct (header_fields v 0 c1 c0 cv Hv Hid) as (_ & _ & _ & _ & _ & _ & _ & _ & Hlo & Htot). rewrite <- Hvd in *.
  destruct (mkfs_vols_total y devs opt Hok fd) as [Hs _].
  unfold root_header. cbn [snd]. rewrite Hlo, Htot, Hs, length_new_devs. split_and!; [done|apply loffs_prefix|apply loffs_suffix].
Qed.
End made.

(** A process that opens the devices, in any order, gets the volumes. *)
Lemma newfs_reopened (uuid_compare : bytes -> bytes -> Z) (addr : Z) fuel rdonly order s :
  (forall u, uuid_compare u u = 0) -> order ≡ₚ devs ->
  sys s = sys s' -> hammer2_volumes_initialized s = false -> 0 <= next_fd s ->
  exists l s2, length l = length devs /\
    (forall k v d df, mkfs_vols fd devs !! k = Some v -> devs !! k = Some d -> l !! k = Some df -> made v d df) /\
    hammer2_init_volumes uuid_compare addr (S fuel) (Some (join_colon (d_path <$> order))) rdonly s = Ok () s2 /\
    reopened (sys s') (new_devs l) (mkfs_vols fd devs) s2.
Proof using All.
  intros Hcmp Hord Hs Hi Hf. destruct devs_made as (l & Hl & Hmade). exists l.
  pose proof (mo_count _ _ _ Hok) as Hcnt.
  assert (exists order', order' ≡ₚ new_devs l /\ d_path <$> order' = d_path <$> order) as (order' & Hp' & Hpath).
  { apply (fmap_Permutation d_path) in Hord. rewrite <- (new_devs_fmap l Hl d_path) in Hord by done.
    symmetry in Hord. apply Permutation_sym in Hord. apply Permutation_map_inv in Hord as (l3 & Hl3 & Hp). exists l3. split; [by symmetry|by symmetry]. }
  destruct (init_volumes_spec uuid_compare addr Hcmp (sys s') (new_devs l) l.*2 (mkfs_vols fd devs) (Hammer2_VolFSID opt) (Hammer2_FSType opt))
    with (fuel := fuel) (rdonly := rdonly) (order := order') (s := s) as (s2 & Hrun & Hre); try done.
  - intros k Hk. rewrite length_new_devs in Hk by done.
    destruct (lookup_lt_is_Some_2 devs k) as [d Hd]; [lia|]. destruct (lookup_lt_is_Some_2 l k) as [df Hdf]; [lia|].
    destruct (mkfs_vols_dev devs fd k d Hd) as (v & Hv & _).
    exists (with_content d df.1), df.2, v. split_and!; [by apply new_devs_lookup|by rewrite list_lookup_fmap, Hdf|done|].
    by apply new_member.
  - by rewrite length_new_devs.
  - by rewrite length_new_devs, length_mkfs_vols.
  - by apply (mkfs_vols_tiles y devs opt).
  - destruct (mkfs_vols_total y devs opt Hok fd). lia.
  - by apply new_root_header.
  - rewrite length_new_devs, <- (length_mkfs_vols devs fd) by done. by apply (mkfs_sizes_ok y devs opt).
  - rewrite new_devs_fmap by done. apply Hok.
  - destruct (lookup_lt_is_Some_2 devs 0) as [d Hd]; [lia|].
    destruct (mkfs_vols_dev devs fd 0 d Hd) as (v & Hv & _ & _ & _ & Hsz). exists v. split; [done|].
    destruct (mkfs_vol_size y devs opt Hok 0 d Hd) as ([Hpos _] & _). rewrite Hsz. clear -Hpos. h2_unfold. lia.
  - exists s2. rewrite <- Hpath. done.
Qed.
End roundtrip.
