(* ===== verification/H2Fsck.v ===== *)
(** * H2Fsck: fsck_hammer2(8)

    src/sbin/fsck_hammer2: the options ([main] of fsck_hammer2.c) and the tests of test.c on
    the volumes of [H2Volumes]: the copies of the root volume header, and the trees of block
    references below them, with their check codes, the statistics and the cache of subtrees
    that were verified before.

    Printing is not modelled; the statistics that are printed for a zone are part of the
    result of a test.  A [blockref_tree] is a map from offsets to lists of messages.  The
    program is built without [HAMMER2_USE_OPENSSL], so SHA192 check codes are not looked at.
    Recursion over the tree takes fuel: the depth of the C stack. *)

From S2P Require Import Prelude HammerDisk Layout Crc32 CMonad Ondisk Newfs H2Disk H2Volumes.

(** ** Constants *)

Definition HAMMER2_LBUFSIZE : Z := 16384.
Definition HAMMER2_PBUFRADIX : Z := 16.
Definition HAMMER2_BREF_TYPE_EMPTY : Z := 0.
Definition HAMMER2_BREF_TYPE_INDIRECT : Z := 2.
Definition HAMMER2_BREF_TYPE_DATA : Z := 3.
Definition HAMMER2_BREF_TYPE_DIRENT : Z := 4.
Definition HAMMER2_BREF_TYPE_FREEMAP_NODE : Z := 5.
Definition HAMMER2_BREF_TYPE_FREEMAP_LEAF : Z := 6.
Definition HAMMER2_BREF_TYPE_FREEMAP : Z := 254.
Definition HAMMER2_BREF_TYPE_VOLUME : Z := 255.
Definition HAMMER2_CHECK_ISCSI32 : Z := 2.
Definition HAMMER2_CHECK_SHA192 : Z := 4.
Definition HAMMER2_CHECK_FREEMAP : Z := 5.
Definition HAMMER2_OPFLAG_DIRECTDATA : Z := 1.
(** [sizeof(hammer2_media_data_t)] *)
Definition MEDIA_BYTES : Z := 65536.

#[export] Instance hammer2_blockref_eq_dec : EqDecision hammer2_blockref.
Proof. solve_decision. Defined.

(** ** Options and statistics *)

Record fsck_options := {
  fk_ForceOpt : bool;
  CountEmpty : bool;
  ScanBest : bool;
  ScanPFS : bool;
  PrintPFS : bool;
  PFSNames : list (option bytes);  (** the first [NumPFSNames] entries; [None]: NULL, or not set *)
  BlockrefCacheCount : Z;
}.

(** [struct blockref_msg] lists by [data_off]. *)
Abbreviation blockref_list A := (list (hammer2_blockref * A)).
Abbreviation blockref_tree A := (gmap Z (blockref_list A)).

(** The messages of [verify_blockref]. *)
Inductive fsck_msg :=
  | Invalid_blockref_type (t : Z)
  | Bad_IO_bytes
  | Failed_to_read_media
  | Bad_check (algo : Z).

(** [bs_u] is the union of the [volume] counters (inode, indirect, data, dirent) and the
    [freemap] counters (node, leaf). *)
Record blockref_stats_t := {
  bs_root : blockref_tree fsck_msg;
  bs_type : Z;
  bs_total_blockref : Z;
  bs_total_empty : Z;
  bs_total_bytes : Z;
  bs_u : list Z;
}.

Record delta_stats_t := {
  ds_total_blockref : Z;
  ds_total_empty : Z;
  ds_total_bytes : Z;
  ds_total_inode : Z;
  ds_total_indirect : Z;
  ds_total_data : Z;
  ds_total_dirent : Z;
  ds_total_freemap_node : Z;
  ds_total_freemap_leaf : Z;
  ds_count : Z;
}.

Definition add_blockref_msg {A} (head : blockref_list A) (bref : hammer2_blockref) (msg : A) : blockref_list A :=
  head ++ [(bref, msg)].
(** An entry that is found is extended; inserting it again does nothing. *)
Definition add_blockref_entry {A} (root : blockref_tree A) (bref : hammer2_blockref) (msg : A) : blockref_tree A :=
  <[bref_data_off bref := add_blockref_msg (default [] (root !! bref_data_off bref)) bref msg]> root.

Definition init_blockref_stats (type : Z) : blockref_stats_t :=
  {| bs_root := ∅; bs_type := type; bs_total_blockref := 0; bs_total_empty := 0; bs_total_bytes := 0;
     bs_u := replicate 4 0 |}.
Definition zero_delta : delta_stats_t :=
  {| ds_total_blockref := 0; ds_total_empty := 0; ds_total_bytes := 0; ds_total_inode := 0;
     ds_total_indirect := 0; ds_total_data := 0; ds_total_dirent := 0; ds_total_freemap_node := 0;
     ds_total_freemap_leaf := 0; ds_count := 0 |}.

(** [+=] on the counters, modulo 2 ^ 64. *)
Definition add_bstats (blockref empty bytes : Z) (u : list Z) (b : blockref_stats_t) : blockref_stats_t :=
  {| bs_root := bs_root b; bs_type := bs_type b; bs_total_blockref := u64 (bs_total_blockref b + blockref);
     bs_total_empty := u64 (bs_total_empty b + empty); bs_total_bytes := u64 (bs_total_bytes b + bytes);
     bs_u := zip_with (λ x y, u64 (x + y)) (bs_u b) u |}.
Definition add_bs_msg (bref : hammer2_blockref) (msg : fsck_msg) (b : blockref_stats_t) : blockref_stats_t :=
  {| bs_root := add_blockref_entry (bs_root b) bref msg; bs_type := bs_type b;
     bs_total_blockref := bs_total_blockref b; bs_total_empty := bs_total_empty b;
     bs_total_bytes := bs_total_bytes b; bs_u := bs_u b |}.
(** The delta of [dst] and the counters of [src]; [count] is a [long]. *)
Definition add_delta (dst src : delta_stats_t) : delta_stats_t :=
  {| ds_total_blockref := u64 (ds_total_blockref dst + ds_total_blockref src);
     ds_total_empty := u64 (ds_total_empty dst + ds_total_empty src);
     ds_total_bytes := u64 (ds_total_bytes dst + ds_total_bytes src);
     ds_total_inode := u64 (ds_total_inode dst + ds_total_inode src);
     ds_total_indirect := u64 (ds_total_indirect dst + ds_total_indirect src);
     ds_total_data := u64 (ds_total_data dst + ds_total_data src);
     ds_total_dirent := u64 (ds_total_dirent dst + ds_total_dirent src);
     ds_total_freemap_node := u64 (ds_total_freemap_node dst + ds_total_freemap_node src);
     ds_total_freemap_leaf := u64 (ds_total_freemap_leaf dst + ds_total_freemap_leaf src);
     ds_count := ds_count dst + ds_count src |}.

(** A [long] that overflows is undefined. *)
Definition accumulate_delta_stats (dst src : delta_stats_t) : H delta_stats_t :=
  if bool_decide (in_s 64 (ds_count dst + ds_count src)) then mret (add_delta dst src) else stop_with Undef.

Definition load_delta_stats (bstats : blockref_stats_t) (d : delta_stats_t) : H blockref_stats_t :=
  if bool_decide (bs_type bstats = HAMMER2_BREF_TYPE_VOLUME) then
    mret (add_bstats (ds_total_blockref d) (ds_total_empty d) (ds_total_bytes d)
            [ds_total_inode d; ds_total_indirect d; ds_total_data d; ds_total_dirent d] bstats)
  else if bool_decide (bs_type bstats = HAMMER2_BREF_TYPE_FREEMAP) then
    mret (add_bstats (ds_total_blockref d) (ds_total_empty d) (ds_total_bytes d)
            [ds_total_freemap_node d; ds_total_freemap_leaf d; 0; 0] bstats)
  else stop_with AssertFail.

(** What [verify_blockref] updates: [*bstats], [*droot] and [*dstats]. *)
Record scan := {
  sc_bstats : blockref_stats_t;
  sc_droot : blockref_tree delta_stats_t;
  sc_dstats : delta_stats_t;
}.
Definition set_dstats (d : delta_stats_t) (sc : scan) : scan :=
  {| sc_bstats := sc_bstats sc; sc_droot := sc_droot sc; sc_dstats := d |}.
Definition add_msg (bref : hammer2_blockref) (msg : fsck_msg) (sc : scan) : scan :=
  {| sc_bstats := add_bs_msg bref msg (sc_bstats sc); sc_droot := sc_droot sc; sc_dstats := sc_dstats sc |}.

(** A delta with some counters, in the order of the fields. *)
Definition delta (blockref empty bytes inode indirect data dirent node leaf : Z) : delta_stats_t :=
  {| ds_total_blockref := blockref; ds_total_empty := empty; ds_total_bytes := bytes; ds_total_inode := inode;
     ds_total_indirect := indirect; ds_total_data := data; ds_total_dirent := dirent;
     ds_total_freemap_node := node; ds_total_freemap_leaf := leaf; ds_count := 0 |}.
(** The same update of [*bstats] and [*dstats]. *)
Definition bump (u : list Z) (d : delta_stats_t) (sc : scan) : scan :=
  {| sc_bstats := add_bstats (ds_total_blockref d) (ds_total_empty d) (ds_total_bytes d) u (sc_bstats sc);
     sc_droot := sc_droot sc; sc_dstats := add_delta (sc_dstats sc) d |}.

(** ** Reading blocks *)

(** [while (io_bytes + boff < bytes) io_bytes <<= 1;] *)
Fixpoint io_loop (fuel : nat) (io_bytes boff bytes : Z) : H Z :=
  if bool_decide (u64 (io_bytes + boff) < bytes) then
    match fuel with
    | O => stop_with OutOfFuel
    | S fuel => io_loop fuel (u64 (io_bytes .<< 1)) boff bytes
    end
  else mret io_bytes.

(** The value of [read_media], and what it stores. *)
Inductive media_result :=
  | Media (size : Z) (media : bytes)
  | Media_bad_size      (** -1 *)
  | Media_read_error.   (** -2 *)

(** [media] is the part of the buffer that was read; moving more than that is [Undef]. *)
Definition read_media (bref : hammer2_blockref) : H media_result :=
  let radix := bref_data_off bref .& HAMMER2_OFF_MASK_RADIX in
  let bytes := if bool_decide (radix = 0) then 0 else u64 (1 .<< radix) in
  if bool_decide (bytes = 0) then mret (Media 0 [])
  else
    let io_off := bref_data_off bref .& bnot 64 HAMMER2_OFF_MASK_RADIX in
    let io_base := io_off .& bnot 64 (HAMMER2_LBUFSIZE - 1) in
    let boff := u64 (io_off - io_base) in
    io_bytes ← io_loop 64 HAMMER2_LBUFSIZE boff bytes;
    if bool_decide (MEDIA_BYTES < io_bytes) then mret Media_bad_size
    else
      fd ← hammer2_get_volume_fd io_off;
      off ← hammer2_get_volume_offset io_base;
      data ← sys_pread fd io_bytes (s64 (u64 (io_base - off)));
      match data with
      | None => mret Media_read_error
      | Some data =>
          if bool_decide (Z.of_nat (length data) ≠ io_bytes) then mret Media_read_error
          else if bool_decide (boff = 0) then mret (Media bytes data)
          else if bool_decide (boff + bytes <= io_bytes) then
            mret (Media bytes (splice data 0 (take (Z.to_nat bytes) (drop (Z.to_nat boff) data))))
          else stop_with Undef
      end.

Section fsck.
Context (addr : Z).  (** the address of [media] *)

(** ** Check codes *)

(** The members of the union [check]. *)
Definition iscsi32_value (b : hammer2_blockref) : Z := of_le (take 4 (bref_check b)).
Definition freemap_icrc32 (b : hammer2_blockref) : Z := of_le (take 4 (bref_check b)).

(** [Some algo]: the check code is bad. *)
Definition verify_check (bref : hammer2_blockref) (media : bytes) (bytes : Z) : H (option Z) :=
  let algo := HAMMER2_DEC_CHECK (bref_methods bref) in
  if bool_decide (algo = HAMMER2_CHECK_ISCSI32) then
    cv ← deref (hammer2_icrc32 addr media bytes);
    mret (if bool_decide (iscsi32_value bref ≠ cv) then Some algo else None)
  else if bool_decide (algo = HAMMER2_CHECK_XXHASH64) then
    let cv64 := h2_XXH64 (take (Z.to_nat bytes) media) XXH_HAMMER2_SEED in
    mret (if bool_decide (xxhash64_value bref ≠ cv64) then Some algo else None)
  else if bool_decide (algo = HAMMER2_CHECK_SHA192) then mret None
  else if bool_decide (algo = HAMMER2_CHECK_FREEMAP) then
    cv ← deref (hammer2_icrc32 addr media bytes);
    mret (if bool_decide (freemap_icrc32 bref ≠ cv) then Some algo else None)
  else mret None.

(** The block references in a block: [bscan] and [bcount]. *)
Definition inode_blockset (media : bytes) : list hammer2_blockref :=
  dec_array (Z.to_nat HAMMER2_SET_COUNT) (id_u (read_at hammer2_inode_data media 0)).
Definition npdata (media : bytes) (bytes : Z) : list hammer2_blockref :=
  dec_array (Z.to_nat (bytes / HAMMER2_BLOCKREF_BYTES)) media.
Definition children (type : Z) (media : bytes) (bytes : Z) : list hammer2_blockref :=
  if bool_decide (type = HAMMER2_BREF_TYPE_INODE) then
    if bool_decide (im_op_flags (id_meta (read_at hammer2_inode_data media 0)) .& HAMMER2_OPFLAG_DIRECTDATA = 0)
    then inode_blockset media else []
  else if bool_decide (type = HAMMER2_BREF_TYPE_INDIRECT) then npdata media bytes
  else if bool_decide (type = HAMMER2_BREF_TYPE_FREEMAP_NODE) then npdata media bytes
  else if bool_decide (type = HAMMER2_BREF_TYPE_VOLUME) then vd_sroot_blockset (decode media)
  else if bool_decide (type = HAMMER2_BREF_TYPE_FREEMAP) then vd_freemap_blockset (decode media)
  else [].

(** ** Verifying a tree *)

Section verify.
Context (opts : fsck_options).

(** The cached delta of a block reference: the first message that is equal. *)
Definition cached (droot : blockref_tree delta_stats_t) (bref : hammer2_blockref) : option delta_stats_t :=
  (λ x, x.2.2) <$> list_find (λ m, m.1 = bref) (default [] (droot !! bref_data_off bref)).

(** The first switch: count the block reference; [false] for an invalid type. *)
Definition count_blockref (bref : hammer2_blockref) (sc : scan) : scan * bool :=
  let t := bref_type bref in
  let sc := bump [0; 0; 0; 0] (delta 1 0 0 0 0 0 0 0 0) sc in
  if bool_decide (t = HAMMER2_BREF_TYPE_EMPTY) then
    (if CountEmpty opts then bump [0; 0; 0; 0] (delta 0 1 0 0 0 0 0 0 0) sc
     else bump [0; 0; 0; 0] (delta (-1) 0 0 0 0 0 0 0 0) sc, true)
  else if bool_decide (t = HAMMER2_BREF_TYPE_INODE) then (bump [1; 0; 0; 0] (delta 0 0 0 1 0 0 0 0 0) sc, true)
  else if bool_decide (t = HAMMER2_BREF_TYPE_INDIRECT) then (bump [0; 1; 0; 0] (delta 0 0 0 0 1 0 0 0 0) sc, true)
  else if bool_decide (t = HAMMER2_BREF_TYPE_DATA) then (bump [0; 0; 1; 0] (delta 0 0 0 0 0 1 0 0 0) sc, true)
  else if bool_decide (t = HAMMER2_BREF_TYPE_DIRENT) then (bump [0; 0; 0; 1] (delta 0 0 0 0 0 0 1 0 0) sc, true)
  else if bool_decide (t = HAMMER2_BREF_TYPE_FREEMAP_NODE) then (bump [1; 0; 0; 0] (delta 0 0 0 0 0 0 0 1 0) sc, true)
  else if bool_decide (t = HAMMER2_BREF_TYPE_FREEMAP_LEAF) then (bump [0; 1; 0; 0] (delta 0 0 0 0 0 0 0 0 1) sc, true)
  else if bool_decide (t = HAMMER2_BREF_TYPE_VOLUME) || bool_decide (t = HAMMER2_BREF_TYPE_FREEMAP) then
    (bump [0; 0; 0; 0] (delta (-1) 0 0 0 0 0 0 0 0) sc, true)
  else (add_msg bref (Invalid_blockref_type t) sc, false).

(** [total_bytes], and the assertion on empty block references. *)
Definition count_bytes (bref : hammer2_blockref) (bytes : Z) (sc : scan) : H scan :=
  let t := bref_type bref in
  let sc := if bool_decide (t ≠ HAMMER2_BREF_TYPE_VOLUME) && bool_decide (t ≠ HAMMER2_BREF_TYPE_FREEMAP)
            then bump [0; 0; 0; 0] (delta 0 0 bytes 0 0 0 0 0 0) sc else sc in
  if negb (CountEmpty opts) && bool_decide (t = HAMMER2_BREF_TYPE_EMPTY) then
    assertp (bool_decide (bytes = 0));;
    mret (bump [0; 0; 0; 0] (delta 0 0 (- bytes) 0 0 0 0 0 0) sc)
  else mret sc.

(** The loop over the children; [None]: a child returned -1. *)
Fixpoint verify_children (verify : hammer2_blockref -> bool -> scan -> H (bool * scan)) (failed : bool)
    (bscan : list hammer2_blockref) (sc : scan) : H (bool * scan) :=
  match bscan with
  | [] => mret (true, sc)
  | b :: bscan =>
      '(ok, sc') ← verify b failed (set_dstats zero_delta sc);
      if (ok : bool) then
        d ← (if failed then mret (sc_dstats sc) else accumulate_delta_stats (sc_dstats sc) (sc_dstats sc'));
        verify_children verify failed bscan (set_dstats d sc')
      else mret (false, set_dstats (sc_dstats sc) sc')
  end.

(** [dstats->count++] *)
Definition tick : delta_stats_t :=
  {| ds_total_blockref := 0; ds_total_empty := 0; ds_total_bytes := 0; ds_total_inode := 0;
     ds_total_indirect := 0; ds_total_data := 0; ds_total_dirent := 0; ds_total_freemap_node := 0;
     ds_total_freemap_leaf := 0; ds_count := 1 |}.

(** [end:] of [verify_blockref]. *)
Definition verify_end (bref : hammer2_blockref) (bytes : Z) (failed : bool) (sc : scan) : H (bool * scan) :=
  if failed then mret (false, sc)
  else
    d ← accumulate_delta_stats (sc_dstats sc) tick;
    if bool_decide (bref_data_off bref ≠ 0) && bool_decide (0 < BlockrefCacheCount opts) &&
       bool_decide (BlockrefCacheCount opts <= ds_count d) then
      assertp (bool_decide (bytes ≠ 0));;
      mret (true, {| sc_bstats := sc_bstats sc; sc_droot := add_blockref_entry (sc_droot sc) bref d; sc_dstats := d |})
    else mret (true, set_dstats d sc).

(** [true] is 0, [false] is -1. *)
Fixpoint verify_blockref (fuel : nat) (bref : hammer2_blockref) (norecurse : bool) (sc : scan) : H (bool * scan) :=
  match fuel with
  | O => stop_with OutOfFuel
  | S fuel =>
      match (if bool_decide (bref_data_off bref ≠ 0) then cached (sc_droot sc) bref else None) with
      | Some ds =>
          d ← accumulate_delta_stats (sc_dstats sc) ds;
          b ← load_delta_stats (sc_bstats sc) ds;
          mret (true, {| sc_bstats := b; sc_droot := sc_droot sc; sc_dstats := d |})
      | None =>
          let '(sc, ok) := count_blockref bref sc in
          r ← read_media bref;
          match r with
          | Media_bad_size => mret (false, add_msg bref Bad_IO_bytes sc)
          | Media_read_error => mret (false, add_msg bref Failed_to_read_media sc)
          | Media bytes media =>
              sc ← count_bytes bref bytes sc;
              if bool_decide (bytes = 0) then verify_end bref bytes (negb ok) sc
              else
                bad ← verify_check bref media bytes;
                let sc := match bad with Some algo => add_msg bref (Bad_check algo) sc | None => sc end in
                let failed := negb ok || bool_decide (is_Some bad) in
                let norecurse := negb (fk_ForceOpt opts) && norecurse in
                let bscan := if norecurse then [] else children (bref_type bref) media bytes in
                '(all_ok, sc) ← verify_children (verify_blockref fuel) failed bscan sc;
                if (all_ok : bool) then verify_end bref bytes failed sc else mret (false, sc)
          end
      end
  end.

(** ** The zones *)

(** The block reference of a copy of the header of the root volume, and the position
    [lseek] sets.  (The root volume starts at offset 0, so [lseek] does not fail.) *)
Definition root_blockref (i type : Z) : hammer2_blockref :=
  {| bref_type := type; bref_methods := 0; bref_copyid := 0; bref_keybits := 0; bref_vradix := 0; bref_flags := 0;
     bref_leaf_count := 0; bref_key := 0; bref_mirror_tid := 0; bref_modify_tid := 0;
     bref_data_off := i * HAMMER2_ZONE_BYTES64 .| HAMMER2_PBUFRADIX; bref_update_tid := 0;
     bref_embed := replicate 16 0; bref_check := replicate 64 0 |}.
Definition init_root_blockref (i type : Z) : H (hammer2_blockref * Z) :=
  assertp (bool_decide (type = HAMMER2_BREF_TYPE_EMPTY) || bool_decide (type = HAMMER2_BREF_TYPE_VOLUME) ||
           bool_decide (type = HAMMER2_BREF_TYPE_FREEMAP));;
  let bref := root_blockref i type in
  fd ← hammer2_get_root_volume_fd;
  offset ← hammer2_get_root_volume_offset;
  mret (bref, s64 (u64 ((bref_data_off bref .& bnot 64 HAMMER2_OFF_MASK_RADIX) - offset))).

(** The header copy of zone [i]; [None] if it was not read in full. *)
Definition read_zone (i type : Z) : H (hammer2_blockref * option bytes) :=
  '(bref, pos) ← init_root_blockref i type;
  fd ← hammer2_get_root_volume_fd;
  ret ← sys_pread fd HAMMER2_PBUFSIZE pos;
  mret (bref, p ← ret; if bool_decide (Z.of_nat (length p) = HAMMER2_PBUFSIZE) then Some p else None).

(** [best] is [best_i] with [best.mirror_tid]; [None] at the end is -1. *)
Fixpoint find_best_loop (n : nat) (i : Z) (best : option (Z * Z)) : H (option Z) :=
  match n with
  | O => mret (fst <$> best)
  | S n =>
      size ← hammer2_get_root_volume_size;
      if bool_decide (size <= i * HAMMER2_ZONE_BYTES64) then mret (fst <$> best)
      else
        '(_, ret) ← read_zone i HAMMER2_BREF_TYPE_EMPTY;
        match ret with
        | None => mret None
        | Some p =>
            let voldata := decode (A := hammer2_volume_data) p in
            let magic_ok := bool_decide (vd_magic voldata = HAMMER2_VOLUME_ID_HBO) ||
                            bool_decide (vd_magic voldata = HAMMER2_VOLUME_ID_ABO) in
            let better := match best with None => true | Some (_, tid) => bool_decide (tid < vd_mirror_tid voldata) end in
            find_best_loop n (i + 1) (if magic_ok && better then Some (i, vd_mirror_tid voldata) else best)
        end
  end.
Definition find_best_zone : H (option Z) := find_best_loop (Z.to_nat HAMMER2_NUM_VOLHDRS) 0 None.

(** The loop over the zones of the three tests: [body] for the zones that are scanned;
    [false]: a header was not read. *)
Fixpoint scan_zones {A} (best_zone : option Z) (type : Z) (body : hammer2_blockref -> bytes -> A -> H A)
    (n : nat) (i : Z) (acc : A) : H (bool * A) :=
  match n with
  | O => mret (true, acc)
  | S n =>
      if ScanBest opts && bool_decide (best_zone ≠ Some i) then scan_zones best_zone type body n (i + 1) acc
      else
        size ← hammer2_get_root_volume_size;
        if bool_decide (size <= i * HAMMER2_ZONE_BYTES64) then mret (true, acc)
        else
          '(broot, ret) ← read_zone i type;
          match ret with
          | None => mret (false, acc)
          | Some p => acc ← body broot p acc; scan_zones best_zone type body n (i + 1) acc
          end
  end.
Definition all_zones {A} (best_zone : option Z) (type : Z) (body : hammer2_blockref -> bytes -> A -> H A) (acc : A)
    : H (bool * A) := scan_zones best_zone type body (Z.to_nat HAMMER2_NUM_VOLHDRS) 0 acc.

(** *** Volume headers *)

(** Like the tests of [hammer2_read_volume_header], but a header of the other byte order
    is only reported. *)
Definition header_crcs (vd : hammer2_volume_data) (p : bytes) : H bool :=
  crc0 ← deref (vd_icrc_sects vd !! HAMMER2_VOL_ICRC_SECT0);
  crc1 ← icrc32_at addr p HAMMER2_VOLUME_ICRC0_OFF HAMMER2_VOLUME_ICRC0_SIZE;
  if bool_decide (crc0 ≠ crc1) then mret false
  else
    crc0 ← deref (vd_icrc_sects vd !! HAMMER2_VOL_ICRC_SECT1);
    crc1 ← icrc32_at addr p HAMMER2_VOLUME_ICRC1_OFF HAMMER2_VOLUME_ICRC1_SIZE;
    if bool_decide (crc0 ≠ crc1) then mret false
    else
      crc1 ← icrc32_at addr p HAMMER2_VOLUME_ICRCVH_OFF HAMMER2_VOLUME_ICRCVH_SIZE;
      mret (bool_decide (vd_icrc_volheader vd = crc1)).
Definition verify_header (vd : hammer2_volume_data) (p : bytes) : H bool :=
  if bool_decide (vd_magic vd ≠ HAMMER2_VOLUME_ID_HBO) && bool_decide (vd_magic vd ≠ HAMMER2_VOLUME_ID_ABO)
  then mret false else header_crcs vd p.
Definition verify_volume_header (p : bytes) : H bool := verify_header (decode p) p.

Definition test_volume_header (best_zone : option Z) : H bool :=
  '(ret, ok) ← all_zones best_zone HAMMER2_BREF_TYPE_EMPTY
                 (λ _ p ok, good ← verify_volume_header p; mret (ok && good)) true;
  mret (ret && ok).

(** *** Trees *)

(** [droot], the verdict so far and the statistics printed. *)
Record test_state := {
  ts_droot : blockref_tree delta_stats_t;
  ts_ok : bool;
  ts_printed : list blockref_stats_t;
}.
Definition init_test : test_state := {| ts_droot := ∅; ts_ok := true; ts_printed := [] |}.
Definition set_ts_failed (ts : test_state) : test_state :=
  {| ts_droot := ts_droot ts; ts_ok := false; ts_printed := ts_printed ts |}.

(** One tree, with fresh statistics. *)
Definition test_tree (fuel : nat) (type : Z) (bref : hammer2_blockref) (ts : test_state) : H test_state :=
  '(ok, sc) ← verify_blockref fuel bref false
                {| sc_bstats := init_blockref_stats type; sc_droot := ts_droot ts; sc_dstats := zero_delta |};
  mret {| ts_droot := sc_droot sc; ts_ok := ts_ok ts && ok; ts_printed := ts_printed ts ++ [sc_bstats sc] |}.

Definition test_blockref (fuel : nat) (best_zone : option Z) (type : Z) : H (bool * list blockref_stats_t) :=
  '(ret, ts) ← all_zones best_zone type (λ broot _ ts, test_tree fuel type broot ts) init_test;
  mret (ret && ts_ok ts, ts_printed ts).

(** *** PFS roots *)

(** A C string: the bytes before the first 0. *)
Fixpoint c_string (bs : bytes) : bytes :=
  match bs with
  | [] => []
  | c :: bs => if bool_decide (c = 0) then [] else c :: c_string bs
  end.
Definition get_inode_filename (ipdata : hammer2_inode_data) : bytes := c_string (id_filename ipdata).

(** [strcmp(a, b) <= 0] *)
Fixpoint strcmp_le (a b : bytes) : bool :=
  match a, b with
  | [], _ => true
  | _ :: _, [] => false
  | x :: a, y :: b => if bool_decide (x = y) then strcmp_le a b else bool_decide (x < y)
  end.

Fixpoint __add_pfs_blockref (bref : hammer2_blockref) (ipdata : hammer2_inode_data)
    (blist : blockref_list hammer2_inode_data) : blockref_list hammer2_inode_data :=
  match blist with
  | [] => [(bref, ipdata)]
  | p :: blist =>
      if strcmp_le (get_inode_filename ipdata) (get_inode_filename p.2) then (bref, ipdata) :: p :: blist
      else p :: __add_pfs_blockref bref ipdata blist
  end.

(** [for (i = 0; i < bcount; ++i) if (init(...) == -1) return -1;] *)
Fixpoint pfs_children (init : hammer2_blockref -> blockref_list hammer2_inode_data -> H (bool * blockref_list hammer2_inode_data))
    (bscan : list hammer2_blockref) (blist : blockref_list hammer2_inode_data)
    : H (bool * blockref_list hammer2_inode_data) :=
  match bscan with
  | [] => mret (true, blist)
  | b :: bscan =>
      '(ok, blist) ← init b blist;
      if (ok : bool) then pfs_children init bscan blist else mret (false, blist)
  end.

Fixpoint init_pfs_blockref (fuel : nat) (bref : hammer2_blockref) (blist : blockref_list hammer2_inode_data)
    : H (bool * blockref_list hammer2_inode_data) :=
  match fuel with
  | O => stop_with OutOfFuel
  | S fuel =>
      r ← read_media bref;
      match r with
      | Media_bad_size | Media_read_error => mret (false, blist)
      | Media bytes media =>
          if bool_decide (bytes = 0) then mret (true, blist)
          else if bool_decide (bref_type bref = HAMMER2_BREF_TYPE_INODE) then
            let ipdata := read_at hammer2_inode_data media 0 in
            if bool_decide (im_pfs_type (id_meta ipdata) = HAMMER2_PFSTYPE_SUPROOT) then
              pfs_children (init_pfs_blockref fuel) (inode_blockset media) blist
            else
              assertp (bool_decide (im_op_flags (id_meta ipdata) .& HAMMER2_OPFLAG_PFSROOT ≠ 0));;
              mret (true, __add_pfs_blockref bref ipdata blist)
          else if bool_decide (bref_type bref = HAMMER2_BREF_TYPE_INDIRECT) then
            pfs_children (init_pfs_blockref fuel) (npdata media bytes) blist
          else if bool_decide (bref_type bref = HAMMER2_BREF_TYPE_VOLUME) then
            pfs_children (init_pfs_blockref fuel) (vd_sroot_blockset (decode media)) blist
          else mret (true, blist)
      end
  end.

(** The loop over the PFS roots found; [count] of them were selected. *)
Fixpoint test_pfs_list (fuel : nat) (blist : blockref_list hammer2_inode_data) (count : nat) (ts : test_state)
    : H (nat * test_state) :=
  match blist with
  | [] => mret (count, ts)
  | (bref, ipdata) :: blist =>
      found ← (if bool_decide (PFSNames opts = []) then mret true
               else names ← deref (mapM id (PFSNames opts)); mret (bool_decide (get_inode_filename ipdata ∈ names)));
      if (found : bool) then
        ts ← (if PrintPFS opts then mret ts else test_tree fuel HAMMER2_BREF_TYPE_VOLUME bref ts);
        test_pfs_list fuel blist (S count) ts
      else test_pfs_list fuel blist count ts
  end.
Definition test_pfs_zone (fuel : nat) (broot : hammer2_blockref) (_ : bytes) (ts : test_state) : H test_state :=
  '(ok, blist) ← init_pfs_blockref fuel broot [];
  if negb ok || bool_decide (blist = []) then mret (set_ts_failed ts)
  else
    '(count, ts) ← test_pfs_list fuel blist 0 ts;
    mret (if bool_decide (PFSNames opts ≠ []) && bool_decide (count = 0%nat) then set_ts_failed ts else ts).
Definition test_pfs_blockref (fuel : nat) (best_zone : option Z) : H (bool * list blockref_stats_t) :=
  '(ret, ts) ← all_zones best_zone HAMMER2_BREF_TYPE_VOLUME (test_pfs_zone fuel) init_test;
  mret (ret && ts_ok ts, ts_printed ts).

(** ** The whole test *)

Context (uuid_compare : bytes -> bytes -> Z).

(** [test] unless [ok] is false and [-f] was not given. *)
Definition unless_failed (ok : bool) (test : H (bool * list blockref_stats_t)) : H (bool * list blockref_stats_t) :=
  if ok || fk_ForceOpt opts then '(ok', printed) ← test; mret (ok && ok', printed) else mret (false, []).

(** The verdict and the statistics printed: of the freemap and of the volume. *)
Definition test_hammer2 (fuel : nat) (devpath : bytes)
    : H (bool * list blockref_stats_t * list blockref_stats_t) :=
  hammer2_init_volumes uuid_compare addr fuel (Some devpath) true;;
  best_zone ← find_best_zone;
  '(ok, fm, vol) ←
    (if PrintPFS opts then '(ok, printed) ← test_pfs_blockref fuel best_zone; mret (ok, [], printed)
     else
       ok ← test_volume_header best_zone;
       '(ok, fm) ← unless_failed ok (test_blockref fuel best_zone HAMMER2_BREF_TYPE_FREEMAP);
       '(ok, vol) ← unless_failed ok (if ScanPFS opts then test_pfs_blockref fuel best_zone
                                      else test_blockref fuel best_zone HAMMER2_BREF_TYPE_VOLUME);
       mret (ok, fm, vol));
  hammer2_cleanup_volumes;;
  mret (ok, fm, vol).
End verify.
End fsck.

(** ** Options ([main] of fsck_hammer2.c) *)

(** [strtol(s, NULL, 10)]; [None] is ERANGE. *)
Definition strtol_10 (s : bytes) : option Z :=
  let '(neg, body) := sign_of (skip_spaces s) in
  let '(v, _) := digits 10 0 body in
  let v := if neg then - v else v in
  if bool_decide (in_s 64 v) then Some v else None.

(** The names of [-l], at ','. *)
Definition comma : Z := 44.
Fixpoint split_comma (cur s : bytes) : list bytes :=
  match s with
  | [] => [cur]
  | c :: s => if bool_decide (c = comma) then cur :: split_comma [] s else split_comma (cur ++ [c]) s
  end.
(** The loop; [siz] is the size of the array. *)
Fixpoint push_names (siz : Z) (names : list bytes) (pfsnames : list (option bytes)) : H (list (option bytes)) :=
  match names with
  | [] => mret pfsnames
  | name :: names =>
      if bool_decide (name = []) then push_names siz names pfsnames
      else
        let n := Z.of_nat (length pfsnames) in
        let siz := if bool_decide (siz - 1 < n) then siz * 2 else siz in
        if bool_decide (n < siz) then push_names siz names (pfsnames ++ [Some name]) else stop_with Undef
  end.
(** [calloc] makes a new array, but [NumPFSNames] is kept. *)
Definition init_pfs_names (names : bytes) (pfsnames : list (option bytes)) : H (list (option bytes)) :=
  push_names 32 (split_comma [] names) (replicate (length pfsnames) None).

Inductive fsck_opt := FK_f | FK_e | FK_b | FK_p | FK_P | FK_l (arg : bytes) | FK_c (arg : bytes) | FK_dvq | FK_other.

Definition fsck_init : fsck_options :=
  {| fk_ForceOpt := false; CountEmpty := false; ScanBest := false; ScanPFS := false; PrintPFS := false;
     PFSNames := []; BlockrefCacheCount := -1 |}.

Definition fsck_parse_option (o : fsck_opt) (f : fsck_options) : H fsck_options :=
  let mk force empty best pfs print names cache :=
    {| fk_ForceOpt := force; CountEmpty := empty; ScanBest := best; ScanPFS := pfs; PrintPFS := print;
       PFSNames := names; BlockrefCacheCount := cache |} in
  let force := fk_ForceOpt f in let empty := CountEmpty f in let best := ScanBest f in
  let pfs := ScanPFS f in let print := PrintPFS f in let names := PFSNames f in
  let cache := BlockrefCacheCount f in
  match o with
  | FK_f => mret (mk true empty best pfs print names cache)
  | FK_e => mret (mk force true best pfs print names cache)
  | FK_b => mret (mk force empty true pfs print names cache)
  | FK_p => mret (mk force empty best true print names cache)
  | FK_P => mret (mk force empty best pfs true names cache)
  | FK_l arg => names ← init_pfs_names arg names; mret (mk force empty best pfs print names cache)
  | FK_c arg =>
      match strtol_10 arg with
      | Some v => mret (mk force empty best pfs print names v)
      | None => errx
      end
  | FK_dvq => mret f
  | FK_other => errx
  end.
Fixpoint fsck_parse_options (os : list fsck_opt) (f : fsck_options) : H fsck_options :=
  match os with
  | [] => mret f
  | o :: os => f ← fsck_parse_option o f; fsck_parse_options os f
  end.

(** The loop over the devices. *)
Fixpoint fsck_devices (addr : Z) (uuid_compare : bytes -> bytes -> Z) (fuel : nat) (opts : fsck_options)
    (av : list bytes) : H () :=
  match av with
  | [] => mret ()
  | devpath :: av =>
      '(ok, _, _) ← test_hammer2 addr opts uuid_compare fuel devpath;
      errx_if (negb ok);;
      fsck_devices addr uuid_compare fuel opts av
  end.
Definition fsck_hammer2 (addr : Z) (uuid_compare : bytes -> bytes -> Z) (fuel : nat) (os : list fsck_opt)
    (av : list bytes) : H () :=
  opts ← fsck_parse_options os fsck_init;
  errx_if (bool_decide (av = []));;
  fsck_devices addr uuid_compare fuel opts av.
