(* ===== verification/H2FsckRead.v ===== *)
(** * H2FsckRead: how fsck_hammer2 reads a block

    [read_media] on open volumes: the bytes of the address space that a block reference
    names. *)

From S2P Require Import Prelude HammerDisk Layout Crc32 CMonad Ondisk CacheInv H2Disk H2Volumes H2Header H2Verify H2Fsck.

#[local] Opaque Z.to_nat.

(** ** The size of the read *)

Lemma io_loop_spec fuel boff radix (s : h2state) : forall k,
  14 <= k <= 63 -> 0 <= radix <= 63 -> 0 <= boff < 2 ^ 14 -> (k = 14 \/ k <= radix) -> radix - k <= Z.of_nat fuel ->
  io_loop fuel (2 ^ k) boff (2 ^ radix) s = Ok (2 ^ Z.max k radix) s.
Proof.
  induction fuel as [|fuel IH]; intros k Hk Hr Hb Hkr Hf.
  - cbn [io_loop]. pose proof (Z.pow_le_mono_r 2 k 63 ltac:(lia) ltac:(lia)).
    pose proof (Z.pow_le_mono_r 2 radix k ltac:(lia) ltac:(lia)).
    rewrite uwrap_small by (unfold in_u; lia). rewrite bool_decide_eq_false_2 by lia.
    by replace (Z.max k radix) with k by lia.
  - cbn [io_loop]. pose proof (Z.pow_le_mono_r 2 k 63 ltac:(lia) ltac:(lia)) as Hk63.
    rewrite uwrap_small by (unfold in_u; lia). destruct (decide (k < radix)) as [Hlt|Hge].
    + pose proof (Z.pow_le_mono_r 2 14 k ltac:(lia) ltac:(lia)) as H14.
      pose proof (Z.pow_le_mono_r 2 (k + 1) radix ltac:(lia) ltac:(lia)) as Hk1. rewrite Z.pow_add_r in Hk1 by lia.
      rewrite bool_decide_eq_true_2 by lia. rewrite Z.shiftl_mul_pow2 by done.
      replace (2 ^ k * 2 ^ 1) with (2 ^ (k + 1)) by (rewrite Z.pow_add_r; lia).
      rewrite uwrap_small.
      2:{ split; [lia|]. apply Z.pow_lt_mono_r; lia. }
      rewrite IH by lia. by replace (Z.max (k + 1) radix) with (Z.max k radix) by lia.
    + pose proof (Z.pow_le_mono_r 2 radix k ltac:(lia) ltac:(lia)). rewrite bool_decide_eq_false_2 by lia.
      by replace (Z.max k radix) with k by lia.
Qed.

(** ** Places in the address space *)

Lemma volume_of_aligned m sizes off k r :
  0 < m -> Forall (λ z, 0 <= z /\ z mod m = 0) sizes -> 0 <= off ->
  volume_of sizes off = Some (k, r) -> r mod m = off mod m /\ volume_of sizes (off - off mod m) = Some (k, r - off mod m).
Proof.
  intros Hm Hs. revert off k r. induction Hs as [|z sizes [Hz Hzm] _ IH]; intros off k r Ho Hv; [done|]. cbn [volume_of] in *.
  pose proof (Z.mod_pos_bound off m Hm) as Hb. pose proof (Z.mod_le off m Ho Hm).
  case_bool_decide as Hlt.
  - injection Hv as <- <-. split; [done|]. by rewrite bool_decide_eq_true_2 by lia.
  - destruct (volume_of sizes (off - z)) as [[k' r']|] eqn:E; [|done]. cbn in Hv. injection Hv as <- <-.
    assert ((off - z) mod m = off mod m) as Hmod by (rewrite Zminus_mod, Hzm, Z.sub_0_r, Zmod_mod; done).
    assert (z <= off - off mod m) as Hge.
    { apply Z.nlt_ge in Hlt. assert (z = z / m * m) as -> by (pose proof (Z.div_mod z m); lia).
      assert (off - off mod m = off / m * m) as -> by (pose proof (Z.div_mod off m); lia).
      apply Z.mul_le_mono_nonneg_r; [lia|]. by apply Z.div_le_mono. }
    destruct (IH (off - z) k' r' ltac:(lia) E) as [Hr Hv']. rewrite Hmod in *. split; [done|].
    rewrite bool_decide_eq_false_2 by lia. replace (off - off mod m - z) with (off - z - off mod m) by lia.
    by rewrite Hv'.
Qed.

(** An open file system: its volumes and their files. *)
Definition vol_file (s : h2state) (v : hammer2_volume) (f : file) : Prop :=
  exists ino nd, fd_node s (hv_fd v) = Some (ino, nd) /\ nd_file nd = f /\ hv_size v <= f_size f < 2 ^ 63 /\
    hv_size v mod HAMMER2_PBUFSIZE = 0.
Definition open_fs (s : h2state) (vols : list hammer2_volume) (files : list file) : Prop :=
  volumes_are s vols /\ sum_Z (hv_size <$> vols) < 2 ^ 63 /\ Forall2 (vol_file s) vols files.

(** The [n] bytes at [off] of the address space. *)
Definition fs_read (vols : list hammer2_volume) (files : list file) (off : Z) (n : nat) : option bytes :=
  '(k, r) ← volume_of (hv_size <$> vols) off; f ← files !! k; Some (file_read f r n).

Lemma open_fs_sizes s vols files : open_fs s vols files -> Forall (λ z, 0 <= z /\ z mod HAMMER2_PBUFSIZE = 0) (hv_size <$> vols).
Proof.
  intros ((_ & _ & _ & Ht & _) & _ & Hf). apply tiles_sizes in Ht. rewrite Forall_fmap in *. rewrite Forall_lookup in *.
  intros k v Hv. split; [by apply (Ht k)|]. destruct (Forall2_lookup_l _ _ _ _ _ Hf Hv) as (f & _ & (ino & nd & _ & _ & _ & Hm)). done.
Qed.

(** [hammer2_get_volume_fd] and [hammer2_get_volume_offset] of an offset. *)
Lemma get_fd_offset s vols files off k r v :
  open_fs s vols files -> in_u 64 off -> off mod 64 = 0 -> volume_of (hv_size <$> vols) off = Some (k, r) -> vols !! k = Some v ->
  hammer2_get_volume_fd off s = Ok (hv_fd v) s /\ hammer2_get_volume_offset off s = Ok (off - r) s.
Proof.
  intros (Hare & Hs & Hf) Ho Hm Hv Hk. pose proof Hare as (_ & _ & _ & Ht & _).
  assert (hammer2_get_volume_attr off s = Ok (Some v) s) as Hattr.
  { rewrite (get_volume_attr_tiles s vols off) by done. change HAMMER2_OFF_MASK_RADIX with (Z.ones 6).
    rewrite land_bnot_ones by (try done; lia). change (2 ^ 6) with 64. rewrite Hm, Z.sub_0_r, Hv, Hk. done. }
  unfold hammer2_get_volume_fd, hammer2_get_volume_offset, get_attr. rewrite !(bind_Ok _ _ _ _ _ Hattr). split; [done|].
  destruct (tiles_lookup _ _ _ _ _ Ht Hk) as [_ Hoff].
  destruct (volume_of_total (hv_size <$> vols) off (tiles_sizes _ _ _ Ht) ltac:(unfold in_u in Ho; lia)) as [_ Hfnd].
  destruct (Hfnd k r Hv) as (z & _ & _ & Heq). unfold mret, prog_ret. f_equal. lia.
Qed.

Lemma take_take_drop_splice (data : bytes) boff n :
  (boff + n <= length data)%nat -> take n (splice data 0 (take n (drop boff data))) = take n (drop boff data).
Proof.
  intros Hl. unfold splice. rewrite take_0, app_nil_l, take_app_le by (rewrite length_take, length_drop; lia). by rewrite take_idemp.
Qed.

Lemma file_read_take_drop f r a n m : (a + n <= m)%nat -> take n (drop a (file_read f r m)) = file_read f (r + Z.of_nat a) n.
Proof.
  intros Hl. apply list_eq_same_length with n.
  - by rewrite length_file_read.
  - rewrite length_take, length_drop, length_file_read. lia.
  - intros i x y Hi Hx Hy. rewrite lookup_take_lt in Hx by lia. rewrite lookup_drop in Hx.
    rewrite lookup_file_read in Hx by lia. rewrite lookup_file_read in Hy by lia. injection Hx as <-. injection Hy as <-. f_equal. lia.
Qed.

(** A block reference with an offset and a radix. *)
Definition bref_off (b : hammer2_blockref) : Z := bref_data_off b - bref_data_off b mod 64.
Definition bref_radix (b : hammer2_blockref) : Z := bref_data_off b mod 64.

(** An aligned block that starts below an aligned limit ends below it. *)
Lemma mod_fit x a l : 0 < a -> x mod a = 0 -> l mod a = 0 -> x < l -> x + a <= l.
Proof.
  intros Ha Hx Hl Hlt. apply Z.mod_divide in Hx as [p ->]; [|lia]. apply Z.mod_divide in Hl as [q ->]; [|lia].
  apply Z.mul_lt_mono_pos_r in Hlt; [|done]. nia.
Qed.

Lemma mod_pow_le x a b : 0 <= a <= b -> x mod 2 ^ b = 0 -> x mod 2 ^ a = 0.
Proof.
  intros Hab Hx. apply Z.mod_divide in Hx as [q ->]; [|lia]. apply Z.mod_divide; [lia|]. exists (q * 2 ^ (b - a)).
  rewrite <- Z.mul_assoc, <- Z.pow_add_r by lia. do 2 f_equal. lia.
Qed.

Lemma pow_mod a b : 0 <= a <= b -> 2 ^ b mod 2 ^ a = 0.
Proof. intros Hab. apply (mod_pow_le _ a b Hab). apply Z.mod_same. lia. Qed.

(** The read of an aligned block covers it. *)
Lemma block_fits off radix :
  off mod 2 ^ radix = 0 -> 1 <= radix <= 16 -> off mod 2 ^ 14 + 2 ^ radix <= 2 ^ Z.max 14 radix.
Proof.
  intros Hm Hr. destruct (decide (radix <= 14)) as [Hle|Hgt].
  - replace (Z.max 14 radix) with 14 by lia. apply mod_fit; [lia| |by apply pow_mod; lia|apply Z.mod_pos_bound; lia].
    rewrite Z.mod_mod_divide; [done|]. apply Z.mod_divide; [lia|]. apply pow_mod. lia.
  - rewrite (mod_pow_le off 14 radix) by (done || lia). by replace (Z.max 14 radix) with radix by lia.
Qed.

(** ... and stays inside a volume. *)
Lemma block_inside r size radix :
  r < size -> size mod HAMMER2_PBUFSIZE = 0 -> 1 <= radix <= 16 -> r mod 2 ^ radix = 0 ->
  r - r mod 2 ^ 14 + 2 ^ Z.max 14 radix <= size.
Proof.
  intros Hr Hs Hx Hm. pose proof (Z.mod_pos_bound r (2 ^ 14)). apply mod_fit; [lia| |by apply (mod_pow_le _ _ 16); [lia|]|lia].
  destruct (decide (radix <= 14)) as [Hle|Hgt].
  - replace (Z.max 14 radix) with 14 by lia. rewrite Zminus_mod, Zmod_mod, Z.sub_diag. apply Z.mod_0_l. lia.
  - replace (Z.max 14 radix) with radix by lia. rewrite (mod_pow_le r 14 radix) by (done || lia). by rewrite Z.sub_0_r.
Qed.

(** [read_media] of a block of a volume whose read window lies in the volume: the window is
    read, and the block is moved to its front if the window has it all. *)
Lemma read_media_run s vols files b k r v f :
  open_fs s vols files -> in_u 64 (bref_data_off b) -> 1 <= bref_radix b <= 16 ->
  volume_of (hv_size <$> vols) (bref_off b) = Some (k, r) -> vols !! k = Some v -> files !! k = Some f ->
  let boff := bref_off b mod 2 ^ 14 in
  let io := 2 ^ Z.max 14 (bref_radix b) in
  let data := file_read f (r - boff) (Z.to_nat io) in
  r - boff + io <= hv_size v ->
  0 <= r - boff /\
  read_media b s =
    if bool_decide (boff = 0) then Ok (Media (2 ^ bref_radix b) data) s
    else if bool_decide (boff + 2 ^ bref_radix b <= io) then
      Ok (Media (2 ^ bref_radix b) (splice data 0 (take (Z.to_nat (2 ^ bref_radix b)) (drop (Z.to_nat boff) data)))) s
    else Stop Undef.
Proof.
  intros Hfs Ho Hr Hv Hk Hf. pose proof (open_fs_sizes _ _ _ Hfs) as Hsz.
  unfold bref_off, bref_radix in *. set (off := bref_data_off b - bref_data_off b mod 64) in *.
  set (radix := bref_data_off b mod 64) in *. cbv zeta. set (boff := off mod 2 ^ 14) in *. intros Hin.
  pose proof Hfs as (_ & _ & Hall). destruct (Forall2_lookup_lr _ _ _ _ _ _ Hall Hk Hf) as (ino & nd & Hfd & <- & Hfsz & Hvm).
  assert (off mod 64 = 0) as Hoff64 by (unfold off, radix; clear; dlia).
  assert (in_u 64 off) as Hoffr by (unfold off, radix, in_u in *; clear -Ho; dlia).
  assert (bref_data_off b .& HAMMER2_OFF_MASK_RADIX = radix) as Hmask by (apply (land_ones_mod _ 6); done).
  assert (bref_data_off b .& bnot 64 HAMMER2_OFF_MASK_RADIX = off) as Hoffm.
  { change HAMMER2_OFF_MASK_RADIX with (Z.ones 6). rewrite land_bnot_ones by (try done; lia). done. }
  assert (off .& bnot 64 (HAMMER2_LBUFSIZE - 1) = off - boff) as Hbase.
  { change (HAMMER2_LBUFSIZE - 1) with (Z.ones 14). rewrite land_bnot_ones by (try done; lia). done. }
  pose proof (Z.pow_le_mono_r 2 1 radix ltac:(lia) ltac:(lia)) as Hp1. change (2 ^ 1) with 2 in Hp1.
  pose proof (Z.pow_le_mono_r 2 radix 16 ltac:(lia) ltac:(lia)) as Hp16.
  assert (0 <= boff < 2 ^ 14) as Hboff by (unfold boff; apply Z.mod_pos_bound; lia).
  destruct (volume_of_aligned (2 ^ 14) (hv_size <$> vols) off k r) as [Hrm Hvb]; [done| |unfold in_u in Hoffr; lia|done|].
  { eapply Forall_impl; [exact Hsz|]. cbn. intros z [? Hz]. split; [done|]. clear -Hz. h2_unfold. dlia. }
  fold boff in Hrm, Hvb.
  destruct (get_fd_offset s vols files off k r v Hfs Hoffr Hoff64 Hv Hk) as [Hgfd _].
  assert (in_u 64 (off - boff) /\ (off - boff) mod 64 = 0) as [Hbr Hb64] by (unfold boff, in_u in *; clear -Hoffr Hoff64; dlia).
  destruct (get_fd_offset s vols files (off - boff) k (r - boff) v Hfs Hbr Hb64 Hvb Hk) as [_ Hgoff].
  destruct (volume_of_total (hv_size <$> vols) off) as [_ Hfnd];
    [eapply Forall_impl; [exact Hsz|]; by intros z [? _]|unfold in_u in Hoffr; lia|].
  destruct (Hfnd k r Hv) as (z & Hz & Hrz & _). rewrite list_lookup_fmap, Hk in Hz. injection Hz as <-.
  assert (0 <= r - boff) as Hrb by (rewrite <- Hrm; pose proof (Z.mod_le r (2 ^ 14)); lia).
  split; [done|]. unfold read_media. rewrite Hmask, Hoffm, Hbase. cbv zeta.
  rewrite (bool_decide_eq_false_2 (radix = 0)) by lia. rewrite Z.shiftl_1_l.
  rewrite (uwrap_small 64 (2 ^ radix)) by (unfold in_u; lia). rewrite (bool_decide_eq_false_2 (2 ^ radix = 0)) by lia.
  replace (off - (off - boff)) with boff by lia. rewrite (uwrap_small 64 boff) by (unfold in_u; lia).
  change HAMMER2_LBUFSIZE with (2 ^ 14).
  rewrite (bind_Ok _ _ _ _ _ (io_loop_spec 64 boff radix s 14 ltac:(lia) ltac:(lia) Hboff ltac:(lia) ltac:(lia))).
  pose proof (Z.pow_le_mono_r 2 (Z.max 14 radix) 16 ltac:(lia) ltac:(lia)) as Hmx.
  pose proof (Z.pow_le_mono_r 2 14 (Z.max 14 radix) ltac:(lia) ltac:(lia)) as Hmn.
  rewrite (bool_decide_eq_false_2 (MEDIA_BYTES < _)) by (unfold MEDIA_BYTES; lia).
  rewrite (bind_Ok _ _ _ _ _ Hgfd), (bind_Ok _ _ _ _ _ Hgoff).
  replace (off - boff - (off - boff - (r - boff))) with (r - boff) by lia.
  rewrite uwrap_small, swrap_small by (try done; unfold in_u, in_s; lia).
  rewrite (bind_Ok _ _ _ _ _ (sys_pread_spec _ _ _ _ _ _ Hfd)).
  unfold pread. rewrite bool_decide_eq_false_2 by lia.
  replace (Z.to_nat (Z.min (Z.of_nat (Z.to_nat (2 ^ Z.max 14 radix))) (f_size (nd_file nd) - (r - boff))))
    with (Z.to_nat (2 ^ Z.max 14 radix)) by lia.
  rewrite (bool_decide_eq_false_2 (Z.of_nat (length _) <> _)) by (rewrite length_file_read; lia).
  destruct (bool_decide (boff = 0)); [done|]. by destruct (bool_decide (boff + 2 ^ radix <= _)).
Qed.

Lemma read_media_spec s vols files b data :
  open_fs s vols files -> in_u 64 (bref_data_off b) -> 1 <= bref_radix b <= 16 -> bref_off b mod 2 ^ bref_radix b = 0 ->
  fs_read vols files (bref_off b) (Z.to_nat (2 ^ bref_radix b)) = Some data ->
  exists m, read_media b s = Ok (Media (2 ^ bref_radix b) m) s /\ take (Z.to_nat (2 ^ bref_radix b)) m = data /\
    HAMMER2_LBUFSIZE <= Z.of_nat (length m) /\ 2 ^ bref_radix b <= Z.of_nat (length m).
Proof.
  intros Hfs Ho Hr Hal Hrd. pose proof (open_fs_sizes _ _ _ Hfs) as Hsz.
  unfold fs_read in Hrd. destruct (volume_of (hv_size <$> vols) (bref_off b)) as [[k r]|] eqn:Hv; [|done]. cbn in Hrd.
  destruct (files !! k) as [f|] eqn:Hf; [|done]. cbn in Hrd. injection Hrd as <-.
  pose proof Hfs as (_ & _ & Hall). destruct (Forall2_lookup_r _ _ _ _ _ Hall Hf) as (v & Hk & _ & _ & _ & _ & _ & Hvm).
  set (off := bref_off b) in *. set (radix := bref_radix b) in *. set (boff := off mod 2 ^ 14).
  assert (0 <= off) as Hpos by (unfold off, bref_off, in_u in *; clear -Ho; dlia).
  assert (boff + 2 ^ radix <= 2 ^ Z.max 14 radix) as Hfit by (apply block_fits; [done|lia]).
  assert (0 <= boff) as Hboff by (unfold boff; apply Z.mod_pos_bound; lia).
  assert (forall e, 0 <= e <= 16 -> r mod 2 ^ e = off mod 2 ^ e) as Hmod.
  { intros e He. apply (volume_of_aligned (2 ^ e) (hv_size <$> vols) off k r); [lia| |done|done].
    eapply Forall_impl; [exact Hsz|]. cbn. intros w [? Hw]. split; [done|]. by apply (mod_pow_le _ _ 16); [lia|]. }
  destruct (volume_of_total (hv_size <$> vols) off) as [_ Hfnd]; [eapply Forall_impl; [exact Hsz|]; by intros z [? _]|done|].
  destruct (Hfnd k r Hv) as (z & Hz & Hrz & _). rewrite list_lookup_fmap, Hk in Hz. injection Hz as <-.
  destruct (read_media_run s vols files b k r v f Hfs Ho Hr Hv Hk Hf) as [Hrb Hrun].
  { fold off radix boff. unfold boff. rewrite <- (Hmod 14) by lia. apply block_inside; [lia|done|lia|by rewrite Hmod by lia]. }
  fold off radix boff in Hrb, Hrun. rewrite Hrun. clear Hrun.
  pose proof (Z.pow_le_mono_r 2 14 (Z.max 14 radix) ltac:(lia) ltac:(lia)) as Hmn. pose proof (Z.pow_nonneg 2 radix ltac:(lia)) as H2.
  set (data := file_read f (r - boff) (Z.to_nat (2 ^ Z.max 14 radix))).
  assert (length data = Z.to_nat (2 ^ Z.max 14 radix)) as Hlen by (unfold data; apply length_file_read).
  assert (take (Z.to_nat (2 ^ radix)) (drop (Z.to_nat boff) data) = file_read f r (Z.to_nat (2 ^ radix))) as Hd.
  { unfold data. rewrite file_read_take_drop by lia. f_equal. lia. }
  unfold HAMMER2_LBUFSIZE. change (2 ^ 14) with 16384 in Hmn. destruct (bool_decide (boff = 0)) eqn:Hb0.
  - apply bool_decide_eq_true in Hb0. exists data. rewrite <- Hd, Hb0. change (Z.to_nat 0) with O. rewrite drop_0. split_and!; [done|done|lia|lia].
  - rewrite bool_decide_eq_true_2 by lia. eexists. split; [reflexivity|]. rewrite take_take_drop_splice by lia.
    rewrite length_splice by (rewrite length_take, length_drop; lia). split_and!; [done|lia|lia].
Qed.
