(* ===== verification/H2FsckTree.v ===== *)
(** * H2FsckTree: the trees that fsck_hammer2 accepts

    A reference definition of the check, without cache, statistics in progress or fuel that
    matters: [tree_delta] gives the totals of a tree that is sound.  [verify_blockref]
    computes it: with any cache, it returns 0 exactly on the trees that have totals, and the
    totals it adds are those of the tree. *)

From S2P Require Import Prelude HammerDisk Layout Crc32 HammerCrc CMonad Ondisk CacheInv H2Disk H2Volumes H2Header H2Verify H2Fsck H2FsckRead.

#[local] Opaque Z.to_nat.

(** ** Programs that only read *)

Definition read_only {A} (m : H A) : Prop := forall s a s', m s = Ok a s' -> s' = s.

Create HintDb read_only discriminated.
Lemma read_only_ret {A} (a : A) : read_only (mret a).
Proof. by intros s b s' [= _ <-]. Qed.
Lemma read_only_stop {A} e : read_only (stop_with e : H A).
Proof. by intros s a s' Hs. Qed.
Lemma read_only_get : read_only (get_state : H h2state).
Proof. by intros s a s' [= _ <-]. Qed.
Lemma read_only_bind {A B} (m : H A) (k : A -> H B) : read_only m -> (forall a, read_only (k a)) -> read_only (m ≫= k).
Proof. intros Hm Hk s b s' Hb. apply bind_Ok_inv in Hb as (a & s1 & H1 & H2). apply Hm in H1 as ->. by apply Hk in H2. Qed.
Lemma read_only_assertp b : read_only (assertp b : H ()).
Proof. destruct b; [apply read_only_ret|apply read_only_stop]. Qed.
Lemma read_only_deref {A} (o : option A) : read_only (deref o : H A).
Proof. destruct o; [apply read_only_ret|apply read_only_stop]. Qed.
#[export] Hint Resolve read_only_ret read_only_stop read_only_get read_only_assertp read_only_deref : read_only.

(** [ro] decides [read_only] of a program text. *)
Ltac ro :=
  repeat first
    [ progress intros
    | solve [auto with read_only]
    | apply read_only_bind
    | match goal with |- read_only (match ?x with _ => _ end) => destruct x end ].

Lemma find_volume_ro vols off n i : read_only (find_volume vols off n i).
Proof. revert i. induction n as [|n IH]; intros i; cbn [find_volume]; ro. Qed.
#[export] Hint Resolve find_volume_ro : read_only.
Lemma get_volume_attr_ro off : read_only (hammer2_get_volume_attr off).
Proof. unfold hammer2_get_volume_attr. ro. Qed.
#[export] Hint Resolve get_volume_attr_ro : read_only.
Lemma get_volume_fd_ro off : read_only (hammer2_get_volume_fd off).
Proof. unfold hammer2_get_volume_fd, get_attr. ro. Qed.
Lemma get_volume_offset_ro off : read_only (hammer2_get_volume_offset off).
Proof. unfold hammer2_get_volume_offset, get_attr. ro. Qed.
Lemma sys_pread_ro fd n off : read_only (sys_pread fd n off).
Proof. unfold sys_pread. ro. Qed.
Lemma io_loop_ro fuel io boff n : read_only (io_loop fuel io boff n).
Proof. revert io. induction fuel as [|fuel IH]; intros io; cbn [io_loop]; ro. Qed.
#[export] Hint Resolve get_volume_fd_ro get_volume_offset_ro sys_pread_ro io_loop_ro : read_only.
Lemma read_media_ro b : read_only (read_media b).
Proof. unfold read_media. cbv zeta. ro. Qed.
Lemma verify_check_ro addr b m n : read_only (verify_check addr b m n).
Proof. unfold verify_check. cbv zeta. ro. Qed.
#[export] Hint Resolve read_media_ro verify_check_ro : read_only.

(** ** Blocks and check codes *)

(** The block of a block reference, and its size. *)
Definition block (s : h2state) (b : hammer2_blockref) : option (Z * bytes) :=
  match read_media b s with Ok (Media n m) _ => Some (n, m) | _ => None end.

(** All files hold bytes. *)
Definition files_ok (s : h2state) : Prop :=
  forall ino nd, nodes (sys s) !! ino = Some nd -> forall i, in_u 8 (f_data (nd_file nd) i).

(** Sizes of files are positions ([off_t]). *)
Definition sizes_ok (s : h2state) : Prop :=
  forall ino nd, nodes (sys s) !! ino = Some nd -> 0 <= f_size (nd_file nd) < 2 ^ 63.

(** The check code of the block is the one its reference says, for the three algorithms that
    fsck_hammer2 verifies.  Of SHA-192 it verifies nothing (the code is compiled out), nor of
    NONE, DISABLED and numbers that are no algorithm: such a block passes whatever it holds. *)
Definition check_good (b : hammer2_blockref) (data : bytes) : bool :=
  let algo := HAMMER2_DEC_CHECK (bref_methods b) in
  if bool_decide (algo = HAMMER2_CHECK_ISCSI32) then bool_decide (iscsi32_value b = crc32c_spec data)
  else if bool_decide (algo = HAMMER2_CHECK_XXHASH64) then bool_decide (xxhash64_value b = h2_XXH64 data XXH_HAMMER2_SEED)
  else if bool_decide (algo = HAMMER2_CHECK_FREEMAP) then bool_decide (freemap_icrc32 b = crc32c_spec data)
  else true.

Lemma io_loop_inv fuel boff n (s : h2state) : forall io r s',
  in_u 64 io -> io_loop fuel io boff n s = Ok r s' -> in_u 64 r /\ n <= u64 (r + boff).
Proof.
  induction fuel as [|fuel IH]; intros io r s' Hio; cbn [io_loop]; case_bool_decide as Hlt; try done.
  - intros [= <- _]. split; [done|lia].
  - apply IH. by apply in_u_uwrap.
  - intros [= <- _]. split; [done|lia].
Qed.

Lemma sys_pread_ok s fd n off data s' :
  files_ok s -> sys_pread fd n off s = Ok (Some data) s' -> bytes_ok data.
Proof.
  intros Hf. unfold sys_pread, mbind, prog_bind, get_state. destruct (fd_node s fd) as [[ino nd]|] eqn:E; [|done].
  intros [= Hp _]. unfold pread in Hp. case_bool_decide; [done|]. injection Hp as <-. apply file_read_ok.
  unfold fd_node in E. destruct (fds s !! fd) as [i|]; [|done]. cbn in E. destruct (nodes (sys s) !! i) eqn:En; [|done].
  cbn in E. injection E as <- <-. by apply (Hf i).
Qed.

(** The block that was read has at least the size of the block. *)
Lemma read_media_block b s n m s' :
  files_ok s -> read_media b s = Ok (Media n m) s' -> n <> 0 -> bytes_ok m /\ 0 < n <= Z.of_nat (length m) /\ n <= MEDIA_BYTES.
Proof.
  intros Hf. unfold read_media. cbv zeta. set (radix := _ .& HAMMER2_OFF_MASK_RADIX). set (sz := if bool_decide (radix = 0) then 0 else _).
  case_bool_decide as Hz; [by intros [= <- _ _]|]. set (boff := u64 (_ - _)). intros Hr Hn.
  assert (0 <= sz) as Hsz by (unfold sz; destruct (bool_decide (radix = 0)); [lia|apply in_u_uwrap; lia]).
  apply bind_Ok_inv in Hr as (io & s1 & Hio & Hr). pose proof (io_loop_ro _ _ _ _ _ _ _ Hio) as ->.
  apply io_loop_inv in Hio as [Hior Hio]; [|done]. case_bool_decide as Hbig; [done|].
  apply bind_Ok_inv in Hr as (fd & s1 & Hfd & Hr). apply get_volume_fd_ro in Hfd as ->.
  apply bind_Ok_inv in Hr as (off & s1 & Hoff & Hr). apply get_volume_offset_ro in Hoff as ->.
  apply bind_Ok_inv in Hr as (data & s1 & Hd & Hr). pose proof (sys_pread_ro _ _ _ _ _ _ Hd) as ->.
  destruct data as [data|]; [|done]. apply (sys_pread_ok _ _ _ _ _ _ Hf) in Hd as Hdo. unfold MEDIA_BYTES in *.
  case_bool_decide as Hlen; [done|]. assert (Z.of_nat (length data) = io) as Hl by lia.
  case_bool_decide as Hb0.
  - injection Hr as <- <- _. rewrite Hb0, Z.add_0_r, uwrap_small in Hio by done. split_and!; [done|lia|lia|lia].
  - case_bool_decide as Hfit; [|done]. injection Hr as <- <- _. assert (0 <= boff) by (apply in_u_uwrap; done).
    assert (length (take (Z.to_nat sz) (drop (Z.to_nat boff) data)) <= length data)%nat by (rewrite length_take, length_drop; lia).
    split_and!; [|lia| |lia].
    + apply splice_ok; [done|]. by apply Forall_take, Forall_drop.
    + rewrite length_splice; lia.
Qed.

Lemma verify_check_spec addr b m n s :
  bytes_ok m -> 0 < n <= Z.of_nat (length m) -> n <= MEDIA_BYTES ->
  verify_check addr b m n s
  = Ok (if check_good b (take (Z.to_nat n) m) then None else Some (HAMMER2_DEC_CHECK (bref_methods b))) s.
Proof.
  intros Hm Hn Hmb. unfold verify_check, check_good. cbv zeta.
  assert (hammer2_icrc32 addr m n = Some (crc32c_spec (take (Z.to_nat n) m))) as Hcrc.
  { rewrite <- (drop_0 m) at 1. change O with (Z.to_nat 0) at 1. rewrite icrc32_slice; [done|done|unfold in_u, MEDIA_BYTES in *; lia|done|lia]. }
  rewrite Hcrc. case_bool_decide as H1.
  { unfold deref. rewrite (bind_Ok _ _ s (crc32c_spec (take (Z.to_nat n) m)) s) by done. unfold mret, prog_ret. f_equal.
    repeat case_bool_decide; congruence. }
  case_bool_decide as H2; [unfold mret, prog_ret; f_equal; repeat case_bool_decide; congruence|].
  case_bool_decide as H3.
  { rewrite bool_decide_eq_false_2; [done|]. rewrite H3. done. }
  case_bool_decide as H4; [|done].
  unfold deref. rewrite (bind_Ok _ _ s (crc32c_spec (take (Z.to_nat n) m)) s) by done. unfold mret, prog_ret. f_equal.
  repeat case_bool_decide; congruence.
Qed.

(** ** Totals *)

Definition plus_delta (a b : delta_stats_t) : delta_stats_t :=
  {| ds_total_blockref := ds_total_blockref a + ds_total_blockref b;
     ds_total_empty := ds_total_empty a + ds_total_empty b;
     ds_total_bytes := ds_total_bytes a + ds_total_bytes b;
     ds_total_inode := ds_total_inode a + ds_total_inode b;
     ds_total_indirect := ds_total_indirect a + ds_total_indirect b;
     ds_total_data := ds_total_data a + ds_total_data b;
     ds_total_dirent := ds_total_dirent a + ds_total_dirent b;
     ds_total_freemap_node := ds_total_freemap_node a + ds_total_freemap_node b;
     ds_total_freemap_leaf := ds_total_freemap_leaf a + ds_total_freemap_leaf b;
     ds_count := ds_count a + ds_count b |}.
Definition sum_deltas (l : list delta_stats_t) : delta_stats_t := foldr plus_delta zero_delta l.

Lemma delta_eq (a b : delta_stats_t) :
  ds_total_blockref a = ds_total_blockref b -> ds_total_empty a = ds_total_empty b -> ds_total_bytes a = ds_total_bytes b ->
  ds_total_inode a = ds_total_inode b -> ds_total_indirect a = ds_total_indirect b -> ds_total_data a = ds_total_data b ->
  ds_total_dirent a = ds_total_dirent b -> ds_total_freemap_node a = ds_total_freemap_node b ->
  ds_total_freemap_leaf a = ds_total_freemap_leaf b -> ds_count a = ds_count b -> a = b.
Proof. destruct a, b. cbn. by intros -> -> -> -> -> -> -> -> -> ->. Qed.

Lemma u64_add_l a b : u64 (u64 a + b) = u64 (a + b).
Proof. apply Zplus_mod_idemp_l. Qed.
Lemma u64_add_r a b : u64 (a + u64 b) = u64 (a + b).
Proof. apply Zplus_mod_idemp_r. Qed.

(** Totals as they are stored: modulo 2 ^ 64. *)
Definition norm (d : delta_stats_t) : delta_stats_t := add_delta zero_delta d.

Ltac delta_ext := apply delta_eq; cbn; rewrite ?u64_add_l, ?u64_add_r; first [lia|f_equal; lia].

Lemma add_delta_assoc a b c : add_delta (add_delta a b) c = add_delta a (plus_delta b c).
Proof. delta_ext. Qed.
Lemma add_delta_norm a b : add_delta a (norm b) = add_delta a b.
Proof. delta_ext. Qed.
Lemma add_delta_zero a b : a = norm b -> add_delta a zero_delta = a.
Proof. intros ->. delta_ext. Qed.
Lemma plus_zero_r a : plus_delta a zero_delta = a.
Proof. apply delta_eq; cbn; lia. Qed.
Lemma plus_assoc a b c : plus_delta (plus_delta a b) c = plus_delta a (plus_delta b c).
Proof. apply delta_eq; cbn; lia. Qed.

(** Totals are not negative. *)
Definition delta_nonneg (d : delta_stats_t) : Prop :=
  0 <= ds_total_blockref d /\ 0 <= ds_total_empty d /\ 0 <= ds_total_bytes d /\ 0 <= ds_total_inode d /\
  0 <= ds_total_indirect d /\ 0 <= ds_total_data d /\ 0 <= ds_total_dirent d /\ 0 <= ds_total_freemap_node d /\
  0 <= ds_total_freemap_leaf d /\ 0 <= ds_count d.

Lemma plus_nonneg a b : delta_nonneg a -> delta_nonneg b -> delta_nonneg (plus_delta a b).
Proof. unfold delta_nonneg. cbn. lia. Qed.

Lemma sum_nonneg ds : Forall delta_nonneg ds -> delta_nonneg (sum_deltas ds).
Proof. induction 1; [by unfold delta_nonneg; cbn; lia|]. by apply plus_nonneg. Qed.

(** ** Trees *)

Section tree.
Context (s : h2state) (opts : fsck_options).

(** What one block reference with a block of [n] bytes counts; [None]: it is not sound. *)
Definition one (c : bool) : Z := if c then 1 else 0.
Definition own_delta (b : hammer2_blockref) (n : Z) : option delta_stats_t :=
  let t := bref_type b in
  let ty x := bool_decide (t = x) in
  let pseudo := ty HAMMER2_BREF_TYPE_VOLUME || ty HAMMER2_BREF_TYPE_FREEMAP in
  let empty := ty HAMMER2_BREF_TYPE_EMPTY in
  if (bool_decide (0 <= t <= HAMMER2_BREF_TYPE_FREEMAP_LEAF) || pseudo) &&
     (CountEmpty opts || negb empty || bool_decide (n = 0)) then
    Some {| ds_total_blockref := one (negb pseudo && (CountEmpty opts || negb empty));
            ds_total_empty := one (empty && CountEmpty opts);
            ds_total_bytes := if pseudo then 0 else n;
            ds_total_inode := one (ty HAMMER2_BREF_TYPE_INODE);
            ds_total_indirect := one (ty HAMMER2_BREF_TYPE_INDIRECT);
            ds_total_data := one (ty HAMMER2_BREF_TYPE_DATA);
            ds_total_dirent := one (ty HAMMER2_BREF_TYPE_DIRENT);
            ds_total_freemap_node := one (ty HAMMER2_BREF_TYPE_FREEMAP_NODE);
            ds_total_freemap_leaf := one (ty HAMMER2_BREF_TYPE_FREEMAP_LEAF);
            ds_count := 1 |}
  else None.

(** With [-c 1], a reference that has an offset but no block is an assertion failure. *)
Definition leaf_ok (b : hammer2_blockref) (n : Z) : bool :=
  negb (bool_decide (n = 0) && bool_decide (bref_data_off b ≠ 0) && bool_decide (BlockrefCacheCount opts = 1)).

(** The totals of the tree of [b], of a depth below [depth]: every block can be read and
    has the check code its reference says. *)
Fixpoint tree_delta (depth : nat) (b : hammer2_blockref) : option delta_stats_t :=
  match depth with
  | O => None
  | S depth =>
      '(n, m) ← block s b;
      own ← own_delta b n;
      if bool_decide (n = 0) then (if leaf_ok b n then Some own else None)
      else if check_good b (take (Z.to_nat n) m) then
        ds ← mapM (tree_delta depth) (children (bref_type b) m n);
        Some (plus_delta own (sum_deltas ds))
      else None
  end.

Lemma one_nonneg c : 0 <= one c.
Proof. by destruct c. Qed.

Lemma own_nonneg b n d : 0 <= n -> own_delta b n = Some d -> delta_nonneg d /\ ds_count d = 1.
Proof.
  intros Hn. unfold own_delta. cbv zeta. destruct (_ && _); [|done]. intros [= <-]. split; [|done].
  unfold delta_nonneg. cbn. split_and!; try apply one_nonneg; [|lia]. by destruct (_ || _).
Qed.

Lemma block_nonneg b n m : block s b = Some (n, m) -> 0 <= n.
Proof.
  unfold block. destruct (read_media b s) as [r s'|] eqn:E; [|done]. destruct r as [n' m'| |]; try done. intros [= <- <-].
  revert E. unfold read_media. cbv zeta. case_bool_decide as Hz; [by intros [= <- _ _]|]. intros Hr.
  apply bind_Ok_inv in Hr as (io & s1 & _ & Hr). case_bool_decide; [done|].
  apply bind_Ok_inv in Hr as (fd & s2 & _ & Hr). apply bind_Ok_inv in Hr as (off & s3 & _ & Hr).
  apply bind_Ok_inv in Hr as ([data|] & s4 & _ & Hr); [|done]. case_bool_decide; [done|].
  assert (n' = (if bool_decide (bref_data_off b .& HAMMER2_OFF_MASK_RADIX = 0) then 0
                else u64 (1 .<< (bref_data_off b .& HAMMER2_OFF_MASK_RADIX)))) as ->.
  { case_bool_decide; [by injection Hr as <- _ _|]. case_bool_decide; [|done]. by injection Hr as <- _ _. }
  destruct (bool_decide (_ = 0)); [lia|]. apply in_u_uwrap. lia.
Qed.

Lemma tree_nonneg depth b d : tree_delta depth b = Some d -> delta_nonneg d /\ 1 <= ds_count d.
Proof.
  revert b d. induction depth as [|depth IH]; intros b d; [done|]. cbn [tree_delta].
  destruct (block s b) as [[n m]|] eqn:Hb; [|done]. cbn. destruct (own_delta b n) as [own|] eqn:Ho; [|done]. cbn.
  destruct (own_nonneg b n own (block_nonneg _ _ _ Hb) Ho) as [Hn Hc].
  case_bool_decide; [destruct (leaf_ok b n); [|done]; intros [= <-]; split; [done|lia]|].
  destruct (check_good _ _); [|done]. destruct (mapM _ _) as [ds|] eqn:Hm; [|done]. cbn. intros [= <-].
  assert (delta_nonneg (sum_deltas ds)) as Hs.
  { apply sum_nonneg. apply mapM_Some in Hm. clear -Hm IH. induction Hm as [|c d' cs ds Hc _ IHm]; constructor; [|done]. by apply (IH c). }
  split; [by apply plus_nonneg|]. cbn. destruct Hs as (_ & _ & _ & _ & _ & _ & _ & _ & _ & ?). lia.
Qed.

(** A tree has the same totals at any larger depth. *)
Lemma tree_mono depth depth' b d : (depth <= depth')%nat -> tree_delta depth b = Some d -> tree_delta depth' b = Some d.
Proof.
  revert depth' b d. induction depth as [|depth IH]; intros [|depth'] b d Hle; try done; [lia|]. cbn [tree_delta].
  destruct (block s b) as [[n m]|]; [|done]. cbn. destruct (own_delta b n) as [own|]; [|done]. cbn.
  case_bool_decide; [done|]. destruct (check_good _ _); [|done].
  destruct (mapM (tree_delta depth) _) as [ds|] eqn:Hm; [|done]. cbn. intros [= <-].
  apply mapM_Some in Hm. assert (mapM (tree_delta depth') (children (bref_type b) m n) = Some ds) as ->; [|done].
  apply mapM_Some. eapply Forall2_impl; [exact Hm|]. intros c d' Hc. apply IH; [lia|done].
Qed.
End tree.
