(* ===== verification/H2FsckVerify.v ===== *)
(** * H2FsckVerify: [verify_blockref] computes the totals of sound trees

    Soundness: if [verify_blockref] returns 0, the tree has totals, and they are what was
    counted, with any cache that holds totals of trees.  Completeness: on a tree that has
    totals it returns 0. *)

From S2P Require Import Prelude HammerDisk Layout Crc32 CMonad Ondisk CacheInv H2Disk H2Volumes H2Header H2Verify H2Fsck H2FsckRead H2FsckTree.

#[local] Opaque Z.to_nat.

Lemma count_bytes_ro opts b n sc : read_only (count_bytes opts b n sc).
Proof. unfold count_bytes. cbv zeta. ro. Qed.
Lemma accumulate_ro a b : read_only (accumulate_delta_stats a b).
Proof. unfold accumulate_delta_stats. ro. Qed.
Lemma load_ro b d : read_only (load_delta_stats b d).
Proof. unfold load_delta_stats. ro. Qed.
#[export] Hint Resolve count_bytes_ro accumulate_ro load_ro : read_only.
Lemma verify_end_ro opts b n failed sc : read_only (verify_end opts b n failed sc).
Proof. unfold verify_end. ro. Qed.
#[export] Hint Resolve verify_end_ro : read_only.
Lemma verify_children_ro verify failed bs : (forall b f sc, read_only (verify b f sc)) ->
  forall sc, read_only (verify_children verify failed bs sc).
Proof. intros Hv. induction bs as [|b bs IH]; intros sc; cbn [verify_children]; ro. Qed.
Lemma verify_blockref_ro addr opts fuel b f sc : read_only (verify_blockref addr opts fuel b f sc).
Proof.
  revert b f sc. induction fuel as [|fuel IH]; intros b f sc; cbn [verify_blockref]; [ro|].
  destruct (if bool_decide _ then _ else _); [ro|]. destruct (count_blockref opts b sc) as [sc1 ok]. ro.
  by apply verify_children_ro.
Qed.
#[export] Hint Resolve verify_blockref_ro : read_only.

(** ** Counting *)

(** Totals without their count. *)
Definition uncounted (d : delta_stats_t) : delta_stats_t :=
  {| ds_total_blockref := ds_total_blockref d; ds_total_empty := ds_total_empty d; ds_total_bytes := ds_total_bytes d;
     ds_total_inode := ds_total_inode d; ds_total_indirect := ds_total_indirect d; ds_total_data := ds_total_data d;
     ds_total_dirent := ds_total_dirent d; ds_total_freemap_node := ds_total_freemap_node d;
     ds_total_freemap_leaf := ds_total_freemap_leaf d; ds_count := 0 |}.

Lemma uncounted_tick d : ds_count d = 1 -> plus_delta (uncounted d) tick = d.
Proof. intros Hd. apply delta_eq; cbn; lia. Qed.

(** The counters of the union, when every counter of [d] is added to its member. *)
Definition u_all (d : delta_stats_t) : list Z :=
  [ds_total_inode d + ds_total_freemap_node d; ds_total_indirect d + ds_total_freemap_leaf d; ds_total_data d;
   ds_total_dirent d].
Definition add_all (b : blockref_stats_t) (d : delta_stats_t) : blockref_stats_t :=
  add_bstats (ds_total_blockref d) (ds_total_empty d) (ds_total_bytes d) (u_all d) b.

Definition bs_wf (b : blockref_stats_t) : Prop := length (bs_u b) = 4%nat.

Lemma bs_eq (a b : blockref_stats_t) :
  bs_root a = bs_root b -> bs_type a = bs_type b -> bs_total_blockref a = bs_total_blockref b ->
  bs_total_empty a = bs_total_empty b -> bs_total_bytes a = bs_total_bytes b -> bs_u a = bs_u b -> a = b.
Proof. destruct a, b. cbn. by intros -> -> -> -> -> ->. Qed.

Lemma add_all_bstats b d x y z p q r t :
  bs_wf b -> add_bstats x y z [p; q; r; t] (add_all b d)
  = add_bstats (ds_total_blockref d + x) (ds_total_empty d + y) (ds_total_bytes d + z)
      (zip_with Z.add (u_all d) [p; q; r; t]) b.
Proof.
  unfold bs_wf. destruct b as [root type n1 n2 n3 u]. cbn. intros Hu. destruct u as [|a1 [|a2 [|a3 [|a4 [|? ?]]]]]; try done.
  apply bs_eq; cbn; by rewrite ?u64_add_l, ?Z.add_assoc.
Qed.

Lemma u_all_plus a b : zip_with Z.add (u_all a) (u_all b) = u_all (plus_delta a b).
Proof. unfold u_all. cbn. f_equal; [lia|]. f_equal. lia. Qed.

Lemma bs_wf_add b d : bs_wf b -> bs_wf (add_all b d).
Proof. unfold bs_wf, add_all. cbn. intros Hu. rewrite length_zip_with, Hu. done. Qed.

(** [bd_const] decides the tests on constants. *)
Ltac bd_const :=
  repeat match goal with
         | |- context [bool_decide (?x = ?y)] =>
             first [ rewrite (bool_decide_eq_true_2 (x = y)) by reflexivity
                   | rewrite (bool_decide_eq_false_2 (x = y)) by discriminate ]
         | |- context [bool_decide (?x <> ?y)] =>
             first [ rewrite (bool_decide_eq_true_2 (x <> y)) by discriminate
                   | rewrite (bool_decide_eq_false_2 (x <> y)) by (intros Hc; apply Hc; reflexivity) ]
         | |- context [bool_decide (0 <= ?x <= ?y)] =>
             first [ rewrite (bool_decide_eq_true_2 (0 <= x <= y)) by (split; discriminate)
                   | rewrite (bool_decide_eq_false_2 (0 <= x <= y)) by (intros [_ Hc]; by apply Hc) ]
         end.

Section verify.
Context (s : h2state) (opts : fsck_options) (addr : Z).
#[local] Abbreviation tree := (tree_delta s opts).

(** The scan after [bump]s that amount to [d]. *)
Definition counted (sc : scan) (d : delta_stats_t) (sc2 : scan) : Prop :=
  sc_droot sc2 = sc_droot sc /\
  (forall D, sc_dstats sc = norm D -> sc_dstats sc2 = norm (plus_delta D d)) /\
  (forall bs0 B, bs_wf bs0 -> sc_bstats sc = add_all bs0 B -> sc_bstats sc2 = add_all bs0 (plus_delta B d)).

Lemma counted_bump sc u d sc2 :
  sc2 = bump u d sc -> u = u_all d -> counted sc d sc2.
Proof.
  intros -> ->. split_and!; [done| |].
  - intros D HD. cbn. rewrite HD. unfold norm. by rewrite add_delta_assoc.
  - intros bs0 B Hw HB. cbn [bump sc_bstats]. rewrite HB. unfold u_all at 1. rewrite add_all_bstats by done.
    fold (u_all d). by rewrite u_all_plus.
Qed.

Lemma counted_trans sc d1 sc1 d2 sc2 : counted sc d1 sc1 -> counted sc1 d2 sc2 -> counted sc (plus_delta d1 d2) sc2.
Proof.
  intros (Hr1 & Hd1 & Hb1) (Hr2 & Hd2 & Hb2). split_and!; [congruence| |].
  - intros D HD. rewrite (Hd2 _ (Hd1 _ HD)). by rewrite plus_assoc.
  - intros bs0 B Hw HB. rewrite (Hb2 _ _ Hw (Hb1 _ _ Hw HB)). by rewrite plus_assoc.
Qed.

Lemma counted_eq sc d d' sc2 : counted sc d sc2 -> d = d' -> counted sc d' sc2.
Proof. by intros Hc <-. Qed.

(** [count_steps H] follows the [bump]s after those of [H]. *)
Ltac count_steps H :=
  eapply counted_eq;
    [ repeat first [exact H | eapply counted_trans; [|by eapply counted_bump]]
    | apply delta_eq; cbn; lia ].

(** What is counted of one block reference. *)
Lemma count_spec b n sc sc1 ok :
  count_blockref opts b sc = (sc1, ok) ->
  match own_delta opts b n with
  | Some own => ok = true /\ exists sc2, count_bytes opts b n sc1 s = Ok sc2 s /\ counted sc (uncounted own) sc2
  | None => ok = false \/ exists e, count_bytes opts b n sc1 s = Stop e
  end.
Proof.
  unfold count_blockref. cbv zeta. set (sc0 := bump _ (delta 1 _ _ _ _ _ _ _ _) sc).
  assert (counted sc (delta 1 0 0 0 0 0 0 0 0) sc0) as H0 by (by eapply counted_bump).
  unfold own_delta, count_bytes. cbv zeta. generalize (bref_type b). intros t.
  destruct (decide (t = HAMMER2_BREF_TYPE_EMPTY)) as [->|Hne].
  { bd_const. cbn [andb orb negb]. destruct (CountEmpty opts); cbn [andb orb negb one].
    - intros [= <- <-]. split; [done|]. eexists. split; [reflexivity|]. count_steps H0.
    - intros [= <- <-]. case_bool_decide as Hn.
      + split; [done|]. eexists. split; [reflexivity|]. subst n. count_steps H0.
      + right. by eexists. }
  rewrite (bool_decide_eq_false_2 (t = HAMMER2_BREF_TYPE_EMPTY)) by done. cbn [negb].
  rewrite ?orb_true_r, ?andb_true_r, ?andb_false_r. cbn [orb andb negb one].
  do 6 (match goal with |- (if bool_decide (t = ?x) then _ else _) = _ -> _ =>
          destruct (decide (t = x)) as [->|?];
          [ bd_const; cbn [andb orb negb one]; intros [= <- <-]; split; [done|];
            eexists; split; [reflexivity|]; count_steps H0
          | rewrite (bool_decide_eq_false_2 (t = x)) by done ] end).
  destruct (decide (t = HAMMER2_BREF_TYPE_VOLUME)) as [->|Hv].
  { bd_const. cbn [andb orb negb one]. intros [= <- <-]. split; [done|]. eexists. split; [reflexivity|]. count_steps H0. }
  destruct (decide (t = HAMMER2_BREF_TYPE_FREEMAP)) as [->|Hf].
  { bd_const. cbn [andb orb negb one]. intros [= <- <-]. split; [done|]. eexists. split; [reflexivity|]. count_steps H0. }
  rewrite (bool_decide_eq_false_2 _ Hv), (bool_decide_eq_false_2 _ Hf). rewrite bool_decide_eq_false_2.
  - intros [= <- <-]. by left.
  - unfold HAMMER2_BREF_TYPE_EMPTY, HAMMER2_BREF_TYPE_INODE, HAMMER2_BREF_TYPE_INDIRECT, HAMMER2_BREF_TYPE_DATA,
      HAMMER2_BREF_TYPE_DIRENT, HAMMER2_BREF_TYPE_FREEMAP_NODE, HAMMER2_BREF_TYPE_FREEMAP_LEAF in *. lia.
Qed.

(** ** The cache *)

(** Every cached delta is the totals of its tree. *)
Definition cache_ok (droot : blockref_tree delta_stats_t) : Prop :=
  forall off l b d, droot !! off = Some l -> (b, d) ∈ l -> exists depth D, tree depth b = Some D /\ d = norm D.

Lemma cache_ok_empty : cache_ok ∅.
Proof. intros off l b d Hl. by rewrite lookup_empty in Hl. Qed.

Lemma cache_ok_add droot b depth D :
  cache_ok droot -> tree depth b = Some D -> cache_ok (add_blockref_entry droot b (norm D)).
Proof.
  intros Hc Ht off l b' d Hl Hin. unfold add_blockref_entry in Hl. destruct (decide (off = bref_data_off b)) as [->|Hne].
  - rewrite lookup_insert_eq in Hl. injection Hl as <-. unfold add_blockref_msg in Hin. apply elem_of_app in Hin as [Hin|Hin].
    + destruct (droot !! bref_data_off b) as [l'|] eqn:E; [by apply (Hc _ _ _ _ E)|by apply elem_of_nil in Hin].
    + apply list_elem_of_singleton in Hin. injection Hin as -> ->. by exists depth, D.
  - rewrite lookup_insert_ne in Hl by done. by apply (Hc off l).
Qed.

Lemma cached_ok droot b d : cache_ok droot -> cached droot b = Some d -> exists depth D, tree depth b = Some D /\ d = norm D.
Proof.
  intros Hc Hd. unfold cached in Hd. destruct (list_find _ _) as [[i [b' d']]|] eqn:E; [|done]. cbn in Hd. injection Hd as ->.
  apply list_find_Some in E as (Hi & Hb & _). cbn in Hb. subst b'. apply list_elem_of_lookup_2 in Hi.
  destruct (droot !! bref_data_off b) as [l|] eqn:El; [by apply (Hc _ _ _ _ El)|by apply elem_of_nil in Hi].
Qed.

(** ** Statistics *)

(** The totals have only the counters of a tree of the type. *)
Definition pure_delta (type : Z) (d : delta_stats_t) : Prop :=
  (type = HAMMER2_BREF_TYPE_VOLUME /\ ds_total_freemap_node d = 0 /\ ds_total_freemap_leaf d = 0) \/
  (type = HAMMER2_BREF_TYPE_FREEMAP /\ ds_total_inode d = 0 /\ ds_total_indirect d = 0 /\ ds_total_data d = 0 /\
   ds_total_dirent d = 0).

Lemma pure_plus type a b :
  delta_nonneg a -> delta_nonneg b -> pure_delta type (plus_delta a b) -> pure_delta type a /\ pure_delta type b.
Proof. unfold delta_nonneg, pure_delta. cbn. lia. Qed.

Lemma add_bstats_u64 b x y z p q r t :
  add_bstats (u64 x) (u64 y) (u64 z) [u64 p; u64 q; u64 r; u64 t] b = add_bstats x y z [p; q; r; t] b.
Proof.
  apply bs_eq; cbn; rewrite ?u64_add_r; try done. destruct (bs_u b) as [|? [|? [|? [|? ?]]]]; cbn; by rewrite ?u64_add_r.
Qed.

Lemma load_spec bs0 B D b s1 s2 :
  bs_wf bs0 -> pure_delta (bs_type bs0) D -> load_delta_stats (add_all bs0 B) (norm D) s1 = Ok b s2 -> b = add_all bs0 (plus_delta B D).
Proof.
  intros Hw Hp. unfold load_delta_stats. change (bs_type (add_all bs0 B)) with (bs_type bs0).
  unfold norm. cbn [add_delta zero_delta ds_total_blockref ds_total_empty ds_total_bytes ds_total_inode ds_total_indirect ds_total_data
    ds_total_dirent ds_total_freemap_node ds_total_freemap_leaf]. rewrite !Z.add_0_l.
  assert (add_bstats (ds_total_blockref D) (ds_total_empty D) (ds_total_bytes D) (u_all D) (add_all bs0 B)
          = add_all bs0 (plus_delta B D)) as Hall.
  { unfold u_all at 1. rewrite add_all_bstats by done. fold (u_all D). by rewrite u_all_plus. }
  destruct Hp as [(-> & Hn & Hl)|(-> & Hi & Hd & Ha & Hr)]; bd_const.
  - intros [= <- _]. rewrite add_bstats_u64, <- Hall. unfold u_all at 1. by rewrite Hn, Hl, !Z.add_0_r.
  - intros [= <- _].
    change [u64 (ds_total_freemap_node D); u64 (ds_total_freemap_leaf D); 0; 0]
      with [u64 (ds_total_freemap_node D); u64 (ds_total_freemap_leaf D); u64 0; u64 0].
    rewrite add_bstats_u64, <- Hall. unfold u_all at 1. by rewrite Hi, Hd, Ha, Hr.
Qed.

(** ** Soundness *)

(** A scan that added the totals [D]. *)
Definition scanned (sc : scan) (D : delta_stats_t) (sc' : scan) : Prop :=
  cache_ok (sc_droot sc') /\
  forall bs0 B, bs_wf bs0 -> pure_delta (bs_type bs0) D -> sc_bstats sc = add_all bs0 B -> sc_bstats sc' = add_all bs0 (plus_delta B D).

Lemma accumulate_inv a b d (s1 s2 : h2state) : accumulate_delta_stats a b s1 = Ok d s2 -> d = add_delta a b.
Proof. unfold accumulate_delta_stats. case_bool_decide; [|done]. by intros [= <- _]. Qed.

Lemma verify_end_inv b n failed sc r sc' s1 s2 :
  verify_end opts b n failed sc s1 = Ok (r, sc') s2 ->
  r = negb failed /\
  (failed = false -> sc_bstats sc' = sc_bstats sc /\
   sc_dstats sc' = add_delta (sc_dstats sc) tick /\
   (sc_droot sc' = sc_droot sc \/ (sc_droot sc' = add_blockref_entry (sc_droot sc) b (sc_dstats sc') /\ n <> 0)) /\
   (n = 0 -> bref_data_off b <> 0 -> 0 < BlockrefCacheCount opts -> ds_count (sc_dstats sc') < BlockrefCacheCount opts)).
Proof.
  unfold verify_end. destruct failed; [by intros [= <- <- <-]|]. intros Hr.
  apply bind_Ok_inv in Hr as (d & s3 & Hd & Hr). apply accumulate_inv in Hd as ->.
  destruct (bool_decide (bref_data_off b <> 0)) eqn:Eo; cbn [andb] in Hr.
  2:{ injection Hr as <- <- _. split; [done|]. intros _. cbn. split_and!; [done|done|by left|]. apply bool_decide_eq_false in Eo. naive_solver. }
  destruct (bool_decide (0 < BlockrefCacheCount opts)) eqn:Ec; cbn [andb] in Hr.
  2:{ injection Hr as <- <- _. split; [done|]. intros _. cbn. split_and!; [done|done|by left|]. apply bool_decide_eq_false in Ec. lia. }
  case_bool_decide as Hle.
  - apply bind_Ok_inv in Hr as ([] & s4 & Ha & Hr). destruct (bool_decide (n <> 0)) eqn:En; [|done].
    apply bool_decide_eq_true in En. injection Hr as <- <- _. split; [done|]. intros _. cbn. split_and!; [done|done|by right|lia].
  - injection Hr as <- <- _. split; [done|]. intros _. split_and!; [done|done|by left|]. cbn [sc_dstats set_dstats]. lia.
Qed.

Context (Hfiles : files_ok s).

(** What a call for a tree guarantees. *)
Definition call_sound (verify : hammer2_blockref -> bool -> scan -> H (bool * scan)) : Prop :=
  forall b sc sc', verify b false sc s = Ok (true, sc') s -> sc_dstats sc = zero_delta -> cache_ok (sc_droot sc) ->
    exists depth D, tree depth b = Some D /\ sc_dstats sc' = norm D /\ scanned sc D sc'.

Lemma mapM_mono depth depth' bs ds :
  (depth <= depth')%nat -> mapM (tree depth) bs = Some ds -> mapM (tree depth') bs = Some ds.
Proof.
  intros Hle Hm. apply mapM_Some in Hm. apply mapM_Some. eapply Forall2_impl; [exact Hm|]. intros c d. by apply tree_mono.
Qed.

Lemma children_nonneg depth bs ds : mapM (tree depth) bs = Some ds -> delta_nonneg (sum_deltas ds).
Proof.
  intros Hm. apply sum_nonneg. apply mapM_Some in Hm. induction Hm as [|c d cs ds Hc _ IH]; constructor; [|done].
  by apply (tree_nonneg s opts depth c).
Qed.

Lemma children_sound verify (Hro : forall b f sc, read_only (verify b f sc)) bs :
  call_sound verify -> forall sc sc' D0,
  verify_children verify false bs sc s = Ok (true, sc') s -> sc_dstats sc = norm D0 -> cache_ok (sc_droot sc) ->
  exists depth ds, mapM (tree depth) bs = Some ds /\ sc_dstats sc' = norm (plus_delta D0 (sum_deltas ds)) /\
    scanned sc (sum_deltas ds) sc'.
Proof.
  intros Hcall. induction bs as [|b bs IH]; intros sc sc' D0 Hv Hd Hc; cbn [verify_children] in Hv.
  { injection Hv as <-. exists O, []. cbn [sum_deltas foldr]. split_and!; [done|by rewrite plus_zero_r|].
    split; [done|]. intros bs0 B _ _ HB. by rewrite plus_zero_r. }
  apply bind_Ok_inv in Hv as ([ok sc1] & s1 & Hb & Hv). pose proof (Hro _ _ _ _ _ _ Hb) as ->. destruct ok; [|done].
  apply bind_Ok_inv in Hv as (d & s1 & Ha & Hv). pose proof (accumulate_ro _ _ _ _ _ Ha) as ->. apply accumulate_inv in Ha as ->.
  destruct (Hcall b _ sc1 Hb eq_refl Hc) as (n1 & D1 & Ht1 & Hd1 & Hc1 & Hb1).
  destruct (IH _ sc' (plus_delta D0 D1) Hv) as (n2 & ds & Ht2 & Hd2 & Hc2 & Hb2); [|done|].
  { cbn. rewrite Hd, Hd1, add_delta_norm. unfold norm. by rewrite add_delta_assoc. }
  exists (max n1 n2), (D1 :: ds). cbn [sum_deltas foldr]. fold (sum_deltas ds). split_and!.
  - cbn [mapM]. rewrite (tree_mono s opts n1 (max n1 n2) b D1) by (done || lia). cbn.
    by rewrite (mapM_mono n2 (max n1 n2) bs ds) by (done || lia).
  - by rewrite Hd2, plus_assoc.
  - split; [done|]. intros bs0 B Hw Hp HB.
    destruct (tree_nonneg s opts n1 b D1 Ht1) as [Hn1 _]. pose proof (children_nonneg n2 bs ds Ht2) as Hn2.
    destruct (pure_plus _ _ _ Hn1 Hn2 Hp) as [Hp1 Hp2].
    rewrite (Hb2 bs0 (plus_delta B D1) Hw Hp2); [by rewrite plus_assoc|]. cbn. by apply Hb1.
Qed.

Lemma verify_sound fuel : call_sound (verify_blockref addr opts fuel).
Proof using Hfiles.
  induction fuel as [|fuel IH]; intros b sc sc' Hv Hd Hc; [done|]. cbn [verify_blockref] in Hv.
  destruct (if bool_decide (bref_data_off b ≠ 0) then cached (sc_droot sc) b else None) as [ds|] eqn:Hcache.
  { assert (cached (sc_droot sc) b = Some ds) as Hd' by (revert Hcache; case_bool_decide; done).
    destruct (cached_ok _ _ _ Hc Hd') as (n & D & Ht & ->).
    apply bind_Ok_inv in Hv as (d & s1 & Ha & Hv). pose proof (accumulate_ro _ _ _ _ _ Ha) as ->. apply accumulate_inv in Ha as ->.
    apply bind_Ok_inv in Hv as (bs & s1 & Hl & Hv). pose proof (load_ro _ _ _ _ _ Hl) as ->. injection Hv as <-.
    exists n, D. split_and!; [done| |].
    - cbn. rewrite Hd, add_delta_norm. done.
    - split; [done|]. intros bs0 B Hw Hp HB. cbn. rewrite HB in Hl. by eapply load_spec. }
  clear Hcache. destruct (count_blockref opts b sc) as [sc1 ok] eqn:Hcnt.
  apply bind_Ok_inv in Hv as (r & s1 & Hr & Hv). pose proof (read_media_ro _ _ _ _ Hr) as ->.
  destruct r as [n m| |]; [|done|done]. pose proof (count_spec b n sc sc1 ok Hcnt) as Hown.
  apply bind_Ok_inv in Hv as (sc2 & s1 & Hcb & Hv). pose proof (count_bytes_ro _ _ _ _ _ _ _ Hcb) as ->.
  assert (block s b = Some (n, m)) as Hblk by (unfold block; by rewrite Hr).
  destruct (own_delta opts b n) as [own|] eqn:Ho.
  2:{ destruct Hown as [->|[e He]]; [|congruence]. exfalso.
      case_bool_decide; [by apply verify_end_inv in Hv as [? _]|].
      apply bind_Ok_inv in Hv as (bad & s1 & _ & Hv). cbn [negb orb] in Hv. apply bind_Ok_inv in Hv as ([all sc3] & s2 & _ & Hv).
      destruct all; [|done]. by apply verify_end_inv in Hv as [? _]. }
  destruct Hown as (-> & sc2' & Hcb' & Hdr & Hds & Hbs). rewrite Hcb in Hcb'. injection Hcb' as <-.
  destruct (own_nonneg opts b n own (block_nonneg s _ _ _ Hblk) Ho) as [Hnn Hone].
  assert (sc_dstats sc2 = norm (uncounted own)) as Hd2.
  { rewrite (Hds zero_delta Hd). delta_ext. }
  case_bool_decide as Hn0.
  { subst n. apply verify_end_inv in Hv as [_ Hend]. destruct (Hend eq_refl) as (Hb' & Hd' & Hr' & Hlf).
    rewrite Hd2 in Hd'. unfold norm in Hd'. rewrite add_delta_assoc, uncounted_tick in Hd' by done. fold (norm own) in Hd'.
    exists 1%nat, own. cbn [tree_delta]. rewrite Hblk. cbn. rewrite Ho. cbn. rewrite bool_decide_eq_true_2 by done.
    assert (leaf_ok opts b 0 = true) as ->.
    { unfold leaf_ok. rewrite bool_decide_eq_true_2 by done. apply negb_true_iff, andb_false_iff.
      destruct (decide (bref_data_off b = 0)) as [H0|H0]; [left; cbn [andb]; apply bool_decide_eq_false_2; by intros Hc'|right].
      apply bool_decide_eq_false_2. intros H1. specialize (Hlf eq_refl H0 ltac:(lia)). rewrite Hd' in Hlf. cbn in Hlf. lia. }
    split_and!; [done|done|]. split.
    - destruct Hr' as [->|[_ Hc']]; [by rewrite Hdr|done].
    - intros bs0 B Hw _ HB. rewrite Hb', (Hbs bs0 B Hw HB). reflexivity. }
  destruct (read_media_block b s n m s Hfiles Hr Hn0) as (Hmo & Hn & Hmb).
  rewrite (bind_Ok _ _ _ _ _ (verify_check_spec addr b m n s Hmo Hn Hmb)) in Hv. rewrite andb_false_r in Hv. cbn [negb orb] in Hv.
  destruct (check_good b (take (Z.to_nat n) m)) eqn:Hck.
  2:{ exfalso. apply bind_Ok_inv in Hv as ([all sc3] & s2 & _ & Hv). destruct all; [|done].
      apply verify_end_inv in Hv as [Hf _]. rewrite bool_decide_eq_true_2 in Hf by done. done. }
  rewrite bool_decide_eq_false_2 in Hv by (by intros [? ?]).
  apply bind_Ok_inv in Hv as ([all sc3] & s2 & Hch & Hv).
  pose proof (verify_children_ro _ _ _ (fun b' f' sc'' => verify_blockref_ro addr opts fuel b' f' sc'') _ _ _ _ Hch) as ->.
  destruct all; [|done].
  destruct (children_sound _ (verify_blockref_ro addr opts fuel) _ IH sc2 sc3 (uncounted own) Hch Hd2) as (k & ds & Hm & Hd3 & Hc3 & Hb3).
  { by rewrite Hdr. }
  apply verify_end_inv in Hv as [_ Hend]. destruct (Hend eq_refl) as (Hb' & Hd' & Hr' & _).
  assert (sc_dstats sc' = norm (plus_delta own (sum_deltas ds))) as HD.
  { rewrite Hd', Hd3. unfold norm. rewrite add_delta_assoc. f_equal. apply delta_eq; cbn; lia. }
  assert (tree (S k) b = Some (plus_delta own (sum_deltas ds))) as Htree.
  { cbn [tree_delta]. rewrite Hblk. cbn. rewrite Ho. cbn. rewrite bool_decide_eq_false_2 by done. rewrite Hck, Hm. done. }
  exists (S k), (plus_delta own (sum_deltas ds)). split_and!; [done|done|]. split.
  - destruct Hr' as [->|[-> _]]; [done|]. rewrite HD. by apply (cache_ok_add _ _ (S k)).
  - intros bs0 B Hw Hp HB. destruct (pure_plus _ _ _ Hnn (children_nonneg _ _ _ Hm) Hp) as [_ Hp2].
    rewrite Hb', (Hb3 bs0 (plus_delta B (uncounted own)) Hw Hp2); [|by apply Hbs]. rewrite <- plus_assoc. reflexivity.
Qed.

(** ** Completeness *)

Definition typed (b : blockref_stats_t) : Prop :=
  bs_type b = HAMMER2_BREF_TYPE_VOLUME \/ bs_type b = HAMMER2_BREF_TYPE_FREEMAP.

Lemma tree_det n1 n2 b D1 D2 : tree n1 b = Some D1 -> tree n2 b = Some D2 -> D1 = D2.
Proof.
  intros H1 H2. apply (tree_mono s opts n1 (max n1 n2)) in H1; [|lia]. apply (tree_mono s opts n2 (max n1 n2)) in H2; [|lia]. congruence.
Qed.

Lemma verify_end_ok b n sc :
  in_s 64 (ds_count (sc_dstats sc) + 1) ->
  (n = 0 -> bref_data_off b <> 0 -> 0 < BlockrefCacheCount opts -> ds_count (sc_dstats sc) + 1 < BlockrefCacheCount opts) ->
  exists sc', verify_end opts b n false sc s = Ok (true, sc') s /\ bs_type (sc_bstats sc') = bs_type (sc_bstats sc).
Proof.
  intros Hc Hn. unfold verify_end, accumulate_delta_stats. rewrite (bool_decide_eq_true_2 (in_s 64 _)) by exact Hc.
  rewrite (bind_Ok _ _ s (add_delta (sc_dstats sc) tick) s) by done.
  destruct (bool_decide (bref_data_off b <> 0)) eqn:Eo; cbn [andb]; [|by eexists].
  destruct (bool_decide (0 < BlockrefCacheCount opts)) eqn:Ec; cbn [andb]; [|by eexists].
  apply bool_decide_eq_true in Eo, Ec. case_bool_decide as Hle; [|by eexists]. cbn in Hle.
  rewrite (bool_decide_eq_true_2 (n <> 0)) by (intros Hz; specialize (Hn Hz Eo Ec); lia).
  rewrite (bind_Ok _ _ s () s) by done. by eexists.
Qed.

Lemma count_type b sc sc1 ok : count_blockref opts b sc = (sc1, ok) -> bs_type (sc_bstats sc1) = bs_type (sc_bstats sc).
Proof. unfold count_blockref. cbv zeta. repeat case_bool_decide; try destruct (CountEmpty opts); cbn [orb]; by intros [= <- _]. Qed.

Lemma count_bytes_type b n sc sc1 s1 : count_bytes opts b n sc s1 = Ok sc1 s1 -> bs_type (sc_bstats sc1) = bs_type (sc_bstats sc).
Proof.
  unfold count_bytes. cbv zeta. destruct (_ && bool_decide (bref_type b = _)).
  - intros Hc. apply bind_Ok_inv in Hc as ([] & s2 & _ & Hc). injection Hc as <- _. by destruct (_ && _).
  - intros [= <-]. by destruct (_ && _).
Qed.

(** What a call for a tree of totals below the depth does. *)
Definition call_complete (depth : nat) (verify : hammer2_blockref -> bool -> scan -> H (bool * scan)) : Prop :=
  forall b D sc, tree depth b = Some D -> ds_count D < 2 ^ 63 -> sc_dstats sc = zero_delta -> cache_ok (sc_droot sc) ->
    typed (sc_bstats sc) ->
    exists sc', verify b false sc s = Ok (true, sc') s /\ bs_type (sc_bstats sc') = bs_type (sc_bstats sc).

Lemma children_complete depth verify bs :
  call_sound verify -> call_complete depth verify -> forall ds sc D0,
  mapM (tree depth) bs = Some ds -> sc_dstats sc = norm D0 -> 0 <= ds_count D0 ->
  ds_count D0 + ds_count (sum_deltas ds) < 2 ^ 63 -> cache_ok (sc_droot sc) -> typed (sc_bstats sc) ->
  exists sc', verify_children verify false bs sc s = Ok (true, sc') s /\ bs_type (sc_bstats sc') = bs_type (sc_bstats sc).
Proof.
  intros Hs Hcomp. induction bs as [|b bs IH]; intros ds sc D0 Hm Hd Hpos Hlt Hc Hty; cbn [verify_children]; [by exists sc|].
  apply mapM_Some in Hm. apply Forall2_cons_inv_l in Hm as (D1 & ds' & Ht & Hm & ->). apply mapM_Some in Hm.
  cbn [sum_deltas foldr] in Hlt. fold (sum_deltas ds') in Hlt. cbn in Hlt.
  destruct (tree_nonneg s opts depth b D1 Ht) as [_ H1]. pose proof (children_nonneg _ _ _ Hm) as (_ & _ & _ & _ & _ & _ & _ & _ & _ & H2).
  destruct (Hcomp b D1 (set_dstats zero_delta sc) Ht ltac:(lia) eq_refl Hc Hty) as (sc1 & Hv & Hty1).
  destruct (Hs b _ sc1 Hv eq_refl Hc) as (n1 & D1' & Ht' & Hd1 & Hc1 & _).
  pose proof (tree_det _ _ _ _ _ Ht Ht') as <-.
  rewrite (bind_Ok _ _ _ _ _ Hv). unfold accumulate_delta_stats at 1. rewrite Hd, Hd1.
  rewrite bool_decide_eq_true_2 by (cbn; unfold in_s; lia).
  rewrite (bind_Ok _ _ s (add_delta (norm D0) (norm D1)) s) by done.
  destruct (IH ds' (set_dstats (add_delta (norm D0) (norm D1)) sc1) (plus_delta D0 D1)) as (sc' & Hv' & Hty');
    [done| |cbn; lia|cbn; lia|done|by unfold typed; cbn; rewrite Hty1|].
  { cbn. rewrite add_delta_norm. unfold norm. by rewrite add_delta_assoc. }
  exists sc'. split; [exact Hv'|]. cbn in Hty', Hty1. congruence.
Qed.

Lemma verify_complete fuel : call_complete fuel (verify_blockref addr opts fuel).
Proof using Hfiles.
  induction fuel as [|fuel IH]; intros b D sc Ht Hlt Hd Hc Hty; [done|]. cbn [verify_blockref].
  destruct (if bool_decide (bref_data_off b ≠ 0) then cached (sc_droot sc) b else None) as [ds|] eqn:Hcache.
  { assert (cached (sc_droot sc) b = Some ds) as Hd' by (revert Hcache; case_bool_decide; done).
    destruct (cached_ok _ _ _ Hc Hd') as (n & D' & Ht' & ->). pose proof (tree_det _ _ _ _ _ Ht Ht') as <-.
    destruct (tree_nonneg s opts _ b D Ht) as [_ H1].
    unfold accumulate_delta_stats. rewrite Hd. rewrite bool_decide_eq_true_2 by (cbn; unfold in_s; lia).
    rewrite (bind_Ok _ _ s (add_delta zero_delta (norm D)) s) by done. unfold load_delta_stats.
    destruct Hty as [Hty|Hty]; rewrite Hty; bd_const; rewrite (bind_Ok _ _ s _ s) by reflexivity; by eexists. }
  clear Hcache. cbn [tree_delta] in Ht. destruct (block s b) as [[n m]|] eqn:Hblk; [|done]. cbn in Ht.
  destruct (own_delta opts b n) as [own|] eqn:Ho; [|done]. cbn in Ht.
  assert (read_media b s = Ok (Media n m) s) as Hr.
  { unfold block in Hblk. destruct (read_media b s) as [r s'|] eqn:E; [|done]. pose proof (read_media_ro _ _ _ _ E) as ->.
    destruct r; try done. by injection Hblk as -> ->. }
  destruct (count_blockref opts b sc) as [sc1 ok] eqn:Hcnt.
  rewrite (bind_Ok _ _ _ _ _ Hr). pose proof (count_spec b n sc sc1 ok Hcnt) as Hown. rewrite Ho in Hown.
  destruct Hown as (-> & sc2 & Hcb & Hdr & Hds & Hbs). rewrite (bind_Ok _ _ _ _ _ Hcb).
  destruct (own_nonneg opts b n own (block_nonneg s _ _ _ Hblk) Ho) as [Hnn Hone].
  assert (sc_dstats sc2 = norm (uncounted own)) as Hd2.
  { rewrite (Hds zero_delta Hd). delta_ext. }
  assert (bs_type (sc_bstats sc2) = bs_type (sc_bstats sc)) as Hty2.
  { rewrite (count_bytes_type _ _ _ _ _ Hcb). by apply (count_type _ _ _ _ Hcnt). }
  case_bool_decide as Hn0.
  { destruct (leaf_ok opts b n) eqn:Hleaf; [|done]. destruct (verify_end_ok b n sc2) as (sc' & Hv & Hty').
    - rewrite Hd2. cbn. unfold in_s. lia.
    - intros _ Hoff Hcache. rewrite Hd2. cbn. unfold leaf_ok in Hleaf. rewrite Hn0 in Hleaf.
      rewrite !bool_decide_eq_true_2 in Hleaf by done. cbn in Hleaf.
      destruct (decide (BlockrefCacheCount opts = 1)) as [H1|H1]; [|lia]. by rewrite bool_decide_eq_true_2 in Hleaf.
    - exists sc'. split; [exact Hv|congruence]. }
  destruct (check_good b (take (Z.to_nat n) m)) eqn:Hck; [|done].
  destruct (mapM (tree fuel) (children (bref_type b) m n)) as [ds|] eqn:Hm; [|done]. cbn in Ht. injection Ht as <-.
  destruct (read_media_block b s n m s Hfiles Hr Hn0) as (Hmo & Hn & Hmb).
  rewrite (bind_Ok _ _ _ _ _ (verify_check_spec addr b m n s Hmo Hn Hmb)). rewrite Hck, andb_false_r. cbn [negb orb].
  rewrite bool_decide_eq_false_2 by (by intros [? ?]).
  destruct (children_complete fuel _ _ (verify_sound fuel) IH ds sc2 (uncounted own) Hm Hd2) as (sc3 & Hch & Hty3);
    [done|cbn in *; lia|by rewrite Hdr|by unfold typed; rewrite Hty2|].
  rewrite (bind_Ok _ _ _ _ _ Hch).
  destruct (children_sound _ (verify_blockref_ro addr opts fuel) _ (verify_sound fuel) sc2 sc3 (uncounted own) Hch Hd2)
    as (k & ds' & Hm' & Hd3 & _); [by rewrite Hdr|].
  assert (ds' = ds) as ->.
  { apply (mapM_mono _ (max k fuel)) in Hm; [|lia]. apply (mapM_mono _ (max k fuel)) in Hm'; [|lia]. congruence. }
  pose proof (children_nonneg _ _ _ Hm) as (_ & _ & _ & _ & _ & _ & _ & _ & _ & H2).
  destruct (verify_end_ok b n sc3) as (sc' & Hv & Hty'); [rewrite Hd3; cbn in *; unfold in_s; lia|done|].
  exists sc'. split; [exact Hv|congruence].
Qed.
End verify.
