(* ===== verification/H2FsckNew.v ===== *)
(** * H2FsckNew: fsck_hammer2 on a file system that newfs_hammer2 made

    The trees of a new file system and their totals. *)

From stdpp Require Import sorting.
From S2P Require Import Prelude HammerDisk Layout Crc32 HammerCrc Xxhash XxhashProps CMonad Ondisk CacheInv H2Disk H2Volumes H2Mkfs H2Header H2Verify H2Accept H2Inode H2Format H2Newfs H2Reopen H2Roundtrip H2Fsck H2FsckRead H2FsckTree H2FsckVerify.

#[local] Opaque Z.to_nat.

(** ** Decoding what was read *)

Lemma decode_prefix {A} `{OnDisk A} (m : bytes) (x : A) :
  valid x -> take (sizeof A) m = encode x -> decode m = x.
Proof.
  intros Hv Hm. rewrite <- (take_drop (sizeof A) m), Hm. by apply decode_encode_app.
Qed.

Lemma zero_bref_encode : encode zero_bref = replicate 128 0.
Proof. vm_compute. reflexivity. Qed.

(** Block references at the front of a cleared block set. *)
Lemma dec_blockset brefs n :
  Forall valid brefs -> (length brefs <= n)%nat ->
  dec_array n (splice (replicate (128 * n) 0) 0 (enc_array brefs)) = brefs ++ replicate (n - length brefs) zero_bref.
Proof.
  intros Hv Hl. assert (enc_array (replicate (n - length brefs) zero_bref) = replicate (128 * (n - length brefs)) 0) as Hz.
  { generalize (n - length brefs)%nat. intros k. unfold enc_array. induction k as [|k IH]; [done|]. cbn [replicate].
    rewrite bind_cons, IH, zero_bref_encode, <- replicate_add. f_equal. lia. }
  assert (valid_array n (brefs ++ replicate (n - length brefs) zero_bref)) as Hva.
  { split; [rewrite length_app, length_replicate; lia|]. apply Forall_app. split; [done|]. apply Forall_replicate, zero_bref_valid. }
  rewrite <- (dec_enc_array n _ Hva). f_equal. unfold enc_array. rewrite bind_app. fold (enc_array brefs).
  fold (enc_array (replicate (n - length brefs) zero_bref)). rewrite Hz.
  assert (valid_array (length brefs) brefs) as Hvb by done.
  pose proof (length_enc_array _ _ Hvb) as Hle. change (sizeof hammer2_blockref) with 128%nat in Hle.
  rewrite splice_zero by lia. f_equal. f_equal. lia.
Qed.

(** ** Check codes that newfs_hammer2 stores *)

Lemma avalanche64_range h : in_u 64 (avalanche64 h).
Proof.
  unfold avalanche64. cbv zeta. set (x := u64 (_ * PRIME64_3)). assert (in_u 64 x) as Hx by (by apply in_u_uwrap).
  apply in_u_lxor; [done|done|]. apply in_u_shiftr; [done|done|done].
Qed.

Lemma h2_XXH64_range data seed : in_u 64 (h2_XXH64 data seed).
Proof.
  unfold h2_XXH64, XXH64. cbv zeta. cbn [andb].
  assert (forall e a, in_u 64 (XXH64_endian_align XXH_littleEndian data seed e a)) as Hr.
  { intros e a. unfold XXH64_endian_align. cbv zeta. destruct (if bool_decide _ then _ else _) as [h p].
    unfold finish64. destruct (words64 _ _ _ _) as [h1 p1]. destruct (half64 _ _ _) as [h2 p2]. apply avalanche64_range. }
  repeat (destruct (if bool_decide _ then _ else _)); apply Hr.
Qed.

Lemma inode_bref_check key comp flags data base :
  check_good (set_inode_bref key comp flags (h2_XXH64 data XXH_HAMMER2_SEED) (direct_bref base)) data = true.
Proof.
  unfold check_good. cbv zeta.
  assert (HAMMER2_DEC_CHECK (bref_methods (set_inode_bref key comp flags (h2_XXH64 data XXH_HAMMER2_SEED) (direct_bref base)))
          = HAMMER2_CHECK_XXHASH64) as ->.
  { cbn [bref_methods set_inode_bref]. unfold HAMMER2_DEC_CHECK, HAMMER2_ENC_CHECK, HAMMER2_ENC_COMP.
    change ((HAMMER2_CHECK_XXHASH64 .& 15) .<< 4) with (3 .<< 4). rewrite lor_shiftl_add; [|done|apply in_u_land_r; done].
    rewrite Z.shiftr_div_pow2 by done. assert (in_u 4 (comp .& 15)) as Hc by (apply in_u_land_r; done).
    assert ((3 * 2 ^ 4 + (comp .& 15)) / 2 ^ 4 = 3) as -> by (unfold in_u in Hc; clear -Hc; dlia). done. }
  bd_const. apply bool_decide_eq_true_2. unfold xxhash64_value. cbn [bref_check set_inode_bref direct_bref].
  rewrite splice_zero by (rewrite le_bytes_length; lia). rewrite take_app_length' by (by rewrite le_bytes_length).
  apply of_le_le_bytes. apply h2_XXH64_range.
Qed.

(** ** The trees *)

(** The totals of an empty block reference and of an inode of its own. *)
Definition empty_delta (opts : fsck_options) : delta_stats_t :=
  {| ds_total_blockref := one (CountEmpty opts); ds_total_empty := one (CountEmpty opts); ds_total_bytes := 0;
     ds_total_inode := 0; ds_total_indirect := 0; ds_total_data := 0; ds_total_dirent := 0;
     ds_total_freemap_node := 0; ds_total_freemap_leaf := 0; ds_count := 1 |}.
Definition inode_delta : delta_stats_t :=
  {| ds_total_blockref := 1; ds_total_empty := 0; ds_total_bytes := HAMMER2_INODE_BYTES; ds_total_inode := 1;
     ds_total_indirect := 0; ds_total_data := 0; ds_total_dirent := 0; ds_total_freemap_node := 0;
     ds_total_freemap_leaf := 0; ds_count := 1 |}.

Section fresh.
Context (opts : fsck_options) (s : h2state) (vols : list hammer2_volume) (files : list file).
Context (Hopen : open_fs s vols files) (v0 : hammer2_volume) (f0 : file).
Context (Hv0 : vols !! O = Some v0) (Hf0 : files !! O = Some f0).

Lemma first_read off n : 0 <= off < hv_size v0 -> fs_read vols files off n = Some (file_read f0 off n).
Proof using Hopen Hv0 Hf0.
  intros Ho. unfold fs_read. destruct vols as [|w vols']; [done|]. cbn in Hv0. injection Hv0 as ->.
  rewrite fmap_cons. cbn. rewrite bool_decide_eq_true_2 by lia. cbn. by rewrite Hf0.
Qed.

(** An aligned block of the root volume. *)
Lemma first_block b n :
  in_u 64 (bref_data_off b) -> 1 <= bref_radix b <= 16 -> bref_off b mod 2 ^ bref_radix b = 0 -> n = 2 ^ bref_radix b ->
  0 <= bref_off b < hv_size v0 ->
  exists m, block s b = Some (n, m) /\ take (Z.to_nat n) m = file_read f0 (bref_off b) (Z.to_nat n) /\ n <= Z.of_nat (length m).
Proof using Hopen Hv0 Hf0.
  intros Hd Hr Hal -> Ho. destruct (read_media_spec s vols files b _ Hopen Hd Hr Hal (first_read _ _ Ho)) as (m & Hm & Ht & _ & Hl).
  exists m. unfold block. rewrite Hm. done.
Qed.

Lemma zero_block : block s zero_bref = Some (0, []).
Proof. unfold block, read_media. cbn [bref_data_off zero_bref]. change (0 .& HAMMER2_OFF_MASK_RADIX) with 0. bd_const. reflexivity. Qed.

Lemma zero_tree d : tree_delta s opts (S d) zero_bref = Some (empty_delta opts).
Proof.
  cbn [tree_delta]. rewrite zero_block. cbn [mbind option_bind]. unfold own_delta. cbv zeta. cbn [bref_type zero_bref]. bd_const.
  cbn [andb orb negb]. rewrite orb_true_r. cbn. unfold leaf_ok. cbn [bref_data_off zero_bref]. bd_const. cbn [andb negb].
  unfold empty_delta. by destruct (CountEmpty opts).
Qed.

Lemma zero_trees d n : mapM (tree_delta s opts (S d)) (replicate n zero_bref) = Some (replicate n (empty_delta opts)).
Proof. apply mapM_Some. induction n as [|n IH]; cbn [replicate]; constructor; [apply zero_tree|exact IH]. Qed.

(** ** The inodes *)

Context (uuid_generate : nat -> bytes) (now : Z) (opt : hammer2_mkfs_options).
Context (Huuid : forall i, raw 16 (uuid_generate i)) (Hnow : in_u 64 now).
Context (Hclid : raw 16 (Hammer2_SupCLID opt)) (Hfsid : raw 16 (Hammer2_SupFSID opt)).
Context (Hlabels : Forall label_ok (Label opt)) (Hnlabels : (length (Label opt) <= 4)%nat).
Context (base : Z) (Hbase : base mod HAMMER2_PBUFSIZE = 0) (Hfit : 0 <= base < 2 ^ 62 /\ base + HAMMER2_PBUFSIZE <= hv_size v0).
Context (Hblk : file_read f0 base (Z.to_nat HAMMER2_PBUFSIZE) = inode_block uuid_generate now opt base).

(** The inode [k] of the block, [x], and a reference to it. *)
Lemma inode_read k key comp flags x :
  (k <= 4)%nat -> valid x -> take 1024 (drop (1024 * k) (inode_block uuid_generate now opt base)) = encode x ->
  let b := set_inode_bref key comp flags (h2_XXH64 (encode x) XXH_HAMMER2_SEED) (direct_bref (base + HAMMER2_INODE_BYTES * Z.of_nat k)) in
  exists m, block s b = Some (HAMMER2_INODE_BYTES, m) /\ check_good b (take (Z.to_nat HAMMER2_INODE_BYTES) m) = true /\
    read_at hammer2_inode_data m 0 = x.
Proof using All.
  intros Hk Hv Himg b. set (off := base + HAMMER2_INODE_BYTES * Z.of_nat k).
  assert (bref_data_off b = off + HAMMER2_RADIX_MIN) as Hdo by reflexivity.
  assert (off mod 1024 = 0) as Hoff by (unfold off; clear -Hbase; h2_unfold; dlia).
  assert (bref_radix b = 10) as Hr by (unfold bref_radix; rewrite Hdo; clear -Hoff; h2_unfold; dlia).
  assert (bref_off b = off) as Ho by (unfold bref_off; rewrite Hdo; clear -Hoff; h2_unfold; dlia).
  destruct (first_block b HAMMER2_INODE_BYTES) as (m & Hm & Ht & Hl).
  - rewrite Hdo. unfold in_u, off. clear -Hfit Hk. h2_unfold. lia.
  - rewrite Hr. lia.
  - by rewrite Hr, Ho.
  - by rewrite Hr.
  - rewrite Ho. unfold off. clear -Hfit Hk. h2_unfold. lia.
  - assert (take (Z.to_nat HAMMER2_INODE_BYTES) m = encode x) as Hd.
    { rewrite Ht, Ho, <- Himg, <- Hblk. unfold off.
      replace (base + HAMMER2_INODE_BYTES * Z.of_nat k) with (base + Z.of_nat (1024 * k)) by (h2_unfold; lia).
      rewrite file_read_take_drop by (clear -Hk; h2_unfold; lia). done. }
    exists m. split_and!; [done|rewrite Hd; apply inode_bref_check|].
    unfold read_at. rewrite drop_0. apply decode_prefix; [done|]. rewrite sizeof_inode. exact Hd.
Qed.

(** The tree of an inode with the block set [brefs]. *)
Lemma inode_tree d k key comp flags x brefs ds :
  (k <= 4)%nat -> valid x -> take 1024 (drop (1024 * k) (inode_block uuid_generate now opt base)) = encode x ->
  im_op_flags (id_meta x) .& HAMMER2_OPFLAG_DIRECTDATA = 0 -> dec_array 4 (id_u x) = brefs ->
  mapM (tree_delta s opts d) brefs = Some ds ->
  tree_delta s opts (S d)
    (set_inode_bref key comp flags (h2_XXH64 (encode x) XXH_HAMMER2_SEED) (direct_bref (base + HAMMER2_INODE_BYTES * Z.of_nat k)))
  = Some (plus_delta inode_delta (sum_deltas ds)).
Proof using All.
  intros Hk Hv Himg Hop Hbs Hds. destruct (inode_read k key comp flags x Hk Hv Himg) as (m & Hm & Hck & Hx). cbv zeta in *.
  set (b := set_inode_bref _ _ _ _ _) in *. cbn [tree_delta]. rewrite Hm. cbn [mbind option_bind].
  assert (own_delta opts b HAMMER2_INODE_BYTES = Some inode_delta) as ->.
  { unfold own_delta. cbv zeta. change (bref_type b) with HAMMER2_BREF_TYPE_INODE. bd_const. cbn [orb andb negb].
    rewrite ?orb_true_r. done. }
  cbn [mbind option_bind]. rewrite bool_decide_eq_false_2 by done. rewrite Hck.
  assert (children (bref_type b) m HAMMER2_INODE_BYTES = brefs) as ->.
  { unfold children. change (bref_type b) with HAMMER2_BREF_TYPE_INODE. bd_const. rewrite Hx.
    rewrite bool_decide_eq_true_2 by done. unfold inode_blockset. rewrite Hx. by replace (Z.to_nat HAMMER2_SET_COUNT) with 4%nat by (h2_unfold; lia). }
  by rewrite Hds.
Qed.

Definition root_delta : delta_stats_t := plus_delta inode_delta (sum_deltas (replicate 4 (empty_delta opts))).

Lemma root_tree d i label : Label opt !! i = Some label -> tree_delta s opts (S (S d)) (root_bref uuid_generate now opt base i label) = Some root_delta.
Proof using All.
  intros Hl. pose proof (Forall_lookup_1 _ _ _ _ Hlabels Hl) as Hlok. pose proof (lookup_lt_Some _ _ _ Hl) as Hi.
  pose proof (root_inode_valid uuid_generate now opt Huuid Hnow i label Hlok) as Hx.
  apply (inode_tree (S d) (S i) _ _ _ (root_inode uuid_generate now opt i label) (replicate 4 zero_bref)); [lia|done| | | |apply zero_trees].
  - unfold inode_block. apply inode_buf_image.
    + destruct (root_brefs_valid uuid_generate now opt base Hlabels Hnlabels ltac:(lia)) as [Hbv Hbl].
      rewrite length_encode; [by rewrite sizeof_inode|]. apply sroot_inode_valid; [done|done|done|done|lia].
    + by apply root_inodes_valid.
    + unfold root_inodes. by rewrite list_lookup_imap, Hl.
  - unfold root_inode, set_root_inode. cbn [id_meta im_op_flags]. reflexivity.
  - unfold root_inode, set_root_inode. cbn [id_u]. rewrite zero_inode_u.
    apply (dec_blockset [] 4); [constructor|cbn; lia].
Qed.

Definition sroot_delta : delta_stats_t :=
  let k := length (Label opt) in
  plus_delta inode_delta (sum_deltas (replicate k root_delta ++ replicate (4 - k) (empty_delta opts))).

Lemma root_trees d brefs :
  brefs ≡ₚ imap (root_bref uuid_generate now opt base) (Label opt) ->
  mapM (tree_delta s opts (S (S d))) brefs = Some (replicate (length (Label opt)) root_delta).
Proof using All.
  intros Hp. apply mapM_Some. assert (length brefs = length (Label opt)) as Hl by (rewrite Hp; apply length_imap).
  rewrite <- Hl. clear Hl. assert (Forall (λ b, tree_delta s opts (S (S d)) b = Some root_delta) brefs) as Hall.
  { rewrite Hp. apply Forall_lookup. intros i b Hb. rewrite list_lookup_imap in Hb.
    destruct (Label opt !! i) as [label|] eqn:E; [|done]. injection Hb as <-. by apply root_tree. }
  clear Hp. induction Hall as [|b brefs Hb _ IH]; cbn [length replicate]; constructor; done.
Qed.

Lemma mapM_app_Some {A B} (f : A -> option B) l1 l2 r1 r2 :
  mapM f l1 = Some r1 -> mapM f l2 = Some r2 -> mapM f (l1 ++ l2) = Some (r1 ++ r2).
Proof. intros H1 H2. apply mapM_Some in H1, H2. apply mapM_Some. by apply Forall2_app. Qed.

Lemma sroot_tree d :
  tree_delta s opts (S (S (S d))) (sroot_bref now opt base (root_brefs uuid_generate now opt base)) = Some sroot_delta.
Proof using All.
  destruct (root_brefs_valid uuid_generate now opt base Hlabels Hnlabels ltac:(lia)) as [Hbv Hbl].
  assert (valid (sroot_inode now opt (root_brefs uuid_generate now opt base))) as Hx by (apply sroot_inode_valid; [done|done|done|done|lia]).
  pose proof (inode_tree (S (S d)) 0 0 HAMMER2_COMP_AUTOZERO 0 (sroot_inode now opt (root_brefs uuid_generate now opt base))
    (root_brefs uuid_generate now opt base ++ replicate (4 - length (Label opt)) zero_bref)
    (replicate (length (Label opt)) root_delta ++ replicate (4 - length (Label opt)) (empty_delta opts))) as Htree.
  rewrite Z.mul_0_r, Z.add_0_r in Htree. apply Htree; clear Htree; [lia|done| |reflexivity| |].
  - rewrite drop_0. unfold inode_block, inode_buf. apply take_app_length'. by rewrite length_encode, sizeof_inode.
  - unfold sroot_inode, set_sroot_inode. cbn [id_u]. rewrite zero_inode_u. rewrite (dec_blockset _ 4) by (done || lia). by rewrite Hbl.
  - apply mapM_app_Some; [apply root_trees; unfold root_brefs; apply qsort_perm|apply zero_trees].
Qed.

(** ** The zones *)

Context (vd : hammer2_volume_data) (Hvd : valid vd).
Context (Hhdr : forall j, 0 <= j < HAMMER2_NUM_VOLHDRS -> j * HAMMER2_ZONE_BYTES64 < hv_size v0 -> header_at f0 j = encode vd).
Context (Hsroot : vd_sroot_blockset vd = sroot_bref now opt base (root_brefs uuid_generate now opt base) :: replicate 3 zero_bref).
Context (Hfreemap : vd_freemap_blockset vd = replicate 4 zero_bref).

Definition volume_delta : delta_stats_t := plus_delta tick (sum_deltas (sroot_delta :: replicate 3 (empty_delta opts))).
Definition freemap_delta : delta_stats_t := plus_delta tick (sum_deltas (replicate 4 (empty_delta opts))).

Lemma zone_block j type :
  0 <= j < HAMMER2_NUM_VOLHDRS -> j * HAMMER2_ZONE_BYTES64 < hv_size v0 ->
  exists m, block s (root_blockref j type) = Some (HAMMER2_PBUFSIZE, m) /\ decode m = vd.
Proof using All.
  intros Hj Hz. set (b := root_blockref j type). assert (bref_data_off b = j * HAMMER2_ZONE_BYTES64 + 16) as Hdo.
  { unfold b, root_blockref. cbn [bref_data_off]. change HAMMER2_ZONE_BYTES64 with (2 ^ 31).
    rewrite <- Z.shiftl_mul_pow2 by done. unfold HAMMER2_PBUFRADIX. rewrite lor_shiftl_add by done. rewrite Z.shiftl_mul_pow2 by done. done. }
  assert (bref_radix b = 16) as Hr by (unfold bref_radix; rewrite Hdo; clear; h2_unfold; dlia).
  assert (bref_off b = j * HAMMER2_ZONE_BYTES64) as Ho by (unfold bref_off; rewrite Hdo; clear; h2_unfold; dlia).
  destruct (first_block b HAMMER2_PBUFSIZE) as (m & Hm & Ht & Hl).
  - rewrite Hdo. unfold in_u. clear -Hj. h2_unfold. lia.
  - rewrite Hr. lia.
  - rewrite Hr, Ho. clear. h2_unfold. dlia.
  - by rewrite Hr.
  - rewrite Ho. clear -Hj Hz. h2_unfold. lia.
  - exists m. split; [done|]. apply decode_prefix; [done|]. rewrite sizeof_volume_data.
    change 65536 with HAMMER2_PBUFSIZE. rewrite Ht, Ho. by apply Hhdr.
Qed.

Lemma zone_tree d j type brefs ds :
  0 <= j < HAMMER2_NUM_VOLHDRS -> j * HAMMER2_ZONE_BYTES64 < hv_size v0 ->
  (type = HAMMER2_BREF_TYPE_VOLUME /\ vd_sroot_blockset vd = brefs \/ type = HAMMER2_BREF_TYPE_FREEMAP /\ vd_freemap_blockset vd = brefs) ->
  mapM (tree_delta s opts d) brefs = Some ds ->
  tree_delta s opts (S d) (root_blockref j type) = Some (plus_delta tick (sum_deltas ds)).
Proof using All.
  intros Hj Hz Hty Hds. destruct (zone_block j type Hj Hz) as (m & Hm & Hdec). cbn [tree_delta]. rewrite Hm. cbn [mbind option_bind].
  assert (own_delta opts (root_blockref j type) HAMMER2_PBUFSIZE = Some tick) as ->.
  { unfold own_delta. cbv zeta. cbn [bref_type root_blockref]. destruct Hty as [[-> _]|[-> _]]; bd_const; cbn [orb andb negb one];
      rewrite ?orb_true_r; cbn [andb]; done. }
  cbn [mbind option_bind]. rewrite bool_decide_eq_false_2 by done.
  assert (check_good (root_blockref j type) (take (Z.to_nat HAMMER2_PBUFSIZE) m) = true) as -> by reflexivity.
  assert (children (bref_type (root_blockref j type)) m HAMMER2_PBUFSIZE = brefs) as ->; [|by rewrite Hds].
  unfold children. cbn [bref_type root_blockref]. rewrite Hdec. destruct Hty as [[-> Hb]|[-> Hb]]; bd_const; exact Hb.
Qed.

Lemma volume_tree d j :
  0 <= j < HAMMER2_NUM_VOLHDRS -> j * HAMMER2_ZONE_BYTES64 < hv_size v0 ->
  tree_delta s opts (S (S (S (S d)))) (root_blockref j HAMMER2_BREF_TYPE_VOLUME) = Some volume_delta.
Proof using All.
  intros Hj Hz. unfold volume_delta. eapply zone_tree; [done|done|left; split; [done|exact Hsroot]|].
  apply (mapM_app_Some _ [_] (replicate 3 zero_bref) [sroot_delta]); [|apply zero_trees].
  cbn [mapM]. by rewrite sroot_tree.
Qed.

Lemma freemap_tree d j :
  0 <= j < HAMMER2_NUM_VOLHDRS -> j * HAMMER2_ZONE_BYTES64 < hv_size v0 ->
  tree_delta s opts (S (S d)) (root_blockref j HAMMER2_BREF_TYPE_FREEMAP) = Some freemap_delta.
Proof using All.
  intros Hj Hz. unfold freemap_delta. eapply zone_tree; [done|done|right; split; [done|exact Hfreemap]|apply zero_trees].
Qed.
End fresh.

(** ** From newfs_hammer2 to fsck_hammer2 *)

Lemma expected_blocksets uuid_generate now opt o vol c1 c0 cv :
  hv_id vol = HAMMER2_ROOT_VOLUME ->
  let vd := with_crcs c1 c0 cv (expected_header uuid_generate now opt o vol) in
  vd_sroot_blockset vd = sroot_bref now opt (inode_base opt) (root_brefs uuid_generate now opt (inode_base opt)) :: replicate 3 zero_bref /\
  vd_freemap_blockset vd = replicate 4 zero_bref.
Proof.
  intros Hid. cbv zeta. unfold with_crcs, expected_header, volume_header.
  cbn [set_icrc_volheader set_icrc_sect vd_sroot_blockset vd_freemap_blockset]. by rewrite !(bool_decide_eq_true_2 _ Hid).
Qed.

Section newfs.
Context (uuid_generate : nat -> bytes) (now : Z) (y : system) (devs : list device) (opt : hammer2_mkfs_options) (s1 : h2state).
Context (Huuid : forall i, raw 16 (uuid_generate i)) (Hnow : in_u 64 now) (Hok : mkfs_ok y devs opt).
Context (fd : Z) (l : list (file * hammer2_volume_data)) (Hl : length l = length devs).
Context (Hmade : forall k v d df, mkfs_vols fd devs !! k = Some v -> devs !! k = Some d -> l !! k = Some df ->
  made uuid_generate now devs opt s1 fd v d df).
Context (Hbytes : forall ino nd, nodes y !! ino = Some nd -> forall i, in_u 8 (f_data (nd_file nd) i)).
Context (Hsame : forall ino, ino ∉ d_ino <$> devs -> nodes (sys s1) !! ino = nodes y !! ino).
Context (s2 : h2state) (Hre : reopened (sys s1) (new_devs devs l) (mkfs_vols fd devs) s2).

Lemma new_files_ok : files_ok s2.
Proof using All.
  destruct Hre as [Hy _]. intros ino nd Hn. rewrite Hy in Hn. destruct (decide (ino ∈ d_ino <$> devs)) as [Hin|Hin].
  - apply list_elem_of_lookup in Hin as [k Hk]. rewrite list_lookup_fmap in Hk. destruct (devs !! k) as [d|] eqn:Hd; [|done].
    injection Hk as <-. destruct (lookup_lt_is_Some_2 l k) as [df Hdf]; [rewrite Hl; by eapply lookup_lt_Some|].
    destruct (mkfs_vols_dev devs fd k d Hd) as (v & Hv & _). pose proof (Hmade k v d df Hv Hd Hdf) as Hm. destruct df as [f' vd].
    destruct Hm as (Hn' & (_ & [_ Hf] & _) & _). rewrite Hn in Hn'. injection Hn' as ->. exact Hf.
  - rewrite Hsame in Hn by done. by apply (Hbytes ino).
Qed.

Lemma new_open_fs : exists vols', open_fs s2 vols' l.*1 /\ hv_size <$> vols' = hv_size <$> mkfs_vols fd devs.
Proof using All.
  destruct Hre as (Hy & vols' & Hare & Hlen & _ & Hvol). exists vols'. rewrite length_new_devs in Hlen by done.
  destruct (mkfs_vols_total y devs opt Hok fd) as [Hsum Htot].
  assert (forall k v', vols' !! k = Some v' -> exists d df v, devs !! k = Some d /\ l !! k = Some df /\ mkfs_vols fd devs !! k = Some v /\
    hv_size v' = hv_size v /\ fds s2 !! hv_fd v' = Some (d_ino d)) as Hall.
  { intros k v' Hv'. pose proof (lookup_lt_Some _ _ _ Hv') as Hk.
    destruct (lookup_lt_is_Some_2 devs k) as [d Hd]; [lia|]. destruct (lookup_lt_is_Some_2 l k) as [df Hdf]; [lia|].
    destruct (mkfs_vols_dev devs fd k d Hd) as (v & Hv & _).
    destruct (Hvol k _ v (new_devs_lookup devs l k d df Hd Hdf) Hv) as (w & Hw & _ & _ & _ & Hs & Hfd & _).
    rewrite Hv' in Hw. injection Hw as <-. by exists d, df, v. }
  assert (hv_size <$> vols' = hv_size <$> mkfs_vols fd devs) as Hsz.
  { apply list_eq_same_length with (length devs); [by rewrite length_fmap, length_mkfs_vols|by rewrite length_fmap|].
    intros k a b _ Ha Hb. rewrite list_lookup_fmap in Ha, Hb. destruct (vols' !! k) as [v'|] eqn:Hv'; [|done]. injection Ha as <-.
    destruct (Hall k v' Hv') as (d & df & v & _ & _ & Hv & Hs & _). rewrite Hv in Hb. injection Hb as <-. done. }
  split; [|done]. split_and!; [done|rewrite Hsz; lia|].
  apply Forall2_same_length_lookup_2; [by rewrite length_fmap, Hl|]. intros k v' f Hv' Hf.
  destruct (Hall k v' Hv') as (d & df & v & Hd & Hdf & Hv & Hs & Hfd). rewrite list_lookup_fmap, Hdf in Hf. injection Hf as <-.
  pose proof (Hmade k v d df Hv Hd Hdf) as Hm. destruct df as [f' vd]. destruct Hm as (Hn & (Hfs & _ & _) & _).
  destruct (mkfs_vol_size y devs opt Hok k d Hd) as (Hvs & Hal & _). pose proof (device_size_63 y devs opt Hok k d Hd).
  destruct (mkfs_vols_dev devs fd k d Hd) as (w & Hw & _ & _ & _ & Hws). rewrite Hv in Hw. injection Hw as <-.
  exists (d_ino d), (set_nd_file f' (d_node d)). split_and!.
  - unfold fd_node. rewrite Hfd. cbn. rewrite Hy, Hn. done.
  - done.
  - rewrite Hs, Hws. cbn. change (f_size f' = d_size d) in Hfs. lia.
  - cbn. change (f_size f' = d_size d) in Hfs. lia.
  - rewrite Hs, Hws. clear -Hal. h2_unfold. dlia.
Qed.
End newfs.

(** newfs_hammer2 does not change the sizes of files. *)
Lemma new_sizes_ok uuid_generate now y devs opt s1 fd :
  devs_formatted uuid_generate now (adjusted (fs_size devs) opt) (mkfs_ondisk fd devs opt) s1 (mkfs_vols fd devs) devs ->
  (forall ino, ino ∉ d_ino <$> devs -> nodes (sys s1) !! ino = nodes y !! ino) ->
  Forall (device_ok y) devs -> sizes_ok (start y) -> sizes_ok s1.
Proof.
  intros Hform Hsame Hdev Hs ino nd Hn. destruct (decide (ino ∈ d_ino <$> devs)) as [Hin|Hin].
  - apply list_elem_of_lookup in Hin as [k Hk]. rewrite list_lookup_fmap in Hk. destruct (devs !! k) as [d|] eqn:Hd; [|done].
    injection Hk as <-. destruct (Forall2_lookup_r _ _ _ _ _ Hform Hd) as (v & _ & f' & Hn' & Hsz & _).
    rewrite Hn in Hn'. injection Hn' as ->. cbn. rewrite Hsz.
    destruct (Forall_lookup_1 _ _ _ _ Hdev Hd) as (_ & Hnd & _). by apply (Hs (d_ino d)).
  - rewrite Hsame in Hn by done. by apply (Hs ino).
Qed.
