(* ===== verification/H2FsckTest.v ===== *)
(** * H2FsckTest: the tests of fsck_hammer2 over the zones

    What [test_blockref] and [test_volume_header] say of the copies of the root volume
    header and the trees below them. *)

From S2P Require Import Prelude HammerDisk Layout Crc32 CMonad Ondisk CacheInv H2Disk H2Volumes H2Header H2Verify H2Fsck H2FsckRead H2FsckTree H2FsckVerify.

#[local] Opaque Z.to_nat.

(** The zones of a root volume of [size] bytes, from [i] on. *)
Fixpoint zones (n : nat) (i size : Z) : list Z :=
  match n with
  | O => []
  | S n => if bool_decide (size <= i * HAMMER2_ZONE_BYTES64) then [] else i :: zones n (i + 1) size
  end.
Definition all_zones_of (size : Z) : list Z := zones (Z.to_nat HAMMER2_NUM_VOLHDRS) 0 size.

Lemma zones_elem n : forall i size j,
  j ∈ zones n i size <-> i <= j < i + Z.of_nat n /\ (forall k, i <= k <= j -> k * HAMMER2_ZONE_BYTES64 < size).
Proof.
  induction n as [|n IH]; intros i size j; cbn [zones].
  { split; [intros Hj; by apply elem_of_nil in Hj|lia]. }
  case_bool_decide as Hs.
  - split; [intros Hj; by apply elem_of_nil in Hj|]. intros [Hj Hk]. specialize (Hk i ltac:(lia)). lia.
  - rewrite elem_of_cons, IH. split.
    + intros [->|[Hj Hk]]; [split; [lia|]; intros k Hk; replace k with i by lia; lia|]. split; [lia|].
      intros k Hki. destruct (decide (k = i)) as [->|]; [lia|]. apply Hk. lia.
    + intros [Hj Hk]. destruct (decide (j = i)) as [->|]; [by left|right]. split; [lia|]. intros k Hki. apply Hk. lia.
Qed.

Lemma all_zones_elem size j :
  j ∈ all_zones_of size <-> 0 <= j < HAMMER2_NUM_VOLHDRS /\ j * HAMMER2_ZONE_BYTES64 < size.
Proof.
  unfold all_zones_of. rewrite zones_elem. split.
  - intros [Hj Hk]. split; [h2_unfold; lia|]. apply Hk. lia.
  - intros [Hj Hk]. split; [h2_unfold; lia|]. intros k Hkj. h2_unfold. lia.
Qed.

(** ** Programs that only read, continued *)

Lemma get_root_fd_ro : read_only hammer2_get_root_volume_fd.
Proof. apply get_volume_fd_ro. Qed.
Lemma get_root_offset_ro : read_only hammer2_get_root_volume_offset.
Proof. apply get_volume_offset_ro. Qed.
Lemma get_root_size_ro : read_only hammer2_get_root_volume_size.
Proof. unfold hammer2_get_root_volume_size, hammer2_get_volume_size, get_attr. ro. Qed.
#[export] Hint Resolve get_root_fd_ro get_root_offset_ro get_root_size_ro : read_only.
Lemma read_zone_ro i type : read_only (read_zone i type).
Proof. unfold read_zone, init_root_blockref. cbv zeta. ro. Qed.
#[export] Hint Resolve read_zone_ro : read_only.
Lemma test_tree_ro addr opts fuel type b ts : read_only (test_tree addr opts fuel type b ts).
Proof. unfold test_tree. ro. Qed.
#[export] Hint Resolve test_tree_ro : read_only.
Lemma scan_zones_ro {A} opts best type (body : hammer2_blockref -> bytes -> A -> H A) :
  (forall b p a, read_only (body b p a)) -> forall n i acc, read_only (scan_zones opts best type body n i acc).
Proof. intros Hb n. induction n as [|n IH]; intros i acc; cbn [scan_zones]; ro. Qed.

(** ** The root volume *)

Section test.
Context (s : h2state) (vols : list hammer2_volume) (files : list file) (Hopen : open_fs s vols files).
Context (v0 : hammer2_volume) (f0 : file) (Hv0 : vols !! O = Some v0) (Hf0 : files !! O = Some f0) (Hpos : 0 < hv_size v0).

Lemma root_attr : hammer2_get_volume_attr 0 s = Ok (Some v0) s /\ hv_offset v0 = 0.
Proof using Hopen Hv0 Hpos.
  pose proof Hopen as (Hare & _ & _). pose proof Hare as (_ & _ & _ & Ht & _).
  rewrite (get_volume_attr_tiles s vols 0 Hare) by done. change (0 .& _) with 0.
  destruct (tiles_lookup _ _ _ _ _ Ht Hv0) as [_ Hoff]. split; [|done].
  assert (volume_of (hv_size <$> vols) 0 = Some (O, 0)) as ->; [|by rewrite Hv0].
  destruct vols as [|w ws]; [done|]. cbn in Hv0. injection Hv0 as ->. rewrite fmap_cons. cbn. by rewrite bool_decide_eq_true_2 by lia.
Qed.

Lemma root_size : hammer2_get_root_volume_size s = Ok (hv_size v0) s.
Proof using Hopen Hv0 Hpos.
  destruct root_attr as [Ha _]. unfold hammer2_get_root_volume_size, hammer2_get_volume_size, get_attr. by rewrite (bind_Ok _ _ _ _ _ Ha).
Qed.

Lemma read_zone_spec i type :
  type = HAMMER2_BREF_TYPE_EMPTY \/ type = HAMMER2_BREF_TYPE_VOLUME \/ type = HAMMER2_BREF_TYPE_FREEMAP ->
  i ∈ all_zones_of (hv_size v0) ->
  read_zone i type s = Ok (root_blockref i type, Some (header_at f0 i)) s.
Proof using All.
  intros Hty Hi. apply all_zones_elem in Hi as [Hi Hz]. destruct root_attr as [Ha Hoff].
  pose proof Hopen as (_ & _ & Hall). destruct (Forall2_lookup_lr _ _ _ _ _ _ Hall Hv0 Hf0) as (ino & nd & Hfd & <- & Hsz & Hmod).
  assert (bref_data_off (root_blockref i type) .& bnot 64 HAMMER2_OFF_MASK_RADIX = i * HAMMER2_ZONE_BYTES64) as Hm.
  { cbn [bref_data_off root_blockref]. change HAMMER2_ZONE_BYTES64 with (2 ^ 31).
    rewrite <- Z.shiftl_mul_pow2 by done. unfold HAMMER2_PBUFRADIX. rewrite lor_shiftl_add by done.
    change HAMMER2_OFF_MASK_RADIX with (Z.ones 6). rewrite land_bnot_ones; [|done|unfold in_u; clear -Hi; h2_unfold; lia].
    rewrite Z.shiftl_mul_pow2 by done. clear. dlia. }
  unfold read_zone, init_root_blockref. cbv zeta.
  rewrite (bind_Ok _ _ s (root_blockref i type, i * HAMMER2_ZONE_BYTES64) s).
  2:{ rewrite (bind_Ok _ _ s () s) by (destruct Hty as [-> | [-> | ->]]; reflexivity).
      unfold hammer2_get_root_volume_fd, hammer2_get_root_volume_offset, hammer2_get_volume_fd, hammer2_get_volume_offset, get_attr.
      rewrite (bind_Ok _ _ s (hv_fd v0) s) by (by rewrite (bind_Ok _ _ _ _ _ Ha)).
      rewrite (bind_Ok _ _ s 0 s) by (by rewrite (bind_Ok _ _ _ _ _ Ha), Hoff).
      rewrite Hm, Z.sub_0_r, uwrap_small, swrap_small by (try done; unfold in_u, in_s; clear -Hi; h2_unfold; lia). reflexivity. }
  unfold hammer2_get_root_volume_fd, hammer2_get_volume_fd, get_attr.
  rewrite (bind_Ok _ _ s (hv_fd v0) s) by (by rewrite (bind_Ok _ _ _ _ _ Ha)).
  rewrite (bind_Ok _ _ _ _ _ (sys_pread_spec _ _ _ _ _ _ Hfd)). unfold pread.
  rewrite bool_decide_eq_false_2 by (clear -Hi; h2_unfold; lia).
  assert (i * HAMMER2_ZONE_BYTES64 + HAMMER2_PBUFSIZE <= hv_size v0) as Hfit.
  { apply mod_fit; [done| |done|done]. clear. h2_unfold. dlia. }
  replace (Z.to_nat (Z.min (Z.of_nat (Z.to_nat HAMMER2_PBUFSIZE)) (f_size (nd_file nd) - i * HAMMER2_ZONE_BYTES64)))
    with (Z.to_nat HAMMER2_PBUFSIZE) by (clear -Hfit Hsz; h2_unfold; lia).
  fold (header_at (nd_file nd) i).
  assert (Z.of_nat (length (header_at (nd_file nd) i)) = HAMMER2_PBUFSIZE) as Hl.
  { unfold header_at. rewrite length_file_read. clear. h2_unfold. lia. }
  cbn [mbind option_bind]. rewrite (bool_decide_eq_true_2 _ Hl). reflexivity.
Qed.

(** ** The loop over the zones *)

Context (opts : fsck_options) (addr : Z).
Definition tree_type (type : Z) : Prop := type = HAMMER2_BREF_TYPE_VOLUME \/ type = HAMMER2_BREF_TYPE_FREEMAP.

Lemma scan_zones_ok {A} best type (body : hammer2_blockref -> bytes -> A -> H A) (I : A -> Prop) :
  type = HAMMER2_BREF_TYPE_EMPTY \/ tree_type type ->
  (forall i acc, i ∈ all_zones_of (hv_size v0) -> I acc ->
     exists acc', body (root_blockref i type) (header_at f0 i) acc s = Ok acc' s /\ I acc') ->
  forall n i acc, 0 <= i -> i + Z.of_nat n = HAMMER2_NUM_VOLHDRS -> I acc ->
  exists acc', scan_zones opts best type body n i acc s = Ok (true, acc') s /\ I acc'.
Proof using All.
  intros Hty Hbody n. induction n as [|n IH]; intros i acc Hi Hn HI; cbn [scan_zones]; [by exists acc|].
  destruct (_ && _); [apply IH; [lia|lia|done]|].
  rewrite (bind_Ok _ _ _ _ _ (root_size)). case_bool_decide as Hs; [by exists acc|].
  assert (i ∈ all_zones_of (hv_size v0)) as Hz by (apply all_zones_elem; lia).
  rewrite (bind_Ok _ _ _ _ _ (read_zone_spec i type ltac:(destruct Hty as [|[|]]; tauto) Hz)).
  destruct (Hbody i acc Hz HI) as (acc' & Hb & HI'). rewrite (bind_Ok _ _ _ _ _ Hb). apply IH; [lia|lia|done].
Qed.

(** ** The trees *)

Context (Hfiles : files_ok s).
#[local] Abbreviation tree := (tree_delta s opts).

Lemma init_stats_all type : init_blockref_stats type = add_all (init_blockref_stats type) zero_delta.
Proof. reflexivity. Qed.

(** One tree that passes. *)
Lemma test_tree_inv fuel type b ts ts' :
  tree_type type -> test_tree addr opts fuel type b ts s = Ok ts' s -> ts_ok ts' = true -> cache_ok s opts (ts_droot ts) ->
  exists depth D, tree depth b = Some D /\ ts_ok ts = true /\ cache_ok s opts (ts_droot ts') /\
    (pure_delta type D -> ts_printed ts' = ts_printed ts ++ [add_all (init_blockref_stats type) D]).
Proof using Hfiles.
  intros Hty Hv Hok Hc. unfold test_tree in Hv. apply bind_Ok_inv in Hv as ([ok sc] & s1 & Hv & Hr).
  pose proof (verify_blockref_ro _ _ _ _ _ _ _ _ _ Hv) as ->. injection Hr as <-. cbn in Hok. apply andb_true_iff in Hok as [Hok ->].
  destruct (verify_sound s opts addr Hfiles fuel b _ sc Hv eq_refl Hc) as (d & D & Ht & _ & Hc' & Hb).
  exists d, D. split_and!; [done|done|done|]. intros Hp. cbn. do 2 f_equal.
  by apply (Hb (init_blockref_stats type) zero_delta).
Qed.

Lemma scan_trees_inv fuel best type n : forall i ts ts',
  ScanBest opts = false -> tree_type type -> 0 <= i -> i + Z.of_nat n = HAMMER2_NUM_VOLHDRS ->
  scan_zones opts best type (λ broot _ ts, test_tree addr opts fuel type broot ts) n i ts s = Ok (true, ts') s ->
  ts_ok ts' = true -> cache_ok s opts (ts_droot ts) ->
  exists Ds, Forall2 (λ j D, exists depth, tree depth (root_blockref j type) = Some D) (zones n i (hv_size v0)) Ds /\
    ts_ok ts = true /\
    (Forall (pure_delta type) Ds -> ts_printed ts' = ts_printed ts ++ (add_all (init_blockref_stats type) <$> Ds)).
Proof using All.
  induction n as [|n IH]; intros i ts ts' Hb Hty Hi Hn Hv Hok Hc; cbn [scan_zones zones] in *.
  { injection Hv as <-. exists []. split_and!; [done|done|]. intros _. by rewrite app_nil_r. }
  rewrite Hb in Hv. cbn [andb] in Hv. rewrite (bind_Ok _ _ _ _ _ root_size) in Hv. case_bool_decide as Hs.
  { injection Hv as <-. exists []. split_and!; [done|done|]. intros _. by rewrite app_nil_r. }
  assert (i ∈ all_zones_of (hv_size v0)) as Hz by (apply all_zones_elem; lia).
  rewrite (bind_Ok _ _ _ _ _ (read_zone_spec i type ltac:(destruct Hty; tauto) Hz)) in Hv.
  apply bind_Ok_inv in Hv as (ts1 & s1 & H1 & Hv). pose proof (test_tree_ro _ _ _ _ _ _ _ _ _ H1) as ->.
  assert (ts_ok ts1 = true) as Hok1.
  { destruct (ts_ok ts1) eqn:E; [done|]. exfalso. clear -Hv Hok E.
    revert i ts1 Hv E. induction n as [|n IH]; intros i ts1 Hv E; cbn [scan_zones] in Hv; [injection Hv as <-; congruence|].
    destruct (_ && _); [by eapply IH|]. apply bind_Ok_inv in Hv as (sz & s1 & H1 & Hv). pose proof (get_root_size_ro _ _ _ H1) as ->.
    case_bool_decide; [injection Hv as <-; congruence|]. apply bind_Ok_inv in Hv as ([b [p|]] & s1 & H2 & Hv); [|done].
    pose proof (read_zone_ro _ _ _ _ _ H2) as ->. apply bind_Ok_inv in Hv as (ts2 & s1 & H3 & Hv).
    pose proof (test_tree_ro _ _ _ _ _ _ _ _ _ H3) as ->. eapply IH; [exact Hv|].
    unfold test_tree in H3. apply bind_Ok_inv in H3 as ([ok sc] & s3 & _ & H3). injection H3 as <-. cbn. by rewrite E. }
  destruct (test_tree_inv fuel type _ ts ts1 Hty H1 Hok1 Hc) as (d & D & Ht & Hok0 & Hc1 & Hp1).
  destruct (IH (i + 1) ts1 ts' Hb Hty ltac:(lia) ltac:(lia) Hv Hok Hc1) as (Ds & Hall & _ & Hp).
  exists (D :: Ds). split_and!; [constructor; [by exists d|done]|done|]. intros Hpure. apply Forall_cons in Hpure as [HpD HpDs].
  rewrite (Hp HpDs), (Hp1 HpD), <- app_assoc. done.
Qed.

(** If the test of the trees passes, every zone has a sound tree and its totals are printed. *)
Lemma test_blockref_sound fuel best type printed s' :
  ScanBest opts = false -> tree_type type -> test_blockref addr opts fuel best type s = Ok (true, printed) s' ->
  exists Ds, Forall2 (λ j D, exists depth, tree depth (root_blockref j type) = Some D) (all_zones_of (hv_size v0)) Ds /\
    (Forall (pure_delta type) Ds -> printed = add_all (init_blockref_stats type) <$> Ds).
Proof using All.
  intros Hb Hty Hv. unfold test_blockref, all_zones in Hv. apply bind_Ok_inv in Hv as ([ret ts] & s1 & Hv & Hr).
  pose proof (scan_zones_ro opts best type _ (fun b p a => test_tree_ro addr opts fuel type b a) _ _ _ _ _ _ Hv) as ->.
  injection Hr as Hret <- _. apply andb_true_iff in Hret as [-> Hok].
  destruct (scan_trees_inv fuel best type (Z.to_nat HAMMER2_NUM_VOLHDRS) 0 init_test ts Hb Hty ltac:(lia) ltac:(h2_unfold; lia) Hv Hok (cache_ok_empty s opts))
    as (Ds & Hall & _ & Hp). by exists Ds.
Qed.

(** If every zone has a sound tree, the test passes. *)
Lemma test_blockref_complete fuel best type D :
  tree_type type -> (forall j, j ∈ all_zones_of (hv_size v0) -> tree fuel (root_blockref j type) = Some D) ->
  ds_count D < 2 ^ 63 -> pure_delta type D ->
  exists printed, test_blockref addr opts fuel best type s = Ok (true, printed) s /\
    Forall (λ b, b = add_all (init_blockref_stats type) D) printed /\
    (ScanBest opts = false -> length printed = length (all_zones_of (hv_size v0))).
Proof using All.
  intros Hty Htree Hcnt Hp. unfold test_blockref, all_zones.
  destruct (scan_zones_ok best type (λ broot _ ts, test_tree addr opts fuel type broot ts)
    (λ ts, ts_ok ts = true /\ cache_ok s opts (ts_droot ts) /\ Forall (λ b, b = add_all (init_blockref_stats type) D) (ts_printed ts)))
    with (n := Z.to_nat HAMMER2_NUM_VOLHDRS) (i := 0) (acc := init_test) as (ts & Hrun & Hok & _ & Hpr).
  - by right.
  - intros i ts Hz (Hok & Hc & Hpr).
    destruct (verify_complete s opts addr Hfiles fuel _ D
      {| sc_bstats := init_blockref_stats type; sc_droot := ts_droot ts; sc_dstats := zero_delta |} (Htree i Hz) Hcnt eq_refl Hc)
      as (sc & Hv & _); [exact Hty|].
    assert (exists ts', test_tree addr opts fuel type (root_blockref i type) ts s = Ok ts' s /\ ts_ok ts' = true) as (ts' & Hts & Hok').
    { unfold test_tree. rewrite (bind_Ok _ _ _ _ _ Hv). eexists. split; [reflexivity|]. cbn. by rewrite Hok. }
    exists ts'. split; [exact Hts|]. destruct (test_tree_inv fuel type _ ts ts' Hty Hts Hok' Hc) as (d & D' & Ht' & _ & Hc' & Hp').
    pose proof (tree_det s opts _ _ _ _ _ (Htree i Hz) Ht') as <-. split_and!; [done|done|]. rewrite (Hp' Hp). apply Forall_app. split; [done|].
    by constructor.
  - done.
  - h2_unfold. lia.
  - split_and!; [done|apply cache_ok_empty|constructor].
  - assert (test_blockref addr opts fuel best type s = Ok (true, ts_printed ts) s) as Hts.
    { unfold test_blockref, all_zones. rewrite (bind_Ok _ _ _ _ _ Hrun), Hok. reflexivity. }
    exists (ts_printed ts). split; [exact Hts|]. split; [done|]. intros Hb.
    destruct (test_blockref_sound fuel best type _ s Hb Hty Hts) as (Ds & Hall & Heq). rewrite Heq.
    + rewrite length_fmap. symmetry. by eapply Forall2_length.
    + apply Forall_lookup. intros k D' HD. destruct (Forall2_lookup_r _ _ _ _ _ Hall HD) as (j & Hj & depth & Ht).
      by rewrite <- (tree_det s opts _ _ _ _ _ (Htree j (list_elem_of_lookup_2 _ _ _ Hj)) Ht).
Qed.

(** ** The headers and the best zone *)

Lemma verify_volume_header_spec p :
  bytes_ok p -> Z.of_nat (length p) = 65536 -> header_ok p = true -> verify_volume_header addr p s = Ok true s.
Proof.
  intros Hp Hl Hh. pose proof (header_good_spec addr p s Hp Hl) as Hg. rewrite Hh in Hg. rewrite <- Hg.
  unfold header_ok, tests_ok in Hh. rewrite !andb_true_iff in Hh. destruct Hh as [[[Hm _] _] _]. apply bool_decide_eq_true in Hm.
  unfold verify_volume_header, header_good, verify_header, header_tests. rewrite Hm. bd_const. reflexivity.
Qed.

Lemma test_volume_header_complete best :
  (forall j, j ∈ all_zones_of (hv_size v0) -> header_ok (header_at f0 j) = true /\ bytes_ok (header_at f0 j)) ->
  test_volume_header addr opts best s = Ok true s.
Proof using All.
  intros Hall. unfold test_volume_header, all_zones.
  destruct (scan_zones_ok best HAMMER2_BREF_TYPE_EMPTY (λ _ p ok, good ← verify_volume_header addr p; mret (ok && good)) (λ ok, ok = true))
    with (n := Z.to_nat HAMMER2_NUM_VOLHDRS) (i := 0) (acc := true) as (ok & Hrun & ->).
  - by left.
  - intros i acc Hz ->. destruct (Hall i Hz) as [Hh Hb]. exists true. split; [|done].
    rewrite (bind_Ok _ _ s true s); [done|]. apply verify_volume_header_spec; [done| |done].
    unfold header_at. rewrite length_file_read. h2_unfold. lia.
  - done.
  - h2_unfold. lia.
  - done.
  - by rewrite (bind_Ok _ _ _ _ _ Hrun).
Qed.

Lemma find_best_ok n : forall i best, 0 <= i -> i + Z.of_nat n = HAMMER2_NUM_VOLHDRS -> exists r, find_best_loop n i best s = Ok r s.
Proof using All.
  induction n as [|n IH]; intros i best Hi Hn; cbn [find_best_loop]; [by eexists|].
  rewrite (bind_Ok _ _ _ _ _ root_size). case_bool_decide as Hs; [by eexists|].
  assert (i ∈ all_zones_of (hv_size v0)) as Hz by (apply all_zones_elem; lia).
  rewrite (bind_Ok _ _ _ _ _ (read_zone_spec i HAMMER2_BREF_TYPE_EMPTY ltac:(by left) Hz)). apply IH; lia.
Qed.

(** All tests of [test_hammer2] pass. *)
Lemma tests_complete fuel Dfm Dvol best :
  PrintPFS opts = false -> ScanPFS opts = false ->
  (forall j, j ∈ all_zones_of (hv_size v0) -> header_ok (header_at f0 j) = true /\ bytes_ok (header_at f0 j)) ->
  (forall j, j ∈ all_zones_of (hv_size v0) -> tree fuel (root_blockref j HAMMER2_BREF_TYPE_FREEMAP) = Some Dfm) ->
  (forall j, j ∈ all_zones_of (hv_size v0) -> tree fuel (root_blockref j HAMMER2_BREF_TYPE_VOLUME) = Some Dvol) ->
  ds_count Dfm < 2 ^ 63 -> ds_count Dvol < 2 ^ 63 ->
  pure_delta HAMMER2_BREF_TYPE_FREEMAP Dfm -> pure_delta HAMMER2_BREF_TYPE_VOLUME Dvol ->
  exists fm vol,
    (ok ← test_volume_header addr opts best;
     '(ok, fm) ← unless_failed opts ok (test_blockref addr opts fuel best HAMMER2_BREF_TYPE_FREEMAP);
     '(ok, vol) ← unless_failed opts ok (if ScanPFS opts then test_pfs_blockref addr opts fuel best
                                         else test_blockref addr opts fuel best HAMMER2_BREF_TYPE_VOLUME);
     mret (ok, fm, vol)) s = Ok (true, fm, vol) s /\
    Forall (λ b, b = add_all (init_blockref_stats HAMMER2_BREF_TYPE_FREEMAP) Dfm) fm /\
    Forall (λ b, b = add_all (init_blockref_stats HAMMER2_BREF_TYPE_VOLUME) Dvol) vol /\
    (ScanBest opts = false -> length fm = length (all_zones_of (hv_size v0)) /\ length vol = length (all_zones_of (hv_size v0))).
Proof using All.
  intros Hpp Hsp Hh Hf Hv Hcf Hcv Hpf Hpv.
  destruct (test_blockref_complete fuel best HAMMER2_BREF_TYPE_FREEMAP Dfm) as (fm & Hfm & Hfmp & Hfml); [by right|done|done|done|].
  destruct (test_blockref_complete fuel best HAMMER2_BREF_TYPE_VOLUME Dvol) as (vol & Hvol & Hvolp & Hvoll); [by left|done|done|done|].
  exists fm, vol. split; [|split_and!; [done|done|intros Hb; split; [by apply Hfml|by apply Hvoll]]]. rewrite (bind_Ok _ _ _ _ _ (test_volume_header_complete best Hh)).
  unfold unless_failed. cbn [orb]. rewrite (bind_Ok _ _ s (true, fm) s) by (by rewrite (bind_Ok _ _ _ _ _ Hfm)).
  cbn [orb]. rewrite Hsp. rewrite (bind_Ok _ _ s (true, vol) s) by (by rewrite (bind_Ok _ _ _ _ _ Hvol)). reflexivity.
Qed.
End test.

Lemma cleanup_volumes_ok s : exists s', hammer2_cleanup_volumes s = Ok () s' /\ sys s' = sys s.
Proof.
  unfold hammer2_cleanup_volumes. rewrite (bind_Ok _ _ s s s) by done.
  assert (forall vols s1, exists l s2, cleanup_loop vols s1 = Ok l s2 /\ sys s2 = sys s1) as Hl.
  { induction vols as [|v vols IH]; intros s1; cbn [cleanup_loop]; [by eexists _, _|]. case_bool_decide.
    - rewrite (bind_Ok _ _ s1 v s1) by done. destruct (IH s1) as (l & s2 & Hr & Hs). rewrite (bind_Ok _ _ _ _ _ Hr). by eexists _, _.
    - unfold hammer2_uninstall_volume, sys_close.
      destruct (IH (set_fds (delete (hv_fd v) (fds s1)) (next_fd s1) s1)) as (l & s2 & Hr & Hs).
      erewrite (bind_Ok _ _ s1 _ (set_fds (delete (hv_fd v) (fds s1)) (next_fd s1) s1)) by reflexivity.
      rewrite (bind_Ok _ _ _ _ _ Hr). eexists _, _. split; [reflexivity|]. by rewrite Hs. }
  destruct (Hl (o_volumes (fso s)) s) as (l & s2 & Hr & Hs). rewrite (bind_Ok _ _ _ _ _ Hr). eexists. split; [reflexivity|]. done.
Qed.
