(* ===== verification/H2Open.v ===== *)
(** * H2Open: the table of volumes stays well-formed

    Whatever the devices hold, the table that [hammer2_init_volumes] builds is well-formed,
    and when it returns the volumes form one address space. *)

From S2P Require Import Prelude HammerDisk Layout CMonad Ondisk H2Disk H2Volumes H2Header H2Verify H2Fsck H2FsckTree.

#[local] Opaque Z.to_nat.

(** ** Fields of a decoded header *)

Lemma split_widths_ok ws (bs : bytes) : bytes_ok bs -> Forall bytes_ok (split_widths ws bs).
Proof.
  revert bs. induction ws as [|w ws IH]; intros bs Hb; cbn [split_widths]; constructor; [by apply Forall_take|]. by apply IH, Forall_drop.
Qed.

Lemma of_le_fit n bs : bytes_ok bs -> (length bs <= n)%nat -> in_u (8 * Z.of_nat n) (of_le bs).
Proof.
  intros Hb Hl. pose proof (of_le_bound bs Hb) as [H0 H1]. split; [done|].
  eapply Z.lt_le_trans; [exact H1|]. apply Z.pow_le_mono_r; lia.
Qed.

Lemma split_widths_fit ws (bs : bytes) : bytes_ok bs -> Forall2 (λ w c, bytes_ok c /\ (length c <= w)%nat) ws (split_widths ws bs).
Proof.
  revert bs. induction ws as [|w ws IH]; intros bs Hb; cbn [split_widths]; constructor.
  - split; [by apply Forall_take|]. rewrite length_take. lia.
  - by apply IH, Forall_drop.
Qed.

Lemma dec_ints_fit w n bs : bytes_ok bs -> Forall (in_u (8 * Z.of_nat w)) (dec_ints w n bs).
Proof.
  intros Hb. unfold dec_ints. apply Forall_fmap. pose proof (split_widths_fit (replicate n w) bs Hb) as Hf.
  remember (replicate n w) as ws eqn:Hws. assert (Forall (λ x, x = w) ws) as Hw by (subst; by apply Forall_replicate). clear Hws.
  induction Hf as [|w' c ws cs [Hc Hl] _ IH]; constructor; apply Forall_cons in Hw as [-> Hw]; [by apply of_le_fit|by apply IH].
Qed.

(** The fields that [hammer2_add_volume] uses. *)
Lemma decode_fields p :
  bytes_ok p -> let vd := decode (A := hammer2_volume_data) p in
  in_u 64 (vd_volu_size vd) /\ Forall (in_u 64) (vd_volu_loff vd) /\ in_u 8 (vd_volu_id vd) /\ in_u 8 (vd_nvolumes vd) /\
  in_u 64 (vd_total_size vd).
Proof.
  intros Hp vd. unfold vd, decode. pose proof (split_widths_fit (widths hammer2_volume_data) p Hp) as Hf.
  revert Hf. generalize (split_widths (widths hammer2_volume_data) p). intros cs Hf.
  cbn [widths hammer2_volume_data_ondisk] in Hf.
  repeat match goal with Hf : Forall2 _ (_ :: _) _ |- _ => apply Forall2_cons_inv_l in Hf as (? & ? & [? ?] & Hf & ->) end.
  apply Forall2_nil_inv_l in Hf as ->. cbn [of_chunks hammer2_volume_data_ondisk vd_volu_size vd_volu_loff vd_volu_id vd_nvolumes vd_total_size].
  split_and!; try (by apply (of_le_fit 8)); try (by apply (of_le_fit 1)). by apply (dec_ints_fit 8).
Qed.

(** ** The table *)

Definition wf_state (s : h2state) : Prop := files_ok s /\ table_wf (fso s).

Lemma init_table_wf : table_wf hammer2_init_ondisk.
Proof.
  split; [cbn [o_volumes hammer2_init_ondisk]; rewrite length_replicate; by h2_unfold|].
  intros i v Hv. cbn [o_volumes hammer2_init_ondisk] in Hv. apply lookup_replicate in Hv as [-> _]. split_and!; [by left|done|done].
Qed.

(** [keeps m]: a run of [m] that returns keeps the state well-formed and does not write. *)
Definition keeps {A} (m : H A) : Prop := forall s a s', wf_state s -> m s = Ok a s' -> wf_state s' /\ sys s' = sys s.

Lemma keeps_ro {A} (m : H A) : read_only m -> keeps m.
Proof. intros Hr s a s' Hw Hm. by apply Hr in Hm as ->. Qed.
Lemma keeps_bind {A B} (m : H A) (k : A -> H B) : keeps m -> (forall a, keeps (k a)) -> keeps (m ≫= k).
Proof. intros Hm Hk s b s' Hw Hb. apply bind_Ok_inv in Hb as (a & s1 & H1 & H2).
  destruct (Hm _ _ _ Hw H1) as [Hw1 Hs1]. destruct (Hk _ _ _ _ Hw1 H2) as [Hw2 Hs2]. split; [done|congruence]. Qed.

Lemma sys_open_keeps path rdwr : keeps (sys_open path rdwr).
Proof.
  intros s fd s' [Hf Ht] Ho. unfold sys_open, mbind, prog_bind, get_state in Ho.
  destruct (names (sys s) !! path) as [ino|]; [|by injection Ho as _ <-].
  destruct (nodes (sys s) !! ino) as [nd|]; [|by injection Ho as _ <-]. destruct (rdwr && _); by injection Ho as _ <-.
Qed.

Lemma errx_if_ro b : read_only (errx_if b).
Proof. unfold errx_if. destruct b; ro. unfold errx. ro. Qed.
#[export] Hint Resolve errx_if_ro : read_only.

Lemma check_volume_ro fd : read_only (check_volume fd).
Proof. unfold check_volume. ro; unfold errx; ro. Qed.
#[export] Hint Resolve check_volume_ro : read_only.
Lemma header_good_ro addr p : read_only (header_good addr p).
Proof. unfold header_good. generalize (decode (A := hammer2_volume_data) p). intros vd. unfold header_tests, icrc32_at. ro. Qed.
#[export] Hint Resolve header_good_ro : read_only.
Lemma read_headers_ro addr fd size n : forall i best, read_only (read_headers addr fd size n i best).
Proof. induction n as [|n IH]; intros i best; cbn [read_headers]; ro. Qed.
#[export] Hint Resolve read_headers_ro : read_only.
Lemma read_volume_header_ro addr fd : read_only (hammer2_read_volume_header addr fd).
Proof. unfold hammer2_read_volume_header. ro. Qed.
#[export] Hint Resolve read_volume_header_ro : read_only.

Definition fields_ok (vd : hammer2_volume_data) : Prop :=
  in_u 64 (vd_volu_size vd) /\ Forall (in_u 64) (vd_volu_loff vd) /\ in_u 8 (vd_volu_id vd) /\ in_u 8 (vd_nvolumes vd) /\
  in_u 64 (vd_total_size vd).
Definition best_ok (best : option (Z * hammer2_volume_data)) : Prop :=
  match best with Some (_, vd) => fields_ok vd | None => True end.

Lemma read_headers_fields addr fd size n s : files_ok s -> forall i best r s',
  best_ok best -> read_headers addr fd size n i best s = Ok r s' -> best_ok r.
Proof.
  intros Hf. induction n as [|n IH]; intros i best r s' Hb Hr; cbn [read_headers] in Hr; [by injection Hr as <- _|].
  case_bool_decide; [by injection Hr as <- _|]. apply bind_Ok_inv in Hr as (p & s1 & Hp & Hr).
  pose proof (sys_pread_ro _ _ _ _ _ _ Hp) as ->. destruct p as [p|]; [|by eapply IH].
  apply (sys_pread_ok _ _ _ _ _ _ Hf) in Hp. case_bool_decide; [by eapply IH|].
  apply bind_Ok_inv in Hr as (good & s1 & Hg & Hr). pose proof (header_good_ro _ _ _ _ _ Hg) as ->.
  eapply IH; [|exact Hr]. destruct (good && _); [by apply decode_fields|done].
Qed.

Lemma add_volume_keeps uuid_compare addr path rdonly : keeps (hammer2_add_volume uuid_compare addr path rdonly).
Proof.
  intros s [] s' Hw Hr. unfold hammer2_add_volume in Hr. apply bind_Ok_inv in Hr as (fd & s1 & Ho & Hr).
  destruct (sys_open_keeps _ _ _ _ _ Hw Ho) as [Hw1 Hs1]. destruct fd as [fd|]; [|done].
  apply bind_Ok_inv in Hr as (s2 & s3 & Hg & Hr). injection Hg as <- <-.
  apply bind_Ok_inv in Hr as ([ino nd] & s2 & Hn & Hr). destruct (fd_node s1 fd); [|done]. injection Hn as -> <-.
  apply bind_Ok_inv in Hr as ([] & s2 & He & Hr). apply errx_if_ro in He as ->.
  apply bind_Ok_inv in Hr as (r & s2 & Hh & Hr). pose proof (read_volume_header_ro _ _ _ _ _ Hh) as ->.
  assert (best_ok r) as Hbest.
  { unfold hammer2_read_volume_header in Hh. apply bind_Ok_inv in Hh as (size & s2 & Hc & Hh). apply check_volume_ro in Hc as ->.
    eapply read_headers_fields; [apply Hw1| |exact Hh]. done. }
  destruct r as [[z vd]|]; [|done]. destruct Hbest as (Hsz & Hlo & Hid & _). cbv zeta in Hr.
  apply bind_Ok_inv in Hr as ([] & s2 & He & Hr). apply errx_if_inv in He as [He ->]. apply orb_false_iff in He as [_ Hmax].
  apply bool_decide_eq_false in Hmax.
  apply bind_Ok_inv in Hr as (s2 & s3 & Hg & Hr). injection Hg as <- <-.
  apply bind_Ok_inv in Hr as (vol & s2 & Hv & Hr). apply read_only_deref in Hv as ->.
  apply bind_Ok_inv in Hr as ([] & s2 & He & Hr). apply errx_if_ro in He as ->.
  apply bind_Ok_inv in Hr as ([] & s2 & Hhd & Hr).
  assert (wf_state s2 /\ sys s2 = sys s1) as [Hw2 Hs2].
  { case_bool_decide; [by injection Hhd as <-|].
    apply bind_Ok_inv in Hhd as ([] & ? & H1 & Hhd). apply errx_if_ro in H1 as ->.
    apply bind_Ok_inv in Hhd as ([] & ? & H1 & Hhd). apply errx_if_ro in H1 as ->.
    apply bind_Ok_inv in Hhd as ([] & ? & H1 & Hhd). apply errx_if_ro in H1 as ->. by apply errx_if_ro in Hhd as ->. }
  apply bind_Ok_inv in Hr as (loff & s3 & Hl & Hr). destruct (vd_volu_loff vd !! Z.to_nat (vd_volu_id vd)) as [lo|] eqn:El; [|done].
  injection Hl as -> <-. injection Hr as <-. destruct Hw2 as [Hf [Hlen Hwf]]. split; [|cbn; congruence]. split; [exact Hf|].
  split; cbn [fso set_fso set_o_volumes o_volumes]; [by rewrite length_insert|]. intros i v Hi.
  apply list_lookup_insert_Some in Hi as [(<- & <- & _)|[_ Hi]]; [|by apply Hwf].
  cbn. unfold in_u in Hid. split_and!; [right; lia|by apply (Forall_lookup_1 _ _ _ _ Hlo El)|done].
Qed.

Lemma verify_common_ro vols : forall i st, read_only (verify_common_loop vols i st).
Proof. induction vols as [|v vols IH]; intros i st; cbn [verify_common_loop]; ro; unfold errx; ro. Qed.
Lemma verify_2_loop_ro n vols : forall prev i, read_only (verify_2_loop n prev vols i).
Proof. induction vols as [|v vols IH]; intros prev i; cbn [verify_2_loop]; ro. Qed.
#[export] Hint Resolve verify_common_ro verify_2_loop_ro : read_only.
Lemma verify_volumes_ro fsp root : read_only (hammer2_verify_volumes fsp root).
Proof. unfold hammer2_verify_volumes, hammer2_verify_volumes_common, hammer2_verify_volumes_1, hammer2_verify_volumes_2. ro. Qed.
Lemma read_root_ro addr : read_only (hammer2_read_root_volume_header addr).
Proof.
  unfold hammer2_read_root_volume_header, hammer2_get_root_volume_fd, hammer2_get_root_volume_path, hammer2_get_volume_path, get_attr.
  ro; unfold errx; ro.
Qed.

Lemma verify_volumes_tiles fsp root fsp' s s' :
  table_wf fsp -> hammer2_verify_volumes fsp root s = Ok fsp' s' ->
  let vols := take (Z.to_nat (o_nvolumes fsp')) (o_volumes fsp') in
  table_wf fsp' /\ o_nvolumes fsp' = Z.of_nat (length vols) /\ 0 < o_nvolumes fsp' /\
  (sum_Z (hv_size <$> vols) < 2 ^ 64 -> tiles 0 0 vols).
Proof.
  intros Hw Hr. unfold hammer2_verify_volumes in Hr. apply bind_Ok_inv in Hr as ([] & s1 & _ & Hr).
  apply bind_Ok_inv in Hr as (o & s2 & Hv & Hr). apply bind_Ok_inv in Hr as ([] & s3 & Ha & Hr). injection Hr as <- <-.
  assert (0 < o_nvolumes o) as Hpos by (destruct (bool_decide (0 < o_nvolumes o)) eqn:E; [by apply bool_decide_eq_true in E|done]).
  pose proof Hw as [Hlen Hwf].
  destruct (bool_decide (HAMMER2_VOL_VERSION_MULTI_VOLUMES <= o_version fsp)).
  - apply bind_Ok_inv in Hv as ([] & s4 & Hv & Hr). injection Hr as <- _.
    destruct (verify_2_prefix _ _ _ _ Hw Hv) as [Hn _]. split_and!; [done| |done|by apply (verify_2_tiles _ _ _ _ Hw Hv)].
    rewrite length_take. lia.
  - unfold hammer2_verify_volumes_1 in Hv. cbv zeta in Hv. inv_checks Hv. apply bd_false_not in Hc.
    apply bind_Ok_inv in Hv as ([] & s4 & _ & Hv). apply bind_Ok_inv in Hv as (v & s5 & Hv0 & Hv).
    cbn [o_volumes set_o_nvolumes] in Hv0. destruct (o_volumes fsp !! O) as [v'|] eqn:E0; [|done]. injection Hv0 as -> <-.
    inv_checks Hv. apply bd_false_not in Hc0, Hc1. injection Hv as <- _. cbn [o_nvolumes o_volumes set_o_nvolumes]. rewrite Hc.
    change (Z.to_nat 1) with 1%nat. replace (Z.to_nat 1) with 1%nat by lia.
    split; [split; [exact Hlen|exact Hwf]|].
    destruct (o_volumes fsp) as [|w ws]; [done|]. cbn in E0. injection E0 as ->. cbn [take]. rewrite take_0.
    split_and!; [done|lia|]. intros _. destruct (Hwf O v eq_refl) as (_ & _ & [Hs _]). cbn. done.
Qed.

Section open.
Context (uuid_compare : bytes -> bytes -> Z) (addr : Z).

Lemma modify_inv f (s s' : h2state) : modify f s = Ok () s' -> s' = f s.
Proof. by intros [= <-]. Qed.

Lemma add_devices_keeps init rdonly devs :
  (forall p, keeps (init p)) -> keeps (add_devices uuid_compare addr init rdonly devs).
Proof.
  intros Hi. induction devs as [|d devs IH]; cbn [add_devices]; [by apply keeps_ro, read_only_ret|].
  apply keeps_bind; [apply keeps_ro, read_only_get|]. intros s0. cbv zeta. apply keeps_bind; [|done].
  case_bool_decide; [apply Hi|apply add_volume_keeps].
Qed.

(** The parts of a run that returned. *)
Lemma init_volumes_keeps fuel : forall blkdevs rdonly, keeps (hammer2_init_volumes uuid_compare addr fuel blkdevs rdonly).
Proof.
  induction fuel as [|fuel IH]; intros blkdevs rdonly s [] s' Hw Hr; cbn [hammer2_init_volumes] in Hr; [done|].
  apply bind_Ok_inv in Hr as (s0 & s1 & Hg & Hr). injection Hg as <- <-.
  apply bind_Ok_inv in Hr as ([] & s1 & He & Hr). apply errx_if_ro in He as ->. destruct blkdevs as [p|]; [|done].
  apply bind_Ok_inv in Hr as ([] & s1 & Hm & Hr). apply modify_inv in Hm as ->.
  apply bind_Ok_inv in Hr as ([] & s2 & Ha & Hr).
  apply add_devices_keeps in Ha as [Ha Hsys]; [|intros q; apply IH|split; [apply Hw|apply init_table_wf]].
  apply bind_Ok_inv in Hr as ([] & s3 & Hm & Hr). apply modify_inv in Hm as ->.
  apply bind_Ok_inv in Hr as (root & s3 & Hrt & Hr). apply read_root_ro in Hrt as ->.
  apply bind_Ok_inv in Hr as (s3 & s4 & Hg & Hr). injection Hg as <- <-.
  apply bind_Ok_inv in Hr as (fsp & s3 & Hv & Hr). pose proof (verify_volumes_ro _ _ _ _ _ Hv) as ->. apply modify_inv in Hr as ->.
  split; [|done]. split; [apply Ha|]. apply verify_volumes_tiles in Hv as [Hwf _]; [exact Hwf|apply Ha].
Qed.

Lemma init_volumes_inv fuel blkdevs rdonly s s' :
  files_ok s -> hammer2_init_volumes uuid_compare addr fuel blkdevs rdonly s = Ok () s' ->
  let vols := take (Z.to_nat (o_nvolumes (fso s'))) (o_volumes (fso s')) in
  wf_state s' /\ sys s' = sys s /\ vols <> [] /\ (sum_Z (hv_size <$> vols) < 2 ^ 64 -> volumes_are s' vols) /\
  exists s1 fsp root, table_wf fsp /\ hammer2_verify_volumes fsp root s1 = Ok (fso s') s1 /\ sys s1 = sys s' /\ fds s1 = fds s'.
Proof.
  intros Hf Hr. destruct fuel as [|fuel]; cbn [hammer2_init_volumes] in Hr; [done|].
  apply bind_Ok_inv in Hr as (s0 & s1 & Hg & Hr). injection Hg as <- <-.
  apply bind_Ok_inv in Hr as ([] & s1 & He & Hr). apply errx_if_ro in He as ->. destruct blkdevs as [p|]; [|done].
  apply bind_Ok_inv in Hr as ([] & s1 & Hm & Hr). apply modify_inv in Hm as ->.
  apply bind_Ok_inv in Hr as ([] & s2 & Ha & Hr).
  apply add_devices_keeps in Ha as [Ha Hsys]; [|intros q; apply init_volumes_keeps|split; [exact Hf|apply init_table_wf]].
  apply bind_Ok_inv in Hr as ([] & s3 & Hm & Hr). apply modify_inv in Hm as ->.
  apply bind_Ok_inv in Hr as (root & s3 & Hrt & Hr). apply read_root_ro in Hrt as ->.
  apply bind_Ok_inv in Hr as (s3 & s4 & Hg & Hr). injection Hg as <- <-.
  apply bind_Ok_inv in Hr as (fsp & s3 & Hv & Hr). pose proof (verify_volumes_ro _ _ _ _ _ Hv) as ->. apply modify_inv in Hr as ->.
  pose proof Hv as Hver. apply verify_volumes_tiles in Hv as (Hwf & Hn & Hpos & Ht); [|apply Ha]. cbv zeta. cbn [fso set_fso set_initialized].
  split_and!; [split; [apply Ha|exact Hwf]|exact Hsys| | |].
  - intros Hc. rewrite Hc in Hn. cbn in Hn. lia.
  - intros Hs. split_and!; [done|done| |by apply Ht|done]. rewrite <- (Nat2Z.id (length _)), <- Hn. done.
  - eexists _, _, _. split_and!; [|exact Hver|done|done]. apply Ha.
Qed.
End open.
