(* ===== verification/H2FsckSound.v ===== *)
(** * H2FsckSound: what it means that fsck_hammer2 passes

    The volumes that were opened have files that hold them; the header copies have good
    checksums; every block that a header reaches can be read and has the check code that
    its reference says. *)

From S2P Require Import Prelude HammerDisk Layout Crc32 CMonad Ondisk CacheInv H2Disk H2Volumes H2Header H2Verify H2Fsck H2FsckRead H2FsckTree H2FsckVerify H2FsckTest H2Open.

#[local] Opaque Z.to_nat.

(** ** The files of the volumes *)

Lemma check_volume_inv fd s size s' :
  sizes_ok s -> check_volume fd s = Ok size s' ->
  exists ino nd, fd_node s fd = Some (ino, nd) /\ size <= f_size (nd_file nd) < 2 ^ 63.
Proof.
  intros Hs Hc. unfold check_volume in Hc. apply bind_Ok_inv in Hc as (s1 & s2 & Hg & Hc). injection Hg as <- <-.
  destruct (fd_node s fd) as [[ino nd]|] eqn:E; [|done].
  assert (0 <= f_size (nd_file nd) < 2 ^ 63) as Hsz.
  { unfold fd_node in E. destruct (fds s !! fd) as [i|]; [|done]. cbn in E. destruct (nodes (sys s) !! i) eqn:En; [|done].
    cbn in E. injection E as <- <-. by apply (Hs i). }
  exists ino, nd. split; [done|]. destruct (nd_type nd); try done.
  - injection Hc as <- _. rewrite uwrap_small; [lia|unfold in_u; lia].
  - destruct (bool_decide (HAMMER2_PBUFSIZE < nd_sectsize nd)); [done|]. destruct (bool_decide (nd_sectsize nd = 0)); [done|].
    inv_checks Hc. injection Hc as <- _. rewrite Z.shiftl_mul_pow2 by done. rewrite uwrap_small; [clear -Hsz; dlia|].
    unfold in_u. clear -Hsz. dlia.
Qed.

Lemma verify_common_loop_inv vols : forall i st s s',
  sizes_ok s -> verify_common_loop vols i st s = Ok () s' ->
  forall k v, vols !! k = Some v -> hv_id v <> -1 ->
    exists ino nd, fd_node s (hv_fd v) = Some (ino, nd) /\ hv_size v <= f_size (nd_file nd) < 2 ^ 63.
Proof.
  induction vols as [|w vols IH]; intros i st s s' Hs Hv k v Hk Hid; [done|]. cbn [verify_common_loop] in Hv.
  case_bool_decide as Hw.
  { destruct k as [|k]; cbn in Hk; [by injection Hk as ->|]. by apply (IH _ _ _ _ Hs Hv k). }
  apply bind_Ok_inv in Hv as (s1 & s2 & Hg & Hv). injection Hg as <- <-.
  apply bind_Ok_inv in Hv as ([] & s1 & H1 & Hv).
  assert (s1 = s) as -> by (destruct (hv_path w ≫= path_ino s); [|done]; destruct (bool_decide _); [|done]; by injection H1 as <-).
  apply bind_Ok_inv in Hv as ([ino nd] & s1 & H2 & Hv).
  assert (s1 = s) as -> by (destruct (fd_node s (hv_fd w)); [|done]; by injection H2 as _ <-).
  inv_checks Hv. apply bind_Ok_inv in Hv as (size & s1 & Hcv & Hv). pose proof (check_volume_ro _ _ _ _ Hcv) as ->.
  inv_checks Hv. apply bool_decide_eq_false in Hc3.
  destruct k as [|k]; cbn in Hk; [|by apply (IH _ _ _ _ Hs Hv k)]. injection Hk as <-.
  destruct (check_volume_inv _ _ _ _ Hs Hcv) as (ino' & nd' & Hfd & Hsz). exists ino', nd'. split; [done|lia].
Qed.

Lemma aligned_pbuf m x : 0 <= x -> x .& (2 ^ m - 1) = 0 -> 16 <= m -> x mod HAMMER2_PBUFSIZE = 0.
Proof.
  intros Hx Hl Hm. change HAMMER2_PBUFSIZE with (2 ^ 16). apply (mod_pow_le _ 16 m); [lia|].
  rewrite <- (land_ones_mod x m) by lia. rewrite Z.ones_equiv. by replace (Z.pred (2 ^ m)) with (2 ^ m - 1) by lia.
Qed.

(** The volumes that passed [hammer2_verify_volumes] lie in their files. *)
Lemma verify_volumes_files fsp root fsp' s s' :
  table_wf fsp -> sizes_ok s -> hammer2_verify_volumes fsp root s = Ok fsp' s' ->
  forall k v, take (Z.to_nat (o_nvolumes fsp')) (o_volumes fsp') !! k = Some v ->
  exists ino nd, fd_node s (hv_fd v) = Some (ino, nd) /\ hv_size v <= f_size (nd_file nd) < 2 ^ 63 /\ hv_size v mod HAMMER2_PBUFSIZE = 0.
Proof.
  intros Hw Hs Hr k v Hk. unfold hammer2_verify_volumes in Hr. apply bind_Ok_inv in Hr as ([] & s1 & Hcom & Hr).
  assert (s1 = s) as ->.
  { unfold hammer2_verify_volumes_common in Hcom. inv_checks Hcom. by apply verify_common_ro in Hcom. }
  apply bind_Ok_inv in Hr as (o & s2 & Hv & Hr). apply bind_Ok_inv in Hr as ([] & s3 & Ha & Hr). injection Hr as <- <-.
  pose proof Hw as [Hlen Hwf]. unfold hammer2_verify_volumes_common in Hcom. inv_checks Hcom.
  pose proof (verify_common_loop_inv _ _ _ _ _ Hs Hcom) as Hfiles. clear Hcom.
  destruct (bool_decide (HAMMER2_VOL_VERSION_MULTI_VOLUMES <= o_version fsp)).
  - apply bind_Ok_inv in Hv as ([] & s4 & Hv & Hr). injection Hr as <- _.
    destruct (verify_2_prefix _ _ _ _ Hw Hv) as [Hn Hids]. apply verify_2_inv in Hv as (_ & _ & Hchk).
    apply lookup_take_Some in Hk as [Hk Hlt]. destruct (Hids k v Hk) as [[_ Hid] _]. specialize (Hid Hlt).
    destruct (Hfiles k v Hk ltac:(lia)) as (ino & nd & Hfd & Hsz). exists ino, nd. split_and!; [done|lia|lia|].
    destruct (Hwf k v Hk) as (_ & _ & [Hpos _]). destruct (Hchk k v Hk ltac:(lia)) as (_ & _ & Hmid & Hlast).
    destruct (decide (Z.of_nat k = o_nvolumes fsp - 1)) as [Hl|Hl].
    + apply (aligned_pbuf 23); [done|exact (Hlast Hl)|lia].
    + apply (aligned_pbuf 30); [done|exact (proj2 (Hmid Hl))|lia].
  - unfold hammer2_verify_volumes_1 in Hv. cbv zeta in Hv. inv_checks Hv. apply bd_false_not in Hc0.
    apply bind_Ok_inv in Hv as ([] & s4 & _ & Hv). apply bind_Ok_inv in Hv as (w & s5 & Hv0 & Hv).
    cbn [o_volumes set_o_nvolumes] in Hv0. destruct (o_volumes fsp !! O) as [v'|] eqn:E0; [|done]. injection Hv0 as -> <-.
    inv_checks Hv. apply bd_false_not in Hc1, Hc3. injection Hv as <- _. cbn [o_nvolumes o_volumes set_o_nvolumes] in Hk. rewrite Hc0 in Hk.
    apply lookup_take_Some in Hk as [Hk Hlt]. replace k with O in Hk by lia. rewrite E0 in Hk. injection Hk as ->.
    destruct (Hfiles O v E0 ltac:(lia)) as (ino & nd & Hfd & Hsz). exists ino, nd. split_and!; [done|lia|lia|].
    destruct (Hwf O v E0) as (_ & _ & [Hpos _]). apply (aligned_pbuf 23); [done|exact Hc3|lia].
Qed.

(** A successful [hammer2_init_volumes] gives an open file system. *)
Lemma init_volumes_open uuid_compare addr fuel blkdevs rdonly s s' :
  files_ok s -> sizes_ok s -> hammer2_init_volumes uuid_compare addr fuel blkdevs rdonly s = Ok () s' ->
  let vols := take (Z.to_nat (o_nvolumes (fso s'))) (o_volumes (fso s')) in
  files_ok s' /\ vols <> [] /\ (sum_Z (hv_size <$> vols) < 2 ^ 63 -> exists files, open_fs s' vols files).
Proof.
  intros Hf Hs Hr vols. destruct (init_volumes_inv _ _ _ _ _ _ _ Hf Hr) as ([Hf' _] & Hsys & Hne & Hare & s1 & fsp & root & Hw & Hv & Hsys1 & Hfds1).
  split_and!; [done|done|]. intros Hsum.
  assert (sizes_ok s1) as Hs1 by (unfold sizes_ok; rewrite Hsys1, Hsys; exact Hs).
  assert (Forall (λ v, exists f, vol_file s' v f) vols) as Hall.
  { apply Forall_lookup. intros k v Hk. destruct (verify_volumes_files _ _ _ _ _ Hw Hs1 Hv k v Hk) as (ino & nd & Hfd & Hsz & Hal).
    exists (nd_file nd), ino, nd. split; [|split; [done|split; [exact Hsz|exact Hal]]]. revert Hfd. unfold fd_node. by rewrite Hfds1, Hsys1. }
  assert (exists files, Forall2 (vol_file s') vols files) as (files & Hfiles).
  { clear -Hall. induction Hall as [|v vols (f & Hf) _ (files & IH)]; [by exists []|]. exists (f :: files). by constructor. }
  exists files. split_and!; [apply Hare; unfold vols in Hsum; lia|done|done].
Qed.

(** ** Header copies *)

(** The magic number, in either byte order, and the three checksums. *)
Definition fsck_tests_ok (vd : hammer2_volume_data) (p : bytes) : bool :=
  (bool_decide (vd_magic vd = HAMMER2_VOLUME_ID_HBO) || bool_decide (vd_magic vd = HAMMER2_VOLUME_ID_ABO)) &&
  bool_decide (vd_icrc_sects vd !! HAMMER2_VOL_ICRC_SECT0
               = Some (crc32c_spec (region p HAMMER2_VOLUME_ICRC0_OFF HAMMER2_VOLUME_ICRC0_SIZE))) &&
  bool_decide (vd_icrc_sects vd !! HAMMER2_VOL_ICRC_SECT1
               = Some (crc32c_spec (region p HAMMER2_VOLUME_ICRC1_OFF HAMMER2_VOLUME_ICRC1_SIZE))) &&
  bool_decide (vd_icrc_volheader vd
               = crc32c_spec (region p HAMMER2_VOLUME_ICRCVH_OFF HAMMER2_VOLUME_ICRCVH_SIZE)).
Definition fsck_header_ok (p : bytes) : bool := fsck_tests_ok (decode p) p.

Lemma verify_header_spec addr vd p (s : h2state) :
  length (vd_icrc_sects vd) = 8%nat -> bytes_ok p -> Z.of_nat (length p) = 65536 ->
  verify_header addr vd p s = Ok (fsck_tests_ok vd p) s.
Proof.
  intros H8 Hp Hl. unfold verify_header, fsck_tests_ok, header_crcs. rewrite !bool_decide_not, <- negb_orb.
  destruct (_ || _); [|done]. cbn [negb andb].
  destruct (lookup_lt_is_Some_2 (vd_icrc_sects vd) HAMMER2_VOL_ICRC_SECT0) as [c7 H7];
    [rewrite H8; unfold HAMMER2_VOL_ICRC_SECT0; lia|].
  destruct (lookup_lt_is_Some_2 (vd_icrc_sects vd) HAMMER2_VOL_ICRC_SECT1) as [c6 H6];
    [rewrite H8; unfold HAMMER2_VOL_ICRC_SECT1; lia|].
  rewrite H7, H6. unfold icrc32_at. rewrite !icrc32_slice by (done || h2_unfold; lia).
  generalize (crc32c_spec (region p HAMMER2_VOLUME_ICRC0_OFF HAMMER2_VOLUME_ICRC0_SIZE)),
    (crc32c_spec (region p HAMMER2_VOLUME_ICRC1_OFF HAMMER2_VOLUME_ICRC1_SIZE)),
    (crc32c_spec (region p HAMMER2_VOLUME_ICRCVH_OFF HAMMER2_VOLUME_ICRCVH_SIZE)). intros d7 d6 dv.
  unfold mbind, prog_bind, deref, mret, prog_ret. cbn beta iota.
  rewrite !bool_decide_not, (bool_decide_ext (Some c7 = Some d7) (c7 = d7)), (bool_decide_ext (Some c6 = Some d6) (c6 = d6)) by naive_solver.
  destruct (bool_decide (c7 = d7)); [|done]. by destruct (bool_decide (c6 = d6)).
Qed.

Lemma verify_volume_header_eq addr p (s : h2state) :
  bytes_ok p -> Z.of_nat (length p) = 65536 -> verify_volume_header addr p s = Ok (fsck_header_ok p) s.
Proof. intros Hp Hl. apply verify_header_spec; [apply decode_sects|exact Hp|exact Hl]. Qed.

(** ** Blocks that a reference reaches *)

Section reach.
Context (s : h2state) (opts : fsck_options).

(** [c] is one of the references in the block of [b]. *)
Definition child (b c : hammer2_blockref) : Prop :=
  exists n m, block s b = Some (n, m) /\ n <> 0 /\ c ∈ children (bref_type b) m n.
Definition below : hammer2_blockref -> hammer2_blockref -> Prop := tc child.
Definition reach : hammer2_blockref -> hammer2_blockref -> Prop := rtc child.

(** A reference of a valid type whose block can be read, and has the check code it says. *)
Definition sound_ref (b : hammer2_blockref) : Prop :=
  exists n m, block s b = Some (n, m) /\ is_Some (own_delta opts b n) /\
    (n = 0 \/ 0 < n <= Z.of_nat (length m) /\ check_good b (take (Z.to_nat n) m) = true).

Lemma tree_sound_ref depth b D : files_ok s -> tree_delta s opts depth b = Some D -> sound_ref b.
Proof.
  intros Hf. destruct depth as [|depth]; [done|]. cbn [tree_delta]. unfold sound_ref.
  destruct (block s b) as [[n m]|] eqn:Hb; [|done]. cbn. destruct (own_delta opts b n) as [own|] eqn:Ho; [|done]. cbn.
  intros Ht. exists n, m. split_and!; [done|done|]. case_bool_decide as Hn; [by left|right].
  destruct (check_good _ _); [|done]. split; [|done].
  unfold block in Hb. destruct (read_media b s) as [[n' m'| |] s'|] eqn:Er; try done. injection Hb as <- <-.
  by destruct (read_media_block _ _ _ _ _ Hf Er Hn) as (_ & ? & _).
Qed.

Lemma tree_child depth b D c :
  tree_delta s opts depth b = Some D -> child b c -> exists depth' D', (depth' < depth)%nat /\ tree_delta s opts depth' c = Some D'.
Proof.
  destruct depth as [|depth]; [done|]. cbn [tree_delta]. intros Ht (n & m & Hb & Hn & Hc). rewrite Hb in Ht. cbn in Ht.
  destruct (own_delta opts b n) as [own|]; [|done]. cbn in Ht. rewrite bool_decide_eq_false_2 in Ht by done.
  destruct (check_good _ _); [|done]. destruct (mapM _ _) as [ds|] eqn:Hm; [|done]. apply mapM_Some in Hm.
  apply list_elem_of_lookup in Hc as [k Hk]. destruct (Forall2_lookup_l _ _ _ _ _ Hm Hk) as (D' & _ & HD). exists depth, D'. split; [lia|done].
Qed.

Lemma tree_below b c :
  below b c -> forall depth D, tree_delta s opts depth b = Some D -> exists depth' D', (depth' < depth)%nat /\ tree_delta s opts depth' c = Some D'.
Proof.
  induction 1 as [b c Hc|b c d Hc _ IH]; intros depth D Ht; [by eapply tree_child|].
  destruct (tree_child _ _ _ _ Ht Hc) as (d1 & D1 & H1 & Ht1). destruct (IH _ _ Ht1) as (d2 & D2 & H2 & Ht2). exists d2, D2. split; [lia|done].
Qed.

Lemma tree_reach b c depth D : tree_delta s opts depth b = Some D -> reach b c -> exists depth' D', tree_delta s opts depth' c = Some D'.
Proof.
  intros Ht Hr. revert depth D Ht. induction Hr as [b|b c d Hc _ IH]; intros depth D Ht; [by eexists _, _|].
  destruct (tree_child _ _ _ _ Ht Hc) as (d1 & D1 & _ & Ht1). by eapply IH.
Qed.

(** A tree with totals has no cycles. *)
Lemma tree_acyclic depth b D : tree_delta s opts depth b = Some D -> ~ below b b.
Proof.
  revert D. induction (lt_wf depth) as [depth _ IH]. intros D Ht Hb. destruct (tree_below b b Hb depth D Ht) as (d' & D' & Hd & Ht').
  by apply (IH d' Hd D').
Qed.
End reach.

(** ** The tests *)

Lemma verify_volume_header_ro addr p : read_only (verify_volume_header addr p).
Proof.
  unfold verify_volume_header. generalize (decode (A := hammer2_volume_data) p). intros vd.
  unfold verify_header, header_crcs, icrc32_at. ro.
Qed.
#[export] Hint Resolve verify_volume_header_ro : read_only.
Lemma test_volume_header_ro addr opts best : read_only (test_volume_header addr opts best).
Proof. unfold test_volume_header, all_zones. apply read_only_bind; [apply scan_zones_ro|]; ro. Qed.
Lemma test_blockref_ro addr opts fuel best type : read_only (test_blockref addr opts fuel best type).
Proof. unfold test_blockref, all_zones. apply read_only_bind; [apply scan_zones_ro|]; ro. Qed.
Lemma find_best_ro : read_only find_best_zone.
Proof.
  unfold find_best_zone. generalize (Z.to_nat HAMMER2_NUM_VOLHDRS) at 1. intros n. generalize 0 at 1, (None : option (Z * Z)).
  induction n as [|n IH]; intros i best; cbn [find_best_loop]; [ro|]. apply read_only_bind; [ro|]. intros size.
  destruct (bool_decide _); [ro|]. apply read_only_bind; [ro|]. intros [b [p|]]; [|ro].
  generalize (decode (A := hammer2_volume_data) p). intros vd. apply IH.
Qed.

Section tests.
Context (s : h2state) (vols : list hammer2_volume) (files : list file) (Hopen : open_fs s vols files).
Context (v0 : hammer2_volume) (f0 : file) (Hv0 : vols !! O = Some v0) (Hf0 : files !! O = Some f0) (Hpos : 0 < hv_size v0).
Context (opts : fsck_options) (addr : Z) (Hfiles : files_ok s) (Hbest : ScanBest opts = false).

Lemma header_at_ok j : bytes_ok (header_at f0 j) /\ Z.of_nat (length (header_at f0 j)) = 65536.
Proof using Hopen Hv0 Hf0 Hfiles.
  split; [|unfold header_at; rewrite length_file_read; h2_unfold; lia].
  pose proof Hopen as (_ & _ & Hall). destruct (Forall2_lookup_lr _ _ _ _ _ _ Hall Hv0 Hf0) as (ino & nd & Hfd & <- & _).
  apply file_read_ok. unfold fd_node in Hfd. destruct (fds s !! hv_fd v0) as [i|]; [|done]. cbn in Hfd.
  destruct (nodes (sys s) !! i) eqn:En; [|done]. cbn in Hfd. injection Hfd as <- <-. by apply (Hfiles i).
Qed.

#[local] Abbreviation header_body := (λ (_ : hammer2_blockref) p ok, good ← verify_volume_header addr p; mret (ok && good)).

Lemma header_body_run j ok :
  (good ← verify_volume_header addr (header_at f0 j); mret (ok && good)) s = Ok (ok && fsck_header_ok (header_at f0 j)) s.
Proof using Hopen Hv0 Hf0 Hfiles.
  destruct (header_at_ok j) as [Hb Hl]. by rewrite (bind_Ok _ _ _ _ _ (verify_volume_header_eq addr _ s Hb Hl)).
Qed.

Lemma scan_headers_inv best n : forall i ok ok',
  0 <= i -> i + Z.of_nat n = HAMMER2_NUM_VOLHDRS ->
  scan_zones opts best HAMMER2_BREF_TYPE_EMPTY header_body n i ok s = Ok (true, ok') s -> ok' = true ->
  ok = true /\ Forall (λ j, fsck_header_ok (header_at f0 j) = true) (zones n i (hv_size v0)).
Proof using All.
  induction n as [|n IH]; intros i ok ok' Hi Hn Hv Hok; cbn [scan_zones zones] in *; [injection Hv as ->; by split|].
  rewrite Hbest in Hv. cbn [andb] in Hv. rewrite (bind_Ok _ _ _ _ _ (root_size s vols files Hopen v0 Hv0 Hpos)) in Hv.
  case_bool_decide as Hs; [injection Hv as ->; by split|].
  assert (i ∈ all_zones_of (hv_size v0)) as Hz by (apply all_zones_elem; lia).
  rewrite (bind_Ok _ _ _ _ _ (read_zone_spec s vols files Hopen v0 f0 Hv0 Hf0 Hpos i HAMMER2_BREF_TYPE_EMPTY ltac:(by left) Hz)) in Hv.
  rewrite (bind_Ok _ _ _ _ _ (header_body_run i ok)) in Hv.
  destruct (IH (i + 1) _ _ ltac:(lia) ltac:(lia) Hv Hok) as [Hg Hall]. apply andb_true_iff in Hg as [-> Hg]. split; [done|]. by constructor.
Qed.

Lemma test_volume_header_sound best s' :
  test_volume_header addr opts best s = Ok true s' ->
  forall j, j ∈ all_zones_of (hv_size v0) -> fsck_header_ok (header_at f0 j) = true.
Proof using All.
  intros Hv. unfold test_volume_header, all_zones in Hv. apply bind_Ok_inv in Hv as ([ret ok] & s1 & Hv & Hr).
  assert (s1 = s) as -> by (eapply (scan_zones_ro opts best HAMMER2_BREF_TYPE_EMPTY header_body); [|exact Hv]; ro).
  injection Hr as Hret _. apply andb_true_iff in Hret as [-> ->].
  destruct (scan_headers_inv best (Z.to_nat HAMMER2_NUM_VOLHDRS) 0 true true ltac:(lia) ltac:(h2_unfold; lia) Hv eq_refl) as [_ Hall].
  by apply Forall_forall.
Qed.

(** A zone whose header and trees are in order. *)
Definition zone_sound (j : Z) : Prop :=
  fsck_header_ok (header_at f0 j) = true /\
  forall type c, tree_type type -> reach s (root_blockref j type) c -> sound_ref s opts c /\ ~ below s c c.

Lemma trees_sound type printed fuel best s' :
  tree_type type -> test_blockref addr opts fuel best type s = Ok (true, printed) s' ->
  forall j, j ∈ all_zones_of (hv_size v0) -> forall c, reach s (root_blockref j type) c -> sound_ref s opts c /\ ~ below s c c.
Proof using All.
  intros Hty Hv j Hj c Hc.
  destruct (test_blockref_sound s vols files Hopen v0 f0 Hv0 Hf0 Hpos opts addr Hfiles fuel best type printed s' Hbest Hty Hv) as (Ds & Hall & _).
  apply list_elem_of_lookup in Hj as [k Hk]. destruct (Forall2_lookup_l _ _ _ _ _ Hall Hk) as (D & _ & depth & HD).
  destruct (tree_reach s opts _ _ _ _ HD Hc) as (d' & D' & HD'). split; [by eapply tree_sound_ref|by eapply tree_acyclic].
Qed.
End tests.

Lemma unless_failed_inv opts ok test (s s' : h2state) printed :
  unless_failed opts ok test s = Ok (true, printed) s' -> ok = true /\ test s = Ok (true, printed) s'.
Proof.
  unfold unless_failed. destruct (_ || _); [|done]. intros Hr. apply bind_Ok_inv in Hr as ([ok' p] & s1 & H1 & Hr).
  injection Hr as Hok <- <-. apply andb_true_iff in Hok as [-> ->]. done.
Qed.
