(* ===== verification/H2Agree.v ===== *)
(** * H2Agree: the volumes that are opened are those their headers describe

    Whatever the devices hold: an entry of the table that [hammer2_init_volumes] leaves was
    made from the best header of the file that its descriptor is open on, the headers agree
    with what is noted of the file system, and no two volumes are the same file. *)

From S2P Require Import Prelude HammerDisk Layout CMonad Ondisk H2Disk H2Volumes H2Header H2Verify H2Fsck H2FsckTree H2Open H2FsckSound.

#[local] Opaque Z.to_nat.

Lemma best_header_unique f n z vd z' vd' :
  best_header f n (Some (z, vd)) -> best_header f n (Some (z', vd')) -> z = z' /\ vd = vd'.
Proof.
  intros (Hz & Hc & -> & Hall) (Hz' & Hc' & -> & Hall'). assert (z = z') as ->; [|done].
  destruct (Hall z' Hz' Hc') as [H1 H2], (Hall' z Hz Hc) as [H3 H4].
  destruct (decide (z < z')); [specialize (H4 ltac:(lia)); lia|]. destruct (decide (z' < z)); [specialize (H2 ltac:(lia)); lia|]. lia.
Qed.

(** Descriptors are numbers that were given out. *)
Definition fds_ok (s : h2state) : Prop := forall fd ino, fds s !! fd = Some ino -> fd < next_fd s.

Definition in_use (v : hammer2_volume) : Prop := hv_id v <> -1.
#[export] Instance in_use_dec v : Decision (in_use v).
Proof. unfold in_use. apply _. Defined.

Section agree.
Context (uuid_compare : bytes -> bytes -> Z) (addr : Z) (Huuid : forall u, uuid_compare u u = 0).

(** Entry [k] of the table holds what the best header of its file says. *)
Definition from_header (s : h2state) (k : nat) (v : hammer2_volume) (vd : hammer2_volume_data) : Prop :=
  exists ino nd z, fds s !! hv_fd v = Some ino /\ nodes (sys s) !! ino = Some nd /\ nd_type nd = S_IFREG /\
    best_header (nd_file nd) HAMMER2_NUM_VOLHDRS (Some (z, vd)) /\
    vd_volu_id vd = Z.of_nat k /\ hv_id v = Z.of_nat k /\ vd_volu_loff vd !! k = Some (hv_offset v) /\ vd_volu_size vd = hv_size v.

(** A header that counts volumes says of the file system what is noted of it. *)
Definition agrees (o : hammer2_ondisk) (vd : hammer2_volume_data) : Prop :=
  vd_nvolumes vd <> 0 ->
  s32 (vd_version vd) = o_version o /\ uuid_compare (o_fsid o) (vd_fsid vd) = 0 /\ uuid_compare (o_fstype o) (vd_fstype vd) = 0 /\
  o_nvolumes o <> 0 /\ (HAMMER2_VOL_VERSION_MULTI_VOLUMES <= o_version o -> vd_nvolumes vd = o_nvolumes o).

Record agreed (s : h2state) : Prop := {
  ag_wf : wf_state s;
  ag_sizes : sizes_ok s;
  ag_fds : fds_ok s;
  ag_vols : forall k v, o_volumes (fso s) !! k = Some v -> in_use v -> exists vd, from_header s k v vd /\ agrees (fso s) vd;
  ag_total : o_total_size (fso s) = u64 (sum_Z (hv_size <$> filter in_use (o_volumes (fso s))));
}.

(** ** One volume *)

(** What a run of [hammer2_add_volume] that returned has found and done. *)
Record added (s s' : h2state) (ino : Z) (nd : node) (z : Z) (vd : hammer2_volume_data) (k : nat) (path : bytes) (loff : Z) (o : hammer2_ondisk) : Prop := {
  ad_sys : sys s' = sys s;
  ad_fds : fds s' = <[next_fd s := ino]> (fds s);
  ad_next : next_fd s' = next_fd s + 1;
  ad_node : nodes (sys s) !! ino = Some nd;
  ad_type : nd_type nd = S_IFREG;
  ad_best : best_header (nd_file nd) HAMMER2_NUM_VOLHDRS (Some (z, vd));
  ad_id : vd_volu_id vd = Z.of_nat k;
  ad_free : exists old, o_volumes (fso s) !! k = Some old /\ ~ in_use old;
  ad_loff : vd_volu_loff vd !! k = Some loff;
  ad_fso : fso s' = set_o_volumes (<[k := hammer2_install_volume (next_fd s) (Z.of_nat k) path loff (vd_volu_size vd)]> (o_volumes (fso s)))
                      (u64 (o_total_size (fso s) + vd_volu_size vd)) o;
  ad_header : o_nvolumes (fso s) = 0 /\ o = set_o_header (s32 (vd_version vd)) (vd_nvolumes vd) (vd_fsid vd) (vd_fstype vd) (fso s) \/
    o_nvolumes (fso s) <> 0 /\ o = fso s /\ s32 (vd_version vd) = o_version o /\ vd_nvolumes vd = o_nvolumes o /\
    uuid_compare (o_fsid o) (vd_fsid vd) = 0 /\ uuid_compare (o_fstype o) (vd_fstype vd) = 0;
}.

Lemma add_volume_inv path rdonly s s' :
  wf_state s -> sizes_ok s -> hammer2_add_volume uuid_compare addr path rdonly s = Ok () s' ->
  exists ino nd z vd k loff o, added s s' ino nd z vd k path loff o.
Proof.
  intros [Hf Hw] Hsz Hr. unfold hammer2_add_volume in Hr. apply bind_Ok_inv in Hr as (fd & s1 & Ho & Hr).
  unfold sys_open, mbind, prog_bind, get_state in Ho. destruct (names (sys s) !! path) as [ino|]; [|injection Ho as <- <-; done].
  destruct (nodes (sys s) !! ino) as [nd|] eqn:Hnd; [|injection Ho as <- <-; done].
  destruct (negb rdonly && _); [injection Ho as <- <-; done|]. injection Ho as <- <-. set (s1 := set_fds _ _ s) in Hr.
  apply bind_Ok_inv in Hr as (s2 & s3 & Hg & Hr). injection Hg as <- <-.
  assert (fd_node s1 (next_fd s) = Some (ino, nd)) as Hfd by (unfold fd_node; cbn; rewrite lookup_insert_eq; cbn; by rewrite Hnd).
  rewrite Hfd in Hr. rewrite (bind_Ok _ _ s1 (ino, nd) s1) in Hr by done. inv_checks Hr.
  apply bind_Ok_inv in Hr as (r & s2 & Hh & Hr). pose proof (read_volume_header_ro _ _ _ _ _ Hh) as ->.
  assert (nd_type nd = S_IFREG) as Hreg.
  { unfold hammer2_read_volume_header in Hh. apply bind_Ok_inv in Hh as (size & s2 & Hc' & _). unfold check_volume, mbind, prog_bind, get_state in Hc'.
    rewrite Hfd in Hc'. destruct (nd_type nd); done. }
  pose proof (Hsz _ _ Hnd) as Hn. destruct (read_volume_header_spec addr s1 (next_fd s) ino nd Hfd Hreg) as (r' & Hr' & Hbest);
    [unfold in_u; lia|split; [lia|by apply (Hf ino)]|]. rewrite Hr' in Hh. injection Hh as ->.
  destruct r as [[z vd]|]; [|done]. cbv zeta in Hr. inv_checks Hr. apply orb_false_iff in Hc0 as [Hmin Hmax].
  apply bool_decide_eq_false in Hmin, Hmax.
  apply bind_Ok_inv in Hr as (s2 & s3 & Hg & Hr). injection Hg as <- <-.
  apply bind_Ok_inv in Hr as (old & s2 & Hv & Hr). unfold deref in Hv. destruct (o_volumes (fso s1) !! _) as [old'|] eqn:Hold; [|done].
  injection Hv as -> <-. inv_checks Hr. apply bd_false_not in Hc0. apply bind_Ok_inv in Hr as ([] & s2 & Hhd & Hr).
  apply bind_Ok_inv in Hr as (loff & s3 & Hl & Hr). unfold deref in Hl. destruct (vd_volu_loff vd !! Z.to_nat (vd_volu_id vd)) as [lo|] eqn:El; [|done].
  injection Hl as -> <-. injection Hr as <-. cbn [fso s1 set_fds] in Hold.
  exists ino, nd, z, vd, (Z.to_nat (vd_volu_id vd)), loff, (fso s2).
  assert (sys s2 = sys s /\ fds s2 = fds s1 /\ next_fd s2 = next_fd s1 /\ o_volumes (fso s2) = o_volumes (fso s) /\
    o_total_size (fso s2) = o_total_size (fso s)) as (E1 & E2 & E3 & E4 & E5).
  { case_bool_decide; [injection Hhd as <-; done|]. by inv_checks Hhd. }
  split; try done; [lia|exists old; split; [done|]; unfold in_use; lia| |].
  - cbn [fso set_fso]. rewrite E4, E5, Z2Nat.id by lia. done.
  - case_bool_decide as H0; [left; injection Hhd as <-; done|right]. inv_checks Hhd. apply bd_false_not in Hc1, Hc2, Hc3, Hhd. done.
Qed.

(** ** The table *)

Lemma filter_insert_free (l : list hammer2_volume) k old v :
  l !! k = Some old -> ~ in_use old -> in_use v ->
  sum_Z (hv_size <$> filter in_use (<[k := v]> l)) = sum_Z (hv_size <$> filter in_use l) + hv_size v.
Proof.
  intros Hk Hold Hv. revert k Hk. induction l as [|w l IH]; intros [|k] Hk; [done|done| |]; cbn in Hk.
  - injection Hk as ->. change (<[O := v]> (old :: l)) with (v :: l). rewrite filter_cons_True, filter_cons_False by done. rewrite fmap_cons. cbn [sum_Z foldr]. fold (sum_Z (hv_size <$> filter in_use l)). lia.
  - change (<[S k := v]> (w :: l)) with (w :: <[k := v]> l). rewrite !filter_cons. specialize (IH k Hk).
    destruct (decide (in_use w)); [|done]. cbn. unfold sum_Z in *. lia.
Qed.

Lemma from_header_mono s s' k v vd :
  sys s' = sys s -> (forall fd ino, fds s !! fd = Some ino -> fds s' !! fd = Some ino) -> from_header s k v vd -> from_header s' k v vd.
Proof. intros Hs Hf (ino & nd & z & H1 & H2 & H3). exists ino, nd, z. rewrite Hs. auto. Qed.

Lemma agreed_add path rdonly s s' :
  agreed s -> hammer2_add_volume uuid_compare addr path rdonly s = Ok () s' -> agreed s'.
Proof using Huuid.
  intros [Hw Hsz Hfd Hv Ht] Hr. pose proof (add_volume_keeps _ _ _ _ _ _ _ Hw Hr) as [Hw' Hsys].
  apply add_volume_inv in Hr as (ino & nd & z & vd & k & loff & o & []); [|done|done]. destruct ad_free0 as (old & Hold & Huse).
  set (v := hammer2_install_volume _ _ _ _ _) in *. assert (in_use v) as Hin by (unfold in_use, v; cbn; lia).
  assert (o_volumes (fso s') = <[k := v]> (o_volumes (fso s))) as Etab by (by rewrite ad_fso0).
  assert (forall fd i, fds s !! fd = Some i -> fds s' !! fd = Some i) as Hmono.
  { intros fd i Hi. rewrite ad_fds0. rewrite lookup_insert_ne; [done|]. specialize (Hfd _ _ Hi). lia. }
  split; [done| | | |].
  - intros i n. rewrite Hsys. apply Hsz.
  - intros fd i. rewrite ad_fds0, ad_next0. intros [[<- _]|[_ Hi]]%lookup_insert_Some; [lia|]. specialize (Hfd _ _ Hi). lia.
  - intros j w. rewrite Etab. intros [(-> & <- & _)|[Hne Hj]]%list_lookup_insert_Some Hu.
    + exists vd. split.
      * exists ino, nd, z. rewrite ad_fds0, ad_sys0. cbn. rewrite lookup_insert_eq. done.
      * intros Hnv. rewrite ad_fso0. cbn. destruct ad_header0 as [[H0 ->]|(H0 & -> & H1 & H2 & H3 & H4)]; cbn; [rewrite !Huuid|]; split_and!; done.
    + destruct (Hv j w Hj Hu) as (vd' & Hfrom & Hag). exists vd'. split; [by eapply from_header_mono|]. intros Hnv.
      destruct (Hag Hnv) as (A1 & A2 & A3 & A4 & A5). rewrite ad_fso0. cbn. destruct ad_header0 as [[H0 _]|(_ & -> & _)]; [lia|]. done.
  - rewrite Etab, (filter_insert_free _ _ _ _ Hold Huse Hin), ad_fso0. cbn. rewrite Ht. unfold uwrap. by rewrite Zplus_mod_idemp_l.
Qed.

(** ** All volumes *)

Definition stays_agreed {A} (m : H A) : Prop := forall s a s', agreed s -> m s = Ok a s' -> agreed s'.

Lemma agreed_devices init rdonly devs :
  (forall p, stays_agreed (init p)) -> stays_agreed (add_devices uuid_compare addr init rdonly devs).
Proof using Huuid.
  intros Hi. induction devs as [|d devs IH]; intros s [] s' Ha Hr; cbn [add_devices] in Hr; [by injection Hr as <-|].
  apply bind_Ok_inv in Hr as (s0 & s1 & Hg & Hr). injection Hg as <- <-. cbv zeta in Hr.
  apply bind_Ok_inv in Hr as ([] & s1 & H1 & Hr). eapply IH; [|exact Hr].
  case_bool_decide; [by eapply Hi|by eapply agreed_add].
Qed.

Lemma agreed_init s : files_ok s -> sizes_ok s -> fds_ok s -> agreed (set_fso hammer2_init_ondisk s).
Proof.
  intros Hf Hs Hd. split; [split; [done|apply init_table_wf]|done|done| |].
  - intros k v Hk. cbn in Hk. apply lookup_replicate in Hk as [-> _]. done.
  - cbn. replace (filter in_use _) with (@nil hammer2_volume); [done|]. symmetry.
    induction (Z.to_nat HAMMER2_MAX_VOLUMES) as [|n IH]; [done|]. cbn [replicate]. by rewrite filter_cons_False by (unfold in_use; cbn; auto).
Qed.

(** What [hammer2_verify_volumes] returns is what it was given, or that with the number of
    volumes set to 1 in a file system of an old version. *)
Lemma verify_volumes_result fsp root fsp' s s' :
  hammer2_verify_volumes fsp root s = Ok fsp' s' ->
  fsp' = fsp \/ o_version fsp < HAMMER2_VOL_VERSION_MULTI_VOLUMES /\ fsp' = set_o_nvolumes 1 fsp.
Proof.
  intros Hr. unfold hammer2_verify_volumes in Hr. apply bind_Ok_inv in Hr as ([] & s1 & _ & Hr).
  apply bind_Ok_inv in Hr as (o & s2 & Hv & Hr). apply bind_Ok_inv in Hr as ([] & s3 & _ & Hr). injection Hr as <- _.
  case_bool_decide as Hm; [left; apply bind_Ok_inv in Hv as ([] & s4 & _ & Hv); by injection Hv|right]. split; [lia|].
  unfold hammer2_verify_volumes_1 in Hv. cbv zeta in Hv. inv_checks Hv. apply bd_false_not in Hc. rewrite Hc in Hv.
  apply bind_Ok_inv in Hv as ([] & s4 & _ & Hv). apply bind_Ok_inv in Hv as (v & s5 & _ & Hv). inv_checks Hv. by injection Hv.
Qed.

Lemma agreed_verified fsp' s :
  agreed s -> table_wf fsp' ->
  fsp' = fso s \/ o_version (fso s) < HAMMER2_VOL_VERSION_MULTI_VOLUMES /\ fsp' = set_o_nvolumes 1 (fso s) ->
  agreed (set_fso fsp' s).
Proof.
  intros [[Hf Hw] Hsz Hfd Hv Ht] Hw' [->|[Hold ->]]; (split; [done|done|done| |done]).
  - intros k v Hk Hu. by apply Hv.
  - intros k v Hk Hu. destruct (Hv k v Hk Hu) as (vd & H1 & H2). exists vd. split; [done|]. intros Hnv.
    destruct (H2 Hnv) as (A1 & A2 & A3 & A4 & A5). split_and!; try done. cbn. lia.
Qed.

Lemma agreed_init_volumes fuel : forall blkdevs rdonly s s',
  files_ok s -> sizes_ok s -> fds_ok s -> hammer2_init_volumes uuid_compare addr fuel blkdevs rdonly s = Ok () s' ->
  exists s1 root, agreed s1 /\ hammer2_volumes_initialized s1 = true /\ sys s1 = sys s /\ hammer2_read_root_volume_header addr s1 = Ok root s1 /\
    hammer2_verify_volumes (fso s1) root s1 = Ok (fso s') s1 /\ s' = set_fso (fso s') s1 /\ agreed s'.
Proof using Huuid.
  induction fuel as [|fuel IH]; intros blkdevs rdonly s s' Hf Hsz Hfd Hr; cbn [hammer2_init_volumes] in Hr; [done|].
  apply bind_Ok_inv in Hr as (s0 & s1 & Hg & Hr). injection Hg as <- <-.
  apply bind_Ok_inv in Hr as ([] & s1 & He & Hr). apply errx_if_ro in He as ->. destruct blkdevs as [p|]; [|done].
  apply bind_Ok_inv in Hr as ([] & s1 & Hm & Hr). apply modify_inv in Hm as ->.
  apply bind_Ok_inv in Hr as ([] & s2 & Ha & Hr).
  assert (agreed s2 /\ sys s2 = sys s) as [Hag Hsys].
  { split.
    - eapply agreed_devices; [|by apply agreed_init|exact Ha]. intros q t [] t' Hag Ht.
      destruct (IH _ _ _ _ (proj1 (ag_wf _ Hag)) (ag_sizes _ Hag) (ag_fds _ Hag) Ht) as (? & ? & _ & _ & _ & _ & _ & _ & ?). done.
    - apply add_devices_keeps in Ha as [_ Hs]; [exact Hs|intros q; apply init_volumes_keeps|split; [exact Hf|apply init_table_wf]]. }
  apply bind_Ok_inv in Hr as ([] & s3 & Hm & Hr). apply modify_inv in Hm as ->.
  assert (agreed (set_initialized true s2)) as Hag' by (destruct Hag; by split).
  apply bind_Ok_inv in Hr as (root & s3 & Hrt & Hr). pose proof (read_root_ro _ _ _ _ Hrt) as ->.
  apply bind_Ok_inv in Hr as (s3 & s4 & Hg & Hr). injection Hg as <- <-.
  apply bind_Ok_inv in Hr as (fsp & s3 & Hv & Hr). pose proof (verify_volumes_ro _ _ _ _ _ Hv) as ->. apply modify_inv in Hr as ->.
  exists (set_initialized true s2), root. split_and!; try done. apply agreed_verified; [done| |by eapply verify_volumes_result].
  apply verify_volumes_tiles in Hv as [Hwf _]; [exact Hwf|apply Hag].
Qed.

(** ** What the checks add *)

(** The files of two volumes differ, and differ from those before. *)
Lemma verify_common_distinct vols : forall i st s s',
  verify_common_loop vols i st s = Ok () s' ->
  (forall k v, vols !! k = Some v -> in_use v -> hv_fd v <> -1 /\ exists ino, fds s !! hv_fd v = Some ino /\ Some ino ∉ take i st) /\
  (forall j k v w, vols !! j = Some v -> vols !! k = Some w -> in_use v -> in_use w -> (j < k)%nat -> fds s !! hv_fd v <> fds s !! hv_fd w).
Proof.
  induction vols as [|u vols IH]; intros i st s s' Hv; [by split; intros [|?]|]. cbn [verify_common_loop] in Hv. case_bool_decide as Hu.
  { destruct (IH _ _ _ _ Hv) as [H1 H2]. split.
    - intros [|k] v Hk Hin; [injection Hk as ->; by destruct Hin|]. destruct (H1 k v Hk Hin) as (Hfd & ino & Hi & Hn). split; [done|]. exists ino. split; [done|].
      intros [m [Hm Hlt]%lookup_take_Some]%list_elem_of_lookup. apply Hn, list_elem_of_lookup. exists m. rewrite lookup_take_lt; [exact Hm|lia].
    - intros [|j] [|k] v w Hj Hk Hv1 Hw1 Hlt; [lia|injection Hj as ->; by destruct Hv1|lia|]. apply (H2 j k v w); try done. lia. }
  apply bind_Ok_inv in Hv as (s1 & s2 & Hg & Hv). injection Hg as <- <-. apply bind_Ok_inv in Hv as ([] & s1 & H1 & Hv).
  assert (s1 = s /\ (i < length st)%nat) as [-> Hlen].
  { destruct (hv_path u ≫= path_ino s); [|done]. destruct (bool_decide_reflect (i < length st)%nat); [|done]. by injection H1 as <-. }
  apply bind_Ok_inv in Hv as ([ino nd] & s1 & H2 & Hv).
  assert (s1 = s /\ fds s !! hv_fd u = Some ino) as [-> Hino].
  { unfold fd_node in H2. destruct (fds s !! hv_fd u) as [i0|]; [|done]. cbn in H2. destruct (nodes (sys s) !! i0); [|done]. by injection H2 as <- _ <-. }
  inv_checks Hv. apply bool_decide_eq_false in Hc, Hc0.
  apply bind_Ok_inv in Hv as (size & s1 & Hcv & Hv). pose proof (check_volume_ro _ _ _ _ Hcv) as ->. inv_checks Hv.
  destruct (IH _ _ _ _ Hv) as [H3 H4].
  assert (take (S i) (<[i := Some ino]> st) = take i st ++ [Some ino]) as Htake.
  { rewrite (take_S_r _ i (Some ino)) by (by apply list_lookup_insert_eq). by rewrite take_insert_ge by lia. }
  assert (forall k v, vols !! k = Some v -> in_use v -> hv_fd v <> -1 /\ exists ino', fds s !! hv_fd v = Some ino' /\ (Some ino' ∉ take i st) /\ ino' <> ino) as H5.
  { intros k v Hk Hin. destruct (H3 k v Hk Hin) as (Hfd & ino' & Hi & Hn). split; [done|]. exists ino'. rewrite Htake, elem_of_app, list_elem_of_singleton in Hn.
    split; [done|]. split; [tauto|]. intros ->. tauto. }
  split.
  - intros [|k] v Hk Hin; [injection Hk as <-; by eauto|]. destruct (H5 k v Hk Hin) as (Hfd & ino' & Hi & Hn & _). eauto.
  - intros [|j] [|k] v w Hj Hk Hv1 Hw1 Hlt; [lia| |lia|apply (H4 j k v w); try done; lia]. injection Hj as <-.
    destruct (H5 k w Hk Hw1) as (_ & ino' & Hi & _ & Hne). rewrite Hino, Hi. congruence.
Qed.

Lemma filter_take {A} (P : A -> Prop) `{!forall x, Decision (P x)} (l : list A) n :
  (forall k x, l !! k = Some x -> P x <-> (k < n)%nat) -> filter P l = take n l.
Proof.
  revert n. induction l as [|x l IH]; intros n Hl; [by rewrite take_nil|]. pose proof (Hl O x eq_refl) as E0. rewrite filter_cons. destruct n as [|n].
  - rewrite decide_False by (rewrite E0; lia). rewrite (IH O); [by rewrite !take_0|]. intros k y Hk. rewrite (Hl (S k) y Hk). lia.
  - rewrite decide_True by (apply E0; lia). cbn. f_equal. apply IH. intros k y Hk. rewrite (Hl (S k) y Hk). lia.
Qed.

(** The volumes in use are the first ones, and nothing else has passed. *)
Lemma verify_volumes_in_use fsp root fsp' s s' :
  table_wf fsp -> hammer2_verify_volumes fsp root s = Ok fsp' s' -> filter in_use (o_volumes fsp') = take (Z.to_nat (o_nvolumes fsp')) (o_volumes fsp').
Proof.
  intros Hw Hr. unfold hammer2_verify_volumes in Hr. apply bind_Ok_inv in Hr as ([] & s1 & _ & Hr).
  apply bind_Ok_inv in Hr as (o & s2 & Hv & Hr). apply bind_Ok_inv in Hr as ([] & s3 & _ & Hr). injection Hr as <- _. case_bool_decide.
  - apply bind_Ok_inv in Hv as ([] & s4 & Hv & Ho). injection Ho as <- _. destruct (verify_2_prefix _ _ _ _ Hw Hv) as [_ Hids].
    apply filter_take. intros k v Hk. destruct (Hids k v Hk) as [_ Hid]. unfold in_use. rewrite Hid. lia.
  - unfold hammer2_verify_volumes_1 in Hv. cbv zeta in Hv. inv_checks Hv. apply bd_false_not in Hc.
    apply bind_Ok_inv in Hv as ([] & s4 & _ & Hv). apply bind_Ok_inv in Hv as (v & s5 & Hv0 & Hv). inv_checks Hv. apply bd_false_not in Hc0.
    injection Hv as <- _. cbn [o_volumes o_nvolumes set_o_nvolumes] in *. rewrite Hc. replace (Z.to_nat 1) with 1%nat by lia.
    rewrite count_volumes_filter in Hc. change (filter (λ v, hv_id v <> -1) (o_volumes fsp)) with (filter in_use (o_volumes fsp)) in Hc.
    destruct (o_volumes fsp) as [|w ws]; [done|]. cbn in Hv0. injection Hv0 as -> _. rewrite filter_cons_True in * by (unfold in_use; lia).
    cbn in Hc. assert (filter in_use ws = []) as -> by (destruct (filter in_use ws); [done|cbn in Hc; lia]). cbn. by rewrite take_0.
Qed.

(** The header of the root volume has been compared. *)
Lemma verify_2_root fsp rv s s' :
  hammer2_verify_volumes_2 fsp (Some rv) s = Ok () s' -> vd_nvolumes rv = o_nvolumes (fso s) /\ vd_total_size rv = o_total_size (fso s).
Proof.
  intros Hv. unfold hammer2_verify_volumes_2 in Hv. inv_checks Hv. apply bind_Ok_inv in Hv as ([] & s1 & Hr & _).
  apply bind_Ok_inv in Hr as (s2 & s3 & Hg & Hr). injection Hg as <- <-. inv_checks Hr. by apply bd_false_not in Hc1, Hc2.
Qed.

Lemma read_root_first s v root :
  hammer2_read_root_volume_header addr s = Ok root s -> hammer2_volumes_initialized s = true -> o_volumes (fso s) !! O = Some v ->
  hv_offset v = 0 -> 0 < hv_size v < 2 ^ 64 -> 0 < o_nvolumes (fso s) -> hv_fd v <> -1 ->
  exists z vd, root = Some vd /\ hammer2_read_volume_header addr (hv_fd v) s = Ok (Some (z, vd)) s.
Proof.
  intros Hr Hi Hv Ho Hs Hn Hfd.
  assert (hammer2_get_volume_attr 0 s = Ok (Some v) s) as Ha.
  { unfold hammer2_get_volume_attr. rewrite (bind_Ok _ _ s s s) by done. rewrite Hi. rewrite (bind_Ok _ _ s () s) by done. change (0 .& _) with 0.
    destruct (Z.to_nat (o_nvolumes (fso s))) as [|n] eqn:En; [lia|]. cbn [find_volume]. rewrite Hv, (bind_Ok _ _ s v s) by done.
    rewrite Ho, !bool_decide_eq_true_2; [done| |lia]. rewrite uwrap_small by (unfold in_u; lia). lia. }
  unfold hammer2_read_root_volume_header, hammer2_get_root_volume_fd, hammer2_get_root_volume_path, hammer2_get_volume_fd, hammer2_get_volume_path, get_attr in Hr.
  rewrite (bind_Ok _ _ s (hv_fd v) s) in Hr by (by rewrite (bind_Ok _ _ _ _ _ Ha)).
  rewrite (bind_Ok _ _ s (hv_path v) s) in Hr by (by rewrite (bind_Ok _ _ _ _ _ Ha)).
  rewrite bool_decide_eq_false_2 in Hr by done. apply bind_Ok_inv in Hr as (r & s1 & Hh & Hr). pose proof (read_volume_header_ro _ _ _ _ _ Hh) as ->.
  destruct r as [[z vd]|]; [|done]. injection Hr as <-. by exists z, vd.
Qed.

(** The same for the table that was verified. *)
Lemma verified_distinct fsp root fsp' s :
  hammer2_verify_volumes fsp root s = Ok fsp' s ->
  (forall k v, o_volumes fsp' !! k = Some v -> in_use v -> hv_fd v <> -1 /\ exists ino, fds s !! hv_fd v = Some ino) /\
  (forall j k v w, o_volumes fsp' !! j = Some v -> o_volumes fsp' !! k = Some w -> in_use v -> in_use w -> (j < k)%nat ->
     fds s !! hv_fd v <> fds s !! hv_fd w).
Proof.
  intros Hr. assert (o_volumes fsp' = o_volumes fsp) as -> by (by apply verify_volumes_result in Hr as [->|[_ ->]]).
  unfold hammer2_verify_volumes in Hr. apply bind_Ok_inv in Hr as ([] & s1 & Hcom & _). unfold hammer2_verify_volumes_common in Hcom. inv_checks Hcom.
  destruct (verify_common_distinct _ _ _ _ _ Hcom) as [H1 H2]. split; [|exact H2]. intros k v Hk Hv. destruct (H1 k v Hk Hv) as (Hfd & ino & Hi & _). eauto.
Qed.

Lemma root_compared s root fsp' v ino nd z vd :
  agreed s -> hammer2_volumes_initialized s = true -> hammer2_read_root_volume_header addr s = Ok root s ->
  hammer2_verify_volumes (fso s) root s = Ok fsp' s -> HAMMER2_VOL_VERSION_MULTI_VOLUMES <= o_version fsp' ->
  o_volumes fsp' !! O = Some v -> in_use v -> hv_fd v <> -1 -> 0 < hv_size v -> fd_node s (hv_fd v) = Some (ino, nd) -> nd_type nd = S_IFREG ->
  best_header (nd_file nd) HAMMER2_NUM_VOLHDRS (Some (z, vd)) -> vd_nvolumes vd = o_nvolumes fsp' /\ vd_total_size vd = o_total_size fsp'.
Proof.
  intros [[Hf Hw] Hsz _ _ _] Hi Hrt Hver Hm Hv Hin Hfd Hpos Hnode Hreg Hbest.
  assert (fsp' = fso s) as -> by (destruct (verify_volumes_result _ _ _ _ _ Hver) as [->|[Hold ->]]; [done|cbn in Hm; lia]).
  unfold hammer2_verify_volumes in Hver. apply bind_Ok_inv in Hver as ([] & s1 & Hcom & Hver).
  assert (s1 = s) as -> by (unfold hammer2_verify_volumes_common in Hcom; inv_checks Hcom; by apply verify_common_ro in Hcom).
  rewrite bool_decide_eq_true_2 in Hver by done. apply bind_Ok_inv in Hver as (o & s2 & H2 & Hver). apply bind_Ok_inv in H2 as ([] & s3 & H2 & Ho).
  injection Ho as <- _. apply bind_Ok_inv in Hver as ([] & s4 & Ha & _).
  assert (0 < o_nvolumes (fso s)) as Hn by (destruct (bool_decide_reflect (0 < o_nvolumes (fso s))); done).
  destruct Hw as [_ Hw]. destruct (Hw O v Hv) as (_ & _ & Hvs). pose proof (verify_2_inv _ _ _ _ H2) as (-> & _ & Hchk).
  destruct (Hchk O v Hv Hin) as [Ho _]. cbn in Ho.
  destruct (read_root_first s v root Hrt Hi Hv Ho ltac:(unfold in_u in Hvs; lia) Hn Hfd) as (z' & vd' & -> & Hrd).
  unfold fd_node in Hnode. destruct (fds s !! hv_fd v) as [i0|] eqn:Ei; [|done]. cbn in Hnode. destruct (nodes (sys s) !! i0) as [n0|] eqn:En; [|done].
  cbn in Hnode. injection Hnode as -> ->. pose proof (Hsz _ _ En) as Hn0.
  destruct (read_volume_header_spec addr s (hv_fd v) ino nd) as (r & Hr & Hb);
    [unfold fd_node; rewrite Ei; cbn; by rewrite En|done|unfold in_u; lia|split; [lia|by apply (Hf ino)]|].
  rewrite Hrd in Hr. injection Hr as <-. destruct (best_header_unique _ _ _ _ _ _ Hbest Hb) as [_ ->]. by apply verify_2_root in H2.
Qed.
End agree.
