(* ===== verification/H2Demo.v ===== *)
(** * H2Demo: a small system with HAMMER2 volumes

    Two files of zeroes, of 1 GB each, and the options of newfs_hammer2, for examples. *)

From S2P Require Import Prelude HammerDisk Layout CMonad Ondisk Newfs H2Disk H2Volumes H2Mkfs H2Header H2Verify H2Accept H2Inode H2Format H2Newfs H2Reopen H2Roundtrip H2Fsck H2FsckTree.

#[local] Opaque Z.to_nat.

Definition demo_file : file := {| f_size := 2 ^ 30; f_growable := true; f_data := λ _, 0 |}.
Definition demo_node : node := {| nd_type := S_IFREG; nd_writable := true; nd_sectsize := 512; nd_file := demo_file |}.
Definition demo_system : system :=
  {| names := {[ [47; 97] := 1; [47; 98] := 2 ]}; nodes := {[ 1 := demo_node; 2 := demo_node ]}; devtabs := [] |}.
Definition demo_dev (c ino : Z) : device := {| d_path := [47; c]; d_ino := ino; d_node := demo_node |}.
Definition demo_devs : list device := [demo_dev 97 1; demo_dev 98 2].
Definition demo_uuid (_ : nat) : bytes := replicate 16 1.
Definition demo_cmp (a b : bytes) : Z := if bool_decide (a = b) then 0 else 1.

Definition demo_opt : hammer2_mkfs_options :=
  {| Hammer2Version := 2; Hammer2_FSType := replicate 16 2; Hammer2_VolFSID := replicate 16 3;
     Hammer2_SupCLID := replicate 16 4; Hammer2_SupFSID := replicate 16 5; opt_BootAreaSize := 0;
     opt_AuxAreaSize := 0; Label := [str_LOCAL]; CompType := HAMMER2_COMP_NEWFS_DEFAULT;
     CheckType := HAMMER2_CHECK_XXHASH64; DefaultLabelType := HAMMER2_LABEL_DATA; DebugOpt := false |}.

Lemma demo_raw n x : in_u 8 x -> raw n (replicate n x).
Proof. intros Hx. split; [apply length_replicate|by apply Forall_replicate]. Qed.

Lemma demo_uuid_raw i : raw 16 (demo_uuid i).
Proof. by apply demo_raw. Qed.

Lemma demo_cmp_refl u : demo_cmp u u = 0.
Proof. unfold demo_cmp. by rewrite bool_decide_eq_true_2. Qed.

Lemma demo_device_ok c ino :
  names demo_system !! [47; c] = Some ino -> nodes demo_system !! ino = Some demo_node -> device_ok demo_system (demo_dev c ino).
Proof. intros Hn Hi. split_and!; [exact Hn|exact Hi|done|done|]. split; [cbn; lia|done]. Qed.

Lemma demo_fs_size : fs_size demo_devs = 2 ^ 31.
Proof. vm_compute. reflexivity. Qed.

Lemma demo_mkfs_ok : mkfs_ok demo_system demo_devs demo_opt.
Proof.
  split.
  - constructor; [by apply demo_device_ok|]. constructor; [by apply demo_device_ok|constructor].
  - cbn. lia.
  - cbn. apply NoDup_cons. split; [set_solver|]. apply NoDup_singleton.
  - intros [|[|k]] d Hd; cbn in Hd; try done; injection Hd as <-; cbn; intros; vm_compute; by intros ?.
  - repeat constructor; vm_compute; by intros ?.
  - vm_compute. reflexivity.
  - reflexivity.
  - split; split; vm_compute; by intros ?.
  - repeat constructor; vm_compute; try (split; (done || by intros ?)); done.
  - cbn. lia.
  - by apply demo_raw.
  - by apply demo_raw.
  - by apply demo_raw.
  - by apply demo_raw.
  - rewrite demo_fs_size. vm_compute. by intros ?.
Qed.

Lemma demo_no_stale k d : demo_devs !! k = Some d -> no_stale (Z.of_nat (length demo_devs)) k d.
Proof.
  intros Hd j Hj Hv. unfold candidate. rewrite bool_decide_eq_false_2; [done|].
  assert (d_file d = demo_file) as -> by (destruct k as [|[|k]]; cbn in Hd; try done; by injection Hd as <-).
  assert (vol_size (Z.of_nat (length demo_devs)) k (d_size d) = 2 ^ 30) as Hs.
  { destruct k as [|[|k]]; cbn in Hd; try done; injection Hd as <-; vm_compute; reflexivity. }
  rewrite Hs in Hv. cbn [f_size demo_file]. clear -Hv Hj. h2_unfold. lia.
Qed.

Lemma demo_plain : Forall (λ d, plain_path (d_path d)) demo_devs.
Proof. repeat constructor; cbn; set_solver. Qed.

Lemma demo_bytes ino nd : nodes demo_system !! ino = Some nd -> forall i, in_u 8 (f_data (nd_file nd) i).
Proof.
  intros Hn i. cbn in Hn. apply lookup_insert_Some in Hn as [(_ & <-)|(_ & Hn)]; [done|].
  apply lookup_singleton_Some in Hn as [_ <-]. done.
Qed.

Lemma demo_sizes : sizes_ok (start demo_system).
Proof.
  intros ino nd Hn. cbn in Hn. apply lookup_insert_Some in Hn as [(_ & <-)|(_ & Hn)]; [done|].
  apply lookup_singleton_Some in Hn as [_ <-]. done.
Qed.
