(* ===== verification/H2Props.v ===== *)
(** * H2Props: HAMMER2 volumes and newfs_hammer2

    The properties of the volume table, of opening a file system and of making one. *)

From S2P Require Import Prelude HammerDisk Layout Crc32 CMonad Ondisk Newfs NewfsProps H2Disk H2Volumes H2Mkfs H2Header H2Verify H2Accept H2Inode H2Format H2Newfs H2Reopen H2Roundtrip H2Fsck H2FsckRead H2FsckTree H2FsckVerify H2FsckNew H2Open H2FsckSound H2Agree H2Demo.

#[local] Opaque Z.to_nat.

(** ** From newfs_hammer2 to an open file system *)

(** A volume that the table gives for an offset: number [k] of the devices, open. *)
Definition found (s : h2state) (devs : list device) (sizes : list Z) (k : nat) (v : hammer2_volume) : Prop :=
  exists d, devs !! k = Some d /\ hv_id v = Z.of_nat k /\ hv_path v = Some (d_path d) /\
    hv_offset v = sum_Z (take k sizes) /\ sizes !! k = Some (hv_size v) /\ fds s !! hv_fd v = Some (d_ino d).

Lemma reopened_translate y devs vols s2 :
  reopened y devs vols s2 -> tiles 0 0 vols -> length vols = length devs ->
  forall off, in_u 64 off ->
  exists r, hammer2_get_volume_attr off s2 = Ok r s2 /\
    match volume_of (hv_size <$> vols) (off .& bnot 64 HAMMER2_OFF_MASK_RADIX), r with
    | Some (k, _), Some v => found s2 devs (hv_size <$> vols) k v
    | None, None => True
    | _, _ => False
    end.
Proof.
  intros (_ & vols' & Hare & Hlen & _ & Hvol) Ht Hl off Hoff. rewrite (get_volume_attr_tiles s2 vols' off Hare Hoff).
  assert (hv_size <$> vols' = hv_size <$> vols) as Hsz.
  { apply list_eq_same_length with (length devs); [by rewrite length_fmap|by rewrite length_fmap|].
    intros k a b Hk Ha Hb. destruct (lookup_lt_is_Some_2 devs k) as [d Hd]; [lia|]. destruct (lookup_lt_is_Some_2 vols k) as [v Hv]; [lia|].
    destruct (Hvol k d v Hd Hv) as (v' & Hv' & _ & _ & _ & Hs & _). rewrite list_lookup_fmap, Hv' in Ha. rewrite list_lookup_fmap, Hv in Hb.
    injection Ha as <-. injection Hb as <-. done. }
  rewrite Hsz. set (o := off .& _). eexists. split; [reflexivity|].
  destruct (volume_of (hv_size <$> vols) o) as [[k r]|] eqn:E; [|done].
  assert (0 <= o) as Ho by (apply Z.land_nonneg; left; apply Hoff).
  destruct (volume_of_total (hv_size <$> vols) o (tiles_sizes _ _ _ Ht) Ho) as [_ Hf]. destruct (Hf k r E) as (z & Hz & _ & _).
  rewrite list_lookup_fmap in Hz. destruct (vols !! k) as [v|] eqn:Hv; [|done]. cbn in Hz. injection Hz as <-.
  destruct (lookup_lt_is_Some_2 devs k) as [d Hd]; [rewrite <- Hl; by eapply lookup_lt_Some|].
  destruct (Hvol k d v Hd Hv) as (v' & Hv' & Hid & Hp & Ho' & Hs & Hfd & _). rewrite Hv'.
  destruct (tiles_lookup _ _ _ _ _ Ht Hv) as [_ Hoff']. exists d. split_and!; try done.
  - rewrite Ho', Hoff'. lia.
  - rewrite list_lookup_fmap, Hv. cbn. by rewrite Hs.
Qed.

(** C28: newfs_hammer2 and the opening of volumes fit: on regular files that are large enough,
    newfs_hammer2 runs to the end; another process that is given the files, in any order,
    opens them as one file system, and finds for every offset the volume, and in it the
    place, that the concatenation of the volumes has there.  ([no_stale] excludes old headers
    that newfs_hammer2 does not overwrite; [uuid_compare] of libuuid gives 0 on equal uuids.) *)
Theorem newfs_then_open (uuid_generate : nat -> bytes) (uuid_compare : bytes -> bytes -> Z) (now addr addr' : Z)
    (y : system) (devs order : list device) (opt : hammer2_mkfs_options) (fuel : nat) (rdonly : bool) :
  (forall i, raw 16 (uuid_generate i)) -> (forall u, uuid_compare u u = 0) -> in_u 64 now ->
  mkfs_ok y devs opt -> (forall k d, devs !! k = Some d -> no_stale (Z.of_nat (length devs)) k d) ->
  Forall (λ d, plain_path (d_path d)) devs -> order ≡ₚ devs ->
  exists s1 s2, hammer2_mkfs uuid_generate now addr (d_path <$> devs) opt (start y) = Ok () s1 /\
    hammer2_init_volumes uuid_compare addr' (S fuel) (Some (join_colon (d_path <$> order))) rdonly (start (sys s1)) = Ok () s2 /\
    o_total_size (fso s2) = fs_size devs /\
    forall off, in_u 64 off -> exists r, hammer2_get_volume_attr off s2 = Ok r s2 /\
      match volume_of (hv_size <$> mkfs_vols 0 devs) (off .& bnot 64 HAMMER2_OFF_MASK_RADIX), r with
      | Some (k, _), Some v => exists d, devs !! k = Some d /\ hv_id v = Z.of_nat k /\ hv_path v = Some (d_path d) /\
          hv_offset v = sum_Z (take k (hv_size <$> mkfs_vols 0 devs)) /\ fds s2 !! hv_fd v = Some (d_ino d)
      | None, None => True
      | _, _ => False
      end.
Proof.
  intros Huuid Hcmp Hnow Hok Hst Hpl Hord.
  destruct (hammer2_mkfs_spec uuid_generate now addr devs opt (start y) Huuid Hnow Hok ltac:(cbn; lia))
    as (s1 & Hrun & Hnm & Hdt & Hnd & Hform).
  destruct (newfs_reopened uuid_generate now y devs opt s1 Huuid Hnow Hok 3 Hform Hnm Hst Hpl uuid_compare addr' fuel rdonly order
    (start (sys s1)) Hcmp Hord eq_refl eq_refl ltac:(cbn; lia)) as (l & s2 & Hl & Hmade & Hinit & Hre).
  exists s1, s2. split_and!; [done|done| |].
  - destruct Hre as (_ & vols' & _ & _ & Htot & _). rewrite Htot. by destruct (mkfs_vols_total y devs opt Hok 3).
  - intros off Hoff. assert (hv_size <$> mkfs_vols 0 devs = hv_size <$> mkfs_vols 3 devs) as -> by apply vols_of_sizes.
    destruct (reopened_translate _ _ _ _ Hre (mkfs_vols_tiles y devs opt Hok 3)
      ltac:(by rewrite length_new_devs, length_mkfs_vols) off Hoff) as (r & Hr & Hm). exists r. split; [done|].
    destruct (volume_of _ _) as [[k o]|]; [|done]. destruct r as [v|]; [|done].
    destruct Hm as (d & Hd & Hid & Hp & Ho & _ & Hfd). unfold new_devs in Hd. rewrite lookup_zip_with in Hd.
    destruct (devs !! k) as [d0|] eqn:Hd0; [|done]. destruct (l !! k); [|done]. cbn in Hd. injection Hd as <-. by exists d0.
Qed.

Lemma newfs_then_open_witness :
  exists s1 s2, hammer2_mkfs demo_uuid 5 64 [[47; 97]; [47; 98]] demo_opt (start demo_system) = Ok () s1 /\
    hammer2_init_volumes demo_cmp 128 1 (Some [47; 98; 58; 47; 97]) true (start (sys s1)) = Ok () s2 /\
    o_total_size (fso s2) = 2 ^ 31.
Proof.
  destruct (newfs_then_open demo_uuid demo_cmp 5 64 128 demo_system demo_devs (reverse demo_devs) demo_opt 0 true)
    as (s1 & s2 & H1 & H2 & H3 & _);
    [apply demo_uuid_raw|apply demo_cmp_refl|done|apply demo_mkfs_ok|apply demo_no_stale|apply demo_plain|apply reverse_Permutation|].
  exists s1, s2. split; [exact H1|]. split; [exact H2|]. rewrite H3. apply demo_fs_size.
Defined.

(** ** Opening volumes *)

(** Making and opening a file system, with what is needed of the files. *)
Lemma newfs_open_run (uuid_generate : nat -> bytes) (uuid_compare : bytes -> bytes -> Z) (now addr addr' : Z)
    (y : system) (devs : list device) (opt : hammer2_mkfs_options) (fuel : nat) (rdonly : bool) :
  (forall i, raw 16 (uuid_generate i)) -> (forall u, uuid_compare u u = 0) -> in_u 64 now ->
  mkfs_ok y devs opt -> (forall k d, devs !! k = Some d -> no_stale (Z.of_nat (length devs)) k d) ->
  (forall ino nd, nodes y !! ino = Some nd -> forall i, in_u 8 (f_data (nd_file nd) i)) ->
  Forall (λ d, plain_path (d_path d)) devs ->
  exists s1 s2, hammer2_mkfs uuid_generate now addr (d_path <$> devs) opt (start y) = Ok () s1 /\
    hammer2_init_volumes uuid_compare addr' (S fuel) (Some (join_colon (d_path <$> devs))) rdonly (start (sys s1)) = Ok () s2 /\
    files_ok (start (sys s1)) /\ (sizes_ok (start y) -> sizes_ok (start (sys s1))) /\
    hv_size <$> take (Z.to_nat (o_nvolumes (fso s2))) (o_volumes (fso s2)) = hv_size <$> mkfs_vols 0 devs /\
    forall k d, devs !! k = Some d -> exists devs' d' vd v,
      length devs' = length devs /\ d_path d' = d_path d /\ mkfs_vols 3 devs !! k = Some v /\
      member (sys s1) devs' (Hammer2_VolFSID opt) (Hammer2_FSType opt) k d' vd v.
Proof.
  intros Huuid Hcmp Hnow Hok Hst Hby Hpl.
  destruct (hammer2_mkfs_spec uuid_generate now addr devs opt (start y) Huuid Hnow Hok ltac:(cbn; lia))
    as (s1 & Hrun & Hnm & Hdt & Hsame & Hform). cbn [next_fd start] in Hform.
  destruct (newfs_reopened uuid_generate now y devs opt s1 Huuid Hnow Hok 3 Hform Hnm Hst Hpl uuid_compare addr' fuel rdonly devs
    (start (sys s1)) Hcmp (Permutation_refl _) eq_refl eq_refl ltac:(cbn; lia)) as (l & s2 & Hl & Hmade & Hinit & Hre).
  exists s1, s2. split_and!; [done|done| | | |].
  - pose proof (new_files_ok uuid_generate now y devs opt s1 Huuid Hnow Hok 3 l Hl Hmade Hby Hsame s2 Hre) as Hf.
    destruct Hre as [Hy _]. unfold files_ok in *. cbn [sys start]. by rewrite Hy in Hf.
  - apply (new_sizes_ok uuid_generate now y devs opt s1 3 Hform Hsame (mo_devs _ _ _ Hok)).
  - destruct (new_open_fs uuid_generate now y devs opt s1 Huuid Hnow Hok 3 l Hl Hmade Hby Hsame s2 Hre)
      as (vols' & ((_ & Hn & Ht & _) & _) & Hsz). rewrite Hn, Nat2Z.id, Ht, Hsz. apply vols_of_sizes.
  - intros k d Hd. destruct (lookup_lt_is_Some_2 l k) as [df Hdf]; [rewrite Hl; by eapply lookup_lt_Some|].
    destruct (mkfs_vols_dev devs 3 k d Hd) as (v & Hv & _).
    exists (new_devs devs l), (with_content d df.1), df.2, v. split_and!; [by apply length_new_devs|done|done|].
    apply (new_member uuid_generate now y devs opt s1 Huuid Hnow Hok 3 Hform Hnm Hst Hpl l Hl Hmade); done.
Qed.



(** C29: However the volumes came to be: if [hammer2_init_volumes] returns and the sizes of the
    volumes add up to less than 2^64, the volumes form one address space, and
    [hammer2_get_volume_attr] translates every offset: to the volume that the concatenation
    of the volumes has there, and to none past the end. *)
Theorem volumes_one_address_space (uuid_compare : bytes -> bytes -> Z) (addr : Z) (fuel : nat) (blkdevs : option bytes)
    (rdonly : bool) (s s' : h2state) :
  files_ok s -> hammer2_init_volumes uuid_compare addr fuel blkdevs rdonly s = Ok () s' ->
  let vols := take (Z.to_nat (o_nvolumes (fso s'))) (o_volumes (fso s')) in
  sum_Z (hv_size <$> vols) < 2 ^ 64 ->
  vols <> [] /\
  forall off, in_u 64 off -> exists r, hammer2_get_volume_attr off s' = Ok r s' /\
    let o := off .& bnot 64 HAMMER2_OFF_MASK_RADIX in
    match r with
    | Some v => exists k, vols !! k = Some v /\ hv_id v = Z.of_nat k /\ hv_offset v = sum_Z (take k (hv_size <$> vols)) /\
        hv_offset v <= o < hv_offset v + hv_size v
    | None => sum_Z (hv_size <$> vols) <= o
    end.
Proof.
  intros Hf Hr vols Hsum. destruct (init_volumes_inv _ _ _ _ _ _ _ Hf Hr) as (_ & _ & Hne & Hare & _).
  specialize (Hare Hsum). fold vols in Hne, Hare. split; [done|]. intros off Hoff.
  rewrite (get_volume_attr_tiles s' vols off Hare Hoff). eexists. split; [reflexivity|]. cbv zeta.
  pose proof Hare as (_ & _ & _ & Ht & _). set (o := off .& _).
  assert (0 <= o) as Ho by (apply Z.land_nonneg; left; apply Hoff).
  destruct (volume_of_total (hv_size <$> vols) o (tiles_sizes _ _ _ Ht) Ho) as [Htot Hfnd].
  destruct (volume_of (hv_size <$> vols) o) as [[k r]|] eqn:E.
  - destruct (Hfnd k r eq_refl) as (z & Hz & Hrz & Heq). rewrite list_lookup_fmap in Hz.
    destruct (vols !! k) as [v|] eqn:Hk; [|done]. injection Hz as <-. exists k.
    destruct (tiles_lookup _ _ _ _ _ Ht Hk) as [Hid Hof]. split_and!; [done|lia|lia|lia|lia].
  - apply Z.nlt_ge. intros Hlt. apply Htot in Hlt as [x Hx]. done.
Qed.

Lemma volumes_one_address_space_witness :
  exists s1 s2 v, hammer2_init_volumes demo_cmp 128 1 (Some [47; 97; 58; 47; 98]) true (start (sys s1)) = Ok () s2 /\
    hammer2_get_volume_attr (2 ^ 30 + 10) s2 = Ok (Some v) s2 /\ hv_id v = 1 /\ hv_offset v = 2 ^ 30.
Proof.
  destruct (newfs_open_run demo_uuid demo_cmp 5 64 128 demo_system demo_devs demo_opt 0 true) as (s1 & s2 & _ & Hinit & Hf & _ & Hsz & _);
    [apply demo_uuid_raw|apply demo_cmp_refl|done|apply demo_mkfs_ok|apply demo_no_stale|apply demo_bytes|apply demo_plain|].
  assert (hv_size <$> mkfs_vols 0 demo_devs = [2 ^ 30; 2 ^ 30]) as Hs by (vm_compute; reflexivity). rewrite Hs in Hsz.
  destruct (volumes_one_address_space demo_cmp 128 1 (Some [47; 97; 58; 47; 98]) true (start (sys s1)) s2 Hf Hinit) as [_ Hall];
    [rewrite Hsz; cbn; lia|]. rewrite Hsz in Hall.
  destruct (Hall (2 ^ 30 + 10) ltac:(done)) as (r & Hr & Hm). change ((2 ^ 30 + 10) .& bnot 64 HAMMER2_OFF_MASK_RADIX) with (2 ^ 30) in Hm.
  cbn in Hm. destruct r as [v|]; [|lia]. destruct Hm as (k & Hk & Hid & Hoff & Hrange).
  assert (k < 2)%nat as Hlt by (apply lookup_lt_Some in Hk; apply (f_equal length) in Hsz; rewrite length_fmap in Hsz; cbn in Hsz; lia).
  exists s1, s2, v. split; [exact Hinit|]. split; [exact Hr|].
  assert ((hv_size <$> take (Z.to_nat (o_nvolumes (fso s2))) (o_volumes (fso s2))) !! k = Some (hv_size v)) as Hv by (by rewrite list_lookup_fmap, Hk).
  rewrite Hsz in Hv. destruct k as [|[|k]]; cbn in Hoff, Hv; [injection Hv as Hv; lia|split; lia|lia].
Defined.

(** C31: [hammer2_read_volume_header] on a regular file: it chooses among the four copies of the
    header the first of those with the highest [mirror_tid] that lie in the file and have
    the right magic number and checksums, and finds one if there is one. *)
Theorem volume_header_best (addr : Z) (s : h2state) (fd ino : Z) (nd : node) :
  fd_node s fd = Some (ino, nd) -> nd_type nd = S_IFREG -> f_size (nd_file nd) < 2 ^ 64 -> file_ok (nd_file nd) ->
  exists r, hammer2_read_volume_header addr fd s = Ok r s /\
    match r with
    | None => forall j, 0 <= j < HAMMER2_NUM_VOLHDRS -> candidate (nd_file nd) j = false
    | Some (z, vd) =>
        0 <= z < HAMMER2_NUM_VOLHDRS /\ candidate (nd_file nd) z = true /\ vd = decode (header_at (nd_file nd) z) /\
        forall j, 0 <= j < HAMMER2_NUM_VOLHDRS -> candidate (nd_file nd) j = true ->
          tid_at (nd_file nd) j <= tid_at (nd_file nd) z /\ (j < z -> tid_at (nd_file nd) j < tid_at (nd_file nd) z)
    end.
Proof.
  intros Hn Ht Hs Hf. destruct (read_volume_header_spec addr s fd ino nd Hn Ht) as (r & Hr & Hb);
    [split; [apply Hf|exact Hs]|exact Hf|]. exists r. split; [exact Hr|]. exact Hb.
Qed.

Lemma volume_header_best_witness :
  exists r, hammer2_read_volume_header 0 3 (set_fds {[ 3 := 1 ]} 4 (start demo_system)) = Ok r (set_fds {[ 3 := 1 ]} 4 (start demo_system)).
Proof.
  destruct (volume_header_best 0 (set_fds {[ 3 := 1 ]} 4 (start demo_system)) 3 1 demo_node) as (r & Hr & _);
    [reflexivity|reflexivity|reflexivity|split; [cbn; lia|done]|]. exists r. exact Hr.
Defined.

(** Only regular files can be volumes: [hammer2_add_volume] exits with an error for every
    other node.  It tests for a character device (what DragonFly's disks are), so a Linux
    block device is refused, although [check_volume], which it calls next, handles block
    devices and refuses character devices. *)
Theorem only_regular_files (uuid_compare : bytes -> bytes -> Z) (addr : Z) (path : bytes) (rdonly : bool) (s : h2state)
    (ino : Z) (nd : node) :
  names (sys s) !! path = Some ino -> nodes (sys s) !! ino = Some nd -> nd_type nd <> S_IFREG ->
  hammer2_add_volume uuid_compare addr path rdonly s = Stop (Exit 1).
Proof.
  intros Hp Hn Ht. unfold hammer2_add_volume, sys_open, mbind, prog_bind, get_state. rewrite Hp, Hn.
  destruct (negb rdonly && negb (nd_writable nd)); [done|]. cbn.
  unfold fd_node. cbn. rewrite lookup_insert_eq. cbn. rewrite Hn. cbn.
  rewrite (bool_decide_eq_true_2 (nd_type nd <> S_IFREG)) by done. rewrite andb_true_r.
  destruct (decide (nd_type nd = S_IFCHR)) as [Hc|Hc]; [|by rewrite bool_decide_eq_true_2 by done].
  rewrite bool_decide_eq_false_2 by auto. cbn. unfold hammer2_read_volume_header, check_volume, mbind, prog_bind, get_state.
  unfold fd_node. cbn. rewrite lookup_insert_eq. cbn. rewrite Hn. cbn. by rewrite Hc.
Qed.

(** A system with a block device. *)
Definition disk_system : system :=
  {| names := {[ [47; 97] := 1 ]};
     nodes := {[ 1 := {| nd_type := S_IFBLK; nd_writable := true; nd_sectsize := 512; nd_file := demo_file |} ]}; devtabs := [] |}.

Lemma only_regular_files_witness : hammer2_add_volume demo_cmp 0 [47; 97] true (start disk_system) = Stop (Exit 1).
Proof.
  apply (only_regular_files demo_cmp 0 [47; 97] true (start disk_system) 1
    {| nd_type := S_IFBLK; nd_writable := true; nd_sectsize := 512; nd_file := demo_file |}); [reflexivity|reflexivity|discriminate].
Defined.

(** ** The directory hash *)

(** [dirhash]: the key of a name has bit 63 set, bits 32 to 62 from the sum of the CRC-32C
    of the fields between separators, bits 16 to 31 from the CRC-32C of the whole name, bit
    15 set and 15 free bits; it depends on nothing but the name. *)
Theorem dirhash_correct (addr : Z) (name rest : bytes) :
  bytes_ok name -> Z.of_nat (length name) < 2 ^ 32 ->
  dirhash addr (name ++ rest) (Z.of_nat (length name)) = Some (name_key name) /\
  in_u 64 (name_key name) /\ Z.testbit (name_key name) 63 = true /\ Z.testbit (name_key name) 15 = true /\
  name_key name mod 2 ^ 15 = 0.
Proof.
  intros Hn Hl. split; [apply dirhash_spec; [done|unfold in_u; lia]|]. split; [by apply name_key_range|by apply name_key_bits].
Qed.

Lemma dirhash_correct_witness : dirhash 0 [66; 79; 79; 84; 0; 0] 4 = Some (name_key str_BOOT) /\ name_key str_BOOT = HAMMER2_BOOT_KEY.
Proof.
  split; [|vm_compute; reflexivity]. destruct (dirhash_correct 0 str_BOOT [0; 0]) as [Hd _]; [repeat constructor; vm_compute; discriminate|done|exact Hd].
Defined.

(** ** An incomplete list of volumes *)

Lemma find_volume_none vols n i (s : h2state) :
  (forall j v, vols !! j = Some v -> 0 < hv_offset v) -> (i + n <= length vols)%nat -> find_volume vols 0 n i s = Ok None s.
Proof.
  intros Hv. revert i. induction n as [|n IH]; intros i Hl; [done|]. cbn [find_volume].
  destruct (lookup_lt_is_Some_2 vols i) as [v Hi]; [lia|]. rewrite Hi. unfold deref. rewrite (bind_Ok _ _ s v s) by done.
  rewrite bool_decide_eq_false_2 by (specialize (Hv i v Hi); lia). cbn [andb]. apply IH. lia.
Qed.

Lemma single_volume_common k vols (s : h2state) : forall i st v,
  (length st <= i + k)%nat -> vols !! k = Some v -> (forall j w, (j < k)%nat -> vols !! j = Some w -> hv_id w = -1) -> hv_id v <> -1 ->
  is_Some (hv_path v ≫= path_ino s) -> verify_common_loop vols i st s = Stop Undef.
Proof.
  revert vols. induction k as [|k IH]; intros vols i st v Hst Hv Hfree Hid [x Hp]; (destruct vols as [|w vols]; [done|]); cbn [verify_common_loop].
  - cbn in Hv. injection Hv as ->. rewrite bool_decide_eq_false_2 by done. rewrite (bind_Ok _ _ s s s) by done. rewrite Hp.
    rewrite (bool_decide_eq_false_2 (i < length st)%nat) by lia. done.
  - rewrite bool_decide_eq_true_2 by (apply (Hfree O w); [lia|done]).
    apply (IH vols (S i) st v); [lia|done| |done|by exists x]. intros j u Hj Hu. apply (Hfree (S j) u); [lia|done].
Qed.

Lemma filter_insert_le {A} (P : A -> Prop) `{!forall x, Decision (P x)} (l : list A) k x :
  Forall (λ y, ~ P y) l -> (length (filter P (<[k := x]> l)) <= 1)%nat.
Proof.
  intros Hl. assert (filter P l = []) as Hn by (induction Hl as [|y l Hy _ IH]; [done|]; by rewrite filter_cons_False).
  revert k. induction Hl as [|y l Hy Hl IH]; intros [|k]; [cbn; lia|cbn; lia| |]; rewrite filter_cons_False in Hn by done.
  - change (<[O := x]> (y :: l)) with (x :: l). rewrite filter_cons. destruct (decide (P x)); rewrite Hn; cbn; lia.
  - change (<[S k := x]> (y :: l)) with (y :: <[k := x]> l). rewrite filter_cons_False by done. by apply IH.
Qed.

(** A list of devices that misses volumes crashes the utilities instead of being refused:
    [hammer2_verify_volumes_common] allocates as many [struct stat] as volumes were opened,
    but stores the one of a volume at the index of its id.  Opening only volume [k] > 0 of a
    file system stores past the end. *)
Theorem missing_volume_overflows (uuid_compare : bytes -> bytes -> Z) (addr : Z) (y : system) (devs : list device)
    (fsid fstype : bytes) (k : nat) (d : device) (vd : hammer2_volume_data) (v : hammer2_volume) (s : h2state)
    (fuel : nat) (rdonly : bool) :
  (forall u, uuid_compare u u = 0) -> member y devs fsid fstype k d vd v -> (0 < k < length devs)%nat -> (length devs <= 64)%nat ->
  0 < hv_offset v -> sys s = y -> hammer2_volumes_initialized s = false ->
  hammer2_init_volumes uuid_compare addr (S fuel) (Some (d_path d)) rdonly s = Stop Undef.
Proof.
  intros Hcmp Hm Hk Hlen Hoff Hy Hi. pose proof Hm as ((Hnm & Hnd & _) & _ & Hpl & _).
  cbn [hammer2_init_volumes]. rewrite (bind_Ok _ _ s s s) by done. rewrite Hi. rewrite (bind_Ok _ _ s () s) by done.
  set (s0 := set_fso hammer2_init_ondisk s). rewrite (bind_Ok _ _ s () s0) by done.
  pose proof (split_join [d_path d] ltac:(done)) as Hsplit. cbn [join_colon] in Hsplit.
  rewrite Hsplit by (constructor; [apply Hpl|constructor]). cbn [add_devices].
  assert (o_volumes (fso s0) !! k = Some hammer2_init_volume) as Hfree.
  { cbn. apply lookup_replicate. split; [done|]. h2_unfold. lia. }
  pose proof (add_volume_spec uuid_compare addr Hcmp y devs fsid fstype k d vd v s0 rdonly Hm Hy ltac:(lia) ltac:(by left) Hfree) as Hadd.
  set (s1 := installed devs fsid fstype k d v s0) in Hadd.
  rewrite (bind_Ok _ _ s0 () s1).
  2:{ rewrite (bind_Ok _ _ s0 s0 s0) by done. cbv zeta. rewrite (getdevpath_plain _ _ Hpl), (bool_decide_eq_false_2 (colon ∈ d_path d)) by apply Hpl.
      by rewrite (bind_Ok _ _ _ _ _ Hadd). }
  set (s2 := set_initialized true s1). rewrite (bind_Ok _ _ s1 () s2) by done.
  assert (forall j w, o_volumes (fso s2) !! j = Some w ->
    (j = k /\ w = hammer2_install_volume (next_fd s0) (Z.of_nat k) (d_path d) (hv_offset v) (hv_size v)) \/ (j <> k /\ w = hammer2_init_volume)) as Htab.
  { intros j w Hw. cbn in Hw. apply list_lookup_insert_Some in Hw as [(-> & <- & _)|[Hne Hw]]; [by left|right].
    apply lookup_replicate in Hw as [-> _]. done. }
  assert (hammer2_get_volume_attr 0 s2 = Ok None s2) as Hattr.
  { unfold hammer2_get_volume_attr. rewrite (bind_Ok _ _ s2 s2 s2) by done. change (hammer2_volumes_initialized s2) with true.
    rewrite (bind_Ok _ _ s2 () s2) by done. change (0 .& _) with 0. apply find_volume_none.
    - intros j w Hw. destruct (Htab j w Hw) as [[_ ->]|[_ ->]]; [exact Hoff|cbn; done].
    - cbn. rewrite length_insert, length_replicate. h2_unfold. lia. }
  rewrite (bind_Ok _ _ s2 None s2).
  2:{ unfold hammer2_read_root_volume_header, hammer2_get_root_volume_fd, hammer2_get_root_volume_path,
        hammer2_get_volume_fd, hammer2_get_volume_path, get_attr.
      rewrite (bind_Ok _ _ s2 (-1) s2) by (by rewrite (bind_Ok _ _ _ _ _ Hattr)).
      rewrite (bind_Ok _ _ s2 None s2) by (by rewrite (bind_Ok _ _ _ _ _ Hattr)). done. }
  rewrite (bind_Ok _ _ s2 s2 s2) by done. apply bind_Stop. unfold hammer2_verify_volumes. apply bind_Stop.
  unfold hammer2_verify_volumes_common. rewrite (bind_Ok _ _ s2 () s2) by done.
  apply (single_volume_common k _ s2 0 _ (hammer2_install_volume (next_fd s0) (Z.of_nat k) (d_path d) (hv_offset v) (hv_size v))).
  - rewrite length_replicate. unfold count_volumes. rewrite Nat2Z.id. cbn [fso s2 s1 s0 set_initialized installed set_fso set_o_volumes o_volumes].
    etransitivity; [apply filter_insert_le|lia]. apply Forall_replicate. cbn. auto.
  - cbn. apply list_lookup_insert_eq. rewrite length_replicate. h2_unfold. lia.
  - intros j w Hj Hw. destruct (Htab j w Hw) as [[-> _]|[_ ->]]; [lia|done].
  - cbn. lia.
  - cbn. unfold path_ino. cbn. rewrite Hy, Hnm. cbn. rewrite Hnd. by eexists.
Qed.

Lemma missing_volume_overflows_witness :
  exists s1, hammer2_mkfs demo_uuid 5 64 [[47; 97]; [47; 98]] demo_opt (start demo_system) = Ok () s1 /\
    hammer2_init_volumes demo_cmp 128 1 (Some [47; 98]) true (start (sys s1)) = Stop Undef.
Proof.
  destruct (newfs_open_run demo_uuid demo_cmp 5 64 128 demo_system demo_devs demo_opt 0 true) as (s1 & s2 & H1 & _ & _ & _ & _ & Hm);
    [apply demo_uuid_raw|apply demo_cmp_refl|done|apply demo_mkfs_ok|apply demo_no_stale|apply demo_bytes|apply demo_plain|].
  destruct (Hm 1%nat (demo_dev 98 2) eq_refl) as (devs' & d & vd & v & Hl & Hp & Hv & Hmem).
  exists s1. split; [exact H1|]. change [47; 98] with (d_path (demo_dev 98 2)). rewrite <- Hp.
  apply (missing_volume_overflows demo_cmp 128 (sys s1) devs' (Hammer2_VolFSID demo_opt) (Hammer2_FSType demo_opt) 1 d vd v (start (sys s1)) 0 true);
    [apply demo_cmp_refl|exact Hmem|rewrite Hl; cbn; lia|rewrite Hl; cbn; lia| |reflexivity|reflexivity].
  assert (hv_offset <$> mkfs_vols 3 demo_devs = [0; 2 ^ 30]) as Ho by (vm_compute; reflexivity).
  assert ((hv_offset <$> mkfs_vols 3 demo_devs) !! 1%nat = Some (hv_offset v)) as Hov by (by rewrite list_lookup_fmap, Hv).
  rewrite Ho in Hov. injection Hov as <-. done.
Defined.

(** ** The largest aux area *)

(** [-r 1g], the largest size of the aux area that newfs_hammer2 accepts, ends in a failed
    assertion after the first 4 MB of the root volume were cleared: the areas have to end
    below 1 GB, and they begin at 4 MB. *)
Theorem aux_maximum_aborts (s : h2state) (fd ino : Z) (nd : node) (vol : hammer2_volume) (opt : hammer2_mkfs_options) (boot : Z) :
  fd_node s fd = Some (ino, nd) -> hv_fd vol = fd -> HAMMER2_ZONE_SEG <= f_size (nd_file nd) < 2 ^ 64 ->
  opt_AuxAreaSize opt = HAMMER2_AUX_MAX_BYTES -> 0 <= boot <= HAMMER2_BOOT_MAX_BYTES -> boot mod HAMMER2_VOLUME_ALIGN = 0 ->
  h2_getsize [49; 103] HAMMER2_NEWFS_ALIGN HAMMER2_AUX_MAX_BYTES 2 s = Ok HAMMER2_AUX_MAX_BYTES s /\
  format_hammer2_misc vol opt HAMMER2_ZONE_SEG (HAMMER2_ZONE_SEG + boot) s = Stop AssertFail.
Proof.
  intros Hn Hfd Hsz Haux Hb Hbm. split; [vm_compute; reflexivity|].
  destruct (fd_node_nodes _ _ _ _ Hn) as [_ Hnd]. rewrite <- (with_file_id ino nd s Hnd).
  unfold format_hammer2_misc. rewrite Hfd, Haux. cbv zeta.
  rewrite (uwrap_small 64 (HAMMER2_ZONE_SEG + boot + HAMMER2_AUX_MAX_BYTES)) by (unfold in_u; h2_unfold; lia).
  destruct (clear_blocks_spec s fd ino nd Hn (Z.to_nat HAMMER2_ZONE_BLOCKS_SEG) (nd_file nd) 0) as (f1 & Hrun1 & _);
    [lia|change (Z.of_nat (Z.to_nat HAMMER2_ZONE_BLOCKS_SEG)) with 64; h2_unfold; lia|lia|].
  rewrite (bind_Ok _ _ _ _ _ Hrun1).
  rewrite (bool_decide_eq_true_2 (_ .& HAMMER2_PBUFMASK = 0)) by (apply (land_mask_0 _ 16); [done|clear -Hbm; h2_unfold; dlia]).
  rewrite (bind_Ok _ _ _ _ _ (eq_refl : assertp true _ = Ok () _)).
  rewrite (bool_decide_eq_false_2 (HAMMER2_ZONE_SEG + boot + HAMMER2_AUX_MAX_BYTES < _)) by (h2_unfold; lia). done.
Qed.

Lemma aux_maximum_aborts_witness :
  format_hammer2_misc (hammer2_install_volume 3 0 [47; 97] 0 (2 ^ 30)) (set_areas 0 HAMMER2_AUX_MAX_BYTES demo_opt) HAMMER2_ZONE_SEG
    (HAMMER2_ZONE_SEG + 2 ^ 23) (set_fds {[ 3 := 1 ]} 4 (start demo_system)) = Stop AssertFail.
Proof.
  apply (aux_maximum_aborts (set_fds {[ 3 := 1 ]} 4 (start demo_system)) 3 1 demo_node _ _ (2 ^ 23));
    [reflexivity|reflexivity|cbn; vm_compute; split; [discriminate|reflexivity]|reflexivity|vm_compute; split; discriminate|reflexivity].
Defined.
