(* ===== verification/H2FsckProps.v ===== *)
(** * H2FsckProps: fsck_hammer2

    The properties of the checks: a new file system passes, what passing means, and what
    the recursion over the block references does on damaged trees. *)

From S2P Require Import Prelude HammerDisk Layout Crc32 CMonad Ondisk CacheInv Newfs H2Disk H2Volumes H2Mkfs H2Header H2Verify H2Accept H2Inode H2Format H2Newfs H2Reopen H2Roundtrip H2Fsck H2FsckRead H2FsckTree H2FsckVerify H2FsckNew H2FsckTest H2Open H2FsckSound H2Demo.

#[local] Opaque Z.to_nat.

(** ** A new file system passes *)

(** The totals printed for a zone of a new file system with [k] PFS roots: the super-root,
    the roots, and with [-e] the empty references of the header, the super-root and the roots. *)
Definition new_volume_stats (opts : fsck_options) (k : Z) : blockref_stats_t :=
  let empty := one (CountEmpty opts) * (3 * k + 7) in
  {| bs_root := ∅; bs_type := HAMMER2_BREF_TYPE_VOLUME; bs_total_blockref := k + 1 + empty; bs_total_empty := empty;
     bs_total_bytes := HAMMER2_INODE_BYTES * (k + 1); bs_u := [k + 1; 0; 0; 0] |}.
Definition new_freemap_stats (opts : fsck_options) : blockref_stats_t :=
  let empty := one (CountEmpty opts) * 4 in
  {| bs_root := ∅; bs_type := HAMMER2_BREF_TYPE_FREEMAP; bs_total_blockref := empty; bs_total_empty := empty;
     bs_total_bytes := 0; bs_u := [0; 0; 0; 0] |}.

Lemma new_freemap_totals opts :
  add_all (init_blockref_stats HAMMER2_BREF_TYPE_FREEMAP) (freemap_delta opts) = new_freemap_stats opts.
Proof. unfold freemap_delta, empty_delta, new_freemap_stats. destruct (CountEmpty opts); vm_compute; reflexivity. Qed.

Lemma new_volume_totals opts opt :
  (length (Label opt) <= 4)%nat ->
  add_all (init_blockref_stats HAMMER2_BREF_TYPE_VOLUME) (volume_delta opts opt) = new_volume_stats opts (Z.of_nat (length (Label opt))).
Proof.
  intros Hl. unfold volume_delta, sroot_delta, root_delta, empty_delta, new_volume_stats. cbv zeta.
  destruct (length (Label opt)) as [|[|[|[|[|n]]]]]; [..|lia]; destruct (CountEmpty opts); vm_compute; reflexivity.
Qed.

Lemma new_volume_small opts opt :
  (length (Label opt) <= 4)%nat -> ds_count (volume_delta opts opt) < 2 ^ 63 /\ pure_delta HAMMER2_BREF_TYPE_VOLUME (volume_delta opts opt).
Proof.
  intros Hl. unfold volume_delta, sroot_delta, root_delta, empty_delta. cbv zeta.
  destruct (length (Label opt)) as [|[|[|[|[|n]]]]]; [..|lia]; (split; [vm_compute; reflexivity|left; split_and!; vm_compute; reflexivity]).
Qed.

Section newfs.
Context (uuid_generate : nat -> bytes) (now : Z) (y : system) (devs : list device) (opt : hammer2_mkfs_options) (s1 : h2state).
Context (Huuid : forall i, raw 16 (uuid_generate i)) (Hnow : in_u 64 now) (Hok : mkfs_ok y devs opt).
Context (fd : Z) (l : list (file * hammer2_volume_data)) (Hl : length l = length devs).
Context (Hmade : forall k v d df, mkfs_vols fd devs !! k = Some v -> devs !! k = Some d -> l !! k = Some df ->
  made uuid_generate now devs opt s1 fd v d df).
Context (Hbytes : forall ino nd, nodes y !! ino = Some nd -> forall i, in_u 8 (f_data (nd_file nd) i)).
Context (Hsame : forall ino, ino ∉ d_ino <$> devs -> nodes (sys s1) !! ino = nodes y !! ino).
Context (s2 : h2state) (Hre : reopened (sys s1) (new_devs devs l) (mkfs_vols fd devs) s2).

#[local] Abbreviation opt' := (adjusted (fs_size devs) opt).

Lemma new_base : inode_base opt' mod HAMMER2_PBUFSIZE = 0 /\ 0 <= inode_base opt' < 2 ^ 62.
Proof using Hok.
  destruct (mkfs_vols_total y devs opt Hok 0) as [_ Htot].
  destruct (adjust_options_spec (set_o_volumes [] (fs_size devs) hammer2_init_ondisk) opt (start y) (mo_areas _ _ _ Hok)
    (mo_nlabels _ _ _ Hok)) as (_ & Hb1 & Ha1 & Hb & Ha & H1); [clear -Htot; cbn; lia|]. cbn in Hb, Ha, H1, Hb1, Ha1.
  unfold inode_base, adjusted. cbn [opt_BootAreaSize opt_AuxAreaSize set_areas].
  clear -Hb1 Ha1 Hb Ha H1. h2_unfold. split; [dlia|lia].
Qed.

(** The tests of [test_hammer2] after the volumes are open. *)
Lemma new_tests opts addr fuel best :
  PrintPFS opts = false -> ScanPFS opts = false ->
  exists v0 fm vol, mkfs_vols fd devs !! O = Some v0 /\
    (ok ← test_volume_header addr opts best;
     '(ok, fm) ← unless_failed opts ok (test_blockref addr opts (S (S (S (S fuel)))) best HAMMER2_BREF_TYPE_FREEMAP);
     '(ok, vol) ← unless_failed opts ok (if ScanPFS opts then test_pfs_blockref addr opts (S (S (S (S fuel)))) best
                                         else test_blockref addr opts (S (S (S (S fuel)))) best HAMMER2_BREF_TYPE_VOLUME);
     mret (ok, fm, vol)) s2 = Ok (true, fm, vol) s2 /\
    Forall (eq (new_freemap_stats opts)) fm /\
    Forall (eq (new_volume_stats opts (Z.of_nat (length (labels opt))))) vol /\
    (ScanBest opts = false -> length fm = length (all_zones_of (hv_size v0)) /\ length vol = length (all_zones_of (hv_size v0))) /\
    exists r, find_best_zone s2 = Ok r s2.
Proof using All.
  intros Hpp Hsp. pose proof (mo_count _ _ _ Hok) as Hcnt.
  destruct (lookup_lt_is_Some_2 devs 0) as [d Hd]; [lia|]. destruct (lookup_lt_is_Some_2 l 0) as [df Hdf]; [lia|].
  destruct (mkfs_vols_dev devs fd 0 d Hd) as (v0 & Hv0 & _ & Hid & _). pose proof (Hmade 0 v0 d df Hv0 Hd Hdf) as Hm.
  destruct df as [f' vd]. destruct Hm as (_ & Hform & (c1 & c0 & cv & Hvd) & Hval & Hho & Hhdr).
  pose proof Hform as (_ & [_ Hfb] & _ & Hblk & _). specialize (Hblk Hid).
  destruct (new_open_fs uuid_generate now y devs opt s1 Huuid Hnow Hok fd l Hl Hmade Hbytes Hsame s2 Hre) as (vols' & Hopen & Hsz).
  assert (exists v0', vols' !! O = Some v0' /\ hv_size v0' = hv_size v0) as (v0' & Hv0' & Hsz0).
  { assert ((hv_size <$> vols') !! O = Some (hv_size v0)) as Ha by (by rewrite Hsz, list_lookup_fmap, Hv0).
    rewrite list_lookup_fmap in Ha. destruct (vols' !! O) as [w|]; [|done]. injection Ha as Ha. by exists w. }
  assert (l.*1 !! O = Some f') as Hf0 by (by rewrite list_lookup_fmap, Hdf).
  assert (0 < hv_size v0') as Hpos.
  { rewrite Hsz0. pose proof (mkfs_root_room y devs opt Hok fd v0 Hv0) as Hr. destruct new_base as [_ Hb]. clear -Hr Hb. h2_unfold. lia. }
  pose proof (new_files_ok uuid_generate now y devs opt s1 Huuid Hnow Hok fd l Hl Hmade Hbytes Hsame s2 Hre) as Hfiles.
  destruct (expected_blocksets uuid_generate now opt' (mkfs_ondisk fd devs opt) v0 c1 c0 cv Hid) as [Hsr Hfm].
  rewrite <- Hvd in Hsr, Hfm.
  pose proof (mkfs_root_room y devs opt Hok fd v0 Hv0) as Hroom. rewrite <- Hsz0 in Hroom, Hhdr. destruct new_base as [Hal Hbase].
  assert (forall j, j ∈ all_zones_of (hv_size v0') -> 0 <= j < HAMMER2_NUM_VOLHDRS /\ j * HAMMER2_ZONE_BYTES64 < hv_size v0') as Hzone
    by (intros j Hj; by apply all_zones_elem).
  assert (length (Label opt') <= 4)%nat as Hnl by apply (mo_nlabels _ _ _ Hok).
  destruct (new_volume_small opts opt' Hnl) as [Hcv Hpv].
  destruct (tests_complete s2 vols' l.*1 Hopen v0' f' Hv0' Hf0 Hpos opts addr Hfiles (S (S (S (S fuel)))) (freemap_delta opts) (volume_delta opts opt') best Hpp Hsp)
    as (fm & vol & Hrun & Hfmp & Hvolp & Hlen).
  - intros j Hj. destruct (Hzone j Hj) as [Hj1 Hj2]. rewrite (Hhdr j Hj1 Hj2). split; [done|].
    rewrite <- (Hhdr j Hj1 Hj2). by apply file_read_ok.
  - intros j Hj. destruct (Hzone j Hj) as [Hj1 Hj2].
    apply (freemap_tree opts s2 vols' l.*1 Hopen v0' f' Hv0' Hf0 uuid_generate now opt' Huuid Hnow (mo_clid _ _ _ Hok) (mo_fsid _ _ _ Hok)
      (mo_labels _ _ _ Hok) Hnl (inode_base opt') Hal (conj Hbase Hroom) Hblk vd Hval Hhdr Hsr Hfm (S (S fuel)) j Hj1 Hj2).
  - intros j Hj. destruct (Hzone j Hj) as [Hj1 Hj2].
    apply (volume_tree opts s2 vols' l.*1 Hopen v0' f' Hv0' Hf0 uuid_generate now opt' Huuid Hnow (mo_clid _ _ _ Hok) (mo_fsid _ _ _ Hok)
      (mo_labels _ _ _ Hok) Hnl (inode_base opt') Hal (conj Hbase Hroom) Hblk vd Hval Hhdr Hsr Hfm fuel j Hj1 Hj2).
  - unfold freemap_delta, empty_delta. destruct (CountEmpty opts); vm_compute; reflexivity.
  - exact Hcv.
  - right. unfold freemap_delta, empty_delta. destruct (CountEmpty opts); split_and!; vm_compute; reflexivity.
  - exact Hpv.
  - exists v0, fm, vol. split_and!; [done|exact Hrun| | | |].
    + eapply Forall_impl; [exact Hfmp|]. intros b ->. by rewrite new_freemap_totals.
    + eapply Forall_impl; [exact Hvolp|]. intros b ->. by rewrite new_volume_totals.
    + rewrite <- Hsz0. exact Hlen.
    + apply (find_best_ok s2 vols' l.*1 Hopen v0' f' Hv0' Hf0 Hpos opts addr Hfiles); [done|]. h2_unfold. lia.
Qed.
End newfs.

Lemma newfs_fsck_run (uuid_generate : nat -> bytes) (uuid_compare : bytes -> bytes -> Z) (now addr addr' : Z)
    (y : system) (devs order : list device) (opt : hammer2_mkfs_options) (opts : fsck_options) (fuel : nat) :
  (forall i, raw 16 (uuid_generate i)) -> (forall u, uuid_compare u u = 0) -> in_u 64 now ->
  mkfs_ok y devs opt -> (forall k d, devs !! k = Some d -> no_stale (Z.of_nat (length devs)) k d) ->
  (forall ino nd, nodes y !! ino = Some nd -> forall i, in_u 8 (f_data (nd_file nd) i)) ->
  Forall (λ d, plain_path (d_path d)) devs -> order ≡ₚ devs -> PrintPFS opts = false -> ScanPFS opts = false ->
  exists s1 s2 fm vol v0, hammer2_mkfs uuid_generate now addr (d_path <$> devs) opt (start y) = Ok () s1 /\
    test_hammer2 addr' opts uuid_compare (4 + fuel) (join_colon (d_path <$> order)) (start (sys s1)) = Ok (true, fm, vol) s2 /\
    sys s2 = sys s1 /\ mkfs_vols 3 devs !! O = Some v0 /\
    Forall (eq (new_freemap_stats opts)) fm /\
    Forall (eq (new_volume_stats opts (Z.of_nat (length (labels opt))))) vol /\
    (ScanBest opts = false -> length fm = length (all_zones_of (hv_size v0)) /\ length vol = length (all_zones_of (hv_size v0))) /\
    files_ok s1 /\ (sizes_ok (start y) -> sizes_ok s1) /\
    exists s3, hammer2_init_volumes uuid_compare addr' (4 + fuel) (Some (join_colon (d_path <$> order))) true (start (sys s1)) = Ok () s3 /\
      hv_size <$> take (Z.to_nat (o_nvolumes (fso s3))) (o_volumes (fso s3)) = hv_size <$> mkfs_vols 0 devs.
Proof.
  intros Huuid Hcmp Hnow Hok Hst Hby Hpl Hord Hpp Hsp.
  destruct (hammer2_mkfs_spec uuid_generate now addr devs opt (start y) Huuid Hnow Hok ltac:(cbn; lia))
    as (s1 & Hrun & Hnm & Hdt & Hsame & Hform). cbn [next_fd start] in Hform.
  destruct (newfs_reopened uuid_generate now y devs opt s1 Huuid Hnow Hok 3 Hform Hnm Hst Hpl uuid_compare addr' (3 + fuel) true order
    (start (sys s1)) Hcmp Hord eq_refl eq_refl ltac:(cbn; lia)) as (l & s2 & Hl & Hmade & Hinit & Hre).
  destruct (new_tests uuid_generate now y devs opt s1 Huuid Hnow Hok 3 l Hl Hmade Hby Hsame s2 Hre opts addr' fuel None Hpp Hsp)
    as (v0 & _ & _ & Hv0 & _ & _ & _ & _ & best & Hbest).
  destruct (new_tests uuid_generate now y devs opt s1 Huuid Hnow Hok 3 l Hl Hmade Hby Hsame s2 Hre opts addr' fuel best Hpp Hsp)
    as (v0' & fm & vol & Hv0' & Htests & Hfm & Hvol & Hlen & _).
  rewrite Hv0 in Hv0'. injection Hv0' as <-. destruct (cleanup_volumes_ok s2) as (s3 & Hcl & Hs3).
  exists s1, s3, fm, vol, v0. split_and!; [done| | |done|done|done|done| | |].
  - unfold test_hammer2. change (4 + fuel)%nat with (S (S (S (S fuel)))). rewrite (bind_Ok _ _ _ _ _ Hinit), (bind_Ok _ _ _ _ _ Hbest), Hpp.
    rewrite (bind_Ok _ _ _ _ _ Htests). rewrite (bind_Ok _ _ _ _ _ Hcl). reflexivity.
  - rewrite Hs3. by destruct Hre.
  - pose proof (new_files_ok uuid_generate now y devs opt s1 Huuid Hnow Hok 3 l Hl Hmade Hby Hsame s2 Hre) as Hf.
    unfold files_ok in *. by rewrite (proj1 Hre) in Hf.
  - apply (new_sizes_ok uuid_generate now y devs opt s1 3 Hform Hsame (mo_devs _ _ _ Hok)).
  - exists s2. split; [exact Hinit|].
    destruct (new_open_fs uuid_generate now y devs opt s1 Huuid Hnow Hok 3 l Hl Hmade Hby Hsame s2 Hre) as (vols' & (Hare & _ & _) & Hsz).
    destruct Hare as (_ & Hn & Ht & _). rewrite Hn, Nat2Z.id, Ht, Hsz. apply vols_of_sizes.
Qed.

(** C25: fsck_hammer2 accepts what newfs_hammer2 makes: on regular files that are large enough
    and hold no old header where newfs_hammer2 does not write one ([no_stale]), newfs_hammer2
    runs to the end, and [test_hammer2], given the files in any order and without [-p] and
    [-P], finds every header copy, the freemap and every tree below every header in order,
    and prints exactly the totals of a file system with the PFS roots of the labels, once per
    zone.  ([no_stale] is needed: newfs_hammer2 writes the header copies below the rounded
    size of a volume only, and an old copy between that and the end of the device, with a
    higher [mirror_tid], is preferred when the volume is opened.) *)
Theorem newfs_then_fsck (uuid_generate : nat -> bytes) (uuid_compare : bytes -> bytes -> Z) (now addr addr' : Z)
    (y : system) (devs order : list device) (opt : hammer2_mkfs_options) (opts : fsck_options) (fuel : nat) :
  (forall i, raw 16 (uuid_generate i)) -> (forall u, uuid_compare u u = 0) -> in_u 64 now ->
  mkfs_ok y devs opt -> (forall k d, devs !! k = Some d -> no_stale (Z.of_nat (length devs)) k d) ->
  (forall ino nd, nodes y !! ino = Some nd -> forall i, in_u 8 (f_data (nd_file nd) i)) ->
  Forall (λ d, plain_path (d_path d)) devs -> order ≡ₚ devs -> PrintPFS opts = false -> ScanPFS opts = false ->
  exists s1 s2 fm vol v0, hammer2_mkfs uuid_generate now addr (d_path <$> devs) opt (start y) = Ok () s1 /\
    test_hammer2 addr' opts uuid_compare (4 + fuel) (join_colon (d_path <$> order)) (start (sys s1)) = Ok (true, fm, vol) s2 /\
    sys s2 = sys s1 /\ mkfs_vols 3 devs !! O = Some v0 /\
    Forall (eq (new_freemap_stats opts)) fm /\
    Forall (eq (new_volume_stats opts (Z.of_nat (length (labels opt))))) vol /\
    (ScanBest opts = false -> length fm = length (all_zones_of (hv_size v0)) /\ length vol = length (all_zones_of (hv_size v0))).
Proof.
  intros Huuid Hcmp Hnow Hok Hst Hby Hpl Hord Hpp Hsp.
  destruct (newfs_fsck_run uuid_generate uuid_compare now addr addr' y devs order opt opts fuel Huuid Hcmp Hnow Hok Hst Hby Hpl Hord Hpp Hsp)
    as (s1 & s2 & fm & vol & v0 & H1 & H2 & H3 & H4 & H5 & H6 & H7 & _).
  exists s1, s2, fm, vol, v0. done.
Qed.

Lemma newfs_then_fsck_witness :
  exists s1 s2 fm vol, hammer2_mkfs demo_uuid 5 64 [[47; 97]; [47; 98]] demo_opt (start demo_system) = Ok () s1 /\
    test_hammer2 128 fsck_init demo_cmp 4 [47; 98; 58; 47; 97] (start (sys s1)) = Ok (true, fm, vol) s2 /\
    length vol = 1%nat /\ Forall (λ b, bs_total_bytes b = 3072) vol.
Proof.
  destruct (newfs_then_fsck demo_uuid demo_cmp 5 64 128 demo_system demo_devs (reverse demo_devs) demo_opt fsck_init 0)
    as (s1 & s2 & fm & vol & v0 & H1 & H2 & _ & H4 & _ & H6 & H7);
    [apply demo_uuid_raw|apply demo_cmp_refl|done|apply demo_mkfs_ok|apply demo_no_stale|apply demo_bytes|apply demo_plain
    |apply reverse_Permutation|done|done|].
  exists s1, s2, fm, vol. split; [exact H1|]. split; [exact H2|]. split.
  - destruct (H7 eq_refl) as [_ ->]. vm_compute in H4. injection H4 as <-. vm_compute. reflexivity.
  - eapply Forall_impl; [exact H6|]. by intros b <-.
Defined.

(** ** What passing means *)

(** C26: If fsck_hammer2 accepts a file system whose volumes add up to less than 2^63 bytes, it
    is sound: the volumes form an address space inside their files, every copy of the header
    that the root volume has room for has a magic number and good checksums, and every block
    reference that can be reached from it, in the freemap or in the tree of inodes, has a
    valid type, its block can be read, and is not part of a cycle; and if the reference names
    one of the algorithms ISCSI32, XXHASH64 and FREEMAP, the block has the check code that it
    says.  Blocks with a SHA-192 code, no code or an unknown algorithm are not checked by
    fsck_hammer2 ([check_good]).  (No [-b], [-p] or [-P]; any [-f], [-e] and [-c].) *)
Theorem fsck_sound (addr : Z) (opts : fsck_options) (uuid_compare : bytes -> bytes -> Z) (fuel : nat) (devpath : bytes)
    (s s' : h2state) (fm vol : list blockref_stats_t) :
  files_ok s -> sizes_ok s -> PrintPFS opts = false -> ScanPFS opts = false -> ScanBest opts = false ->
  test_hammer2 addr opts uuid_compare fuel devpath s = Ok (true, fm, vol) s' ->
  exists s1, hammer2_init_volumes uuid_compare addr fuel (Some devpath) true s = Ok () s1 /\
    let vols := take (Z.to_nat (o_nvolumes (fso s1))) (o_volumes (fso s1)) in
    (sum_Z (hv_size <$> vols) < 2 ^ 63 ->
     exists files v0 f0, open_fs s1 vols files /\ vols !! O = Some v0 /\ files !! O = Some f0 /\
       forall j, 0 <= j < HAMMER2_NUM_VOLHDRS -> j * HAMMER2_ZONE_BYTES64 < hv_size v0 -> zone_sound s1 f0 opts j).
Proof.
  intros Hf Hs Hpp Hsp Hsb Hrun. unfold test_hammer2 in Hrun. apply bind_Ok_inv in Hrun as ([] & s1 & Hinit & Hrun).
  exists s1. split; [done|]. intros vols Hsum. destruct (init_volumes_open _ _ _ _ _ _ _ Hf Hs Hinit) as (Hf1 & Hne & Hopen).
  destruct (Hopen Hsum) as (files & Hfs). fold vols in Hne, Hfs. destruct vols as [|v0 vs] eqn:Ev; [done|].
  pose proof Hfs as (_ & _ & Hall). destruct (Forall2_lookup_l _ _ _ O v0 Hall eq_refl) as (f0 & Hf0 & _).
  exists files, v0, f0. split_and!; [done|done|done|]. intros j Hj Hz.
  assert (0 < hv_size v0) as Hpos by (clear -Hj Hz; h2_unfold; lia).
  assert (j ∈ all_zones_of (hv_size v0)) as Hjz by (by apply all_zones_elem).
  apply bind_Ok_inv in Hrun as (best & s2 & Hb & Hrun).
  apply find_best_ro in Hb as ->.
  apply bind_Ok_inv in Hrun as ([[ok fm'] vol'] & s3 & Ht & Hrun). apply bind_Ok_inv in Hrun as ([] & s4 & _ & Hrun).
  injection Hrun as -> -> -> _. rewrite Hpp in Ht. apply bind_Ok_inv in Ht as (ok1 & s5 & Hh & Ht).
  apply bind_Ok_inv in Ht as ([ok2 fm2] & s6 & Hfm & Ht). apply bind_Ok_inv in Ht as ([ok3 vol3] & s7 & Hvol & Ht).
  injection Ht as -> -> -> _. apply unless_failed_inv in Hvol as [-> Hvol]. apply unless_failed_inv in Hfm as [-> Hfm]. rewrite Hsp in Hvol.
  pose proof (test_volume_header_ro _ _ _ _ _ _ Hh) as ->. pose proof (test_blockref_ro _ _ _ _ _ _ _ _ Hfm) as ->. split.
  - by apply (test_volume_header_sound s1 (v0 :: vs) files Hfs v0 f0 eq_refl Hf0 Hpos opts addr Hf1 Hsb best s1 Hh).
  - intros type c [-> | ->].
    + by apply (trees_sound s1 (v0 :: vs) files Hfs v0 f0 eq_refl Hf0 Hpos opts addr Hf1 Hsb _ _ fuel best s7 (or_introl eq_refl) Hvol).
    + by apply (trees_sound s1 (v0 :: vs) files Hfs v0 f0 eq_refl Hf0 Hpos opts addr Hf1 Hsb _ _ fuel best s1 (or_intror eq_refl) Hfm).
Qed.

Lemma fsck_sound_witness :
  exists s1 s3 f0, hammer2_mkfs demo_uuid 5 64 [[47; 97]; [47; 98]] demo_opt (start demo_system) = Ok () s1 /\
    hammer2_init_volumes demo_cmp 128 4 (Some [47; 98; 58; 47; 97]) true (start (sys s1)) = Ok () s3 /\
    zone_sound s3 f0 fsck_init 0.
Proof.
  destruct (newfs_fsck_run demo_uuid demo_cmp 5 64 128 demo_system demo_devs (reverse demo_devs) demo_opt fsck_init 0)
    as (s1 & s2 & fm & vol & v0 & H1 & H2 & _ & H4 & _ & _ & _ & Hf & Hs & s3 & H3 & Hsz);
    [apply demo_uuid_raw|apply demo_cmp_refl|done|apply demo_mkfs_ok|apply demo_no_stale|apply demo_bytes|apply demo_plain
    |apply reverse_Permutation|done|done|].
  destruct (fsck_sound 128 fsck_init demo_cmp 4 [47; 98; 58; 47; 97] (start (sys s1)) s2 fm vol Hf (Hs demo_sizes) eq_refl eq_refl eq_refl H2)
    as (s3' & H3' & Hall).
  assert (s3' = s3) as -> by (assert (Ok () s3 = Ok () s3') as He by (rewrite <- H3'; symmetry; exact H3); by injection He as ->).
  cbv zeta in Hall. rewrite Hsz in Hall. destruct Hall as (files & w0 & f0 & _ & Hw & _ & Hz); [vm_compute; reflexivity|].
  exists s1, s3, f0. split; [exact H1|]. split; [exact H3'|]. apply (Hz 0); [split; [lia|reflexivity]|].
  assert ((hv_size <$> mkfs_vols 0 demo_devs) !! O = Some (hv_size w0)) as Hw0 by (by rewrite <- Hsz, list_lookup_fmap, Hw).
  assert (Some (hv_size w0) = Some (2 ^ 30)) as [= ->] by (rewrite <- Hw0; vm_compute; reflexivity). reflexivity.
Defined.

(** ** The recursion *)

(** A scan of a tree begins with fresh totals and the cache of earlier scans. *)
Definition fresh_scan (type : Z) (droot : blockref_tree delta_stats_t) : scan :=
  {| sc_bstats := init_blockref_stats type; sc_droot := droot; sc_dstats := zero_delta |}.

(** C27: [verify_blockref] computes the reference definition: with any cache of earlier results
    it returns 0 exactly on the trees that are sound, adds exactly the totals of the tree,
    and leaves a correct cache.  A fuel (a depth of the C stack) of the depth of the tree is
    enough. *)
Theorem fsck_verify_exact (s : h2state) (opts : fsck_options) (addr type : Z) (b : hammer2_blockref)
    (droot : blockref_tree delta_stats_t) (fuel : nat) :
  files_ok s -> tree_type type -> cache_ok s opts droot ->
  (forall sc s', verify_blockref addr opts fuel b false (fresh_scan type droot) s = Ok (true, sc) s' ->
     exists depth D, tree_delta s opts depth b = Some D /\ sc_dstats sc = norm D /\ cache_ok s opts (sc_droot sc) /\
       (pure_delta type D -> sc_bstats sc = add_all (init_blockref_stats type) D)) /\
  (forall D, tree_delta s opts fuel b = Some D -> ds_count D < 2 ^ 63 ->
     exists sc, verify_blockref addr opts fuel b false (fresh_scan type droot) s = Ok (true, sc) s).
Proof.
  intros Hf Hty Hc. split.
  - intros sc s' Hv. pose proof (verify_blockref_ro _ _ _ _ _ _ _ _ _ Hv) as ->.
    destruct (verify_sound s opts addr Hf fuel b _ sc Hv eq_refl Hc) as (d & D & Ht & Hd & Hc' & Hb).
    exists d, D. split_and!; [done|done|done|]. intros Hp. by apply (Hb (init_blockref_stats type) zero_delta).
  - intros D Ht Hn. destruct (verify_complete s opts addr Hf fuel b D (fresh_scan type droot) Ht Hn eq_refl Hc Hty) as (sc & Hv & _).
    by exists sc.
Qed.

(** A file of 8 MB: an empty header, and at 64 KB a block of references whose first one
    refers to the block itself, without a check code. *)
Definition loop_bref : hammer2_blockref :=
  {| bref_type := HAMMER2_BREF_TYPE_INDIRECT; bref_methods := 0; bref_copyid := 0; bref_keybits := 0; bref_vradix := 0;
     bref_flags := 0; bref_leaf_count := 0; bref_key := 0; bref_mirror_tid := 0; bref_modify_tid := 0;
     bref_data_off := 65536 + 10; bref_update_tid := 0; bref_embed := replicate 16 0; bref_check := replicate 64 0 |}.
Definition image_file : file :=
  {| f_size := 2 ^ 23; f_growable := true;
     f_data := λ i, if bool_decide (65536 <= i < 65664) then default 0 (encode loop_bref !! Z.to_nat (i - 65536)) else 0 |}.
Definition image_volume : hammer2_volume :=
  {| hv_fd := 3; hv_id := 0; hv_offset := 0; hv_size := 2 ^ 23; hv_path := Some [47; 97] |}.
Definition image_state : h2state :=
  let y := {| names := {[ [47; 97] := 1 ]};
              nodes := {[ 1 := {| nd_type := S_IFREG; nd_writable := true; nd_sectsize := 512; nd_file := image_file |} ]};
              devtabs := [] |} in
  set_initialized true (set_fso (set_o_nvolumes 1 (set_o_volumes [image_volume] (2 ^ 23) hammer2_init_ondisk))
    (set_fds {[ 3 := 1 ]} 4 (start y))).

Lemma image_files_ok : files_ok image_state.
Proof.
  intros ino nd Hn i. cbn in Hn. apply lookup_singleton_Some in Hn as [_ <-]. cbn [nd_file f_data image_file].
  case_bool_decide as Hi; [|done].
  destruct (encode loop_bref !! Z.to_nat (i - 65536)) as [x|] eqn:E; [|done]. cbn.
  assert (bytes_ok (encode loop_bref)) as Hb by (vm_compute; repeat constructor; discriminate).
  by apply (Forall_lookup_1 _ _ _ _ Hb E).
Qed.

Lemma fsck_verify_exact_witness :
  exists sc, verify_blockref 0 fsck_init 2 (root_blockref 0 HAMMER2_BREF_TYPE_VOLUME) false
    (fresh_scan HAMMER2_BREF_TYPE_VOLUME ∅) image_state = Ok (true, sc) image_state.
Proof.
  destruct (fsck_verify_exact image_state fsck_init 0 HAMMER2_BREF_TYPE_VOLUME (root_blockref 0 HAMMER2_BREF_TYPE_VOLUME) ∅ 2)
    as [_ Hc]; [apply image_files_ok|by left|apply cache_ok_empty|].
  apply (Hc (plus_delta tick (sum_deltas (replicate 4 (empty_delta fsck_init))))); [vm_compute; reflexivity|done].
Defined.

(** C38: fsck_hammer2 does not bound its recursion: a block of references without a check code
    whose first reference is the reference to it makes it recurse for ever (until the C
    stack overflows), whatever the cache holds of other blocks. *)
Theorem fsck_cycle_diverges (s : h2state) (opts : fsck_options) (addr : Z) (b : hammer2_blockref) (n : Z) (m : bytes)
    (rest : list hammer2_blockref) :
  files_ok s -> block s b = Some (n, m) -> n <> 0 -> is_Some (own_delta opts b n) ->
  check_good b (take (Z.to_nat n) m) = true -> children (bref_type b) m n = b :: rest ->
  forall fuel sc, cached (sc_droot sc) b = None -> verify_blockref addr opts fuel b false sc s = Stop OutOfFuel.
Proof.
  intros Hf Hblk Hn [own Ho] Hck Hch fuel. induction fuel as [|fuel IH]; intros sc Hc; [done|]. cbn [verify_blockref].
  rewrite Hc. replace (if bool_decide (bref_data_off b ≠ 0) then None else None) with (None (A := delta_stats_t)) by (by destruct (bool_decide _)).
  destruct (count_blockref opts b sc) as [sc1 ok] eqn:Hcnt.
  assert (read_media b s = Ok (Media n m) s) as Hr.
  { unfold block in Hblk. destruct (read_media b s) as [r s'|] eqn:E; [|done]. pose proof (read_media_ro _ _ _ _ E) as ->.
    destruct r; try done. by injection Hblk as -> ->. }
  rewrite (bind_Ok _ _ _ _ _ Hr). pose proof (count_spec s opts b n sc sc1 ok Hcnt) as Hown. rewrite Ho in Hown.
  destruct Hown as (-> & sc2 & Hcb & Hdr & _). rewrite (bind_Ok _ _ _ _ _ Hcb). rewrite bool_decide_eq_false_2 by done.
  destruct (read_media_block b s n m s Hf Hr Hn) as (Hmo & Hnl & Hmb).
  rewrite (bind_Ok _ _ _ _ _ (verify_check_spec addr b m n s Hmo Hnl Hmb)). rewrite Hck, andb_false_r. cbn [negb orb].
  rewrite bool_decide_eq_false_2 by (by intros [? ?]). rewrite Hch. apply bind_Stop. cbn [verify_children]. apply bind_Stop.
  apply IH. cbn. by rewrite Hdr.
Qed.

Lemma loop_block : exists m rest, block image_state loop_bref = Some (1024, m) /\ npdata m 1024 = loop_bref :: rest.
Proof.
  assert (match block image_state loop_bref with
          | Some (n, m) => bool_decide (n = 1024) && bool_decide (head (npdata m 1024) = Some loop_bref)
          | None => false
          end = true) as Hb by (vm_compute; reflexivity).
  destruct (block image_state loop_bref) as [[n m]|]; [|done]. apply andb_true_iff in Hb as [Hn Hh].
  apply bool_decide_eq_true in Hn as ->. apply bool_decide_eq_true in Hh. destruct (npdata m 1024) as [|c rest] eqn:E; [done|].
  injection Hh as ->. by exists m, rest.
Qed.

Lemma fsck_cycle_diverges_witness :
  verify_blockref 0 fsck_init 1000 loop_bref false (fresh_scan HAMMER2_BREF_TYPE_VOLUME ∅) image_state = Stop OutOfFuel.
Proof.
  destruct loop_block as (m & rest & E & Hch).
  apply (fsck_cycle_diverges image_state fsck_init 0 loop_bref 1024 m rest);
    [apply image_files_ok|exact E|done|by eexists|reflexivity|exact Hch|reflexivity].
Defined.

(** ** Reading a block *)

(** [read_media] on an open file system: for a reference to a block that is aligned to its
    size (of 2 bytes to 64 KB), it returns the size and the bytes that the address space has
    there, from the file of the right volume and at the right place, whatever window it had
    to read. *)
Theorem fsck_read_media (s : h2state) (vols : list hammer2_volume) (files : list file) (b : hammer2_blockref) (data : bytes) :
  open_fs s vols files -> in_u 64 (bref_data_off b) -> 1 <= bref_radix b <= 16 -> bref_off b mod 2 ^ bref_radix b = 0 ->
  fs_read vols files (bref_off b) (Z.to_nat (2 ^ bref_radix b)) = Some data ->
  exists m, read_media b s = Ok (Media (2 ^ bref_radix b) m) s /\ take (Z.to_nat (2 ^ bref_radix b)) m = data.
Proof.
  intros Hfs Ho Hr Hal Hrd. destruct (read_media_spec s vols files b data Hfs Ho Hr Hal Hrd) as (m & Hm & Ht & _). by exists m.
Qed.

Lemma image_open : open_fs image_state [image_volume] [image_file].
Proof.
  split_and!; [split_and!; try done; cbn; lia|done|]. constructor; [|constructor].
  eexists 1, _. split; [reflexivity|]. split; [reflexivity|]. split; [cbn; lia|reflexivity].
Qed.

Lemma fsck_read_media_witness :
  exists m, read_media loop_bref image_state = Ok (Media 1024 m) image_state /\
    take 1024 m = file_read image_file 65536 1024.
Proof.
  replace 1024%nat with (Z.to_nat (2 ^ bref_radix loop_bref)) by (vm_compute; reflexivity).
  apply (fsck_read_media image_state [image_volume] [image_file] loop_bref);
    [apply image_open|done|vm_compute; split; discriminate|reflexivity|reflexivity].
Defined.

(** For a block that is not aligned to its size the window can end before the block does
    (the loop compares [io_bytes + boff] with [bytes], not [io_bytes] with [boff + bytes]):
    the bytes that are moved were never read. *)
Theorem fsck_read_media_overread (s : h2state) (vols : list hammer2_volume) (files : list file) (b : hammer2_blockref)
    (k : nat) (r : Z) (v : hammer2_volume) (f : file) :
  open_fs s vols files -> in_u 64 (bref_data_off b) -> 1 <= bref_radix b <= 16 ->
  volume_of (hv_size <$> vols) (bref_off b) = Some (k, r) -> vols !! k = Some v -> files !! k = Some f ->
  r - bref_off b mod 2 ^ 14 + 2 ^ Z.max 14 (bref_radix b) <= hv_size v ->
  2 ^ Z.max 14 (bref_radix b) < bref_off b mod 2 ^ 14 + 2 ^ bref_radix b ->
  read_media b s = Stop Undef.
Proof.
  intros Hfs Ho Hr Hv Hk Hf Hin Hover. destruct (read_media_run s vols files b k r v f Hfs Ho Hr Hv Hk Hf Hin) as [_ ->].
  pose proof (Z.pow_le_mono_r 2 (bref_radix b) (Z.max 14 (bref_radix b)) ltac:(lia) ltac:(lia)).
  rewrite !bool_decide_eq_false_2 by lia. done.
Qed.

(** A 16 KB block at 65 KB. *)
Definition skew_bref : hammer2_blockref :=
  {| bref_type := HAMMER2_BREF_TYPE_DATA; bref_methods := 0; bref_copyid := 0; bref_keybits := 0; bref_vradix := 0;
     bref_flags := 0; bref_leaf_count := 0; bref_key := 0; bref_mirror_tid := 0; bref_modify_tid := 0;
     bref_data_off := 66560 + 14; bref_update_tid := 0; bref_embed := replicate 16 0; bref_check := replicate 64 0 |}.

Lemma fsck_read_media_overread_witness : read_media skew_bref image_state = Stop Undef.
Proof.
  apply (fsck_read_media_overread image_state [image_volume] [image_file] skew_bref 0 66560 image_volume image_file);
    [apply image_open|done|vm_compute; split; discriminate|reflexivity|reflexivity|reflexivity|vm_compute; discriminate|reflexivity].
Defined.
